(* ===== verification/_CoqProject ===== *)
-Q . S2P
Prelude.v
CircularMap.v
RlcAmWindow.v
RlcAmPdu.v
RlcAmStatus.v
RlcAmStatusThms.v
RlcSegments.v
RlcRxAm.v
RlcRxAmThms.v
RlcRxAmReport.v
RlcRxAmSpec.v
RlcQueues.v
RlcTxAm.v
RlcTxAmThms.v
RlcTxAmAck.v
RlcTxAmSpec.v
RlcAm.v
OrdMap.v
RlcUmPdu.v
RlcTxUm.v
RlcTxUmThms.v
RlcRxUm.v
RlcRxUmThms.v
RlcUm.v
RlcRxUmRun.v
RlcTm.v
BitEncoding.v
SecS3g.v
SecZuc.v
Security.v
SecurityThms.v
PdcpPdu.v
PdcpRx.v
PdcpRxThms.v
PdcpTx.v
PdcpLink.v
PdcpStatus.v
PdcpSpec.v
Timers.v
TimersThms.v
TimersSpec.v
Gtpu.v
GtpuThms.v
SlottedVector.v
MacUl.v
MacUlThms.v
MacDl.v
MacDlThms.v
SlotPoint.v
Harq.v
HarqThms.v
LcMgr.v
LcMgrThms.v
Bits.v
Asn1.v
Asn1Bits.v
Asn1Thms.v
Asn1Msg.v
NgapPdu.v
NgapThms.v
BitBuffer.v
PhyPrg.v
PhyCrc.v
F1u.v
F1uThms.v
F1uConn.v
SecContext.v
BoundedBitset.v
BitsetThms.v
BitsetSearch.v
BitsetSpec.v
BitsetRefine.v
RbInterval.v
Tdd.v
ResourceGrid.v
ResourceGridThms.v
ResourceGridRing.v
RbGroups.v
RbGroupsThms.v
Sliv.v
