(* ===== verification/Prelude.v ===== *)
(** * srsRAN Project: verification of protocol components of the gNB

    The gNB carries user data through a stack of sublayers.  In the CU-UP, GTP-U
    tunnels end (lib/gtpu) and PDCP (lib/pdcp) numbers, ciphers, protects and reorders
    SDUs; in the DU, RLC (lib/rlc) segments, retransmits and reassembles them, and the
    MAC (lib/mac) multiplexes the PDUs of the bearers into transport blocks, as large
    as the scheduler (lib/scheduler) decides.  The control plane exchanges messages in
    ASN.1 packed encoding (lib/asn1).  The sublayers call each other downwards
    with SDUs and grants and upwards with PDUs and notifications; each keeps windows
    of sequence numbers, queues and timers.  This development models these components
    as pure functions on records and proves what makes each of them, and some of their
    compositions, correct.

    ** Conventions

    One definition per method, named after it (with a prefix where two classes share a
    name) and with the guards in the order of the code.  Objects are records; a method
    takes the object and returns the new one together with the notifications it sends,
    as a list of events.  [None] is a failed srsran_assert, an out-of-range access or a
    fatal error, so a theorem that ends in [Some] states that no assertion fails.
    Unsigned integers are [Z] values reduced explicitly by [u8], [u16], [u32] where the
    code stores them; byte buffers are lists of bytes.  Containers are the models of
    the code's own containers, or [gmap] for std::map lookups, or [OrdMap] where the
    order of a std::map is observed.  Loops that are not structural carry fuel; the
    bound is part of the definition (the size of a window, the length of a buffer or
    the number of bytes left, one step for each), and the theorems prove that the
    result is [Some], so the fuel never runs out.  Deferred tasks and expired timers
    are steps of their own, so theorems quantify over every interleaving.

    ** Files

    Containers and support:
    - [CircularMap], [RlcAmWindow]: circular_map.h and the AM windows on top of it (an
      interface with laws and its instance); it refines a finite map.
    - [OrdMap]: std::map as a sorted association list.
    - [SlottedVector]: slotted_vector of slotted_array.h, refining a finite map.
    - [BitEncoding]: bit_encoder and bit_decoder (lib/support/bit_encoding.cpp).
    - [Bits], [BitBuffer]: lemmas on the bits of words, and bit_buffer.h, the packed bits
      of the physical layer.
    - [BoundedBitset], [BitsetThms], [BitsetSearch], [BitsetSpec], [BitsetRefine]:
      bounded_bitset.h for both bit orders; a set refines the list of its bits.
    - [Timers], [TimersThms], [TimersSpec]: the timer service (lib/support/timers.cpp)
      with its wheel, its postponed expiries and the tasks it dispatches.

    RLC (lib/rlc):
    - [RlcAmPdu], [RlcAmStatus], [RlcAmStatusThms]: SN arithmetic, AMD header,
      STATUS PDU.
    - [RlcSegments], [RlcRxAm], [RlcRxAmThms], [RlcRxAmReport], [RlcRxAmSpec]:
      reassembly and the AM receiver: safety of every run, delivery at most once,
      effect of every PDU and expiry, exactness of the status report.
    - [RlcQueues], [RlcTxAm], [RlcTxAmThms], [RlcTxAmAck], [RlcTxAmSpec]: queues and
      the AM transmitter: safety of every run, correct segmentation and
      retransmission, effect of STATUS PDUs, buffer state, polling.
    - [RlcAm]: both directions of an AM entity, the truncation of SDUs by the
      retransmission of a first segment, and the defects that the proofs of the
      transmitter exclude by hypothesis.
    - [RlcUmPdu], [RlcTxUm], [RlcTxUmThms], [RlcRxUm], [RlcRxUmThms], [RlcUm],
      [RlcRxUmRun]: UM; a pair of entities implements a FIFO.
    - [RlcTm]: TM.

    Security (lib/security, include/srsran/security):
    - [SecS3g], [SecZuc], [Security], [SecurityThms]: SNOW 3G, ZUC, the ciphering and
      integrity algorithms; AES is a parameter.
    - [SecContext]: selection of algorithms and derivation of keys (security.cpp); the
      message authentication code of the key derivation is a parameter.

    PDCP (lib/pdcp):
    - [PdcpPdu], [PdcpRx], [PdcpRxThms], [PdcpTx], [PdcpLink], [PdcpStatus],
      [PdcpSpec]: both entities and the two ends of a bearer over lower layers that
      lose, repeat and reorder, across re-establishments with new keys.

    GTP-U (lib/gtpu): [Gtpu], [GtpuThms].

    F1-U (lib/f1u): [F1u], [F1uThms] (the bearers of the CU-UP and the DU, and downlink
    and uplink over them), [F1uConn] (the connector of bearers in one process, with
    the lifetime of the bearers on both sides).

    MAC (lib/mac): [MacUl], [MacUlThms] (decoder, against the LCID table of TS 38.321
    written down apart from the code; control elements, UE manager, routing), [MacDl], [MacDlThms] (assembly of transport blocks and random access
    responses; RLC UM over the MAC).

    Scheduler (lib/scheduler):
    - [SlotPoint]: slots and their wrap-around arithmetic (ran/slot_point.h).
    - [Harq], [HarqThms]: HARQ processes and entities (ue_scheduling/harq_process.cpp):
      safety of every run, new-data indicators, timeouts, routing of HARQ-ACKs.
    - [LcMgr], [LcMgrThms]: the downlink and uplink logical channel managers and the
      demand of a UE (ue_scheduling/ue.cpp): division of transport blocks, and its
      composition with the assembler of the MAC.

    - [RbInterval]: intervals of symbols and resource blocks (adt/interval.h,
      rb_interval.h) and the search for free blocks (support/rb_helper.cpp).
    - [Sliv]: the indicators of start and length of symbols (ran/sliv.h) and resource
      blocks (lib/ran/resource_allocation), a bijection.
    - [Tdd]: TDD patterns (ran/tdd_ul_dl_config.cpp) and the symbols of a slot in the
      configuration of a cell (cell/cell_configuration.cpp).
    - [ResourceGrid], [ResourceGridThms], [ResourceGridRing]: the grids of symbols and
      blocks of carriers and slots and their ring (cell/resource_grid.cpp): a grid refines a
      set of cells, allocations are disjoint, the ring is a window on the coming slots.
    - [RbGroups], [RbGroupsThms]: resource block groups, allocations by groups, and the
      bitmap of a bandwidth part (cell/resource_block_group.cpp, cell/vrb_alloc.cpp,
      cell/scheduler_prb.cpp).

    Physical layer (lib/phy/upper): [PhyPrg] (the scrambling sequence generator, equal to
    the Gold sequence of TS 38.211), [PhyCrc] (the table-driven CRC calculators, equal to
    polynomial division).

    ASN.1 (lib/asn1):
    - [Asn1]: the packed encoding rules of asn1_utils.cpp and asn1_utils.h.  The
      logarithms of libm, from which the code computes sizes, are a parameter with laws
      ([Log2f], [Log2fLaws]); [exact_log2f] satisfies them.
    - [Asn1Bits]: writer and reader as queues of bits, and [encodes], the round trip of a
      codec at every position, with the lemmas that compose codecs.
    - [Asn1Thms], [Asn1Msg]: numbers, strings, sequences, open types, extension groups and
      information elements, and bounds on their sizes.
    - [NgapPdu], [NgapThms]: the NGAP PDU and NASNonDeliveryIndication (lib/asn1/ngap);
      of the other messages the frame around the contents, for any codec of these.

    ** What the theorems show

    Doc comments beginning with a claim id mark the main theorems.  They are of these
    groups: invariants and safety (every sequence of operations on an entity, with
    arbitrary PDUs of the peer where the code is robust against them, keeps the
    invariant and fails no assertion); functional behaviour of single operations on
    every branch; refinement of an abstract object (finite map, FIFO, set of tunnels,
    list of bits, set of grid cells, in-order channel); round trips and equivalence with a reference format or
    algorithm; progress (timers expire on time and once, reordering never stalls);
    bounds (PDUs fit their grants); and errors: theorems that exhibit what the code
    does on inputs it does not guard against.  Each doc comment names the inputs its
    theorem covers; where the code misbehaves on the others, an error theorem of the
    same file says how.

    ** Not modelled

    Logging, metrics, formatters and PCAP do not influence the state.  Mutexes,
    executors and atomics are replaced by the atomicity of steps; data races are not
    modelled.  Byte buffer pools are unbounded.  The control plane (CU-CP, RRC, NGAP,
    F1AP, E1AP, the DU manager) consists of asynchronous procedures over generated
    ASN.1 types.  Of the generated codecs only one NGAP message is modelled: the others
    are sequences of calls of the same primitives.  Of the scheduler, the PDCCH, PUCCH
    and random access schedulers and the policies are not modelled.  Of the physical layer
    only the CRC and the scrambling sequence are: the rest is signal processing on floating
    point samples, and the variants for vector instructions of what is modelled are left
    out.  The radio, open fronthaul and application code is I/O and configuration. *)
From Stdlib Require Export ZArith Lia.
From stdpp Require Export base numbers list gmap sets option.

#[export] Set Default Goal Selector "!".
Open Scope Z_scope.

Declare Scope rlc_scope.
Delimit Scope rlc_scope with rlc.

(** A step that may fail: [None] is a failed assertion or check of the code. *)
Declare Scope fail_scope.
Delimit Scope fail_scope with fail.
Notation "'let*' x ':=' e 'in' c" :=
  (match e with Some x => c | None => None end) (at level 10, x pattern, e at level 200, c at level 200) : fail_scope.
Open Scope fail_scope.

(** ** Machine integers

    C++ unsigned integers are [Z] values; a store into a [uintN_t] applies the
    matching reduction below. *)
Definition u8 (x : Z) : Z := x mod 2 ^ 8.
Definition u16 (x : Z) : Z := x mod 2 ^ 16.
Definition u32 (x : Z) : Z := x mod 2 ^ 32.
Definition u64 (x : Z) : Z := x mod 2 ^ 64.

Notation "a '⊕32' b" := (u32 (a + b)) (at level 50, left associativity) : rlc_scope.
Notation "a '⊖32' b" := (u32 (a - b)) (at level 50, left associativity) : rlc_scope.

(** Bytes and byte buffers: a [byte_buffer], [byte_buffer_view] or
    [byte_buffer_slice] is the list of its bytes. *)
Definition is_u8 (b : Z) : Prop := 0 <= b < 256.
Definition is_u16 (b : Z) : Prop := 0 <= b < 65536.
Definition is_u32 (b : Z) : Prop := 0 <= b < 2 ^ 32.
Definition bytes := list Z.
Definition bytes_ok (l : bytes) : Prop := Forall is_u8 l.
Definition blen (l : bytes) : Z := Z.of_nat (length l).

(** [make_slice off len] and [advance]. *)
Definition slice (off len : Z) (l : bytes) : bytes :=
  take (Z.to_nat len) (drop (Z.to_nat off) l).
Definition bdrop (n : Z) (l : bytes) : bytes := drop (Z.to_nat n) l.

(** ** Arithmetic automation *)
Ltac zdm := Z.div_mod_to_equations.
Ltac mlia := zdm; lia.

Ltac invc H := inversion H; clear H; simplify_eq.

(** Case analysis on the boolean tests and conditionals of the code. *)
Ltac bool_cases :=
  repeat match goal with
  | H : context [if ?b then _ else _] |- _ =>
      let E := fresh "E" in destruct b eqn:E
  | |- context [if ?b then _ else _] =>
      let E := fresh "E" in destruct b eqn:E
  end.

(** Boolean comparisons reflected into propositions. *)
Ltac breflect :=
  repeat match goal with
  | H : _ && _ = true |- _ => apply andb_true_iff in H; destruct H
  | H : _ || _ = false |- _ => apply orb_false_iff in H; destruct H
  | H : negb _ = true |- _ => apply negb_true_iff in H
  | H : negb _ = false |- _ => apply negb_false_iff in H
  | H : (_ <? _) = true |- _ => apply Z.ltb_lt in H
  | H : (_ <? _) = false |- _ => apply Z.ltb_ge in H
  | H : (_ <=? _) = true |- _ => apply Z.leb_le in H
  | H : (_ <=? _) = false |- _ => apply Z.leb_gt in H
  | H : (_ =? _) = true |- _ => apply Z.eqb_eq in H
  | H : (_ =? _) = false |- _ => apply Z.eqb_neq in H
  | H : bool_decide _ = true |- _ => apply bool_decide_eq_true in H
  | H : bool_decide _ = false |- _ => apply bool_decide_eq_false in H
  end.

Create HintDb rlc.
Create Rewrite HintDb rlc.
Create Rewrite HintDb bitfields.

Lemma u8_is_u8 x : is_u8 (u8 x).
Proof. unfold is_u8, u8. pose proof (Z.mod_pos_bound x (2^8)); lia. Qed.
Lemma u16_is_u16 x : is_u16 (u16 x).
Proof. unfold is_u16, u16. pose proof (Z.mod_pos_bound x (2^16)); lia. Qed.
Lemma u32_is_u32 x : is_u32 (u32 x).
Proof. unfold is_u32, u32. apply Z.mod_pos_bound. lia. Qed.
Lemma u8_id x : is_u8 x -> u8 x = x.
Proof. unfold is_u8, u8. intros. apply Z.mod_small. lia. Qed.
Lemma u16_id x : is_u16 x -> u16 x = x.
Proof. unfold is_u16, u16. intros. apply Z.mod_small. lia. Qed.
Lemma u32_id x : is_u32 x -> u32 x = x.
Proof. unfold is_u32, u32. intros. apply Z.mod_small. lia. Qed.
#[export] Hint Resolve u8_is_u8 u16_is_u16 u32_is_u32 : rlc.

(** Reducing modulo a power of two that divides the word size absorbs the
    32-bit wrap-around. *)
Lemma u32_mod_pow2 x k : 0 <= k <= 32 -> u32 x mod 2 ^ k = x mod 2 ^ k.
Proof.
  intros Hk. unfold u32. replace 32 with ((32 - k) + k) by lia.
  rewrite Z.pow_add_r by lia. rewrite (Z.mul_comm (2 ^ (32 - k))).
  rewrite Z.rem_mul_r by (apply Z.pow_nonzero || apply Z.pow_pos_nonneg; lia).
  rewrite Z.mul_comm, Z.mod_add by (apply Z.pow_nonzero; lia).
  apply Z.mod_mod, Z.pow_nonzero; lia.
Qed.

(** ** Bit fields

    Masks and shifts of the packers are turned into arithmetic, which [lia]
    decides. *)
Lemma land_mask x n k : 0 <= n -> 0 <= k ->
  Z.land x (Z.shiftl (Z.ones n) k) = ((x / 2 ^ k) mod 2 ^ n) * 2 ^ k.
Proof.
  intros Hn Hk. rewrite <- Z.shiftl_mul_pow2 by lia.
  rewrite <- Z.land_ones by lia. rewrite <- Z.shiftr_div_pow2 by lia.
  apply Z.bits_inj'. intros i Hi.
  rewrite Z.land_spec, !Z.shiftl_spec by lia.
  destruct (decide (i < k)).
  - rewrite !(Z.testbit_neg_r _ (i - k)) by lia. apply andb_false_r.
  - rewrite Z.land_spec, Z.shiftr_spec by lia.
    by replace (i - k + k) with i by lia.
Qed.

Lemma lor_disjoint k a b : 0 <= k -> a mod 2 ^ k = 0 -> 0 <= b < 2 ^ k ->
  Z.lor a b = a + b.
Proof.
  intros Hk Ha Hb.
  assert (Z.land a b = 0) as Hl.
  { apply Z.bits_inj'. intros i Hi. rewrite Z.land_spec, Z.bits_0.
    destruct (decide (i < k)).
    - assert (Z.testbit a i = false) as ->; [|done].
      rewrite <- (Z.mod_pow2_bits_low a k i) by lia. rewrite Ha. apply Z.bits_0.
    - assert (Z.testbit b i = false) as ->; [|apply andb_false_r].
      rewrite <- (Z.mod_small b (2^k)) by lia.
      apply Z.mod_pow2_bits_high. lia. }
  rewrite <- Z.lxor_lor by done. symmetry. by apply Z.add_nocarry_lxor.
Qed.

Lemma land_0x01 x : Z.land x 1 = x mod 2. Proof. apply (Z.land_ones x 1). lia. Qed.
Lemma land_0x03 x : Z.land x 3 = x mod 4. Proof. apply (Z.land_ones x 2). lia. Qed.
Lemma land_0x07 x : Z.land x 7 = x mod 8. Proof. apply (Z.land_ones x 3). lia. Qed.
Lemma land_0x0f x : Z.land x 15 = x mod 16. Proof. apply (Z.land_ones x 4). lia. Qed.
Lemma land_0x3f x : Z.land x 63 = x mod 64. Proof. apply (Z.land_ones x 6). lia. Qed.
Lemma land_0x7f x : Z.land x 127 = x mod 128. Proof. apply (Z.land_ones x 7). lia. Qed.
Lemma land_0xff x : Z.land x 255 = x mod 256. Proof. apply (Z.land_ones x 8). lia. Qed.
Lemma land_0x02 x : Z.land x 2 = ((x / 2) mod 2) * 2. Proof. apply (land_mask x 1 1); lia. Qed.
Lemma land_0x04 x : Z.land x 4 = ((x / 4) mod 2) * 4. Proof. apply (land_mask x 1 2); lia. Qed.
Lemma land_0x08 x : Z.land x 8 = ((x / 8) mod 2) * 8. Proof. apply (land_mask x 1 3); lia. Qed.
Lemma land_0x10 x : Z.land x 16 = ((x / 16) mod 2) * 16. Proof. apply (land_mask x 1 4); lia. Qed.
Lemma land_0x20 x : Z.land x 32 = ((x / 32) mod 2) * 32. Proof. apply (land_mask x 1 5); lia. Qed.
Lemma land_0x80 x : Z.land x 128 = ((x / 128) mod 2) * 128. Proof. apply (land_mask x 1 7); lia. Qed.
Lemma land_0x0c x : Z.land x 12 = ((x / 4) mod 4) * 4. Proof. apply (land_mask x 2 2); lia. Qed.
Lemma land_0xc0 x : Z.land x 192 = ((x / 64) mod 4) * 64. Proof. apply (land_mask x 2 6); lia. Qed.
Lemma land_0xf0 x : Z.land x 240 = ((x / 16) mod 16) * 16. Proof. apply (land_mask x 4 4); lia. Qed.
Lemma land_0xfc x : Z.land x 252 = ((x / 4) mod 64) * 4. Proof. apply (land_mask x 6 2); lia. Qed.

#[export] Hint Rewrite land_0x01 land_0x03 land_0x07 land_0x0f land_0x3f land_0x7f
  land_0xff land_0x02 land_0x04 land_0x08 land_0x10 land_0x20 land_0x80 land_0x0c
  land_0xc0 land_0xf0 land_0xfc : bitfields.
#[export] Hint Rewrite Z.shiftl_mul_pow2 Z.shiftr_div_pow2 using lia : bitfields.

Ltac pow2s :=
  repeat match goal with
  | |- context [2 ^ ?n] =>
      match n with Z0 => idtac | Zpos _ => idtac end;
      let v := eval vm_compute in (2 ^ n) in change (2 ^ n) with v
  | H : context [2 ^ ?n] |- _ =>
      match n with Z0 => idtac | Zpos _ => idtac end;
      let v := eval vm_compute in (2 ^ n) in change (2 ^ n) with v in H
  end.

(** Turns every mask, shift and disjoint [|=] of the goal into arithmetic. *)
Ltac lor_step :=
  match goal with
  | |- context [Z.lor ?a ?b] =>
      first [ rewrite (lor_disjoint 1 a b) by (pow2s; mlia)
            | rewrite (lor_disjoint 2 a b) by (pow2s; mlia)
            | rewrite (lor_disjoint 3 a b) by (pow2s; mlia)
            | rewrite (lor_disjoint 4 a b) by (pow2s; mlia)
            | rewrite (lor_disjoint 5 a b) by (pow2s; mlia)
            | rewrite (lor_disjoint 6 a b) by (pow2s; mlia)
            | rewrite (lor_disjoint 7 a b) by (pow2s; mlia)
            | rewrite (lor_disjoint 8 a b) by (pow2s; mlia)
            | rewrite (lor_disjoint 10 a b) by (pow2s; mlia)
            | rewrite (lor_disjoint 14 a b) by (pow2s; mlia)
            | rewrite (lor_disjoint 16 a b) by (pow2s; mlia) ]
  end.
Ltac bits_arith := autorewrite with bitfields; pow2s; repeat lor_step; pow2s.

(** ** Generic lemmas on byte buffers *)
Lemma blen_nonneg l : 0 <= blen l.
Proof. unfold blen. lia. Qed.
Lemma blen_app l1 l2 : blen (l1 ++ l2) = blen l1 + blen l2.
Proof. unfold blen. rewrite length_app. lia. Qed.
Lemma blen_cons b l : blen (b :: l) = 1 + blen l.
Proof. unfold blen. simpl. lia. Qed.
Lemma blen_nil : blen [] = 0.
Proof. done. Qed.
Lemma blen_bdrop n l : 0 <= n <= blen l -> blen (bdrop n l) = blen l - n.
Proof. unfold blen, bdrop. intros. rewrite length_drop. lia. Qed.
Lemma blen_slice off len l :
  0 <= off -> 0 <= len -> off + len <= blen l -> blen (slice off len l) = len.
Proof. unfold blen, slice. intros. rewrite length_take, length_drop. lia. Qed.
#[export] Hint Rewrite blen_app blen_cons blen_nil : rlc.

Lemma slice_app_adjacent a b c l :
  0 <= a -> 0 <= b -> 0 <= c -> slice a b l ++ slice (a + b) c l = slice a (b + c) l.
Proof.
  intros. unfold slice.
  replace (Z.to_nat (b + c)) with (Z.to_nat b + Z.to_nat c)%nat by lia.
  replace (Z.to_nat (a + b)) with (Z.to_nat a + Z.to_nat b)%nat by lia.
  rewrite <- drop_drop. symmetry. rewrite <- (take_drop (Z.to_nat b) (drop _ l)) at 1.
  rewrite take_app, take_take, length_take.
  destruct (decide (length (drop (Z.to_nat a) l) <= Z.to_nat b)%nat).
  - rewrite (drop_ge _ (Z.to_nat b)) by done. rewrite !take_nil, !app_nil_r.
    f_equal. lia.
  - f_equal; f_equal; lia.
Qed.
Lemma slice_all l : slice 0 (blen l) l = l.
Proof. unfold slice, blen. rewrite Nat2Z.id. apply take_ge. simpl. lia. Qed.
