(* ===== verification/CircularMap.v ===== *)
(** * [circular_map]

    [include/srsran/adt/circular_map.h]: a map from unsigned keys to values kept
    in [N] slots, the key [k] living in slot [k % N].  The theorems relate the
    slot array to a finite map ([gmap]). *)
From S2P Require Import Prelude.

(** The arrays [buffer] and [present] as one partial map from slot indices to
    the stored (key, object) pair; [count] is the element counter. *)
Record circular_map (T : Type) := CircularMap {
  slots : gmap Z (Z * T);
  count : Z;
}.
Arguments CircularMap {T} _ _.
Arguments slots {T} _.
Arguments count {T} _.

Section CircularMap.
  Context {T : Type} (N : Z).

Definition cm_empty : circular_map T := CircularMap ∅ 0.

Definition cm_contains (m : circular_map T) (key : Z) : bool :=
  match slots m !! (key mod N) with
  | Some (k, _) => k =? key
  | None => false
  end.

Definition cm_has_space (m : circular_map T) (key : Z) : bool :=
  match slots m !! (key mod N) with Some _ => false | None => true end.

(** [insert] (and [emplace]): refused when the slot is taken. *)
Definition cm_insert (m : circular_map T) (key : Z) (obj : T) : bool * circular_map T :=
  match slots m !! (key mod N) with
  | Some _ => (false, m)
  | None => (true, CircularMap (<[key mod N := (key, obj)]> (slots m)) (count m + 1))
  end.

Definition cm_erase (m : circular_map T) (key : Z) : bool * circular_map T :=
  if cm_contains m key
  then (true, CircularMap (delete (key mod N) (slots m)) (count m - 1))
  else (false, m).

Definition cm_overwrite (m : circular_map T) (key : Z) (obj : T) : circular_map T :=
  let m1 := match slots m !! (key mod N) with
            | Some (k, _) => snd (cm_erase m k)
            | None => m
            end in
  snd (cm_insert m1 key obj).

(** [operator[]]: an assertion failure ([None]) when the key is absent. *)
Definition cm_at (m : circular_map T) (key : Z) : option T :=
  if cm_contains m key then snd <$> slots m !! (key mod N) else None.

(** A store through the reference returned by [operator[]]. *)
Definition cm_set (m : circular_map T) (key : Z) (obj : T) : option (circular_map T) :=
  if cm_contains m key
  then Some (CircularMap (<[key mod N := (key, obj)]> (slots m)) (count m))
  else None.

Definition cm_clear (m : circular_map T) : circular_map T := CircularMap ∅ 0.

Definition cm_size (m : circular_map T) : Z := count m.
Definition cm_is_empty (m : circular_map T) : bool := count m =? 0.
Definition cm_full (m : circular_map T) : bool := count m =? N.

(** Type invariant: every stored key sits in its own slot and the counter is
    the number of occupied slots. *)
Record cm_ok (m : circular_map T) : Prop := {
  cm_slot_key : forall i k v, slots m !! i = Some (k, v) -> i = k mod N;
  cm_count : count m = Z.of_nat (size (slots m));
}.

(** The finite map represented by the slots. *)
Definition cm_abs (m : circular_map T) : gmap Z T :=
  list_to_map (snd <$> map_to_list (slots m)).

Lemma cm_contains_at m k : cm_contains m k = bool_decide (is_Some (cm_at m k)).
Proof.
  unfold cm_at. destruct (cm_contains m k) eqn:E; unfold cm_contains in E.
  - destruct (slots m !! _) as [[k' v]|]; [|done]. by rewrite bool_decide_true.
  - rewrite bool_decide_false; [done|]. by intros [? [=]].
Qed.

Lemma cm_at_Some m k v : cm_at m k = Some v <-> slots m !! (k mod N) = Some (k, v).
Proof.
  unfold cm_at, cm_contains. destruct (slots m !! _) as [[k' v']|]; [|done].
  destruct (Z.eqb_spec k' k); simplify_eq/=; naive_solver.
Qed.

Lemma cm_at_None m k : cm_at m k = None <-> forall v, slots m !! (k mod N) <> Some (k, v).
Proof.
  rewrite eq_None_not_Some. split.
  - intros H v Hv. apply H. exists v. by apply cm_at_Some.
  - intros H [v Hv%cm_at_Some]. by apply (H v).
Qed.

Lemma cm_keys_NoDup m : cm_ok m -> NoDup ((snd <$> map_to_list (slots m)).*1).
Proof.
  intros Hok. rewrite <- list_fmap_compose.
  assert (Forall (fun x => x.1 = (fst ∘ snd) x mod N) (map_to_list (slots m))) as Hall.
  { apply list.Forall_forall. intros [i [k v]] Hin%elem_of_map_to_list.
    by eapply cm_slot_key in Hin. }
  pose proof (NoDup_fst_map_to_list (slots m)) as Hnd.
  induction (map_to_list (slots m)) as [|x l IH]; simpl in *; [constructor|].
  apply list.NoDup_cons in Hnd as [Hx Hnd]. apply list.Forall_cons in Hall as [Hh Hall].
  constructor; [|by apply IH].
  intros ([i [k v]] & Heq & Hin)%list_elem_of_fmap. apply Hx.
  apply list_elem_of_fmap. exists (i, (k, v)). split; [|done].
  eapply list.Forall_forall in Hall; [|done]. simpl in *. by rewrite Hh, Hall, Heq.
Qed.

Lemma cm_abs_lookup m k : cm_ok m -> cm_abs m !! k = cm_at m k.
Proof.
  intros Hok. apply option_eq. intros v. unfold cm_abs.
  rewrite <- elem_of_list_to_map by by apply cm_keys_NoDup.
  rewrite list_elem_of_fmap, cm_at_Some. split.
  - intros ([i [k' v']] & [= -> ->] & Hin%elem_of_map_to_list).
    by rewrite (cm_slot_key _ Hok _ _ _ Hin) in Hin.
  - intros H. exists (k mod N, (k, v)). by rewrite elem_of_map_to_list.
Qed.

Lemma cm_empty_ok : cm_ok cm_empty.
Proof. split; [intros i k v; simpl; by rewrite lookup_empty|done]. Qed.

Lemma cm_insert_ok m k v : cm_ok m -> cm_ok (cm_insert m k v).2.
Proof.
  intros [Hs Hc]. unfold cm_insert. destruct (slots m !! _) eqn:E; [by split|].
  split; simpl.
  - intros i k' v'. rewrite lookup_insert. case_decide; naive_solver.
  - rewrite map_size_insert_None by done. lia.
Qed.

Lemma cm_erase_ok m k : cm_ok m -> cm_ok (cm_erase m k).2.
Proof.
  intros [Hs Hc]. unfold cm_erase. destruct (cm_contains m k) eqn:E; [|by split].
  unfold cm_contains in E. destruct (slots m !! (k mod N)) eqn:E2; [|done].
  split; simpl.
  - intros i k' v'. rewrite lookup_delete. case_decide; naive_solver.
  - rewrite map_size_delete_Some by eauto.
    assert (size (slots m) <> 0)%nat; [|lia].
    intros H0%map_size_empty_inv. rewrite H0, lookup_empty in E2. done.
Qed.

Lemma cm_overwrite_ok m k v : cm_ok m -> cm_ok (cm_overwrite m k v).
Proof.
  intros Hok. unfold cm_overwrite. apply cm_insert_ok.
  destruct (slots m !! _) as [[]|]; [|done]. by apply cm_erase_ok.
Qed.

Lemma cm_set_ok m k v m' : cm_ok m -> cm_set m k v = Some m' -> cm_ok m'.
Proof.
  intros [Hs Hc]. unfold cm_set, cm_contains.
  destruct (slots m !! (k mod N)) as [[k' v']|] eqn:E; [|done].
  destruct (Z.eqb_spec k' k); intros [= <-]; subst. split; simpl.
  - intros i k' v''. rewrite lookup_insert. case_decide; naive_solver.
  - rewrite map_size_insert_Some by eauto. done.
Qed.

(** Lookup in each result, the form the window laws use. *)
Lemma cm_at_set m k v m' j : cm_set m k v = Some m' ->
  cm_at m' j = if decide (j = k) then Some v else cm_at m j.
Proof.
  unfold cm_set, cm_contains.
  destruct (slots m !! (k mod N)) as [[k' v']|] eqn:E; [|done].
  destruct (Z.eqb_spec k' k); intros [= <-]; subst.
  apply option_eq. intros w. case_decide; subst; rewrite !cm_at_Some; simpl.
  - rewrite lookup_insert_eq. naive_solver.
  - rewrite lookup_insert. case_decide as Hd; [|done].
    rewrite <- Hd, E. naive_solver.
Qed.

Lemma cm_at_erase m k j : cm_at (cm_erase m k).2 j = if decide (j = k) then None else cm_at m j.
Proof.
  unfold cm_erase. destruct (cm_contains m k) eqn:E; simpl.
  - unfold cm_contains in E. destruct (slots m !! (k mod N)) as [[k' v']|] eqn:E2; [|done].
    breflect. subst k'. apply option_eq. intros w.
    case_decide; subst; rewrite !cm_at_Some; simpl.
    + rewrite lookup_delete_eq. naive_solver.
    + rewrite lookup_delete. case_decide as Hd; [|done].
      rewrite <- Hd, E2. naive_solver.
  - case_decide; [subst|done]. rewrite cm_contains_at in E.
    apply bool_decide_eq_false in E. by apply eq_None_not_Some.
Qed.

Lemma cm_at_overwrite m k v j : cm_ok m ->
  cm_at (cm_overwrite m k v) j =
    if decide (j = k) then Some v
    else if decide (j mod N = k mod N) then None else cm_at m j.
Proof.
  intros [Hs Hc].
  assert (slots (cm_overwrite m k v) = <[k mod N := (k, v)]> (slots m)) as Hsl.
  { unfold cm_overwrite, cm_erase, cm_contains, cm_insert.
    destruct (slots m !! (k mod N)) as [[k' v']|] eqn:E; [|by rewrite E].
    rewrite <- (Hs _ _ _ E), E, Z.eqb_refl. simpl. rewrite lookup_delete_eq. simpl.
    apply insert_delete_eq. }
  apply option_eq. intros w. rewrite cm_at_Some, Hsl, lookup_insert.
  destruct (decide (j = k)) as [->|Hne].
  - rewrite decide_True by done. naive_solver.
  - destruct (decide (k mod N = j mod N)).
    + rewrite (decide_True (P := j mod N = k mod N)) by done. naive_solver.
    + rewrite (decide_False (P := j mod N = k mod N)) by done. by rewrite cm_at_Some.
Qed.

Lemma cm_contains_keys m k : cm_contains m k = true -> exists v, slots m !! (k mod N) = Some (k, v).
Proof.
  unfold cm_contains. destruct (slots m !! _) as [[k' v]|]; [|done].
  intros; breflect; subst; eauto.
Qed.

Lemma cm_abs_size m : cm_ok m -> size (cm_abs m) = size (slots m).
Proof.
  intros Hok. unfold cm_abs. rewrite map_size_list_to_map by by apply cm_keys_NoDup.
  by rewrite length_fmap, length_map_to_list.
Qed.

Lemma cm_abs_overwrite m k v : cm_ok m ->
  cm_abs (cm_overwrite m k v)
  = <[k := v]> (filter (fun kv => kv.1 mod N <> k mod N) (cm_abs m)).
Proof.
  intros Hok. apply map_eq. intros j.
  rewrite cm_abs_lookup by by apply cm_overwrite_ok.
  rewrite cm_at_overwrite, lookup_insert, map_lookup_filter, cm_abs_lookup by done.
  destruct (decide (j = k)) as [->|Hne]; [by rewrite decide_True|].
  rewrite (decide_False (P := k = j)) by congruence.
  destruct (cm_at m j) as [w|] eqn:E; simpl.
  - destruct (decide (j mod N = k mod N)); case_guard; naive_solver.
  - by case_decide.
Qed.

Lemma cm_abs_insert m k v : cm_ok m -> cm_has_space m k = true ->
  (cm_insert m k v).1 = true /\ cm_abs (cm_insert m k v).2 = <[k := v]> (cm_abs m).
Proof.
  intros Hok Hsp.
  assert (slots m !! (k mod N) = None) as E
    by (unfold cm_has_space in Hsp; by destruct (slots m !! _)).
  split; [unfold cm_insert; by rewrite E|].
  assert ((cm_insert m k v).2 = cm_overwrite m k v) as -> by (unfold cm_overwrite; by rewrite E).
  rewrite cm_abs_overwrite by done. f_equal. apply map_filter_id. intros j w Hj Hjk.
  rewrite cm_abs_lookup, cm_at_Some in Hj by done. simpl in Hjk. congruence.
Qed.

Lemma cm_abs_erase m k : cm_ok m -> cm_abs (cm_erase m k).2 = delete k (cm_abs m).
Proof.
  intros Hok. apply map_eq. intros j.
  rewrite cm_abs_lookup by by apply cm_erase_ok.
  rewrite cm_at_erase, lookup_delete, cm_abs_lookup by done.
  repeat case_decide; congruence.
Qed.

Lemma cm_abs_set m k v m' : cm_ok m -> cm_set m k v = Some m' -> cm_abs m' = <[k := v]> (cm_abs m).
Proof.
  intros Hok Hset. apply map_eq. intros j.
  rewrite cm_abs_lookup by by eapply cm_set_ok.
  rewrite (cm_at_set _ _ _ _ _ Hset), lookup_insert, cm_abs_lookup by done.
  repeat case_decide; congruence.
Qed.
End CircularMap.

(** C9: [circular_map] implements a finite map.  Through the abstraction
    [cm_abs], [insert] into a free slot is map insertion and is refused without
    change on a taken slot; [overwrite] first drops every key that shares the
    slot; [erase] is map deletion and reports whether the key was there;
    [contains], [operator[]] and [size] read the abstract map; and the type
    invariant is preserved by all of them. *)
Theorem circular_map_refines_finite_map {T} (N : Z) (m : circular_map T) (k : Z) (v : T) :
  cm_ok N m ->
  (forall j, cm_at N m j = cm_abs m !! j
             /\ cm_contains N m j = bool_decide (is_Some (cm_abs m !! j)))
  /\ cm_size m = Z.of_nat (size (cm_abs m))
  /\ (cm_has_space N m k = true ->
      (cm_insert N m k v).1 = true /\ cm_abs (cm_insert N m k v).2 = <[k := v]> (cm_abs m))
  /\ (cm_has_space N m k = false -> cm_insert N m k v = (false, m))
  /\ cm_abs (cm_overwrite N m k v)
     = <[k := v]> (filter (fun kv => kv.1 mod N <> k mod N) (cm_abs m))
  /\ (cm_erase N m k).1 = bool_decide (is_Some (cm_abs m !! k))
  /\ cm_abs (cm_erase N m k).2 = delete k (cm_abs m)
  /\ cm_ok N (cm_insert N m k v).2 /\ cm_ok N (cm_overwrite N m k v)
  /\ cm_ok N (cm_erase N m k).2 /\ cm_ok N (cm_clear m).
Proof.
  intros Hok. split_and!; try by eauto using cm_insert_ok, cm_overwrite_ok, cm_erase_ok, cm_empty_ok.
  - intros j. rewrite (cm_abs_lookup N) by done. split; [done|apply cm_contains_at].
  - rewrite (cm_abs_size N) by done. by apply (cm_count N).
  - by apply cm_abs_insert.
  - unfold cm_has_space, cm_insert. by destruct (slots m !! _).
  - by apply cm_abs_overwrite.
  - rewrite (cm_abs_lookup N), <- cm_contains_at by done. unfold cm_erase. by destruct (cm_contains _ _ _).
  - by apply cm_abs_erase.
Qed.

Lemma circular_map_refines_finite_map_witness :
  cm_abs (cm_overwrite 4 (cm_insert 4 (@cm_empty Z) 3 30).2 7 70)
  = <[7 := 70]> (filter (fun kv => kv.1 mod 4 <> 7 mod 4) (cm_abs (cm_insert 4 (@cm_empty Z) 3 30).2)).
Proof.
  apply (circular_map_refines_finite_map 4 (cm_insert 4 (@cm_empty Z) 3 30).2 7 70).
  apply cm_insert_ok, cm_empty_ok.
Defined.
