(* ===== verification/RlcAmWindow.v ===== *)
(** * The RLC AM window

    [lib/rlc/rlc_am_window.h]: the abstract class [rlc_am_window_base], through
    which the RLC AM entities access their transmit and receive windows, as a
    type class; the laws the entities rely on; and the implementation
    [rlc_am_window] over a [circular_map], which discharges them. *)
From S2P Require Import Prelude CircularMap.

(** The interface.  [None] is a failed [srsran_assert]. [add_sn] inserts a
    default-constructed element; writes through the references returned by
    [add_sn] and [operator[]] are [win_set]. *)
Class rlc_am_window_base (T Win : Type) := {
  win_add_sn : Win -> Z -> option Win;
  win_remove_sn : Win -> Z -> option Win;
  win_at : Win -> Z -> option T;
  win_set : Win -> Z -> T -> option Win;
  win_size : Win -> Z;
  win_empty : Win -> bool;
  win_full : Win -> bool;
  win_clear : Win -> Win;
  win_has_sn : Win -> Z -> bool;
}.
#[global] Hint Mode rlc_am_window_base - ! : typeclass_instances.

(** What the interface promises to its clients: the window is a finite map with
    [cap] slots, in which adding a sequence number evicts the numbers congruent
    to it modulo [cap]. *)
Class rlc_am_window_laws {T Win : Type} (WB : rlc_am_window_base T Win)
    (cap : Z) (dflt : T) := {
  win_ok : Win -> Prop;
  win_map : Win -> gmap Z T;
  win_at_map w k : win_ok w -> win_at w k = win_map w !! k;
  win_has_sn_map w k : win_ok w -> win_has_sn w k = bool_decide (is_Some (win_map w !! k));
  win_set_map w k v : win_ok w -> is_Some (win_map w !! k) ->
    exists w', win_set w k v = Some w' /\ win_ok w' /\ win_map w' = <[k := v]> (win_map w);
  win_add_map w k : win_ok w -> win_map w !! k = None ->
    exists w', win_add_sn w k = Some w' /\ win_ok w'
      /\ win_map w' = <[k := dflt]> (filter (fun kv => kv.1 mod cap <> k mod cap) (win_map w));
  win_remove_map w k : win_ok w -> is_Some (win_map w !! k) ->
    exists w', win_remove_sn w k = Some w' /\ win_ok w' /\ win_map w' = delete k (win_map w);
  win_size_map w : win_ok w -> win_size w = Z.of_nat (size (win_map w));
  win_empty_map w : win_ok w -> win_empty w = bool_decide (win_map w = ∅);
  win_full_map w : win_ok w -> win_full w = (win_size w =? cap);
}.

(** ** [rlc_am_window] over [circular_map] *)
Section Window.
  Context {T : Type} (WINDOW_SIZE : Z) (dflt : T).

Definition rlc_am_window_has_sn (w : circular_map T) (sn : Z) : bool :=
  cm_contains WINDOW_SIZE w sn.

Definition rlc_am_window_add_sn (w : circular_map T) (sn : Z) : option (circular_map T) :=
  if rlc_am_window_has_sn w sn then None else Some (cm_overwrite WINDOW_SIZE w sn dflt).

Definition rlc_am_window_remove_sn (w : circular_map T) (sn : Z) : option (circular_map T) :=
  if rlc_am_window_has_sn w sn then Some (cm_erase WINDOW_SIZE w sn).2 else None.

Definition rlc_am_window : rlc_am_window_base T (circular_map T) := {|
  win_add_sn := rlc_am_window_add_sn;
  win_remove_sn := rlc_am_window_remove_sn;
  win_at := cm_at WINDOW_SIZE;
  win_set := cm_set WINDOW_SIZE;
  win_size := cm_size;
  win_empty := cm_is_empty;
  win_full := cm_full WINDOW_SIZE;
  win_clear := cm_clear;
  win_has_sn := rlc_am_window_has_sn;
|}.

Lemma cm_contains_abs (m : circular_map T) k : cm_ok WINDOW_SIZE m ->
  cm_contains WINDOW_SIZE m k = bool_decide (is_Some (cm_abs m !! k)).
Proof. intros. rewrite cm_contains_at. by rewrite (cm_abs_lookup WINDOW_SIZE). Qed.

#[global] Program Instance rlc_am_window_lawful :
  rlc_am_window_laws rlc_am_window WINDOW_SIZE dflt := {|
    win_ok := cm_ok WINDOW_SIZE;
    win_map := cm_abs;
  |}.
Next Obligation. intros. symmetry. by apply cm_abs_lookup. Qed.
Next Obligation. intros. by apply cm_contains_abs. Qed.
Next Obligation.
  intros m k v Hok Hs. assert (exists m', cm_set WINDOW_SIZE m k v = Some m') as [m' Hm'].
  { unfold cm_set. rewrite cm_contains_abs, bool_decide_true by done. eauto. }
  exists m'. split_and!; [done|by eapply cm_set_ok|by eapply cm_abs_set].
Qed.
Next Obligation.
  intros m k Hok Hn. exists (cm_overwrite WINDOW_SIZE m k dflt).
  split_and!; [|by apply cm_overwrite_ok|by apply cm_abs_overwrite].
  simpl. unfold rlc_am_window_add_sn, rlc_am_window_has_sn.
  rewrite cm_contains_abs, bool_decide_false by (done || rewrite Hn; by intros [? [=]]). done.
Qed.
Next Obligation.
  intros m k Hok Hs. exists (cm_erase WINDOW_SIZE m k).2.
  split_and!; [|by apply cm_erase_ok|by apply cm_abs_erase].
  simpl. unfold rlc_am_window_remove_sn, rlc_am_window_has_sn.
  by rewrite cm_contains_abs, bool_decide_true by done.
Qed.
Next Obligation. intros m Hok. simpl. rewrite (cm_abs_size WINDOW_SIZE) by done. by apply (cm_count WINDOW_SIZE). Qed.
Next Obligation.
  intros m Hok. simpl. unfold cm_is_empty. rewrite (cm_count WINDOW_SIZE) by done.
  rewrite <- (cm_abs_size WINDOW_SIZE) by done.
  destruct (decide (cm_abs m = ∅)) as [E|E].
  - rewrite bool_decide_true, E, map_size_empty by done. done.
  - rewrite bool_decide_false by done. apply Z.eqb_neq.
    intros H. apply E, map_size_empty_inv. lia.
Qed.
Next Obligation. done. Qed.
End Window.
