(* ===== verification/RlcAmPdu.v ===== *)
(** * RLC AM data PDU header

    [include/srsran/rlc/rlc_config.h] (enumerations and sizes) and
    [lib/rlc/rlc_am_pdu.h] (the AMD PDU header, its reader and its writer,
    TS 38.322 Sec. 6.2.2.4). *)
From S2P Require Import Prelude.

Inductive rlc_am_sn_size := size12bits | size18bits.
#[export] Instance rlc_am_sn_size_eq_dec : EqDecision rlc_am_sn_size.
Proof. solve_decision. Defined.

Definition sn_size_to_number (s : rlc_am_sn_size) : Z :=
  match s with size12bits => 12 | size18bits => 18 end.

Definition cardinality (sn_size : Z) : Z := u32 (Z.shiftl 1 sn_size).
Definition window_size (sn_size : Z) : Z := cardinality (sn_size - 1).

Inductive rlc_dc_field := dc_control | dc_data.
Inductive rlc_si_field := full_sdu | first_segment | last_segment | middle_segment.
#[export] Instance rlc_dc_field_eq_dec : EqDecision rlc_dc_field.
Proof. solve_decision. Defined.
#[export] Instance rlc_si_field_eq_dec : EqDecision rlc_si_field.
Proof. solve_decision. Defined.

Definition dc_to_number (d : rlc_dc_field) : Z :=
  match d with dc_control => 0 | dc_data => 1 end.
Definition si_to_number (s : rlc_si_field) : Z :=
  match s with full_sdu => 0 | first_segment => 1 | last_segment => 2 | middle_segment => 3 end.

(** The casts [(rlc_dc_field)] and [(rlc_si_field)] of a masked bit field. *)
Definition dc_of_number (n : Z) : rlc_dc_field := if n =? 0 then dc_control else dc_data.
Definition si_of_number (n : Z) : rlc_si_field :=
  if n =? 0 then full_sdu else if n =? 1 then first_segment
  else if n =? 2 then last_segment else middle_segment.

Definition INVALID_RLC_SN : Z := 0xffffffff.
Definition RETX_COUNT_NOT_STARTED : Z := 0xffffffff.

Definition rlc_am_pdu_header_so_size : Z := 2.
Definition rlc_am_pdu_header_min_size (s : rlc_am_sn_size) : Z :=
  match s with size12bits => 2 | size18bits => 3 end.
Definition rlc_am_pdu_header_max_size (s : rlc_am_sn_size) : Z :=
  rlc_am_pdu_header_min_size s + rlc_am_pdu_header_so_size.

Record rlc_am_pdu_header := AmHeader {
  hdr_dc : rlc_dc_field;
  hdr_p : Z;
  hdr_si : rlc_si_field;
  hdr_sn_size : rlc_am_sn_size;
  hdr_sn : Z;
  hdr_so : Z;
}.

(** [= {}]: every field zero (a zero [rlc_am_sn_size] is overwritten by both
    the reader and the callers before it is used). *)
Definition rlc_am_pdu_header_init (s : rlc_am_sn_size) : rlc_am_pdu_header :=
  AmHeader dc_control 0 full_sdu s 0 0.

(** SI values whose header carries a segment offset. *)
Definition si_has_so (si : rlc_si_field) : bool :=
  bool_decide (si = last_segment) || bool_decide (si = middle_segment).

Definition rlc_am_pdu_header_get_packed_size (h : rlc_am_pdu_header) : Z :=
  if si_has_so (hdr_si h) then rlc_am_pdu_header_max_size (hdr_sn_size h)
  else rlc_am_pdu_header_min_size (hdr_sn_size h).

(** The fixed part: the SN and the rest of the reader, [None] when the PDU is
    rejected. *)
Definition rlc_am_read_sn (pdu : bytes) (s : rlc_am_sn_size) : option (Z * bytes) :=
  match s with
  | size12bits =>
      match pdu with
      | b0 :: b1 :: rest =>
          Some (Z.lor (Z.shiftl (Z.land b0 0x0f) 8) (Z.land b1 0xff), rest)
      | _ => None (* missing lower byte of SN *)
      end
  | size18bits =>
      match pdu with
      | b0 :: rest0 =>
          if negb (Z.land b0 0x0c =? 0) then None (* reserved bits *)
          else match rest0 with
               | b1 :: b2 :: rest =>
                   Some (Z.lor (Z.lor (Z.shiftl (Z.land b0 0x03) 16)
                                      (Z.shiftl (Z.land b1 0xff) 8))
                               (Z.land b2 0xff), rest)
               | _ => None (* missing center or lower byte of SN *)
               end
      | [] => None
      end
  end.

(** [rlc_am_read_data_pdu_header]: [header0] is the caller's header object; its
    [so] is kept when the PDU carries none. [None] is the result [false]. *)
Definition rlc_am_read_data_pdu_header (pdu : bytes) (s : rlc_am_sn_size)
    (header0 : rlc_am_pdu_header) : option rlc_am_pdu_header :=
  if blen pdu <=? rlc_am_pdu_header_min_size s then None
  else match pdu with
  | [] => None
  | b0 :: _ =>
      let dc := dc_of_number (Z.land (Z.shiftr b0 7) 0x01) in
      let p := Z.land (Z.shiftr b0 6) 0x01 in
      let si := si_of_number (Z.land (Z.shiftr b0 4) 0x03) in
      match rlc_am_read_sn pdu s with
      | None => None
      | Some (sn, rest) =>
          if si_has_so si then
            match rest with
            | s0 :: s1 :: _ =>
                Some (AmHeader dc p si s sn
                        (Z.lor (u16 (Z.shiftl (Z.land s0 0xff) 8)) (Z.land s1 0xff)))
            | _ => None (* missing byte of SO *)
            end
          else Some (AmHeader dc p si s sn (hdr_so header0))
      end
  end.

(** [rlc_am_write_data_pdu_header]: the header bytes, chained before [pdu]. *)
Definition rlc_am_write_data_pdu_header (h : rlc_am_pdu_header) (pdu : bytes) : bytes :=
  let b := u8 (Z.shiftl (Z.land (dc_to_number (hdr_dc h)) 0x01) 7) in
  let b := u8 (Z.lor b (Z.shiftl (Z.land (hdr_p h) 0x01) 6)) in
  let b := u8 (Z.lor b (Z.shiftl (Z.land (si_to_number (hdr_si h)) 0x03) 4)) in
  let fixed :=
    match hdr_sn_size h with
    | size12bits =>
        [u8 (Z.lor b (Z.land (Z.shiftr (hdr_sn h) 8) 0x0f)); u8 (Z.land (hdr_sn h) 0xff)]
    | size18bits =>
        [u8 (Z.lor b (Z.land (Z.shiftr (hdr_sn h) 16) 0x03)); u8 (Z.shiftr (hdr_sn h) 8);
         u8 (Z.land (hdr_sn h) 0xff)]
    end in
  let so := if negb (hdr_so h =? 0)
            then [u8 (Z.shiftr (hdr_so h) 8); u8 (Z.land (hdr_so h) 0xff)] else [] in
  fixed ++ so ++ pdu.

(** ** Lemmas *)
Definition am_mod (s : rlc_am_sn_size) : Z := cardinality (sn_size_to_number s).

Lemma am_mod_values s : am_mod s = match s with size12bits => 4096 | size18bits => 262144 end.
Proof. by destruct s. Qed.

(** Headers an entity builds: SN within its field, a 16-bit SO that is present
    exactly for the SI values that carry it. *)
Record am_header_ok (h : rlc_am_pdu_header) : Prop := {
  ho_p : hdr_p h = 0 \/ hdr_p h = 1;
  ho_sn : 0 <= hdr_sn h < am_mod (hdr_sn_size h);
  ho_so : is_u16 (hdr_so h);
  ho_si : si_has_so (hdr_si h) = negb (hdr_so h =? 0);
}.

Lemma si_roundtrip si : si_of_number (si_to_number si) = si.
Proof. by destruct si. Qed.
Lemma dc_roundtrip d : dc_of_number (dc_to_number d) = d.
Proof. by destruct d. Qed.
Lemma dc_range d : 0 <= dc_to_number d <= 1.
Proof. destruct d; simpl; lia. Qed.
Lemma si_range si : 0 <= si_to_number si <= 3.
Proof. destruct si; simpl; lia. Qed.

(** The first octet as a sum of its fields. *)
Lemma am_first_octet d p si :
  p = 0 \/ p = 1 ->
  u8 (Z.lor (u8 (Z.lor (u8 (Z.shiftl (Z.land (dc_to_number d) 1) 7)) (Z.shiftl (Z.land p 1) 6)))
            (Z.shiftl (Z.land (si_to_number si) 3) 4))
  = dc_to_number d * 128 + p * 64 + si_to_number si * 16.
Proof. intros [-> | ->]; destruct d, si; reflexivity. Qed.

Lemma so_roundtrip so : is_u16 so ->
  Z.lor (u16 (Z.shiftl (Z.land (u8 (Z.shiftr so 8)) 255) 8)) (Z.land (u8 (Z.land so 255)) 255) = so.
Proof. unfold is_u16, u8, u16. intros. bits_arith. mlia. Qed.

Lemma am_header_len h pdu : am_header_ok h ->
  blen (rlc_am_write_data_pdu_header h pdu) = rlc_am_pdu_header_get_packed_size h + blen pdu.
Proof.
  intros [_ _ _ Hsi]. unfold rlc_am_write_data_pdu_header, rlc_am_pdu_header_get_packed_size.
  rewrite Hsi. unfold rlc_am_pdu_header_max_size, rlc_am_pdu_header_so_size.
  destruct (hdr_sn_size h), (negb _); simpl; autorewrite with rlc; lia.
Qed.

Lemma am_read_sn_write h rest : am_header_ok h ->
  exists b0 r, rlc_am_write_data_pdu_header h rest = b0 :: r
    /\ Z.land (Z.shiftr b0 7) 1 = dc_to_number (hdr_dc h)
    /\ Z.land (Z.shiftr b0 6) 1 = hdr_p h
    /\ Z.land (Z.shiftr b0 4) 3 = si_to_number (hdr_si h)
    /\ rlc_am_read_sn (b0 :: r) (hdr_sn_size h)
       = Some (hdr_sn h, (if negb (hdr_so h =? 0)
            then [u8 (Z.shiftr (hdr_so h) 8); u8 (Z.land (hdr_so h) 0xff)] else []) ++ rest).
Proof.
  intros [Hp Hsn Hso Hsi]. unfold rlc_am_write_data_pdu_header.
  rewrite am_first_octet by done.
  pose proof (dc_range (hdr_dc h)). pose proof (si_range (hdr_si h)).
  set (d := dc_to_number (hdr_dc h)) in *. set (si := si_to_number (hdr_si h)) in *.
  rewrite am_mod_values in Hsn.
  destruct (hdr_sn_size h); simpl; eexists _, _; (split; [reflexivity|]); unfold u8.
  - split_and!; bits_arith; try mlia. do 2 f_equal. mlia.
  - split_and!; bits_arith; try mlia.
    destruct (Z.eqb_spec (((d * 128 + hdr_p h * 64 + si * 16 + (hdr_sn h / 65536) mod 4) mod 256 / 4) mod 4 * 4) 0);
      simpl; [|exfalso; mlia].
    do 2 f_equal. mlia.
Qed.

(** What the reader accepts: an SN and an SO within their fields. *)
Lemma am_read_sn_bounds pdu s q rest : rlc_am_read_sn pdu s = Some (q, rest) -> 0 <= q < am_mod s.
Proof.
  rewrite am_mod_values. destruct s; simpl.
  - destruct pdu as [|b0 [|b1 r]]; [done..|]. intros [= <- _]. bits_arith. mlia.
  - destruct pdu as [|b0 r0]; [done|]. case_match; [done|].
    destruct r0 as [|b1 [|b2 r]]; [done..|]. intros [= <- _]. bits_arith. mlia.
Qed.

Lemma am_read_bounds pdu s h0 h :
  rlc_am_read_data_pdu_header pdu s h0 = Some h ->
  0 <= hdr_sn h < am_mod s /\ hdr_sn_size h = s
  /\ (si_has_so (hdr_si h) = true -> is_u16 (hdr_so h))
  /\ (si_has_so (hdr_si h) = false -> hdr_so h = hdr_so h0).
Proof.
  unfold rlc_am_read_data_pdu_header. case_match; [done|]. destruct pdu as [|b0 r]; [done|].
  destruct (rlc_am_read_sn (b0 :: r) s) as [[q rest]|] eqn:Eq; [|done].
  apply am_read_sn_bounds in Eq. case_match eqn:Es.
  - destruct rest as [|s0 [|s1 rest]]; [done..|]. intros [= <-]. simpl. split_and!; try done; try lia; [|congruence].
    intros _. unfold is_u16, u16. bits_arith. mlia.
  - intros [= <-]. simpl. split_and!; try done; lia || congruence.
Qed.

Lemma am_header_read_write (h : rlc_am_pdu_header) (payload : bytes) :
  am_header_ok h -> payload <> [] ->
  rlc_am_read_data_pdu_header (rlc_am_write_data_pdu_header h payload) (hdr_sn_size h)
    (rlc_am_pdu_header_init (hdr_sn_size h)) = Some h.
Proof.
  intros Hok Hne. pose proof (am_header_len h payload Hok) as Hlen.
  pose proof Hok as [Hp Hsn Hso Hsi].
  assert (0 < blen payload) by (destruct payload; [done|unfold blen; simpl; lia]).
  unfold rlc_am_read_data_pdu_header.
  destruct (Z.leb_spec (blen (rlc_am_write_data_pdu_header h payload))
                       (rlc_am_pdu_header_min_size (hdr_sn_size h))) as [Hle|_].
  { rewrite Hlen in Hle. unfold rlc_am_pdu_header_get_packed_size, rlc_am_pdu_header_max_size,
      rlc_am_pdu_header_so_size in Hle. destruct (si_has_so _); lia. }
  destruct (am_read_sn_write h payload Hok) as (b0 & r & -> & -> & -> & -> & ->).
  rewrite dc_roundtrip, si_roundtrip, Hsi.
  destruct h as [d p si s sn so]; simpl in *.
  destruct (Z.eqb_spec so 0); simpl; [by subst|]. by rewrite so_roundtrip.
Qed.

(** Reading back a written AMD PDU header.  For every header an entity can
    build and every non-empty payload, [rlc_am_read_data_pdu_header] accepts the
    PDU made by [rlc_am_write_data_pdu_header] and returns the same header,
    whatever the 12-bit or 18-bit SN, poll bit, SI and SO. *)
Theorem rlc_am_header_roundtrip (h : rlc_am_pdu_header) (payload : bytes) :
  am_header_ok h -> payload <> [] ->
  rlc_am_read_data_pdu_header (rlc_am_write_data_pdu_header h payload) (hdr_sn_size h)
    (rlc_am_pdu_header_init (hdr_sn_size h)) = Some h.
Proof. apply am_header_read_write. Qed.

Lemma rlc_am_header_roundtrip_witness :
  rlc_am_read_data_pdu_header
    (rlc_am_write_data_pdu_header (AmHeader dc_data 1 middle_segment size18bits 262143 517) [9])
    size18bits (rlc_am_pdu_header_init size18bits)
  = Some (AmHeader dc_data 1 middle_segment size18bits 262143 517).
Proof.
  apply (rlc_am_header_roundtrip (AmHeader dc_data 1 middle_segment size18bits 262143 517) [9]);
    [|done].
  split; simpl; [by right|rewrite am_mod_values; lia|unfold is_u16; lia|done].
Defined.

(** * Sequence numbers *)
(** ** Sequence numbers relative to the lower edge of a window *)
Section SnBase.
  Context (s : rlc_am_sn_size).

Definition base (r x : Z) : Z := (x - r) mod am_mod s.
Definition is_sn (x : Z) : Prop := 0 <= x < am_mod s.
Definition half : Z := window_size (sn_size_to_number s).

Lemma half_value : half = match s with size12bits => 2048 | size18bits => 131072 end.
Proof. unfold half. destruct s; reflexivity. Qed.
Ltac sn_lia := unfold base, is_sn in *; rewrite ?half_value, ?am_mod_values in *; destruct s; mlia.
Lemma am_mod_pos : 0 < am_mod s.
Proof. rewrite am_mod_values. destruct s; lia. Qed.
Lemma am_mod_range : 256 < am_mod s < 2 ^ 20.
Proof. rewrite am_mod_values. destruct s; lia. Qed.
Lemma base_range r x : 0 <= base r x < am_mod s.
Proof. unfold base. apply Z.mod_pos_bound. rewrite am_mod_values. destruct s; lia. Qed.
Lemma base_self r : base r r = 0.
Proof. unfold base. by rewrite Z.sub_diag. Qed.
Lemma base_u32 r x : u32 (x - r) mod am_mod s = base r x.
Proof.
  unfold base, am_mod, cardinality.
  destruct s; simpl; [apply (u32_mod_pow2 _ 12)|apply (u32_mod_pow2 _ 18)]; lia.
Qed.
Lemma base_plus1 r : base r (r + 1) = 1.
Proof. unfold base. replace (r + 1 - r) with 1 by lia. rewrite am_mod_values. by destruct s. Qed.
Lemma sn_succ x : is_sn ((x + 1) mod am_mod s).
Proof. apply Z.mod_pos_bound. rewrite am_mod_values. destruct s; lia. Qed.
Lemma base_succ r x : is_sn r -> is_sn x -> base r x + 1 < am_mod s ->
  base r ((x + 1) mod am_mod s) = base r x + 1.
Proof. intros. sn_lia. Qed.
Lemma base_pred r x : is_sn r -> is_sn x -> 0 < base r x ->
  base r ((x - 1) mod am_mod s) = base r x - 1.
Proof. intros. sn_lia. Qed.
Lemma base_inj r x y : is_sn r -> is_sn x -> is_sn y -> base r x = base r y -> x = y.
Proof. intros. sn_lia. Qed.
Lemma base_0 r x : is_sn r -> is_sn x -> base r x = 0 -> x = r.
Proof. intros. sn_lia. Qed.
(** Moving the lower edge from [r] to [r']. *)
Lemma base_shift r r' x : is_sn r -> is_sn r' -> is_sn x ->
  base r' x = if decide (base r r' <= base r x) then base r x - base r r'
              else am_mod s + base r x - base r r'.
Proof. intros. case_decide; sn_lia. Qed.
(** Two SNs of one window occupy different slots. *)
Lemma base_slots r x y : is_sn r -> is_sn x -> is_sn y -> base r x < half -> base r y < half ->
  x mod half = y mod half -> x = y.
Proof. intros. sn_lia. Qed.
Lemma half_twice : am_mod s = 2 * half.
Proof. rewrite half_value, am_mod_values. by destruct s. Qed.
Lemma half_pos : 2 <= half.
Proof. rewrite half_value. destruct s; lia. Qed.
End SnBase.
