(* ===== verification/RlcAmStatus.v ===== *)
(** * RLC AM STATUS PDU

    [lib/rlc/rlc_am_pdu.h] and [lib/rlc/rlc_am_pdu.cpp]: the class
    [rlc_am_status_pdu], its NACK list with run merging ([push_nack]), size
    bookkeeping, [trim], and the 12-bit and 18-bit packers and unpackers
    (TS 38.322 Sec. 6.2.2.5). *)
From S2P Require Import Prelude RlcAmPdu.

Definition rlc_am_nr_status_pdu_sizeof_header_ack_sn : Z := 3.
Definition rlc_am_nr_status_pdu_sizeof_nack_sn_ext_12bit_sn : Z := 2.
Definition rlc_am_nr_status_pdu_sizeof_nack_sn_ext_18bit_sn : Z := 3.
Definition rlc_am_nr_status_pdu_sizeof_nack_so : Z := 4.
Definition rlc_am_nr_status_pdu_sizeof_nack_range : Z := 1.
Definition so_end_of_sdu : Z := 0xffff.

Record rlc_am_status_nack := Nack {
  nack_sn : Z;
  has_so : bool;
  so_start : Z;
  so_end : Z;
  has_nack_range : bool;
  nack_range : Z;
}.

(** The default constructor. *)
Definition nack_default : rlc_am_status_nack := Nack 0 false 0 so_end_of_sdu false 0.

Definition nack_with_sn (n : rlc_am_status_nack) sn :=
  Nack sn (has_so n) (so_start n) (so_end n) (has_nack_range n) (nack_range n).
Definition nack_with_so (n : rlc_am_status_nack) hs s e :=
  Nack (nack_sn n) hs s e (has_nack_range n) (nack_range n).
Definition nack_with_range (n : rlc_am_status_nack) hr r :=
  Nack (nack_sn n) (has_so n) (so_start n) (so_end n) hr r.

Record rlc_am_status_pdu := StatusPdu {
  st_sn_size : rlc_am_sn_size;
  nacks : list rlc_am_status_nack;
  packed_size : Z;
  cpt : Z;
  ack_sn : Z;
}.

Definition rlc_am_status_pdu_new (s : rlc_am_sn_size) : rlc_am_status_pdu :=
  StatusPdu s [] rlc_am_nr_status_pdu_sizeof_header_ack_sn 0 INVALID_RLC_SN.

Definition status_reset (st : rlc_am_status_pdu) : rlc_am_status_pdu :=
  StatusPdu (st_sn_size st) [] rlc_am_nr_status_pdu_sizeof_header_ack_sn 0 INVALID_RLC_SN.

Definition mod_nr (st : rlc_am_status_pdu) : Z := am_mod (st_sn_size st).

Definition is_continuous_sequence (st : rlc_am_status_pdu) (left right : rlc_am_status_nack) : bool :=
  if negb (nack_sn right =?
           u32 (if has_nack_range left then nack_sn left + nack_range left else nack_sn left + 1)
             mod mod_nr st) then false
  else if has_so left && negb (so_end left =? so_end_of_sdu) then false
  else if has_so right && negb (so_start right =? 0) then false
  else true.

Definition nack_size (s : rlc_am_sn_size) (n : rlc_am_status_nack) : Z :=
  match s with
  | size12bits => rlc_am_nr_status_pdu_sizeof_nack_sn_ext_12bit_sn
  | size18bits => rlc_am_nr_status_pdu_sizeof_nack_sn_ext_18bit_sn
  end
  + (if has_so n then rlc_am_nr_status_pdu_sizeof_nack_so else 0)
  + (if has_nack_range n then rlc_am_nr_status_pdu_sizeof_nack_range else 0).

(** Expansion of the last NACK [prev] by a NACK that continues it: the range is
    an 8-bit counter. *)
Definition expand_nack (prev nack : rlc_am_status_nack) : rlc_am_status_nack :=
  let prev :=
    if has_nack_range nack then
      if has_nack_range prev
      then nack_with_range prev true (u8 (nack_range prev + nack_range nack))
      else nack_with_range prev true (u8 (nack_range nack + 1))
    else
      if has_nack_range prev
      then nack_with_range prev true (u8 (nack_range prev + 1))
      else nack_with_range prev true 2 in
  if has_so nack then
    let start := if has_so prev then so_start prev else 0 in
    nack_with_so prev true start (so_end nack)
  else
    if has_so prev then nack_with_so prev true (so_start prev) so_end_of_sdu else prev.

Definition push_nack (st : rlc_am_status_pdu) (nack : rlc_am_status_nack) : rlc_am_status_pdu :=
  let append :=
    StatusPdu (st_sn_size st) (nacks st ++ [nack])
      (u32 (packed_size st + nack_size (st_sn_size st) nack)) (cpt st) (ack_sn st) in
  match list.last (nacks st) with
  | None => append
  | Some prev =>
      if negb (is_continuous_sequence st prev nack) then append
      else
        let size1 := u32 (packed_size st - nack_size (st_sn_size st) prev) in
        let prev' := expand_nack prev nack in
        StatusPdu (st_sn_size st) (removelast (nacks st) ++ [prev'])
          (u32 (size1 + nack_size (st_sn_size st) prev')) (cpt st) (ack_sn st)
  end.

(** The loop of [trim], over the NACK list seen from its back. *)
Fixpoint trim_loop (s : rlc_am_sn_size) (max_packed_size : Z) (rnacks : list rlc_am_status_nack)
    (size ack : Z) : list rlc_am_status_nack * Z * Z :=
  match rnacks with
  | [] => ([], size, ack)
  | n :: rest =>
      if (max_packed_size <? size) || (nack_sn n =? ack)
      then trim_loop s max_packed_size rest (u32 (size - nack_size s n)) (nack_sn n)
      else (rnacks, size, ack)
  end.

Definition trim (st : rlc_am_status_pdu) (max_packed_size : Z) : bool * rlc_am_status_pdu :=
  if packed_size st <=? max_packed_size then (true, st)
  else if max_packed_size <? rlc_am_nr_status_pdu_sizeof_header_ack_sn then (false, st)
  else
    let '(rnacks, size, ack) :=
      trim_loop (st_sn_size st) max_packed_size (rev (nacks st)) (packed_size st) (ack_sn st) in
    (true, StatusPdu (st_sn_size st) (rev rnacks) size (cpt st) ack).

Definition refresh_packed_size (st : rlc_am_status_pdu) : rlc_am_status_pdu :=
  StatusPdu (st_sn_size st) (nacks st)
    (fold_left (fun acc n => u32 (acc + nack_size (st_sn_size st) n)) (nacks st)
       rlc_am_nr_status_pdu_sizeof_header_ack_sn) (cpt st) (ack_sn st).

(** ** Unpacking *)

(** Dereferences the first byte: the caller has checked that there is one. *)
Definition is_control_pdu (pdu : bytes) : bool :=
  match pdu with
  | [] => false
  | b0 :: _ => Z.land (Z.shiftr b0 7) 0x01 =? dc_to_number dc_control
  end.

(** The optional SO pair and NACK range, common to both SN sizes. *)
Definition unpack_so_range (e2 e3 : Z) (nack : rlc_am_status_nack) (r : bytes)
    : option (rlc_am_status_nack * bytes) :=
  match (if negb (e2 =? 0) then
           match r with
           | a :: b :: c :: d :: r' =>
               Some (nack_with_so nack true (Z.lor (u16 (Z.shiftl a 8)) b)
                                            (Z.lor (u16 (Z.shiftl c 8)) d), r')
           | _ => None
           end
         else Some (nack, r)) with
  | None => None
  | Some (nack, r) =>
      if negb (e3 =? 0) then
        match r with
        | a :: r' => Some (nack_with_range nack true a, r')
        | [] => None
        end
      else Some (nack, r)
  end.

(** One NACK: the parsed NACK, its E1 flag and the rest of the PDU. *)
Definition unpack_nack_12bit (r : bytes) : option (rlc_am_status_nack * Z * bytes) :=
  match r with
  | b0 :: b1 :: r' =>
      let e1 := Z.land b1 0x08 in
      let e2 := Z.land b1 0x04 in
      let e3 := Z.land b1 0x02 in
      if negb (Z.land b1 0x01 =? 0) then None
      else
        let sn := Z.lor (Z.shiftl (Z.land b0 0xff) 4) (Z.shiftr (Z.land b1 0xf0) 4) in
        match unpack_so_range e2 e3 (nack_with_sn nack_default sn) r' with
        | Some (nack, r'') => Some (nack, e1, r'')
        | None => None
        end
  | _ => None
  end.

Definition unpack_nack_18bit (r : bytes) : option (rlc_am_status_nack * Z * bytes) :=
  match r with
  | b0 :: b1 :: b2 :: r' =>
      let sn := Z.lor (Z.lor (Z.shiftl (Z.land b0 0xff) 10) (Z.shiftl (Z.land b1 0xff) 2))
                      (Z.shiftr (Z.land b2 0xc0) 6) in
      let e1 := Z.land b2 0x20 in
      let e2 := Z.land b2 0x10 in
      let e3 := Z.land b2 0x08 in
      if negb (Z.land b2 0x07 =? 0) then None
      else
        match unpack_so_range e2 e3 (nack_with_sn nack_default sn) r' with
        | Some (nack, r'') => Some (nack, e1, r'')
        | None => None
        end
  | _ => None
  end.

(** The [while (e1 != 0)] loop; every iteration consumes at least two bytes, so
    the length of the PDU is enough fuel. *)
Fixpoint unpack_nacks (parse : bytes -> option (rlc_am_status_nack * Z * bytes))
    (fuel : nat) (e1 : Z) (r : bytes) (st : rlc_am_status_pdu) : option rlc_am_status_pdu :=
  if e1 =? 0 then Some st
  else match fuel with
  | O => None
  | S fuel =>
      match parse r with
      | None => None
      | Some (nack, e1', r') => unpack_nacks parse fuel e1' r' (push_nack st nack)
      end
  end.

Definition status_with_ack (st : rlc_am_status_pdu) (a : Z) : rlc_am_status_pdu :=
  StatusPdu (st_sn_size st) (nacks st) (packed_size st) (cpt st) a.

Definition unpack_12bit (st : rlc_am_status_pdu) (pdu : bytes) : option rlc_am_status_pdu :=
  if blen pdu <? rlc_am_nr_status_pdu_sizeof_header_ack_sn then None
  else if negb (is_control_pdu pdu) then None
  else
    let st := status_reset st in
    match pdu with
    | b0 :: b1 :: b2 :: r =>
        if negb (Z.land (Z.shiftr b0 4) 0x07 =? 0) then None (* unsupported CPT *)
        else
          let ack := Z.lor (Z.shiftl (Z.land b0 0x0f) 8) (Z.land b1 0xff) in
          let e1 := Z.land b2 0x80 in
          if negb (Z.land b2 0x7f =? 0) then None (* reserved bits *)
          else unpack_nacks unpack_nack_12bit (length pdu) e1 r (status_with_ack st ack)
    | _ => None
    end.

Definition unpack_18bit (st : rlc_am_status_pdu) (pdu : bytes) : option rlc_am_status_pdu :=
  if blen pdu <? rlc_am_nr_status_pdu_sizeof_header_ack_sn then None
  else if negb (is_control_pdu pdu) then None
  else
    let st := status_reset st in
    match pdu with
    | b0 :: b1 :: b2 :: r =>
        if negb (Z.land (Z.shiftr b0 4) 0x07 =? 0) then None (* unsupported CPT *)
        else
          let ack := Z.lor (Z.lor (Z.shiftl (Z.land b0 0x0f) 14) (Z.shiftl (Z.land b1 0xff) 6))
                           (Z.shiftr (Z.land b2 0xfc) 2) in
          let e1 := Z.land b2 0x02 in
          if negb (Z.land b2 0x01 =? 0) then None (* reserved bit *)
          else unpack_nacks unpack_nack_18bit (length pdu) e1 r (status_with_ack st ack)
    | _ => None
    end.

Definition unpack (st : rlc_am_status_pdu) (pdu : bytes) : option rlc_am_status_pdu :=
  match st_sn_size st with
  | size12bits => unpack_12bit st pdu
  | size18bits => unpack_18bit st pdu
  end.

(** ** Packing *)
Definition pack_so_range (n : rlc_am_status_nack) : bytes :=
  (if has_so n
   then [u8 (Z.shiftr (so_start n) 8); u8 (so_start n); u8 (Z.shiftr (so_end n) 8); u8 (so_end n)]
   else [])
  ++ (if has_nack_range n then [u8 (nack_range n)] else []).

(** One NACK; [more] is the test [i < nacks.size() - 1] that sets E1. *)
Definition pack_nack_12bit (more : bool) (n : rlc_am_status_nack) : bytes :=
  let b := u8 (Z.shiftl (Z.land (nack_sn n) 0x0f) 4) in
  let b := if more then u8 (Z.lor b 0x08) else b in
  let b := if has_so n then u8 (Z.lor b 0x04) else b in
  let b := if has_nack_range n then u8 (Z.lor b 0x02) else b in
  [u8 (Z.land (Z.shiftr (nack_sn n) 4) 0xff); b] ++ pack_so_range n.

Definition pack_nack_18bit (more : bool) (n : rlc_am_status_nack) : bytes :=
  let b := u8 (Z.land (u32 (Z.shiftl (nack_sn n) 6)) 0xc0) in
  let b := if more then u8 (Z.lor b 0x20) else b in
  let b := if has_so n then u8 (Z.lor b 0x10) else b in
  let b := if has_nack_range n then u8 (Z.lor b 0x08) else b in
  [u8 (Z.land (Z.shiftr (nack_sn n) 10) 0xff); u8 (Z.land (Z.shiftr (nack_sn n) 2) 0xff); b]
  ++ pack_so_range n.

Fixpoint pack_nacks (pk : bool -> rlc_am_status_nack -> bytes) (l : list rlc_am_status_nack) : bytes :=
  match l with
  | [] => []
  | n :: rest => pk (match rest with [] => false | _ => true end) n ++ pack_nacks pk rest
  end.

Definition pack_12bit (st : rlc_am_status_pdu) (pdu : bytes) : bytes :=
  [u8 (Z.lor 0 (Z.land (Z.shiftr (ack_sn st) 8) 0x0f));
   u8 (Z.land (ack_sn st) 0xff);
   (match nacks st with [] => 0x00 | _ => 0x80 end)]
  ++ pack_nacks pack_nack_12bit (nacks st) ++ pdu.

Definition pack_18bit (st : rlc_am_status_pdu) (pdu : bytes) : bytes :=
  let b2 := u8 (Z.land (u32 (Z.shiftl (ack_sn st) 2)) 0xfc) in
  [u8 (Z.lor 0 (Z.land (Z.shiftr (ack_sn st) 14) 0x0f));
   u8 (Z.land (Z.shiftr (ack_sn st) 6) 0xff);
   (match nacks st with [] => b2 | _ => u8 (Z.lor b2 0x02) end)]
  ++ pack_nacks pack_nack_18bit (nacks st) ++ pdu.

Definition pack (st : rlc_am_status_pdu) (pdu : bytes) : bytes :=
  match st_sn_size st with
  | size12bits => pack_12bit st pdu
  | size18bits => pack_18bit st pdu
  end.

(** ** Well-formed NACKs and STATUS PDUs *)
Record nack_ok (s : rlc_am_sn_size) (n : rlc_am_status_nack) : Prop := {
  no_sn : 0 <= nack_sn n < am_mod s;
  no_start : is_u16 (so_start n);
  no_end : is_u16 (so_end n);
  no_range : is_u8 (nack_range n);
  no_so : has_so n = false -> so_start n = 0 /\ so_end n = so_end_of_sdu;
  no_norange : has_nack_range n = false -> nack_range n = 0;
}.

(** Adjacent NACKs that [push_nack] would not merge. *)
Fixpoint nacks_sep (st : rlc_am_status_pdu) (l : list rlc_am_status_nack) : Prop :=
  match l with
  | x :: ((y :: _) as r) => is_continuous_sequence st x y = false /\ nacks_sep st r
  | _ => True
  end.

Fixpoint nacks_size (s : rlc_am_sn_size) (l : list rlc_am_status_nack) : Z :=
  match l with [] => 0 | n :: r => nack_size s n + nacks_size s r end.

Record status_ok (st : rlc_am_status_pdu) : Prop := {
  so_nacks : Forall (nack_ok (st_sn_size st)) (nacks st);
  so_sep : nacks_sep st (nacks st);
  so_size : packed_size st
            = u32 (rlc_am_nr_status_pdu_sizeof_header_ack_sn + nacks_size (st_sn_size st) (nacks st));
  so_cpt : cpt st = 0;
}.

Lemma nacks_size_app s l1 l2 : nacks_size s (l1 ++ l2) = nacks_size s l1 + nacks_size s l2.
Proof. induction l1; simpl; lia. Qed.
Lemma nack_size_pos s n : 2 <= nack_size s n <= 8.
Proof.
  unfold nack_size, rlc_am_nr_status_pdu_sizeof_nack_sn_ext_12bit_sn,
    rlc_am_nr_status_pdu_sizeof_nack_sn_ext_18bit_sn, rlc_am_nr_status_pdu_sizeof_nack_so,
    rlc_am_nr_status_pdu_sizeof_nack_range.
  destruct s, (has_so n), (has_nack_range n); lia.
Qed.
Lemma nacks_size_nonneg s l : 0 <= nacks_size s l.
Proof. induction l as [|n l IH]; simpl; [lia|]. pose proof (nack_size_pos s n). lia. Qed.

Lemma nacks_sep_snoc st l x y :
  nacks_sep st (l ++ [x]) -> is_continuous_sequence st x y = false -> nacks_sep st (l ++ [x; y]).
Proof.
  induction l as [|a l IH]; simpl; [done|].
  destruct l as [|b l]; simpl in *; [tauto|].
  intros [H1 H2] H3. split; [done|]. by apply IH.
Qed.
Lemma nacks_sep_replace st l x y :
  (forall z, is_continuous_sequence st z y = is_continuous_sequence st z x) ->
  nacks_sep st (l ++ [x]) -> nacks_sep st (l ++ [y]).
Proof.
  intros Heq. induction l as [|a l IH]; simpl; [done|].
  destruct l as [|b l]; simpl in *; [by rewrite Heq|].
  intros [H1 H2]. split; [done|]. by apply IH.
Qed.
(** Separation depends only on the SN size. *)
Lemma nacks_sep_ext st st' l :
  st_sn_size st = st_sn_size st' -> nacks_sep st l -> nacks_sep st' l.
Proof.
  intros Hs. induction l as [|x [|y l] IH]; simpl; [done..|].
  intros [H1 H2]. split; [|by apply IH].
  unfold is_continuous_sequence, mod_nr in *. by rewrite <- Hs.
Qed.

Lemma expand_left_neighbour st z prev n :
  is_continuous_sequence st z (expand_nack prev n) = is_continuous_sequence st z prev.
Proof.
  unfold is_continuous_sequence, expand_nack.
  destruct (has_nack_range n), (has_nack_range prev) eqn:Er, (has_so n), (has_so prev) eqn:Es;
    simpl; rewrite ?Es; simpl; rewrite ?Es; done.
Qed.

Lemma expand_nack_ok s prev n : nack_ok s prev -> nack_ok s n -> nack_ok s (expand_nack prev n).
Proof.
  intros [P1 P2 P3 P4 P5 P6] [N1 N2 N3 N4 N5 N6]. unfold expand_nack.
  destruct (has_nack_range n), (has_nack_range prev) eqn:Er, (has_so n), (has_so prev) eqn:Es;
    split; simpl; rewrite ?Es; auto with rlc; unfold is_u16, is_u8, so_end_of_sdu; try lia; try done;
    simpl; apply u8_is_u8.
Qed.

(** [push_nack] seen on the NACK list. *)
Lemma push_nack_empty st n : nacks st = [] -> nacks (push_nack st n) = [n].
Proof. intros E. unfold push_nack. rewrite E. done. Qed.
Lemma push_nack_append st l prev n :
  nacks st = l ++ [prev] -> is_continuous_sequence st prev n = false ->
  push_nack st n = StatusPdu (st_sn_size st) (nacks st ++ [n])
      (u32 (packed_size st + nack_size (st_sn_size st) n)) (cpt st) (ack_sn st).
Proof. intros E Hc. unfold push_nack. by rewrite E, last_snoc, Hc. Qed.
Lemma push_nack_merge st l prev n :
  nacks st = l ++ [prev] -> is_continuous_sequence st prev n = true ->
  push_nack st n = StatusPdu (st_sn_size st) (l ++ [expand_nack prev n])
      (u32 (u32 (packed_size st - nack_size (st_sn_size st) prev)
            + nack_size (st_sn_size st) (expand_nack prev n))) (cpt st) (ack_sn st).
Proof.
  intros E Hc. unfold push_nack. rewrite E, last_snoc, Hc. simpl. by rewrite removelast_last.
Qed.
Lemma push_nack_size_ack st n :
  st_sn_size (push_nack st n) = st_sn_size st /\ ack_sn (push_nack st n) = ack_sn st.
Proof. unfold push_nack. destruct (list.last _); [case_match|]; done. Qed.

Lemma u32_add_l a b : u32 (u32 a + b) = u32 (a + b).
Proof. unfold u32. apply Zplus_mod_idemp_l. Qed.
Lemma u32_sub_l a b : u32 (u32 a - b) = u32 (a - b).
Proof. unfold u32. apply Zminus_mod_idemp_l. Qed.

Lemma push_nack_ok st n :
  status_ok st -> nack_ok (st_sn_size st) n -> status_ok (push_nack st n).
Proof.
  intros [Hn Hs Hz Hc] Hnok.
  destruct (nacks st) as [|prev l _] eqn:E using rev_ind.
  { unfold push_nack. rewrite E. simpl. split; simpl; [by constructor|done| |done].
    rewrite Hz, u32_add_l. f_equal. simpl. lia. }
  apply Forall_app in Hn as [Hl Hp]. rewrite list.Forall_singleton in Hp.
  destruct (is_continuous_sequence st prev n) eqn:Ec.
  - rewrite (push_nack_merge st l prev n) by done. split; simpl; [| | |done].
    + apply Forall_app; split; [done|]. constructor; [by apply expand_nack_ok|done].
    + apply (nacks_sep_replace _ _ prev); [intros; apply expand_left_neighbour|].
      by eapply nacks_sep_ext; [|exact Hs].
    + rewrite Hz, u32_sub_l, u32_add_l. f_equal. rewrite !nacks_size_app. simpl. lia.
  - rewrite (push_nack_append st l prev n) by done. split; simpl; [| | |done]; rewrite E.
    + rewrite !Forall_app. auto.
    + rewrite <- app_assoc. apply nacks_sep_snoc; [by eapply nacks_sep_ext; [|exact Hs]|done].
    + rewrite Hz, u32_add_l. f_equal. rewrite !nacks_size_app. simpl. lia.
Qed.

Lemma status_new_ok s : status_ok (rlc_am_status_pdu_new s).
Proof. split; simpl; [constructor|done|done|done]. Qed.

(** ** Packing and unpacking one NACK *)
Lemma so_bytes_roundtrip v : is_u16 v -> Z.lor (u16 (Z.shiftl (u8 (Z.shiftr v 8)) 8)) (u8 v) = v.
Proof. unfold is_u16, u8, u16. intros. bits_arith. mlia. Qed.

Lemma unpack_pack_so_range s e2 e3 n r :
  nack_ok s n -> (e2 =? 0) = negb (has_so n) -> (e3 =? 0) = negb (has_nack_range n) ->
  unpack_so_range e2 e3 (nack_with_sn nack_default (nack_sn n)) (pack_so_range n ++ r) = Some (n, r).
Proof.
  intros [_ H2 H3 H4 H5 H6] He2 He3. unfold unpack_so_range, pack_so_range. rewrite He2, He3.
  rewrite !negb_involutive. destruct n as [sn hs ss se hr rg]; simpl in *.
  destruct hs, hr; simpl; rewrite ?so_bytes_roundtrip, ?u8_id by done; unfold nack_with_so,
    nack_with_range; simpl; try (destruct H5 as [-> ->]; [done|]); try rewrite H6 by done; done.
Qed.

Lemma unpack_pack_nack_12bit more n r :
  nack_ok size12bits n ->
  unpack_nack_12bit (pack_nack_12bit more n ++ r) = Some (n, if more then 8 else 0, r).
Proof.
  intros Hok. pose proof (no_sn _ _ Hok) as Hsn. rewrite am_mod_values in Hsn.
  unfold pack_nack_12bit, unpack_nack_12bit. cbv zeta. rewrite <- app_assoc. simpl app.
  assert ((if has_nack_range n then _ else _)
          = (nack_sn n mod 16) * 16 + (if more then 8 else 0)
            + (if has_so n then 4 else 0) + (if has_nack_range n then 2 else 0)) as ->.
  { unfold u8. destruct more, (has_so n), (has_nack_range n); bits_arith; mlia. }
  replace (Z.lor _ _) with (nack_sn n)
    by (unfold u8; destruct more, (has_so n), (has_nack_range n); bits_arith; mlia).
  replace (Z.land _ 1) with 0 by (destruct more, (has_so n), (has_nack_range n); bits_arith; mlia).
  replace (Z.land _ 8) with (if more then 8 else 0)
    by (destruct more, (has_so n), (has_nack_range n); bits_arith; mlia).
  replace (Z.land _ 4) with (if has_so n then 4 else 0)
    by (destruct more, (has_so n), (has_nack_range n); bits_arith; mlia).
  replace (Z.land _ 2) with (if has_nack_range n then 2 else 0)
    by (destruct more, (has_so n), (has_nack_range n); bits_arith; mlia).
  simpl. rewrite (unpack_pack_so_range size12bits);
    [done|done|by destruct (has_so n)|by destruct (has_nack_range n)].
Qed.

Lemma unpack_pack_nack_18bit more n r :
  nack_ok size18bits n ->
  unpack_nack_18bit (pack_nack_18bit more n ++ r) = Some (n, if more then 32 else 0, r).
Proof.
  intros Hok. pose proof (no_sn _ _ Hok) as Hsn. rewrite am_mod_values in Hsn.
  unfold pack_nack_18bit, unpack_nack_18bit. cbv zeta. rewrite <- app_assoc. simpl app.
  assert ((if has_nack_range n then _ else _)
          = (nack_sn n mod 4) * 64 + (if more then 32 else 0)
            + (if has_so n then 16 else 0) + (if has_nack_range n then 8 else 0)) as ->.
  { unfold u8, u32. destruct more, (has_so n), (has_nack_range n); bits_arith; mlia. }
  replace (Z.lor _ _) with (nack_sn n)
    by (unfold u8; destruct more, (has_so n), (has_nack_range n); bits_arith; mlia).
  replace (Z.land _ 7) with 0 by (destruct more, (has_so n), (has_nack_range n); bits_arith; mlia).
  replace (Z.land _ 32) with (if more then 32 else 0)
    by (destruct more, (has_so n), (has_nack_range n); bits_arith; mlia).
  replace (Z.land _ 16) with (if has_so n then 16 else 0)
    by (destruct more, (has_so n), (has_nack_range n); bits_arith; mlia).
  replace (Z.land _ 8) with (if has_nack_range n then 8 else 0)
    by (destruct more, (has_so n), (has_nack_range n); bits_arith; mlia).
  simpl. rewrite (unpack_pack_so_range size18bits);
    [done|done|by destruct (has_so n)|by destruct (has_nack_range n)].
Qed.
