(* ===== verification/RlcAmStatusThms.v ===== *)
(** * RLC AM STATUS PDU: theorems

    Round trip of the packers and unpackers, size bookkeeping, trimming, and the
    meaning of the merged NACK list. *)
From S2P Require Import Prelude RlcAmPdu RlcAmStatus.

Lemma nacks_sep_middle st l x y r :
  nacks_sep st (l ++ x :: y :: r) -> is_continuous_sequence st x y = false.
Proof.
  induction l as [|a l IH]; simpl; [tauto|]. destruct l; simpl in *; tauto.
Qed.

Lemma push_nack_sep st n r :
  nacks_sep st (nacks st ++ n :: r) ->
  push_nack st n = StatusPdu (st_sn_size st) (nacks st ++ [n])
      (u32 (packed_size st + nack_size (st_sn_size st) n)) (cpt st) (ack_sn st).
Proof.
  destruct (nacks st) as [|prev l _] eqn:E using rev_ind; intros Hsep.
  - unfold push_nack. by rewrite E.
  - rewrite <- app_assoc in Hsep. rewrite <- E. apply (push_nack_append st l prev n); [done|].
    apply (nacks_sep_middle st l prev n r). exact Hsep.
Qed.

Lemma unpack_nacks_pack s parse pk e l st fuel tail e0 :
  (forall more n r, nack_ok s n -> parse (pk more n ++ r) = Some (n, if more : bool then e else 0, r)) ->
  e <> 0 -> e0 <> 0 -> st_sn_size st = s -> l <> [] -> Forall (nack_ok s) l ->
  nacks_sep st (nacks st ++ l) -> (length l <= fuel)%nat ->
  unpack_nacks parse fuel e0 (pack_nacks pk l ++ tail) st
  = Some (StatusPdu s (nacks st ++ l) (u32 (packed_size st + nacks_size s l)) (cpt st) (ack_sn st)).
Proof.
  intros Hp He. revert st fuel e0.
  induction l as [|n l IH]; intros st fuel e0 He0 Hs Hne Hok Hsep Hf; [done|].
  apply list.Forall_cons in Hok as [Hn Hok]. destruct fuel as [|fuel]; simpl in Hf; [lia|].
  simpl. rewrite (proj2 (Z.eqb_neq e0 0) He0), <- app_assoc, Hp by done.
  rewrite (push_nack_sep st n l), Hs by done.
  destruct l as [|n' l].
  - destruct fuel; simpl; by rewrite Z.add_0_r.
  - rewrite IH; simpl in *; [| | | | | |lia]; try done.
    + rewrite <- app_assoc, u32_add_l. do 3 f_equal. simpl. lia.
    + rewrite <- app_assoc. by apply (nacks_sep_ext st).
Qed.

Lemma pack_nacks_len s pk l :
  (forall more n, Z.of_nat (length (pk more n)) = nack_size s n) ->
  blen (pack_nacks pk l) = nacks_size s l.
Proof.
  intros Hpk. unfold blen. induction l as [|n l IH]; simpl; [done|].
  rewrite length_app. rewrite Nat2Z.inj_add, Hpk, IH. done.
Qed.
Lemma pack_nack_12bit_len more n : Z.of_nat (length (pack_nack_12bit more n)) = nack_size size12bits n.
Proof. unfold pack_nack_12bit, pack_so_range, nack_size. by destruct (has_so n), (has_nack_range n). Qed.
Lemma pack_nack_18bit_len more n : Z.of_nat (length (pack_nack_18bit more n)) = nack_size size18bits n.
Proof. unfold pack_nack_18bit, pack_so_range, nack_size. by destruct (has_so n), (has_nack_range n). Qed.

Lemma nacks_size_ge_length s l : Z.of_nat (length l) <= nacks_size s l.
Proof. induction l as [|n l IH]; simpl; [lia|]. pose proof (nack_size_pos s n). lia. Qed.

(** The first three octets: D/C and CPT are zero, ACK_SN and E1 read back. *)
Lemma pack_head_12bit a : 0 <= a < 4096 ->
  let b0 := u8 (Z.lor 0 (Z.land (Z.shiftr a 8) 0x0f)) in
  Z.land (Z.shiftr b0 7) 1 = 0 /\ Z.land (Z.shiftr b0 4) 7 = 0
  /\ Z.lor (Z.shiftl (Z.land b0 0x0f) 8) (Z.land (u8 (Z.land a 0xff)) 0xff) = a.
Proof. intros Ha b0. subst b0. unfold u8. rewrite Z.lor_0_l. split_and!; bits_arith; mlia. Qed.

Lemma pack_head_18bit a (more : bool) : 0 <= a < 262144 ->
  let b0 := u8 (Z.lor 0 (Z.land (Z.shiftr a 14) 0x0f)) in
  let b1 := u8 (Z.land (Z.shiftr a 6) 0xff) in
  let b2 := u8 (Z.land (u32 (Z.shiftl a 2)) 0xfc) in
  let b2 := if more then u8 (Z.lor b2 2) else b2 in
  Z.land (Z.shiftr b0 7) 1 = 0 /\ Z.land (Z.shiftr b0 4) 7 = 0
  /\ Z.lor (Z.lor (Z.shiftl (Z.land b0 0x0f) 14) (Z.shiftl (Z.land b1 0xff) 6))
           (Z.shiftr (Z.land b2 0xfc) 2) = a
  /\ Z.land b2 1 = 0 /\ Z.land b2 2 = if more then 2 else 0.
Proof.
  intros Ha b0 b1 b2 b2'. subst b2' b2 b1 b0. unfold u8, u32. rewrite Z.lor_0_l.
  destruct more; split_and!; bits_arith; mlia.
Qed.

Lemma pack_12bit_roundtrip st st0 tail :
  status_ok st -> st_sn_size st = size12bits -> st_sn_size st0 = size12bits ->
  0 <= ack_sn st < am_mod size12bits -> unpack_12bit st0 (pack_12bit st tail) = Some st.
Proof.
  intros [Hn Hs Hz Hc] Hsz Hsz0 Hack. rewrite am_mod_values in Hack.
  destruct st as [s l ps c a]; simpl in *; subst s c.
  unfold unpack_12bit, pack_12bit. cbv zeta. simpl nacks. simpl ack_sn.
  pose proof (blen_nonneg (pack_nacks pack_nack_12bit l ++ tail)).
  rewrite (proj2 (Z.ltb_ge _ _))
    by (rewrite blen_app; unfold rlc_am_nr_status_pdu_sizeof_header_ack_sn, blen at 1; simpl; lia).
  simpl app. unfold is_control_pdu.
  destruct (pack_head_12bit a Hack) as (-> & -> & ->). simpl negb. cbv iota.
  destruct l as [|n l].
  { simpl. unfold status_with_ack. simpl. by rewrite Hsz0, Hz. }
  change (Z.land 128 127 =? 0) with true. simpl negb. cbv iota.
  rewrite (unpack_nacks_pack size12bits _ pack_nack_12bit 8).
  - simpl. by rewrite Hz.
  - intros. by apply unpack_pack_nack_12bit.
  - done.
  - done.
  - done.
  - done.
  - done.
  - refine (nacks_sep_ext _ _ (n :: l) _ Hs). done.
  - cbn [length]. rewrite length_app.
    pose proof (pack_nacks_len size12bits pack_nack_12bit (n :: l) pack_nack_12bit_len) as Hl.
    pose proof (nacks_size_ge_length size12bits (n :: l)). unfold blen in Hl. simpl length in *. lia.
Qed.

Lemma pack_18bit_roundtrip st st0 tail :
  status_ok st -> st_sn_size st = size18bits -> st_sn_size st0 = size18bits ->
  0 <= ack_sn st < am_mod size18bits -> unpack_18bit st0 (pack_18bit st tail) = Some st.
Proof.
  intros [Hn Hs Hz Hc] Hsz Hsz0 Hack. rewrite am_mod_values in Hack.
  destruct st as [s l ps c a]; simpl in *; subst s c.
  unfold unpack_18bit, pack_18bit. cbv zeta. simpl nacks. simpl ack_sn.
  pose proof (blen_nonneg (pack_nacks pack_nack_18bit l ++ tail)).
  rewrite (proj2 (Z.ltb_ge _ _))
    by (rewrite blen_app; unfold rlc_am_nr_status_pdu_sizeof_header_ack_sn, blen at 1; simpl; lia).
  simpl app. unfold is_control_pdu.
  destruct l as [|n l].
  { destruct (pack_head_18bit a false Hack) as (-> & -> & -> & -> & ->).
    simpl. unfold status_with_ack. simpl. by rewrite Hsz0, Hz. }
  destruct (pack_head_18bit a true Hack) as (-> & -> & -> & -> & ->). simpl negb. cbv iota.
  rewrite (unpack_nacks_pack size18bits _ pack_nack_18bit 32).
  - simpl. by rewrite Hz.
  - intros. by apply unpack_pack_nack_18bit.
  - done.
  - done.
  - done.
  - done.
  - done.
  - refine (nacks_sep_ext _ _ (n :: l) _ Hs). done.
  - cbn [length]. rewrite length_app.
    pose proof (pack_nacks_len size18bits pack_nack_18bit (n :: l) pack_nack_18bit_len) as Hl.
    pose proof (nacks_size_ge_length size18bits (n :: l)). unfold blen in Hl. simpl length in *. lia.
Qed.

Lemma pack_len st tail : status_ok st ->
  blen (pack st tail) = rlc_am_nr_status_pdu_sizeof_header_ack_sn
                        + nacks_size (st_sn_size st) (nacks st) + blen tail.
Proof.
  intros _. unfold pack.
  destruct (st_sn_size st); unfold pack_12bit, pack_18bit; cbv zeta; rewrite !blen_app.
  - rewrite (pack_nacks_len size12bits) by apply pack_nack_12bit_len.
    destruct (nacks st); unfold blen at 1; simpl length; unfold rlc_am_nr_status_pdu_sizeof_header_ack_sn; lia.
  - rewrite (pack_nacks_len size18bits) by apply pack_nack_18bit_len.
    destruct (nacks st); unfold blen at 1; simpl length; unfold rlc_am_nr_status_pdu_sizeof_header_ack_sn; lia.
Qed.

(** A STATUS PDU as the receiver builds it: NACKs pushed one by one onto an
    empty PDU, then ACK_SN set. *)
Definition build_status (s : rlc_am_sn_size) (ns : list rlc_am_status_nack) (ack : Z) : rlc_am_status_pdu :=
  status_with_ack (fold_left push_nack ns (rlc_am_status_pdu_new s)) ack.

Lemma fold_push_ok ns st : status_ok st -> Forall (nack_ok (st_sn_size st)) ns ->
  status_ok (fold_left push_nack ns st) /\ st_sn_size (fold_left push_nack ns st) = st_sn_size st.
Proof.
  revert st. induction ns as [|n ns IH]; intros st Hst Hns; [done|]. simpl.
  apply list.Forall_cons in Hns as [Hn Hns]. pose proof (push_nack_size_ack st n) as [Hs _].
  destruct (IH (push_nack st n)) as [H1 H2]; [by apply push_nack_ok|by rewrite Hs|].
  by rewrite H2, Hs.
Qed.

Lemma status_with_ack_ok st a : status_ok st -> status_ok (status_with_ack st a).
Proof.
  intros [H1 H2 H3 H4]. split; try done. by apply (nacks_sep_ext st).
Qed.

Lemma build_status_ok s ns a : Forall (nack_ok s) ns ->
  status_ok (build_status s ns a) /\ st_sn_size (build_status s ns a) = s.
Proof.
  intros Hns. destruct (fold_push_ok ns (rlc_am_status_pdu_new s)) as [H1 H2];
    [apply status_new_ok|done|]. split; [by apply status_with_ack_ok|done].
Qed.

(** C8: STATUS PDU round trip.  For both SN sizes, every STATUS PDU built by
    pushing well-formed NACKs (in any number and order, merged into ranges by
    [push_nack]) and setting ACK_SN is unpacked from its packed form to exactly
    the same object: same NACK list, ACK_SN and cached size, whatever follows
    it in the buffer and whatever the unpacking object held before. *)
Theorem status_pack_unpack (s : rlc_am_sn_size) (ns : list rlc_am_status_nack) (ack : Z)
    (st0 : rlc_am_status_pdu) (tail : bytes) :
  Forall (nack_ok s) ns -> 0 <= ack < am_mod s -> st_sn_size st0 = s ->
  unpack st0 (pack (build_status s ns ack) tail) = Some (build_status s ns ack).
Proof.
  intros Hns Hack Hs0. destruct (build_status_ok s ns ack Hns) as [Hok Hs].
  unfold unpack, pack. rewrite Hs0, Hs.
  destruct s; [apply pack_12bit_roundtrip|apply pack_18bit_roundtrip]; done.
Qed.

Lemma status_pack_unpack_witness :
  unpack (rlc_am_status_pdu_new size12bits)
    (pack (build_status size12bits
       [Nack 7 true 10 so_end_of_sdu false 0; Nack 8 false 0 so_end_of_sdu false 0;
        Nack 4095 true 3 44 false 0] 12) [1; 2])
  = Some (build_status size12bits
       [Nack 7 true 10 so_end_of_sdu false 0; Nack 8 false 0 so_end_of_sdu false 0;
        Nack 4095 true 3 44 false 0] 12).
Proof.
  apply (status_pack_unpack size12bits); [|rewrite am_mod_values; lia|done].
  repeat constructor; simpl; rewrite ?am_mod_values; try lia; try done;
    unfold is_u16, is_u8, so_end_of_sdu; lia.
Defined.

(** The cached size is the wire size.  For a STATUS PDU built by
    [push_nack], [get_packed_size] (as long as it fits its 32-bit counter) is the
    number of bytes [pack] writes, so comparing it with the MAC grant is sound. *)
Theorem status_packed_size_exact (s : rlc_am_sn_size) (ns : list rlc_am_status_nack) (ack : Z) :
  Forall (nack_ok s) ns -> Z.of_nat (length ns) < 2 ^ 28 ->
  blen (pack (build_status s ns ack) []) = packed_size (build_status s ns ack).
Proof.
  intros Hns Hlen. destruct (build_status_ok s ns ack Hns) as [Hok Hs].
  rewrite pack_len by done. rewrite (so_size _ Hok), Hs. symmetry. rewrite Z.add_0_r. apply u32_id.
  assert (forall l st, Z.of_nat (length (nacks (fold_left push_nack l st)))
            <= Z.of_nat (length l) + Z.of_nat (length (nacks st))) as Hpush.
  { induction l as [|n l IH]; intros st; simpl; [lia|]. specialize (IH (push_nack st n)).
    assert (length (nacks (push_nack st n)) <= S (length (nacks st)))%nat; [|lia].
    unfold push_nack. destruct (nacks st) as [|x l' _] using rev_ind; simpl; [lia|].
    rewrite last_snoc. case_match; simpl; [rewrite !length_app; simpl; lia|].
    rewrite removelast_last, !length_app. simpl. lia. }
  specialize (Hpush ns (rlc_am_status_pdu_new s)). simpl in Hpush.
  assert (forall l, nacks_size s l <= 8 * Z.of_nat (length l)) as Hsz.
  { induction l as [|n l IH]; simpl; [lia|]. pose proof (nack_size_pos s n). lia. }
  specialize (Hsz (nacks (build_status s ns ack))).
  pose proof (nacks_size_nonneg s (nacks (build_status s ns ack))).
  unfold is_u32, rlc_am_nr_status_pdu_sizeof_header_ack_sn. unfold build_status in *. simpl in *. lia.
Qed.

Lemma status_packed_size_exact_witness :
  blen (pack (build_status size18bits [Nack 5 false 0 so_end_of_sdu false 0] 9) [])
  = packed_size (build_status size18bits [Nack 5 false 0 so_end_of_sdu false 0] 9).
Proof.
  apply (status_packed_size_exact size18bits); [|simpl; lia].
  repeat constructor; simpl; rewrite ?am_mod_values; try lia; try done;
    unfold is_u16, is_u8, so_end_of_sdu; lia.
Defined.

(** ** Trimming *)
Lemma nacks_sep_app_l st l l' : nacks_sep st (l ++ l') -> nacks_sep st l.
Proof.
  induction l as [|x [|y l] IH]; [done..|]. intros [H1 H2]. split; [done|]. by apply IH.
Qed.

Lemma trim_loop_spec s max rl size ack rl' size' ack' :
  trim_loop s max rl size ack = (rl', size', ack') ->
  size = u32 (rlc_am_nr_status_pdu_sizeof_header_ack_sn + nacks_size s (rev rl)) ->
  rlc_am_nr_status_pdu_sizeof_header_ack_sn <= max ->
  exists dropped, rl = dropped ++ rl'
    /\ size' = u32 (rlc_am_nr_status_pdu_sizeof_header_ack_sn + nacks_size s (rev rl'))
    /\ size' <= max
    /\ ack' = match list.last dropped with Some n => nack_sn n | None => ack end
    /\ match rl' with n :: _ => nack_sn n <> ack' | [] => True end.
Proof.
  revert size ack. induction rl as [|n rl IH]; intros size ack Ht Hsz Hmax; simpl in *.
  { injection Ht as <- <- <-. exists []. simpl in *. rewrite Hsz.
    split_and!; done. }
  destruct ((max <? size) || (nack_sn n =? ack)) eqn:E.
  - apply IH in Ht as (d & -> & -> & H3 & -> & H5); [| |done].
    + exists (n :: d). split_and!; try done. rewrite last_cons. by destruct (list.last d).
    + rewrite Hsz, u32_sub_l. f_equal. rewrite nacks_size_app. simpl. lia.
  - injection Ht as <- <- <-. apply orb_false_iff in E as [E1 E2]. breflect.
    exists []. split_and!; done.
Qed.

Lemma status_trim_spec (st : rlc_am_status_pdu) (max_packed_size : Z) :
  status_ok st -> rlc_am_nr_status_pdu_sizeof_header_ack_sn <= max_packed_size < packed_size st ->
  exists st' dropped, trim st max_packed_size = (true, st')
    /\ st_sn_size st' = st_sn_size st /\ nacks st = nacks st' ++ dropped /\ dropped <> []
    /\ status_ok st' /\ packed_size st' <= max_packed_size
    /\ Some (ack_sn st') = nack_sn <$> head dropped
    /\ (forall n, list.last (nacks st') = Some n -> nack_sn n <> ack_sn st').
Proof.
  intros [Hn Hs Hz Hc] Hmax. unfold trim.
  rewrite (proj2 (Z.leb_gt _ _)), (proj2 (Z.ltb_ge _ _)) by lia.
  destruct (trim_loop _ _ _ _ _) as [[rl size] ack] eqn:E.
  apply trim_loop_spec in E as (d & Hd & Hsize & Hle & Hack & Hlast);
    [|by rewrite rev_involutive|lia].
  assert (nacks st = rev rl ++ rev d) as Hnd
    by (rewrite <- rev_app_distr, <- Hd; by rewrite rev_involutive).
  assert (d <> []) as Hdne.
  { intros ->. simpl in Hd. rewrite <- Hd, rev_involutive in Hsize. lia. }
  eexists _, (rev d). split_and!; simpl.
  - reflexivity.
  - done.
  - done.
  - intros H. apply Hdne. rewrite <- (rev_involutive d), H. done.
  - rewrite Hnd in Hn, Hs. split; simpl.
    + by apply Forall_app in Hn as [? _].
    + apply (nacks_sep_ext st); [done|]. by eapply nacks_sep_app_l.
    + done.
    + done.
  - done.
  - destruct d as [|x d _] using rev_ind; [done|]. rewrite last_snoc in Hack.
    by rewrite rev_app_distr, Hack.
  - intros n Hl. destruct rl as [|y rl]; simpl in *; [done|].
    rewrite last_snoc in Hl. by injection Hl as <-.
Qed.

(** [trim] either refuses a grant smaller than the 3-byte header or returns
    a STATUS PDU that fits the grant: the remaining NACKs are a prefix of the
    original ones, the object stays well formed with an exact size, ACK_SN moves
    to the first dropped NACK and differs from the SN of the last kept NACK. *)
Theorem status_trim_fits (st : rlc_am_status_pdu) (max_packed_size : Z) :
  status_ok st -> rlc_am_nr_status_pdu_sizeof_header_ack_sn <= max_packed_size < packed_size st ->
  exists st' dropped, trim st max_packed_size = (true, st')
    /\ st_sn_size st' = st_sn_size st /\ nacks st = nacks st' ++ dropped /\ dropped <> []
    /\ status_ok st' /\ packed_size st' <= max_packed_size
    /\ Some (ack_sn st') = nack_sn <$> head dropped
    /\ (forall n, list.last (nacks st') = Some n -> nack_sn n <> ack_sn st').
Proof. apply status_trim_spec. Qed.

Lemma status_trim_fits_witness :
  exists st' dropped,
    trim (build_status size12bits
       [Nack 3 false 0 so_end_of_sdu false 0; Nack 9 true 3 44 false 0] 12) 6 = (true, st')
    /\ st_sn_size st' = size12bits
    /\ nacks (build_status size12bits
       [Nack 3 false 0 so_end_of_sdu false 0; Nack 9 true 3 44 false 0] 12) = nacks st' ++ dropped
    /\ dropped <> [] /\ status_ok st' /\ packed_size st' <= 6
    /\ Some (ack_sn st') = nack_sn <$> head dropped
    /\ (forall n, list.last (nacks st') = Some n -> nack_sn n <> ack_sn st').
Proof.
  apply status_trim_fits; [|vm_compute; done].
  apply (build_status_ok size12bits). repeat constructor; simpl; rewrite ?am_mod_values; try lia;
    try done; unfold is_u16, is_u8, so_end_of_sdu; lia.
Defined.

(** ** Meaning of a NACK *)
Definition nack_len (n : rlc_am_status_nack) : Z := if has_nack_range n then nack_range n else 1.

(** NACK [n] reports byte [o] of the SDU with sequence number [sn] missing. *)
Definition nack_covers (s : rlc_am_sn_size) (n : rlc_am_status_nack) (sn o : Z) : Prop :=
  exists i, 0 <= i < nack_len n /\ sn = (nack_sn n + i) mod am_mod s
    /\ (i = 0 -> so_start n <= o) /\ (i = nack_len n - 1 -> o <= so_end n).

Definition status_covers (st : rlc_am_status_pdu) (sn o : Z) : Prop :=
  Exists (fun n => nack_covers (st_sn_size st) n sn o) (nacks st).

Lemma is_continuous_inv st l r :
  nack_ok (st_sn_size st) l -> nack_ok (st_sn_size st) r -> is_continuous_sequence st l r = true ->
  nack_sn r = (nack_sn l + nack_len l) mod am_mod (st_sn_size st)
  /\ so_end l = so_end_of_sdu /\ so_start r = 0.
Proof.
  intros [L1 L2 L3 L4 L5 L6] [R1 R2 R3 R4 R5 R6]. unfold is_continuous_sequence, mod_nr, nack_len.
  intros H. bool_cases; try done; breflect; split_and!;
    repeat match goal with
    | H : _ && _ = false |- _ => apply andb_false_iff in H as [?|?]; breflect
    end; try tauto; try (by apply L5); try (by apply R5).
  all: match goal with H : _ = u32 _ mod _ |- _ => rewrite H end.
  all: rewrite u32_id; [done|]; unfold is_u32, is_u8 in *; rewrite am_mod_values in *;
    destruct (st_sn_size st); lia.
Qed.

Lemma expand_nack_fields prev n s :
  nack_ok s prev -> nack_ok s n -> 1 <= nack_len prev -> 1 <= nack_len n ->
  nack_len prev + nack_len n <= 255 -> so_end prev = so_end_of_sdu -> so_start n = 0 ->
  nack_sn (expand_nack prev n) = nack_sn prev
  /\ nack_len (expand_nack prev n) = nack_len prev + nack_len n
  /\ so_start (expand_nack prev n) = so_start prev /\ so_end (expand_nack prev n) = so_end n.
Proof.
  intros [P1 P2 P3 P4 P5 P6] [N1 N2 N3 N4 N5 N6]. unfold nack_len, expand_nack, is_u8 in *.
  destruct (has_nack_range n) eqn:Er1, (has_nack_range prev) eqn:Er2, (has_so n) eqn:Es1,
    (has_so prev) eqn:Es2; simpl; rewrite ?Es2; simpl; intros; split_and!;
    try destruct (P5 eq_refl); try destruct (N5 eq_refl); try (unfold u8; rewrite Z.mod_small);
    try lia; congruence.
Qed.

Lemma push_nack_covers_spec (st : rlc_am_status_pdu) (n : rlc_am_status_nack) (sn o : Z) :
  status_ok st -> nack_ok (st_sn_size st) n -> 1 <= nack_len n -> 0 <= o <= so_end_of_sdu ->
  Forall (fun p => 1 <= nack_len p /\ nack_len p + nack_len n <= 255) (nacks st) ->
  status_covers (push_nack st n) sn o
  <-> status_covers st sn o \/ nack_covers (st_sn_size st) n sn o.
Proof.
  intros Hst Hn Hlen Ho Hov. unfold status_covers.
  destruct (push_nack_size_ack st n) as [-> _]. pose proof (so_nacks _ Hst) as Hnacks.
  destruct (nacks st) as [|prev l _] eqn:E using rev_ind.
  { rewrite push_nack_empty by done. rewrite Exists_cons, !Exists_nil. tauto. }
  apply Forall_app in Hnacks as [_ Hp]. rewrite list.Forall_singleton in Hp.
  apply Forall_app in Hov as [_ Hov]. rewrite list.Forall_singleton in Hov. destruct Hov as [Hp1 Hp2].
  destruct (is_continuous_sequence st prev n) eqn:Ec.
  - rewrite (push_nack_merge st l prev n) by done. simpl.
    rewrite !Exists_app, !Exists_cons, !Exists_nil.
    destruct (is_continuous_inv st prev n Hp Hn Ec) as (H1 & H2 & H3).
    destruct (expand_nack_fields prev n _ Hp Hn Hp1 Hlen Hp2 H2 H3) as (F1 & F2 & F3 & F4).
    enough (nack_covers (st_sn_size st) (expand_nack prev n) sn o
            <-> nack_covers (st_sn_size st) prev sn o \/ nack_covers (st_sn_size st) n sn o) by tauto.
    unfold nack_covers. rewrite F1, F2, F3, F4, H1, H2, H3. split.
    + intros (i & Hi & -> & Hs & He). destruct (decide (i < nack_len prev)).
      * left. exists i. split_and!; try done; lia.
      * right. exists (i - nack_len prev). rewrite Zplus_mod_idemp_l.
        split_and!; [lia|lia|f_equal; lia|lia|intros; apply He; lia].
    + intros [(i & Hi & -> & Hs & He)|(i & Hi & -> & Hs & He)].
      * exists i. split_and!; try done; lia.
      * exists (nack_len prev + i). rewrite Zplus_mod_idemp_l.
        split_and!; [lia|lia|f_equal; lia|lia|intros; apply He; lia].
  - rewrite (push_nack_append st l prev n) by done. simpl. rewrite E.
    rewrite !Exists_app, !Exists_cons, !Exists_nil. tauto.
Qed.

(** Merging loses nothing.  As long as the 8-bit NACK range does not
    overflow, pushing a NACK makes the STATUS PDU report exactly the bytes it
    reported before together with those of the new NACK, whether the NACK is
    appended or merged into the previous one (with or without ranges and segment
    offsets, also across the SN wrap-around). *)
Theorem push_nack_covers (st : rlc_am_status_pdu) (n : rlc_am_status_nack) (sn o : Z) :
  status_ok st -> nack_ok (st_sn_size st) n -> 1 <= nack_len n -> 0 <= o <= so_end_of_sdu ->
  Forall (fun p => 1 <= nack_len p /\ nack_len p + nack_len n <= 255) (nacks st) ->
  status_covers (push_nack st n) sn o
  <-> status_covers st sn o \/ nack_covers (st_sn_size st) n sn o.
Proof. apply push_nack_covers_spec. Qed.

Lemma push_nack_covers_witness :
  let st := build_status size12bits [Nack 4095 true 10 so_end_of_sdu false 0] 3 in
  let n := Nack 0 true 0 20 false 0 in
  status_covers (push_nack st n) 0 20
  <-> status_covers st 0 20 \/ nack_covers (st_sn_size st) n 0 20.
Proof.
  intros st n. apply push_nack_covers.
  - apply (build_status_ok size12bits). repeat constructor; simpl; rewrite ?am_mod_values; try lia;
      try done; unfold is_u16, is_u8, so_end_of_sdu; lia.
  - repeat constructor; simpl; rewrite ?am_mod_values; try lia; try done;
      unfold is_u16, is_u8, so_end_of_sdu; lia.
  - unfold nack_len; simpl; lia.
  - unfold so_end_of_sdu; lia.
  - repeat constructor; unfold nack_len; simpl; lia.
Defined.

(** A whole SDU reported missing. *)
Definition nack_sdu (sn : Z) : rlc_am_status_nack := nack_with_sn nack_default sn.

(** The 8-bit NACK range wraps.  256 consecutive missing SDUs, pushed one by
    one, end up as a single NACK with [nack_range = 0], which reports no SDU at
    all: the whole run is lost from the STATUS PDU. *)
Theorem nack_range_overflow_loses_run :
  nacks (build_status size12bits (nack_sdu <$> seqZ 0 256) 256)
  = [Nack 0 false 0 so_end_of_sdu true 0]
  /\ forall sn o, ~ status_covers (build_status size12bits (nack_sdu <$> seqZ 0 256) 256) sn o.
Proof.
  assert (nacks (build_status size12bits (nack_sdu <$> seqZ 0 256) 256)
          = [Nack 0 false 0 so_end_of_sdu true 0]) as E by (vm_compute; reflexivity).
  split; [done|]. intros sn o. unfold status_covers. rewrite E.
  rewrite Exists_cons, Exists_nil. intros [(i & Hi & _)|[]]. unfold nack_len in Hi. simpl in Hi. lia.
Qed.

(** [trim] looks only at the first SN of a NACK range.  With SDUs 5 and 6
    missing and two gaps in SDU 7, trimming the second gap of SDU 7 leaves a
    range that still covers SN 7 although ACK_SN has become 7: the trimmed
    report both negatively acknowledges SN 7 and sets ACK_SN to it. *)
Theorem trim_keeps_range_beyond_ack :
  let st := build_status size12bits
              [nack_sdu 5; nack_sdu 6; Nack 7 true 0 10 false 0; Nack 7 true 20 30 false 0] 9 in
  exists st', trim st 10 = (true, st') /\ ack_sn st' = 7 /\ status_covers st' 7 5.
Proof.
  eexists. split_and!; [vm_compute; reflexivity|done|].
  unfold status_covers. simpl. constructor. exists 2. unfold nack_len. simpl.
  split_and!; try lia. by vm_compute.
Qed.
