(* ===== verification/RlcSegments.v ===== *)
(** * RLC AM reassembly of one SDU

    [lib/rlc/rlc_rx_am_entity.h] (segment and SDU containers) and the functions
    of [lib/rlc/rlc_rx_am_entity.cpp] that work on one SDU: [store_segment],
    [update_segment_inventory], [handle_full_data_sdu] and
    [handle_segment_data_sdu].  The [std::set] of segments, ordered by segment
    offset, is a list sorted by offset; iterators into it are list positions. *)
From S2P Require Import Prelude RlcAmPdu.

Record rlc_rx_am_sdu_segment := Seg {
  seg_si : rlc_si_field;
  seg_so : Z; (* uint16_t *)
  seg_payload : bytes;
}.

Record rlc_rx_am_sdu_info := SduInfo {
  fully_received : bool;
  has_gap : bool;
  segments : list rlc_rx_am_sdu_segment;
  sdu : bytes;
}.

Definition sdu_info_default : rlc_rx_am_sdu_info := SduInfo false false [] [].

Definition seg_len (s : rlc_rx_am_sdu_segment) : Z := blen (seg_payload s).

(** [std::set::insert] with the comparator on [so]: an equal key is kept. *)
Fixpoint seg_insert (x : rlc_rx_am_sdu_segment) (l : list rlc_rx_am_sdu_segment)
    : list rlc_rx_am_sdu_segment :=
  match l with
  | [] => [x]
  | y :: r => if seg_so x <? seg_so y then x :: l
              else if seg_so y <? seg_so x then y :: seg_insert x r
              else l
  end.

(** The loop of [store_segment]: [kept] are the segments before the iterator,
    [rest] those from the iterator on.  The result is the flag [stored] and the
    new segment set. *)
Fixpoint store_segment_loop (kept rest : list rlc_rx_am_sdu_segment)
    (new : rlc_rx_am_sdu_segment) : bool * list rlc_rx_am_sdu_segment :=
  match rest with
  | [] => (true, seg_insert new kept)
  | cur :: rest' =>
      let cur_last_byte := u32 (seg_so cur + seg_len cur - 1) in
      let new_last_byte := u32 (seg_so new + seg_len new - 1) in
      if cur_last_byte <? seg_so new then store_segment_loop (kept ++ [cur]) rest' new
      else if seg_so cur <=? seg_so new then
        if new_last_byte <=? cur_last_byte then (false, kept ++ cur :: rest')
        else
          let new' := Seg (seg_si new) (u16 (cur_last_byte + 1))
                        (bdrop (u32 (cur_last_byte + 1 - seg_so new)) (seg_payload new)) in
          store_segment_loop (kept ++ [cur]) rest' new'
      else if new_last_byte <? seg_so cur then (true, seg_insert new (kept ++ cur :: rest'))
      else if new_last_byte <? cur_last_byte then
        let cut := Seg (seg_si cur) (u16 (new_last_byte + 1))
                     (bdrop (u32 (new_last_byte + 1 - seg_so cur)) (seg_payload cur)) in
        (true, seg_insert new (seg_insert cut (kept ++ rest')))
      else store_segment_loop kept rest' new
  end.

Definition store_segment (info : rlc_rx_am_sdu_info) (new : rlc_rx_am_sdu_segment)
    : bool * rlc_rx_am_sdu_info :=
  let '(stored, segs) := store_segment_loop [] (segments info) new in
  (stored, SduInfo (fully_received info) (has_gap info) segs (sdu info)).

(** The scan of [update_segment_inventory]: (fully_received, has_gap). *)
Fixpoint segment_inventory (next_byte : Z) (l : list rlc_rx_am_sdu_segment) : bool * bool :=
  match l with
  | [] => (false, false)
  | s :: r =>
      if negb (seg_so s =? next_byte) then (false, true)
      else if bool_decide (seg_si s = last_segment) then (true, false)
      else segment_inventory (u32 (next_byte + seg_len s)) r
  end.

Definition update_segment_inventory (info : rlc_rx_am_sdu_info) : rlc_rx_am_sdu_info :=
  let '(full, gap) := segment_inventory 0 (segments info) in
  SduInfo full gap (segments info) (sdu info).

(** [handle_full_data_sdu] and [handle_segment_data_sdu] on the SDU container
    of the header's SN (looked up or added by the entity). *)
Definition handle_full_data_sdu (h : rlc_am_pdu_header) (payload : bytes)
    (info : rlc_rx_am_sdu_info) : bool * rlc_rx_am_sdu_info :=
  if negb (bool_decide (hdr_si h = full_sdu)) then (false, info)
  else (true, SduInfo true false [] payload).

Definition handle_segment_data_sdu (h : rlc_am_pdu_header) (payload : bytes)
    (info : rlc_rx_am_sdu_info) : bool * rlc_rx_am_sdu_info :=
  if bool_decide (hdr_si h = full_sdu) then (false, info)
  else
    let '(stored, info) := store_segment info (Seg (hdr_si h) (hdr_so h) payload) in
    let info := update_segment_inventory info in
    if fully_received info
    then (stored, SduInfo true (has_gap info) []
                    (sdu info ++ concat (map seg_payload (segments info))))
    else (stored, info).

(** ** Invariant of the segment set *)
Definition seg_wf (s : rlc_rx_am_sdu_segment) : Prop :=
  0 <= seg_so s /\ 0 < seg_len s /\ seg_so s + seg_len s <= 65536.

(** Sorted by offset, pairwise disjoint, none empty, within 16-bit offsets,
    all at or after [lo]. *)
Fixpoint segs_from (lo : Z) (l : list rlc_rx_am_sdu_segment) : Prop :=
  match l with
  | [] => True
  | s :: r => lo <= seg_so s /\ seg_wf s /\ segs_from (seg_so s + seg_len s) r
  end.

Definition in_seg (s : rlc_rx_am_sdu_segment) (o : Z) : Prop := seg_so s <= o < seg_so s + seg_len s.
Definition covered (l : list rlc_rx_am_sdu_segment) (o : Z) : Prop := Exists (fun s => in_seg s o) l.

(** A segment cut out of the SDU [d]; the SI field tells the last one. *)
Definition seg_of (d : bytes) (s : rlc_rx_am_sdu_segment) : Prop :=
  seg_so s + seg_len s <= blen d
  /\ seg_payload s = slice (seg_so s) (seg_len s) d
  /\ (seg_si s = last_segment <-> seg_so s + seg_len s = blen d).

Lemma segs_from_app lo l r :
  segs_from lo (l ++ r) <->
  segs_from lo l /\ segs_from (fold_left (fun _ s => seg_so s + seg_len s) l lo) r.
Proof. revert lo. induction l as [|s l IH]; intros lo; simpl; [tauto|]. rewrite IH. tauto. Qed.

Lemma segs_from_weaken lo lo' l : lo' <= lo -> segs_from lo l -> segs_from lo' l.
Proof. destruct l; simpl; [done|]. intros ? (? & ? & ?). split_and!; try done. lia. Qed.

Lemma segs_from_lower lo l : segs_from lo l -> Forall (fun s => lo <= seg_so s /\ seg_wf s) l.
Proof.
  revert lo. induction l as [|s l IH]; intros lo; simpl; [constructor|].
  intros (H1 & Hw & Hr). constructor; [done|]. apply IH in Hr.
  eapply list.Forall_impl; [exact Hr|]. simpl. unfold seg_wf in *. intros x [? ?]. split; [lia|done].
Qed.

Lemma segs_from_end lo l hi :
  lo <= hi -> Forall (fun s => seg_so s + seg_len s <= hi) l ->
  fold_left (fun _ s => seg_so s + seg_len s) l lo <= hi.
Proof.
  revert lo. induction l as [|s l IH]; intros lo; simpl; [done|].
  intros Hlo Hf. apply list.Forall_cons in Hf as [? ?]. by apply IH.
Qed.

(** Insertion in the middle of a well-formed set. *)
Lemma seg_insert_middle kept x rest :
  Forall (fun s => seg_so s < seg_so x) kept -> Forall (fun s => seg_so x < seg_so s) rest ->
  seg_insert x (kept ++ rest) = kept ++ x :: rest.
Proof.
  intros Hk Hr. induction Hk as [|y l Hy Hl IH]; simpl.
  - destruct Hr as [|y r Hy Hr]; simpl; [done|]. by rewrite (proj2 (Z.ltb_lt _ _) Hy).
  - rewrite (proj2 (Z.ltb_ge _ _)), (proj2 (Z.ltb_lt _ _)) by lia. by rewrite IH.
Qed.

Lemma covered_app l r o : covered (l ++ r) o <-> covered l o \/ covered r o.
Proof. unfold covered. by rewrite Exists_app. Qed.
Lemma covered_cons s r o : covered (s :: r) o <-> in_seg s o \/ covered r o.
Proof. unfold covered. by rewrite Exists_cons. Qed.
Lemma covered_nil o : covered [] o <-> False.
Proof. unfold covered. by rewrite Exists_nil. Qed.

(** Cutting [k] bytes off the front of a segment. *)
Lemma seg_of_bdrop d s k so' :
  seg_of d s -> 0 <= seg_so s -> 0 <= k < seg_len s -> so' = seg_so s + k ->
  seg_of d (Seg (seg_si s) so' (bdrop k (seg_payload s))).
Proof.
  intros (H1 & H2 & H3) Hso Hk ->. unfold seg_of, seg_len in *. simpl.
  rewrite blen_bdrop by lia. split_and!; [lia| |rewrite H3; lia].
  rewrite H2 at 1. unfold bdrop, slice. rewrite skipn_firstn_comm, drop_drop.
  f_equal; [lia|]. f_equal. lia.
Qed.

(** ** Storing a segment *)
Definition ends_by (hi : Z) (l : list rlc_rx_am_sdu_segment) : Prop :=
  Forall (fun s => seg_so s + seg_len s <= hi) l.

Lemma last_byte_exact s : seg_wf s -> u32 (seg_so s + seg_len s - 1) = seg_so s + seg_len s - 1.
Proof. intros (H1 & H2 & H3). apply u32_id. unfold is_u32. lia. Qed.

Lemma not_covered_below lo l o : segs_from lo l -> o < lo -> ~ covered l o.
Proof.
  intros H%segs_from_lower Ho Hc. unfold covered in Hc. apply list.Exists_exists in Hc as (s & Hin & Hs).
  eapply list.Forall_forall in H; [|done]. unfold in_seg in Hs. lia.
Qed.
Lemma not_covered_above l o hi : ends_by hi l -> hi <= o -> ~ covered l o.
Proof.
  intros H Ho Hc. unfold covered in Hc. apply list.Exists_exists in Hc as (s & Hin & Hs).
  eapply list.Forall_forall in H; [|done]. unfold in_seg in Hs. simpl in H. lia.
Qed.

Lemma kept_below kept x hi lo : segs_from lo kept -> ends_by hi kept -> hi <= seg_so x ->
  Forall (fun s => seg_so s < seg_so x) kept.
Proof.
  intros H1%segs_from_lower H2 Hx. apply list.Forall_forall. intros s Hs.
  eapply list.Forall_forall in H1; [|exact Hs]. eapply list.Forall_forall in H2; [|exact Hs].
  unfold seg_wf in H1. simpl in *. lia.
Qed.
Lemma rest_above rest x lo : segs_from lo rest -> seg_so x < lo ->
  Forall (fun s => seg_so x < seg_so s) rest.
Proof.
  intros H1%segs_from_lower Hx. apply list.Forall_forall. intros s Hs.
  eapply list.Forall_forall in H1; [|exact Hs]. simpl in *. lia.
Qed.

(** Inserting between segments that end before it and segments that start
    after it. *)
Lemma insert_between kept x rest :
  segs_from 0 kept -> ends_by (seg_so x) kept -> seg_wf x -> segs_from (seg_so x + seg_len x) rest ->
  seg_insert x (kept ++ rest) = kept ++ x :: rest /\ segs_from 0 (kept ++ x :: rest).
Proof.
  intros Hk He Hx Hr. split.
  - apply seg_insert_middle; [by eapply kept_below|]. eapply rest_above; [done|].
    unfold seg_wf in Hx. lia.
  - apply segs_from_app. split; [done|]. simpl. split_and!; [|done|done].
    apply segs_from_end; [unfold seg_wf in Hx; lia|done].
Qed.

(** What one run of the loop guarantees. *)
Record store_post (cur_set : list rlc_rx_am_sdu_segment) (new : rlc_rx_am_sdu_segment)
    (stored : bool) (res : list rlc_rx_am_sdu_segment) : Prop := {
  sp_sorted : segs_from 0 res;
  sp_cover : forall o, covered res o <-> covered cur_set o \/ in_seg new o;
  sp_false : stored = false -> res = cur_set /\ forall o, in_seg new o -> covered cur_set o;
  sp_true : stored = true -> exists o, in_seg new o /\ ~ covered cur_set o;
  sp_data : forall d, Forall (seg_of d) cur_set -> seg_of d new -> Forall (seg_of d) res;
}.

Lemma store_post_insert kept new rest :
  segs_from 0 kept -> ends_by (seg_so new) kept -> seg_wf new ->
  segs_from (seg_so new + seg_len new) rest ->
  store_post (kept ++ rest) new true (seg_insert new (kept ++ rest)).
Proof.
  intros Hk He Hn Hr. destruct (insert_between kept new rest Hk He Hn Hr) as [-> Hs].
  split; [done| |done| |].
  - intros o. rewrite !covered_app, covered_cons. tauto.
  - intros _. exists (seg_so new). unfold in_seg, seg_wf in *. split; [lia|].
    rewrite covered_app. intros [H|H]; revert H.
    + eapply not_covered_above; [exact He|lia].
    + eapply not_covered_below; [exact Hr|lia].
  - intros d Hl Hd. apply Forall_app in Hl as [? ?]. apply Forall_app. split; [done|].
    by constructor.
Qed.

(** The first byte of a segment that starts between [kept] and [rest]. *)
Lemma head_uncovered kept new rest lo :
  ends_by (seg_so new) kept -> segs_from lo rest -> seg_so new < lo ->
  ~ covered (kept ++ rest) (seg_so new).
Proof.
  intros He Hr Hlo. rewrite covered_app. intros [H|H]; revert H.
  - eapply not_covered_above; [exact He|lia].
  - by eapply not_covered_below.
Qed.

(** The new segment lies within bytes already stored. *)
Lemma store_post_discard l new :
  segs_from 0 l -> (forall o, in_seg new o -> covered l o) -> store_post l new false l.
Proof. intros Hl Hin. split; try done. intros o. split; [tauto|]. intros [?|?]; auto. Qed.

(** The head of the new segment is already stored: [new'] is its tail. *)
Lemma store_post_trim l new new' stored res (dup : Z -> Prop) :
  (forall o, in_seg new o <-> in_seg new' o \/ dup o) -> (forall o, dup o -> covered l o) ->
  (forall d, seg_of d new -> seg_of d new') ->
  store_post l new' stored res -> store_post l new stored res.
Proof.
  intros Hin Hdup Hd [P1 P2 P3 P4 P5]. split; [done| | | |].
  - intros o. rewrite P2, Hin. split; [tauto|]. intros [?|[?|?]]; auto.
  - intros Hf. destruct (P3 Hf) as [-> Hc]. split; [done|]. intros o. rewrite Hin. intros [?|?]; auto.
  - intros Ht. destruct (P4 Ht) as (o & Ho & Hnc). exists o. rewrite Hin. auto.
  - intros d Hl Hn. apply P5; auto.
Qed.

(** The new segment covers the current one, which is removed. *)
Lemma store_post_erase kept cur rest new stored res :
  ends_by (seg_so new) kept -> segs_from (seg_so cur) (cur :: rest) -> 0 < seg_len new ->
  seg_so new < seg_so cur -> (forall o, in_seg cur o -> in_seg new o) ->
  store_post (kept ++ rest) new stored res -> store_post (kept ++ cur :: rest) new stored res.
Proof.
  intros He Hr Hl Hlt Hin [P1 P2 P3 P4 P5].
  assert (in_seg new (seg_so new)) as Hhead by (unfold in_seg; lia).
  pose proof (head_uncovered _ _ _ _ He Hr Hlt) as Hun.
  split; [done| | | |].
  - intros o. rewrite P2, !covered_app, covered_cons. specialize (Hin o). tauto.
  - intros Hf. exfalso. apply Hun. destruct (P3 Hf) as [_ Hc]. specialize (Hc _ Hhead).
    revert Hc. rewrite !covered_app, covered_cons. tauto.
  - intros _. by exists (seg_so new).
  - intros d Hd Hdn. apply P5; [|done]. apply Forall_app in Hd as [? Hd2].
    apply list.Forall_cons in Hd2 as [? ?]. by apply Forall_app.
Qed.

(** The new segment overlaps the head of the current one, which is cut. *)
Lemma store_post_cut kept cur rest new k :
  segs_from 0 kept -> ends_by (seg_so new) kept -> seg_wf new ->
  segs_from (seg_so cur) (cur :: rest) -> seg_so new < seg_so cur ->
  k = seg_so new + seg_len new - seg_so cur -> 0 < k < seg_len cur ->
  let cut := Seg (seg_si cur) (seg_so new + seg_len new) (bdrop k (seg_payload cur)) in
  store_post (kept ++ cur :: rest) new true (seg_insert new (seg_insert cut (kept ++ rest))).
Proof.
  intros Hk He Hn Hr Hlt -> Hlen cut. pose proof Hr as (_ & Hcw & Hr').
  assert (seg_len cut = seg_so cur + seg_len cur - (seg_so new + seg_len new)) as Hcl.
  { unfold seg_len, cut. simpl. rewrite blen_bdrop by (unfold seg_len in *; lia).
    unfold seg_len in *. lia. }
  assert (seg_so cut = seg_so new + seg_len new) as Hcso by done.
  assert (seg_wf cut) as Hcutw by (unfold seg_wf in *; lia).
  destruct (insert_between kept cut rest) as [-> Hs2]; [done| |done| |].
  { eapply list.Forall_impl; [exact He|]. intros. simpl in *. unfold seg_wf in Hn. lia. }
  { by replace (seg_so cut + seg_len cut) with (seg_so cur + seg_len cur) by lia. }
  destruct (store_post_insert kept new (cut :: rest)) as [P1 P2 P3 P4 P5]; [done..| |].
  { split_and!; [done|done|].
    by replace (seg_so cut + seg_len cut) with (seg_so cur + seg_len cur) by lia. }
  assert (forall o, in_seg cur o \/ in_seg new o <-> in_seg cut o \/ in_seg new o) as Hin.
  { intros o. unfold in_seg. rewrite Hcso, Hcl. lia. }
  split; [done| |done| |].
  - intros o. rewrite P2, !covered_app, !covered_cons. specialize (Hin o). tauto.
  - intros _. exists (seg_so new). split; [unfold in_seg, seg_wf in *; lia|]. by eapply head_uncovered.
  - intros d Hd Hdn. apply Forall_app in Hd as [Hd1 Hd2]. apply list.Forall_cons in Hd2 as [Hd2 Hd3].
    apply P5; [|done]. apply Forall_app. split; [done|]. constructor; [|done].
    unfold seg_wf in *. apply seg_of_bdrop; [done|lia|lia|lia].
Qed.

Lemma store_segment_loop_post kept rest new stored res :
  segs_from 0 (kept ++ rest) -> seg_wf new -> ends_by (seg_so new) kept ->
  store_segment_loop kept rest new = (stored, res) -> store_post (kept ++ rest) new stored res.
Proof.
  revert kept new. induction rest as [|cur rest IH]; intros kept new Hs Hn He; simpl.
  { intros [= <- <-]. rewrite app_nil_r in *. rewrite <- (app_nil_r kept). by apply store_post_insert. }
  pose proof (proj1 (segs_from_app _ _ _) Hs) as [Hk (_ & Hcw & Hr)].
  rewrite !last_byte_exact by done. pose proof Hn as (N1 & N2 & N3). pose proof Hcw as (C1 & C2 & C3).
  assert (segs_from (seg_so cur) (cur :: rest)) as Hcr by (simpl; split_and!; [lia|done|done]).
  assert (kept ++ cur :: rest = (kept ++ [cur]) ++ rest) as Hcons by by rewrite <- app_assoc.
  destruct (Z.ltb_spec (seg_so cur + seg_len cur - 1) (seg_so new)).
  { rewrite Hcons. apply IH; [by rewrite <- Hcons|done|].
    apply Forall_app. split; [done|]. repeat constructor. lia. }
  destruct (Z.leb_spec (seg_so cur) (seg_so new));
    [destruct (Z.leb_spec (seg_so new + seg_len new - 1) (seg_so cur + seg_len cur - 1))|
     destruct (Z.ltb_spec (seg_so new + seg_len new - 1) (seg_so cur));
     [|destruct (Z.ltb_spec (seg_so new + seg_len new - 1) (seg_so cur + seg_len cur - 1))]].
  - intros [= <- <-]. apply store_post_discard; [done|]. intros o Ho.
    rewrite covered_app, covered_cons. unfold in_seg in *. right; left. lia.
  - rewrite u16_id, u32_id by (unfold is_u16, is_u32; lia). intros Hres. rewrite Hcons.
    eapply (store_post_trim _ _ _ _ _ (fun o => seg_so new <= o < seg_so cur + seg_len cur));
      [| | |eapply IH; [| | |exact Hres]].
    + intros o. unfold in_seg, seg_len. simpl. rewrite blen_bdrop by (unfold seg_len in *; lia).
      unfold seg_len in *. lia.
    + intros o Ho. rewrite <- Hcons, covered_app, covered_cons. unfold in_seg. right; left. lia.
    + intros d Hd. apply seg_of_bdrop; [done|lia|unfold seg_len in *; lia|lia].
    + by rewrite <- Hcons.
    + unfold seg_wf, seg_len in *. simpl. rewrite blen_bdrop by lia. lia.
    + apply Forall_app. split; [|repeat constructor; simpl; lia].
      eapply list.Forall_impl; [exact He|]. simpl. intros. lia.
  - intros [= <- <-]. apply store_post_insert; try done. simpl. split_and!; try done. lia.
  - rewrite u16_id, u32_id by (unfold is_u16, is_u32; lia). intros [= <- <-].
    replace (seg_so new + seg_len new - 1 + 1) with (seg_so new + seg_len new) by lia.
    apply store_post_cut; try done; lia.
  - intros Hres. apply store_post_erase; try done; [unfold in_seg; intros; lia|].
    apply IH; try done. apply segs_from_app. split; [done|].
    eapply segs_from_weaken; [|exact Hr]. pose proof (segs_from_end 0 kept (seg_so new) N1 He). lia.
Qed.

Lemma store_segment_spec (info : rlc_rx_am_sdu_info) (new : rlc_rx_am_sdu_segment) :
  segs_from 0 (segments info) -> seg_wf new ->
  let '(stored, info') := store_segment info new in
  segs_from 0 (segments info')
  /\ (forall o, covered (segments info') o <-> covered (segments info) o \/ in_seg new o)
  /\ (stored = false <-> forall o, in_seg new o -> covered (segments info) o)
  /\ (stored = false -> info' = info)
  /\ (forall d, Forall (seg_of d) (segments info) -> seg_of d new -> Forall (seg_of d) (segments info')).
Proof.
  intros Hs Hn. unfold store_segment.
  destruct (store_segment_loop [] (segments info) new) as [stored res] eqn:E.
  apply store_segment_loop_post in E as [P1 P2 P3 P4 P5]; [|done|done|constructor]. simpl in *.
  split_and!; try done.
  - split; [intros Hf; by apply P3|]. intros Hc. destruct stored; [|done].
    destruct (P4 eq_refl) as (o & Ho & Hno). by destruct Hno; apply Hc.
  - intros Hf. destruct (P3 Hf) as [-> _]. by destruct info.
Qed.

(** Storing a segment.  On a sorted, disjoint segment set and a non-empty
    segment within the 16-bit offset range, [store_segment] keeps the set sorted
    and disjoint, ends up covering exactly the bytes covered before plus those of
    the new segment, returns [false] (set unchanged) exactly when every byte of
    the segment was already there, and keeps every stored byte a byte of the
    SDU when old and new segments are cut out of the same SDU. *)
Theorem store_segment_correct (info : rlc_rx_am_sdu_info) (new : rlc_rx_am_sdu_segment) :
  segs_from 0 (segments info) -> seg_wf new ->
  let '(stored, info') := store_segment info new in
  segs_from 0 (segments info')
  /\ (forall o, covered (segments info') o <-> covered (segments info) o \/ in_seg new o)
  /\ (stored = false <-> forall o, in_seg new o -> covered (segments info) o)
  /\ (stored = false -> info' = info)
  /\ (forall d, Forall (seg_of d) (segments info) -> seg_of d new -> Forall (seg_of d) (segments info')).
Proof. apply store_segment_spec. Qed.

Lemma store_segment_correct_witness :
  let info := SduInfo false false [Seg first_segment 0 [1;2;3]; Seg last_segment 6 [7;8]] [] in
  let new := Seg middle_segment 2 [3;4;5;6;7] in
  (store_segment info new).2
    = SduInfo false false [Seg first_segment 0 [1;2;3]; Seg middle_segment 3 [4;5;6;7];
                           Seg last_segment 7 [8]] []
  /\ (forall o, covered (segments (store_segment info new).2) o
                <-> covered (segments info) o \/ in_seg new o).
Proof.
  intros info new. split; [reflexivity|].
  apply (store_segment_correct info new); unfold info, new, seg_wf, seg_len, blen; simpl;
    unfold seg_wf, seg_len, blen; simpl; lia.
Defined.

(** ** Completeness check and assembly *)
Section Inventory.
  Context (d : bytes).

Lemma inventory_spec next l :
  0 <= next < blen d -> segs_from next l -> Forall (seg_of d) l ->
  ((segment_inventory next l).1 = true <-> forall o, next <= o < blen d -> covered l o)
  /\ ((segment_inventory next l).1 = true -> concat (map seg_payload l) = slice next (blen d - next) d).
Proof.
  revert next. induction l as [|s r IH]; intros next Hnx Hs Hf; simpl.
  { split; [|done]. split; [done|]. intros H. specialize (H next). rewrite covered_nil in H. lia. }
  destruct Hs as (H1 & Hw & Hr). apply list.Forall_cons in Hf as [Hsd Hf].
  pose proof Hsd as (S1 & S2 & S3). pose proof Hw as (W1 & W2 & W3).
  destruct (Z.eqb_spec (seg_so s) next) as [<-|Hne]; simpl.
  2:{ split; [|done]. split; [done|]. intros H. exfalso.
      assert (covered (s :: r) next) as [?|Hc]%covered_cons by (apply H; lia); [unfold in_seg in *; lia|].
      revert Hc. eapply not_covered_below; [exact Hr|lia]. }
  destruct (bool_decide (seg_si s = last_segment)) eqn:El; breflect; simpl.
  - apply S3 in El. destruct r as [|s' r].
    + split.
      * split; [|done]. intros _ o Ho. rewrite covered_cons. left. unfold in_seg. lia.
      * intros _. rewrite app_nil_r, S2. f_equal. lia.
    + exfalso. destruct Hr as (? & ? & ?). apply list.Forall_cons in Hf as [(? & ?) _].
      unfold seg_wf in *. lia.
  - assert (seg_so s + seg_len s < blen d) by (destruct (decide (seg_so s + seg_len s = blen d)); [tauto|lia]).
    rewrite u32_id by (unfold is_u32; lia).
    destruct (IH (seg_so s + seg_len s)) as [I1 I2]; [lia|done|done|]. split.
    + rewrite I1. split; intros H' o Ho.
      * rewrite covered_cons. destruct (decide (o < seg_so s + seg_len s)); [left; unfold in_seg; lia|].
        right. apply H'. lia.
      * assert (covered (s :: r) o) as [?|?]%covered_cons by (apply H'; lia); [unfold in_seg in *; lia|done].
    + intros H'. rewrite (I2 H'), S2, slice_app_adjacent by lia. f_equal. lia.
Qed.

(** [has_gap]: a missing byte before a received one. *)
Lemma inventory_gap next l :
  0 <= next -> segs_from next l -> Forall (seg_of d) l ->
  (segment_inventory next l).2 = true
  <-> exists o o', next <= o < o' /\ ~ covered l o /\ covered l o'.
Proof.
  revert next. induction l as [|s r IH]; intros next Hnx Hs Hf; simpl.
  { split; [done|]. intros (o & o' & _ & _ & Hc). by apply covered_nil in Hc. }
  destruct Hs as (H1 & Hw & Hr). apply list.Forall_cons in Hf as [Hsd Hf].
  pose proof Hsd as (S1 & S2 & S3). pose proof Hw as (W1 & W2 & W3).
  destruct (Z.eqb_spec (seg_so s) next) as [<-|Hne]; simpl.
  2:{ split; [|done]. intros _. exists next, (seg_so s). rewrite !covered_cons. split; [lia|]. split.
      - intros [?|Hc]; [unfold in_seg in *; lia|]. revert Hc. eapply not_covered_below; [exact Hr|lia].
      - left. unfold in_seg. lia. }
  destruct (bool_decide (seg_si s = last_segment)) eqn:El; breflect; simpl.
  - apply S3 in El. split; [done|]. intros (o & o' & Ho & Hno & Hc).
    rewrite covered_cons in Hno, Hc. exfalso. destruct Hc as [Hc|Hc]; unfold in_seg in *.
    + apply Hno. left. lia.
    + destruct r as [|s' r]; [by apply covered_nil in Hc|]. destruct Hr as (? & ? & ?).
      apply list.Forall_cons in Hf as [(? & ?) _]. unfold seg_wf in *. lia.
  - rewrite u32_id by (unfold is_u32; lia). rewrite IH by (done || lia). split.
    + intros (o & o' & Ho & Hno & Hc). exists o, o'. rewrite !covered_cons. split; [lia|]. split; [|tauto].
      intros [?|?]; [unfold in_seg in *; lia|done].
    + intros (o & o' & Ho & Hno & Hc). rewrite covered_cons in Hno, Hc. exists o, o'.
      assert (seg_so s + seg_len s <= o).
      { apply Z.nlt_ge. intros Hlt. apply Hno. left. unfold in_seg. lia. }
      split; [lia|]. split; [tauto|]. destruct Hc as [?|?]; [unfold in_seg in *; lia|done].
Qed.

(** The received part of the SDU [d]. *)
Definition info_covers (info : rlc_rx_am_sdu_info) (o : Z) : Prop :=
  if fully_received info then 0 <= o < blen d else covered (segments info) o.

Record info_ok (info : rlc_rx_am_sdu_info) : Prop := {
  io_full : fully_received info = true -> sdu info = d /\ has_gap info = false;
  io_part : fully_received info = false ->
    sdu info = [] /\ segs_from 0 (segments info) /\ Forall (seg_of d) (segments info)
    /\ ~ (forall o, 0 <= o < blen d -> covered (segments info) o)
    /\ (has_gap info = true <->
        exists o o', 0 <= o < o' /\ ~ covered (segments info) o /\ covered (segments info) o');
}.

(** A received data PDU of SDU [d]: (SI, SO, payload). *)
Definition pdu_of (p : rlc_si_field * Z * bytes) : Prop :=
  let '(si, so, payload) := p in
  if decide (si = full_sdu) then payload = d
  else seg_wf (Seg si so payload) /\ seg_of d (Seg si so payload).

Definition pdu_covers (p : rlc_si_field * Z * bytes) (o : Z) : Prop :=
  let '(si, so, payload) := p in
  if decide (si = full_sdu) then 0 <= o < blen d else so <= o < so + blen payload.

(** The part of [handle_data_pdu] that works on the SDU container. *)
Definition rx_sdu_step (info : rlc_rx_am_sdu_info) (p : rlc_si_field * Z * bytes) : rlc_rx_am_sdu_info :=
  let '(si, so, payload) := p in
  let h := AmHeader dc_data 0 si size12bits 0 so in
  if fully_received info then info
  else if bool_decide (si = full_sdu) then (handle_full_data_sdu h payload info).2
  else (handle_segment_data_sdu h payload info).2.

Lemma seg_of_covers_in l o : Forall (seg_of d) l -> segs_from 0 l -> covered l o -> 0 <= o < blen d.
Proof.
  intros Hf Hs%segs_from_lower Hc. unfold covered in Hc. apply list.Exists_exists in Hc as (s & Hin & Ho).
  eapply list.Forall_forall in Hf as (? & ?); [|exact Hin].
  eapply list.Forall_forall in Hs as (? & ?); [|exact Hin]. unfold in_seg in Ho. lia.
Qed.

Lemma handle_segment_spec h payload info :
  0 < blen d -> hdr_si h <> full_sdu -> fully_received info = false -> info_ok info ->
  seg_wf (Seg (hdr_si h) (hdr_so h) payload) -> seg_of d (Seg (hdr_si h) (hdr_so h) payload) ->
  let '(stored, info') := handle_segment_data_sdu h payload info in
  info_ok info'
  /\ (forall o, info_covers info' o <-> info_covers info o \/ hdr_so h <= o < hdr_so h + blen payload)
  /\ (stored = false <-> forall o, hdr_so h <= o < hdr_so h + blen payload -> covered (segments info) o).
Proof.
  intros Hpos Hsi Hnf [_ Hok] Hw Hsd. destruct (Hok Hnf) as (Hd0 & Hs & Hf & Hnc & Hgap).
  unfold handle_segment_data_sdu. rewrite bool_decide_false by done.
  pose proof (store_segment_spec info _ Hs Hw) as Hst.
  unfold info_covers. rewrite Hnf. unfold store_segment in *.
  destruct (store_segment_loop [] (segments info) _) as [stored segs]. simpl in Hst.
  destruct Hst as (P1 & P2 & P3 & P4 & P5). specialize (P5 d Hf Hsd).
  assert (forall o, in_seg (Seg (hdr_si h) (hdr_so h) payload) o
                    <-> hdr_so h <= o < hdr_so h + blen payload) as Hin by done.
  destruct (inventory_spec 0 segs) as [I1 I2]; [lia|done|done|].
  pose proof (inventory_gap 0 segs) as I3. specialize (I3 (Z.le_refl 0) P1 P5).
  unfold update_segment_inventory. simpl.
  destruct (segment_inventory 0 segs) as [full gap] eqn:Ei. simpl in *. destruct full; simpl.
  - assert (gap = false) as Hg.
    { destruct gap; [|done]. destruct I3 as [I3 _]. destruct (I3 eq_refl) as (o & o' & Ho & Hno & Hc).
      exfalso. apply Hno, I1; [done|]. pose proof (seg_of_covers_in _ _ P5 P1 Hc). lia. }
    split_and!; [|intros o|done].
    + split; simpl; [|done]. intros _. split; [|done].
      rewrite Hd0, app_nil_l, (I2 eq_refl), Z.sub_0_r. apply slice_all.
    + rewrite <- Hin, <- P2. split; [by apply I1|]. by apply seg_of_covers_in.
  - split_and!; [|done|done]. split; simpl; [done|]. intros _. split_and!; try done.
    intros Hc. by apply I1 in Hc.
Qed.

Lemma rx_sdu_step_ok info p :
  0 < blen d -> info_ok info -> pdu_of p ->
  info_ok (rx_sdu_step info p)
  /\ forall o, info_covers (rx_sdu_step info p) o <-> info_covers info o \/ pdu_covers p o.
Proof.
  intros Hpos Hok. destruct p as [[si so] payload]. unfold pdu_of, pdu_covers, rx_sdu_step.
  destruct (fully_received info) eqn:Ef.
  { intros Hp. split; [done|]. intros o. unfold info_covers. rewrite Ef.
    destruct (decide (si = full_sdu)); [tauto|]. destruct Hp as [(? & ? & ?) (? & ?)].
    unfold seg_len in *. simpl in *. lia. }
  destruct (decide (si = full_sdu)) as [->|Hne].
  - intros ->. rewrite bool_decide_true by done. unfold handle_full_data_sdu. simpl.
    split; [split; done|]. intros o. unfold info_covers. simpl. rewrite Ef. split; [tauto|].
    intros [Hc|?]; [|done]. destruct Hok as [_ Hok]. destruct (Hok Ef) as (? & ? & ? & _).
    by eapply seg_of_covers_in.
  - intros [Hw Hsd]. rewrite bool_decide_false by done.
    pose proof (handle_segment_spec (AmHeader dc_data 0 si size12bits 0 so) payload info
                  Hpos Hne Ef Hok Hw Hsd) as H.
    destruct (handle_segment_data_sdu _ _ _) as [stored info']. by destruct H as (? & ? & _).
Qed.

Lemma sdu_info_default_ok : 0 < blen d -> info_ok sdu_info_default.
Proof.
  intros Hpos. split; simpl; [done|]. intros _. split_and!; try done.
  - intros H. specialize (H 0). rewrite covered_nil in H. lia.
  - split; [done|]. intros (? & ? & _ & _ & Hc). by apply covered_nil in Hc.
Qed.

Lemma rx_sdu_fold_ok info ps :
  0 < blen d -> info_ok info -> Forall pdu_of ps ->
  info_ok (fold_left rx_sdu_step ps info)
  /\ forall o, info_covers (fold_left rx_sdu_step ps info) o
               <-> info_covers info o \/ Exists (fun p => pdu_covers p o) ps.
Proof.
  intros Hpos. revert info. induction ps as [|p ps IH]; intros info Hok Hps; simpl.
  { split; [done|]. intros o. rewrite Exists_nil. tauto. }
  apply list.Forall_cons in Hps as [Hp Hps].
  destruct (rx_sdu_step_ok info p Hpos Hok Hp) as [Hok' Hc'].
  destruct (IH _ Hok' Hps) as [Hok'' Hc'']. split; [done|].
  intros o. rewrite Hc'', Hc', Exists_cons. tauto.
Qed.
End Inventory.

(** C3: reassembly of an SDU.  Whatever data PDUs of one SDU arrive (full SDU,
    first, middle and last segments, in any order, duplicated, overlapping,
    re-segmented), the container is marked fully received exactly when every
    byte of the SDU has arrived, and the SDU it then holds is the original one. *)
Theorem reassembly_correct (d : bytes) (ps : list (rlc_si_field * Z * bytes)) :
  0 < blen d -> Forall (pdu_of d) ps ->
  let info := fold_left rx_sdu_step ps sdu_info_default in
  (fully_received info = true
   <-> forall o, 0 <= o < blen d -> Exists (fun p => pdu_covers d p o) ps)
  /\ (fully_received info = true -> sdu info = d).
Proof.
  intros Hd Hps info.
  destruct (rx_sdu_fold_ok d sdu_info_default ps) as [[Hfull Hpart] Hcov];
    [lia|apply sdu_info_default_ok; lia|done|]. fold info in Hfull, Hpart, Hcov.
  assert (forall o, info_covers d info o <-> Exists (fun p => pdu_covers d p o) ps) as Hc.
  { intros o. rewrite Hcov. unfold info_covers at 1. simpl. rewrite covered_nil. tauto. }
  split; [|intros Hf; by apply Hfull]. unfold info_covers in Hc.
  destruct (fully_received info) eqn:Ef.
  - split; [|done]. intros _ o Ho. by apply Hc.
  - split; [done|]. intros Hall. exfalso. destruct (Hpart eq_refl) as (_ & _ & _ & Hnc & _).
    apply Hnc. intros o Ho. apply Hc, Hall, Ho.
Qed.

Lemma reassembly_correct_witness :
  let ps := [(last_segment, 3, [4;5]); (first_segment, 0, [1;2]); (middle_segment, 1, [2;3;4])] in
  (fully_received (fold_left rx_sdu_step ps sdu_info_default) = true)
  /\ sdu (fold_left rx_sdu_step ps sdu_info_default) = [1;2;3;4;5].
Proof.
  intros ps. split; [reflexivity|].
  apply (reassembly_correct [1;2;3;4;5] ps); [vm_compute; done| |reflexivity].
  repeat constructor; unfold seg_wf, seg_of, seg_len, blen; simpl; try lia; try done.
Defined.
