(* ===== verification/RlcRxAm.v ===== *)
(** * RLC AM receiving entity

    [lib/rlc/rlc_rx_am_entity.h] and [lib/rlc/rlc_rx_am_entity.cpp]: the state
    variables of TS 38.322 Sec. 7.1, reception of control and data PDUs, the
    receive window, t-Reassembly and t-StatusProhibit, and the cached STATUS
    report offered to the transmitting entity ([rlc_am_interconnect.h]).

    Every handler is a function from the entity state to [None] (a failed
    [srsran_assert], or a loop that exceeds the SN space) or the new state
    together with the calls it makes on the entity's notifiers. *)
From S2P Require Import Prelude RlcAmWindow RlcAmPdu RlcAmStatus RlcSegments.

Record rlc_rx_am_config := RxAmConfig {
  rx_sn_field_length : rlc_am_sn_size;
  t_reassembly : Z;
  t_status_prohibit : Z;
}.

Record rlc_rx_am_state := RxAmState {
  rx_next : Z;
  rx_next_status_trigger : Z;
  rx_highest_status : Z;
  rx_next_highest : Z;
}.

(** Calls on [upper_dn], [status_handler] and [status_notifier]. *)
Inductive rx_event :=
  | on_new_sdu (d : bytes)
  | on_status_pdu (st : rlc_am_status_pdu)
  | on_status_report_changed.

Section RxAm.
  Context {Win : Type} {WB : rlc_am_window_base rlc_rx_am_sdu_info Win}.

Record rlc_rx_am_entity := RxAm {
  rx_cfg : rlc_rx_am_config;
  rx_st : rlc_rx_am_state;
  rx_window : Win;
  do_status : bool;
  status_report : rlc_am_status_pdu;
  status_report_size : Z;
  status_prohibit_timer_is_running : bool; (* the atomic flag *)
  status_prohibit_timer : bool;            (* the timer itself runs *)
  reassembly_timer : bool;                 (* the timer runs *)
}.

Definition rx_mod (e : rlc_rx_am_entity) : Z := cardinality (sn_size_to_number (rx_sn_field_length (rx_cfg e))).
Definition rx_am_window_size (e : rlc_rx_am_entity) : Z :=
  window_size (sn_size_to_number (rx_sn_field_length (rx_cfg e))).

Definition rx_am_new (cfg : rlc_rx_am_config) (empty_window : Win) : rlc_rx_am_entity :=
  let st := RxAmState 0 0 0 0 in
  let report := status_with_ack (rlc_am_status_pdu_new (rx_sn_field_length cfg)) (rx_next_highest st) in
  RxAm cfg st empty_window false report (packed_size report) false false false.

(** Field updates. *)
Definition with_st (e : rlc_rx_am_entity) (st : rlc_rx_am_state) : rlc_rx_am_entity :=
  RxAm (rx_cfg e) st (rx_window e) (do_status e) (status_report e) (status_report_size e)
    (status_prohibit_timer_is_running e) (status_prohibit_timer e) (reassembly_timer e).
Definition with_window (e : rlc_rx_am_entity) (w : Win) : rlc_rx_am_entity :=
  RxAm (rx_cfg e) (rx_st e) w (do_status e) (status_report e) (status_report_size e)
    (status_prohibit_timer_is_running e) (status_prohibit_timer e) (reassembly_timer e).
Definition with_do_status (e : rlc_rx_am_entity) (b : bool) : rlc_rx_am_entity :=
  RxAm (rx_cfg e) (rx_st e) (rx_window e) b (status_report e) (status_report_size e)
    (status_prohibit_timer_is_running e) (status_prohibit_timer e) (reassembly_timer e).
Definition with_reassembly_timer (e : rlc_rx_am_entity) (b : bool) : rlc_rx_am_entity :=
  RxAm (rx_cfg e) (rx_st e) (rx_window e) (do_status e) (status_report e) (status_report_size e)
    (status_prohibit_timer_is_running e) (status_prohibit_timer e) b.
Definition with_prohibit (e : rlc_rx_am_entity) (flag timer : bool) : rlc_rx_am_entity :=
  RxAm (rx_cfg e) (rx_st e) (rx_window e) (do_status e) (status_report e) (status_report_size e)
    flag timer (reassembly_timer e).
Definition set_rx_next (st : rlc_rx_am_state) x :=
  RxAmState x (rx_next_status_trigger st) (rx_highest_status st) (rx_next_highest st).
Definition set_status_trigger (st : rlc_rx_am_state) x :=
  RxAmState (rx_next st) x (rx_highest_status st) (rx_next_highest st).
Definition set_highest_status (st : rlc_rx_am_state) x :=
  RxAmState (rx_next st) (rx_next_status_trigger st) x (rx_next_highest st).
Definition set_next_highest (st : rlc_rx_am_state) x :=
  RxAmState (rx_next st) (rx_next_status_trigger st) (rx_highest_status st) x.

(** ** Window helpers *)
Definition rx_mod_base (e : rlc_rx_am_entity) (sn : Z) : Z := u32 (sn - rx_next (rx_st e)) mod rx_mod e.
Definition inside_rx_window (e : rlc_rx_am_entity) (sn : Z) : bool :=
  rx_mod_base e sn <? rx_am_window_size e.
Definition rx_valid_ack_sn (e : rlc_rx_am_entity) (sn : Z) : bool :=
  (0 <? rx_mod_base e sn) && (rx_mod_base e sn <=? rx_am_window_size e).

(** [rx_window->has_sn(sn) && ( *rx_window)[sn].fully_received] *)
Definition sn_fully_received (w : Win) (sn : Z) : bool :=
  win_has_sn w sn && match win_at w sn with Some i => fully_received i | None => false end.
(** [rx_window->has_sn(sn) && ( *rx_window)[sn].has_gap] *)
Definition sn_has_gap (w : Win) (sn : Z) : bool :=
  win_has_sn w sn && match win_at w sn with Some i => has_gap i | None => false end.

(** Enough iterations for any loop over sequence numbers. *)
Definition sn_fuel (e : rlc_rx_am_entity) : nat := Z.to_nat (rx_mod e).

(** ** Status report *)

(** The NACKs of one partially received SDU: the loop over its segments.
    Returns the report, the offset after the last segment and whether the last
    segment was seen; [None] when the assertion on the offsets fails. *)
Fixpoint nack_segments (sn : Z) (segs : list rlc_rx_am_sdu_segment) (last_so : Z) (have_last : bool)
    (report : rlc_am_status_pdu) : option (rlc_am_status_pdu * Z * bool) :=
  match segs with
  | [] => Some (report, last_so, have_last)
  | s :: r =>
      let nack := Nack sn true (u16 last_so) (u16 (seg_so s - 1)) false 0 in
      let have_last := have_last || bool_decide (seg_si s = last_segment) in
      let last_so' := u32 (seg_so s + seg_len s) in
      if negb (seg_so s =? last_so) then
        if so_end nack <? so_start nack then None
        else nack_segments sn r last_so' have_last (push_nack report nack)
      else nack_segments sn r last_so' have_last report
  end.

Definition nack_sdu_state (w : Win) (sn : Z) (report : rlc_am_status_pdu) : option rlc_am_status_pdu :=
  if sn_fully_received w sn then Some report
  else if negb (win_has_sn w sn) then Some (push_nack report (nack_with_sn nack_default sn))
  else match win_at w sn with
       | None => None
       | Some i =>
           match nack_segments sn (segments i) 0 false report with
           | None => None
           | Some (report, last_so, have_last) =>
               if have_last then Some report
               else Some (push_nack report (Nack sn true (u16 last_so) so_end_of_sdu false 0))
           end
       end.

Fixpoint status_loop (fuel : nat) (e : rlc_rx_am_entity) (i : Z) (report : rlc_am_status_pdu)
    : option rlc_am_status_pdu :=
  if rx_mod_base e i <? rx_mod_base e (rx_highest_status (rx_st e)) then
    match fuel with
    | O => None
    | S fuel =>
        match nack_sdu_state (rx_window e) i report with
        | None => None
        | Some report => status_loop fuel e ((i + 1) mod rx_mod e) report
        end
    end
  else Some report.

Definition store_status_report (e : rlc_rx_am_entity) (status : rlc_am_status_pdu) : rlc_rx_am_entity :=
  RxAm (rx_cfg e) (rx_st e) (rx_window e) (do_status e) status (packed_size status)
    (status_prohibit_timer_is_running e) (status_prohibit_timer e) (reassembly_timer e).

Definition refresh_status_report (e : rlc_rx_am_entity) : option rlc_rx_am_entity :=
  match status_loop (sn_fuel e) e (rx_next (rx_st e))
          (rlc_am_status_pdu_new (rx_sn_field_length (rx_cfg e))) with
  | None => None
  | Some report =>
      Some (store_status_report e (status_with_ack report (rx_highest_status (rx_st e))))
  end.

Definition get_status_pdu (defer_ok : bool) (e : rlc_rx_am_entity) : rlc_am_status_pdu * rlc_rx_am_entity :=
  let e := with_do_status e false in
  let e := if 0 <? t_status_prohibit (rx_cfg e)
           then with_prohibit e true (if defer_ok then true else status_prohibit_timer e)
           else e in
  (status_report e, e).

Definition get_status_pdu_length (e : rlc_rx_am_entity) : Z := status_report_size e.

Definition status_report_required (e : rlc_rx_am_entity) : bool :=
  do_status e && negb (status_prohibit_timer_is_running e).

Definition notify_status_report_changed (e : rlc_rx_am_entity) : list rx_event :=
  if status_report_required e then [on_status_report_changed] else [].

(** ** Reception *)
Definition handle_control_pdu (e : rlc_rx_am_entity) (buf : bytes) : rlc_rx_am_entity * list rx_event :=
  match unpack (rlc_am_status_pdu_new (rx_sn_field_length (rx_cfg e))) buf with
  | Some status => (e, [on_status_pdu status])
  | None => (e, [])
  end.

(** The window slot of [sn] for writing, added when absent. *)
Definition find_or_add (w : Win) (sn : Z) : option (Win * rlc_rx_am_sdu_info) :=
  match (if win_has_sn w sn then Some w else win_add_sn w sn) with
  | None => None
  | Some w => match win_at w sn with Some i => Some (w, i) | None => None end
  end.

(** Write to the receive window either a full SDU or an SDU segment: the flag
    [status_changed] and the new window. *)
Definition store_data (e : rlc_rx_am_entity) (h : rlc_am_pdu_header) (payload : bytes)
    : option (bool * rlc_rx_am_entity) :=
  match find_or_add (rx_window e) (hdr_sn h) with
  | None => None
  | Some (w, i) =>
      let '(changed, i') :=
        if bool_decide (hdr_si h = full_sdu) then handle_full_data_sdu h payload i
        else handle_segment_data_sdu h payload i in
      match win_set w (hdr_sn h) i' with
      | None => None
      | Some w => Some (changed, with_window e w)
      end
  end.

(** First SN from [sn] on that is not fully received, bounded by RX_Next_Highest. *)
Fixpoint first_missing (fuel : nat) (e : rlc_rx_am_entity) (sn : Z) : option Z :=
  if rx_mod_base e sn <? rx_mod_base e (rx_next_highest (rx_st e)) then
    if sn_fully_received (rx_window e) sn then
      match fuel with
      | O => None
      | S fuel => first_missing fuel e ((sn + 1) mod rx_mod e)
      end
    else Some sn
  else Some sn.

(** The same search, removing the fully received SDUs from the window. *)
Fixpoint first_missing_remove (fuel : nat) (e : rlc_rx_am_entity) (w : Win) (sn : Z) : option (Win * Z) :=
  if rx_mod_base e sn <? rx_mod_base e (rx_next_highest (rx_st e)) then
    if sn_fully_received w sn then
      match fuel with
      | O => None
      | S fuel =>
          match win_remove_sn w sn with
          | None => None
          | Some w => first_missing_remove fuel e w ((sn + 1) mod rx_mod e)
          end
      end
    else Some (w, sn)
  else Some (w, sn).

(** if x >= RX_Next_Highest, update RX_Next_Highest to x + 1 *)
Definition update_next_highest (e : rlc_rx_am_entity) (sn : Z) : rlc_rx_am_entity :=
  if rx_mod_base e (rx_next_highest (rx_st e)) <=? rx_mod_base e sn
  then with_st e (set_next_highest (rx_st e) ((sn + 1) mod rx_mod e)) else e.

(** if x = RX_Highest_Status, update RX_Highest_Status *)
Definition update_highest_status (e : rlc_rx_am_entity) (sn : Z) : option rlc_rx_am_entity :=
  if rx_mod_base e sn =? rx_mod_base e (rx_highest_status (rx_st e)) then
    match first_missing (sn_fuel e) e ((rx_highest_status (rx_st e) + 1) mod rx_mod e) with
    | None => None
    | Some sn_upd => Some (with_st e (set_highest_status (rx_st e) sn_upd))
    end
  else Some e.

(** if x = RX_Next, update RX_Next and drop the SDUs below it *)
Definition update_rx_next (e : rlc_rx_am_entity) (sn : Z) : option rlc_rx_am_entity :=
  if rx_mod_base e sn =? rx_mod_base e (rx_next (rx_st e)) then
    match first_missing_remove (sn_fuel e) e (rx_window e) (rx_next (rx_st e) mod rx_mod e) with
    | None => None
    | Some (w, sn_upd) => Some (with_st (with_window e w) (set_rx_next (rx_st e) sn_upd))
    end
  else Some e.

(** Actions when all bytes of the SDU with SN = x are received: delivery,
    RX_Highest_Status, RX_Next. *)
Definition deliver_sdu (e : rlc_rx_am_entity) (sn : Z) : option (rlc_rx_am_entity * list rx_event) :=
  if negb (sn_fully_received (rx_window e) sn) then Some (e, [])
  else
  match win_at (rx_window e) sn with
  | None => None
  | Some i =>
      (* upper_dn.on_new_sdu(std::move(rx_sdu.sdu)): the container's SDU becomes empty *)
      match win_set (rx_window e) sn (SduInfo (fully_received i) (has_gap i) (segments i) []) with
      | None => None
      | Some w =>
          match update_highest_status (with_window e w) sn with
          | None => None
          | Some e =>
              match update_rx_next e sn with
              | None => None
              | Some e => Some (e, [on_new_sdu (sdu i)])
              end
          end
      end
  end.

(** t-Reassembly after a data PDU: the stop condition ... *)
Definition maybe_stop_reassembly (e : rlc_rx_am_entity) : option rlc_rx_am_entity :=
  if negb (reassembly_timer e) then Some e
  else
    let st := rx_st e in
    match (if rx_mod_base e (rx_next_status_trigger st) =? rx_mod_base e (rx_next st + 1)
           then match win_at (rx_window e) (rx_next st) with
                | None => None
                | Some i => Some (negb (has_gap i))
                end
           else Some false) with
    | None => None
    | Some no_gap =>
        let stop := (rx_next_status_trigger st =? rx_next st) || no_gap
                    || negb (inside_rx_window e (rx_next_status_trigger st)) in
        Some (if stop then with_reassembly_timer e false else e)
    end.

(** ... and the start condition. *)
Definition maybe_start_reassembly (e : rlc_rx_am_entity) : rlc_rx_am_entity :=
  if reassembly_timer e then e
  else
    let st := rx_st e in
    let b := rx_mod_base e in
    if (b (rx_next st + 1) <? b (rx_next_highest st))
       || ((b (rx_next_highest st) =? b (rx_next st + 1)) && sn_has_gap (rx_window e) (rx_next st))
    then with_st (with_reassembly_timer e true) (set_status_trigger st (rx_next_highest st))
    else e.

(** The [on_function_exit] lambda of [handle_data_pdu]. *)
Definition on_function_exit (status_changed status_requested : bool) (e : rlc_rx_am_entity)
    (evs : list rx_event) : option (rlc_rx_am_entity * list rx_event) :=
  match (if status_changed then refresh_status_report e else Some e) with
  | None => None
  | Some e =>
      let e := if status_requested then with_do_status e true else e in
      Some (e, evs ++ (if status_changed || status_requested then notify_status_report_changed e else []))
  end.

Definition handle_data_pdu (e : rlc_rx_am_entity) (buf : bytes) : option (rlc_rx_am_entity * list rx_event) :=
  let s := rx_sn_field_length (rx_cfg e) in
  match rlc_am_read_data_pdu_header buf s (rlc_am_pdu_header_init s) with
  | None => on_function_exit false false e []
  | Some h =>
      let header_len := rlc_am_pdu_header_get_packed_size h in
      if blen buf <=? header_len then on_function_exit false false e []
      else
      let payload := slice header_len (blen buf - header_len) buf in
      let requested := negb (hdr_p h =? 0) in
      if negb (inside_rx_window e (hdr_sn h)) then on_function_exit false requested e []
      else if sn_fully_received (rx_window e) (hdr_sn h) then on_function_exit false requested e []
      else
      match store_data e h payload with
      | None => None
      | Some (changed, e) =>
          match deliver_sdu (update_next_highest e (hdr_sn h)) (hdr_sn h) with
          | None => None
          | Some (e, evs) =>
              match maybe_stop_reassembly e with
              | None => None
              | Some e => on_function_exit changed requested (maybe_start_reassembly e) evs
              end
          end
      end
  end.

Definition handle_pdu (e : rlc_rx_am_entity) (buf : bytes) : option (rlc_rx_am_entity * list rx_event) :=
  match buf with
  | [] => Some (e, [])
  | _ => if is_control_pdu buf then Some (handle_control_pdu e buf) else handle_data_pdu e buf
  end.

(** ** Timers *)
Definition on_expired_status_prohibit_timer (e : rlc_rx_am_entity) : rlc_rx_am_entity * list rx_event :=
  let e := with_prohibit e false false in
  (e, notify_status_report_changed e).

Definition on_expired_reassembly_timer (e : rlc_rx_am_entity) : option (rlc_rx_am_entity * list rx_event) :=
  if reassembly_timer e then Some (e, []) (* restarted meanwhile *)
  else if negb (rx_valid_ack_sn e (rx_next_status_trigger (rx_st e))) then Some (e, [])
  else
  match first_missing (sn_fuel e) e (rx_next_status_trigger (rx_st e)) with
  | None => None
  | Some sn_upd =>
      if negb (rx_valid_ack_sn e sn_upd) then None (* srsran_assert *)
      else
      let e := with_st e (set_highest_status (rx_st e) sn_upd) in
      let st := rx_st e in
      let b := rx_mod_base e in
      let e := if (b (rx_highest_status st + 1) <? b (rx_next_highest st))
                  || ((b (rx_next_highest st) =? b (rx_highest_status st + 1))
                      && sn_has_gap (rx_window e) (rx_highest_status st))
               then with_st (with_reassembly_timer e true) (set_status_trigger st (rx_next_highest st))
               else e in
      match refresh_status_report e with
      | None => None
      | Some e =>
          let e := with_do_status e true in
          Some (e, notify_status_report_changed e)
      end
  end.
End RxAm.
Arguments rlc_rx_am_entity Win : clear implicits.
