(* ===== verification/RlcRxAmThms.v ===== *)
(** * RLC AM receiving entity: theorems

    The invariant of the receiving entity, its preservation by every handler
    (so that no [srsran_assert] can fail and every loop ends within the SN
    space), what is delivered and how the window moves, and the contents of the
    STATUS report. *)
From S2P Require Import Prelude CircularMap RlcAmWindow RlcAmPdu RlcAmStatus RlcAmStatusThms RlcSegments RlcRxAm.

(** ** The NACKs of the receive window *)

(** NACKs for the gaps of a segment list that starts at [lo]. *)
Fixpoint seg_gaps (sn lo : Z) (segs : list rlc_rx_am_sdu_segment) : list rlc_am_status_nack :=
  match segs with
  | [] => []
  | x :: r => (if decide (seg_so x = lo) then [] else [Nack sn true lo (seg_so x - 1) false 0])
              ++ seg_gaps sn (seg_so x + seg_len x) r
  end.
Definition seg_end (lo : Z) (segs : list rlc_rx_am_sdu_segment) : Z :=
  fold_left (fun _ x => seg_so x + seg_len x) segs lo.
Definition has_last (segs : list rlc_rx_am_sdu_segment) : bool :=
  existsb (fun x => bool_decide (seg_si x = last_segment)) segs.

(** NACKs of one window entry. *)
Definition sdu_nacks (sn : Z) (entry : option rlc_rx_am_sdu_info) : list rlc_am_status_nack :=
  match entry with
  | None => [nack_with_sn nack_default sn]
  | Some i =>
      if fully_received i then []
      else seg_gaps sn 0 (segments i)
           ++ (if has_last (segments i) then []
               else [Nack sn true (u16 (seg_end 0 (segments i))) so_end_of_sdu false 0])
  end.

Lemma nack_segments_spec sn segs lo hl report :
  0 <= lo <= 65536 -> segs_from lo segs ->
  nack_segments sn segs lo hl report
  = Some (fold_left push_nack (seg_gaps sn lo segs) report, seg_end lo segs, hl || has_last segs).
Proof.
  revert lo hl report. induction segs as [|x r IH]; intros lo hl report Hlo Hs; simpl.
  { by rewrite orb_false_r. }
  destruct Hs as (H1 & (W1 & W2 & W3) & Hr).
  rewrite (u32_id (seg_so x + seg_len x)) by (unfold is_u32; lia).
  destruct (Z.eqb_spec (seg_so x) lo) as [<-|Hne]; simpl.
  - rewrite decide_True by done. rewrite IH by (done || lia). by rewrite orb_assoc.
  - rewrite decide_False by done. rewrite !u16_id by (unfold is_u16; lia).
    rewrite (proj2 (Z.ltb_ge (seg_so x - 1) lo)) by lia.
    rewrite IH by (done || lia). by rewrite orb_assoc.
Qed.

Lemma seg_end_bound lo segs : 0 <= lo <= 65536 -> segs_from lo segs -> 0 <= seg_end lo segs <= 65536.
Proof.
  revert lo. induction segs as [|x r IH]; intros lo Hlo Hs; simpl; [done|].
  destruct Hs as (H1 & (W1 & W2 & W3) & Hr). apply IH; [lia|done].
Qed.

Lemma seg_gaps_ok s sn lo segs : is_sn s sn -> 0 <= lo -> segs_from lo segs ->
  Forall (nack_ok s) (seg_gaps sn lo segs).
Proof.
  intros Hsn. revert lo. induction segs as [|x r IH]; intros lo Hlo Hs; simpl; [constructor|].
  destruct Hs as (H1 & (W1 & W2 & W3) & Hr). apply Forall_app. split; [|apply IH; [lia|done]].
  case_decide; constructor; [|constructor]. split; simpl; try done; unfold is_u16, is_u8; lia.
Qed.

Lemma sdu_nacks_ok s sn entry : is_sn s sn ->
  (forall i, entry = Some i -> segs_from 0 (segments i)) -> Forall (nack_ok s) (sdu_nacks sn entry).
Proof.
  intros Hsn Hwf. destruct entry as [i|]; simpl.
  - destruct (fully_received i); [constructor|]. specialize (Hwf i eq_refl).
    apply Forall_app. split; [by apply seg_gaps_ok|].
    destruct (has_last _); constructor; [|constructor].
    split; simpl; try done; auto with rlc; unfold is_u16, is_u8, so_end_of_sdu; lia.
  - constructor; [|constructor]. split; simpl; try done; unfold is_u16, is_u8, so_end_of_sdu; lia.
Qed.

(** The NACKs of [n] consecutive SNs from [sn]. *)
Fixpoint range_nacks (s : rlc_am_sn_size) (M : gmap Z rlc_rx_am_sdu_info) (n : nat) (sn : Z)
    : list rlc_am_status_nack :=
  match n with
  | O => []
  | S n => sdu_nacks sn (M !! sn) ++ range_nacks s M n ((sn + 1) mod am_mod s)
  end.

(** ** The invariant *)
Section RxInv.
  Context {Win : Type} {WB : rlc_am_window_base rlc_rx_am_sdu_info Win}.
  Context (s : rlc_am_sn_size) {WL : rlc_am_window_laws WB (half s) sdu_info_default}.

Definition wmap (e : rlc_rx_am_entity Win) : gmap Z rlc_rx_am_sdu_info := win_map (rx_window e).
Definition full_at (M : gmap Z rlc_rx_am_sdu_info) (k : Z) : Prop :=
  exists i, M !! k = Some i /\ fully_received i = true.

#[local] Abbreviation B e := (base s (rx_next (rx_st e))).

(** The t-Reassembly part: the trigger lies in (RX_Next, RX_Next_Highest] and
    the SDU before it has been received at least in part. *)
Definition timer_ok (e : rlc_rx_am_entity Win) : Prop :=
  reassembly_timer e = true ->
  0 < B e (rx_next_status_trigger (rx_st e)) <= B e (rx_next_highest (rx_st e))
  /\ is_Some (wmap e !! ((rx_next_status_trigger (rx_st e) - 1) mod am_mod s)).

(** State variables in order, window contents between RX_Next and
    RX_Next_Highest, well-formed containers and report. *)
Record rx_core (e : rlc_rx_am_entity Win) : Prop := {
  rc_cfg : rx_sn_field_length (rx_cfg e) = s;
  rc_win : win_ok (rx_window e);
  rc_next : is_sn s (rx_next (rx_st e));
  rc_trig : is_sn s (rx_next_status_trigger (rx_st e));
  rc_hs : is_sn s (rx_highest_status (rx_st e));
  rc_nh : is_sn s (rx_next_highest (rx_st e));
  rc_nh_le : B e (rx_next_highest (rx_st e)) <= half s;
  rc_hs_le : B e (rx_highest_status (rx_st e)) <= B e (rx_next_highest (rx_st e));
  rc_keys : forall k i, wmap e !! k = Some i ->
    is_sn s k /\ B e k < B e (rx_next_highest (rx_st e)) /\ segs_from 0 (segments i);
  rc_last : rx_next_highest (rx_st e) <> rx_next (rx_st e) ->
    is_Some (wmap e !! ((rx_next_highest (rx_st e) - 1) mod am_mod s));
  rc_report : status_ok (status_report e) /\ st_sn_size (status_report e) = s
    /\ is_sn s (ack_sn (status_report e))
    /\ status_report_size e = packed_size (status_report e);
}.

(** RX_Next and RX_Highest_Status point at SDUs that are not fully received. *)
Record rx_inv (e : rlc_rx_am_entity Win) : Prop := {
  ri_core : rx_core e;
  ri_next : ~ full_at (wmap e) (rx_next (rx_st e));
  ri_hs : ~ full_at (wmap e) (rx_highest_status (rx_st e));
  ri_timer : timer_ok e;
}.

Lemma rx_mod_eq (e : rlc_rx_am_entity Win) : rx_core e -> rx_mod e = am_mod s.
Proof. intros H. unfold rx_mod. by rewrite (rc_cfg _ H). Qed.
Lemma rx_mod_base_eq (e : rlc_rx_am_entity Win) x : rx_sn_field_length (rx_cfg e) = s -> rx_mod_base e x = B e x.
Proof.
  intros H. unfold rx_mod_base, rx_mod. rewrite H. apply base_u32.
Qed.
Lemma sn_fully_received_iff w k : win_ok w -> sn_fully_received w k = true <-> full_at (win_map w) k.
Proof.
  intros Hw. unfold sn_fully_received, full_at. rewrite win_has_sn_map, win_at_map by done.
  destruct (win_map w !! k) as [i|]; simpl.
  - split; [by exists i|]. by intros (j & [= ->] & ?).
  - split; [done|]. by intros (j & [=] & ?).
Qed.

Lemma rx_inv_init cfg w : rx_sn_field_length cfg = s -> win_ok w -> win_map w = ∅ ->
  rx_inv (rx_am_new cfg w).
Proof.
  intros Hc Hw He.
  assert (0 < am_mod s) by (rewrite am_mod_values; destruct s; lia).
  assert (is_sn s 0) by (unfold is_sn; lia). pose proof (half_pos s).
  assert (forall k, win_map w !! k = None) as Hn by (intros; by rewrite He, lookup_empty).
  split; [split|..]; unfold wmap, timer_ok, full_at; simpl; rewrite ?base_self; try done; try lia.
  all: try (intros k i Hk; by rewrite Hn in Hk).
  all: try (intros (i & Hi & _); by rewrite Hn in Hi).
Qed.

(** The SN space is enough fuel for every loop. *)
Lemma sn_fuel_enough e x y : rx_core e -> B e x - B e y <= Z.of_nat (sn_fuel e).
Proof.
  intros Hc. unfold sn_fuel. rewrite rx_mod_eq by done.
  pose proof (base_range s (rx_next (rx_st e)) x). pose proof (base_range s (rx_next (rx_st e)) y). lia.
Qed.

(** ** Loops over sequence numbers *)
Section Loops.
  Context (e : rlc_rx_am_entity Win) (Hcfg : rx_sn_field_length (rx_cfg e) = s).
  Context (Hr : is_sn s (rx_next (rx_st e))) (Hn : is_sn s (rx_next_highest (rx_st e))).

Lemma first_missing_spec fuel q :
  win_ok (rx_window e) -> is_sn s q -> B e q <= B e (rx_next_highest (rx_st e)) ->
  B e (rx_next_highest (rx_st e)) - B e q <= Z.of_nat fuel ->
  exists q', first_missing fuel e q = Some q' /\ is_sn s q'
    /\ B e q <= B e q' <= B e (rx_next_highest (rx_st e))
    /\ (forall k, is_sn s k -> B e q <= B e k < B e q' -> full_at (wmap e) k)
    /\ (B e q' < B e (rx_next_highest (rx_st e)) -> ~ full_at (wmap e) q').
Proof.
  intros Hw. revert q. induction fuel as [|fuel IH]; intros q Hsn Hle Hf; simpl;
    rewrite !rx_mod_base_eq by done.
  all: destruct (Z.ltb_spec (B e q) (B e (rx_next_highest (rx_st e))));
    [|exists q; split; [done|]; split; [done|]; split; [lia|]; split; intros; lia].
  all: destruct (sn_fully_received (rx_window e) q) eqn:Efr;
    [|exists q; split; [done|]; split; [done|]; split; [lia|]; split; [intros; lia|];
      intros _; unfold wmap; rewrite <- sn_fully_received_iff by done; by rewrite Efr].
  { lia. }
  unfold rx_mod. rewrite Hcfg. fold (am_mod s).
  pose proof (base_range s (rx_next (rx_st e)) (rx_next_highest (rx_st e))).
  assert (B e ((q + 1) mod am_mod s) = B e q + 1) as Hsucc by (apply base_succ; [done..|lia]).
  destruct (IH ((q + 1) mod am_mod s)) as (q' & -> & H1 & H2 & H3 & H4);
    [apply sn_succ|lia|lia|].
  exists q'. split_and!; try done; try lia.
  intros k Hk Hb. destruct (decide (B e k = B e q)) as [Heq|Hne].
  - apply base_inj in Heq as ->; [|done..]. by apply sn_fully_received_iff.
  - apply H3; [done|lia].
Qed.

Lemma first_missing_remove_spec fuel w q :
  win_ok w -> is_sn s q -> B e q <= B e (rx_next_highest (rx_st e)) ->
  B e (rx_next_highest (rx_st e)) - B e q <= Z.of_nat fuel ->
  (forall k i, win_map w !! k = Some i -> is_sn s k) ->
  exists w' q', first_missing_remove fuel e w q = Some (w', q') /\ win_ok w' /\ is_sn s q'
    /\ B e q <= B e q' <= B e (rx_next_highest (rx_st e))
    /\ (forall k, is_sn s k -> B e q <= B e k < B e q' -> full_at (win_map w) k)
    /\ (B e q' < B e (rx_next_highest (rx_st e)) -> ~ full_at (win_map w) q')
    /\ (forall k, win_map w' !! k = if decide (B e q <= B e k < B e q') then None else win_map w !! k).
Proof.
  revert w q. induction fuel as [|fuel IH]; intros w q Hw Hsn Hle Hf Hkeys; simpl;
    rewrite !rx_mod_base_eq by done.
  all: destruct (Z.ltb_spec (B e q) (B e (rx_next_highest (rx_st e))));
    [|exists w, q; do 3 (split; [done|]); split; [lia|]; split; [intros; lia|]; split; [intros; lia|];
      intros; by rewrite decide_False by lia].
  all: destruct (sn_fully_received w q) eqn:Efr;
    [|exists w, q; do 3 (split; [done|]); split; [lia|]; split; [intros; lia|]; split;
      [|intros; by rewrite decide_False by lia];
      intros _; rewrite <- sn_fully_received_iff by done; by rewrite Efr].
  { lia. }
  apply sn_fully_received_iff in Efr; [|done]. pose proof Efr as (i & Hi & Hfi).
  destruct (win_remove_map w q) as (w1 & -> & Hw1 & Hm1); [done|by eexists|].
  unfold rx_mod. rewrite Hcfg. fold (am_mod s).
  pose proof (base_range s (rx_next (rx_st e)) (rx_next_highest (rx_st e))).
  assert (B e ((q + 1) mod am_mod s) = B e q + 1) as Hsucc by (apply base_succ; [done..|lia]).
  destruct (IH w1 ((q + 1) mod am_mod s)) as (w' & q' & -> & Hw' & H1 & H2 & H3 & H4 & H5);
    [done|apply sn_succ|lia|lia|intros k j; rewrite Hm1, lookup_delete; case_decide; naive_solver|].
  assert (forall k, is_sn s k -> B e q < B e k -> win_map w1 !! k = win_map w !! k) as Hsame.
  { intros k Hk Hb. rewrite Hm1, lookup_delete_ne; [done|]. intros ->. lia. }
  exists w', q'. split_and!; try done; try lia.
  - intros k Hk Hb. destruct (decide (B e k = B e q)) as [Heq|Hne].
    + by apply base_inj in Heq as ->.
    + unfold full_at. rewrite <- Hsame by (done || lia). apply H3; [done|lia].
  - intros Hb (j & Hj & Hfj). apply H4; [done|]. exists j. by rewrite Hsame by (done || lia).
  - intros k. rewrite H5, Hm1, Hsucc. destruct (decide (k = q)) as [->|Hne].
    + rewrite lookup_delete_eq. repeat case_decide; try done; lia.
    + rewrite lookup_delete_ne by done. repeat case_decide; try done; try lia.
      destruct (win_map w !! k) eqn:Ek; [|done]. exfalso. apply Hne.
      apply (base_inj s (rx_next (rx_st e))); [done|by eapply Hkeys|done|lia].
Qed.
End Loops.

(** The report loop pushes the NACKs of every SN from RX_Next up to (not
    including) RX_Highest_Status. *)
Lemma nack_sdu_state_spec w q report :
  win_ok w -> (forall i, win_map w !! q = Some i -> segs_from 0 (segments i)) ->
  nack_sdu_state w q report = Some (fold_left push_nack (sdu_nacks q (win_map w !! q)) report).
Proof.
  intros Hw Hwf. unfold nack_sdu_state, sn_fully_received.
  rewrite !win_has_sn_map, !win_at_map by done.
  destruct (win_map w !! q) as [i|]; simpl; [|done].
  destruct (fully_received i); simpl; [done|].
  rewrite nack_segments_spec by (try lia; by apply Hwf). simpl.
  rewrite fold_left_app. by destruct (has_last _).
Qed.

Lemma core_segs e k i : rx_core e -> wmap e !! k = Some i -> segs_from 0 (segments i).
Proof. intros Hc Hi. by destruct (rc_keys _ Hc _ _ Hi) as (_ & _ & ?). Qed.

Lemma status_loop_spec fuel e q report :
  rx_core e -> is_sn s q -> B e q <= B e (rx_highest_status (rx_st e)) ->
  B e (rx_highest_status (rx_st e)) - B e q <= Z.of_nat fuel ->
  status_loop fuel e q report
  = Some (fold_left push_nack
            (range_nacks s (wmap e) (Z.to_nat (B e (rx_highest_status (rx_st e)) - B e q)) q) report).
Proof.
  intros Hc. revert q report. induction fuel as [|fuel IH]; intros q report Hsn Hle Hf; simpl;
    rewrite !rx_mod_base_eq by apply Hc.
  all: destruct (Z.ltb_spec (B e q) (B e (rx_highest_status (rx_st e))));
    [|by replace (B e (rx_highest_status (rx_st e)) - B e q) with 0 by lia].
  { lia. }
  rewrite nack_sdu_state_spec; [|apply Hc|intros i; by apply core_segs].
  rewrite rx_mod_eq by done.
  pose proof (base_range s (rx_next (rx_st e)) (rx_highest_status (rx_st e))).
  assert (B e ((q + 1) mod am_mod s) = B e q + 1) as Hsucc
    by (apply base_succ; [apply Hc|done|lia]).
  rewrite IH by (apply sn_succ || lia). rewrite Hsucc.
  replace (Z.to_nat (B e (rx_highest_status (rx_st e)) - B e q))
    with (S (Z.to_nat (B e (rx_highest_status (rx_st e)) - (B e q + 1)))) by lia.
  simpl. by rewrite fold_left_app.
Qed.

Lemma range_nacks_ok M n q :
  is_sn s q -> (forall k i, M !! k = Some i -> segs_from 0 (segments i)) ->
  Forall (nack_ok s) (range_nacks s M n q).
Proof.
  intros Hsn HM. revert q Hsn. induction n as [|n IH]; intros q Hsn; simpl; [constructor|].
  apply Forall_app. split; [|apply IH, sn_succ]. apply sdu_nacks_ok; [done|]. intros. by eapply HM.
Qed.

(** The NACKs of the current window. *)
Definition window_nacks (e : rlc_rx_am_entity Win) : list rlc_am_status_nack :=
  range_nacks s (wmap e) (Z.to_nat (B e (rx_highest_status (rx_st e)))) (rx_next (rx_st e)).

Lemma refresh_status_report_spec e : rx_core e ->
  refresh_status_report e
  = Some (store_status_report e (build_status s (window_nacks e) (rx_highest_status (rx_st e)))).
Proof.
  intros Hc. unfold refresh_status_report.
  pose proof (base_range s (rx_next (rx_st e)) (rx_highest_status (rx_st e))).
  rewrite status_loop_spec; [|done|apply Hc|rewrite base_self; lia|by apply sn_fuel_enough].
  by rewrite base_self, Z.sub_0_r, (rc_cfg _ Hc).
Qed.

Lemma window_nacks_ok e : rx_core e -> Forall (nack_ok s) (window_nacks e).
Proof.
  intros Hc. apply range_nacks_ok; [apply Hc|]. intros k i. by apply core_segs.
Qed.

(** ** Storing a PDU in the window *)
Lemma find_or_add_spec e q :
  rx_core e -> is_sn s q -> B e q < half s ->
  exists w i, find_or_add (rx_window e) q = Some (w, i) /\ win_ok w
    /\ i = default sdu_info_default (wmap e !! q) /\ win_map w = <[q := i]> (wmap e).
Proof.
  intros Hc Hq Hb. unfold find_or_add, wmap. pose proof (rc_win _ Hc) as Hw.
  rewrite win_has_sn_map by done.
  destruct (win_map (rx_window e) !! q) as [i|] eqn:E; simpl.
  - exists (rx_window e), i. rewrite win_at_map, E by done. split_and!; try done.
    by rewrite insert_id.
  - destruct (win_add_map (rx_window e) q) as (w & -> & Hw' & Hm); [done..|].
    exists w, sdu_info_default.
    assert (win_map w = <[q := sdu_info_default]> (win_map (rx_window e))) as Hm'.
    { rewrite Hm. f_equal. apply map_filter_id. intros k i Hk Heq. simpl in Heq.
      destruct (rc_keys _ Hc k i Hk) as (Hsk & Hbk & _).
      pose proof (rc_nh_le _ Hc). eapply base_slots in Heq; [..|exact Hb]; [|apply Hc|done|done|lia].
      congruence. }
    rewrite win_at_map, Hm', lookup_insert_eq by done. by split_and!.
Qed.

(** The container after a PDU. *)
Definition stored_info (h : rlc_am_pdu_header) (payload : bytes) (i : rlc_rx_am_sdu_info)
    : bool * rlc_rx_am_sdu_info :=
  if bool_decide (hdr_si h = full_sdu) then handle_full_data_sdu h payload i
  else handle_segment_data_sdu h payload i.

Lemma stored_info_segs h payload i :
  segs_from 0 (segments i) -> 0 <= hdr_so h -> 0 < blen payload ->
  (hdr_si h <> full_sdu -> hdr_so h + blen payload <= 65536) ->
  segs_from 0 (segments (stored_info h payload i).2).
Proof.
  intros Hs Hso Hpl Hb. unfold stored_info.
  destruct (bool_decide (hdr_si h = full_sdu)) eqn:E; breflect.
  - unfold handle_full_data_sdu. by rewrite bool_decide_true.
  - unfold handle_segment_data_sdu. rewrite bool_decide_false by done.
    assert (seg_wf (Seg (hdr_si h) (hdr_so h) payload)) as Hw.
    { unfold seg_wf, seg_len. simpl. specialize (Hb E). lia. }
    pose proof (store_segment_spec i _ Hs Hw) as Hst.
    destruct (store_segment i _) as [st i1]. destruct Hst as (P1 & _).
    unfold update_segment_inventory. destruct (segment_inventory 0 (segments i1)) as [[] gap]; done.
Qed.

(** What a PDU of an SDU that is not complete makes of the SDU's container.  A complete SDU replaces what was there.  A
    segment adds exactly its bytes to those stored.  When the container and the PDU are cut out of one SDU [d], the
    container afterwards is one of [d]: complete, with the bytes of [d], exactly when all bytes of [d] have arrived. *)
Definition container_after (h : rlc_am_pdu_header) (payload : bytes) (i i' : rlc_rx_am_sdu_info) : Prop :=
  (hdr_si h = full_sdu -> i' = SduInfo true false [] payload)
  /\ (hdr_si h <> full_sdu -> fully_received i' = false ->
        sdu i' = sdu i /\ forall o, covered (segments i') o <-> covered (segments i) o \/ hdr_so h <= o < hdr_so h + blen payload)
  /\ (forall d, 0 < blen d -> info_ok d i -> pdu_of d (hdr_si h, hdr_so h, payload) ->
        info_ok d i' /\ forall o, info_covers d i' o <-> info_covers d i o \/ pdu_covers d (hdr_si h, hdr_so h, payload) o).

Lemma stored_info_container h payload i :
  segs_from 0 (segments i) -> fully_received i = false -> 0 <= hdr_so h -> 0 < blen payload ->
  (hdr_si h <> full_sdu -> hdr_so h + blen payload <= 65536) ->
  container_after h payload i (stored_info h payload i).2.
Proof.
  intros Hs Hnf Hso Hpl Hb. split_and!.
  - intros Hsi. unfold stored_info, handle_full_data_sdu. by rewrite !bool_decide_true.
  - intros Hsi. unfold stored_info, handle_segment_data_sdu. rewrite !bool_decide_false by done.
    assert (seg_wf (Seg (hdr_si h) (hdr_so h) payload)) as Hw.
    { unfold seg_wf, seg_len. simpl. specialize (Hb Hsi). lia. }
    pose proof (store_segment_spec i _ Hs Hw) as Hst. unfold store_segment in *.
    destruct (store_segment_loop _ _ _) as [st segs]. destruct Hst as (_ & P2 & _).
    unfold update_segment_inventory. simpl. by destruct (segment_inventory 0 segs) as [[] gap].
  - intros d Hd Hok Hp.
    replace (stored_info h payload i).2 with (rx_sdu_step i (hdr_si h, hdr_so h, payload)); [by apply rx_sdu_step_ok|].
    unfold rx_sdu_step, stored_info. rewrite Hnf. unfold handle_full_data_sdu. simpl.
    by destruct (bool_decide (hdr_si h = full_sdu)).
Qed.

Lemma store_data_spec e h payload :
  rx_core e -> is_sn s (hdr_sn h) -> B e (hdr_sn h) < half s ->
  exists w, store_data e h payload
      = Some ((stored_info h payload (default sdu_info_default (wmap e !! hdr_sn h))).1, with_window e w)
    /\ win_ok w
    /\ win_map w
       = <[hdr_sn h := (stored_info h payload (default sdu_info_default (wmap e !! hdr_sn h))).2]> (wmap e).
Proof.
  intros Hc Hq Hb. unfold store_data.
  destruct (find_or_add_spec e (hdr_sn h) Hc Hq Hb) as (w & i & -> & Hw & <- & Hm).
  fold (stored_info h payload i).
  destruct (stored_info h payload i) as [changed i'] eqn:E.
  destruct (win_set_map w (hdr_sn h) i') as (w' & -> & Hw' & Hm'); [done|rewrite Hm, lookup_insert_eq; by eexists|].
  exists w'. split_and!; try done. by rewrite Hm', Hm, insert_insert_eq.
Qed.

(** State after the PDU is stored and RX_Next_Highest updated: only the SN just
    received may be fully received at the window edges. *)
Record rx_stored (e : rlc_rx_am_entity Win) (q : Z) : Prop := {
  rp_core : rx_core e;
  rp_sn : is_sn s q;
  rp_in : is_Some (wmap e !! q);
  rp_lt : B e q < B e (rx_next_highest (rx_st e));
  rp_next : full_at (wmap e) (rx_next (rx_st e)) -> rx_next (rx_st e) = q;
  rp_hs : full_at (wmap e) (rx_highest_status (rx_st e)) -> rx_highest_status (rx_st e) = q;
  rp_timer : timer_ok e;
}.

Lemma sn_pred_succ q : is_sn s q -> ((q + 1) mod am_mod s - 1) mod am_mod s = q.
Proof. unfold is_sn. rewrite am_mod_values. intros. destruct s; mlia. Qed.

(** RX_Next_Highest after the update, relative to RX_Next. *)
Lemma next_highest_value e q :
  rx_core e -> is_sn s q -> B e q < half s ->
  exists nh, update_next_highest e q = with_st e (set_next_highest (rx_st e) nh)
    /\ is_sn s nh /\ B e nh = Z.max (B e (rx_next_highest (rx_st e))) (B e q + 1)
    /\ ((nh = rx_next_highest (rx_st e) /\ B e q < B e nh) \/ (nh - 1) mod am_mod s = q).
Proof.
  intros Hc Hq Hb. unfold update_next_highest. rewrite !rx_mod_base_eq by apply Hc.
  pose proof (half_twice s). pose proof (half_pos s).
  destruct (Z.leb_spec (B e (rx_next_highest (rx_st e))) (B e q)).
  - rewrite rx_mod_eq by done. exists ((q + 1) mod am_mod s).
    assert (B e ((q + 1) mod am_mod s) = B e q + 1) as Hs by (apply base_succ; [apply Hc|done|lia]).
    split_and!; [done|apply sn_succ|lia|]. right. by apply sn_pred_succ.
  - exists (rx_next_highest (rx_st e)). split_and!; try apply Hc; [|lia|left; split; [done|lia]].
    by destruct e as [? [] ? ? ? ? ? ? ?].
Qed.

(** The same after a change of the window. *)
Lemma next_highest_window e q w :
  rx_core e -> is_sn s q -> B e q < half s ->
  exists nh, update_next_highest (with_window e w) q = with_st (with_window e w) (set_next_highest (rx_st e) nh)
    /\ is_sn s nh /\ B e nh = Z.max (B e (rx_next_highest (rx_st e))) (B e q + 1)
    /\ ((nh = rx_next_highest (rx_st e) /\ B e q < B e nh) \/ (nh - 1) mod am_mod s = q).
Proof.
  intros Hc Hq Hb. destruct (next_highest_value e q Hc Hq Hb) as (nh & Heq & ?). exists nh. split; [|done].
  revert Heq. unfold update_next_highest.
  change (rx_mod_base (with_window e w)) with (rx_mod_base e). simpl.
  case_match; [|destruct e as [? [] ? ? ? ? ? ? ?]; simpl; by intros [= <-]].
  change (rx_mod (with_window e w)) with (rx_mod e).
  intros Heq. apply (f_equal rx_st) in Heq. simpl in Heq. by rewrite Heq.
Qed.

Lemma store_update_spec e q w i' :
  rx_inv e -> is_sn s q -> B e q < half s -> win_ok w -> win_map w = <[q := i']> (wmap e) ->
  segs_from 0 (segments i') -> rx_stored (update_next_highest (with_window e w) q) q.
Proof.
  intros [Hc Hnx Hhs Ht] Hq Hb Hw Hm Hsegs.
  destruct (next_highest_window e q w Hc Hq Hb) as (nh & -> & Hnh & Hbn & Hcase).
  pose proof (rc_nh_le _ Hc). pose proof (rc_hs_le _ Hc).
  assert (forall k, k <> q -> full_at (win_map w) k -> full_at (wmap e) k) as Hfull.
  { intros k Hk (i & Hi & Hf). exists i. rewrite Hm, lookup_insert_ne in Hi by done. done. }
  assert (forall k, is_Some (wmap e !! k) -> is_Some (win_map w !! k)) as Hmono.
  { intros k Hk. rewrite Hm, lookup_insert. case_decide; [by eexists|done]. }
  split; simpl; [split; simpl|..]; try apply Hc; try done; unfold wmap; simpl; try lia.
  - intros k i. rewrite Hm, lookup_insert. case_decide as Hd.
    + intros [= <-]. subst k. split_and!; [done|lia|done].
    + intros Hk. destruct (rc_keys _ Hc k i Hk) as (? & ? & ?). split_and!; [done|lia|done].
  - intros Hne. destruct Hcase as [[-> _]|Hcq]; [|rewrite Hcq].
    + apply Hmono, (rc_last _ Hc). done.
    + rewrite Hm, lookup_insert_eq. by eexists.
  - rewrite Hm, lookup_insert_eq. by eexists.
  - intros Hf. destruct (decide (rx_next (rx_st e) = q)); [done|]. by destruct Hnx; apply Hfull.
  - intros Hf. destruct (decide (rx_highest_status (rx_st e) = q)); [done|]. by destruct Hhs; apply Hfull.
  - intros Hr. destruct (Ht Hr) as [? ?]. unfold wmap. simpl. split; [lia|by apply Hmono].
Qed.

(** ** Delivery and movement of the window *)

(** t-Reassembly may have been overtaken by RX_Next. *)
Definition timer_weak (e : rlc_rx_am_entity Win) : Prop :=
  reassembly_timer e = true ->
  (0 < B e (rx_next_status_trigger (rx_st e)) <= B e (rx_next_highest (rx_st e))
   /\ is_Some (wmap e !! ((rx_next_status_trigger (rx_st e) - 1) mod am_mod s)))
  \/ rx_next_status_trigger (rx_st e) = rx_next (rx_st e)
  \/ half s <= B e (rx_next_status_trigger (rx_st e)).

Lemma timer_ok_weak e : timer_ok e -> timer_weak e.
Proof. intros H Hr. left. by apply H. Qed.

(** A window with the same keys and flags. *)
Definition same_flags (M M' : gmap Z rlc_rx_am_sdu_info) : Prop :=
  forall k, (is_Some (M !! k) <-> is_Some (M' !! k)) /\ (full_at M k <-> full_at M' k)
    /\ forall i', M' !! k = Some i' -> exists i, M !! k = Some i /\ segments i' = segments i.

Lemma stored_same_flags e q w :
  rx_stored e q -> win_ok w -> same_flags (wmap e) (win_map w) -> rx_stored (with_window e w) q.
Proof.
  intros [Hc H1 H2 H3 H4 H5 H6] Hw Hsame.
  split; simpl; [split; simpl|..]; try apply Hc; try done; unfold wmap; simpl.
  - intros k i' Hi'. destruct (Hsame k) as (_ & _ & Hx). destruct (Hx i' Hi') as (i & Hi & ->).
    by apply (rc_keys _ Hc).
  - intros Hne. apply (Hsame _), (rc_last _ Hc), Hne.
  - by apply (Hsame q).
  - intros Hf. by apply H4, (Hsame _).
  - intros Hf. by apply H5, (Hsame _).
  - intros Hr. destruct (H6 Hr) as [? ?]. split; [done|]. by apply (Hsame _).
Qed.

(** RX_Next_Highest is never in the window. *)
Lemma next_highest_absent e k : rx_core e -> is_sn s k ->
  B e k = B e (rx_next_highest (rx_st e)) -> ~ full_at (wmap e) k.
Proof. intros Hc Hk Hb (i & Hi & _). destruct (rc_keys _ Hc _ _ Hi) as (_ & ? & _). lia. Qed.

Lemma update_highest_status_spec e q :
  rx_stored e q ->
  exists hs, update_highest_status e q = Some (with_st e (set_highest_status (rx_st e) hs))
    /\ is_sn s hs
    /\ B e (rx_highest_status (rx_st e)) <= B e hs <= B e (rx_next_highest (rx_st e))
    /\ ~ full_at (wmap e) hs.
Proof.
  intros [Hc Hq Hin Hlt Hnx Hhs Ht]. unfold update_highest_status.
  pose proof (rc_next _ Hc). pose proof (rc_hs _ Hc). pose proof (rc_nh _ Hc). pose proof (rc_hs_le _ Hc).
  pose proof (base_range s (rx_next (rx_st e)) (rx_next_highest (rx_st e))).
  rewrite !rx_mod_base_eq, rx_mod_eq by (done || apply Hc).
  destruct (Z.eqb_spec (B e q) (B e (rx_highest_status (rx_st e)))) as [Heq|Hne].
  - assert (B e ((rx_highest_status (rx_st e) + 1) mod am_mod s) = B e (rx_highest_status (rx_st e)) + 1)
      as Hs by (apply base_succ; [done..|lia]).
    destruct (first_missing_spec e (rc_cfg _ Hc) (rc_next _ Hc) (sn_fuel e)
                ((rx_highest_status (rx_st e) + 1) mod am_mod s))
      as (hs & -> & H1' & H2' & H3' & H4'); [apply Hc|apply sn_succ|lia|by apply sn_fuel_enough|].
    exists hs. split; [done|]. split; [done|]. split; [lia|].
    destruct (decide (B e hs = B e (rx_next_highest (rx_st e)))).
    + by apply next_highest_absent.
    + apply H4'. lia.
  - exists (rx_highest_status (rx_st e)). split; [by destruct e as [? [] ? ? ? ? ? ? ?]|].
    split; [done|]. split; [lia|]. intros Hf. apply Hne. by rewrite (Hhs Hf).
Qed.

Lemma update_rx_next_moved e q :
  rx_stored e q -> ~ full_at (wmap e) (rx_highest_status (rx_st e)) ->
  exists w r', update_rx_next e q = Some (with_st (with_window e w) (set_rx_next (rx_st e) r'))
    /\ win_ok w /\ is_sn s r' /\ B e r' <= B e (rx_highest_status (rx_st e))
    /\ ~ full_at (win_map w) r'
    /\ (forall k, is_sn s k -> B e k < B e r' -> full_at (wmap e) k)
    /\ (forall k, win_map w !! k = if decide (B e k < B e r') then None else wmap e !! k).
Proof.
  intros [Hc Hq Hin Hlt Hnx Hhs Ht] Hhsnf. unfold update_rx_next.
  pose proof (rc_next _ Hc) as Hr. pose proof (rc_hs_le _ Hc). pose proof (rc_hs _ Hc).
  pose proof (base_range s (rx_next (rx_st e)) (rx_next_highest (rx_st e))).
  pose proof (base_range s (rx_next (rx_st e)) (rx_highest_status (rx_st e))).
  rewrite !rx_mod_base_eq, rx_mod_eq, base_self by (done || apply Hc).
  rewrite (Z.mod_small (rx_next (rx_st e))) by apply Hr.
  destruct (Z.eqb_spec (B e q) 0) as [Heq|Hne].
  - destruct (first_missing_remove_spec e (rc_cfg _ Hc) Hr (rc_nh _ Hc) (sn_fuel e) (rx_window e)
                (rx_next (rx_st e))) as (w & r' & -> & Hw & H1' & H2' & H3' & H4' & H5').
    + apply Hc.
    + done.
    + rewrite base_self; lia.
    + by apply sn_fuel_enough.
    + intros k i Hk. by destruct (rc_keys _ Hc k i Hk).
    + rewrite base_self in *.
      assert (B e r' <= B e (rx_highest_status (rx_st e))) as Hle.
      { apply Z.nlt_ge. intros Hgt. apply Hhsnf. apply H3'; [done|lia]. }
      exists w, r'. split; [done|]. split; [done|]. split; [done|]. split; [done|].
      assert (forall k, win_map w !! k = if decide (B e k < B e r') then None else wmap e !! k) as Hm.
      { intros k. rewrite H5'. pose proof (base_range s (rx_next (rx_st e)) k).
        repeat case_decide; try done; lia. }
      split; [|split; [|done]].
      * intros (i & Hi & Hf). rewrite Hm, decide_False in Hi by lia.
        destruct (decide (B e r' = B e (rx_next_highest (rx_st e)))).
        -- eapply next_highest_absent; [done|exact H1'|done|]. by exists i.
        -- apply H4'; [lia|]. by exists i.
      * intros k Hk Hb. apply H3'; [done|]. pose proof (base_range s (rx_next (rx_st e)) k). lia.
  - exists (rx_window e), (rx_next (rx_st e)). rewrite base_self.
    split; [by destruct e as [? [] ? ? ? ? ? ? ?]|].
    split; [apply Hc|]. split; [done|]. split; [lia|]. split; [|split].
    + intros Hf. apply Hne. rewrite <- (Hnx Hf). apply base_self.
    + intros k _ Hk. pose proof (base_range s (rx_next (rx_st e)) k). lia.
    + intros k. pose proof (base_range s (rx_next (rx_st e)) k). by rewrite decide_False by lia.
Qed.

(** The invariant relative to the new lower edge. *)
Lemma move_window_spec e q w r' :
  rx_stored e q -> ~ full_at (wmap e) (rx_highest_status (rx_st e)) ->
  win_ok w -> is_sn s r' -> B e r' <= B e (rx_highest_status (rx_st e)) ->
  (forall k, win_map w !! k = if decide (B e k < B e r') then None else wmap e !! k) ->
  let e' := with_st (with_window e w) (set_rx_next (rx_st e) r') in
  rx_core e' /\ ~ full_at (wmap e') (rx_highest_status (rx_st e')) /\ timer_weak e'.
Proof.
  intros [Hc Hq Hin Hlt Hnx Hhs Ht] Hhsnf Hw Hr' Hle Hm e'.
  pose proof (rc_next _ Hc) as Hr. pose proof (rc_hs_le _ Hc). pose proof (rc_nh_le _ Hc).
  pose proof (half_twice s).
  assert (forall k, is_sn s k -> B e r' <= B e k -> B e' k = B e k - B e r') as Hb.
  { intros k Hk Hge. change (B e' k) with (base s r' k).
    rewrite (base_shift s (rx_next (rx_st e))), decide_True by done. done. }
  pose proof (Hb _ (rc_nh _ Hc) ltac:(lia)) as Hbnh. pose proof (Hb _ (rc_hs _ Hc) Hle) as Hbhs.
  pose proof (base_range s (rx_next (rx_st e)) r').
  split; [split; try apply Hc; try done|split].
  - change (rx_next_highest (rx_st e')) with (rx_next_highest (rx_st e)). lia.
  - change (rx_next_highest (rx_st e')) with (rx_next_highest (rx_st e)).
    change (rx_highest_status (rx_st e')) with (rx_highest_status (rx_st e)). lia.
  - intros k i. unfold wmap. simpl. rewrite Hm. case_decide; [done|]. intros Hk.
    destruct (rc_keys _ Hc k i Hk) as (? & ? & ?). split_and!; [done| |done].
    change (rx_next_highest (rx_st e)) with (rx_next_highest (rx_st e')).
    assert (B e' k = B e k - B e r') by (apply Hb; [done|lia]). simpl in *. lia.
  - simpl. intros Hne. unfold wmap. simpl. rewrite Hm.
    assert (0 < B e' (rx_next_highest (rx_st e))) as Hpos.
    { pose proof (base_range s r' (rx_next_highest (rx_st e))). simpl.
      destruct (decide (base s r' (rx_next_highest (rx_st e)) = 0)) as [E0|]; [|lia].
      apply base_0 in E0; [done|done|apply Hc]. }
    pose proof (base_pred s (rx_next (rx_st e)) (rx_next_highest (rx_st e)) Hr (rc_nh _ Hc)) as Hp.
    rewrite decide_False by lia. apply (rc_last _ Hc).
    intros E0. rewrite E0, base_self in *. lia.
  - intros (i & Hi & Hf). apply Hhsnf. unfold wmap in Hi. simpl in Hi.
    rewrite Hm, decide_False in Hi by lia. by exists i.
  - intros Hrun. destruct (Ht Hrun) as [Htr Hp]. simpl.
    change (base s r') with (base s (rx_next (rx_st e'))). pose proof (rc_trig _ Hc) as Hts.
    destruct (Z.lt_trichotomy (B e r') (B e (rx_next_status_trigger (rx_st e)))) as [Hlt'|[Heq|Hgt]].
    + left. pose proof (Hb _ Hts ltac:(lia)) as Hbt. split; [lia|]. unfold wmap. simpl. rewrite Hm.
      pose proof (base_pred s (rx_next (rx_st e)) (rx_next_status_trigger (rx_st e)) Hr Hts).
      by rewrite decide_False by lia.
    + right; left. by apply (base_inj s (rx_next (rx_st e))).
    + right; right. simpl. rewrite (base_shift s (rx_next (rx_st e))), decide_False by (done || lia). lia.
Qed.

(** The invariant up to a possibly overtaken t-Reassembly. *)
Record rx_moved (e : rlc_rx_am_entity Win) : Prop := {
  rm_core : rx_core e;
  rm_next : ~ full_at (wmap e) (rx_next (rx_st e));
  rm_hs : ~ full_at (wmap e) (rx_highest_status (rx_st e));
  rm_timer : timer_weak e;
}.

(** What [deliver_sdu] hands to the upper layer for the SN just received. *)
Definition delivered (M : gmap Z rlc_rx_am_sdu_info) (q : Z) : list rx_event :=
  match M !! q with
  | Some i => if fully_received i then [on_new_sdu (sdu i)] else []
  | None => []
  end.

Lemma same_flags_moved_out M q i :
  M !! q = Some i -> same_flags M (<[q := SduInfo (fully_received i) (has_gap i) (segments i) []]> M).
Proof.
  intros Hi k. unfold full_at. rewrite lookup_insert. case_decide as Hd; [subst k|].
  - rewrite Hi. split_and!; [by split|split; intros (? & [= <-] & ?); eauto|].
    intros i' [= <-]. by exists i.
  - split_and!; [done|done|]. intros i' Hi'. by exists i'.
Qed.

(** The container of an SDU that was handed to the upper layer: the SDU is moved out of it. *)
Definition handed_over (i : rlc_rx_am_sdu_info) : rlc_rx_am_sdu_info :=
  if fully_received i then SduInfo true (has_gap i) (segments i) [] else i.

(** The window contents [M] when the SDU with SN [q] was handed over if it is complete. *)
Definition handed_over_at (M : gmap Z rlc_rx_am_sdu_info) (q : Z) : gmap Z rlc_rx_am_sdu_info := alter handed_over q M.

Lemma handed_over_flags M q k :
  (is_Some (handed_over_at M q !! k) <-> is_Some (M !! k)) /\ (full_at (handed_over_at M q) k <-> full_at M k).
Proof.
  unfold handed_over_at, full_at. destruct (decide (q = k)) as [->|Hne]; [|by rewrite lookup_alter_ne].
  rewrite lookup_alter_eq. destruct (M !! k) as [i|]; simpl; [|naive_solver].
  unfold handed_over. split; [split; by eexists|]. destruct (fully_received i) eqn:E; split; intros (? & [= <-] & ?); eauto.
Qed.

(** RX_Next has moved only over fully received SDUs, which have left the
    window; the others are as before, but for the SDU moved out of its container. *)
Definition window_moved (q : Z) (e e' : rlc_rx_am_entity Win) : Prop :=
  (forall k, is_sn s k -> B e k < B e (rx_next (rx_st e')) -> full_at (wmap e) k)
  /\ (forall k, B e k < B e (rx_next (rx_st e')) -> wmap e' !! k = None)
  /\ (forall k, B e (rx_next (rx_st e')) <= B e k -> wmap e' !! k = handed_over_at (wmap e) q !! k)
  /\ rx_next_highest (rx_st e') = rx_next_highest (rx_st e) /\ do_status e' = do_status e.

Lemma deliver_sdu_spec e q :
  rx_stored e q ->
  exists e', deliver_sdu e q = Some (e', delivered (wmap e) q) /\ rx_moved e' /\ window_moved q e e'.
Proof.
  intros Hst. pose proof Hst as [Hc Hq Hin Hlt Hnx Hhs Ht]. pose proof (rc_win _ Hc) as Hw.
  unfold deliver_sdu, delivered. destruct (sn_fully_received (rx_window e) q) eqn:Ef; simpl.
  - apply sn_fully_received_iff in Ef as (i & Hi & Hfi); [|done]. rewrite win_at_map by done.
    unfold wmap. rewrite Hi, Hfi.
    destruct (win_set_map (rx_window e) q (SduInfo (fully_received i) (has_gap i) (segments i) []))
      as (w & Hset & Hw' & Hm); [done|by eexists|]. rewrite Hfi in Hset. rewrite Hset.
    assert (same_flags (wmap e) (win_map w)) as Hsame by (rewrite Hm; by apply same_flags_moved_out).
    assert (rx_stored (with_window e w) q) as Hst1 by (by apply stored_same_flags).
    destruct (update_highest_status_spec _ _ Hst1) as (hs & Hup & Hhs1 & Hle & Hnf).
    rewrite Hup. clear Hup.
    set (e2 := with_st (with_window e w) (set_highest_status (rx_st (with_window e w)) hs)).
    assert (rx_stored e2 q) as Hst2.
    { destruct Hst1 as [Hc1 ? ? ? ? ? ?]. split; try done. split; try apply Hc1; done || apply Hle. }
    destruct (update_rx_next_moved e2 q Hst2) as (w2 & r' & Hup & Hw2 & Hr' & Hle' & Hnf' & Hall & Hm');
      [done|]. rewrite Hup. clear Hup.
    destruct (move_window_spec e2 q w2 r' Hst2) as (? & ? & ?); try done.
    eexists. split; [reflexivity|]. split; [by split|].
    change (B e2) with (B e) in *. unfold window_moved, full_at, wmap in *. simpl in *. split_and!.
    + intros k Hk Hb. by apply (Hsame k), Hall.
    + intros k Hb. by rewrite Hm', decide_True.
    + intros k Hb. rewrite Hm', decide_False, Hm by lia. unfold handed_over_at. destruct (decide (q = k)) as [<-|Hne].
      * rewrite lookup_insert_eq, lookup_alter_eq, Hi. simpl. unfold handed_over. by rewrite Hfi.
      * by rewrite lookup_insert_ne, lookup_alter_ne.
    + done.
    + done.
  - assert (~ full_at (wmap e) q) as Hnf.
    { unfold wmap. rewrite <- sn_fully_received_iff by done. by rewrite Ef. }
    exists e. split; [|split].
    + destruct (wmap e !! q) as [i|] eqn:Hi; [|done]. destruct (fully_received i) eqn:Hfi; [|done].
      destruct Hnf. by exists i.
    + split; [done| | |by apply timer_ok_weak].
      * intros Hf. apply Hnf. by rewrite (Hnx Hf) in Hf.
      * intros Hf. apply Hnf. by rewrite (Hhs Hf) in Hf.
    + unfold window_moved. rewrite base_self. pose proof (base_range s (rx_next (rx_st e))) as Hrg.
      split_and!; try done; intros k; specialize (Hrg k); try lia. intros _. unfold handed_over_at.
      destruct (decide (q = k)) as [<-|Hne]; [|by rewrite lookup_alter_ne]. rewrite lookup_alter_eq.
      destruct (wmap e !! q) as [i|] eqn:Hi; [|done]. simpl. unfold handed_over. destruct (fully_received i) eqn:Hfi; [|done].
      destruct Hnf. by exists i.
Qed.

(** ** t-Reassembly after a data PDU *)
Lemma rx_window_size_eq e : rx_core e -> rx_am_window_size e = half s.
Proof. intros Hc. unfold rx_am_window_size. by rewrite (rc_cfg _ Hc). Qed.

Lemma with_reassembly_timer_core e b : rx_core e -> rx_core (with_reassembly_timer e b).
Proof. intros Hc. split; apply Hc. Qed.

Lemma maybe_stop_reassembly_spec e :
  rx_moved e -> exists e', maybe_stop_reassembly e = Some e' /\ rx_inv e'
    /\ (e' = e \/ e' = with_reassembly_timer e false).
Proof.
  intros [Hc Hnx Hhs Ht]. unfold maybe_stop_reassembly.
  destruct (reassembly_timer e) eqn:Er; simpl.
  2:{ exists e. split_and!; [done| |by left]. split; try done. intros Hr. by rewrite Er in Hr. }
  assert (forall e', e' = with_reassembly_timer e false -> rx_inv e') as Hstop.
  { intros e' ->. split; try done. by apply with_reassembly_timer_core. }
  assert (timer_ok e -> rx_inv e) as Hgo by (intros; by split).
  rewrite !rx_mod_base_eq by apply Hc. rewrite base_plus1. unfold inside_rx_window.
  rewrite !rx_mod_base_eq, rx_window_size_eq by (done || apply Hc).
  pose proof (half_pos s). pose proof (rc_trig _ Hc) as Htr. pose proof (rc_next _ Hc) as Hr.
  destruct (Ht Er) as [[Hb Hp]|[Heq|Hge]].
  - (* trigger ahead of RX_Next *)
    destruct (Z.eqb_spec (B e (rx_next_status_trigger (rx_st e))) 1) as [E1|_].
    + assert ((rx_next_status_trigger (rx_st e) - 1) mod am_mod s = rx_next (rx_st e)) as Hpred.
      { apply (base_0 s (rx_next (rx_st e))); [done|apply Z.mod_pos_bound|].
        - apply am_mod_pos.
        - rewrite base_pred by (done || lia). lia. }
      rewrite Hpred in Hp. destruct Hp as [i Hi].
      rewrite win_at_map by apply Hc. unfold wmap in Hi. rewrite Hi.
      eexists. split; [reflexivity|]. case_match; split; eauto.
      apply Hgo. intros _. split; [done|]. rewrite Hpred. by exists i.
    + eexists. split; [reflexivity|]. case_match; split; eauto. apply Hgo. by intros _.
  - rewrite Heq, base_self, Z.eqb_refl. simpl. eexists. split; [reflexivity|]. split; eauto.
  - rewrite (proj2 (Z.eqb_neq _ 1)) by lia. rewrite (proj2 (Z.ltb_ge _ (half s))) by lia.
    rewrite orb_true_r. eexists. split; [reflexivity|]. split; eauto.
Qed.

Lemma maybe_start_reassembly_spec e : rx_inv e -> rx_inv (maybe_start_reassembly e).
Proof.
  intros [Hc Hnx Hhs Ht]. unfold maybe_start_reassembly.
  destruct (reassembly_timer e) eqn:Er; [by split|].
  rewrite !rx_mod_base_eq by apply Hc. rewrite base_plus1.
  match goal with |- rx_inv (if ?c then _ else _) => destruct c eqn:E end; [|by split].
  assert (0 < B e (rx_next_highest (rx_st e))) as Hpos.
  { apply orb_true_iff in E as [E|E]; breflect; lia. }
  split; try done.
  - split; apply Hc.
  - intros _. unfold wmap. simpl. split; [lia|]. apply (rc_last _ Hc).
    intros E0. rewrite E0, base_self in Hpos. lia.
Qed.

(** ** Status report and end of the handler *)
Lemma store_status_report_inv e ns hs :
  rx_inv e -> Forall (nack_ok s) ns -> is_sn s hs -> rx_inv (store_status_report e (build_status s ns hs)).
Proof.
  intros [Hc Hnx Hhs Ht] Hns Hh. destruct (build_status_ok s ns hs Hns) as [H1 H2].
  split; try done. split; apply Hc || done.
Qed.

Lemma with_do_status_inv e b : rx_inv e -> rx_inv (with_do_status e b).
Proof. intros [Hc Hnx Hhs Ht]. split; try done. split; apply Hc || done. Qed.

Definition no_sdu (evs : list rx_event) : Prop := forall d, on_new_sdu d ∉ evs.

Lemma notify_no_sdu e : no_sdu (@notify_status_report_changed Win e).
Proof. intros d. unfold notify_status_report_changed. case_match; set_solver. Qed.

Lemma on_function_exit_spec changed requested e evs :
  rx_inv e -> exists e' notes, on_function_exit changed requested e evs = Some (e', evs ++ notes)
    /\ rx_inv e' /\ no_sdu notes
    /\ rx_st e' = rx_st e /\ rx_window e' = rx_window e /\ do_status e' = requested || do_status e
    /\ status_report e' = if changed then build_status s (window_nacks e) (rx_highest_status (rx_st e))
                          else status_report e.
Proof.
  intros Hi. pose proof Hi as [Hc _ _ _]. unfold on_function_exit.
  assert (exists e1, (if changed then refresh_status_report e else Some e) = Some e1 /\ rx_inv e1
    /\ rx_st e1 = rx_st e /\ rx_window e1 = rx_window e /\ do_status e1 = do_status e
    /\ status_report e1 = if changed then build_status s (window_nacks e) (rx_highest_status (rx_st e))
                          else status_report e) as (e1 & -> & Hi1 & <- & <- & <- & <-).
  { destruct changed; [|by exists e]. rewrite refresh_status_report_spec by done.
    eexists. split; [reflexivity|]. split; [|done]. apply store_status_report_inv; [done| |apply Hc].
    by apply window_nacks_ok. }
  eexists _, _. split; [reflexivity|]. split; [|split].
  - destruct requested; [by apply with_do_status_inv|done].
  - case_match; [apply notify_no_sdu|]. intros d. set_solver.
  - by destruct requested.
Qed.

Lemma maybe_start_reassembly_frame e : exists b x,
  maybe_start_reassembly (Win := Win) e = with_st (with_reassembly_timer e b) (set_status_trigger (rx_st e) x).
Proof.
  assert (e = with_st (with_reassembly_timer e (reassembly_timer e))
                (set_status_trigger (rx_st e) (rx_next_status_trigger (rx_st e)))) as He
    by (by destruct e as [? [] ? ? ? ? ? ? ?]).
  unfold maybe_start_reassembly. repeat case_match; eexists _, _; first [exact He|reflexivity].
Qed.

(** ** The handlers *)

(** The window and length checks of [handle_data_pdu]: the header and payload
    of a PDU that is stored. *)
Definition accepts (e : rlc_rx_am_entity Win) (buf : bytes) : option (rlc_am_pdu_header * bytes) :=
  match rlc_am_read_data_pdu_header buf (rx_sn_field_length (rx_cfg e))
          (rlc_am_pdu_header_init (rx_sn_field_length (rx_cfg e))) with
  | None => None
  | Some h =>
      let header_len := rlc_am_pdu_header_get_packed_size h in
      if blen buf <=? header_len then None
      else if negb (inside_rx_window e (hdr_sn h)) then None
      else if sn_fully_received (rx_window e) (hdr_sn h) then None
      else Some (h, slice header_len (blen buf - header_len) buf)
  end.

(** The segment offset plus the payload stays within the 16-bit offset range. *)
Definition pdu_bounded (sz : rlc_am_sn_size) (buf : bytes) : Prop :=
  forall h, rlc_am_read_data_pdu_header buf sz (rlc_am_pdu_header_init sz) = Some h ->
  hdr_si h <> full_sdu ->
  hdr_so h + (blen buf - rlc_am_pdu_header_get_packed_size h) <= 65536.

(** A stored PDU: the window with the PDU's bytes added. *)
Definition with_pdu (e : rlc_rx_am_entity Win) (h : rlc_am_pdu_header) (payload : bytes)
    : gmap Z rlc_rx_am_sdu_info :=
  <[hdr_sn h := (stored_info h payload (default sdu_info_default (wmap e !! hdr_sn h))).2]> (wmap e).

(** What a stored PDU with SN [q] does to the state, [M] being the window with the PDU: RX_Next moves exactly up
    to the first SDU that is not fully received, the SDUs below leave the window, the others stay as they are (a
    delivered SDU is moved out of its container), and RX_Next_Highest moves past [q] if it was not above. *)
Definition window_after (M : gmap Z rlc_rx_am_sdu_info) (q : Z) (e e' : rlc_rx_am_entity Win) : Prop :=
  (forall k, is_sn s k -> B e k < B e (rx_next (rx_st e')) -> full_at M k /\ wmap e' !! k = None)
  /\ ~ full_at M (rx_next (rx_st e'))
  /\ (forall k, B e (rx_next (rx_st e')) <= B e k -> wmap e' !! k = handed_over_at M q !! k)
  /\ B e (rx_next_highest (rx_st e')) = Z.max (B e (rx_next_highest (rx_st e))) (B e q + 1).

Lemma accepts_bounds e buf h pl :
  rx_core e -> pdu_bounded s buf -> accepts e buf = Some (h, pl) ->
  is_sn s (hdr_sn h) /\ B e (hdr_sn h) < half s /\ 0 <= hdr_so h /\ 0 < blen pl
  /\ (hdr_si h <> full_sdu -> hdr_so h + blen pl <= 65536)
  /\ ~ full_at (wmap e) (hdr_sn h).
Proof.
  intros Hc Hb. unfold accepts. rewrite (rc_cfg _ Hc).
  destruct (rlc_am_read_data_pdu_header buf s _) as [h'|] eqn:Eh; [|done].
  pose proof (am_read_bounds _ _ _ _ Eh) as (Hq & Hsz & Hso & Hso0).
  assert (0 <= rlc_am_pdu_header_get_packed_size h').
  { unfold rlc_am_pdu_header_get_packed_size, rlc_am_pdu_header_max_size, rlc_am_pdu_header_so_size,
      rlc_am_pdu_header_min_size. repeat case_match; lia. }
  do 3 (case_match; [done|]). breflect. intros [= -> <-].
  unfold inside_rx_window in *. rewrite rx_mod_base_eq, rx_window_size_eq in * by (done || apply Hc).
  breflect. rewrite blen_slice by lia. split_and!; try done; try apply Hq; try lia.
  - destruct (si_has_so (hdr_si h)); [destruct (Hso eq_refl)|rewrite Hso0 by done; simpl]; lia.
  - intros Hsi. apply (Hb h); done.
  - unfold wmap. rewrite <- sn_fully_received_iff by apply Hc. congruence.
Qed.

(** Data PDUs that are rejected or discarded leave window and state alone. *)
Lemma handle_data_pdu_discard e buf :
  rx_inv e -> accepts e buf = None ->
  exists e' notes, handle_data_pdu e buf = Some (e', notes) /\ rx_inv e' /\ no_sdu notes
    /\ rx_st e' = rx_st e /\ rx_window e' = rx_window e /\ status_report e' = status_report e.
Proof.
  intros Hi Ha. unfold accepts in Ha. unfold handle_data_pdu.
  assert (forall rq, exists e' notes, on_function_exit false rq e [] = Some (e', notes) /\ rx_inv e'
    /\ no_sdu notes /\ rx_st e' = rx_st e /\ rx_window e' = rx_window e
    /\ status_report e' = status_report e) as Hx.
  { intros rq. destruct (on_function_exit_spec false rq e [] Hi)
      as (e' & notes & ? & ? & ? & ? & ? & ? & ?). by exists e', notes. }
  repeat case_match; try done; apply Hx.
Qed.

(** A stored PDU. *)
Lemma handle_data_pdu_store e buf h pl :
  rx_inv e -> pdu_bounded s buf -> accepts e buf = Some (h, pl) ->
  exists e' notes, handle_data_pdu e buf = Some (e', delivered (with_pdu e h pl) (hdr_sn h) ++ notes)
    /\ rx_inv e' /\ no_sdu notes /\ window_after (with_pdu e h pl) (hdr_sn h) e e'
    /\ do_status e' = negb (hdr_p h =? 0) || do_status e.
Proof.
  intros Hi Hb Ha. pose proof Hi as [Hc _ _ _].
  destruct (accepts_bounds e buf h pl Hc Hb Ha) as (Hq & Hbq & Hso & Hpl & Hlen & _).
  unfold accepts in Ha. unfold handle_data_pdu.
  destruct (rlc_am_read_data_pdu_header buf _ _) as [h'|]; [|done].
  do 3 (case_match; [done|]). injection Ha as -> ->.
  destruct (store_data_spec e h pl Hc Hq Hbq) as (w & -> & Hw & Hm).
  fold (with_pdu e h pl) in Hm.
  assert (segs_from 0 (segments (default sdu_info_default (wmap e !! hdr_sn h)))) as Hsegs.
  { destruct (wmap e !! hdr_sn h) eqn:El; simpl; [by eapply core_segs|done]. }
  pose proof (store_update_spec e (hdr_sn h) w _ Hi Hq Hbq Hw Hm
                (stored_info_segs h pl _ Hsegs Hso Hpl Hlen)) as Hst.
  destruct (next_highest_window e (hdr_sn h) w Hc Hq Hbq) as (nh & Hnh & _ & Hbnh & _).
  rewrite Hnh in Hst |- *. set (e1 := with_st _ _) in *.
  assert (wmap e1 = with_pdu e h pl) as Hm1 by done.
  destruct (deliver_sdu_spec e1 (hdr_sn h) Hst) as (e2 & -> & Hmv & M1 & M2 & M3 & M4 & M5).
  destruct (maybe_stop_reassembly_spec e2 Hmv) as (e3 & -> & Hi3 & He3).
  pose proof (maybe_start_reassembly_spec e3 Hi3) as Hi4.
  destruct (maybe_start_reassembly_frame e3) as (b & x & He4). rewrite He4 in *.
  edestruct on_function_exit_spec as (e' & notes & Hex & Hi' & Hno & Hst' & Hw' & Hds & _); [exact Hi4|].
  rewrite Hex. exists e', notes. rewrite Hm1. clear Hex.
  assert (rx_next (rx_st e') = rx_next (rx_st e2)) as Hnx by (rewrite Hst'; by destruct He3 as [-> | ->]).
  assert (rx_next_highest (rx_st e') = nh) as Hh' by (rewrite Hst'; by destruct He3 as [-> | ->]; simpl; rewrite M4).
  assert (wmap e' = wmap e2) as Hwm by (unfold wmap; rewrite Hw'; by destruct He3 as [-> | ->]).
  change (B e1) with (B e) in *. rewrite Hm1 in *. split_and!; try done.
  - unfold window_after. rewrite Hnx, Hwm, Hh'. split_and!; try done.
    + intros k Hk Hlt. split; [by apply M1|by apply M2].
    + intros (i & Hi1 & Hf)%(handed_over_flags _ (hdr_sn h)). apply (rm_next _ Hmv). exists i. by rewrite M3.
  - rewrite Hds. by destruct He3 as [-> | ->]; simpl; rewrite M5.
Qed.

(** ** t-Reassembly expiry *)

(** The first SDU from the trigger on that is not fully received becomes
    RX_Highest_Status. *)
Lemma expiry_search e :
  rx_inv e -> reassembly_timer e = true ->
  exists hs, first_missing (sn_fuel e) e (rx_next_status_trigger (rx_st e)) = Some hs
    /\ is_sn s hs /\ 0 < B e hs <= B e (rx_next_highest (rx_st e))
    /\ ~ full_at (wmap e) hs
    /\ (forall k, is_sn s k -> B e (rx_next_status_trigger (rx_st e)) <= B e k < B e hs ->
          full_at (wmap e) k).
Proof.
  intros [Hc Hnx Hhs Ht] Hrun. destruct (Ht Hrun) as [Htr _].
  destruct (first_missing_spec e (rc_cfg _ Hc) (rc_next _ Hc) (sn_fuel e)
              (rx_next_status_trigger (rx_st e))) as (hs & -> & H1 & H2 & H3 & H4);
    [apply Hc|apply Hc|lia|by apply sn_fuel_enough|].
  exists hs. split; [done|]. split; [done|]. split; [lia|]. split; [|done].
  destruct (decide (B e hs = B e (rx_next_highest (rx_st e)))).
  - by apply next_highest_absent.
  - apply H4. lia.
Qed.

Lemma with_highest_status_inv e hs :
  rx_inv e -> is_sn s hs -> 0 < B e hs <= B e (rx_next_highest (rx_st e)) -> ~ full_at (wmap e) hs ->
  rx_inv (with_st (with_reassembly_timer e false) (set_highest_status (rx_st e) hs)).
Proof.
  intros [Hc Hnx Hhs Ht] H1 H2 H3. split; try done. split; try apply Hc; try done. simpl. lia.
Qed.

Lemma restart_inv e :
  rx_inv e -> 0 < B e (rx_next_highest (rx_st e)) ->
  rx_inv (with_st (with_reassembly_timer e true) (set_status_trigger (rx_st e) (rx_next_highest (rx_st e)))).
Proof.
  intros [Hc Hnx Hhs Ht] Hpos. split; try done.
  - split; apply Hc.
  - intros _. unfold wmap. simpl. split; [lia|]. apply (rc_last _ Hc).
    intros E0. rewrite E0, base_self in Hpos. lia.
Qed.

(** The timer has expired (it is no longer running when the handler is called). *)
Definition reassembly_expired (e : rlc_rx_am_entity Win) : rlc_rx_am_entity Win :=
  with_reassembly_timer e false.

Lemma expiry_spec e :
  rx_inv e -> reassembly_timer e = true ->
  exists e' hs notes, on_expired_reassembly_timer (reassembly_expired e) = Some (e', notes)
    /\ first_missing (sn_fuel e) e (rx_next_status_trigger (rx_st e)) = Some hs
    /\ rx_inv e' /\ no_sdu notes
    /\ rx_next (rx_st e') = rx_next (rx_st e) /\ rx_highest_status (rx_st e') = hs
    /\ rx_window e' = rx_window e /\ do_status e' = true
    /\ status_report e' = build_status s (window_nacks e') hs.
Proof.
  intros Hi Hrun. destruct (expiry_search e Hi Hrun) as (hs & Hfm & Hsn & Hb & Hnf & _).
  pose proof Hi as [Hc _ _ Ht]. destruct (Ht Hrun) as [Htr _]. pose proof (rc_nh_le _ Hc).
  unfold on_expired_reassembly_timer, reassembly_expired. simpl.
  assert (forall x, rx_valid_ack_sn (with_reassembly_timer e false) x = true
                    <-> 0 < B e x <= half s) as Hva.
  { intros x. unfold rx_valid_ack_sn. rewrite rx_mod_base_eq by apply Hc.
    change (rx_am_window_size (with_reassembly_timer e false)) with (rx_am_window_size e).
    rewrite rx_window_size_eq by done. simpl. rewrite andb_true_iff, Z.ltb_lt, Z.leb_le. done. }
  rewrite (proj2 (Hva (rx_next_status_trigger (rx_st e)))) by lia. simpl.
  assert (first_missing (sn_fuel (with_reassembly_timer e false)) (with_reassembly_timer e false)
            (rx_next_status_trigger (rx_st e)) = Some hs) as ->.
  { rewrite <- Hfm. change (sn_fuel (with_reassembly_timer e false)) with (sn_fuel e).
    generalize (sn_fuel e) (rx_next_status_trigger (rx_st e)). intros n.
    induction n as [|n IH]; intros x; simpl; [done|].
    change (rx_mod (with_reassembly_timer e false)) with (rx_mod e). by rewrite IH. }
  rewrite (proj2 (Hva hs)) by lia. simpl.
  pose proof (with_highest_status_inv e hs Hi Hsn Hb Hnf) as Hi1.
  set (e1 := with_st (with_reassembly_timer e false) _) in *.
  match goal with |- context [refresh_status_report ?x] => set (e2 := x) end.
  assert (rx_inv e2 /\ rx_next (rx_st e2) = rx_next (rx_st e) /\ rx_highest_status (rx_st e2) = hs
          /\ rx_window e2 = rx_window e) as (Hi2 & H1 & H2 & H3).
  { unfold e2. case_match; [|done]. split; [|done]. apply (restart_inv e1 Hi1). simpl. lia. }
  rewrite refresh_status_report_spec by apply Hi2.
  eexists _, hs, _. split; [reflexivity|]. split; [done|]. split; [|split; [apply notify_no_sdu|]].
  - apply with_do_status_inv, store_status_report_inv; [done| |apply Hi2]. apply window_nacks_ok, Hi2.
  - split_and!; try done. simpl. by rewrite H2.
Qed.

(** ** Runs of the receiving entity *)
Inductive rx_op :=
  | rx_handle_pdu (buf : bytes)
  | rx_reassembly_expiry
  | rx_status_prohibit_expiry
  | rx_get_status_pdu (defer_ok : bool).

(** One call on the entity; timers only expire while they run. *)
Definition rx_exec (e : rlc_rx_am_entity Win) (op : rx_op) : option (rlc_rx_am_entity Win * list rx_event) :=
  match op with
  | rx_handle_pdu buf => handle_pdu e buf
  | rx_reassembly_expiry =>
      if reassembly_timer e then on_expired_reassembly_timer (reassembly_expired e) else Some (e, [])
  | rx_status_prohibit_expiry =>
      if status_prohibit_timer e then Some (on_expired_status_prohibit_timer e) else Some (e, [])
  | rx_get_status_pdu defer_ok => Some ((get_status_pdu defer_ok e).2, [])
  end.

Definition op_bounded (op : rx_op) : Prop :=
  match op with rx_handle_pdu buf => pdu_bounded s buf | _ => True end.

Lemma with_prohibit_inv e a b : rx_inv e -> rx_inv (with_prohibit e a b).
Proof. intros [Hc Hnx Hhs Ht]. split; try done. split; apply Hc. Qed.

Lemma handle_data_pdu_safe e buf :
  rx_inv e -> pdu_bounded s buf -> exists e' evs, handle_data_pdu e buf = Some (e', evs) /\ rx_inv e'.
Proof.
  intros Hi Hb. destruct (accepts e buf) as [[h pl]|] eqn:Ea.
  - destruct (handle_data_pdu_store e buf h pl Hi Hb Ea) as (e' & notes & -> & ? & _). eauto.
  - destruct (handle_data_pdu_discard e buf Hi Ea) as (e' & notes & -> & ? & _). eauto.
Qed.

Lemma rx_exec_safe e op :
  rx_inv e -> op_bounded op -> exists e' evs, rx_exec e op = Some (e', evs) /\ rx_inv e'.
Proof.
  intros Hi Hb. destruct op as [buf| | |defer_ok]; simpl.
  - unfold handle_pdu. destruct buf as [|b r]; [by eauto|].
    case_match; [|by apply handle_data_pdu_safe].
    unfold handle_control_pdu. case_match; by eauto.
  - destruct (reassembly_timer e) eqn:Er; [|by eauto].
    destruct (expiry_spec e Hi Er) as (e' & hs & notes & -> & _ & ? & _). eauto.
  - case_match; [|by eauto]. eexists _, _. split; [reflexivity|]. by apply with_prohibit_inv.
  - eexists _, _. split; [reflexivity|]. simpl.
    case_match; [apply with_prohibit_inv|]; by apply with_do_status_inv.
Qed.

Fixpoint rx_run (e : rlc_rx_am_entity Win) (ops : list rx_op) : option (rlc_rx_am_entity Win * list rx_event) :=
  match ops with
  | [] => Some (e, [])
  | op :: ops =>
      match rx_exec e op with
      | None => None
      | Some (e, evs) => match rx_run e ops with
                         | None => None
                         | Some (e, evs') => Some (e, evs ++ evs')
                         end
      end
  end.

Lemma rx_run_safe e ops :
  rx_inv e -> Forall op_bounded ops -> exists e' evs, rx_run e ops = Some (e', evs) /\ rx_inv e'.
Proof.
  revert e. induction ops as [|op ops IH]; intros e Hi Hops; simpl; [by eauto|].
  apply list.Forall_cons in Hops as [Hop Hops].
  destruct (rx_exec_safe e op Hi Hop) as (e1 & evs1 & -> & Hi1).
  destruct (IH e1 Hi1 Hops) as (e2 & evs2 & -> & Hi2). by eauto.
Qed.
End RxInv.
