(* ===== verification/RlcRxAmReport.v ===== *)
(** * RLC AM receiving entity: contents of the STATUS report

    The report that [refresh_status_report] builds names exactly the bytes that
    are missing from the SDUs below RX_Highest_Status. *)
From S2P Require Import Prelude CircularMap RlcAmWindow RlcAmPdu RlcAmStatus RlcAmStatusThms RlcSegments RlcRxAm RlcRxAmThms.

(** Byte [o] is missing from a window entry: it lies before the end of the SDU,
    as far as the end is known, and no received segment covers it. *)
Definition byte_missing (entry : option rlc_rx_am_sdu_info) (o : Z) : Prop :=
  match entry with
  | None => True
  | Some i => fully_received i = false /\ ~ covered (segments i) o
              /\ (has_last (segments i) = true -> o < seg_end 0 (segments i))
  end.

(** ** Gaps of a segment list *)
Lemma covered_below_lo lo l o : segs_from lo l -> o < lo -> ~ covered l o.
Proof. intros Hs Ho. by apply (not_covered_below lo). Qed.

Lemma seg_end_ge lo l : segs_from lo l -> lo <= seg_end lo l.
Proof.
  revert lo. induction l as [|x r IH]; intros lo Hs; simpl; [lia|].
  destruct Hs as (H1 & (W1 & W2 & W3) & Hr). apply IH in Hr. lia.
Qed.

Lemma covered_lt_end lo l o : segs_from lo l -> covered l o -> o < seg_end lo l.
Proof.
  revert lo. induction l as [|x r IH]; intros lo Hs Hc; simpl; [by apply covered_nil in Hc|].
  destruct Hs as (H1 & (W1 & W2 & W3) & Hr). apply covered_cons in Hc as [Hc|Hc].
  - apply seg_end_ge in Hr. unfold in_seg in Hc. lia.
  - by apply IH.
Qed.

(** A NACK without range. *)
Lemma nack_covers_single s n sn o :
  nack_ok s n -> has_nack_range n = false ->
  nack_covers s n sn o <-> sn = nack_sn n /\ so_start n <= o <= so_end n.
Proof.
  intros [Hn _ _ _ _ _] Hr. unfold nack_covers, nack_len. rewrite Hr. split.
  - intros (i & Hi & -> & Hs & He). assert (i = 0) as -> by lia.
    rewrite Z.add_0_r, Z.mod_small by done. split; [done|]. split; [by apply Hs|by apply He].
  - intros (-> & Hs & He). exists 0. rewrite Z.add_0_r, Z.mod_small by done. split_and!; lia || done.
Qed.

Lemma seg_gaps_covers s q lo l sn o :
  is_sn s q -> 0 <= lo -> segs_from lo l ->
  Exists (fun n => nack_covers s n sn o) (seg_gaps q lo l)
  <-> sn = q /\ lo <= o < seg_end lo l /\ ~ covered l o.
Proof.
  intros Hq. revert lo. induction l as [|x r IH]; intros lo Hlo Hs; simpl.
  { rewrite Exists_nil. split; [done|lia]. }
  destruct Hs as (H1 & (W1 & W2 & W3) & Hr). rewrite Exists_app, IH by (done || lia).
  rewrite covered_cons. pose proof (seg_end_ge _ _ Hr). unfold in_seg.
  pose proof (covered_below_lo _ _ o Hr).
  case_decide as Hd; rewrite ?Exists_cons, Exists_nil.
  - subst lo. split; [intros [?|(? & ? & ?)]; [done|]|intros (? & ? & ?); right]; split_and!; try done; try lia.
    + intros [?|?]; [lia|done].
    + tauto.
  - rewrite nack_covers_single; simpl; [|split; simpl; try done; unfold is_u16, is_u8; lia|done]. split.
    + intros [[(? & ? & ?)|?]|(? & ? & ?)]; [|done|].
      * split_and!; try done; try lia. intros [?|?]; [lia|]. apply (covered_below_lo _ _ o Hr); [lia|done].
      * split_and!; try done; try lia. intros [?|?]; [lia|done].
    + intros (? & ? & Hn). destruct (decide (o < seg_so x)).
      * left; left. split_and!; try done; lia.
      * right. split_and!; try done; try lia. tauto.
Qed.

(** The NACKs of a window entry. *)
Lemma sdu_nacks_covers s q entry sn o :
  is_sn s q -> 0 <= o < so_end_of_sdu ->
  (forall i, entry = Some i -> segs_from 0 (segments i) /\ seg_end 0 (segments i) <= so_end_of_sdu) ->
  Exists (fun n => nack_covers s n sn o) (sdu_nacks q entry) <-> sn = q /\ byte_missing entry o.
Proof.
  intros Hq Ho Hwf. destruct entry as [i|]; simpl.
  - destruct (Hwf i eq_refl) as [Hs He]. pose proof (seg_end_ge _ _ Hs). unfold so_end_of_sdu in *.
    destruct (fully_received i); [rewrite Exists_nil; naive_solver|].
    rewrite Exists_app, seg_gaps_covers by (done || lia).
    pose proof (covered_lt_end _ _ o Hs) as Hlt.
    destruct (has_last (segments i)); rewrite ?Exists_cons, Exists_nil.
    + split; [intros [(? & ? & ?)|?]; [|done]|intros (? & ? & ? & Hl); left]; split_and!; try done; try lia.
    + rewrite u16_id by (unfold is_u16; lia).
      rewrite nack_covers_single; simpl; [|split; simpl; try done; unfold is_u16, is_u8; lia|done]. split.
      * intros [(? & ? & ?)|[(? & ? & ?)|?]]; [..|done]; split_and!; try done. intros Hc. specialize (Hlt Hc). lia.
      * intros (? & ? & ? & _). destruct (decide (o < seg_end 0 (segments i))); [left|right; left];
          split_and!; try done; lia.
  - rewrite Exists_cons, Exists_nil, nack_covers_single; simpl; [|split; simpl; try done; unfold is_u16, is_u8, so_end_of_sdu; lia|done].
    unfold so_end_of_sdu in *. split; [intros [(? & ? & ?)|?]; [done|done]|intros (? & _); left]. split_and!; try done; lia.
Qed.

(** ** Pushing the NACKs of a range of SNs *)
Section Range.
  Context (s : rlc_am_sn_size) (r : Z) (Hr : is_sn s r).

(** Every NACK in the report starts at or after [r] and ends at or before the
    SDU [cur] SNs above [r]. *)
Definition nacks_upto (cur : Z) (l : list rlc_am_status_nack) : Prop :=
  Forall (fun p => 1 <= nack_len p /\ base s r (nack_sn p) + nack_len p <= cur + 1) l.

Lemma nacks_upto_weaken a b l : nacks_upto a l -> a <= b -> nacks_upto b l.
Proof. intros H Hab. eapply list.Forall_impl; [exact H|]. simpl. intros. lia. Qed.

Lemma push_nack_upto st n cur :
  status_ok st -> st_sn_size st = s -> nack_ok s n -> has_nack_range n = false ->
  base s r (nack_sn n) = cur -> cur <= 253 -> nacks_upto cur (nacks st) ->
  nacks_upto cur (nacks (push_nack st n)).
Proof.
  intros Hst Hs Hn Hnr Hb Hcur Hl. pose proof (so_nacks _ Hst) as Hnacks.
  assert (nack_len n = 1) as Hl1 by (unfold nack_len; by rewrite Hnr).
  destruct (nacks st) as [|prev l _] eqn:E using rev_ind.
  { rewrite push_nack_empty by done. constructor; [|constructor]. lia. }
  destruct (is_continuous_sequence st prev n) eqn:Ec.
  2:{ rewrite (push_nack_append st l prev n) by done. simpl. rewrite E.
      apply Forall_app. split; [done|]. constructor; [|constructor]. lia. }
  rewrite (push_nack_merge st l prev n) by done. simpl.
  apply Forall_app in Hl as [Hl Hp]. rewrite list.Forall_singleton in Hp. destruct Hp as [Hp1 Hp2].
  apply Forall_app in Hnacks as [_ Hpo]. rewrite list.Forall_singleton in Hpo.
  rewrite Hs in Hpo. pose proof (base_range s r (nack_sn prev)).
  destruct (is_continuous_inv st prev n) as (H1 & H2 & H3); [by rewrite Hs..|done|].
  destruct (expand_nack_fields prev n s Hpo Hn) as (F1 & F2 & F3 & F4); try done; try lia.
  apply Forall_app. split; [done|]. constructor; [|constructor]. rewrite F1, F2, Hl1. split; [lia|].
  rewrite Hs in H1. assert (cur = base s r (nack_sn prev) + nack_len prev) as ->; [|lia].
  rewrite <- Hb, H1. unfold base. rewrite Zminus_mod_idemp_l.
  replace (nack_sn prev + nack_len prev - r) with ((nack_sn prev - r) + nack_len prev) by lia.
  rewrite <- Zplus_mod_idemp_l. fold (base s r (nack_sn prev)). apply Z.mod_small.
  rewrite am_mod_values in *. destruct s; lia.
Qed.

Lemma fold_push_covers q ns st sn o :
  is_sn s q -> status_ok st -> st_sn_size st = s -> 0 <= o <= so_end_of_sdu ->
  Forall (nack_ok s) ns -> Forall (fun n => has_nack_range n = false /\ nack_sn n = q) ns ->
  base s r q <= 253 -> nacks_upto (base s r q) (nacks st) ->
  (status_covers (fold_left push_nack ns st) sn o
   <-> status_covers st sn o \/ Exists (fun n => nack_covers s n sn o) ns)
  /\ nacks_upto (base s r q) (nacks (fold_left push_nack ns st)).
Proof.
  intros Hq. revert st. induction ns as [|n ns IH]; intros st Hst Hs Ho Hok Hns Hb Hl; simpl.
  { rewrite Exists_nil. tauto. }
  apply list.Forall_cons in Hok as [Hn Hok]. apply list.Forall_cons in Hns as [[Hnr <-] Hns].
  assert (nack_len n = 1) as Hl1 by (unfold nack_len; by rewrite Hnr).
  assert (nack_ok (st_sn_size st) n) as Hn' by (by rewrite Hs).
  destruct (IH (push_nack st n)) as [I1 I2]; try done.
  - by apply push_nack_ok.
  - destruct (push_nack_size_ack st n) as [-> _]. done.
  - by apply push_nack_upto.
  - split; [|done]. rewrite I1, push_nack_covers_spec; try done; try lia.
    + rewrite Exists_cons, Hs. tauto.
    + eapply list.Forall_impl; [exact Hl|]. simpl. intros p [? ?].
      pose proof (base_range s r (nack_sn p)). lia.
Qed.

Lemma seg_gaps_single q lo l :
  Forall (fun n => has_nack_range n = false /\ nack_sn n = q) (seg_gaps q lo l).
Proof.
  revert lo. induction l as [|x l IH]; intros lo; simpl; [constructor|].
  apply Forall_app. split; [|apply IH]. case_decide; repeat constructor.
Qed.

Lemma sdu_nacks_single q entry :
  Forall (fun n => has_nack_range n = false /\ nack_sn n = q) (sdu_nacks q entry).
Proof.
  destruct entry as [i|]; simpl; [|repeat constructor].
  destruct (fully_received i); [constructor|]. apply Forall_app. split; [apply seg_gaps_single|].
  destruct (has_last _); repeat constructor.
Qed.

Lemma fold_push_st ns st : status_ok st -> st_sn_size st = s -> Forall (nack_ok s) ns ->
  status_ok (fold_left push_nack ns st) /\ st_sn_size (fold_left push_nack ns st) = s.
Proof. intros H1 <- H3. by destruct (fold_push_ok ns st H1 H3) as (? & ?). Qed.

Context (M : gmap Z rlc_rx_am_sdu_info).
Context (HM : forall k i, M !! k = Some i -> segs_from 0 (segments i) /\ seg_end 0 (segments i) <= so_end_of_sdu).

Lemma range_covers n q st sn o :
  is_sn s q -> base s r q + Z.of_nat n <= 254 -> 0 <= o < so_end_of_sdu ->
  status_ok st -> st_sn_size st = s -> nacks_upto (base s r q) (nacks st) ->
  status_covers (fold_left push_nack (range_nacks s M n q) st) sn o
  <-> status_covers st sn o
      \/ (is_sn s sn /\ base s r q <= base s r sn < base s r q + Z.of_nat n /\ byte_missing (M !! sn) o).
Proof.
  revert q st. induction n as [|n IH]; intros q st Hq Hb Ho Hst Hsz Hup; simpl.
  { split; [tauto|]. intros [?|(_ & ? & _)]; [done|lia]. }
  rewrite fold_left_app.
  assert (base s r ((q + 1) mod am_mod s) = base s r q + 1) as Hsucc.
  { apply base_succ; [done..|]. rewrite am_mod_values. destruct s; lia. }
  assert (Forall (nack_ok s) (sdu_nacks q (M !! q))) as Hok.
  { apply sdu_nacks_ok; [done|]. intros i Hi. by destruct (HM _ _ Hi). }
  destruct (fold_push_covers q (sdu_nacks q (M !! q)) st sn o) as [F1 F2]; try done; try lia.
  { apply sdu_nacks_single. }
  destruct (fold_push_st _ st Hst Hsz Hok) as [Hst' Hsz'].
  rewrite IH; try done; [|apply sn_succ|lia|eapply nacks_upto_weaken; [exact F2|lia]].
  rewrite F1, sdu_nacks_covers; [|done|done|by apply HM]. rewrite Hsucc. split.
  - intros [[?|[-> ?]]|(? & ? & ?)]; [by left|right; split_and!; done || lia|right; split_and!; done || lia].
  - intros [?|(? & ? & ?)]; [by left; left|].
    destruct (decide (base s r sn = base s r q)) as [E|]; [|right; split_and!; done || lia].
    left; right. apply base_inj in E as ->; done.
Qed.
End Range.
