(* ===== verification/RlcRxAmSpec.v ===== *)
(** * RLC AM receiving entity: what it guarantees

    The top-level theorems on the receiving entity, for any window that keeps
    the promises of [rlc_am_window_laws] (the circular-map window does), and
    their instances on the circular-map window. *)
From S2P Require Import Prelude CircularMap RlcAmWindow RlcAmPdu RlcAmStatus RlcAmStatusThms RlcSegments RlcRxAm RlcRxAmThms RlcRxAmReport.

Section Spec.
  Context {Win : Type} {WB : rlc_am_window_base rlc_rx_am_sdu_info Win}.
  Context (s : rlc_am_sn_size) {WL : rlc_am_window_laws WB (half s) sdu_info_default}.

(** C1: the receiving entity never fails an assertion.  From a new entity,
    every sequence of received PDUs (any bytes, control or data, as long as no
    segment reaches beyond the 16-bit offset range), t-Reassembly expiries,
    t-StatusProhibit expiries and status requests runs to its end: no
    [srsran_assert] of the entity or of its window fails, every loop over
    sequence numbers ends within the SN space, and the state variables stay
    ordered RX_Next <= RX_Highest_Status <= RX_Next_Highest <= RX_Next + window. *)
Theorem rx_am_run_safe (cfg : rlc_rx_am_config) (w : Win) (ops : list rx_op) :
  rx_sn_field_length cfg = s -> win_ok w -> win_map w = ∅ -> Forall (op_bounded s) ops ->
  exists e evs, rx_run (rx_am_new cfg w) ops = Some (e, evs) /\ rx_inv s e.
Proof.
  intros Hcfg Hw He Hops. apply (rx_run_safe s); [|done]. by apply rx_inv_init.
Qed.

(** C4: handling a data PDU whose segment stays within the 16-bit offset range.  A PDU that is malformed, empty,
    outside the receive window or for an SDU already received changes neither the state variables nor the window and
    delivers nothing.  Any other PDU is added to the container of its SDU ([container_after]: exactly its bytes are
    added, the SDU is complete exactly when all its bytes have arrived); the SDU is handed to the upper layer exactly
    when this PDU completes it; RX_Next moves exactly to the first SDU that is not fully received, dropping the SDUs
    below it from the window and keeping all the others with their segments; RX_Next_Highest moves past the PDU; a
    poll requests a status report. *)
Theorem rx_am_data_pdu_correct (e : rlc_rx_am_entity Win) (buf : bytes) :
  rx_inv s e -> pdu_bounded s buf ->
  match accepts e buf with
  | None => exists e' notes, handle_data_pdu e buf = Some (e', notes) /\ rx_inv s e' /\ no_sdu notes
      /\ rx_st e' = rx_st e /\ rx_window e' = rx_window e /\ status_report e' = status_report e
  | Some (h, payload) =>
      exists i' e' notes,
        container_after h payload (default sdu_info_default (wmap s e !! hdr_sn h)) i'
        /\ handle_data_pdu e buf = Some (e', (if fully_received i' then [on_new_sdu (sdu i')] else []) ++ notes)
        /\ rx_inv s e' /\ no_sdu notes /\ window_after s (<[hdr_sn h := i']> (wmap s e)) (hdr_sn h) e e'
        /\ do_status e' = negb (hdr_p h =? 0) || do_status e
  end.
Proof.
  intros Hi Hb. destruct (accepts e buf) as [[h pl]|] eqn:Ea; [|by apply (handle_data_pdu_discard s e buf)].
  destruct (handle_data_pdu_store s e buf h pl Hi Hb Ea) as (e' & notes & Hh & Hi' & Hno & Hwa & Hds).
  destruct (accepts_bounds s e buf h pl (ri_core _ _ Hi) Hb Ea) as (Hq & Hbq & Hso & Hpl & Hlen & Hnf).
  unfold delivered, with_pdu in Hh. rewrite lookup_insert_eq in Hh. eexists _, e', notes. split_and!; try done.
  apply stored_info_container; try done; destruct (wmap s e !! hdr_sn h) as [i|] eqn:El; simpl; try done.
  - eapply core_segs; [apply Hi|done].
  - destruct (fully_received i) eqn:Ef; [|done]. destruct Hnf. by exists i.
Qed.

(** The window never moves past RX_Next_Highest. *)
Lemma window_after_le e h pl e' :
  rx_core s e -> is_sn s (hdr_sn h) -> base s (rx_next (rx_st e)) (hdr_sn h) < half s ->
  rx_inv s e' -> window_after s (with_pdu s e h pl) (hdr_sn h) e e' ->
  base s (rx_next (rx_st e)) (rx_next (rx_st e')) <= half s.
Proof.
  intros Hc Hq Hbq [Hc' _ _ _] (Hall & _ & _). apply Z.nlt_ge. intros Hgt.
  pose proof (half_twice s). pose proof (half_pos s). pose proof (rc_next _ _ Hc) as Hr.
  assert (is_sn s ((rx_next (rx_st e) + half s) mod am_mod s)) as Hk
    by (apply Z.mod_pos_bound, am_mod_pos).
  assert (base s (rx_next (rx_st e)) ((rx_next (rx_st e) + half s) mod am_mod s) = half s) as Hb.
  { unfold base. rewrite Zminus_mod_idemp_l. rewrite Z.mod_small; lia. }
  destruct (Hall _ Hk) as [(i & Hi & _) _]; [lia|]. revert Hi. unfold with_pdu. rewrite lookup_insert.
  case_decide as Hd; [intros _; rewrite Hd in Hbq; lia|].
  intros Hi. destruct (rc_keys _ _ Hc _ _ Hi) as (_ & ? & _). pose proof (rc_nh_le _ _ Hc). lia.
Qed.

(** No SDU is delivered twice.  After a data PDU has completed its SDU,
    every PDU with the same SN (a retransmission, in any segmentation) is
    discarded: it is either below the receive window or marked as received. *)
Theorem rx_am_no_second_delivery (e e' : rlc_rx_am_entity Win) (buf buf' : bytes)
    (h h' : rlc_am_pdu_header) (payload : bytes) (evs : list rx_event) (d : bytes) :
  rx_inv s e -> pdu_bounded s buf -> accepts e buf = Some (h, payload) ->
  handle_data_pdu e buf = Some (e', evs) -> on_new_sdu d ∈ evs ->
  rlc_am_read_data_pdu_header buf' s (rlc_am_pdu_header_init s) = Some h' -> hdr_sn h' = hdr_sn h ->
  accepts e' buf' = None.
Proof.
  intros Hi Hb Ha Hh Hd Hr Hq'.
  destruct (accepts_bounds s e buf h payload (ri_core _ _ Hi) Hb Ha) as (Hq & Hbq & _).
  destruct (handle_data_pdu_store s e buf h payload Hi Hb Ha) as (e1 & notes & Hh' & Hi' & Hno & Hwa & _).
  rewrite Hh' in Hh. injection Hh as -> <-.
  assert (full_at (with_pdu s e h payload) (hdr_sn h)) as Hf.
  { apply elem_of_app in Hd as [Hd|Hd]; [|by destruct (Hno d)]. unfold delivered in Hd.
    destruct (with_pdu s e h payload !! hdr_sn h) as [i|] eqn:El; [|set_solver].
    exists i. split; [done|]. destruct (fully_received i); [done|set_solver]. }
  pose proof (window_after_le e h payload e' (ri_core _ _ Hi) Hq Hbq Hi' Hwa) as Hle.
  destruct Hwa as (Hbelow & _ & Habove & _). pose proof (ri_core _ _ Hi') as Hc'.
  unfold accepts. rewrite (rc_cfg _ _ Hc'), Hr. case_match; [done|]. rewrite Hq'.
  destruct (decide (base s (rx_next (rx_st e)) (hdr_sn h) < base s (rx_next (rx_st e)) (rx_next (rx_st e'))))
    as [Hlt|Hge].
  - unfold inside_rx_window.
    rewrite (rx_mod_base_eq s), (rx_window_size_eq s) by (done || apply Hc').
    rewrite (base_shift s (rx_next (rx_st e))) by (done || apply Hi || apply Hc').
    rewrite decide_False by lia. pose proof (half_twice s).
    pose proof (base_range s (rx_next (rx_st e)) (hdr_sn h)).
    rewrite (proj2 (Z.ltb_ge _ (half s))) by lia. done.
  - assert (sn_fully_received (rx_window e') (hdr_sn h) = true) as ->.
    { apply (sn_fully_received_iff s); [apply Hc'|]. apply (handed_over_flags _ (hdr_sn h)) in Hf as (i & Hi1 & Hf1).
      exists i. split; [|done]. by rewrite Habove by lia. }
    by destruct (negb _).
Qed.

(** T-Reassembly expiry.  RX_Highest_Status moves to the first SDU from
    RX_Next_Status_Trigger on that is not fully received, the status report is
    rebuilt for the SDUs below it and a status report is requested; nothing is
    delivered and RX_Next stays. *)
Theorem rx_am_reassembly_expiry_correct (e : rlc_rx_am_entity Win) :
  rx_inv s e -> reassembly_timer e = true ->
  exists e' hs notes, on_expired_reassembly_timer (reassembly_expired e) = Some (e', notes)
    /\ rx_inv s e' /\ no_sdu notes /\ rx_next (rx_st e') = rx_next (rx_st e)
    /\ rx_highest_status (rx_st e') = hs /\ rx_window e' = rx_window e
    /\ base s (rx_next (rx_st e)) (rx_next_status_trigger (rx_st e)) <= base s (rx_next (rx_st e)) hs
    /\ (forall k, is_sn s k -> base s (rx_next (rx_st e)) (rx_next_status_trigger (rx_st e))
          <= base s (rx_next (rx_st e)) k < base s (rx_next (rx_st e)) hs -> full_at (wmap s e) k)
    /\ ~ full_at (wmap s e) hs
    /\ do_status e' = true /\ status_report e' = build_status s (window_nacks s e') hs.
Proof.
  intros Hi Hr. destruct (expiry_spec s e Hi Hr)
    as (e' & hs & notes & Hex & Hfm & Hi' & Hno & H1 & H2 & H3 & H4 & H5).
  destruct (expiry_search s e Hi Hr) as (hs' & Hfm' & Hsn & Hb & Hnf & Hall).
  rewrite Hfm in Hfm'. injection Hfm' as <-.
  exists e', hs, notes. split_and!; try done.
  destruct Hi as [Hc _ _ Ht]. destruct (Ht Hr) as [Htr _].
  destruct (first_missing_spec s e (rc_cfg _ _ Hc) (rc_next _ _ Hc) (sn_fuel e)
              (rx_next_status_trigger (rx_st e))) as (x & Hx & _ & Hle & _);
    [apply Hc|apply Hc|lia|by apply (sn_fuel_enough s)|].
  rewrite Hfm in Hx. injection Hx as <-. lia.
Qed.
(** C7: the status report is exact.  For a window of at most 254 SDUs below
    RX_Highest_Status (so that no 8-bit NACK range overflows) and SDUs of at most
    65535 bytes, [refresh_status_report] succeeds and the report acknowledges
    RX_Highest_Status and NACKs byte [o] of the SDU with SN [q] if and only if
    that SDU lies between RX_Next and RX_Highest_Status and the byte has not been
    received: nothing received is requested again and nothing missing is
    acknowledged. *)
Theorem rx_am_status_report_exact (e : rlc_rx_am_entity Win) (q o : Z) :
  rx_inv s e ->
  base s (rx_next (rx_st e)) (rx_highest_status (rx_st e)) <= 254 ->
  (forall k i, wmap s e !! k = Some i -> seg_end 0 (segments i) <= so_end_of_sdu) ->
  0 <= o < so_end_of_sdu ->
  exists e', refresh_status_report e = Some e'
    /\ ack_sn (status_report e') = rx_highest_status (rx_st e)
    /\ (status_covers (status_report e') q o
        <-> is_sn s q
            /\ base s (rx_next (rx_st e)) q < base s (rx_next (rx_st e)) (rx_highest_status (rx_st e))
            /\ byte_missing (wmap s e !! q) o).
Proof.
  intros [Hc _ _ _] Hb Hend Ho. rewrite (refresh_status_report_spec s) by done.
  eexists. split; [reflexivity|]. split; [done|].
  pose proof (base_range s (rx_next (rx_st e)) (rx_highest_status (rx_st e))).
  pose proof (base_range s (rx_next (rx_st e)) q).
  transitivity (status_covers (fold_left push_nack (window_nacks s e) (rlc_am_status_pdu_new s)) q o);
    [done|].
  unfold window_nacks. rewrite (range_covers s (rx_next (rx_st e))); try done;
    rewrite ?base_self, ?Z2Nat.id by lia; try lia; try apply Hc.
  - unfold status_covers at 1. simpl. rewrite Exists_nil. split; [intros [?|?]; [done|tauto]|].
    intros (? & ? & ?). right. split_and!; done || lia.
  - intros k i Hi. split; [by eapply core_segs|by eapply Hend].
  - constructor.
Qed.
End Spec.

(** ** The circular-map window *)
Section Concrete.
#[local] Instance win12 : rlc_am_window_base rlc_rx_am_sdu_info (circular_map rlc_rx_am_sdu_info) :=
  rlc_am_window (half size12bits) sdu_info_default.
#[local] Instance win12_lawful : rlc_am_window_laws win12 (half size12bits) sdu_info_default :=
  rlc_am_window_lawful (half size12bits) sdu_info_default.

Definition demo_new : rlc_rx_am_entity (circular_map rlc_rx_am_sdu_info) :=
  rx_am_new (RxAmConfig size12bits 35 10) cm_empty.
(** The entity after a run. *)
Definition demo (ops : list rx_op) : rlc_rx_am_entity (circular_map rlc_rx_am_sdu_info) :=
  match rx_run demo_new ops with Some (e, _) => e | None => demo_new end.

Ltac bounded_tac :=
  repeat constructor; intros h Hh; vm_compute in Hh; injection Hh as <-; vm_compute; done || congruence.

Lemma demo_inv ops : Forall (op_bounded size12bits) ops -> rx_inv size12bits (demo ops).
Proof.
  intros Hops. unfold demo. destruct (rx_run_safe size12bits demo_new ops) as (e & evs & -> & Hi); [|done..].
  by apply rx_inv_init.
Qed.

(** A full SDU with SN 1 (poll bit set), then a last segment of SN 0. *)
Definition demo_ops : list rx_op :=
  [rx_handle_pdu [0xc0; 1; 10; 11]; rx_handle_pdu [0xa0; 0; 0; 2; 22; 23]].

Lemma demo_ops_bounded : Forall (op_bounded size12bits) demo_ops.
Proof. bounded_tac. Qed.

Lemma rx_am_run_safe_witness :
  exists e evs, rx_run demo_new (demo_ops ++ [rx_reassembly_expiry; rx_get_status_pdu true]) = Some (e, evs)
    /\ rx_inv size12bits e.
Proof.
  apply (rx_am_run_safe size12bits (RxAmConfig size12bits 35 10) cm_empty
           (demo_ops ++ [rx_reassembly_expiry; rx_get_status_pdu true])); [done|apply cm_empty_ok|done|].
  apply Forall_app; split; [apply demo_ops_bounded|repeat constructor].
Defined.

(** The first segment of SN 0 arrives: both SDUs are complete. *)
Definition demo_first : bytes := [0x90; 0; 20; 21].

Lemma demo_first_bounded : pdu_bounded size12bits demo_first.
Proof. bounded_tac. Qed.

Lemma demo_container i' :
  container_after (AmHeader dc_data 0 first_segment size12bits 0 0) [20; 21] (SduInfo false true [Seg last_segment 2 [22; 23]] []) i' ->
  fully_received i' = true /\ sdu i' = [20; 21; 22; 23].
Proof.
  intros (_ & _ & Hd). destruct (Hd [20; 21; 22; 23]) as [[Hfull Hpart] Hcov]; [done|..].
  - split; [done|]. intros _. simpl. unfold seg_wf, seg_len, blen. simpl. split_and!; try done; try lia.
    + constructor; [|constructor]. vm_compute. repeat split; congruence.
    + intros Hall. specialize (Hall 0). rewrite covered_cons, covered_nil in Hall. unfold in_seg, seg_len, blen in Hall. simpl in Hall. lia.
    + split; [|done]. intros _. exists 0, 2. rewrite !covered_cons, !covered_nil. unfold in_seg, seg_len, blen. simpl. lia.
  - vm_compute. repeat split; congruence.
  - destruct (fully_received i') eqn:Ef; [by destruct (Hfull eq_refl) as [-> _]|]. exfalso.
    destruct (Hpart eq_refl) as (_ & _ & _ & Hn & _). apply Hn. intros o Ho. unfold info_covers in Hcov. rewrite Ef in Hcov.
    apply Hcov. simpl. rewrite covered_cons, covered_nil. unfold in_seg, seg_len, blen in *. simpl in *. lia.
Qed.

Lemma rx_am_data_pdu_correct_witness :
  exists e' notes, handle_data_pdu (demo demo_ops) demo_first = Some (e', [on_new_sdu [20; 21; 22; 23]] ++ notes)
    /\ rx_inv size12bits e' /\ no_sdu notes.
Proof.
  assert (accepts (demo demo_ops) demo_first
          = Some (AmHeader dc_data 0 first_segment size12bits 0 0, [20; 21])) as Ha
    by (vm_compute; reflexivity).
  pose proof (rx_am_data_pdu_correct size12bits (demo demo_ops) demo_first
                (demo_inv _ demo_ops_bounded) demo_first_bounded) as H.
  rewrite Ha in H. destruct H as (i' & e' & notes & Hc & H1 & H2 & H3 & _).
  exists e', notes. split; [|by split]. rewrite H1. do 3 f_equal.
  replace (wmap size12bits (demo demo_ops) !! hdr_sn (AmHeader dc_data 0 first_segment size12bits 0 0))
    with (Some (SduInfo false true [Seg last_segment 2 [22; 23]] [])) in Hc by (vm_compute; reflexivity). cbn [default] in Hc.
  by destruct (demo_container i' Hc) as [-> ->].
Defined.

Lemma rx_am_no_second_delivery_witness :
  exists e' evs, handle_data_pdu (demo demo_ops) demo_first = Some (e', evs)
    /\ accepts e' [0x80; 0; 1; 2; 3] = None.
Proof.
  eexists _, _. split; [vm_compute; reflexivity|].
  eapply (rx_am_no_second_delivery size12bits (demo demo_ops) _ demo_first [0x80; 0; 1; 2; 3]
            (AmHeader dc_data 0 first_segment size12bits 0 0) (AmHeader dc_data 0 full_sdu size12bits 0 0)
            [20; 21] _ [20; 21; 22; 23]).
  - apply demo_inv, demo_ops_bounded.
  - apply demo_first_bounded.
  - vm_compute. reflexivity.
  - vm_compute. reflexivity.
  - left.
  - reflexivity.
  - reflexivity.
Defined.

Lemma rx_am_reassembly_expiry_correct_witness :
  exists e' hs notes, on_expired_reassembly_timer (reassembly_expired (demo demo_ops)) = Some (e', notes)
    /\ status_report e' = build_status size12bits (window_nacks size12bits e') hs.
Proof.
  destruct (rx_am_reassembly_expiry_correct size12bits (demo demo_ops))
    as (e' & hs & notes & H1 & _ & _ & _ & _ & _ & _ & _ & _ & _ & H2);
    [apply demo_inv, demo_ops_bounded|vm_compute; reflexivity|].
  exists e', hs, notes. split; [exact H1|exact H2].
Defined.

Lemma rx_am_status_report_exact_witness :
  exists e', refresh_status_report (demo (demo_ops ++ [rx_reassembly_expiry])) = Some e'
    /\ ack_sn (status_report e') = 2 /\ status_covers (status_report e') 0 1.
Proof.
  assert (Forall (op_bounded size12bits) (demo_ops ++ [rx_reassembly_expiry])) as Hb
    by (apply Forall_app; split; [apply demo_ops_bounded|repeat constructor]).
  destruct (rx_am_status_report_exact size12bits (demo (demo_ops ++ [rx_reassembly_expiry])) 0 1)
    as (e' & H1 & H2 & H3); [by apply demo_inv|vm_compute; congruence| |vm_compute; split; congruence|].
  - assert (map_Forall (fun _ i => seg_end 0 (segments i) <= so_end_of_sdu)
              (wmap size12bits (demo (demo_ops ++ [rx_reassembly_expiry])))) as Hm;
      [apply (bool_decide_unpack _); vm_compute; exact I|exact Hm].
  - exists e'. split; [exact H1|]. split; [rewrite H2; vm_compute; reflexivity|].
    apply H3. split; [vm_compute; split; congruence|]. split; [vm_compute; reflexivity|].
    replace (wmap size12bits (demo (demo_ops ++ [rx_reassembly_expiry])) !! 0)
      with (Some (SduInfo false true [Seg last_segment 2 [22; 23]] [])) by (vm_compute; reflexivity).
    split; [done|]. split; [|intros _; vm_compute; reflexivity].
    intros [[H _]|[]%Exists_nil]%Exists_cons. vm_compute in H. congruence.
Defined.

(** Segments beyond the 16-bit offset range.  [store_segment] narrows
    segment offsets to 16 bits, so a peer that sends segments reaching beyond
    offset 65535 leaves an unordered segment set behind, and the next status
    report fails the assertion on its segment offsets: the bound in the theorems
    above is needed. *)
Theorem rx_am_offset_overflow_fails_assertion :
  rx_run demo_new
    [rx_handle_pdu ([0xb0; 0; 0; 50] ++ repeat 1 100);
     rx_handle_pdu ([0xb0; 0; 0xff; 0xff] ++ repeat 1 100);
     rx_handle_pdu ([0xb0; 0; 0xff; 0xff] ++ repeat 1 200);
     rx_reassembly_expiry] = None.
Proof. vm_compute. reflexivity. Qed.
End Concrete.
