(* ===== verification/RlcQueues.v ===== *)
(** * RLC transmission queues

    [lib/rlc/rlc_retx_queue.h] (pending retransmissions with running totals),
    [lib/rlc/rlc_sdu_queue.h] with the operations it uses of
    [include/srsran/adt/blocking_queue.h] and [ring_buffer.h] (SDUs from the
    upper layer, with discard and atomic totals), and the SDU of
    [include/srsran/rlc/rlc_tx.h]. *)
From S2P Require Import Prelude RlcAmPdu.

(** ** Retransmission queue *)
Record rlc_tx_amd_retx := Retx {
  retx_sn : Z;
  retx_so : Z;
  retx_length : Z;
}.

Definition retx_includes (r : rlc_tx_amd_retx) (segment_offset segment_length : Z) : bool :=
  (retx_so r <=? segment_offset)
  && (u32 (segment_offset + segment_length) <=? u32 (retx_so r + retx_length r)).

Record rlc_retx_queue_state := RetxState {
  retx_bytes : Z;
  n_retx_so_zero : Z;
  n_retx_so_nonzero : Z;
}.

Definition retx_state_add (st : rlc_retx_queue_state) (elem : rlc_tx_amd_retx) : rlc_retx_queue_state :=
  let b := u32 (retx_bytes st + retx_length elem) in
  if retx_so elem =? 0
  then RetxState b (u32 (n_retx_so_zero st + 1)) (n_retx_so_nonzero st)
  else RetxState b (n_retx_so_zero st) (u32 (n_retx_so_nonzero st + 1)).

Definition retx_state_subtract (st : rlc_retx_queue_state) (elem : rlc_tx_amd_retx) : rlc_retx_queue_state :=
  let b := if retx_length elem <=? retx_bytes st then retx_bytes st - retx_length elem else 0 in
  if retx_so elem =? 0
  then RetxState b (if 0 <? n_retx_so_zero st then n_retx_so_zero st - 1 else n_retx_so_zero st)
         (n_retx_so_nonzero st)
  else RetxState b (n_retx_so_zero st)
         (if 0 <? n_retx_so_nonzero st then n_retx_so_nonzero st - 1 else n_retx_so_nonzero st).

Record rlc_retx_queue := RetxQueue {
  rq_queue : list rlc_tx_amd_retx;
  rq_st : rlc_retx_queue_state;
}.

Definition rq_empty : rlc_retx_queue := RetxQueue [] (RetxState 0 0 0).

Definition rq_push (q : rlc_retx_queue) (elem : rlc_tx_amd_retx) : rlc_retx_queue :=
  RetxQueue (rq_queue q ++ [elem]) (retx_state_add (rq_st q) elem).

Definition rq_pop (q : rlc_retx_queue) : rlc_retx_queue :=
  match rq_queue q with
  | [] => q
  | x :: r => RetxQueue r (retx_state_subtract (rq_st q) x)
  end.

Definition rq_front (q : rlc_retx_queue) : option rlc_tx_amd_retx := head (rq_queue q).

Definition rq_replace_front (q : rlc_retx_queue) (elem : rlc_tx_amd_retx) : option rlc_retx_queue :=
  match rq_queue q with
  | [] => None (* srsran_assert *)
  | x :: r => Some (RetxQueue (elem :: r) (retx_state_add (retx_state_subtract (rq_st q) x) elem))
  end.

Definition rq_clear (q : rlc_retx_queue) : rlc_retx_queue := rq_empty.
Definition rq_size (q : rlc_retx_queue) : Z := Z.of_nat (length (rq_queue q)).
Definition rq_is_empty (q : rlc_retx_queue) : bool := match rq_queue q with [] => true | _ => false end.

Definition rq_has_sn (q : rlc_retx_queue) (sn : Z) : bool :=
  existsb (fun elem => retx_sn elem =? sn) (rq_queue q).
Definition rq_has_sn_segment (q : rlc_retx_queue) (sn so len : Z) : bool :=
  existsb (fun elem => (retx_sn elem =? sn) && retx_includes elem so len) (rq_queue q).

Fixpoint remove_first (sn : Z) (l : list rlc_tx_amd_retx) : option (rlc_tx_amd_retx * list rlc_tx_amd_retx) :=
  match l with
  | [] => None
  | x :: r => if retx_sn x =? sn then Some (x, r)
              else match remove_first sn r with
                   | Some (y, r') => Some (y, x :: r')
                   | None => None
                   end
  end.
Definition rq_remove_sn (q : rlc_retx_queue) (sn : Z) : bool * rlc_retx_queue :=
  match remove_first sn (rq_queue q) with
  | Some (x, r) => (true, RetxQueue r (retx_state_subtract (rq_st q) x))
  | None => (false, q)
  end.

(** ** SDU queue *)
Record rlc_sdu := RlcSdu { sdu_buf : bytes; sdu_pdcp_sn : option Z }.

Record rlc_sdu_queue := SduQueue {
  sq_capacity : Z;
  sq_queue : list rlc_sdu;
  unread_bytes : Z;
  n_sdus : Z;
}.

Definition sq_new : rlc_sdu_queue := SduQueue 256 [] 0 0.

Definition is_nil (b : bytes) : bool := match b with [] => true | _ => false end.

(** [push_callback] and [pop_callback]. *)
Definition push_callback (q : rlc_sdu_queue) (sdu : rlc_sdu) : rlc_sdu_queue :=
  SduQueue (sq_capacity q) (sq_queue q) (u32 (unread_bytes q + blen (sdu_buf sdu))) (u32 (n_sdus q + 1)).
(** A count held in 32 bits, read as [int32_t]. *)
Definition int32 (x : Z) : Z := if x <? 2 ^ 31 then x else x - 2 ^ 32.
Definition pop_callback (q : rlc_sdu_queue) (sdu : rlc_sdu) : rlc_sdu_queue :=
  if is_nil (sdu_buf sdu) then q
  else SduQueue (sq_capacity q) (sq_queue q)
         (unread_bytes q - Z.min (u32 (blen (sdu_buf sdu))) (unread_bytes q))
         (Z.max 0 (int32 (n_sdus q) - 1)).
Definition with_queue (q : rlc_sdu_queue) (l : list rlc_sdu) : rlc_sdu_queue :=
  SduQueue (sq_capacity q) l (unread_bytes q) (n_sdus q).

Definition sq_write (q : rlc_sdu_queue) (sdu : rlc_sdu) : bool * rlc_sdu_queue :=
  if sq_capacity q <=? Z.of_nat (length (sq_queue q)) then (false, q)
  else (true, with_queue (push_callback q sdu) (sq_queue q ++ [sdu])).

(** [pop_and_discard_until]: discarded SDUs are skipped. *)
Fixpoint sq_read_loop (l : list rlc_sdu) (q : rlc_sdu_queue) : option rlc_sdu * rlc_sdu_queue :=
  match l with
  | [] => (None, with_queue q [])
  | x :: r =>
      let q := pop_callback q x in
      if negb (is_nil (sdu_buf x)) then (Some x, with_queue q r) else sq_read_loop r q
  end.
Definition sq_read (q : rlc_sdu_queue) : option rlc_sdu * rlc_sdu_queue := sq_read_loop (sq_queue q) q.

Definition sq_size_sdus (q : rlc_sdu_queue) : Z := n_sdus q.
Definition sq_size_bytes (q : rlc_sdu_queue) : Z := unread_bytes q.
Definition sq_front_size_bytes (q : rlc_sdu_queue) : option Z :=
  match sq_queue q with [] => None | x :: _ => Some (blen (sdu_buf x)) end.
Definition sq_is_empty (q : rlc_sdu_queue) : bool := match sq_queue q with [] => true | _ => false end.
Definition sq_is_full (q : rlc_sdu_queue) : bool := sq_capacity q <=? Z.of_nat (length (sq_queue q)).

(** [discard]: the SDU's buffer is cleared, its slot stays in the queue. *)
Fixpoint discard_first (pdcp_sn : Z) (l : list rlc_sdu) : option (rlc_sdu * list rlc_sdu) :=
  match l with
  | [] => None
  | x :: r =>
      if negb (is_nil (sdu_buf x)) && bool_decide (sdu_pdcp_sn x = Some pdcp_sn)
      then Some (x, RlcSdu [] (sdu_pdcp_sn x) :: r)
      else match discard_first pdcp_sn r with
           | Some (y, r') => Some (y, x :: r')
           | None => None
           end
  end.
Definition sq_discard (q : rlc_sdu_queue) (pdcp_sn : Z) : bool * rlc_sdu_queue :=
  match discard_first pdcp_sn (sq_queue q) with
  | Some (x, l) => (true, with_queue (pop_callback q x) l)
  | None => (false, q)
  end.

(** ** Totals of the retransmission queue *)
Definition retx_total (l : list rlc_tx_amd_retx) : Z := foldr (fun x a => retx_length x + a) 0 l.
Definition count_zero (l : list rlc_tx_amd_retx) : Z :=
  foldr (fun x a => (if retx_so x =? 0 then 1 else 0) + a) 0 l.
Definition retx_wf (x : rlc_tx_amd_retx) : Prop := 0 <= retx_so x /\ 0 <= retx_length x.

(** The state the running totals stand for. *)
Definition retx_totals (l : list rlc_tx_amd_retx) : rlc_retx_queue_state :=
  RetxState (retx_total l) (count_zero l) (Z.of_nat (length l) - count_zero l).
Record rq_ok (q : rlc_retx_queue) : Prop := {
  rq_wf : Forall retx_wf (rq_queue q);
  rq_totals : rq_st q = retx_totals (rq_queue q);
}.
(** No 32-bit total overflows. *)
Definition rq_fits (l : list rlc_tx_amd_retx) : Prop :=
  retx_total l < 2 ^ 32 /\ Z.of_nat (length l) < 2 ^ 32.

Lemma retx_total_app l l' : retx_total (l ++ l') = retx_total l + retx_total l'.
Proof. induction l; simpl; lia. Qed.
Lemma count_zero_app l l' : count_zero (l ++ l') = count_zero l + count_zero l'.
Proof. induction l; simpl; lia. Qed.
Lemma count_zero_range l : 0 <= count_zero l <= Z.of_nat (length l).
Proof. induction l; simpl; [lia|]. case_match; lia. Qed.
Lemma retx_total_nonneg l : Forall retx_wf l -> 0 <= retx_total l.
Proof. induction 1 as [|x l [? ?] _ IH]; simpl; lia. Qed.

Lemma retx_state_add_totals x l :
  retx_wf x -> Forall retx_wf l -> rq_fits (x :: l) ->
  retx_state_add (retx_totals l) x = retx_totals (x :: l).
Proof.
  intros [? ?] Hl [Hf Hn]. pose proof (retx_total_nonneg l Hl). pose proof (count_zero_range l).
  unfold retx_state_add, retx_totals. simpl in *.
  rewrite (u32_id (retx_total l + retx_length x)) by (unfold is_u32; lia).
  destruct (retx_so x =? 0); rewrite u32_id by (unfold is_u32; lia); f_equal; lia.
Qed.

Lemma retx_state_subtract_totals x l :
  retx_wf x -> Forall retx_wf l -> retx_state_subtract (retx_totals (x :: l)) x = retx_totals l.
Proof.
  intros [? ?] Hl. pose proof (retx_total_nonneg l Hl). pose proof (count_zero_range l).
  unfold retx_state_subtract, retx_totals. simpl.
  rewrite (proj2 (Z.leb_le (retx_length x) _)) by lia.
  destruct (retx_so x =? 0); rewrite (proj2 (Z.ltb_lt 0 _)) by lia; f_equal; lia.
Qed.

Lemma retx_totals_perm l l' : l ≡ₚ l' -> retx_totals l = retx_totals l'.
Proof.
  intros Hp. unfold retx_totals. rewrite (Permutation_length Hp).
  assert (retx_total l = retx_total l' /\ count_zero l = count_zero l') as [-> ->]; [|done].
  induction Hp; simpl; lia.
Qed.
Lemma rq_fits_perm l l' : l ≡ₚ l' -> rq_fits l -> rq_fits l'.
Proof.
  intros Hp [H1 H2]. pose proof (retx_totals_perm _ _ Hp) as E. unfold retx_totals in E.
  rewrite (Permutation_length Hp) in *. injection E as E _. unfold rq_fits. lia.
Qed.

Lemma rq_push_ok q x : rq_ok q -> retx_wf x -> rq_fits (x :: rq_queue q) -> rq_ok (rq_push q x).
Proof.
  intros [Hw Ht] Hx Hf. split; simpl.
  - apply Forall_app. by split; [|constructor].
  - rewrite Ht, retx_state_add_totals by done. apply retx_totals_perm.
    by rewrite (Permutation_app_comm _ [x]).
Qed.
Lemma rq_pop_ok q : rq_ok q -> rq_ok (rq_pop q).
Proof.
  intros [Hw Ht]. unfold rq_pop. destruct q as [[|x l] st]; simpl in *; [by split|].
  apply list.Forall_cons in Hw as [Hx Hl]. subst st. split; simpl; [done|].
  by rewrite retx_state_subtract_totals.
Qed.
Lemma rq_replace_front_ok q x y l :
  rq_ok q -> rq_queue q = x :: l -> retx_wf y -> rq_fits (y :: l) ->
  exists q', rq_replace_front q y = Some q' /\ rq_ok q' /\ rq_queue q' = y :: l.
Proof.
  intros [Hw Ht] E Hy Hf. unfold rq_replace_front. rewrite E in *.
  apply list.Forall_cons in Hw as [Hx Hl]. eexists. split; [reflexivity|]. split; [|done].
  split; simpl; [by constructor|]. by rewrite Ht, retx_state_subtract_totals, retx_state_add_totals.
Qed.

Lemma remove_first_spec sn l :
  match remove_first sn l with
  | None => Forall (fun x => retx_sn x <> sn) l
  | Some (x, r) => exists a b, l = a ++ x :: b /\ r = a ++ b /\ retx_sn x = sn
                   /\ Forall (fun y => retx_sn y <> sn) a
  end.
Proof.
  induction l as [|x l IH]; simpl; [constructor|].
  destruct (Z.eqb_spec (retx_sn x) sn) as [E|E]; [by exists [], l|].
  destruct (remove_first sn l) as [[y r]|].
  - destruct IH as (a & b & -> & -> & H1 & H2). exists (x :: a), b. split_and!; try done. by constructor.
  - by constructor.
Qed.
Lemma rq_remove_sn_ok q sn : rq_ok q -> rq_ok (rq_remove_sn q sn).2.
Proof.
  intros [Hw Ht]. unfold rq_remove_sn. pose proof (remove_first_spec sn (rq_queue q)) as H.
  destruct (remove_first sn (rq_queue q)) as [[x r]|]; [|by split].
  destruct H as (a & b & E & -> & _ & _). rewrite E in *.
  apply Forall_app in Hw as [Ha Hb]. apply list.Forall_cons in Hb as [Hx Hb].
  split; simpl; [by apply Forall_app|]. rewrite Ht.
  rewrite (retx_totals_perm (a ++ x :: b) (x :: a ++ b)) by (by rewrite Permutation_middle).
  apply retx_state_subtract_totals; [done|]. by apply Forall_app.
Qed.

(** ** The SDU queue as a FIFO of the SDUs not discarded *)
Definition live (q : rlc_sdu_queue) : list rlc_sdu :=
  filter (fun x => sdu_buf x <> []) (sq_queue q).
Definition sdu_total (l : list rlc_sdu) : Z := foldr (fun x a => blen (sdu_buf x) + a) 0 l.

Record sq_ok (q : rlc_sdu_queue) : Prop := {
  sq_cap : 0 <= sq_capacity q < 2 ^ 16;
  sq_len : Z.of_nat (length (sq_queue q)) <= sq_capacity q;
  sq_bytes : unread_bytes q = sdu_total (live q);
  sq_count : n_sdus q = Z.of_nat (length (live q));
  sq_u32 : sdu_total (live q) < 2 ^ 32;
}.

Lemma is_nil_spec b : is_nil b = bool_decide (b = []).
Proof. by destruct b. Qed.
Lemma sdu_total_nonneg l : 0 <= sdu_total l.
Proof. induction l as [|x l IH]; simpl; [lia|]. pose proof (blen_nonneg (sdu_buf x)). lia. Qed.
Lemma sdu_total_app l l' : sdu_total (l ++ l') = sdu_total l + sdu_total l'.
Proof. induction l; simpl; lia. Qed.
Lemma live_length q : sq_ok q -> Z.of_nat (length (live q)) <= sq_capacity q.
Proof. intros Hq. pose proof (length_filter (fun x => sdu_buf x <> []) (sq_queue q)). pose proof (sq_len _ Hq).
  unfold live. lia. Qed.
Lemma nonempty_blen b : b <> [] -> 0 < blen b.
Proof. destruct b; [done|]. unfold blen. simpl. lia. Qed.

(** The totals after a live SDU leaves. *)
Lemma pop_callback_totals q x l :
  sdu_buf x <> [] -> unread_bytes q = blen (sdu_buf x) + sdu_total l -> n_sdus q = 1 + Z.of_nat (length l) ->
  blen (sdu_buf x) + sdu_total l < 2 ^ 32 -> Z.of_nat (length l) < 2 ^ 16 ->
  pop_callback q x = SduQueue (sq_capacity q) (sq_queue q) (sdu_total l) (Z.of_nat (length l)).
Proof.
  intros Hx Hb Hn Hu Hl. unfold pop_callback. rewrite is_nil_spec, bool_decide_false by done.
  pose proof (sdu_total_nonneg l). pose proof (blen_nonneg (sdu_buf x)).
  rewrite u32_id by (unfold is_u32; lia). unfold int32. rewrite Hn, Hb.
  rewrite (proj2 (Z.ltb_lt _ (2^31))) by lia. f_equal; lia.
Qed.

Lemma sq_write_spec q x :
  sq_ok q -> sdu_buf x <> [] -> sdu_total (live q) + blen (sdu_buf x) < 2 ^ 32 ->
  let '(b, q') := sq_write q x in
  sq_ok q' /\ b = negb (sq_is_full q) /\ live q' = if b then live q ++ [x] else live q.
Proof.
  intros Hq Hx Hu. pose proof (live_length q Hq). destruct Hq as [H1 H2 H3 H4 H5].
  unfold sq_write, sq_is_full. destruct (Z.leb_spec (sq_capacity q) (Z.of_nat (length (sq_queue q)))).
  { split; [|done]. by split. }
  pose proof (blen_nonneg (sdu_buf x)). pose proof (sdu_total_nonneg (live q)).
  assert (filter (fun y => sdu_buf y <> []) (sq_queue q ++ [x]) = live q ++ [x]) as Hl.
  { rewrite list.filter_app. f_equal. by rewrite filter_cons_True. }
  split_and!; try done. split; unfold live; simpl; rewrite ?Hl; try done.
  - rewrite length_app. simpl. lia.
  - rewrite H3, sdu_total_app. simpl. rewrite u32_id by (unfold is_u32; lia). lia.
  - rewrite H4, length_app. simpl. rewrite u32_id by (unfold is_u32; lia). lia.
  - rewrite sdu_total_app. simpl. lia.
Qed.

Lemma sq_read_loop_spec l q :
  unread_bytes q = sdu_total (filter (fun x => sdu_buf x <> []) l) ->
  n_sdus q = Z.of_nat (length (filter (fun x => sdu_buf x <> []) l)) ->
  sdu_total (filter (fun x => sdu_buf x <> []) l) < 2 ^ 32 ->
  0 <= sq_capacity q < 2 ^ 16 -> Z.of_nat (length l) <= sq_capacity q ->
  let '(r, q') := sq_read_loop l q in
  sq_ok q' /\ r = head (filter (fun x => sdu_buf x <> []) l)
  /\ live q' = tail (filter (fun x => sdu_buf x <> []) l).
Proof.
  revert q. induction l as [|x l IH]; intros q Hb Hn Hu Hc Hl; simpl.
  { by split_and!. }
  simpl in Hl. rewrite is_nil_spec. destruct (decide (sdu_buf x = [])) as [E|E].
  - rewrite filter_cons_False in * by tauto. rewrite bool_decide_true by done. simpl.
    unfold pop_callback. rewrite is_nil_spec, bool_decide_true by done. apply IH; try done. lia.
  - rewrite filter_cons_True in * by done. rewrite bool_decide_false by done. simpl in *.
    pose proof (length_filter (fun x => sdu_buf x <> []) l).
    rewrite (pop_callback_totals q x (filter (fun x => sdu_buf x <> []) l)) by (done || lia).
    pose proof (blen_nonneg (sdu_buf x)).
    split_and!; try done. split; unfold live; simpl; try done; lia.
Qed.

Lemma sq_read_spec q : sq_ok q ->
  let '(r, q') := sq_read q in sq_ok q' /\ r = head (live q) /\ live q' = tail (live q).
Proof. intros [H1 H2 H3 H4 H5]. by apply sq_read_loop_spec. Qed.

(** The first SDU with the PDCP SN leaves the FIFO. *)
Fixpoint fifo_discard (pdcp_sn : Z) (l : list rlc_sdu) : list rlc_sdu :=
  match l with
  | [] => []
  | x :: r => if bool_decide (sdu_pdcp_sn x = Some pdcp_sn) then r else x :: fifo_discard pdcp_sn r
  end.

Lemma discard_first_spec n l :
  let L := filter (fun x => sdu_buf x <> []) in
  match discard_first n l with
  | None => Forall (fun x => sdu_pdcp_sn x <> Some n) (L l)
  | Some (x, l') => length l' = length l /\ sdu_buf x <> [] /\ sdu_pdcp_sn x = Some n
      /\ L l' = fifo_discard n (L l) /\ L l ≡ₚ x :: L l'
  end.
Proof.
  induction l as [|x l IH]; simpl; [constructor|]. rewrite is_nil_spec.
  destruct (decide (sdu_buf x = [])) as [E|E].
  - rewrite bool_decide_true by done. simpl. rewrite filter_cons_False by tauto.
    destruct (discard_first n l) as [[y r]|]; [|done]. destruct IH as (H1 & H2 & H3 & H4 & H5).
    rewrite filter_cons_False by tauto. simpl. split_and!; try done. lia.
  - rewrite (bool_decide_false (sdu_buf x = [])) by done. rewrite filter_cons_True by done. simpl.
    destruct (bool_decide (sdu_pdcp_sn x = Some n)) eqn:Es; breflect.
    + rewrite filter_cons_False by (simpl; tauto). done.
    + destruct (discard_first n l) as [[y r]|]; [|by constructor]. destruct IH as (H1 & H2 & H3 & H4 & H5).
      rewrite filter_cons_True by done. simpl. split_and!; try done; try lia.
      * by rewrite H4.
      * rewrite H5. apply Permutation_swap.
Qed.

Lemma fifo_discard_absent n l : Forall (fun x => sdu_pdcp_sn x <> Some n) l -> fifo_discard n l = l.
Proof. induction 1; simpl; [done|]. rewrite bool_decide_false by done. by f_equal. Qed.

Lemma sdu_total_perm l l' : l ≡ₚ l' -> sdu_total l = sdu_total l'.
Proof. induction 1; simpl; lia. Qed.

Lemma sq_discard_spec q n : sq_ok q ->
  let '(b, q') := sq_discard q n in
  sq_ok q' /\ (b = true <-> Exists (fun x => sdu_pdcp_sn x = Some n) (live q))
  /\ live q' = fifo_discard n (live q) /\ length (sq_queue q') = length (sq_queue q).
Proof.
  intros Hq. pose proof (live_length q Hq) as Hll. destruct Hq as [H1 H2 H3 H4 H5].
  unfold sq_discard. pose proof (discard_first_spec n (sq_queue q)) as H. simpl in H. fold (live q) in H.
  destruct (discard_first n (sq_queue q)) as [[x l]|].
  - destruct H as (D1 & D2 & D3 & D4 & D5). pose proof (Permutation_length D5) as Hlen.
    pose proof (sdu_total_perm _ _ D5) as Hsum. simpl in Hlen, Hsum.
    pose proof (blen_nonneg (sdu_buf x)).
    rewrite (pop_callback_totals q x (filter (fun x => sdu_buf x <> []) l)) by (done || lia).
    split; [split; unfold live; simpl; try done; lia|]. split; [|done]. split; [|done]. intros _.
    rewrite D5. by left.
  - split; [by split|]. split; [|split; [|done]].
    + split; [done|]. intros Hex. apply list.Exists_exists in Hex as (x & Hin & Hx).
      by eapply list.Forall_forall in H.
    + by rewrite fifo_discard_absent.
Qed.

(** The retransmission queue keeps exact totals.  As long as the totals fit
    32 bits, after every push, pop, replacement of the front and removal of an SN
    the stored byte count and the numbers of elements with and without segment
    offset are those of the elements in the queue, and the queue holds the
    elements expected; removal takes the first element with the SN. *)
Theorem retx_queue_totals_exact (q : rlc_retx_queue) (x : rlc_tx_amd_retx) (sn : Z) :
  rq_ok q -> retx_wf x -> rq_fits (x :: rq_queue q) ->
  (rq_ok (rq_push q x) /\ rq_queue (rq_push q x) = rq_queue q ++ [x])
  /\ (rq_ok (rq_pop q) /\ rq_queue (rq_pop q) = tail (rq_queue q))
  /\ match rq_queue q with
     | [] => rq_replace_front q x = None
     | _ :: l => exists q', rq_replace_front q x = Some q' /\ rq_ok q' /\ rq_queue q' = x :: l
     end
  /\ (rq_ok (rq_remove_sn q sn).2
      /\ ((rq_remove_sn q sn).1 = true <-> rq_has_sn q sn = true)
      /\ ((rq_remove_sn q sn).1 = true -> exists a y b, rq_queue q = a ++ y :: b /\ retx_sn y = sn
           /\ rq_queue (rq_remove_sn q sn).2 = a ++ b)).
Proof.
  intros Hq Hx Hf. split; [split; [by apply rq_push_ok|done]|].
  split; [split; [by apply rq_pop_ok|by destruct q as [[|??] ?]]|]. split.
  - destruct (rq_queue q) as [|y l] eqn:E; [unfold rq_replace_front; by rewrite E|].
    apply (rq_replace_front_ok q y); try done. unfold rq_fits in *. simpl in *.
    pose proof (rq_wf _ Hq) as Hw. rewrite E in Hw. apply list.Forall_cons in Hw as [[? ?] _]. lia.
  - split; [by apply rq_remove_sn_ok|]. unfold rq_remove_sn, rq_has_sn.
    pose proof (remove_first_spec sn (rq_queue q)) as H. rewrite existsb_exists.
    destruct (remove_first sn (rq_queue q)) as [[y r]|]; simpl.
    + destruct H as (a & b & E & -> & Hy & _). split; [|intros _; by exists a, y, b].
      split; [|done]. intros _. exists y. rewrite E, Hy, Z.eqb_refl. split; [|done].
      apply in_app_iff. right. by left.
    + split; [|done]. split; [done|]. intros (y & Hin & Hy). breflect.
      apply list_elem_of_In in Hin. by eapply list.Forall_forall in H.
Qed.

Lemma retx_queue_totals_exact_witness :
  let q := rq_push rq_empty (Retx 7 0 10) in
  rq_ok (rq_push q (Retx 7 20 5)) /\ rq_queue (rq_push q (Retx 7 20 5)) = [Retx 7 0 10; Retx 7 20 5].
Proof.
  intros q. apply (retx_queue_totals_exact q (Retx 7 20 5) 7).
  - split; [repeat constructor; simpl; lia|reflexivity].
  - split; simpl; lia.
  - split; vm_compute; reflexivity.
Defined.

(** The SDU queue is a FIFO with exact totals.  Its capacity counts
    discarded SDUs; a write to a queue that is not full appends, a read returns
    the oldest SDU that has not been discarded, a discard takes the oldest SDU
    with the PDCP SN out of the sequence and reports whether there was one, and
    the byte and SDU totals reported to the scheduler are those of the SDUs still
    to be sent. *)
Theorem sdu_queue_refines_fifo (q : rlc_sdu_queue) (x : rlc_sdu) (pdcp_sn : Z) :
  sq_ok q -> sdu_buf x <> [] -> sdu_total (live q) + blen (sdu_buf x) < 2 ^ 32 ->
  (sq_size_bytes q = sdu_total (live q) /\ sq_size_sdus q = Z.of_nat (length (live q)))
  /\ (let '(ok, q') := sq_write q x in
      sq_ok q' /\ ok = negb (sq_is_full q) /\ live q' = if ok then live q ++ [x] else live q)
  /\ (let '(r, q') := sq_read q in sq_ok q' /\ r = head (live q) /\ live q' = tail (live q))
  /\ (let '(ok, q') := sq_discard q pdcp_sn in
      sq_ok q' /\ (ok = true <-> Exists (fun y => sdu_pdcp_sn y = Some pdcp_sn) (live q))
      /\ live q' = fifo_discard pdcp_sn (live q) /\ length (sq_queue q') = length (sq_queue q)).
Proof.
  intros Hq Hx Hu. split; [split; apply Hq|]. split; [by apply sq_write_spec|].
  split; [by apply sq_read_spec|by apply sq_discard_spec].
Qed.

Lemma sdu_queue_refines_fifo_witness :
  let q := SduQueue 256 [RlcSdu [] (Some 3); RlcSdu [1;2] (Some 4)] 2 1 in
  sq_ok (sq_write q (RlcSdu [5] None)).2 /\ live (sq_write q (RlcSdu [5] None)).2
    = [RlcSdu [1;2] (Some 4); RlcSdu [5] None].
Proof.
  intros q. destruct (sdu_queue_refines_fifo q (RlcSdu [5] None) 4) as (_ & H & _).
  - split; vm_compute; try done; split; congruence.
  - done.
  - vm_compute; done.
  - destruct H as (H1 & _ & _). split; [exact H1|reflexivity].
Defined.
