(* ===== verification/RlcTxAm.v ===== *)
(** * RLC AM transmitting entity

    [lib/rlc/rlc_tx_am_entity.h] and [lib/rlc/rlc_tx_am_entity.cpp]: queueing and
    discard of SDUs, building PDUs for MAC opportunities (status PDUs,
    retransmissions, segments, new SDUs), the poll bit, STATUS reports from the
    peer, retransmission scheduling, the buffer state and t-PollRetransmit.

    Every handler maps the entity state to [None] (a failed [srsran_assert]) or to
    the new state and the calls on the entity's notifiers.  The receiving entity is
    seen through the interface [rlc_rx_am_status_provider]
    ([lib/rlc/rlc_am_interconnect.h]). *)
From S2P Require Import Prelude RlcAmWindow RlcAmPdu RlcAmStatus RlcQueues.

Class rlc_rx_am_status_provider (P : Type) := {
  provider_get_status_pdu : P -> rlc_am_status_pdu * P;
  provider_get_status_pdu_length : P -> Z;
  provider_status_report_required : P -> bool;
}.

Record rlc_tx_am_config := TxAmConfig {
  tx_sn_field_length : rlc_am_sn_size;
  t_poll_retx : Z;
  max_retx_thresh : Z;
  poll_pdu : Z;
  poll_byte : Z;
}.

Record rlc_tx_am_sdu_info := TxSdu {
  tx_sdu : bytes;
  tx_pdcp_sn : option Z;
  next_so : Z;
  retx_count : Z;
}.
Definition tx_sdu_info_default : rlc_tx_am_sdu_info := TxSdu [] None 0 RETX_COUNT_NOT_STARTED.

Record rlc_tx_am_state := TxAmState {
  tx_next_ack : Z;
  tx_next : Z;
  poll_sn : Z;
  pdu_without_poll : Z;
  byte_without_poll : Z;
}.

(** Calls on [upper_dn], [upper_cn], [lower_dn] and [pcell_executor.defer]. *)
Inductive tx_event :=
  | on_transmitted_sdu (pdcp_sn : Z)
  | on_delivered_sdu (pdcp_sn : Z)
  | on_max_retx
  | on_buffer_state_update (bs : Z)
  | defer_update_mac_buffer_state.

Definition MAX_DL_PDU_LENGTH : Z := 32768.

Section TxAm.
  Context {Win : Type} {WB : rlc_am_window_base rlc_tx_am_sdu_info Win}.
  Context {P : Type} {SP : rlc_rx_am_status_provider P}.

Record rlc_tx_am_entity := TxAm {
  tx_cfg : rlc_tx_am_config;
  tx_st : rlc_tx_am_state;
  tx_sdu_queue : rlc_sdu_queue;
  sn_under_segmentation : Z;
  tx_retx_queue : rlc_retx_queue;
  tx_window : Win;
  poll_retransmit_timer : bool;             (* the timer runs *)
  is_poll_retransmit_timer_expired : bool;
  prev_buffer_state : Z;
  pending_buffer_state : bool;
}.

Definition tx_mod (e : rlc_tx_am_entity) : Z := cardinality (sn_size_to_number (tx_sn_field_length (tx_cfg e))).
Definition tx_am_window_size (e : rlc_tx_am_entity) : Z :=
  window_size (sn_size_to_number (tx_sn_field_length (tx_cfg e))).
Definition head_min_size (e : rlc_tx_am_entity) : Z := rlc_am_pdu_header_min_size (tx_sn_field_length (tx_cfg e)).
Definition head_max_size (e : rlc_tx_am_entity) : Z := rlc_am_pdu_header_max_size (tx_sn_field_length (tx_cfg e)).

Definition tx_am_new (cfg : rlc_tx_am_config) (empty_window : Win) : rlc_tx_am_entity :=
  TxAm cfg (TxAmState 0 0 0 0 0) sq_new INVALID_RLC_SN rq_empty empty_window false false 0 false.

(** Field updates. *)
Definition tx_with_st (e : rlc_tx_am_entity) (st : rlc_tx_am_state) : rlc_tx_am_entity :=
  TxAm (tx_cfg e) st (tx_sdu_queue e) (sn_under_segmentation e) (tx_retx_queue e) (tx_window e)
    (poll_retransmit_timer e) (is_poll_retransmit_timer_expired e) (prev_buffer_state e) (pending_buffer_state e).
Definition tx_with_sdu_queue (e : rlc_tx_am_entity) (q : rlc_sdu_queue) : rlc_tx_am_entity :=
  TxAm (tx_cfg e) (tx_st e) q (sn_under_segmentation e) (tx_retx_queue e) (tx_window e)
    (poll_retransmit_timer e) (is_poll_retransmit_timer_expired e) (prev_buffer_state e) (pending_buffer_state e).
Definition tx_with_segmentation (e : rlc_tx_am_entity) (sn : Z) : rlc_tx_am_entity :=
  TxAm (tx_cfg e) (tx_st e) (tx_sdu_queue e) sn (tx_retx_queue e) (tx_window e)
    (poll_retransmit_timer e) (is_poll_retransmit_timer_expired e) (prev_buffer_state e) (pending_buffer_state e).
Definition tx_with_retx_queue (e : rlc_tx_am_entity) (q : rlc_retx_queue) : rlc_tx_am_entity :=
  TxAm (tx_cfg e) (tx_st e) (tx_sdu_queue e) (sn_under_segmentation e) q (tx_window e)
    (poll_retransmit_timer e) (is_poll_retransmit_timer_expired e) (prev_buffer_state e) (pending_buffer_state e).
Definition tx_with_window (e : rlc_tx_am_entity) (w : Win) : rlc_tx_am_entity :=
  TxAm (tx_cfg e) (tx_st e) (tx_sdu_queue e) (sn_under_segmentation e) (tx_retx_queue e) w
    (poll_retransmit_timer e) (is_poll_retransmit_timer_expired e) (prev_buffer_state e) (pending_buffer_state e).
Definition tx_with_poll_timer (e : rlc_tx_am_entity) (running expired : bool) : rlc_tx_am_entity :=
  TxAm (tx_cfg e) (tx_st e) (tx_sdu_queue e) (sn_under_segmentation e) (tx_retx_queue e) (tx_window e)
    running expired (prev_buffer_state e) (pending_buffer_state e).
Definition tx_with_buffer_state (e : rlc_tx_am_entity) (prev : Z) (pending : bool) : rlc_tx_am_entity :=
  TxAm (tx_cfg e) (tx_st e) (tx_sdu_queue e) (sn_under_segmentation e) (tx_retx_queue e) (tx_window e)
    (poll_retransmit_timer e) (is_poll_retransmit_timer_expired e) prev pending.
Definition set_tx_next_ack (st : rlc_tx_am_state) x :=
  TxAmState x (tx_next st) (poll_sn st) (pdu_without_poll st) (byte_without_poll st).
Definition set_tx_next (st : rlc_tx_am_state) x :=
  TxAmState (tx_next_ack st) x (poll_sn st) (pdu_without_poll st) (byte_without_poll st).

(** ** Window helpers *)
Definition tx_mod_base (e : rlc_tx_am_entity) (x : Z) : Z := u32 (x - tx_next_ack (tx_st e)) mod tx_mod e.
Definition inside_tx_window (e : rlc_tx_am_entity) (sn : Z) : bool := tx_mod_base e sn <? tx_am_window_size e.
Definition valid_ack_sn (e : rlc_tx_am_entity) (sn : Z) : bool :=
  (0 <? tx_mod_base e sn) && (tx_mod_base e sn <=? tx_am_window_size e).

Definition valid_nack (e : rlc_tx_am_entity) (ack_sn : Z) (nack : rlc_am_status_nack) : bool :=
  let last := u32 (nack_sn nack + nack_range nack - 1) in
  if tx_mod_base e ack_sn <=? tx_mod_base e (nack_sn nack) then false
  else if has_nack_range nack && (tx_mod_base e ack_sn <=? tx_mod_base e last) then false
  else if negb (inside_tx_window e (nack_sn nack)) then false
  else if has_nack_range nack && negb (inside_tx_window e last) then false
  else if tx_mod_base e (tx_next (tx_st e)) <? tx_mod_base e (nack_sn nack) then false
  else if has_nack_range nack && (tx_mod_base e (tx_next (tx_st e)) <? tx_mod_base e last) then false
  else true.

(** ** Buffer state *)
Definition get_buffer_state (e : rlc_tx_am_entity) (p : P) : Z :=
  let q := tx_sdu_queue e in
  let queue_bytes := u32 (sq_size_bytes q + u32 (sq_size_sdus q * head_min_size e)) in
  let segment_bytes :=
    if sn_under_segmentation e =? INVALID_RLC_SN then 0
    else if win_has_sn (tx_window e) (sn_under_segmentation e) then
      match win_at (tx_window e) (sn_under_segmentation e) with
      | Some i => u32 (blen (tx_sdu i) - next_so i + head_max_size e)
      | None => 0
      end
    else 0 in
  let r := rq_st (tx_retx_queue e) in
  let retx_bytes := u32 (retx_bytes r + u32 (n_retx_so_zero r * head_min_size e)
                         + u32 (n_retx_so_nonzero r * head_max_size e)) in
  let status_bytes := if provider_status_report_required p then provider_get_status_pdu_length p else 0 in
  u32 (queue_bytes + segment_bytes + retx_bytes + status_bytes).

Definition update_mac_buffer_state (e : rlc_tx_am_entity) (p : P) : rlc_tx_am_entity * list tx_event :=
  let bs := get_buffer_state e p in
  let evs := if negb ((MAX_DL_PDU_LENGTH <? bs) && (MAX_DL_PDU_LENGTH <? prev_buffer_state e))
             then [on_buffer_state_update bs] else [] in
  (tx_with_buffer_state e bs false, evs).

(** A failed [defer] only logs an error; the flag stays set. *)
Definition handle_changed_buffer_state (defer_ok : bool) (e : rlc_tx_am_entity)
    : rlc_tx_am_entity * list tx_event :=
  if pending_buffer_state e then (e, [])
  else (tx_with_buffer_state e (prev_buffer_state e) true,
        if defer_ok then [defer_update_mac_buffer_state] else []).

(** ** Interface to the upper layer *)
Definition handle_sdu (defer_ok : bool) (e : rlc_tx_am_entity) (sdu : rlc_sdu) : rlc_tx_am_entity * list tx_event :=
  let '(ok, q) := sq_write (tx_sdu_queue e) sdu in
  if ok then handle_changed_buffer_state defer_ok (tx_with_sdu_queue e q) else (e, []).

Definition discard_sdu (defer_ok : bool) (e : rlc_tx_am_entity) (pdcp_sn : Z) : rlc_tx_am_entity * list tx_event :=
  let '(ok, q) := sq_discard (tx_sdu_queue e) pdcp_sn in
  if ok then handle_changed_buffer_state defer_ok (tx_with_sdu_queue e q) else (e, []).

(** ** Poll bit *)
Definition buffers_empty (e : rlc_tx_am_entity) : bool :=
  sq_is_empty (tx_sdu_queue e) && rq_is_empty (tx_retx_queue e)
  && (sn_under_segmentation e =? INVALID_RLC_SN).

Definition get_polling_bit (e : rlc_tx_am_entity) (sn : Z) (is_retx : bool) (payload_size : Z)
    : Z * rlc_tx_am_entity :=
  let cfg := tx_cfg e in
  let st := tx_st e in
  let pdus := if is_retx then pdu_without_poll st else u32 (pdu_without_poll st + 1) in
  let bytes := if is_retx then byte_without_poll st else u32 (byte_without_poll st + payload_size) in
  let poll :=
    (negb is_retx && (0 <? poll_pdu cfg) && (u32 (poll_pdu cfg) <=? pdus))
    || (negb is_retx && (0 <? poll_byte cfg) && (u32 (poll_byte cfg) <=? bytes))
    || (buffers_empty e || win_full (tx_window e))
    || is_poll_retransmit_timer_expired e in
  (* is_poll_retransmit_timer_expired.exchange(false) *)
  if poll then
    let st := TxAmState (tx_next_ack st) (tx_next st) (if is_retx then poll_sn st else sn) 0 0 in
    let running := if 0 <? t_poll_retx cfg then true else poll_retransmit_timer e in
    (1, tx_with_st (tx_with_poll_timer e running false) st)
  else
    (0, tx_with_st (tx_with_poll_timer e (poll_retransmit_timer e) false)
          (TxAmState (tx_next_ack st) (tx_next st) (poll_sn st) pdus bytes)).

(** ** New SDUs and segments *)

(** A built PDU ([[]] is the empty PDU), the state and the notifications. *)
Definition tx_result : Type := option (bytes * rlc_tx_am_entity * list tx_event).

Definition set_next_so (i : rlc_tx_am_sdu_info) (so : Z) : rlc_tx_am_sdu_info :=
  TxSdu (tx_sdu i) (tx_pdcp_sn i) so (retx_count i).
Definition set_retx_count (i : rlc_tx_am_sdu_info) (n : Z) : rlc_tx_am_sdu_info :=
  TxSdu (tx_sdu i) (tx_pdcp_sn i) (next_so i) n.

Definition build_first_sdu_segment (e : rlc_tx_am_entity) (sn : Z) (sdu_info : rlc_tx_am_sdu_info)
    (grant_len : Z) (evs : list tx_event) : tx_result :=
  if blen (tx_sdu sdu_info) + head_min_size e <=? grant_len then Some ([], e, evs)
  else if grant_len <=? head_min_size e then Some ([], e, evs)
  else
    let segment_payload_len := grant_len - head_min_size e in
    let e := tx_with_segmentation e (tx_next (tx_st e)) in
    let '(p, e) := get_polling_bit e (tx_next (tx_st e)) false segment_payload_len in
    let hdr := AmHeader dc_data p first_segment (tx_sn_field_length (tx_cfg e)) (tx_next (tx_st e))
                 (u16 (next_so sdu_info)) in
    let pdu := rlc_am_write_data_pdu_header hdr (slice (hdr_so hdr) segment_payload_len (tx_sdu sdu_info)) in
    match win_set (tx_window e) sn (set_next_so sdu_info (u32 (next_so sdu_info + segment_payload_len))) with
    | None => None
    | Some w => Some (pdu, tx_with_window e w, evs)
    end.

Definition build_new_pdu (e : rlc_tx_am_entity) (grant_len : Z) : tx_result :=
  if grant_len <=? head_min_size e then Some ([], e, [])
  else if win_full (tx_window e) then Some ([], e, [])
  else
    let '(r, q) := sq_read (tx_sdu_queue e) in
    let e := tx_with_sdu_queue e q in
    match r with
    | None => Some ([], e, [])
    | Some sdu =>
        let sn := tx_next (tx_st e) in
        match win_add_sn (tx_window e) sn with
        | None => None
        | Some w =>
            match win_at w sn with
            | None => None
            | Some i =>
                let i := TxSdu (sdu_buf sdu) (sdu_pdcp_sn sdu) (next_so i) (retx_count i) in
                match win_set w sn i with
                | None => None
                | Some w =>
                    let e := tx_with_window e w in
                    let evs := match sdu_pdcp_sn sdu with Some n => [on_transmitted_sdu n] | None => [] end in
                    if grant_len <? blen (tx_sdu i) + head_min_size e
                    then build_first_sdu_segment e sn i grant_len evs
                    else
                      (* [sdu.buf] has been moved into the window: its length is 0 *)
                      let moved_from : bytes := [] in
                      let '(p, e) := get_polling_bit e sn false (blen moved_from) in
                      let hdr := AmHeader dc_data p full_sdu (tx_sn_field_length (tx_cfg e)) sn 0 in
                      Some (rlc_am_write_data_pdu_header hdr (tx_sdu i),
                            tx_with_st e (set_tx_next (tx_st e) ((sn + 1) mod tx_mod e)), evs)
                end
            end
        end
    end.

Definition build_continued_sdu_segment (e : rlc_tx_am_entity) (sn : Z) (sdu_info : rlc_tx_am_sdu_info)
    (grant_len : Z) : tx_result :=
  if next_so sdu_info =? 0 then Some ([], tx_with_segmentation e INVALID_RLC_SN, [])
  else if blen (tx_sdu sdu_info) <=? next_so sdu_info then Some ([], tx_with_segmentation e INVALID_RLC_SN, [])
  else if grant_len <=? head_max_size e then Some ([], e, [])
  else
    let rest := u32 (blen (tx_sdu sdu_info) - next_so sdu_info) in
    let '(si, segment_payload_len, e) :=
      if grant_len <? u32 (rest + head_max_size e)
      then (middle_segment, grant_len - head_max_size e, e)
      else (last_segment, rest, tx_with_segmentation e INVALID_RLC_SN) in
    let '(p, e) := get_polling_bit e (tx_next (tx_st e)) false segment_payload_len in
    let hdr := AmHeader dc_data p si (tx_sn_field_length (tx_cfg e)) (tx_next (tx_st e))
                 (u16 (next_so sdu_info)) in
    let pdu := rlc_am_write_data_pdu_header hdr (slice (hdr_so hdr) segment_payload_len (tx_sdu sdu_info)) in
    match win_set (tx_window e) sn (set_next_so sdu_info (u32 (next_so sdu_info + segment_payload_len))) with
    | None => None
    | Some w =>
        let e := tx_with_window e w in
        let e := if bool_decide (si = last_segment)
                 then tx_with_st e (set_tx_next (tx_st e) ((tx_next (tx_st e) + 1) mod tx_mod e)) else e in
        Some (pdu, e, [])
    end.

(** ** Retransmissions *)
Definition get_retx_expected_hdr_len (e : rlc_tx_am_entity) (retx : rlc_tx_amd_retx) : Z :=
  if retx_so retx =? 0 then head_min_size e else head_max_size e.

(** The loop that drops retransmissions of SNs no longer in the window; [l] are
    the elements of [q]. *)
Fixpoint drop_stale_retx (w : Win) (l : list rlc_tx_amd_retx) (q : rlc_retx_queue) : rlc_retx_queue :=
  match l with
  | [] => q
  | x :: r => if win_has_sn w (retx_sn x) then q else drop_stale_retx w r (rq_pop q)
  end.

Definition retx_si (retx : rlc_tx_amd_retx) (sdu_complete : bool) : rlc_si_field :=
  if retx_so retx =? 0 then if sdu_complete then full_sdu else first_segment
  else if sdu_complete then last_segment else middle_segment.

Definition build_retx_pdu (e : rlc_tx_am_entity) (grant_len : Z) : tx_result :=
  if rq_is_empty (tx_retx_queue e) then Some ([], e, [])
  else
    let q := drop_stale_retx (tx_window e) (rq_queue (tx_retx_queue e)) (tx_retx_queue e) in
    let e := tx_with_retx_queue e q in
    match rq_front q with
    | None => Some ([], e, [])
    | Some retx =>
        match win_at (tx_window e) (retx_sn retx) with
        | None => None
        | Some sdu_info =>
            if blen (tx_sdu sdu_info) <? u32 (retx_so retx + retx_length retx)
            then Some ([], tx_with_retx_queue e (rq_pop q), [])
            else
              let expected_hdr_len := get_retx_expected_hdr_len e retx in
              if grant_len <=? expected_hdr_len then Some ([], e, [])
              else
                let retx_payload_len := Z.min (retx_length retx) (grant_len - expected_hdr_len) in
                let sdu_complete := retx_payload_len =? retx_length retx in
                let si := retx_si retx sdu_complete in
                match (if sdu_complete then Some (rq_pop q)
                       else rq_replace_front q
                              (Retx (retx_sn retx) (u32 (retx_so retx + retx_payload_len))
                                 (retx_length retx - retx_payload_len))) with
                | None => None
                | Some q =>
                    let e := tx_with_retx_queue e q in
                    let '(p, e) := get_polling_bit e (retx_sn retx) true 0 in
                    let hdr := AmHeader dc_data p si (tx_sn_field_length (tx_cfg e)) (retx_sn retx)
                                 (u16 (retx_so retx)) in
                    let header_buf := rlc_am_write_data_pdu_header hdr [] in
                    if negb (blen header_buf =? expected_hdr_len) then None (* srsran_assert *)
                    else Some (header_buf ++ slice (hdr_so hdr) retx_payload_len (tx_sdu sdu_info), e, [])
                end
        end
    end.

(** ** MAC opportunities *)
Definition pull_status_pdu (e : rlc_tx_am_entity) (p : P) (grant_len : Z) : bytes * P :=
  if grant_len <? rlc_am_nr_status_pdu_sizeof_header_ack_sn then ([], p)
  else
    let '(status_pdu, p) := provider_get_status_pdu p in
    if grant_len <? packed_size status_pdu then
      let '(ok, status_pdu) := trim status_pdu grant_len in
      if negb ok then ([], p) else (pack status_pdu [], p)
    else (pack status_pdu [], p).

Definition pull_pdu (e : rlc_tx_am_entity) (p : P) (grant_len : Z)
    : option (bytes * rlc_tx_am_entity * P * list tx_event) :=
  if provider_status_report_required p then
    let '(pdu, p) := pull_status_pdu e p grant_len in Some (pdu, e, p, [])
  else
    match (if negb (rq_is_empty (tx_retx_queue e)) then build_retx_pdu e grant_len
           else if negb (sn_under_segmentation e =? INVALID_RLC_SN)
                   && win_has_sn (tx_window e) (sn_under_segmentation e) then
             match win_at (tx_window e) (sn_under_segmentation e) with
             | None => None
             | Some i => build_continued_sdu_segment e (sn_under_segmentation e) i grant_len
             end
           else
             let e := tx_with_segmentation e INVALID_RLC_SN in
             if sq_is_empty (tx_sdu_queue e) then Some ([], e, []) else build_new_pdu e grant_len) with
    | None => None
    | Some (pdu, e, evs) => Some (pdu, e, p, evs)
    end.

(** ** STATUS reports *)

(** The segment [so_start, so_end] a NACK asks for, adjusted to the SDU. *)
Definition clip_nack (sdu_length : Z) (nack : rlc_am_status_nack) : Z * Z :=
  let last := u16 (sdu_length - 1) in
  let so0 := if has_so nack then so_start nack else 0 in
  let se0 := if has_so nack then so_end nack else last in
  let se1 := if se0 =? so_end_of_sdu then last else se0 in
  let so1 := if se1 <? so0 then 0 else so0 in
  let so2 := if sdu_length <=? so1 then 0 else so1 in
  let se2 := if sdu_length <=? se1 then last else se1 in
  (so2, se2).

(** [handle_nack]: the flag tells whether a retransmission was queued. *)
Definition handle_nack (e : rlc_tx_am_entity) (nack : rlc_am_status_nack) : option (bool * rlc_tx_am_entity) :=
  if has_nack_range nack then Some (false, e)
  else if negb ((tx_mod_base e (tx_next_ack (tx_st e)) <=? tx_mod_base e (nack_sn nack))
                && (tx_mod_base e (nack_sn nack) <=? tx_mod_base e (tx_next (tx_st e)))) then Some (false, e)
  else
    match win_at (tx_window e) (nack_sn nack) with
    | None => None
    | Some i =>
        let '(so, se) := clip_nack (u32 (blen (tx_sdu i))) nack in
        let len := u32 (se - so + 1) in
        if rq_has_sn_segment (tx_retx_queue e) (nack_sn nack) so len then Some (false, e)
        else Some (true, tx_with_retx_queue e (rq_push (tx_retx_queue e) (Retx (nack_sn nack) so len)))
    end.

(** Processing of ACKs up to (not including) [stop_sn]: the highest delivered
    PDCP SN and the new state. *)
Fixpoint process_acks (fuel : nat) (e : rlc_tx_am_entity) (sn stop_sn : Z) (max_deliv : option Z)
    : option (option Z * rlc_tx_am_entity) :=
  if tx_mod_base e sn <? tx_mod_base e stop_sn then
    match fuel with
    | O => None
    | S fuel =>
        if win_has_sn (tx_window e) sn then
          match win_at (tx_window e) sn, win_remove_sn (tx_window e) sn with
          | Some i, Some w =>
              let max_deliv := match tx_pdcp_sn i with Some n => Some n | None => max_deliv end in
              let e := tx_with_retx_queue e (rq_remove_sn (tx_retx_queue e) sn).2 in
              let e := tx_with_window e w in
              let e := tx_with_st e (set_tx_next_ack (tx_st e) ((sn + 1) mod tx_mod e)) in
              process_acks fuel e ((sn + 1) mod tx_mod e) stop_sn max_deliv
          | _, _ => None
          end
        else Some (max_deliv, e) (* not found: logged, loop left *)
    end
  else Some (max_deliv, e).

(** The SNs added for retransmission, a [std::set]. *)
Fixpoint sn_set_insert (x : Z) (l : list Z) : list Z :=
  match l with
  | [] => [x]
  | y :: r => if x <? y then x :: l else if y <? x then y :: sn_set_insert x r else l
  end.

(** The NACK of one SN of a NACK range. *)
Definition range_item (e : rlc_tx_am_entity) (nack : rlc_am_status_nack) (range_sn : Z) : rlc_am_status_nack :=
  if has_so nack then
    let s := if range_sn =? nack_sn nack then so_start nack else 0 in
    let t := if range_sn =? u32 (nack_sn nack + nack_range nack - 1) mod tx_mod e
             then so_end nack else so_end_of_sdu in
    Nack range_sn (negb (s =? 0) || negb (t =? so_end_of_sdu)) s t false 0
  else Nack range_sn false 0 so_end_of_sdu false 0.

Fixpoint process_nack_range (fuel : nat) (e : rlc_tx_am_entity) (ack_sn : Z) (nack : rlc_am_status_nack)
    (range_sn : Z) (retx_sn_set : list Z) : option (rlc_tx_am_entity * list Z) :=
  if range_sn =? u32 (nack_sn nack + nack_range nack) mod tx_mod e then Some (e, retx_sn_set)
  else
    match fuel with
    | O => None
    | S fuel =>
        if range_sn =? ack_sn then Some (e, retx_sn_set) (* truncated *)
        else
          match handle_nack e (range_item e nack range_sn) with
          | None => None
          | Some (queued, e) =>
              process_nack_range fuel e ack_sn nack ((range_sn + 1) mod tx_mod e)
                (if queued then sn_set_insert range_sn retx_sn_set else retx_sn_set)
          end
    end.

Fixpoint process_nacks (e : rlc_tx_am_entity) (ack_sn : Z) (ns : list rlc_am_status_nack)
    (retx_sn_set : list Z) : option (rlc_tx_am_entity * list Z) :=
  match ns with
  | [] => Some (e, retx_sn_set)
  | nack :: ns =>
      match (if has_nack_range nack
             then process_nack_range (Z.to_nat (tx_mod e)) e ack_sn nack (nack_sn nack) retx_sn_set
             else match handle_nack e nack with
                  | None => None
                  | Some (queued, e) =>
                      Some (e, if queued then sn_set_insert (nack_sn nack) retx_sn_set else retx_sn_set)
                  end) with
      | None => None
      | Some (e, retx_sn_set) => process_nacks e ack_sn ns retx_sn_set
      end
  end.

(** [check_sn_reached_max_retx] for the SN's container. *)
Definition check_sn_reached_max_retx (e : rlc_tx_am_entity) (i : rlc_tx_am_sdu_info) : list tx_event :=
  if retx_count i =? max_retx_thresh (tx_cfg e) then [on_max_retx] else [].

Fixpoint count_retx (e : rlc_tx_am_entity) (sns : list Z) (evs : list tx_event)
    : option (rlc_tx_am_entity * list tx_event) :=
  match sns with
  | [] => Some (e, evs)
  | sn :: sns =>
      match win_at (tx_window e) sn with
      | None => None
      | Some i =>
          let i := set_retx_count i
                     (if retx_count i =? RETX_COUNT_NOT_STARTED then 0 else u32 (retx_count i + 1)) in
          match win_set (tx_window e) sn i with
          | None => None
          | Some w =>
              let e := tx_with_window e w in
              count_retx e sns (evs ++ check_sn_reached_max_retx e i)
          end
      end
  end.

Definition handle_status_pdu (e : rlc_tx_am_entity) (p : P) (status : rlc_am_status_pdu)
    : option (rlc_tx_am_entity * list tx_event) :=
  if negb (valid_ack_sn e (ack_sn status)) then Some (e, [])
  else if tx_mod_base e (u32 (tx_next (tx_st e) + 1)) <? tx_mod_base e (ack_sn status) then Some (e, [])
  else if negb (forallb (valid_nack e (ack_sn status)) (nacks status)) then Some (e, [])
  else
    let e := if tx_mod_base e (poll_sn (tx_st e)) <? tx_mod_base e (ack_sn status)
             then tx_with_poll_timer e false (is_poll_retransmit_timer_expired e) else e in
    let stop_sn := match nacks status with [] => ack_sn status | n :: _ => nack_sn n end in
    match process_acks (Z.to_nat (tx_mod e)) e (tx_next_ack (tx_st e)) stop_sn None with
    | None => None
    | Some (max_deliv, e) =>
        let evs1 := match max_deliv with Some n => [on_delivered_sdu n] | None => [] end in
        match process_nacks e (ack_sn status) (nacks status) [] with
        | None => None
        | Some (e, retx_sn_set) =>
            let '(e, evs2) := update_mac_buffer_state e p in
            count_retx e retx_sn_set (evs1 ++ evs2)
        end
    end.

(** ** t-PollRetransmit *)
Definition on_expired_poll_retransmit_timer (e : rlc_tx_am_entity) (p : P)
    : option (rlc_tx_am_entity * list tx_event) :=
  let expired e := tx_with_poll_timer e (poll_retransmit_timer e) true in
  if buffers_empty e || win_full (tx_window e) then
    if win_empty (tx_window e) then Some (e, [])
    else if negb (win_has_sn (tx_window e) (tx_next_ack (tx_st e))) then Some (e, [])
    else
      match win_at (tx_window e) (tx_next_ack (tx_st e)) with
      | None => None
      | Some i =>
          let e := tx_with_retx_queue e
                     (rq_push (tx_retx_queue e) (Retx (tx_next_ack (tx_st e)) 0 (u32 (blen (tx_sdu i))))) in
          let '(e, evs) := update_mac_buffer_state e p in
          Some (expired e, evs)
      end
  else Some (expired e, []).
End TxAm.
Arguments rlc_tx_am_entity Win : clear implicits.
