(* ===== verification/RlcTxAmThms.v ===== *)
(** * RLC AM transmitting entity: invariant and lemmas

    The invariant of the transmitting entity (window contents between TX_Next_Ack
    and TX_Next, segmentation progress, bounds of queued retransmissions) and the
    behaviour of each operation on it. *)
From S2P Require Import Prelude CircularMap RlcAmWindow RlcAmPdu RlcAmStatus RlcAmStatusThms RlcSegments RlcQueues RlcTxAm.

(** SDUs are smaller than 64 KiB, so that offsets fit the 16-bit SO field. *)
Definition sdu_max : Z := 65535.

Lemma discard_first_small n l x l' :
  Forall (fun x => blen (sdu_buf x) <= sdu_max) l -> discard_first n l = Some (x, l') ->
  Forall (fun x => blen (sdu_buf x) <= sdu_max) l'.
Proof.
  revert l'. induction l as [|y l IH]; intros l' Hl; simpl; [done|]. apply list.Forall_cons in Hl as [Hy Hl].
  case_match; [intros [= <- <-]; constructor; [unfold sdu_max; simpl; rewrite blen_nil; lia|done]|].
  destruct (discard_first n l) as [[z r]|]; [|done]. intros [= -> <-]. constructor; [done|]. by apply IH.
Qed.

Record tx_entry_ok (i : rlc_tx_am_sdu_info) : Prop := {
  te_sdu : 0 < blen (tx_sdu i) <= sdu_max;
  te_so : 0 <= next_so i <= blen (tx_sdu i);
}.

Lemma am_header_min_range s : 2 <= rlc_am_pdu_header_min_size s <= 3.
Proof. destruct s; simpl; lia. Qed.

Section TxInv.
  Context {Win : Type} {WB : rlc_am_window_base rlc_tx_am_sdu_info Win}.
  Context (s : rlc_am_sn_size) {WL : rlc_am_window_laws WB (half s) tx_sdu_info_default}.

Definition txmap (e : rlc_tx_am_entity Win) : gmap Z rlc_tx_am_sdu_info := win_map (tx_window e).
Definition segmenting (e : rlc_tx_am_entity Win) : bool := negb (sn_under_segmentation e =? INVALID_RLC_SN).

#[local] Abbreviation T e := (base s (tx_next_ack (tx_st e))).
#[local] Abbreviation nxt e := (tx_next (tx_st e)).

(** Number of SDUs in the window. *)
Definition tx_used (e : rlc_tx_am_entity Win) : Z := T e (nxt e) + (if segmenting e then 1 else 0).

Record retx_ok (x : rlc_tx_amd_retx) : Prop := {
  ro_sn : is_sn s (retx_sn x);
  ro_so : 0 <= retx_so x;
  ro_len : 0 < retx_length x;
  ro_end : retx_so x + retx_length x <= sdu_max;
}.

Record tx_inv (e : rlc_tx_am_entity Win) : Prop := {
  ti_cfg : tx_sn_field_length (tx_cfg e) = s;
  ti_win : win_ok (tx_window e);
  ti_ack : is_sn s (tx_next_ack (tx_st e));
  ti_next : is_sn s (nxt e);
  ti_used : tx_used e <= half s;
  ti_keys : forall k, is_Some (txmap e !! k) <-> is_sn s k /\ T e k < tx_used e;
  ti_entries : forall k i, txmap e !! k = Some i -> tx_entry_ok i;
  ti_seg : segmenting e = true -> sn_under_segmentation e = nxt e
    /\ exists i, txmap e !! nxt e = Some i /\ 0 < next_so i < blen (tx_sdu i);
  ti_retx : Forall retx_ok (rq_queue (tx_retx_queue e));
  ti_queue : Forall (fun x => blen (sdu_buf x) <= sdu_max) (sq_queue (tx_sdu_queue e));
}.

Lemma tx_inv_init cfg w : tx_sn_field_length cfg = s -> win_ok w -> win_map w = ∅ ->
  tx_inv (tx_am_new cfg w).
Proof.
  intros Hc Hw He. pose proof (am_mod_pos s). pose proof (half_pos s).
  assert (is_sn s 0) by (unfold is_sn; lia).
  split; unfold tx_used, txmap; simpl; try done; rewrite ?base_self; try lia.
  - intros k. rewrite He, lookup_empty. split; [by intros [? [=]]|].
    intros [_ Hk]. pose proof (base_range s 0 k). lia.
  - intros k i. by rewrite He, lookup_empty.
Qed.

(** The invariant does not depend on poll state, timers and buffer state. *)
Lemma tx_inv_ext e e' :
  tx_inv e -> tx_cfg e' = tx_cfg e -> tx_next_ack (tx_st e') = tx_next_ack (tx_st e) ->
  nxt e' = nxt e -> tx_sdu_queue e' = tx_sdu_queue e ->
  sn_under_segmentation e' = sn_under_segmentation e -> tx_retx_queue e' = tx_retx_queue e ->
  tx_window e' = tx_window e -> tx_inv e'.
Proof.
  intros Hi E1 E2 E3 E4 E5 E6 E7. destruct Hi as [H1 H2 H3 H4 H5 H6 H7 H8 H9 H10].
  unfold tx_used, segmenting, txmap in *.
  split; unfold tx_used, segmenting, txmap; rewrite ?E1, ?E2, ?E3, ?E4, ?E5, ?E6, ?E7; done.
Qed.

Lemma tx_mod_eq e : tx_inv e -> tx_mod e = am_mod s.
Proof. intros H. unfold tx_mod. by rewrite (ti_cfg _ H). Qed.
Lemma tx_mod_base_eq (e : rlc_tx_am_entity Win) x : tx_sn_field_length (tx_cfg e) = s -> tx_mod_base e x = T e x.
Proof. intros H. unfold tx_mod_base, tx_mod. rewrite H. apply base_u32. Qed.
Lemma tx_window_size_eq e : tx_inv e -> tx_am_window_size e = half s.
Proof. intros H. unfold tx_am_window_size. by rewrite (ti_cfg _ H). Qed.

(** ** Window occupancy *)

(** A map whose keys are the [n] SNs from [r] on has [n] elements. *)
Lemma window_count {A} (M : gmap Z A) r n :
  is_sn s r -> 0 <= n <= am_mod s ->
  (forall k, is_Some (M !! k) <-> is_sn s k /\ base s r k < n) -> Z.of_nat (size M) = n.
Proof.
  intros Hr Hn Hk. pose proof (am_mod_pos s).
  set (f i := (r + i) mod am_mod s).
  assert (forall i, 0 <= i < am_mod s -> base s r (f i) = i) as Hf.
  { intros i Hi. unfold base, f. rewrite Zminus_mod_idemp_l. rewrite Z.mod_small; lia. }
  assert (dom M = list_to_set (f <$> seqZ 0 n)) as Hd.
  { apply set_eq. intros k. rewrite elem_of_dom, Hk, elem_of_list_to_set, list_elem_of_fmap. split.
    - intros [Hs Hb]. pose proof (base_range s r k). exists (base s r k).
      rewrite elem_of_seqZ. split; [|lia]. apply (base_inj s r); [done|done| |].
      + apply Z.mod_pos_bound. lia.
      + rewrite Hf by done. done.
    - intros (i & -> & Hi%elem_of_seqZ). rewrite Hf by lia. split; [|lia]. apply Z.mod_pos_bound. lia. }
  rewrite <- size_dom, Hd, size_list_to_set.
  - rewrite length_fmap, length_seqZ. lia.
  - apply NoDup_fmap_2_strong; [|apply NoDup_seqZ]. intros x y Hx%elem_of_seqZ Hy%elem_of_seqZ E.
    apply (f_equal (base s r)) in E. rewrite !Hf in E by lia. done.
Qed.

Lemma tx_used_range e : tx_inv e -> 0 <= tx_used e.
Proof.
  intros Hi. unfold tx_used. pose proof (base_range s (tx_next_ack (tx_st e)) (nxt e)). case_match; lia.
Qed.

Lemma win_size_used e : tx_inv e -> win_size (tx_window e) = tx_used e.
Proof.
  intros Hi. rewrite win_size_map by apply Hi. pose proof (half_twice s). pose proof (half_pos s).
  pose proof (tx_used_range e Hi). pose proof (ti_used _ Hi).
  apply (window_count _ (tx_next_ack (tx_st e))); [apply Hi|lia|]. intros k. by apply ti_keys.
Qed.

Lemma win_full_used e : tx_inv e -> win_full (tx_window e) = (tx_used e =? half s).
Proof. intros Hi. rewrite win_full_map by apply Hi. by rewrite win_size_used. Qed.

(** ** Poll bit *)
Definition same_but_poll (e e' : rlc_tx_am_entity Win) : Prop :=
  tx_cfg e' = tx_cfg e /\ tx_next_ack (tx_st e') = tx_next_ack (tx_st e) /\ nxt e' = nxt e
  /\ tx_sdu_queue e' = tx_sdu_queue e /\ sn_under_segmentation e' = sn_under_segmentation e
  /\ tx_retx_queue e' = tx_retx_queue e /\ tx_window e' = tx_window e.

Lemma get_polling_bit_frame (e : rlc_tx_am_entity Win) q r n :
  exists p e', get_polling_bit e q r n = (p, e') /\ (p = 0 \/ p = 1) /\ same_but_poll e e'.
Proof.
  unfold get_polling_bit. case_match; eexists _, _; (split; [reflexivity|]); split; auto; done.
Qed.

Lemma tx_inv_poll e e' : same_but_poll e e' -> tx_inv e -> tx_inv e'.
Proof. intros (E1 & E2 & E3 & E4 & E5 & E6 & E7) Hi. by apply (tx_inv_ext e). Qed.

Lemma tx_entry_bound e k i : tx_inv e -> txmap e !! k = Some i ->
  0 < blen (tx_sdu i) <= sdu_max /\ 0 <= next_so i <= blen (tx_sdu i).
Proof. intros Hi Hk. destruct (ti_entries _ Hi _ _ Hk). done. Qed.

Lemma head_sizes e : tx_inv e ->
  head_max_size e = head_min_size e + 2 /\ 2 <= head_min_size e <= 3
  /\ head_min_size e = rlc_am_pdu_header_min_size s.
Proof.
  intros Hi. unfold head_max_size, head_min_size. rewrite (ti_cfg _ Hi).
  unfold rlc_am_pdu_header_max_size, rlc_am_pdu_header_so_size. pose proof (am_header_min_range s). lia.
Qed.

(** ** PDUs *)

(** The SI field that describes the payload at offset [so] of an SDU. *)
Definition exact_si (so len total : Z) : rlc_si_field :=
  if so =? 0 then if len =? total then full_sdu else first_segment
  else if so + len =? total then last_segment else middle_segment.

(** A data PDU that carries bytes of the SDU with its SN in the window [M]. *)
Record data_pdu (M : gmap Z rlc_tx_am_sdu_info) (h : rlc_am_pdu_header) (payload pdu : bytes) : Prop := {
  dp_pdu : pdu = rlc_am_write_data_pdu_header h payload;
  dp_dc : hdr_dc h = dc_data;
  dp_size : hdr_sn_size h = s;
  dp_ok : am_header_ok h;
  dp_payload : 0 < blen payload;
  dp_sdu : exists i, M !! hdr_sn h = Some i
    /\ payload = slice (hdr_so h) (blen payload) (tx_sdu i)
    /\ hdr_so h + blen payload <= blen (tx_sdu i);
}.

(** A PDU of a new transmission: its SI field is exact. *)
Definition new_pdu (M : gmap Z rlc_tx_am_sdu_info) (h : rlc_am_pdu_header) (payload pdu : bytes) : Prop :=
  data_pdu M h payload pdu
  /\ forall i, M !! hdr_sn h = Some i -> hdr_si h = exact_si (hdr_so h) (blen payload) (blen (tx_sdu i)).

Lemma exact_si_has_so so len total : si_has_so (exact_si so len total) = negb (so =? 0).
Proof. unfold exact_si, si_has_so. by repeat case_match. Qed.

Lemma new_pdu_intro M i p q so len :
  (p = 0 \/ p = 1) -> is_sn s q -> M !! q = Some i -> blen (tx_sdu i) <= sdu_max ->
  0 <= so -> 0 < len -> so + len <= blen (tx_sdu i) ->
  let h := AmHeader dc_data p (exact_si so len (blen (tx_sdu i))) s q so in
  let payload := slice so len (tx_sdu i) in
  new_pdu M h payload (rlc_am_write_data_pdu_header h payload)
  /\ blen (rlc_am_write_data_pdu_header h payload)
     = (if so =? 0 then rlc_am_pdu_header_min_size s else rlc_am_pdu_header_max_size s) + len.
Proof.
  intros Hp Hq Hi Hmax Hso Hlen Hend h payload. unfold sdu_max in Hmax.
  assert (am_header_ok h) as Hok.
  { split; simpl; try done; [unfold is_u16; lia|apply exact_si_has_so]. }
  assert (blen payload = len) as Hpl by (unfold payload; rewrite blen_slice; lia).
  split.
  - split; [split; simpl; try done; try lia|].
    + exists i. rewrite Hpl. done.
    + simpl. rewrite Hi, Hpl. by intros ? [= ->].
  - rewrite am_header_len by done. unfold rlc_am_pdu_header_get_packed_size. simpl.
    rewrite exact_si_has_so, Hpl. by destruct (so =? 0).
Qed.

(** ** Building PDUs *)
Definition empty_or (Q : bytes -> Prop) (pdu : bytes) : Prop := pdu = [] \/ Q pdu.

(** The window after the container of TX_Next changed. *)
Lemma set_entry_inv e e' w k i i' :
  tx_inv e -> txmap e !! k = Some i -> win_ok w -> win_map w = <[k := i']> (txmap e) -> tx_entry_ok i' ->
  tx_cfg e' = tx_cfg e -> tx_next_ack (tx_st e') = tx_next_ack (tx_st e) ->
  tx_sdu_queue e' = tx_sdu_queue e -> tx_retx_queue e' = tx_retx_queue e -> tx_window e' = w ->
  is_sn s (nxt e') -> tx_used e' = tx_used e ->
  (segmenting e' = true -> sn_under_segmentation e' = nxt e'
    /\ exists j, <[k := i']> (txmap e) !! nxt e' = Some j /\ 0 < next_so j < blen (tx_sdu j)) ->
  tx_inv e'.
Proof.
  intros Hi Hk Hw Hm Hi' E1 E2 E4 E6 E7 Hn Hu Hseg. split; rewrite ?E1, ?E2, ?E4, ?E6; try done; try apply Hi.
  - by rewrite E7.
  - rewrite Hu. apply Hi.
  - intros x. unfold txmap. rewrite E7, Hm, Hu, <- (ti_keys _ Hi x).
    rewrite lookup_insert. case_decide as Hd; [subst x; rewrite Hk; split; by eexists|done].
  - intros x j. unfold txmap. rewrite E7, Hm, lookup_insert. case_decide; [by intros [= <-]|].
    apply (ti_entries _ Hi).
  - unfold txmap. by rewrite E7, Hm.
Qed.

(** The position in the stream of new bytes: TX_Next and the offset of the next
    byte of its SDU. *)
Definition tx_offset (e : rlc_tx_am_entity Win) : Z :=
  if segmenting e then match txmap e !! nxt e with Some i => next_so i | None => 0 end else 0.

(** A PDU that takes up the stream where it stood and moves it on. *)
Definition advances (e : rlc_tx_am_entity Win) (h : rlc_am_pdu_header) (payload : bytes)
    (e' : rlc_tx_am_entity Win) : Prop :=
  hdr_sn h = nxt e /\ hdr_so h = tx_offset e
  /\ exists i, txmap e' !! nxt e = Some i
     /\ if hdr_so h + blen payload =? blen (tx_sdu i)
        then nxt e' = (nxt e + 1) mod am_mod s /\ tx_offset e' = 0
        else nxt e' = nxt e /\ tx_offset e' = hdr_so h + blen payload.

Lemma INVALID_not_sn : ~ is_sn s INVALID_RLC_SN.
Proof. unfold is_sn, INVALID_RLC_SN. rewrite am_mod_values. intros [_ ?]. case_match; lia. Qed.
Lemma is_sn_valid q : is_sn s q -> (q =? INVALID_RLC_SN) = false.
Proof. intros Hq. apply Z.eqb_neq. intros ->. by apply INVALID_not_sn in Hq. Qed.

Lemma tx_next_succ e : tx_inv e -> T e (nxt e) + 1 <= half s ->
  T e ((nxt e + 1) mod am_mod s) = T e (nxt e) + 1.
Proof.
  intros Hi Hle. pose proof (half_twice s). pose proof (half_pos s). apply base_succ; [apply Hi..|lia].
Qed.

(** ** A segment of the SDU under segmentation *)

(** The part of [build_continued_sdu_segment] after the segment is chosen. *)
Definition send_segment (e : rlc_tx_am_entity Win) (q : Z) (i : rlc_tx_am_sdu_info) (si : rlc_si_field)
    (len : Z) : tx_result :=
  let '(p, e) := get_polling_bit e (nxt e) false len in
  let hdr := AmHeader dc_data p si (tx_sn_field_length (tx_cfg e)) (nxt e) (u16 (next_so i)) in
  let pdu := rlc_am_write_data_pdu_header hdr (slice (hdr_so hdr) len (tx_sdu i)) in
  match win_set (tx_window e) q (set_next_so i (u32 (next_so i + len))) with
  | None => None
  | Some w =>
      let e := tx_with_window e w in
      let e := if bool_decide (si = last_segment)
               then tx_with_st e (set_tx_next (tx_st e) ((nxt e + 1) mod tx_mod e)) else e in
      Some (pdu, e, [])
  end.

Lemma send_segment_spec e e1 i si len :
  tx_inv e -> segmenting e = true -> txmap e !! nxt e = Some i -> 0 < next_so i -> 0 < len ->
  next_so i + len <= blen (tx_sdu i) -> si = exact_si (next_so i) len (blen (tx_sdu i)) ->
  e1 = (if next_so i + len =? blen (tx_sdu i) then tx_with_segmentation e INVALID_RLC_SN else e) ->
  exists p e', send_segment e1 (nxt e) i si len
      = Some (rlc_am_write_data_pdu_header (AmHeader dc_data p si s (nxt e) (next_so i))
                (slice (next_so i) len (tx_sdu i)), e', [])
    /\ (p = 0 \/ p = 1) /\ tx_inv e' /\ tx_next_ack (tx_st e') = tx_next_ack (tx_st e)
    /\ txmap e' !! nxt e = Some (set_next_so i (next_so i + len))
    /\ if next_so i + len =? blen (tx_sdu i)
       then nxt e' = (nxt e + 1) mod am_mod s /\ tx_offset e' = 0
       else nxt e' = nxt e /\ tx_offset e' = next_so i + len.
Proof.
  intros Hi Hsg Hk Hso Hl Hend Hsi He1. unfold send_segment.
  destruct (tx_entry_bound e _ _ Hi Hk) as [Hlen _]. pose proof Hlen as Hlen'. unfold sdu_max in Hlen'.
  pose proof (ti_used _ Hi) as Hused. unfold tx_used in Hused. rewrite Hsg in Hused.
  destruct (get_polling_bit_frame e1 (nxt e1) false len) as (p & e2 & -> & Hp & F1 & F2 & F3 & F4 & F5 & F6 & F7).
  destruct (win_set_map (tx_window e) (nxt e) (set_next_so i (u32 (next_so i + len))))
    as (w & Hset & Hw & Hm); [apply Hi|by eexists|].
  assert (tx_cfg e1 = tx_cfg e /\ tx_st e1 = tx_st e /\ tx_window e1 = tx_window e
          /\ tx_sdu_queue e1 = tx_sdu_queue e /\ tx_retx_queue e1 = tx_retx_queue e)
    as (G1 & G2 & G3 & G4 & G5) by (rewrite He1; by case_match).
  rewrite F1, F3, F7, G1, G2, G3, Hset, (ti_cfg _ Hi), u16_id by (unfold is_u16; lia).
  rewrite (u32_id (next_so i + len)) in Hm by (unfold is_u32; lia).
  assert (tx_mod (tx_with_window e2 w) = am_mod s) as ->.
  { unfold tx_mod. simpl. by rewrite F1, G1, (ti_cfg _ Hi). }
  set (i' := set_next_so i (next_so i + len)) in Hm.
  assert (tx_entry_ok i') as Hi' by (split; simpl; [done|lia]).
  assert (txmap (tx_with_window e2 w) !! nxt e = Some i') as Hk'.
  { unfold txmap. simpl. rewrite Hm. apply lookup_insert_eq. }
  eexists p, _. split; [reflexivity|]. split; [done|].
  unfold exact_si in Hsi. rewrite (proj2 (Z.eqb_neq (next_so i) 0)) in Hsi by lia.
  destruct (Z.eqb_spec (next_so i + len) (blen (tx_sdu i))) as [Eq|Ne]; subst si e1.
  - rewrite bool_decide_true by done. simpl. rewrite F2.
    split; [|split; [done|split; [exact Hk'|split; [by rewrite F3|]]]].
    + eapply (set_entry_inv e _ w (nxt e) i i'); try done; simpl; try congruence.
      * rewrite F3. apply sn_succ.
      * unfold tx_used. rewrite Hsg. unfold segmenting. simpl. rewrite F2, F3, F5. simpl.
        rewrite tx_next_succ by (done || lia). lia.
      * unfold segmenting. simpl. by rewrite F5.
    + unfold tx_offset, segmenting. simpl. by rewrite F5.
  - rewrite bool_decide_false by done. simpl. rewrite F2.
    assert (segmenting (tx_with_window e2 w) = true) as Hs'.
    { unfold segmenting in *. simpl. by rewrite F5. }
    split; [|split; [done|split; [exact Hk'|split; [by rewrite F3|]]]].
    + eapply (set_entry_inv e _ w (nxt e) i i'); try done; simpl; try congruence.
      * rewrite F3. apply Hi.
      * unfold tx_used. rewrite Hs', Hsg. simpl. by rewrite F2, F3.
      * intros _. rewrite F3, F5. destruct (ti_seg _ Hi Hsg) as [-> _]. split; [done|].
        exists i'. rewrite lookup_insert_eq. split; [done|]. simpl. lia.
    + unfold tx_offset. rewrite Hs'. simpl. by rewrite F3, Hk'.
Qed.

Lemma build_continued_sdu_segment_spec e i grant :
  tx_inv e -> segmenting e = true -> txmap e !! nxt e = Some i ->
  0 < next_so i < blen (tx_sdu i) ->
  exists pdu e', build_continued_sdu_segment e (nxt e) i grant = Some (pdu, e', [])
    /\ tx_inv e' /\ tx_next_ack (tx_st e') = tx_next_ack (tx_st e)
    /\ if grant <=? head_max_size e then pdu = [] /\ e' = e
       else exists h payload, new_pdu (txmap e') h payload pdu /\ blen pdu <= grant
            /\ advances e h payload e'.
Proof.
  intros Hi Hsg Hk Hso. unfold build_continued_sdu_segment.
  destruct (tx_entry_bound e _ _ Hi Hk) as [Hlen _]. pose proof Hlen as Hlen'. unfold sdu_max in Hlen'.
  destruct (head_sizes e Hi) as (Hmax & Hmin & Hms).
  rewrite (proj2 (Z.eqb_neq (next_so i) 0)) by lia.
  rewrite (proj2 (Z.leb_gt (blen (tx_sdu i)) (next_so i))) by lia.
  destruct (Z.leb_spec grant (head_max_size e)) as [Hle|Hgt]; [by eexists _, _|].
  rewrite (u32_id (blen (tx_sdu i) - next_so i)) by (unfold is_u32; lia).
  rewrite (u32_id (blen (tx_sdu i) - next_so i + head_max_size e)) by (unfold is_u32; lia).
  set (len := Z.min (blen (tx_sdu i) - next_so i) (grant - head_max_size e)).
  destruct (send_segment_spec e (if next_so i + len =? blen (tx_sdu i) then tx_with_segmentation e INVALID_RLC_SN else e)
              i (exact_si (next_so i) len (blen (tx_sdu i))) len)
    as (p & e' & Hsend & Hp & Hi' & Hack & Hk' & Hadv); try done; try lia.
  destruct (new_pdu_intro (txmap e') (set_next_so i (next_so i + len)) p (nxt e) (next_so i) len)
    as [Hnew Hsz]; [done|apply (ti_next _ Hi)|exact Hk'|simpl; lia..|].
  eexists _, e'. split; [|split; [done|split; [done|]]].
  - rewrite <- Hsend. unfold send_segment, exact_si.
    rewrite (proj2 (Z.eqb_neq (next_so i) 0)) by lia. unfold len.
    destruct (Z.ltb_spec grant (blen (tx_sdu i) - next_so i + head_max_size e)).
    + rewrite Z.min_r by lia. by rewrite (proj2 (Z.eqb_neq (next_so i + (grant - head_max_size e)) _)) by lia.
    + rewrite Z.min_l by lia.
      by rewrite (proj2 (Z.eqb_eq (next_so i + (blen (tx_sdu i) - next_so i)) _)) by lia.
  - eexists _, _. split; [exact Hnew|]. split.
    + simpl in *. rewrite Hsz, (proj2 (Z.eqb_neq (next_so i) 0)) by lia.
      unfold rlc_am_pdu_header_max_size, rlc_am_pdu_header_so_size in *. lia.
    + split; [done|]. simpl. unfold tx_offset at 1. rewrite Hsg, Hk. split; [done|].
      eexists. split; [exact Hk'|]. simpl. rewrite blen_slice by lia. exact Hadv.
Qed.

(** ** A new SDU *)
Lemma sq_read_sub q :
  let '(r, q') := sq_read q in
  (forall x, r = Some x -> x ∈ sq_queue q /\ sdu_buf x <> [])
  /\ (forall x, x ∈ sq_queue q' -> x ∈ sq_queue q).
Proof.
  unfold sq_read. generalize (sq_queue q) as l. intros l. revert q.
  assert (forall (q : rlc_sdu_queue),
    let '(r, q') := sq_read_loop l q in
    (forall x, r = Some x -> x ∈ l /\ sdu_buf x <> []) /\ (forall x, x ∈ sq_queue q' -> x ∈ l)) as H;
    [|apply H].
  clear. induction l as [|x l IH]; intros q; simpl; [by split; [intros ? [=]|]|].
  rewrite is_nil_spec. case_bool_decide as E; simpl.
  - specialize (IH (pop_callback q x)). destruct (sq_read_loop l _) as [r q']. destruct IH as [H1 H2].
    split; intros y Hy; [destruct (H1 y Hy)|]; set_solver.
  - split; [intros y [= <-]; set_solver|]. simpl. set_solver.
Qed.

Lemma tx_add_spec e : tx_inv e -> segmenting e = false -> T e (nxt e) < half s ->
  exists w, win_add_sn (tx_window e) (nxt e) = Some w /\ win_ok w
    /\ win_map w = <[nxt e := tx_sdu_info_default]> (txmap e).
Proof.
  intros Hi Hsg Hlt. unfold txmap.
  assert (win_map (tx_window e) !! nxt e = None) as Hn.
  { destruct (win_map (tx_window e) !! nxt e) eqn:E; [|done].
    destruct (proj1 (ti_keys _ Hi (nxt e))) as [_ H]; [by eexists|].
    unfold tx_used in H. rewrite Hsg in H. lia. }
  destruct (win_add_map (tx_window e) (nxt e)) as (w & -> & Hw & Hm); [apply Hi|done|].
  exists w. split_and!; try done. rewrite Hm. f_equal. apply map_filter_id. intros k i Hk Heq. simpl in Heq.
  destruct (proj1 (ti_keys _ Hi k)) as [Hs Hb]; [by eexists|]. pose proof (ti_used _ Hi).
  eapply base_slots in Heq; [..|exact Hlt]; [|apply Hi|done|apply Hi|lia]. congruence.
Qed.

Lemma add_entry_inv e e' w i' :
  tx_inv e -> segmenting e = false -> T e (nxt e) < half s -> win_ok w ->
  win_map w = <[nxt e := i']> (txmap e) -> tx_entry_ok i' ->
  tx_cfg e' = tx_cfg e -> tx_next_ack (tx_st e') = tx_next_ack (tx_st e) ->
  Forall (fun x => blen (sdu_buf x) <= sdu_max) (sq_queue (tx_sdu_queue e')) ->
  tx_retx_queue e' = tx_retx_queue e -> tx_window e' = w ->
  (nxt e' = (nxt e + 1) mod am_mod s /\ segmenting e' = false
   \/ nxt e' = nxt e /\ sn_under_segmentation e' = nxt e /\ 0 < next_so i' < blen (tx_sdu i')) ->
  tx_inv e'.
Proof.
  intros Hi Hsg Hlt Hw Hm Hi' E1 E2 E4 E6 E7 Hcase.
  assert (tx_used e' = T e (nxt e) + 1) as Hu.
  { unfold tx_used. rewrite E2. destruct Hcase as [[-> ->]|(-> & Hs & _)].
    - rewrite tx_next_succ by (done || lia). lia.
    - unfold segmenting. rewrite Hs, is_sn_valid by apply Hi. done. }
  assert (is_sn s (nxt e')) as Hn'.
  { destruct Hcase as [[-> _]|[-> _]]; [apply sn_succ|apply (ti_next _ Hi)]. }
  split; rewrite ?E1, ?E2, ?E6, ?Hu; try done; try lia; try apply Hi; unfold txmap; rewrite ?E7, ?Hm.
  - done.
  - intros k. rewrite lookup_insert. pose proof (ti_keys _ Hi k) as Hk. unfold tx_used in Hk. rewrite Hsg in Hk.
    case_decide as Hd.
    + subst k. split; [intros _; split; [apply Hi|lia]|by eexists].
    + rewrite Hk. split; [intros [? ?]; split; [done|lia]|]. intros [Hs Hb]. split; [done|].
      destruct (decide (T e k = T e (nxt e))) as [Heq|]; [|lia].
      apply base_inj in Heq; [|apply Hi|done|apply Hi]. congruence.
  - intros k i. rewrite lookup_insert. case_decide; [by intros [= <-]|]. apply (ti_entries _ Hi).
  - intros Hs. destruct Hcase as [[_ Hf]|(Hn & Hs' & Hso)]; [congruence|].
    rewrite Hn, lookup_insert_eq. split; [done|]. by exists i'.
Qed.

(** Sending a new SDU, whole or as its first segment. *)
Lemma build_new_pdu_sdu e q' sdu w0 grant :
  tx_inv e -> segmenting e = false -> T e (nxt e) < half s -> head_min_size e < grant ->
  0 < blen (sdu_buf sdu) <= sdu_max ->
  Forall (fun x => blen (sdu_buf x) <= sdu_max) (sq_queue q') ->
  win_ok w0 -> win_map w0 = <[nxt e := tx_sdu_info_default]> (txmap e) ->
  let i := TxSdu (sdu_buf sdu) (sdu_pdcp_sn sdu) 0 RETX_COUNT_NOT_STARTED in
  exists w, win_set w0 (nxt e) i = Some w /\
  let e1 := tx_with_window (tx_with_sdu_queue e q') w in
  forall evs, exists pdu e',
    (if grant <? blen (tx_sdu i) + head_min_size e1 then build_first_sdu_segment e1 (nxt e) i grant evs
     else let '(p, e) := get_polling_bit e1 (nxt e) false (blen []) in
          let hdr := AmHeader dc_data p full_sdu (tx_sn_field_length (tx_cfg e)) (tx_next (tx_st e1)) 0 in
          Some (rlc_am_write_data_pdu_header hdr (tx_sdu i),
                tx_with_st e (set_tx_next (tx_st e) ((nxt e1 + 1) mod tx_mod e)), evs)) = Some (pdu, e', evs)
    /\ tx_inv e' /\ tx_next_ack (tx_st e') = tx_next_ack (tx_st e)
    /\ exists h payload, new_pdu (txmap e') h payload pdu /\ blen pdu <= grant /\ advances e h payload e'.
Proof.
  intros Hi Hsg Hlt Hg Hlen Hq Hw0 Hm0 i.
  destruct (win_set_map w0 (nxt e) i) as (w & Hset & Hw & Hm); [done|rewrite Hm0, lookup_insert_eq; by eexists|].
  rewrite Hm0, insert_insert_eq in Hm. exists w. split; [done|]. intros e1 evs.
  destruct (head_sizes e Hi) as (_ & Hmin & Hms). pose proof Hlen as Hlen'. unfold sdu_max in Hlen'.
  assert (tx_offset e = 0) as Hoff by (unfold tx_offset; by rewrite Hsg).
  change (head_min_size e1) with (head_min_size e). simpl.
  destruct (Z.ltb_spec grant (blen (sdu_buf sdu) + head_min_size e)) as [Hseg|Hfull].
  - (* first segment *)
    unfold build_first_sdu_segment. simpl. change (head_min_size e1) with (head_min_size e).
    rewrite (proj2 (Z.leb_gt _ grant)) by lia. rewrite (proj2 (Z.leb_gt grant _)) by lia.
    set (len := grant - head_min_size e) in *.
    destruct (get_polling_bit_frame (tx_with_segmentation e1 (nxt e)) (nxt e) false len)
      as (p & e2 & -> & Hp & F1 & F2 & F3 & F4 & F5 & F6 & F7). simpl in *.
    rewrite F1, F3, F7, (ti_cfg _ Hi). change (u16 0) with 0.
    rewrite Z.add_0_l, u32_id by (unfold is_u32; lia).
    destruct (win_set_map w (nxt e) (set_next_so i len)) as (w2 & -> & Hw2 & Hm2);
      [done|rewrite Hm, lookup_insert_eq; by eexists|].
    rewrite Hm, insert_insert_eq in Hm2.
    assert (txmap (tx_with_window e2 w2) !! nxt e = Some (set_next_so i len)) as Hk.
    { unfold txmap. simpl. by rewrite Hm2, lookup_insert_eq. }
    destruct (new_pdu_intro (txmap (tx_with_window e2 w2)) (set_next_so i len) p (nxt e) 0 len)
      as [Hnew Hsz]; [done|apply (ti_next _ Hi)|exact Hk|simpl; lia..|].
    unfold exact_si in Hnew, Hsz. simpl in Hnew, Hsz.
    rewrite (proj2 (Z.eqb_neq len _)) in Hnew, Hsz by lia.
    eexists _, _. split; [reflexivity|]. split; [|split; [done|]].
    + eapply (add_entry_inv e _ w2 (set_next_so i len)); try done; simpl; try congruence.
      * split; simpl; [done|lia].
      * right. rewrite F3, F5. split_and!; try done; lia.
    + eexists _, _. split; [exact Hnew|]. split; [simpl in *; lia|]. split; [done|]. split; [done|].
      eexists. split; [exact Hk|]. simpl. rewrite blen_slice by lia.
      rewrite (proj2 (Z.eqb_neq (0 + len) _)) by lia. split; [done|].
      unfold tx_offset, segmenting. simpl. rewrite F5, is_sn_valid by apply (ti_next _ Hi). simpl.
      rewrite F3, Hk. simpl. lia.
  - (* the whole SDU *)
    destruct (get_polling_bit_frame e1 (nxt e) false (blen []))
      as (p & e2 & -> & Hp & F1 & F2 & F3 & F4 & F5 & F6 & F7). simpl in *.
    rewrite F1, (ti_cfg _ Hi).
    assert (tx_mod e2 = am_mod s) as -> by (unfold tx_mod; by rewrite F1, (ti_cfg _ Hi)).
    set (e' := tx_with_st e2 _).
    assert (txmap e' !! nxt e = Some i) as Hk.
    { unfold txmap, e'. simpl. by rewrite F7, Hm, lookup_insert_eq. }
    destruct (new_pdu_intro (txmap e') i p (nxt e) 0 (blen (sdu_buf sdu)))
      as [Hnew Hsz]; [done|apply (ti_next _ Hi)|exact Hk|simpl; lia..|].
    unfold exact_si in Hnew, Hsz. simpl in Hnew, Hsz. rewrite Z.eqb_refl, slice_all in Hnew, Hsz.
    eexists _, _. split; [reflexivity|]. split; [|split; [done|]].
    + eapply (add_entry_inv e _ w i); try done; simpl; try congruence.
      * split; simpl; [done|lia].
      * left. split; [done|]. unfold segmenting in *. simpl. by rewrite F5.
    + eexists _, _. split; [exact Hnew|]. split; [lia|]. split; [done|]. split; [done|].
      eexists. split; [exact Hk|]. simpl. rewrite Z.eqb_refl. split; [done|].
      unfold tx_offset, segmenting in *. simpl. by rewrite F5, Hsg.
Qed.

Lemma build_new_pdu_spec e grant :
  tx_inv e -> segmenting e = false ->
  exists pdu e' evs, build_new_pdu e grant = Some (pdu, e', evs)
    /\ tx_inv e' /\ tx_next_ack (tx_st e') = tx_next_ack (tx_st e)
    /\ (pdu = [] /\ (grant <= head_min_size e \/ tx_used e = half s \/ (sq_read (tx_sdu_queue e)).1 = None)
        /\ nxt e' = nxt e /\ tx_offset e' = tx_offset e /\ txmap e' = txmap e
        \/ exists h payload, new_pdu (txmap e') h payload pdu /\ blen pdu <= grant
            /\ advances e h payload e').
Proof.
  intros Hi Hsg. unfold build_new_pdu.
  destruct (Z.leb_spec grant (head_min_size e)) as [Hle|Hg].
  { eexists _, _, _. split; [reflexivity|]. eauto 10. }
  destruct (win_full (tx_window e)) eqn:Ef; rewrite win_full_used in Ef by done; breflect.
  { eexists _, _, _. split; [reflexivity|]. eauto 10. }
  pose proof (ti_used _ Hi) as Hu.
  unfold tx_used in Ef, Hu. rewrite Hsg in Ef, Hu.
  pose proof (sq_read_sub (tx_sdu_queue e)) as Hrd.
  destruct (sq_read (tx_sdu_queue e)) as [[sdu|] q']; destruct Hrd as [Hr Hsub].
  all: assert (Forall (fun x => blen (sdu_buf x) <= sdu_max) (sq_queue q')) as Hq'
    by (apply list.Forall_forall; intros x Hx;
        exact (proj1 (list.Forall_forall _ _) (ti_queue _ Hi) x (Hsub x Hx))).
  - destruct (Hr sdu eq_refl) as [Hin Hne]. simpl.
    destruct (tx_add_spec e Hi Hsg) as (w0 & -> & Hw0 & Hm0); [lia|].
    rewrite win_at_map, Hm0, lookup_insert_eq by done. simpl.
    destruct (build_new_pdu_sdu e q' sdu w0 grant) as (w & Hset & Hgo); try done; try lia.
    { split; [by apply nonempty_blen|]. exact (proj1 (list.Forall_forall _ _) (ti_queue _ Hi) sdu Hin). }
    rewrite Hset.
    destruct (Hgo (match sdu_pdcp_sn sdu with Some n => [on_transmitted_sdu n] | None => [] end))
      as (pdu & e' & Heq & Hi' & Hack & Hpdu).
    exists pdu, e', (match sdu_pdcp_sn sdu with Some n => [on_transmitted_sdu n] | None => [] end).
    split; [|split; [done|split; [done|by right]]]. rewrite <- Heq. done.
  - eexists _, _, _. split; [reflexivity|]. split; [|split; [done|by left; eauto 10]].
    destruct Hi as [H1 H2 H3 H4 H5 H6 H7 H8 H9 H10]. by split.
Qed.

(** ** Retransmissions *)
Lemma rq_pop_queue q : rq_queue (rq_pop q) = tail (rq_queue q).
Proof. by destruct q as [[|x l] st]. Qed.

Lemma drop_stale_retx_spec (w : Win) l q :
  rq_queue q = l ->
  rq_queue (drop_stale_retx w l q) `suffix_of` l
  /\ forall x, rq_front (drop_stale_retx w l q) = Some x -> win_has_sn w (retx_sn x) = true.
Proof.
  revert q. induction l as [|x l IH]; intros q E; simpl.
  - rewrite E. split; [done|]. unfold rq_front. by rewrite E.
  - destruct (win_has_sn w (retx_sn x)) eqn:Ew.
    + rewrite E. split; [done|]. unfold rq_front. rewrite E. by intros ? [= <-].
    + destruct (IH (rq_pop q)) as [H1 H2]; [by rewrite rq_pop_queue, E|]. split; [|done].
      by apply suffix_cons_r.
Qed.

Lemma tx_inv_retx e q : tx_inv e -> Forall retx_ok (rq_queue q) -> tx_inv (tx_with_retx_queue e q).
Proof. intros [H1 H2 H3 H4 H5 H6 H7 H8 H9 H10] Hq. by split. Qed.

Definition retx_hdr_len (x : rlc_tx_amd_retx) : Z :=
  if retx_so x =? 0 then rlc_am_pdu_header_min_size s else rlc_am_pdu_header_max_size s.

(** The PDU built for retransmission [x] into a grant. *)
Definition retx_pdu (M : gmap Z rlc_tx_am_sdu_info) (x : rlc_tx_amd_retx) (grant : Z)
    (h : rlc_am_pdu_header) (payload pdu : bytes) : Prop :=
  data_pdu M h payload pdu /\ blen pdu <= grant /\ hdr_sn h = retx_sn x /\ hdr_so h = retx_so x
  /\ blen payload = Z.min (retx_length x) (grant - retx_hdr_len x)
  /\ hdr_si h = retx_si x (blen payload =? retx_length x).

(** The part of the state that retransmissions do not touch. *)
Definition same_stream (e e' : rlc_tx_am_entity Win) : Prop :=
  tx_next_ack (tx_st e') = tx_next_ack (tx_st e) /\ nxt e' = nxt e /\ tx_offset e' = tx_offset e
  /\ txmap e' = txmap e /\ tx_sdu_queue e' = tx_sdu_queue e.

Lemma retx_pdu_intro M i x p grant :
  (p = 0 \/ p = 1) -> retx_ok x -> M !! retx_sn x = Some i ->
  retx_so x + retx_length x <= blen (tx_sdu i) -> retx_hdr_len x < grant ->
  let len := Z.min (retx_length x) (grant - retx_hdr_len x) in
  let h := AmHeader dc_data p (retx_si x (len =? retx_length x)) s (retx_sn x) (retx_so x) in
  blen (rlc_am_write_data_pdu_header h []) = retx_hdr_len x
  /\ retx_pdu M x grant h (slice (retx_so x) len (tx_sdu i))
       (rlc_am_write_data_pdu_header h [] ++ slice (retx_so x) len (tx_sdu i)).
Proof.
  intros Hp [R1 R2 R3 R4] Hi Hend Hg len h. unfold sdu_max in R4.
  assert (blen (slice (retx_so x) len (tx_sdu i)) = len) as Hpl by (apply blen_slice; lia).
  assert (am_header_ok h) as Hok.
  { split; simpl; try done; [unfold is_u16; lia|]. unfold retx_si, si_has_so. by repeat case_match. }
  assert (forall pl, rlc_am_write_data_pdu_header h pl = rlc_am_write_data_pdu_header h [] ++ pl) as Happ.
  { intros pl. unfold rlc_am_write_data_pdu_header. by rewrite app_nil_r, <- app_assoc. }
  assert (rlc_am_pdu_header_get_packed_size h = retx_hdr_len x) as Hsz.
  { unfold rlc_am_pdu_header_get_packed_size. rewrite (ho_si _ Hok). simpl.
    unfold retx_hdr_len. by destruct (retx_so x =? 0). }
  split.
  - rewrite am_header_len, Hsz by done. rewrite blen_nil. lia.
  - rewrite <- Happ. unfold retx_pdu. rewrite am_header_len, Hsz, Hpl by done.
    split; [|split; [lia|done]]. split; try done; [rewrite Hpl; lia|].
    exists i. rewrite Hpl. split_and!; try done. simpl. lia.
Qed.

Lemma build_retx_pdu_spec e grant :
  tx_inv e -> rq_is_empty (tx_retx_queue e) = false ->
  exists pdu e', build_retx_pdu e grant = Some (pdu, e', [])
    /\ tx_inv e' /\ same_stream e e'
    /\ (pdu = [] \/ exists x h payload, x ∈ rq_queue (tx_retx_queue e)
          /\ retx_pdu (txmap e) x grant h payload pdu).
Proof.
  intros Hi Hne. unfold build_retx_pdu. rewrite Hne.
  destruct (drop_stale_retx_spec (tx_window e) (rq_queue (tx_retx_queue e)) (tx_retx_queue e) eq_refl)
    as [Hsuf Hfr].
  set (q := drop_stale_retx _ _ _) in *.
  assert (Forall retx_ok (rq_queue q)) as Hq.
  { destruct Hsuf as [l Hl]. pose proof (ti_retx _ Hi) as Hr. rewrite Hl in Hr. by apply Forall_app in Hr as [_ ?]. }
  pose proof (tx_inv_retx e q Hi Hq) as Hi1.
  assert (same_stream e (tx_with_retx_queue e q)) as Hss by (unfold same_stream; by split_and!).
  destruct (rq_front q) as [x|] eqn:Ex.
  2:{ eexists _, _. split; [reflexivity|]. split; [done|]. split; [done|]. by left. }
  unfold rq_front in Ex. destruct (rq_queue q) as [|x' l] eqn:El; [done|]. injection Ex as ->.
  apply list.Forall_cons in Hq as [Hx Hl]. pose proof Hx as [R1 R2 R3 R4]. unfold sdu_max in R4.
  assert (x ∈ rq_queue (tx_retx_queue e)) as Hin.
  { destruct Hsuf as [l0 Hl0]. rewrite Hl0. set_solver. }
  specialize (Hfr x eq_refl). rewrite win_has_sn_map in Hfr by apply Hi. apply bool_decide_eq_true in Hfr as [i Hxi].
  simpl. rewrite win_at_map, Hxi by apply Hi. rewrite u32_id by (unfold is_u32; lia).
  assert (forall q', Forall retx_ok (rq_queue q') -> tx_inv (tx_with_retx_queue (tx_with_retx_queue e q) q')) as Hset.
  { intros q' Hq'. by apply tx_inv_retx. }
  destruct (Z.ltb_spec (blen (tx_sdu i)) (retx_so x + retx_length x)) as [_|Hend].
  { eexists _, _. split; [reflexivity|]. split; [|split; [unfold same_stream; by split_and!|by left]].
    apply Hset. by rewrite rq_pop_queue, El. }
  assert (get_retx_expected_hdr_len (tx_with_retx_queue e q) x = retx_hdr_len x) as ->.
  { unfold get_retx_expected_hdr_len, head_min_size, head_max_size. simpl. by rewrite (ti_cfg _ Hi). }
  destruct (Z.leb_spec grant (retx_hdr_len x)) as [_|Hg].
  { eexists _, _. split; [reflexivity|]. split; [done|]. split; [done|]. by left. }
  set (len := Z.min (retx_length x) (grant - retx_hdr_len x)) in *.
  assert (exists q', (if len =? retx_length x then Some (rq_pop q)
            else rq_replace_front q (Retx (retx_sn x) (u32 (retx_so x + len)) (retx_length x - len))) = Some q'
          /\ Forall retx_ok (rq_queue q')) as (q' & -> & Hq').
  { destruct (Z.eqb_spec len (retx_length x)).
    - eexists. split; [reflexivity|]. by rewrite rq_pop_queue, El.
    - unfold rq_replace_front. rewrite El, u32_id by (unfold is_u32; lia).
      eexists. split; [reflexivity|]. simpl. constructor; [|done]. split; simpl; unfold sdu_max; try done; lia. }
  destruct (get_polling_bit_frame (tx_with_retx_queue (tx_with_retx_queue e q) q') (retx_sn x) true 0)
    as (p & e2 & -> & Hp & Hframe).
  pose proof Hframe as (F1 & F2 & F3 & F4 & F5 & F6 & F7). simpl in *.
  rewrite F1, (ti_cfg _ Hi), u16_id by (unfold is_u16; lia).
  destruct (retx_pdu_intro (txmap e) i x p grant) as [Hlen Hpdu]; try done. fold len in Hlen, Hpdu.
  rewrite Hlen, Z.eqb_refl. simpl. eexists _, _. split; [reflexivity|]. split; [|split; [|by eauto 10]].
  - eapply tx_inv_poll; [exact Hframe|]. by apply Hset.
  - unfold same_stream, tx_offset, segmenting, txmap. by rewrite F2, F3, F4, F5, F7.
Qed.

(** The first queued retransmission, when its SDU is in the window and the grant takes all of it. *)
Lemma build_retx_pdu_head e grant x l i :
  tx_inv e -> rq_queue (tx_retx_queue e) = x :: l -> txmap e !! retx_sn x = Some i ->
  retx_so x + retx_length x <= blen (tx_sdu i) -> retx_hdr_len x + retx_length x <= grant ->
  exists pdu e' h, build_retx_pdu e grant = Some (pdu, e', [])
    /\ retx_pdu (txmap e) x grant h (slice (retx_so x) (retx_length x) (tx_sdu i)) pdu.
Proof.
  intros Hi Hq Hx Hend Hg. pose proof (ti_retx _ Hi) as Hok. rewrite Hq in Hok.
  apply list.Forall_cons in Hok as [Hxok _]. pose proof Hxok as [R1 R2 R3 R4]. unfold sdu_max in R4.
  unfold build_retx_pdu, rq_is_empty. rewrite Hq. cbn [drop_stale_retx]. unfold txmap in Hx.
  assert (win_has_sn (tx_window e) (retx_sn x) = true) as ->.
  { rewrite win_has_sn_map by apply Hi. apply bool_decide_true. by eexists. }
  unfold rq_front. rewrite Hq. simpl.
  rewrite win_at_map, Hx by apply Hi. rewrite u32_id by (unfold is_u32; lia). rewrite (proj2 (Z.ltb_ge _ _)) by lia.
  assert (get_retx_expected_hdr_len (tx_with_retx_queue e (tx_retx_queue e)) x = retx_hdr_len x) as ->.
  { unfold get_retx_expected_hdr_len, head_min_size, head_max_size. simpl. by rewrite (ti_cfg _ Hi). }
  rewrite (proj2 (Z.leb_gt _ _)), Z.min_l, Z.eqb_refl by lia.
  destruct (get_polling_bit_frame (tx_with_retx_queue (tx_with_retx_queue e (tx_retx_queue e)) (rq_pop (tx_retx_queue e)))
              (retx_sn x) true 0) as (p & e2 & -> & Hp & F1 & _). simpl in *.
  rewrite F1, (ti_cfg _ Hi), u16_id by (unfold is_u16; lia).
  destruct (retx_pdu_intro (txmap e) i x p grant) as [Hlen Hpdu]; try done; [lia|].
  rewrite Z.min_l, Z.eqb_refl in Hlen, Hpdu by lia. rewrite Hlen, Z.eqb_refl. simpl. eauto 10.
Qed.
End TxInv.
