(* ===== verification/RlcTxAmAck.v ===== *)
(** * RLC AM transmitting entity: STATUS reports

    Lemmas on [handle_status_pdu]: acknowledged SDUs leave the window, NACKs are
    turned into queued retransmissions, retransmission counters. *)
From S2P Require Import Prelude CircularMap RlcAmWindow RlcAmPdu RlcAmStatus RlcAmStatusThms RlcSegments RlcQueues RlcTxAm RlcTxAmThms.

Section Ack.
  Context {Win : Type} {WB : rlc_am_window_base rlc_tx_am_sdu_info Win}.
  Context (s : rlc_am_sn_size) {WL : rlc_am_window_laws WB (half s) tx_sdu_info_default}.

#[local] Abbreviation T e := (base s (tx_next_ack (tx_st e))).
#[local] Abbreviation nxt e := (tx_next (tx_st e)).

(** ** One NACK *)

(** The bytes of SDU [i] that NACK [n] asks for: first and last offset. *)
Definition nack_first (n : rlc_am_status_nack) : Z := if has_so n then so_start n else 0.
Definition nack_last (n : rlc_am_status_nack) (i : rlc_tx_am_sdu_info) : Z :=
  if has_so n && negb (so_end n =? so_end_of_sdu) then Z.min (so_end n) (blen (tx_sdu i) - 1)
  else blen (tx_sdu i) - 1.

(** Byte [o] of SN [q] is queued for retransmission. *)
Definition retx_queued (l : list rlc_tx_amd_retx) (q o : Z) : Prop :=
  Exists (fun x => retx_sn x = q /\ retx_so x <= o < retx_so x + retx_length x) l.

(** The clipped segment of a NACK. *)
Lemma nack_clip n i :
  0 < blen (tx_sdu i) <= sdu_max -> is_u16 (so_start n) -> is_u16 (so_end n) ->
  let '(so2, se2) := clip_nack (u32 (blen (tx_sdu i))) n in
  0 <= so2 <= se2 /\ se2 < blen (tx_sdu i) /\ u32 (se2 - so2 + 1) = se2 - so2 + 1
  /\ (nack_first n <= nack_last n i -> so2 = nack_first n /\ se2 = nack_last n i).
Proof.
  intros Hl H1 H2. unfold sdu_max, is_u16 in *. unfold clip_nack, nack_first, nack_last, so_end_of_sdu.
  rewrite (u32_id (blen (tx_sdu i))) by (unfold is_u32; lia).
  rewrite (u16_id (blen (tx_sdu i) - 1)) by (unfold is_u16; lia).
  assert (forall x, 0 <= x < 65536 -> u32 x = x) as Hu by (intros; apply u32_id; unfold is_u32; lia).
  destruct (has_so n); simpl;
    repeat match goal with
    | |- context [if ?a =? ?b then _ else _] => destruct (Z.eqb_spec a b); simpl
    | |- context [if negb (?a =? ?b) then _ else _] => destruct (Z.eqb_spec a b); simpl
    | |- context [if ?a <? ?b then _ else _] => destruct (Z.ltb_spec a b)
    | |- context [if ?a <=? ?b then _ else _] => destruct (Z.leb_spec a b)
    end; (split; [lia|]); (split; [lia|]); (split; [apply Hu; lia|]); lia.
Qed.

Lemma retx_includes_spec x so len :
  retx_ok s x -> 0 <= so -> 0 <= len -> so + len <= sdu_max ->
  retx_includes x so len = true -> forall o, so <= o < so + len -> retx_so x <= o < retx_so x + retx_length x.
Proof.
  intros [R1 R2 R3 R4] H1 H2 H3. unfold retx_includes, sdu_max in *.
  rewrite !u32_id by (unfold is_u32; lia). intros Hx o Ho. breflect. lia.
Qed.

Lemma handle_nack_spec (e : rlc_tx_am_entity Win) n :
  tx_inv s e -> nack_ok s n -> has_nack_range n = false ->
  (T e (nack_sn n) <= T e (nxt e) -> is_Some (txmap s e !! nack_sn n)) ->
  exists b q, handle_nack e n = Some (b, tx_with_retx_queue e q)
    /\ Forall (retx_ok s) (rq_queue q) /\ rq_queue (tx_retx_queue e) `prefix_of` rq_queue q
    /\ (b = true -> T e (nack_sn n) <= T e (nxt e))
    /\ (T e (nack_sn n) <= T e (nxt e) -> forall i o, txmap s e !! nack_sn n = Some i ->
          nack_first n <= o <= nack_last n i -> retx_queued (rq_queue q) (nack_sn n) o).
Proof.
  intros Hi [N1 N2 N3 N4 N5 N6] Hr Hin. unfold handle_nack. rewrite Hr.
  rewrite !(tx_mod_base_eq s) by apply Hi. rewrite base_self.
  pose proof (base_range s (tx_next_ack (tx_st e)) (nack_sn n)).
  assert (tx_with_retx_queue e (tx_retx_queue e) = e) as Hsame by (by destruct e).
  rewrite (proj2 (Z.leb_le 0 _)) by lia. cbn [andb].
  destruct (Z.leb_spec (T e (nack_sn n)) (T e (nxt e))) as [Hle|Hgt]; cbn [negb].
  2:{ exists false, (tx_retx_queue e). rewrite Hsame.
      split_and!; try done; [apply Hi|]. intros. lia. }
  destruct (Hin Hle) as [i Hk]. rewrite win_at_map by apply Hi. unfold txmap in Hk. rewrite Hk.
  destruct (tx_entry_bound s e _ _ Hi Hk) as [Hlen _].
  pose proof (nack_clip n i Hlen N2 N3) as Hclip. revert Hclip.
  destruct (clip_nack _ n) as [so2 se2]. intros Hclip.
  destruct Hclip as (C1 & C2 & C3 & C4). rewrite C3.
  destruct (rq_has_sn_segment (tx_retx_queue e) (nack_sn n) so2 (se2 - so2 + 1)) eqn:Ehas.
  - exists false, (tx_retx_queue e). rewrite Hsame.
    split_and!; try done; [apply Hi|]. intros _ j o Hj Ho. unfold txmap in Hj. rewrite Hk in Hj. injection Hj as <-.
    destruct C4 as [E1 E2]; [lia|]. unfold rq_has_sn_segment in Ehas. apply existsb_exists in Ehas as (x & Hx & Hb).
    breflect. apply list_elem_of_In in Hx. apply list.Exists_exists. exists x. split; [done|]. split; [done|].
    pose proof (proj1 (list.Forall_forall _ _) (ti_retx _ _ Hi) x Hx) as Hxo. unfold sdu_max in *.
    eapply (retx_includes_spec x so2 (se2 - so2 + 1)); try done; unfold sdu_max; lia.
  - exists true, (rq_push (tx_retx_queue e) (Retx (nack_sn n) so2 (se2 - so2 + 1))).
    split; [done|]. simpl. split_and!; try done.
    + apply Forall_app. split; [apply Hi|]. constructor; [|constructor].
      unfold sdu_max in *. split; simpl; unfold sdu_max; try done; lia.
    + by eexists.
    + intros _ j o Hj Ho. unfold txmap in Hj. rewrite Hk in Hj. injection Hj as <-. destruct C4 as [E1 E2]; [lia|].
      apply Exists_app. right. constructor. simpl. split; [done|lia].
Qed.

(** ** ACKs *)
Definition ack_state (e : rlc_tx_am_entity Win) (q : rlc_retx_queue) (w : Win) : rlc_tx_am_entity Win :=
  tx_with_st (tx_with_window (tx_with_retx_queue e q) w)
    (set_tx_next_ack (tx_st e) ((tx_next_ack (tx_st e) + 1) mod am_mod s)).

Lemma ack_shift e k : tx_inv s e -> is_sn s k ->
  base s ((tx_next_ack (tx_st e) + 1) mod am_mod s) k
  = if decide (k = tx_next_ack (tx_st e)) then am_mod s - 1 else T e k - 1.
Proof.
  intros Hi Hk. pose proof (half_twice s). pose proof (half_pos s).
  assert (T e ((tx_next_ack (tx_st e) + 1) mod am_mod s) = 1) as H1.
  { rewrite base_succ; [by rewrite base_self|apply (ti_ack _ _ Hi)..|rewrite base_self; lia]. }
  rewrite (base_shift s (tx_next_ack (tx_st e))); [|apply (ti_ack _ _ Hi)|apply sn_succ|done]. rewrite H1.
  pose proof (base_range s (tx_next_ack (tx_st e)) k).
  destruct (decide (k = tx_next_ack (tx_st e))) as [->|Hne].
  - rewrite base_self, decide_False by lia. lia.
  - assert (T e k <> 0) by (intros E; apply base_0 in E; [done|apply (ti_ack _ _ Hi)|done]).
    by rewrite decide_True by lia.
Qed.

Lemma ack_state_inv e q w :
  tx_inv s e -> 0 < T e (nxt e) -> win_ok w -> win_map w = delete (tx_next_ack (tx_st e)) (txmap s e) ->
  Forall (retx_ok s) (rq_queue q) -> tx_inv s (ack_state e q w).
Proof.
  intros Hi Hpos Hw Hm Hq. pose proof (half_twice s). pose proof (half_pos s).
  pose proof (ti_used _ _ Hi) as Hu. pose proof (ti_ack _ _ Hi) as Ha.
  assert (nxt e <> tx_next_ack (tx_st e)) as Hne by (intros E; rewrite E, base_self in Hpos; lia).
  assert (tx_used s (ack_state e q w) = tx_used s e - 1) as Hu'.
  { unfold tx_used. change (segmenting (ack_state e q w)) with (segmenting e). simpl.
    rewrite ack_shift, decide_False by (done || apply (ti_next _ _ Hi)). lia. }
  split; rewrite ?Hu'; try apply (ti_cfg _ _ Hi); try apply (ti_next _ _ Hi); try done; try lia.
  - apply sn_succ.
  - intros k. unfold txmap. simpl. rewrite Hm, lookup_delete. fold (txmap s e).
    pose proof (ti_keys _ _ Hi k) as Hk. case_decide as Hd.
    + subst k. split; [by intros [? [=]]|]. intros [_ Hb].
      rewrite ack_shift, decide_True in Hb by done. lia.
    + rewrite Hk. split; intros [Hs Hb]; (split; [done|]); rewrite ack_shift, decide_False in * by done; lia.
  - intros k i. unfold txmap. simpl. rewrite Hm, lookup_delete. case_decide; [done|]. apply (ti_entries _ _ Hi).
  - intros Hsg. destruct (ti_seg _ _ Hi Hsg) as (H1 & i & H2 & H3). split; [done|]. exists i. split; [|done].
    unfold txmap. simpl. by rewrite Hm, lookup_delete_ne.
  - apply (ti_queue _ _ Hi).
Qed.

(** The highest PDCP SN among [n] acknowledged SDUs from [q] on. *)
Fixpoint acked_pdcp (M : gmap Z rlc_tx_am_sdu_info) (n : nat) (q : Z) (acc : option Z) : option Z :=
  match n with
  | O => acc
  | S n => acked_pdcp M n ((q + 1) mod am_mod s)
             (match M !! q with
              | Some i => match tx_pdcp_sn i with Some p => Some p | None => acc end
              | None => acc
              end)
  end.
Lemma acked_pdcp_ext M M' n q acc :
  (forall j, 0 <= j < Z.of_nat n -> M !! ((q + j) mod am_mod s) = M' !! ((q + j) mod am_mod s)) ->
  is_sn s q -> acked_pdcp M n q acc = acked_pdcp M' n q acc.
Proof.
  revert q acc. induction n as [|n IH]; intros q acc Hx Hq; simpl; [done|].
  pose proof (Hx 0) as H0. rewrite Z.add_0_r, Z.mod_small in H0 by apply Hq. rewrite H0 by lia.
  apply IH; [|apply sn_succ]. intros j Hj. rewrite !Zplus_mod_idemp_l.
  replace (q + 1 + j) with (q + (j + 1)) by lia. apply Hx. lia.
Qed.

Lemma rq_remove_sub q k x : x ∈ rq_queue (rq_remove_sn q k).2 -> x ∈ rq_queue q.
Proof.
  unfold rq_remove_sn. pose proof (remove_first_spec k (rq_queue q)) as H.
  destruct (remove_first k (rq_queue q)) as [[y r]|]; simpl; [|done].
  destruct H as (a & b & -> & -> & _). set_solver.
Qed.

(** What processing the ACKs below [stop] leaves. *)
Record acked (e : rlc_tx_am_entity Win) (stop : Z) (e' : rlc_tx_am_entity Win) : Prop := {
  ak_inv : tx_inv s e';
  ak_ack : tx_next_ack (tx_st e') = stop;
  ak_next : nxt e' = nxt e;
  ak_map : forall k, is_sn s k -> txmap s e' !! k = if decide (T e k < T e stop) then None else txmap s e !! k;
  ak_retx : forall x, x ∈ rq_queue (tx_retx_queue e') -> x ∈ rq_queue (tx_retx_queue e);
  ak_cfg : tx_cfg e' = tx_cfg e;
  ak_seg : sn_under_segmentation e' = sn_under_segmentation e;
}.

Lemma acked_refl e : tx_inv s e -> acked e (tx_next_ack (tx_st e)) e.
Proof.
  intros Hi. split; try done. intros k Hk. rewrite base_self.
  pose proof (base_range s (tx_next_ack (tx_st e)) k). by rewrite decide_False by lia.
Qed.

Lemma acked_step e q w stop e' :
  tx_inv s e -> is_sn s stop -> 0 < T e stop -> win_map w = delete (tx_next_ack (tx_st e)) (txmap s e) ->
  (forall x, x ∈ rq_queue q -> x ∈ rq_queue (tx_retx_queue e)) ->
  acked (ack_state e q w) stop e' -> acked e stop e'.
Proof.
  intros Hi Hs Hpos Hm Hq [H1 H2 H3 H4 H5 H6 H7]. split; try done; [|auto].
  intros k Hk. rewrite H4 by done. simpl. rewrite !ack_shift by done.
  assert (stop <> tx_next_ack (tx_st e)) as Hne by (intros ->; rewrite base_self in Hpos; lia).
  rewrite (decide_False (P := stop = _)) by done. unfold txmap. simpl. rewrite Hm, lookup_delete.
  pose proof (base_range s (tx_next_ack (tx_st e)) stop).
  destruct (decide (k = tx_next_ack (tx_st e))) as [->|Hne'].
  - rewrite base_self. rewrite (decide_True (P := 0 < _)) by lia. rewrite decide_False by lia.
    by rewrite decide_True.
  - rewrite (decide_False (P := tx_next_ack (tx_st e) = k)) by done. repeat case_decide; done || lia.
Qed.

Lemma process_acks_spec fuel e stop md :
  tx_inv s e -> is_sn s stop -> T e stop <= T e (nxt e) -> T e stop <= Z.of_nat fuel ->
  exists e', process_acks fuel e (tx_next_ack (tx_st e)) stop md
      = Some (acked_pdcp (txmap s e) (Z.to_nat (T e stop)) (tx_next_ack (tx_st e)) md, e')
    /\ acked e stop e'.
Proof.
  revert e md. induction fuel as [|fuel IH]; intros e md Hi Hs Hle Hf; simpl;
    rewrite !(tx_mod_base_eq s), base_self by apply Hi.
  all: pose proof (base_range s (tx_next_ack (tx_st e)) stop).
  all: destruct (Z.ltb_spec 0 (T e stop)) as [Hpos|Hz];
    [|assert (T e stop = 0) as E0 by lia; rewrite E0; simpl; exists e; split; [done|];
      apply base_0 in E0 as ->; [by apply acked_refl|apply (ti_ack _ _ Hi)|done]].
  { lia. }
  assert (is_Some (txmap s e !! tx_next_ack (tx_st e))) as [i Hk].
  { apply (ti_keys _ _ Hi). split; [apply (ti_ack _ _ Hi)|]. rewrite base_self. unfold tx_used. case_match; lia. }
  unfold txmap in Hk.
  rewrite win_has_sn_map, win_at_map, Hk, bool_decide_true by (done || apply (ti_win _ _ Hi)).
  destruct (win_remove_map (tx_window e) (tx_next_ack (tx_st e))) as (w & -> & Hw & Hm);
    [apply (ti_win _ _ Hi)|by eexists|].
  set (q := (rq_remove_sn (tx_retx_queue e) (tx_next_ack (tx_st e))).2).
  change (tx_mod (tx_with_window (tx_with_retx_queue e q) w)) with (tx_mod e).
  rewrite (tx_mod_eq s) by done. simpl.
  change (tx_with_st _ _) with (ack_state e q w). set (md' := match tx_pdcp_sn i with Some _ => _ | None => _ end).
  assert (forall x, x ∈ rq_queue q -> x ∈ rq_queue (tx_retx_queue e)) as Hsub by (intros x; apply rq_remove_sub).
  assert (Forall (retx_ok s) (rq_queue q)) as Hq.
  { apply list.Forall_forall. intros x Hx. exact (proj1 (list.Forall_forall _ _) (ti_retx _ _ Hi) x (Hsub x Hx)). }
  assert (stop <> tx_next_ack (tx_st e)) as Hne by (intros E; rewrite E, base_self in Hpos; lia).
  assert (nxt e <> tx_next_ack (tx_st e)) as Hne' by (intros E; rewrite E, base_self in Hle; lia).
  assert (tx_mod (ack_state e q w) = am_mod s) as ->.
  { unfold tx_mod. simpl. by rewrite (ti_cfg _ _ Hi). }
  destruct (IH (ack_state e q w) md') as (e' & Hgo & Hak).
  - apply ack_state_inv; try done. lia.
  - done.
  - simpl. rewrite !ack_shift, !decide_False by (done || apply (ti_next _ _ Hi)). lia.
  - simpl. rewrite ack_shift, decide_False by done. lia.
  - simpl in Hgo. rewrite ack_shift, decide_False in Hgo by done.
    exists e'. split; [|by eapply acked_step].
    change (tx_next_ack (tx_st (ack_state e q w))) with ((tx_next_ack (tx_st e) + 1) mod am_mod s) in Hgo.
    rewrite Hgo. do 2 f_equal.
    replace (Z.to_nat (T e stop)) with (S (Z.to_nat (T e stop - 1))) by lia. simpl.
    fold (txmap s e) in Hk. rewrite Hk. fold md'. apply acked_pdcp_ext; [|apply sn_succ].
    intros j Hj. unfold txmap at 1. simpl. rewrite Hm, lookup_delete_ne; [done|].
    intros E. rewrite Zplus_mod_idemp_l in E. apply (f_equal (T e)) in E.
    rewrite base_self in E. unfold base in E. rewrite Zminus_mod_idemp_l in E.
    rewrite Z.mod_small in E; lia.
Qed.

(** ** NACK lists *)

(** The SDU a NACK names is TX_Next only while TX_Next is being segmented. *)
Definition nack_safe (e : rlc_tx_am_entity Win) (k : Z) : Prop := k = nxt e -> segmenting e = true.

Lemma nack_safe_key e k : tx_inv s e -> is_sn s k -> nack_safe e k -> T e k <= T e (nxt e) ->
  is_Some (txmap s e !! k).
Proof.
  intros Hi Hk Hsafe Hle. apply (ti_keys _ _ Hi). split; [done|]. unfold tx_used.
  destruct (decide (T e k = T e (nxt e))) as [E|]; [|case_match; lia].
  apply base_inj in E; [|apply (ti_ack _ _ Hi)|done|apply (ti_next _ _ Hi)].
  rewrite (Hsafe E). subst k. lia.
Qed.

(** The state after some NACKs: retransmissions have been appended, and the SNs
    in [l] are in the window. *)
Record nacked (e : rlc_tx_am_entity Win) (q : rlc_retx_queue) (l : list Z) : Prop := {
  nk_retx : Forall (retx_ok s) (rq_queue q);
  nk_prefix : rq_queue (tx_retx_queue e) `prefix_of` rq_queue q;
  nk_set : forall k, k ∈ l -> is_Some (txmap s e !! k);
}.

Lemma sn_set_insert_elem x l k : k ∈ sn_set_insert x l -> k = x \/ k ∈ l.
Proof.
  induction l as [|y l IH]; simpl; [set_solver|]. repeat case_match; set_solver.
Qed.

Lemma retx_queued_prefix l l' q o : l `prefix_of` l' -> retx_queued l q o -> retx_queued l' q o.
Proof. intros [m ->] H. apply Exists_app. by left. Qed.

(** One NACK without range on a state with retransmissions [q]. *)
Lemma handle_nack_step e q l n :
  tx_inv s e -> nacked e q l -> nack_ok s n -> has_nack_range n = false -> nack_safe e (nack_sn n) ->
  exists b q', handle_nack (tx_with_retx_queue e q) n = Some (b, tx_with_retx_queue e q')
    /\ nacked e q' (if b then sn_set_insert (nack_sn n) l else l) /\ rq_queue q `prefix_of` rq_queue q'
    /\ (forall i o, txmap s e !! nack_sn n = Some i -> T e (nack_sn n) <= T e (nxt e) ->
          nack_first n <= o <= nack_last n i -> retx_queued (rq_queue q') (nack_sn n) o).
Proof.
  intros Hi [K1 K2 K3] Hn Hr Hsafe. pose proof (tx_inv_retx s e q Hi K1) as Hi1.
  destruct (handle_nack_spec (tx_with_retx_queue e q) n Hi1 Hn Hr) as (b & q' & Hgo & H1 & H2 & H3 & H4).
  { intros Hle. apply (nack_safe_key e); try done. apply Hn. }
  exists b, q'. rewrite Hgo. split; [done|]. split; [split|split]; try done.
  - by trans (rq_queue q).
  - intros k Hk. destruct b; [|by apply K3]. apply sn_set_insert_elem in Hk as [->|Hk]; [|by apply K3].
    apply nack_safe_key; [done|apply Hn|done|by apply H3].
  - intros i o Hio Hle Ho. apply (H4 Hle i o); done.
Qed.

(** The item of a NACK range with index [j]. *)
Lemma range_item_ok e n k : nack_ok s n -> is_sn s k ->
  nack_ok s (range_item e n k) /\ has_nack_range (range_item (Win := Win) e n k) = false
  /\ nack_sn (range_item e n k) = k.
Proof.
  intros [N1 N2 N3 N4 N5 N6] Hk. unfold range_item. destruct (has_so n); simpl; split_and!; try done.
  all: split; simpl; try done; unfold is_u16, is_u8, so_end_of_sdu in *; repeat case_match; try lia.
  all: repeat match goal with |- context [?a =? ?b] => destruct (Z.eqb_spec a b); simpl end; try done; try lia.
Qed.

Lemma range_item_bytes e n j i o :
  tx_inv s e -> nack_ok s n -> has_nack_range n = true -> 0 <= j < nack_range n ->
  0 <= o < blen (tx_sdu i) -> (j = 0 -> so_start n <= o) -> (j = nack_range n - 1 -> o <= so_end n) ->
  let k := (nack_sn n + j) mod am_mod s in
  nack_first (range_item e n k) <= o <= nack_last (range_item e n k) i.
Proof.
  intros Hi [N1 N2 N3 N4 N5 N6] Hr Hj Ho Hs He k. unfold range_item. rewrite (tx_mod_eq s) by done.
  pose proof (am_mod_range s) as Hm.
  unfold is_u8, is_u16 in *.
  rewrite u32_id by (unfold is_u32; lia).
  assert (forall a b, 0 <= a < 256 -> 0 <= b < 256 ->
    (nack_sn n + a) mod am_mod s = (nack_sn n + b) mod am_mod s -> a = b) as Hinj.
  { intros a b Ha Hb E. pose proof (Z.mod_small a (am_mod s)) as E1. pose proof (Z.mod_small b (am_mod s)) as E2.
    rewrite <- E1, <- E2 by lia.
    replace a with (nack_sn n + a - nack_sn n) by lia. replace b with (nack_sn n + b - nack_sn n) by lia.
    rewrite <- (Zminus_mod_idemp_l (nack_sn n + a)), <- (Zminus_mod_idemp_l (nack_sn n + b)). by rewrite E. }
  unfold nack_first, nack_last, so_end_of_sdu in *. destruct (has_so n) eqn:Eso; simpl; [|lia].
  destruct (Z.eqb_spec k (nack_sn n)) as [Ek|Ek];
    destruct (Z.eqb_spec k ((nack_sn n + nack_range n - 1) mod am_mod s)) as [El|El].
  all: try (assert (j = 0) as Hj0 by
    (apply Hinj; [lia|lia|]; rewrite Z.add_0_r, (Z.mod_small (nack_sn n)) by done; exact Ek)).
  all: try (assert (j = nack_range n - 1) as Hjl by
    (apply Hinj; [lia|lia|]; replace (nack_sn n + (nack_range n - 1)) with (nack_sn n + nack_range n - 1) by lia;
     exact El)).
  all: repeat match goal with |- context [?a =? ?b] => destruct (Z.eqb_spec a b); simpl end; try lia.
Qed.

(** Every SN of the NACK's range may be looked up and lies below ACK_SN. *)
Definition nack_sns_safe (e : rlc_tx_am_entity Win) (ack : Z) (n : rlc_am_status_nack) : Prop :=
  forall j, 0 <= j < nack_len n ->
  nack_safe e ((nack_sn n + j) mod am_mod s) /\ (nack_sn n + j) mod am_mod s <> ack.

(** NACK [n] has been turned into retransmissions, as far as its SDUs are in the
    window. *)
Definition nack_served (e : rlc_tx_am_entity Win) (q : rlc_retx_queue) (n : rlc_am_status_nack) : Prop :=
  forall k o i, nack_covers s n k o -> txmap s e !! k = Some i -> T e k <= T e (nxt e) ->
  0 <= o < blen (tx_sdu i) -> retx_queued (rq_queue q) k o.

Lemma range_end e n j : tx_inv s e -> nack_ok s n -> 0 <= j <= nack_range n ->
  ((nack_sn n + j) mod am_mod s =? u32 (nack_sn n + nack_range n) mod tx_mod e) = (j =? nack_range n).
Proof.
  intros Hi [N1 N2 N3 N4 N5 N6] Hj. rewrite (tx_mod_eq s) by done.
  pose proof (am_mod_range s) as Hm.
  unfold is_u8 in N4. rewrite u32_id by (unfold is_u32; lia).
  destruct (Z.eqb_spec j (nack_range n)) as [->|Hne]; [apply Z.eqb_refl|].
  apply Z.eqb_neq. intros E. clear -E N1 N4 Hj Hne. rewrite am_mod_values in *. destruct s; mlia.
Qed.

Lemma process_nack_range_spec m : forall fuel e q l ack n j,
  tx_inv s e -> nacked e q l -> nack_ok s n -> has_nack_range n = true -> nack_sns_safe e ack n ->
  0 <= j -> Z.of_nat m = nack_range n - j -> (m <= fuel)%nat ->
  exists q' l', process_nack_range fuel (tx_with_retx_queue e q) ack n ((nack_sn n + j) mod am_mod s) l
      = Some (tx_with_retx_queue e q', l')
    /\ nacked e q' l' /\ rq_queue q `prefix_of` rq_queue q'
    /\ (forall j' i o, j <= j' < nack_range n -> let k := (nack_sn n + j') mod am_mod s in
          txmap s e !! k = Some i -> T e k <= T e (nxt e) -> 0 <= o < blen (tx_sdu i) ->
          (j' = 0 -> so_start n <= o) -> (j' = nack_range n - 1 -> o <= so_end n) ->
          retx_queued (rq_queue q') k o).
Proof.
  induction m as [|m IH]; intros fuel e q l ack n j Hi Hk Hn Hr Hsafe Hj Hm Hf.
  - assert (j = nack_range n) as -> by lia. exists q, l.
    pose proof (range_end (tx_with_retx_queue e q) n (nack_range n)) as He.
    destruct fuel; simpl; rewrite He, Z.eqb_refl; try apply tx_inv_retx; try apply Hk; try done;
      try (destruct Hn; unfold is_u8 in *; lia); (split; [done|]); (split; [done|]); (split; [done|]);
      intros; lia.
  - destruct fuel as [|fuel]; [lia|]. simpl. pose proof (tx_inv_retx s e q Hi (nk_retx _ _ _ Hk)) as Hi1.
    rewrite range_end, (proj2 (Z.eqb_neq j _)) by (done || lia).
    destruct (Hsafe j) as [Hs1 Hs2]; [unfold nack_len; rewrite Hr; lia|].
    rewrite (proj2 (Z.eqb_neq _ ack)) by done.
    set (k := (nack_sn n + j) mod am_mod s) in *.
    assert (is_sn s k) as Hkk by (apply Z.mod_pos_bound, am_mod_pos).
    destruct (range_item_ok (tx_with_retx_queue e q) n k Hn Hkk) as (I1 & I2 & I3).
    destruct (handle_nack_step e q l (range_item (tx_with_retx_queue e q) n k) Hi Hk I1 I2)
      as (b & q1 & -> & Hk1 & Hp1 & Hc1); [by rewrite I3|].
    rewrite I3 in Hk1, Hc1. change (tx_mod (tx_with_retx_queue e q1)) with (tx_mod e).
    rewrite (tx_mod_eq s e) by done.
    replace ((k + 1) mod am_mod s) with ((nack_sn n + (j + 1)) mod am_mod s)
      by (unfold k; rewrite Zplus_mod_idemp_l; f_equal; lia).
    destruct (IH fuel e q1 (if b then sn_set_insert k l else l) ack n (j + 1))
      as (q' & l' & Hgo & Hk' & Hp' & Hc'); try done; try lia.
    exists q', l'. split; [exact Hgo|]. split; [done|]. split; [by trans (rq_queue q1)|].
    intros j' i o Hj' Hi' Hle Ho H1 H2. destruct (decide (j' = j)) as [->|Hne].
    + eapply retx_queued_prefix; [exact Hp'|]. apply (Hc1 i o); try done.
      apply (range_item_bytes _ n j); try done. lia.
    + apply (Hc' j' i o); try done. lia.
Qed.

Lemma process_nacks_spec e ack ns q l :
  tx_inv s e -> nacked e q l -> Forall (nack_ok s) ns -> Forall (nack_sns_safe e ack) ns ->
  exists q' l', process_nacks (tx_with_retx_queue e q) ack ns l = Some (tx_with_retx_queue e q', l')
    /\ nacked e q' l' /\ rq_queue q `prefix_of` rq_queue q' /\ Forall (nack_served e q') ns.
Proof.
  revert q l. induction ns as [|n ns IH]; intros q l Hi Hk Hn Hs; simpl.
  { exists q, l. by split_and!. }
  apply list.Forall_cons in Hn as [Hn Hns]. apply list.Forall_cons in Hs as [Hs Hss].
  assert (exists q1 l1, (if has_nack_range n
      then process_nack_range (Z.to_nat (tx_mod (tx_with_retx_queue e q))) (tx_with_retx_queue e q) ack n
             (nack_sn n) l
      else match handle_nack (tx_with_retx_queue e q) n with
           | None => None
           | Some (queued, e) => Some (e, if queued then sn_set_insert (nack_sn n) l else l)
           end) = Some (tx_with_retx_queue e q1, l1)
    /\ nacked e q1 l1 /\ rq_queue q `prefix_of` rq_queue q1 /\ nack_served e q1 n)
    as (q1 & l1 & -> & Hk1 & Hp1 & Hserved).
  { pose proof Hn as [N1 N2 N3 N4 N5 N6]. destruct (has_nack_range n) eqn:Hr.
    - change (tx_mod (tx_with_retx_queue e q)) with (tx_mod e). rewrite (tx_mod_eq s) by done.
      assert ((nack_sn n + 0) mod am_mod s = nack_sn n) as E0 by (rewrite Z.add_0_r; by apply Z.mod_small).
      unfold is_u8 in N4.
      destruct (process_nack_range_spec (Z.to_nat (nack_range n)) (Z.to_nat (am_mod s)) e q l ack n 0)
        as (q1 & l1 & Hgo & Hk1 & Hp1 & Hc1); try done; try lia.
      { pose proof (am_mod_range s). lia. }
      rewrite E0 in Hgo. exists q1, l1. split; [exact Hgo|]. split; [done|]. split; [done|].
      intros k o i (j & Hj & -> & H1 & H2) Hi' Hle Ho. unfold nack_len in *. rewrite Hr in *.
      by apply (Hc1 j i o).
    - destruct (handle_nack_step e q l n Hi Hk Hn Hr) as (b & q1 & -> & Hk1 & Hp1 & Hc1).
      { destruct (Hs 0) as [H0 _]; [unfold nack_len; rewrite Hr; lia|].
        by rewrite Z.add_0_r, Z.mod_small in H0 by done. }
      exists q1, (if b then sn_set_insert (nack_sn n) l else l). split_and!; try done.
      intros k o i Hcov Hi' Hle Ho. unfold nack_covers, nack_len in Hcov. rewrite Hr in Hcov.
      destruct Hcov as (j & Hj & -> & H1 & H2). assert (j = 0) as -> by lia.
      rewrite Z.add_0_r, Z.mod_small in * by done. apply (Hc1 i o); try done.
      unfold nack_first, nack_last. specialize (H1 eq_refl). specialize (H2 eq_refl).
      repeat case_match; lia. }
  destruct (IH q1 l1 Hi Hk1 Hns Hss) as (q' & l' & Hgo & Hk' & Hp' & Hall).
  exists q', l'. split; [exact Hgo|]. split; [done|]. split; [by trans (rq_queue q1)|].
  constructor; [|done]. intros k o i H1 H2 H3 H4. eapply retx_queued_prefix; [exact Hp'|]. by eapply Hserved.
Qed.

(** ** Retransmission counters *)
Lemma count_retx_spec e l evs :
  tx_inv s e -> (forall k, k ∈ l -> is_Some (txmap s e !! k)) ->
  exists w evs', count_retx e l evs = Some (tx_with_window e w, evs ++ evs') /\ win_ok w
    /\ Forall (fun ev => ev = on_max_retx) evs' /\ tx_inv s (tx_with_window e w)
    /\ (forall k, is_Some (win_map w !! k) <-> is_Some (txmap s e !! k))
    /\ (forall k i', win_map w !! k = Some i' -> exists i, txmap s e !! k = Some i
          /\ i' = set_retx_count i (retx_count i')).
Proof.
  revert e evs. induction l as [|x l IH]; intros e evs Hi Hl; simpl.
  { exists (tx_window e), []. rewrite app_nil_r. split_and!; try done; try apply (ti_win _ _ Hi).
    - by destruct e.
    - by destruct e.
    - intros k i' Hk. exists i'. split; [done|]. by destruct i'. }
  destruct (Hl x) as [i Hx]; [set_solver|]. unfold txmap in Hx.
  rewrite win_at_map, Hx by apply (ti_win _ _ Hi).
  set (i1 := set_retx_count i _).
  destruct (win_set_map (tx_window e) x i1) as (w1 & -> & Hw1 & Hm1); [apply (ti_win _ _ Hi)|by eexists|].
  assert (tx_inv s (tx_with_window e w1)) as Hi1.
  { eapply (set_entry_inv s e _ w1 x i i1); try done.
    - destruct (ti_entries _ _ Hi x i Hx). by split.
    - apply (ti_next _ _ Hi).
    - intros Hsg. destruct (ti_seg _ _ Hi Hsg) as (H1 & j & H2 & H3). split; [done|].
      change (nxt (tx_with_window e w1)) with (nxt e). rewrite lookup_insert. case_decide as Hd; [|by exists j].
      subst x. unfold txmap in H2. rewrite Hx in H2. injection H2 as <-. exists i1. split; [done|]. simpl. lia. }
  destruct (IH (tx_with_window e w1) (evs ++ check_sn_reached_max_retx (tx_with_window e w1) i1) Hi1)
    as (w & evs' & Hgo & Hw & Hev & Hinv & Hkeys & Hent).
  { intros k Hk. unfold txmap. simpl. rewrite Hm1, lookup_insert. case_decide; [by eexists|]. apply Hl. set_solver. }
  exists w, (check_sn_reached_max_retx (tx_with_window e w1) i1 ++ evs'). rewrite Hgo, <- app_assoc.
  split; [done|]. split; [done|]. split; [|split; [exact Hinv|split]].
  - apply Forall_app. split; [|done]. unfold check_sn_reached_max_retx. case_match; repeat constructor.
  - intros k. rewrite Hkeys. unfold txmap. simpl. rewrite Hm1, lookup_insert.
    case_decide as Hd; [subst x; rewrite Hx; split; by eexists|done].
  - intros k i' Hk. destruct (Hent k i' Hk) as (j & Hj & Hj'). unfold txmap in Hj. simpl in Hj.
    rewrite Hm1, lookup_insert in Hj. case_decide as Hd; [|by exists j].
    injection Hj as <-. exists i. subst x. split; [done|]. by rewrite Hj'.
Qed.

(** ** A STATUS report *)

(** The report is processed, not ignored. *)
Definition status_accepted (e : rlc_tx_am_entity Win) (st : rlc_am_status_pdu) : bool :=
  valid_ack_sn e (ack_sn st)
  && negb (tx_mod_base e (u32 (nxt e + 1)) <? tx_mod_base e (ack_sn st))
  && forallb (valid_nack e (ack_sn st)) (nacks st).

(** A report as unpacked from a PDU. *)
Definition status_wf (st : rlc_am_status_pdu) : Prop :=
  is_sn s (ack_sn st) /\ Forall (nack_ok s) (nacks st).

(** The peer reports on SDUs that have been sent: SNs below TX_Next, or up to
    TX_Next with at least one NACK while TX_Next is being segmented. *)
Definition status_sane (e : rlc_tx_am_entity Win) (st : rlc_am_status_pdu) : Prop :=
  T e (ack_sn st) <= T e (nxt e) \/ (segmenting e = true /\ nacks st <> []).

Definition ack_stop (st : rlc_am_status_pdu) : Z :=
  match nacks st with [] => ack_sn st | n :: _ => nack_sn n end.

Lemma valid_nack_bounds e ack n :
  tx_inv s e -> is_sn s ack -> T e ack <= half s -> nack_ok s n -> valid_nack e ack n = true ->
  T e (nack_sn n) < T e ack /\ T e (nack_sn n) <= T e (nxt e)
  /\ forall j, 0 <= j < nack_len n ->
     T e ((nack_sn n + j) mod am_mod s) = T e (nack_sn n) + j /\ T e (nack_sn n) + j < T e ack.
Proof.
  intros Hi Ha Hle [N1 N2 N3 N4 N5 N6]. unfold valid_nack. rewrite !(tx_mod_base_eq s) by apply Hi.
  pose proof (half_twice s). pose proof (half_value s) as Hhv. pose proof (am_mod_range s). unfold is_u8 in N4.
  assert (255 < half s) as Hh by (rewrite Hhv; case_match; lia).
  intros Hv. do 6 (match type of Hv with (if ?c then _ else _) = true => destruct c eqn:?; [done|] end).
  breflect. split; [done|]. split; [done|].
  assert (forall x, (T e (nack_sn n) + x) mod am_mod s = T e ((nack_sn n + x) mod am_mod s)) as Hadd.
  { intros x. unfold base. rewrite Zplus_mod_idemp_l, Zminus_mod_idemp_l. f_equal. lia. }
  pose proof (base_range s (tx_next_ack (tx_st e)) (nack_sn n)).
  intros j Hj. rewrite <- Hadd. unfold nack_len in Hj. destruct (has_nack_range n) eqn:Hr; simpl in *; breflect.
  - rewrite Z.mod_small by lia. split; [done|].
    rewrite (u32_id (nack_sn n + nack_range n - 1)) in * by (unfold is_u32; lia).
    assert (T e (nack_sn n + nack_range n - 1) = T e (nack_sn n) + (nack_range n - 1)) as El.
    { replace (T e (nack_sn n + nack_range n - 1)) with (T e ((nack_sn n + (nack_range n - 1)) mod am_mod s)).
      - rewrite <- Hadd. apply Z.mod_small. lia.
      - unfold base. rewrite Zminus_mod_idemp_l. f_equal. lia. }
    lia.
  - assert (j = 0) as -> by lia. rewrite Z.add_0_r, Z.mod_small; lia.
Qed.

(** The new position of TX_Next_Ack is within what has been sent. *)
Lemma ack_stop_bound e st :
  tx_inv s e -> status_wf st -> status_sane e st -> T e (ack_sn st) <= half s ->
  forallb (valid_nack e (ack_sn st)) (nacks st) = true ->
  is_sn s (ack_stop st) /\ T e (ack_stop st) <= T e (nxt e).
Proof.
  intros Hi [Ha Hns] Hsane Hh Hv. unfold ack_stop. destruct (nacks st) as [|n ns] eqn:E.
  - split; [done|]. by destruct Hsane as [?|[_ ?]].
  - apply list.Forall_cons in Hns as [Hn _]. simpl in Hv. apply andb_true_iff in Hv as [Hv _].
    destruct (valid_nack_bounds e (ack_sn st) n) as (? & ? & _); try done. split; [apply Hn|done].
Qed.

Lemma sane_nacks_safe e e1 st stop :
  tx_inv s e -> acked e stop e1 -> status_wf st -> status_sane e st -> T e (ack_sn st) <= half s ->
  forallb (valid_nack e (ack_sn st)) (nacks st) = true ->
  Forall (nack_sns_safe e1 (ack_sn st)) (nacks st).
Proof.
  intros Hi Hak [Ha Hns] Hsane Hh Hv. apply list.Forall_forall. intros n Hn j Hj.
  rewrite forallb_forall in Hv.
  pose proof (proj1 (list.Forall_forall _ _) Hns n Hn) as Hno. apply list_elem_of_In in Hn.
  destruct (valid_nack_bounds e (ack_sn st) n) as (_ & _ & Hb); try done; [by apply Hv|].
  destruct (Hb j Hj) as [E1 E2]. split.
  - intros Ek. rewrite (ak_next _ _ _ Hak) in Ek. unfold segmenting. rewrite (ak_seg _ _ _ Hak).
    destruct Hsane as [Hle|[Hs _]]; [|exact Hs]. rewrite Ek in E1. lia.
  - intros Ek. rewrite Ek in E1. lia.
Qed.

Definition delivery_events (md : option Z) : list tx_event :=
  match md with Some n => [on_delivered_sdu n] | None => [] end.

(** What an accepted report does. *)
Record status_done (e : rlc_tx_am_entity Win) (st : rlc_am_status_pdu) (e' : rlc_tx_am_entity Win)
    (evs : list tx_event) : Prop := {
  sd_ack : tx_next_ack (tx_st e') = ack_stop st;
  sd_next : nxt e' = nxt e;
  sd_window : forall k, is_sn s k ->
    (is_Some (txmap s e' !! k) <-> is_Some (txmap s e !! k) /\ T e (ack_stop st) <= T e k);
  sd_sdu : forall k i', txmap s e' !! k = Some i' ->
    exists i, txmap s e !! k = Some i /\ tx_sdu i' = tx_sdu i /\ next_so i' = next_so i;
  sd_retx : forall k o i', status_covers st k o -> txmap s e' !! k = Some i' ->
    0 <= o < blen (tx_sdu i') -> retx_queued (rq_queue (tx_retx_queue e')) k o;
  sd_events : exists rest, evs = delivery_events
      (acked_pdcp (txmap s e) (Z.to_nat (T e (ack_stop st))) (tx_next_ack (tx_st e)) None) ++ rest
    /\ forall n, on_delivered_sdu n ∉ rest;
}.

Context {P : Type} {SP : rlc_rx_am_status_provider P}.

Lemma update_mac_frame (e : rlc_tx_am_entity Win) (p : P) : exists bs evs, update_mac_buffer_state e p = (tx_with_buffer_state e bs false, evs)
  /\ forall n, on_delivered_sdu n ∉ evs.
Proof. eexists _, _. split; [reflexivity|]. intros n. case_match; set_solver. Qed.

Lemma handle_status_pdu_spec e (p : P) st :
  tx_inv s e -> status_wf st -> st_sn_size st = s -> status_sane e st ->
  exists e' evs, handle_status_pdu e p st = Some (e', evs) /\ tx_inv s e'
    /\ if status_accepted e st then status_done e st e' evs else e' = e /\ evs = [].
Proof.
  intros Hi Hwf Hsz Hsane. unfold handle_status_pdu, status_accepted.
  destruct (valid_ack_sn e (ack_sn st)) eqn:Eva; cbn [negb andb]; [|by exists e, []].
  destruct (tx_mod_base e (u32 (nxt e + 1)) <? tx_mod_base e (ack_sn st)); cbn [negb andb]; [by exists e, []|].
  destruct (forallb (valid_nack e (ack_sn st)) (nacks st)) eqn:Env; cbn [negb andb]; [|by exists e, []].
  assert (T e (ack_sn st) <= half s) as Hh.
  { unfold valid_ack_sn in Eva. rewrite (tx_mod_base_eq s), (tx_window_size_eq s) in Eva by (done || apply Hi).
    breflect. done. }
  destruct (ack_stop_bound e st) as [Hstop Hsle]; try done.
  match goal with |- context [process_acks _ ?x] => set (e0 := x) end.
  assert (exists b, e0 = tx_with_poll_timer e b (is_poll_retransmit_timer_expired e)) as [b He0].
  { unfold e0. case_match; [by eexists|]. exists (poll_retransmit_timer e). by destruct e. }
  clearbody e0. subst e0. set (e0 := tx_with_poll_timer e b _).
  assert (tx_inv s e0) as Hi0 by (by apply (tx_inv_ext s e)).
  destruct (process_acks_spec (Z.to_nat (tx_mod e0)) e0 (ack_stop st) None Hi0 Hstop Hsle) as (e1 & Hack & Hak).
  { rewrite (tx_mod_eq s) by done. pose proof (base_range s (tx_next_ack (tx_st e0)) (ack_stop st)). lia. }
  unfold ack_stop in Hack at 1. rewrite Hack. clear Hack.
  pose proof (ak_inv _ _ _ Hak) as Hi1.
  pose proof (sane_nacks_safe e0 e1 st (ack_stop st) Hi0 Hak Hwf Hsane Hh Env) as Hsafe.
  destruct (process_nacks_spec e1 (ack_sn st) (nacks st) (tx_retx_queue e1) [] Hi1)
    as (q & l & Hgo & Hnk & _ & Hserved); [split; [apply Hi1|done|set_solver]|apply Hwf|done|].
  replace (tx_with_retx_queue e1 (tx_retx_queue e1)) with e1 in Hgo by (by destruct e1).
  rewrite Hgo. clear Hgo. pose proof (tx_inv_retx s e1 q Hi1 (nk_retx _ _ _ Hnk)) as Hi2.
  destruct (update_mac_frame (tx_with_retx_queue e1 q) p) as (bs & evs2 & -> & Hev2).
  set (e2 := tx_with_buffer_state (tx_with_retx_queue e1 q) bs false).
  assert (tx_inv s e2) as Hi3 by (by apply (tx_inv_ext s (tx_with_retx_queue e1 q))).
  set (md := acked_pdcp _ _ _ _).
  destruct (count_retx_spec e2 l (delivery_events md ++ evs2) Hi3) as (w & evs3 & Hc & Hw & Hev3 & Hi4 & Hkeys & Hent).
  { intros k Hk. by apply (nk_set _ _ _ Hnk). }
  unfold delivery_events in Hc at 1. rewrite Hc.
  eexists _, _. split; [reflexivity|]. split; [done|].
  assert (forall k, is_Some (win_map w !! k) -> T e1 k <= T e1 (nxt e1)) as Hle.
  { intros k Hk. apply (Hkeys k) in Hk. change (txmap s e2) with (txmap s e1) in Hk.
    apply (ti_keys _ _ Hi1) in Hk as [_ Hk]. unfold tx_used in Hk. case_match; lia. }
  split; simpl.
  - apply (ak_ack _ _ _ Hak).
  - apply (ak_next _ _ _ Hak).
  - intros k Hk. unfold txmap at 1. simpl. rewrite Hkeys. change (txmap s e2) with (txmap s e1).
    rewrite (ak_map _ _ _ Hak) by done. change (txmap s e0) with (txmap s e). change (T e0) with (T e).
    case_decide.
    + split; [by intros [? [=]]|]. intros [_ ?]. lia.
    + split; [intros ?; split; [done|lia]|]. by intros [? _].
  - intros k i' Hk. destruct (Hent k i' Hk) as (i & Hi' & ->). change (txmap s e2) with (txmap s e1) in Hi'.
    assert (is_sn s k) as Hsn by (eapply (ti_keys _ _ Hi1); by eexists).
    rewrite (ak_map _ _ _ Hak) in Hi' by done. case_decide; [done|]. by exists i.
  - intros k o i' Hcov Hk Ho. unfold status_covers in Hcov. rewrite Hsz in Hcov.
    apply list.Exists_exists in Hcov as (n & Hn & Hcov).
    destruct (Hent k i' Hk) as (i & Hi' & Heq).
    apply (proj1 (list.Forall_forall _ _) Hserved n Hn k o i); try done.
    + apply Hle. by eexists.
    + by rewrite Heq in Ho.
  - exists (evs2 ++ evs3). rewrite <- app_assoc. split; [done|]. intros n Hn.
    apply elem_of_app in Hn as [Hn|Hn]; [by apply (Hev2 n)|].
    by apply (proj1 (list.Forall_forall _ _) Hev3) in Hn.
Qed.
End Ack.
