(* ===== verification/RlcTxAmSpec.v ===== *)
(** * RLC AM transmitting entity: what it guarantees

    MAC opportunities, runs of the entity, the buffer state and the poll bit, for
    any window that keeps the promises of [rlc_am_window_laws] and any status
    provider that keeps those of [status_provider_laws] (the receiving entity
    does). *)
From S2P Require Import Prelude CircularMap RlcAmWindow RlcAmPdu RlcAmStatus RlcAmStatusThms RlcSegments RlcQueues RlcTxAm RlcTxAmThms RlcTxAmAck.

(** What the transmitting entity relies on: the report handed out is well formed
    and not larger than 32-bit sizes can tell. *)
Class status_provider_laws {P : Type} (SP : rlc_rx_am_status_provider P) (s : rlc_am_sn_size) := {
  provider_ok : P -> Prop;
  provider_report p : provider_ok p ->
    let '(st, p') := provider_get_status_pdu p in
    provider_ok p' /\ status_ok st /\ st_sn_size st = s
    /\ rlc_am_nr_status_pdu_sizeof_header_ack_sn + nacks_size s (nacks st) < 2 ^ 32
    /\ provider_get_status_pdu_length p = packed_size st;
}.

Section TxSpec.
  Context {Win : Type} {WB : rlc_am_window_base rlc_tx_am_sdu_info Win}.
  Context (s : rlc_am_sn_size) {WL : rlc_am_window_laws WB (half s) tx_sdu_info_default}.
  Context {P : Type} {SP : rlc_rx_am_status_provider P}.

#[local] Abbreviation T e := (base s (tx_next_ack (tx_st e))).
#[local] Abbreviation nxt e := (tx_next (tx_st e)).

(** ** MAC opportunities *)
Lemma not_segmenting e : segmenting (Win := Win) e = false -> tx_with_segmentation e INVALID_RLC_SN = e.
Proof. unfold segmenting. intros Hs. breflect. destruct e. simpl in *. by subst. Qed.

(** Nothing to retransmit and no status due: the next bytes of the stream. *)
Lemma pull_new_spec e (p : P) grant :
  tx_inv s e -> provider_status_report_required p = false -> rq_is_empty (tx_retx_queue e) = true ->
  exists pdu e' evs, pull_pdu e p grant = Some (pdu, e', p, evs)
    /\ tx_inv s e' /\ tx_next_ack (tx_st e') = tx_next_ack (tx_st e)
    /\ (pdu = [] /\ (grant <= head_max_size e \/ tx_used s e = half s \/ (sq_read (tx_sdu_queue e)).1 = None)
        /\ nxt e' = nxt e /\ tx_offset s e' = tx_offset s e
        \/ exists h payload, new_pdu s (txmap s e') h payload pdu /\ blen pdu <= grant
            /\ advances s e h payload e').
Proof.
  intros Hi Hp Hr. unfold pull_pdu. rewrite Hp, Hr. cbn [negb]. fold (segmenting e).
  destruct (head_sizes s e Hi) as (Hmax & _ & _).
  destruct (segmenting e) eqn:Hsg; cbn [andb].
  - destruct (ti_seg _ _ Hi Hsg) as (-> & i & Hk & Hso).
    assert (win_has_sn (tx_window e) (nxt e) = true) as ->.
    { rewrite win_has_sn_map by apply (ti_win _ _ Hi). apply bool_decide_true. by eexists. }
    unfold txmap in Hk. rewrite win_at_map, Hk by apply (ti_win _ _ Hi).
    destruct (build_continued_sdu_segment_spec s e i grant Hi Hsg Hk Hso) as (pdu & e' & -> & Hi' & Hack & Hpdu).
    exists pdu, e', []. split; [done|]. split; [done|]. split; [done|].
    destruct (Z.leb_spec grant (head_max_size e)); [destruct Hpdu as [-> ->]; left; eauto|by right].
  - rewrite not_segmenting by done. destruct (sq_is_empty (tx_sdu_queue e)) eqn:Eq.
    + exists [], e, []. split; [done|]. split; [done|]. split; [done|]. left. split; [done|]. split; [|done].
      right; right. unfold sq_read, sq_is_empty in *. by destruct (sq_queue (tx_sdu_queue e)).
    + destruct (build_new_pdu_spec s e grant Hi Hsg) as (pdu & e' & evs & -> & Hi' & Hack & Hpdu).
      exists pdu, e', evs. split; [done|]. split; [done|]. split; [done|].
      destruct Hpdu as [(-> & Hc & H1 & H2 & _)|Hpdu]; [left|by right].
      split; [done|]. split; [|done]. destruct Hc as [?|?]; [left; lia|by right].
Qed.

(** Retransmissions come first. *)
Lemma pull_retx_spec e (p : P) grant :
  tx_inv s e -> provider_status_report_required p = false -> rq_is_empty (tx_retx_queue e) = false ->
  exists pdu e', pull_pdu e p grant = Some (pdu, e', p, []) /\ tx_inv s e' /\ same_stream s e e'
    /\ (pdu = [] \/ exists x h payload, x ∈ rq_queue (tx_retx_queue e)
          /\ retx_pdu s (txmap s e) x grant h payload pdu).
Proof.
  intros Hi Hp Hr. unfold pull_pdu. rewrite Hp, Hr. cbn [negb].
  destruct (build_retx_pdu_spec s e grant Hi Hr) as (pdu & e' & -> & ?). by eauto.
Qed.

Lemma pull_status_fits {PL : status_provider_laws SP s} (e : rlc_tx_am_entity Win) (p : P) grant :
  provider_ok p -> 0 <= grant -> blen (pull_status_pdu e p grant).1 <= grant.
Proof.
  intros Hp Hg. unfold pull_status_pdu. case_match; [done|]. breflect.
  pose proof (provider_report p Hp) as Hr. destruct (provider_get_status_pdu p) as [st p'].
  destruct Hr as (_ & Hok & Hsz & Hsmall & _).
  assert (forall st', status_ok st' -> st_sn_size st' = s ->
    rlc_am_nr_status_pdu_sizeof_header_ack_sn + nacks_size s (nacks st') < 2 ^ 32 ->
    blen (pack st' []) = packed_size st') as Hlen.
  { intros st' H1 H2 H3. rewrite pack_len, (so_size _ H1), H2 by done. rewrite u32_id.
    - rewrite blen_nil. lia.
    - unfold is_u32, rlc_am_nr_status_pdu_sizeof_header_ack_sn in *. pose proof (nacks_size_nonneg s (nacks st')). lia. }
  destruct (Z.ltb_spec grant (packed_size st)).
  - destruct (status_trim_spec st grant Hok) as (st' & d & -> & Hsz' & Hn & _ & Hok' & Hle & _); [lia|]. simpl.
    rewrite Hsz in Hsz'.
    rewrite Hlen; try done. rewrite Hn, nacks_size_app in Hsmall. pose proof (nacks_size_nonneg s d). lia.
  - simpl. by rewrite Hlen.
Qed.

Lemma pull_pdu_safe e (p : P) grant : tx_inv s e ->
  exists pdu e' p' evs, pull_pdu e p grant = Some (pdu, e', p', evs) /\ tx_inv s e'.
Proof.
  intros Hi. destruct (provider_status_report_required p) eqn:Er.
  - unfold pull_pdu. rewrite Er. destruct (pull_status_pdu e p grant) as [pdu p']. by eauto 10.
  - destruct (rq_is_empty (tx_retx_queue e)) eqn:Eq.
    + destruct (pull_new_spec e p grant Hi Er Eq) as (pdu & e' & evs & -> & ? & _). by eauto 10.
    + destruct (pull_retx_spec e p grant Hi Er Eq) as (pdu & e' & -> & ? & _). by eauto 10.
Qed.

(** ** Calls on the entity *)
Inductive tx_op :=
  | tx_handle_sdu (defer_ok : bool) (x : rlc_sdu)
  | tx_discard_sdu (defer_ok : bool) (pdcp_sn : Z)
  | tx_pull_pdu (grant_len : Z)
  | tx_on_status_pdu (st : rlc_am_status_pdu)
  | tx_on_status_report_changed (defer_ok : bool)
  | tx_update_mac_buffer_state
  | tx_poll_retransmit_expiry.

(** One call; [p] is the state of the status provider at that time. *)
Definition tx_exec (e : rlc_tx_am_entity Win) (p : P) (op : tx_op)
    : option (bytes * rlc_tx_am_entity Win * list tx_event) :=
  match op with
  | tx_handle_sdu ok x => let '(e, evs) := handle_sdu ok e x in Some ([], e, evs)
  | tx_discard_sdu ok n => let '(e, evs) := discard_sdu ok e n in Some ([], e, evs)
  | tx_pull_pdu grant => match pull_pdu e p grant with
                         | Some (pdu, e, _, evs) => Some (pdu, e, evs)
                         | None => None
                         end
  | tx_on_status_pdu st => match handle_status_pdu e p st with
                           | Some (e, evs) => Some ([], e, evs)
                           | None => None
                           end
  | tx_on_status_report_changed ok => let '(e, evs) := handle_changed_buffer_state ok e in Some ([], e, evs)
  | tx_update_mac_buffer_state => let '(e, evs) := update_mac_buffer_state e p in Some ([], e, evs)
  | tx_poll_retransmit_expiry =>
      if poll_retransmit_timer e then
        match on_expired_poll_retransmit_timer (tx_with_poll_timer e false (is_poll_retransmit_timer_expired e)) p with
        | Some (e, evs) => Some ([], e, evs)
        | None => None
        end
      else Some ([], e, [])
  end.

(** SDUs below 64 KiB and reports on SDUs that have been sent. *)
Definition tx_op_ok (e : rlc_tx_am_entity Win) (op : tx_op) : Prop :=
  match op with
  | tx_handle_sdu _ x => blen (sdu_buf x) <= sdu_max
  | tx_on_status_pdu st => status_wf s st /\ st_sn_size st = s /\ status_sane s e st
  | _ => True
  end.

Lemma tx_queue_inv e q : tx_inv s e -> Forall (fun x => blen (sdu_buf x) <= sdu_max) (sq_queue q) ->
  tx_inv s (tx_with_sdu_queue e q).
Proof. intros [H1 H2 H3 H4 H5 H6 H7 H8 H9 H10] Hq. by split. Qed.

Lemma handle_changed_inv e ok : tx_inv s e -> tx_inv s (handle_changed_buffer_state ok e).1.
Proof. intros Hi. unfold handle_changed_buffer_state. case_match; [done|]. by apply (tx_inv_ext s e). Qed.

Lemma poll_expiry_inv e (p : P) : tx_inv s e ->
  exists e' evs, on_expired_poll_retransmit_timer e p = Some (e', evs) /\ tx_inv s e'.
Proof.
  intros Hi. unfold on_expired_poll_retransmit_timer.
  assert (forall e b, tx_inv s e -> tx_inv s (tx_with_poll_timer e (poll_retransmit_timer e) b)) as Hexp.
  { intros e0 b H0. by apply (tx_inv_ext s e0). }
  case_match; [|by eauto]. case_match; [by eauto|].
  rewrite win_has_sn_map, win_at_map by apply (ti_win _ _ Hi).
  destruct (win_map (tx_window e) !! tx_next_ack (tx_st e)) as [i|] eqn:Ek; simpl; [|by eauto].
  eexists _, _. split; [reflexivity|].
  destruct (tx_entry_bound s e _ _ Hi Ek) as [Hl _]. unfold sdu_max in Hl.
  eapply (tx_inv_ext s (tx_with_retx_queue e (rq_push _ _))); [apply (tx_inv_retx s e)|..]; try done. simpl.
  apply Forall_app. split; [apply (ti_retx _ _ Hi)|]. constructor; [|constructor].
  rewrite u32_id by (unfold is_u32; lia). split; simpl; unfold sdu_max; try lia. apply (ti_ack _ _ Hi).
Qed.

Lemma tx_exec_safe e (p : P) op : tx_inv s e -> tx_op_ok e op ->
  exists pdu e' evs, tx_exec e p op = Some (pdu, e', evs) /\ tx_inv s e'.
Proof.
  intros Hi Hop. destruct op as [ok x|ok n|grant|st|ok| |]; simpl in *.
  - unfold handle_sdu, sq_write. destruct (sq_capacity (tx_sdu_queue e) <=? _); [by eauto|].
    assert (tx_inv s (tx_with_sdu_queue e (with_queue (push_callback (tx_sdu_queue e) x)
              (sq_queue (tx_sdu_queue e) ++ [x])))) as Hi1.
    { apply tx_queue_inv; [done|]. simpl. apply Forall_app. split; [apply (ti_queue _ _ Hi)|by constructor]. }
    pose proof (handle_changed_inv _ ok Hi1). destruct (handle_changed_buffer_state _ _). by eauto.
  - unfold discard_sdu, sq_discard.
    destruct (discard_first n (sq_queue (tx_sdu_queue e))) as [[x l]|] eqn:Ed; simpl; [|by eauto].
    assert (tx_inv s (tx_with_sdu_queue e (with_queue (pop_callback (tx_sdu_queue e) x) l))) as Hi1.
    { apply tx_queue_inv; [done|]. simpl. eapply discard_first_small; [|exact Ed]. apply (ti_queue _ _ Hi). }
    pose proof (handle_changed_inv _ ok Hi1). destruct (handle_changed_buffer_state _ _). by eauto.
  - destruct (pull_pdu_safe e p grant Hi) as (pdu & e' & p' & evs & -> & ?). by eauto.
  - destruct Hop as (Hwf & Hsz & Hsane).
    destruct (handle_status_pdu_spec s e p st Hi Hwf Hsz Hsane) as (e' & evs & -> & ? & _). by eauto.
  - pose proof (handle_changed_inv e ok Hi). destruct (handle_changed_buffer_state _ _). by eauto.
  - eexists _, _, _. split; [reflexivity|]. by apply (tx_inv_ext s e).
  - case_match; [|by eauto].
    destruct (poll_expiry_inv (tx_with_poll_timer e false (is_poll_retransmit_timer_expired e)) p)
      as (e' & evs & -> & ?); [by apply (tx_inv_ext s e)|]. by eauto.
Qed.

(** Reachable states. *)
Inductive tx_reachable (cfg : rlc_tx_am_config) : rlc_tx_am_entity Win -> Prop :=
  | tx_initial w : win_ok w -> win_map w = ∅ -> tx_reachable cfg (tx_am_new cfg w)
  | tx_call e op p pdu e' evs : tx_reachable cfg e -> tx_op_ok e op ->
      tx_exec e p op = Some (pdu, e', evs) -> tx_reachable cfg e'.

Lemma tx_reachable_inv cfg e : tx_sn_field_length cfg = s -> tx_reachable cfg e -> tx_inv s e.
Proof.
  intros Hc Hr. induction Hr as [w Hw Hm|e op p pdu e' evs _ IH Hop Hex]; [by apply tx_inv_init|].
  destruct (tx_exec_safe e p op IH Hop) as (pdu' & e1 & evs' & Heq & Hi1). congruence.
Qed.

(** C2: the transmitting entity never fails an assertion.  In every state
    reachable by any interleaving of SDUs of at most 65535 bytes, discards, MAC
    opportunities with any grant, well-formed STATUS reports of the SN size of the
    entity on SDUs that have been sent (ACK_SN at most TX_Next, or beyond it with a
    NACK while TX_Next is being segmented), buffer state updates and
    t-PollRetransmit expiries, the window holds exactly the SDUs between
    TX_Next_Ack and TX_Next (and TX_Next itself while it is segmented), at most
    the window size, and the next such call runs to its end without failing an
    assertion. *)
Theorem tx_am_reachable_safe (cfg : rlc_tx_am_config) (e : rlc_tx_am_entity Win) :
  tx_sn_field_length cfg = s -> tx_reachable cfg e ->
  tx_inv s e /\ forall (p : P) (op : tx_op), tx_op_ok e op ->
    exists pdu e' evs, tx_exec e p op = Some (pdu, e', evs).
Proof.
  intros Hc Hr. pose proof (tx_reachable_inv cfg e Hc Hr) as Hi. split; [done|]. intros p op Hop. destruct (tx_exec_safe e p op Hi Hop) as (pdu & e' & evs & -> & _). by eauto.
Qed.

(** C10: PDUs fit the grant.  Whatever [pull_pdu] returns (a STATUS PDU, trimmed
    if needed, a retransmission or a segment of it, a new SDU or a segment of it)
    is no longer than the grant. *)
Theorem tx_am_pull_fits_grant {PL : status_provider_laws SP s} (e e' : rlc_tx_am_entity Win) (p p' : P)
    (grant : Z) (pdu : bytes) (evs : list tx_event) :
  tx_inv s e -> provider_ok p -> 0 <= grant -> pull_pdu e p grant = Some (pdu, e', p', evs) ->
  blen pdu <= grant.
Proof.
  intros Hi Hp Hg. destruct (provider_status_report_required p) eqn:Er.
  - unfold pull_pdu. rewrite Er. pose proof (pull_status_fits e p grant Hp Hg) as Hf.
    destruct (pull_status_pdu e p grant) as [x y]. by intros [= <- <- <- <-].
  - destruct (rq_is_empty (tx_retx_queue e)) eqn:Eq.
    + destruct (pull_new_spec e p grant Hi Er Eq) as (x & y & z & -> & _ & _ & Hpdu). intros [= <- <- <- <-].
      destruct Hpdu as [[-> _]|(h & pl & _ & Hle & _)]; [done|done].
    + destruct (pull_retx_spec e p grant Hi Er Eq) as (x & y & -> & _ & _ & Hpdu). intros [= <- <- <- <-].
      destruct Hpdu as [->|(z & h & pl & _ & _ & Hle & _)]; [done|done].
Qed.

(** The payload of a new PDU is a PDU of its SDU in the sense of reassembly. *)
Lemma new_pdu_of M h pl pdu i : new_pdu s M h pl pdu -> M !! hdr_sn h = Some i ->
  blen (tx_sdu i) <= sdu_max -> pdu_of (tx_sdu i) (hdr_si h, hdr_so h, pl).
Proof.
  intros [[D1 D2 D3 D4 D5 (j & Hj & D6 & D7)] Hsi] Hi Hmax. rewrite Hj in Hi. injection Hi as ->.
  specialize (Hsi i Hj). unfold sdu_max in Hmax. pose proof (ho_so _ D4) as Hso. unfold is_u16 in Hso.
  unfold pdu_of. destruct (decide (hdr_si h = full_sdu)) as [E|E].
  - rewrite Hsi in E. unfold exact_si in E. destruct (Z.eqb_spec (hdr_so h) 0) as [E0|]; [|by repeat case_match].
    destruct (Z.eqb_spec (blen pl) (blen (tx_sdu i))) as [El|]; [|done].
    rewrite D6, E0, El. apply slice_all.
  - unfold seg_wf, seg_of, seg_len. simpl. split; [lia|]. split; [done|]. split; [done|].
    rewrite Hsi. unfold exact_si in *. rewrite Hsi in E.
    destruct (Z.eqb_spec (hdr_so h) 0) as [E0|]; [destruct (Z.eqb_spec (blen pl) (blen (tx_sdu i)))|
      destruct (Z.eqb_spec (hdr_so h + blen pl) (blen (tx_sdu i)))]; try done; split; try done; lia.
Qed.

(** C5: new transmissions.  When no status is due and no retransmission is
    queued, [pull_pdu] either returns nothing (the grant does not exceed the large
    header, the window is full, or there is no SDU) or a data PDU that the peer's
    header reader accepts, whose payload is taken from the SDU with its SN exactly
    where the previous PDU left off, whose SI field tells truthfully whether the
    payload starts and ends the SDU, and after which the stream stands behind the
    payload (TX_Next advances when the SDU is complete): the segments sent for an
    SDU are the PDUs from which the peer's reassembly restores it. *)
Theorem tx_am_new_pdu_correct (e : rlc_tx_am_entity Win) (p : P) (grant : Z) :
  tx_inv s e -> provider_status_report_required p = false -> rq_is_empty (tx_retx_queue e) = true ->
  exists pdu e' evs, pull_pdu e p grant = Some (pdu, e', p, evs) /\ tx_inv s e'
    /\ (pdu = [] /\ (grant <= head_max_size e \/ tx_used s e = half s \/ (sq_read (tx_sdu_queue e)).1 = None)
        \/ exists h payload i, rlc_am_read_data_pdu_header pdu s (rlc_am_pdu_header_init s) = Some h
            /\ pdu = rlc_am_write_data_pdu_header h payload /\ txmap s e' !! hdr_sn h = Some i
            /\ pdu_of (tx_sdu i) (hdr_si h, hdr_so h, payload) /\ advances s e h payload e').
Proof.
  intros Hi Hp Hr. destruct (pull_new_spec e p grant Hi Hp Hr) as (pdu & e' & evs & -> & Hi' & _ & Hpdu).
  exists pdu, e', evs. split; [done|]. split; [done|].
  destruct Hpdu as [(-> & Hc & _)|(h & pl & Hnew & _ & Hadv)]; [by left|right].
  pose proof Hnew as [[D1 D2 D3 D4 D5 (i & Hk & D6)] _]. exists h, pl, i. split; [|split; [done|split; [done|]]].
  - rewrite D1, <- D3. apply am_header_read_write; [done|]. intros ->. rewrite blen_nil in D5. lia.
  - split; [|done]. apply (new_pdu_of (txmap s e') h pl pdu); try done.
    destruct (tx_entry_bound s e' _ _ Hi' Hk) as [[_ ?] _]. done.
Qed.

(** The SI field of a retransmission that reaches the end of its SDU. *)
Lemma retx_exact_si x len total :
  0 < len <= retx_length x -> retx_so x + retx_length x = total ->
  retx_si x (len =? retx_length x) = exact_si (retx_so x) len total.
Proof.
  intros Hl <-. unfold retx_si, exact_si.
  destruct (Z.eqb_spec (retx_so x) 0) as [->|]; simpl; [done|].
  destruct (Z.eqb_spec len (retx_length x)) as [->|];
    [by rewrite Z.eqb_refl|by rewrite (proj2 (Z.eqb_neq (retx_so x + len) _)) by lia].
Qed.

(** Retransmissions.  When a retransmission is queued and no status is due,
    [pull_pdu] leaves the stream of new data alone and returns nothing or a data
    PDU, accepted by the peer's header reader, that carries the requested bytes of
    an SDU in the window from the requested offset on (as many as fit); if the
    requested range reaches the end of the SDU the PDU is a correct PDU of the SDU
    for the peer's reassembly. *)
Theorem tx_am_retx_pdu_correct (e : rlc_tx_am_entity Win) (p : P) (grant : Z) :
  tx_inv s e -> provider_status_report_required p = false -> rq_is_empty (tx_retx_queue e) = false ->
  exists pdu e', pull_pdu e p grant = Some (pdu, e', p, []) /\ tx_inv s e' /\ same_stream s e e'
    /\ (pdu = [] \/ exists x h payload i, x ∈ rq_queue (tx_retx_queue e)
          /\ rlc_am_read_data_pdu_header pdu s (rlc_am_pdu_header_init s) = Some h
          /\ pdu = rlc_am_write_data_pdu_header h payload
          /\ hdr_sn h = retx_sn x /\ hdr_so h = retx_so x /\ txmap s e !! retx_sn x = Some i
          /\ payload = slice (retx_so x) (Z.min (retx_length x) (grant - retx_hdr_len s x)) (tx_sdu i)
          /\ (retx_so x + retx_length x = blen (tx_sdu i) ->
              pdu_of (tx_sdu i) (hdr_si h, hdr_so h, payload))).
Proof.
  intros Hi Hp Hr. destruct (pull_retx_spec e p grant Hi Hp Hr) as (pdu & e' & -> & Hi' & Hss & Hpdu).
  exists pdu, e'. split; [done|]. split; [done|]. split; [done|].
  destruct Hpdu as [->|(x & h & pl & Hin & Hd & Hle & H1 & H2 & H3 & H4)]; [by left|right].
  pose proof Hd as [D1 D2 D3 D4 D5 (i & Hk & D6 & D7)]. exists x, h, pl, i.
  rewrite H1 in Hk. split; [done|]. split; [|split; [done|]].
  { rewrite D1, <- D3. apply am_header_read_write; [done|]. intros ->. rewrite blen_nil in D5. lia. }
  split; [done|]. split; [done|]. split; [done|]. split; [by rewrite <- H3, <- H2|].
  intros Hend. apply (new_pdu_of (txmap s e) h pl pdu); [split; [done|]|by rewrite H1|].
  - intros j Hj. rewrite H1, Hk in Hj. injection Hj as <-. rewrite H4, H2. apply retx_exact_si; [|done].
    lia.
  - destruct (tx_entry_bound s e _ _ Hi Hk) as [[_ ?] _]. done.
Qed.

(** C6: STATUS reports on SDUs that have been sent: well formed, of the SN size of
    the entity, with an ACK_SN of at most TX_Next, or beyond it with a NACK while
    TX_Next is being segmented ([status_sane]; outside it the entity fails an
    assertion or moves TX_Next_Ack beyond TX_Next).  A report whose ACK_SN or NACKs
    do not fit the window is ignored.  An accepted report moves TX_Next_Ack to its first NACK (or to ACK_SN
    when it has none), removes exactly the SDUs below from the window, tells the
    upper layer the PDCP SN of the last of them that has one, keeps all other
    SDUs, and queues a retransmission for every byte the report NACKs of every
    SDU that stays in the window. *)
Theorem tx_am_status_correct (e : rlc_tx_am_entity Win) (p : P) (st : rlc_am_status_pdu) :
  tx_inv s e -> status_wf s st -> st_sn_size st = s -> status_sane s e st ->
  exists e' evs, handle_status_pdu e p st = Some (e', evs) /\ tx_inv s e'
    /\ if status_accepted e st then status_done s e st e' evs else e' = e /\ evs = [].
Proof. apply handle_status_pdu_spec. Qed.

(** ** Buffer state *)
Definition retx_cost (l : list rlc_tx_amd_retx) : Z :=
  foldr (fun x a => retx_length x + retx_hdr_len s x + a) 0 l.
Definition segment_cost (e : rlc_tx_am_entity Win) : Z :=
  if segmenting e then match txmap s e !! nxt e with
                       | Some i => blen (tx_sdu i) - next_so i + rlc_am_pdu_header_max_size s
                       | None => 0
                       end else 0.
(** The bytes needed to send everything that waits. *)
Definition pending_bytes (e : rlc_tx_am_entity Win) (p : P) : Z :=
  sdu_total (live (tx_sdu_queue e)) + Z.of_nat (length (live (tx_sdu_queue e))) * rlc_am_pdu_header_min_size s
  + segment_cost e + retx_cost (rq_queue (tx_retx_queue e))
  + (if provider_status_report_required p then provider_get_status_pdu_length p else 0).

Lemma retx_cost_totals l :
  retx_cost l = retx_total l + count_zero l * rlc_am_pdu_header_min_size s
                + (Z.of_nat (length l) - count_zero l) * rlc_am_pdu_header_max_size s.
Proof.
  unfold retx_cost, retx_hdr_len, count_zero, retx_total.
  induction l as [|x l IH]; [simpl; lia|]. cbn [foldr length]. rewrite IH. destruct (retx_so x =? 0); lia.
Qed.

(** The buffer state is exact.  As long as it fits 32 bits, the value
    reported to the scheduler is the number of bytes needed to send every SDU not
    discarded with a short header each, the rest of the SDU under segmentation and
    every queued retransmission with the header its offset needs, and the STATUS
    PDU if one is due. *)
Theorem tx_am_buffer_state_exact (e : rlc_tx_am_entity Win) (p : P) :
  tx_inv s e -> sq_ok (tx_sdu_queue e) -> rq_ok (tx_retx_queue e) ->
  0 <= provider_get_status_pdu_length p -> pending_bytes e p < 2 ^ 32 ->
  get_buffer_state e p = pending_bytes e p.
Proof.
  intros Hi Hq Hr Hst Hlt. unfold get_buffer_state.
  pose proof (am_header_min_range s) as Hmin.
  assert (rlc_am_pdu_header_max_size s = rlc_am_pdu_header_min_size s + 2) as Hmax by done.
  assert (head_min_size e = rlc_am_pdu_header_min_size s /\ head_max_size e = rlc_am_pdu_header_max_size s)
    as [Em Ex] by (unfold head_min_size, head_max_size; by rewrite (ti_cfg _ _ Hi)).
  assert (0 <= segment_cost e
          /\ (if sn_under_segmentation e =? INVALID_RLC_SN then 0
              else if win_has_sn (tx_window e) (sn_under_segmentation e)
                   then match win_at (tx_window e) (sn_under_segmentation e) with
                        | Some i => u32 (blen (tx_sdu i) - next_so i + head_max_size e)
                        | None => 0
                        end else 0) = segment_cost e) as [Hs0 ->].
  { unfold segment_cost. destruct (segmenting e) eqn:Hsg.
    - pose proof Hsg as Hsg'. unfold segmenting in Hsg'. breflect. rewrite (proj2 (Z.eqb_neq _ _)) by done.
      destruct (ti_seg _ _ Hi Hsg) as (-> & i & Hk & Hso). rewrite Hk. unfold txmap in Hk.
      rewrite win_has_sn_map, win_at_map, Hk by apply (ti_win _ _ Hi). simpl.
      destruct (tx_entry_bound s e _ _ Hi Hk) as [Hl _]. unfold sdu_max in Hl.
      rewrite Ex, u32_id by (unfold is_u32; lia). lia.
    - unfold segmenting in Hsg. breflect. rewrite (proj2 (Z.eqb_eq _ _)) by done. done. }
  unfold pending_bytes in *. unfold sq_size_bytes, sq_size_sdus. rewrite (sq_bytes _ Hq), (sq_count _ Hq), Em, Ex.
  rewrite (rq_totals _ Hr). rewrite retx_cost_totals in *. simpl.
  pose proof (sdu_total_nonneg (live (tx_sdu_queue e))).
  pose proof (count_zero_range (rq_queue (tx_retx_queue e))).
  pose proof (retx_total_nonneg _ (rq_wf _ Hr)).
  destruct (provider_status_report_required p);
    rewrite (u32_id (Z.of_nat (length (live (tx_sdu_queue e))) * _)) by (unfold is_u32; nia);
    rewrite (u32_id (count_zero _ * _)) by (unfold is_u32; nia);
    rewrite (u32_id ((Z.of_nat (length (rq_queue (tx_retx_queue e))) - _) * _)) by (unfold is_u32; nia);
    rewrite (u32_id (sdu_total _ + _)) by (unfold is_u32; nia);
    rewrite (u32_id (retx_total _ + _ + _)) by (unfold is_u32; nia);
    rewrite u32_id by (unfold is_u32; nia); lia.
Qed.

(** ** Poll counters *)
Section Poll.
  Context (cfg : rlc_tx_am_config).

Definition poll_ok (e : rlc_tx_am_entity Win) : Prop :=
  tx_cfg e = cfg
  /\ (0 < poll_pdu (tx_cfg e) -> 0 <= pdu_without_poll (tx_st e) < poll_pdu (tx_cfg e))
  /\ (0 < poll_byte (tx_cfg e) -> 0 <= byte_without_poll (tx_st e) < poll_byte (tx_cfg e))
  /\ poll_pdu (tx_cfg e) < 2 ^ 31 /\ poll_byte (tx_cfg e) < 2 ^ 31.

Lemma get_polling_bit_poll_ok (e : rlc_tx_am_entity Win) q r n p e' :
  poll_ok e -> get_polling_bit e q r n = (p, e') -> poll_ok e'.
Proof.
  intros (H0 & H1 & H2 & H3 & H4). unfold get_polling_bit. case_match eqn:E; intros [= <- <-]; unfold poll_ok; simpl.
  - split_and!; done || lia.
  - apply orb_false_iff in E as [E _]. apply orb_false_iff in E as [E _].
    apply orb_false_iff in E as [E1 E2]. split_and!; try done.
    + intros Hp. destruct r; [by apply H1|]. rewrite (proj2 (Z.ltb_lt _ _) Hp) in E1. simpl in E1. breflect.
      rewrite (u32_id (poll_pdu _)) in E1 by (unfold is_u32; lia).
      pose proof (u32_is_u32 (pdu_without_poll (tx_st e) + 1)) as Hu. unfold is_u32 in Hu. lia.
    + intros Hp. destruct r; [by apply H2|]. rewrite (proj2 (Z.ltb_lt _ _) Hp) in E2. simpl in E2. breflect.
      rewrite (u32_id (poll_byte _)) in E2 by (unfold is_u32; lia).
      pose proof (u32_is_u32 (byte_without_poll (tx_st e) + n)) as Hu. unfold is_u32 in Hu. lia.
Qed.

(** Solves preservation goals for code whose only access to the counters is one
    call of [get_polling_bit]. *)
Ltac poll_tac :=
  intros; repeat case_match; simplify_eq/=; try done;
  match goal with
  | H : get_polling_bit ?x _ _ _ = (_, ?y), Hp : poll_ok ?e |- _ =>
      let H' := fresh in assert (poll_ok y) as H' by (by eapply (get_polling_bit_poll_ok x));
      first [done | by destruct H' as (? & ? & ? & ? & ?); split_and!]
  end.

Lemma build_first_poll_ok e q i g evs pdu e' evs' :
  poll_ok e -> build_first_sdu_segment e q i g evs = Some (pdu, e', evs') -> poll_ok e'.
Proof. unfold build_first_sdu_segment. poll_tac. Qed.

Lemma build_continued_poll_ok e q i g pdu e' evs :
  poll_ok e -> build_continued_sdu_segment e q i g = Some (pdu, e', evs) -> poll_ok e'.
Proof. unfold build_continued_sdu_segment. poll_tac. Qed.

Lemma build_retx_poll_ok e g pdu e' evs :
  poll_ok e -> build_retx_pdu e g = Some (pdu, e', evs) -> poll_ok e'.
Proof. unfold build_retx_pdu. poll_tac. Qed.

Lemma build_new_poll_ok e g pdu e' evs :
  poll_ok e -> build_new_pdu e g = Some (pdu, e', evs) -> poll_ok e'.
Proof.
  intros Hp. unfold build_new_pdu. destruct (g <=? _); [by intros [= <- <- <-]|].
  destruct (win_full _); [by intros [= <- <- <-]|]. destruct (sq_read _) as [[x|] q]; [|by intros [= <- <- <-]].
  destruct (win_add_sn _ _) as [w|]; [|done]. destruct (win_at w _) as [i|]; [|done].
  destruct (win_set w _ _) as [w'|]; [|done]. destruct (g <? _).
  - by apply build_first_poll_ok.
  - destruct (get_polling_bit _ _ _ _) as [b e1] eqn:Eg. intros [= <- <- <-].
    assert (poll_ok e1) as (? & ? & ? & ? & ?) by (by eapply get_polling_bit_poll_ok; [|exact Eg]). by split_and!.
Qed.

Lemma pull_poll_ok e (p p' : P) g pdu e' evs :
  poll_ok e -> pull_pdu e p g = Some (pdu, e', p', evs) -> poll_ok e'.
Proof.
  intros Hp. unfold pull_pdu. destruct (provider_status_report_required p).
  { destruct (pull_status_pdu e p g). by intros [= <- <- <- <-]. }
  match goal with |- match ?x with _ => _ end = _ -> _ => destruct x as [[[pdu1 e1] evs1]|] eqn:E; [|done] end.
  intros [= <- <- <- <-]. revert E. destruct (negb (rq_is_empty _)); [by apply build_retx_poll_ok|].
  destruct (negb _ && _).
  - destruct (win_at _ _); [|done]. by apply build_continued_poll_ok.
  - destruct (sq_is_empty _); [by intros [= <- <- <-]|]. by apply build_new_poll_ok.
Qed.

(** The STATUS handling does not touch the poll counters. *)
Definition same_poll (e e' : rlc_tx_am_entity Win) : Prop :=
  tx_cfg e' = tx_cfg e /\ pdu_without_poll (tx_st e') = pdu_without_poll (tx_st e)
  /\ byte_without_poll (tx_st e') = byte_without_poll (tx_st e).

Lemma same_poll_trans e1 e2 e3 : same_poll e1 e2 -> same_poll e2 e3 -> same_poll e1 e3.
Proof. unfold same_poll. intros (? & ? & ?) (? & ? & ?). split_and!; congruence. Qed.
Lemma same_poll_ok e e' : same_poll e e' -> poll_ok e -> poll_ok e'.
Proof. intros (E1 & E2 & E3). unfold poll_ok. by rewrite E1, E2, E3. Qed.

Lemma process_acks_poll fuel e q stop md md' e' :
  process_acks fuel e q stop md = Some (md', e') -> same_poll e e'.
Proof.
  revert e q md. induction fuel as [|fuel IH]; intros e q md; simpl.
  { case_match; [done|]. by intros [= <- <-]. }
  case_match; [|by intros [= <- <-]]. case_match; [|by intros [= <- <-]].
  destruct (win_at _ _); [|done]. destruct (win_remove_sn _ _); [|done]. intros H'.
  apply IH in H' as (? & ? & ?). by split_and!.
Qed.

Lemma handle_nack_poll (e : rlc_tx_am_entity Win) n b e' : handle_nack e n = Some (b, e') -> same_poll e e'.
Proof.
  unfold handle_nack. destruct (has_nack_range n); [by intros [= <- <-]|]. destruct (negb _); [by intros [= <- <-]|].
  destruct (win_at _ _); [|done]. destruct (clip_nack _ n). case_match; by intros [= <- <-].
Qed.

Lemma process_nack_range_poll fuel e ack n q l e' l' :
  process_nack_range fuel e ack n q l = Some (e', l') -> same_poll e e'.
Proof.
  revert e q l. induction fuel as [|fuel IH]; intros e q l; simpl; [case_match; [by intros [= <- <-]|done]|].
  case_match; [by intros [= <- <-]|]. case_match; [by intros [= <- <-]|].
  destruct (handle_nack _ _) as [[b e1]|] eqn:E; [|done]. intros Hx. apply handle_nack_poll in E.
  apply IH in Hx. by eapply same_poll_trans.
Qed.

Lemma process_nacks_poll e ack ns l e' l' : process_nacks e ack ns l = Some (e', l') -> same_poll e e'.
Proof.
  revert e l. induction ns as [|n ns IH]; intros e l; simpl; [by intros [= <- <-]|].
  destruct (has_nack_range n).
  - destruct (process_nack_range _ _ _ _ _ _) as [[e1 l1]|] eqn:E; [|done]. intros Hx.
    apply process_nack_range_poll in E. apply IH in Hx. by eapply same_poll_trans.
  - destruct (handle_nack _ _) as [[b e1]|] eqn:E; [|done]. intros Hx. apply handle_nack_poll in E.
    apply IH in Hx. by eapply same_poll_trans.
Qed.

Lemma count_retx_poll e l evs e' evs' : count_retx e l evs = Some (e', evs') -> same_poll e e'.
Proof.
  revert e evs. induction l as [|x l IH]; intros e evs; simpl; [by intros [= <- <-]|].
  destruct (win_at _ _); [|done]. destruct (win_set _ _ _); [|done]. intros Hx. by apply IH in Hx.
Qed.

Lemma handle_status_poll e (p : P) st e' evs : handle_status_pdu e p st = Some (e', evs) -> same_poll e e'.
Proof.
  unfold handle_status_pdu. do 3 (case_match; [by intros [= <- <-]|]).
  match goal with |- context [process_acks _ ?x] => set (e0 := x) end.
  assert (same_poll e e0) as Hs0 by (unfold e0; case_match; done).
  destruct (process_acks _ _ _ _ _) as [[md e1]|] eqn:E1; [|done]. apply process_acks_poll in E1.
  destruct (process_nacks _ _ _ _) as [[e2 l]|] eqn:E2; [|done]. apply process_nacks_poll in E2.
  destruct (update_mac_frame e2 p) as (bs & evs2 & -> & _). intros E3. apply count_retx_poll in E3.
  eapply same_poll_trans; [exact Hs0|]. eapply same_poll_trans; [exact E1|].
  by eapply same_poll_trans; [exact E2|].
Qed.

Lemma tx_exec_poll_ok e (p : P) op pdu e' evs :
  poll_ok e -> tx_exec e p op = Some (pdu, e', evs) -> poll_ok e'.
Proof.
  intros Hp. destruct op as [ok x|ok n|grant|st|ok| |]; simpl.
  - unfold handle_sdu, handle_changed_buffer_state. repeat case_match; intros; simplify_eq/=; done.
  - unfold discard_sdu, handle_changed_buffer_state. repeat case_match; intros; simplify_eq/=; done.
  - destruct (pull_pdu e p grant) as [[[[pdu1 e1] p1] evs1]|] eqn:E; [|done]. intros [= <- <- <-].
    by eapply pull_poll_ok.
  - destruct (handle_status_pdu e p st) as [[e1 evs1]|] eqn:E; [|done]. intros [= <- <- <-].
    apply handle_status_poll in E. by eapply same_poll_ok.
  - unfold handle_changed_buffer_state. repeat case_match; intros; simplify_eq/=; done.
  - by intros [= <- <- <-].
  - case_match; [|by intros [= <- <- <-]]. unfold on_expired_poll_retransmit_timer, update_mac_buffer_state.
    repeat case_match; intros; simplify_eq/=; done.
Qed.
End Poll.

(** Polling.  In every reachable state fewer than pollPDU PDUs and fewer
    than pollByte counted bytes have been sent since the last poll: a PDU that
    reaches one of the thresholds carries the poll bit and resets both counters. *)
Theorem tx_am_poll_counters_bounded (cfg : rlc_tx_am_config) (e : rlc_tx_am_entity Win) :
  poll_pdu cfg < 2 ^ 31 -> poll_byte cfg < 2 ^ 31 -> tx_reachable cfg e ->
  (0 < poll_pdu cfg -> 0 <= pdu_without_poll (tx_st e) < poll_pdu cfg)
  /\ (0 < poll_byte cfg -> 0 <= byte_without_poll (tx_st e) < poll_byte cfg).
Proof.
  intros Hp Hb Hr. assert (poll_ok cfg e) as (E & H1 & H2 & _); [|by rewrite E in *].
  induction Hr as [w Hw Hm|e op p pdu e' evs _ IH _ Hex]; [|by eapply tx_exec_poll_ok].
  unfold poll_ok. simpl. split_and!; try done; lia.
Qed.
End TxSpec.
