(* ===== verification/RlcAm.v ===== *)
(** * RLC AM entity

    [lib/rlc/rlc_am_entity.h] and [lib/rlc/rlc_am_interconnect.h]: the
    transmitting and the receiving entity of one bearer, connected through the
    status provider, handler and notifier interfaces.  The calls redirected to
    [pcell_executor] are run in place.  The last part runs two entities against
    each other. *)
From S2P Require Import Prelude CircularMap RlcAmWindow RlcAmPdu RlcAmStatus RlcAmStatusThms RlcSegments RlcRxAm RlcRxAmThms RlcQueues RlcTxAm RlcTxAmThms RlcTxAmAck RlcTxAmSpec.

Section Am.
  Context {RWin : Type} {RWB : rlc_am_window_base rlc_rx_am_sdu_info RWin}.
  Context {TWin : Type} {TWB : rlc_am_window_base rlc_tx_am_sdu_info TWin}.

(** [rlc_rx_am_entity] as [rlc_rx_am_status_provider] (the t-StatusProhibit task
    is enqueued). *)
#[export] Instance rx_status_provider : rlc_rx_am_status_provider (rlc_rx_am_entity RWin) := {|
  provider_get_status_pdu := get_status_pdu true;
  provider_get_status_pdu_length := get_status_pdu_length;
  provider_status_report_required := status_report_required;
|}.

Record rlc_am_entity := AmEntity {
  am_tx : rlc_tx_am_entity TWin;
  am_rx : rlc_rx_am_entity RWin;
}.

Inductive am_event :=
  | am_new_sdu (d : bytes)
  | am_tx_event (ev : tx_event).

(** The calls the receiving entity makes, [on_status_pdu] and
    [on_status_report_changed] handled by the transmitting entity. *)
Fixpoint am_dispatch (e : rlc_am_entity) (evs : list rx_event) : option (rlc_am_entity * list am_event) :=
  match evs with
  | [] => Some (e, [])
  | ev :: evs =>
      match (match ev with
             | on_new_sdu d => Some (e, [am_new_sdu d])
             | on_status_pdu st =>
                 match handle_status_pdu (am_tx e) (am_rx e) st with
                 | None => None
                 | Some (tx, out) => Some (AmEntity tx (am_rx e), map am_tx_event out)
                 end
             | on_status_report_changed =>
                 let '(tx, out) := handle_changed_buffer_state true (am_tx e) in
                 Some (AmEntity tx (am_rx e), map am_tx_event out)
             end) with
      | None => None
      | Some (e, out) => match am_dispatch e evs with
                         | None => None
                         | Some (e, out') => Some (e, out ++ out')
                         end
      end
  end.

Inductive am_op :=
  | am_handle_sdu (x : rlc_sdu)
  | am_discard_sdu (pdcp_sn : Z)
  | am_handle_pdu (buf : bytes)
  | am_pull_pdu (grant_len : Z)
  | am_reassembly_expiry
  | am_status_prohibit_expiry
  | am_poll_retransmit_expiry
  | am_deferred_update.

(** One call on the bearer: the PDU (of a pull), the new state and the events. *)
Definition am_exec (e : rlc_am_entity) (op : am_op) : option (bytes * rlc_am_entity * list am_event) :=
  let rx_call r := match r with
                   | None => None
                   | Some (rx, evs) =>
                       match am_dispatch (AmEntity (am_tx e) rx) evs with
                       | None => None
                       | Some (e, out) => Some ([], e, out)
                       end
                   end in
  let tx_call r := match r with
                   | None => None
                   | Some (tx, evs) => Some ([], AmEntity tx (am_rx e), map am_tx_event evs)
                   end in
  match op with
  | am_handle_sdu x => tx_call (Some (handle_sdu true (am_tx e) x))
  | am_discard_sdu n => tx_call (Some (discard_sdu true (am_tx e) n))
  | am_handle_pdu buf => rx_call (handle_pdu (am_rx e) buf)
  | am_pull_pdu grant =>
      match pull_pdu (am_tx e) (am_rx e) grant with
      | None => None
      | Some (pdu, tx, rx, evs) => Some (pdu, AmEntity tx rx, map am_tx_event evs)
      end
  | am_reassembly_expiry =>
      if reassembly_timer (am_rx e)
      then rx_call (on_expired_reassembly_timer (with_reassembly_timer (am_rx e) false)) else Some ([], e, [])
  | am_status_prohibit_expiry =>
      if status_prohibit_timer (am_rx e)
      then rx_call (Some (on_expired_status_prohibit_timer (am_rx e))) else Some ([], e, [])
  | am_poll_retransmit_expiry =>
      if poll_retransmit_timer (am_tx e)
      then tx_call (on_expired_poll_retransmit_timer
                      (tx_with_poll_timer (am_tx e) false (is_poll_retransmit_timer_expired (am_tx e))) (am_rx e))
      else Some ([], e, [])
  | am_deferred_update => tx_call (Some (update_mac_buffer_state (am_tx e) (am_rx e)))
  end.
End Am.
Arguments rlc_am_entity RWin TWin : clear implicits.

(** ** The receiving entity keeps the promises of a status provider *)
Section Provider.
  Context {RWin : Type} {RWB : rlc_am_window_base rlc_rx_am_sdu_info RWin}.
  Context (s : rlc_am_sn_size) {RWL : rlc_am_window_laws RWB (half s) sdu_info_default}.

#[export] Program Instance rx_status_provider_laws : status_provider_laws rx_status_provider s := {|
  provider_ok e := rx_inv s e
    /\ rlc_am_nr_status_pdu_sizeof_header_ack_sn + nacks_size s (nacks (status_report e)) < 2 ^ 32;
|}.
Next Obligation.
  intros e [Hi Hsz]. simpl. destruct (rc_report _ _ (ri_core _ _ Hi)) as (H1 & H2 & H3 & H4).
  assert (rx_inv s (with_do_status e false)) as Hi1 by (by apply with_do_status_inv).
  case_match; simpl; split_and!; try done. by apply with_prohibit_inv.
Qed.
End Provider.

(** ** Retransmission of the head of an SDU *)
Section Truncation.
  Context {RWin : Type} {RWB : rlc_am_window_base rlc_rx_am_sdu_info RWin}.
  Context {TWin : Type} {TWB : rlc_am_window_base rlc_tx_am_sdu_info TWin}.
  Context (s : rlc_am_sn_size) {RWL : rlc_am_window_laws RWB (half s) sdu_info_default}
    {TWL : rlc_am_window_laws TWB (half s) tx_sdu_info_default}.
  Context {P : Type} {SP : rlc_rx_am_status_provider P}.

(** A PDU of the peer for an SDU that is in the window and not complete is accepted. *)
Lemma accepts_written (r : rlc_rx_am_entity RWin) h payload :
  rx_core s r -> hdr_sn_size h = s -> am_header_ok h -> 0 < blen payload ->
  base s (rx_next (rx_st r)) (hdr_sn h) < half s -> ~ full_at (wmap s r) (hdr_sn h) ->
  accepts r (rlc_am_write_data_pdu_header h payload) = Some (h, payload).
Proof.
  intros Hc Hs Hok Hpl Hb Hnf. unfold accepts. pose proof (rc_cfg _ _ Hc) as Hcfg. rewrite <- Hs in Hcfg. rewrite Hcfg.
  rewrite am_header_read_write by (done || (intros ->; rewrite blen_nil in Hpl; lia)).
  rewrite am_header_len by done. rewrite (proj2 (Z.leb_gt _ _)) by lia. unfold inside_rx_window.
  rewrite (rx_mod_base_eq s), (rx_window_size_eq s), (proj2 (Z.ltb_lt _ _)) by (done || apply Hc). simpl.
  assert (sn_fully_received (rx_window r) (hdr_sn h) = false) as ->.
  { apply not_true_iff_false. intros H. apply (sn_fully_received_iff s) in H; [done|apply Hc]. }
  do 2 f_equal. pose proof (am_header_len h [] Hok) as Hl. rewrite blen_nil, Z.add_0_r in Hl.
  replace (rlc_am_write_data_pdu_header h payload) with (rlc_am_write_data_pdu_header h [] ++ payload)
    by (unfold rlc_am_write_data_pdu_header; by rewrite app_nil_r, <- app_assoc).
  rewrite <- Hl. unfold slice, blen in *. rewrite Nat2Z.id, drop_app_length.
  apply take_ge. lia.
Qed.

(** C37: retransmission of a lost first segment.  The bytes 0 to L - 1 of an SDU of more than L bytes are the first in the
    retransmission queue (the peer has NACKed them because the first segment was lost) and the grant takes them.
    Then [build_retx_pdu], whose SI only looks at whether the requested range is sent completely, marks the PDU as a
    complete SDU, and every peer that has the SN in its window and not yet complete, whatever segments of the SDU it
    has stored, delivers the first L bytes to its upper layer as the whole SDU. *)
Theorem am_retx_of_first_segment_truncates_sdu (e : rlc_tx_am_entity TWin) (p : P) (r : rlc_rx_am_entity RWin)
    (x : rlc_tx_amd_retx) (l : list rlc_tx_amd_retx) (i : rlc_tx_am_sdu_info) (grant : Z) :
  tx_inv s e -> provider_status_report_required p = false -> rq_queue (tx_retx_queue e) = x :: l -> retx_so x = 0 ->
  txmap s e !! retx_sn x = Some i -> retx_length x < blen (tx_sdu i) ->
  rlc_am_pdu_header_min_size s + retx_length x <= grant ->
  rx_inv s r -> base s (rx_next (rx_st r)) (retx_sn x) < half s -> ~ full_at (wmap s r) (retx_sn x) ->
  exists pdu h e' r' notes, pull_pdu e p grant = Some (pdu, e', p, [])
    /\ rlc_am_read_data_pdu_header pdu s (rlc_am_pdu_header_init s) = Some h /\ hdr_si h = full_sdu
    /\ handle_data_pdu r pdu = Some (r', on_new_sdu (slice 0 (retx_length x) (tx_sdu i)) :: notes)
    /\ slice 0 (retx_length x) (tx_sdu i) <> tx_sdu i.
Proof.
  intros Hi Hp Hq Hso Hx Hlen Hg Hr Hb Hnf.
  assert (retx_hdr_len s x = rlc_am_pdu_header_min_size s) as Hhl by (unfold retx_hdr_len; by rewrite Hso).
  destruct (build_retx_pdu_head s e grant x l i Hi Hq Hx) as (pdu & e' & h & Hbuild & Hpdu); [lia..|].
  destruct Hpdu as (Hd & _ & Hsn & Hso' & Hpl & Hsi). rewrite Hso in *. rewrite Z.min_l in Hpl by lia.
  rewrite Hpl, Z.eqb_refl in Hsi. unfold retx_si in Hsi. rewrite Hso in Hsi. simpl in Hsi.
  pose proof Hd as [D1 D2 D3 D4 D5 _]. rewrite <- Hsn in Hb, Hnf.
  pose proof (accepts_written r h _ (ri_core _ _ Hr) D3 D4 D5 Hb Hnf) as Ha. rewrite <- D1 in Ha.
  assert (rlc_am_read_data_pdu_header pdu s (rlc_am_pdu_header_init s) = Some h) as Hread.
  { rewrite D1, <- D3. apply am_header_read_write; [done|]. intros E. rewrite E, blen_nil in D5. lia. }
  assert (pdu_bounded s pdu) as Hbd by (intros h' Hh'; rewrite Hread in Hh'; by injection Hh' as <-).
  destruct (handle_data_pdu_store s r pdu h _ Hr Hbd Ha) as (r' & notes & Hh & _).
  exists pdu, h, e', r', notes. split_and!; try done.
  - unfold pull_pdu. rewrite Hp. unfold rq_is_empty. rewrite Hq. simpl. by rewrite Hbuild.
  - rewrite Hh. unfold delivered, with_pdu. rewrite lookup_insert_eq. unfold stored_info, handle_full_data_sdu.
    by rewrite Hsi, !bool_decide_true.
  - intros E. apply (f_equal blen) in E. lia.
Qed.
End Truncation.

(** ** Two bearers connected *)
Section Demo.
#[local] Instance rwin : rlc_am_window_base rlc_rx_am_sdu_info (circular_map rlc_rx_am_sdu_info) :=
  rlc_am_window (half size12bits) sdu_info_default.
#[local] Instance twin : rlc_am_window_base rlc_tx_am_sdu_info (circular_map rlc_tx_am_sdu_info) :=
  rlc_am_window (half size12bits) tx_sdu_info_default.

Definition am_demo : Type := rlc_am_entity (circular_map rlc_rx_am_sdu_info) (circular_map rlc_tx_am_sdu_info).
Definition demo_am (poll_pdu poll_byte : Z) : am_demo :=
  AmEntity (tx_am_new (TxAmConfig size12bits 45 4 poll_pdu poll_byte) cm_empty)
           (rx_am_new (RxAmConfig size12bits 35 10) cm_empty).

(** A sequence of calls: PDUs pulled, final state, events. *)
Fixpoint am_run (e : am_demo) (ops : list am_op) : option (list bytes * am_demo * list am_event) :=
  match ops with
  | [] => Some ([], e, [])
  | op :: ops =>
      match am_exec e op with
      | None => None
      | Some (pdu, e, evs) =>
          match am_run e ops with
          | None => None
          | Some (pdus, e, evs') => Some (pdu :: pdus, e, evs ++ evs')
          end
      end
  end.
(** The PDU of the last pull, and the SDUs handed to the upper layer. *)
Definition pulled (e : am_demo) (ops : list am_op) : bytes :=
  match am_run e ops with Some (pdus, _, _) => default [] (list.last pdus) | None => [] end.
Definition received (e : am_demo) (ops : list am_op) : list bytes :=
  match am_run e ops with
  | Some (_, _, evs) => omap (fun ev => match ev with am_new_sdu d => Some d | _ => None end) evs
  | None => []
  end.

(** An SDU of ten bytes sent as two segments. *)
Definition ten : rlc_sdu := RlcSdu [1;2;3;4;5;6;7;8;9;10] (Some 7).
Definition seg1 : bytes := pulled (demo_am 4 0) [am_handle_sdu ten; am_pull_pdu 7].
Definition seg2 : bytes := pulled (demo_am 4 0) [am_handle_sdu ten; am_pull_pdu 7; am_pull_pdu 20].

(** The segments arrive in any order, one of them twice. *)
Example segments_delivered : received (demo_am 4 0) [am_handle_pdu seg2; am_handle_pdu seg2; am_handle_pdu seg1]
  = [sdu_buf ten].
Proof. vm_compute. reflexivity. Qed.

(** The peer's report after losing the first segment. *)
Definition report1 : bytes :=
  pulled (demo_am 4 0) [am_handle_pdu seg2; am_reassembly_expiry; am_pull_pdu 20].
(** The retransmission it causes. *)
Definition retx1 : bytes :=
  pulled (demo_am 4 0) [am_handle_sdu ten; am_pull_pdu 7; am_pull_pdu 20; am_handle_pdu report1; am_pull_pdu 20].

(** The run behind it: an SDU of ten bytes is sent in two segments, the first is lost, the peer's STATUS report asks for
    bytes 0 to 4, and the peer delivers the retransmission as an SDU of five bytes. *)
Example am_truncated_run :
  retx1 = [0xc0; 0; 1; 2; 3; 4; 5]
  /\ received (demo_am 4 0) [am_handle_pdu seg2; am_reassembly_expiry; am_pull_pdu 20; am_handle_pdu retx1]
     = [[1; 2; 3; 4; 5]].
Proof. vm_compute. split; reflexivity. Qed.

(** A STATUS PDU that NACKs TX_Next.  A five-byte STATUS PDU from the peer
    (ACK_SN = 1, NACK_SN = 0) on a bearer that has sent nothing passes all checks
    of [handle_status_pdu] and makes [handle_nack] index the window with an SN that
    is not there: an assertion fails. *)
Theorem am_status_nack_of_unsent_sn_fails_assertion :
  am_run (demo_am 4 0) [am_handle_pdu [0; 1; 0x80; 0; 0]] = None.
Proof. vm_compute. reflexivity. Qed.

(** A STATUS PDU that acknowledges an SDU under segmentation is accepted:
    the SDU is reported as delivered after half of it was sent, and TX_Next_Ack
    overtakes TX_Next. *)
Theorem am_ack_of_partly_sent_sdu_overtakes_tx_next :
  exists pdus e, am_run (demo_am 4 0) [am_handle_sdu ten; am_pull_pdu 7; am_handle_pdu [0; 1; 0]]
    = Some (pdus, e, [am_tx_event defer_update_mac_buffer_state; am_tx_event (on_transmitted_sdu 7);
                      am_tx_event (on_delivered_sdu 7); am_tx_event (on_buffer_state_update 0)])
    /\ tx_next_ack (tx_st (am_tx e)) = 1 /\ tx_next (tx_st (am_tx e)) = 0.
Proof. eexists _, _. split; [vm_compute; reflexivity|]. split; reflexivity. Qed.

(** Bytes of complete SDUs are not counted for pollByte.  With pollByte = 5 a
    PDU with a complete SDU of ten bytes is sent without poll bit and leaves
    BYTE_WITHOUT_POLL at 0, because the length is taken from the buffer that has
    been moved into the window. *)
Theorem am_poll_byte_ignores_complete_sdus :
  exists e evs, am_run (demo_am 0 5) [am_handle_sdu ten; am_handle_sdu ten; am_pull_pdu 20]
    = Some ([[]; []; [0x80; 0; 1; 2; 3; 4; 5; 6; 7; 8; 9; 10]], e, evs)
    /\ byte_without_poll (tx_st (am_tx e)) = 0.
Proof. eexists _, _. split; [vm_compute; reflexivity|]. reflexivity. Qed.

(** A discarded SDU suppresses the poll.  After the second of two SDUs is
    discarded, the PDU with the first empties all buffers (the reported buffer
    state is 0), but carries no poll bit and does not start t-PollRetransmit,
    because the slot of the discarded SDU keeps the queue from being empty. *)
Theorem am_discarded_sdu_suppresses_poll :
  exists e evs, am_run (demo_am 0 0) [am_handle_sdu ten; am_handle_sdu (RlcSdu [1; 2] (Some 8));
                                      am_discard_sdu 8; am_pull_pdu 20]
    = Some ([[]; []; []; [0x80; 0; 1; 2; 3; 4; 5; 6; 7; 8; 9; 10]], e, evs)
    /\ get_buffer_state (am_tx e) (am_rx e) = 0 /\ poll_retransmit_timer (am_tx e) = false.
Proof. eexists _, _. split; [vm_compute; reflexivity|]. split; reflexivity. Qed.

(** ** Instances of the theorems on the transmitting entity *)
#[local] Instance rwin_lawful : rlc_am_window_laws rwin (half size12bits) sdu_info_default :=
  rlc_am_window_lawful (half size12bits) sdu_info_default.
#[local] Instance twin_lawful : rlc_am_window_laws twin (half size12bits) tx_sdu_info_default :=
  rlc_am_window_lawful (half size12bits) tx_sdu_info_default.

Definition demo_rx : rlc_rx_am_entity (circular_map rlc_rx_am_sdu_info) := am_rx (demo_am 4 0).
Definition demo_cfg : rlc_tx_am_config := TxAmConfig size12bits 45 4 4 0.

Fixpoint demo_tx (ops : list tx_op) : rlc_tx_am_entity (circular_map rlc_tx_am_sdu_info) :=
  match ops with
  | [] => tx_am_new demo_cfg cm_empty
  | op :: ops => match tx_exec (demo_tx ops) demo_rx op with Some (_, e, _) => e | None => demo_tx ops end
  end.

(** Calls that are always allowed. *)
Definition free_op (op : tx_op) : Prop :=
  match op with tx_handle_sdu _ x => blen (sdu_buf x) <= sdu_max | tx_on_status_pdu _ => False | _ => True end.

Lemma demo_tx_reachable ops : Forall free_op ops -> tx_reachable (P := rlc_rx_am_entity (circular_map rlc_rx_am_sdu_info))
  size12bits demo_cfg (demo_tx ops).
Proof.
  induction 1 as [|op ops Hop _ IH]; simpl.
  - apply tx_initial; [apply cm_empty_ok|done].
  - destruct (tx_exec (demo_tx ops) demo_rx op) as [[[pdu e] evs]|] eqn:E; [|done].
    eapply tx_call; [exact IH| |exact E]. by destruct op.
Qed.

Lemma demo_tx_inv ops : Forall free_op ops -> tx_inv size12bits (demo_tx ops).
Proof. intros H. eapply tx_reachable_inv; [|by apply demo_tx_reachable]. done. Qed.

(** The SDU queued; sent whole; queued again for retransmission by t-PollRetransmit
    (most recent call first). *)
Definition ops_queued : list tx_op := [tx_handle_sdu true ten].
Definition ops_sent : list tx_op := tx_pull_pdu 20 :: ops_queued.
Definition ops_retx : list tx_op := tx_poll_retransmit_expiry :: ops_sent.

Lemma free_queued : Forall free_op ops_queued.
Proof. repeat constructor. vm_compute. congruence. Qed.
Lemma free_sent : Forall free_op ops_sent.
Proof. constructor; [done|apply free_queued]. Qed.
Lemma free_retx : Forall free_op ops_retx.
Proof. constructor; [done|apply free_sent]. Qed.

Lemma demo_rx_ok : provider_ok (status_provider_laws := rx_status_provider_laws size12bits) demo_rx.
Proof. split; [by apply rx_inv_init; [|apply cm_empty_ok|]|vm_compute; reflexivity]. Qed.

Lemma tx_am_reachable_safe_witness :
  tx_inv size12bits (demo_tx ops_retx) /\ forall op, tx_op_ok size12bits (demo_tx ops_retx) op ->
    exists pdu e' evs, tx_exec (demo_tx ops_retx) demo_rx op = Some (pdu, e', evs).
Proof.
  destruct (tx_am_reachable_safe (P := rlc_rx_am_entity (circular_map rlc_rx_am_sdu_info)) size12bits demo_cfg
              (demo_tx ops_retx) eq_refl (demo_tx_reachable _ free_retx)) as [H1 H2].
  split; [exact H1|]. intros op. apply (H2 demo_rx op).
Defined.

Lemma tx_am_pull_fits_grant_witness :
  exists pdu e' p' evs, pull_pdu (demo_tx ops_queued) demo_rx 7 = Some (pdu, e', p', evs) /\ blen pdu <= 7.
Proof.
  eexists _, _, _, _. split; [vm_compute; reflexivity|].
  eapply (tx_am_pull_fits_grant size12bits (PL := rx_status_provider_laws size12bits) (demo_tx ops_queued) _ demo_rx).
  - apply demo_tx_inv, free_queued.
  - apply demo_rx_ok.
  - vm_compute. congruence.
  - vm_compute. reflexivity.
Defined.

Lemma demo_rx_idle : provider_status_report_required demo_rx = false.
Proof. vm_compute. reflexivity. Qed.

Lemma tx_am_new_pdu_correct_witness :
  exists pdu e' evs, pull_pdu (demo_tx ops_queued) demo_rx 7 = Some (pdu, e', demo_rx, evs) /\ tx_inv size12bits e'.
Proof.
  destruct (tx_am_new_pdu_correct size12bits (demo_tx ops_queued) demo_rx 7 (demo_tx_inv _ free_queued)
              demo_rx_idle ltac:(vm_compute; reflexivity)) as (pdu & e' & evs & H1 & H2 & _).
  exists pdu, e', evs. split; [exact H1|exact H2].
Defined.

Lemma tx_am_retx_pdu_correct_witness :
  exists pdu e', pull_pdu (demo_tx ops_retx) demo_rx 7 = Some (pdu, e', demo_rx, []) /\ tx_inv size12bits e'
    /\ pdu = [0xd0; 0; 1; 2; 3; 4; 5].
Proof.
  assert (rq_is_empty (tx_retx_queue (demo_tx ops_retx)) = false) as Hq by (vm_compute; reflexivity).
  destruct (tx_am_retx_pdu_correct size12bits (demo_tx ops_retx) demo_rx 7 (demo_tx_inv _ free_retx)
              demo_rx_idle Hq) as (pdu & e' & H1 & H2 & _).
  exists pdu, e'. split; [exact H1|]. split; [exact H2|]. clear H2. vm_compute in H1. congruence.
Defined.

Definition demo_status : rlc_am_status_pdu := build_status size12bits [Nack 0 true 2 4 false 0] 1.

Lemma tx_am_status_correct_witness :
  exists e' evs, handle_status_pdu (demo_tx ops_sent) demo_rx demo_status = Some (e', evs) /\ tx_inv size12bits e'
    /\ rq_queue (tx_retx_queue e') = [Retx 0 2 3].
Proof.
  destruct (tx_am_status_correct size12bits (demo_tx ops_sent) demo_rx demo_status (demo_tx_inv _ free_sent))
    as (e' & evs & H1 & H2 & _).
  - split; [vm_compute; split; congruence|]. constructor; [|constructor].
    split; vm_compute; try done; split; congruence.
  - reflexivity.
  - left. vm_compute. congruence.
  - exists e', evs. split; [exact H1|]. split; [exact H2|]. clear H2. vm_compute in H1.
    injection H1 as <- _. reflexivity.
Defined.

(** The first five bytes of the SDU queued for retransmission, and a peer that has the last five. *)
Definition demo_nacked : rlc_tx_am_entity (circular_map rlc_tx_am_sdu_info) :=
  match handle_status_pdu (demo_tx ops_sent) demo_rx (build_status size12bits [Nack 0 true 0 4 false 0] 1) with
  | Some (e, _) => e | None => demo_tx ops_sent end.
Definition demo_peer : rlc_rx_am_entity (circular_map rlc_rx_am_sdu_info) :=
  match handle_data_pdu demo_rx seg2 with Some (r, _) => r | None => demo_rx end.

Lemma demo_nacked_inv : tx_inv size12bits demo_nacked.
Proof.
  unfold demo_nacked.
  destruct (handle_status_pdu_spec size12bits (demo_tx ops_sent) demo_rx (build_status size12bits [Nack 0 true 0 4 false 0] 1)
              (demo_tx_inv _ free_sent)) as (e' & evs & -> & H & _); [|done|left; vm_compute; congruence|done].
  split; [vm_compute; split; congruence|]. constructor; [|constructor]. split; vm_compute; try done; split; congruence.
Qed.
Lemma demo_peer_inv : rx_inv size12bits demo_peer.
Proof.
  unfold demo_peer. destruct (handle_data_pdu_safe size12bits demo_rx seg2) as (r & evs & -> & H); [apply demo_rx_ok| |done].
  intros h Hh. vm_compute in Hh. injection Hh as <-. vm_compute. congruence.
Qed.

Lemma am_retx_of_first_segment_truncates_sdu_witness :
  exists pdu h e' r' notes, pull_pdu demo_nacked demo_rx 20 = Some (pdu, e', demo_rx, [])
    /\ rlc_am_read_data_pdu_header pdu size12bits (rlc_am_pdu_header_init size12bits) = Some h /\ hdr_si h = full_sdu
    /\ handle_data_pdu demo_peer pdu = Some (r', on_new_sdu [1; 2; 3; 4; 5] :: notes).
Proof.
  destruct (am_retx_of_first_segment_truncates_sdu size12bits demo_nacked demo_rx demo_peer (Retx 0 0 5) []
              (default tx_sdu_info_default (txmap size12bits demo_nacked !! 0)) 20) as (pdu & h & e' & r' & notes & H1 & H2 & H3 & H4 & _).
  - apply demo_nacked_inv.
  - apply demo_rx_idle.
  - vm_compute. reflexivity.
  - reflexivity.
  - vm_compute. reflexivity.
  - vm_compute. reflexivity.
  - vm_compute. congruence.
  - apply demo_peer_inv.
  - vm_compute. reflexivity.
  - intros (i & Hi & Hf). assert (wmap size12bits demo_peer !! 0 = Some (SduInfo false true [Seg last_segment 5 [6; 7; 8; 9; 10]] [])) as E
      by (vm_compute; reflexivity). cbn [retx_sn] in Hi. rewrite E in Hi. injection Hi as <-. discriminate Hf.
  - exists pdu, h, e', r', notes. split_and!; assumption.
Defined.

Lemma tx_am_buffer_state_exact_witness :
  get_buffer_state (demo_tx ops_queued) demo_rx = 12
  /\ get_buffer_state (demo_tx ops_queued) demo_rx = pending_bytes size12bits (demo_tx ops_queued) demo_rx.
Proof.
  split; [vm_compute; reflexivity|].
  apply (tx_am_buffer_state_exact size12bits (demo_tx ops_queued) demo_rx (demo_tx_inv _ free_queued)).
  - split; vm_compute; try done; split; congruence.
  - split; [constructor|vm_compute; reflexivity].
  - vm_compute. congruence.
  - vm_compute. reflexivity.
Defined.

Lemma tx_am_poll_counters_bounded_witness :
  0 <= pdu_without_poll (tx_st (demo_tx ops_sent)) < 4.
Proof.
  apply (tx_am_poll_counters_bounded (P := rlc_rx_am_entity (circular_map rlc_rx_am_sdu_info)) size12bits demo_cfg
           (demo_tx ops_sent)); [vm_compute; reflexivity..| |vm_compute; reflexivity].
  apply demo_tx_reachable, free_sent.
Defined.
End Demo.
