(* ===== verification/OrdMap.v ===== *)
(** * Ordered maps

    [std::map] with unsigned keys, as the UM reassembly window, the segments of
    an SDU, the PDCP reordering queue and the PDCP discard timers use it: an
    association list in increasing key order, which is the order iterators visit
    it in. *)
From S2P Require Import Prelude.

Abbreviation ordmap V := (list (Z * V)).

Section OrdMap.
  Context {V : Type}.
  Implicit Types (m : ordmap V) (k : Z) (v : V).

Fixpoint om_find (k : Z) (m : ordmap V) : option V :=
  match m with
  | [] => None
  | (k', v) :: r => if k =? k' then Some v else om_find k r
  end.

(** [m[k] = v] *)
Fixpoint om_assign (k : Z) (v : V) (m : ordmap V) : ordmap V :=
  match m with
  | [] => [(k, v)]
  | (k', v') :: r =>
      if k <? k' then (k, v) :: m
      else if k =? k' then (k, v) :: r
      else (k', v') :: om_assign k v r
  end.

(** [m.emplace(k, v)] and [m.insert({k, v})] keep an existing element. *)
Definition om_emplace (k : Z) (v : V) (m : ordmap V) : ordmap V :=
  match om_find k m with Some _ => m | None => om_assign k v m end.

Definition om_erase (k : Z) (m : ordmap V) : ordmap V := filter (fun p => p.1 <> k) m.

(** The order invariant: every key is above [lo] and the keys increase. *)
Fixpoint om_above (lo : Z) (m : ordmap V) : Prop :=
  match m with [] => True | (k, _) :: r => lo < k /\ om_above k r end.
Definition om_ok (m : ordmap V) : Prop :=
  match m with [] => True | (k, _) :: r => om_above k r end.

Lemma om_above_weaken lo lo' m : lo' <= lo -> om_above lo m -> om_above lo' m.
Proof. destruct m as [|[k v] r]; simpl; [done|]. intros ? [? ?]. split; [lia|done]. Qed.
Lemma om_above_ok lo m : om_above lo m -> om_ok m.
Proof. destruct m as [|[k v] r]; simpl; tauto. Qed.
Lemma om_ok_above m : om_ok m -> exists lo, om_above lo m.
Proof. destruct m as [|[k v] r]; simpl; [by exists 0|]. intros. exists (k - 1). split; [lia|done]. Qed.
Lemma om_above_find lo m k : om_above lo m -> k <= lo -> om_find k m = None.
Proof.
  revert lo. induction m as [|[k' v'] r IH]; intros lo; simpl; [done|]. intros [Hk Hr] Hle.
  destruct (Z.eqb_spec k k'); [lia|]. apply (IH k'); [done|lia].
Qed.
Lemma om_above_elem lo m k v : om_above lo m -> (k, v) ∈ m -> lo < k.
Proof.
  revert lo. induction m as [|[k' v'] r IH]; intros lo; simpl; [by intros _ ?%not_elem_of_nil|].
  intros [Hk Hr] [[= -> ->]|Hin]%elem_of_cons; [done|]. pose proof (IH _ Hr Hin). lia.
Qed.

Lemma om_above_assign lo m k v : om_above lo m -> lo < k -> om_above lo (om_assign k v m).
Proof.
  revert lo. induction m as [|[k' v'] r IH]; intros lo; simpl; [done|]. intros [Hk Hr] Hlt.
  destruct (Z.ltb_spec k k'); [by split_and!|]. destruct (Z.eqb_spec k k') as [->|]; simpl; [by split|].
  split; [done|]. apply IH; [done|lia].
Qed.
Lemma om_assign_ok m k v : om_ok m -> om_ok (om_assign k v m).
Proof.
  intros [lo Hlo]%om_ok_above. apply (om_above_ok (Z.min lo (k - 1))), om_above_assign; [|lia].
  apply (om_above_weaken lo); [lia|done].
Qed.
Lemma om_emplace_ok m k v : om_ok m -> om_ok (om_emplace k v m).
Proof. unfold om_emplace. case_match; [done|apply om_assign_ok]. Qed.
Lemma om_above_filter lo m (P : Z * V -> Prop) `{!forall x, Decision (P x)} :
  om_above lo m -> om_above lo (filter P m).
Proof.
  revert lo. induction m as [|[k' v'] r IH]; intros lo; [done|]. intros [Hk Hr].
  rewrite filter_cons. case_decide; [split; auto|]. apply (om_above_weaken k'); [lia|auto].
Qed.
Lemma om_filter_ok m (P : Z * V -> Prop) `{!forall x, Decision (P x)} : om_ok m -> om_ok (filter P m).
Proof. intros [lo Hlo]%om_ok_above. by eapply om_above_ok, om_above_filter. Qed.
Lemma om_erase_ok m k : om_ok m -> om_ok (om_erase k m).
Proof. apply om_filter_ok. Qed.

Lemma om_find_assign m k v k' : om_find k' (om_assign k v m) = if k' =? k then Some v else om_find k' m.
Proof.
  induction m as [|[j w] r IH]; simpl; [done|].
  destruct (Z.ltb_spec k j); simpl; [done|]. destruct (Z.eqb_spec k j) as [->|]; simpl.
  - by destruct (Z.eqb_spec k' j).
  - rewrite IH. destruct (Z.eqb_spec k' j), (Z.eqb_spec k' k); try done. lia.
Qed.
Lemma om_find_emplace m k v k' :
  om_find k' (om_emplace k v m)
  = if (k' =? k) && bool_decide (om_find k m = None) then Some v else om_find k' m.
Proof.
  unfold om_emplace. destruct (om_find k m) as [w|] eqn:E.
  - by rewrite bool_decide_false, andb_false_r.
  - by rewrite bool_decide_true, andb_true_r, om_find_assign by done.
Qed.
Lemma om_find_elem m k v : om_ok m -> om_find k m = Some v <-> (k, v) ∈ m.
Proof.
  induction m as [|[j w] r IH]; simpl; intros Hok; [by rewrite elem_of_nil|].
  rewrite elem_of_cons. destruct (Z.eqb_spec k j) as [->|Hne].
  - split; [intros [= ->]; by left|]. intros [[= ->]|Hin]; [done|].
    pose proof (om_above_elem _ _ _ _ Hok Hin). lia.
  - rewrite IH by (by eapply om_above_ok). split; [by right|]. intros [[= -> ->]|]; [lia|done].
Qed.
Lemma om_find_filter m k (P : Z * V -> Prop) `{!forall x, Decision (P x)} : om_ok m ->
  om_find k (filter P m)
  = match om_find k m with Some v => if decide (P (k, v)) then Some v else None | None => None end.
Proof.
  intros Hok. apply option_eq. intros v. rewrite om_find_elem by (by apply om_filter_ok).
  rewrite list_elem_of_filter, <- om_find_elem by done. destruct (om_find k m) as [w|]; [|naive_solver].
  case_decide; naive_solver.
Qed.
Lemma om_find_erase m k k' : om_ok m -> om_find k' (om_erase k m) = if k' =? k then None else om_find k' m.
Proof.
  intros Hok. unfold om_erase. rewrite om_find_filter by done. simpl.
  destruct (Z.eqb_spec k' k), (om_find k' m); try done; by case_decide.
Qed.
End OrdMap.
