(* ===== verification/RlcUmPdu.v ===== *)
(** * RLC UM data PDU header

    [lib/rlc/rlc_um_pdu.h]: sizes, reader and writer of the UMD PDU header for
    6-bit and 12-bit sequence numbers, and the UM parts of
    [include/srsran/rlc/rlc_config.h]. *)
From S2P Require Import Prelude RlcAmPdu.

Inductive rlc_um_sn_size := um_size6bits | um_size12bits.
#[export] Instance rlc_um_sn_size_eq_dec : EqDecision rlc_um_sn_size.
Proof. solve_decision. Defined.

Definition um_sn_size_to_number (s : rlc_um_sn_size) : Z :=
  match s with um_size6bits => 6 | um_size12bits => 12 end.

Definition rlc_um_pdu_header_size_complete_sdu : Z := 1.
Definition rlc_um_pdu_header_size_no_so (s : rlc_um_sn_size) : Z :=
  match s with um_size6bits => 1 | um_size12bits => 2 end.
Definition rlc_um_pdu_header_size_with_so (s : rlc_um_sn_size) : Z :=
  match s with um_size6bits => 3 | um_size12bits => 4 end.

Record rlc_um_pdu_header := UmHeader {
  uh_si : rlc_si_field;
  uh_sn_size : rlc_um_sn_size;
  uh_sn : Z;
  uh_so : Z;
}.

(** The fixed part: SI, SN and the rest of the reader, [None] when the PDU is
    rejected. *)
Definition rlc_um_read_fixed (pdu : bytes) (s : rlc_um_sn_size) : option (rlc_si_field * Z * bytes) :=
  match pdu with
  | [] => None (* UMD PDU too small *)
  | b0 :: r0 =>
      let si := si_of_number (Z.land (Z.shiftr b0 6) 0x03) in
      match s with
      | um_size6bits =>
          let sn := Z.land b0 0x3f in
          if bool_decide (si = full_sdu) && negb (sn =? 0) then None (* reserved bits *)
          else Some (si, sn, r0)
      | um_size12bits =>
          let sn := Z.shiftl (Z.land b0 0x0f) 8 in
          if bool_decide (si = full_sdu) && negb (sn =? 0) then None (* reserved bits *)
          else if bool_decide (si = first_segment) && negb (Z.land (Z.shiftr b0 4) 0x03 =? 0)
          then None (* reserved bits *)
          else if negb (bool_decide (si = full_sdu)) then
            match r0 with
            | [] => None (* missing lower byte of SN *)
            | b1 :: r1 => Some (si, Z.lor sn (Z.land b1 0xff), r1)
            end
          else Some (si, sn, r0)
      end
  end.

(** [rlc_um_read_data_pdu_header] into a zero-initialised header object, as its
    only caller does; [None] is the result [false]. *)
Definition rlc_um_read_data_pdu_header (pdu : bytes) (s : rlc_um_sn_size) : option rlc_um_pdu_header :=
  match rlc_um_read_fixed pdu s with
  | None => None
  | Some (si, sn, rest) =>
      if si_has_so si then
        match rest with
        | s0 :: s1 :: _ =>
            Some (UmHeader si s sn (Z.lor (u16 (Z.shiftl (Z.land s0 0xff) 8)) (Z.land s1 0xff)))
        | _ => None (* missing byte of SO *)
        end
      else Some (UmHeader si s sn 0)
  end.

Definition rlc_um_nr_packed_length (h : rlc_um_pdu_header) : Z :=
  if bool_decide (uh_si h = full_sdu) then 1
  else match uh_sn_size h with um_size6bits => 1 | um_size12bits => 2 end
       + (if negb (uh_so h =? 0) then 2 else 0).

(** [rlc_um_write_data_pdu_header]: the header bytes, chained before [pdu]. *)
Definition rlc_um_write_data_pdu_header (h : rlc_um_pdu_header) (pdu : bytes) : bytes :=
  let b := u8 (Z.shiftl (Z.land (si_to_number (uh_si h)) 0x03) 6) in
  (if bool_decide (uh_si h = full_sdu) then [b]
   else match uh_sn_size h with
        | um_size6bits => [u8 (Z.lor b (Z.land (uh_sn h) 0x3f))]
        | um_size12bits => [u8 (Z.lor b (Z.land (Z.shiftr (uh_sn h) 8) 0x0f)); u8 (Z.land (uh_sn h) 0xff)]
        end
        ++ (if negb (uh_so h =? 0)
            then [u8 (Z.shiftr (uh_so h) 8); u8 (Z.land (uh_so h) 0xff)] else [])) ++ pdu.

(** ** Lemmas *)
Definition um_mod (s : rlc_um_sn_size) : Z := cardinality (um_sn_size_to_number s).
Lemma um_mod_values s : um_mod s = match s with um_size6bits => 64 | um_size12bits => 4096 end.
Proof. by destruct s. Qed.

(** Headers an entity builds: SN within its field, a 16-bit SO that is present
    exactly for the SI values that carry it, and no SN on complete SDUs. *)
Record um_header_ok (h : rlc_um_pdu_header) : Prop := {
  uo_sn : 0 <= uh_sn h < um_mod (uh_sn_size h);
  uo_so : is_u16 (uh_so h);
  uo_si : si_has_so (uh_si h) = negb (uh_so h =? 0);
}.

Definition um_header_len (h : rlc_um_pdu_header) : Z :=
  match uh_si h with
  | full_sdu => rlc_um_pdu_header_size_complete_sdu
  | first_segment => rlc_um_pdu_header_size_no_so (uh_sn_size h)
  | _ => rlc_um_pdu_header_size_with_so (uh_sn_size h)
  end.

Lemma um_packed_length h : um_header_ok h -> rlc_um_nr_packed_length h = um_header_len h.
Proof.
  intros [_ _ Hsi]. unfold rlc_um_nr_packed_length, um_header_len. rewrite <- Hsi.
  destruct (uh_si h), (uh_sn_size h); reflexivity.
Qed.
Lemma um_write_len h pdu : um_header_ok h ->
  blen (rlc_um_write_data_pdu_header h pdu) = um_header_len h + blen pdu.
Proof.
  intros [_ _ Hsi]. unfold rlc_um_write_data_pdu_header, um_header_len. rewrite <- Hsi.
  unfold rlc_um_pdu_header_size_complete_sdu, blen. destruct (uh_si h), (uh_sn_size h); simpl length; simpl; lia.
Qed.
(** Dropping the header leaves the payload. *)
Lemma um_write_payload h pdu : um_header_ok h ->
  drop (Z.to_nat (um_header_len h)) (rlc_um_write_data_pdu_header h pdu) = pdu.
Proof.
  intros [_ _ Hsi]. unfold rlc_um_write_data_pdu_header, um_header_len. rewrite <- Hsi.
  destruct (uh_si h), (uh_sn_size h); reflexivity.
Qed.

(** The SN of a PDU with a complete SDU is not sent. *)
Definition um_sent_header (h : rlc_um_pdu_header) : rlc_um_pdu_header :=
  if bool_decide (uh_si h = full_sdu) then UmHeader full_sdu (uh_sn_size h) 0 0 else h.

(** The reader on the fixed part of a segment's header. *)
Lemma um_read_fixed_write s si sn rest :
  0 <= sn < um_mod s -> si <> full_sdu ->
  rlc_um_read_fixed
    (match s with
     | um_size6bits => [u8 (Z.lor (u8 (Z.shiftl (Z.land (si_to_number si) 3) 6)) (Z.land sn 0x3f))]
     | um_size12bits => [u8 (Z.lor (u8 (Z.shiftl (Z.land (si_to_number si) 3) 6))
                                   (Z.land (Z.shiftr sn 8) 0x0f)); u8 (Z.land sn 0xff)]
     end ++ rest) s = Some (si, sn, rest).
Proof.
  rewrite um_mod_values. intros Hsn Hsi. destruct s; simpl.
  - assert (u8 (Z.lor (u8 (Z.shiftl (Z.land (si_to_number si) 3) 6)) (Z.land sn 63))
            = si_to_number si * 64 + sn) as ->.
    { destruct si; simpl; unfold u8; bits_arith; mlia. }
    assert (Z.land (Z.shiftr (si_to_number si * 64 + sn) 6) 3 = si_to_number si) as ->
      by (destruct si; simpl; bits_arith; mlia).
    assert (Z.land (si_to_number si * 64 + sn) 63 = sn) as -> by (destruct si; simpl; bits_arith; mlia).
    by rewrite si_roundtrip, bool_decide_false.
  - assert (u8 (Z.lor (u8 (Z.shiftl (Z.land (si_to_number si) 3) 6)) (Z.land (Z.shiftr sn 8) 15))
            = si_to_number si * 64 + sn / 256) as ->.
    { destruct si; simpl; unfold u8; bits_arith; mlia. }
    assert (Z.land (Z.shiftr (si_to_number si * 64 + sn / 256) 6) 3 = si_to_number si) as ->
      by (destruct si; simpl; bits_arith; mlia).
    assert (Z.land (Z.shiftr (si_to_number si * 64 + sn / 256) 4) 3 = 0) as ->
      by (destruct si; simpl; bits_arith; mlia).
    rewrite si_roundtrip, (bool_decide_false (si = full_sdu)) by done. simpl.
    rewrite andb_false_r. do 2 f_equal. f_equal. destruct si; simpl; unfold u8; bits_arith; mlia.
Qed.

Lemma um_read_write h payload : um_header_ok h ->
  rlc_um_read_data_pdu_header (rlc_um_write_data_pdu_header h payload) (uh_sn_size h) = Some (um_sent_header h).
Proof.
  intros [Hsn Hso Hsi]. destruct h as [si s sn so]; simpl in *.
  unfold um_sent_header, rlc_um_read_data_pdu_header, rlc_um_write_data_pdu_header; cbn [uh_si uh_sn_size uh_sn uh_so].
  rewrite <- Hsi. case_bool_decide as Hf; [subst si; by destruct s|].
  rewrite <- app_assoc, um_read_fixed_write by done. pose proof (so_roundtrip so Hso) as Hr.
  destruct (si_has_so si) eqn:Es; cbn [app]; [by rewrite Hr|].
  by destruct (Z.eqb_spec so 0) as [->|].
Qed.

(** Reading back a written UMD PDU header.  For every header a UM entity can
    build, [rlc_um_read_data_pdu_header] accepts the PDU made by
    [rlc_um_write_data_pdu_header] and returns the same header (the SN of a
    complete SDU is not sent and reads as 0), and the length
    [rlc_um_nr_packed_length] computes from the header read is the number of
    bytes to strip to get the payload back. *)
Theorem rlc_um_header_roundtrip (h : rlc_um_pdu_header) (payload : bytes) :
  um_header_ok h ->
  let pdu := rlc_um_write_data_pdu_header h payload in
  rlc_um_read_data_pdu_header pdu (uh_sn_size h) = Some (um_sent_header h)
  /\ blen pdu = rlc_um_nr_packed_length (um_sent_header h) + blen payload
  /\ bdrop (rlc_um_nr_packed_length (um_sent_header h)) pdu = payload.
Proof.
  intros Hok pdu. split; [by apply um_read_write|].
  assert (rlc_um_nr_packed_length (um_sent_header h) = um_header_len h) as ->.
  { unfold um_sent_header. case_bool_decide as Hf; [|by apply um_packed_length].
    unfold um_header_len. by rewrite Hf. }
  split; [by apply um_write_len|by apply um_write_payload].
Qed.

Lemma rlc_um_header_roundtrip_witness :
  rlc_um_read_data_pdu_header
    (rlc_um_write_data_pdu_header (UmHeader middle_segment um_size12bits 0xabc 0x1234) [7; 8]) um_size12bits
  = Some (UmHeader middle_segment um_size12bits 0xabc 0x1234).
Proof.
  apply (rlc_um_header_roundtrip (UmHeader middle_segment um_size12bits 0xabc 0x1234) [7; 8]).
  split; [rewrite um_mod_values; simpl; lia|unfold is_u16; simpl; lia|reflexivity].
Defined.
