(* ===== verification/RlcTxUm.v ===== *)
(** * RLC UM transmitting entity

    [lib/rlc/rlc_tx_um_entity.h] and [lib/rlc/rlc_tx_um_entity.cpp]: queueing and
    discard of SDUs, segmentation into the grants of the MAC, and the buffer
    state.  [None] is a failed [srsran_assert] or [srsran_sanity_check]. *)
From S2P Require Import Prelude RlcAmPdu RlcUmPdu RlcQueues RlcTxAm.

Record rlc_tx_um_config := TxUmConfig { um_tx_sn_field_length : rlc_um_sn_size }.

Record rlc_tx_um_entity := TxUm {
  um_tx_cfg : rlc_tx_um_config;
  um_tx_next : Z; (* st.tx_next *)
  um_sdu_queue : rlc_sdu_queue;
  um_sdu : rlc_sdu; (* the SDU being transmitted, empty buffer for none *)
  um_next_so : Z;
  um_prev_buffer_state : Z;
  um_pending_buffer_state : bool;
}.

Definition um_tx_mod (e : rlc_tx_um_entity) : Z :=
  cardinality (um_sn_size_to_number (um_tx_sn_field_length (um_tx_cfg e))).
Definition head_len_full : Z := rlc_um_pdu_header_size_complete_sdu.
Definition head_len_first (e : rlc_tx_um_entity) : Z :=
  rlc_um_pdu_header_size_no_so (um_tx_sn_field_length (um_tx_cfg e)).
Definition head_len_not_first (e : rlc_tx_um_entity) : Z :=
  rlc_um_pdu_header_size_with_so (um_tx_sn_field_length (um_tx_cfg e)).

Definition tx_um_new (cfg : rlc_tx_um_config) : rlc_tx_um_entity :=
  TxUm cfg 0 sq_new (RlcSdu [] None) 0 0 false.

Definition um_with_queue (e : rlc_tx_um_entity) (q : rlc_sdu_queue) : rlc_tx_um_entity :=
  TxUm (um_tx_cfg e) (um_tx_next e) q (um_sdu e) (um_next_so e) (um_prev_buffer_state e) (um_pending_buffer_state e).
Definition um_with_sdu (e : rlc_tx_um_entity) (sdu : rlc_sdu) (so : Z) : rlc_tx_um_entity :=
  TxUm (um_tx_cfg e) (um_tx_next e) (um_sdu_queue e) sdu so (um_prev_buffer_state e) (um_pending_buffer_state e).
Definition um_with_tx_next (e : rlc_tx_um_entity) (sn : Z) : rlc_tx_um_entity :=
  TxUm (um_tx_cfg e) sn (um_sdu_queue e) (um_sdu e) (um_next_so e) (um_prev_buffer_state e) (um_pending_buffer_state e).
Definition um_with_buffer_state (e : rlc_tx_um_entity) (prev : Z) (pending : bool) : rlc_tx_um_entity :=
  TxUm (um_tx_cfg e) (um_tx_next e) (um_sdu_queue e) (um_sdu e) (um_next_so e) prev pending.

(** ** Buffer state *)
Definition um_get_buffer_state (e : rlc_tx_um_entity) : Z :=
  let q := um_sdu_queue e in
  let queue_bytes := u32 (sq_size_bytes q + u32 (sq_size_sdus q * head_len_full)) in
  let segment_bytes :=
    if is_nil (sdu_buf (um_sdu e)) then 0
    else u32 (blen (sdu_buf (um_sdu e)) - um_next_so e + head_len_not_first e) in
  u32 (queue_bytes + segment_bytes).

Definition um_update_mac_buffer_state (e : rlc_tx_um_entity) : rlc_tx_um_entity * list tx_event :=
  let bs := um_get_buffer_state e in
  let evs := if negb ((MAX_DL_PDU_LENGTH <? bs) && (MAX_DL_PDU_LENGTH <? um_prev_buffer_state e))
             then [on_buffer_state_update bs] else [] in
  (um_with_buffer_state e bs false, evs).

Definition um_handle_changed_buffer_state (defer_ok : bool) (e : rlc_tx_um_entity)
    : rlc_tx_um_entity * list tx_event :=
  if um_pending_buffer_state e then (e, [])
  else (um_with_buffer_state e (um_prev_buffer_state e) true,
        if defer_ok then [defer_update_mac_buffer_state] else []).

(** ** Interface to the upper layer *)
Definition um_handle_sdu (defer_ok : bool) (e : rlc_tx_um_entity) (sdu : rlc_sdu) : rlc_tx_um_entity * list tx_event :=
  let '(ok, q) := sq_write (um_sdu_queue e) sdu in
  if ok then um_handle_changed_buffer_state defer_ok (um_with_queue e q) else (e, []).

Definition um_discard_sdu (defer_ok : bool) (e : rlc_tx_um_entity) (pdcp_sn : Z) : rlc_tx_um_entity * list tx_event :=
  let '(ok, q) := sq_discard (um_sdu_queue e) pdcp_sn in
  if ok then um_handle_changed_buffer_state defer_ok (um_with_queue e q) else (e, []).

(** ** Interface to the lower layer *)

(** [None] is the result [false]: the grant does not hold the header and a byte. *)
Definition get_si_and_expected_header_size (e : rlc_tx_um_entity) (so sdu_len grant_len : Z)
    : option (rlc_si_field * Z) :=
  if so =? 0 then
    if sdu_len <=? u32 (grant_len - head_len_full) then Some (full_sdu, head_len_full)
    else if grant_len <=? head_len_first e then None
    else Some (first_segment, head_len_first e)
  else if grant_len <=? head_len_not_first e then None
  else if u32 (sdu_len - um_next_so e) <=? u32 (grant_len - head_len_not_first e)
  then Some (last_segment, head_len_not_first e)
  else Some (middle_segment, head_len_not_first e).

(** A new SDU is read when none is being transmitted; the flag says whether
    there is an SDU to transmit. *)
Definition um_next_sdu (e : rlc_tx_um_entity) : option (bool * rlc_tx_um_entity * list tx_event) :=
  if is_nil (sdu_buf (um_sdu e)) then
    if negb (um_next_so e =? 0) then None (* srsran_sanity_check *)
    else match sq_read (um_sdu_queue e) with
         | (None, q) => Some (false, um_with_queue e q, [])
         | (Some sdu, q) =>
             Some (true, um_with_sdu (um_with_queue e q) sdu (um_next_so e),
                   match sdu_pdcp_sn sdu with Some n => [on_transmitted_sdu n] | None => [] end)
         end
  else Some (true, e, []).

(** The PDU from the current SDU. *)
Definition um_build_pdu (e : rlc_tx_um_entity) (grant_len : Z) : option (bytes * rlc_tx_um_entity) :=
  let buf := sdu_buf (um_sdu e) in
  match get_si_and_expected_header_size e (um_next_so e) (blen buf) grant_len with
  | None => Some ([], e)
  | Some (si, head_len) =>
      let header := UmHeader si (um_tx_sn_field_length (um_tx_cfg e)) (u16 (um_tx_next e)) (u16 (um_next_so e)) in
      let header_buf := rlc_um_write_data_pdu_header header [] in
      if negb (head_len =? blen header_buf) then None (* srsran_sanity_check *)
      else if grant_len <=? head_len then Some ([], e)
      else
      let space := u32 (grant_len - head_len) in
      let rem := u32 (blen buf - um_next_so e) in
      let payload_len := if rem <=? space then rem else space in
      let pdu := header_buf ++ slice (um_next_so e) payload_len buf in
      if negb (blen pdu <=? grant_len) then None (* srsran_assert *)
      else
      let e := if bool_decide (si = full_sdu) || bool_decide (si = last_segment)
               then um_with_sdu e (RlcSdu [] (sdu_pdcp_sn (um_sdu e))) 0
               else um_with_sdu e (um_sdu e) (u32 (um_next_so e + payload_len)) in
      let e := if bool_decide (si = last_segment)
               then um_with_tx_next e (u32 (um_tx_next e + 1) mod um_tx_mod e) else e in
      Some (pdu, e)
  end.

Definition um_pull_pdu (e : rlc_tx_um_entity) (grant_len : Z)
    : option (bytes * rlc_tx_um_entity * list tx_event) :=
  if grant_len <=? head_len_full then Some ([], e, [])
  else match um_next_sdu e with
       | None => None
       | Some (false, e, evs) => Some ([], e, evs)
       | Some (true, e, evs) =>
           match um_build_pdu e grant_len with
           | None => None
           | Some (pdu, e) => Some (pdu, e, evs)
           end
       end.
