(* ===== verification/RlcTxUmThms.v ===== *)
(** * RLC UM transmitting entity: invariant and segmentation

    The invariant of the entity, that every operation preserves it without
    failing an assertion, what [um_pull_pdu] returns, and the buffer state. *)
From S2P Require Import Prelude RlcAmPdu RlcUmPdu RlcQueues RlcTxAm RlcTxAmThms RlcTxUm.

(** The largest SDU whose every offset fits the 16-bit SO field. *)
Definition sdu_fits (x : rlc_sdu) : Prop := blen (sdu_buf x) <= sdu_max.

Record um_tx_inv (s : rlc_um_sn_size) (e : rlc_tx_um_entity) : Prop := {
  ut_size : um_tx_sn_field_length (um_tx_cfg e) = s;
  ut_next : 0 <= um_tx_next e < um_mod s;
  ut_queue : sq_ok (um_sdu_queue e);
  ut_fits : Forall sdu_fits (sq_queue (um_sdu_queue e));
  ut_sdu : sdu_fits (um_sdu e);
  ut_so : 0 <= um_next_so e;
  ut_so_idle : sdu_buf (um_sdu e) = [] -> um_next_so e = 0;
  ut_so_busy : sdu_buf (um_sdu e) <> [] -> um_next_so e < blen (sdu_buf (um_sdu e));
}.

(** What a PDU built from the current SDU carries: the next [n] bytes, under a
    header that tells their place in the SDU. *)
Definition um_data_pdu (s : rlc_um_sn_size) (e : rlc_tx_um_entity) (n : Z) : bytes :=
  let buf := sdu_buf (um_sdu e) in
  rlc_um_write_data_pdu_header
    (UmHeader (exact_si (um_next_so e) n (blen buf)) s (um_tx_next e) (um_next_so e))
    (slice (um_next_so e) n buf).

(** The entity behind the payload. *)
Definition um_sent (s : rlc_um_sn_size) (e : rlc_tx_um_entity) (n : Z) : rlc_tx_um_entity :=
  if um_next_so e + n =? blen (sdu_buf (um_sdu e))
  then let e' := um_with_sdu e (RlcSdu [] (sdu_pdcp_sn (um_sdu e))) 0 in
       if um_next_so e =? 0 then e' else um_with_tx_next e' ((um_tx_next e + 1) mod um_mod s)
  else um_with_sdu e (um_sdu e) (um_next_so e + n).

Lemma um_header_sizes s : 1 <= rlc_um_pdu_header_size_no_so s <= 2
  /\ rlc_um_pdu_header_size_with_so s = rlc_um_pdu_header_size_no_so s + 2.
Proof. destruct s; simpl; lia. Qed.

Lemma um_exact_header_ok s sn so n total :
  0 <= sn < um_mod s -> 0 <= so < total -> total <= sdu_max ->
  um_header_ok (UmHeader (exact_si so n total) s sn so).
Proof.
  intros Hsn Hso Ht. unfold sdu_max in Ht. split; simpl; [done|unfold is_u16; lia|].
  unfold exact_si. by destruct (Z.eqb_spec so 0), (n =? total), (so + n =? total).
Qed.
Lemma um_exact_header_len s sn so n total :
  um_header_len (UmHeader (exact_si so n total) s sn so)
  = if so =? 0 then if n =? total then 1 else rlc_um_pdu_header_size_no_so s
    else rlc_um_pdu_header_size_with_so s.
Proof. unfold um_header_len, exact_si; simpl. by destruct (so =? 0), (n =? total), (so + n =? total). Qed.

Section TxUm.
  Context (s : rlc_um_sn_size).

Lemma um_tx_inv_init cfg : um_tx_sn_field_length cfg = s -> um_tx_inv s (tx_um_new cfg).
Proof.
  intros Hc. split; simpl; try done.
  - rewrite um_mod_values. destruct s; lia.
Qed.

Lemma um_sent_inv e n : um_tx_inv s e -> sdu_buf (um_sdu e) <> [] -> 0 < n ->
  um_next_so e + n <= blen (sdu_buf (um_sdu e)) -> um_tx_inv s (um_sent s e n).
Proof.
  intros [H1 H2 H3 H4 H5 H6 H7 H8] Hb Hn Hle. unfold um_sent.
  assert (0 <= (um_tx_next e + 1) mod um_mod s < um_mod s).
  { apply Z.mod_pos_bound. rewrite um_mod_values. destruct s; lia. }
  destruct (Z.eqb_spec (um_next_so e + n) (blen (sdu_buf (um_sdu e)))).
  - destruct (um_next_so e =? 0); split; simpl; try done; unfold sdu_fits, sdu_max; simpl; rewrite ?blen_nil; lia.
  - split; simpl; try done; lia || (intros; lia).
Qed.

(** The SI and header size chosen for a grant, and the payload length. *)
Lemma um_si_header_spec e grant :
  um_tx_inv s e -> sdu_buf (um_sdu e) <> [] -> 1 < grant < 2 ^ 32 ->
  let buf := sdu_buf (um_sdu e) in
  match get_si_and_expected_header_size e (um_next_so e) (blen buf) grant with
  | None => True
  | Some (si, head_len) =>
      let n := Z.min (grant - head_len) (blen buf - um_next_so e) in
      0 < n /\ 1 <= head_len < grant /\ si = exact_si (um_next_so e) n (blen buf)
      /\ head_len = um_header_len (UmHeader si s (um_tx_next e) (um_next_so e))
  end.
Proof.
  intros [H1 H2 H3 H4 H5 H6 H7 H8] Hb Hg. specialize (H8 Hb). unfold sdu_fits, sdu_max in H5.
  unfold get_si_and_expected_header_size, head_len_first, head_len_not_first, head_len_full,
    rlc_um_pdu_header_size_complete_sdu. rewrite H1. pose proof (um_header_sizes s).
  destruct (Z.eqb_spec (um_next_so e) 0) as [E|E].
  - rewrite E. rewrite u32_id by (unfold is_u32; lia).
    destruct (Z.leb_spec (blen (sdu_buf (um_sdu e))) (grant - 1)).
    + rewrite Z.min_r by lia. unfold exact_si. rewrite Z.sub_0_r, !Z.eqb_refl. simpl. split_and!; done || lia.
    + destruct (Z.leb_spec grant (rlc_um_pdu_header_size_no_so s)); [done|].
      unfold exact_si. simpl Z.eqb at 1.
      rewrite (proj2 (Z.eqb_neq _ (blen (sdu_buf (um_sdu e))))) by lia. split_and!; done || lia.
  - destruct (Z.leb_spec grant (rlc_um_pdu_header_size_with_so s)); [done|].
    rewrite !u32_id by (unfold is_u32; lia). unfold exact_si. rewrite (proj2 (Z.eqb_neq (um_next_so e) 0)) by done.
    destruct (Z.leb_spec (blen (sdu_buf (um_sdu e)) - um_next_so e) (grant - rlc_um_pdu_header_size_with_so s)).
    + rewrite Z.min_r by lia. rewrite (proj2 (Z.eqb_eq (um_next_so e + _) _)) by lia. split_and!; done || lia.
    + rewrite Z.min_l by lia. rewrite (proj2 (Z.eqb_neq (um_next_so e + _) _)) by lia. split_and!; done || lia.
Qed.

Lemma um_build_pdu_spec e grant :
  um_tx_inv s e -> sdu_buf (um_sdu e) <> [] -> 1 < grant < 2 ^ 32 ->
  um_build_pdu e grant = Some ([], e)
  \/ exists n, 0 < n /\ um_next_so e + n <= blen (sdu_buf (um_sdu e))
     /\ um_build_pdu e grant = Some (um_data_pdu s e n, um_sent s e n)
     /\ blen (um_data_pdu s e n) <= grant.
Proof.
  intros Hi Hb Hg. pose proof (um_si_header_spec e grant Hi Hb Hg) as Hs.
  destruct Hi as [H1 H2 H3 H4 H5 H6 H7 H8]. specialize (H8 Hb). unfold um_build_pdu. cbv zeta in Hs.
  destruct (get_si_and_expected_header_size _ _ _ _) as [[si head_len]|]; [right|by left].
  set (n := Z.min _ _) in *. destruct Hs as (Hn & Hl & -> & Hh). exists n.
  unfold sdu_fits, sdu_max in H5.
  assert (um_header_ok (UmHeader (exact_si (um_next_so e) n (blen (sdu_buf (um_sdu e)))) s (um_tx_next e) (um_next_so e)))
    as Hok by (apply um_exact_header_ok; unfold sdu_max; lia).
  assert (is_u16 (um_tx_next e)) as Hu by (rewrite um_mod_values in H2; unfold is_u16; destruct s; lia).
  rewrite H1, !u16_id by (done || unfold is_u16; lia).
  pose proof (um_write_len _ [] Hok) as Hw. rewrite blen_nil in Hw. rewrite Hw, <- Hh, Z.add_0_r, Z.eqb_refl.
  cbn [negb]. destruct (Z.leb_spec grant head_len); [lia|].
  rewrite !u32_id by (unfold is_u32; lia).
  assert ((if blen (sdu_buf (um_sdu e)) - um_next_so e <=? grant - head_len
           then blen (sdu_buf (um_sdu e)) - um_next_so e else grant - head_len) = n) as ->.
  { unfold n. destruct (Z.leb_spec (blen (sdu_buf (um_sdu e)) - um_next_so e) (grant - head_len)); lia. }
  assert (um_next_so e + n <= blen (sdu_buf (um_sdu e))) as Hle by lia.
  assert (forall p, rlc_um_write_data_pdu_header
            (UmHeader (exact_si (um_next_so e) n (blen (sdu_buf (um_sdu e)))) s (um_tx_next e) (um_next_so e)) [] ++ p
          = rlc_um_write_data_pdu_header
            (UmHeader (exact_si (um_next_so e) n (blen (sdu_buf (um_sdu e)))) s (um_tx_next e) (um_next_so e)) p) as Happ.
  { intros p. unfold rlc_um_write_data_pdu_header. by rewrite <- app_assoc. }
  rewrite Happ. fold (um_data_pdu s e n).
  assert (blen (um_data_pdu s e n) <= grant) as Hfit.
  { unfold um_data_pdu. rewrite um_write_len, <- Hh, blen_slice by (done || lia). lia. }
  rewrite (proj2 (Z.leb_le _ _) Hfit). cbn [negb]. split_and!; try done. do 3 f_equal.
  unfold um_sent, exact_si. destruct (Z.eqb_spec (um_next_so e) 0) as [E|E].
  - rewrite E, Z.add_0_l. destruct (n =? _); simpl; [done|by rewrite u32_id by (unfold is_u32; lia)].
  - destruct (um_next_so e + n =? _); simpl; [|by rewrite u32_id by (unfold is_u32; lia)].
    rewrite u32_id by (rewrite um_mod_values in H2; unfold is_u32; destruct s; lia).
    unfold um_tx_mod, um_mod. simpl. by rewrite H1.
Qed.

(** The SDUs the entity still has to send: the current one and the queue. *)
Definition um_stream (e : rlc_tx_um_entity) : list rlc_sdu :=
  (if is_nil (sdu_buf (um_sdu e)) then [] else [um_sdu e]) ++ live (um_sdu_queue e).

Lemma um_next_sdu_spec e : um_tx_inv s e ->
  exists b e1 evs, um_next_sdu e = Some (b, e1, evs) /\ um_tx_inv s e1
    /\ um_stream e1 = um_stream e /\ um_next_so e1 = um_next_so e /\ um_tx_next e1 = um_tx_next e
    /\ b = negb (bool_decide (um_stream e = [])) /\ (b = true -> sdu_buf (um_sdu e1) <> []).
Proof.
  intros Hi. unfold um_next_sdu, um_stream. rewrite !is_nil_spec.
  destruct (decide (sdu_buf (um_sdu e) = [])) as [E|E].
  2:{ rewrite bool_decide_false by done. exists true, e, []. by rewrite is_nil_spec, bool_decide_false. }
  rewrite bool_decide_true by done. rewrite (ut_so_idle _ _ Hi E). simpl.
  pose proof (sq_read_spec _ (ut_queue _ _ Hi)) as Hr. pose proof (sq_read_sub (um_sdu_queue e)) as Hsub.
  destruct (sq_read (um_sdu_queue e)) as [r q']. destruct Hr as (Hq & -> & Hl). destruct Hsub as [Hs1 Hs2].
  pose proof (ut_fits _ _ Hi) as Hf. rewrite list.Forall_forall in Hf.
  assert (Forall sdu_fits (sq_queue q')) as Hf' by (apply list.Forall_forall; auto).
  destruct (live (um_sdu_queue e)) as [|x l] eqn:El; simpl in *.
  - eexists _, _, _. split; [reflexivity|]. rewrite is_nil_spec, bool_decide_true by done. simpl.
    destruct Hi as [H1 H2 H3 H4 H5 H6 H7 H8]. split_and!; try done; [by apply H7].
  - destruct (Hs1 x eq_refl) as [Hin Hx]. eexists _, _, _. split; [reflexivity|]. simpl.
    rewrite is_nil_spec, bool_decide_false by done. simpl.
    destruct Hi as [H1 H2 H3 H4 H5 H6 H7 H8]. split_and!; try done; try lia; [|by rewrite Hl].
    split; simpl; try done; [by apply Hf|]. intros _. by apply nonempty_blen.
Qed.

(** A MAC opportunity: nothing (no SDU, or a grant that does not hold a header
    and a byte of payload) or the next bytes of the stream. *)
Lemma um_pull_pdu_spec e grant : um_tx_inv s e -> grant < 2 ^ 32 ->
  exists e1 evs, um_tx_inv s e1 /\ um_stream e1 = um_stream e /\ um_next_so e1 = um_next_so e
    /\ um_tx_next e1 = um_tx_next e
    /\ (um_pull_pdu e grant = Some ([], e1, evs)
        \/ exists n, sdu_buf (um_sdu e1) <> [] /\ 0 < n /\ um_next_so e1 + n <= blen (sdu_buf (um_sdu e1))
           /\ um_pull_pdu e grant = Some (um_data_pdu s e1 n, um_sent s e1 n, evs)
           /\ blen (um_data_pdu s e1 n) <= grant).
Proof.
  intros Hi Hg. unfold um_pull_pdu, head_len_full, rlc_um_pdu_header_size_complete_sdu.
  destruct (Z.leb_spec grant 1); [exists e, []; split_and!; by auto|].
  destruct (um_next_sdu_spec e Hi) as (b & e1 & evs & -> & Hi1 & Hs & Hso & Hn & -> & Hb).
  exists e1, evs. split_and!; try done. case_bool_decide; simpl; [by left|]. specialize (Hb eq_refl).
  destruct (um_build_pdu_spec e1 grant Hi1 Hb) as [->|(n & H1 & H2 & -> & H4)]; [lia|by left|right].
  exists n. by split_and!.
Qed.

Lemma sdu_total_fits l : Forall sdu_fits l -> sdu_total l <= sdu_max * Z.of_nat (length l).
Proof. unfold sdu_fits, sdu_max. induction 1; simpl; lia. Qed.

Lemma um_queue_inv e q : um_tx_inv s e -> sq_ok q -> Forall sdu_fits (sq_queue q) ->
  um_tx_inv s (um_with_queue e q).
Proof. intros [H1 H2 H3 H4 H5 H6 H7 H8] ??. by split. Qed.

Lemma discard_first_fits n l : Forall sdu_fits l -> forall x l', discard_first n l = Some (x, l') -> Forall sdu_fits l'.
Proof.
  induction 1 as [|y l Hy Hl IH]; intros x l'; simpl; [done|]. destruct (_ && _).
  - intros [= <- <-]. constructor; [|done]. unfold sdu_fits, sdu_max. simpl. rewrite blen_nil. lia.
  - destruct (discard_first n l) as [[z r]|]; [|done]. intros [= <- <-]. constructor; [done|by eapply IH].
Qed.
Lemma sq_discard_fits q n : Forall sdu_fits (sq_queue q) -> Forall sdu_fits (sq_queue (sq_discard q n).2).
Proof.
  intros Hf. unfold sq_discard. destruct (discard_first n (sq_queue q)) as [[x l']|] eqn:E; [|done]. by eapply discard_first_fits.
Qed.

Lemma um_discard_sdu_spec ok e n : um_tx_inv s e ->
  let e' := (um_discard_sdu ok e n).1 in
  um_tx_inv s e' /\ um_sdu e' = um_sdu e /\ um_next_so e' = um_next_so e /\ um_tx_next e' = um_tx_next e
  /\ live (um_sdu_queue e') = fifo_discard n (live (um_sdu_queue e)).
Proof.
  intros Hi. cbv zeta. unfold um_discard_sdu. pose proof (sq_discard_spec (um_sdu_queue e) n (ut_queue _ _ Hi)) as Hd.
  pose proof (sq_discard_fits (um_sdu_queue e) n (ut_fits _ _ Hi)) as Hf.
  destruct (sq_discard (um_sdu_queue e) n) as [b q']. destruct Hd as (Hq & Hb & Hl & _).
  destruct b; [|split_and!; try done; symmetry; apply fifo_discard_absent, list.Forall_forall; intros x Hx Hn].
  - assert (um_tx_inv s (um_with_queue e q')) as Hi' by (by apply um_queue_inv).
    unfold um_handle_changed_buffer_state. simpl. destruct (um_pending_buffer_state e); simpl; split_and!; try done.
    by destruct Hi'; split.
  - destruct Hb as [_ Hb]. discriminate Hb. apply list.Exists_exists. by exists x.
Qed.

Lemma um_handle_sdu_spec ok e x : um_tx_inv s e -> sdu_fits x -> sdu_buf x <> [] ->
  let e' := (um_handle_sdu ok e x).1 in
  um_tx_inv s e' /\ um_sdu e' = um_sdu e /\ um_next_so e' = um_next_so e /\ um_tx_next e' = um_tx_next e
  /\ um_stream e' = um_stream e ++ if sq_is_full (um_sdu_queue e) then [] else [x].
Proof.
  intros Hi Hx Hne. cbv zeta. unfold um_handle_sdu.
  pose proof (ut_fits _ _ Hi) as Hf. pose proof (ut_queue _ _ Hi) as Hq.
  assert (sq_is_full (um_sdu_queue e) = false -> sdu_total (live (um_sdu_queue e)) + blen (sdu_buf x) < 2 ^ 32) as Hu.
  { unfold sq_is_full. rewrite Z.leb_gt. intros Hlt. pose proof (sdu_total_fits (live (um_sdu_queue e))) as Ht.
    pose proof (length_filter (fun x => sdu_buf x <> []) (sq_queue (um_sdu_queue e))).
    pose proof (sq_cap _ Hq). unfold sdu_fits, sdu_max, live in *.
    assert (sdu_total (filter (fun x => sdu_buf x <> []) (sq_queue (um_sdu_queue e)))
            <= 65535 * Z.of_nat (length (filter (fun x => sdu_buf x <> []) (sq_queue (um_sdu_queue e))))); [|nia].
    apply Ht, list.Forall_forall. intros y [_ Hy]%list_elem_of_filter.
    by eapply list.Forall_forall in Hf. }
  unfold sq_write. unfold sq_is_full in *. pose proof (sq_write_spec (um_sdu_queue e) x Hq Hne) as Hw.
  unfold sq_write, sq_is_full in Hw. destruct (Z.leb_spec (sq_capacity (um_sdu_queue e)) (Z.of_nat (length (sq_queue (um_sdu_queue e))))).
  { by rewrite app_nil_r. }
  destruct (Hw (Hu eq_refl)) as (Hq' & _ & Hl). simpl in Hl.
  set (q' := with_queue _ _) in *.
  assert (um_tx_inv s (um_with_queue e q')) as Hi'.
  { apply um_queue_inv; try done. simpl. apply Forall_app; split; [done|by constructor]. }
  unfold um_handle_changed_buffer_state. simpl. destruct (um_pending_buffer_state e); simpl.
  - split_and!; try done. unfold um_stream. simpl. by rewrite Hl, app_assoc.
  - split_and!; try done; [by destruct Hi'; split|]. unfold um_stream. simpl. by rewrite Hl, app_assoc.
Qed.
End TxUm.
