(* ===== verification/RlcRxUm.v ===== *)
(** * RLC UM receiving entity

    [lib/rlc/rlc_rx_um_entity.h] and [lib/rlc/rlc_rx_um_entity.cpp]: reassembly
    of segmented SDUs in the window below RX_Next_Highest, t-Reassembly.

    Every handler maps the entity state to the new state and the SDUs delivered.
    [None] is a loop that makes no progress. *)
From S2P Require Import Prelude OrdMap RlcAmPdu RlcUmPdu RlcQueues.

Record rlc_rx_um_config := RxUmConfig { um_rx_sn_field_length : rlc_um_sn_size; um_t_reassembly : Z }.

Record rlc_rx_um_sdu_segment := UmSeg { us_header : rlc_um_pdu_header; us_payload : bytes }.

Record rlc_rx_um_sdu_info := UmSduInfo {
  um_segments : ordmap rlc_rx_um_sdu_segment; (* with SO as key *)
  um_rx_sdu : bytes;
  next_expected_so : Z;
  total_sdu_length : Z;
}.

Record rlc_rx_um_state := RxUmState {
  rx_next_reassembly : Z;
  rx_timer_trigger : Z;
  um_rx_next_highest : Z;
}.

Record rlc_rx_um_entity := RxUm {
  um_rx_cfg : rlc_rx_um_config;
  um_st : rlc_rx_um_state;
  um_rx_window : ordmap rlc_rx_um_sdu_info; (* with SN as key *)
  um_reassembly_timer : bool;
}.

Definition rx_um_new (cfg : rlc_rx_um_config) : rlc_rx_um_entity := RxUm cfg (RxUmState 0 0 0) [] false.

Definition um_rx_mod (e : rlc_rx_um_entity) : Z :=
  cardinality (um_sn_size_to_number (um_rx_sn_field_length (um_rx_cfg e))).
Definition um_window_size (e : rlc_rx_um_entity) : Z :=
  window_size (um_sn_size_to_number (um_rx_sn_field_length (um_rx_cfg e))).

Definition um_with_st (e : rlc_rx_um_entity) (st : rlc_rx_um_state) : rlc_rx_um_entity :=
  RxUm (um_rx_cfg e) st (um_rx_window e) (um_reassembly_timer e).
Definition um_with_window (e : rlc_rx_um_entity) (w : ordmap rlc_rx_um_sdu_info) : rlc_rx_um_entity :=
  RxUm (um_rx_cfg e) (um_st e) w (um_reassembly_timer e).
Definition um_with_timer (e : rlc_rx_um_entity) (b : bool) : rlc_rx_um_entity :=
  RxUm (um_rx_cfg e) (um_st e) (um_rx_window e) b.
Definition um_set_reassembly (e : rlc_rx_um_entity) (x : Z) : rlc_rx_um_entity :=
  um_with_st e (RxUmState x (rx_timer_trigger (um_st e)) (um_rx_next_highest (um_st e))).
Definition um_set_trigger (e : rlc_rx_um_entity) (x : Z) : rlc_rx_um_entity :=
  um_with_st e (RxUmState (rx_next_reassembly (um_st e)) x (um_rx_next_highest (um_st e))).
Definition um_set_highest (e : rlc_rx_um_entity) (x : Z) : rlc_rx_um_entity :=
  um_with_st e (RxUmState (rx_next_reassembly (um_st e)) (rx_timer_trigger (um_st e)) x).

(** ** Window helpers *)
Definition um_rx_mod_base (e : rlc_rx_um_entity) (x : Z) : Z :=
  u32 (x - um_rx_next_highest (um_st e) - um_window_size e) mod um_rx_mod e.
Definition sn_in_reassembly_window (e : rlc_rx_um_entity) (sn : Z) : bool :=
  (um_rx_mod_base e (u32 (um_rx_next_highest (um_st e) - um_window_size e)) <=? um_rx_mod_base e sn)
  && (um_rx_mod_base e sn <? um_rx_mod_base e (um_rx_next_highest (um_st e))).
Definition sn_invalid_for_rx_buffer (e : rlc_rx_um_entity) (sn : Z) : bool :=
  (um_rx_mod_base e (u32 (um_rx_next_highest (um_st e) - um_window_size e)) <=? um_rx_mod_base e sn)
  && (um_rx_mod_base e sn <? um_rx_mod_base e (rx_next_reassembly (um_st e))).
Definition has_missing_byte_segment (e : rlc_rx_um_entity) (sn : Z) : bool :=
  bool_decide (is_Some (om_find sn (um_rx_window e))).

(** ** Reassembly of one SDU *)
Definition update_total_sdu_length (info : rlc_rx_um_sdu_info) (s : rlc_rx_um_sdu_segment) : rlc_rx_um_sdu_info :=
  if bool_decide (uh_si (us_header s) = last_segment)
  then UmSduInfo (um_segments info) (um_rx_sdu info) (next_expected_so info)
         (u32 (uh_so (us_header s) + blen (us_payload s)))
  else info.

Definition um_store_segment (info : rlc_rx_um_sdu_info) (s : rlc_rx_um_sdu_segment) : rlc_rx_um_sdu_info :=
  let info := update_total_sdu_length info s in
  UmSduInfo (om_emplace (uh_so (us_header s)) s (um_segments info)) (um_rx_sdu info)
    (next_expected_so info) (total_sdu_length info).

(** The loop over the segments in the order of their offsets: the segments that
    stay, the assembled bytes, the next expected offset and whether the SDU is
    complete.  A payload keeps its length when it is moved into the chain: the
    slice's view is copied.  The iterator does not advance on a segment at offset
    0 when bytes have been assembled but offset 0 is still expected. *)
Fixpoint um_assemble (segs : ordmap rlc_rx_um_sdu_segment) (sdu : bytes) (next total : Z)
    : option (ordmap rlc_rx_um_sdu_segment * bytes * Z * bool) :=
  match segs with
  | [] => Some ([], sdu, next, false)
  | (k, s) :: r =>
      if uh_so (us_header s) =? next then
        if next =? 0 then
          if is_nil sdu then um_assemble r (us_payload s) (u32 (blen (us_payload s))) total else None
        else
          let sdu := sdu ++ us_payload s in
          let next := u32 (next + blen (us_payload s)) in
          if next =? total then Some (r, sdu, next, true) else um_assemble r sdu next total
      else match um_assemble r sdu next total with
           | None => None
           | Some (r, sdu, next, complete) => Some ((k, s) :: r, sdu, next, complete)
           end
  end.

(** ** State variables *)

(** The first key in map order that satisfies a test. *)
Definition um_first_key (test : Z -> bool) (w : ordmap rlc_rx_um_sdu_info) : option Z :=
  head (filter (fun k => test k = true) (w.*1)).

(** RX_Next_Reassembly after an SDU has been delivered. *)
Definition um_after_delivery (e : rlc_rx_um_entity) (sn : Z) : rlc_rx_um_entity :=
  if sn =? rx_next_reassembly (um_st e) then
    match um_rx_window e with
    | [] => um_set_reassembly e (um_rx_next_highest (um_st e))
    | w =>
        match um_first_key (fun k => um_rx_mod_base e (rx_next_reassembly (um_st e)) <? um_rx_mod_base e k) w with
        | Some k => um_set_reassembly e k
        | None => e
        end
    end
  else e.

(** RX_Next_Highest, the window and RX_Next_Reassembly after a segment outside
    the window. *)
Definition um_move_window (e : rlc_rx_um_entity) (sn : Z) : rlc_rx_um_entity :=
  if sn_in_reassembly_window e sn then e
  else
  let e := um_set_highest e (u32 (sn + 1) mod um_rx_mod e) in
  let e := um_with_window e (filter (fun p => sn_in_reassembly_window e p.1 = true) (um_rx_window e)) in
  if sn_in_reassembly_window e (rx_next_reassembly (um_st e)) then e
  else match um_first_key
               (fun k => um_rx_mod_base e (u32 (um_rx_next_highest (um_st e) - um_window_size e)) <=? k)
               (um_rx_window e) with
       | Some k => um_set_reassembly e k
       | None => e
       end.

Definition um_start_condition (e : rlc_rx_um_entity) : bool :=
  let b := um_rx_mod_base e in
  let st := um_st e in
  (b (u32 (rx_next_reassembly st + 1)) <? b (um_rx_next_highest st))
  || ((b (um_rx_next_highest st) =? b (u32 (rx_next_reassembly st + 1)))
      && has_missing_byte_segment e (rx_next_reassembly st)).

Definition um_maybe_stop (e : rlc_rx_um_entity) : rlc_rx_um_entity :=
  let st := um_st e in
  if um_reassembly_timer e
     && ((rx_timer_trigger st <=? rx_next_reassembly st)
         || (negb (sn_in_reassembly_window e (rx_timer_trigger st))
             && negb (rx_timer_trigger st =? um_rx_next_highest st))
         || ((um_rx_next_highest st =? u32 (rx_next_reassembly st + 1))
             && negb (has_missing_byte_segment e (rx_next_reassembly st))))
  then um_with_timer e false else e.

Definition um_maybe_start (e : rlc_rx_um_entity) : rlc_rx_um_entity :=
  if negb (um_reassembly_timer e) && um_start_condition e
  then um_set_trigger (um_with_timer e true) (um_rx_next_highest (um_st e)) else e.

(** ** Handlers *)
Definition handle_rx_buffer_update (e : rlc_rx_um_entity) (sn : Z) : option (rlc_rx_um_entity * list bytes) :=
  match om_find sn (um_rx_window e) with
  | None => Some (e, [])
  | Some info =>
      match um_assemble (um_segments info) (um_rx_sdu info) (next_expected_so info) (total_sdu_length info) with
      | None => None
      | Some (segs, sdu, next, complete) =>
          let '(e, sdus) :=
            if complete then
              (um_after_delivery (um_with_window e (om_erase sn (um_rx_window e))) sn, [sdu])
            else
              (um_move_window
                 (um_with_window e (om_assign sn (UmSduInfo segs sdu next (total_sdu_length info)) (um_rx_window e)))
                 sn, []) in
          Some (um_maybe_start (um_maybe_stop e), sdus)
      end
  end.

Definition um_handle_pdu (e : rlc_rx_um_entity) (buf : bytes) : option (rlc_rx_um_entity * list bytes) :=
  match rlc_um_read_data_pdu_header buf (um_rx_sn_field_length (um_rx_cfg e)) with
  | None => Some (e, [])
  | Some header =>
      let header_len := rlc_um_nr_packed_length header in
      if blen buf <=? header_len then Some (e, [])
      else
      let payload := slice header_len (blen buf - header_len) buf in
      if bool_decide (uh_si header = full_sdu) then Some (e, [payload])
      else if sn_invalid_for_rx_buffer e (uh_sn header) then Some (e, [])
      else
      let info := default (UmSduInfo [] [] 0 0) (om_find (uh_sn header) (um_rx_window e)) in
      let info := um_store_segment info (UmSeg header payload) in
      handle_rx_buffer_update (um_with_window e (om_assign (uh_sn header) info (um_rx_window e))) (uh_sn header)
  end.

(** [on_expired_status_prohibit_timer]: the expiry of t-Reassembly. *)
Fixpoint um_advance_reassembly (fuel : nat) (e : rlc_rx_um_entity) (x : Z) : option Z :=
  if um_rx_mod_base e x <? um_rx_mod_base e (um_rx_next_highest (um_st e)) then
    match fuel with
    | O => None
    | S fuel => um_advance_reassembly fuel e (u32 (x + 1) mod um_rx_mod e)
    end
  else Some x.

Definition um_on_expired_reassembly_timer (e : rlc_rx_um_entity) : option rlc_rx_um_entity :=
  match um_advance_reassembly (Z.to_nat (um_rx_mod e)) e (rx_timer_trigger (um_st e)) with
  | None => None
  | Some x =>
      let e := um_set_reassembly e x in
      let e := um_with_window e
                 (filter (fun p => ~ um_rx_mod_base e p.1 < um_rx_mod_base e x) (um_rx_window e)) in
      Some (if um_start_condition e then um_set_trigger (um_with_timer e true) (um_rx_next_highest (um_st e)) else e)
  end.
