(* ===== verification/RlcRxUmThms.v ===== *)
(** * RLC UM receiving entity: reassembly

    Reassembly of one SDU from its segments in any order, and the invariant of
    the entity with the proof that its loops end. *)
From S2P Require Import Prelude OrdMap RlcAmPdu RlcUmPdu RlcQueues RlcTxAmThms RlcRxUm.

(** ** Partition of an SDU into segments

    [plen so] is the length of the segment that starts at offset [so], if there
    is one; the segments are disjoint, cover the SDU and are at least two. *)
Record um_partition (d : bytes) (plen : Z -> option Z) : Prop := {
  up_start : exists n, plen 0 = Some n /\ n < blen d;
  up_range so n : plen so = Some n -> 0 <= so /\ 0 < n /\ so + n <= blen d;
  up_next so n : plen so = Some n -> so + n < blen d -> is_Some (plen (so + n));
  up_disjoint so n x : plen so = Some n -> so < x < so + n -> plen x = None;
}.

(** The segment at offset [so] as the receiver stores it. *)
Definition um_piece (d : bytes) (s : rlc_um_sn_size) (sn so n : Z) : rlc_rx_um_sdu_segment :=
  UmSeg (UmHeader (exact_si so n (blen d)) s sn so) (slice so n d).

(** One segment handled: the SDU pending or delivered. *)
Definition um_sdu_step (r : rlc_rx_um_sdu_info + bytes) (p : rlc_rx_um_sdu_segment)
    : option (rlc_rx_um_sdu_info + bytes) :=
  match r with
  | inr sdu => Some (inr sdu)
  | inl info =>
      let info := um_store_segment info p in
      match um_assemble (um_segments info) (um_rx_sdu info) (next_expected_so info) (total_sdu_length info) with
      | None => None
      | Some (segs, sdu, next, true) => Some (inr sdu)
      | Some (segs, sdu, next, false) => Some (inl (UmSduInfo segs sdu next (total_sdu_length info)))
      end
  end.
Fixpoint um_sdu_run (r : rlc_rx_um_sdu_info + bytes) (ps : list rlc_rx_um_sdu_segment)
    : option (rlc_rx_um_sdu_info + bytes) :=
  match ps with
  | [] => Some r
  | p :: ps => match um_sdu_step r p with None => None | Some r => um_sdu_run r ps end
  end.

(** Nothing beyond the next expected offset is assembled. *)
Lemma um_assemble_above segs sdu next total :
  om_above next segs -> (forall k s, (k, s) ∈ segs -> uh_so (us_header s) = k) ->
  um_assemble segs sdu next total = Some (segs, sdu, next, false).
Proof.
  revert next. assert (forall lo next, next <= lo -> om_above lo segs ->
    (forall k s, (k, s) ∈ segs -> uh_so (us_header s) = k) ->
    um_assemble segs sdu next total = Some (segs, sdu, next, false)) as H; [|intros next; apply H; lia].
  induction segs as [|[k s] r IH]; intros lo next Hle; simpl; [done|]. intros [Hk Hr] Hs.
  rewrite (Hs k s) by apply list_elem_of_here. rewrite (proj2 (Z.eqb_neq k next)) by lia.
  rewrite (IH k next); [done|lia|done|]. intros. apply Hs. by apply list_elem_of_further.
Qed.

Section Reassembly.
  Context (d : bytes) (s : rlc_um_sn_size) (sn : Z) (plen : Z -> option Z).
  Context (Hp : um_partition d plen) (Hd : blen d <= sdu_max).

Definition piece_at (so : Z) : rlc_rx_um_sdu_segment := um_piece d s sn so (default 0 (plen so)).

(** All segments below [next] have been received, and [next] is where one
    starts, or the end. *)
Definition prefix_received (R : Z -> Prop) (next : Z) : Prop :=
  0 <= next <= blen d /\ (next < blen d -> is_Some (plen next))
  /\ forall so, is_Some (plen so) -> so < next -> R so.

(** The stored segments: those received at [next] or beyond, and possibly
    duplicates below. *)
Record segs_ok (R : Z -> Prop) (next : Z) (segs : ordmap rlc_rx_um_sdu_segment) : Prop := {
  so_ok : om_ok segs;
  so_piece so x : (so, x) ∈ segs -> is_Some (plen so) /\ R so /\ x = piece_at so;
  so_all so : is_Some (plen so) -> R so -> next <= so -> (so, piece_at so) ∈ segs;
}.

Lemma piece_bounds so n : plen so = Some n ->
  blen (us_payload (piece_at so)) = n /\ us_payload (piece_at so) = slice so n d
  /\ uh_so (us_header (piece_at so)) = so /\ 0 <= so /\ 0 < n /\ so + n <= blen d.
Proof.
  intros E. destruct (up_range _ _ Hp _ _ E) as (?&?&?). unfold piece_at. rewrite E. simpl.
  split_and!; try done. apply blen_slice; lia.
Qed.

(** The segment at [next] is consumed. *)
Lemma prefix_received_step R next n : prefix_received R next -> plen next = Some n -> R next ->
  prefix_received R (next + n).
Proof.
  intros (H1 & H2 & H3) E Hr. destruct (up_range _ _ Hp _ _ E) as (?&?&?). split_and!; try lia.
  - intros. by apply (up_next _ _ Hp).
  - intros so Hso Hlt. destruct (decide (so < next)); [by apply H3|]. destruct (decide (so = next)) as [->|]; [done|].
    rewrite (up_disjoint _ _ Hp next n so) in Hso; [by destruct Hso|done|lia].
Qed.

(** The loop of [handle_rx_buffer_update]: it takes the segments from [next] on
    as far as they are there. [lo] bounds the offsets already visited. *)
Lemma um_assemble_spec (R : Z -> Prop) segs lo next total :
  om_above lo segs -> prefix_received R next -> (forall so x, (so, x) ∈ segs -> is_Some (plen so) /\ R so /\ x = piece_at so) ->
  (total = blen d \/ total = 0) ->
  (total = 0 -> forall so n, plen so = Some n -> R so -> so + n < blen d) ->
  exists segs' next' complete,
    um_assemble segs (slice 0 next d) next total = Some (segs', slice 0 next' d, next', complete)
    /\ prefix_received R next' /\ next <= next' /\ om_above lo segs'
    /\ (forall so x, (so, x) ∈ segs' -> (so, x) ∈ segs)
    /\ (forall so x, (so, x) ∈ segs -> next' <= so -> (so, x) ∈ segs')
    /\ (complete = true <-> next' = blen d /\ next < blen d)
    /\ (complete = false -> forall x, (next', x) ∉ segs').
Proof.
  revert lo next. induction segs as [|[k x] r IH]; intros lo next Hab Hpre Hpc Htot Hlast.
  { exists [], next, false. simpl. split_and!; try done; [|intros; apply not_elem_of_nil].
    split; [done|]. intros [-> ?]. lia. }
  destruct Hab as [Hlo Hab]. destruct (Hpc k x) as ([n En] & HRk & ->); [apply list_elem_of_here|].
  destruct (piece_bounds k n En) as (Hlen & Hpay & Hso & Hk0 & Hn & Hkn).
  assert (forall so y, (so, y) ∈ r -> is_Some (plen so) /\ R so /\ y = piece_at so) as Hpc'
    by (intros; apply Hpc; by apply list_elem_of_further).
  cbn [um_assemble]. rewrite Hso. destruct (Z.lt_trichotomy k next) as [Hlt|[->|Hgt]].
  - rewrite (proj2 (Z.eqb_neq k next)) by lia.
    destruct (IH k next Hab Hpre Hpc' Htot Hlast) as (segs' & next' & c & -> & H1 & H2 & H3 & H4 & H5 & H6 & H7).
    exists ((k, piece_at k) :: segs'), next', c. split_and!; try done.
    + intros so y [->|Hin]%elem_of_cons; [apply list_elem_of_here|apply list_elem_of_further; auto].
    + intros so y [->|Hin]%elem_of_cons Hle; [apply list_elem_of_here|apply list_elem_of_further; auto].
    + intros Hc y [[= Ek _]|Hin]%elem_of_cons; [lia|by eapply H7].
  - rewrite Z.eqb_refl. pose proof (prefix_received_step R next n Hpre En HRk) as Hpre'.
    assert (next + n <= blen d /\ blen d <= 65535) as [Hb1 Hb2] by (unfold sdu_max in Hd; lia).
    assert (slice 0 next d ++ us_payload (piece_at next) = slice 0 (next + n) d) as Happ.
    { rewrite Hpay. pose proof (slice_app_adjacent 0 next n d) as Ha. rewrite Z.add_0_l in Ha. apply Ha; lia. }
    destruct (IH next (next + n) Hab Hpre' Hpc' Htot Hlast) as (segs' & next' & c & HE & H1 & H2 & H3 & H4 & H5 & H6 & H7).
    destruct (Z.eqb_spec next 0) as [E0|E0].
    + subst next. change (slice 0 0 d) with (@nil Z) in *. rewrite app_nil_l, Z.add_0_l in Happ. rewrite Z.add_0_l in HE, H2. cbn [is_nil].
      rewrite Hlen, u32_id by (unfold is_u32; lia). rewrite Happ. rewrite HE.
      destruct (up_start _ _ Hp) as (n0 & En0 & Hn0). assert (n0 = n) as -> by congruence.
      exists segs', next', c. split_and!; try done; try lia.
      * by apply (om_above_weaken 0); [lia|].
      * intros. apply list_elem_of_further. auto.
      * intros so y [[= -> _]|Hin]%elem_of_cons Hle; [lia|auto].
      * rewrite H6. lia.
    + rewrite Hlen, u32_id by (unfold is_u32; lia). rewrite Happ.
      destruct (Z.eqb_spec (next + n) total) as [Et|Et].
      * exists r, (next + n), true. split_and!; try done; try lia.
        -- by apply (om_above_weaken next); [lia|].
        -- intros. by apply list_elem_of_further.
        -- intros so y [[= -> _]|Hin]%elem_of_cons Hle; [lia|done].
      * rewrite HE. exists segs', next', c. split_and!; try done; try lia.
        -- by apply (om_above_weaken next); [lia|].
        -- intros. apply list_elem_of_further. auto.
        -- intros so y [[= -> _]|Hin]%elem_of_cons Hle; [lia|auto].
        -- rewrite H6. destruct (decide (next + n = blen d)) as [El|]; [|lia].
           assert (total = 0) as Ht0 by lia. pose proof (Hlast Ht0 next n En HRk). lia.
  - rewrite (proj2 (Z.eqb_neq k next)) by lia.
    rewrite (um_assemble_above r); cycle 1.
    { by apply (om_above_weaken k); [lia|]. }
    { intros so y Hin. destruct (Hpc' so y Hin) as ([m Em] & _ & ->). apply (piece_bounds so m Em). }
    exists ((k, piece_at k) :: r), next, false. split_and!; try done.
    + split; [done|]. intros [-> ?]. lia.
    + intros _ y [[= Ek _]|Hin]%elem_of_cons; [lia|]. pose proof (om_above_elem _ _ _ _ Hab Hin). lia.
Qed.

(** A pending SDU of which the segments [R] have been received. *)
Record um_pending (R : Z -> Prop) (info : rlc_rx_um_sdu_info) : Prop := {
  pe_next : next_expected_so info < blen d;
  pe_sdu : um_rx_sdu info = slice 0 (next_expected_so info) d;
  pe_prefix : prefix_received R (next_expected_so info);
  pe_segs : segs_ok R (next_expected_so info) (um_segments info);
  pe_missing x : (next_expected_so info, x) ∉ um_segments info;
  pe_total : total_sdu_length info = blen d \/ total_sdu_length info = 0;
  pe_last : total_sdu_length info = 0 -> forall so n, plen so = Some n -> R so -> so + n < blen d;
}.

Lemma um_pending_init : um_pending (fun _ => False) (UmSduInfo [] [] 0 0).
Proof.
  destruct (up_start _ _ Hp) as (n & E & Hn). destruct (up_range _ _ Hp _ _ E) as (?&?&?).
  split; simpl; try done; try lia.
  - split_and!; [lia|lia|done|]. intros so [m Em] ?. destruct (up_range _ _ Hp _ _ Em). lia.
  - split; [done| |done]. by intros so x ?%not_elem_of_nil.
  - intros. apply not_elem_of_nil.
Qed.
(** The first missing segment. *)
Lemma um_pending_gap R info : um_pending R info -> is_Some (plen (next_expected_so info)) /\ ~ R (next_expected_so info).
Proof.
  intros [H1 H2 H3 H4 H5 H6 H7]. assert (is_Some (plen (next_expected_so info))) as Hs by (apply H3, H1).
  split; [done|]. intros HR. by apply (H5 (piece_at (next_expected_so info))), (so_all _ _ _ H4).
Qed.

Lemma exact_si_last so n : plen so = Some n ->
  bool_decide (exact_si so n (blen d) = last_segment) = (so + n =? blen d).
Proof.
  intros E. unfold exact_si. destruct (Z.eqb_spec so 0) as [->|]; [|by destruct (so + n =? blen d)].
  destruct (up_start _ _ Hp) as (n0 & E0 & Hn0). assert (n0 = n) as -> by congruence.
  destruct (Z.eqb_spec n (blen d)); [lia|]. by rewrite (proj2 (Z.eqb_neq (0 + n) (blen d))) by lia.
Qed.

(** The received segment is stored and the total length noted. *)
Lemma um_store_pending R info so : um_pending R info -> is_Some (plen so) ->
  let info' := um_store_segment info (piece_at so) in
  let R' := fun x => R x \/ x = so in
  next_expected_so info' = next_expected_so info /\ um_rx_sdu info' = um_rx_sdu info
  /\ segs_ok R' (next_expected_so info) (um_segments info')
  /\ prefix_received R' (next_expected_so info)
  /\ (total_sdu_length info' = blen d \/ total_sdu_length info' = 0)
  /\ (total_sdu_length info' = 0 -> forall x n, plen x = Some n -> R' x -> x + n < blen d).
Proof.
  intros [H1 H2 (P1 & P2 & P3) [S1 S2 S3] H5 H6 H7] [n En]. cbv zeta.
  destruct (piece_bounds so n En) as (Hlen & Hpay & Hso & Hso0 & Hn & Hle).
  unfold um_store_segment, update_total_sdu_length.
  assert (uh_si (us_header (piece_at so)) = exact_si so n (blen d)) as -> by (unfold piece_at; by rewrite En).
  rewrite (exact_si_last so n En), Hso, Hlen.
  set (info1 := if so + n =? blen d then _ else _).
  assert (um_segments info1 = um_segments info /\ um_rx_sdu info1 = um_rx_sdu info
          /\ next_expected_so info1 = next_expected_so info
          /\ total_sdu_length info1 = if so + n =? blen d then blen d else total_sdu_length info) as (-> & -> & -> & ->).
  { unfold info1. destruct (Z.eqb_spec (so + n) (blen d)) as [<-|]; [|done]. simpl.
    rewrite u32_id; [done|]. unfold is_u32. unfold sdu_max in Hd. lia. }
  simpl. split_and!; try done.
  - split.
    + by apply om_emplace_ok.
    + intros y x Hin%om_find_elem; [|by apply om_emplace_ok]. rewrite om_find_emplace in Hin.
      destruct (Z.eqb_spec y so) as [->|]; simpl in Hin.
      * case_bool_decide; [injection Hin as <-; split_and!; [by eexists|by right|done]|].
        apply om_find_elem in Hin; [|done]. destruct (S2 so x Hin) as (?&?&?). split_and!; try done. by left.
      * apply om_find_elem in Hin; [|done]. destruct (S2 y x Hin) as (?&?&?). split_and!; try done. by left.
    + intros y Hy HR Hge. apply om_find_elem; [by apply om_emplace_ok|]. rewrite om_find_emplace.
      destruct HR as [HR| ->].
      * pose proof (S3 y Hy HR Hge) as Hin. apply om_find_elem in Hin; [|done]. destruct (Z.eqb_spec y so) as [->|]; [|done].
        rewrite bool_decide_false by (rewrite Hin; done). done.
      * rewrite Z.eqb_refl. simpl. case_bool_decide as Hnone; [done|].
        destruct (om_find so (um_segments info)) as [x|] eqn:Ex; [|done].
        apply om_find_elem in Ex; [|done]. by destruct (S2 _ _ Ex) as (_ & _ & ->).
  - split_and!; try done; [lia|lia|]. intros. left. auto.
  - destruct (so + n =? blen d); auto.
  - destruct (Z.eqb_spec (so + n) (blen d)); [lia|]. intros Ht x m Em [HR| ->]; [by eapply H7|].
    destruct (up_range _ _ Hp _ _ Em) as (?&?&?). assert (m = n) as -> by congruence. lia.
Qed.

Lemma um_sdu_step_spec R info so : um_pending R info -> is_Some (plen so) ->
  let R' := fun x => R x \/ x = so in
  (um_sdu_step (inl info) (piece_at so) = Some (inr d) /\ forall x, is_Some (plen x) -> R' x)
  \/ exists info', um_sdu_step (inl info) (piece_at so) = Some (inl info') /\ um_pending R' info'.
Proof.
  intros Hi Hso. cbv zeta. destruct (um_store_pending R info so Hi Hso) as (E1 & E2 & Hs & Hpr & Ht & Hl).
  unfold um_sdu_step. set (info1 := um_store_segment _ _) in *.
  pose proof (so_ok _ _ _ Hs) as Hok. destruct (om_ok_above _ Hok) as [lo Hlo].
  destruct (um_assemble_spec _ (um_segments info1) lo (next_expected_so info) (total_sdu_length info1) Hlo Hpr
              (so_piece _ _ _ Hs) Ht Hl) as (segs' & next' & c & HE & A1 & A2 & A3 & A4 & A5 & A6 & A7).
  rewrite E1, E2, (pe_sdu _ _ Hi), HE. pose proof (pe_next _ _ Hi) as Hn.
  destruct c.
  - left. destruct A6 as [[-> _] _]; [done|]. rewrite slice_all. split; [done|].
    intros x [m Em]. apply A1; [by eexists|]. destruct (up_range _ _ Hp _ _ Em). lia.
  - right. eexists. split; [reflexivity|].
    assert (next' < blen d) as Hlt. { destruct A1 as [? _]. destruct (decide (next' = blen d)); [|lia].
      destruct A6 as [_ A6]. by discriminate A6. }
    split; simpl; try done; [|by apply A7]. split; [by eapply om_above_ok| |].
    + intros y x Hin. by apply (so_piece _ _ _ Hs), A4.
    + intros y Hy HR Hge. apply A5; [|done]. apply (so_all _ _ _ Hs); [done|done|lia].
Qed.

Lemma um_sdu_run_delivered ps : um_sdu_run (inr d) ps = Some (inr d).
Proof. induction ps; simpl; done. Qed.

Lemma um_sdu_run_spec sos : forall R info, um_pending R info -> Forall (fun so => is_Some (plen so)) sos ->
  let R' := fun x => R x \/ x ∈ sos in
  (um_sdu_run (inl info) (piece_at <$> sos) = Some (inr d) /\ forall x, is_Some (plen x) -> R' x)
  \/ exists info', um_sdu_run (inl info) (piece_at <$> sos) = Some (inl info') /\ um_pending R' info'.
Proof.
  induction sos as [|so sos IH]; intros R info Hi Hf; cbv zeta.
  - right. exists info. split; [done|]. destruct Hi as [H1 H2 (P1 & P2 & P3) [S1 S2 S3] H5 H6 H7].
    split; try done.
    + split_and!; try done; [lia|lia|]. auto.
    + split; [done| |]. { intros y x Hin. destruct (S2 y x Hin) as (?&?&?). by auto. }
      intros y Hy [HR|?%not_elem_of_nil] Hge; [by apply S3|done].
    + intros Ht x n En [HR|?%not_elem_of_nil]; [by eapply H7|done].
  - apply list.Forall_cons in Hf as [Hso Hf]. cbn [fmap list_fmap um_sdu_run].
    destruct (um_sdu_step_spec R info so Hi Hso) as [[-> Hall]|(info1 & -> & Hi1)].
    { left. split; [apply um_sdu_run_delivered|]. intros x Hx. destruct (Hall x Hx) as [?| ->]; [by left|right].
      apply list_elem_of_here. }
    assert (forall x, (R x \/ x = so) \/ x ∈ sos <-> R x \/ x ∈ so :: sos) as HR by (intros; rewrite elem_of_cons; tauto).
    destruct (IH _ info1 Hi1 Hf) as [[-> Hall]|(info' & -> & [H1 H2 (P1 & P2 & P3) [S1 S2 S3] H5 H6 H7])].
    + left. split; [done|]. intros x Hx. by apply HR, Hall.
    + right. exists info'. split; [done|]. split; try done.
      * split_and!; try done; [lia|lia|]. intros. apply HR. auto.
      * split; [done| |]. { intros y x Hin. destruct (S2 y x Hin) as (?&?&?). split_and!; try done. by apply HR. }
        intros y Hy ?%HR Hge. by apply S3.
      * intros Ht x n En ?%HR. by eapply H7.
Qed.
End Reassembly.

(** UM reassembly in any order.  Let an SDU be cut into at least two
    segments.  When the segments arrive in any order, with any repetitions, the
    receiver assembles exactly the SDU, at the moment the last missing segment
    arrives and not before. *)
Theorem um_reassembly_any_order (d : bytes) (s : rlc_um_sn_size) (sn : Z) (plen : Z -> option Z) (sos : list Z) :
  um_partition d plen -> blen d <= sdu_max -> Forall (fun so => is_Some (plen so)) sos ->
  exists r, um_sdu_run (inl (UmSduInfo [] [] 0 0)) (piece_at d s sn plen <$> sos) = Some r
    /\ (forall sdu, r = inr sdu -> sdu = d)
    /\ (r = inr d <-> forall so, is_Some (plen so) -> so ∈ sos).
Proof.
  intros Hp Hd Hs.
  destruct (um_sdu_run_spec d s sn plen Hp Hd sos _ _ (um_pending_init d s sn plen Hp) Hs) as [[-> Hall]|(info & -> & Hi)];
    (eexists; split; [reflexivity|]; split; [by intros ? [=]|]).
  - split; [|done]. intros _ so Hso. by destruct (Hall so Hso).
  - split; [done|]. intros Hall. exfalso.
    destruct (um_pending_gap _ _ _ _ _ _ Hi) as [Hgap Hno]. apply Hno. right. by apply Hall.
Qed.

Lemma um_reassembly_any_order_witness :
  let plen := fun so => if so =? 0 then Some 2 else if so =? 2 then Some 1 else if so =? 3 then Some 2 else None in
  exists r, um_sdu_run (inl (UmSduInfo [] [] 0 0)) (piece_at [1;2;3;4;5] um_size6bits 9 plen <$> [3; 0; 0; 2]) = Some r
    /\ r = inr [1;2;3;4;5].
Proof.
  intros plen. destruct (um_reassembly_any_order [1;2;3;4;5] um_size6bits 9 plen [3; 0; 0; 2]) as (r & H & _ & Hr).
  - assert (forall so n, plen so = Some n -> (so = 0 /\ n = 2) \/ (so = 2 /\ n = 1) \/ (so = 3 /\ n = 2)) as Hc.
    { intros so n. unfold plen. destruct (Z.eqb_spec so 0), (Z.eqb_spec so 2), (Z.eqb_spec so 3); intros [=]; lia. }
    split.
    + exists 2. split; [reflexivity|vm_compute; done].
    + intros so n E. unfold blen; simpl. destruct (Hc so n E) as [[-> ->]|[[-> ->]|[-> ->]]]; lia.
    + intros so n E. destruct (Hc so n E) as [[-> ->]|[[-> ->]|[-> ->]]]; by vm_compute; eauto.
    + intros so n x E Hx. unfold plen.
      destruct (Hc so n E) as [[-> ->]|[[-> ->]|[-> ->]]];
        destruct (Z.eqb_spec x 0), (Z.eqb_spec x 2), (Z.eqb_spec x 3); done || lia.
  - vm_compute. done.
  - repeat constructor; by eexists.
  - exists r. split; [exact H|]. apply Hr. intros so Hso. unfold plen in Hso.
    destruct (Z.eqb_spec so 0), (Z.eqb_spec so 2), (Z.eqb_spec so 3); subst; set_solver.
Defined.
