(* ===== verification/RlcUm.v ===== *)
(** * RLC UM entity

    [lib/rlc/rlc_um_entity.h]: a transmitting and a receiving entity of the same
    bearer.  The transmitting entity of one side and the receiving entity of the
    other, joined by lower layers that neither lose nor reorder PDUs, pass the
    SDUs on unchanged. *)
From S2P Require Import Prelude OrdMap RlcAmPdu RlcUmPdu RlcQueues RlcTxAm RlcTxAmThms RlcTxUm RlcTxUmThms RlcRxUm RlcRxUmThms.

(** ** The window arithmetic of the receiver *)
Definition um_half (s : rlc_um_sn_size) : Z := window_size (um_sn_size_to_number s).
Lemma um_half_values s : um_half s = match s with um_size6bits => 32 | um_size12bits => 2048 end.
Proof. by destruct s. Qed.
Lemma um_half_pos s : 0 < um_half s.
Proof. rewrite um_half_values. destruct s; lia. Qed.
Lemma um_mod_half s : um_mod s = 2 * um_half s.
Proof. by destruct s. Qed.
Lemma um_mod_u32 s x : u32 x mod um_mod s = x mod um_mod s.
Proof.
  replace (um_mod s) with (2 ^ um_sn_size_to_number s) by (by destruct s). apply u32_mod_pow2. destruct s; simpl; lia.
Qed.

Section RxUm.
  Context (s : rlc_um_sn_size).
  Local Abbreviation half := (um_half s).

Lemma um_base_eq e x : um_rx_sn_field_length (um_rx_cfg e) = s ->
  um_rx_mod_base e x = (x - um_rx_next_highest (um_st e) - half) mod um_mod s.
Proof. intros Hc. unfold um_rx_mod_base, um_window_size, um_rx_mod. rewrite Hc. apply um_mod_u32. Qed.
Lemma um_base_u32 e x : um_rx_sn_field_length (um_rx_cfg e) = s ->
  um_rx_mod_base e (u32 x) = um_rx_mod_base e x.
Proof.
  intros Hc. rewrite !um_base_eq by done. rewrite <- !Z.sub_add_distr.
  rewrite Zminus_mod, um_mod_u32, <- Zminus_mod. done.
Qed.
(** The lower edge, RX_Next_Highest and the SN below it. *)
Lemma um_base_low e : um_rx_sn_field_length (um_rx_cfg e) = s ->
  um_rx_mod_base e (u32 (um_rx_next_highest (um_st e) - um_window_size e)) = 0.
Proof.
  intros Hc. rewrite um_base_u32, um_base_eq by done. unfold um_window_size. rewrite Hc. fold (um_half s).
  replace (_ - _ - _ - _) with ((-1) * um_mod s) by (rewrite um_mod_half; lia). apply Z_mod_mult.
Qed.
Lemma um_base_highest e : um_rx_sn_field_length (um_rx_cfg e) = s ->
  um_rx_mod_base e (um_rx_next_highest (um_st e)) = half.
Proof.
  intros Hc. rewrite um_base_eq by done. pose proof (um_half_pos s).
  replace (_ - _ - _) with (half + (-1) * um_mod s) by (rewrite um_mod_half; lia).
  rewrite Z_mod_plus_full. apply Z.mod_small. rewrite um_mod_half. lia.
Qed.
Lemma um_base_below e x : um_rx_sn_field_length (um_rx_cfg e) = s ->
  um_rx_next_highest (um_st e) = (x + 1) mod um_mod s -> um_rx_mod_base e x = half - 1.
Proof.
  intros Hc Hh. rewrite um_base_eq, Hh by done. pose proof (um_half_pos s).
  rewrite <- Z.sub_add_distr, Zminus_mod, (Zplus_mod_idemp_l (x + 1) half), <- Zminus_mod.
  replace (x - _) with ((half - 1) + (-1) * um_mod s) by (rewrite um_mod_half; lia).
  rewrite Z_mod_plus_full. apply Z.mod_small. rewrite um_mod_half. lia.
Qed.
Lemma um_in_window_iff e x : um_rx_sn_field_length (um_rx_cfg e) = s ->
  sn_in_reassembly_window e x = (um_rx_mod_base e x <? half).
Proof.
  intros Hc. unfold sn_in_reassembly_window. rewrite um_base_low, um_base_highest by done.
  rewrite (proj2 (Z.leb_le 0 _)); [done|]. rewrite um_base_eq by done. apply Z.mod_pos_bound.
  rewrite um_mod_half. pose proof (um_half_pos s). lia.
Qed.
Lemma um_invalid_iff e x : um_rx_sn_field_length (um_rx_cfg e) = s ->
  sn_invalid_for_rx_buffer e x = (um_rx_mod_base e x <? um_rx_mod_base e (rx_next_reassembly (um_st e))).
Proof.
  intros Hc. unfold sn_invalid_for_rx_buffer. rewrite um_base_low by done.
  rewrite (proj2 (Z.leb_le 0 _)); [done|]. rewrite um_base_eq by done. apply Z.mod_pos_bound.
  rewrite um_mod_half. pose proof (um_half_pos s). lia.
Qed.

(** ** The receiver of a lossless stream *)

(** The receiver is waiting for offset [so] of SDU [d], the next SDU with a
    sequence number; bytes before [so] are assembled. *)
Record um_rx_at (e : rlc_rx_um_entity) (sn so : Z) (d : bytes) : Prop := {
  ra_size : um_rx_sn_field_length (um_rx_cfg e) = s;
  ra_reassembly : rx_next_reassembly (um_st e) = sn;
  ra_highest : um_rx_next_highest (um_st e) = if so =? 0 then sn else (sn + 1) mod um_mod s;
  ra_window : um_rx_window e = if so =? 0 then [] else [(sn, UmSduInfo [] (slice 0 so d) so 0)];
}.

(** The timer does not change what the receiver waits for. *)
Lemma um_timer_rx_at e sn so d : um_rx_at e sn so d -> um_rx_at (um_maybe_start (um_maybe_stop e)) sn so d.
Proof.
  intros [H1 H2 H3 H4]. unfold um_maybe_start. set (e1 := um_maybe_stop e).
  assert (um_rx_at e1 sn so d) as [G1 G2 G3 G4] by (unfold e1, um_maybe_stop; destruct (um_reassembly_timer e && _); by split).
  destruct (negb _ && _); by split.
Qed.

(** A well-formed PDU is dispatched on its SI and SN. *)
Lemma um_handle_pdu_eq e h payload :
  um_rx_sn_field_length (um_rx_cfg e) = s -> um_header_ok h -> uh_sn_size h = s -> 0 < blen payload ->
  um_handle_pdu e (rlc_um_write_data_pdu_header h payload)
  = if bool_decide (uh_si h = full_sdu) then Some (e, [payload])
    else if sn_invalid_for_rx_buffer e (uh_sn h) then Some (e, [])
    else handle_rx_buffer_update
           (um_with_window e (om_assign (uh_sn h)
              (um_store_segment (default (UmSduInfo [] [] 0 0) (om_find (uh_sn h) (um_rx_window e))) (UmSeg h payload))
              (um_rx_window e))) (uh_sn h).
Proof.
  intros Hc Hok Hs Hp. unfold um_handle_pdu. rewrite Hc, <- Hs, um_read_write by done.
  pose proof (um_write_len h payload Hok) as Hl. pose proof (um_write_payload h payload Hok) as Hd.
  assert (rlc_um_nr_packed_length (um_sent_header h) = um_header_len h) as ->.
  { unfold um_sent_header. case_bool_decide as Hf; [|by apply um_packed_length]. unfold um_header_len. by rewrite Hf. }
  rewrite Hl. destruct (Z.leb_spec (um_header_len h + blen payload) (um_header_len h)); [lia|].
  replace (um_header_len h + blen payload - um_header_len h) with (blen payload) by lia.
  assert (slice (um_header_len h) (blen payload) (rlc_um_write_data_pdu_header h payload) = payload) as ->.
  { unfold slice. rewrite Hd. unfold blen. rewrite Nat2Z.id. by apply take_ge. }
  unfold um_sent_header. destruct (decide (uh_si h = full_sdu)) as [Hf|Hf].
  - rewrite !(bool_decide_true (uh_si h = full_sdu)) by done. done.
  - by rewrite !(bool_decide_false (uh_si h = full_sdu)) by done.
Qed.

Lemma um_update_single e sn info segs sdu next complete :
  um_rx_window e = [(sn, info)] ->
  um_assemble (um_segments info) (um_rx_sdu info) (next_expected_so info) (total_sdu_length info)
  = Some (segs, sdu, next, complete) ->
  handle_rx_buffer_update e sn
  = Some (um_maybe_start (um_maybe_stop
            (if complete then um_after_delivery (um_with_window e []) sn
             else um_move_window (um_with_window e [(sn, UmSduInfo segs sdu next (total_sdu_length info))]) sn)),
          if complete then [sdu] else []).
Proof.
  intros Hw Ha. unfold handle_rx_buffer_update. rewrite Hw. cbn [om_find]. rewrite Z.eqb_refl, Ha.
  destruct complete.
  - unfold om_erase. rewrite filter_cons_False by (simpl; lia). done.
  - cbn [om_assign]. by rewrite Z.ltb_irrefl, Z.eqb_refl.
Qed.

(** RX_Next_Highest moves behind the first segment of the next SDU, ... *)
Lemma um_move_first e sn i : um_rx_sn_field_length (um_rx_cfg e) = s -> 0 <= sn < um_mod s ->
  um_rx_next_highest (um_st e) = sn -> rx_next_reassembly (um_st e) = sn -> um_rx_window e = [(sn, i)] ->
  um_move_window e sn = um_set_highest e ((sn + 1) mod um_mod s).
Proof.
  intros Hc Hsn Hh Hr Hw. unfold um_move_window.
  rewrite um_in_window_iff by done. rewrite <- Hh at 1. rewrite um_base_highest, Z.ltb_irrefl by done.
  assert (u32 (sn + 1) mod um_rx_mod e = (sn + 1) mod um_mod s) as ->.
  { unfold um_rx_mod. rewrite Hc. apply um_mod_u32. }
  set (e1 := um_set_highest e _). assert (sn_in_reassembly_window e1 sn = true) as Hin.
  { rewrite um_in_window_iff, um_base_below by done. apply Z.ltb_lt. lia. }
  assert (filter (fun p => sn_in_reassembly_window e1 p.1 = true) (um_rx_window e1) = [(sn, i)]) as ->.
  { change (um_rx_window e1) with (um_rx_window e). rewrite Hw. by rewrite filter_cons_True. }
  assert (um_with_window e1 [(sn, i)] = e1) as -> by (unfold e1, um_set_highest, um_with_window, um_with_st; simpl; by rewrite Hw).
  assert (rx_next_reassembly (um_st e1) = sn) as -> by done. by rewrite Hin.
Qed.
(** ... and stays for the following ones. *)
Lemma um_move_later e sn : um_rx_sn_field_length (um_rx_cfg e) = s ->
  um_rx_next_highest (um_st e) = (sn + 1) mod um_mod s -> um_move_window e sn = e.
Proof.
  intros Hc Hh. unfold um_move_window. rewrite um_in_window_iff, um_base_below by done.
  by rewrite (proj2 (Z.ltb_lt _ _)) by lia.
Qed.

Lemma um_rx_first e sn d n : um_rx_at e sn 0 d -> 0 <= sn < um_mod s -> 0 < n < blen d -> blen d <= sdu_max ->
  exists e', um_handle_pdu e (rlc_um_write_data_pdu_header (UmHeader first_segment s sn 0) (slice 0 n d)) = Some (e', [])
    /\ um_rx_at e' sn n d.
Proof.
  intros [H1 H2 H3 H4] Hsn Hn Hd. unfold sdu_max in Hd. simpl in H3, H4.
  assert (blen (slice 0 n d) = n) as Hlen by (apply blen_slice; lia).
  rewrite um_handle_pdu_eq; [|done|by split|done|lia]. cbn [uh_si uh_sn]. rewrite bool_decide_false by done.
  rewrite um_invalid_iff, H2, Z.ltb_irrefl, H4 by done. cbn [om_find om_assign default].
  erewrite um_update_single; [|reflexivity|]; cycle 1.
  { simpl. rewrite Hlen, u32_id by (unfold is_u32; lia). reflexivity. }
  eexists. split; [reflexivity|]. apply um_timer_rx_at. erewrite um_move_first; try done.
  split; simpl; try done; by rewrite (proj2 (Z.eqb_neq n 0)) by lia.
Qed.

(** Storing and assembling the segment the receiver waits for. *)
Lemma um_store_next sn so d n si : 0 < so -> 0 < n -> so + n <= blen d -> blen d <= sdu_max ->
  si = exact_si so n (blen d) ->
  let info := um_store_segment (UmSduInfo [] (slice 0 so d) so 0) (UmSeg (UmHeader si s sn so) (slice so n d)) in
  um_assemble (um_segments info) (um_rx_sdu info) (next_expected_so info) (total_sdu_length info)
  = Some ([], slice 0 (so + n) d, so + n, so + n =? blen d)
  /\ (so + n <> blen d -> total_sdu_length info = 0).
Proof.
  intros Hso Hn Hle Hd ->. unfold sdu_max in Hd. cbv zeta.
  assert (blen (slice so n d) = n) as Hlen by (apply blen_slice; lia).
  unfold um_store_segment, update_total_sdu_length, exact_si. cbn [us_header uh_si us_payload uh_so].
  rewrite (proj2 (Z.eqb_neq so 0)) by lia. rewrite Hlen, (u32_id (so + n)) by (unfold is_u32; lia).
  assert (slice 0 so d ++ slice so n d = slice 0 (so + n) d) as Happ.
  { pose proof (slice_app_adjacent 0 so n d) as Ha. rewrite Z.add_0_l in Ha. apply Ha; lia. }
  destruct (Z.eqb_spec (so + n) (blen d)) as [E|E].
  - split; [|done]. simpl. rewrite Z.eqb_refl, (proj2 (Z.eqb_neq so 0)) by lia.
    rewrite Hlen, u32_id, Happ, Z.eqb_refl by (unfold is_u32; lia). done.
  - split; [|done]. simpl. rewrite Z.eqb_refl, (proj2 (Z.eqb_neq so 0)) by lia.
    rewrite Hlen, u32_id, Happ, (proj2 (Z.eqb_neq (so + n) 0)) by (unfold is_u32; lia). done.
Qed.

Lemma um_rx_next e sn so d n si : um_rx_at e sn so d -> 0 <= sn < um_mod s -> 0 < so -> 0 < n ->
  so + n <= blen d -> blen d <= sdu_max -> si = exact_si so n (blen d) ->
  exists e', um_handle_pdu e (rlc_um_write_data_pdu_header (UmHeader si s sn so) (slice so n d))
      = Some (e', if so + n =? blen d then [d] else [])
    /\ if so + n =? blen d then um_rx_at e' ((sn + 1) mod um_mod s) 0 [] else um_rx_at e' sn (so + n) d.
Proof.
  intros [H1 H2 H3 H4] Hsn Hso Hn Hle Hd Hsi. rewrite (proj2 (Z.eqb_neq so 0)) in H3, H4 by lia.
  assert (um_header_ok (UmHeader si s sn so)) as Hok by (subst si; apply um_exact_header_ok; [done|lia|done]).
  rewrite um_handle_pdu_eq; [|done|done|done|rewrite blen_slice; lia]. cbn [uh_si uh_sn].
  rewrite (bool_decide_false (si = full_sdu)).
  2:{ rewrite Hsi. unfold exact_si. rewrite (proj2 (Z.eqb_neq so 0)) by lia. by destruct (so + n =? _). }
  rewrite um_invalid_iff, H2, Z.ltb_irrefl, H4 by done. cbn [om_find om_assign]. rewrite Z.eqb_refl, Z.ltb_irrefl. cbn [default].
  destruct (um_store_next sn so d n si Hso Hn Hle Hd Hsi) as [Ha Ht].
  set (info := um_store_segment _ (UmSeg (UmHeader si s sn so) (slice so n d))) in Ha, Ht.
  erewrite (um_update_single _ sn info); [|reflexivity|exact Ha].
  destruct (Z.eqb_spec (so + n) (blen d)) as [E|E].
  - rewrite E, slice_all. eexists. split; [reflexivity|]. apply um_timer_rx_at. unfold um_after_delivery. simpl.
    rewrite H2, Z.eqb_refl. by split.
  - rewrite um_move_later by done. rewrite Ht by done. eexists. split; [reflexivity|]. apply um_timer_rx_at.
    split; simpl; try done; by rewrite (proj2 (Z.eqb_neq (so + n) 0)) by lia.
Qed.
End RxUm.

(** ** Transmitter and receiver joined by a lossless, ordered channel *)
Record um_channel := UmChannel {
  ch_tx : rlc_tx_um_entity;
  ch_rx : rlc_rx_um_entity;
  ch_accepted : list rlc_sdu; (* SDUs the transmitter took into its queue and that were not discarded *)
  ch_delivered : list bytes; (* SDUs the receiver passed up *)
}.

Inductive ch_op :=
  | ch_handle_sdu (sdu : rlc_sdu)
  | ch_discard_sdu (pdcp_sn : Z)
  | ch_pull_pdu (grant_len : Z) (* the PDU is handed to the receiver *)
  | ch_update_buffer_state.

(** How many of the accepted SDUs have left the queue of the transmitter: those delivered and the one being sent. *)
Definition ch_begun (c : um_channel) : nat :=
  (length (ch_delivered c) + if is_nil (sdu_buf (um_sdu (ch_tx c))) then 0 else 1)%nat.

(** A discard takes the first SDU with the PDCP SN out of those that are still waiting. *)
Definition ch_exec (c : um_channel) (op : ch_op) : option um_channel :=
  match op with
  | ch_handle_sdu x =>
      Some (UmChannel (um_handle_sdu true (ch_tx c) x).1 (ch_rx c)
              (ch_accepted c ++ if sq_is_full (um_sdu_queue (ch_tx c)) then [] else [x]) (ch_delivered c))
  | ch_discard_sdu n =>
      Some (UmChannel (um_discard_sdu true (ch_tx c) n).1 (ch_rx c)
              (take (ch_begun c) (ch_accepted c) ++ fifo_discard n (drop (ch_begun c) (ch_accepted c))) (ch_delivered c))
  | ch_pull_pdu grant =>
      match um_pull_pdu (ch_tx c) grant with
      | None => None
      | Some (pdu, tx, _) =>
          match um_handle_pdu (ch_rx c) pdu with
          | None => None
          | Some (rx, sdus) => Some (UmChannel tx rx (ch_accepted c) (ch_delivered c ++ sdus))
          end
      end
  | ch_update_buffer_state =>
      Some (UmChannel (um_update_mac_buffer_state (ch_tx c)).1 (ch_rx c) (ch_accepted c) (ch_delivered c))
  end.
Fixpoint ch_run (c : um_channel) (ops : list ch_op) : option um_channel :=
  match ops with
  | [] => Some c
  | op :: ops => match ch_exec c op with None => None | Some c => ch_run c ops end
  end.

Definition ch_op_ok (op : ch_op) : Prop :=
  match op with
  | ch_handle_sdu x => sdu_buf x <> [] /\ blen (sdu_buf x) <= sdu_max
  | ch_pull_pdu grant => grant < 2 ^ 32
  | ch_discard_sdu _ | ch_update_buffer_state => True
  end.

Definition ch_new (s : rlc_um_sn_size) (t_reassembly : Z) : um_channel :=
  UmChannel (tx_um_new (TxUmConfig s)) (rx_um_new (RxUmConfig s t_reassembly)) [] [].

Section Channel.
  Context (s : rlc_um_sn_size).

Record ch_inv (c : um_channel) : Prop := {
  ci_tx : um_tx_inv s (ch_tx c);
  ci_rx : um_rx_at s (ch_rx c) (um_tx_next (ch_tx c)) (um_next_so (ch_tx c)) (sdu_buf (um_sdu (ch_tx c)));
  ci_sdus : exists done, ch_accepted c = done ++ um_stream (ch_tx c) /\ sdu_buf <$> done = ch_delivered c;
}.

Lemma um_rx_at_any e sn d d' : um_rx_at s e sn 0 d -> um_rx_at s e sn 0 d'.
Proof. intros [H1 H2 H3 H4]. by split. Qed.

Lemma um_stream_current e : sdu_buf (um_sdu e) <> [] -> um_stream e = um_sdu e :: live (um_sdu_queue e).
Proof. intros H. unfold um_stream. by rewrite is_nil_spec, bool_decide_false. Qed.

(** One PDU through the channel. *)
Lemma ch_data_pdu e rx n : um_tx_inv s e -> sdu_buf (um_sdu e) <> [] -> 0 < n ->
  um_next_so e + n <= blen (sdu_buf (um_sdu e)) ->
  um_rx_at s rx (um_tx_next e) (um_next_so e) (sdu_buf (um_sdu e)) ->
  exists rx' sdus, um_handle_pdu rx (um_data_pdu s e n) = Some (rx', sdus)
    /\ um_rx_at s rx' (um_tx_next (um_sent s e n)) (um_next_so (um_sent s e n)) (sdu_buf (um_sdu (um_sent s e n)))
    /\ exists sent, um_stream e = sent ++ um_stream (um_sent s e n) /\ sdu_buf <$> sent = sdus.
Proof.
  intros Hi Hb Hn Hle Hr. pose proof (ut_sdu _ _ Hi) as Hd. pose proof (ut_next _ _ Hi) as Hsn.
  pose proof (ut_so _ _ Hi) as Hso. rewrite (um_stream_current e Hb). unfold sdu_fits in Hd.
  unfold um_data_pdu, um_sent. destruct (Z.eqb_spec (um_next_so e) 0) as [E|E].
  - rewrite E in Hr |- *. rewrite !Z.add_0_l in *. unfold exact_si. cbn [Z.eqb].
    destruct (Z.eqb_spec n (blen (sdu_buf (um_sdu e)))) as [->|Hne].
    + rewrite slice_all. rewrite um_handle_pdu_eq with (s := s); [|apply Hr|by split|done|lia].
      rewrite bool_decide_true by done. eexists _, _. split; [reflexivity|]. split; [by eapply um_rx_at_any|by exists [um_sdu e]].
    + destruct (um_rx_first s rx (um_tx_next e) (sdu_buf (um_sdu e)) n Hr Hsn) as (rx' & -> & Hr'); [lia|done|].
      eexists _, _. split; [reflexivity|]. split; [done|]. exists []. by rewrite um_stream_current.
  - destruct (um_rx_next s rx (um_tx_next e) (um_next_so e) (sdu_buf (um_sdu e)) n _ Hr Hsn ltac:(lia) Hn Hle Hd eq_refl)
      as (rx' & -> & Hr'). eexists _, _. split; [reflexivity|].
    destruct (um_next_so e + n =? blen (sdu_buf (um_sdu e))); [split; [done|by exists [um_sdu e]]|]. split; [done|]. exists []. by rewrite um_stream_current.
Qed.

Lemma ch_exec_inv c op : ch_inv c -> ch_op_ok op -> exists c', ch_exec c op = Some c' /\ ch_inv c'.
Proof.
  intros [H1 H2 (sent & H3 & H4)] Hop. destruct op as [x|n|grant|]; simpl in *.
  - eexists. split; [reflexivity|]. destruct (um_handle_sdu_spec s true (ch_tx c) x H1) as (G1 & G2 & G3 & G4 & G5);
      [apply Hop..|]. split; simpl; [done|by rewrite G2, G3, G4|]. exists sent. by rewrite G5, H3, <- app_assoc.
  - eexists. split; [reflexivity|]. destruct (um_discard_sdu_spec s true (ch_tx c) n H1) as (G1 & G2 & G3 & G4 & G5).
    split; simpl; [done|by rewrite G2, G3, G4|]. exists sent. split; [|done].
    assert (ch_begun c = length (sent ++ if is_nil (sdu_buf (um_sdu (ch_tx c))) then [] else [um_sdu (ch_tx c)])) as Hk.
    { unfold ch_begun. rewrite <- H4, length_fmap, length_app. by destruct (is_nil _). }
    unfold um_stream in H3 |- *. rewrite Hk, H3, app_assoc, take_app_length, drop_app_length, G2, G5. by rewrite app_assoc.
  - destruct (um_pull_pdu_spec s (ch_tx c) grant H1 Hop) as (e1 & evs & G1 & G2 & G3 & G4 & [->|(n & B1 & B2 & B3 & -> & _)]).
    + replace (um_handle_pdu (ch_rx c) []) with (Some (ch_rx c, [] : list bytes)) by reflexivity.
      eexists. split; [reflexivity|]. split; simpl; [done| |exists sent; by rewrite app_nil_r, G2].
      rewrite G3, G4. destruct (decide (sdu_buf (um_sdu (ch_tx c)) = [])) as [E|E].
      * rewrite (ut_so_idle _ _ H1 E) in H2 |- *. by eapply um_rx_at_any.
      * rewrite (um_stream_current _ E) in G2. unfold um_stream in G2. rewrite is_nil_spec in G2.
        case_bool_decide as E1; [|by injection G2 as -> _].
        (* the current SDU is never exchanged for a queued one *)
        pose proof (ut_so_idle _ _ G1 E1) as E2. rewrite G3 in E2. rewrite E2 in H2 |- *. by eapply um_rx_at_any.
    + assert (um_rx_at s (ch_rx c) (um_tx_next e1) (um_next_so e1) (sdu_buf (um_sdu e1))) as Hr.
      { rewrite G3, G4. destruct (decide (sdu_buf (um_sdu (ch_tx c)) = [])) as [E|E].
        - rewrite (ut_so_idle _ _ H1 E) in H2 |- *. by eapply um_rx_at_any.
        - rewrite (um_stream_current _ E), (um_stream_current _ B1) in G2. by injection G2 as -> _. }
      destruct (ch_data_pdu e1 (ch_rx c) n G1 B1 B2 B3 Hr) as (rx' & sdus & -> & Hr' & sent' & Hs & <-).
      eexists. split; [reflexivity|]. split; simpl; [by apply um_sent_inv|done|]. exists (sent ++ sent').
      by rewrite H3, <- G2, Hs, app_assoc, fmap_app, H4.
  - eexists. split; [reflexivity|]. split; simpl; [by destruct H1; split|done|by exists sent].
Qed.

Lemma ch_run_inv ops : forall c, ch_inv c -> Forall ch_op_ok ops -> exists c', ch_run c ops = Some c' /\ ch_inv c'.
Proof.
  induction ops as [|op ops IH]; intros c Hc Hf; simpl; [by eauto|]. apply list.Forall_cons in Hf as [Hop Hf].
  destruct (ch_exec_inv c op Hc Hop) as (c1 & -> & Hc1). by apply IH.
Qed.

Lemma ch_new_inv t : ch_inv (ch_new s t).
Proof. split; [by apply um_tx_inv_init|by split|by exists []]. Qed.

Lemma ch_inv_fifo c : ch_inv c -> sdu_buf <$> ch_accepted c = ch_delivered c ++ (sdu_buf <$> um_stream (ch_tx c)).
Proof. intros [_ _ (sent & -> & <-)]. apply fmap_app. Qed.
End Channel.

(** C12: UM is transparent on a lossless, ordered channel.  For every sequence of SDUs (non-empty, at most 65535 bytes),
    discards by PDCP SN and MAC grants below 2^32 bytes, with each PDU handed to the receiver at once and t-Reassembly
    not expiring, no assertion fails and no loop hangs, and the SDUs that were accepted by the transmitter and not
    discarded while they waited are, in order, those the receiver has delivered followed by those the transmitter
    still holds: nothing is lost, duplicated, reordered or altered by segmentation and reassembly, across SN
    wrap-around. *)
Theorem um_channel_transparent (s : rlc_um_sn_size) (t_reassembly : Z) (ops : list ch_op) :
  Forall ch_op_ok ops ->
  exists c, ch_run (ch_new s t_reassembly) ops = Some c
    /\ sdu_buf <$> ch_accepted c = ch_delivered c ++ (sdu_buf <$> um_stream (ch_tx c)).
Proof.
  intros Hf. destruct (ch_run_inv s ops _ (ch_new_inv s t_reassembly) Hf) as (c & Hc & Hi).
  exists c. split; [done|]. by apply (ch_inv_fifo s).
Qed.

(** The second of three SDUs is discarded while it waits. *)
Definition um_channel_demo : list ch_op :=
  [ch_handle_sdu (RlcSdu [1;2;3;4;5;6;7] (Some 1)); ch_pull_pdu 5; ch_handle_sdu (RlcSdu [8;9] (Some 2)); ch_handle_sdu (RlcSdu [10] (Some 3));
   ch_discard_sdu 2; ch_pull_pdu 7; ch_pull_pdu 7; ch_pull_pdu 7].
Lemma um_channel_transparent_witness :
  exists c, ch_run (ch_new um_size6bits 50) um_channel_demo = Some c
    /\ sdu_buf <$> ch_accepted c = ch_delivered c ++ (sdu_buf <$> um_stream (ch_tx c))
    /\ ch_delivered c = [[1;2;3;4;5;6;7]; [10]].
Proof.
  destruct (um_channel_transparent um_size6bits 50 um_channel_demo) as (c & H1 & H2).
  - repeat constructor; unfold sdu_max; vm_compute; congruence.
  - exists c. split; [exact H1|]. split; [exact H2|]. clear H2. vm_compute in H1. injection H1 as <-. reflexivity.
Defined.
