(* ===== verification/RlcRxUmRun.v ===== *)
(** * RLC UM receiving entity: every run ends

    The invariant of the receiving entity under arbitrary PDUs and expiries of
    t-Reassembly, and what the expiry does. *)
From S2P Require Import Prelude OrdMap RlcAmPdu RlcUmPdu RlcQueues RlcTxAm RlcTxAmThms RlcTxUm RlcTxUmThms RlcRxUm RlcRxUmThms RlcUm.

(** ** Segments from the peer *)
Definition um_seg_ok (p : Z * rlc_rx_um_sdu_segment) : Prop :=
  uh_so (us_header p.2) = p.1 /\ 0 <= p.1 < 2 ^ 16 /\ 0 < blen (us_payload p.2) < 2 ^ 31.

(** Bytes are assembled exactly when offset 0 is no longer expected, and the
    expected offset does not wrap. *)
Record um_info_ok (i : rlc_rx_um_sdu_info) : Prop := {
  ui_segs : om_ok (um_segments i);
  ui_seg : Forall um_seg_ok (um_segments i);
  ui_next : 0 <= next_expected_so i < 2 ^ 16 + 2 ^ 31;
  ui_sdu : um_rx_sdu i = [] <-> next_expected_so i = 0;
}.

Lemma um_assemble_total segs : forall lo sdu next total,
  om_above lo segs -> Forall um_seg_ok segs -> 0 <= next < 2 ^ 16 + 2 ^ 31 -> (sdu = [] <-> next = 0) ->
  exists segs' sdu' next' c, um_assemble segs sdu next total = Some (segs', sdu', next', c)
    /\ om_above lo segs' /\ Forall um_seg_ok segs' /\ 0 <= next' < 2 ^ 16 + 2 ^ 31 /\ (sdu' = [] <-> next' = 0).
Proof.
  induction segs as [|[k x] r IH]; intros lo sdu next total Hab Hf Hn Hs; cbn [um_assemble].
  { eexists _, _, _, _. split_and!; (done || lia). }
  destruct Hab as [Hlo Hab]. apply list.Forall_cons in Hf as [(Hk & Hk0 & Hp) Hf]. simpl in Hk, Hk0, Hp. rewrite Hk.
  assert (forall l : ordmap rlc_rx_um_sdu_segment, om_above k l -> om_above lo l) as Hw' by (intros l; apply om_above_weaken; lia).
  destruct (Z.eqb_spec k next) as [->|Hne].
  - assert (us_payload x <> []) as Hnn by (intros E; rewrite E, blen_nil in Hp; lia).
    destruct (Z.eqb_spec next 0) as [E0|E0].
    + rewrite (proj2 Hs E0). cbn [is_nil]. rewrite u32_id by (unfold is_u32; lia).
      destruct (IH next (us_payload x) (blen (us_payload x)) total Hab Hf) as (s' & d' & n' & c & -> & G); [lia| |].
      { split; [done|lia]. }
      eexists _, _, _, _. split; [reflexivity|]. destruct G as (?&?&?&?). by auto.
    + rewrite u32_id by (unfold is_u32; lia).
      assert (sdu ++ us_payload x = [] <-> next + blen (us_payload x) = 0) as Hs'.
      { split; [|lia]. intros [_ ?]%app_nil. done. }
      destruct (Z.eqb_spec (next + blen (us_payload x)) total).
      * eexists _, _, _, _. split; [reflexivity|]. split_and!; try done; auto; lia.
      * destruct (IH next (sdu ++ us_payload x) (next + blen (us_payload x)) total Hab Hf) as (s' & d' & n' & c & -> & G);
          [lia|done|]. eexists _, _, _, _. split; [reflexivity|]. destruct G as (?&?&?&?). by auto.
  - destruct (IH k sdu next total Hab Hf Hn Hs) as (s' & d' & n' & c & -> & G1 & G2 & G3 & G4).
    eexists _, _, _, _. split; [reflexivity|]. split_and!; try done; lia || by constructor.
Qed.

Section Run.
  Context (s : rlc_um_sn_size).
  Local Abbreviation half := (um_half s).

Definition um_sn (x : Z) : Prop := 0 <= x < um_mod s.

Record um_rx_inv (e : rlc_rx_um_entity) : Prop := {
  ur_size : um_rx_sn_field_length (um_rx_cfg e) = s;
  ur_highest : um_sn (um_rx_next_highest (um_st e));
  ur_trigger : um_sn (rx_timer_trigger (um_st e));
  ur_ok : om_ok (um_rx_window e);
  ur_infos : Forall (fun p => um_info_ok p.2) (um_rx_window e);
  ur_inside : Forall (fun p => um_rx_mod_base e p.1 < half) (um_rx_window e);
}.

Lemma um_mod_sn x : um_sn (x mod um_mod s).
Proof. apply Z.mod_pos_bound. rewrite um_mod_half. pose proof (um_half_pos s). lia. Qed.
Lemma um_rx_mod_eq e : um_rx_sn_field_length (um_rx_cfg e) = s -> um_rx_mod e = um_mod s.
Proof. intros H. unfold um_rx_mod, um_mod. by rewrite H. Qed.

(** The distance from the lower edge depends on RX_Next_Highest only. *)
Lemma um_base_ext e e' x : um_rx_cfg e' = um_rx_cfg e ->
  um_rx_next_highest (um_st e') = um_rx_next_highest (um_st e) -> um_rx_mod_base e' x = um_rx_mod_base e x.
Proof. intros H1 H2. unfold um_rx_mod_base, um_window_size, um_rx_mod. by rewrite H1, H2. Qed.

(** Entities that differ in the window only lose SDUs. *)
Lemma um_rx_inv_sub e e' : um_rx_inv e -> um_rx_cfg e' = um_rx_cfg e ->
  um_rx_next_highest (um_st e') = um_rx_next_highest (um_st e) -> um_sn (rx_timer_trigger (um_st e')) ->
  om_ok (um_rx_window e') -> (forall p, p ∈ um_rx_window e' -> p ∈ um_rx_window e) -> um_rx_inv e'.
Proof.
  intros [H1 H2 H3 H4 H5 H6] Hc Hh Ht Hok Hsub. rewrite list.Forall_forall in H5, H6. split; try done.
  - by rewrite Hc.
  - by rewrite Hh.
  - apply list.Forall_forall. auto.
  - apply list.Forall_forall. intros p Hp. rewrite (um_base_ext e e') by done. auto.
Qed.
Lemma um_rx_inv_frame e e' : um_rx_inv e -> um_rx_cfg e' = um_rx_cfg e ->
  um_rx_next_highest (um_st e') = um_rx_next_highest (um_st e) -> um_sn (rx_timer_trigger (um_st e')) ->
  um_rx_window e' = um_rx_window e -> um_rx_inv e'.
Proof. intros Hi Hc Hh Ht Hw. apply (um_rx_inv_sub e); try done; [rewrite Hw; apply Hi|by rewrite Hw]. Qed.

Lemma um_timers_inv e : um_rx_inv e -> um_rx_inv (um_maybe_start (um_maybe_stop e)).
Proof.
  intros Hi. unfold um_maybe_start. set (e1 := um_maybe_stop e).
  assert (um_rx_inv e1) as Hi1.
  { unfold e1, um_maybe_stop. destruct (um_reassembly_timer e && _); [|done].
    apply (um_rx_inv_frame e); try done. apply Hi. }
  destruct (negb _ && _); [|done]. apply (um_rx_inv_frame e1); try done. apply Hi1.
Qed.

(** The state after a segment has been stored under [sn]. *)
Record um_stored (e : rlc_rx_um_entity) (sn : Z) : Prop := {
  us_size : um_rx_sn_field_length (um_rx_cfg e) = s;
  us_highest : um_sn (um_rx_next_highest (um_st e));
  us_trigger : um_sn (rx_timer_trigger (um_st e));
  us_ok : om_ok (um_rx_window e);
  us_infos : Forall (fun p => um_info_ok p.2) (um_rx_window e);
  us_inside p : p ∈ um_rx_window e -> p.1 <> sn -> um_rx_mod_base e p.1 < half;
}.

Lemma um_assign_elem {V} (m : ordmap V) k v p : p ∈ om_assign k v m -> p = (k, v) \/ (p ∈ m /\ (om_ok m -> p.1 <> k)).
Proof.
  induction m as [|[j w] r IH]; simpl; [rewrite list_elem_of_singleton; by left|].
  destruct (Z.ltb_spec k j).
  { intros [->|Hin]%elem_of_cons; [by left|right]. split; [done|]. intros Hok E. destruct p as [q y]. simpl in E. subst q.
    apply elem_of_cons in Hin as [[= -> _]|Hin]; [lia|]. pose proof (om_above_elem _ _ _ _ Hok Hin). lia. }
  destruct (Z.eqb_spec k j) as [->|Hne].
  - intros [->|Hin]%elem_of_cons; [by left|right]. split; [by apply list_elem_of_further|]. intros Hok E.
    destruct p as [q y]. simpl in E. subst q. pose proof (om_above_elem _ _ _ _ Hok Hin). lia.
  - intros [->|Hin]%elem_of_cons; [right; split; [apply list_elem_of_here|by intros _ E]|].
    destruct (IH Hin) as [->|[Hin' Hk]]; [by left|right]. split; [by apply list_elem_of_further|].
    intros Hok. by apply Hk, (om_above_ok j).
Qed.

Lemma um_assign_stored e sn i : um_stored e sn -> um_info_ok i ->
  um_stored (um_with_window e (om_assign sn i (um_rx_window e))) sn.
Proof.
  intros [H1 H2 H3 H4 H5 H6] Hi. rewrite list.Forall_forall in H5. split; simpl; try done; [by apply om_assign_ok| |].
  - apply list.Forall_forall. intros p [->|[Hp _]]%um_assign_elem; [done|auto].
  - intros p [->|[Hp _]]%um_assign_elem Hne; [done|]. rewrite (um_base_ext e); auto.
Qed.
Lemma um_inv_stored e sn : um_rx_inv e -> um_stored e sn.
Proof. intros [H1 H2 H3 H4 H5 H6]. rewrite list.Forall_forall in H6. split; try done. auto. Qed.

Lemma um_erase_inv e sn : um_stored e sn -> um_rx_inv (um_with_window e (om_erase sn (um_rx_window e))).
Proof.
  intros [H1 H2 H3 H4 H5 H6]. rewrite list.Forall_forall in H5. split; simpl; try done; [by apply om_erase_ok| |].
  - apply list.Forall_forall. intros p [_ Hp]%list_elem_of_filter. auto.
  - apply list.Forall_forall. intros p [Hne Hp]%list_elem_of_filter. rewrite (um_base_ext e); auto.
Qed.

Lemma um_after_delivery_inv e sn : um_rx_inv e -> um_rx_inv (um_after_delivery e sn).
Proof.
  intros Hi. assert (forall x, um_rx_inv (um_set_reassembly e x)) as Hs.
  { intros x. apply (um_rx_inv_frame e); try done. apply Hi. }
  unfold um_after_delivery. destruct (sn =? _); [|done]. destruct (um_rx_window e); [done|]. by destruct (um_first_key _ _).
Qed.

Lemma um_move_window_inv e sn : um_stored e sn -> um_rx_inv (um_move_window e sn).
Proof.
  intros [H1 H2 H3 H4 H5 H6]. unfold um_move_window. destruct (sn_in_reassembly_window e sn) eqn:Ein.
  { rewrite um_in_window_iff with (s := s) in Ein by done. apply Z.ltb_lt in Ein. split; try done.
    apply list.Forall_forall. intros p Hp. destruct (decide (p.1 = sn)) as [->|]; auto. }
  set (e1 := um_set_highest e _).
  assert (um_rx_sn_field_length (um_rx_cfg e1) = s) as Hc by done.
  set (e2 := um_with_window e1 _). rewrite list.Forall_forall in H5.
  assert (um_rx_inv e2) as Hi2.
  { split; try done.
    - unfold e2, e1. simpl. rewrite um_rx_mod_eq by done. apply um_mod_sn.
    - by apply om_filter_ok.
    - apply list.Forall_forall. intros p [_ Hp]%list_elem_of_filter. auto.
    - apply list.Forall_forall. intros p [Hp _]%list_elem_of_filter. rewrite (um_base_ext e1 e2) by done.
      rewrite um_in_window_iff with (s := s) in Hp by done. by apply Z.ltb_lt. }
  destruct (sn_in_reassembly_window e2 _); [done|]. destruct (um_first_key _ _); [|done].
  apply (um_rx_inv_frame e2); try done.
Qed.

Lemma um_update_total e sn : um_stored e sn -> is_Some (om_find sn (um_rx_window e)) ->
  exists e' sdus, handle_rx_buffer_update e sn = Some (e', sdus) /\ um_rx_inv e'.
Proof.
  intros Hst [i Ei]. unfold handle_rx_buffer_update. rewrite Ei.
  assert (um_info_ok i) as [I1 I2 I3 I4].
  { apply om_find_elem in Ei; [|apply Hst]. pose proof (us_infos _ _ Hst) as Hf. rewrite list.Forall_forall in Hf.
    by apply (Hf (sn, i)). }
  destruct (om_ok_above _ I1) as [lo Hlo].
  destruct (um_assemble_total (um_segments i) lo (um_rx_sdu i) (next_expected_so i) (total_sdu_length i) Hlo I2 I3 I4)
    as (s' & d' & n' & c & -> & G1 & G2 & G3 & G4).
  destruct c; eexists _, _; (split; [reflexivity|]); apply um_timers_inv.
  - by apply um_after_delivery_inv, um_erase_inv.
  - apply um_move_window_inv, um_assign_stored; [done|]. split; simpl; try done. by eapply om_above_ok.
Qed.

Lemma um_read_so_bounds buf sz h : rlc_um_read_data_pdu_header buf sz = Some h -> 0 <= uh_so h < 2 ^ 16.
Proof.
  unfold rlc_um_read_data_pdu_header. destruct (rlc_um_read_fixed buf sz) as [[[si sn] rest]|]; [|done].
  destruct (si_has_so si); [|intros [= <-]; simpl; lia].
  destruct rest as [|s0 [|s1 rest]]; [done..|]. intros [= <-]. simpl uh_so. unfold u16. bits_arith. mlia.
Qed.

Lemma um_store_segment_ok i h payload : um_info_ok i -> 0 <= uh_so h < 2 ^ 16 -> 0 < blen payload < 2 ^ 31 ->
  um_info_ok (um_store_segment i (UmSeg h payload)).
Proof.
  intros [I1 I2 I3 I4] Hso Hp. unfold um_store_segment, update_total_sdu_length.
  assert (om_ok (om_emplace (uh_so h) (UmSeg h payload) (um_segments i))) as Hok by by apply om_emplace_ok.
  assert (Forall um_seg_ok (om_emplace (uh_so h) (UmSeg h payload) (um_segments i))) as Hf.
  { unfold om_emplace. case_match; [done|]. rewrite list.Forall_forall in I2 |- *.
    intros p [->|[Hin _]]%um_assign_elem; [by split|auto]. }
  by case_bool_decide; split.
Qed.

Lemma um_handle_pdu_total e buf : um_rx_inv e -> blen buf < 2 ^ 31 ->
  exists e' sdus, um_handle_pdu e buf = Some (e', sdus) /\ um_rx_inv e'.
Proof.
  intros Hi Hb. unfold um_handle_pdu. destruct (rlc_um_read_data_pdu_header _ _) as [h|] eqn:Eh; [|by eauto].
  apply um_read_so_bounds in Eh. set (hl := rlc_um_nr_packed_length h).
  assert (0 <= hl) as Hhl.
  { unfold hl, rlc_um_nr_packed_length. repeat case_match; lia. }
  destruct (Z.leb_spec (blen buf) hl); [by eauto|]. destruct (bool_decide _); [by eauto|].
  destruct (sn_invalid_for_rx_buffer _ _); [by eauto|].
  set (i := default _ _). assert (um_info_ok i) as Hok.
  { unfold i. destruct (om_find _ _) as [j|] eqn:Ej; simpl; [|split; simpl; try done; lia].
    apply om_find_elem in Ej; [|apply Hi]. pose proof (ur_infos _ Hi) as Hf. rewrite list.Forall_forall in Hf.
    by apply (Hf _ Ej). }
  apply um_update_total.
  - apply um_assign_stored; [by apply um_inv_stored|]. apply um_store_segment_ok; try done. rewrite blen_slice; lia.
  - simpl. rewrite om_find_assign, Z.eqb_refl. by eexists.
Qed.

(** ** Expiry of t-Reassembly *)
Lemma um_base_succ e x : um_rx_sn_field_length (um_rx_cfg e) = s -> um_rx_mod_base e x < half ->
  um_rx_mod_base e (u32 (x + 1) mod um_rx_mod e) = um_rx_mod_base e x + 1.
Proof.
  intros Hc. rewrite um_rx_mod_eq, um_mod_u32, !(um_base_eq s) by done. pose proof (um_half_pos s) as Hp. intros Hlt.
  rewrite <- !Z.sub_add_distr in *. set (y := um_rx_next_highest (um_st e) + half) in *.
  rewrite Zminus_mod_idemp_l. replace (x + 1 - y) with ((x - y) + 1) by lia.
  rewrite <- (Zplus_mod_idemp_l (x - y) 1). apply Z.mod_small.
  pose proof (um_mod_sn (x - y)) as [? _]. rewrite um_mod_half in *. lia.
Qed.

Lemma um_base_half e x : um_rx_inv e -> um_sn x -> um_rx_mod_base e x = half -> x = um_rx_next_highest (um_st e).
Proof.
  intros Hi Hx Hb. pose proof (ur_size _ Hi) as Hc. rewrite (um_base_eq s) in Hb by done.
  pose proof (ur_highest _ Hi) as Hu. unfold um_sn in *. rewrite um_mod_half in *. pose proof (um_half_pos s).
  set (y := um_rx_next_highest (um_st e)) in *.
  pose proof (Z.div_mod (x - y - half) (2 * half) ltac:(lia)) as Hd. rewrite Hb in Hd.
  assert ((x - y - half) / (2 * half) = -1 \/ (x - y - half) / (2 * half) = 0) as [E|E]
    by (assert (-2 < (x - y - half) / (2 * half) < 1) by nia; lia); rewrite E in Hd; lia.
Qed.

Lemma um_advance_spec e fuel : um_rx_inv e -> forall x, um_sn x -> um_rx_mod_base e x <= half ->
  half - um_rx_mod_base e x <= Z.of_nat fuel ->
  um_advance_reassembly fuel e x = Some (um_rx_next_highest (um_st e)).
Proof.
  intros Hi. pose proof (ur_size _ Hi) as Hc. induction fuel as [|fuel IH]; intros x Hx Hle Hf; cbn [um_advance_reassembly];
    rewrite (um_base_highest s) by done; destruct (Z.ltb_spec (um_rx_mod_base e x) half) as [Hlt|Hge].
  - lia.
  - f_equal. apply um_base_half; try done. lia.
  - apply IH; [rewrite um_rx_mod_eq by done; apply um_mod_sn|rewrite um_base_succ by done; lia..].
  - f_equal. apply um_base_half; try done. lia.
Qed.

Lemma um_advance_total e : um_rx_inv e ->
  um_advance_reassembly (Z.to_nat (um_rx_mod e)) e (rx_timer_trigger (um_st e))
  = Some (if um_rx_mod_base e (rx_timer_trigger (um_st e)) <=? half
          then um_rx_next_highest (um_st e) else rx_timer_trigger (um_st e)).
Proof.
  intros Hi. pose proof (ur_size _ Hi) as Hc. rewrite um_rx_mod_eq by done. pose proof (um_half_pos s) as Hp.
  destruct (Z.leb_spec (um_rx_mod_base e (rx_timer_trigger (um_st e))) half) as [Hle|Hgt].
  - apply um_advance_spec; try done; [apply Hi|]. rewrite (um_base_eq s) in * by done.
    pose proof (um_mod_sn (rx_timer_trigger (um_st e) - um_rx_next_highest (um_st e) - half)) as [? _].
    rewrite um_mod_half in *. lia.
  - destruct (Z.to_nat (um_mod s)); cbn [um_advance_reassembly]; rewrite (um_base_highest s) by done;
      by rewrite (proj2 (Z.ltb_ge _ _)) by lia.
Qed.

Lemma um_expiry_total e : um_rx_inv e -> exists e', um_on_expired_reassembly_timer e = Some e' /\ um_rx_inv e'.
Proof.
  intros Hi. unfold um_on_expired_reassembly_timer. rewrite um_advance_total by done. set (x := if um_rx_mod_base e (rx_timer_trigger (um_st e)) <=? half then um_rx_next_highest (um_st e) else rx_timer_trigger (um_st e)).
  eexists. split; [reflexivity|]. set (e1 := um_set_reassembly e x). set (e2 := um_with_window e1 _).
  assert (um_rx_inv e2) as Hi2.
  { apply (um_rx_inv_sub e); try done; [apply Hi|apply om_filter_ok, Hi|]. by intros p [_ Hp]%list_elem_of_filter. }
  destruct (um_start_condition e2); [|done]. apply (um_rx_inv_frame e2); try done. apply Hi.
Qed.

(** The expiry gives up every SDU below RX_Next_Highest. *)
Lemma um_expiry_clears e : um_rx_inv e -> um_rx_mod_base e (rx_timer_trigger (um_st e)) <= half ->
  exists e', um_on_expired_reassembly_timer e = Some e'
    /\ um_rx_window e' = [] /\ rx_next_reassembly (um_st e') = um_rx_next_highest (um_st e')
    /\ um_rx_next_highest (um_st e') = um_rx_next_highest (um_st e) /\ um_reassembly_timer e' = um_reassembly_timer e.
Proof.
  intros Hi Hle. pose proof (ur_size _ Hi) as Hc. unfold um_on_expired_reassembly_timer.
  rewrite um_advance_total, (proj2 (Z.leb_le _ _) Hle) by done. set (x := um_rx_next_highest (um_st e)).
  set (e1 := um_set_reassembly e x). set (e2 := um_with_window e1 _).
  assert (um_rx_window e2 = []) as Hw.
  { unfold e2. simpl. destruct (filter _ (um_rx_window e)) as [|p l] eqn:El; [done|exfalso].
    assert (p ∈ filter (fun p => ~ um_rx_mod_base e1 p.1 < um_rx_mod_base e1 x) (um_rx_window e)) as Hp
      by (rewrite El; apply list_elem_of_here).
    apply list_elem_of_filter in Hp as [Hnot Hin]. apply Hnot. rewrite !(um_base_ext e e1) by done.
    unfold x. rewrite (um_base_highest s) by done. pose proof (ur_inside _ Hi) as Hf.
    rewrite list.Forall_forall in Hf. by apply Hf. }
  assert (um_start_condition e2 = false) as Hs.
  { unfold um_start_condition, has_missing_byte_segment. rewrite Hw. cbn [om_find].
    rewrite (bool_decide_false (is_Some None)) by (by intros []). rewrite andb_false_r, orb_false_r.
    change (um_rx_next_highest (um_st e2)) with x. change (rx_next_reassembly (um_st e2)) with x.
    apply Z.ltb_ge. rewrite um_base_u32 with (s := s) by done.
    assert (um_rx_mod_base e2 x = half) as -> by (apply (um_base_highest s e2); done).
    rewrite (um_base_eq s e2) by done. change (um_rx_next_highest (um_st e2)) with x. pose proof (um_half_pos s).
    replace (x + 1 - x - half) with ((half + 1) + (-1) * um_mod s) by (rewrite um_mod_half; lia).
    rewrite Z_mod_plus_full. destruct (decide (half = 1)) as [E|]; [|rewrite Z.mod_small; [lia|rewrite um_mod_half; lia]].
    rewrite um_half_values in E. by destruct s. }
  eexists. split; [reflexivity|]. by rewrite Hs.
Qed.
End Run.

(** ** Runs *)
Inductive um_rx_op :=
  | um_rx_pdu (buf : bytes)
  | um_rx_expiry. (* t-Reassembly expires, if it is running *)

Definition um_rx_exec (e : rlc_rx_um_entity) (op : um_rx_op) : option (rlc_rx_um_entity * list bytes) :=
  match op with
  | um_rx_pdu buf => um_handle_pdu e buf
  | um_rx_expiry =>
      if um_reassembly_timer e
      then match um_on_expired_reassembly_timer (um_with_timer e false) with Some e => Some (e, []) | None => None end
      else Some (e, [])
  end.
Fixpoint um_rx_run (e : rlc_rx_um_entity) (ops : list um_rx_op) : option (rlc_rx_um_entity * list bytes) :=
  match ops with
  | [] => Some (e, [])
  | op :: ops =>
      match um_rx_exec e op with
      | None => None
      | Some (e, sdus) =>
          match um_rx_run e ops with None => None | Some (e, sdus') => Some (e, sdus ++ sdus') end
      end
  end.

Definition um_rx_op_ok (op : um_rx_op) : Prop :=
  match op with um_rx_pdu buf => blen buf < 2 ^ 31 | um_rx_expiry => True end.

Lemma um_rx_run_inv s ops : forall e, um_rx_inv s e -> Forall um_rx_op_ok ops ->
  exists e' sdus, um_rx_run e ops = Some (e', sdus) /\ um_rx_inv s e'.
Proof.
  induction ops as [|op ops IH]; intros e Hi Hf; simpl; [by eauto|]. apply list.Forall_cons in Hf as [Hop Hf].
  assert (exists e' sdus, um_rx_exec e op = Some (e', sdus) /\ um_rx_inv s e') as (e1 & sdus & -> & Hi1).
  { destruct op as [buf|]; simpl; [by apply um_handle_pdu_total|]. destruct (um_reassembly_timer e); [|by eauto].
    destruct (um_expiry_total s (um_with_timer e false)) as (e1 & -> & Hi1); [|by eauto].
    apply (um_rx_inv_frame s e); try done. apply Hi. }
  destruct (IH e1 Hi1 Hf) as (e2 & sdus2 & -> & Hi2). by eauto.
Qed.

Lemma um_rx_inv_init cfg : um_rx_inv (um_rx_sn_field_length cfg) (rx_um_new cfg).
Proof.
  assert (um_sn (um_rx_sn_field_length cfg) 0).
  { unfold um_sn. rewrite um_mod_values. destruct (um_rx_sn_field_length cfg); lia. }
  by split.
Qed.

(** The UM receiver survives any input.  Whatever PDUs the peer sends
    (malformed, duplicated, overlapping, outside the window) and whenever
    t-Reassembly expires, every handler returns (the reassembly loop and the loop
    over sequence numbers end), and afterwards the receiver holds segments only of
    sequence numbers in the reassembly window below RX_Next_Highest. *)
Theorem um_rx_run_total (cfg : rlc_rx_um_config) (ops : list um_rx_op) :
  Forall um_rx_op_ok ops ->
  exists e sdus, um_rx_run (rx_um_new cfg) ops = Some (e, sdus)
    /\ forall sn info, om_find sn (um_rx_window e) = Some info -> sn_in_reassembly_window e sn = true.
Proof.
  intros Hf. destruct (um_rx_run_inv _ ops _ (um_rx_inv_init cfg) Hf) as (e & sdus & -> & Hi).
  exists e, sdus. split; [done|]. intros sn info Hfi. apply om_find_elem in Hfi; [|apply Hi].
  pose proof (ur_inside _ _ Hi) as Hin. rewrite list.Forall_forall in Hin. specialize (Hin _ Hfi).
  rewrite (um_in_window_iff _ e sn (ur_size _ _ Hi)). by apply Z.ltb_lt.
Qed.

(** ** Segments of a 6-bit bearer, for concrete runs *)
Definition um6 (si : rlc_si_field) (sn so : Z) (payload : bytes) : um_rx_op :=
  um_rx_pdu (rlc_um_write_data_pdu_header (UmHeader si um_size6bits sn so) payload).
Definition um6_new : rlc_rx_um_entity := rx_um_new (RxUmConfig um_size6bits 50).

Lemma um_rx_run_total_witness :
  exists e sdus, um_rx_run um6_new [um6 last_segment 3 4 [9]; um6 first_segment 3 0 [1;2]; um_rx_expiry; um_rx_pdu [255]]
      = Some (e, sdus)
    /\ forall sn info, om_find sn (um_rx_window e) = Some info -> sn_in_reassembly_window e sn = true.
Proof. apply (um_rx_run_total (RxUmConfig um_size6bits 50)). repeat constructor; vm_compute; done. Defined.

(** The expiry of t-Reassembly discards SDUs it should keep.  A segment of
    SN 0 starts t-Reassembly (RX_Timer_Trigger = 1); a segment of SN 1 follows.
    When the timer expires, RX_Next_Reassembly moves to RX_Next_Highest instead of
    the first SN from RX_Timer_Trigger on that is incomplete, SN 1 is discarded with SN 0,
    and its last segment is refused: the SDU is lost although all its
    segments arrived. *)
Theorem um_expiry_discards_later_sdu :
  exists e, um_rx_run um6_new [um6 first_segment 0 0 [1;2]; um6 first_segment 1 0 [3;4]; um_rx_expiry;
                               um6 last_segment 1 2 [5]] = Some (e, [])
    /\ rx_next_reassembly (um_st e) = 2 /\ um_rx_window e = []
  /\ exists e', um_rx_run um6_new [um6 first_segment 0 0 [1;2]; um6 first_segment 1 0 [3;4];
                               um6 last_segment 1 2 [5]] = Some (e', [[3;4;5]]).
Proof.
  eexists. split; [vm_compute; reflexivity|]. split; [reflexivity|]. split; [reflexivity|].
  eexists. vm_compute. reflexivity.
Qed.

(** RX_Next_Reassembly is chosen in numeric, not modular, order.  After the
    wrap-around of the SN the window holds incomplete SDUs 60, 62, 1 and 10; when
    RX_Next_Reassembly leaves the window it is set to 1, the smallest key, so that
    the last segment of SDU 60, which is still in the window, is refused. *)
Theorem um_wraparound_refuses_segment :
  exists e, um_rx_run um6_new [um6 first_segment 20 0 [1]; um6 first_segment 40 0 [1]; um6 first_segment 60 0 [3];
                               um6 first_segment 62 0 [3]; um6 first_segment 1 0 [3]; um6 first_segment 10 0 [3];
                               um6 last_segment 60 1 [5]] = Some (e, [])
    /\ rx_next_reassembly (um_st e) = 1
    /\ sn_in_reassembly_window e 60 = true /\ is_Some (om_find 60 (um_rx_window e)).
Proof.
  eexists. split; [vm_compute; reflexivity|]. split; [reflexivity|]. split; [reflexivity|]. by eexists.
Qed.
