(* ===== verification/RlcTm.v ===== *)
(** * RLC TM entities

    [lib/rlc/rlc_tx_tm_entity.cpp], [lib/rlc/rlc_rx_tm_entity.cpp] and
    [lib/rlc/rlc_tm_entity.h]: SDUs are passed through without a header.
    [None] is a failed [srsran_sanity_check]. *)
From S2P Require Import Prelude RlcAmPdu RlcQueues RlcTxAm.

Record rlc_tx_tm_entity := TxTm { tm_sdu_queue : rlc_sdu_queue; tm_pending_buffer_state : bool }.

Definition tx_tm_new : rlc_tx_tm_entity := TxTm sq_new false.

Definition tm_get_buffer_state (e : rlc_tx_tm_entity) : Z := sq_size_bytes (tm_sdu_queue e).
Definition tm_update_mac_buffer_state (e : rlc_tx_tm_entity) : rlc_tx_tm_entity * list tx_event :=
  (TxTm (tm_sdu_queue e) false, [on_buffer_state_update (tm_get_buffer_state e)]).
Definition tm_handle_changed_buffer_state (defer_ok : bool) (e : rlc_tx_tm_entity) : rlc_tx_tm_entity * list tx_event :=
  if tm_pending_buffer_state e then (e, [])
  else (TxTm (tm_sdu_queue e) true, if defer_ok then [defer_update_mac_buffer_state] else []).

Definition tm_handle_sdu (defer_ok : bool) (e : rlc_tx_tm_entity) (sdu : rlc_sdu) : rlc_tx_tm_entity * list tx_event :=
  let '(ok, q) := sq_write (tm_sdu_queue e) sdu in
  if ok then tm_handle_changed_buffer_state defer_ok (TxTm q (tm_pending_buffer_state e)) else (e, []).

(** Discards are ignored in TM. *)
Definition tm_discard_sdu (e : rlc_tx_tm_entity) (pdcp_sn : Z) : rlc_tx_tm_entity * list tx_event := (e, []).

Definition tm_pull_pdu (e : rlc_tx_tm_entity) (grant_len : Z) : option (bytes * rlc_tx_tm_entity) :=
  if sq_is_empty (tm_sdu_queue e) then Some ([], e)
  else match sq_front_size_bytes (tm_sdu_queue e) with
       | None => Some ([], e)
       | Some front_len =>
           if grant_len <? front_len then Some ([], e)
           else match sq_read (tm_sdu_queue e) with
                | (None, q) => Some ([], TxTm q (tm_pending_buffer_state e))
                | (Some sdu, q) =>
                    if negb (blen (sdu_buf sdu) =? front_len) then None
                    else Some (sdu_buf sdu, TxTm q (tm_pending_buffer_state e))
                end
       end.

(** The receiving entity has no state: every PDU is delivered as an SDU. *)
Definition tm_handle_pdu (buf : bytes) : list bytes := [buf].

(** ** Correctness *)
Record tm_ok (e : rlc_tx_tm_entity) : Prop := {
  to_queue : sq_ok (tm_sdu_queue e);
  to_live : Forall (fun x => sdu_buf x <> []) (sq_queue (tm_sdu_queue e));
}.

Lemma tm_live e : tm_ok e -> live (tm_sdu_queue e) = sq_queue (tm_sdu_queue e).
Proof. intros [_ Hl]. unfold live. induction Hl; [done|]. rewrite filter_cons_True by done. by f_equal. Qed.

Lemma sq_read_front q x r : sq_queue q = x :: r -> sdu_buf x <> [] ->
  exists q', sq_read q = (Some x, q') /\ sq_queue q' = r.
Proof.
  intros E Hx. unfold sq_read. rewrite E. simpl. rewrite is_nil_spec, bool_decide_false by done. by eexists.
Qed.

(** TM passes SDUs through.  With non-empty SDUs in the queue, [pull_pdu]
    fails no check and returns the oldest SDU unchanged if it fits the grant,
    removing exactly it, and nothing (leaving the queue alone) otherwise; the
    receiver delivers what it gets; and the buffer state is the number of bytes
    queued. *)
Theorem tm_passes_sdus_through (e : rlc_tx_tm_entity) (grant_len : Z) :
  tm_ok e ->
  tm_get_buffer_state e = sdu_total (sq_queue (tm_sdu_queue e))
  /\ match sq_queue (tm_sdu_queue e) with
     | [] => tm_pull_pdu e grant_len = Some ([], e)
     | x :: r =>
         if grant_len <? blen (sdu_buf x) then tm_pull_pdu e grant_len = Some ([], e)
         else exists e', tm_pull_pdu e grant_len = Some (sdu_buf x, e') /\ tm_ok e'
                /\ sq_queue (tm_sdu_queue e') = r /\ tm_handle_pdu (sdu_buf x) = [sdu_buf x]
     end.
Proof.
  intros He. split.
  { unfold tm_get_buffer_state, sq_size_bytes. rewrite (sq_bytes _ (to_queue _ He)). by rewrite tm_live. }
  unfold tm_pull_pdu, sq_is_empty, sq_front_size_bytes. pose proof (to_live _ He) as Hl.
  pose proof (sq_read_spec _ (to_queue _ He)) as Hr.
  destruct (sq_queue (tm_sdu_queue e)) as [|x r] eqn:Eq; [done|]. destruct (grant_len <? blen (sdu_buf x)); [done|].
  apply list.Forall_cons in Hl as [Hx Hl]. destruct (sq_read_front _ _ _ Eq Hx) as (q' & Er & Eq').
  rewrite Er in Hr |- *. rewrite Z.eqb_refl. cbn [negb]. eexists. split; [reflexivity|].
  destruct Hr as [Hq _]. split_and!; [|done|done]. split; [done|]. simpl. by rewrite Eq'.
Qed.

Lemma tm_passes_sdus_through_witness :
  let e := (tm_handle_sdu true (tm_handle_sdu true tx_tm_new (RlcSdu [1;2;3] None)).1 (RlcSdu [4] None)).1 in
  tm_get_buffer_state e = 4 /\ exists e', tm_pull_pdu e 3 = Some ([1;2;3], e') /\ tm_get_buffer_state e' = 1.
Proof.
  intros e. destruct (tm_passes_sdus_through e 3) as [H1 H2].
  - split; [split; vm_compute; try done; split; congruence|]. by repeat constructor.
  - split; [exact H1|]. destruct H2 as (e' & He & _ & _ & _). exists e'. split; [exact He|].
    vm_compute in He. injection He as <-. reflexivity.
Defined.
