(* ===== verification/BitEncoding.v ===== *)
(** * Bit encoder and decoder

    [lib/support/bit_encoding.cpp] and [include/srsran/support/bit_encoding.h]:
    [bit_encoder::pack] and [bit_decoder::unpack] on a byte buffer, and the round
    trip of a sequence of bit fields.

    The loops end after at most [n_bits] iterations, each of which handles at
    least one bit: that is their fuel. *)
From S2P Require Import Prelude.

(** ** The encoder *)
Record bit_encoder := BitEnc { enc_writer : bytes; enc_offset : Z }.
Definition bit_encoder_new (buf : bytes) : bit_encoder := BitEnc buf 0.

(** [writer.back() += x]. *)
Fixpoint add_back (l : bytes) (x : Z) : bytes :=
  match l with
  | [] => []
  | [b] => [u8 (b + x)]
  | b :: r => b :: add_back r x
  end.

Fixpoint pack_loop (fuel : nat) (e : bit_encoder) (val n_bits : Z) : bit_encoder :=
  match fuel with
  | O => e
  | S fuel =>
      if n_bits >? 0 then
        let w := if enc_offset e =? 0 then enc_writer e ++ [0] else enc_writer e in
        let offset := enc_offset e in
        let val := Z.land val (Z.shiftl 1 n_bits - 1) in
        if 8 - offset >? n_bits then
          pack_loop fuel (BitEnc (add_back w (u8 (Z.shiftl val (8 - offset - n_bits)))) (offset + n_bits)) val 0
        else
          pack_loop fuel (BitEnc (add_back w (u8 (Z.shiftr val (n_bits - 8 + offset)))) 0) val (n_bits - (8 - offset))
      else e
  end.

(** [None] is a failed [srsran_assert]. *)
Definition bit_pack (e : bit_encoder) (val n_bits : Z) : option bit_encoder :=
  if n_bits <? 64 then Some (pack_loop (Z.to_nat n_bits) e val n_bits) else None.

(** ** The decoder of 32-bit values: the bytes from the iterator on *)
Record bit_decoder := BitDec { dec_rest : bytes; dec_offset : Z }.
Definition bit_decoder_new (buf : bytes) : bit_decoder := BitDec buf 0.

(** The new value of [val] and whether all bits could be read. *)
Fixpoint unpack_loop (fuel : nat) (d : bit_decoder) (val n_bits : Z) : bool * Z * bit_decoder :=
  match fuel with
  | O => (true, val, d)
  | S fuel =>
      if n_bits >? 0 then
        match dec_rest d with
        | [] => (false, val, d)
        | b :: rest =>
            let offset := dec_offset d in
            if 8 - offset >? n_bits then
              let mask := u8 (u8 (Z.shiftl 1 (8 - offset)) - u8 (Z.shiftl 1 (8 - offset - n_bits))) in
              unpack_loop fuel (BitDec (b :: rest) (offset + n_bits))
                (u32 (val + Z.shiftr (Z.land b mask) (8 - offset - n_bits))) 0
            else
              let mask := u8 (Z.shiftl 1 (8 - offset) - 1) in
              unpack_loop fuel (BitDec rest 0)
                (u32 (val + u32 (Z.shiftl (Z.land b mask) (n_bits - 8 + offset)))) (n_bits - (8 - offset))
        end
      else (true, val, d)
  end.

Definition bit_unpack (d : bit_decoder) (n_bits : Z) : option (bool * Z * bit_decoder) :=
  if n_bits <=? 32 then Some (unpack_loop (Z.to_nat n_bits) d 0 n_bits) else None.

(** ** Big-endian value of a buffer *)
Fixpoint be_value (l : bytes) : Z :=
  match l with
  | [] => 0
  | b :: r => b * 2 ^ (8 * blen r) + be_value r
  end.

Lemma be_value_app l r : be_value (l ++ r) = be_value l * 2 ^ (8 * blen r) + be_value r.
Proof.
  induction l as [|b l IH]; cbn [app be_value]; [lia|].
  rewrite IH, blen_app, Z.mul_add_distr_l, Z.pow_add_r by (pose proof (blen_nonneg l); pose proof (blen_nonneg r); lia).
  ring.
Qed.

Lemma be_value_bound l : bytes_ok l -> 0 <= be_value l < 2 ^ (8 * blen l).
Proof.
  induction 1 as [|b l Hb Hl IH]; cbn [be_value]; [rewrite blen_nil; lia|].
  rewrite blen_cons, Z.mul_add_distr_l, Z.pow_add_r by (pose proof (blen_nonneg l); lia).
  unfold is_u8 in Hb. change (2 ^ (8 * 1)) with 256. nia.
Qed.

Lemma add_back_app l b x : add_back (l ++ [b]) x = l ++ [u8 (b + x)].
Proof.
  induction l as [|a l IH]; [done|]. cbn [app]. rewrite <- IH. cbn [add_back].
  destruct (l ++ [b]) eqn:E; [|done]. by destruct l.
Qed.

(** ** The bits written

    The encoder holds the [len] bits of [v], followed by zeros up to the end of
    the last byte. *)
Record enc_rep (e : bit_encoder) (v len : Z) : Prop := {
  er_bytes : bytes_ok (enc_writer e);
  er_val : 0 <= v < 2 ^ len;
  er_len : 0 <= 8 * blen (enc_writer e) - len < 8 /\ 0 <= len;
  er_off : enc_offset e = len mod 8;
  er_value : be_value (enc_writer e) = v * 2 ^ (8 * blen (enc_writer e) - len);
}.

Lemma enc_rep_new : enc_rep (bit_encoder_new []) 0 0.
Proof. split; cbn; [by constructor|lia|rewrite blen_nil; lia|done|done]. Qed.

(** Adding [x] to the last byte when its low [p] bits are zero. *)
Lemma add_back_value w p x : bytes_ok w -> 0 < blen w -> 0 <= p <= 8 -> be_value w mod 2 ^ p = 0 -> 0 <= x < 2 ^ p ->
  bytes_ok (add_back w x) /\ blen (add_back w x) = blen w /\ be_value (add_back w x) = be_value w + x.
Proof.
  intros Hok Hne Hp Hmod Hx.
  destruct w as [|b l] using rev_ind; [by rewrite blen_nil in Hne|]. clear IHl.
  rewrite add_back_app. apply Forall_app in Hok as [Hl Hb]. apply Forall_inv in Hb.
  assert (2 ^ 8 = 2 ^ (8 - p) * 2 ^ p) as H8 by (rewrite <- Z.pow_add_r by lia; f_equal; lia).
  assert (0 < 2 ^ p) as Hpp by (apply Z.pow_pos_nonneg; lia).
  assert (b mod 2 ^ p = 0) as Hbm.
  { rewrite be_value_app in Hmod. cbn [be_value] in Hmod. rewrite blen_cons, blen_nil, Z.pow_0_r in Hmod.
    change (8 * (1 + 0)) with 8 in Hmod. rewrite H8, Z.mul_assoc in Hmod.
    replace (be_value l * 2 ^ (8 - p) * 2 ^ p + (b * 1 + 0)) with (b + be_value l * 2 ^ (8 - p) * 2 ^ p) in Hmod by lia.
    by rewrite Z.mod_add in Hmod by lia. }
  assert (b + x < 256) as Hlt.
  { unfold is_u8 in Hb. pow2s. rewrite (Z.div_mod b (2 ^ p)), Hbm by lia.
    assert (b / 2 ^ p < 2 ^ (8 - p)) by (apply Z.div_lt_upper_bound; lia). nia. }
  rewrite u8_id by (unfold is_u8 in *; lia). split_and!.
  - apply Forall_app. split; [done|]. constructor; [unfold is_u8 in *; lia|constructor].
  - by rewrite !blen_app.
  - rewrite !be_value_app. cbn [be_value]. rewrite !blen_cons, blen_nil. lia.
Qed.

(** The writer once there is room in its last byte. *)
Definition enc_open (e : bit_encoder) : bytes :=
  if enc_offset e =? 0 then enc_writer e ++ [0] else enc_writer e.

Lemma enc_open_rep e v len : enc_rep e v len ->
  bytes_ok (enc_open e) /\ 8 * blen (enc_open e) - len = 8 - enc_offset e /\ 0 <= enc_offset e < 8
  /\ be_value (enc_open e) = v * 2 ^ (8 - enc_offset e).
Proof.
  intros [Hok Hv [Hl Hl0] Ho Hval]. unfold enc_open. destruct (enc_offset e =? 0) eqn:E; breflect.
  - assert (8 * blen (enc_writer e) - len = 0) as Hz by mlia. split_and!; [|rewrite blen_app, blen_cons, blen_nil; lia|mlia|mlia|].
    + apply Forall_app. split; [done|]. constructor; [unfold is_u8; lia|constructor].
    + rewrite be_value_app, Hval, Hz, E. cbn [be_value]. rewrite blen_cons, blen_nil. lia.
  - assert (8 * blen (enc_writer e) - len = 8 - enc_offset e) as Hz by mlia. split_and!; [done|done|mlia|mlia|].
    by rewrite Hval, Hz.
Qed.

(** [k] more bits [x] in the current byte. *)
Lemma enc_rep_add e v len k x : enc_rep e v len -> 0 < k <= 8 - enc_offset e -> 0 <= x < 2 ^ k ->
  enc_rep (BitEnc (add_back (enc_open e) (x * 2 ^ (8 - enc_offset e - k))) ((enc_offset e + k) mod 8))
    (v * 2 ^ k + x) (len + k).
Proof.
  intros Hr Hk Hx. destruct (enc_open_rep e v len Hr) as (Hok & Hlen & Ho & Hval). destruct Hr as [_ Hv [_ Hl0] Hoff _].
  set (q := 8 - enc_offset e) in *.
  assert (2 ^ q = 2 ^ k * 2 ^ (q - k)) as Hq by (rewrite <- Z.pow_add_r by lia; f_equal; lia).
  assert (0 < 2 ^ (q - k) /\ 0 < 2 ^ k) as [Hp1 Hp2] by (split; apply Z.pow_pos_nonneg; lia).
  destruct (add_back_value (enc_open e) q (x * 2 ^ (q - k))) as (Ha & Hb & Hc); [done|lia|lia| | |].
  2:{ split; [apply Z.mul_nonneg_nonneg; lia|]. rewrite Hq. apply Z.mul_lt_mono_pos_r; lia. }
  { rewrite Hval. apply Z.mod_mul. lia. }
  split; cbn [enc_writer enc_offset]; [done| |rewrite Hb; lia| |].
  - rewrite Z.pow_add_r by lia. nia.
  - rewrite Hoff. mlia.
  - rewrite Hc, Hval, Hb. replace (8 * blen (enc_open e) - (len + k)) with (q - k) by lia. rewrite Hq. ring.
Qed.

Lemma land_pow2_mask x n : 0 <= n -> Z.land x (Z.shiftl 1 n - 1) = x mod 2 ^ n.
Proof. intros Hn. rewrite Z.shiftl_1_l. rewrite <- (Z.land_ones x n) by lia. f_equal. rewrite Z.ones_equiv. lia. Qed.

Lemma div_pow2_bound x m k : 0 <= k <= m -> 0 <= x < 2 ^ m -> 0 <= x / 2 ^ k < 2 ^ (m - k).
Proof.
  intros Hk Hx. assert (2 ^ m = 2 ^ k * 2 ^ (m - k)) as E by (rewrite <- Z.pow_add_r by lia; f_equal; lia).
  split; [apply Z.div_pos; [lia|apply Z.pow_pos_nonneg; lia]|].
  apply Z.div_lt_upper_bound; [apply Z.pow_pos_nonneg; lia|lia].
Qed.

Lemma pow2_le_256 k : 0 <= k <= 8 -> 2 ^ k <= 256.
Proof. intros H. change 256 with (2 ^ 8). apply Z.pow_le_mono_r; lia. Qed.

(** One field appended to the bits written. *)
Lemma pack_loop_rep fuel e v len val n :
  enc_rep e v len -> 0 <= n <= Z.of_nat fuel -> enc_rep (pack_loop fuel e val n) (v * 2 ^ n + val mod 2 ^ n) (len + n).
Proof.
  revert e v len val n. induction fuel as [|fuel IH]; intros e v len val n Hr Hn.
  { replace n with 0 by lia. by rewrite Z.pow_0_r, Z.mod_1_r, !Z.add_0_r, Z.mul_1_r. }
  cbn [pack_loop]. destruct (n >? 0) eqn:En.
  2:{ replace n with 0 by lia. by rewrite Z.pow_0_r, Z.mod_1_r, !Z.add_0_r, Z.mul_1_r. }
  fold (enc_open e). rewrite land_pow2_mask by lia.
  destruct (enc_open_rep e v len Hr) as (_ & _ & Ho & _).
  pose proof (Z.mod_pos_bound val (2 ^ n) ltac:(apply Z.pow_pos_nonneg; lia)) as Hx. set (x := val mod 2 ^ n) in *.
  destruct (8 - enc_offset e >? n) eqn:Eo.
  - rewrite Z.shiftl_mul_pow2 by lia.
    pose proof (enc_rep_add e v len n x Hr ltac:(lia) Hx) as H.
    assert (x * 2 ^ (8 - enc_offset e - n) < 256).
    { pose proof (pow2_le_256 (8 - enc_offset e) ltac:(lia)).
      assert (2 ^ (8 - enc_offset e) = 2 ^ n * 2 ^ (8 - enc_offset e - n)) by (rewrite <- Z.pow_add_r by lia; f_equal; lia).
      assert (0 < 2 ^ (8 - enc_offset e - n)) by (apply Z.pow_pos_nonneg; lia). nia. }
    rewrite u8_id by (unfold is_u8; split; [apply Z.mul_nonneg_nonneg; [lia|apply Z.pow_nonneg; lia]|lia]).
    rewrite Z.mod_small in H by lia. apply (IH _ _ _ x 0) in H; [|lia].
    by rewrite Z.pow_0_r, Z.mod_1_r, !Z.add_0_r, Z.mul_1_r in H.
  - set (m := 8 - enc_offset e) in *. rewrite Z.shiftr_div_pow2 by lia.
    replace (n - 8 + enc_offset e) with (n - m) by lia.
    pose proof (div_pow2_bound x n (n - m) ltac:(lia) Hx) as Hq. replace (n - (n - m)) with m in Hq by lia.
    rewrite u8_id by (unfold is_u8; pose proof (pow2_le_256 m ltac:(lia)); lia).
    pose proof (enc_rep_add e v len m _ Hr ltac:(lia) Hq) as H.
    replace (8 - enc_offset e - m) with 0 in H by lia. rewrite Z.pow_0_r, Z.mul_1_r in H.
    replace ((enc_offset e + m) mod 8) with 0 in H by mlia.
    apply (IH _ _ _ x (n - m)) in H; [|lia].
    replace (len + m + (n - m)) with (len + n) in H by lia.
    assert ((v * 2 ^ m + x / 2 ^ (n - m)) * 2 ^ (n - m) + x mod 2 ^ (n - m) = v * 2 ^ n + x) as <-; [|done].
    assert (0 < 2 ^ (n - m)) by (apply Z.pow_pos_nonneg; lia).
    rewrite (Z.div_mod x (2 ^ (n - m))) at 3 by lia.
    replace (2 ^ n) with (2 ^ m * 2 ^ (n - m)) by (rewrite <- Z.pow_add_r by lia; f_equal; lia). ring.
Qed.

(** ** The bits left to read *)
Record dec_rep (d : bit_decoder) (v len : Z) : Prop := {
  dr_bytes : bytes_ok (dec_rest d);
  dr_off : 0 <= dec_offset d < 8;
  dr_len : len = 8 * blen (dec_rest d) - dec_offset d /\ 0 <= len;
  dr_value : v = be_value (dec_rest d) mod 2 ^ len;
}.

Lemma dec_rep_new l : bytes_ok l -> dec_rep (bit_decoder_new l) (be_value l) (8 * blen l).
Proof.
  intros H. pose proof (be_value_bound l H). pose proof (blen_nonneg l). split; cbn; [done|lia|lia|].
  by rewrite Z.mod_small.
Qed.

Lemma dec_rep_bound d v len : dec_rep d v len -> 0 <= v < 2 ^ len.
Proof. intros [_ _ [_ Hl] ->]. apply Z.mod_pos_bound, Z.pow_pos_nonneg; lia. Qed.

Lemma pow2_split a b : 0 <= a -> 0 <= b -> 2 ^ (a + b) = 2 ^ a * 2 ^ b.
Proof. intros. by apply Z.pow_add_r. Qed.

Lemma mod_pow2_div x a b : 0 <= a -> 0 <= b -> x mod 2 ^ (a + b) / 2 ^ a = (x / 2 ^ a) mod 2 ^ b.
Proof.
  intros. assert (0 < 2 ^ a /\ 0 < 2 ^ b) as [? ?] by (split; apply Z.pow_pos_nonneg; lia).
  rewrite pow2_split, Z.rem_mul_r by lia. rewrite Z.add_comm, Z.mul_comm, Z.div_add_l by lia.
  rewrite (Z.div_small (x mod 2 ^ a)) by (apply Z.mod_pos_bound; lia). lia.
Qed.

Lemma mod_mod_pow2 x a b : 0 <= a <= b -> (x mod 2 ^ b) mod 2 ^ a = x mod 2 ^ a.
Proof.
  intros H. replace b with (a + (b - a)) by lia. rewrite pow2_split by lia.
  assert (0 < 2 ^ a /\ 0 < 2 ^ (b - a)) as [? ?] by (split; apply Z.pow_pos_nonneg; lia).
  rewrite Z.rem_mul_r by lia. rewrite Z.add_comm, Z.mul_comm, Z.add_comm, Z.mod_add by lia. apply Z.mod_mod. lia.
Qed.

(** The fields of the first byte. *)
Lemma byte_field b o n : 0 <= o -> 0 < n -> o + n < 8 ->
  Z.shiftr (Z.land b (u8 (u8 (Z.shiftl 1 (8 - o)) - u8 (Z.shiftl 1 (8 - o - n))))) (8 - o - n)
  = b mod 2 ^ (8 - o) / 2 ^ (8 - o - n).
Proof.
  intros Ho Hn Hon. set (s := 8 - o - n). replace (8 - o) with (s + n) by lia.
  assert (u8 (u8 (Z.shiftl 1 (s + n)) - u8 (Z.shiftl 1 s)) = Z.shiftl (Z.ones n) s) as ->.
  { rewrite !Z.shiftl_1_l, Z.shiftl_mul_pow2, Z.ones_equiv by lia.
    unfold u8. rewrite <- Zminus_mod. pose proof (pow2_le_256 (s + n) ltac:(lia)) as H1. rewrite pow2_split in * by lia.
    assert (0 < 2 ^ s /\ 1 < 2 ^ n) as [? ?] by (split; [apply Z.pow_pos_nonneg|apply Z.pow_gt_1]; lia).
    rewrite Z.mod_small by nia. lia. }
  rewrite land_mask, Z.shiftr_div_pow2, Z.div_mul by (apply Z.pow_nonzero || idtac; lia).
  by rewrite mod_pow2_div by lia.
Qed.

Lemma u32_add_u32 a b : u32 (a + u32 b) = u32 (a + b).
Proof. unfold u32. apply Zplus_mod_idemp_r. Qed.
Lemma u32_u32_add a b : u32 (u32 a + b) = u32 (a + b).
Proof. unfold u32. apply Zplus_mod_idemp_l. Qed.

Lemma unpack_none d v len val : dec_rep d v len -> is_u32 val ->
  exists d', (true, val, d) = (true, u32 (val + v / 2 ^ (len - 0)), d') /\ dec_rep d' (v mod 2 ^ (len - 0)) (len - 0).
Proof.
  intros Hr Hval. pose proof (dec_rep_bound _ _ _ Hr). rewrite Z.sub_0_r, Z.div_small, Z.mod_small, Z.add_0_r by done.
  exists d. by rewrite u32_id.
Qed.

(** The value of the bits left, by the first byte. *)
Lemma dec_rep_cons b r o v len : dec_rep (BitDec (b :: r) o) v len ->
  bytes_ok r /\ 0 <= o < 8 /\ len = 8 * blen r + (8 - o) /\ v = b mod 2 ^ (8 - o) * 2 ^ (8 * blen r) + be_value r.
Proof.
  intros [Hok Ho [Hl _] ->]; cbn [dec_rest dec_offset] in *. apply Forall_cons_1 in Hok as [Hb Hok].
  rewrite blen_cons in Hl. pose proof (blen_nonneg r). split_and!; [done|lia|lia|lia|].
  cbn [be_value]. pose proof (be_value_bound r Hok) as Hbe.
  replace len with (8 * blen r + (8 - o)) by lia. rewrite pow2_split by lia.
  assert (0 < 2 ^ (8 - o)) by (apply Z.pow_pos_nonneg; lia).
  rewrite Z.rem_mul_r by lia. rewrite Z.div_add_l, (Z.div_small (be_value r)), Z.add_0_r by lia.
  rewrite (Z.add_comm (b * _)), Z.mod_add, Z.mod_small by lia. ring.
Qed.

(** Reading [n] bits that are there. *)
Lemma unpack_loop_rep fuel d v len val n : dec_rep d v len -> 0 <= n <= Z.of_nat fuel -> n <= len -> is_u32 val ->
  exists d', unpack_loop fuel d val n = (true, u32 (val + v / 2 ^ (len - n)), d')
    /\ dec_rep d' (v mod 2 ^ (len - n)) (len - n).
Proof.
  revert d v len val n. induction fuel as [|fuel IH]; intros d v len val n Hr Hn Hlen Hval.
  { replace n with 0 by lia. by apply unpack_none. }
  cbn [unpack_loop]. destruct (n >? 0) eqn:En; [|replace n with 0 by lia; by apply unpack_none].
  destruct d as [[|b r] o]; cbn [dec_rest dec_offset].
  { destruct Hr as [_ Ho [Hl _] _]; cbn in *. rewrite blen_nil in Hl. lia. }
  destruct (dec_rep_cons _ _ _ _ _ Hr) as (Hok & Ho & Hl & Hv).
  pose proof (be_value_bound r Hok) as Hbe. pose proof (blen_nonneg r) as Hbn. set (k := 8 * blen r) in *.
  assert (0 < 2 ^ k) by (apply Z.pow_pos_nonneg; lia).
  destruct (8 - o >? n) eqn:Eo.
  - rewrite byte_field by lia. set (s := 8 - o - n) in *.
    destruct (IH (BitDec (b :: r) (o + n)) (v mod 2 ^ (len - n)) (len - n)
      (u32 (val + b mod 2 ^ (8 - o) / 2 ^ s)) 0) as (d' & Hd & Hr'); [|lia|lia|apply u32_is_u32|].
    { destruct Hr as [Hb0 _ [Hl0 _] ->]; cbn [dec_rest dec_offset] in *. split; cbn; [done|lia|lia|].
      apply mod_mod_pow2. lia. }
    rewrite Z.sub_0_r in Hd, Hr'. exists d'. rewrite Hd. split; [|by rewrite Z.mod_mod in Hr' by (apply Z.pow_nonzero; lia)].
    rewrite (Z.div_small (v mod _)) by (apply Z.mod_pos_bound, Z.pow_pos_nonneg; lia). rewrite Z.add_0_r, (u32_id (u32 _)) by apply u32_is_u32.
    do 4 f_equal. replace (len - n) with (k + s) by lia. rewrite pow2_split by lia.
    assert (0 < 2 ^ s) by (apply Z.pow_pos_nonneg; lia). rewrite <- Z.div_div, Hv by lia.
    by rewrite Z.div_add_l, (Z.div_small (be_value r)), Z.add_0_r by lia.
  - set (m := 8 - o) in *. rewrite !Z.shiftl_mul_pow2 by lia. replace (n - 8 + o) with (n - m) by lia. rewrite Z.mul_1_l.
    assert (u8 (2 ^ m - 1) = Z.ones m) as ->.
    { pose proof (pow2_le_256 m ltac:(lia)). assert (0 < 2 ^ m) by (apply Z.pow_pos_nonneg; lia).
      rewrite u8_id, Z.ones_equiv by (unfold is_u8; lia). lia. }
    rewrite Z.land_ones, u32_add_u32 by lia.
    destruct (IH (BitDec r 0) (be_value r) k (u32 (val + b mod 2 ^ m * 2 ^ (n - m))) (n - m)) as (d' & Hd & Hr');
      [|lia|lia|apply u32_is_u32|].
    { split; cbn; [done|lia|lia|]. by rewrite Z.mod_small by done. }
    exists d'. rewrite Hd. replace (len - n) with (k - (n - m)) by lia.
    assert (2 ^ k = 2 ^ (n - m) * 2 ^ (k - (n - m))) as Hk by (rewrite <- pow2_split by lia; f_equal; lia).
    assert (0 < 2 ^ (k - (n - m))) by (apply Z.pow_pos_nonneg; lia).
    rewrite Hv, Hk, Z.mul_assoc. split.
    + rewrite Z.div_add_l, u32_u32_add by lia. do 3 f_equal. lia.
    + rewrite Z.add_comm, Z.mod_add by lia. done.
Qed.

(** ** Sequences of bit fields (value, width) *)
Fixpoint pack_fields (e : bit_encoder) (fs : list (Z * Z)) : option bit_encoder :=
  match fs with
  | [] => Some e
  | (v, n) :: fs => match bit_pack e v n with None => None | Some e => pack_fields e fs end
  end.

Fixpoint unpack_fields (d : bit_decoder) (ns : list Z) : option (list Z * bit_decoder) :=
  match ns with
  | [] => Some ([], d)
  | n :: ns =>
      match bit_unpack d n with
      | Some (true, v, d) =>
          match unpack_fields d ns with Some (vs, d) => Some (v :: vs, d) | None => None end
      | _ => None
      end
  end.

Definition field_ok (f : Z * Z) : Prop := 0 <= f.2 <= 32 /\ 0 <= f.1 < 2 ^ f.2.

Fixpoint fields_len (fs : list (Z * Z)) : Z :=
  match fs with [] => 0 | (_, n) :: fs => n + fields_len fs end.
Fixpoint fields_value (fs : list (Z * Z)) : Z :=
  match fs with [] => 0 | (v, n) :: fs => v * 2 ^ fields_len fs + fields_value fs end.

Lemma fields_bound fs : Forall field_ok fs -> 0 <= fields_len fs /\ 0 <= fields_value fs < 2 ^ fields_len fs.
Proof.
  induction 1 as [|[v n] fs [Hn Hv] _ [Hl IH]]; cbn [fields_len fields_value fst snd] in *; [lia|].
  split; [lia|]. rewrite pow2_split by lia. nia.
Qed.

Lemma fields_app fs gs : Forall field_ok (fs ++ gs) ->
  fields_len (fs ++ gs) = fields_len fs + fields_len gs
  /\ fields_value (fs ++ gs) = fields_value fs * 2 ^ fields_len gs + fields_value gs.
Proof.
  induction fs as [|[v n] fs IH]; cbn [app fields_len fields_value]; intros H; [lia|].
  apply Forall_cons_1 in H as [_ H]. destruct (IH H) as [-> ->].
  apply Forall_app in H as [H1 H2]. apply fields_bound in H1, H2. rewrite pow2_split by lia. lia.
Qed.

Lemma pack_fields_app e fs gs :
  pack_fields e (fs ++ gs) = match pack_fields e fs with Some e => pack_fields e gs | None => None end.
Proof.
  revert e. induction fs as [|[v n] fs IH]; intros e; [done|]. cbn. destruct (bit_pack e v n); [apply IH|done].
Qed.

Lemma pack_fields_rep e v len fs : enc_rep e v len -> Forall field_ok fs ->
  exists e', pack_fields e fs = Some e' /\ enc_rep e' (v * 2 ^ fields_len fs + fields_value fs) (len + fields_len fs).
Proof.
  intros Hr H. revert e v len Hr. induction H as [|[x n] fs [Hn Hx] Hfs IH]; intros e v len Hr; cbn [fst snd] in *.
  - exists e. cbn. rewrite Z.mul_1_r, !Z.add_0_r. done.
  - cbn [pack_fields fields_len fields_value]. unfold bit_pack. destruct (n <? 64) eqn:E; breflect; [|lia].
    pose proof (pack_loop_rep (Z.to_nat n) e v len x n Hr ltac:(lia)) as H.
    rewrite Z.mod_small in H by lia. destruct (IH _ _ _ H) as (e' & He & Hr'). exists e'. split; [done|].
    destruct (fields_bound fs Hfs) as [Hl _]. rewrite pow2_split by lia.
    replace (len + (n + fields_len fs)) with (len + n + fields_len fs) by lia.
    replace (v * (2 ^ n * 2 ^ fields_len fs) + (x * 2 ^ fields_len fs + fields_value fs))
      with ((v * 2 ^ n + x) * 2 ^ fields_len fs + fields_value fs) by ring. done.
Qed.

Lemma bit_unpack_rep d v len n : dec_rep d v len -> 0 <= n <= 32 -> n <= len ->
  exists d', bit_unpack d n = Some (true, v / 2 ^ (len - n), d') /\ dec_rep d' (v mod 2 ^ (len - n)) (len - n).
Proof.
  intros Hr Hn Hl. unfold bit_unpack. destruct (n <=? 32) eqn:E; breflect; [|lia].
  destruct (unpack_loop_rep (Z.to_nat n) d v len 0 n Hr) as (d' & Hd & Hr'); [lia|lia|unfold is_u32; lia|].
  exists d'. rewrite Hd. split; [|done]. do 3 f_equal. rewrite Z.add_0_l. apply u32_id.
  pose proof (dec_rep_bound _ _ _ Hr) as Hb. pose proof (div_pow2_bound v len (len - n) ltac:(lia) Hb).
  replace (len - (len - n)) with n in * by lia. pose proof (Z.pow_le_mono_r 2 n 32 ltac:(lia) ltac:(lia)).
  unfold is_u32. lia.
Qed.

Lemma unpack_fields_rep d v len fs : Forall field_ok fs -> 0 <= v < 2 ^ len -> 0 <= len ->
  dec_rep d (fields_value fs * 2 ^ len + v) (fields_len fs + len) ->
  exists d', unpack_fields d (map snd fs) = Some (map fst fs, d') /\ dec_rep d' v len.
Proof.
  intros H Hv Hlen. revert d. induction H as [|[x n] fs [Hn Hx] Hfs IH]; intros d Hr; cbn [fst snd] in *.
  - exists d. cbn in *. done.
  - destruct (fields_bound fs Hfs) as [Hl Hval]. cbn [map fst snd unpack_fields fields_len fields_value] in *.
    destruct (bit_unpack_rep _ _ _ n Hr) as (d' & Hd & Hr'); [lia|lia|]. rewrite Hd.
    replace (n + fields_len fs + len - n) with (fields_len fs + len) in * by lia.
    assert (0 <= fields_value fs * 2 ^ len + v < 2 ^ (fields_len fs + len)) as Hb.
    { rewrite pow2_split by lia. nia. }
    replace ((x * 2 ^ fields_len fs + fields_value fs) * 2 ^ len + v)
      with (x * 2 ^ (fields_len fs + len) + (fields_value fs * 2 ^ len + v)) in * by (rewrite pow2_split by lia; ring).
    rewrite Z.add_comm, Z.mod_add, Z.mod_small in Hr' by lia.
    destruct (IH _ Hr') as (d'' & Hd' & Hr''). exists d''. rewrite Hd'. split; [|done].
    rewrite Z.div_add_l, Z.div_small, Z.add_0_r by lia. done.
Qed.

(** Packing and unpacking are inverse: every sequence of fields of up to 32 bits, whatever
    their alignment, that is packed into a fresh buffer with [pack] is read back by [unpack] with
    the same widths; less than a byte of zero bits is left. *)
Theorem bit_fields_roundtrip fs : Forall field_ok fs ->
  exists e d p, pack_fields (bit_encoder_new []) fs = Some e /\ bytes_ok (enc_writer e)
    /\ unpack_fields (bit_decoder_new (enc_writer e)) (map snd fs) = Some (map fst fs, d)
    /\ dec_rep d 0 p /\ p < 8.
Proof.
  intros H. destruct (pack_fields_rep _ _ _ fs enc_rep_new H) as (e & He & Hr).
  destruct Hr as [Hok Hv [Hl1 Hl2] Ho Hval]. rewrite Z.mul_0_l, !Z.add_0_l in *.
  set (p := 8 * blen (enc_writer e) - fields_len fs) in *.
  destruct (unpack_fields_rep (bit_decoder_new (enc_writer e)) 0 p fs H) as (d & Hd & Hr'); [|lia| |].
  - split; [lia|]. apply Z.pow_pos_nonneg; lia.
  - pose proof (dec_rep_new _ Hok) as Hd. rewrite Hval in Hd. rewrite Z.add_0_r.
    by replace (fields_len fs + p) with (8 * blen (enc_writer e)) by lia.
  - exists e, d, p. split_and!; [done..|lia].
Qed.

Lemma bit_fields_roundtrip_witness :
  exists e d p, pack_fields (bit_encoder_new []) [(5, 3); (0x12345, 18); (1, 1)] = Some e /\ bytes_ok (enc_writer e)
    /\ unpack_fields (bit_decoder_new (enc_writer e)) [3; 18; 1] = Some ([5; 0x12345; 1], d)
    /\ dec_rep d 0 p /\ p < 8.
Proof.
  apply (bit_fields_roundtrip [(5, 3); (0x12345, 18); (1, 1)]). repeat constructor; by vm_compute.
Defined.
