(* ===== verification/SecS3g.v ===== *)
(** * SNOW 3G

    [lib/security/s3g.cpp] and [include/srsran/security/s3g.h]: the key stream
    generator behind NEA1 and NIA1 and the MAC function [s3g_f9].  The state is
    the pair of arrays [lfsr] (16 words) and [fsm] (3 words). *)
From S2P Require Import Prelude.


(** Array reads of the cipher cores; the indices are in range. *)
Definition ix (l : list Z) (i : Z) : Z := nth (Z.to_nat i) l 0.

(** Four bytes, most significant first, as a 32-bit word. *)
Definition word32 (a b c d : Z) : Z :=
  Z.lor (Z.lor (Z.lor (Z.shiftl a 24) (Z.shiftl b 16)) (Z.shiftl c 8)) d.

Definition byte_at (w sh : Z) : Z := Z.land (Z.shiftr w sh) 0xff.

Module S3g.

Definition SQ : list Z :=
  [ 0x25; 0x24; 0x73; 0x67; 0xd7; 0xae; 0x5c; 0x30; 0xa4; 0xee; 0x6e; 0xcb; 0x7d; 0xb5; 0x82; 0xdb;
    0xe4; 0x8e; 0x48; 0x49; 0x4f; 0x5d; 0x6a; 0x78; 0x70; 0x88; 0xe8; 0x5f; 0x5e; 0x84; 0x65; 0xe2;
    0xd8; 0xe9; 0xcc; 0xed; 0x40; 0x2f; 0x11; 0x28; 0x57; 0xd2; 0xac; 0xe3; 0x4a; 0x15; 0x1b; 0xb9;
    0xb2; 0x80; 0x85; 0xa6; 0x2e; 0x02; 0x47; 0x29; 0x07; 0x4b; 0x0e; 0xc1; 0x51; 0xaa; 0x89; 0xd4;
    0xca; 0x01; 0x46; 0xb3; 0xef; 0xdd; 0x44; 0x7b; 0xc2; 0x7f; 0xbe; 0xc3; 0x9f; 0x20; 0x4c; 0x64;
    0x83; 0xa2; 0x68; 0x42; 0x13; 0xb4; 0x41; 0xcd; 0xba; 0xc6; 0xbb; 0x6d; 0x4d; 0x71; 0x21; 0xf4;
    0x8d; 0xb0; 0xe5; 0x93; 0xfe; 0x8f; 0xe6; 0xcf; 0x43; 0x45; 0x31; 0x22; 0x37; 0x36; 0x96; 0xfa;
    0xbc; 0x0f; 0x08; 0x52; 0x1d; 0x55; 0x1a; 0xc5; 0x4e; 0x23; 0x69; 0x7a; 0x92; 0xff; 0x5b; 0x5a;
    0xeb; 0x9a; 0x1c; 0xa9; 0xd1; 0x7e; 0x0d; 0xfc; 0x50; 0x8a; 0xb6; 0x62; 0xf5; 0x0a; 0xf8; 0xdc;
    0x03; 0x3c; 0x0c; 0x39; 0xf1; 0xb8; 0xf3; 0x3d; 0xf2; 0xd5; 0x97; 0x66; 0x81; 0x32; 0xa0; 0x00;
    0x06; 0xce; 0xf6; 0xea; 0xb7; 0x17; 0xf7; 0x8c; 0x79; 0xd6; 0xa7; 0xbf; 0x8b; 0x3f; 0x1f; 0x53;
    0x63; 0x75; 0x35; 0x2c; 0x60; 0xfd; 0x27; 0xd3; 0x94; 0xa5; 0x7c; 0xa1; 0x05; 0x58; 0x2d; 0xbd;
    0xd9; 0xc7; 0xaf; 0x6b; 0x54; 0x0b; 0xe0; 0x38; 0x04; 0xc8; 0x9d; 0xe7; 0x14; 0xb1; 0x87; 0x9c;
    0xdf; 0x6f; 0xf9; 0xda; 0x2a; 0xc4; 0x59; 0x16; 0x74; 0x91; 0xab; 0x26; 0x61; 0x76; 0x34; 0x2b;
    0xad; 0x99; 0xfb; 0x72; 0xec; 0x33; 0x12; 0xde; 0x98; 0x3b; 0xc0; 0x9b; 0x3e; 0x18; 0x10; 0x3a;
    0x56; 0xe1; 0x77; 0xc9; 0x1e; 0x9e; 0x95; 0xa3; 0x90; 0x19; 0xa8; 0x6c; 0x09; 0xd0; 0xf0; 0x86 ].

Definition S : list Z :=
  [ 99; 124; 119; 123; 242; 107; 111; 197; 48; 1; 103; 43; 254; 215; 171; 118;
    202; 130; 201; 125; 250; 89; 71; 240; 173; 212; 162; 175; 156; 164; 114; 192;
    183; 253; 147; 38; 54; 63; 247; 204; 52; 165; 229; 241; 113; 216; 49; 21;
    4; 199; 35; 195; 24; 150; 5; 154; 7; 18; 128; 226; 235; 39; 178; 117;
    9; 131; 44; 26; 27; 110; 90; 160; 82; 59; 214; 179; 41; 227; 47; 132;
    83; 209; 0; 237; 32; 252; 177; 91; 106; 203; 190; 57; 74; 76; 88; 207;
    208; 239; 170; 251; 67; 77; 51; 133; 69; 249; 2; 127; 80; 60; 159; 168;
    81; 163; 64; 143; 146; 157; 56; 245; 188; 182; 218; 33; 16; 255; 243; 210;
    205; 12; 19; 236; 95; 151; 68; 23; 196; 167; 126; 61; 100; 93; 25; 115;
    96; 129; 79; 220; 34; 42; 144; 136; 70; 238; 184; 20; 222; 94; 11; 219;
    224; 50; 58; 10; 73; 6; 36; 92; 194; 211; 172; 98; 145; 149; 228; 121;
    231; 200; 55; 109; 141; 213; 78; 169; 108; 86; 244; 234; 101; 122; 174; 8;
    186; 120; 37; 46; 28; 166; 180; 198; 232; 221; 116; 31; 75; 189; 139; 138;
    112; 62; 181; 102; 72; 3; 246; 14; 97; 53; 87; 185; 134; 193; 29; 158;
    225; 248; 152; 17; 105; 217; 142; 148; 155; 30; 135; 233; 206; 85; 40; 223;
    140; 161; 137; 13; 191; 230; 66; 104; 65; 153; 45; 15; 176; 84; 187; 22 ].

Record S3G_STATE := mkS3g { lfsr : list Z; fsm : list Z }.

Definition s3g_mul_x (v c : Z) : Z :=
  if negb (Z.land v 0x80 =? 0) then u8 (Z.lxor (Z.shiftl v 1) c) else u8 (Z.shiftl v 1).

Fixpoint s3g_mul_x_pow (v : Z) (i : nat) (c : Z) : Z :=
  match i with
  | O => v
  | Datatypes.S i => s3g_mul_x (s3g_mul_x_pow v i c) c
  end.

Definition s3g_mul_alpha (c : Z) : Z :=
  word32 (s3g_mul_x_pow c 23 0xa9) (s3g_mul_x_pow c 245 0xa9) (s3g_mul_x_pow c 48 0xa9) (s3g_mul_x_pow c 239 0xa9).
Definition s3g_div_alpha (c : Z) : Z :=
  word32 (s3g_mul_x_pow c 16 0xa9) (s3g_mul_x_pow c 39 0xa9) (s3g_mul_x_pow c 6 0xa9) (s3g_mul_x_pow c 64 0xa9).

Definition s3g_s1 (w : Z) : Z :=
  let srw0 := ix S (byte_at w 24) in
  let srw1 := ix S (byte_at w 16) in
  let srw2 := ix S (byte_at w 8) in
  let srw3 := ix S (byte_at w 0) in
  let m x := s3g_mul_x x 0x1b in
  let r0 := Z.lxor (Z.lxor (Z.lxor (m srw0) srw1) srw2) (Z.lxor (m srw3) srw3) in
  let r1 := Z.lxor (Z.lxor (Z.lxor (Z.lxor (m srw0) srw0) (m srw1)) srw2) srw3 in
  let r2 := Z.lxor (Z.lxor (Z.lxor srw0 (Z.lxor (m srw1) srw1)) (m srw2)) srw3 in
  let r3 := Z.lxor (Z.lxor (Z.lxor srw0 srw1) (Z.lxor (m srw2) srw2)) (m srw3) in
  word32 r0 r1 r2 r3.

Definition s3g_s2 (w : Z) : Z :=
  let sqw0 := ix SQ (byte_at w 24) in
  let sqw1 := ix SQ (byte_at w 16) in
  let sqw2 := ix SQ (byte_at w 8) in
  let sqw3 := ix SQ (byte_at w 0) in
  let m x := s3g_mul_x x 0x69 in
  let r0 := Z.lxor (Z.lxor (Z.lxor (m sqw0) sqw1) sqw2) (Z.lxor (m sqw3) sqw3) in
  let r1 := Z.lxor (Z.lxor (Z.lxor (Z.lxor (m sqw0) sqw0) (m sqw1)) sqw2) sqw3 in
  let r2 := Z.lxor (Z.lxor (Z.lxor sqw0 (Z.lxor (m sqw1) sqw1)) (m sqw2)) sqw3 in
  let r3 := Z.lxor (Z.lxor (Z.lxor sqw0 sqw1) (Z.lxor (m sqw2) sqw2)) (m sqw3) in
  word32 r0 r1 r2 r3.

Definition s3g_clock_lfsr (st : S3G_STATE) (f : Z) : S3G_STATE :=
  let l := lfsr st in
  let v := Z.lxor (Z.lxor (Z.lxor (Z.lxor (Z.lxor
             (Z.land (Z.shiftl (ix l 0) 8) 0xffffff00)
             (s3g_mul_alpha (byte_at (ix l 0) 24)))
             (ix l 2))
             (Z.land (Z.shiftr (ix l 11) 8) 0x00ffffff))
             (s3g_div_alpha (Z.land (ix l 11) 0xff)))
             f in
  mkS3g (tl l ++ [u32 v]) (fsm st).

Definition s3g_clock_fsm (st : S3G_STATE) : Z * S3G_STATE :=
  let l := lfsr st in let r := fsm st in
  let f := Z.lxor (Z.land (ix l 15 + ix r 0) 0xffffffff) (ix r 1) in
  let r' := Z.land (ix r 1 + Z.lxor (ix r 2) (ix l 5)) 0xffffffff in
  (f, mkS3g l [r'; s3g_s1 (ix r 0); s3g_s2 (ix r 1)]).

Fixpoint s3g_init_rounds (n : nat) (st : S3G_STATE) : S3G_STATE :=
  match n with
  | O => st
  | Datatypes.S n => let '(f, st) := s3g_clock_fsm st in s3g_init_rounds n (s3g_clock_lfsr st f)
  end.

Definition s3g_initialize (k iv : list Z) : S3G_STATE :=
  let nk i := Z.lxor (ix k i) 0xffffffff in
  s3g_init_rounds 32 (mkS3g
    [ nk 0; nk 1; nk 2; nk 3; ix k 0; ix k 1; ix k 2; ix k 3;
      nk 0; Z.lxor (nk 1) (ix iv 3); Z.lxor (nk 2) (ix iv 2); nk 3;
      Z.lxor (ix k 0) (ix iv 1); ix k 1; ix k 2; Z.lxor (ix k 3) (ix iv 0) ]
    [ 0; 0; 0 ]).

Fixpoint s3g_keystream_loop (n : nat) (st : S3G_STATE) : list Z :=
  match n with
  | O => []
  | Datatypes.S n =>
      let '(f, st) := s3g_clock_fsm st in
      Z.lxor f (ix (lfsr st) 0) :: s3g_keystream_loop n (s3g_clock_lfsr st 0)
  end.

Definition s3g_generate_keystream (st : S3G_STATE) (n : Z) : list Z :=
  let '(_, st) := s3g_clock_fsm st in
  s3g_keystream_loop (Z.to_nat n) (s3g_clock_lfsr st 0).

(** ** The integrity function f9 *)
Definition s3g_MUL64x (V c : Z) : Z :=
  if negb (Z.land V 0x8000000000000000 =? 0) then u64 (Z.lxor (Z.shiftl V 1) c) else u64 (Z.shiftl V 1).

Fixpoint s3g_MUL64xPOW (V : Z) (i : nat) (c : Z) : Z :=
  match i with
  | O => V
  | Datatypes.S i => s3g_MUL64x (s3g_MUL64xPOW V i c) c
  end.

Fixpoint s3g_MUL64_loop (n : nat) (i : nat) (V P c result : Z) : Z :=
  match n with
  | O => result
  | Datatypes.S n =>
      let result := if negb (Z.land (Z.shiftr P (Z.of_nat i)) 1 =? 0)
                    then Z.lxor result (s3g_MUL64xPOW V i c) else result in
      s3g_MUL64_loop n (i + 1) V P c result
  end.
Definition s3g_MUL64 (V P c : Z) : Z := s3g_MUL64_loop 64 0 V P c 0.

Definition mask8bit (n : Z) : Z := u8 (Z.lxor 0xff (Z.shiftl 1 (8 - n) - 1)).

(** Eight bytes from position [i], most significant first. *)
Definition load64 (data : bytes) (i : Z) : Z :=
  let d k := ix data (8 * i + k) in
  Z.lor (Z.lor (Z.lor (Z.lor (Z.lor (Z.lor (Z.lor (Z.shiftl (d 0) 56) (Z.shiftl (d 1) 48)) (Z.shiftl (d 2) 40))
    (Z.shiftl (d 3) 32)) (Z.shiftl (d 4) 24)) (Z.shiftl (d 5) 16)) (Z.shiftl (d 6) 8)) (d 7).

Fixpoint s3g_f9_blocks (n : nat) (i : Z) (data : bytes) (P c EVAL : Z) : Z :=
  match n with
  | O => EVAL
  | Datatypes.S n =>
      s3g_f9_blocks n (i + 1) data P c (s3g_MUL64 (Z.lxor EVAL (load64 data i)) P c)
  end.

(** The [while (rem_bits > 7)] loop; at most 8 iterations. *)
Fixpoint s3g_f9_tail (n : nat) (data : bytes) (D i rem_bits M_D_2 : Z) : Z * Z * Z :=
  match n with
  | O => (i, rem_bits, M_D_2)
  | Datatypes.S n =>
      if rem_bits >? 7 then
        s3g_f9_tail n data D (i + 1) (rem_bits - 8)
          (Z.lor M_D_2 (Z.shiftl (ix data (8 * (D - 2) + i)) (8 * (7 - i))))
      else (i, rem_bits, M_D_2)
  end.

(** For a message of at least one bit. *)
Definition s3g_f9 (key : bytes) (count fresh dir : Z) (data : bytes) (length : Z) : bytes :=
  let kw i := Z.lxor (Z.lxor (Z.lxor (Z.shiftl (ix key (4 * i)) 24) (Z.shiftl (ix key (4 * i + 1)) 16))
                (Z.shiftl (ix key (4 * i + 2)) 8)) (ix key (4 * i + 3)) in
  let K := [kw 3; kw 2; kw 1; kw 0] in
  let IV := [Z.lxor fresh (u32 (Z.shiftl dir 15)); Z.lxor count (u32 (Z.shiftl dir 31)); fresh; count] in
  let z := s3g_generate_keystream (s3g_initialize K IV) 5 in
  let P := Z.lor (Z.shiftl (ix z 0) 32) (ix z 1) in
  let Q := Z.lor (Z.shiftl (ix z 2) 32) (ix z 3) in
  let D := if length mod 64 =? 0 then u32 (Z.shiftr length 6 + 1) else u32 (Z.shiftr length 6 + 2) in
  let c := 0x1b in
  let EVAL := s3g_f9_blocks (Z.to_nat (D - 2)) 0 data P c 0 in
  let rem_bits := if length mod 64 =? 0 then 64 else length mod 64 in
  let '(i, rem_bits, M_D_2) := s3g_f9_tail 8 data D 0 rem_bits 0 in
  let M_D_2 := if rem_bits >? 0
               then Z.lor M_D_2 (Z.shiftl (Z.land (ix data (8 * (D - 2) + i)) (mask8bit rem_bits)) (8 * (7 - i)))
               else M_D_2 in
  let EVAL := s3g_MUL64 (Z.lxor EVAL M_D_2) P c in
  let EVAL := Z.lxor EVAL length in
  let EVAL := s3g_MUL64 EVAL Q c in
  let mac i := Z.land (Z.lxor (Z.shiftr EVAL (56 - i * 8)) (Z.shiftr (ix z 4) (24 - i * 8))) 0xff in
  [mac 0; mac 1; mac 2; mac 3].

(** ** Width of the registers *)
Lemma length_s3g_keystream_loop n st : length (s3g_keystream_loop n st) = n.
Proof.
  revert st. induction n as [|n IH]; intros st; [done|].
  cbn [s3g_keystream_loop]. destruct (s3g_clock_fsm st) as [f st']. cbn. by rewrite IH.
Qed.

Lemma length_s3g_generate_keystream st n : 0 <= n -> Z.of_nat (length (s3g_generate_keystream st n)) = n.
Proof.
  intros Hn. unfold s3g_generate_keystream. destruct (s3g_clock_fsm st) as [f st'].
  rewrite length_s3g_keystream_loop. lia.
Qed.

End S3g.
