(* ===== verification/SecZuc.v ===== *)
(** * ZUC

    [lib/security/zuc.cpp] and [include/srsran/security/zuc.h]: the key stream
    generator behind NEA3 and NIA3.  The sixteen fields [LFSR_S0] to [LFSR_S15]
    are the list [LFSR]. *)
From S2P Require Import Prelude SecS3g.

Module Zuc.

Definition S0 : list Z :=
  [ 0x3e; 0x72; 0x5b; 0x47; 0xca; 0xe0; 0x00; 0x33; 0x04; 0xd1; 0x54; 0x98; 0x09; 0xb9; 0x6d; 0xcb;
    0x7b; 0x1b; 0xf9; 0x32; 0xaf; 0x9d; 0x6a; 0xa5; 0xb8; 0x2d; 0xfc; 0x1d; 0x08; 0x53; 0x03; 0x90;
    0x4d; 0x4e; 0x84; 0x99; 0xe4; 0xce; 0xd9; 0x91; 0xdd; 0xb6; 0x85; 0x48; 0x8b; 0x29; 0x6e; 0xac;
    0xcd; 0xc1; 0xf8; 0x1e; 0x73; 0x43; 0x69; 0xc6; 0xb5; 0xbd; 0xfd; 0x39; 0x63; 0x20; 0xd4; 0x38;
    0x76; 0x7d; 0xb2; 0xa7; 0xcf; 0xed; 0x57; 0xc5; 0xf3; 0x2c; 0xbb; 0x14; 0x21; 0x06; 0x55; 0x9b;
    0xe3; 0xef; 0x5e; 0x31; 0x4f; 0x7f; 0x5a; 0xa4; 0x0d; 0x82; 0x51; 0x49; 0x5f; 0xba; 0x58; 0x1c;
    0x4a; 0x16; 0xd5; 0x17; 0xa8; 0x92; 0x24; 0x1f; 0x8c; 0xff; 0xd8; 0xae; 0x2e; 0x01; 0xd3; 0xad;
    0x3b; 0x4b; 0xda; 0x46; 0xeb; 0xc9; 0xde; 0x9a; 0x8f; 0x87; 0xd7; 0x3a; 0x80; 0x6f; 0x2f; 0xc8;
    0xb1; 0xb4; 0x37; 0xf7; 0x0a; 0x22; 0x13; 0x28; 0x7c; 0xcc; 0x3c; 0x89; 0xc7; 0xc3; 0x96; 0x56;
    0x07; 0xbf; 0x7e; 0xf0; 0x0b; 0x2b; 0x97; 0x52; 0x35; 0x41; 0x79; 0x61; 0xa6; 0x4c; 0x10; 0xfe;
    0xbc; 0x26; 0x95; 0x88; 0x8a; 0xb0; 0xa3; 0xfb; 0xc0; 0x18; 0x94; 0xf2; 0xe1; 0xe5; 0xe9; 0x5d;
    0xd0; 0xdc; 0x11; 0x66; 0x64; 0x5c; 0xec; 0x59; 0x42; 0x75; 0x12; 0xf5; 0x74; 0x9c; 0xaa; 0x23;
    0x0e; 0x86; 0xab; 0xbe; 0x2a; 0x02; 0xe7; 0x67; 0xe6; 0x44; 0xa2; 0x6c; 0xc2; 0x93; 0x9f; 0xf1;
    0xf6; 0xfa; 0x36; 0xd2; 0x50; 0x68; 0x9e; 0x62; 0x71; 0x15; 0x3d; 0xd6; 0x40; 0xc4; 0xe2; 0x0f;
    0x8e; 0x83; 0x77; 0x6b; 0x25; 0x05; 0x3f; 0x0c; 0x30; 0xea; 0x70; 0xb7; 0xa1; 0xe8; 0xa9; 0x65;
    0x8d; 0x27; 0x1a; 0xdb; 0x81; 0xb3; 0xa0; 0xf4; 0x45; 0x7a; 0x19; 0xdf; 0xee; 0x78; 0x34; 0x60 ].

Definition S1 : list Z :=
  [ 0x55; 0xc2; 0x63; 0x71; 0x3b; 0xc8; 0x47; 0x86; 0x9f; 0x3c; 0xda; 0x5b; 0x29; 0xaa; 0xfd; 0x77;
    0x8c; 0xc5; 0x94; 0x0c; 0xa6; 0x1a; 0x13; 0x00; 0xe3; 0xa8; 0x16; 0x72; 0x40; 0xf9; 0xf8; 0x42;
    0x44; 0x26; 0x68; 0x96; 0x81; 0xd9; 0x45; 0x3e; 0x10; 0x76; 0xc6; 0xa7; 0x8b; 0x39; 0x43; 0xe1;
    0x3a; 0xb5; 0x56; 0x2a; 0xc0; 0x6d; 0xb3; 0x05; 0x22; 0x66; 0xbf; 0xdc; 0x0b; 0xfa; 0x62; 0x48;
    0xdd; 0x20; 0x11; 0x06; 0x36; 0xc9; 0xc1; 0xcf; 0xf6; 0x27; 0x52; 0xbb; 0x69; 0xf5; 0xd4; 0x87;
    0x7f; 0x84; 0x4c; 0xd2; 0x9c; 0x57; 0xa4; 0xbc; 0x4f; 0x9a; 0xdf; 0xfe; 0xd6; 0x8d; 0x7a; 0xeb;
    0x2b; 0x53; 0xd8; 0x5c; 0xa1; 0x14; 0x17; 0xfb; 0x23; 0xd5; 0x7d; 0x30; 0x67; 0x73; 0x08; 0x09;
    0xee; 0xb7; 0x70; 0x3f; 0x61; 0xb2; 0x19; 0x8e; 0x4e; 0xe5; 0x4b; 0x93; 0x8f; 0x5d; 0xdb; 0xa9;
    0xad; 0xf1; 0xae; 0x2e; 0xcb; 0x0d; 0xfc; 0xf4; 0x2d; 0x46; 0x6e; 0x1d; 0x97; 0xe8; 0xd1; 0xe9;
    0x4d; 0x37; 0xa5; 0x75; 0x5e; 0x83; 0x9e; 0xab; 0x82; 0x9d; 0xb9; 0x1c; 0xe0; 0xcd; 0x49; 0x89;
    0x01; 0xb6; 0xbd; 0x58; 0x24; 0xa2; 0x5f; 0x38; 0x78; 0x99; 0x15; 0x90; 0x50; 0xb8; 0x95; 0xe4;
    0xd0; 0x91; 0xc7; 0xce; 0xed; 0x0f; 0xb4; 0x6f; 0xa0; 0xcc; 0xf0; 0x02; 0x4a; 0x79; 0xc3; 0xde;
    0xa3; 0xef; 0xea; 0x51; 0xe6; 0x6b; 0x18; 0xec; 0x1b; 0x2c; 0x80; 0xf7; 0x74; 0xe7; 0xff; 0x21;
    0x5a; 0x6a; 0x54; 0x1e; 0x41; 0x31; 0x92; 0x35; 0xc4; 0x33; 0x07; 0x0a; 0xba; 0x7e; 0x0e; 0x34;
    0x88; 0xb1; 0x98; 0x7c; 0xf3; 0x3d; 0x60; 0x6c; 0x7b; 0xca; 0xd3; 0x1f; 0x32; 0x65; 0x04; 0x28;
    0x64; 0xbe; 0x85; 0x9b; 0x2f; 0x59; 0x8a; 0xd7; 0xb0; 0x25; 0xac; 0xaf; 0x12; 0x03; 0xe2; 0xf2 ].

Definition EK_d : list Z :=
  [ 0x44d7; 0x26bc; 0x626b; 0x135e; 0x5789; 0x35e2; 0x7135; 0x09af; 0x4d78; 0x2f13; 0x6bc4; 0x1af1; 0x5e26; 0x3c4d; 0x789a; 0x47ac ].

Record zuc_state_t := mkZuc {
  LFSR : list Z;
  F_R1 : Z; F_R2 : Z;
  BRC_X0 : Z; BRC_X1 : Z; BRC_X2 : Z; BRC_X3 : Z;
}.

Definition MulByPow2 (x k : Z) : Z :=
  Z.land (Z.lor (u32 (Z.shiftl x k)) (Z.shiftr x (31 - k))) 0x7fffffff.
Definition MAKEU31 (a b c : Z) : Z := Z.lor (Z.lor (Z.shiftl a 23) (Z.shiftl b 8)) c.
Definition ROT (a k : Z) : Z := Z.lor (u32 (Z.shiftl a k)) (Z.shiftr a (32 - k)).

Definition AddM (a b : Z) : Z :=
  let c := u32 (a + b) in u32 (Z.land c 0x7fffffff + Z.shiftr c 31).

(** The feedback of both LFSR modes, without the input of the initialisation. *)
Definition LFSR_feedback (l : list Z) : Z :=
  let f := ix l 0 in
  let f := AddM f (MulByPow2 (ix l 0) 8) in
  let f := AddM f (MulByPow2 (ix l 4) 20) in
  let f := AddM f (MulByPow2 (ix l 10) 21) in
  let f := AddM f (MulByPow2 (ix l 13) 17) in
  AddM f (MulByPow2 (ix l 15) 15).

Definition set_LFSR (st : zuc_state_t) (l : list Z) : zuc_state_t :=
  mkZuc l (F_R1 st) (F_R2 st) (BRC_X0 st) (BRC_X1 st) (BRC_X2 st) (BRC_X3 st).

Definition LFSRWithInitialisationMode (st : zuc_state_t) (u : Z) : zuc_state_t :=
  set_LFSR st (tl (LFSR st) ++ [AddM (LFSR_feedback (LFSR st)) u]).
Definition LFSRWithWorkMode (st : zuc_state_t) : zuc_state_t :=
  set_LFSR st (tl (LFSR st) ++ [LFSR_feedback (LFSR st)]).

Definition BitReorganization (st : zuc_state_t) : zuc_state_t :=
  let l := LFSR st in
  mkZuc l (F_R1 st) (F_R2 st)
    (Z.lor (u32 (Z.shiftl (Z.land (ix l 15) 0x7fff8000) 1)) (Z.land (ix l 14) 0xffff))
    (Z.lor (Z.shiftl (Z.land (ix l 11) 0xffff) 16) (Z.shiftr (ix l 9) 15))
    (Z.lor (Z.shiftl (Z.land (ix l 7) 0xffff) 16) (Z.shiftr (ix l 5) 15))
    (Z.lor (Z.shiftl (Z.land (ix l 2) 0xffff) 16) (Z.shiftr (ix l 0) 15)).

Definition L1 (X : Z) : Z :=
  Z.lxor (Z.lxor (Z.lxor (Z.lxor X (ROT X 2)) (ROT X 10)) (ROT X 18)) (ROT X 24).
Definition L2 (X : Z) : Z :=
  Z.lxor (Z.lxor (Z.lxor (Z.lxor X (ROT X 8)) (ROT X 14)) (ROT X 22)) (ROT X 30).

Definition zuc_sbox (u : Z) : Z :=
  word32 (ix S0 (Z.shiftr u 24)) (ix S1 (byte_at u 16)) (ix S0 (byte_at u 8)) (ix S1 (byte_at u 0)).

Definition F (st : zuc_state_t) : Z * zuc_state_t :=
  let W := u32 (Z.lxor (BRC_X0 st) (F_R1 st) + F_R2 st) in
  let W1 := u32 (F_R1 st + BRC_X1 st) in
  let W2 := Z.lxor (F_R2 st) (BRC_X2 st) in
  let u := L1 (Z.lor (u32 (Z.shiftl W1 16)) (Z.shiftr W2 16)) in
  let v := L2 (Z.lor (u32 (Z.shiftl W2 16)) (Z.shiftr W1 16)) in
  (W, mkZuc (LFSR st) (zuc_sbox u) (zuc_sbox v) (BRC_X0 st) (BRC_X1 st) (BRC_X2 st) (BRC_X3 st)).

Fixpoint zuc_init_rounds (nCount : nat) (st : zuc_state_t) : zuc_state_t :=
  match nCount with
  | O => st
  | S n =>
      let '(w, st) := F (BitReorganization st) in
      zuc_init_rounds n (LFSRWithInitialisationMode st (Z.shiftr w 1))
  end.

Definition zuc_initialize (k iv : bytes) : zuc_state_t :=
  let s i := MAKEU31 (ix k i) (ix EK_d i) (ix iv i) in
  zuc_init_rounds 32
    (mkZuc [s 0; s 1; s 2; s 3; s 4; s 5; s 6; s 7; s 8; s 9; s 10; s 11; s 12; s 13; s 14; s 15] 0 0 0 0 0 0).

Fixpoint zuc_keystream_loop (n : nat) (st : zuc_state_t) : list Z :=
  match n with
  | O => []
  | S n =>
      let '(w, st) := F (BitReorganization st) in
      Z.lxor w (BRC_X3 st) :: zuc_keystream_loop n (LFSRWithWorkMode st)
  end.

Definition zuc_generate_keystream (st : zuc_state_t) (key_stream_len : Z) : list Z :=
  let '(_, st) := F (BitReorganization st) in
  zuc_keystream_loop (Z.to_nat key_stream_len) (LFSRWithWorkMode st).

Lemma length_zuc_keystream_loop n st : length (zuc_keystream_loop n st) = n.
Proof.
  revert st. induction n as [|n IH]; intros st; [done|].
  cbn [zuc_keystream_loop]. destruct (F _) as [w st']. cbn. by rewrite IH.
Qed.

Lemma length_zuc_generate_keystream st n : 0 <= n -> Z.of_nat (length (zuc_generate_keystream st n)) = n.
Proof.
  intros Hn. unfold zuc_generate_keystream. destruct (F _) as [w st'].
  rewrite length_zuc_keystream_loop. lia.
Qed.

End Zuc.
