(* ===== verification/Security.v ===== *)
(** * Ciphering and integrity protection

    [include/srsran/security/security.h], [ciphering.h] and [integrity.h]: the
    algorithms NEA1 to NEA3 and NIA1 to NIA3 over a message of [msg_len] bits and
    their overloads for whole messages.  AES belongs to a library outside the
    repository: the two calls the code makes on it are a parameter, the class
    [aes_engine], and what the code relies on is the class [aes_laws].

    [None] is a call whose loops read past the end of the message (an empty
    message). *)
From S2P Require Import Prelude SecS3g SecZuc.

Inductive ciphering_algorithm := nea0 | nea1 | nea2 | nea3.
Inductive integrity_algorithm := nia0 | nia1 | nia2 | nia3.
Inductive security_direction := sec_uplink | sec_downlink.
Inductive sec_domain := sec_rrc | sec_up.
#[export] Instance integrity_algorithm_eq_dec : EqDecision integrity_algorithm.
Proof. solve_decision. Defined.
#[export] Instance sec_domain_eq_dec : EqDecision sec_domain.
Proof. solve_decision. Defined.

Definition dir_to_number (d : security_direction) : Z :=
  match d with sec_uplink => 0 | sec_downlink => 1 end.

Definition sec_mac_len : Z := 4.

Record sec_128_as_config := Sec128 {
  sec_domain_of : sec_domain;
  k_128_int : bytes;
  k_128_enc : bytes;
  integ_algo : integrity_algorithm;
  cipher_algo : ciphering_algorithm;
}.

(** ** The AES library

    The state of the counter mode: the offset in the current block of key stream,
    the counter block and the block of key stream; [aes_crypt_ctr] processes one
    byte. *)
Record ctr_state := Ctr { nc_off : Z; nonce_counter : bytes; stream_block : bytes }.

Class aes_engine := {
  aes_crypt_ecb : bytes -> bytes -> bytes;
  aes_crypt_ctr : bytes -> ctr_state -> Z -> ctr_state * Z;
}.

(** Counter mode adds a key stream that does not depend on the message; the block
    cipher maps 16 bytes to 16 bytes. *)
Class aes_laws (A : aes_engine) := {
  ctr_step : bytes -> ctr_state -> ctr_state;
  ctr_byte : bytes -> ctr_state -> Z;
  ctr_byte_u8 k st : is_u8 (ctr_byte k st);
  aes_ctr_xor k st b : aes_crypt_ctr k st b = (ctr_step k st, Z.lxor b (ctr_byte k st));
  aes_ecb_bytes k b : bytes_ok (aes_crypt_ecb k b);
}.

(** ** Helpers *)
Definition zero_tailing_bits (tail_byte length_bits : Z) : Z :=
  let bits := Z.land (8 - Z.land length_bits 0x07) 0x07 in
  Z.land tail_byte (u8 (Z.shiftl 0xff bits)).

(** [zero_tailing_bits(msg_out.back(), msg_len)]. *)
Fixpoint zero_tail (msg_out : bytes) (msg_len : Z) : bytes :=
  match msg_out with
  | [] => []
  | [b] => [zero_tailing_bits b msg_len]
  | b :: r => b :: zero_tail r msg_len
  end.

(** Byte [i] of the key stream: the words in order, most significant byte first. *)
Definition ks_byte (ks : list Z) (i : Z) : Z := byte_at (ix ks (i / 4)) ((3 - i mod 4) * 8).

(** Output except the last block: four bytes per word of key stream. *)
Fixpoint nea_full_blocks (n : nat) (i : Z) (ks : list Z) (msg : bytes) : bytes * bytes :=
  match n, msg with
  | S n, a :: b :: c :: d :: msg =>
      let '(out, rest) := nea_full_blocks n (i + 1) ks msg in
      (Z.lxor a (byte_at (ix ks i) 24) :: Z.lxor b (byte_at (ix ks i) 16) ::
       Z.lxor c (byte_at (ix ks i) 8) :: Z.lxor d (byte_at (ix ks i) 0) :: out, rest)
  | _, _ => ([], msg)
  end.

(** The last bytes, from position [i] of the message. *)
Fixpoint nea_last_bytes (i : Z) (ks : list Z) (msg : bytes) : bytes :=
  match msg with
  | [] => []
  | m :: msg => Z.lxor m (ks_byte ks i) :: nea_last_bytes (i + 1) ks msg
  end.

Definition nea_output (ks : list Z) (n8 n32 : Z) (msg : bytes) : bytes :=
  let '(out, rest) := nea_full_blocks (Z.to_nat (n32 - 1)) 0 ks msg in
  out ++ nea_last_bytes ((n32 - 1) * 4) ks (take (Z.to_nat (n8 - (n32 - 1) * 4)) rest).

Definition msg_block_8 (msg_len : Z) : Z := u32 (msg_len + 7) / 8.
Definition msg_block_32 (msg_len : Z) : Z := u32 (msg_len + 31) / 32.

(** ** Ciphering *)
Definition security_nea1_bits (key : bytes) (count bearer : Z) (direction : security_direction) (msg : bytes)
    (msg_len : Z) : option bytes :=
  if msg_block_8 msg_len <=? blen msg then
    if msg_len =? 0 then None
    else
    let kw i := word32 (ix key (4 * (3 - i))) (ix key (4 * (3 - i) + 1)) (ix key (4 * (3 - i) + 2))
                  (ix key (4 * (3 - i) + 3)) in
    let k := [kw 0; kw 1; kw 2; kw 3] in
    let iv2 := Z.lor (Z.shiftl (Z.land bearer 0x1f) 27) (Z.shiftl (Z.land (dir_to_number direction) 0x01) 26) in
    let ks := S3g.s3g_generate_keystream (S3g.s3g_initialize k [iv2; count; iv2; count]) (msg_block_32 msg_len) in
    Some (zero_tail (nea_output ks (msg_block_8 msg_len) (msg_block_32 msg_len) msg) msg_len)
  else Some [].

Definition security_nea3_bits (key : bytes) (count bearer : Z) (direction : security_direction) (msg : bytes)
    (msg_len : Z) : option bytes :=
  if msg_block_8 msg_len <=? blen msg then
    if msg_len =? 0 then None
    else
    let iv4 := u8 (Z.lor (Z.shiftl (Z.land bearer 0x1f) 3) (Z.shiftl (Z.land (dir_to_number direction) 0x01) 2)) in
    let iv := [byte_at count 24; byte_at count 16; byte_at count 8; byte_at count 0; iv4; 0; 0; 0] in
    let ks := Zuc.zuc_generate_keystream (Zuc.zuc_initialize key (iv ++ iv)) (msg_block_32 msg_len) in
    Some (zero_tail (nea_output ks (msg_block_8 msg_len) (msg_block_32 msg_len) msg) msg_len)
  else Some [].

Section Aes.
Context {A : aes_engine}.

Fixpoint nea2_loop (key : bytes) (st : ctr_state) (msg : bytes) : bytes :=
  match msg with
  | [] => []
  | m :: msg => let '(st, out) := aes_crypt_ctr key st m in out :: nea2_loop key st msg
  end.

Definition security_nea2_bits (key : bytes) (count bearer : Z) (direction : security_direction) (msg : bytes)
    (msg_len : Z) : option bytes :=
  if msg_block_8 msg_len <=? blen msg then
    if msg_len =? 0 then None
    else
    let iv4 := u8 (Z.lor (Z.shiftl (Z.land bearer 0x1f) 3) (Z.shiftl (Z.land (dir_to_number direction) 0x01) 2)) in
    let nonce_cnt := [byte_at count 24; byte_at count 16; byte_at count 8; byte_at count 0; iv4] ++ replicate 11 0 in
    Some (zero_tail (nea2_loop key (Ctr 0 nonce_cnt (replicate 16 0)) (take (Z.to_nat (msg_block_8 msg_len)) msg))
            msg_len)
  else Some [].

(** The overloads without a length in bits. *)
Definition bit_length (msg : bytes) : Z := u32 (blen msg * 8).
Definition security_nea1 key count bearer direction msg :=
  security_nea1_bits key count bearer direction msg (bit_length msg).
Definition security_nea2 key count bearer direction msg :=
  security_nea2_bits key count bearer direction msg (bit_length msg).
Definition security_nea3 key count bearer direction msg :=
  security_nea3_bits key count bearer direction msg (bit_length msg).

(** ** Integrity protection: the MAC of a message *)
Definition mac_zero : bytes := [0; 0; 0; 0].

Definition security_nia1_bits (key : bytes) (count bearer : Z) (direction : security_direction) (msg : bytes)
    (msg_len : Z) : option bytes :=
  if msg_block_8 msg_len <=? blen msg then
    if msg_len =? 0 then None
    else Some (S3g.s3g_f9 key count (u32 (Z.shiftl bearer 27)) (dir_to_number direction) msg msg_len)
  else Some mac_zero.

(** Doubling of a subkey. *)
Definition nia2_subkey (L : bytes) : bytes :=
  let shifted := map (fun i => u8 (Z.lor (Z.shiftl (ix L i) 1) (Z.land (Z.shiftr (ix L (i + 1)) 7) 0x01)))
                   [0; 1; 2; 3; 4; 5; 6; 7; 8; 9; 10; 11; 12; 13; 14] in
  let last := u8 (Z.shiftl (ix L 15) 1) in
  shifted ++ [if negb (Z.land (ix L 0) 0x80 =? 0) then Z.lxor last 0x87 else last].

Fixpoint xor_bytes (a b : bytes) : bytes :=
  match a, b with
  | x :: a, y :: b => Z.lxor x y :: xor_bytes a b
  | _, _ => []
  end.

Fixpoint nia2_blocks (n : nat) (key : bytes) (i : Z) (M T : bytes) : bytes :=
  match n with
  | O => T
  | S n => nia2_blocks n key (i + 1) M (aes_crypt_ecb key (xor_bytes T (slice (i * 16) 16 M)))
  end.

Definition or_at (M : bytes) (i x : Z) : bytes := <[Z.to_nat i := Z.lor (ix M i) x]> M.

(** The float division of the block count is exact for messages below 2^24 bytes. *)
Definition security_nia2_bits (key : bytes) (count bearer : Z) (direction : security_direction) (msg : bytes)
    (msg_len : Z) : option bytes :=
  let msg_len_block_8 := msg_block_8 msg_len in
  if msg_len_block_8 <=? blen msg then
    let L := aes_crypt_ecb key (replicate 16 0) in
    let K1 := nia2_subkey L in
    let K2 := nia2_subkey K1 in
    let M := [byte_at count 24; byte_at count 16; byte_at count 8; byte_at count 0;
              u8 (Z.lor (Z.shiftl bearer 3) (Z.shiftl (dir_to_number direction) 2)); 0; 0; 0]
             ++ take (Z.to_nat msg_len_block_8) msg ++ replicate 16 0 in
    let n := (msg_len_block_8 + 8 + 15) / 16 in
    let T := nia2_blocks (Z.to_nat (n - 1)) key 0 M (replicate 16 0) in
    let i := n - 1 in
    let pad_bits := u32 (msg_len + 64) mod 128 in
    let T :=
      if pad_bits =? 0 then aes_crypt_ecb key (xor_bytes (xor_bytes T K1) (slice (i * 16) 16 M))
      else
        let pad_bits := 128 - pad_bits - 1 in
        let M := or_at M (i * 16 + (15 - pad_bits / 8)) (Z.shiftl 0x1 (pad_bits mod 8)) in
        aes_crypt_ecb key (xor_bytes (xor_bytes T K2) (slice (i * 16) 16 M)) in
    Some [ix T 0; ix T 1; ix T 2; ix T 3]
  else Some mac_zero.

Definition GET_WORD (DATA : list Z) (i : Z) : Z :=
  let ti := i mod 32 in
  if ti =? 0 then ix DATA (i / 32)
  else Z.lor (u32 (Z.shiftl (ix DATA (i / 32)) ti)) (Z.shiftr (ix DATA (i / 32 + 1)) (32 - ti)).

Fixpoint nia3_bits_loop (n : nat) (i : Z) (ks : list Z) (msg : bytes) (T : Z) : Z :=
  match n with
  | O => T
  | S n =>
      let T := if negb (Z.land (hd 0 msg) (Z.shiftl 1 (7 - i mod 8)) =? 0) then Z.lxor T (GET_WORD ks i) else T in
      nia3_bits_loop n (i + 1) ks (if i mod 8 =? 7 then tl msg else msg) T
  end.

Definition security_nia3_bits (key : bytes) (count bearer : Z) (direction : security_direction) (msg : bytes)
    (msg_len : Z) : option bytes :=
  if msg_block_8 msg_len <=? blen msg then
    let d7 := Z.shiftl (Z.land (dir_to_number direction) 1) 7 in
    let iv4 := Z.land (Z.shiftl bearer 3) 0xf8 in
    let iv := [byte_at count 24; byte_at count 16; byte_at count 8; byte_at count 0; iv4; 0; 0; 0;
               Z.lxor (byte_at count 24) d7; byte_at count 16; byte_at count 8; byte_at count 0; iv4; 0;
               Z.lxor 0 d7; 0] in
    let L := (msg_len + 64 + 31) / 32 in
    let ks := Zuc.zuc_generate_keystream (Zuc.zuc_initialize key iv) L in
    let T := nia3_bits_loop (Z.to_nat msg_len) 0 ks msg 0 in
    let T := Z.lxor T (GET_WORD ks msg_len) in
    let mac_tmp := Z.lxor T (ix ks (L - 1)) in
    Some [byte_at mac_tmp 24; byte_at mac_tmp 16; byte_at mac_tmp 8; byte_at mac_tmp 0]
  else Some mac_zero.

Definition security_nia1 key count bearer direction msg :=
  security_nia1_bits key count bearer direction msg (bit_length msg).
Definition security_nia2 key count bearer direction msg :=
  security_nia2_bits key count bearer direction msg (bit_length msg).
Definition security_nia3 key count bearer direction msg :=
  security_nia3_bits key count bearer direction msg (bit_length msg).
End Aes.
