(* ===== verification/SecurityThms.v ===== *)
(** * Ciphering: theorems

    The block-wise loops of the stream ciphers agree with adding the key stream
    byte by byte, hence ciphering a message twice gives it back; the known answers
    of the repository's unit tests
    ([tests/unittests/security/security_test.cpp]). *)
From Stdlib Require Import String Ascii.
From S2P Require Import Prelude SecS3g SecZuc Security.

(** ** Key stream added byte by byte *)
Lemma byte_at_u8 w sh : is_u8 (byte_at w sh).
Proof. unfold is_u8, byte_at. rewrite land_0xff. mlia. Qed.
Lemma ks_byte_u8 ks i : is_u8 (ks_byte ks i).
Proof. apply byte_at_u8. Qed.

Lemma lxor_u8 a b : is_u8 a -> is_u8 b -> is_u8 (Z.lxor a b).
Proof.
  unfold is_u8. intros Ha Hb.
  assert (Z.lxor a b = Z.lxor a b mod 2 ^ 8) as ->; [|pow2s; mlia].
  symmetry. apply Z.bits_inj'. intros i Hi.
  destruct (decide (i < 8)); [by apply Z.mod_pow2_bits_low|].
  rewrite Z.mod_pow2_bits_high, Z.lxor_spec by lia.
  rewrite <- (Z.mod_small a (2 ^ 8)), <- (Z.mod_small b (2 ^ 8)) by lia.
  by rewrite !Z.mod_pow2_bits_high by lia.
Qed.

Lemma lxor_twice a b : Z.lxor (Z.lxor a b) b = a.
Proof. by rewrite Z.lxor_assoc, Z.lxor_nilpotent, Z.lxor_0_r. Qed.

Lemma length_last_bytes i ks msg : length (nea_last_bytes i ks msg) = length msg.
Proof. revert i. induction msg as [|m msg IH]; intros i; cbn; [done|]. by rewrite IH. Qed.

Lemma last_bytes_twice i ks msg : nea_last_bytes i ks (nea_last_bytes i ks msg) = msg.
Proof. revert i. induction msg as [|m msg IH]; intros i; cbn; [done|]. by rewrite lxor_twice, IH. Qed.

Lemma last_bytes_ok i ks msg : bytes_ok msg -> bytes_ok (nea_last_bytes i ks msg).
Proof.
  intros H. revert i. induction H as [|m msg Hm _ IH]; intros i; cbn; constructor; [|apply IH].
  apply lxor_u8, ks_byte_u8. done.
Qed.

Lemma last_bytes_app i ks a b :
  nea_last_bytes i ks (a ++ b) = nea_last_bytes i ks a ++ nea_last_bytes (i + blen a) ks b.
Proof.
  revert i. induction a as [|m a IH]; intros i; cbn [nea_last_bytes app].
  - f_equal. rewrite blen_nil. lia.
  - rewrite IH. f_equal. f_equal. f_equal. rewrite blen_cons. lia.
Qed.

(** The word index and shift of the unrolled loop. *)
Lemma ks_byte_unrolled ks i j : 0 <= j < 4 -> ks_byte ks (4 * i + j) = byte_at (ix ks i) ((3 - j) * 8).
Proof. intros Hj. unfold ks_byte. f_equal; [f_equal|]; mlia. Qed.

Lemma full_blocks_ref n i ks msg : 4 * Z.of_nat n <= blen msg ->
  nea_full_blocks n i ks msg = (nea_last_bytes (4 * i) ks (take (4 * n) msg), drop (4 * n) msg).
Proof.
  revert i msg. induction n as [|n IH]; intros i msg Hn; [done|].
  destruct msg as [|a [|b [|c [|d msg]]]]; rewrite ?blen_cons, ?blen_nil in Hn; [lia..|].
  cbn [nea_full_blocks]. rewrite IH by lia.
  replace (4 * S n)%nat with (S (S (S (S (4 * n))))) by lia. cbn [take drop nea_last_bytes].
  replace (4 * i + 1 + 1 + 1 + 1) with (4 * (i + 1)) by lia.
  replace (4 * i + 1 + 1 + 1) with (4 * i + 3) by lia. replace (4 * i + 1 + 1) with (4 * i + 2) by lia.
  rewrite !ks_byte_unrolled by lia. pose proof (ks_byte_unrolled ks i 0) as H0.
  rewrite Z.add_0_r in H0. by rewrite H0 by lia.
Qed.

Lemma nea_output_ref ks n8 n32 msg :
  1 <= n8 <= blen msg -> n32 = (n8 + 3) / 4 ->
  nea_output ks n8 n32 msg = nea_last_bytes 0 ks (take (Z.to_nat n8) msg).
Proof.
  intros Hn ->. unfold nea_output.
  assert (0 <= (n8 + 3) / 4 - 1 /\ 4 * ((n8 + 3) / 4 - 1) < n8) as [Hm1 Hm2] by mlia.
  set (m := (n8 + 3) / 4 - 1) in *.
  rewrite full_blocks_ref by lia. change (4 * 0) with 0.
  replace (take (Z.to_nat n8) msg) with
    (take (4 * Z.to_nat m) msg ++ take (Z.to_nat (n8 - m * 4)) (drop (4 * Z.to_nat m) msg)).
  - rewrite last_bytes_app. f_equal. f_equal. unfold blen. rewrite length_take. unfold blen in Hn. lia.
  - rewrite take_drop_commute. rewrite <- (take_drop (4 * Z.to_nat m) (take (Z.to_nat n8) msg)).
    rewrite take_take. f_equal; [f_equal; lia|]. f_equal. f_equal. lia.
Qed.

(** ** Ciphering twice *)
Definition cipher_inverse (f : bytes -> option bytes) : Prop :=
  forall msg, 0 < blen msg < 2 ^ 28 -> bytes_ok msg ->
  exists c, f msg = Some c /\ blen c = blen msg /\ bytes_ok c /\ f c = Some msg.

Lemma zero_tail_bytes l n : bytes_ok l -> zero_tail l (8 * n) = l.
Proof.
  induction 1 as [|b l Hb Hl IH]; [done|]. cbn [zero_tail].
  destruct l as [|b' l]; [|by rewrite IH]. f_equal. unfold zero_tailing_bits.
  rewrite !land_0x07. replace ((8 * n) mod 8) with 0 by mlia. change ((8 - 0) mod 8) with 0.
  rewrite Z.shiftl_0_r. change (u8 255) with 255. rewrite land_0xff. apply Z.mod_small, Hb.
Qed.

Lemma bit_length_eq msg : blen msg < 2 ^ 28 -> bit_length msg = 8 * blen msg.
Proof. intros H. pose proof (blen_nonneg msg). unfold bit_length. rewrite u32_id; [lia|]. unfold is_u32. lia. Qed.

Lemma bit_blocks n : 0 < n < 2 ^ 28 ->
  msg_block_8 (8 * n) = n /\ msg_block_32 (8 * n) = (n + 3) / 4.
Proof.
  intros H. unfold msg_block_8, msg_block_32. rewrite !u32_id by (unfold is_u32; lia). split; mlia.
Qed.

(** A cipher that adds the key stream [ks n] to a message of [n] bytes. *)
Lemma stream_cipher_inverse (f : bytes -> Z -> option bytes) (ks : Z -> list Z) :
  (forall msg n, blen msg = n -> 0 < n < 2 ^ 28 ->
     f msg (8 * n) = Some (zero_tail (nea_output (ks n) n ((n + 3) / 4) msg) (8 * n))) ->
  cipher_inverse (fun msg => f msg (bit_length msg)).
Proof.
  intros Hf msg Hl Hok.
  assert (forall m, blen m = blen msg -> bytes_ok m ->
    f m (bit_length m) = Some (nea_last_bytes 0 (ks (blen msg)) m)) as Hone.
  { intros m Hm Hmok. rewrite bit_length_eq, Hm by lia. rewrite (Hf m _ Hm) by lia.
    rewrite nea_output_ref; [|lia|done].
    rewrite take_ge by (unfold blen in Hm |- *; lia).
    by rewrite zero_tail_bytes by (by apply last_bytes_ok). }
  exists (nea_last_bytes 0 (ks (blen msg)) msg).
  assert (blen (nea_last_bytes 0 (ks (blen msg)) msg) = blen msg) as Hlen.
  { unfold blen at 1. by rewrite length_last_bytes. }
  split_and!; [by apply Hone|done|by apply last_bytes_ok|].
  rewrite Hone by (done || by apply last_bytes_ok). by rewrite last_bytes_twice.
Qed.

Lemma nea1_inverse key count bearer d : cipher_inverse (security_nea1 key count bearer d).
Proof.
  eapply (stream_cipher_inverse (security_nea1_bits key count bearer d)). intros msg n Hm Hn.
  unfold security_nea1_bits. destruct (bit_blocks n Hn) as [-> ->]. rewrite Hm, Z.leb_refl.
  destruct (8 * n =? 0) eqn:E; breflect; [lia|]. done.
Qed.

Lemma nea3_inverse key count bearer d : cipher_inverse (security_nea3 key count bearer d).
Proof.
  eapply (stream_cipher_inverse (security_nea3_bits key count bearer d)). intros msg n Hm Hn.
  unfold security_nea3_bits. destruct (bit_blocks n Hn) as [-> ->]. rewrite Hm, Z.leb_refl.
  destruct (8 * n =? 0) eqn:E; breflect; [lia|]. done.
Qed.

Section AesThms.
Context {A : aes_engine} {AL : aes_laws A}.

Lemma nea2_loop_ok key st msg : bytes_ok msg ->
  length (nea2_loop key st msg) = length msg /\ bytes_ok (nea2_loop key st msg)
  /\ nea2_loop key st (nea2_loop key st msg) = msg.
Proof.
  intros H. revert st. induction H as [|m msg Hm Hmsg IH]; intros st; [split_and!; constructor|].
  cbn [nea2_loop]. rewrite aes_ctr_xor. cbn [nea2_loop length]. rewrite aes_ctr_xor, lxor_twice.
  destruct (IH (ctr_step key st)) as (Hl & Hok & Heq). rewrite Hl, Heq. split_and!; [done| |done].
  constructor; [|done]. apply lxor_u8, ctr_byte_u8. done.
Qed.

Lemma nea2_inverse key count bearer d : cipher_inverse (security_nea2 key count bearer d).
Proof.
  intros msg Hl Hok. set (nonce := [byte_at count 24; byte_at count 16; byte_at count 8; byte_at count 0;
    u8 (Z.lor (Z.shiftl (Z.land bearer 0x1f) 3) (Z.shiftl (Z.land (dir_to_number d) 0x01) 2))] ++ replicate 11 0).
  assert (forall m, blen m = blen msg -> bytes_ok m ->
    security_nea2 key count bearer d m = Some (nea2_loop key (Ctr 0 nonce (replicate 16 0)) m)) as Hone.
  { intros m Hm Hmok. unfold security_nea2, security_nea2_bits. rewrite bit_length_eq, Hm by lia.
    destruct (bit_blocks (blen msg)) as [-> _]; [lia|]. rewrite Z.leb_refl.
    destruct (8 * blen msg =? 0) eqn:E; breflect; [lia|].
    rewrite take_ge by (unfold blen in Hm |- *; lia).
    rewrite zero_tail_bytes; [done|]. by apply nea2_loop_ok. }
  destruct (nea2_loop_ok key (Ctr 0 nonce (replicate 16 0)) msg Hok) as (H1 & H2 & H3).
  eexists. split; [by apply Hone|]. unfold blen at 1. rewrite H1. split_and!; [done..|].
  rewrite Hone by (done || unfold blen; by rewrite H1). by rewrite H3.
Qed.

(** A MAC is four bytes, for every message that is not empty. *)
Lemma ix_u8 l i : bytes_ok l -> is_u8 (ix l i).
Proof.
  intros H. unfold ix. destruct (nth_in_or_default (Z.to_nat i) l 0) as [Hin| ->]; [|unfold is_u8; lia].
  apply list_elem_of_In in Hin. by eapply list.Forall_forall in H.
Qed.

Definition is_mac (m : bytes) : Prop := blen m = sec_mac_len /\ bytes_ok m.

Lemma nia1_mac key count bearer d msg : 0 < blen msg < 2 ^ 28 ->
  exists m, security_nia1 key count bearer d msg = Some m /\ is_mac m.
Proof.
  intros Hl. unfold security_nia1, security_nia1_bits. rewrite bit_length_eq by lia.
  destruct (bit_blocks (blen msg) Hl) as [-> _]. rewrite Z.leb_refl.
  destruct (8 * blen msg =? 0) eqn:E; breflect; [lia|]. eexists. split; [done|].
  unfold S3g.s3g_f9. destruct (S3g.s3g_f9_tail _ _ _ _ _ _) as [[i r] M].
  split; [done|]. repeat constructor; rewrite land_0xff; mlia.
Qed.

Lemma nia2_mac key count bearer d msg : 0 < blen msg < 2 ^ 28 ->
  exists m, security_nia2 key count bearer d msg = Some m /\ is_mac m.
Proof.
  intros Hl. unfold security_nia2, security_nia2_bits. rewrite bit_length_eq by lia.
  destruct (bit_blocks (blen msg) Hl) as [-> _]. rewrite Z.leb_refl.
  eexists. split; [done|]. split; [done|].
  repeat constructor; apply ix_u8; destruct (u32 _ mod 128 =? 0); apply aes_ecb_bytes.
Qed.

Lemma nia3_mac key count bearer d msg : 0 < blen msg < 2 ^ 28 ->
  exists m, security_nia3 key count bearer d msg = Some m /\ is_mac m.
Proof.
  intros Hl. unfold security_nia3, security_nia3_bits. rewrite bit_length_eq by lia.
  destruct (bit_blocks (blen msg) Hl) as [-> _]. rewrite Z.leb_refl.
  eexists. split; [done|]. split; [done|]. repeat constructor; apply byte_at_u8.
Qed.
End AesThms.

(** ** Equivalence with byte-wise stream ciphers *)

(** The definition of the ciphers: the message is added to the key stream, byte by
    byte, most significant byte of a word first. *)
Definition keystream_xor (ks : list Z) (msg : bytes) : bytes :=
  imap (fun i b => Z.lxor b (byte_at (ix ks (Z.of_nat i / 4)) ((3 - Z.of_nat i mod 4) * 8))) msg.

Definition nea1_keystream (key : bytes) (count bearer : Z) (d : security_direction) (n : Z) : list Z :=
  let kw i := word32 (ix key (4 * (3 - i))) (ix key (4 * (3 - i) + 1)) (ix key (4 * (3 - i) + 2)) (ix key (4 * (3 - i) + 3)) in
  let iv2 := Z.lor (Z.shiftl (Z.land bearer 0x1f) 27) (Z.shiftl (Z.land (dir_to_number d) 0x01) 26) in
  S3g.s3g_generate_keystream (S3g.s3g_initialize [kw 0; kw 1; kw 2; kw 3] [iv2; count; iv2; count]) n.
Definition nea3_keystream (key : bytes) (count bearer : Z) (d : security_direction) (n : Z) : list Z :=
  let iv4 := u8 (Z.lor (Z.shiftl (Z.land bearer 0x1f) 3) (Z.shiftl (Z.land (dir_to_number d) 0x01) 2)) in
  let iv := [byte_at count 24; byte_at count 16; byte_at count 8; byte_at count 0; iv4; 0; 0; 0] in
  Zuc.zuc_generate_keystream (Zuc.zuc_initialize key (iv ++ iv)) n.

Lemma last_bytes_imap i ks msg :
  nea_last_bytes (Z.of_nat i) ks msg =
  imap (fun j b => Z.lxor b (byte_at (ix ks (Z.of_nat (i + j) / 4)) ((3 - Z.of_nat (i + j) mod 4) * 8))) msg.
Proof.
  revert i. induction msg as [|m msg IH]; intros i; [done|]. cbn [nea_last_bytes imap]. f_equal.
  - unfold ks_byte. by rewrite Nat.add_0_r.
  - replace (Z.of_nat i + 1) with (Z.of_nat (S i)) by lia. rewrite IH. apply imap_ext. intros j b _. cbn.
    by replace (S (i + j)) with (i + S j)%nat by lia.
Qed.

Lemma nea_output_xor ks n msg : blen msg = n -> 0 < n < 2 ^ 28 -> bytes_ok msg ->
  zero_tail (nea_output ks n ((n + 3) / 4) msg) (8 * n) = keystream_xor ks msg.
Proof.
  intros Hm Hn Hok. rewrite nea_output_ref by lia. rewrite take_ge by (unfold blen in Hm; lia).
  rewrite zero_tail_bytes by (by apply last_bytes_ok). apply (last_bytes_imap 0).
Qed.

(** C25: The ciphers NEA1 and NEA3 are byte-wise stream ciphers: for every non-empty message below
    2^28 bytes, the implementation that works on 32-bit words with a separate loop for the last,
    partial word and a mask for the trailing bits returns the message xored byte by byte with the
    key stream of ceil(n/4) words, and applying it to its own result gives the message back. *)
Theorem nea_is_stream_cipher key count bearer d msg : 0 < blen msg < 2 ^ 28 -> bytes_ok msg ->
  security_nea1 key count bearer d msg = Some (keystream_xor (nea1_keystream key count bearer d ((blen msg + 3) / 4)) msg)
  /\ security_nea3 key count bearer d msg = Some (keystream_xor (nea3_keystream key count bearer d ((blen msg + 3) / 4)) msg)
  /\ security_nea1 key count bearer d (keystream_xor (nea1_keystream key count bearer d ((blen msg + 3) / 4)) msg) = Some msg
  /\ security_nea3 key count bearer d (keystream_xor (nea3_keystream key count bearer d ((blen msg + 3) / 4)) msg) = Some msg.
Proof.
  intros Hl Hok.
  assert (security_nea1 key count bearer d msg = Some (keystream_xor (nea1_keystream key count bearer d ((blen msg + 3) / 4)) msg)) as H1.
  { unfold security_nea1, security_nea1_bits. rewrite bit_length_eq by lia. destruct (bit_blocks (blen msg) Hl) as [-> ->].
    rewrite Z.leb_refl. destruct (8 * blen msg =? 0) eqn:E; breflect; [lia|]. f_equal. by apply nea_output_xor. }
  assert (security_nea3 key count bearer d msg = Some (keystream_xor (nea3_keystream key count bearer d ((blen msg + 3) / 4)) msg)) as H3.
  { unfold security_nea3, security_nea3_bits. rewrite bit_length_eq by lia. destruct (bit_blocks (blen msg) Hl) as [-> ->].
    rewrite Z.leb_refl. destruct (8 * blen msg =? 0) eqn:E; breflect; [lia|]. f_equal. by apply nea_output_xor. }
  destruct (nea1_inverse key count bearer d msg Hl Hok) as (c1 & G1 & _ & _ & G1'). rewrite H1 in G1.
  destruct (nea3_inverse key count bearer d msg Hl Hok) as (c3 & G3 & _ & _ & G3'). rewrite H3 in G3.
  injection G1 as <-. injection G3 as <-. done.
Qed.

(** ** Known answers *)
Definition hex_digit (c : ascii) : Z :=
  let n := Z.of_nat (nat_of_ascii c) in
  if n <? 58 then n - 48 else if n <? 71 then n - 55 else n - 87.
Fixpoint hex (s : string) : bytes :=
  match s with
  | String a (String b r) => (hex_digit a * 16 + hex_digit b) :: hex r
  | _ => []
  end.

Example nea1_testset1 :
  security_nea1_bits (hex "D3C5D592327FB11C4035C6680AF8C6D1") 0x398a59b4 0x15 sec_downlink
    (hex "981BA6824C1BFB1AB485472029B71D808CE33E2CC3C0B5FC1F3DE8A6DC66B1F0") 253
  = Some (hex "5D5BFE75EB04F68CE0A12377EA00B37D47C6A0BA06309155086A859C4341B378").
Proof. vm_compute. reflexivity. Qed.
Example nea3_testset1 :
  security_nea3_bits (hex "173d14ba5003731d7a60049470f00a29") 0x66035492 0xf sec_uplink
    (hex "6cf65340735552ab0c9752fa6f9025fe0bd675d9005875b200") 193
  = Some (hex "a6c85fc66afb8533aafc2518dfe784940ee1e4b030238cc800").
Proof. vm_compute. reflexivity. Qed.
Example nia1_testset1 :
  security_nia1_bits (hex "2bd6459f82c5b300952c49104881ff48") 0x38a6f056 0x1f sec_uplink
    (hex "33323462633938613734790000000000") 88
  = Some (hex "731f1165").
Proof. vm_compute. reflexivity. Qed.
Example nia3_testset2 :
  security_nia3_bits (hex "47054125561eb2dda94059da05097850") 0x561eb2dd 0x14 sec_uplink
    (hex "000000000000000000000000") 90
  = Some (hex "6719a088").
Proof. vm_compute. reflexivity. Qed.

(** The message of the known-answer test, whole bytes. *)
Lemma nea_is_stream_cipher_witness :
  let key := hex "173d14ba5003731d7a60049470f00a29" in let msg := hex "6cf65340735552" in
  security_nea3 key 0x66035492 0xf sec_uplink msg = Some (hex "a6c85fc66afb85")
  /\ security_nea3 key 0x66035492 0xf sec_uplink (keystream_xor (nea3_keystream key 0x66035492 0xf sec_uplink 2) msg) = Some msg.
Proof.
  cbv zeta. split; [vm_compute; reflexivity|].
  destruct (nea_is_stream_cipher (hex "173d14ba5003731d7a60049470f00a29") 0x66035492 0xf sec_uplink (hex "6cf65340735552")) as (_ & _ & _ & H).
  - vm_compute. split; reflexivity.
  - repeat constructor; by vm_compute.
  - exact H.
Defined.
