(* ===== verification/PdcpPdu.v ===== *)
(** * PDCP configuration, sequence numbers and PDU headers

    [include/srsran/pdcp/pdcp_config.h], [lib/pdcp/pdcp_sn.h],
    [lib/pdcp/pdcp_pdu.h] and [lib/pdcp/pdcp_entity_tx_rx_base.h], with the
    writer and the reader of the data PDU header of [pdcp_entity_tx.cpp] and
    [pdcp_entity_rx.cpp]. *)
From S2P Require Import Prelude.

Inductive pdcp_rb_type := pdcp_srb | pdcp_drb.
Inductive pdcp_rlc_mode := pdcp_um | pdcp_am.
Inductive pdcp_sn_size := pdcp_size12bits | pdcp_size18bits.
Inductive pdcp_security_direction := pdcp_uplink | pdcp_downlink.
#[export] Instance pdcp_rb_type_eq_dec : EqDecision pdcp_rb_type.
Proof. solve_decision. Defined.
#[export] Instance pdcp_rlc_mode_eq_dec : EqDecision pdcp_rlc_mode.
Proof. solve_decision. Defined.
#[export] Instance pdcp_sn_size_eq_dec : EqDecision pdcp_sn_size.
Proof. solve_decision. Defined.

Definition pdcp_sn_size_to_uint (s : pdcp_sn_size) : Z :=
  match s with pdcp_size12bits => 12 | pdcp_size18bits => 18 end.

(** Timer values: milliseconds, or one of the special values. *)
Inductive pdcp_t_reordering := t_reordering_ms (ms : Z) | t_reordering_infinity.
Inductive pdcp_discard_timer := discard_timer_not_configured | discard_timer_ms (ms : Z) | discard_timer_infinity.

Record pdcp_max_count := MaxCount { max_count_notify : Z; max_count_hard : Z }.

Record pdcp_config_common := PdcpCommon {
  rb_type : pdcp_rb_type;
  rlc_mode : pdcp_rlc_mode;
  sn_size : pdcp_sn_size;
  direction : pdcp_security_direction;
}.

Definition is_srb (c : pdcp_config_common) : bool := bool_decide (rb_type c = pdcp_srb).
Definition is_drb (c : pdcp_config_common) : bool := bool_decide (rb_type c = pdcp_drb).
Definition is_um (c : pdcp_config_common) : bool := bool_decide (rlc_mode c = pdcp_um).
Definition is_am (c : pdcp_config_common) : bool := bool_decide (rlc_mode c = pdcp_am).

Definition pdcp_data_pdu_header_size (s : pdcp_sn_size) : Z :=
  match s with pdcp_size12bits => 2 | pdcp_size18bits => 3 end.
Definition pdcp_window_size (s : pdcp_sn_size) : Z :=
  match s with pdcp_size12bits => 2048 | pdcp_size18bits => 131072 end.

(** ** SN, HFN and COUNT *)
Definition pdcp_compute_sn (count : Z) (s : pdcp_sn_size) : Z :=
  Z.land count (Z.shiftr 0xffffffff (32 - pdcp_sn_size_to_uint s)).
Definition pdcp_compute_hfn (count : Z) (s : pdcp_sn_size) : Z := Z.shiftr count (pdcp_sn_size_to_uint s).
Definition pdcp_compute_count (hfn sn : Z) (s : pdcp_sn_size) : Z :=
  Z.lor (u32 (Z.shiftl hfn (pdcp_sn_size_to_uint s))) sn.
Definition pdcp_sn_cardinality (s : pdcp_sn_size) : Z := Z.shiftl 1 (pdcp_sn_size_to_uint s).

(** The COUNT of a received SN, in the window around [deliv]; the HFN is an
    unsigned 32-bit value. *)
Definition count_of_sn (s : pdcp_sn_size) (deliv sn : Z) : Z :=
  let hfn :=
    if sn <? pdcp_compute_sn deliv s - pdcp_window_size s then u32 (pdcp_compute_hfn deliv s + 1)
    else if u32 (pdcp_compute_sn deliv s + pdcp_window_size s) <=? sn then u32 (pdcp_compute_hfn deliv s - 1)
    else pdcp_compute_hfn deliv s in
  pdcp_compute_count hfn sn s.

(** ** PDU headers *)
Inductive pdcp_dc_field := pdcp_control | pdcp_data.
Definition pdcp_dc_to_number (dc : pdcp_dc_field) : Z := match dc with pdcp_control => 0 | pdcp_data => 1 end.
Definition pdcp_pdu_get_dc (first_byte : Z) : pdcp_dc_field :=
  if Z.land (Z.shiftr first_byte 7) 0x01 =? 0 then pdcp_control else pdcp_data.

(** The control PDU type; values without a name are [cpt_other]. *)
Inductive pdcp_control_pdu_type := status_report | interspersed_rohc_feedback | ehc_feedback | cpt_other (n : Z).
Definition pdcp_control_pdu_get_cpt (first_byte : Z) : pdcp_control_pdu_type :=
  let n := Z.land (Z.shiftr first_byte 4) 0x07 in
  if n =? 0 then status_report else if n =? 1 then interspersed_rohc_feedback
  else if n =? 2 then ehc_feedback else cpt_other n.
Definition pdcp_control_pdu_max_size : Z := 9000.

(** [None]: the assertion that SRBs use 12-bit SNs fails. *)
Definition write_data_pdu_header (c : pdcp_config_common) (sn : Z) : option bytes :=
  if is_srb c && bool_decide (sn_size c = pdcp_size18bits) then None
  else
    let b0 := if is_drb c then 0x80 else 0x00 in
    Some match sn_size c with
         | pdcp_size12bits =>
             [u8 (Z.lor b0 (Z.shiftr (Z.land sn 0x00000f00) 8)); Z.land sn 0x000000ff]
         | pdcp_size18bits =>
             [u8 (Z.lor b0 (Z.shiftr (Z.land sn 0x00030000) 16)); Z.shiftr (Z.land sn 0x0000ff00) 8;
              Z.land sn 0x000000ff]
         end.

Definition read_data_pdu_header (c : pdcp_config_common) (buf : bytes) : option Z :=
  if blen buf <=? pdcp_data_pdu_header_size (sn_size c) then None
  else
    match sn_size c, buf with
    | pdcp_size12bits, b0 :: b1 :: _ => Some (Z.lor (Z.shiftl (Z.land b0 0x0f) 8) (Z.land b1 0xff))
    | pdcp_size18bits, b0 :: b1 :: b2 :: _ =>
        Some (Z.lor (Z.lor (Z.shiftl (Z.land b0 0x03) 16) (Z.shiftl (Z.land b1 0xff) 8)) (Z.land b2 0xff))
    | _, _ => None
    end.

(** ** Arithmetic of COUNT values *)
Lemma pdcp_sn_bits s : 0 < pdcp_sn_size_to_uint s < 32.
Proof. destruct s; cbn; lia. Qed.

Lemma pdcp_compute_sn_mod count s : pdcp_compute_sn count s = count mod 2 ^ pdcp_sn_size_to_uint s.
Proof.
  unfold pdcp_compute_sn. rewrite <- Z.land_ones by (pose proof (pdcp_sn_bits s); lia). f_equal. by destruct s.
Qed.
Lemma pdcp_compute_hfn_div count s : pdcp_compute_hfn count s = count / 2 ^ pdcp_sn_size_to_uint s.
Proof. unfold pdcp_compute_hfn. rewrite Z.shiftr_div_pow2 by (pose proof (pdcp_sn_bits s); lia). done. Qed.
Lemma pdcp_cardinality_pow s : pdcp_sn_cardinality s = 2 ^ pdcp_sn_size_to_uint s.
Proof. by destruct s. Qed.
Lemma pdcp_window_half s : 2 * pdcp_window_size s = pdcp_sn_cardinality s.
Proof. by destruct s. Qed.

Lemma pdcp_compute_count_eq hfn sn s : 0 <= sn < pdcp_sn_cardinality s ->
  pdcp_compute_count hfn sn s = u32 (hfn * pdcp_sn_cardinality s) + sn.
Proof.
  rewrite pdcp_cardinality_pow. intros Hsn. unfold pdcp_compute_count. pose proof (pdcp_sn_bits s) as Hb.
  rewrite Z.shiftl_mul_pow2 by lia. apply (lor_disjoint (pdcp_sn_size_to_uint s)); [lia| |lia].
  rewrite u32_mod_pow2 by lia. apply Z.mod_mul, Z.pow_nonzero; lia.
Qed.

(** Inside the window around [deliv] the COUNT of a PDU is recovered from its SN. *)
Lemma count_of_sn_window s deliv count : is_u32 deliv -> is_u32 count ->
  deliv - pdcp_window_size s <= count < deliv + pdcp_window_size s ->
  count_of_sn s deliv (pdcp_compute_sn count s) = count.
Proof.
  intros Hd Hc Hw. unfold is_u32 in *. pose proof (pdcp_window_half s) as Hh. pose proof (pdcp_cardinality_pow s) as Hp.
  unfold count_of_sn. rewrite !pdcp_compute_sn_mod, pdcp_compute_hfn_div. rewrite <- !Hp.
  assert (0 < pdcp_sn_cardinality s <= 2 ^ 18) as Hcard by (destruct s; vm_compute; split; congruence).
  assert (exists k, 2 ^ 32 = pdcp_sn_cardinality s * k) as [k Hk].
  { destruct s; [by exists (2 ^ 20)|by exists (2 ^ 14)]. }
  set (N := pdcp_sn_cardinality s) in *. set (W := pdcp_window_size s) in *.
  pose proof (Z.mod_pos_bound deliv N ltac:(lia)). pose proof (Z.mod_pos_bound count N ltac:(lia)).
  rewrite (u32_id (deliv mod N + W)) by (unfold is_u32; lia).
  rewrite pdcp_compute_count_eq by done. fold N.
  pose proof (Z.div_mod deliv N ltac:(lia)). pose proof (Z.div_mod count N ltac:(lia)).
  assert (count / N < k) by (apply Z.div_lt_upper_bound; lia).
  assert (0 <= count / N) by (apply Z.div_pos; lia).
  assert (forall h, h = count / N -> u32 (u32 h * N) + count mod N = count) as Hgoal.
  { intros h ->. rewrite (u32_id (count / N)) by (unfold is_u32; nia). rewrite u32_id by (unfold is_u32; nia). lia. }
  bool_cases; breflect; try (apply Hgoal; nia).
  rewrite <- (u32_id (deliv / N)); [apply Hgoal; nia|]. unfold is_u32. nia.
Qed.

Lemma pdcp_header_size_pos s : 2 <= pdcp_data_pdu_header_size s <= 3.
Proof. destruct s; cbn; lia. Qed.

Lemma land_0xf00 x : Z.land x 0xf00 = ((x / 2 ^ 8) mod 2 ^ 4) * 2 ^ 8. Proof. apply (land_mask x 4 8); lia. Qed.
Lemma land_0xff00 x : Z.land x 0xff00 = ((x / 2 ^ 8) mod 2 ^ 8) * 2 ^ 8. Proof. apply (land_mask x 8 8); lia. Qed.
Lemma land_0x30000 x : Z.land x 0x30000 = ((x / 2 ^ 16) mod 2 ^ 2) * 2 ^ 16. Proof. apply (land_mask x 2 16); lia. Qed.
#[export] Hint Rewrite land_0xf00 land_0xff00 land_0x30000 : bitfields.

Lemma pdcp_header12_fields b0 sn : b0 = 0 \/ b0 = 128 -> 0 <= sn < 2 ^ 12 ->
  bytes_ok [u8 (Z.lor b0 (Z.shiftr (Z.land sn 0xf00) 8)); Z.land sn 0xff]
  /\ Z.lor (Z.shiftl (Z.land (u8 (Z.lor b0 (Z.shiftr (Z.land sn 0xf00) 8))) 0x0f) 8) (Z.land (Z.land sn 0xff) 0xff) = sn.
Proof.
  intros Hb Hsn. split.
  - repeat apply Forall_cons_2; [apply u8_is_u8| |constructor]. unfold is_u8. rewrite land_0xff. mlia.
  - unfold u8. bits_arith. mlia.
Qed.

Lemma pdcp_header18_fields b0 sn : b0 = 0 \/ b0 = 128 -> 0 <= sn < 2 ^ 18 ->
  let h0 := u8 (Z.lor b0 (Z.shiftr (Z.land sn 0x30000) 16)) in
  let h1 := Z.shiftr (Z.land sn 0xff00) 8 in
  bytes_ok [h0; h1; Z.land sn 0xff]
  /\ Z.lor (Z.lor (Z.shiftl (Z.land h0 0x03) 16) (Z.shiftl (Z.land h1 0xff) 8)) (Z.land (Z.land sn 0xff) 0xff) = sn.
Proof.
  intros Hb Hsn h0 h1. subst h0 h1. split.
  - repeat apply Forall_cons_2; [apply u8_is_u8| | |constructor]; unfold is_u8; bits_arith; mlia.
  - unfold u8. bits_arith. mlia.
Qed.

(** The written header is read back, whatever follows it. *)
Lemma pdcp_header_roundtrip c sn rest :
  (rb_type c = pdcp_srb -> sn_size c = pdcp_size12bits) -> 0 <= sn < pdcp_sn_cardinality (sn_size c) -> rest <> [] ->
  exists h, write_data_pdu_header c sn = Some h /\ blen h = pdcp_data_pdu_header_size (sn_size c) /\ bytes_ok h
    /\ read_data_pdu_header c (h ++ rest) = Some sn.
Proof.
  intros Hs Hsn Hr. assert (0 < blen rest) as Hrl.
  { destruct rest; [done|]. rewrite blen_cons. pose proof (blen_nonneg rest). lia. }
  unfold write_data_pdu_header, read_data_pdu_header.
  destruct (is_srb c && bool_decide (sn_size c = pdcp_size18bits)) eqn:Eg.
  { unfold is_srb in Eg. breflect. rewrite Hs in * by done. done. }
  set (b0 := if is_drb c then 128 else 0). assert (b0 = 0 \/ b0 = 128) as Hb0 by (subst b0; destruct (is_drb c); auto).
  destruct (sn_size c); cbn [pdcp_data_pdu_header_size] in *; eexists; (split; [reflexivity|]); (split; [done|]).
  - destruct (pdcp_header12_fields b0 sn Hb0 Hsn) as [Hok Hrt]. split; [done|].
    rewrite blen_app. cbn [app]. destruct (_ <=? 2) eqn:E; breflect; [rewrite !blen_cons, blen_nil in E; lia|]. by rewrite Hrt.
  - destruct (pdcp_header18_fields b0 sn Hb0 Hsn) as [Hok Hrt]. split; [done|].
    rewrite blen_app. cbn [app]. destruct (_ <=? 3) eqn:E; breflect; [rewrite !blen_cons, blen_nil in E; lia|]. by rewrite Hrt.
Qed.
