(* ===== verification/PdcpRx.v ===== *)
(** * PDCP receiving entity

    [lib/pdcp/pdcp_entity_rx.h] and [lib/pdcp/pdcp_entity_rx.cpp]: reception of
    data PDUs (COUNT reconstruction, deciphering, integrity verification,
    reordering and in-order delivery), control PDUs, t-Reordering,
    re-establishment and the PDCP status report.

    Every handler maps the entity state to [None] (a failed [srsran_assert] or
    [srsran_sanity_check]) or to the new state and the calls on the notifiers.
    The timer is the flag whether it runs; its expiry is an operation. *)
From S2P Require Import Prelude OrdMap BitEncoding SecS3g Security PdcpPdu.

Record pdcp_rx_config := PdcpRxConfig {
  prx_common : pdcp_config_common;
  t_reordering : pdcp_t_reordering;
  prx_max_count : pdcp_max_count;
}.

Record pdcp_rx_state := PdcpRxState { rx_next : Z; rx_deliv : Z; rx_reord : Z }.

Record pdcp_entity_rx := PdcpRx {
  prx_cfg : pdcp_rx_config;
  prx_bearer_id : Z;
  prx_sec_cfg : sec_128_as_config;
  prx_integrity_enabled : bool;
  prx_ciphering_enabled : bool;
  prx_st : pdcp_rx_state;
  reorder_queue : ordmap bytes;
  reordering_timer : bool;
  prx_max_count_notified : bool;
  prx_max_count_overflow : bool;
}.

(** Calls on the upper layers and on the transmitting entity. *)
Inductive pdcp_rx_event :=
  | rx_new_sdu (sdu : bytes)
  | rx_max_count_reached
  | rx_protocol_failure
  | rx_status_report (pdu : bytes).

Definition sec_none : sec_128_as_config := Sec128 sec_rrc [] [] nia0 nea0.
Definition pdcp_entity_rx_new (cfg : pdcp_rx_config) (bearer_id : Z) : pdcp_entity_rx :=
  PdcpRx cfg bearer_id sec_none false false (PdcpRxState 0 0 0) [] false false false.

(** Field updates. *)
Definition prx_with_st (e : pdcp_entity_rx) (st : pdcp_rx_state) : pdcp_entity_rx :=
  PdcpRx (prx_cfg e) (prx_bearer_id e) (prx_sec_cfg e) (prx_integrity_enabled e) (prx_ciphering_enabled e) st
    (reorder_queue e) (reordering_timer e) (prx_max_count_notified e) (prx_max_count_overflow e).
Definition prx_with_queue (e : pdcp_entity_rx) (q : ordmap bytes) : pdcp_entity_rx :=
  PdcpRx (prx_cfg e) (prx_bearer_id e) (prx_sec_cfg e) (prx_integrity_enabled e) (prx_ciphering_enabled e) (prx_st e)
    q (reordering_timer e) (prx_max_count_notified e) (prx_max_count_overflow e).
Definition prx_with_timer (e : pdcp_entity_rx) (b : bool) : pdcp_entity_rx :=
  PdcpRx (prx_cfg e) (prx_bearer_id e) (prx_sec_cfg e) (prx_integrity_enabled e) (prx_ciphering_enabled e) (prx_st e)
    (reorder_queue e) b (prx_max_count_notified e) (prx_max_count_overflow e).
Definition prx_with_flags (e : pdcp_entity_rx) (notified overflow : bool) : pdcp_entity_rx :=
  PdcpRx (prx_cfg e) (prx_bearer_id e) (prx_sec_cfg e) (prx_integrity_enabled e) (prx_ciphering_enabled e) (prx_st e)
    (reorder_queue e) (reordering_timer e) notified overflow.

Definition prx_sn_size (e : pdcp_entity_rx) : pdcp_sn_size := sn_size (prx_common (prx_cfg e)).
Definition prx_hdr_len (e : pdcp_entity_rx) : Z := pdcp_data_pdu_header_size (prx_sn_size e).
Definition sec_direction_of (c : pdcp_config_common) : security_direction :=
  match direction c with pdcp_uplink => sec_uplink | pdcp_downlink => sec_downlink end.

(** ** Delivery loops over the reordering queue *)
Fixpoint deliver_all_consecutive_counts (q : ordmap bytes) (deliv : Z) : list bytes * ordmap bytes * Z :=
  match q with
  | (c, sdu) :: r =>
      if c =? deliv then
        let '(out, q, d) := deliver_all_consecutive_counts r (u32 (deliv + 1)) in (sdu :: out, q, d)
      else ([], q, deliv)
  | [] => ([], [], deliv)
  end.

Fixpoint deliver_below (q : ordmap bytes) (reord : Z) : list bytes * ordmap bytes :=
  match q with
  | (c, sdu) :: r => if c <? reord then let '(out, q) := deliver_below r reord in (sdu :: out, q) else ([], q)
  | [] => ([], [])
  end.

Definition deliver_all_sdus (e : pdcp_entity_rx) : pdcp_entity_rx * list pdcp_rx_event :=
  (prx_with_queue e [], map (fun p => rx_new_sdu p.2) (reorder_queue e)).
Definition discard_all_sdus (e : pdcp_entity_rx) : pdcp_entity_rx := prx_with_queue e [].

Definition rx_deliver_consecutive (e : pdcp_entity_rx) : pdcp_entity_rx * list pdcp_rx_event :=
  let '(out, q, d) := deliver_all_consecutive_counts (reorder_queue e) (rx_deliv (prx_st e)) in
  (prx_with_st (prx_with_queue e q) (PdcpRxState (rx_next (prx_st e)) d (rx_reord (prx_st e))), map rx_new_sdu out).

(** ** t-Reordering *)
Definition handle_t_reordering_expire (e : pdcp_entity_rx) : pdcp_entity_rx * list pdcp_rx_event :=
  let '(out, q) := deliver_below (reorder_queue e) (rx_reord (prx_st e)) in
  let e := prx_with_queue e q in
  let e := prx_with_st e (PdcpRxState (rx_next (prx_st e)) (rx_reord (prx_st e)) (rx_reord (prx_st e))) in
  let '(e, evs) := rx_deliver_consecutive e in
  let e :=
    if rx_deliv (prx_st e) <? rx_next (prx_st e) then
      match t_reordering (prx_cfg e) with
      | t_reordering_ms 0 => e
      | _ => prx_with_timer
               (prx_with_st e (PdcpRxState (rx_next (prx_st e)) (rx_deliv (prx_st e)) (rx_next (prx_st e)))) true
      end
    else e in
  (e, map rx_new_sdu out ++ evs).

(** The expiry of the running timer. *)
Definition reordering_callback (e : pdcp_entity_rx) : pdcp_entity_rx * list pdcp_rx_event :=
  handle_t_reordering_expire (prx_with_timer e false).

(** ** Security *)
Section Sec.
Context {A : aes_engine}.

(** The switch of [cipher_encrypt] and [cipher_decrypt]. *)
Definition nea (algo : ciphering_algorithm) (key : bytes) (count bearer : Z) (d : security_direction) (msg : bytes)
    : option bytes :=
  match algo with
  | nea0 => Some msg
  | nea1 => security_nea1 key count bearer d msg
  | nea2 => security_nea2 key count bearer d msg
  | nea3 => security_nea3 key count bearer d msg
  end.

(** The switch of [integrity_generate] and [integrity_verify]. *)
Definition nia (algo : integrity_algorithm) (key : bytes) (count bearer : Z) (d : security_direction) (msg : bytes)
    : option bytes :=
  match algo with
  | nia0 => Some mac_zero
  | nia1 => security_nia1 key count bearer d msg
  | nia2 => security_nia2 key count bearer d msg
  | nia3 => security_nia3 key count bearer d msg
  end.

Definition cipher_decrypt (e : pdcp_entity_rx) (msg : bytes) (count : Z) : option bytes :=
  nea (cipher_algo (prx_sec_cfg e)) (k_128_enc (prx_sec_cfg e)) count (prx_bearer_id e)
    (sec_direction_of (prx_common (prx_cfg e))) msg.

Definition integrity_verify (e : pdcp_entity_rx) (buf : bytes) (count : Z) (mac : bytes) : option bool :=
  let* mac_exp := nia (integ_algo (prx_sec_cfg e)) (k_128_int (prx_sec_cfg e)) count (prx_bearer_id e)
                    (sec_direction_of (prx_common (prx_cfg e))) buf in
  Some (bool_decide (integ_algo (prx_sec_cfg e) = nia0) || bool_decide (mac = mac_exp)).

(** The buffer and the MAC: both stay as they are when the PDU is too small. *)
Definition extract_mac (buf : bytes) : bytes * bytes :=
  if blen buf <=? sec_mac_len then (buf, mac_zero)
  else (slice 0 (blen buf - sec_mac_len) buf, bdrop (blen buf - sec_mac_len) buf).

(** [trim_head] checks that there is enough to trim. *)
Definition discard_data_header (e : pdcp_entity_rx) (buf : bytes) : option bytes :=
  if prx_hdr_len e <=? blen buf then Some (bdrop (prx_hdr_len e) buf) else None.

(** Deciphering, integrity verification and removal of header and MAC:
    [Some None] is a PDU dropped because its integrity check failed. *)
Definition rx_unprotect (e : pdcp_entity_rx) (pdu : bytes) (count : Z) : option (option bytes) :=
  let* buf :=
    (if prx_ciphering_enabled e then
       let* pt := cipher_decrypt e (bdrop (prx_hdr_len e) pdu) count in
       Some (slice 0 (prx_hdr_len e) pdu ++ pt)
     else Some pdu) in
  let '(buf, mac) :=
    if is_srb (prx_common (prx_cfg e)) || (is_drb (prx_common (prx_cfg e)) && prx_integrity_enabled e)
    then extract_mac buf else (buf, mac_zero) in
  let* valid := (if prx_integrity_enabled e then integrity_verify e buf count mac else Some true) in
  if negb valid then Some None
  else let* sdu := discard_data_header e buf in Some (Some sdu).

(** ** Reception *)

(** The COUNT thresholds; [false] when the PDU is refused. *)
Definition check_max_count (e : pdcp_entity_rx) (count : Z) : bool * pdcp_entity_rx * list pdcp_rx_event :=
  let mc := prx_max_count (prx_cfg e) in
  let '(e, evs) :=
    if (count >? max_count_notify mc) && negb (prx_max_count_notified e)
    then (prx_with_flags e true (prx_max_count_overflow e), [rx_max_count_reached]) else (e, []) in
  if max_count_hard mc <=? count then
    if negb (prx_max_count_overflow e)
    then (false, prx_with_flags e (prx_max_count_notified e) true, evs ++ [rx_protocol_failure])
    else (false, e, evs)
  else (true, e, evs).

(** From the check of RCVD_COUNT to the end of [handle_data_pdu]. *)
Definition rx_store (e : pdcp_entity_rx) (count : Z) (sdu : bytes) : pdcp_entity_rx * list pdcp_rx_event :=
  if count <? rx_deliv (prx_st e) then (e, [])
  else
  match om_find count (reorder_queue e) with
  | Some _ => (e, [])
  | None =>
      let e := prx_with_queue e (om_assign count sdu (reorder_queue e)) in
      let st := prx_st e in
      let e := if rx_next st <=? count
               then prx_with_st e (PdcpRxState (u32 (count + 1)) (rx_deliv st) (rx_reord st)) else e in
      let '(e, evs) := if count =? rx_deliv (prx_st e) then rx_deliver_consecutive e else (e, []) in
      let e := if reordering_timer e && (rx_reord (prx_st e) <=? rx_deliv (prx_st e))
               then prx_with_timer e false else e in
      match t_reordering (prx_cfg e) with
      | t_reordering_infinity => (e, evs)
      | t_reordering_ms ms =>
          let e := prx_with_st e (PdcpRxState (rx_next (prx_st e)) (rx_deliv (prx_st e)) (rx_next (prx_st e))) in
          if ms =? 0 then let '(e, evs') := handle_t_reordering_expire e in (e, evs ++ evs')
          else if negb (reordering_timer e) && (rx_deliv (prx_st e) <? rx_next (prx_st e))
          then (prx_with_timer e true, evs) else (e, evs)
      end
  end.

Definition pdcp_handle_data_pdu (e : pdcp_entity_rx) (pdu : bytes) : option (pdcp_entity_rx * list pdcp_rx_event) :=
  if blen pdu <=? prx_hdr_len e then Some (e, [])
  else
  match read_data_pdu_header (prx_common (prx_cfg e)) pdu with
  | None => Some (e, [])
  | Some sn =>
      let count := count_of_sn (prx_sn_size e) (rx_deliv (prx_st e)) sn in
      let '(accepted, e, evs) := check_max_count e count in
      if negb accepted then Some (e, evs)
      else
      let* r := rx_unprotect e pdu count in
      match r with
      | None => Some (e, evs)
      | Some sdu => let '(e, evs') := rx_store e count sdu in Some (e, evs ++ evs')
      end
  end.

Definition pdcp_handle_control_pdu (e : pdcp_entity_rx) (pdu : bytes) : option (pdcp_entity_rx * list pdcp_rx_event) :=
  match pdu with
  | [] => None
  | b :: _ =>
      match pdcp_pdu_get_dc b with
      | pdcp_data => None
      | pdcp_control =>
          match pdcp_control_pdu_get_cpt b with
          | status_report => Some (e, [rx_status_report pdu])
          | _ => Some (e, [])
          end
      end
  end.

Definition pdcp_handle_pdu (e : pdcp_entity_rx) (pdu : bytes) : option (pdcp_entity_rx * list pdcp_rx_event) :=
  match pdu with
  | [] => Some (e, [])
  | b :: _ =>
      match pdcp_pdu_get_dc b with
      | pdcp_data => pdcp_handle_data_pdu e pdu
      | pdcp_control => if is_srb (prx_common (prx_cfg e)) then pdcp_handle_data_pdu e pdu else pdcp_handle_control_pdu e pdu
      end
  end.
End Sec.

(** ** Control interface *)
Definition domain_ok (c : pdcp_config_common) (sec : sec_128_as_config) : bool :=
  (is_srb c && bool_decide (sec_domain_of sec = sec_rrc)) || (is_drb c && bool_decide (sec_domain_of sec = sec_up)).

Definition rx_enable_security (e : pdcp_entity_rx) (sec : sec_128_as_config) : option pdcp_entity_rx :=
  if domain_ok (prx_common (prx_cfg e)) sec then
    Some (PdcpRx (prx_cfg e) (prx_bearer_id e) sec true true (prx_st e) (reorder_queue e) (reordering_timer e)
            (prx_max_count_notified e) (prx_max_count_overflow e))
  else None.

Definition rx_reestablish (e : pdcp_entity_rx) (sec : sec_128_as_config)
    : option (pdcp_entity_rx * list pdcp_rx_event) :=
  let c := prx_common (prx_cfg e) in
  let e := if is_srb c then discard_all_sdus e else e in
  let '(e, evs) :=
    if is_srb c || is_um c then
      let e := if reordering_timer e then prx_with_timer e false else e in
      if is_um c then deliver_all_sdus e else (e, [])
    else (e, []) in
  let e := if is_srb c || is_um c then prx_with_st e (PdcpRxState 0 0 0) else e in
  let* e := rx_enable_security e sec in
  Some (e, evs).

(** ** Status report *)
Fixpoint pack_bitmap (n : nat) (i : Z) (q : ordmap bytes) (enc : bit_encoder) : option bit_encoder :=
  match n with
  | O => Some enc
  | S n =>
      let bit := match om_find i q with Some _ => 0 | None => 1 end in
      let* enc := bit_pack enc bit 1 in pack_bitmap n (i + 1) q enc
  end.

Definition bitmap_end (st : pdcp_rx_state) : Z :=
  let max_bits := (pdcp_control_pdu_max_size - 5) * 8 in
  let b := u32 (rx_deliv st + 1) in
  if (b <? rx_next st) && (rx_next st - b >? max_bits) then u32 (b + max_bits) else rx_next st.

Definition compile_status_report (e : pdcp_entity_rx) : option bytes :=
  let* enc := bit_pack (bit_encoder_new []) (pdcp_dc_to_number pdcp_control) 1 in
  let* enc := bit_pack enc 0 3 in
  let* enc := bit_pack enc 0 4 in
  let* enc := bit_pack enc (rx_deliv (prx_st e)) 32 in
  let b := u32 (rx_deliv (prx_st e) + 1) in
  let* enc := pack_bitmap (Z.to_nat (bitmap_end (prx_st e) - b)) b (reorder_queue e) enc in
  Some (enc_writer enc).
