(* ===== verification/PdcpRxThms.v ===== *)
(** * PDCP receiving entity: invariant and reordering

    The invariant of the receiving entity under arbitrary PDUs, what one stored
    SDU releases, the expiry of t-Reordering, and the assertions that cannot
    fail. *)
From S2P Require Import Prelude OrdMap BitEncoding SecS3g SecZuc Security SecurityThms PdcpPdu PdcpRx.

(** ** COUNT values stay within 32 bits *)
Lemma u32_mult_add n x : (n | 2 ^ 32) -> 0 < n -> 0 <= x < n -> forall h, is_u32 (u32 (h * n) + x).
Proof.
  intros [k Hk] Hn Hx h. unfold u32, is_u32. rewrite Hk, Z.mul_mod_distr_r by nia.
  pose proof (Z.mod_pos_bound h k). nia.
Qed.

Lemma count_of_sn_u32 s deliv sn : 0 <= sn < pdcp_sn_cardinality s -> is_u32 (count_of_sn s deliv sn).
Proof.
  intros Hsn. unfold count_of_sn. rewrite pdcp_compute_count_eq by done.
  apply u32_mult_add; [|lia|done]. destruct s; [by exists (2 ^ 20)|by exists (2 ^ 14)].
Qed.

Lemma read_header_bound c buf sn : bytes_ok buf -> read_data_pdu_header c buf = Some sn ->
  0 <= sn < pdcp_sn_cardinality (sn_size c).
Proof.
  intros Hok. unfold read_data_pdu_header. destruct (_ <=? _); [done|].
  destruct (sn_size c), buf as [|b0 [|b1 [|b2 r]]]; try done; intros [= <-];
    repeat (apply Forall_cons_1 in Hok as [? Hok]); unfold is_u8 in *;
    [change (pdcp_sn_cardinality pdcp_size12bits) with 4096..|change (pdcp_sn_cardinality pdcp_size18bits) with 262144];
    bits_arith; mlia.
Qed.

(** ** Delivery loops: a prefix of the queue *)
Lemma deliver_below_spec q r : om_ok q ->
  let '(out, q') := deliver_below q r in
  exists ps, q = ps ++ q' /\ out = map snd ps /\ Forall (fun p => p.1 < r) ps /\ om_above (r - 1) q'.
Proof.
  induction q as [|[c sdu] q IH]; intros Hok; [by exists []|]. cbn [deliver_below].
  destruct (c <? r) eqn:E; breflect.
  - assert (om_ok q) as Hq by (by eapply om_above_ok). specialize (IH Hq).
    destruct (deliver_below q r) as [out q']. destruct IH as (ps & -> & -> & Hps & Hq').
    exists ((c, sdu) :: ps). split_and!; try done. by constructor.
  - exists []. split_and!; try done. cbn in Hok |- *. split; [lia|done].
Qed.

Lemma deliver_consecutive_spec q d : om_above (d - 1) q -> 0 <= d -> Forall (fun p => p.1 < 2 ^ 32 - 1) q ->
  let '(out, q', d') := deliver_all_consecutive_counts q d in
  exists ps, q = ps ++ q' /\ out = map snd ps /\ map fst ps = seqZ d (d' - d) /\ d <= d' /\ om_above d' q'.
Proof.
  revert d. induction q as [|[c sdu] q IH]; intros d Hab Hd Hlt; cbn [deliver_all_consecutive_counts].
  { exists []. rewrite Z.sub_diag. split_and!; try done. }
  destruct Hab as [Hc Hab]. apply Forall_cons_1 in Hlt as [Hlt0 Hlt]. cbn in Hlt0.
  destruct (c =? d) eqn:E; breflect.
  - subst d. rewrite u32_id by (unfold is_u32; lia).
    specialize (IH (c + 1)). replace (c + 1 - 1) with c in IH by lia. specialize (IH Hab ltac:(lia) Hlt).
    destruct (deliver_all_consecutive_counts q (c + 1)) as [[out q'] d'].
    destruct IH as (ps & -> & -> & Hps & Hle & Hab'). exists ((c, sdu) :: ps). split_and!; try done; [|lia].
    cbn [map fst]. rewrite Hps. rewrite (seqZ_cons c (d' - c)) by lia. f_equal. f_equal; lia.
  - exists []. rewrite Z.sub_diag. split_and!; try done. cbn. split; [lia|done].
Qed.

(** ** The invariant *)
Record prx_inv (e : pdcp_entity_rx) : Prop := {
  pi_hard : 0 <= max_count_hard (prx_max_count (prx_cfg e)) < 2 ^ 32;
  pi_order : 0 <= rx_deliv (prx_st e) <= rx_next (prx_st e);
  pi_limit : rx_next (prx_st e) <= max_count_hard (prx_max_count (prx_cfg e));
  pi_queue : om_above (rx_deliv (prx_st e)) (reorder_queue e);
  pi_below : Forall (fun p => p.1 < rx_next (prx_st e)) (reorder_queue e);
  (** With a finite t-Reordering the timer runs exactly while an SDU is awaited,
      and RX_REORD follows RX_NEXT. *)
  pi_timer : match t_reordering (prx_cfg e) with
             | t_reordering_infinity => reordering_timer e = false
             | t_reordering_ms 0 => reordering_timer e = false /\ rx_deliv (prx_st e) = rx_next (prx_st e)
             | t_reordering_ms _ =>
                 rx_reord (prx_st e) = rx_next (prx_st e)
                 /\ reordering_timer e = (rx_deliv (prx_st e) <? rx_next (prx_st e))
             end;
}.

Lemma prx_inv_new cfg b : 0 <= max_count_hard (prx_max_count cfg) < 2 ^ 32 -> prx_inv (pdcp_entity_rx_new cfg b).
Proof. intros H. split; cbn; [done|lia|lia|done|by constructor|]. by destruct (t_reordering cfg) as [[]|]. Qed.

(** What a step of the entity keeps. *)
Definition prx_same (e e' : pdcp_entity_rx) : Prop :=
  prx_cfg e' = prx_cfg e /\ prx_bearer_id e' = prx_bearer_id e /\ prx_sec_cfg e' = prx_sec_cfg e
  /\ prx_integrity_enabled e' = prx_integrity_enabled e /\ prx_ciphering_enabled e' = prx_ciphering_enabled e.

(** SDUs [ps] leave the queue [q] in order, and nothing else does. *)
Record released (q : ordmap bytes) (e' : pdcp_entity_rx) (evs : list pdcp_rx_event) (ps : ordmap bytes) : Prop := {
  rl_queue : q = ps ++ reorder_queue e';
  rl_events : evs = map (fun p => rx_new_sdu p.2) ps;
  rl_below : Forall (fun p => p.1 < rx_deliv (prx_st e')) ps;
}.

Lemma map_rx_new_sdu ps : map rx_new_sdu (map snd ps) = map (fun p : Z * bytes => rx_new_sdu p.2) ps.
Proof. by rewrite map_map. Qed.

(** Delivery of the consecutive SDUs from RX_DELIV on. *)
Lemma rx_deliver_consecutive_spec e :
  0 <= rx_deliv (prx_st e) -> om_above (rx_deliv (prx_st e) - 1) (reorder_queue e) ->
  rx_next (prx_st e) < 2 ^ 32 -> Forall (fun p => p.1 < rx_next (prx_st e)) (reorder_queue e) ->
  let '(e', evs) := rx_deliver_consecutive e in
  exists ps, released (reorder_queue e) e' evs ps
    /\ map fst ps = seqZ (rx_deliv (prx_st e)) (rx_deliv (prx_st e') - rx_deliv (prx_st e))
    /\ rx_deliv (prx_st e) <= rx_deliv (prx_st e') /\ om_above (rx_deliv (prx_st e')) (reorder_queue e')
    /\ e' = prx_with_st (prx_with_queue e (reorder_queue e'))
              (PdcpRxState (rx_next (prx_st e)) (rx_deliv (prx_st e')) (rx_reord (prx_st e))).
Proof.
  intros Hd Hab Hn Hlt. unfold rx_deliver_consecutive.
  pose proof (deliver_consecutive_spec (reorder_queue e) (rx_deliv (prx_st e)) Hab Hd) as H.
  destruct (deliver_all_consecutive_counts _ _) as [[out q'] d'].
  destruct H as (ps & Hq & -> & Hps & Hle & Hab'). { eapply list.Forall_impl; [exact Hlt|]. cbn. lia. }
  exists ps. cbn. split_and!; try done. split; cbn; [done|by rewrite map_rx_new_sdu|].
  apply list.Forall_forall. intros p Hp. assert (p.1 ∈ seqZ (rx_deliv (prx_st e)) (d' - rx_deliv (prx_st e))) as Hin.
  { rewrite <- Hps. by apply list_elem_of_fmap_2. }
  apply elem_of_seqZ in Hin. lia.
Qed.

(** When RX_REORD has caught up with RX_NEXT, the expiry of t-Reordering delivers
    everything that is stored. *)
Lemma handle_t_reordering_expire_spec e :
  rx_reord (prx_st e) = rx_next (prx_st e) -> om_ok (reorder_queue e) ->
  Forall (fun p => p.1 < rx_next (prx_st e)) (reorder_queue e) ->
  handle_t_reordering_expire e =
    (prx_with_st (prx_with_queue e []) (PdcpRxState (rx_next (prx_st e)) (rx_next (prx_st e)) (rx_next (prx_st e))),
     map (fun p => rx_new_sdu p.2) (reorder_queue e)).
Proof.
  intros Hr Hok Hlt. unfold handle_t_reordering_expire. rewrite Hr.
  pose proof (deliver_below_spec (reorder_queue e) (rx_next (prx_st e)) Hok) as H.
  destruct (deliver_below _ _) as [out q']. destruct H as (ps & Hq & -> & Hps & Hab).
  assert (q' = []) as ->.
  { destruct q' as [|[c x] q']; [done|]. destruct Hab as [Hc _]. rewrite Hq in Hlt.
    apply Forall_app in Hlt as [_ Hlt]. apply Forall_inv in Hlt. cbn in Hlt. lia. }
  rewrite app_nil_r in Hq. subst ps. unfold rx_deliver_consecutive. cbn -[Z.ltb]. rewrite Hr, Z.ltb_irrefl.
  by rewrite map_rx_new_sdu, app_nil_r.
Qed.

(** ** One SDU stored *)
Lemma om_assign_forall (P : Z * bytes -> Prop) m k v : Forall P m -> P (k, v) -> Forall P (om_assign k v m).
Proof.
  intros Hm Hk. induction Hm as [|[j w] m Hj Hm IH]; cbn; [by constructor|].
  destruct (k <? j); [by repeat constructor|]. by destruct (k =? j); constructor.
Qed.

(** The state after the SDU is stored and the consecutive SDUs are delivered,
    before the timer is handled. *)
Definition prx_stored (e : pdcp_entity_rx) (count : Z) (sdu : bytes) : pdcp_entity_rx :=
  let e := prx_with_queue e (om_assign count sdu (reorder_queue e)) in
  if rx_next (prx_st e) <=? count
  then prx_with_st e (PdcpRxState (u32 (count + 1)) (rx_deliv (prx_st e)) (rx_reord (prx_st e))) else e.

Definition rx_delivered (e : pdcp_entity_rx) (count : Z) (sdu : bytes) : pdcp_entity_rx * list pdcp_rx_event :=
  let e := prx_stored e count sdu in
  if count =? rx_deliv (prx_st e) then rx_deliver_consecutive e else (e, []).

Lemma prx_stored_spec e c sdu : prx_inv e -> rx_deliv (prx_st e) <= c < max_count_hard (prx_max_count (prx_cfg e)) ->
  prx_stored e c sdu = prx_with_st (prx_with_queue e (om_assign c sdu (reorder_queue e)))
    (PdcpRxState (Z.max (rx_next (prx_st e)) (c + 1)) (rx_deliv (prx_st e)) (rx_reord (prx_st e))).
Proof.
  intros [Hh Ho Hl _ _ _] Hc. unfold prx_stored. cbn [prx_st prx_with_queue].
  destruct (_ <=? c) eqn:E; breflect.
  - rewrite u32_id by (unfold is_u32; lia). unfold prx_with_st. cbn. do 2 f_equal. lia.
  - unfold prx_with_st, prx_with_queue. cbn. f_equal. destruct (prx_st e); cbn in *. f_equal. lia.
Qed.

(** What [rx_delivered] establishes. *)
Record delivered_ok (e : pdcp_entity_rx) (c : Z) (sdu : bytes) (e' : pdcp_entity_rx) (evs : list pdcp_rx_event)
    (ps : ordmap bytes) : Prop := {
  dl_released : released (om_assign c sdu (reorder_queue e)) e' evs ps;
  dl_counts : map fst ps = seqZ (rx_deliv (prx_st e)) (rx_deliv (prx_st e') - rx_deliv (prx_st e));
  dl_deliv : rx_deliv (prx_st e) <= rx_deliv (prx_st e') <= rx_next (prx_st e');
  dl_above : om_above (rx_deliv (prx_st e')) (reorder_queue e');
  dl_below : Forall (fun p => p.1 < rx_next (prx_st e')) (reorder_queue e');
  dl_next : rx_next (prx_st e') = Z.max (rx_next (prx_st e)) (c + 1);
  dl_reord : rx_reord (prx_st e') = rx_reord (prx_st e);
  dl_frame : e' = prx_with_st (prx_with_queue e (reorder_queue e')) (prx_st e');
}.

Lemma rx_delivered_spec e c sdu : prx_inv e -> rx_deliv (prx_st e) <= c < max_count_hard (prx_max_count (prx_cfg e)) ->
  exists ps, delivered_ok e c sdu (rx_delivered e c sdu).1 (rx_delivered e c sdu).2 ps.
Proof.
  intros Hinv Hc. unfold rx_delivered. rewrite prx_stored_spec by done. destruct Hinv as [Hh Ho Hl Hq Hb _].
  set (N := Z.max (rx_next (prx_st e)) (c + 1)).
  set (e1 := prx_with_st _ _). assert (Forall (fun p => p.1 < N) (om_assign c sdu (reorder_queue e))) as HbN.
  { apply om_assign_forall; [|cbn; lia]. eapply list.Forall_impl; [exact Hb|]. cbn. lia. }
  change (rx_deliv (prx_st e1)) with (rx_deliv (prx_st e)). destruct (c =? _) eqn:E; breflect.
  - pose proof (rx_deliver_consecutive_spec e1) as H. cbn [e1 prx_st reorder_queue prx_with_st prx_with_queue rx_deliv rx_next rx_reord] in H.
    destruct (rx_deliver_consecutive e1) as [e' evs].
    destruct H as (ps & Hrel & Hps & Hle & Hab & He').
    { lia. } { apply om_above_assign; [|lia]. by eapply om_above_weaken; [|exact Hq]; lia. } { lia. } { done. }
    exists ps. pose proof (rl_queue _ _ _ _ Hrel) as Hqq. rewrite Hqq in HbN. apply Forall_app in HbN as [HbN1 HbN2].
    assert (rx_next (prx_st e') = N /\ rx_reord (prx_st e') = rx_reord (prx_st e)) as [Hn' Hr'] by (by rewrite He').
    split; cbn [fst snd]; try done; [|by rewrite Hn'|by rewrite He'].
    split; [done|]. rewrite Hn'. destruct (decide (rx_deliv (prx_st e) = rx_deliv (prx_st e'))) as [<-|Hne]; [lia|].
    assert (rx_deliv (prx_st e') - 1 ∈ map fst ps) as Hin by (rewrite Hps; apply elem_of_seqZ; lia).
    apply list_elem_of_fmap in Hin as ([k x] & Hk & Hin). rewrite list.Forall_forall in HbN1.
    specialize (HbN1 _ Hin). cbn in *. lia.
  - exists []. split; cbn [fst snd]; try done.
    + by rewrite Z.sub_diag.
    + cbn. lia.
    + apply om_above_assign; [done|]. cbn. lia.
Qed.

(** The end of [handle_data_pdu]: t-Reordering. *)
Definition rx_timers (e : pdcp_entity_rx) (evs : list pdcp_rx_event) : pdcp_entity_rx * list pdcp_rx_event :=
  let e := if reordering_timer e && (rx_reord (prx_st e) <=? rx_deliv (prx_st e))
           then prx_with_timer e false else e in
  match t_reordering (prx_cfg e) with
  | t_reordering_infinity => (e, evs)
  | t_reordering_ms ms =>
      let e := prx_with_st e (PdcpRxState (rx_next (prx_st e)) (rx_deliv (prx_st e)) (rx_next (prx_st e))) in
      if ms =? 0 then let '(e, evs') := handle_t_reordering_expire e in (e, evs ++ evs')
      else if negb (reordering_timer e) && (rx_deliv (prx_st e) <? rx_next (prx_st e))
      then (prx_with_timer e true, evs) else (e, evs)
  end.

Lemma rx_store_accepted e c sdu : rx_deliv (prx_st e) <= c -> om_find c (reorder_queue e) = None ->
  rx_store e c sdu = rx_timers (rx_delivered e c sdu).1 (rx_delivered e c sdu).2.
Proof.
  intros Hc Hf. unfold rx_store, rx_delivered, prx_stored. destruct (c <? _) eqn:E; breflect; [lia|]. rewrite Hf.
  by destruct (if c =? _ then _ else _) as [e' evs].
Qed.

(** What storing an SDU with COUNT [c] does to the entity. *)
Record store_ok (e : pdcp_entity_rx) (c : Z) (sdu : bytes) (e' : pdcp_entity_rx) (evs : list pdcp_rx_event)
    (ps : ordmap bytes) : Prop := {
  so_released : released (om_assign c sdu (reorder_queue e)) e' evs ps;
  so_deliv : rx_deliv (prx_st e) <= rx_deliv (prx_st e');
  so_next : rx_next (prx_st e') = Z.max (rx_next (prx_st e)) (c + 1);
  so_same : prx_same e e';
  so_in_order : t_reordering (prx_cfg e) = t_reordering_infinity ->
    map fst ps = seqZ (rx_deliv (prx_st e)) (rx_deliv (prx_st e') - rx_deliv (prx_st e));
}.

Lemma prx_frame e e' q st : e' = prx_with_st (prx_with_queue e q) st ->
  prx_cfg e' = prx_cfg e /\ prx_same e e' /\ reordering_timer e' = reordering_timer e.
Proof. intros ->. done. Qed.

Lemma prx_inv_intro e :
  0 <= max_count_hard (prx_max_count (prx_cfg e)) < 2 ^ 32 -> 0 <= rx_deliv (prx_st e) <= rx_next (prx_st e) ->
  rx_next (prx_st e) <= max_count_hard (prx_max_count (prx_cfg e)) ->
  om_above (rx_deliv (prx_st e)) (reorder_queue e) -> Forall (fun p => p.1 < rx_next (prx_st e)) (reorder_queue e) ->
  (match t_reordering (prx_cfg e) with
   | t_reordering_infinity => reordering_timer e = false
   | t_reordering_ms 0 => reordering_timer e = false /\ rx_deliv (prx_st e) = rx_next (prx_st e)
   | t_reordering_ms _ =>
       rx_reord (prx_st e) = rx_next (prx_st e) /\ reordering_timer e = (rx_deliv (prx_st e) <? rx_next (prx_st e))
   end) -> prx_inv e.
Proof. by constructor. Qed.

(** A queue between RX_DELIV and RX_NEXT is empty when the two are equal. *)
Lemma om_between_nil lo (q : ordmap bytes) : om_above lo q -> Forall (fun p => p.1 < lo) q -> q = [].
Proof. destruct q as [|[c x] q]; [done|]. intros [H _] Hf%Forall_inv. cbn in Hf. lia. Qed.

Lemma rx_timers_infinity e evs : t_reordering (prx_cfg e) = t_reordering_infinity -> reordering_timer e = false ->
  rx_timers e evs = (e, evs).
Proof. intros Ht Hr. unfold rx_timers. rewrite Hr. cbn [andb]. by rewrite Ht. Qed.

Lemma rx_timers_zero e evs : t_reordering (prx_cfg e) = t_reordering_ms 0 -> reordering_timer e = false ->
  om_ok (reorder_queue e) -> Forall (fun p => p.1 < rx_next (prx_st e)) (reorder_queue e) ->
  rx_timers e evs =
    (prx_with_st (prx_with_queue e []) (PdcpRxState (rx_next (prx_st e)) (rx_next (prx_st e)) (rx_next (prx_st e))),
     evs ++ map (fun p => rx_new_sdu p.2) (reorder_queue e)).
Proof.
  intros Ht Hr Hok Hb. unfold rx_timers. rewrite Hr. cbn [andb]. rewrite Ht. cbn [Z.eqb].
  by rewrite handle_t_reordering_expire_spec.
Qed.

Lemma rx_timers_ms e evs ms : t_reordering (prx_cfg e) = t_reordering_ms ms -> ms <> 0 ->
  rx_reord (prx_st e) <= rx_next (prx_st e) -> rx_deliv (prx_st e) <= rx_next (prx_st e) ->
  exists b, rx_timers e evs =
    (prx_with_timer (prx_with_st e (PdcpRxState (rx_next (prx_st e)) (rx_deliv (prx_st e)) (rx_next (prx_st e)))) b, evs)
    /\ b = (rx_deliv (prx_st e) <? rx_next (prx_st e)).
Proof.
  intros Ht Hms Hro Hd. unfold rx_timers. eexists. split; [|done].
  destruct (reordering_timer e) eqn:Er, (rx_reord (prx_st e) <=? rx_deliv (prx_st e)) eqn:El; cbn [andb];
    cbn [prx_with_timer prx_cfg]; rewrite Ht; destruct (ms =? 0) eqn:E0; breflect; try lia;
    cbn [prx_with_timer prx_with_st reordering_timer prx_st rx_deliv rx_next rx_reord]; rewrite ?Er; cbn [negb andb].
  all: destruct (_ <? _) eqn:Elt; breflect; cbn [andb negb]; try lia; try done.
  all: unfold prx_with_timer, prx_with_st; cbn; by rewrite ?Er.
Qed.

Lemma rx_store_spec e c sdu : prx_inv e -> rx_deliv (prx_st e) <= c < max_count_hard (prx_max_count (prx_cfg e)) ->
  om_find c (reorder_queue e) = None ->
  exists ps, prx_inv (rx_store e c sdu).1 /\ store_ok e c sdu (rx_store e c sdu).1 (rx_store e c sdu).2 ps.
Proof.
  intros Hinv Hc Hf. rewrite rx_store_accepted by (lia || done).
  destruct (rx_delivered_spec e c sdu Hinv Hc) as (ps & [Hrel Hcs Hd Hab Hb Hn Hro Hfr]).
  destruct (rx_delivered e c sdu) as [e1 evs]. cbn [fst snd] in *. destruct Hinv as [Hh Ho Hl Hq Hb0 Ht].
  destruct (prx_frame e e1 _ _ Hfr) as (Hcfg & Hsame & Htm). rewrite <- Hcfg in Ht, Hh, Hl, Hc.
  destruct (t_reordering (prx_cfg e1)) as [ms|] eqn:Et.
  2:{ rewrite rx_timers_infinity by (congruence || done). exists ps. cbn [fst snd]. split.
      - apply prx_inv_intro; rewrite ?Et; try done; [lia|lia|congruence].
      - split; try done. lia. }
  assert (ms = 0 \/ ms <> 0) as [->|Hms] by lia.
  - destruct Ht as [Ht Heq]. rewrite rx_timers_zero; [|done|congruence|by eapply om_above_ok|done].
    exists (ps ++ reorder_queue e1). cbn [fst snd]. split.
    + apply prx_inv_intro; cbn; rewrite ?Et; try done; [lia|lia| ]. split; [congruence|done].
    + destruct Hrel as [Hr1 Hr2 Hr3]. split; cbn; try done; [|lia|congruence].
      split; cbn; [by rewrite app_nil_r|by rewrite Hr2, map_app|].
      apply Forall_app. split; [|done]. eapply list.Forall_impl; [exact Hr3|]. cbn. lia.
  - destruct (rx_timers_ms e1 evs ms Et Hms) as (b & -> & ->); [destruct ms; lia|lia|].
    exists ps. cbn [fst snd]. split.
    + apply prx_inv_intro; cbn; rewrite ?Et; try done; [lia|lia|]. by destruct ms.
    + split; cbn; try done; [by destruct Hrel|lia].
Qed.

(** ** Protection can be removed from every PDU of sufficient size *)
Section Total.
Context {A : aes_engine} {AL : aes_laws A}.

Lemma nea_inverse algo key count bearer d : cipher_inverse (nea algo key count bearer d).
Proof.
  destruct algo; [|apply nea1_inverse|apply nea2_inverse|apply nea3_inverse].
  intros msg _ Hok. by exists msg.
Qed.
Lemma nia_mac algo key count bearer d msg : 0 < blen msg < 2 ^ 28 ->
  exists m, nia algo key count bearer d msg = Some m /\ is_mac m.
Proof.
  intros Hl. destruct algo; [|by apply nia1_mac|by apply nia2_mac|by apply nia3_mac].
  exists mac_zero. split; [done|]. split; [done|]. repeat (apply Forall_cons_2; [unfold is_u8; lia|]). by apply Forall_nil_2.
Qed.

(** A MAC is expected at the end of the PDUs of the bearer. *)
Definition mac_expected (e : pdcp_entity_rx) : bool :=
  is_srb (prx_common (prx_cfg e)) || (is_drb (prx_common (prx_cfg e)) && prx_integrity_enabled e).

(** The PDU is not so short that its MAC overlaps its header. *)
Definition pdu_sized (e : pdcp_entity_rx) (pdu : bytes) : Prop :=
  bytes_ok pdu /\ blen pdu < 2 ^ 28
  /\ (mac_expected e = true -> blen pdu <= sec_mac_len \/ prx_hdr_len e + sec_mac_len <= blen pdu).

Lemma blen_slice0 n l : 0 <= n <= blen l -> blen (slice 0 n l) = n.
Proof. intros. apply blen_slice; lia. Qed.
Lemma bytes_ok_slice a b l : bytes_ok l -> bytes_ok (slice a b l).
Proof. intros. by apply Forall_take, Forall_drop. Qed.
Lemma bytes_ok_bdrop a l : bytes_ok l -> bytes_ok (bdrop a l).
Proof. intros. by apply Forall_drop. Qed.

Lemma rx_unprotect_total e pdu count : pdu_sized e pdu -> prx_hdr_len e < blen pdu ->
  exists r, rx_unprotect e pdu count = Some r.
Proof.
  intros (Hok & Hmax & Hsz) Hlen. unfold rx_unprotect.
  pose proof (pdcp_header_size_pos (prx_sn_size e)) as Hh. fold (prx_hdr_len e) in Hh.
  assert (exists buf, (if prx_ciphering_enabled e then
      let* pt := cipher_decrypt e (bdrop (prx_hdr_len e) pdu) count in Some (slice 0 (prx_hdr_len e) pdu ++ pt)
     else Some pdu) = Some buf /\ blen buf = blen pdu) as (buf & -> & Hb).
  { destruct (prx_ciphering_enabled e); [|by exists pdu].
    destruct (nea_inverse (cipher_algo (prx_sec_cfg e)) (k_128_enc (prx_sec_cfg e)) count (prx_bearer_id e)
      (sec_direction_of (prx_common (prx_cfg e))) (bdrop (prx_hdr_len e) pdu)) as (c & Hc & Hcl & _ & _).
    { rewrite blen_bdrop by lia. lia. } { by apply bytes_ok_bdrop. }
    unfold cipher_decrypt. rewrite Hc. eexists. split; [done|].
    rewrite blen_app, Hcl, blen_slice0, blen_bdrop by lia. lia. }
  fold (mac_expected e). destruct (if mac_expected e then extract_mac buf else (buf, mac_zero)) as [buf' mac] eqn:Em.
  assert (prx_hdr_len e <= blen buf' <= blen buf) as Hb'.
  { destruct (mac_expected e); [|injection Em as <- <-; lia]. specialize (Hsz eq_refl). unfold extract_mac in Em.
    destruct (_ <=? _) eqn:E; breflect; injection Em as <- <-; [lia|]. unfold sec_mac_len in *. rewrite blen_slice0 by lia. lia. }
  assert (exists v, (if prx_integrity_enabled e then integrity_verify e buf' count mac else Some true) = Some v) as [v ->].
  { destruct (prx_integrity_enabled e); [|by exists true]. unfold integrity_verify.
    destruct (nia_mac (integ_algo (prx_sec_cfg e)) (k_128_int (prx_sec_cfg e)) count (prx_bearer_id e)
      (sec_direction_of (prx_common (prx_cfg e))) buf') as (m & -> & _); [lia|]. by eexists. }
  destruct (negb v); [by eexists|]. unfold discard_data_header.
  destruct (_ <=? _) eqn:E; breflect; [by eexists|lia].
Qed.

(** ** One PDU, whatever it holds *)

(** The SDUs among the events. *)
Definition rx_sdus (evs : list pdcp_rx_event) : list bytes :=
  omap (fun ev => match ev with rx_new_sdu s => Some s | _ => None end) evs.

Lemma rx_sdus_app a b : rx_sdus (a ++ b) = rx_sdus a ++ rx_sdus b.
Proof. apply omap_app. Qed.
Lemma rx_sdus_map (ps : ordmap bytes) : rx_sdus (map (fun p => rx_new_sdu p.2) ps) = map snd ps.
Proof. induction ps as [|p ps IH]; [done|]. cbn. f_equal. exact IH. Qed.

Lemma check_max_count_spec e count : let '(ok, e', evs) := check_max_count e count in
  (exists a b, e' = prx_with_flags e a b) /\ rx_sdus evs = []
  /\ ok = negb (max_count_hard (prx_max_count (prx_cfg e)) <=? count).
Proof.
  assert (e = prx_with_flags e (prx_max_count_notified e) (prx_max_count_overflow e)) as He by (by destruct e).
  unfold check_max_count.
  destruct ((count >? _) && negb (prx_max_count_notified e)); cbn [prx_with_flags prx_cfg prx_max_count_overflow];
    destruct (max_count_hard _ <=? count); cbn [negb]; try destruct (prx_max_count_overflow e) eqn:Eo; cbn [negb];
    (split; [|by split]); first [by eexists _, _ | by exists (prx_max_count_notified e), (prx_max_count_overflow e)
      | exists (prx_max_count_notified e), true; by rewrite <- Eo].
Qed.

Lemma om_above_prefix lo (l r : ordmap bytes) : om_above lo (l ++ r) -> om_above lo l.
Proof. revert lo. induction l as [|[k v] l IH]; intros lo; cbn; [done|]. intros [? ?]. split; [done|auto]. Qed.
Lemma om_above_join lo d (l r : ordmap bytes) :
  om_above lo l -> Forall (fun p => p.1 < d) l -> lo < d -> om_above (d - 1) r -> om_above lo (l ++ r).
Proof.
  revert lo. induction l as [|[k v] l IH]; intros lo Hl Hf Hlo Hr; cbn [app].
  - by eapply om_above_weaken; [|exact Hr]; lia.
  - destruct Hl as [Hk Hl]. apply Forall_cons_1 in Hf as [Hk' Hf]. split; [done|]. by apply IH.
Qed.

(** A step delivers the SDUs [ps], whose COUNTs lie between the old and the new
    value of RX_DELIV. *)
Record rx_step_ok (e e' : pdcp_entity_rx) (evs : list pdcp_rx_event) (ps : ordmap bytes) : Prop := {
  rs_inv : prx_inv e';
  rs_same : prx_same e e';
  rs_sdus : rx_sdus evs = map snd ps;
  rs_above : om_above (rx_deliv (prx_st e) - 1) ps;
  rs_below : Forall (fun p => p.1 < rx_deliv (prx_st e')) ps;
  rs_deliv : rx_deliv (prx_st e) <= rx_deliv (prx_st e');
}.

Lemma rx_step_none e a b evs : prx_inv e -> rx_sdus evs = [] -> rx_step_ok e (prx_with_flags e a b) evs [].
Proof. intros H He. split; try done; by destruct H. Qed.

Lemma rx_store_step e c sdu : prx_inv e -> 0 <= c < max_count_hard (prx_max_count (prx_cfg e)) ->
  exists ps, rx_step_ok e (rx_store e c sdu).1 (rx_store e c sdu).2 ps.
Proof.
  intros Hinv Hc. destruct (decide (c < rx_deliv (prx_st e))) as [Hlt|Hge].
  { exists []. unfold rx_store. destruct (c <? _) eqn:E; breflect; [|lia]. split; done || by destruct Hinv. }
  destruct (om_find c (reorder_queue e)) as [x|] eqn:Ef.
  { exists []. unfold rx_store. destruct (c <? _) eqn:E; breflect; [lia|]. rewrite Ef. split; done || by destruct Hinv. }
  destruct (rx_store_spec e c sdu Hinv) as (ps & Hinv' & [[Hr1 Hr2 Hr3] Hd Hn Hs _]); [lia|done|]. exists ps.
  split; try done.
  - by rewrite Hr2, rx_sdus_map.
  - apply (om_above_prefix _ _ (reorder_queue (rx_store e c sdu).1)). rewrite <- Hr1.
    apply om_above_assign; [|lia]. eapply om_above_weaken; [|apply Hinv]. lia.
Qed.

Lemma rx_step_flags e a b e' evs evs' ps : rx_step_ok (prx_with_flags e a b) e' evs' ps -> rx_sdus evs = [] ->
  rx_step_ok e e' (evs ++ evs') ps.
Proof. intros [H1 H2 H3 H4 H5 H6] He. split; try done. by rewrite rx_sdus_app, He. Qed.

Lemma pdcp_handle_data_pdu_step e pdu : prx_inv e -> pdu_sized e pdu ->
  exists e' evs ps, pdcp_handle_data_pdu e pdu = Some (e', evs) /\ rx_step_ok e e' evs ps.
Proof.
  intros Hinv Hsz. unfold pdcp_handle_data_pdu.
  assert (rx_step_ok e e [] []) as Hnone by (split; try done; by destruct Hinv).
  destruct (blen pdu <=? _) eqn:El; breflect; [by eexists _, _, _|].
  destruct (read_data_pdu_header _ _) as [sn|] eqn:Esn; [|by eexists _, _, _].
  pose proof (read_header_bound _ _ _ (proj1 Hsz) Esn) as Hsn.
  pose proof (count_of_sn_u32 (prx_sn_size e) (rx_deliv (prx_st e)) sn Hsn) as Hcount.
  set (c := count_of_sn _ _ sn) in *. pose proof (check_max_count_spec e c) as Hm.
  destruct (check_max_count e c) as [[ok e0] evs]. destruct Hm as ((a & b & ->) & Hevs & ->). rewrite negb_involutive.
  destruct (_ <=? c) eqn:Eh; breflect.
  { eexists _, _, _. split; [done|]. by apply rx_step_none. }
  destruct (rx_unprotect_total (prx_with_flags e a b) pdu c Hsz El) as [r ->].
  destruct r as [sdu|]; [|eexists _, _, _; split; [done|by apply rx_step_none]].
  assert (prx_inv (prx_with_flags e a b)) as Hinv' by (by destruct Hinv).
  destruct (rx_store_step (prx_with_flags e a b) c sdu Hinv') as (ps & Hst).
  { unfold is_u32 in Hcount. cbn. lia. }
  destruct (rx_store _ _ _) as [e' evs']. eexists _, _, ps. split; [done|]. by eapply rx_step_flags.
Qed.

Lemma pdcp_handle_pdu_step e pdu : prx_inv e -> pdu_sized e pdu ->
  exists e' evs ps, pdcp_handle_pdu e pdu = Some (e', evs) /\ rx_step_ok e e' evs ps.
Proof.
  intros Hinv Hsz. assert (forall evs, rx_sdus evs = [] -> rx_step_ok e e evs []) as Hnone.
  { intros. split; try done; by destruct Hinv. }
  unfold pdcp_handle_pdu. destruct pdu as [|b pdu]; [eexists _, _, []; split; [done|by apply Hnone]|].
  destruct (pdcp_pdu_get_dc b) eqn:Edc; [|by apply pdcp_handle_data_pdu_step].
  destruct (is_srb _); [by apply pdcp_handle_data_pdu_step|]. unfold pdcp_handle_control_pdu. rewrite Edc.
  destruct (pdcp_control_pdu_get_cpt b); eexists _, _, []; (split; [done|by apply Hnone]).
Qed.

(** The expiry of the running timer. *)
Lemma reordering_callback_eq e : prx_inv e -> reordering_timer e = true ->
  reordering_callback e =
    (prx_with_st (prx_with_queue (prx_with_timer e false) [])
       (PdcpRxState (rx_next (prx_st e)) (rx_next (prx_st e)) (rx_next (prx_st e))),
     map (fun p => rx_new_sdu p.2) (reorder_queue e))
  /\ exists ms, t_reordering (prx_cfg e) = t_reordering_ms ms /\ ms <> 0.
Proof.
  intros [Hh Ho Hl Hq Hb Htm] Ht. unfold reordering_callback.
  destruct (t_reordering (prx_cfg e)) as [ms|] eqn:Et; [|congruence].
  assert (ms <> 0) as Hms by (intros ->; destruct Htm; congruence).
  assert (rx_reord (prx_st e) = rx_next (prx_st e)) as Hr by (destruct ms; tauto).
  split; [|by exists ms]. by rewrite handle_t_reordering_expire_spec; [|done|by eapply om_above_ok|done].
Qed.

Lemma reordering_callback_step e : prx_inv e -> reordering_timer e = true ->
  rx_step_ok e (reordering_callback e).1 (reordering_callback e).2 (reorder_queue e).
Proof.
  intros Hinv Ht. destruct (reordering_callback_eq e Hinv Ht) as (-> & ms & Et & Hms).
  destruct Hinv as [Hh Ho Hl Hq Hb Htm]. split; cbn.
  - apply prx_inv_intro; cbn; rewrite ?Et; try done; [lia|]. rewrite Z.ltb_irrefl. by destruct ms.
  - done.
  - apply rx_sdus_map.
  - eapply om_above_weaken; [|exact Hq]. lia.
  - done.
  - lia.
Qed.

(** ** Runs *)
Inductive pdcp_rx_op :=
  | PdcpRxPdu (pdu : bytes)
  | PdcpRxExpire.

Definition pdcp_rx_exec (e : pdcp_entity_rx) (op : pdcp_rx_op) : option (pdcp_entity_rx * list pdcp_rx_event) :=
  match op with
  | PdcpRxPdu pdu => pdcp_handle_pdu e pdu
  | PdcpRxExpire => Some (if reordering_timer e then reordering_callback e else (e, []))
  end.

Fixpoint pdcp_rx_run (e : pdcp_entity_rx) (ops : list pdcp_rx_op) : option (pdcp_entity_rx * list pdcp_rx_event) :=
  match ops with
  | [] => Some (e, [])
  | op :: ops =>
      let* (e, evs) := pdcp_rx_exec e op in
      let* (e, evs') := pdcp_rx_run e ops in
      Some (e, evs ++ evs')
  end.

Definition pdcp_rx_op_ok (e : pdcp_entity_rx) (op : pdcp_rx_op) : Prop :=
  match op with PdcpRxPdu pdu => pdu_sized e pdu | PdcpRxExpire => True end.

Lemma pdcp_rx_op_same e e' op : prx_same e e' -> pdcp_rx_op_ok e op -> pdcp_rx_op_ok e' op.
Proof.
  intros (H1 & _ & _ & H4 & _). destruct op as [pdu|]; [|done]. cbn. unfold pdu_sized, mac_expected, prx_hdr_len, prx_sn_size.
  by rewrite H1, H4.
Qed.

Lemma pdcp_rx_exec_step e op : prx_inv e -> pdcp_rx_op_ok e op ->
  exists e' evs ps, pdcp_rx_exec e op = Some (e', evs) /\ rx_step_ok e e' evs ps.
Proof.
  intros Hinv Hop. destruct op as [pdu|]; cbn; [by apply pdcp_handle_pdu_step|].
  destruct (reordering_timer e) eqn:Et.
  - pose proof (reordering_callback_step e Hinv Et). destruct (reordering_callback e) as [e' evs]. by eexists _, _, _.
  - eexists _, _, []. split; [done|]. split; try done; by destruct Hinv.
Qed.

Lemma pdcp_rx_run_step e ops : prx_inv e -> Forall (pdcp_rx_op_ok e) ops ->
  exists e' evs ps, pdcp_rx_run e ops = Some (e', evs) /\ rx_step_ok e e' evs ps.
Proof.
  revert e. induction ops as [|op ops IH]; intros e Hinv Hops; cbn [pdcp_rx_run].
  { eexists _, _, []. split; [done|]. split; try done; by destruct Hinv. }
  apply Forall_cons_1 in Hops as [Hop Hops].
  destruct (pdcp_rx_exec_step e op Hinv Hop) as (e1 & evs & ps & -> & [H1 H2 H3 H4 H5 H6]).
  destruct (IH e1 H1) as (e2 & evs' & ps' & -> & [G1 G2 G3 G4 G5 G6]).
  { eapply list.Forall_impl; [exact Hops|]. intros. by eapply pdcp_rx_op_same. }
  eexists _, _, (ps ++ ps'). split; [done|]. split; [done| | | | |lia].
  - unfold prx_same in *. intuition congruence.
  - by rewrite rx_sdus_app, H3, G3, map_app.
  - eapply om_above_join; [done|exact H5|lia|done].
  - apply Forall_app. split; [|done]. eapply list.Forall_impl; [exact H5|]. cbn. lia.
Qed.
End Total.
