(* ===== verification/PdcpTx.v ===== *)
(** * PDCP transmitting entity

    [lib/pdcp/pdcp_entity_tx.h] and [lib/pdcp/pdcp_entity_tx.cpp]: SDUs from the
    upper layers, COUNT limits, integrity protection and ciphering, the discard
    timers with the stored SDUs, notifications from the RLC, status reports from
    the peer, data recovery and re-establishment.

    Every handler maps the entity state to [None] (a failed [srsran_assert], or
    the loop of [stop_discard_timer] that never ends) or to the new state and the
    calls on the notifiers.  A discard timer runs as long as its entry is in
    [discard_timers_map]; its expiry is an operation. *)
From S2P Require Import Prelude OrdMap BitEncoding SecS3g Security PdcpPdu PdcpRx.

Record pdcp_tx_config := PdcpTxConfig {
  ptx_common : pdcp_config_common;
  discard_timer : pdcp_discard_timer;
  status_report_required : bool;
  ptx_max_count : pdcp_max_count;
}.

(** [discard_info]: the COUNT and the SDU kept for retransmission (AM only). *)
Record discard_info := DiscardInfo { di_count : Z; di_sdu : bytes }.

Record pdcp_entity_tx := PdcpTx {
  ptx_cfg : pdcp_tx_config;
  ptx_bearer_id : Z;
  ptx_sec_cfg : sec_128_as_config;
  ptx_integrity_enabled : bool;
  ptx_ciphering_enabled : bool;
  tx_next : Z;
  discard_timers_map : ordmap discard_info;
  ptx_max_count_notified : bool;
  ptx_max_count_overflow : bool;
}.

(** A PDU for the RLC, with its SN when it is a data PDU of a DRB. *)
Record pdcp_tx_pdu := PdcpTxPdu { pdu_buf : bytes; pdu_pdcp_sn : option Z }.

Inductive pdcp_tx_event :=
  | tx_new_pdu (pdu : pdcp_tx_pdu)
  | tx_discard_pdu (sn : Z)
  | tx_max_count_reached
  | tx_protocol_failure.

(** The constructor; [None] is [report_error]. *)
Definition pdcp_entity_tx_new (cfg : pdcp_tx_config) (bearer_id : Z) : option pdcp_entity_tx :=
  let c := ptx_common cfg in
  if is_srb c && negb (bool_decide (sn_size c = pdcp_size12bits)) then None
  else if is_srb c && is_um c then None
  else Some (PdcpTx cfg bearer_id sec_none false false 0 [] false false).

Definition ptx_with_map (e : pdcp_entity_tx) (m : ordmap discard_info) : pdcp_entity_tx :=
  PdcpTx (ptx_cfg e) (ptx_bearer_id e) (ptx_sec_cfg e) (ptx_integrity_enabled e) (ptx_ciphering_enabled e) (tx_next e)
    m (ptx_max_count_notified e) (ptx_max_count_overflow e).
Definition ptx_with_next (e : pdcp_entity_tx) (n : Z) : pdcp_entity_tx :=
  PdcpTx (ptx_cfg e) (ptx_bearer_id e) (ptx_sec_cfg e) (ptx_integrity_enabled e) (ptx_ciphering_enabled e) n
    (discard_timers_map e) (ptx_max_count_notified e) (ptx_max_count_overflow e).
Definition ptx_with_flags (e : pdcp_entity_tx) (notified overflow : bool) : pdcp_entity_tx :=
  PdcpTx (ptx_cfg e) (ptx_bearer_id e) (ptx_sec_cfg e) (ptx_integrity_enabled e) (ptx_ciphering_enabled e) (tx_next e)
    (discard_timers_map e) notified overflow.

Definition ptx_c (e : pdcp_entity_tx) : pdcp_config_common := ptx_common (ptx_cfg e).
Definition ptx_SN (e : pdcp_entity_tx) (count : Z) : Z := pdcp_compute_sn count (sn_size (ptx_c e)).

(** Whether discard timers are in use. *)
Definition discard_timer_set (e : pdcp_entity_tx) : bool :=
  match discard_timer (ptx_cfg e) with discard_timer_ms _ => true | _ => false end.

Section Sec.
Context {A : aes_engine}.

Definition integrity_generate (e : pdcp_entity_tx) (buf : bytes) (count : Z) : option bytes :=
  nia (integ_algo (ptx_sec_cfg e)) (k_128_int (ptx_sec_cfg e)) count (ptx_bearer_id e) (sec_direction_of (ptx_c e)) buf.
Definition cipher_encrypt (e : pdcp_entity_tx) (msg : bytes) (count : Z) : option bytes :=
  nea (cipher_algo (ptx_sec_cfg e)) (k_128_enc (ptx_sec_cfg e)) count (ptx_bearer_id e) (sec_direction_of (ptx_c e)) msg.

Definition apply_ciphering_and_integrity_protection (e : pdcp_entity_tx) (hdr sdu : bytes) (count : Z) : option bytes :=
  let* mac := (if ptx_integrity_enabled e then integrity_generate e (hdr ++ sdu) count else Some mac_zero) in
  let buf := if is_srb (ptx_c e) || (is_drb (ptx_c e) && ptx_integrity_enabled e) then sdu ++ mac else sdu in
  let* ct := (if ptx_ciphering_enabled e then cipher_encrypt e buf count else Some buf) in
  Some (hdr ++ ct).

Definition write_data_pdu_to_lower_layers (e : pdcp_entity_tx) (count : Z) (buf : bytes) : pdcp_tx_event :=
  tx_new_pdu (PdcpTxPdu buf (if is_drb (ptx_c e) then Some (ptx_SN e count) else None)).
Definition write_control_pdu_to_lower_layers (buf : bytes) : pdcp_tx_event := tx_new_pdu (PdcpTxPdu buf None).

(** Header and protection of one SDU. *)
Definition tx_protect (e : pdcp_entity_tx) (sdu : bytes) (count : Z) : option bytes :=
  let* hdr := write_data_pdu_header (ptx_c e) (ptx_SN e count) in
  apply_ciphering_and_integrity_protection e hdr sdu count.

Definition pdcp_handle_sdu (e : pdcp_entity_tx) (sdu : bytes) : option (pdcp_entity_tx * list pdcp_tx_event) :=
  let mc := ptx_max_count (ptx_cfg e) in
  if max_count_hard mc <=? tx_next e then
    if negb (ptx_max_count_overflow e)
    then Some (ptx_with_flags e (ptx_max_count_notified e) true, [tx_protocol_failure])
    else Some (e, [])
  else
  let '(e, evs) :=
    if (max_count_notify mc <=? tx_next e) && negb (ptx_max_count_notified e)
    then (ptx_with_flags e true (ptx_max_count_overflow e), [tx_max_count_reached]) else (e, []) in
  let* buf := tx_protect e sdu (tx_next e) in
  let e := if discard_timer_set e then
             ptx_with_map e (om_emplace (tx_next e)
               (DiscardInfo (tx_next e) (if is_um (ptx_c e) then [] else sdu)) (discard_timers_map e))
           else e in
  Some (ptx_with_next e (u32 (tx_next e + 1)), evs ++ [write_data_pdu_to_lower_layers e (tx_next e) buf]).

(** ** Data recovery and re-establishment *)
Fixpoint retransmit_loop (e : pdcp_entity_tx) (m : ordmap discard_info) : option (list pdcp_tx_event) :=
  match m with
  | [] => Some []
  | (c, info) :: m =>
      let* buf := tx_protect e (di_sdu info) (di_count info) in
      let* evs := retransmit_loop e m in
      Some (write_data_pdu_to_lower_layers e c buf :: evs)
  end.
Definition retransmit_all_pdus (e : pdcp_entity_tx) : option (list pdcp_tx_event) :=
  retransmit_loop e (discard_timers_map e).
Definition discard_all_pdus (e : pdcp_entity_tx) : pdcp_entity_tx := ptx_with_map e [].

(** The report is the one the receiving entity of the bearer compiles. *)
Definition send_status_report (e : pdcp_entity_tx) (report : bytes) : list pdcp_tx_event :=
  if status_report_required (ptx_cfg e) then [write_control_pdu_to_lower_layers report] else [].

Definition data_recovery (e : pdcp_entity_tx) (report : bytes) : option (list pdcp_tx_event) :=
  if is_drb (ptx_c e) && is_am (ptx_c e) then
    let evs := if status_report_required (ptx_cfg e) then send_status_report e report else [] in
    let* evs' := retransmit_all_pdus e in Some (evs ++ evs')
  else None.

Definition tx_enable_security (e : pdcp_entity_tx) (sec : sec_128_as_config) : option pdcp_entity_tx :=
  if domain_ok (ptx_c e) sec then
    Some (PdcpTx (ptx_cfg e) (ptx_bearer_id e) sec true true (tx_next e) (discard_timers_map e)
            (ptx_max_count_notified e) (ptx_max_count_overflow e))
  else None.

Definition tx_reestablish (e : pdcp_entity_tx) (sec : sec_128_as_config)
    : option (pdcp_entity_tx * list pdcp_tx_event) :=
  let e := if is_srb (ptx_c e) || is_um (ptx_c e) then discard_all_pdus (ptx_with_next e 0) else e in
  let* e := tx_enable_security e sec in
  let* evs := (if is_am (ptx_c e) then retransmit_all_pdus e else Some []) in
  Some (e, evs).
End Sec.

(** ** Discard timers *)
Definition discard_callback (e : pdcp_entity_tx) (count : Z) : pdcp_entity_tx * list pdcp_tx_event :=
  (ptx_with_map e (om_erase count (discard_timers_map e)), [tx_discard_pdu (ptx_SN e count)]).

(** [for (count = first; count <= highest; count++) erase(count)]: [n] is the
    number of iterations. *)
Fixpoint erase_counts (n : nat) (count : Z) (m : ordmap discard_info) : ordmap discard_info :=
  match n with
  | O => m
  | S n => erase_counts n (u32 (count + 1)) (om_erase count m)
  end.

Definition stop_discard_timer (e : pdcp_entity_tx) (highest_sn : Z) : option pdcp_entity_tx :=
  if negb (discard_timer_set e) then Some e
  else
  match discard_timers_map e with
  | [] => Some e
  | (tx_next_deliv, _) :: _ =>
      let highest_count := count_of_sn (sn_size (ptx_c e)) tx_next_deliv highest_sn in
      if highest_count =? 2 ^ 32 - 1 then None (* count <= UINT32_MAX always holds *)
      else Some (ptx_with_map e (erase_counts (Z.to_nat (highest_count - tx_next_deliv + 1)) tx_next_deliv
                                   (discard_timers_map e)))
  end.

Definition handle_transmit_notification (e : pdcp_entity_tx) (highest_sn : Z) : option pdcp_entity_tx :=
  if pdcp_sn_cardinality (sn_size (ptx_c e)) <=? highest_sn then Some e
  else if is_um (ptx_c e) then stop_discard_timer e highest_sn else Some e.
Definition handle_delivery_notification (e : pdcp_entity_tx) (highest_sn : Z) : option pdcp_entity_tx :=
  if pdcp_sn_cardinality (sn_size (ptx_c e)) <=? highest_sn then Some e
  else if is_am (ptx_c e) then stop_discard_timer e highest_sn else Some e.

(** ** Status report from the peer *)

(** [while (dec.unpack(bit, 1))]; [fuel] bounds the number of bits. *)
Fixpoint handle_bitmap (fuel : nat) (e : pdcp_entity_tx) (d : bit_decoder) (fmc : Z) (evs : list pdcp_tx_event)
    : pdcp_entity_tx * list pdcp_tx_event :=
  match fuel with
  | O => (e, evs)
  | S fuel =>
      match bit_unpack d 1 with
      | Some (true, bit, d) =>
          let fmc := u32 (fmc + 1) in
          if bit =? 1 then
            handle_bitmap fuel (ptx_with_map e (om_erase fmc (discard_timers_map e))) d fmc
              (evs ++ [tx_discard_pdu (ptx_SN e fmc)])
          else handle_bitmap fuel e d fmc evs
      | _ => (e, evs)
      end
  end.

(** The results of [dec.unpack] of the header fields and of FMC are not checked. *)
Definition handle_status_report (e : pdcp_entity_tx) (status : bytes) : option (pdcp_entity_tx * list pdcp_tx_event) :=
  let* (_, dc, d) := bit_unpack (bit_decoder_new status) 1 in
  if negb (dc =? pdcp_dc_to_number pdcp_control) then Some (e, [])
  else
  let* (_, cpt, d) := bit_unpack d 3 in
  if negb (cpt =? 0) then Some (e, [])
  else
  let* (_, reserved, d) := bit_unpack d 4 in
  if negb (reserved =? 0) then Some (e, [])
  else
  let* (_, fmc, d) := bit_unpack d 32 in
  let evs := map (fun p => tx_discard_pdu (ptx_SN e p.1)) (filter (fun p => p.1 < fmc) (discard_timers_map e)) in
  let e := ptx_with_map e (filter (fun p => ~ p.1 < fmc) (discard_timers_map e)) in
  Some (handle_bitmap (8 * length status) e d fmc evs).
