(* ===== verification/PdcpLink.v ===== *)
(** * PDCP: the two ends of a bearer

    [lib/pdcp/pdcp_entity_impl.h]: a transmitting entity and the receiving entity
    of its peer, joined by lower layers that may lose, repeat and reorder PDUs, over
    any number of re-establishments.  SDUs are delivered unchanged, in order and at
    most once, and a COUNT is never used for two different SDUs under the same key. *)
From S2P Require Import Prelude OrdMap BitEncoding SecS3g SecZuc Security SecurityThms PdcpPdu PdcpRx PdcpRxThms PdcpTx.

(** The entities are configured alike: both ends of the same bearer and
    direction. *)
Record pdcp_matched (t : pdcp_entity_tx) (r : pdcp_entity_rx) : Prop := {
  pm_common : prx_common (prx_cfg r) = ptx_c t;
  pm_bearer : prx_bearer_id r = ptx_bearer_id t;
  pm_sec : prx_sec_cfg r = ptx_sec_cfg t;
  pm_integrity : prx_integrity_enabled r = ptx_integrity_enabled t;
  pm_ciphering : prx_ciphering_enabled r = ptx_ciphering_enabled t;
  pm_srb : rb_type (ptx_c t) = pdcp_srb -> sn_size (ptx_c t) = pdcp_size12bits;
}.

(** SDUs that the bearer carries. *)
Definition pdcp_sdu_ok (sdu : bytes) : Prop := 0 < blen sdu <= 9000 /\ bytes_ok sdu.

(** The first byte tells data PDUs of DRBs. *)
Lemma pdcp_header_dc c sn h : write_data_pdu_header c sn = Some h -> rb_type c = pdcp_drb ->
  exists b r, h = b :: r /\ pdcp_pdu_get_dc b = pdcp_data.
Proof.
  unfold write_data_pdu_header. intros Hw Hd. destruct (_ && _); [done|]. unfold is_drb in Hw.
  rewrite bool_decide_true in Hw by done.
  destruct (sn_size c); injection Hw as <-; eexists _, _; (split; [done|]); unfold pdcp_pdu_get_dc, u8;
    rewrite land_0x01, Z.shiftr_div_pow2 by lia.
  all: match goal with |- context [Z.lor 128 ?y] => assert (0 <= y < 2 ^ 7) as Hy by (bits_arith; mlia);
         rewrite (lor_disjoint 7 128 y) by (done || lia) end.
  all: match goal with |- context [if ?b =? 0 then _ else _] => replace b with 1 by (pow2s; mlia) end; done.
Qed.

Section Link.
Context {A : aes_engine} {AL : aes_laws A}.

(** ** Protection and its removal *)
Lemma extract_mac_app buf mac : is_mac mac -> 0 < blen buf -> extract_mac (buf ++ mac) = (buf, mac).
Proof.
  intros [Hl _] Hb. unfold extract_mac. rewrite blen_app, Hl.
  destruct (_ <=? _) eqn:E; breflect; [lia|]. replace (blen buf + sec_mac_len - sec_mac_len) with (blen buf) by lia.
  unfold slice, bdrop, blen. rewrite Nat2Z.id, drop_0, take_app_length, drop_app_length. done.
Qed.

Lemma slice_hdr h rest : slice 0 (blen h) (h ++ rest) = h /\ bdrop (blen h) (h ++ rest) = rest.
Proof. unfold slice, bdrop, blen. rewrite Nat2Z.id, drop_0, take_app_length, drop_app_length. done. Qed.

(** The SDU with its MAC, when the bearer has one. *)
Definition tx_mac_expected (t : pdcp_entity_tx) : bool :=
  is_srb (ptx_c t) || (is_drb (ptx_c t) && ptx_integrity_enabled t).
Definition with_mac (m : bool) (sdu mac : bytes) : bytes := if m then sdu ++ mac else sdu.

Definition tx_nea (t : pdcp_entity_tx) (count : Z) (msg : bytes) : option bytes :=
  if ptx_ciphering_enabled t then cipher_encrypt t msg count else Some msg.

Lemma tx_nea_inverse t count : cipher_inverse (tx_nea t count).
Proof.
  unfold tx_nea. destruct (ptx_ciphering_enabled t); [apply nea_inverse|]. intros msg _ Hok. by exists msg.
Qed.

Lemma with_mac_ok m sdu mac : pdcp_sdu_ok sdu -> is_mac mac ->
  blen sdu <= blen (with_mac m sdu mac) <= 9004 /\ bytes_ok (with_mac m sdu mac)
  /\ (m = true -> blen (with_mac m sdu mac) = blen sdu + sec_mac_len).
Proof.
  intros [Hl Hok] [Hm Hmok]. unfold with_mac. destruct m; [|by split_and!; try lia].
  rewrite blen_app, Hm. unfold sec_mac_len. split_and!; try lia. by apply Forall_app.
Qed.

Lemma ptx_SN_bound t count : 0 <= ptx_SN t count < pdcp_sn_cardinality (sn_size (ptx_c t)).
Proof.
  unfold ptx_SN. rewrite pdcp_compute_sn_mod, pdcp_cardinality_pow. apply Z.mod_pos_bound, Z.pow_pos_nonneg; [lia|].
  pose proof (pdcp_sn_bits (sn_size (ptx_c t))). lia.
Qed.

(** A protected PDU: header, then the ciphered SDU and MAC. *)
Record protected (t : pdcp_entity_tx) (sdu : bytes) (count : Z) (h mac ct : bytes) : Prop := {
  pr_header : write_data_pdu_header (ptx_c t) (ptx_SN t count) = Some h;
  pr_hlen : blen h = pdcp_data_pdu_header_size (sn_size (ptx_c t));
  pr_hok : bytes_ok h;
  pr_mac : (if ptx_integrity_enabled t then integrity_generate t (h ++ sdu) count else Some mac_zero) = Some mac;
  pr_ismac : is_mac mac;
  pr_ct : tx_nea t count ct = Some (with_mac (tx_mac_expected t) sdu mac);
  pr_ctlen : blen ct = blen (with_mac (tx_mac_expected t) sdu mac);
  pr_ctok : bytes_ok ct;
  pr_read : read_data_pdu_header (ptx_c t) (h ++ ct) = Some (ptx_SN t count);
}.

Lemma tx_protect_spec t sdu count :
  (rb_type (ptx_c t) = pdcp_srb -> sn_size (ptx_c t) = pdcp_size12bits) -> pdcp_sdu_ok sdu ->
  exists h mac ct, tx_protect t sdu count = Some (h ++ ct) /\ protected t sdu count h mac ct.
Proof.
  intros Hsrb Hsdu. pose proof (ptx_SN_bound t count) as Hsn.
  destruct (pdcp_header_roundtrip (ptx_c t) (ptx_SN t count) [0] Hsrb Hsn) as (h & Hw & Hhl & Hhok & _); [done|].
  pose proof (pdcp_header_size_pos (sn_size (ptx_c t))) as Hhp. pose proof (proj1 Hsdu) as Hl.
  assert (exists mac, (if ptx_integrity_enabled t then integrity_generate t (h ++ sdu) count else Some mac_zero) = Some mac
    /\ is_mac mac) as (mac & Hmac & Hism).
  { destruct (ptx_integrity_enabled t); [apply nia_mac; rewrite blen_app; lia|]. by apply (nia_mac nia0 [] 0 0 sec_uplink [0]). }
  destruct (with_mac_ok (tx_mac_expected t) sdu mac Hsdu Hism) as (Hbl & Hbok & _).
  destruct (tx_nea_inverse t count (with_mac (tx_mac_expected t) sdu mac)) as (ct & Hc1 & Hc2 & Hc3 & Hc4); [lia|done|].
  destruct (pdcp_header_roundtrip (ptx_c t) (ptx_SN t count) ct Hsrb Hsn) as (h' & Hw' & _ & _ & Hread).
  { intros ->. rewrite blen_nil in Hc2. lia. }
  assert (h' = h) as -> by congruence. exists h, mac, ct. split; [|by split].
  unfold tx_protect, apply_ciphering_and_integrity_protection. rewrite Hw, Hmac.
  unfold tx_nea, with_mac, tx_mac_expected in Hc1. cbv zeta.
  match goal with |- match ?x with _ => _ end = _ => assert (x = Some ct) as -> by exact Hc1 end. done.
Qed.

Lemma protected_sized t r sdu count h mac ct : pdcp_matched t r -> pdcp_sdu_ok sdu -> protected t sdu count h mac ct ->
  pdu_sized r (h ++ ct) /\ prx_hdr_len r < blen (h ++ ct) /\ prx_hdr_len r = blen h.
Proof.
  intros [Hc _ _ Hi _ _] Hsdu [Hw Hhl Hhok _ Hism _ Hctl Hctok _].
  destruct (with_mac_ok (tx_mac_expected t) sdu mac Hsdu Hism) as (Hbl & _ & Hbm). pose proof (proj1 Hsdu).
  assert (prx_hdr_len r = blen h) as Hhr by (unfold prx_hdr_len, prx_sn_size; by rewrite Hc).
  pose proof (pdcp_header_size_pos (sn_size (ptx_c t))).
  split_and!; [|rewrite blen_app; lia|done]. split; [by apply Forall_app|]. rewrite blen_app. split; [lia|].
  unfold mac_expected. rewrite Hc, Hi. fold (tx_mac_expected t). intros Hm. specialize (Hbm Hm). lia.
Qed.

Lemma rx_unprotect_protected t r sdu count h mac ct :
  pdcp_matched t r -> pdcp_sdu_ok sdu -> protected t sdu count h mac ct ->
  rx_unprotect r (h ++ ct) count = Some (Some sdu).
Proof.
  intros Hm Hsdu Hp. destruct (protected_sized _ _ _ _ _ _ _ Hm Hsdu Hp) as (_ & _ & Hhr).
  destruct Hm as [Hc Hb Hs Hi Hci _], Hp as [_ Hhl _ Hmac Hism Hct _ _ _].
  destruct (slice_hdr h ct) as [Hs1 Hs2]. pose proof (pdcp_header_size_pos (sn_size (ptx_c t))) as Hhp.
  unfold rx_unprotect. rewrite Hhr, Hs1, Hs2.
  match goal with |- match ?x with _ => _ end = _ =>
    assert (x = Some (h ++ with_mac (tx_mac_expected t) sdu mac)) as -> end.
  { unfold tx_nea, cipher_encrypt in Hct. unfold cipher_decrypt. rewrite Hci, Hc, Hb, Hs.
    destruct (ptx_ciphering_enabled t); [by rewrite Hct|]. by injection Hct as ->. }
  rewrite Hc, Hi. fold (tx_mac_expected t).
  assert (exists mac', (if tx_mac_expected t then extract_mac (h ++ with_mac (tx_mac_expected t) sdu mac)
     else (h ++ with_mac (tx_mac_expected t) sdu mac, mac_zero)) = (h ++ sdu, mac')
     /\ (ptx_integrity_enabled t = true -> mac' = mac)) as (mac' & -> & Heq).
  { unfold with_mac. destruct (tx_mac_expected t) eqn:Em.
    - exists mac. rewrite app_assoc, extract_mac_app; [done|done|]. rewrite blen_app. pose proof (proj1 Hsdu). lia.
    - exists mac_zero. split; [done|]. intros Hie. unfold tx_mac_expected, is_srb, is_drb in Em. rewrite Hie in Em.
      destruct (rb_type (ptx_c t)); done. }
  unfold integrity_verify. rewrite Hs, Hb, Hc. unfold integrity_generate in Hmac.
  destruct (ptx_integrity_enabled t); [rewrite Hmac, (Heq eq_refl), (bool_decide_true (mac = mac)), orb_true_r by done|];
    cbn [negb]; unfold discard_data_header; rewrite Hhr, blen_app;
    (destruct (_ <=? _) eqn:E; breflect; [|pose proof (blen_nonneg sdu); lia]);
    by rewrite (proj2 (slice_hdr h sdu)).
Qed.

(** ** The system

    [lk_sdus] lists the SDUs that were given a COUNT since TX_NEXT was last 0, [lk_air] the
    data PDUs handed to the lower layers since the last re-establishment with their
    COUNT, [lk_out] the SDUs delivered by the receiving entity since RX_DELIV was last
    reset.  [lk_done] keeps the SDUs sent and delivered before each reset of the COUNT,
    [lk_past] the security configuration, COUNT and bytes of the PDUs sent before the
    last re-establishment. *)
Record pdcp_link := PdcpLink {
  lk_tx : pdcp_entity_tx;
  lk_rx : pdcp_entity_rx;
  lk_sdus : list bytes;
  lk_air : list (Z * bytes);
  lk_out : list bytes;
  lk_done : list (list bytes * list bytes);
  lk_past : list (sec_128_as_config * Z * bytes);
}.
(** All PDUs ever sent, with the security configuration and the COUNT that protect them. *)
Definition lk_sent (l : pdcp_link) : list (sec_128_as_config * Z * bytes) :=
  lk_past l ++ map (fun p => (ptx_sec_cfg (lk_tx l), p.1, p.2)) (lk_air l).

Definition lk_with_tx (l : pdcp_link) (t : pdcp_entity_tx) (sdus : list bytes) (air : list (Z * bytes)) : pdcp_link :=
  PdcpLink t (lk_rx l) sdus air (lk_out l) (lk_done l) (lk_past l).
Definition lk_with_rx (l : pdcp_link) (r : pdcp_entity_rx) (out : list bytes) : pdcp_link :=
  PdcpLink (lk_tx l) r (lk_sdus l) (lk_air l) out (lk_done l) (lk_past l).

Definition tx_pdus (evs : list pdcp_tx_event) : list bytes :=
  omap (fun ev => match ev with tx_new_pdu p => Some (pdu_buf p) | _ => None end) evs.
(** The data PDUs of a DRB carry an SN. *)
Definition tx_data_pdus (evs : list pdcp_tx_event) : list bytes :=
  omap (fun ev => match ev with tx_new_pdu (PdcpTxPdu b (Some _)) => Some b | _ => None end) evs.

Definition in_window (r : pdcp_entity_rx) (count : Z) : Prop :=
  rx_deliv (prx_st r) - pdcp_window_size (prx_sn_size r) <= count
    < rx_deliv (prx_st r) + pdcp_window_size (prx_sn_size r).

(** A PDU that was sent since the last re-establishment and is not older or newer than the reordering window. *)
Definition sent_in_window (l : pdcp_link) (pdu : bytes) : Prop :=
  exists count, (count, pdu) ∈ lk_air l /\ in_window (lk_rx l) count.

(** SRBs and UM bearers restart their COUNT at a re-establishment. *)
Definition restarts (c : pdcp_config_common) : bool := is_srb c || is_um c.

(** Steps: an SDU from the upper layer; a notification of the RLC, a status
    report from the peer or the expiry of a discard timer; data recovery; the
    arrival of a PDU, whichever the lower layers may deliver ([arrives]); the expiry
    of t-Reordering; re-establishment of both ends with a security configuration
    whose ciphering key has not been used on this bearer.  PDUs that never arrive are
    lost; those of before a re-establishment are dropped with the lower layers. *)
Inductive pdcp_link_step (arrives : pdcp_link -> bytes -> Prop) : pdcp_link -> pdcp_link -> Prop :=
  | link_send l sdu t evs :
      pdcp_sdu_ok sdu -> pdcp_handle_sdu (lk_tx l) sdu = Some (t, evs) ->
      pdcp_link_step arrives l (lk_with_tx l t (lk_sdus l ++ map (fun _ => sdu) (tx_pdus evs))
        (lk_air l ++ map (pair (tx_next (lk_tx l))) (tx_pdus evs)))
  | link_transmitted l sn t :
      handle_transmit_notification (lk_tx l) sn = Some t -> pdcp_link_step arrives l (lk_with_tx l t (lk_sdus l) (lk_air l))
  | link_delivered l sn t :
      handle_delivery_notification (lk_tx l) sn = Some t -> pdcp_link_step arrives l (lk_with_tx l t (lk_sdus l) (lk_air l))
  | link_status l status t evs :
      handle_status_report (lk_tx l) status = Some (t, evs) -> pdcp_link_step arrives l (lk_with_tx l t (lk_sdus l) (lk_air l))
  | link_discard l count :
      pdcp_link_step arrives l (lk_with_tx l (discard_callback (lk_tx l) count).1 (lk_sdus l) (lk_air l))
  | link_recover l report evs :
      data_recovery (lk_tx l) report = Some evs ->
      pdcp_link_step arrives l (lk_with_tx l (lk_tx l) (lk_sdus l)
        (lk_air l ++ zip (map fst (discard_timers_map (lk_tx l))) (tx_data_pdus evs)))
  | link_arrive l pdu r evs :
      arrives l pdu -> pdcp_handle_pdu (lk_rx l) pdu = Some (r, evs) -> pdcp_link_step arrives l (lk_with_rx l r (lk_out l ++ rx_sdus evs))
  | link_expire l :
      reordering_timer (lk_rx l) = true ->
      pdcp_link_step arrives l (lk_with_rx l (reordering_callback (lk_rx l)).1 (lk_out l ++ rx_sdus (reordering_callback (lk_rx l)).2))
  | link_reestablish l sec t evs r evs' :
      (forall k c p, (k, c, p) ∈ lk_sent l -> k_128_enc k <> k_128_enc sec) ->
      tx_reestablish (lk_tx l) sec = Some (t, evs) -> rx_reestablish (lk_rx l) sec = Some (r, evs') ->
      pdcp_link_step arrives l
        (let restart := restarts (ptx_c (lk_tx l)) in
         PdcpLink t r (if restart then [] else lk_sdus l) (zip (map fst (discard_timers_map t)) (tx_data_pdus evs))
           (if restart then [] else lk_out l ++ rx_sdus evs')
           (if restart then lk_done l ++ [(lk_sdus l, lk_out l ++ rx_sdus evs')] else lk_done l) (lk_sent l)).

(** ** What the transmitting entity keeps *)
Definition ptx_same (t t' : pdcp_entity_tx) : Prop :=
  ptx_cfg t' = ptx_cfg t /\ ptx_bearer_id t' = ptx_bearer_id t /\ ptx_sec_cfg t' = ptx_sec_cfg t
  /\ ptx_integrity_enabled t' = ptx_integrity_enabled t /\ ptx_ciphering_enabled t' = ptx_ciphering_enabled t.

Lemma tx_protect_same t t' sdu count : ptx_same t t' -> tx_protect t' sdu count = tx_protect t sdu count.
Proof.
  intros (H1 & H2 & H3 & H4 & H5).
  unfold tx_protect, apply_ciphering_and_integrity_protection, integrity_generate, cipher_encrypt, ptx_SN, ptx_c.
  by rewrite H1, H2, H3, H4, H5.
Qed.
Lemma matched_same t t' r r' : ptx_same t t' -> prx_same r r' -> pdcp_matched t r -> pdcp_matched t' r'.
Proof.
  intros (H1 & H2 & H3 & H4 & H5) (G1 & G2 & G3 & G4 & G5) [M1 M2 M3 M4 M5 M6].
  split; unfold ptx_c in *; try congruence. by rewrite H1.
Qed.

(** The discard timers: the SDUs kept for retransmission, in the order of their
    COUNT. *)
Record ptx_inv (t : pdcp_entity_tx) (sdus : list bytes) : Prop := {
  pt_hard : 0 <= max_count_hard (ptx_max_count (ptx_cfg t)) < 2 ^ 32;
  pt_next : tx_next t = Z.of_nat (length sdus);
  pt_limit : tx_next t <= max_count_hard (ptx_max_count (ptx_cfg t));
  pt_ok : om_ok (discard_timers_map t);
  pt_entries : forall c i, (c, i) ∈ discard_timers_map t ->
    di_count i = c /\ 0 <= c < tx_next t /\ (is_um (ptx_c t) = false -> sdus !! Z.to_nat c = Some (di_sdu i));
  pt_sdus : Forall pdcp_sdu_ok sdus;
}.

(** Operations that only remove discard timers. *)
Record timers_shrink (t t' : pdcp_entity_tx) : Prop := {
  ts_same : ptx_same t t';
  ts_next : tx_next t' = tx_next t;
  ts_ok : om_ok (discard_timers_map t) -> om_ok (discard_timers_map t');
  ts_sub : forall p, p ∈ discard_timers_map t' -> p ∈ discard_timers_map t;
}.

Lemma timers_shrink_refl t : timers_shrink t t.
Proof. by split. Qed.
Lemma timers_shrink_filter t (P : Z * discard_info -> Prop) `{!forall x, Decision (P x)} :
  timers_shrink t (ptx_with_map t (filter P (discard_timers_map t))).
Proof. split; try done; cbn. { apply om_filter_ok. } intros p Hp. by apply list_elem_of_filter in Hp as [_ Hp]. Qed.
Lemma timers_shrink_trans a b c : timers_shrink a b -> timers_shrink b c -> timers_shrink a c.
Proof.
  intros [(H1 & H2 & H3 & H4 & H5) H6 H7 H8] [(G1 & G2 & G3 & G4 & G5) G6 G7 G8].
  split; [unfold ptx_same; split_and!|..]; try congruence; auto.
Qed.

Lemma ptx_inv_shrink t t' sdus : timers_shrink t t' -> ptx_inv t sdus -> ptx_inv t' sdus.
Proof.
  intros [Hs Hn Hok Hsub] [H1 H2 H3 H4 H5 H6]. pose proof Hs as (Hcfg & _).
  split; unfold ptx_c in *; rewrite ?Hcfg, ?Hn; auto.
Qed.

Lemma erase_counts_sub n c m : (om_ok m -> om_ok (erase_counts n c m)) /\ forall p, p ∈ erase_counts n c m -> p ∈ m.
Proof.
  revert c m. induction n as [|n IH]; intros c m; [done|]. cbn [erase_counts].
  destruct (IH (u32 (c + 1)) (om_erase c m)) as [H1 H2]. split.
  - intros H. by apply H1, om_erase_ok.
  - intros p Hp. apply H2 in Hp. by apply list_elem_of_filter in Hp as [_ Hp].
Qed.

Lemma stop_discard_timer_shrink t sn t' : stop_discard_timer t sn = Some t' -> timers_shrink t t'.
Proof.
  unfold stop_discard_timer. destruct (negb _); [intros [= <-]; apply timers_shrink_refl|].
  destruct (discard_timers_map t) as [|[c i] m] eqn:Em; [intros [= <-]; apply timers_shrink_refl|].
  destruct (_ =? _); [done|]. intros [= <-]. rewrite <- Em.
  destruct (erase_counts_sub (Z.to_nat (count_of_sn (sn_size (ptx_c t)) c sn - c + 1)) c (discard_timers_map t)).
  by split.
Qed.
Lemma transmit_notification_shrink t sn t' : handle_transmit_notification t sn = Some t' -> timers_shrink t t'.
Proof.
  unfold handle_transmit_notification. destruct (_ <=? _); [intros [= <-]; apply timers_shrink_refl|].
  destruct (is_um _); [apply stop_discard_timer_shrink|intros [= <-]; apply timers_shrink_refl].
Qed.
Lemma delivery_notification_shrink t sn t' : handle_delivery_notification t sn = Some t' -> timers_shrink t t'.
Proof.
  unfold handle_delivery_notification. destruct (_ <=? _); [intros [= <-]; apply timers_shrink_refl|].
  destruct (is_am _); [apply stop_discard_timer_shrink|intros [= <-]; apply timers_shrink_refl].
Qed.

Lemma handle_bitmap_shrink fuel t d fmc evs : timers_shrink t (handle_bitmap fuel t d fmc evs).1.
Proof.
  revert t d fmc evs. induction fuel as [|fuel IH]; intros t d fmc evs; cbn [handle_bitmap]; [apply timers_shrink_refl|].
  destruct (bit_unpack d 1) as [[[[|] bit] d']|]; try apply timers_shrink_refl.
  destruct (bit =? 1); [|apply IH]. eapply timers_shrink_trans; [|apply IH]. apply timers_shrink_filter.
Qed.
Lemma handle_status_report_shrink t status t' evs : handle_status_report t status = Some (t', evs) -> timers_shrink t t'.
Proof.
  unfold handle_status_report. destruct (bit_unpack _ 1) as [[[? dc] d1]|]; [|done].
  destruct (negb _); [intros [= <- _]; apply timers_shrink_refl|]. destruct (bit_unpack d1 3) as [[[? cpt] d2]|]; [|done].
  destruct (negb _); [intros [= <- _]; apply timers_shrink_refl|]. destruct (bit_unpack d2 4) as [[[? rsv] d3]|]; [|done].
  destruct (negb _); [intros [= <- _]; apply timers_shrink_refl|]. destruct (bit_unpack d3 32) as [[[? fmc] d4]|]; [|done].
  intros [= H]. apply (f_equal fst) in H. cbn [fst] in H. subst t'.
  eapply timers_shrink_trans; [|apply handle_bitmap_shrink]. apply timers_shrink_filter.
Qed.

(** ** An SDU is sent *)
Lemma tx_max_count_flags t : exists a b evs, tx_pdus evs = [] /\
  (if (max_count_notify (ptx_max_count (ptx_cfg t)) <=? tx_next t) && negb (ptx_max_count_notified t)
   then (ptx_with_flags t true (ptx_max_count_overflow t), [tx_max_count_reached]) else (t, []))
  = (ptx_with_flags t a b, evs).
Proof.
  destruct (_ && _); [by exists true, (ptx_max_count_overflow t), [tx_max_count_reached]|]. exists (ptx_max_count_notified t), (ptx_max_count_overflow t), [].
  split; [done|]. by destruct t.
Qed.

Lemma ptx_inv_flags t a b sdus : ptx_inv t sdus -> ptx_inv (ptx_with_flags t a b) sdus.
Proof. intros [H1 H2 H3 H4 H5 H6]. by split. Qed.

(** The discard timer of a new SDU. *)
Definition tx_with_timer (t : pdcp_entity_tx) (sdu : bytes) : pdcp_entity_tx :=
  if discard_timer_set t then
    ptx_with_map t (om_emplace (tx_next t) (DiscardInfo (tx_next t) (if is_um (ptx_c t) then [] else sdu))
                      (discard_timers_map t))
  else t.

Lemma tx_with_timer_same t sdu : ptx_same t (tx_with_timer t sdu) /\ tx_next (tx_with_timer t sdu) = tx_next t.
Proof. unfold tx_with_timer. by destruct (discard_timer_set t). Qed.

Lemma om_emplace_elem {V} (m : ordmap V) k v p : om_ok m -> p ∈ om_emplace k v m -> p = (k, v) \/ p ∈ m.
Proof.
  intros Hok. destruct p as [c i]. rewrite <- !om_find_elem by (by apply om_emplace_ok || done).
  rewrite om_find_emplace. destruct (c =? k) eqn:E; breflect; cbn [andb]; [|by right].
  subst c. destruct (bool_decide _); [|by right]. intros [= ->]. by left.
Qed.

Lemma ptx_inv_send t sdus sdu : ptx_inv t sdus -> pdcp_sdu_ok sdu ->
  tx_next t < max_count_hard (ptx_max_count (ptx_cfg t)) ->
  ptx_inv (ptx_with_next (tx_with_timer t sdu) (u32 (tx_next t + 1))) (sdus ++ [sdu]).
Proof.
  intros [H1 H2 H3 H4 H5 H6] Hsdu Hlt. destruct (tx_with_timer_same t sdu) as [(Hcfg & _) Hn].
  assert (u32 (tx_next t + 1) = tx_next t + 1) as Hu by (apply u32_id; unfold is_u32; lia).
  split; unfold ptx_c in *; cbn [tx_next ptx_with_next ptx_cfg discard_timers_map]; rewrite ?Hcfg, ?Hu; [done| |lia| | |].
  - rewrite length_app. cbn. lia.
  - unfold tx_with_timer. destruct (discard_timer_set _); [by apply om_emplace_ok|done].
  - intros c i Hin. assert ((c, i) = (tx_next t, DiscardInfo (tx_next t) (if is_um (ptx_c t) then [] else sdu))
      \/ (c, i) ∈ discard_timers_map t) as [[= -> ->]|Hold].
    { unfold tx_with_timer in Hin. destruct (discard_timer_set _); [by apply om_emplace_elem|by right]. }
    + split_and!; [done|lia|lia|]. unfold ptx_c. cbn [di_sdu]. intros ->. rewrite H2, Nat2Z.id. by apply list_lookup_middle.
    + destruct (H5 c i Hold) as (G1 & G2 & G3). split_and!; [done|lia|lia|]. intros Hum.
      by apply lookup_app_l_Some, G3.
  - apply Forall_app. split; [done|]. by constructor.
Qed.

(** Either the COUNT space is used up and nothing is sent, or the SDU is sent
    with COUNT TX_NEXT. *)
Lemma pdcp_handle_sdu_spec t sdus sdu : ptx_inv t sdus -> pdcp_sdu_ok sdu ->
  (rb_type (ptx_c t) = pdcp_srb -> sn_size (ptx_c t) = pdcp_size12bits) ->
  exists t' evs, pdcp_handle_sdu t sdu = Some (t', evs) /\ ptx_same t t' /\
    ((tx_next t = max_count_hard (ptx_max_count (ptx_cfg t)) /\ tx_pdus evs = [] /\ ptx_inv t' sdus)
     \/ (exists pdu, tx_pdus evs = [pdu] /\ tx_protect t sdu (tx_next t) = Some pdu /\ ptx_inv t' (sdus ++ [sdu]))).
Proof.
  intros Hinv Hsdu Hsrb. unfold pdcp_handle_sdu. destruct (_ <=? tx_next t) eqn:Eh; breflect.
  { assert (tx_next t = max_count_hard (ptx_max_count (ptx_cfg t))) as Heq by (destruct Hinv; lia).
    destruct (negb _); eexists _, _; (split; [done|]); (split; [done|]); left; split_and!; try done.
    by apply ptx_inv_flags. }
  destruct (tx_max_count_flags t) as (a & b & evs & Hevs & ->). set (t1 := ptx_with_flags t a b).
  destruct (tx_protect_spec t1 sdu (tx_next t) Hsrb Hsdu) as (h & mac & ct & Hp & _).
  change (tx_next t1) with (tx_next t). rewrite Hp. eexists _, _. split; [done|].
  fold (tx_with_timer t1 sdu). destruct (tx_with_timer_same t1 sdu) as [Hs1 Hn1].
  split; [done|]. right. exists (h ++ ct). split_and!.
  - unfold tx_pdus in *. by rewrite omap_app, Hevs.
  - transitivity (tx_protect t1 sdu (tx_next t)); [|exact Hp]. symmetry. by apply tx_protect_same.
  - change (ptx_inv (ptx_with_next (tx_with_timer t1 sdu) (u32 (tx_next (tx_with_timer t1 sdu) + 1))) (sdus ++ [sdu])).
    rewrite Hn1. apply (ptx_inv_send t1); [by apply ptx_inv_flags|done|]. cbn. lia.
Qed.

(** ** Retransmission repeats the PDUs *)
Lemma retransmit_loop_spec t m : rb_type (ptx_c t) = pdcp_drb ->
  (forall c i, (c, i) ∈ m -> di_count i = c /\ pdcp_sdu_ok (di_sdu i)) ->
  exists evs, retransmit_loop t m = Some evs
    /\ Forall2 (fun ci p => tx_protect t (di_sdu ci.2) ci.1 = Some p) m (tx_data_pdus evs).
Proof.
  intros Hd. induction m as [|[c i] m IH]; intros Hm; cbn [retransmit_loop]; [exists []; by split|].
  destruct (Hm c i (list_elem_of_here _ _)) as [-> Hok].
  destruct (tx_protect_spec t (di_sdu i) c) as (h & mac & ct & Hp & _); [congruence|done|]. rewrite Hp.
  destruct IH as (evs & -> & HF). { intros. by apply Hm, list_elem_of_further. }
  eexists. split; [done|]. unfold write_data_pdu_to_lower_layers, is_drb. rewrite bool_decide_true by done.
  cbn. constructor; [done|]. exact HF.
Qed.

(** ** A PDU of the peer arrives *)
Lemma pdcp_handle_pdu_protected t r sdu c p :
  pdcp_matched t r -> pdcp_sdu_ok sdu -> is_u32 c -> is_u32 (rx_deliv (prx_st r)) -> in_window r c ->
  tx_protect t sdu c = Some p ->
  exists a b evs0, rx_sdus evs0 = [] /\
    pdcp_handle_pdu r p =
      Some (if max_count_hard (prx_max_count (prx_cfg r)) <=? c then (prx_with_flags r a b, evs0)
            else ((rx_store (prx_with_flags r a b) c sdu).1, evs0 ++ (rx_store (prx_with_flags r a b) c sdu).2)).
Proof.
  intros Hm Hsdu Hc Hd Hw Hp.
  destruct (tx_protect_spec t sdu c (pm_srb _ _ Hm) Hsdu) as (h & mac & ct & Hp' & Hpr).
  assert (p = h ++ ct) as -> by congruence. destruct (protected_sized _ _ _ _ _ _ _ Hm Hsdu Hpr) as (_ & Hlen & _).
  assert (pdcp_handle_pdu r (h ++ ct) = pdcp_handle_data_pdu r (h ++ ct)) as ->.
  { unfold pdcp_handle_pdu, is_srb. rewrite (pm_common _ _ Hm). destruct (rb_type (ptx_c t)) eqn:Erb.
    - rewrite bool_decide_true by done. pose proof (pdcp_header_size_pos (prx_sn_size r)) as Hh. unfold prx_hdr_len in Hlen.
      destruct (h ++ ct) as [|b rest]; [rewrite blen_nil in Hlen; lia|]. by destruct (pdcp_pdu_get_dc b).
    - destruct (pdcp_header_dc _ _ _ (pr_header _ _ _ _ _ _ Hpr) Erb) as (b & rest & -> & Hb). cbn [app]. by rewrite Hb. }
  unfold pdcp_handle_data_pdu. destruct (_ <=? prx_hdr_len r) eqn:E; breflect; [lia|].
  rewrite (pm_common _ _ Hm), (pr_read _ _ _ _ _ _ Hpr).
  assert (prx_sn_size r = sn_size (ptx_c t)) as Hsn by (unfold prx_sn_size; by rewrite (pm_common _ _ Hm)).
  unfold ptx_SN. rewrite <- Hsn, (count_of_sn_window _ _ _ Hd Hc) by exact Hw.
  pose proof (check_max_count_spec r c) as Hmc. destruct (check_max_count r c) as [[ok r'] evs0].
  destruct Hmc as ((a & b & ->) & He & ->). exists a, b, evs0. split; [done|]. rewrite negb_involutive.
  destruct (_ <=? c); [done|].
  assert (pdcp_matched t (prx_with_flags r a b)) as Hm' by (by destruct Hm).
  rewrite (rx_unprotect_protected _ _ _ _ _ _ _ Hm' Hsdu Hpr). by destruct (rx_store _ _ _).
Qed.

(** ** The invariant of the system *)
Definition carries (sdus : list bytes) (p : Z * bytes) : Prop := 0 <= p.1 /\ sdus !! Z.to_nat p.1 = Some p.2.

(** SDUs delivered in the order of their COUNT. *)
Definition delivered_in_order (sdus out : list bytes) : Prop :=
  exists log, out = map snd log /\ om_above (-1) log /\ Forall (carries sdus) log.

(** The transmitting side, whatever happens to the receiving side. *)
Record ltx_inv (l : pdcp_link) : Prop := {
  li_tx : ptx_inv (lk_tx l) (lk_sdus l);
  li_srb : rb_type (ptx_c (lk_tx l)) = pdcp_srb -> sn_size (ptx_c (lk_tx l)) = pdcp_size12bits;
  li_air : forall c p, (c, p) ∈ lk_air l ->
    exists sdu, carries (lk_sdus l) (c, sdu) /\ tx_protect (lk_tx l) sdu c = Some p;
  li_keys : forall k c p, (k, c, p) ∈ lk_past l -> k_128_enc k <> k_128_enc (ptx_sec_cfg (lk_tx l));
  li_past : forall k k' c p p', (k, c, p) ∈ lk_past l -> (k', c, p') ∈ lk_past l -> k_128_enc k = k_128_enc k' -> p = p';
}.

Record link_inv (l : pdcp_link) : Prop := {
  li_ltx : ltx_inv l;
  li_rx : prx_inv (lk_rx l);
  li_matched : pdcp_matched (lk_tx l) (lk_rx l);
  li_queue : Forall (carries (lk_sdus l)) (reorder_queue (lk_rx l));
  li_log : exists log, lk_out l = map snd log /\ om_above (-1) log
    /\ Forall (fun p => p.1 < rx_deliv (prx_st (lk_rx l))) log /\ Forall (carries (lk_sdus l)) log
    /\ (t_reordering (prx_cfg (lk_rx l)) = t_reordering_infinity -> map fst log = seqZ 0 (rx_deliv (prx_st (lk_rx l))));
  li_done : Forall (fun d => delivered_in_order d.1 d.2) (lk_done l);
}.

Lemma carries_app sdus x p : carries sdus p -> carries (sdus ++ x) p.
Proof. intros [H1 H2]. split; [done|]. by apply lookup_app_l_Some. Qed.

Lemma carries_sdu_ok t sdus p : ptx_inv t sdus -> carries sdus p -> pdcp_sdu_ok p.2 /\ is_u32 p.1 /\ p.1 < tx_next t.
Proof.
  intros [H1 H2 H3 _ _ H6] [Hc Hl]. pose proof (lookup_lt_Some _ _ _ Hl). unfold is_u32.
  split_and!; try lia. by eapply list.Forall_forall in H6; [|eapply list_elem_of_lookup_2].
Qed.

(** The transmitting entity changes, PDUs are added to the air. *)
Lemma ltx_inv_tx l t sdus air : ltx_inv l -> ptx_same (lk_tx l) t -> ptx_inv t (lk_sdus l ++ sdus) ->
  (forall c p, (c, p) ∈ air -> exists sdu, carries (lk_sdus l ++ sdus) (c, sdu) /\ tx_protect (lk_tx l) sdu c = Some p) ->
  ltx_inv (lk_with_tx l t (lk_sdus l ++ sdus) (lk_air l ++ air)).
Proof.
  intros [H1 H2 H3 H4 H5] Hs Ht Hair. pose proof Hs as (Hcfg & _ & Hsec & _). split; cbn [lk_with_tx lk_tx lk_rx lk_sdus lk_air lk_past]; try done.
  - unfold ptx_c in *. by rewrite Hcfg.
  - intros c p Hin. apply elem_of_app in Hin as [Hin|Hin].
    + destruct (H3 c p Hin) as (sdu & Hc & Hp). exists sdu. split; [by apply carries_app|]. by rewrite (tx_protect_same (lk_tx l)).
    + destruct (Hair c p Hin) as (sdu & Hc & Hp). exists sdu. split; [done|]. by rewrite (tx_protect_same (lk_tx l)).
  - by rewrite Hsec.
Qed.
Lemma link_inv_tx l t sdus air : link_inv l -> ptx_same (lk_tx l) t -> ltx_inv (lk_with_tx l t (lk_sdus l ++ sdus) air) ->
  link_inv (lk_with_tx l t (lk_sdus l ++ sdus) air).
Proof.
  intros [H1 H2 H3 H5 (log & L1 & L2 & L3 & L4 & L5) H6] Hs Hl. split; cbn [lk_with_tx lk_tx lk_rx lk_sdus lk_air lk_out lk_done]; try done.
  - by eapply matched_same.
  - eapply list.Forall_impl; [exact H5|]. intros. by apply carries_app.
  - exists log. split_and!; try done. eapply list.Forall_impl; [exact L4|]. intros. by apply carries_app.
Qed.
Lemma link_inv_tx0 l t air : link_inv l -> ptx_same (lk_tx l) t -> ltx_inv (lk_with_tx l t (lk_sdus l) air) -> link_inv (lk_with_tx l t (lk_sdus l) air).
Proof. intros Hinv Hs Hl. pose proof (link_inv_tx l t [] air Hinv Hs) as H. rewrite app_nil_r in H. by apply H. Qed.

Lemma ltx_inv_rx l r out : ltx_inv l -> ltx_inv (lk_with_rx l r out).
Proof. intros [H1 H2 H3 H4 H5]. by split. Qed.

(** The receiving entity delivers the SDUs [ps]. *)
Lemma link_inv_rx l r evs ps : link_inv l -> rx_step_ok (lk_rx l) r evs ps ->
  Forall (carries (lk_sdus l)) ps -> Forall (carries (lk_sdus l)) (reorder_queue r) ->
  (t_reordering (prx_cfg r) = t_reordering_infinity ->
     map fst ps = seqZ (rx_deliv (prx_st (lk_rx l))) (rx_deliv (prx_st r) - rx_deliv (prx_st (lk_rx l)))) ->
  link_inv (lk_with_rx l r (lk_out l ++ rx_sdus evs)).
Proof.
  intros [H1 H2 H3 H5 (log & L1 & L2 & L3 & L4 & L5) H6] [R1 R2 R3 R4 R5 R6] Hps Hq Hinf.
  split; cbn [lk_with_rx lk_tx lk_rx lk_sdus lk_air lk_out lk_done]; try done.
  - by apply ltx_inv_rx.
  - by eapply matched_same; [..|exact H3].
  - exists (log ++ ps). pose proof (pi_order _ H2) as Ho. split_and!.
    + by rewrite L1, R3, map_app.
    + by eapply om_above_join; [..|exact R4]; try done; lia.
    + apply Forall_app. split; [|done]. eapply list.Forall_impl; [exact L3|]. cbn. lia.
    + by apply Forall_app.
    + intros Ht. pose proof R2 as (Hcfg & _). rewrite map_app, Hinf, L5 by congruence.
      replace (rx_deliv (prx_st r)) with (rx_deliv (prx_st (lk_rx l)) + (rx_deliv (prx_st r) - rx_deliv (prx_st (lk_rx l)))) at 2 by lia.
      rewrite seqZ_app by lia. f_equal.
Qed.

(** What the arrival of the PDU with COUNT [c] and SDU [sdu] does. *)
Record arrival (r : pdcp_entity_rx) (c : Z) (sdu : bytes) (r' : pdcp_entity_rx) (evs : list pdcp_rx_event)
    (ps : ordmap bytes) : Prop := {
  ar_step : rx_step_ok r r' evs ps;
  ar_refused : max_count_hard (prx_max_count (prx_cfg r)) <= c \/ c < rx_deliv (prx_st r)
    \/ is_Some (om_find c (reorder_queue r)) -> ps = [] /\ reorder_queue r' = reorder_queue r /\ prx_st r' = prx_st r;
  ar_accepted : c < max_count_hard (prx_max_count (prx_cfg r)) -> rx_deliv (prx_st r) <= c ->
    om_find c (reorder_queue r) = None ->
    ps ++ reorder_queue r' = om_assign c sdu (reorder_queue r)
    /\ rx_next (prx_st r') = Z.max (rx_next (prx_st r)) (c + 1);
  ar_in_order : t_reordering (prx_cfg r) = t_reordering_infinity ->
    map fst ps = seqZ (rx_deliv (prx_st r)) (rx_deliv (prx_st r') - rx_deliv (prx_st r));
}.

Lemma arrival_refused r a b c sdu evs : prx_inv r -> rx_sdus evs = [] ->
  (max_count_hard (prx_max_count (prx_cfg r)) <= c \/ c < rx_deliv (prx_st r) \/ is_Some (om_find c (reorder_queue r))) ->
  arrival r c sdu (prx_with_flags r a b) evs [].
Proof.
  intros Hinv He Hr. split; [by apply rx_step_none|done| |].
  - intros ? ? Hf. rewrite Hf in Hr. destruct Hr as [?|[?|[? ?]]]; [lia|lia|done].
  - intros _. cbn. by rewrite Z.sub_diag.
Qed.

Lemma pdcp_arrival t r sdu c p :
  pdcp_matched t r -> prx_inv r -> pdcp_sdu_ok sdu -> is_u32 c -> in_window r c -> tx_protect t sdu c = Some p ->
  exists r' evs ps, pdcp_handle_pdu r p = Some (r', evs) /\ arrival r c sdu r' evs ps.
Proof.
  intros Hm Hinv Hsdu Hc Hw Hp. assert (is_u32 (rx_deliv (prx_st r))) as Hd by (destruct Hinv; unfold is_u32; lia).
  destruct (pdcp_handle_pdu_protected t r sdu c p Hm Hsdu Hc Hd Hw Hp) as (a & b & evs0 & He & ->).
  destruct (_ <=? c) eqn:Eh; breflect.
  { eexists _, _, []. split; [done|]. apply arrival_refused; [done|done|lia]. }
  set (r0 := prx_with_flags r a b). assert (prx_inv r0) as Hinv0 by (by destruct Hinv).
  destruct (decide (c < rx_deliv (prx_st r))) as [Hlt|Hge].
  { eexists _, _, []. split; [done|]. unfold rx_store at 1 2. change (rx_deliv (prx_st r0)) with (rx_deliv (prx_st r)).
    destruct (c <? _) eqn:E; breflect; [|lia]. cbn [fst snd]. rewrite app_nil_r. apply arrival_refused; [done|done|lia]. }
  destruct (om_find c (reorder_queue r)) as [x|] eqn:Ef.
  { eexists _, _, []. split; [done|]. unfold rx_store at 1 2. change (rx_deliv (prx_st r0)) with (rx_deliv (prx_st r)).
    destruct (c <? _) eqn:E; breflect; [lia|]. change (reorder_queue r0) with (reorder_queue r). rewrite Ef. cbn [fst snd].
    rewrite app_nil_r. apply arrival_refused; [done|done|]. right; right. by eexists. }
  destruct (rx_store_spec r0 c sdu Hinv0) as (ps & Hinv' & [[Q1 Q2 Q3] Q4 Q5 Q6 Q7]); [cbn; lia|done|].
  eexists _, _, ps. split; [done|]. split; [| | |done].
  - eapply (rx_step_flags r a b); [|done]. split; try done; [by rewrite Q2, rx_sdus_map|].
    apply (om_above_prefix _ _ (reorder_queue (rx_store r0 c sdu).1)). rewrite <- Q1.
    apply om_above_assign; [|cbn; lia]. eapply om_above_weaken; [|apply Hinv]. cbn. lia.
  - rewrite Ef. intros [?|[?|[? ?]]]; [lia|lia|done].
  - intros _ _ _. split; [symmetry; exact Q1|exact Q5].
Qed.

(** ** Reachable states *)
Definition link_fresh (l : pdcp_link) : Prop :=
  pdcp_matched (lk_tx l) (lk_rx l) /\ tx_next (lk_tx l) = 0 /\ discard_timers_map (lk_tx l) = []
  /\ 0 <= max_count_hard (ptx_max_count (ptx_cfg (lk_tx l))) < 2 ^ 32
  /\ 0 <= max_count_hard (prx_max_count (prx_cfg (lk_rx l))) < 2 ^ 32
  /\ prx_st (lk_rx l) = PdcpRxState 0 0 0 /\ reorder_queue (lk_rx l) = [] /\ reordering_timer (lk_rx l) = false
  /\ lk_sdus l = [] /\ lk_air l = [] /\ lk_out l = [] /\ lk_done l = [] /\ lk_past l = [].

Lemma ptx_inv_zero t : 0 <= max_count_hard (ptx_max_count (ptx_cfg t)) < 2 ^ 32 -> tx_next t = 0 -> discard_timers_map t = [] -> ptx_inv t [].
Proof. intros H1 H2 H3. split; rewrite ?H2, ?H3; try done; try lia. by intros ? ? ?%not_elem_of_nil. Qed.
Lemma prx_inv_zero r : 0 <= max_count_hard (prx_max_count (prx_cfg r)) < 2 ^ 32 -> prx_st r = PdcpRxState 0 0 0 ->
  reorder_queue r = [] -> reordering_timer r = false -> prx_inv r.
Proof.
  intros H1 H2 H3 H4. apply prx_inv_intro; rewrite ?H2, ?H3, ?H4; cbn; try done; try lia. by destruct (t_reordering _) as [[]|].
Qed.

Lemma link_inv_fresh l : link_fresh l -> link_inv l.
Proof.
  intros (H1 & H2 & H3 & H4 & H5 & H6 & H7 & H8 & H9 & H10 & H11 & H12 & H13). split.
  - split; rewrite ?H9, ?H10, ?H13; [by apply ptx_inv_zero|apply H1|by intros ? ? ?%not_elem_of_nil|by intros ? ? ? ?%not_elem_of_nil|by intros ? ? ? ? ? ?%not_elem_of_nil].
  - by apply prx_inv_zero.
  - done.
  - rewrite H7. by apply Forall_nil_2.
  - exists []. rewrite H6, H11. split_and!; try done; by apply Forall_nil_2.
  - rewrite H12. by apply Forall_nil_2.
Qed.

Lemma ltx_inv_send l sdu t evs : ltx_inv l -> pdcp_sdu_ok sdu -> pdcp_handle_sdu (lk_tx l) sdu = Some (t, evs) ->
  ptx_same (lk_tx l) t /\ ltx_inv (lk_with_tx l t (lk_sdus l ++ map (fun _ => sdu) (tx_pdus evs))
    (lk_air l ++ map (pair (tx_next (lk_tx l))) (tx_pdus evs))).
Proof.
  intros Hinv Hsdu Hh.
  destruct (pdcp_handle_sdu_spec _ _ _ (li_tx _ Hinv) Hsdu (li_srb _ Hinv)) as (t' & evs' & Hh' & Hs & Hcase).
  rewrite Hh in Hh'. injection Hh' as <- <-. split; [done|]. destruct Hcase as [(_ & -> & Ht)|(pdu & -> & Hp & Ht)]; cbn [map].
  - apply ltx_inv_tx; [done|done|by rewrite app_nil_r|by intros ? ? ?%not_elem_of_nil].
  - apply ltx_inv_tx; [done|done|done|]. intros c p [= -> ->]%list_elem_of_singleton. exists sdu. split; [|done].
    pose proof (pt_next _ _ (li_tx _ Hinv)) as Hn. split; cbn; [lia|]. rewrite Hn, Nat2Z.id. by apply list_lookup_middle.
Qed.

Lemma ltx_inv_shrink l t : ltx_inv l -> timers_shrink (lk_tx l) t -> ltx_inv (lk_with_tx l t (lk_sdus l) (lk_air l)).
Proof.
  intros Hinv Hs. pose proof (ltx_inv_tx l t [] [] Hinv (ts_same _ _ Hs)) as H. rewrite !app_nil_r in H. apply H.
  - by eapply ptx_inv_shrink; [|apply Hinv].
  - by intros ? ? ?%not_elem_of_nil.
Qed.

Lemma tx_data_pdus_app a b : tx_data_pdus (a ++ b) = tx_data_pdus a ++ tx_data_pdus b.
Proof. apply omap_app. Qed.
Lemma tx_data_pdus_status t report : tx_data_pdus (if status_report_required (ptx_cfg t) then send_status_report t report else []) = [].
Proof. unfold send_status_report. by destruct (status_report_required (ptx_cfg t)). Qed.

(** The retransmission of all SDUs of an AM bearer. *)
Lemma retransmit_all_carried t sdus evs : ptx_inv t sdus -> rb_type (ptx_c t) = pdcp_drb -> is_um (ptx_c t) = false ->
  retransmit_all_pdus t = Some evs ->
  forall c p, (c, p) ∈ zip (map fst (discard_timers_map t)) (tx_data_pdus evs) -> exists sdu, carries sdus (c, sdu) /\ tx_protect t sdu c = Some p.
Proof.
  intros Hinv Hrb Hum Hev c p Hin.
  destruct (retransmit_loop_spec t (discard_timers_map t) Hrb) as (evs' & Hev' & HF).
  { intros c' i Hin'. destruct (pt_entries _ _ Hinv c' i Hin') as (-> & Hc & Hs). split; [done|].
    eapply list.Forall_forall; [apply (pt_sdus _ _ Hinv)|]. by eapply list_elem_of_lookup_2, Hs. }
  unfold retransmit_all_pdus in Hev. assert (evs' = evs) as -> by congruence.
  apply list_elem_of_lookup in Hin as [k Hk]. apply lookup_zip_Some in Hk as [Hk1 Hk2].
  apply list_lookup_fmap_Some in Hk1 as ([c' i] & -> & Hk1).
  pose proof (Forall2_lookup_lr _ _ _ _ _ _ HF Hk1 Hk2) as Hp. cbn [fst snd] in *. exists (di_sdu i). split; [|done].
  destruct (pt_entries _ _ Hinv c' i) as (_ & Hc & Hs); [by eapply list_elem_of_lookup_2|]. split; cbn; [lia|by apply Hs].
Qed.

Lemma ltx_inv_recover l report evs : ltx_inv l -> data_recovery (lk_tx l) report = Some evs ->
  ltx_inv (lk_with_tx l (lk_tx l) (lk_sdus l)
    (lk_air l ++ zip (map fst (discard_timers_map (lk_tx l))) (tx_data_pdus evs))).
Proof.
  intros Hinv. unfold data_recovery, is_drb, is_am. destruct (_ && _) eqn:Eb; [|done]. breflect.
  assert (is_um (ptx_c (lk_tx l)) = false) as Hum by (unfold is_um; rewrite H0; done).
  destruct (retransmit_all_pdus (lk_tx l)) as [evs'|] eqn:Hev; [|done]. intros [= <-].
  rewrite tx_data_pdus_app, tx_data_pdus_status. cbn [app].
  pose proof (ltx_inv_tx l (lk_tx l) [] (zip (map fst (discard_timers_map (lk_tx l))) (tx_data_pdus evs')) Hinv) as HI.
  rewrite !app_nil_r in HI. apply HI; [done|apply Hinv|]. by apply retransmit_all_carried; [apply Hinv|..].
Qed.

Lemma not_restarting c : restarts c = false -> rb_type c = pdcp_drb /\ is_um c = false /\ is_am c = true.
Proof. unfold restarts, is_srb, is_um, is_am. destruct (rb_type c), (rlc_mode c); done. Qed.

(** The transmitting entity after a re-establishment. *)
Lemma tx_reestablish_spec t sec t' evs sdus : ptx_inv t sdus -> tx_reestablish t sec = Some (t', evs) ->
  ptx_cfg t' = ptx_cfg t /\ ptx_bearer_id t' = ptx_bearer_id t /\ ptx_sec_cfg t' = sec /\ ptx_integrity_enabled t' = true /\ ptx_ciphering_enabled t' = true
  /\ ptx_inv t' (if restarts (ptx_c t) then [] else sdus)
  /\ forall c p, (c, p) ∈ zip (map fst (discard_timers_map t')) (tx_data_pdus evs) ->
       exists sdu, carries (if restarts (ptx_c t) then [] else sdus) (c, sdu) /\ tx_protect t' sdu c = Some p.
Proof.
  intros Hinv. unfold tx_reestablish. fold (restarts (ptx_c t)). destruct (restarts (ptx_c t)) eqn:Er.
  - unfold tx_enable_security. destruct (domain_ok _ sec); [|done].
    intros H. assert (t' = PdcpTx (ptx_cfg t) (ptx_bearer_id t) sec true true 0 [] (ptx_max_count_notified t) (ptx_max_count_overflow t)) as ->
      by (by destruct (is_am _); injection H as <- _).
    split_and!; try done; [|by intros ? ? ?%not_elem_of_nil]. by apply ptx_inv_zero; [apply Hinv|..].
  - destruct (not_restarting _ Er) as (Hrb & Hum & Ham). unfold tx_enable_security. destruct (domain_ok _ sec); [|done].
    set (t1 := PdcpTx _ _ sec true true _ _ _ _). change (ptx_c t1) with (ptx_c t). rewrite Ham.
    assert (ptx_inv t1 sdus) as Hi1 by (by destruct Hinv).
    destruct (retransmit_all_pdus t1) as [evs'|] eqn:Hev; [|done]. intros [= <- <-]. split_and!; try done. by apply retransmit_all_carried.
Qed.

(** What was sent with one key and COUNT is one PDU. *)
Lemma sent_once l : ltx_inv l -> forall k k' c p p', (k, c, p) ∈ lk_sent l -> (k', c, p') ∈ lk_sent l -> k_128_enc k = k_128_enc k' -> p = p'.
Proof.
  intros [H1 H2 H3 H4 H5] k k' c p p' Hp Hp' Hk. unfold lk_sent in *. apply elem_of_app in Hp as [Hp|Hp], Hp' as [Hp'|Hp'].
  - by eapply H5.
  - apply list_elem_of_fmap in Hp' as ([c1 p1] & [= -> -> ->] & _). by destruct (H4 k c1 p Hp).
  - apply list_elem_of_fmap in Hp as ([c1 p1] & [= -> -> ->] & _). by destruct (H4 k' c1 p' Hp').
  - apply list_elem_of_fmap in Hp as ([c1 p1] & [= -> -> ->] & Hp). apply list_elem_of_fmap in Hp' as ([c2 p2] & [= -> <- ->] & Hp').
    destruct (H3 _ _ Hp) as (s1 & [_ C1] & T1). destruct (H3 _ _ Hp') as (s2 & [_ C2] & T2). cbn in *. congruence.
Qed.

Lemma ltx_inv_reestablish l sec t evs r out done_ : ltx_inv l -> (forall k c p, (k, c, p) ∈ lk_sent l -> k_128_enc k <> k_128_enc sec) ->
  tx_reestablish (lk_tx l) sec = Some (t, evs) ->
  ltx_inv (PdcpLink t r (if restarts (ptx_c (lk_tx l)) then [] else lk_sdus l) (zip (map fst (discard_timers_map t)) (tx_data_pdus evs)) out done_ (lk_sent l)).
Proof.
  intros Hinv Hkey Ht. destruct (tx_reestablish_spec _ _ _ _ _ (li_tx _ Hinv) Ht) as (Hcfg & _ & Hsec & _ & _ & Hi & Hair).
  split; cbn [lk_tx lk_sdus lk_air lk_past]; [done|unfold ptx_c in *; rewrite Hcfg; apply Hinv|done|by rewrite Hsec|by apply sent_once].
Qed.

Lemma link_inv_arrive l c p r evs : link_inv l -> (c, p) ∈ lk_air l -> in_window (lk_rx l) c ->
  pdcp_handle_pdu (lk_rx l) p = Some (r, evs) ->
  link_inv (lk_with_rx l r (lk_out l ++ rx_sdus evs)).
Proof.
  intros Hinv Hin Hw Hh. pose proof (li_ltx _ Hinv) as Htx. destruct (li_air _ Htx _ _ Hin) as (sdu & Hc & Hp).
  destruct (carries_sdu_ok _ _ _ (li_tx _ Htx) Hc) as (Hok & Hu & _). cbn [fst snd] in Hok, Hu.
  destruct (pdcp_arrival _ _ _ _ _ (li_matched _ Hinv) (li_rx _ Hinv) Hok Hu Hw Hp) as (r' & evs' & ps & Hh' & [Hst Href Hacc Hord]).
  rewrite Hh in Hh'. injection Hh' as <- <-.
  assert (Forall (carries (lk_sdus l)) (ps ++ reorder_queue r)) as [Hps Hq]%Forall_app.
  { destruct (decide (max_count_hard (prx_max_count (prx_cfg (lk_rx l))) <= c \/ c < rx_deliv (prx_st (lk_rx l)))) as [Hd|Hd].
    - destruct Href as (-> & -> & _); [tauto|]. apply Hinv.
    - destruct (om_find c (reorder_queue (lk_rx l))) as [x|] eqn:Ef.
      + destruct Href as (-> & -> & _); [right; right; by eexists|]. apply Hinv.
      + apply Decidable.not_or in Hd as [Hd1 Hd2]. destruct Hacc as [-> _]; [lia|lia|done|]. by apply om_assign_forall; [apply Hinv|]. }
  eapply link_inv_rx; [done|exact Hst|done|done|]. pose proof (rs_same _ _ _ _ Hst) as (Hcfg & _).
  intros Ht. apply Hord. congruence.
Qed.

Lemma link_inv_expire l : link_inv l -> reordering_timer (lk_rx l) = true ->
  link_inv (lk_with_rx l (reordering_callback (lk_rx l)).1 (lk_out l ++ rx_sdus (reordering_callback (lk_rx l)).2)).
Proof.
  intros Hinv Ht. pose proof (reordering_callback_step _ (li_rx _ Hinv) Ht) as Hst.
  eapply link_inv_rx; [done|exact Hst|apply Hinv| |].
  - destruct (reordering_callback_eq _ (li_rx _ Hinv) Ht) as [-> _]. by apply Forall_nil_2.
  - destruct (reordering_callback_eq _ (li_rx _ Hinv) Ht) as (-> & ms & Hms & _). cbn. congruence.
Qed.

(** The receiving entity after a re-establishment. *)
Lemma rx_reestablish_spec r sec r' evs : prx_inv r -> rx_reestablish r sec = Some (r', evs) ->
  prx_cfg r' = prx_cfg r /\ prx_bearer_id r' = prx_bearer_id r /\ prx_sec_cfg r' = sec /\ prx_integrity_enabled r' = true /\ prx_ciphering_enabled r' = true
  /\ prx_inv r'
  /\ if restarts (prx_common (prx_cfg r)) then prx_st r' = PdcpRxState 0 0 0 /\ reorder_queue r' = []
       /\ (rx_sdus evs = [] \/ rx_sdus evs = map snd (reorder_queue r))
     else prx_st r' = prx_st r /\ reorder_queue r' = reorder_queue r /\ rx_sdus evs = [].
Proof.
  intros Hinv. unfold rx_reestablish. set (c := prx_common (prx_cfg r)). fold (restarts c). unfold rx_enable_security, deliver_all_sdus, discard_all_sdus.
  destruct (restarts c) eqn:Er.
  - intros H. assert (exists b q nf ov, r' = PdcpRx (prx_cfg r) (prx_bearer_id r) sec true true (PdcpRxState 0 0 0) [] b nf ov
      /\ b = false /\ evs = map (fun p => rx_new_sdu p.2) q /\ (q = [] \/ q = reorder_queue r)) as (b & q & nf & ov & -> & -> & -> & Hq).
    { unfold restarts in Er. destruct (is_srb c) eqn:Es, (is_um c) eqn:Eu; try done; cbn in H; destruct (reordering_timer r) eqn:Et; cbn in H; fold c in H;
        destruct (domain_ok c sec); try done; injection H as <- <-; rewrite ?Et;
        (exists false, [], (prx_max_count_notified r), (prx_max_count_overflow r); split_and!; try reflexivity; by left) ||
        (exists false, (reorder_queue r), (prx_max_count_notified r), (prx_max_count_overflow r); split_and!; try reflexivity; by right). }
    split_and!; try done; [by apply prx_inv_zero; [apply Hinv|..]|].
    assert (rx_sdus (map (fun p => rx_new_sdu p.2) q) = map snd q) as -> by (clear; induction q as [|x q IH]; [done|]; cbn; by rewrite <- IH).
    destruct Hq as [->| ->]; auto.
  - assert (is_srb c = false /\ is_um c = false) as [Es Eu] by (unfold restarts in Er; by apply orb_false_iff in Er).
    rewrite Es. fold c. destruct (domain_ok c sec); [|done]. intros [= <- <-]. split_and!; try done. by destruct Hinv.
Qed.

Lemma link_inv_reestablish l sec t evs r evs' : link_inv l -> (forall k c p, (k, c, p) ∈ lk_sent l -> k_128_enc k <> k_128_enc sec) ->
  tx_reestablish (lk_tx l) sec = Some (t, evs) -> rx_reestablish (lk_rx l) sec = Some (r, evs') ->
  link_inv (let restart := restarts (ptx_c (lk_tx l)) in
         PdcpLink t r (if restart then [] else lk_sdus l) (zip (map fst (discard_timers_map t)) (tx_data_pdus evs))
           (if restart then [] else lk_out l ++ rx_sdus evs')
           (if restart then lk_done l ++ [(lk_sdus l, lk_out l ++ rx_sdus evs')] else lk_done l) (lk_sent l)).
Proof.
  intros Hinv Hkey Ht Hr. cbv zeta. pose proof (ltx_inv_reestablish l sec t evs r (if restarts (ptx_c (lk_tx l)) then [] else lk_out l ++ rx_sdus evs')
    (if restarts (ptx_c (lk_tx l)) then lk_done l ++ [(lk_sdus l, lk_out l ++ rx_sdus evs')] else lk_done l) (li_ltx _ Hinv) Hkey Ht) as Hltx.
  destruct (tx_reestablish_spec _ _ _ _ _ (li_tx _ (li_ltx _ Hinv)) Ht) as (T1 & T2 & T3 & T4 & T5 & _).
  destruct (rx_reestablish_spec _ _ _ _ (li_rx _ Hinv) Hr) as (R1 & R2 & R3 & R4 & R5 & R6 & R7).
  destruct Hinv as [_ H2 [M1 M2 M3 M4 M5 M6] H5 (log & L1 & L2 & L3 & L4 & L5) H6]. rewrite M1 in R7.
  split; cbn [lk_tx lk_rx lk_sdus lk_air lk_out lk_done]; try done.
  - split; unfold ptx_c in *; rewrite ?T1; try congruence. done.
  - destruct (restarts _); [destruct R7 as (_ & -> & _); by apply Forall_nil_2|by destruct R7 as (_ & -> & _)].
  - destruct (restarts _).
    + exists []. destruct R7 as (-> & _). split_and!; try done; by apply Forall_nil_2.
    + destruct R7 as (-> & _ & ->). exists log. rewrite app_nil_r, R1. by split_and!.
  - destruct (restarts _); [|done]. apply Forall_app. split; [done|]. constructor; [|constructor]. cbn [fst snd].
    destruct R7 as (_ & _ & [->| ->]).
    + exists log. rewrite app_nil_r. by split_and!.
    + exists (log ++ reorder_queue (lk_rx l)). rewrite L1, map_app. split_and!; [done| |by apply Forall_app].
      pose proof (pi_order _ H2). by eapply om_above_join; [..|eapply om_above_weaken; [|apply H2]]; try done; lia.
Qed.

Lemma ltx_inv_step arrives l l' : ltx_inv l -> pdcp_link_step arrives l l' -> ltx_inv l'.
Proof.
  intros Hinv Hstep. destruct Hstep as [l sdu t evs Hsdu Hh|l sn t Hh|l sn t Hh|l status t evs Hh|l count|l report evs Hh|l p r evs Ha Hh|l Ht|l sec t evs r evs' Hk Ht Hr].
  - by apply ltx_inv_send.
  - by eapply ltx_inv_shrink, transmit_notification_shrink.
  - by eapply ltx_inv_shrink, delivery_notification_shrink.
  - by eapply ltx_inv_shrink, handle_status_report_shrink.
  - apply ltx_inv_shrink, timers_shrink_filter. done.
  - by eapply ltx_inv_recover.
  - by apply ltx_inv_rx.
  - by apply ltx_inv_rx.
  - by eapply ltx_inv_reestablish.
Qed.

Lemma link_inv_step l l' : link_inv l -> pdcp_link_step sent_in_window l l' -> link_inv l'.
Proof.
  intros Hinv Hstep. pose proof (ltx_inv_step _ _ _ (li_ltx _ Hinv) Hstep) as Htx.
  destruct Hstep as [l sdu t evs Hsdu Hh|l sn t Hh|l sn t Hh|l status t evs Hh|l count|l report evs Hh|l p r evs (c & Hin & Hw) Hh|l Ht|l sec t evs r evs' Hk Ht Hr].
  - apply link_inv_tx; [done| |done]. by eapply ltx_inv_send; [apply Hinv|..].
  - apply link_inv_tx0; [done| |done]. by eapply ts_same, transmit_notification_shrink.
  - apply link_inv_tx0; [done| |done]. by eapply ts_same, delivery_notification_shrink.
  - apply link_inv_tx0; [done| |done]. by eapply ts_same, handle_status_report_shrink.
  - by apply link_inv_tx0.
  - by apply link_inv_tx0.
  - by eapply link_inv_arrive.
  - by apply link_inv_expire.
  - by eapply link_inv_reestablish.
Qed.

Lemma ltx_inv_reachable arrives l0 l : link_fresh l0 -> rtc (pdcp_link_step arrives) l0 l -> ltx_inv l.
Proof. intros H0%link_inv_fresh%li_ltx Hs. induction Hs; [done|]. by eauto using ltx_inv_step. Qed.
Lemma link_inv_reachable l0 l : link_fresh l0 -> rtc (pdcp_link_step sent_in_window) l0 l -> link_inv l.
Proof. intros H0%link_inv_fresh Hs. induction Hs; [done|]. by eauto using link_inv_step. Qed.
End Link.
