(* ===== verification/PdcpStatus.v ===== *)
(** * PDCP: status reports and discard timers

    What the report of the receiving entity makes the transmitting entity of the
    peer do, and which discard timers a notification of the RLC stops. *)
From S2P Require Import Prelude OrdMap BitEncoding SecS3g SecZuc Security SecurityThms PdcpPdu PdcpRx PdcpRxThms PdcpTx.

(** ** The report as a sequence of bit fields *)
Definition bitmap_bit (q : ordmap bytes) (i : Z) : Z := match om_find i q with Some _ => 0 | None => 1 end.

Definition bitmap_fields (q : ordmap bytes) (i : Z) (n : nat) : list (Z * Z) :=
  map (fun k => (bitmap_bit q k, 1)) (seqZ i (Z.of_nat n)).

Definition report_fields (e : pdcp_entity_rx) : list (Z * Z) :=
  [(0, 1); (0, 3); (0, 4); (rx_deliv (prx_st e), 32)]
  ++ bitmap_fields (reorder_queue e) (u32 (rx_deliv (prx_st e) + 1))
       (Z.to_nat (bitmap_end (prx_st e) - u32 (rx_deliv (prx_st e) + 1))).

Lemma seqZ_of_S i n : seqZ i (Z.of_nat (S n)) = i :: seqZ (i + 1) (Z.of_nat n).
Proof. rewrite seqZ_cons by lia. f_equal. f_equal; lia. Qed.

Lemma pack_bitmap_fields n i q enc : pack_bitmap n i q enc = pack_fields enc (bitmap_fields q i n).
Proof.
  revert i enc. induction n as [|n IH]; intros i enc; [done|]. unfold bitmap_fields. rewrite seqZ_of_S.
  cbn [pack_bitmap map pack_fields]. fold (bitmap_bit q i). destruct (bit_pack enc (bitmap_bit q i) 1); [|done]. apply IH.
Qed.

Lemma compile_status_report_fields e :
  compile_status_report e =
    match pack_fields (bit_encoder_new []) (report_fields e) with Some enc => Some (enc_writer enc) | None => None end.
Proof.
  unfold compile_status_report, report_fields. rewrite pack_fields_app. cbn [pack_fields pdcp_dc_to_number].
  destruct (bit_pack _ 0 1); [|done]. destruct (bit_pack _ 0 3); [|done]. destruct (bit_pack _ 0 4); [|done].
  destruct (bit_pack _ _ 32); [|done]. by rewrite pack_bitmap_fields.
Qed.

Lemma bitmap_fields_ok q i n : Forall field_ok (bitmap_fields q i n).
Proof.
  apply list.Forall_forall. intros f Hf. apply list_elem_of_fmap in Hf as (k & -> & _).
  unfold field_ok, bitmap_bit. cbn. destruct (om_find k q); lia.
Qed.

Lemma report_fields_ok e : prx_inv e -> Forall field_ok (report_fields e).
Proof.
  intros [Hh Ho Hl _ _ _]. apply Forall_app. split; [|apply bitmap_fields_ok].
  repeat apply Forall_cons_2; [..|by apply Forall_nil_2]; unfold field_ok; cbn; lia.
Qed.

(** ** The bitmap read by the peer *)
Lemma dec_rep_short d : dec_rep d 0 0 -> forall fuel t fmc evs, handle_bitmap fuel t d fmc evs = (t, evs).
Proof.
  intros [_ Ho [Hl _] _] [|fuel] t fmc evs; [done|]. cbn [handle_bitmap]. unfold bit_unpack. cbn -[Z.sub].
  destruct d as [[|b r] o]; cbn in *; [done|]. rewrite blen_cons in Hl. pose proof (blen_nonneg r). lia.
Qed.

(** Zero bits change nothing. *)
Lemma handle_bitmap_zeros n fuel t d fmc evs : dec_rep d 0 (Z.of_nat n) -> (n <= fuel)%nat ->
  handle_bitmap fuel t d fmc evs = (t, evs).
Proof.
  revert fuel d fmc. induction n as [|n IH]; intros fuel d fmc Hr Hf; [by apply dec_rep_short|].
  destruct fuel as [|fuel]; [lia|]. cbn [handle_bitmap].
  destruct (bit_unpack_rep d 0 (Z.of_nat (S n)) 1 Hr) as (d' & -> & Hr'); [lia|lia|].
  rewrite Z.div_0_l, Z.mod_0_l in * by (apply Z.pow_nonzero; lia). cbn [Z.eqb]. apply IH; [|lia].
  by replace (Z.of_nat (S n) - 1) with (Z.of_nat n) in Hr' by lia.
Qed.

(** The COUNTs whose bit is 1 are erased. *)
Definition bitmap_erases (q : ordmap bytes) (i : Z) (n : nat) (m : ordmap discard_info) : ordmap discard_info :=
  filter (fun p => ~ (i <= p.1 < i + Z.of_nat n /\ om_find p.1 q = None)) m.

Lemma bitmap_erases_S q i n m :
  bitmap_erases q i (S n) m = bitmap_erases q (i + 1) n (if bitmap_bit q i =? 1 then om_erase i m else m).
Proof.
  unfold bitmap_erases, bitmap_bit, om_erase. destruct (om_find i q) as [y|] eqn:Ei; [change (0 =? 1) with false|change (1 =? 1) with true]; cbv iota.
  - apply list_filter_iff. intros [c x]. cbn [fst]. split; intros H1 [H2 H3]; apply H1; (split; [|done]).
    + lia.
    + destruct (decide (c = i)) as [->|]; [congruence|lia].
  - rewrite list_filter_filter. apply list_filter_iff. intros [c x]. cbn [fst]. split.
    + intros H1. split; [intros [H2 H3]|intros ->]; apply H1; (split; [lia|done]).
    + intros [H1 H2] [H3 H4]. apply H1. split; [lia|done].
Qed.

Lemma bitmap_erases_0 q i m : bitmap_erases q i 0 m = m.
Proof.
  unfold bitmap_erases. induction m as [|[c x] m IH]; [done|]. rewrite filter_cons_True; [by f_equal|].
  cbn. intros [? _]. lia.
Qed.

Lemma ptx_with_map_eta t : ptx_with_map t (discard_timers_map t) = t.
Proof. by destruct t. Qed.

Lemma fields_len_bitmap q i n : fields_len (bitmap_fields q i n) = Z.of_nat n.
Proof.
  revert i. induction n as [|n IH]; intros i; [done|]. unfold bitmap_fields. rewrite seqZ_of_S. cbn [map fields_len].
  fold (bitmap_fields q (i + 1) n). rewrite IH. lia.
Qed.

Lemma bitmap_fields_S q i n : bitmap_fields q i (S n) = (bitmap_bit q i, 1) :: bitmap_fields q (i + 1) n.
Proof. unfold bitmap_fields. by rewrite seqZ_of_S. Qed.

Lemma bitmap_bit_01 q i : bitmap_bit q i = 0 \/ bitmap_bit q i = 1.
Proof. unfold bitmap_bit. destruct (om_find i q); auto. Qed.

(** One field read. *)
Lemma bit_unpack_cons d v w fs pad : field_ok (v, w) -> Forall field_ok fs -> 0 <= pad ->
  dec_rep d (fields_value ((v, w) :: fs) * 2 ^ pad) (fields_len ((v, w) :: fs) + pad) ->
  exists d', bit_unpack d w = Some (true, v, d') /\ dec_rep d' (fields_value fs * 2 ^ pad) (fields_len fs + pad).
Proof.
  intros [Hw Hv] Hfs Hp Hr. cbn [fst snd] in *. destruct (fields_bound fs Hfs) as [Hl Hb].
  assert (0 < 2 ^ pad) as Hpp by (apply Z.pow_pos_nonneg; lia).
  assert (0 <= fields_value fs * 2 ^ pad < 2 ^ (fields_len fs + pad)) as Hb' by (rewrite pow2_split by lia; nia).
  cbn [fields_value fields_len] in Hr. destruct (bit_unpack_rep _ _ _ w Hr) as (d' & Hd & Hr'); [lia|lia|].
  replace (w + fields_len fs + pad - w) with (fields_len fs + pad) in * by lia.
  replace ((v * 2 ^ fields_len fs + fields_value fs) * 2 ^ pad)
    with (v * 2 ^ (fields_len fs + pad) + fields_value fs * 2 ^ pad) in * by (rewrite pow2_split by lia; ring).
  rewrite Z.div_add_l, Z.div_small, Z.add_0_r in Hd by lia. rewrite Z.add_comm, Z.mod_add, Z.mod_small in Hr' by lia.
  by exists d'.
Qed.

Lemma handle_bitmap_fields q n i fuel t d evs pad :
  dec_rep d (fields_value (bitmap_fields q i n) * 2 ^ pad) (Z.of_nat n + pad) -> 0 <= pad ->
  0 < i -> i + Z.of_nat n <= 2 ^ 32 -> Z.of_nat n + pad <= Z.of_nat fuel ->
  (handle_bitmap fuel t d (i - 1) evs).1 = ptx_with_map t (bitmap_erases q i n (discard_timers_map t)).
Proof.
  intros Hr Hp. revert i fuel t d evs Hr. induction n as [|n IH]; intros i fuel t d evs Hr Hi Hin Hf.
  - rewrite bitmap_erases_0, ptx_with_map_eta. cbn in Hr.
    rewrite (handle_bitmap_zeros (Z.to_nat pad)) by (rewrite ?Z2Nat.id; lia || done). done.
  - destruct fuel as [|fuel]; [lia|]. cbn [handle_bitmap]. rewrite bitmap_fields_S in Hr.
    destruct (bit_unpack_cons d (bitmap_bit q i) 1 (bitmap_fields q (i + 1) n) pad) as (d' & -> & Hr').
    { unfold field_ok. cbn. destruct (bitmap_bit_01 q i) as [-> | ->]; lia. } { apply bitmap_fields_ok. } { done. }
    { cbn [fields_len] in *. rewrite fields_len_bitmap. by replace (1 + Z.of_nat n + pad) with (Z.of_nat (S n) + pad) by lia. }
    rewrite fields_len_bitmap in Hr'. rewrite u32_id by (unfold is_u32; lia).
    replace (i - 1 + 1) with ((i + 1) - 1) by lia. rewrite bitmap_erases_S.
    destruct (bitmap_bit q i =? 1); rewrite IH by (lia || done); [|done]. cbn. by replace (i + 1 - 1) with i by lia.
Qed.

(** ** A report, compiled and handled *)
Definition bitmap_size (st : pdcp_rx_state) : nat := Z.to_nat (bitmap_end st - u32 (rx_deliv st + 1)).

Lemma bitmap_end_bound e : prx_inv e -> rx_deliv (prx_st e) + 1 < 2 ^ 32 ->
  0 <= bitmap_end (prx_st e) <= rx_next (prx_st e) /\ u32 (rx_deliv (prx_st e) + 1) = rx_deliv (prx_st e) + 1.
Proof.
  intros [Hh Ho Hl _ _ _] Hlt. assert (u32 (rx_deliv (prx_st e) + 1) = rx_deliv (prx_st e) + 1 ) as ->.
  { apply u32_id. unfold is_u32. lia. }
  split; [|done]. unfold bitmap_end. rewrite u32_id by (unfold is_u32; lia). unfold pdcp_control_pdu_max_size.
  destruct (_ && _) eqn:E; breflect; [|lia]. rewrite u32_id by (unfold is_u32; lia). lia.
Qed.

(** The header and FMC of a report. *)
Lemma handle_status_report_header t rep fs pad :
  Forall field_ok fs -> 0 <= pad ->
  dec_rep (bit_decoder_new rep) (fields_value fs * 2 ^ pad) (fields_len fs + pad) ->
  forall fmc gs, fs = [(0, 1); (0, 3); (0, 4); (fmc, 32)] ++ gs ->
  exists d' evs, dec_rep d' (fields_value gs * 2 ^ pad) (fields_len gs + pad)
    /\ handle_status_report t rep =
       Some (handle_bitmap (8 * length rep) (ptx_with_map t (filter (fun p => ~ p.1 < fmc) (discard_timers_map t))) d' fmc evs).
Proof.
  intros Hok Hp Hr fmc gs ->. cbn [app] in *. unfold handle_status_report.
  apply Forall_cons_1 in Hok as [H1 Hok]. destruct (bit_unpack_cons _ _ _ _ _ H1 Hok Hp Hr) as (d1 & -> & Hr1).
  change (negb (0 =? pdcp_dc_to_number pdcp_control)) with false. cbv iota.
  apply Forall_cons_1 in Hok as [H2 Hok]. destruct (bit_unpack_cons _ _ _ _ _ H2 Hok Hp Hr1) as (d2 & -> & Hr2).
  change (negb (0 =? 0)) with false. cbv iota.
  apply Forall_cons_1 in Hok as [H3 Hok]. destruct (bit_unpack_cons _ _ _ _ _ H3 Hok Hp Hr2) as (d3 & -> & Hr3).
  apply Forall_cons_1 in Hok as [H4 Hok]. destruct (bit_unpack_cons _ _ _ _ _ H4 Hok Hp Hr3) as (d4 & -> & Hr4).
  eexists d4, _. split; [done|]. change (negb (0 =? 0)) with false. cbv iota zeta. reflexivity.
Qed.

Lemma status_report_effect e t : prx_inv e -> rx_deliv (prx_st e) + 1 < 2 ^ 32 ->
  exists rep t' evs, compile_status_report e = Some rep /\ bytes_ok rep /\ handle_status_report t rep = Some (t', evs)
    /\ t' = ptx_with_map t (bitmap_erases (reorder_queue e) (rx_deliv (prx_st e) + 1) (bitmap_size (prx_st e))
              (filter (fun p => ~ p.1 < rx_deliv (prx_st e)) (discard_timers_map t))).
Proof.
  intros Hinv Hlt. pose proof (report_fields_ok e Hinv) as Hok. destruct (bitmap_end_bound e Hinv Hlt) as [Hbe Hu].
  destruct (pack_fields_rep _ _ _ _ enc_rep_new Hok) as (enc & Henc & Hr).
  rewrite Z.mul_0_l, !Z.add_0_l in Hr. destruct Hr as [Eok _ [Elen _] _ Eval].
  rewrite compile_status_report_fields, Henc. set (rep := enc_writer enc) in *.
  set (pad := 8 * blen rep - fields_len (report_fields e)) in *.
  pose proof (dec_rep_new rep Eok) as Hdec. rewrite Eval in Hdec.
  replace (8 * blen rep) with (fields_len (report_fields e) + pad) in Hdec by lia.
  destruct (handle_status_report_header t rep _ pad Hok ltac:(lia) Hdec (rx_deliv (prx_st e))
    (bitmap_fields (reorder_queue e) (u32 (rx_deliv (prx_st e) + 1)) (bitmap_size (prx_st e))) eq_refl)
    as (d' & evs & Hd' & Hsr).
  rewrite Hu in *. rewrite fields_len_bitmap in Hd'.
  set (t1 := ptx_with_map t (filter _ (discard_timers_map t))) in *. set (n := bitmap_size (prx_st e)) in *.
  destruct (handle_bitmap (8 * length rep) t1 d' (rx_deliv (prx_st e)) evs) as [t' evs'] eqn:Eh.
  exists rep, t', evs'. split_and!; [done..|].
  pose proof (pi_order _ Hinv) as Ho. pose proof (pi_limit _ Hinv). pose proof (pi_hard _ Hinv).
  pose proof (handle_bitmap_fields (reorder_queue e) n (rx_deliv (prx_st e) + 1) (8 * length rep) t1 d' evs pad Hd') as HB.
  replace (rx_deliv (prx_st e) + 1 - 1) with (rx_deliv (prx_st e)) in HB by lia. rewrite Eh in HB. cbn [fst] in HB.
  rewrite HB; [done|lia|lia| |].
  - subst n. unfold bitmap_size. rewrite Hu. lia.
  - assert (fields_len (report_fields e) = 40 + Z.of_nat n) as Hfl.
    { unfold report_fields. rewrite Hu. cbn [app fields_len]. rewrite fields_len_bitmap. subst n. unfold bitmap_size. rewrite Hu. lia. }
    unfold blen in pad. lia.
Qed.

(** ** Which discard timers a notification of the RLC stops *)
Lemma erase_counts_filter n c m : 0 <= c -> c + Z.of_nat n <= 2 ^ 32 ->
  erase_counts n c m = filter (fun p => ~ (c <= p.1 < c + Z.of_nat n)) m.
Proof.
  revert c m. induction n as [|n IH]; intros c m Hc Hn; cbn [erase_counts].
  - induction m as [|p m IHm]; [done|]. rewrite filter_cons_True by lia. by f_equal.
  - destruct (decide (c + 1 = 2 ^ 32)) as [He|He].
    + assert (n = O) as -> by lia. cbn [erase_counts]. unfold om_erase. apply list_filter_iff. intros p. lia.
    + rewrite u32_id by (unfold is_u32; lia). rewrite IH by lia. unfold om_erase. rewrite list_filter_filter.
      apply list_filter_iff. intros p. lia.
Qed.

Lemma om_head_least {V} (m : ordmap V) k v p : om_ok ((k, v) :: m) -> p ∈ (k, v) :: m -> k <= p.1.
Proof.
  intros Hok Hp. destruct p as [c x]. cbn. apply elem_of_cons in Hp as [[= -> _]|Hp]; [lia|].
  pose proof (om_above_elem _ _ _ _ Hok Hp). lia.
Qed.

Lemma filter_ext_elem {X} (P Q : X -> Prop) `{!forall x, Decision (P x)} `{!forall x, Decision (Q x)} (l : list X) :
  (forall x, x ∈ l -> P x <-> Q x) -> filter P l = filter Q l.
Proof.
  induction l as [|x l IH]; intros HPQ; [done|]. assert (filter P l = filter Q l) as Hl by (apply IH; intros y Hy; apply HPQ; by right).
  rewrite !filter_cons, Hl. pose proof (HPQ x (list_elem_of_here _ _)) as Hx. destruct (decide (P x)), (decide (Q x)); tauto.
Qed.

(** The SN of a COUNT close to the oldest running timer stops the timers up to
    that COUNT, and only those. *)
Lemma stop_discard_timer_exact t h i m c :
  discard_timer_set t = true -> discard_timers_map t = (h, i) :: m -> om_ok (discard_timers_map t) ->
  is_u32 h -> 0 <= c < 2 ^ 32 - 1 ->
  h - pdcp_window_size (sn_size (ptx_c t)) <= c < h + pdcp_window_size (sn_size (ptx_c t)) ->
  stop_discard_timer t (ptx_SN t c) = Some (ptx_with_map t (filter (fun p => c < p.1) (discard_timers_map t))).
Proof.
  intros Hset Hm Hok Hh Hc Hw. unfold stop_discard_timer. rewrite Hset, Hm. cbn [negb].
  unfold ptx_SN. rewrite (count_of_sn_window _ h c Hh) by (done || unfold is_u32; lia).
  destruct (Z.eqb_spec c (2 ^ 32 - 1)); [lia|]. do 2 f_equal. rewrite <- Hm.
  unfold is_u32 in Hh. rewrite erase_counts_filter by lia. apply filter_ext_elem. intros p Hp.
  rewrite Hm in Hok, Hp. pose proof (om_head_least _ _ _ _ Hok Hp). lia.
Qed.
