(* ===== verification/PdcpSpec.v ===== *)
(** * PDCP: the properties of the bearer

    The statements about the two ends of a bearer ([PdcpLink.v]), about the
    receiving entity alone ([PdcpRxThms.v]), about status reports and discard
    timers ([PdcpStatus.v]) and about the ciphers ([SecurityThms.v]), with the
    inputs on which they are evaluated. *)
From Stdlib Require Import Sorted.
From S2P Require Import Prelude OrdMap BitEncoding SecS3g SecZuc Security SecurityThms PdcpPdu PdcpRx PdcpRxThms PdcpTx PdcpLink PdcpStatus.

(** ** Inputs for the examples *)

(** A counter mode that adds a constant, in the place of the AES library. *)
#[export] Instance const_engine : aes_engine := {
  aes_crypt_ecb _ b := map u8 b;
  aes_crypt_ctr _ st b := (st, Z.lxor b 0x5a);
}.
#[export, refine] Instance const_laws : aes_laws const_engine := {
  ctr_step _ st := st;
  ctr_byte _ _ := 0x5a;
}.
Proof.
  - intros k st. unfold is_u8. lia.
  - done.
  - intros k b. cbn. apply list.Forall_forall. intros x Hx. apply list_elem_of_fmap in Hx as (y & -> & _).
    unfold is_u8, u8. mlia.
Defined.

Definition ex_key : bytes := map Z.of_nat (seq 1 16).
Definition ex_sec : sec_128_as_config := Sec128 sec_up ex_key ex_key nia3 nea3.
Definition ex_common : pdcp_config_common := PdcpCommon pdcp_drb pdcp_am pdcp_size12bits pdcp_downlink.
Definition ex_max : pdcp_max_count := MaxCount 0xc0000000 0xd0000000.
Definition ex_tx_cfg : pdcp_tx_config := PdcpTxConfig ex_common (discard_timer_ms 10) true ex_max.
Definition ex_rx_cfg : pdcp_rx_config := PdcpRxConfig ex_common (t_reordering_ms 20) ex_max.
Definition ex_tx : pdcp_entity_tx := PdcpTx ex_tx_cfg 3 ex_sec true true 0 [] false false.
Definition ex_rx : pdcp_entity_rx := PdcpRx ex_rx_cfg 3 ex_sec true true (PdcpRxState 0 0 0) [] false false false.
Definition ex_link : pdcp_link := PdcpLink ex_tx ex_rx [] [] [] [] [].

(** The link after an SDU is sent, and after the [k]-th PDU of the air arrives. *)
Definition link_after_send (l : pdcp_link) (sdu : bytes) : pdcp_link :=
  match pdcp_handle_sdu (lk_tx l) sdu with
  | Some (t, evs) => lk_with_tx l t (lk_sdus l ++ map (fun _ => sdu) (tx_pdus evs))
                       (lk_air l ++ map (pair (tx_next (lk_tx l))) (tx_pdus evs))
  | None => l
  end.
Definition link_after_arrive (l : pdcp_link) (k : nat) : pdcp_link :=
  match lk_air l !! k with
  | Some (_, p) =>
      match pdcp_handle_pdu (lk_rx l) p with
      | Some (r, evs) => lk_with_rx l r (lk_out l ++ rx_sdus evs)
      | None => l
      end
  | None => l
  end.

Lemma link_after_send_steps l0 l sdu : pdcp_sdu_ok sdu -> rtc (pdcp_link_step sent_in_window) l0 l -> rtc (pdcp_link_step sent_in_window) l0 (link_after_send l sdu).
Proof.
  intros Hs Hl. unfold link_after_send. destruct (pdcp_handle_sdu _ _) as [[t evs]|] eqn:E; [|done].
  eapply rtc_r; [exact Hl|]. by eapply link_send.
Qed.
Lemma link_after_arrive_steps l0 l k :
  (if lk_air l !! k is Some (c, _) then in_window (lk_rx l) c else True) ->
  rtc (pdcp_link_step sent_in_window) l0 l -> rtc (pdcp_link_step sent_in_window) l0 (link_after_arrive l k).
Proof.
  intros Hw Hl. unfold link_after_arrive. destruct (lk_air l !! k) as [[c p]|] eqn:Ek; [|done].
  destruct (pdcp_handle_pdu _ _) as [[r evs]|] eqn:E; [|done].
  eapply rtc_r; [exact Hl|]. eapply link_arrive; [|done]. exists c. split; [by eapply list_elem_of_lookup_2|done].
Qed.

(** Both ends are re-established with another key. *)
Definition link_after_reestablish (l : pdcp_link) (sec : sec_128_as_config) : pdcp_link :=
  match tx_reestablish (lk_tx l) sec, rx_reestablish (lk_rx l) sec with
  | Some (t, evs), Some (r, evs') =>
      let restart := restarts (ptx_c (lk_tx l)) in
      PdcpLink t r (if restart then [] else lk_sdus l) (zip (map fst (discard_timers_map t)) (tx_data_pdus evs))
        (if restart then [] else lk_out l ++ rx_sdus evs')
        (if restart then lk_done l ++ [(lk_sdus l, lk_out l ++ rx_sdus evs')] else lk_done l) (lk_sent l)
  | _, _ => l
  end.
Lemma link_after_reestablish_steps l0 l sec : Forall (fun x => k_128_enc x.1.1 <> k_128_enc sec) (lk_sent l) ->
  rtc (pdcp_link_step sent_in_window) l0 l -> rtc (pdcp_link_step sent_in_window) l0 (link_after_reestablish l sec).
Proof.
  intros Hk Hl. unfold link_after_reestablish. destruct (tx_reestablish _ _) as [[t evs]|] eqn:E; [|done].
  destruct (rx_reestablish _ _) as [[r evs']|] eqn:E'; [|done]. eapply rtc_r; [exact Hl|]. eapply link_reestablish; [|done|done].
  intros k c p Hin. rewrite list.Forall_forall in Hk. exact (Hk _ Hin).
Qed.

Lemma ex_link_fresh : link_fresh ex_link.
Proof. unfold link_fresh. split_and!; try done. Qed.

(** Two SDUs sent, the second PDU arrives. *)
Definition ex_link2 : pdcp_link :=
  Eval vm_compute in link_after_send (link_after_send ex_link [10; 11; 12]) [20; 21].
Definition ex_link3 : pdcp_link := Eval vm_compute in link_after_arrive ex_link2 1.
Definition ex_link4 : pdcp_link := Eval vm_compute in link_after_arrive ex_link3 0.

Lemma sdu_ok_dec sdu : bool_decide (0 < blen sdu <= 9000) && forallb (fun b => (0 <=? b) && (b <? 256)) sdu = true -> pdcp_sdu_ok sdu.
Proof.
  intros [H1 H2]%andb_prop. apply bool_decide_eq_true in H1. split; [done|]. apply list.Forall_forall. intros b Hb.
  rewrite forallb_forall in H2. specialize (H2 b ltac:(by apply list_elem_of_In)). unfold is_u8. lia.
Qed.

Lemma ex_link2_steps : rtc (pdcp_link_step sent_in_window) ex_link ex_link2.
Proof.
  assert (ex_link2 = link_after_send (link_after_send ex_link [10; 11; 12]) [20; 21]) as -> by (vm_compute; reflexivity).
  do 2 (apply link_after_send_steps; [by apply sdu_ok_dec|]). done.
Qed.
Lemma ex_link3_steps : rtc (pdcp_link_step sent_in_window) ex_link ex_link3.
Proof.
  assert (ex_link3 = link_after_arrive ex_link2 1) as -> by (vm_compute; reflexivity).
  apply link_after_arrive_steps; [by vm_compute|apply ex_link2_steps].
Qed.
Lemma ex_link4_steps : rtc (pdcp_link_step sent_in_window) ex_link ex_link4.
Proof.
  assert (ex_link4 = link_after_arrive ex_link3 0) as -> by (vm_compute; reflexivity).
  apply link_after_arrive_steps; [by vm_compute|apply ex_link3_steps].
Qed.

(** The bearer is re-established before the second SDU arrives: its PDU is sent again with the new key. *)
Definition ex_sec' : sec_128_as_config := Sec128 sec_up (rev ex_key) (rev ex_key) nia3 nea3.
Definition ex_link5 : pdcp_link := Eval vm_compute in link_after_arrive (link_after_reestablish (link_after_arrive ex_link2 0) ex_sec') 1.
Lemma ex_link5_steps : rtc (pdcp_link_step sent_in_window) ex_link ex_link5.
Proof.
  assert (ex_link5 = link_after_arrive (link_after_reestablish (link_after_arrive ex_link2 0) ex_sec') 1) as -> by (vm_compute; reflexivity).
  apply link_after_arrive_steps; [by vm_compute|]. apply link_after_reestablish_steps; [|apply link_after_arrive_steps; [by vm_compute|apply ex_link2_steps]].
  vm_compute. repeat constructor; discriminate.
Qed.

(** ** The bearer *)
Section Bearer.
Context {A : aes_engine} {AL : aes_laws A}.

Lemma om_above_sorted {V} lo (m : ordmap V) : om_above lo m -> StronglySorted Z.lt (map fst m) /\ Forall (Z.lt lo) (map fst m).
Proof.
  revert lo. induction m as [|[k v] m IH]; intros lo; cbn; [split; constructor|]. intros [Hk Hm].
  destruct (IH k Hm) as [H1 H2]. split; constructor; try done. eapply list.Forall_impl; [exact H2|]. lia.
Qed.

Lemma in_order_counts sdus out : delivered_in_order sdus out ->
  exists counts, StronglySorted Z.lt counts /\ Forall (fun c => 0 <= c) counts /\ Forall2 (fun c sdu => sdus !! Z.to_nat c = Some sdu) counts out.
Proof.
  intros (log & -> & Hab & Hc). destruct (om_above_sorted _ _ Hab) as [Hsort Hge]. exists (map fst log). split_and!; [done| |].
  - eapply list.Forall_impl; [exact Hge|]. cbn. lia.
  - clear -Hc. induction Hc as [|p log [_ Hp] _ IH]; cbn; by constructor.
Qed.

Lemma om_assign_head {V} k v (m : ordmap V) : om_above k m -> om_assign k v m = (k, v) :: m.
Proof. destruct m as [|[k' v'] m]; [done|]. cbn. intros [Hk _]. destruct (Z.ltb_spec k k'); [done|lia]. Qed.

(** The SDU that is waited for is delivered when its PDU arrives. *)
Lemma awaited_arrival l c p sdu : link_inv l -> (c, p) ∈ lk_air l -> lk_sdus l !! Z.to_nat c = Some sdu ->
  c = rx_deliv (prx_st (lk_rx l)) -> c < max_count_hard (prx_max_count (prx_cfg (lk_rx l))) ->
  exists r evs out, pdcp_handle_pdu (lk_rx l) p = Some (r, evs) /\ rx_sdus evs = sdu :: out.
Proof.
  intros Hinv Hin Hsdu Hd Hh. pose proof (li_ltx _ Hinv) as Htx. destruct (li_air _ Htx _ _ Hin) as (sdu' & Hc & Hp).
  assert (sdu' = sdu) as -> by (destruct Hc as [_ Hc]; cbn in Hc; congruence).
  destruct (carries_sdu_ok _ _ _ (li_tx _ Htx) Hc) as (Hok & Hu & _). cbn [fst snd] in Hok, Hu. pose proof (li_rx _ Hinv) as Hrx.
  assert (in_window (lk_rx l) c) as Hw by (unfold in_window; destruct (prx_sn_size (lk_rx l)); cbn; lia).
  destruct (pdcp_arrival _ _ _ _ _ (li_matched _ Hinv) Hrx Hok Hu Hw Hp) as (r & evs & ps & -> & [[Ri _ Rs _ _ Rd] _ Hacc _]).
  assert (om_find c (reorder_queue (lk_rx l)) = None) as Hnone by (eapply om_above_find; [apply (pi_queue _ Hrx)|lia]).
  destruct Hacc as [Hq _]; [done|lia|done|]. exists r, evs. rewrite Rs. destruct ps as [|[c' x] ps].
  - exfalso. cbn [app] in Hq. pose proof (pi_queue _ Ri) as Hab. rewrite Hq in Hab. destruct (om_above_sorted _ _ Hab) as [_ Hgt].
    rewrite list.Forall_forall in Hgt. specialize (Hgt c). rewrite om_assign_head in Hgt; [|rewrite Hd; apply Hrx]. specialize (Hgt (list_elem_of_here _ _)). lia.
  - rewrite om_assign_head in Hq by (rewrite Hd; apply Hrx). injection Hq as -> -> _. by eexists.
Qed.

(** C13: The bearer delivers what was sent.  SDUs of 1 to 9000 bytes are sent over lower layers that lose, repeat and reorder
    PDUs as long as a PDU that arrives was sent since the last re-establishment and lies within half the SN space of
    RX_DELIV; RLC notifications, status reports, discards, data recovery, t-Reordering expiries and re-establishments
    of both ends with a new key happen in any order.  In every reachable state the SDUs handed to the upper layers
    since the COUNT was last reset are the SDUs of strictly increasing COUNTs below RX_DELIV, hence unchanged, in order
    and at most once; without a t-Reordering timer they are exactly the first RX_DELIV SDUs that were sent; the same
    order held before every earlier reset of the COUNT; and when the PDU of COUNT RX_DELIV arrives (below the hard
    limit), its SDU is delivered at once. *)
Theorem pdcp_in_order_delivery l0 l : link_fresh l0 -> rtc (pdcp_link_step sent_in_window) l0 l ->
  (exists counts, StronglySorted Z.lt counts /\ Forall (fun c => 0 <= c < rx_deliv (prx_st (lk_rx l))) counts
     /\ Forall2 (fun c sdu => lk_sdus l !! Z.to_nat c = Some sdu) counts (lk_out l))
  /\ (t_reordering (prx_cfg (lk_rx l)) = t_reordering_infinity ->
      lk_out l = take (Z.to_nat (rx_deliv (prx_st (lk_rx l)))) (lk_sdus l))
  /\ Forall (fun d => exists counts, StronglySorted Z.lt counts /\ Forall (fun c => 0 <= c) counts
               /\ Forall2 (fun c sdu => d.1 !! Z.to_nat c = Some sdu) counts d.2) (lk_done l)
  /\ (forall c p sdu, (c, p) ∈ lk_air l -> lk_sdus l !! Z.to_nat c = Some sdu -> c = rx_deliv (prx_st (lk_rx l)) ->
       c < max_count_hard (prx_max_count (prx_cfg (lk_rx l))) ->
       exists r evs out, pdcp_handle_pdu (lk_rx l) p = Some (r, evs) /\ rx_sdus evs = sdu :: out).
Proof.
  intros H0 Hs. pose proof (link_inv_reachable _ _ H0 Hs) as Hinv. destruct (li_log _ Hinv) as (log & Hout & Hab & Hlt & Hc & Hinf).
  destruct (om_above_sorted _ _ Hab) as [Hsort Hge]. split_and!.
  - rewrite Hout. exists (map fst log). split_and!; [done| |].
    + apply list.Forall_forall. intros c Hin. rewrite list.Forall_forall in Hge. pose proof (Hge c Hin).
      apply list_elem_of_fmap in Hin as (p & -> & Hp). rewrite list.Forall_forall in Hlt. specialize (Hlt _ Hp). cbn in Hlt. lia.
    + clear -Hc. induction Hc as [|p log [_ Hp] _ IH]; cbn; by constructor.
  - intros Ht. rewrite Hout. specialize (Hinf Ht). apply list_eq. intros i. rewrite list_lookup_fmap.
    destruct (log !! i) as [p|] eqn:Ei; cbn.
    + assert (map fst log !! i = Some p.1) as Hf by (by rewrite list_lookup_fmap, Ei). rewrite Hinf in Hf.
      apply lookup_seqZ in Hf as [Hf Hi]. rewrite lookup_take_lt by lia.
      rewrite list.Forall_forall in Hc. destruct (Hc p) as [_ Hp]; [by eapply list_elem_of_lookup_2|].
      replace (Z.to_nat p.1) with i in Hp by lia. by rewrite Hp.
    + assert (length log = Z.to_nat (rx_deliv (prx_st (lk_rx l)))) as Hlen.
      { rewrite <- (length_map fst), Hinf. apply length_seqZ. }
      apply lookup_ge_None in Ei. rewrite lookup_take_ge by lia. done.
  - eapply list.Forall_impl; [apply (li_done _ Hinv)|]. intros d. apply in_order_counts.
  - intros c p sdu. by apply awaited_arrival.
Qed.

(** Arrival of a sent PDU: inside the window every PDU on the air is handled without a failed
    assertion and its protection is removed exactly; a COUNT already delivered, already stored or
    above the hard limit changes neither queue nor state variables; any other COUNT is stored
    with its SDU, and delivered SDUs and remaining queue together are the old queue with it. *)
Theorem pdcp_arrival_correct l0 l c p : link_fresh l0 -> rtc (pdcp_link_step sent_in_window) l0 l ->
  (c, p) ∈ lk_air l -> in_window (lk_rx l) c ->
  exists sdu r evs ps, lk_sdus l !! Z.to_nat c = Some sdu /\ pdcp_handle_pdu (lk_rx l) p = Some (r, evs)
    /\ rx_sdus evs = map snd ps
    /\ if decide (max_count_hard (prx_max_count (prx_cfg (lk_rx l))) <= c \/ c < rx_deliv (prx_st (lk_rx l))
                  \/ is_Some (om_find c (reorder_queue (lk_rx l))))
       then ps = [] /\ reorder_queue r = reorder_queue (lk_rx l) /\ prx_st r = prx_st (lk_rx l)
       else ps ++ reorder_queue r = om_assign c sdu (reorder_queue (lk_rx l))
            /\ rx_next (prx_st r) = Z.max (rx_next (prx_st (lk_rx l))) (c + 1).
Proof.
  intros H0 Hs Hin Hw. pose proof (link_inv_reachable _ _ H0 Hs) as Hinv.
  pose proof (li_ltx _ Hinv) as Htx. destruct (li_air _ Htx _ _ Hin) as (sdu & Hc & Hp).
  destruct (carries_sdu_ok _ _ _ (li_tx _ Htx) Hc) as (Hok & Hu & _). cbn [fst snd] in Hok, Hu.
  destruct (pdcp_arrival _ _ _ _ _ (li_matched _ Hinv) (li_rx _ Hinv) Hok Hu Hw Hp) as (r & evs & ps & Hh & [Hst Href Hacc _]).
  exists sdu, r, evs, ps. split_and!; [apply Hc|done|apply Hst|]. destruct (decide _) as [Hd|Hd]; [by apply Href|].
  apply Hacc; [lia|lia|]. destruct (om_find _ _) eqn:E; [|done]. exfalso. apply Hd. right; right. by eexists.
Qed.

(** C14: A COUNT protects one PDU per key: over all SDUs of 1 to 9000 bytes, status reports, retransmissions, data
    recoveries and re-establishments of a bearer, whatever bytes arrive at its receiving entity, two PDUs that were ever
    sent with the same COUNT and the same ciphering key are the same bytes, so a key stream is never used for two
    messages, provided that every re-establishment brings a ciphering key not used before (the code does not check
    this, and SRBs and UM bearers restart the COUNT).  Every COUNT used since the COUNT was last reset is below TX_NEXT;
    and the next SDU is always handled, with COUNT TX_NEXT, until TX_NEXT reaches the hard limit. *)
Theorem pdcp_keystream_never_reused l0 l sdu : link_fresh l0 -> rtc (pdcp_link_step (fun _ _ => True)) l0 l -> pdcp_sdu_ok sdu ->
  (forall k k' c p p', (k, c, p) ∈ lk_sent l -> (k', c, p') ∈ lk_sent l -> k_128_enc k = k_128_enc k' -> p = p')
  /\ (forall c p, (c, p) ∈ lk_air l -> 0 <= c < tx_next (lk_tx l))
  /\ exists t evs, pdcp_handle_sdu (lk_tx l) sdu = Some (t, evs)
     /\ if tx_next (lk_tx l) =? max_count_hard (ptx_max_count (ptx_cfg (lk_tx l)))
        then tx_pdus evs = [] /\ tx_next t = tx_next (lk_tx l)
        else (exists pdu, tx_pdus evs = [pdu] /\ tx_protect (lk_tx l) sdu (tx_next (lk_tx l)) = Some pdu)
             /\ tx_next t = tx_next (lk_tx l) + 1.
Proof.
  intros H0 Hs Hsdu. pose proof (ltx_inv_reachable _ _ _ H0 Hs) as Hinv. split_and!.
  - by apply sent_once.
  - intros c p Hp. destruct (li_air _ Hinv _ _ Hp) as (s & Hc & _).
    destruct (carries_sdu_ok _ _ _ (li_tx _ Hinv) Hc) as (_ & Hu & Hlt). unfold is_u32 in Hu. cbn in *. lia.
  - pose proof (pt_next _ _ (li_tx _ Hinv)) as Hn. pose proof (pt_limit _ _ (li_tx _ Hinv)).
    destruct (pdcp_handle_sdu_spec _ _ _ (li_tx _ Hinv) Hsdu (li_srb _ Hinv)) as (t & evs & Hh & (Hcfg & _) & Hcase).
    exists t, evs. split; [done|]. destruct Hcase as [(Heq & He & Ht)|(pdu & He & Hp & Ht)].
    + rewrite Heq, Z.eqb_refl. split; [done|]. rewrite (pt_next _ _ Ht), <- Hn. done.
    + pose proof (pt_next _ _ Ht) as Hn'. pose proof (pt_limit _ _ Ht). rewrite length_app in Hn'. cbn in Hn'.
      rewrite Hcfg in *. destruct (Z.eqb_spec (tx_next (lk_tx l)) (max_count_hard (ptx_max_count (ptx_cfg (lk_tx l))))); [lia|].
      split; [by exists pdu|]. lia.
Qed.
End Bearer.

(** The two SDUs arrive in the wrong order and are delivered in the right one; and so they are when the bearer is
    re-established between them. *)
Lemma pdcp_in_order_delivery_witness :
  lk_out ex_link4 = [[10; 11; 12]; [20; 21]] /\ lk_out ex_link5 = [[10; 11; 12]; [20; 21]] /\
  (exists counts, StronglySorted Z.lt counts /\ Forall (fun c => 0 <= c < rx_deliv (prx_st (lk_rx ex_link4))) counts
    /\ Forall2 (fun c sdu => lk_sdus ex_link4 !! Z.to_nat c = Some sdu) counts (lk_out ex_link4)) /\
  exists counts, StronglySorted Z.lt counts /\ Forall (fun c => 0 <= c < rx_deliv (prx_st (lk_rx ex_link5))) counts
    /\ Forall2 (fun c sdu => lk_sdus ex_link5 !! Z.to_nat c = Some sdu) counts (lk_out ex_link5).
Proof.
  split; [reflexivity|]. split; [reflexivity|]. split.
  - destruct (pdcp_in_order_delivery ex_link ex_link4 ex_link_fresh ex_link4_steps) as [H _]. exact H.
  - destruct (pdcp_in_order_delivery ex_link ex_link5 ex_link_fresh ex_link5_steps) as [H _]. exact H.
Defined.

Definition ex_pdu0 : bytes := match lk_air ex_link2 with (_, p) :: _ => p | [] => [] end.

Lemma pdcp_arrival_correct_witness :
  exists sdu r evs ps, lk_sdus ex_link3 !! 0%nat = Some sdu /\ pdcp_handle_pdu (lk_rx ex_link3) ex_pdu0 = Some (r, evs)
    /\ rx_sdus evs = map snd ps /\ ps ++ reorder_queue r = om_assign 0 sdu (reorder_queue (lk_rx ex_link3)).
Proof.
  destruct (pdcp_arrival_correct ex_link ex_link3 0 ex_pdu0 ex_link_fresh ex_link3_steps) as (sdu & r & evs & ps & H1 & H2 & H3 & H4).
  - vm_compute. apply list_elem_of_here.
  - vm_compute. split; congruence.
  - exists sdu, r, evs, ps. destruct (decide _) as [Hd|Hd]; [|exact (conj H1 (conj H2 (conj H3 (proj1 H4))))].
    exfalso. vm_compute in Hd. destruct Hd as [Hd|[Hd|[? Hd]]]; congruence.
Defined.

Lemma link_steps_any l0 l : rtc (pdcp_link_step sent_in_window) l0 l -> rtc (pdcp_link_step (fun _ _ => True)) l0 l.
Proof.
  induction 1 as [|l l' l'' Hs _ IH]; [done|]. eapply rtc_l; [|exact IH]. destruct Hs; by econstructor.
Qed.

(** Both PDUs were sent with the key of before and again with the key of after the re-establishment, with other bytes. *)
Lemma pdcp_keystream_never_reused_witness : (ex_sec, 0, ex_pdu0) ∈ lk_sent ex_link5
  /\ (forall p, (ex_sec, 0, p) ∈ lk_sent ex_link5 -> p = ex_pdu0)
  /\ exists p p', (ex_sec, 1, p) ∈ lk_sent ex_link5 /\ (ex_sec', 1, p') ∈ lk_sent ex_link5 /\ p <> p'.
Proof.
  assert ((ex_sec, 0, ex_pdu0) ∈ lk_sent ex_link5) as H by (vm_compute; apply list_elem_of_here). split; [done|]. split.
  - destruct (pdcp_keystream_never_reused ex_link ex_link5 [1] ex_link_fresh (link_steps_any _ _ ex_link5_steps)) as (H1 & _); [by apply sdu_ok_dec|].
    intros p Hp. exact (H1 _ _ 0 p ex_pdu0 Hp H eq_refl).
  - eexists _, _. split; [|split]; [vm_compute; apply list_elem_of_further, list_elem_of_here| |].
    + vm_compute. do 3 apply list_elem_of_further. apply list_elem_of_here.
    + vm_compute. discriminate.
Defined.

(** ** The receiving entity alone *)
Section Receiver.
Context {A : aes_engine} {AL : aes_laws A}.

Lemma rx_secured_inv cfg b sec e : 0 <= max_count_hard (prx_max_count cfg) < 2 ^ 32 ->
  rx_enable_security (pdcp_entity_rx_new cfg b) sec = Some e -> prx_inv e /\ rx_deliv (prx_st e) = 0 /\ prx_cfg e = cfg.
Proof.
  intros Hh. unfold rx_enable_security. destruct (domain_ok _ _); [|done]. intros [= <-].
  pose proof (prx_inv_new cfg b Hh) as Hn. by destruct Hn.
Qed.


(** C17: Nothing is stuck in the reordering queue: from a new entity with a finite t-Reordering and security enabled,
    after any sequence of PDUs of arbitrary content (not so short that the MAC would overlap the header) and timer
    expiries, the timer runs exactly while an SDU is awaited (RX_DELIV < RX_NEXT), hence whenever an SDU is stored, and
    its expiry hands over the whole queue in the order of COUNT, empties it, stops the timer and moves RX_DELIV up to
    RX_NEXT. *)
Theorem pdcp_reordering_progress cfg b sec e ops ms : 0 <= max_count_hard (prx_max_count cfg) < 2 ^ 32 ->
  t_reordering cfg = t_reordering_ms ms ->
  rx_enable_security (pdcp_entity_rx_new cfg b) sec = Some e -> Forall (pdcp_rx_op_ok e) ops ->
  exists e1 evs1, pdcp_rx_run e ops = Some (e1, evs1)
    /\ reordering_timer e1 = (rx_deliv (prx_st e1) <? rx_next (prx_st e1))
    /\ (reorder_queue e1 <> [] -> reordering_timer e1 = true)
    /\ (reordering_timer e1 = true ->
        exists e2, pdcp_rx_exec e1 PdcpRxExpire = Some (e2, map (fun p => rx_new_sdu p.2) (reorder_queue e1))
          /\ StronglySorted Z.lt (map fst (reorder_queue e1)) /\ reorder_queue e2 = [] /\ reordering_timer e2 = false
          /\ rx_deliv (prx_st e2) = rx_next (prx_st e1) /\ rx_next (prx_st e2) = rx_next (prx_st e1)).
Proof.
  intros Hh Ht He Hops. destruct (rx_secured_inv _ _ _ _ Hh He) as (Hinv & _ & Hcfg).
  destruct (pdcp_rx_run_step e ops Hinv Hops) as (e1 & evs1 & ps & -> & [Hi (Hc & _) _ _ _ _]). exists e1, evs1.
  assert (reordering_timer e1 = (rx_deliv (prx_st e1) <? rx_next (prx_st e1))) as Htm.
  { pose proof (pi_timer _ Hi) as Hp. rewrite Hc, Hcfg, Ht in Hp. destruct ms; destruct Hp as [H1 H2]; [|done..]. rewrite H1, H2. symmetry. apply Z.ltb_irrefl. }
  split_and!; [done|done| |].
  - intros Hq. rewrite Htm. destruct Hi as [_ _ _ Hab Hb _]. destruct (reorder_queue e1) as [|[c x] q]; [done|].
    destruct Hab as [Hlt _]. apply Forall_inv in Hb. cbn in Hb. apply Z.ltb_lt. lia.
  - intros Hr. destruct (reordering_callback_eq e1 Hi Hr) as (Heq & _). destruct (om_above_sorted _ _ (pi_queue _ Hi)) as [Hs _].
    cbn [pdcp_rx_exec]. rewrite Hr, Heq. eexists. split; [done|]. by split_and!.
Qed.
End Receiver.

(** Two PDUs, the expiry, garbage, and a PDU that repeats. *)
Definition ex_ops : list pdcp_rx_op :=
  Eval vm_compute in map PdcpRxPdu (map snd (lk_air ex_link2)) ++ [PdcpRxExpire; PdcpRxPdu [0x80; 0xff; 1; 2; 3; 4; 5]; PdcpRxPdu ex_pdu0].


(** The second PDU arrives, the first does not. *)
Definition ex_ops_gap : list pdcp_rx_op := Eval vm_compute in drop 1 (take 2 ex_ops).

Lemma pdcp_reordering_progress_witness :
  exists e1 e2, pdcp_rx_run ex_rx ex_ops_gap = Some (e1, []) /\ reorder_queue e1 = [(1, [20; 21])] /\
    pdcp_rx_exec e1 PdcpRxExpire = Some (e2, [rx_new_sdu [20; 21]]) /\ reorder_queue e2 = [] /\ rx_deliv (prx_st e2) = 2.
Proof.
  destruct (pdcp_reordering_progress ex_rx_cfg 3 ex_sec ex_rx ex_ops_gap 20) as (e1 & evs1 & H1 & _ & Hq & Hx); [by vm_compute|reflexivity|reflexivity| |].
  - constructor; [|constructor]. split; [|split; [by vm_compute|intros _; right; by vm_compute]].
    apply list.Forall_forall; intros b Hb; apply list_elem_of_In in Hb; revert b Hb; apply Forall_forall. repeat constructor; by vm_compute.
  - assert (pdcp_rx_run ex_rx ex_ops_gap = Some (lk_rx ex_link3, [])) as Hrun by (vm_compute; reflexivity).
    rewrite Hrun in H1. injection H1 as <- <-. destruct (Hx (Hq ltac:(discriminate))) as (e2 & G1 & _ & G2 & _ & G3 & _).
    exists (lk_rx ex_link3), e2. split; [exact Hrun|]. split; [reflexivity|]. split; [exact G1|]. split; [exact G2|exact G3].
Defined.

(** ** Status reports and discard timers *)

(** C38: A status report is applied with the opposite meaning: the report compiled by any receiving
    entity is accepted by the transmitting entity of the peer, which forgets the SDUs below FMC and,
    above it, exactly those SDUs of the reported range that the receiver does NOT hold, although the
    comment in [compile_status_report] gives bit 1 the meaning "correctly received"; the SDUs that
    did arrive are kept and retransmitted. *)
Theorem pdcp_status_report_inverted e t : prx_inv e -> rx_deliv (prx_st e) + 1 < 2 ^ 32 ->
  exists rep t' evs, compile_status_report e = Some rep /\ handle_status_report t rep = Some (t', evs)
    /\ forall c i, (c, i) ∈ discard_timers_map t' <->
         (c, i) ∈ discard_timers_map t /\ rx_deliv (prx_st e) <= c
         /\ ~ (rx_deliv (prx_st e) < c < bitmap_end (prx_st e) /\ om_find c (reorder_queue e) = None).
Proof.
  intros Hinv Hlt. destruct (status_report_effect e t Hinv Hlt) as (rep & t' & evs & Hc & _ & Hh & Ht').
  exists rep, t', evs. split; [done|]. split; [done|]. intros c i. rewrite Ht'.
  cbn [discard_timers_map ptx_with_map]. unfold bitmap_erases. rewrite !list_elem_of_filter. cbn [fst].
  destruct (bitmap_end_bound e Hinv Hlt) as [Hb Hu]. unfold bitmap_size. rewrite Hu.
  pose proof (pi_order _ Hinv). split.
  - intros (H1 & H2 & H3). split_and!; [done|lia|]. intros [H4 H5]. apply H1. split; [lia|done].
  - intros (H1 & H2 & H3). split_and!; [|lia|done]. intros [H4 H5]. apply H3. split; [lia|done].
Qed.

(** Three SDUs were sent; only the one with COUNT 2 has arrived. *)
Definition ex_rx_gap : pdcp_entity_rx :=
  PdcpRx ex_rx_cfg 3 ex_sec true true (PdcpRxState 3 0 3) [(2, [7])] true false false.
Definition ex_tx_sent : pdcp_entity_tx :=
  PdcpTx ex_tx_cfg 3 ex_sec true true 3 [(0, DiscardInfo 0 [5]); (1, DiscardInfo 1 [6]); (2, DiscardInfo 2 [7])] false false.

Lemma ex_rx_gap_inv : prx_inv ex_rx_gap.
Proof. apply prx_inv_intro; cbn; try done; [by repeat constructor]. Qed.

(** The missing SDU 1 is forgotten, the received SDU 2 is kept. *)
Lemma pdcp_status_report_inverted_witness :
  exists rep t' evs, compile_status_report ex_rx_gap = Some rep /\ handle_status_report ex_tx_sent rep = Some (t', evs)
    /\ (2, DiscardInfo 2 [7]) ∈ discard_timers_map t' /\ ~ (1, DiscardInfo 1 [6]) ∈ discard_timers_map t'.
Proof.
  destruct (pdcp_status_report_inverted ex_rx_gap ex_tx_sent ex_rx_gap_inv) as (rep & t' & evs & H1 & H2 & H3); [by vm_compute|].
  exists rep, t', evs. split; [exact H1|]. split; [exact H2|]. split.
  - apply H3. cbn. split_and!; [do 2 apply list_elem_of_further; apply list_elem_of_here|lia|]. intros [_ H]. discriminate H.
  - intros H. apply H3 in H as (_ & _ & H). apply H. cbn. split; [|reflexivity]. vm_compute. split; reflexivity.
Defined.

(** C36: An RLC notification stops the right discard timers: when discard timers are configured and
    [c] is a COUNT within the window of the oldest running timer, the notification with the SN of
    [c] ends its loop and leaves exactly the timers of the COUNTs above [c]; a transmit notification
    does so for UM and a delivery notification for AM, and each changes nothing in the other mode. *)
Theorem pdcp_notification_stops_timers t h i m c :
  discard_timer_set t = true -> discard_timers_map t = (h, i) :: m -> om_ok (discard_timers_map t) ->
  is_u32 h -> 0 <= c < 2 ^ 32 - 1 ->
  h - pdcp_window_size (sn_size (ptx_c t)) <= c < h + pdcp_window_size (sn_size (ptx_c t)) ->
  let stopped := ptx_with_map t (filter (fun p => c < p.1) (discard_timers_map t)) in
  handle_delivery_notification t (ptx_SN t c) = Some (if is_am (ptx_c t) then stopped else t)
  /\ handle_transmit_notification t (ptx_SN t c) = Some (if is_um (ptx_c t) then stopped else t).
Proof.
  intros Hset Hm Hok Hh Hc Hw stopped. pose proof (stop_discard_timer_exact t h i m c Hset Hm Hok Hh Hc Hw) as Hs.
  unfold handle_delivery_notification, handle_transmit_notification.
  pose proof (ptx_SN_bound t c) as Hb. destruct (_ <=? ptx_SN t c) eqn:E; breflect; [lia|]. rewrite Hs.
  by destruct (is_am _), (is_um _).
Qed.

Lemma pdcp_notification_stops_timers_witness :
  handle_delivery_notification ex_tx_sent 1 = Some (ptx_with_map ex_tx_sent [(2, DiscardInfo 2 [7])]).
Proof.
  destruct (pdcp_notification_stops_timers ex_tx_sent 0 (DiscardInfo 0 [5])
    [(1, DiscardInfo 1 [6]); (2, DiscardInfo 2 [7])] 1) as [H _];
    [reflexivity|reflexivity|by vm_compute|by vm_compute|by vm_compute|by vm_compute|exact H].
Defined.

(** A notification can hang the entity: if the oldest running timer has COUNT 0, the delivery
    notification of the largest SN of an AM bearer computes HFN 0 - 1, the highest COUNT becomes
    2^32 - 1, and the loop [for (count = ...; count <= highest_count; count++)] never ends. *)
Theorem pdcp_notification_loops_forever t i m :
  discard_timer_set t = true -> is_am (ptx_c t) = true -> discard_timers_map t = (0, i) :: m ->
  handle_delivery_notification t (pdcp_sn_cardinality (sn_size (ptx_c t)) - 1) = None.
Proof.
  intros Hset Ham Hm. unfold handle_delivery_notification, stop_discard_timer. rewrite Hset, Ham, Hm.
  by destruct (sn_size (ptx_c t)).
Qed.

Lemma pdcp_notification_loops_forever_witness : handle_delivery_notification ex_tx_sent 4095 = None.
Proof. apply (pdcp_notification_loops_forever ex_tx_sent (DiscardInfo 0 [5]) [(1, DiscardInfo 1 [6]); (2, DiscardInfo 2 [7])]); reflexivity. Defined.

(** ** Errors of the receiving entity *)
Section Errors.
Context {A : aes_engine}.

(** A forged PDU raises the COUNT alarms: before any integrity check, a PDU
    of a fresh entity whose SN lies half the SN space ahead gets HFN 0 - 1; RCVD_COUNT exceeds
    both thresholds, so [on_max_count_reached] and [on_protocol_failure] are notified and the PDU
    is dropped, whatever its content. *)
Theorem pdcp_rx_hfn_underflow e pdu sn :
  prx_st e = PdcpRxState 0 0 0 -> prx_max_count_notified e = false -> prx_max_count_overflow e = false ->
  prx_hdr_len e < blen pdu -> read_data_pdu_header (prx_common (prx_cfg e)) pdu = Some sn ->
  pdcp_window_size (prx_sn_size e) <= sn < pdcp_sn_cardinality (prx_sn_size e) ->
  max_count_notify (prx_max_count (prx_cfg e)) < 2 ^ 32 - pdcp_window_size (prx_sn_size e) ->
  max_count_hard (prx_max_count (prx_cfg e)) <= 2 ^ 32 - pdcp_window_size (prx_sn_size e) ->
  pdcp_handle_data_pdu e pdu = Some (prx_with_flags e true true, [rx_max_count_reached; rx_protocol_failure]).
Proof.
  intros Hst Hn Ho Hlen Hrd Hsn Hmn Hmh. unfold pdcp_handle_data_pdu. destruct (_ <=? prx_hdr_len e) eqn:E; breflect; [lia|].
  rewrite Hrd, Hst. cbn [rx_deliv].
  assert (count_of_sn (prx_sn_size e) 0 sn = 2 ^ 32 - pdcp_sn_cardinality (prx_sn_size e) + sn) as Hc.
  { unfold count_of_sn. rewrite pdcp_compute_sn_mod, pdcp_compute_hfn_div, Z.mod_0_l, Z.div_0_l by (by destruct (prx_sn_size e)).
    pose proof (pdcp_window_half (prx_sn_size e)) as Hw. destruct (sn <? _) eqn:E1; breflect; [lia|].
    rewrite u32_id by (unfold is_u32; destruct (prx_sn_size e); cbn; lia).
    destruct (_ <=? sn) eqn:E2; breflect; [|lia]. rewrite pdcp_compute_count_eq by lia. f_equal. by destruct (prx_sn_size e). }
  pose proof (pdcp_window_half (prx_sn_size e)) as Hw. rewrite Hc. unfold check_max_count.
  destruct (_ >? _) eqn:E1; breflect; [|lia]. rewrite Hn. cbn [negb andb prx_with_flags prx_cfg prx_max_count_overflow].
  destruct (_ <=? _) eqn:E2; breflect; [|lia]. by rewrite Ho.
Qed.

(** A short PDU of an SRB fails a check: when no security is enabled, a data PDU of five bytes
    on an SRB passes the size check of [handle_data_pdu], loses its last four bytes as MAC, and
    the removal of the two-byte header from the single byte left fails the check of [trim_head]. *)
Theorem pdcp_rx_short_srb_pdu e b0 b1 b2 b3 b4 :
  rb_type (prx_common (prx_cfg e)) = pdcp_srb -> sn_size (prx_common (prx_cfg e)) = pdcp_size12bits ->
  prx_integrity_enabled e = false -> prx_ciphering_enabled e = false ->
  (forall sn, read_data_pdu_header (prx_common (prx_cfg e)) [b0; b1; b2; b3; b4] = Some sn ->
     count_of_sn pdcp_size12bits (rx_deliv (prx_st e)) sn < max_count_hard (prx_max_count (prx_cfg e))) ->
  pdcp_handle_pdu e [b0; b1; b2; b3; b4] = None.
Proof.
  intros Hrb Hsn Hi Hci Hmc.
  assert (pdcp_handle_pdu e [b0; b1; b2; b3; b4] = pdcp_handle_data_pdu e [b0; b1; b2; b3; b4]) as ->.
  { unfold pdcp_handle_pdu, is_srb. rewrite bool_decide_true by done. by destruct (pdcp_pdu_get_dc b0). }
  unfold pdcp_handle_data_pdu, prx_hdr_len, prx_sn_size. rewrite Hsn.
  change (blen [b0; b1; b2; b3; b4] <=? pdcp_data_pdu_header_size pdcp_size12bits) with false. cbv iota.
  unfold read_data_pdu_header in *. rewrite Hsn in *.
  change (blen [b0; b1; b2; b3; b4] <=? pdcp_data_pdu_header_size pdcp_size12bits) with false in *. cbv iota in *.
  specialize (Hmc _ eq_refl). set (c := count_of_sn _ _ _) in *.
  pose proof (check_max_count_spec e c) as Hs. destruct (check_max_count e c) as [[ok e1] evs].
  destruct Hs as ((a & b & ->) & _ & ->). destruct (_ <=? c) eqn:E; breflect; [lia|]. cbn [negb].
  unfold rx_unprotect. cbn [prx_with_flags prx_ciphering_enabled prx_integrity_enabled prx_cfg].
  rewrite Hi, Hci. unfold is_srb. rewrite bool_decide_true by done. cbn [orb]. unfold discard_data_header, prx_hdr_len, prx_sn_size.
  cbn [prx_with_flags prx_cfg]. by rewrite Hsn.
Qed.
End Errors.

Lemma pdcp_rx_hfn_underflow_witness :
  pdcp_handle_data_pdu ex_rx [0x8f; 0xff; 1; 2; 3; 4; 5] =
    Some (prx_with_flags ex_rx true true, [rx_max_count_reached; rx_protocol_failure]).
Proof. apply (pdcp_rx_hfn_underflow ex_rx [0x8f; 0xff; 1; 2; 3; 4; 5] 4095); try reflexivity; by vm_compute. Defined.

Definition ex_srb : pdcp_entity_rx :=
  pdcp_entity_rx_new (PdcpRxConfig (PdcpCommon pdcp_srb pdcp_am pdcp_size12bits pdcp_downlink) t_reordering_infinity ex_max) 1.

Lemma pdcp_rx_short_srb_pdu_witness : pdcp_handle_pdu ex_srb [0; 0; 9; 9; 9] = None.
Proof.
  apply (pdcp_rx_short_srb_pdu ex_srb 0 0 9 9 9); try reflexivity. intros sn [= <-]. reflexivity.
Defined.
