(* ===== verification/Timers.v ===== *)
(** * Timer manager

    [include/srsran/support/timers.h] and [lib/support/timers.cpp]: the timers of
    the application.  A [unique_timer] is a handle to a front-end object; the
    front-end sends commands to the back-end, which runs in [tick] and keeps the
    running timers in a wheel; on expiry the back-end defers a task to the
    executor of the front-end, which calls the callback unless the timer was
    changed in the meantime.

    The front-end objects live in a store of their own ([tm_frontends]), because
    handles, commands, tasks and the back-end all refer to them.  Commands, tasks
    and the ticks interleave in any order; a critical section is one step.
    [tm_owned] are the valid [unique_timer] handles.  [None] is a failed
    [srsran_assert] or an access to an object that does not exist. *)
From S2P Require Import Prelude.

Definition WHEEL_SIZE : Z := 65536.
Definition MAX_TIMER_DURATION : Z := (2 ^ 32 - 1) / 2.
(** [std::numeric_limits<std::chrono::milliseconds>::max()] *)
Definition INVALID_DURATION : Z := 2 ^ 63 - 1.

Inductive timer_state := tm_stopped | tm_running | tm_expired.
#[export] Instance timer_state_eq_dec : EqDecision timer_state.
Proof. solve_decision. Defined.

(** The executor and the callback are known by a number. *)
Record timer_frontend := TimerFrontend {
  tf_exec : option Z;
  tf_cmd_id : Z;
  tf_state : timer_state;
  tf_duration : Z;
  tf_callback : option Z;
}.

Inductive timer_action := timer_start | timer_stop | timer_destroy.
Record timer_cmd := TimerCmd { tc_id : Z; tc_cmd_id : Z; tc_action : timer_action; tc_duration : Z }.

(** An element of [pending_cmds]: a command, or a new front-end for the back-end. *)
Inductive timer_event := timer_command (c : timer_cmd) | timer_created (id : Z).

Record timer_backend := TimerBackend { tb_cmd_id : Z; tb_state : timer_state; tb_timeout : Z }.
Record timer_handle := TimerHandle { th_frontend : option Z; th_backend : timer_backend }.
Definition timer_handle_default : timer_handle := TimerHandle None (TimerBackend 0 tm_stopped 0).

(** The head of [free_list] is the back of the vector in the code. *)
Record timer_manager := TimerManager {
  cur_time : Z;
  nof_timers_running : Z;
  timer_list : list timer_handle;
  next_timer_id : Z;
  free_list : list Z;
  time_wheel : gmap Z (list Z);
  failed_to_trigger_timers : list (Z * Z);
  pending_cmds : list timer_event;
  tm_frontends : gmap Z timer_frontend;
  tm_tasks : list (Z * Z);
  tm_owned : gset Z;
}.

(** Field updates. *)
Definition tm_with_front (s : timer_manager) (fs : gmap Z timer_frontend) : timer_manager :=
  TimerManager (cur_time s) (nof_timers_running s) (timer_list s) (next_timer_id s) (free_list s) (time_wheel s)
    (failed_to_trigger_timers s) (pending_cmds s) fs (tm_tasks s) (tm_owned s).
Definition tm_with_pending (s : timer_manager) (p : list timer_event) : timer_manager :=
  TimerManager (cur_time s) (nof_timers_running s) (timer_list s) (next_timer_id s) (free_list s) (time_wheel s)
    (failed_to_trigger_timers s) p (tm_frontends s) (tm_tasks s) (tm_owned s).
Definition tm_with_back (s : timer_manager) (n : Z) (l : list timer_handle) (w : gmap Z (list Z)) : timer_manager :=
  TimerManager (cur_time s) n l (next_timer_id s) (free_list s) w
    (failed_to_trigger_timers s) (pending_cmds s) (tm_frontends s) (tm_tasks s) (tm_owned s).
Definition tm_with_free (s : timer_manager) (n : Z) (l : list Z) : timer_manager :=
  TimerManager (cur_time s) (nof_timers_running s) (timer_list s) n l (time_wheel s)
    (failed_to_trigger_timers s) (pending_cmds s) (tm_frontends s) (tm_tasks s) (tm_owned s).
Definition tm_with_dispatch (s : timer_manager) (failed tasks : list (Z * Z)) : timer_manager :=
  TimerManager (cur_time s) (nof_timers_running s) (timer_list s) (next_timer_id s) (free_list s) (time_wheel s)
    failed (pending_cmds s) (tm_frontends s) tasks (tm_owned s).
Definition tm_with_owned (s : timer_manager) (o : gset Z) : timer_manager :=
  TimerManager (cur_time s) (nof_timers_running s) (timer_list s) (next_timer_id s) (free_list s) (time_wheel s)
    (failed_to_trigger_timers s) (pending_cmds s) (tm_frontends s) (tm_tasks s) o.
Definition tm_with_time (s : timer_manager) (t : Z) : timer_manager :=
  TimerManager t (nof_timers_running s) (timer_list s) (next_timer_id s) (free_list s) (time_wheel s)
    (failed_to_trigger_timers s) (pending_cmds s) (tm_frontends s) (tm_tasks s) (tm_owned s).

(** ** Front-end *)
Definition timer_frontend_new : timer_frontend := TimerFrontend None 0 tm_stopped INVALID_DURATION None.

Definition push_timer_command (s : timer_manager) (c : timer_cmd) : timer_manager :=
  tm_with_pending s (pending_cmds s ++ [timer_command c]).

Definition update_front (s : timer_manager) (id : Z) (f : timer_frontend) : timer_manager :=
  tm_with_front s (<[id := f]> (tm_frontends s)).

Definition frontend_destroy (s : timer_manager) (id : Z) : option timer_manager :=
  let* f := tm_frontends s !! id in
  let c := u32 (tf_cmd_id f + 1) in
  let s := update_front s id (TimerFrontend (tf_exec f) c tm_stopped (tf_duration f) (tf_callback f)) in
  Some (push_timer_command s (TimerCmd id c timer_destroy 0)).

Definition frontend_set (s : timer_manager) (id dur : Z) : option timer_manager :=
  let* f := tm_frontends s !! id in
  if dur <=? MAX_TIMER_DURATION then
    let c := u32 (tf_cmd_id f + 1) in
    let s := update_front s id (TimerFrontend (tf_exec f) c (tf_state f) dur (tf_callback f)) in
    Some (if bool_decide (tf_state f = tm_running)
          then push_timer_command s (TimerCmd id c timer_start (u32 dur)) else s)
  else None.

Definition frontend_set_callback (s : timer_manager) (id dur cb : Z) : option timer_manager :=
  let* s := frontend_set s id dur in
  let* f := tm_frontends s !! id in
  Some (update_front s id (TimerFrontend (tf_exec f) (tf_cmd_id f) (tf_state f) (tf_duration f) (Some cb))).

Definition frontend_run (s : timer_manager) (id : Z) : option timer_manager :=
  let* f := tm_frontends s !! id in
  let c := u32 (tf_cmd_id f + 1) in
  let s := update_front s id (TimerFrontend (tf_exec f) c tm_running (tf_duration f) (tf_callback f)) in
  Some (push_timer_command s (TimerCmd id c timer_start (u32 (tf_duration f)))).

Definition frontend_stop (s : timer_manager) (id : Z) : option timer_manager :=
  let* f := tm_frontends s !! id in
  let c := u32 (tf_cmd_id f + 1) in
  let s := update_front s id (TimerFrontend (tf_exec f) c tm_stopped (tf_duration f) (tf_callback f)) in
  Some (push_timer_command s (TimerCmd id c timer_stop 0)).

(** ** Back-end *)

(** [timer_list[id]]; the index must exist. *)
Definition get_handle (s : timer_manager) (id : Z) : option timer_handle := timer_list s !! Z.to_nat id.
Definition wheel_at (w : gmap Z (list Z)) (i : Z) : list Z := default [] (w !! i).

Definition create_timer_handle (s : timer_manager) (id : Z) : option timer_manager :=
  let n := length (timer_list s) in
  let ok := match timer_list s !! Z.to_nat id with Some h => bool_decide (th_frontend h = None) | None => true end in
  if ok then
    let l := timer_list s ++ replicate (Z.to_nat id + 1 - n) timer_handle_default in
    let* h := l !! Z.to_nat id in
    Some (tm_with_back s (nof_timers_running s) (<[Z.to_nat id := TimerHandle (Some id) (th_backend h)]> l) (time_wheel s))
  else None.

Definition start_timer_backend (s : timer_manager) (id duration : Z) : option timer_manager :=
  let* h := get_handle s id in
  if negb (bool_decide (tb_state (th_backend h) = tm_running)) && bool_decide (th_frontend h <> None) then
    let timeout := u32 (cur_time s + Z.max duration 1) in
    let i := timeout mod WHEEL_SIZE in
    Some (tm_with_back s (nof_timers_running s + 1)
            (<[Z.to_nat id := TimerHandle (th_frontend h) (TimerBackend (tb_cmd_id (th_backend h)) tm_running timeout)]> (timer_list s))
            (<[i := id :: wheel_at (time_wheel s) i]> (time_wheel s)))
  else None.

(** [trigger_timeout_handling]: the task captures the front-end and the epoch.
    [defer_ok] tells whether the executor takes the task. *)
Definition trigger_timeout_handling (defer_ok : Z -> bool) (s : timer_manager) (h : timer_handle)
    : option (bool * timer_manager) :=
  let* fid := th_frontend h in
  let* f := tm_frontends s !! fid in
  let* _ := tf_exec f in
  if defer_ok fid
  then Some (true, tm_with_dispatch s (failed_to_trigger_timers s) (tm_tasks s ++ [(fid, tb_cmd_id (th_backend h))]))
  else Some (false, s).

Definition try_stop_timer_backend (defer_ok : Z -> bool) (s : timer_manager) (id : Z) (expiry_reason : bool)
    : option timer_manager :=
  let* h := get_handle s id in
  let b := th_backend h in
  if negb (bool_decide (tb_state b = tm_running)) then Some s
  else
    let i := tb_timeout b mod WHEEL_SIZE in
    let st := if expiry_reason then tm_expired else tm_stopped in
    let h' := TimerHandle (th_frontend h) (TimerBackend (tb_cmd_id b) st (tb_timeout b)) in
    let s := tm_with_back s (nof_timers_running s - 1) (<[Z.to_nat id := h']> (timer_list s))
               (<[i := filter (fun j => j <> id) (wheel_at (time_wheel s) i)]> (time_wheel s)) in
    if negb expiry_reason then Some s
    else
      let* fid := th_frontend h in
      let* f := tm_frontends s !! fid in
      if tb_cmd_id b =? tf_cmd_id f then
        let* (ok, s) := trigger_timeout_handling defer_ok s h' in
        Some (if ok : bool then s
              else tm_with_dispatch s (failed_to_trigger_timers s ++ [(fid, tb_cmd_id b)]) (tm_tasks s))
      else Some s.

Definition stop_timer_backend (defer_ok : Z -> bool) (s : timer_manager) (id : Z) : option timer_manager :=
  let* h := get_handle s id in
  if bool_decide (tb_state (th_backend h) = tm_running) then try_stop_timer_backend defer_ok s id true else None.

Definition destroy_timer_backend (s : timer_manager) (id : Z) : option timer_manager :=
  let* h := get_handle s id in
  if bool_decide (tb_state (th_backend h) = tm_running) then None
  else
    let* fid := th_frontend h in
    let* f := tm_frontends s !! fid in
    let s := update_front s fid (TimerFrontend None (tf_cmd_id f) tm_stopped INVALID_DURATION None) in
    let s := tm_with_back s (nof_timers_running s)
               (<[Z.to_nat id := TimerHandle (th_frontend h) (TimerBackend (tb_cmd_id (th_backend h)) tm_stopped 0)]>
                  (timer_list s)) (time_wheel s) in
    Some (tm_with_free s (next_timer_id s) (fid :: free_list s)).

(** One element of [cmds_to_process]. *)
Definition process_event (defer_ok : Z -> bool) (s : timer_manager) (ev : timer_event) : option timer_manager :=
  match ev with
  | timer_created id => create_timer_handle s id
  | timer_command c =>
      let id := tc_id c in
      let* h := get_handle s id in
      let b := th_backend h in
      let s := tm_with_back s (nof_timers_running s)
                 (<[Z.to_nat id := TimerHandle (th_frontend h) (TimerBackend (tc_cmd_id c) (tb_state b) (tb_timeout b))]>
                    (timer_list s)) (time_wheel s) in
      let* s := try_stop_timer_backend defer_ok s id false in
      match tc_action c with
      | timer_start => start_timer_backend s id (tc_duration c)
      | timer_destroy => destroy_timer_backend s id
      | timer_stop => Some s
      end
  end.

Fixpoint process_events (defer_ok : Z -> bool) (s : timer_manager) (evs : list timer_event) : option timer_manager :=
  match evs with
  | [] => Some s
  | ev :: evs => let* s := process_event defer_ok s ev in process_events defer_ok s evs
  end.

(** [handle_postponed_timeouts]: the remaining elements stay in the list. *)
Fixpoint handle_postponed_timeouts (defer_ok : Z -> bool) (s : timer_manager) (failed : list (Z * Z))
    : option timer_manager :=
  match failed with
  | [] => Some (tm_with_dispatch s [] (tm_tasks s))
  | (id, prev_cmd_id) :: rest =>
      let* h := get_handle s id in
      let b := th_backend h in
      let* fid := th_frontend h in
      let* f := tm_frontends s !! fid in
      if (tb_cmd_id b =? prev_cmd_id) && (tb_cmd_id b =? tf_cmd_id f) then
        let* (ok, s) := trigger_timeout_handling defer_ok s h in
        if ok : bool then handle_postponed_timeouts defer_ok s rest
        else Some (tm_with_dispatch s failed (tm_tasks s))
      else handle_postponed_timeouts defer_ok s rest
  end.

(** The loop over the bucket of the wheel: only the current element is removed
    from the list while it is traversed. *)
Fixpoint expire_bucket (defer_ok : Z -> bool) (s : timer_manager) (bucket : list Z) : option timer_manager :=
  match bucket with
  | [] => Some s
  | id :: rest =>
      let* h := get_handle s id in
      if bool_decide (th_frontend h = None) then None
      else if negb (cur_time s =? tb_timeout (th_backend h)) then expire_bucket defer_ok s rest
      else let* s := stop_timer_backend defer_ok s id in expire_bucket defer_ok s rest
  end.

Definition timer_tick (defer_ok : Z -> bool) (s : timer_manager) : option timer_manager :=
  let evs := pending_cmds s in
  let* s := process_events defer_ok (tm_with_pending s []) evs in
  let* s := handle_postponed_timeouts defer_ok s (failed_to_trigger_timers s) in
  let s := tm_with_time s (u32 (cur_time s + 1)) in
  expire_bucket defer_ok s (wheel_at (time_wheel s) (cur_time s mod WHEEL_SIZE)).

(** ** Creation *)
Definition timer_manager_new (capacity : nat) : timer_manager :=
  let ids := seqZ 0 (Z.of_nat capacity) in
  TimerManager 0 0 (map (fun id => TimerHandle (Some id) (TimerBackend 0 tm_stopped 0)) ids) (Z.of_nat capacity) ids
    ∅ [] [] (list_to_map (map (fun id => (id, timer_frontend_new)) ids)) [] ∅.

(** [create_frontend_timer] and [create_unique_timer]: the identifier of the
    timer behind the new handle. *)
Definition create_unique_timer (s : timer_manager) (exec : Z) : option (Z * timer_manager) :=
  match free_list s with
  | id :: rest =>
      let s := tm_with_free s (next_timer_id s) rest in
      let* f := tm_frontends s !! id in
      match tf_exec f with
      | Some _ => None
      | None =>
          let s := update_front s id (TimerFrontend (Some exec) (tf_cmd_id f) (tf_state f) (tf_duration f) (tf_callback f)) in
          Some (id, tm_with_owned s ({[id]} ∪ tm_owned s))
      end
  | [] =>
      let id := next_timer_id s in
      let s := tm_with_free s (next_timer_id s + 1) [] in
      let s := update_front s id (TimerFrontend (Some exec) 0 tm_stopped INVALID_DURATION None) in
      let s := tm_with_pending s (pending_cmds s ++ [timer_created id]) in
      Some (id, tm_with_owned s ({[id]} ∪ tm_owned s))
  end.

(** ** Handles: [unique_timer] *)
Definition timer_is_valid (s : timer_manager) (id : Z) : bool := bool_decide (id ∈ tm_owned s).
Definition timer_is_running (s : timer_manager) (id : Z) : bool :=
  timer_is_valid s id && match tm_frontends s !! id with Some f => bool_decide (tf_state f = tm_running) | None => false end.
Definition timer_has_expired (s : timer_manager) (id : Z) : bool :=
  timer_is_valid s id && match tm_frontends s !! id with Some f => bool_decide (tf_state f = tm_expired) | None => false end.

(** The operations of a handle: [set] (with or without a callback), [run],
    [stop] and [reset] (also called by the destructor). *)
Inductive timer_op :=
  | op_set (dur : Z) (cb : option Z)
  | op_run
  | op_stop
  | op_reset.

Definition unique_timer_op (s : timer_manager) (id : Z) (op : timer_op) : option timer_manager :=
  match op with
  | op_set dur cb =>
      if timer_is_valid s id then
        match cb with Some cb => frontend_set_callback s id dur cb | None => frontend_set s id dur end
      else None
  | op_run => if timer_is_valid s id then frontend_run s id else None
  | op_stop => if timer_is_running s id then frontend_stop s id else Some s
  | op_reset =>
      if timer_is_valid s id then
        let* s := frontend_destroy s id in Some (tm_with_owned s (tm_owned s ∖ {[id]}))
      else Some s
  end.

(** ** The deferred task: the callback called, if any *)
Definition run_task (s : timer_manager) (task : Z * Z) : option (timer_manager * list (Z * Z)) :=
  let '(fid, expiry_epoch) := task in
  let* f := tm_frontends s !! fid in
  if tf_cmd_id f =? expiry_epoch then
    if bool_decide (tf_state f = tm_running) then
      Some (update_front s fid (TimerFrontend (tf_exec f) (tf_cmd_id f) tm_expired (tf_duration f) (tf_callback f)),
            match tf_callback f with Some cb => [(cb, fid)] | None => [] end)
    else None
  else Some (s, []).

(** ** Steps of the system *)
Inductive timer_sys_op :=
  | sys_create (exec : Z)
  | sys_timer (id : Z) (op : timer_op)
  | sys_tick (defer_ok : Z -> bool)
  | sys_task (k : nat).

(** The next state and the callbacks that are called. *)
Definition timer_sys_step (s : timer_manager) (op : timer_sys_op) : option (timer_manager * list (Z * Z)) :=
  match op with
  | sys_create exec => let* (_, s) := create_unique_timer s exec in Some (s, [])
  | sys_timer id op => let* s := unique_timer_op s id op in Some (s, [])
  | sys_tick ok => let* s := timer_tick ok s in Some (s, [])
  | sys_task k =>
      match tm_tasks s !! k with
      | Some t => run_task (tm_with_dispatch s (failed_to_trigger_timers s) (delete k (tm_tasks s))) t
      | None => Some (s, [])
      end
  end.

Fixpoint timer_sys_run (s : timer_manager) (ops : list timer_sys_op) : option (timer_manager * list (Z * Z)) :=
  match ops with
  | [] => Some (s, [])
  | op :: ops =>
      let* (s, evs) := timer_sys_step s op in
      let* (s, evs') := timer_sys_run s ops in
      Some (s, evs ++ evs')
  end.

(** A timer of 3 ticks fires in the third tick, one of 5 ticks is stopped in time. *)
Example timers_example :
  (let* (s, evs) := timer_sys_run (timer_manager_new 2)
     [sys_create 0; sys_create 0; sys_timer 0 (op_set 3 (Some 7)); sys_timer 1 (op_set 5 (Some 8)); sys_timer 0 op_run;
      sys_timer 1 op_run; sys_tick (fun _ => true); sys_tick (fun _ => true); sys_task 0; sys_tick (fun _ => true);
      sys_task 0; sys_tick (fun _ => true); sys_tick (fun _ => true); sys_timer 1 op_stop; sys_task 0]
   in Some (evs, timer_has_expired s 0, timer_is_running s 1, nof_timers_running s))
  = Some ([(7, 0)], true, false, 0).
Proof. vm_compute. reflexivity. Qed.
