(* ===== verification/TimersThms.v ===== *)
(** * Timer manager: invariant

    The front-ends, the back-end, the queue of commands and the deferred tasks
    agree: a running timer has exactly one token, which is the start command that
    is still queued, the running entry of the back-end, the task that was
    deferred, or the postponed dispatch; a timer that is not running has none.
    The wheel holds exactly the running entries, in the bucket of their
    timeout. *)
From S2P Require Import Prelude Timers.

(** ** The wheel *)
Definition th_running (h : timer_handle) : Prop := tb_state (th_backend h) = tm_running.
#[export] Instance th_running_dec h : Decision (th_running h).
Proof. unfold th_running. apply _. Defined.

Record wheel_ok (l : list timer_handle) (w : gmap Z (list Z)) (n : Z) : Prop := {
  wo_nodup : forall i, NoDup (wheel_at w i);
  wo_elem : forall id i, id ∈ wheel_at w i <->
    0 <= id /\ exists h, l !! Z.to_nat id = Some h /\ th_running h /\ tb_timeout (th_backend h) mod WHEEL_SIZE = i;
  wo_count : n = Z.of_nat (length (filter th_running l));
}.

Lemma wheel_at_insert w i j x : wheel_at (<[i := x]> w) j = if decide (j = i) then x else wheel_at w j.
Proof.
  unfold wheel_at. destruct (decide (j = i)) as [->|]; [by rewrite lookup_insert_eq|]. by rewrite lookup_insert_ne.
Qed.

Lemma filter_insert_length {X} (P : X -> Prop) `{!forall x, Decision (P x)} (l : list X) k x y : l !! k = Some x ->
  (length (filter P (<[k := y]> l)) + (if decide (P x) then 1 else 0) = length (filter P l) + (if decide (P y) then 1 else 0))%nat.
Proof.
  intros Hk. pose proof (lookup_lt_Some _ _ _ Hk) as Hlt. rewrite insert_take_drop by done.
  rewrite <- (take_drop_middle l k x Hk) at 3. rewrite !list.filter_app, !length_app, !filter_cons.
  destruct (decide (P x)), (decide (P y)); cbn; lia.
Qed.

Section Wheel.
Context (l : list timer_handle) (w : gmap Z (list Z)) (n : Z) (Hw : wheel_ok l w n).
Context (id : Z) (h : timer_handle) (Hid : 0 <= id) (Hh : l !! Z.to_nat id = Some h).

Lemma lookup_insert_handle j h' : 0 <= j ->
  (<[Z.to_nat id := h']> l) !! Z.to_nat j = if decide (j = id) then Some h' else l !! Z.to_nat j.
Proof.
  intros Hj. destruct (decide (j = id)) as [->|Hne].
  - apply list_lookup_insert_eq. by eapply lookup_lt_Some.
  - apply list_lookup_insert_ne. lia.
Qed.

(** An update that keeps the state, or that keeps the entry out of the wheel. *)
Lemma wheel_ok_update h' :
  (th_running h' <-> th_running h) -> (th_running h -> tb_timeout (th_backend h') = tb_timeout (th_backend h)) ->
  wheel_ok (<[Z.to_nat id := h']> l) w n.
Proof.
  intros Hr Ht. destruct Hw as [W1 W2 W3]. split; [done| |].
  - intros j i. rewrite W2. split; intros [Hj (g & Hg & Hrun & Hi)]; (split; [done|]).
    + rewrite lookup_insert_handle by done. destruct (decide (j = id)) as [->|]; [|by exists g].
      assert (g = h) as -> by congruence. exists h'. rewrite Hr, Ht by done. done.
    + rewrite lookup_insert_handle in Hg by done. destruct (decide (j = id)) as [->|]; [|by exists g].
      injection Hg as <-. exists h. apply Hr in Hrun as Hrun'. rewrite Ht in Hi by done. done.
  - rewrite W3. pose proof (filter_insert_length th_running l _ _ h' Hh). do 2 case_decide; try tauto; lia.
Qed.

Lemma wheel_ok_start h' : ~ th_running h -> th_running h' ->
  wheel_ok (<[Z.to_nat id := h']> l)
    (<[tb_timeout (th_backend h') mod WHEEL_SIZE := id :: wheel_at w (tb_timeout (th_backend h') mod WHEEL_SIZE)]> w) (n + 1).
Proof.
  intros Hr Hr'. destruct Hw as [W1 W2 W3]. set (t := tb_timeout (th_backend h') mod WHEEL_SIZE).
  assert (forall i, id ∉ wheel_at w i) as Hno by (intros i [_ (g & Hg & Hrun & _)]%W2; congruence). split.
  - intros i. rewrite wheel_at_insert. case_decide; [by constructor|done].
  - intros j i. rewrite wheel_at_insert. transitivity (j ∈ wheel_at w i \/ (j = id /\ i = t)).
    { case_decide as Hi; [subst i; rewrite elem_of_cons; tauto|]. tauto. }
    rewrite W2. split.
    + intros [[Hj (g & Hg & Hrun & Hi)]|[-> ->]]; (split; [done|]); rewrite lookup_insert_handle by done.
      * destruct (decide (j = id)) as [->|]; [congruence|by exists g].
      * rewrite decide_True by done. by exists h'.
    + intros [Hj (g & Hg & Hrun & Hi)]. rewrite lookup_insert_handle in Hg by done.
      destruct (decide (j = id)) as [->|]; [right; split; [done|]; by injection Hg as <-|]. left. split; [done|]. by exists g.
  - rewrite W3. pose proof (filter_insert_length th_running l _ _ h' Hh). do 2 case_decide; try tauto; lia.
Qed.

Lemma wheel_ok_stop h' : th_running h -> ~ th_running h' ->
  wheel_ok (<[Z.to_nat id := h']> l)
    (<[tb_timeout (th_backend h) mod WHEEL_SIZE :=
         filter (fun j => j <> id) (wheel_at w (tb_timeout (th_backend h) mod WHEEL_SIZE))]> w) (n - 1).
Proof.
  intros Hr Hr'. destruct Hw as [W1 W2 W3]. set (t := tb_timeout (th_backend h) mod WHEEL_SIZE). split.
  - intros i. rewrite wheel_at_insert. case_decide; [by apply list.NoDup_filter|done].
  - intros j i. rewrite wheel_at_insert. transitivity (j ∈ wheel_at w i /\ j <> id).
    { case_decide as Hi; [subst i; rewrite list_elem_of_filter; tauto|]. split; [|tauto]. intros Hj. split; [done|].
      intros ->. apply W2 in Hj as [_ (g & Hg & _ & Hi')]. assert (g = h) as -> by congruence. by subst t. }
    rewrite W2. split.
    + intros [[Hj (g & Hg & Hrun & Hi)] Hne]. split; [done|]. rewrite lookup_insert_handle by done.
      rewrite decide_False by done. by exists g.
    + intros [Hj (g & Hg & Hrun & Hi)]. rewrite lookup_insert_handle in Hg by done.
      destruct (decide (j = id)) as [->|]; [by injection Hg as <-|]. split; [|done]. split; [done|]. by exists g.
  - rewrite W3. pose proof (filter_insert_length th_running l _ _ h' Hh). do 2 case_decide; try tauto; lia.
Qed.
End Wheel.

Lemma wheel_ok_grow l w n h : wheel_ok l w n -> ~ th_running h -> wheel_ok (l ++ [h]) w n.
Proof.
  intros [W1 W2 W3] Hr. split; [done| |].
  - intros id i. rewrite W2. split; intros [Hid (g & Hg & Hrun & Hi)]; (split; [done|]).
    + exists g. split; [|done]. by apply lookup_app_l_Some.
    + exists g. split; [|done]. apply lookup_app_Some in Hg as [Hg|[_ Hg]]; [done|].
      apply list_lookup_singleton_Some in Hg as [_ ->]. done.
  - rewrite W3, list.filter_app, filter_cons_False, filter_nil, app_nil_r; done.
Qed.

(** ** One timer *)

(** The identifiers of the queued commands increase from the one of the back-end
    to the one of the front-end. *)
Fixpoint cmd_chain (lo : Z) (cmds : list timer_cmd) (hi : Z) : Prop :=
  match cmds with
  | [] => lo <= hi
  | c :: cmds => lo < tc_cmd_id c /\ cmd_chain (tc_cmd_id c) cmds hi
  end.

Definition is_start (e : Z) (c : timer_cmd) : Prop := tc_action c = timer_start /\ tc_cmd_id c = e.
#[export] Instance timer_action_eq_dec : EqDecision timer_action.
Proof. solve_decision. Defined.
#[export] Instance is_start_dec e c : Decision (is_start e c).
Proof. unfold is_start. apply _. Defined.

Definition not_destroy (c : timer_cmd) : Prop := tc_action c <> timer_destroy.

(** The places where the run [e] of a timer can be. *)
Definition back_token (e : Z) (b : timer_backend) : nat :=
  if decide (tb_state b = tm_running /\ tb_cmd_id b = e) then 1 else 0.
Definition tokens (e : Z) (b : timer_backend) (cmds : list timer_cmd) (toks : list Z) : nat :=
  back_token e b + length (filter (is_start e) cmds) + length (filter (eq e) toks).

Record timer_ok (f : timer_frontend) (b : timer_backend) (cmds : list timer_cmd) (toks : list Z) (owned free : bool)
    : Prop := {
  lo_chain : cmd_chain (tb_cmd_id b) cmds (tf_cmd_id f);
  lo_toks : Forall (fun e => e <= tb_cmd_id b) toks;
  lo_tokens : tokens (tf_cmd_id f) b cmds toks = if decide (tf_state f = tm_running) then 1%nat else 0%nat;
  lo_alloc : match owned, free with
             | true, false => tf_exec f <> None /\ Forall not_destroy cmds
             | false, true => tf_exec f = None /\ cmds = [] /\ tf_state f <> tm_running
             | false, false => tf_exec f <> None /\ tf_state f <> tm_running
                 /\ exists l c, cmds = l ++ [c] /\ tc_action c = timer_destroy /\ Forall not_destroy l
             | true, true => False
             end;
  lo_dur : Forall (fun c => is_u32 (tc_duration c)) cmds;
}.

Lemma cmd_chain_app lo cmds hi c : cmd_chain lo cmds hi -> hi < tc_cmd_id c -> cmd_chain lo (cmds ++ [c]) (tc_cmd_id c).
Proof. revert lo. induction cmds as [|d cmds IH]; intros lo; cbn; [lia|]. intros [? ?] ?. auto. Qed.
Lemma cmd_chain_weaken lo cmds hi hi' : cmd_chain lo cmds hi -> hi <= hi' -> cmd_chain lo cmds hi'.
Proof. revert lo. induction cmds as [|d cmds IH]; intros lo; cbn; [lia|]. intros [? ?] ?. eauto. Qed.
Lemma cmd_chain_le lo cmds hi : cmd_chain lo cmds hi -> lo <= hi /\ Forall (fun c => lo < tc_cmd_id c <= hi) cmds.
Proof.
  revert lo. induction cmds as [|c cmds IH]; intros lo; cbn; [intros; split; [done|constructor]|].
  intros [H1 H2]. destruct (IH _ H2) as [H3 H4]. split; [lia|]. constructor; [lia|].
  eapply list.Forall_impl; [exact H4|]. cbn. lia.
Qed.

Lemma filter_none {X} (P : X -> Prop) `{!forall x, Decision (P x)} (l : list X) : Forall (fun x => ~ P x) l -> filter P l = [].
Proof. induction 1 as [|x l Hx _ IH]; [done|]. by rewrite filter_cons_False. Qed.

(** No token carries an identifier that was not used yet. *)
Lemma tokens_fresh b cmds toks hi e : cmd_chain (tb_cmd_id b) cmds hi -> Forall (fun e => e <= tb_cmd_id b) toks -> hi < e ->
  tokens e b cmds toks = 0%nat.
Proof.
  intros Hc Ht He. apply cmd_chain_le in Hc as [H1 H2]. unfold tokens, back_token.
  rewrite decide_False by (intros [_ ?]; lia). rewrite !filter_none; [done| |].
  - eapply list.Forall_impl; [exact Ht|]. intros x Hx Heq. cbn in Hx. lia.
  - eapply list.Forall_impl; [exact H2|]. intros c Hc' [_ ?]. cbn in Hc'. lia.
Qed.

Lemma tokens_app e b cmds c toks :
  tokens e b (cmds ++ [c]) toks = (tokens e b cmds toks + if decide (is_start e c) then 1 else 0)%nat.
Proof.
  unfold tokens. rewrite list.filter_app, length_app, filter_cons, filter_nil. case_decide; cbn; lia.
Qed.

(** A front-end command: the identifier moves on, and the command is queued. *)
Lemma timer_ok_command f b cmds toks f' c :
  timer_ok f b cmds toks true false -> tf_cmd_id f' = tf_cmd_id f + 1 -> tf_exec f' = tf_exec f ->
  tc_cmd_id c = tf_cmd_id f' -> is_u32 (tc_duration c) -> (tc_action c = timer_start <-> tf_state f' = tm_running) ->
  timer_ok f' b (cmds ++ [c]) toks (negb (bool_decide (tc_action c = timer_destroy))) false.
Proof.
  intros [H1 H2 H3 [H4 H5] H6] Hn He Hc Hd Hs. split; try done.
  - rewrite <- Hc. eapply cmd_chain_app; [exact H1|]. lia.
  - rewrite tokens_app, (tokens_fresh _ _ _ (tf_cmd_id f)) by (done || lia).
    destruct (decide (is_start _ c)) as [[Ha _]|Ha]; [by rewrite decide_True by (by apply Hs)|].
    rewrite decide_False; [done|]. intros Hr%Hs. by apply Ha.
  - rewrite He. case_bool_decide as Ha; cbn [negb].
    + split_and!; [done| |by exists cmds, c]. intros Hr%Hs. congruence.
    + split; [done|]. apply Forall_app. split; [done|]. by apply Forall_singleton.
  - apply Forall_app. split; [done|]. by apply Forall_singleton.
Qed.

(** The identifier moves on without a command. *)
Lemma timer_ok_bump f b cmds toks f' : timer_ok f b cmds toks true false ->
  tf_cmd_id f' = tf_cmd_id f + 1 -> tf_exec f' = tf_exec f -> tf_state f' <> tm_running -> timer_ok f' b cmds toks true false.
Proof.
  intros [H1 H2 H3 [H4 H5] H6] Hn He Hs. split; try done.
  - eapply cmd_chain_weaken; [exact H1|lia].
  - rewrite decide_False by done. eapply tokens_fresh; [exact H1|done|lia].
  - by rewrite He.
Qed.

(** The order of the tasks does not matter. *)
Lemma timer_ok_perm f b cmds toks toks' ow fr : toks ≡ₚ toks' -> timer_ok f b cmds toks ow fr -> timer_ok f b cmds toks' ow fr.
Proof.
  intros Hp [H1 H2 H3 H4 H5]. split; try done.
  - by rewrite <- Hp.
  - rewrite <- H3. unfold tokens. f_equal. apply Permutation_length. by rewrite Hp.
Qed.

(** The effect of a command on the back-end at time [cur]. *)
Definition back_cmd (cur : Z) (b : timer_backend) (c : timer_cmd) : timer_backend :=
  match tc_action c with
  | timer_start => TimerBackend (tc_cmd_id c) tm_running (u32 (cur + Z.max (tc_duration c) 1))
  | timer_stop => TimerBackend (tc_cmd_id c) (if decide (tb_state b = tm_running) then tm_stopped else tb_state b) (tb_timeout b)
  | timer_destroy => TimerBackend (tc_cmd_id c) tm_stopped 0
  end.

Lemma back_cmd_id cur b c : tb_cmd_id (back_cmd cur b c) = tc_cmd_id c.
Proof. unfold back_cmd. by destruct (tc_action c). Qed.

Lemma back_cmd_running cur b c : tb_state (back_cmd cur b c) = tm_running <-> tc_action c = timer_start.
Proof. unfold back_cmd. destruct (tc_action c); cbn; [done|destruct (decide (tb_state b = tm_running)); done|done]. Qed.

Lemma back_cmd_token cur b c e : back_token e (back_cmd cur b c) = if decide (is_start e c) then 1%nat else 0%nat.
Proof.
  unfold back_token. rewrite back_cmd_id. pose proof (back_cmd_running cur b c) as Hr.
  destruct (decide (_ /\ _)) as [H|H], (decide (is_start e c)) as [G|G]; try done; exfalso; unfold is_start in *; tauto.
Qed.

Lemma tokens_cons cur e b c cmds toks : tb_cmd_id b < tc_cmd_id c -> tc_cmd_id c <= e ->
  tokens e (back_cmd cur b c) cmds toks = tokens e b (c :: cmds) toks.
Proof.
  intros H1 H2. unfold tokens. rewrite back_cmd_token, filter_cons.
  assert (back_token e b = 0%nat) as -> by (unfold back_token; rewrite decide_False by (intros [_ ?]; lia); done).
  case_decide; cbn; lia.
Qed.

(** What the destruction does to the front-end. *)
Definition front_cmd (f : timer_frontend) (c : timer_cmd) : timer_frontend :=
  if decide (tc_action c = timer_destroy) then TimerFrontend None (tf_cmd_id f) tm_stopped INVALID_DURATION None else f.

Lemma timer_ok_process cur f b c cmds toks ow fr : timer_ok f b (c :: cmds) toks ow fr ->
  timer_ok (front_cmd f c) (back_cmd cur b c) cmds toks ow (if decide (tc_action c = timer_destroy) then true else fr)
  /\ (tc_action c = timer_destroy -> ow = false /\ fr = false /\ cmds = []).
Proof.
  intros [H1 H2 H3 H4 H5]. destruct H1 as [H1 H1']. pose proof (cmd_chain_le _ _ _ H1') as [Hle _].
  apply Forall_cons_1 in H5 as [_ H5]. unfold front_cmd.
  assert (cmd_chain (tb_cmd_id (back_cmd cur b c)) cmds (tf_cmd_id f)) as Hch by (by rewrite back_cmd_id).
  assert (Forall (fun e => e <= tb_cmd_id (back_cmd cur b c)) toks) as Htk.
  { rewrite back_cmd_id. eapply list.Forall_impl; [exact H2|]. cbn. lia. }
  rewrite <- (tokens_cons cur) in H3 by lia. destruct (decide (tc_action c = timer_destroy)) as [Hd|Hd].
  - destruct ow, fr; try tauto.
    + destruct H4 as [_ H4]. by apply Forall_cons_1 in H4 as [? _].
    + by destruct H4 as (_ & ? & _).
    + destruct H4 as (_ & Hs & l & c' & Hl & Hc' & Hnd). assert (cmds = []) as ->.
      { destruct l as [|d l]; [by injection Hl|]. injection Hl as <- _. apply Forall_cons_1 in Hnd as [? _]. done. }
      split; [|done]. split; try done. cbn. by rewrite decide_False in H3.
  - split; [|done]. split; try done. destruct ow, fr; try done.
    + destruct H4 as [? H4]. apply Forall_cons_1 in H4 as [_ ?]. done.
    + by destruct H4 as (_ & ? & _).
    + destruct H4 as (? & Hs & l & c' & Hl & Hc' & Hnd). split_and!; try done.
      destruct l as [|d l]; [injection Hl as -> ->; congruence|]. injection Hl as <- ->. apply Forall_cons_1 in Hnd as [_ ?].
      by exists l, c'.
Qed.

(** Expiry in the back-end: the token moves to the tasks, or is dropped when the
    front-end has moved on. *)
Definition back_expired (b : timer_backend) : timer_backend := TimerBackend (tb_cmd_id b) tm_expired (tb_timeout b).

Lemma timer_ok_expire f b cmds toks ow fr : timer_ok f b cmds toks ow fr -> tb_state b = tm_running ->
  timer_ok f (back_expired b) cmds (if tb_cmd_id b =? tf_cmd_id f then tb_cmd_id b :: toks else toks) ow fr
  /\ (tb_cmd_id b = tf_cmd_id f -> tf_state f = tm_running).
Proof.
  intros [H1 H2 H3 H4 H5] Hr. unfold tokens, back_token in H3.
  assert (forall e t, tokens e (back_expired b) cmds t = (length (filter (is_start e) cmds) + length (filter (eq e) t))%nat) as Ht.
  { intros e t. unfold tokens, back_token. by rewrite decide_False by (by intros [? _]). }
  destruct (Z.eqb_spec (tb_cmd_id b) (tf_cmd_id f)) as [Heq|Hne].
  - rewrite decide_True in H3 by done. split.
    + split; try done.
      * constructor; [cbn; lia|]. done.
      * rewrite Ht, filter_cons_True by done. cbn. lia.
    + intros _. destruct (decide (tf_state f = tm_running)); [done|lia].
  - rewrite decide_False in H3 by (by intros [_ ?]). split; [|done]. split; try done.
Qed.

Lemma timer_ok_drop f b cmds e toks ow fr : timer_ok f b cmds (e :: toks) ow fr -> e <> tf_cmd_id f ->
  timer_ok f b cmds toks ow fr.
Proof.
  intros [H1 H2 H3 H4 H5] Hne. apply Forall_cons_1 in H2 as [_ H2]. split; try done.
  unfold tokens in *. by rewrite filter_cons_False in H3.
Qed.

Lemma timer_ok_stale f b cmds e toks ow fr : timer_ok f b cmds (e :: toks) ow fr -> e = tf_cmd_id f ->
  tb_cmd_id b = e /\ tf_state f = tm_running /\ tf_exec f <> None.
Proof.
  intros [H1 H2 H3 H4 H5] ->. apply Forall_cons_1 in H2 as [Hle _]. pose proof (cmd_chain_le _ _ _ H1) as [? _].
  assert (tf_state f = tm_running) as Hr.
  { unfold tokens in H3. rewrite filter_cons_True in H3 by done. cbn in H3. destruct (decide _); [done|lia]. }
  split_and!; [lia|done|]. by destruct ow, fr; destruct_and?.
Qed.

Lemma timer_ok_task f b cmds toks ow fr : timer_ok f b cmds (tf_cmd_id f :: toks) ow fr ->
  timer_ok (TimerFrontend (tf_exec f) (tf_cmd_id f) tm_expired (tf_duration f) (tf_callback f)) b cmds toks ow fr.
Proof.
  intros H. pose proof (timer_ok_stale _ _ _ _ _ _ _ H eq_refl) as (_ & Hr & _). destruct H as [H1 H2 H3 H4 H5].
  apply Forall_cons_1 in H2 as [_ H2]. split; try done; cbn.
  - unfold tokens in *. rewrite filter_cons_True, decide_True in H3 by done. cbn in H3. case_decide; [done|lia].
  - by destruct ow, fr; destruct_and?.
Qed.

(** ** All timers *)
Definition back_of (l : list timer_handle) (id : Z) : timer_backend :=
  match l !! Z.to_nat id with Some h => th_backend h | None => TimerBackend 0 tm_stopped 0 end.
Definition cmds_of (id : Z) (evs : list timer_event) : list timer_cmd :=
  omap (fun ev => match ev with timer_command c => if tc_id c =? id then Some c else None | _ => None end) evs.
Definition toks_of (id : Z) (l : list (Z * Z)) : list Z := map snd (filter (fun p => p.1 = id) l).

Lemma cmds_of_command id c evs :
  cmds_of id (timer_command c :: evs) = if tc_id c =? id then c :: cmds_of id evs else cmds_of id evs.
Proof. unfold cmds_of. cbn. by destruct (tc_id c =? id). Qed.
Lemma cmds_of_created id j evs : cmds_of id (timer_created j :: evs) = cmds_of id evs.
Proof. done. Qed.

#[local] Arguments back_of : simpl never.
#[local] Arguments cmds_of : simpl never.
#[local] Arguments toks_of : simpl never.

(** The queue: new front-ends in order, commands only for those that exist. *)
Fixpoint evs_ok (n : Z) (evs : list timer_event) (next : Z) : Prop :=
  match evs with
  | [] => n = next
  | timer_created id :: evs => id = n /\ evs_ok (n + 1) evs next
  | timer_command c :: evs => 0 <= tc_id c < n /\ evs_ok n evs next
  end.

(** [evs] are the events that are still to be processed, [failed] the dispatches
    that are postponed, [N] bounds the command identifiers. *)
Record tm_inv (s : timer_manager) (evs : list timer_event) (failed : list (Z * Z)) (N : Z) : Prop := {
  ti_evs : evs_ok (Z.of_nat (length (timer_list s))) evs (next_timer_id s);
  ti_fronts : forall id, is_Some (tm_frontends s !! id) <-> 0 <= id < next_timer_id s;
  ti_handles : forall k h, timer_list s !! k = Some h -> th_frontend h = Some (Z.of_nat k);
  ti_free : NoDup (free_list s) /\ Forall (fun id => 0 <= id < Z.of_nat (length (timer_list s))) (free_list s);
  ti_owned : forall id, id ∈ tm_owned s -> 0 <= id < next_timer_id s;
  ti_toks : Forall (fun p => 0 <= p.1 < Z.of_nat (length (timer_list s))) (tm_tasks s ++ failed);
  ti_wheel : wheel_ok (timer_list s) (time_wheel s) (nof_timers_running s);
  ti_time : is_u32 (cur_time s);
  ti_bound : forall id f, tm_frontends s !! id = Some f -> 0 <= tf_cmd_id f <= N;
  ti_local : forall id f, tm_frontends s !! id = Some f ->
    timer_ok f (back_of (timer_list s) id) (cmds_of id evs) (toks_of id (tm_tasks s ++ failed))
      (bool_decide (id ∈ tm_owned s)) (bool_decide (id ∈ free_list s));
}.

(** No running timer is due at the current time. *)
Definition none_due (s : timer_manager) : Prop :=
  forall k h, timer_list s !! k = Some h -> th_running h -> is_u32 (tb_timeout (th_backend h)) /\ tb_timeout (th_backend h) <> cur_time s.

Definition timers_ok (s : timer_manager) (N : Z) : Prop :=
  tm_inv s (pending_cmds s) (failed_to_trigger_timers s) N /\ none_due s.

Lemma evs_ok_le n evs next : evs_ok n evs next -> n <= next.
Proof.
  revert n. induction evs as [|ev evs IH]; intros n; cbn; [lia|]. destruct ev; intros [? H]; specialize (IH _ H); lia.
Qed.
Lemma evs_ok_command n evs next c : evs_ok n evs next -> 0 <= tc_id c < next -> evs_ok n (evs ++ [timer_command c]) next.
Proof.
  revert n. induction evs as [|ev evs IH]; intros n; cbn; [by intros -> |]. destruct ev; intros [? ?] ?; auto.
Qed.
Lemma evs_ok_created n evs next : evs_ok n evs next -> evs_ok n (evs ++ [timer_created next]) (next + 1).
Proof.
  revert n. induction evs as [|ev evs IH]; intros n; cbn; [by intros -> |]. destruct ev; intros [? ?]; auto.
Qed.
Lemma cmds_of_app id a b : cmds_of id (a ++ b) = cmds_of id a ++ cmds_of id b.
Proof. apply omap_app. Qed.
Lemma toks_of_app id a b : toks_of id (a ++ b) = toks_of id a ++ toks_of id b.
Proof. unfold toks_of. by rewrite list.filter_app, map_app. Qed.
Lemma toks_of_cons id p l : toks_of id (p :: l) = if decide (p.1 = id) then p.2 :: toks_of id l else toks_of id l.
Proof. unfold toks_of. rewrite filter_cons. by case_decide. Qed.

Lemma back_of_insert l id h h' j : 0 <= id -> 0 <= j -> l !! Z.to_nat id = Some h ->
  back_of (<[Z.to_nat id := h']> l) j = if decide (j = id) then th_backend h' else back_of l j.
Proof.
  intros Hid Hj Hh. unfold back_of. destruct (decide (j = id)) as [->|Hne].
  - rewrite list_lookup_insert_eq by (by eapply lookup_lt_Some). done.
  - by rewrite list_lookup_insert_ne by lia.
Qed.

(** ** The operations of the front-end *)
Lemma ti_front s evs failed N id : tm_inv s evs failed N -> 0 <= id < next_timer_id s -> exists f, tm_frontends s !! id = Some f.
Proof. intros H Hid. by apply (ti_fronts _ _ _ _ H) in Hid as [f ?]; exists f. Qed.

(** A front-end object changes and commands are queued. *)
Lemma tm_inv_front s evs failed N id f f' cs owned' :
  tm_inv s evs failed N -> tm_frontends s !! id = Some f -> 0 <= tf_cmd_id f' <= N + 1 ->
  Forall (fun c => tc_id c = id) cs -> (forall j, j <> id -> j ∈ owned' <-> j ∈ tm_owned s) ->
  timer_ok f' (back_of (timer_list s) id) (cmds_of id evs ++ cs) (toks_of id (tm_tasks s ++ failed))
    (bool_decide (id ∈ owned')) (bool_decide (id ∈ free_list s)) ->
  tm_inv (tm_with_owned (update_front s id f') owned') (evs ++ map timer_command cs) failed (N + 1).
Proof.
  intros [H1 H2 H3 H4 H5 H6 H7 H8 H9 H10] Hf Hb Hcs Ho Hok.
  assert (0 <= id < next_timer_id s) as Hid by (apply H2; by eexists).
  assert (cmds_of id (map timer_command cs) = cs) as Hid_cs.
  { clear -Hcs. induction Hcs as [|c cs Hc _ IH]; [done|]. cbn [map]. rewrite cmds_of_command, Hc, Z.eqb_refl. by f_equal. }
  assert (forall j, j <> id -> cmds_of j (map timer_command cs) = []) as Hj_cs.
  { intros j Hj. clear -Hcs Hj. induction Hcs as [|c cs Hc _ IH]; [done|]. cbn [map]. rewrite cmds_of_command, Hc, (proj2 (Z.eqb_neq id j)) by lia. done. }
  split; cbn; try done.
  - clear -H1 Hcs Hid. revert evs H1. induction cs as [|c cs IH]; intros evs H1; cbn; [by rewrite app_nil_r|].
    apply Forall_cons_1 in Hcs as [Hc Hcs]. change (?x :: ?y) with ([x] ++ y). rewrite app_assoc. apply (IH Hcs).
    by apply evs_ok_command; [|rewrite Hc].
  - intros j. destruct (decide (j = id)) as [->|]; [|by rewrite lookup_insert_ne].
    rewrite lookup_insert_eq. split; [done|]. intros _. by eexists.
  - intros j Hj. destruct (decide (j = id)) as [->|Hne]; [done|]. apply H5. by apply Ho.
  - intros j g. destruct (decide (j = id)) as [->|Hne].
    + rewrite lookup_insert_eq. intros [= <-]. done.
    + rewrite lookup_insert_ne by done. intros Hg. specialize (H9 _ _ Hg). lia.
  - intros j g. rewrite cmds_of_app. destruct (decide (j = id)) as [->|Hne].
    + rewrite lookup_insert_eq, Hid_cs. by intros [= <-].
    + rewrite lookup_insert_ne, Hj_cs, app_nil_r by done. intros Hg. specialize (H10 _ _ Hg).
      by rewrite (bool_decide_ext (j ∈ owned') (j ∈ tm_owned s)) by (by apply Ho).
Qed.

Lemma tm_inv_weaken s evs failed N N' : tm_inv s evs failed N -> N <= N' -> tm_inv s evs failed N'.
Proof. intros [H1 H2 H3 H4 H5 H6 H7 H8 H9 H10] HN. split; try done. intros id f Hf. specialize (H9 _ _ Hf). lia. Qed.
Lemma tm_inv_pending s evs failed N p : tm_inv s evs failed N -> tm_inv (tm_with_pending s p) evs failed N.
Proof. by intros [H1 H2 H3 H4 H5 H6 H7 H8 H9 H10]. Qed.
Lemma tm_owned_eta s : tm_with_owned s (tm_owned s) = s.
Proof. by destruct s. Qed.

(** What the operations of handles leave alone. *)
Record front_frame (s s' : timer_manager) (id : Z) : Prop := {
  ff_time : cur_time s' = cur_time s;
  ff_list : timer_list s' = timer_list s;
  ff_tasks : tm_tasks s' = tm_tasks s;
  ff_failed : failed_to_trigger_timers s' = failed_to_trigger_timers s;
  ff_fronts : forall j, j <> id -> tm_frontends s' !! j = tm_frontends s !! j;
  ff_cmds : forall j, j <> id -> cmds_of j (pending_cmds s') = cmds_of j (pending_cmds s);
}.

Lemma cmds_of_other j id evs c : tc_id c = id -> j <> id -> cmds_of j (evs ++ [timer_command c]) = cmds_of j evs.
Proof. intros Hc Hj. rewrite cmds_of_app, cmds_of_command, Hc, (proj2 (Z.eqb_neq id j)) by lia. apply app_nil_r. Qed.

(** A command of a valid handle. *)
Lemma front_command_ok s N id f f' c :
  timers_ok s N -> N + 1 < 2 ^ 32 -> id ∈ tm_owned s -> tm_frontends s !! id = Some f ->
  tf_cmd_id f' = u32 (tf_cmd_id f + 1) -> tf_exec f' = tf_exec f ->
  tc_id c = id -> tc_cmd_id c = tf_cmd_id f' -> is_u32 (tc_duration c) ->
  (tc_action c = timer_start <-> tf_state f' = tm_running) ->
  let s1 := push_timer_command (update_front s id f') c in
  let s' := if decide (tc_action c = timer_destroy) then tm_with_owned s1 (tm_owned s1 ∖ {[id]}) else s1 in
  timers_ok s' (N + 1) /\ front_frame s s' id.
Proof.
  intros [Hinv Hdue] HN Hown Hf Hcid He Hc Hcc Hd Hs s1 s'. pose proof (ti_bound _ _ _ _ Hinv _ _ Hf) as Hb.
  assert (tf_cmd_id f' = tf_cmd_id f + 1) as Hcid' by (rewrite Hcid; apply u32_id; unfold is_u32; lia).
  pose proof (ti_local _ _ _ _ Hinv _ _ Hf) as Hok. rewrite bool_decide_true in Hok by done.
  assert (bool_decide (id ∈ free_list s) = false) as Hfr by (destruct (bool_decide (id ∈ free_list s)); [destruct Hok; tauto|done]).
  rewrite Hfr in Hok. pose proof (timer_ok_command _ _ _ _ f' c Hok Hcid' He Hcc Hd Hs) as Hok'.
  set (owned' := if decide (tc_action c = timer_destroy) then tm_owned s ∖ {[id]} else tm_owned s).
  assert (tm_inv (tm_with_owned (update_front s id f') owned') (pending_cmds s ++ map timer_command [c])
            (failed_to_trigger_timers s) (N + 1)) as Hinv'.
  { eapply tm_inv_front; [done|done|lia|by apply Forall_singleton| |].
    - intros j Hj. subst owned'. destruct (decide (tc_action c = timer_destroy)); [|done]. rewrite elem_of_difference, elem_of_singleton. tauto.
    - rewrite Hfr. subst owned'. destruct (decide (tc_action c = timer_destroy)) as [Hd'|Hd'].
      + rewrite (bool_decide_false (id ∈ tm_owned s ∖ {[id]})) by (rewrite elem_of_difference, elem_of_singleton; tauto). by rewrite (bool_decide_true (tc_action c = _)) in Hok'.
      + rewrite (bool_decide_true (id ∈ tm_owned s)) by done. by rewrite (bool_decide_false (tc_action c = _)) in Hok'. }
  assert (s' = tm_with_pending (tm_with_owned (update_front s id f') owned') (pending_cmds s ++ [timer_command c])) as ->.
  { subst s' s1 owned'. by case_decide. }
  split; [split|].
  - by apply tm_inv_pending.
  - exact Hdue.
  - split; try done; cbn; intros j Hj; [by apply lookup_insert_ne|by eapply cmds_of_other].
Qed.

(** The timer operations: durations within the limit, valid handles. *)
Definition timer_op_ok (s : timer_manager) (id : Z) (op : timer_op) : Prop :=
  match op with
  | op_set dur _ => id ∈ tm_owned s /\ dur <= MAX_TIMER_DURATION
  | op_run => id ∈ tm_owned s
  | op_stop | op_reset => True
  end.

Lemma frontend_set_ok s N id dur : timers_ok s N -> N + 1 < 2 ^ 32 -> id ∈ tm_owned s -> dur <= MAX_TIMER_DURATION ->
  exists s', frontend_set s id dur = Some s' /\ timers_ok s' (N + 1) /\ front_frame s s' id /\ tm_owned s' = tm_owned s.
Proof.
  intros Hok HN Hown Hdur. pose proof (proj1 Hok) as Hinv.
  destruct (ti_front _ _ _ _ id Hinv (ti_owned _ _ _ _ Hinv _ Hown)) as [f Hf].
  unfold frontend_set. rewrite Hf. destruct (dur <=? _) eqn:E; breflect; [|lia]. eexists. split; [done|].
  pose proof (ti_bound _ _ _ _ Hinv _ _ Hf) as Hb. assert (u32 (tf_cmd_id f + 1) = tf_cmd_id f + 1) as Hu by (apply u32_id; unfold is_u32; lia).
  case_bool_decide as Hr.
  - set (f' := TimerFrontend _ _ _ _ _). set (c := TimerCmd _ _ _ _).
    destruct (front_command_ok s N id f f' c Hok HN Hown Hf) as [H1 H2]; [done|done|done|done|apply u32_is_u32|by split|].
    rewrite decide_False in H1, H2 by done. done.
  - set (f' := TimerFrontend _ _ _ _ _). split; [split|split; [|done]]; [| exact (proj2 Hok)|].
    + pose proof (ti_local _ _ _ _ Hinv _ _ Hf) as Hl. rewrite bool_decide_true in Hl by done.
      assert (bool_decide (id ∈ free_list s) = false) as Hfr by (destruct (bool_decide (id ∈ free_list s)); [destruct Hl; tauto|done]).
      pose proof (tm_inv_front s _ _ N id f f' [] (tm_owned (update_front s id f')) Hinv Hf) as H. cbn [map] in H. rewrite tm_owned_eta, !app_nil_r in H.
      apply H; cbn; [lia|by constructor|done|]. rewrite bool_decide_true by done. rewrite Hfr in *.
      eapply timer_ok_bump; [exact Hl|done|done|done].
    + split; try done. cbn. intros j Hj. by apply lookup_insert_ne.
Qed.

Lemma front_frame_refl s id : front_frame s s id.
Proof. by split. Qed.

Lemma timer_is_running_spec s N id : timers_ok s N -> timer_is_running s id = true ->
  id ∈ tm_owned s /\ exists f, tm_frontends s !! id = Some f /\ tf_state f = tm_running.
Proof.
  intros _. unfold timer_is_running, timer_is_valid. intros [H1%bool_decide_eq_true H2]%andb_prop. split; [done|].
  destruct (tm_frontends s !! id) as [f|]; [|done]. apply bool_decide_eq_true in H2. by exists f.
Qed.

(** A command from a front-end that becomes [f']. *)
Lemma unique_timer_command_ok s N id f f' c :
  timers_ok s N -> N + 1 < 2 ^ 32 -> id ∈ tm_owned s -> tm_frontends s !! id = Some f ->
  tf_cmd_id f' = u32 (tf_cmd_id f + 1) -> tf_exec f' = tf_exec f -> tc_id c = id -> tc_cmd_id c = tf_cmd_id f' ->
  is_u32 (tc_duration c) -> (tc_action c = timer_start <-> tf_state f' = tm_running) -> tc_action c <> timer_destroy ->
  timers_ok (push_timer_command (update_front s id f') c) (N + 1) /\ front_frame s (push_timer_command (update_front s id f') c) id.
Proof.
  intros H1 H2 H3 H4 H5 H6 H7 H8 H9 H10 Hd.
  pose proof (front_command_ok s N id f f' c H1 H2 H3 H4 H5 H6 H7 H8 H9 H10) as H. cbv zeta in H. by rewrite decide_False in H.
Qed.

Lemma unique_timer_op_ok s N id op : timers_ok s N -> N + 1 < 2 ^ 32 -> timer_op_ok s id op ->
  exists s', unique_timer_op s id op = Some s' /\ timers_ok s' (N + 1) /\ front_frame s s' id.
Proof.
  intros Hok HN Hop. pose proof (proj1 Hok) as Hinv. assert (timers_ok s (N + 1)) as Hweak.
  { split; [|apply Hok]. eapply tm_inv_weaken; [exact Hinv|lia]. }
  unfold unique_timer_op, timer_is_valid. destruct op as [dur cb| | |].
  - destruct Hop as [Hown Hdur]. rewrite bool_decide_true by done.
    destruct (frontend_set_ok s N id dur Hok HN Hown Hdur) as (s' & Hs & Hok' & Hfr & Ho').
    destruct cb as [cb|]; [|by exists s']. unfold frontend_set_callback. rewrite Hs.
    pose proof (proj1 Hok') as Hinv'. rewrite <- Ho' in Hown.
    destruct (ti_front _ _ _ _ id Hinv' (ti_owned _ _ _ _ Hinv' _ Hown)) as [f Hf]. rewrite Hf. eexists. split; [done|].
    set (f' := TimerFrontend _ _ _ _ _). split; [split|].
    + destruct Hinv' as [H1 H2 H3 H4 H5 H6 H7 H8 H9 H10]. split; cbn; try done; intros j.
      * destruct (decide (j = id)) as [->|]; [rewrite lookup_insert_eq|by rewrite lookup_insert_ne].
        split; [intros _; apply H2; by eexists|by eexists].
      * intros g. destruct (decide (j = id)) as [->|]; [rewrite lookup_insert_eq; intros [= <-]; by apply (H9 _ _ Hf)|].
        rewrite lookup_insert_ne by done. apply H9.
      * intros g. destruct (decide (j = id)) as [->|]; [rewrite lookup_insert_eq; intros [= <-]|].
        { pose proof (H10 _ _ Hf) as [L1 L2 L3 L4 L5]. by split. }
        rewrite lookup_insert_ne by done. apply H10.
    + apply Hok'.
    + destruct Hfr as [F1 F2 F3 F4 F5 F6]. split; try done. intros j Hj. cbn. rewrite lookup_insert_ne by done. by apply F5.
  - rewrite bool_decide_true by done. destruct (ti_front _ _ _ _ id Hinv (ti_owned _ _ _ _ Hinv _ Hop)) as [f Hf].
    unfold frontend_run. rewrite Hf. eexists. split; [done|].
    by eapply unique_timer_command_ok; [..|done]; try done; apply u32_is_u32.
  - destruct (timer_is_running s id) eqn:Er; [|exists s; split_and!; [done|done|apply front_frame_refl]].
    destruct (timer_is_running_spec s N id Hok Er) as (Hown & f & Hf & Hr). unfold frontend_stop. rewrite Hf.
    eexists. split; [done|]. by eapply unique_timer_command_ok; [..|done]; try done; unfold is_u32; cbn; lia.
  - case_bool_decide as Hown; [|exists s; split_and!; [done|done|apply front_frame_refl]].
    destruct (ti_front _ _ _ _ id Hinv (ti_owned _ _ _ _ Hinv _ Hown)) as [f Hf].
    unfold frontend_destroy. rewrite Hf. eexists. split; [done|]. set (f' := TimerFrontend _ _ _ _ _). set (c := TimerCmd _ _ _ _).
    pose proof (front_command_ok s N id f f' c Hok HN Hown Hf) as H. cbv zeta in H. rewrite decide_True in H by done.
    by apply H.
Qed.

(** ** Creation *)
Lemma create_unique_timer_ok s N exec : timers_ok s N -> 0 <= N ->
  exists id s', create_unique_timer s exec = Some (id, s') /\ timers_ok s' N /\ ~ (id ∈ tm_owned s) /\ tm_owned s' = ({[id]} ∪ tm_owned s)
    /\ cur_time s' = cur_time s /\ tm_tasks s' = tm_tasks s /\ failed_to_trigger_timers s' = failed_to_trigger_timers s
    /\ (exists f, tm_frontends s' !! id = Some f /\ tf_state f <> tm_running)
    /\ forall j, j <> id -> tm_frontends s' !! j = tm_frontends s !! j /\ cmds_of j (pending_cmds s') = cmds_of j (pending_cmds s)
         /\ back_of (timer_list s') j = back_of (timer_list s) j.
Proof.
  intros [Hinv Hdue] HN. pose proof Hinv as [H1 H2 H3 [H4 H4'] H5 H6 H7 H8 H9 H10]. unfold create_unique_timer.
  destruct (free_list s) as [|id rest] eqn:Efree.
  - assert (tm_frontends s !! next_timer_id s = None) as Hnone.
    { destruct (tm_frontends s !! next_timer_id s) eqn:E; [|done]. assert (0 <= next_timer_id s < next_timer_id s); [|lia]. apply H2. by eexists. }
    assert (0 <= next_timer_id s) as Hn by (apply evs_ok_le in H1; lia).
    assert (forall x, x ∈ tm_owned s -> x <> next_timer_id s) as Hno by (intros x Hx%H5; lia).
    eexists _, _. split; [done|]. split_and!; try done.
    2:{ intros Hx%Hno. done. }
    2:{ eexists. cbn. rewrite lookup_insert_eq. by split. }
    2:{ intros j Hj. split_and!; [by apply lookup_insert_ne| |done].
        transitivity (cmds_of j (pending_cmds s ++ [timer_created (next_timer_id s)])); [done|]. rewrite cmds_of_app. apply app_nil_r. }
    split; [|exact Hdue]. split; cbn; try done.
    + by apply evs_ok_created.
    + intros j. destruct (decide (j = next_timer_id s)) as [->|]; [rewrite lookup_insert_eq; split; [lia|by eexists]|].
      rewrite lookup_insert_ne, H2 by done. lia.
    + intros j Hj. apply elem_of_union in Hj as [->%elem_of_singleton|Hj%H5]; lia.
    + intros j g. destruct (decide (j = next_timer_id s)) as [->|]; [rewrite lookup_insert_eq; intros [= <-]; cbn; lia|].
      rewrite lookup_insert_ne by done. apply H9.
    + intros j g. rewrite cmds_of_app, cmds_of_created. change (cmds_of j []) with (@nil timer_cmd). destruct (decide (j = next_timer_id s)) as [->|Hj].
      * rewrite lookup_insert_eq. intros [= <-].
        assert (back_of (timer_list s) (next_timer_id s) = TimerBackend 0 tm_stopped 0) as ->.
        { unfold back_of. apply evs_ok_le in H1. rewrite lookup_ge_None_2 by lia. done. }
        assert (cmds_of (next_timer_id s) (pending_cmds s) = []) as ->.
        { clear -H1. generalize dependent (Z.of_nat (length (timer_list s))). induction (pending_cmds s) as [|ev evs IH]; intros n Hn; [done|].
          destruct ev; destruct Hn as [? Hn].
          - rewrite cmds_of_command, (proj2 (Z.eqb_neq _ _)) by (apply evs_ok_le in Hn; lia). by eapply IH.
          - by eapply IH. }
        assert (toks_of (next_timer_id s) (tm_tasks s ++ failed_to_trigger_timers s) = []) as ->.
        { unfold toks_of. rewrite filter_none; [done|]. eapply list.Forall_impl; [exact H6|]. apply evs_ok_le in H1. cbn. lia. }
        rewrite bool_decide_true by (apply elem_of_union; left; by apply elem_of_singleton).
        rewrite bool_decide_false by apply not_elem_of_nil.
        split; cbn; try done; by constructor.
      * rewrite lookup_insert_ne, app_nil_r by done. intros Hg. specialize (H10 _ _ Hg).
        rewrite (bool_decide_ext (j ∈ {[next_timer_id s]} ∪ tm_owned s) (j ∈ tm_owned s)); [done|].
        rewrite elem_of_union, elem_of_singleton. tauto.
  - apply list.NoDup_cons in H4 as [Hnin Hnd]. apply Forall_cons_1 in H4' as [Hid H4'].
    assert (0 <= id < next_timer_id s) as Hid' by (apply evs_ok_le in H1; lia).
    destruct (ti_front _ _ _ _ id Hinv Hid') as [f Hf]. cbn. rewrite Hf. pose proof (H10 _ _ Hf) as Hl.
    rewrite (bool_decide_true (id ∈ id :: rest)) in Hl by apply list_elem_of_here.
    assert (id ∉ tm_owned s) as Hno. { intros Hx. rewrite bool_decide_true in Hl by done. by destruct Hl. }
    rewrite bool_decide_false in Hl by done. pose proof (lo_alloc _ _ _ _ _ _ Hl) as (He & Hc & Hst). rewrite He.
    eexists _, _. split; [done|]. split_and!; try done.
    2:{ eexists. cbn. rewrite lookup_insert_eq. by split. }
    2:{ intros j Hj. cbn. by rewrite lookup_insert_ne by done. }
    split; [|exact Hdue]. split; cbn; try done.
    + intros j. destruct (decide (j = id)) as [->|]; [rewrite lookup_insert_eq; split; [lia|by eexists]|].
      rewrite lookup_insert_ne by done. apply H2.
    + intros j Hj. apply elem_of_union in Hj as [->%elem_of_singleton|Hj%H5]; lia.
    + intros j g. destruct (decide (j = id)) as [->|]; [rewrite lookup_insert_eq; intros [= <-]; by apply (H9 _ _ Hf)|].
      rewrite lookup_insert_ne by done. apply H9.
    + intros j g. destruct (decide (j = id)) as [->|Hj].
      * rewrite lookup_insert_eq. intros [= <-].
        rewrite bool_decide_true by (apply elem_of_union; left; by apply elem_of_singleton). rewrite bool_decide_false by done.
        destruct Hl as [L1 L2 L3 L4 L5]. split; try done. rewrite Hc. by split.
      * rewrite lookup_insert_ne by done. intros Hg. specialize (H10 _ _ Hg).
        rewrite (bool_decide_ext (j ∈ {[id]} ∪ tm_owned s) (j ∈ tm_owned s)) by (rewrite elem_of_union, elem_of_singleton; tauto).
        by rewrite (bool_decide_ext (j ∈ id :: rest) (j ∈ rest)) in H10 by (rewrite elem_of_cons; tauto).
Qed.

(** ** The back-end *)

(** Everything that a step on timer [id] may change, and what it keeps. *)
Record back_step (s s' : timer_manager) (id : Z) (h' : timer_handle) (f' : timer_frontend) : Prop := {
  bs_list : timer_list s' = <[Z.to_nat id := h']> (timer_list s);
  bs_next : next_timer_id s' = next_timer_id s;
  bs_owned : tm_owned s' = tm_owned s;
  bs_time : cur_time s' = cur_time s;
  bs_front : tm_frontends s' !! id = Some f';
  bs_fronts : forall j, j <> id -> tm_frontends s' !! j = tm_frontends s !! j;
  bs_free : forall j, j <> id -> j ∈ free_list s' <-> j ∈ free_list s;
}.

Lemma tm_inv_step s evs failed N s' evs' failed' id h h' f f' :
  tm_inv s evs failed N -> 0 <= id -> timer_list s !! Z.to_nat id = Some h -> tm_frontends s !! id = Some f ->
  back_step s s' id h' f' -> th_frontend h' = th_frontend h -> tf_cmd_id f' = tf_cmd_id f ->
  evs_ok (Z.of_nat (length (timer_list s))) evs' (next_timer_id s) -> (forall j, j <> id -> cmds_of j evs' = cmds_of j evs) ->
  wheel_ok (timer_list s') (time_wheel s') (nof_timers_running s') ->
  NoDup (free_list s') -> Forall (fun p => 0 <= p.1 < Z.of_nat (length (timer_list s))) (tm_tasks s' ++ failed') ->
  (forall j, j <> id -> toks_of j (tm_tasks s' ++ failed') = toks_of j (tm_tasks s ++ failed)) ->
  timer_ok f' (th_backend h') (cmds_of id evs') (toks_of id (tm_tasks s' ++ failed'))
    (bool_decide (id ∈ tm_owned s)) (bool_decide (id ∈ free_list s')) ->
  tm_inv s' evs' failed' N.
Proof.
  intros [H1 H2 H3 [H4 H4'] H5 H6 H7 H8 H9 H10] Hid Hh Hf [B1 B2 B3 B4 B5 B6 B7] Hth Hcid Hevs Hcs Hw Hnd Htk Htk' Hok.
  pose proof (lookup_lt_Some _ _ _ Hh) as Hlt.
  assert (0 <= id < next_timer_id s) as Hid' by (apply H2; by eexists).
  assert (length (timer_list s') = length (timer_list s)) as Hlen by (by rewrite B1, length_insert).
  split; rewrite ?Hlen, ?B2, ?B3, ?B4; try done.
  - intros j. destruct (decide (j = id)) as [->|]; [|by rewrite B6]. rewrite B5. split; [done|by eexists].
  - intros k g. rewrite B1. intros Hg. apply list_lookup_insert_Some in Hg as [(<- & -> & _)|[Hne Hg]]; [|by apply H3].
    rewrite Hth. rewrite (H3 _ _ Hh). done.
  - split; [done|]. apply list.Forall_forall. intros j Hj. destruct (decide (j = id)) as [->|Hne]; [lia|].
    apply B7 in Hj; [|done]. by eapply list.Forall_forall in H4'.
  - intros j g. destruct (decide (j = id)) as [->|]; [rewrite B5; intros [= <-]; rewrite Hcid; by eapply H9|].
    rewrite B6 by done. apply H9.
  - intros j g Hg. assert (0 <= j < next_timer_id s) as Hj.
    { apply H2. destruct (decide (j = id)) as [->|]; [by eexists|]. rewrite B6 in Hg by done. by eexists. }
    rewrite B1, (back_of_insert _ _ h) by (lia || done). destruct (decide (j = id)) as [->|Hne].
    + rewrite B5 in Hg. injection Hg as <-. done.
    + rewrite B6 in Hg by done. rewrite Hcs, Htk' by done. rewrite (bool_decide_ext _ _ (B7 j Hne)). by apply H10.
Qed.

Lemma get_handle_spec s evs failed N id : tm_inv s evs failed N -> 0 <= id < Z.of_nat (length (timer_list s)) ->
  exists h f, timer_list s !! Z.to_nat id = Some h /\ th_frontend h = Some id /\ tm_frontends s !! id = Some f
    /\ back_of (timer_list s) id = th_backend h.
Proof.
  intros Hinv Hid. destruct (lookup_lt_is_Some_2 (timer_list s) (Z.to_nat id)) as [h Hh]; [lia|].
  destruct (ti_front _ _ _ _ id Hinv) as [f Hf]. { pose proof (evs_ok_le _ _ _ (ti_evs _ _ _ _ Hinv)). lia. }
  exists h, f. split_and!; [done| |done|]; [|unfold back_of; by rewrite Hh].
  rewrite (ti_handles _ _ _ _ Hinv _ _ Hh). f_equal. lia.
Qed.

(** One queued event. *)
Definition ev_back (cur j : Z) (ev : timer_event) (b : timer_backend) : timer_backend :=
  match ev with timer_command c => if decide (tc_id c = j) then back_cmd cur b c else b | timer_created _ => b end.
Definition ev_front (j : Z) (ev : timer_event) (f : timer_frontend) : timer_frontend :=
  match ev with timer_command c => if decide (tc_id c = j) then front_cmd f c else f | timer_created _ => f end.

Lemma back_of_created l n j : back_of (l ++ replicate n timer_handle_default) j = back_of l j.
Proof.
  unfold back_of. destruct (l !! Z.to_nat j) as [h|] eqn:E; [by rewrite (lookup_app_l_Some _ _ _ _ E)|].
  rewrite lookup_app_r by (by apply lookup_ge_None). destruct (replicate n timer_handle_default !! _) eqn:E'; [|done].
  by apply lookup_replicate in E' as [-> _].
Qed.

Lemma create_timer_handle_ok s id evs failed N : tm_inv s (timer_created id :: evs) failed N -> none_due s ->
  exists s', create_timer_handle s id = Some s' /\ tm_inv s' evs failed N /\ none_due s' /\ cur_time s' = cur_time s
    /\ tm_tasks s' = tm_tasks s /\ failed_to_trigger_timers s' = failed_to_trigger_timers s
    /\ tm_frontends s' = tm_frontends s /\ forall j, back_of (timer_list s') j = back_of (timer_list s) j.
Proof.
  intros [[H1a H1] H2 H3 [H4 H4'] H5 H6 H7 H8 H9 H10] Hdue. subst id. set (n := length (timer_list s)) in *.
  unfold create_timer_handle. rewrite Nat2Z.id. fold n. rewrite (lookup_ge_None_2 (timer_list s)) by lia.
  replace (n + 1 - n)%nat with 1%nat by lia. cbn [replicate].
  rewrite list_lookup_middle by done. change (th_backend timer_handle_default) with (TimerBackend 0 tm_stopped 0).
  set (h := TimerHandle _ _). assert (<[n := h]> (timer_list s ++ [timer_handle_default]) = timer_list s ++ [h]) as ->.
  { rewrite insert_app_r_alt by done. by rewrite Nat.sub_diag. }
  assert (forall j, back_of (timer_list s ++ [h]) j = back_of (timer_list s) j) as Hb.
  { intros j. rewrite <- (back_of_created (timer_list s) 1 j). unfold back_of. cbn [replicate].
    destruct (decide (Z.to_nat j < n)%nat); [by rewrite !lookup_app_l by done|]. rewrite !lookup_app_r by lia. fold n.
    by destruct (Z.to_nat j - n)%nat. }
  eexists. split; [done|]. split_and!; try done.
  - assert (Z.of_nat (length (timer_list s ++ [h])) = Z.of_nat n + 1) as Hlen by (rewrite length_app; cbn; lia).
    split; cbn; rewrite ?Hlen; try done.
    + intros k g Hg. apply lookup_app_Some in Hg as [Hg|[Hk Hg]]; [by apply H3|].
      apply list_lookup_singleton_Some in Hg as [Hk' <-]. cbn. f_equal. lia.
    + split; [done|]. eapply list.Forall_impl; [exact H4'|]. cbn. lia.
    + eapply list.Forall_impl; [exact H6|]. cbn. lia.
    + apply wheel_ok_grow; [done|]. done.
    + intros j g Hg. rewrite Hb. specialize (H10 _ _ Hg). by rewrite cmds_of_created in H10.
  - intros k g Hg Hr. apply lookup_app_Some in Hg as [Hg|[Hk Hg]]; [by eapply Hdue|].
    by apply list_lookup_singleton_Some in Hg as [_ <-].
Qed.

Lemma tm_with_back_twice s n l w n' l' w' : tm_with_back (tm_with_back s n l w) n' l' w' = tm_with_back s n' l' w'.
Proof. done. Qed.

(** The update of the command identifier and the stop that precede every
    command. *)
Lemma cmd_stop_spec ok s evs failed N id h cid : tm_inv s evs failed N -> 0 <= id -> timer_list s !! Z.to_nat id = Some h ->
  let b := th_backend h in
  let h1 := TimerHandle (th_frontend h) (TimerBackend cid (tb_state b) (tb_timeout b)) in
  let h2 := TimerHandle (th_frontend h)
              (TimerBackend cid (if decide (tb_state b = tm_running) then tm_stopped else tb_state b) (tb_timeout b)) in
  exists n w,
    try_stop_timer_backend ok (tm_with_back s (nof_timers_running s) (<[Z.to_nat id := h1]> (timer_list s)) (time_wheel s)) id false
    = Some (tm_with_back s n (<[Z.to_nat id := h2]> (timer_list s)) w)
    /\ wheel_ok (<[Z.to_nat id := h2]> (timer_list s)) w n.
Proof.
  intros Hinv Hid Hh b h1 h2. pose proof (lookup_lt_Some _ _ _ Hh) as Hlt. unfold try_stop_timer_backend, get_handle.
  cbn [timer_list tm_with_back]. rewrite list_lookup_insert_eq by done. cbn [h1 th_backend tb_state].
  pose proof (ti_wheel _ _ _ _ Hinv) as Hw. destruct (decide (tb_state b = tm_running)) as [Hr|Hr].
  - rewrite bool_decide_true by done. cbn [negb]. eexists _, _. split.
    + rewrite tm_with_back_twice. cbn [nof_timers_running timer_list time_wheel tm_with_back tb_timeout tb_cmd_id th_frontend h1].
      rewrite list_insert_insert_eq. done.
    + by apply wheel_ok_stop.
  - rewrite bool_decide_false by done. cbn [negb]. eexists _, _. split; [done|]. by apply wheel_ok_update with h.
Qed.

Lemma process_command_ok ok s c evs failed N : tm_inv s (timer_command c :: evs) failed N -> none_due s ->
  exists s', process_event ok s (timer_command c) = Some s' /\ tm_inv s' evs failed N /\ none_due s' /\ cur_time s' = cur_time s
    /\ tm_tasks s' = tm_tasks s /\ failed_to_trigger_timers s' = failed_to_trigger_timers s
    /\ (forall j f, tm_frontends s !! j = Some f -> tm_frontends s' !! j = Some (ev_front j (timer_command c) f))
    /\ forall j, 0 <= j -> back_of (timer_list s') j = ev_back (cur_time s) j (timer_command c) (back_of (timer_list s) j).
Proof.
  intros Hinv Hdue. pose proof (ti_evs _ _ _ _ Hinv) as [Hid Hevs]. set (id := tc_id c) in *.
  destruct (get_handle_spec s _ _ _ id Hinv Hid) as (h & f & Hh & Hfr & Hf & Hb).
  assert (0 <= id) as Hid0 by lia. pose proof (lookup_lt_Some _ _ _ Hh) as Hlt. pose proof (ti_local _ _ _ _ Hinv _ _ Hf) as Hok.
  rewrite cmds_of_command in Hok. fold id in Hok. rewrite Z.eqb_refl, Hb in Hok.
  destruct (timer_ok_process (cur_time s) _ _ _ _ _ _ _ Hok) as [Hok' Hdes].
  destruct (cmd_stop_spec ok s _ _ _ id h (tc_cmd_id c) Hinv ltac:(lia) Hh) as (n & w & Hst & Hw).
  cbv zeta in Hst, Hw. set (h2 := TimerHandle _ (TimerBackend _ (if decide _ then _ else _) _)) in Hst, Hw. unfold process_event. fold id. unfold get_handle at 1. rewrite Hh, Hst.
  assert (forall h', th_backend h' = back_cmd (cur_time s) (th_backend h) c -> forall j, 0 <= j ->
    back_of (<[Z.to_nat id := h']> (timer_list s)) j = ev_back (cur_time s) j (timer_command c) (back_of (timer_list s) j)) as Hback.
  { intros h' Hh' j Hj. rewrite (back_of_insert _ _ h) by (lia || done). cbn. fold id.
    destruct (decide (j = id)) as [->|]; [by rewrite decide_True, Hb|by rewrite decide_False]. }
  assert (forall j, j <> id -> cmds_of j evs = cmds_of j (timer_command c :: evs)) as Hcs.
  { intros j Hj. rewrite cmds_of_command. fold id. by rewrite (proj2 (Z.eqb_neq id j)). }
  assert (forall h', (th_running h' -> is_u32 (tb_timeout (th_backend h')) /\ tb_timeout (th_backend h') <> cur_time s) ->
    forall k g, (<[Z.to_nat id := h']> (timer_list s)) !! k = Some g -> th_running g ->
    is_u32 (tb_timeout (th_backend g)) /\ tb_timeout (th_backend g) <> cur_time s) as Hnd.
  { intros h' Hh' k g Hg Hr. apply list_lookup_insert_Some in Hg as [(_ & -> & _)|[_ Hg]]; [by apply Hh'|by eapply Hdue]. }
  pose proof (ti_free _ _ _ _ Hinv) as [Hfree _]. pose proof (ti_toks _ _ _ _ Hinv) as Htk.
  assert (~ th_running h2) as Hnr by (unfold th_running; cbn; by destruct (decide (tb_state (th_backend h) = tm_running))).
  destruct (tc_action c) eqn:Ea.
  - unfold start_timer_backend, get_handle. cbn [timer_list tm_with_back]. rewrite list_lookup_insert_eq by done.
    rewrite bool_decide_false by done. rewrite bool_decide_true by (cbn; congruence). cbn [negb andb].
    rewrite tm_with_back_twice, list_insert_insert_eq. cbn [nof_timers_running time_wheel tm_with_back cur_time].
    set (t := u32 _). set (h3 := TimerHandle _ (TimerBackend _ _ t)).
    assert (th_backend h3 = back_cmd (cur_time s) (th_backend h) c) as H3 by (unfold back_cmd; by rewrite Ea).
    eexists. split; [done|]. split_and!; try done.
    + eapply (tm_inv_step s _ _ _ _ _ _ id h h3 f f); try done; [|].
      * pose proof (wheel_ok_start _ _ _ Hw id h2 ltac:(lia) ltac:(by apply list_lookup_insert_eq) h3 Hnr eq_refl) as Hs.
        rewrite list_insert_insert_eq in Hs. exact Hs.
      * rewrite H3. unfold front_cmd in Hok'. rewrite !decide_False in Hok' by congruence. exact Hok'.
    + refine (Hnd h3 _). intros _. cbn. split; [apply u32_is_u32|]. pose proof (ti_time _ _ _ _ Hinv) as Ht.
      pose proof (lo_dur _ _ _ _ _ _ Hok) as [Hd _]%Forall_cons_1. unfold is_u32, u32 in *. subst t. unfold u32. mlia.
    + intros j g Hg. cbn. fold id. destruct (decide (id = j)); [|done]. unfold front_cmd. by rewrite decide_False by congruence.
    + by apply Hback.
  - eexists. split; [done|]. assert (th_backend h2 = back_cmd (cur_time s) (th_backend h) c) as H3 by (unfold back_cmd; by rewrite Ea).
    split_and!; try done.
    + eapply (tm_inv_step s _ _ _ _ _ _ id h h2 f f); try done.
      rewrite H3. unfold front_cmd in Hok'. rewrite !decide_False in Hok' by congruence. exact Hok'.
    + refine (Hnd h2 _). done.
    + intros j g Hg. cbn. fold id. destruct (decide (id = j)); [|done]. unfold front_cmd. by rewrite decide_False by congruence.
    + by apply Hback.
  - unfold destroy_timer_backend, get_handle. cbn [timer_list tm_with_back]. rewrite list_lookup_insert_eq by done.
    rewrite bool_decide_false by done. cbn [th_frontend h2]. rewrite Hfr. cbn [tm_frontends tm_with_back]. rewrite Hf.
    set (h3 := TimerHandle (Some id) (TimerBackend _ tm_stopped 0)). set (f3 := TimerFrontend None _ _ _ _).
    assert (th_backend h3 = back_cmd (cur_time s) (th_backend h) c) as H3 by (unfold back_cmd; by rewrite Ea).
    assert (front_cmd f c = f3) as Hf3 by (unfold front_cmd; by rewrite decide_True).
    destruct (Hdes eq_refl) as (Hno & Hnf & Hcmds). apply bool_decide_eq_false in Hno, Hnf.
    eexists. split; [done|]. cbn -[back_of]. split_and!; try done.
    + eapply (tm_inv_step s _ _ _ _ _ _ id h h3 f f3); try done.
      * split; cbn; try done; [by rewrite list_insert_insert_eq|by rewrite lookup_insert_eq|intros j Hj; by rewrite lookup_insert_ne|].
        intros j Hj. rewrite elem_of_cons. tauto.
      * cbn. rewrite list_insert_insert_eq. rewrite <- (list_insert_insert_eq (timer_list s) (Z.to_nat id) h3 h2).
        apply wheel_ok_update with h2; [done|lia|by apply list_lookup_insert_eq|by split|done].
      * cbn. by apply list.NoDup_cons.
      * cbn [free_list tm_with_free]. rewrite (bool_decide_true (id ∈ id :: _)) by apply list_elem_of_here.
        rewrite decide_True in Hok' by done. rewrite <- Hf3, H3. exact Hok'.
    + unfold none_due. cbn. rewrite list_insert_insert_eq. refine (Hnd h3 _). done.
    + intros j g Hg. fold id. destruct (decide (id = j)) as [Hj|Hj].
      * subst j. assert (g = f) as -> by congruence. by rewrite lookup_insert_eq, Hf3.
      * by rewrite lookup_insert_ne.
    + intros j Hj. rewrite list_insert_insert_eq. by apply Hback.
Qed.

Lemma process_event_ok ok s ev evs failed N : tm_inv s (ev :: evs) failed N -> none_due s ->
  exists s', process_event ok s ev = Some s' /\ tm_inv s' evs failed N /\ none_due s' /\ cur_time s' = cur_time s
    /\ tm_tasks s' = tm_tasks s /\ failed_to_trigger_timers s' = failed_to_trigger_timers s
    /\ (forall j f, tm_frontends s !! j = Some f -> tm_frontends s' !! j = Some (ev_front j ev f))
    /\ forall j, 0 <= j -> back_of (timer_list s') j = ev_back (cur_time s) j ev (back_of (timer_list s) j).
Proof.
  intros Hinv Hdue. destruct ev as [c|id]; [by apply process_command_ok|].
  destruct (create_timer_handle_ok s id evs failed N Hinv Hdue) as (s' & H1 & H2 & H3 & H4 & H5 & H6 & H7 & H8).
  exists s'. split_and!; try done. intros j f Hf. by rewrite H7.
Qed.

(** All queued events: every timer sees its own commands, in order. *)
Lemma process_events_ok ok evs : forall s failed N, tm_inv s evs failed N -> none_due s ->
  exists s', process_events ok s evs = Some s' /\ tm_inv s' [] failed N /\ none_due s' /\ cur_time s' = cur_time s
    /\ tm_tasks s' = tm_tasks s /\ failed_to_trigger_timers s' = failed_to_trigger_timers s
    /\ (forall j f, tm_frontends s !! j = Some f -> tm_frontends s' !! j = Some (foldl front_cmd f (cmds_of j evs)))
    /\ forall j, 0 <= j -> back_of (timer_list s') j = foldl (back_cmd (cur_time s)) (back_of (timer_list s) j) (cmds_of j evs).
Proof.
  induction evs as [|ev evs IH]; intros s failed N Hinv Hdue; cbn [process_events]; [by exists s|].
  destruct (process_event_ok ok s ev evs failed N Hinv Hdue) as (s1 & -> & I1 & D1 & T1 & K1 & F1 & A1 & B1).
  destruct (IH s1 failed N I1 D1) as (s2 & -> & I2 & D2 & T2 & K2 & F2 & A2 & B2). exists s2.
  split_and!; try congruence; try done.
  - intros j f Hf. rewrite (A2 _ _ (A1 _ _ Hf)). destruct ev as [c|id]; [|done]. rewrite cmds_of_command. cbn.
    destruct (Z.eqb_spec (tc_id c) j); [by rewrite decide_True|by rewrite decide_False].
  - intros j Hj. rewrite B2, B1, T1 by done. destruct ev as [c|id]; [|done]. rewrite cmds_of_command. cbn.
    destruct (Z.eqb_spec (tc_id c) j); [by rewrite decide_True|by rewrite decide_False].
Qed.

(** ** Dispatch of timeouts *)
Lemma tm_with_dispatch_front s failed tasks : tm_frontends (tm_with_dispatch s failed tasks) = tm_frontends s.
Proof. done. Qed.

(** Moving or dropping a dispatch changes the tokens of one timer only. *)
Lemma tm_inv_dispatch s evs failed N id tasks' failed' p : tm_inv s evs failed N -> 0 <= id < Z.of_nat (length (timer_list s)) ->
  Forall (fun p => 0 <= p.1 < Z.of_nat (length (timer_list s))) (tasks' ++ failed') ->
  (forall j, j <> id -> toks_of j (tasks' ++ failed') = toks_of j (tm_tasks s ++ failed)) ->
  (forall f, tm_frontends s !! id = Some f ->
     timer_ok f (back_of (timer_list s) id) (cmds_of id evs) (toks_of id (tasks' ++ failed'))
       (bool_decide (id ∈ tm_owned s)) (bool_decide (id ∈ free_list s))) ->
  tm_inv (tm_with_dispatch s p tasks') evs failed' N.
Proof.
  intros [H1 H2 H3 H4 H5 H6 H7 H8 H9 H10] Hid Htk Htk' Hok. split; cbn; try done.
  intros j f Hf. destruct (decide (j = id)) as [->|Hne]; [by apply Hok|]. rewrite Htk' by done. by apply H10.
Qed.

Lemma tm_inv_field s evs failed N p : tm_inv s evs failed N -> tm_inv (tm_with_dispatch s p (tm_tasks s)) evs failed N.
Proof. by intros [H1 H2 H3 H4 H5 H6 H7 H8 H9 H10]. Qed.

Lemma handle_postponed_ok ok failed : forall s N, tm_inv s [] failed N ->
  exists tasks failed', handle_postponed_timeouts ok s failed = Some (tm_with_dispatch s failed' tasks)
    /\ tm_inv (tm_with_dispatch s failed' tasks) [] failed' N.
Proof.
  induction failed as [|[id e] failed IH]; intros s N Hinv; cbn [handle_postponed_timeouts].
  { eexists _, _. split; [done|]. by apply tm_inv_field. }
  pose proof (ti_toks _ _ _ _ Hinv) as Htk. apply Forall_app in Htk as [Htk1 Htk2].
  apply Forall_cons_1 in Htk2 as [Hid Htk2]. cbn [fst] in Hid.
  destruct (get_handle_spec s _ _ _ id Hinv Hid) as (h & f & Hh & Hfr & Hf & Hb).
  unfold get_handle. rewrite Hh, Hfr, Hf. pose proof (ti_local _ _ _ _ Hinv _ _ Hf) as Hok.
  rewrite toks_of_app, toks_of_cons in Hok. cbn [fst snd] in Hok. rewrite decide_True in Hok by done.
  apply (timer_ok_perm _ _ _ _ (e :: toks_of id (tm_tasks s ++ failed))) in Hok.
  2:{ rewrite toks_of_app. symmetry. apply Permutation_middle. }
  assert (forall j, j <> id -> toks_of j (tm_tasks s ++ failed) = toks_of j (tm_tasks s ++ (id, e) :: failed)) as Hother.
  { intros j Hj. rewrite !toks_of_app, toks_of_cons. cbn. by rewrite decide_False. }
  destruct (_ && _) eqn:Em.
  - breflect. unfold trigger_timeout_handling. rewrite Hfr, Hf.
    assert (e = tf_cmd_id f) as He by lia. destruct (timer_ok_stale _ _ _ _ _ _ _ Hok He) as (_ & _ & Hex).
    destruct (tf_exec f) as [x|]; [|done]. destruct (ok id).
    + replace (tb_cmd_id (th_backend h)) with e by lia.
      destruct (IH (tm_with_dispatch s (failed_to_trigger_timers s) (tm_tasks s ++ [(id, e)])) N) as (tasks & failed' & HI & HJ); [|by exists tasks, failed'].
      apply (tm_inv_dispatch s [] ((id, e) :: failed) N id); [done|done| | |].
      * rewrite <- app_assoc. cbn. apply Forall_app. split; [done|]. by constructor.
      * intros j Hj. rewrite <- app_assoc. by cbn.
      * intros g Hg. assert (g = f) as -> by congruence. rewrite <- app_assoc. cbn [app].
        eapply timer_ok_perm; [|exact Hok]. rewrite !toks_of_app, toks_of_cons. cbn. rewrite decide_True by done. apply Permutation_middle.
    + eexists _, _. split; [done|]. by apply tm_inv_field.
  - assert (e <> tf_cmd_id f) as Hne.
    { intros He. destruct (timer_ok_stale _ _ _ _ _ _ _ Hok He) as (Hbe & _ & _). rewrite Hb in Hbe.
      rewrite (proj2 (Z.eqb_eq (tb_cmd_id (th_backend h)) e)), (proj2 (Z.eqb_eq (tb_cmd_id (th_backend h)) (tf_cmd_id f))) in Em by lia. done. }
    apply IH. assert (tm_inv (tm_with_dispatch s (failed_to_trigger_timers s) (tm_tasks s)) [] failed N) as HI.
    { apply (tm_inv_dispatch s [] ((id, e) :: failed) N id); [done|done| |done|].
      - by apply Forall_app.
      - intros g Hg. assert (g = f) as -> by congruence. by eapply timer_ok_drop. }
    by destruct s.
Qed.

Definition tm_inv0 (s : timer_manager) (N : Z) : Prop := tm_inv s [] (failed_to_trigger_timers s) N.

(** The expiry of one timer. *)
Lemma stop_timer_backend_ok ok s N id h : tm_inv0 s N -> 0 <= id -> timer_list s !! Z.to_nat id = Some h -> th_running h ->
  exists s', stop_timer_backend ok s id = Some s' /\ tm_inv0 s' N /\ cur_time s' = cur_time s
    /\ tm_frontends s' = tm_frontends s /\ pending_cmds s' = pending_cmds s
    /\ timer_list s' = <[Z.to_nat id := TimerHandle (th_frontend h) (back_expired (th_backend h))]> (timer_list s).
Proof.
  intros Hinv Hid Hh Hr. pose proof (lookup_lt_Some _ _ _ Hh) as Hlt.
  destruct (get_handle_spec s _ _ _ id Hinv ltac:(lia)) as (h' & f & Hh' & Hfr & Hf & Hb).
  assert (h' = h) as -> by congruence. clear Hh'. pose proof (ti_local _ _ _ _ Hinv _ _ Hf) as Hok. rewrite Hb in Hok.
  destruct (timer_ok_expire _ _ _ _ _ _ Hok Hr) as [Hok' Hrun].
  unfold stop_timer_backend, try_stop_timer_backend, get_handle. rewrite Hh. unfold th_running in Hr.
  rewrite bool_decide_true by done. cbn [negb]. rewrite Hfr. cbn [tm_frontends tm_with_back]. rewrite Hf.
  set (h' := TimerHandle _ (TimerBackend _ tm_expired _)). set (s1 := tm_with_back s _ _ _).
  pose proof (wheel_ok_stop _ _ _ (ti_wheel _ _ _ _ Hinv) id h Hid Hh h' Hr ltac:(done)) as Hw.
  assert (forall tasks failed, Forall (fun p => 0 <= p.1 < Z.of_nat (length (timer_list s))) (tasks ++ failed) ->
    (forall j, j <> id -> toks_of j (tasks ++ failed) = toks_of j (tm_tasks s ++ failed_to_trigger_timers s)) ->
    timer_ok f (back_expired (th_backend h)) [] (toks_of id (tasks ++ failed)) (bool_decide (id ∈ tm_owned s)) (bool_decide (id ∈ free_list s)) ->
    tm_inv0 (tm_with_dispatch s1 failed tasks) N) as Hstep.
  { intros tasks failed G1 G2 G3. eapply (tm_inv_step s _ _ _ _ _ _ id h h' f f); try done; [apply Hinv|apply Hinv]. }
  pose proof (ti_toks _ _ _ _ Hinv) as Htk. apply Forall_app in Htk as [Htk1 Htk2].
  destruct (tb_cmd_id (th_backend h) =? tf_cmd_id f) eqn:Ee.
  - assert (tf_exec f <> None) as Hex.
    { apply Z.eqb_eq in Ee. specialize (Hrun Ee). destruct Hok as [_ _ _ Ha _]. by destruct (bool_decide (id ∈ tm_owned s)), (bool_decide (id ∈ free_list s)); destruct_and?. }
    unfold trigger_timeout_handling. cbn [h' th_frontend]. rewrite Hfr || idtac. cbn [tm_frontends s1 tm_with_back]. rewrite Hf.
    destruct (tf_exec f) as [x|]; [|done]. destruct (ok id).
    + eexists. split; [done|]. split_and!; try done. cbn [th_backend tb_cmd_id]. apply Hstep.
      * rewrite <- app_assoc. apply Forall_app. split; [done|]. cbn. constructor; [cbn; lia|done].
      * intros j Hj. rewrite <- app_assoc, !toks_of_app. cbn [app]. rewrite toks_of_cons. cbn. by rewrite decide_False.
      * eapply timer_ok_perm; [|exact Hok']. rewrite <- app_assoc, !toks_of_app. cbn [app]. rewrite toks_of_cons. cbn.
        rewrite decide_True by done. apply Permutation_middle.
    + eexists. split; [done|]. split_and!; try done. apply Hstep.
      * apply Forall_app. split; [done|]. apply Forall_app. split; [done|]. constructor; [cbn; lia|constructor].
      * intros j Hj. cbn. rewrite !toks_of_app, toks_of_cons. cbn. rewrite decide_False by done. by rewrite app_nil_r.
      * eapply timer_ok_perm; [|exact Hok']. cbn. rewrite !toks_of_app, toks_of_cons. cbn. rewrite decide_True by done.
        rewrite app_assoc. apply Permutation_cons_append.
  - eexists. split; [done|]. split_and!; try done. replace s1 with (tm_with_dispatch s1 (failed_to_trigger_timers s1) (tm_tasks s1)) by done.
    apply Hstep; try done. apply Forall_app. by split.
Qed.

Lemma expire_bucket_ok ok N : forall bucket s, tm_inv0 s N -> NoDup bucket ->
  (forall id, id ∈ bucket -> 0 <= id /\ exists h, timer_list s !! Z.to_nat id = Some h /\ th_running h) ->
  exists s', expire_bucket ok s bucket = Some s' /\ tm_inv0 s' N /\ cur_time s' = cur_time s
    /\ tm_frontends s' = tm_frontends s /\ pending_cmds s' = pending_cmds s
    /\ length (timer_list s') = length (timer_list s)
    /\ forall j, 0 <= j -> back_of (timer_list s') j =
         if decide (j ∈ bucket /\ tb_timeout (back_of (timer_list s) j) = cur_time s)
         then back_expired (back_of (timer_list s) j) else back_of (timer_list s) j.
Proof.
  induction bucket as [|id bucket IH]; intros s Hinv Hnd Hrun; cbn [expire_bucket].
  { by exists s. }
  apply list.NoDup_cons in Hnd as [Hnin Hnd]. destruct (Hrun id (list_elem_of_here _ _)) as (Hid & h & Hh & Hr).
  pose proof (lookup_lt_Some _ _ _ Hh) as Hlt.
  destruct (get_handle_spec s _ _ _ id Hinv ltac:(lia)) as (h' & f & Hh' & Hfr & Hf & Hb).
  assert (h' = h) as -> by congruence. clear Hh'. unfold get_handle. rewrite Hh, Hfr. rewrite bool_decide_false by done.
  destruct (Z.eqb_spec (cur_time s) (tb_timeout (th_backend h))) as [Ht|Ht]; cbn [negb].
  - destruct (stop_timer_backend_ok ok s N id h Hinv Hid Hh Hr) as (s1 & -> & I1 & T1 & F1 & P1 & L1).
    assert (forall j, 0 <= j -> back_of (timer_list s1) j = if decide (j = id) then back_expired (th_backend h) else back_of (timer_list s) j) as Hb1.
    { intros j Hj. rewrite L1. by apply (back_of_insert _ _ h). }
    destruct (IH s1 I1 Hnd) as (s2 & -> & I2 & T2 & F2 & P2 & L2 & B2).
    { intros j Hj. destruct (Hrun j (list_elem_of_further _ _ _ Hj)) as (Hj0 & g & Hg & Hgr). split; [done|].
      exists g. split; [|done]. rewrite L1, list_lookup_insert_ne; [done|]. intros Heq. assert (j = id) as -> by lia. done. }
    exists s2. split_and!; [done|done|congruence|congruence|congruence|by rewrite L2, L1, length_insert|]. intros j Hj. rewrite B2, Hb1, T1 by done.
    destruct (decide (j = id)) as [->|Hne].
    + rewrite decide_False by (intros [? _]; done). rewrite decide_True; [by rewrite Hb|]. split; [apply list_elem_of_here|by rewrite Hb].
    + destruct (decide (j ∈ bucket /\ _)) as [[H1 H2]|Hn]; [rewrite decide_True; [done|split; [by right|done]]|].
      rewrite decide_False; [done|]. intros [[->|H1]%elem_of_cons H2]; [done|]. by apply Hn.
  - destruct (IH s Hinv Hnd) as (s2 & -> & I2 & T2 & F2 & P2 & L2 & B2). { intros j Hj. apply Hrun. by right. }
    exists s2. split_and!; try done. intros j Hj. rewrite B2 by done.
    destruct (decide (j ∈ bucket /\ _)) as [[H1 H2]|Hn]; [rewrite decide_True; [done|split; [by right|done]]|].
    rewrite decide_False; [done|]. intros [[->|H1]%elem_of_cons H2]; [by rewrite Hb in H2|]. by apply Hn.
Qed.

(** ** A tick *)

(** Case analysis on the steps of a computation that succeeds. *)
Ltac some_cases H :=
  repeat match type of H with
  | context [match ?x with _ => _ end] => destruct x; try discriminate H
  end; try injection H as <-; try done.

(** The back-end leaves the queue and the handles alone. *)
Definition queue_frame (s s' : timer_manager) : Prop := pending_cmds s' = pending_cmds s /\ tm_owned s' = tm_owned s.
Lemma queue_frame_trans a b c : queue_frame a b -> queue_frame b c -> queue_frame a c.
Proof. unfold queue_frame. intros [-> ->]. done. Qed.

Lemma trigger_frame ok s h b s' : trigger_timeout_handling ok s h = Some (b, s') -> queue_frame s s'.
Proof.
  unfold trigger_timeout_handling. destruct (th_frontend h) as [fid|]; [|done]. destruct (tm_frontends s !! fid) as [f|]; [|done].
  destruct (tf_exec f); [|done]. by destruct (ok fid); intros [= <- <-].
Qed.

Lemma try_stop_frame ok s id r s' : try_stop_timer_backend ok s id r = Some s' -> queue_frame s s'.
Proof.
  unfold try_stop_timer_backend. destruct (get_handle s id) as [h|]; [|done]. destruct (negb (bool_decide _)); [by intros [= <-]|].
  destruct (negb r); [by intros [= <-]|]. destruct (th_frontend h) as [fid|]; [|done]. cbn [tm_frontends tm_with_back].
  destruct (tm_frontends s !! fid) as [f|]; [|done]. destruct (_ =? _); [|by intros [= <-]].
  destruct (trigger_timeout_handling _ _ _) as [[b s1]|] eqn:E; [|done]. apply trigger_frame in E. intros [= <-]. by destruct b.
Qed.

Lemma process_event_frame ok s ev s' : process_event ok s ev = Some s' -> queue_frame s s'.
Proof.
  unfold process_event, create_timer_handle. intros H. destruct ev as [c|id]; [|some_cases H].
  destruct (get_handle s (tc_id c)) as [h|]; [|done]. destruct (try_stop_timer_backend _ _ _ _) as [s1|] eqn:E1; [|done].
  apply try_stop_frame in E1. change (queue_frame s s1) in E1. eapply queue_frame_trans; [exact E1|].
  unfold start_timer_backend, destroy_timer_backend in H. some_cases H.
Qed.
Lemma process_events_frame ok evs : forall s s', process_events ok s evs = Some s' -> queue_frame s s'.
Proof.
  induction evs as [|ev evs IH]; intros s s'; cbn; [by intros [= <-]|].
  destruct (process_event ok s ev) as [s1|] eqn:E; [|done]. intros H%IH. eapply queue_frame_trans; [by eapply process_event_frame|done].
Qed.
Lemma postponed_frame ok failed : forall s s', handle_postponed_timeouts ok s failed = Some s' -> queue_frame s s'.
Proof.
  induction failed as [|[id e] failed IH]; intros s s'; cbn [handle_postponed_timeouts]; [by intros [= <-]|].
  destruct (get_handle s id) as [h|]; [|done]. destruct (th_frontend h) as [fid|]; [|done].
  destruct (tm_frontends s !! fid) as [f|]; [|done]. destruct (_ && _); [|apply IH].
  destruct (trigger_timeout_handling ok s h) as [[[|] s1]|] eqn:E; [| |done]; apply trigger_frame in E.
  - intros H%IH. by eapply queue_frame_trans.
  - intros [= <-]. exact E.
Qed.
Lemma expire_bucket_frame ok bucket : forall s s', expire_bucket ok s bucket = Some s' -> queue_frame s s'.
Proof.
  induction bucket as [|id bucket IH]; intros s s'; cbn [expire_bucket]; [by intros [= <-]|].
  destruct (get_handle s id) as [h|]; [|done]. destruct (bool_decide _); [done|]. destruct (negb _); [apply IH|].
  destruct (stop_timer_backend ok s id) as [s1|] eqn:E; [|done]. intros H%IH. eapply queue_frame_trans; [|done].
  unfold stop_timer_backend in E. destruct (get_handle s id); [|done]. destruct (bool_decide _); [|done]. by eapply try_stop_frame.
Qed.
Lemma timer_tick_owned ok s s' : timer_tick ok s = Some s' -> tm_owned s' = tm_owned s.
Proof.
  unfold timer_tick. destruct (process_events _ _ _) as [s1|] eqn:E1; [|done].
  destruct (handle_postponed_timeouts _ _ _) as [s2|] eqn:E2; [|done]. intros E3.
  apply process_events_frame in E1 as [_ E1]. apply postponed_frame in E2 as [_ E2]. apply expire_bucket_frame in E3 as [_ E3].
  cbn in *. congruence.
Qed.

(** The back-end of timer [j] after its queued commands. *)
Definition back_after (s : timer_manager) (j : Z) : timer_backend :=
  foldl (back_cmd (cur_time s)) (back_of (timer_list s) j) (cmds_of j (pending_cmds s)).

Lemma timer_tick_ok ok s N : timers_ok s N ->
  exists s', timer_tick ok s = Some s' /\ timers_ok s' N /\ pending_cmds s' = [] /\ cur_time s' = u32 (cur_time s + 1)
    /\ (forall j f, tm_frontends s !! j = Some f -> tm_frontends s' !! j = Some (foldl front_cmd f (cmds_of j (pending_cmds s))))
    /\ forall j, 0 <= j -> back_of (timer_list s') j =
         if decide (tb_state (back_after s j) = tm_running /\ tb_timeout (back_after s j) = u32 (cur_time s + 1))
         then back_expired (back_after s j) else back_after s j.
Proof.
  intros [Hinv Hdue]. unfold timer_tick.
  destruct (process_events_ok ok (pending_cmds s) (tm_with_pending s []) (failed_to_trigger_timers s) N)
    as (s1 & E1 & I1 & D1 & T1 & K1 & F1 & A1 & B1); [by apply tm_inv_pending|done|].
  rewrite E1. apply process_events_frame in E1 as [E1 _]. cbn [pending_cmds tm_with_pending] in E1.
  change (failed_to_trigger_timers s1 = failed_to_trigger_timers s) in F1. rewrite <- F1 in I1.
  destruct (handle_postponed_ok ok (failed_to_trigger_timers s1) s1 N I1) as (tasks & failed & -> & I2).
  set (s2 := tm_with_dispatch s1 failed tasks) in *. set (s3 := tm_with_time s2 _).
  assert (tm_inv0 s3 N) as I3. { destruct I2 as [H1 H2 H3 H4 H5 H6 H7 H8 H9 H10]. split; try done. apply u32_is_u32. }
  assert (cur_time s3 = u32 (cur_time s + 1)) as T3 by (cbn; by rewrite T1).
  pose proof (ti_wheel _ _ _ _ I3) as [W1 W2 _].
  destruct (expire_bucket_ok ok N (wheel_at (time_wheel s3) (cur_time s3 mod WHEEL_SIZE)) s3 I3) as (s4 & -> & I4 & T4 & F4 & P4 & L4 & B4).
  { apply W1. } { intros id (Hid & h & Hh & Hr & _)%W2. split; [done|]. by exists h. }
  assert (pending_cmds s4 = []) as P4' by (rewrite P4; exact E1).
  assert (forall j, 0 <= j -> back_of (timer_list s3) j = back_after s j) as B3.
  { intros j Hj. exact (B1 j Hj). }
  assert (forall j, 0 <= j -> back_of (timer_list s4) j =
    if decide (tb_state (back_after s j) = tm_running /\ tb_timeout (back_after s j) = u32 (cur_time s + 1))
    then back_expired (back_after s j) else back_after s j) as B5.
  { intros j Hj. rewrite B4, B3, T3 by done. destruct (decide (tb_state (back_after s j) = tm_running /\ _)) as [[H1 H2]|Hn].
    - rewrite decide_True; [done|]. split; [|done]. apply W2. split; [done|]. rewrite <- B3 in H1, H2 by done. unfold back_of in H1, H2.
      destruct (timer_list s3 !! Z.to_nat j) as [h|]; [|done]. exists h. split_and!; [done|done|]. by rewrite H2.
    - rewrite decide_False; [done|]. intros [Hin H2]. apply Hn. split; [|done]. apply W2 in Hin as (_ & h & Hh & Hr & _).
      rewrite <- B3 by done. unfold back_of. by rewrite Hh. }
  exists s4. split_and!; try done; [|by rewrite T4|by intros j f Hf; rewrite F4; exact (A1 j f Hf)].
  split; [by rewrite P4'|]. intros k h Hh Hr. assert (back_of (timer_list s4) (Z.of_nat k) = th_backend h) as Hb.
  { unfold back_of. by rewrite Nat2Z.id, Hh. }
  rewrite B5 in Hb by lia. rewrite T4, T3. unfold th_running in Hr. rewrite <- Hb in Hr |- *.
  destruct (decide _) as [Hd|Hd]; [done|]. rewrite <- B3 in Hr, Hd |- * by lia. unfold back_of in *.
  destruct (timer_list s3 !! Z.to_nat (Z.of_nat k)) as [g|] eqn:Eg; [|done]. split; [by eapply (D1 _ g Eg)|]. tauto.
Qed.

(** ** Deferred tasks *)
Lemma toks_of_delete j k (tasks : list (Z * Z)) id e rest : tasks !! k = Some (id, e) ->
  toks_of j (tasks ++ rest) ≡ₚ (if decide (id = j) then e :: toks_of j (delete k tasks ++ rest) else toks_of j (delete k tasks ++ rest))
  /\ (id <> j -> toks_of j (delete k tasks ++ rest) = toks_of j (tasks ++ rest)).
Proof.
  intros Hk. apply list_elem_of_split_length in Hk as (a & b & -> & ->). rewrite delete_middle, <- !app_assoc. cbn [app].
  rewrite !toks_of_app, toks_of_cons, toks_of_app. cbn [fst snd]. destruct (decide (id = j)) as [->|Hne].
  - split; [|done]. symmetry. apply Permutation_middle.
  - done.
Qed.

Definition expired_front (f : timer_frontend) : timer_frontend :=
  TimerFrontend (tf_exec f) (tf_cmd_id f) tm_expired (tf_duration f) (tf_callback f).

(** A task either expires its running timer or finds that the timer has moved on. *)
Lemma run_task_ok s N k id e : timers_ok s N -> tm_tasks s !! k = Some (id, e) ->
  exists s' evs f, run_task (tm_with_dispatch s (failed_to_trigger_timers s) (delete k (tm_tasks s))) (id, e) = Some (s', evs)
    /\ timers_ok s' N /\ tm_frontends s !! id = Some f
    /\ cur_time s' = cur_time s /\ timer_list s' = timer_list s /\ pending_cmds s' = pending_cmds s
    /\ (if decide (e = tf_cmd_id f)
        then tf_state f = tm_running /\ tm_frontends s' = <[id := expired_front f]> (tm_frontends s)
             /\ evs = match tf_callback f with Some cb => [(cb, id)] | None => [] end
        else tm_frontends s' = tm_frontends s /\ evs = []).
Proof.
  intros [Hinv Hdue] Hk. pose proof (ti_toks _ _ _ _ Hinv) as Htk.
  assert (0 <= id < Z.of_nat (length (timer_list s))) as Hid.
  { apply Forall_app in Htk as [Htk _]. rewrite list.Forall_forall in Htk. apply (Htk (id, e)). by eapply list_elem_of_lookup_2. }
  destruct (get_handle_spec s _ _ _ id Hinv Hid) as (h & f & Hh & Hfr & Hf & Hb).
  pose proof (ti_local _ _ _ _ Hinv _ _ Hf) as Hok.
  destruct (toks_of_delete id k _ _ _ (failed_to_trigger_timers s) Hk) as [Hp _]. rewrite decide_True in Hp by done.
  apply (timer_ok_perm _ _ _ _ _ _ _ Hp) in Hok.
  assert (Forall (fun p => 0 <= p.1 < Z.of_nat (length (timer_list s))) (delete k (tm_tasks s) ++ failed_to_trigger_timers s)) as Htk'.
  { apply Forall_app in Htk as [Htk1 Htk2]. apply Forall_app. split; [by apply Forall_delete|done]. }
  assert (forall j, j <> id -> toks_of j (delete k (tm_tasks s) ++ failed_to_trigger_timers s) = toks_of j (tm_tasks s ++ failed_to_trigger_timers s)) as Hother.
  { intros j Hj. destruct (toks_of_delete j k _ _ _ (failed_to_trigger_timers s) Hk) as [_ H]. apply H. congruence. }
  unfold run_task. cbn [tm_frontends tm_with_dispatch]. rewrite Hf.
  destruct (Z.eqb_spec (tf_cmd_id f) e) as [He|He].
  - destruct (timer_ok_stale _ _ _ _ _ _ _ Hok (eq_sym He)) as (_ & Hr & _). rewrite bool_decide_true by done.
    eexists _, _, f. split; [done|]. rewrite decide_True by done. split; [|split_and!; done]. split; [|exact Hdue].
    eapply (tm_inv_step s _ _ _ _ _ _ id h h f (expired_front f)); try done; [lia|..]; try apply Hinv.
    + split; cbn; try done; [by rewrite list_insert_id|by rewrite lookup_insert_eq|]. intros j Hj. by rewrite lookup_insert_ne.
    + rewrite <- Hb. subst e. by apply timer_ok_task.
  - eexists _, _, f. split; [done|]. rewrite decide_False by congruence. split; [|split_and!; done]. split; [|exact Hdue].
    apply (tm_inv_dispatch s (pending_cmds s) (failed_to_trigger_timers s) N id); try done. intros g Hg. assert (g = f) as -> by congruence. eapply timer_ok_drop; [exact Hok|congruence].
Qed.

(** ** The initial state *)
Lemma timers_ok_new capacity : timers_ok (timer_manager_new capacity) 0.
Proof.
  set (ids := seqZ 0 (Z.of_nat capacity)).
  assert (length ids = capacity) as Hlen by (unfold ids; rewrite length_seqZ; lia).
  assert (forall id, id ∈ ids <-> 0 <= id < Z.of_nat capacity) as Hids by (intros id; unfold ids; rewrite elem_of_seqZ; lia).
  assert (forall k h, timer_list (timer_manager_new capacity) !! k = Some h -> h = TimerHandle (Some (Z.of_nat k)) (TimerBackend 0 tm_stopped 0)) as Hl.
  { intros k h Hk. cbn in Hk. apply list_lookup_fmap_Some in Hk as (id & -> & Hk). apply lookup_seqZ in Hk as [-> _]. by rewrite Z.add_0_l. }
  assert (forall id f, tm_frontends (timer_manager_new capacity) !! id = Some f <-> id ∈ ids /\ f = timer_frontend_new) as Hf.
  { intros id f. cbn. fold ids. rewrite <- elem_of_list_to_map.
    - rewrite list_elem_of_fmap. split; [intros (x & [= -> ->] & ?); done|intros [? ->]; by exists id].
    - rewrite map_map, map_id. unfold ids. apply NoDup_seqZ. }
  split; [split|].
  - cbn. rewrite length_map, length_seqZ. lia.
  - intros id. cbn [next_timer_id timer_manager_new]. rewrite <- Hids. split.
    + intros [f Hff]. by apply Hf in Hff as [? _].
    + intros Hid. exists timer_frontend_new. by apply Hf.
  - intros k h Hk. by rewrite (Hl _ _ Hk).
  - cbn. split; [apply NoDup_seqZ|]. fold ids. apply list.Forall_forall. intros id Hid%Hids. rewrite length_map, Hlen. done.
  - intros id Hid. cbn in Hid. by apply not_elem_of_empty in Hid.
  - by constructor.
  - split.
    + intros i. constructor.
    + intros id i. split; [intros Hin; by apply not_elem_of_nil in Hin|]. intros (_ & h & Hh & Hr & _). apply Hl in Hh. by subst h.
    + rewrite filter_none; [done|]. apply list.Forall_forall. intros h Hh. apply list_elem_of_lookup in Hh as [k Hk]. by rewrite (Hl _ _ Hk).
  - unfold is_u32. cbn. lia.
  - intros id f [_ ->]%Hf. cbn. lia.
  - intros id f [Hid ->]%Hf. assert (back_of (timer_list (timer_manager_new capacity)) id = TimerBackend 0 tm_stopped 0) as ->.
    { unfold back_of. destruct (timer_list _ !! _) as [h|] eqn:E; [|done]. by rewrite (Hl _ _ E). }
    rewrite (bool_decide_false (id ∈ tm_owned _)) by apply not_elem_of_empty. rewrite bool_decide_true by done.
    split; cbn; try done; by constructor.
  - intros k h Hk Hr. rewrite (Hl _ _ Hk) in Hr. done.
Qed.
