(* ===== verification/TimersSpec.v ===== *)
(** * Timer manager: properties

    The timer system never fails an assertion, a timer that is started expires in
    exactly the tick of its duration, and its callback is called at most once per
    start and never after a stop. *)
From S2P Require Import Prelude Timers TimersThms.

Definition sys_op_ok (s : timer_manager) (op : timer_sys_op) : Prop :=
  match op with sys_timer id op => timer_op_ok s id op | _ => True end.

(** Handles are only used while they are valid, with durations in range. *)
Fixpoint sys_run_ok (s : timer_manager) (ops : list timer_sys_op) : Prop :=
  match ops with
  | [] => True
  | op :: ops =>
      sys_op_ok s op /\ match timer_sys_step s op with Some (s, _) => sys_run_ok s ops | None => True end
  end.

#[export] Instance sys_op_ok_dec s op : Decision (sys_op_ok s op).
Proof. destruct op as [x|id [dur cb| | |]|ok|k]; cbn; apply _. Defined.
#[export] Instance sys_run_ok_dec ops : forall s, Decision (sys_run_ok s ops).
Proof.
  induction ops as [|op ops IH]; intros s; cbn; [apply _|]. destruct (timer_sys_step s op) as [[s' evs]|]; apply _.
Defined.

(** Only the operations of handles make a new command epoch. *)
Definition is_handle_op (op : timer_sys_op) : bool := match op with sys_timer _ _ => true | _ => false end.
Definition epochs (op : timer_sys_op) : Z := if is_handle_op op then 1 else 0.
Definition nof_epochs (ops : list timer_sys_op) : Z := Z.of_nat (length (List.filter is_handle_op ops)).
Lemma nof_epochs_cons op ops : nof_epochs (op :: ops) = epochs op + nof_epochs ops.
Proof. unfold nof_epochs, epochs. cbn. destruct (is_handle_op op); cbn [length]; lia. Qed.
Lemma nof_epochs_nonneg ops : 0 <= nof_epochs ops.
Proof. unfold nof_epochs. lia. Qed.
Lemma epochs_nonneg op : 0 <= epochs op <= 1.
Proof. unfold epochs. destruct (is_handle_op op); lia. Qed.

Lemma timer_sys_step_ok s N op : timers_ok s N -> 0 <= N -> N + epochs op < 2 ^ 32 -> sys_op_ok s op ->
  exists s' evs, timer_sys_step s op = Some (s', evs) /\ timers_ok s' (N + epochs op).
Proof.
  intros Hok H0 HN Hop. assert (forall s', timers_ok s' N -> timers_ok s' (N + 0)) as Hweak by (by intros s'; rewrite Z.add_0_r).
  destruct op as [x|id op|ok|k]; cbn [timer_sys_step].
  - destruct (create_unique_timer_ok s N x Hok H0) as (id & s' & -> & H & _). eexists _, _. split; [done|by apply Hweak].
  - destruct (unique_timer_op_ok s N id op Hok HN Hop) as (s' & -> & H & _). by eexists _, _.
  - destruct (timer_tick_ok ok s N Hok) as (s' & -> & H & _). eexists _, _. split; [done|by apply Hweak].
  - destruct (tm_tasks s !! k) as [[id e]|] eqn:Ek; [|eexists _, _; split; [done|by apply Hweak]].
    destruct (run_task_ok s N k id e Hok Ek) as (s' & evs & f & -> & H & _). eexists _, _. split; [done|by apply Hweak].
Qed.

Lemma timer_sys_run_ok ops : forall s N, timers_ok s N -> 0 <= N -> N + nof_epochs ops < 2 ^ 32 -> sys_run_ok s ops ->
  exists s' evs, timer_sys_run s ops = Some (s', evs) /\ timers_ok s' (N + nof_epochs ops).
Proof.
  induction ops as [|op ops IH]; intros s N Hok H0 HN Hops; cbn [timer_sys_run].
  { eexists _, _. split; [done|]. cbn. by rewrite Z.add_0_r. }
  destruct Hops as [Hop Hops]. rewrite nof_epochs_cons in *. pose proof (nof_epochs_nonneg ops). pose proof (epochs_nonneg op).
  destruct (timer_sys_step_ok s N op Hok H0 ltac:(lia) Hop) as (s1 & evs & Hs & Hok1). rewrite Hs in Hops |- *.
  destruct (IH s1 (N + epochs op) Hok1 ltac:(lia) ltac:(lia) Hops) as (s2 & evs2 & -> & Hok2). eexists _, _. split; [done|].
  by rewrite Z.add_assoc.
Qed.

(** ** One timer followed through a run *)

(** Operations other than on the handle of timer [id]. *)
Definition sys_other (id : Z) (op : timer_sys_op) : Prop := match op with sys_timer j _ => j <> id | _ => True end.
Definition is_tick (op : timer_sys_op) : bool := match op with sys_tick _ => true | _ => false end.
Definition nof_ticks (ops : list timer_sys_op) : Z := Z.of_nat (length (List.filter is_tick ops)).

Lemma foldl_front_cmd f cmds : Forall not_destroy cmds -> foldl front_cmd f cmds = f.
Proof. induction 1 as [|c cmds Hc _ IH]; [done|]. cbn. unfold front_cmd at 2. by rewrite decide_False. Qed.

Lemma tokens_foldl cur e b cmds toks : forall hi, cmd_chain (tb_cmd_id b) cmds hi -> hi <= e ->
  tokens e (foldl (back_cmd cur) b cmds) [] toks = tokens e b cmds toks.
Proof.
  revert b. induction cmds as [|c cmds IH]; intros b hi Hc He; [done|]. destruct Hc as [H1 H2]. cbn [foldl].
  pose proof (cmd_chain_le _ _ _ H2) as [H3 _]. rewrite (IH _ hi); [|by rewrite back_cmd_id|done].
  apply tokens_cons; lia.
Qed.

Lemma timers_ok_local s N id f : timers_ok s N -> id ∈ tm_owned s -> tm_frontends s !! id = Some f ->
  0 <= id /\ Forall not_destroy (cmds_of id (pending_cmds s))
  /\ tokens (tf_cmd_id f) (back_after s id) [] (toks_of id (tm_tasks s ++ failed_to_trigger_timers s))
     = if decide (tf_state f = tm_running) then 1%nat else 0%nat.
Proof.
  intros [Hinv _] Hown Hf. pose proof (ti_local _ _ _ _ Hinv _ _ Hf) as [L1 L2 L3 L4 L5].
  pose proof (ti_owned _ _ _ _ Hinv _ Hown). rewrite bool_decide_true in L4 by done. split_and!; [lia| |].
  - by destruct (bool_decide (id ∈ free_list s)); [|destruct L4].
  - rewrite <- L3. unfold back_after. eapply tokens_foldl; [exact L1|lia].
Qed.

Lemma back_foldl_timeout cur cmds : forall b, (tb_state b = tm_running -> is_u32 (tb_timeout b)) ->
  tb_state (foldl (back_cmd cur) b cmds) = tm_running -> is_u32 (tb_timeout (foldl (back_cmd cur) b cmds)).
Proof.
  induction cmds as [|c cmds IH]; intros b Hb; [done|]. cbn. apply IH. unfold back_cmd.
  destruct (tc_action c); cbn; [intros; apply u32_is_u32| |done]. by destruct (decide (tb_state b = tm_running)).
Qed.

Lemma back_after_timeout s N id : timers_ok s N -> tb_state (back_after s id) = tm_running -> is_u32 (tb_timeout (back_after s id)).
Proof.
  intros [_ Hdue]. apply back_foldl_timeout. unfold back_of. destruct (timer_list s !! _) as [h|] eqn:E; [|done].
  intros Hr. by apply (Hdue _ _ E).
Qed.


(** The callbacks of timer [id] among the callbacks called. *)
Definition calls_of (id : Z) (evs : list (Z * Z)) : list Z := map fst (filter (fun ev => ev.2 = id) evs).
Lemma calls_of_app id a b : calls_of id (a ++ b) = calls_of id a ++ calls_of id b.
Proof. unfold calls_of. by rewrite list.filter_app, map_app. Qed.
Definition front_calls (f : timer_frontend) : list Z := option_list (tf_callback f).
Lemma calls_of_own id f : calls_of id (match tf_callback f with Some cb => [(cb, id)] | None => [] end) = front_calls f.
Proof.
  unfold calls_of, front_calls. destruct (tf_callback f); [|done]. rewrite filter_cons. cbn [snd]. by rewrite decide_True.
Qed.
Lemma calls_of_foreign id j f : j <> id -> calls_of id (match tf_callback f with Some cb => [(cb, j)] | None => [] end) = [].
Proof.
  intros Hj. unfold calls_of. destruct (tf_callback f); [|done]. rewrite filter_cons. cbn [snd]. by rewrite decide_False.
Qed.

Lemma unique_timer_op_owned s id op s' j : unique_timer_op s id op = Some s' -> j <> id -> j ∈ tm_owned s -> j ∈ tm_owned s'.
Proof.
  unfold unique_timer_op, frontend_set_callback, frontend_set, frontend_run, frontend_stop, frontend_destroy.
  intros H Hj Hin. assert (forall o : gset Z, o = tm_owned s -> j ∈ o) as Ho by (by intros o ->).
  destruct op as [dur cb| | |].
  - destruct (timer_is_valid s id); [|done]. destruct cb; destruct (tm_frontends s !! id) as [f|]; try done; destruct (_ <=? _); try done;
      destruct (bool_decide _); cbn in H; rewrite ?lookup_insert_eq in H; by injection H as <-.
  - destruct (timer_is_valid s id); [|done]. destruct (tm_frontends s !! id); [|done]. by injection H as <-.
  - destruct (timer_is_running s id); [|by injection H as <-]. destruct (tm_frontends s !! id); [|done]. by injection H as <-.
  - destruct (timer_is_valid s id); [|by injection H as <-]. destruct (tm_frontends s !! id); [|done]. injection H as <-. cbn. set_solver.
Qed.
Lemma run_task_owned s t s' evs : run_task s t = Some (s', evs) -> tm_owned s' = tm_owned s.
Proof.
  unfold run_task. destruct t as [id e]. destruct (tm_frontends s !! id) as [f|]; [|done]. destruct (_ =? _); [|by intros [= <- <-]].
  destruct (bool_decide _); [|done]. by intros [= <- <-].
Qed.

(** What a step that is neither a tick nor on the handle of [id] does to timer
    [id]: nothing, or it runs the task of its expiry. *)
Definition other_effect (s s' : timer_manager) (id : Z) (evs : list (Z * Z)) : Prop :=
  (tm_frontends s' !! id = tm_frontends s !! id /\ calls_of id evs = [])
  \/ exists f, tm_frontends s !! id = Some f /\ tf_state f = tm_running /\ tf_cmd_id f ∈ toks_of id (tm_tasks s)
       /\ tm_frontends s' !! id = Some (expired_front f) /\ calls_of id evs = front_calls f.

Lemma other_step s N id op s' evs : timers_ok s N -> 0 <= N -> N + epochs op < 2 ^ 32 -> sys_op_ok s op -> id ∈ tm_owned s -> sys_other id op ->
  (forall ok, op <> sys_tick ok) -> timer_sys_step s op = Some (s', evs) ->
  id ∈ tm_owned s' /\ cur_time s' = cur_time s /\ back_after s' id = back_after s id /\ other_effect s s' id evs.
Proof.
  intros Hok H0 HN Hop Hown Hoth Hnt. destruct op as [x|j op|ok|k]; cbn [timer_sys_step]; [| |by destruct (Hnt ok)|].
  - destruct (create_unique_timer_ok s N x Hok H0) as (j & s1 & -> & _ & Hj & Ho & T & _ & _ & _ & Hfr).
    intros [= <- <-]. assert (id <> j) as Hne by congruence. destruct (Hfr id Hne) as (F1 & F2 & F3).
    split_and!; [rewrite Ho; by apply elem_of_union_r|done|unfold back_after; by rewrite F2, F3, T|by left].
  - destruct (unique_timer_op_ok s N j op Hok HN Hop) as (s1 & Hs1 & _ & [F1 F2 F3 F4 F5 F6]). rewrite Hs1. intros [= <- <-].
    assert (id <> j) as Hne by (cbn in Hoth; congruence).
    split_and!; [by eapply unique_timer_op_owned|done|unfold back_after; by rewrite F1, F2, F6|left; by rewrite F5].
  - destruct (tm_tasks s !! k) as [[j e]|] eqn:Ek; [|intros [= <- <-]; split_and!; [done..|by left]].
    destruct (run_task_ok s N k j e Hok Ek) as (s1 & evs1 & g & Hs & _ & Hg & T & L & P & Hcase). rewrite Hs. intros [= <- <-].
    apply run_task_owned in Hs. cbn in Hs.
    split_and!; [by rewrite Hs|done|unfold back_after; by rewrite L, P, T|]. unfold other_effect.
    destruct (decide (e = tf_cmd_id g)) as [->|]; [|destruct Hcase as [-> ->]; by left]. destruct Hcase as (Hr & -> & ->).
    destruct (decide (j = id)) as [->|Hne]; [right; exists g|left].
    + rewrite calls_of_own, lookup_insert_eq. split_and!; try done. unfold toks_of. apply list_elem_of_In, in_map_iff.
      exists (id, tf_cmd_id g). split; [done|]. apply list_elem_of_In, list_elem_of_filter. split; [done|]. by eapply list_elem_of_lookup_2.
    + by rewrite calls_of_foreign, lookup_insert_ne.
Qed.

(** Timer [id] was started with front-end [f]: it is due in [r] ticks, or its
    expiry is dispatched, or its callback was called. *)
Record live (s : timer_manager) (id : Z) (f : timer_frontend) (r : Z) : Prop := {
  lv_front : tm_frontends s !! id = Some f;
  lv_state : tf_state f = tm_running;
  lv_back : if decide (1 <= r)
            then tb_state (back_after s id) = tm_running /\ tb_cmd_id (back_after s id) = tf_cmd_id f
                 /\ u32 (tb_timeout (back_after s id) - cur_time s) = r
            else back_token (tf_cmd_id f) (back_after s id) = 0%nat;
}.

Inductive phase (s : timer_manager) (id : Z) (f : timer_frontend) (r : Z) : list Z -> Prop :=
  | phase_live : live s id f r -> phase s id f r []
  | phase_done : r <= 0 -> tm_frontends s !! id = Some (expired_front f) -> phase s id f r (front_calls f).

Lemma live_tokens s N id f r : timers_ok s N -> id ∈ tm_owned s -> live s id f r ->
  (tf_cmd_id f ∈ toks_of id (tm_tasks s ++ failed_to_trigger_timers s)) <-> r <= 0.
Proof.
  intros Hok Hown [L1 L2 L3]. destruct (timers_ok_local s N id f Hok Hown L1) as (_ & _ & Ht). rewrite decide_True in Ht by done.
  assert (tf_cmd_id f ∈ toks_of id (tm_tasks s ++ failed_to_trigger_timers s) <->
          filter (eq (tf_cmd_id f)) (toks_of id (tm_tasks s ++ failed_to_trigger_timers s)) <> []) as ->.
  { split.
    - intros Hin Hf. assert (tf_cmd_id f ∈ filter (eq (tf_cmd_id f)) (toks_of id (tm_tasks s ++ failed_to_trigger_timers s))) as H by (by apply list_elem_of_filter).
      rewrite Hf in H. by apply not_elem_of_nil in H.
    - destruct (filter _ _) as [|x l] eqn:E; [done|]. intros _.
      assert (x ∈ filter (eq (tf_cmd_id f)) (toks_of id (tm_tasks s ++ failed_to_trigger_timers s))) as Hx by (rewrite E; apply list_elem_of_here).
      by apply list_elem_of_filter in Hx as [-> Hx]. }
  unfold tokens in Ht. destruct (decide (1 <= r)).
  - destruct L3 as (L3 & L4 & _). unfold back_token in Ht. rewrite decide_True in Ht by done.
    destruct (filter _ (toks_of id _)); [|cbn in Ht; lia]. split; [done|lia].
  - rewrite L3 in Ht. destruct (filter _ (toks_of id _)); [done|]. split; [lia|done].
Qed.

(** A tick brings a timer one tick closer to its expiry. *)
Lemma live_tick ok s N id f r s' : timers_ok s N -> id ∈ tm_owned s -> live s id f r -> timer_tick ok s = Some s' -> live s' id f (r - 1).
Proof.
  intros Hok Hown [L1 L2 L3] Hs. destruct (timers_ok_local s N id f Hok Hown L1) as (Hid & Hnd & _).
  destruct (timer_tick_ok ok s N Hok) as (s1 & Hs1 & Hok1 & P1 & T1 & F1 & B1). assert (s1 = s') as -> by congruence.
  specialize (F1 _ _ L1). rewrite foldl_front_cmd in F1 by done. specialize (B1 id Hid).
  pose proof (ti_time _ _ _ _ (proj1 Hok)) as Hcur. pose proof (back_after_timeout s N id Hok) as Hto.
  assert (back_after s' id = back_of (timer_list s') id) as Ha by (unfold back_after; by rewrite P1). rewrite B1 in Ha.
  split; [done|done|]. rewrite Ha, T1. set (b := back_after s id) in *. destruct (decide (1 <= r)) as [Hr|Hr].
  - destruct L3 as (L3 & L4 & L5). specialize (Hto L3). unfold is_u32, u32 in *. destruct (decide (1 <= r - 1)) as [Hr1|Hr1].
    + rewrite decide_False by (intros [_ ?]; revert L5; mlia). split_and!; [done|done|]. revert L5. mlia.
    + rewrite decide_True by (split; [done|]; revert L5; mlia). unfold back_token. by rewrite decide_False by (by intros [? _]).
  - rewrite decide_False by lia. destruct (decide (tb_state b = _ /\ _)); [|done]. unfold back_token. by rewrite decide_False by (by intros [? _]).
Qed.

Definition left_after (r : Z) (op : timer_sys_op) : Z := if is_tick op then r - 1 else r.

Lemma phase_step s N id f r calls op s' evs : timers_ok s N -> 0 <= N -> N + epochs op < 2 ^ 32 -> sys_op_ok s op -> id ∈ tm_owned s -> sys_other id op ->
  phase s id f r calls -> timer_sys_step s op = Some (s', evs) ->
  id ∈ tm_owned s' /\ phase s' id f (left_after r op) (calls ++ calls_of id evs).
Proof.
  intros Hok H0 HN Hop Hown Hoth Hph Hs. destruct (is_tick op) eqn:Et; unfold left_after; rewrite Et.
  - destruct op as [| |ok|]; try done. cbn in Hs. destruct (timer_tick ok s) as [s1|] eqn:E; [|done]. injection Hs as <- <-.
    split; [by rewrite (timer_tick_owned _ _ _ E)|]. rewrite app_nil_r. destruct Hph as [Hl|Hr Hf].
    + apply phase_live. by eapply live_tick.
    + apply phase_done; [lia|]. destruct (timers_ok_local s N id _ Hok Hown Hf) as (Hid & Hnd & _).
      destruct (timer_tick_ok ok s N Hok) as (s2 & Hs2 & _ & _ & _ & F & _). assert (s2 = s1) as -> by congruence.
      specialize (F _ _ Hf). by rewrite foldl_front_cmd in F.
  - destruct (other_step s N id op s' evs) as (Ho & T & Hb & He); try done. { by intros ok ->. }
    split; [done|]. destruct Hph as [[L1 L2 L3]|Hr Hf], He as [[Hfr ->]|(g & Hg & Hrun & Htok & Hfr & ->)]; rewrite ?app_nil_r.
    + apply phase_live. split; [congruence|done|by rewrite Hb, T].
    + assert (g = f) as -> by congruence. apply phase_done; [|done]. eapply (live_tokens s N id f r); try done.
      rewrite toks_of_app. apply elem_of_app. by left.
    + apply phase_done; [done|congruence].
    + assert (g = expired_front f) as -> by congruence. done.
Qed.

Lemma phase_run ops : forall s N id f r calls s' evs, timers_ok s N -> 0 <= N -> N + nof_epochs ops < 2 ^ 32 -> sys_run_ok s ops ->
  id ∈ tm_owned s -> Forall (sys_other id) ops -> phase s id f r calls -> timer_sys_run s ops = Some (s', evs) ->
  id ∈ tm_owned s' /\ phase s' id f (r - nof_ticks ops) (calls ++ calls_of id evs).
Proof.
  induction ops as [|op ops IH]; intros s N id f r calls s' evs Hok H0 HN Hops Hown Hoth Hph Hrun; cbn [timer_sys_run] in Hrun.
  { injection Hrun as <- <-. split; [done|]. by rewrite app_nil_r, Z.sub_0_r. }
  apply Forall_cons_1 in Hoth as [Ho Hoth]. destruct Hops as [Hop Hops]. rewrite nof_epochs_cons in HN. pose proof (nof_epochs_nonneg ops). pose proof (epochs_nonneg op).
  destruct (timer_sys_step_ok s N op Hok H0 ltac:(lia) Hop) as (s1 & evs1 & Hs & Hok1). rewrite Hs in Hops, Hrun.
  destruct (timer_sys_run s1 ops) as [[s2 evs2]|] eqn:E; [|done]. injection Hrun as <- <-.
  destruct (phase_step s N id f r calls op s1 evs1) as [Ho1 Hp1]; try done; [lia|].
  destruct (IH s1 (N + epochs op) id f _ _ s2 evs2 Hok1 ltac:(lia) ltac:(lia) Hops Ho1 Hoth Hp1 E) as [Ho2 Hp2]. split; [done|].
  rewrite calls_of_app, app_assoc. replace (r - nof_ticks (op :: ops)) with (left_after r op - nof_ticks ops); [done|].
  unfold left_after, nof_ticks. cbn [List.filter]. destruct (is_tick op); cbn [length]; lia.
Qed.

(** ** Starting a timer *)
Definition started_front (f : timer_frontend) : timer_frontend :=
  TimerFrontend (tf_exec f) (u32 (tf_cmd_id f + 1)) tm_running (tf_duration f) (tf_callback f).

Lemma live_start s id f : id ∈ tm_owned s -> tm_frontends s !! id = Some f ->
  exists s', unique_timer_op s id op_run = Some s' /\ id ∈ tm_owned s' /\ live s' id (started_front f) (Z.max (u32 (tf_duration f)) 1).
Proof.
  intros Hown Hf. unfold unique_timer_op, timer_is_valid, frontend_run. rewrite bool_decide_true, Hf by done.
  eexists. split; [done|]. split; [done|]. split; [cbn; by rewrite lookup_insert_eq|done|].
  assert (forall a, back_after (push_timer_command a (TimerCmd id (u32 (tf_cmd_id f + 1)) timer_start (u32 (tf_duration f)))) id
          = TimerBackend (u32 (tf_cmd_id f + 1)) tm_running (u32 (cur_time a + Z.max (u32 (tf_duration f)) 1))) as Hb.
  { intros a. unfold back_after. cbn [pending_cmds push_timer_command tm_with_pending]. rewrite cmds_of_app, cmds_of_command. cbn [tc_id].
    rewrite Z.eqb_refl, foldl_app. done. }
  rewrite decide_True by lia. rewrite Hb. split_and!; [done|done|]. cbn.
  pose proof (u32_is_u32 (tf_duration f)). unfold is_u32, u32 in *. mlia.
Qed.

(** ** Executors that take their tasks *)
Lemma trigger_accept s h b s' : trigger_timeout_handling (fun _ => true) s h = Some (b, s') ->
  b = true /\ failed_to_trigger_timers s' = failed_to_trigger_timers s.
Proof.
  unfold trigger_timeout_handling. destruct (th_frontend h) as [fid|]; [|done]. destruct (tm_frontends s !! fid) as [f|]; [|done].
  destruct (tf_exec f); [|done]. by intros [= <- <-].
Qed.
Lemma postponed_accept failed : forall s s', handle_postponed_timeouts (fun _ => true) s failed = Some s' -> failed_to_trigger_timers s' = [].
Proof.
  induction failed as [|[id e] failed IH]; intros s s'; cbn [handle_postponed_timeouts]; [by intros [= <-]|].
  destruct (get_handle s id) as [h|]; [|done]. destruct (th_frontend h) as [fid|]; [|done].
  destruct (tm_frontends s !! fid) as [f|]; [|done]. destruct (_ && _); [|apply IH].
  destruct (trigger_timeout_handling _ s h) as [[b s1]|] eqn:E; [|done]. apply trigger_accept in E as [-> _]. apply IH.
Qed.
Lemma expire_accept bucket : forall s s', expire_bucket (fun _ => true) s bucket = Some s' -> failed_to_trigger_timers s' = failed_to_trigger_timers s.
Proof.
  induction bucket as [|id bucket IH]; intros s s'; cbn [expire_bucket]; [by intros [= <-]|].
  destruct (get_handle s id) as [h|] eqn:Eh; [|done]. destruct (bool_decide _); [done|]. destruct (negb _); [apply IH|].
  destruct (stop_timer_backend _ s id) as [s1|] eqn:E; [|done]. intros H%IH. rewrite H.
  unfold stop_timer_backend, try_stop_timer_backend in E. rewrite Eh in E. destruct (bool_decide _); [|done]. cbn [negb] in E.
  destruct (th_frontend h) as [fid|]; [|done]. cbn [tm_frontends tm_with_back] in E.
  destruct (tm_frontends s !! fid) as [f|]; [|done]. destruct (_ =? _); [|by injection E as <-].
  destruct (trigger_timeout_handling _ _ _) as [[b s2]|] eqn:E2; [|done]. apply trigger_accept in E2 as [-> Ef]. injection E as <-. done.
Qed.
Lemma timer_tick_accept s s' : timer_tick (fun _ => true) s = Some s' -> failed_to_trigger_timers s' = [].
Proof.
  unfold timer_tick. destruct (process_events _ _ _) as [s1|]; [|done].
  destruct (handle_postponed_timeouts _ _ _) as [s2|] eqn:E2; [|done]. intros ->%expire_accept. by apply postponed_accept in E2.
Qed.

(** Running the queued tasks in order. *)
Definition run_tasks (n : nat) : list timer_sys_op := replicate n (sys_task 0).
Lemma run_task_queue s k s' evs t : tm_tasks s !! k = Some t -> timer_sys_step s (sys_task k) = Some (s', evs) ->
  tm_tasks s' = delete k (tm_tasks s) /\ failed_to_trigger_timers s' = failed_to_trigger_timers s.
Proof.
  intros Hk. cbn [timer_sys_step]. rewrite Hk. unfold run_task. destruct t as [id e]. destruct (tm_frontends _ !! id) as [f|]; [|done].
  destruct (_ =? _); [|by intros [= <- <-]]. destruct (bool_decide _); [|done]. by intros [= <- <-].
Qed.
Lemma run_tasks_queue n : forall s s' evs, length (tm_tasks s) = n -> timer_sys_run s (run_tasks n) = Some (s', evs) ->
  tm_tasks s' = [] /\ failed_to_trigger_timers s' = failed_to_trigger_timers s.
Proof.
  induction n as [|n IH]; intros s s' evs Hn; cbn [run_tasks replicate timer_sys_run].
  - intros [= <- <-]. by destruct (tm_tasks s).
  - destruct (tm_tasks s) as [|t ts] eqn:Et; [done|]. destruct (timer_sys_step s (sys_task 0)) as [[s1 e1]|] eqn:E; [|done].
    apply (run_task_queue s 0 _ _ t) in E as [E1 E2]; [|by rewrite Et]. fold (run_tasks n).
    destruct (timer_sys_run s1 (run_tasks n)) as [[s2 e2]|] eqn:E3; [|done]. intros [= <- <-].
    rewrite Et in E1. cbn in E1. apply IH in E3 as [H1 H2]; [|rewrite E1; cbn in Hn; lia]. split; [done|congruence].
Qed.
Lemma sys_run_ok_tasks n : forall s, sys_run_ok s (run_tasks n).
Proof. 
  induction n as [|n IH]; intros s; [done|]. cbn [run_tasks replicate sys_run_ok]. split; [done|].
  destruct (timer_sys_step s (sys_task 0)) as [[s' evs]|]; [apply IH|done].
Qed.

(** ** Quiet timers *)

(** A timer that does not run stays so until its handle starts it, and its
    callback is not called. *)
Definition quiet (s : timer_manager) (id : Z) : Prop := exists f, tm_frontends s !! id = Some f /\ tf_state f <> tm_running.

Lemma quiet_foldl f cmds : tf_state f <> tm_running -> tf_state (foldl front_cmd f cmds) <> tm_running.
Proof. revert f. induction cmds as [|c cmds IH]; intros f Hf; [done|]. cbn. apply IH. unfold front_cmd. by destruct (decide _). Qed.

Lemma quiet_step s N id op s' evs : timers_ok s N -> 0 <= N -> N + epochs op < 2 ^ 32 -> sys_op_ok s op -> sys_other id op ->
  quiet s id -> timer_sys_step s op = Some (s', evs) -> quiet s' id /\ calls_of id evs = [].
Proof.
  intros Hok H0 HN Hop Hoth (f & Hf & Hfr). unfold quiet. destruct op as [x|j op|ok|k]; cbn [timer_sys_step].
  - destruct (create_unique_timer_ok s N x Hok H0) as (j & s1 & -> & _ & _ & _ & _ & _ & _ & Hg & Hframe).
    intros [= <- <-]. split; [|done]. destruct (decide (id = j)) as [->|Hne]; [done|].
    destruct (Hframe id Hne) as [F _]. rewrite F. by exists f.
  - destruct (unique_timer_op_ok s N j op Hok HN Hop) as (s1 & -> & _ & [_ _ _ _ F5 _]). intros [= <- <-].
    split; [|done]. exists f. by rewrite F5 by (cbn in Hoth; congruence).
  - destruct (timer_tick_ok ok s N Hok) as (s1 & -> & _ & _ & _ & F & _). intros [= <- <-]. split; [|done].
    eexists. split; [by apply F|by apply quiet_foldl].
  - destruct (tm_tasks s !! k) as [[j e]|] eqn:Ek; [|intros [= <- <-]; split; [by exists f|done]].
    destruct (run_task_ok s N k j e Hok Ek) as (s1 & evs1 & g & -> & _ & Hg & _ & _ & _ & Hcase). intros [= <- <-].
    destruct (decide (e = tf_cmd_id g)) as [->|]; [|destruct Hcase as [Hfs ->]; split; [exists f; by rewrite Hfs|done]].
    destruct Hcase as (Hr & Hfs & ->). assert (j <> id) as Hne by congruence. rewrite calls_of_foreign by done. split; [|done].
    exists f. by rewrite Hfs, lookup_insert_ne.
Qed.

Lemma quiet_run ops : forall s N id s' evs, timers_ok s N -> 0 <= N -> N + nof_epochs ops < 2 ^ 32 -> sys_run_ok s ops ->
  Forall (sys_other id) ops -> quiet s id -> timer_sys_run s ops = Some (s', evs) -> quiet s' id /\ calls_of id evs = [].
Proof.
  induction ops as [|op ops IH]; intros s N id s' evs Hok H0 HN Hops Hoth Hq Hrun; cbn [timer_sys_run] in Hrun.
  { by injection Hrun as <- <-. }
  apply Forall_cons_1 in Hoth as [Ho Hoth]. destruct Hops as [Hop Hops]. rewrite nof_epochs_cons in HN. pose proof (nof_epochs_nonneg ops). pose proof (epochs_nonneg op).
  destruct (timer_sys_step_ok s N op Hok H0 ltac:(lia) Hop) as (s1 & evs1 & Hs & Hok1). rewrite Hs in Hops, Hrun.
  destruct (timer_sys_run s1 ops) as [[s2 evs2]|] eqn:E; [|done]. injection Hrun as <- <-.
  destruct (quiet_step s N id op s1 evs1) as [Hq1 He1]; try done; [lia|].
  destruct (IH s1 (N + epochs op) id s2 evs2 Hok1 ltac:(lia) ltac:(lia) Hops Hoth Hq1 E) as [Hq2 He2].
  by rewrite calls_of_app, He1, He2.
Qed.

(** A stop or a reset of a valid handle leaves its timer quiet. *)
Lemma quiet_stop s N id op s' : timers_ok s N -> id ∈ tm_owned s -> op = op_stop \/ op = op_reset ->
  unique_timer_op s id op = Some s' -> quiet s' id.
Proof.
  intros [Hinv _] Hown Hop. destruct (proj2 (ti_fronts _ _ _ _ Hinv id) (ti_owned _ _ _ _ Hinv _ Hown)) as [f Hf].
  unfold unique_timer_op, timer_is_running, timer_is_valid, frontend_stop, frontend_destroy, quiet. rewrite (bool_decide_true (id ∈ _)) by done. rewrite Hf.
  destruct Hop as [-> | ->]; cbn [andb].
  - case_bool_decide as Hr; intros [= <-]; [|by exists f]. cbn. rewrite lookup_insert_eq. by eexists.
  - intros [= <-]. cbn. rewrite lookup_insert_eq. by eexists.
Qed.

(** ** Properties *)

(** A run from the start: the state before the operations of interest. *)
Definition timers_reach (capacity : nat) (pre : list timer_sys_op) (s : timer_manager) : Prop :=
  sys_run_ok (timer_manager_new capacity) pre /\ option_map fst (timer_sys_run (timer_manager_new capacity) pre) = Some s.

Lemma timers_reach_ok capacity pre s : nof_epochs pre < 2 ^ 32 -> timers_reach capacity pre s -> timers_ok s (nof_epochs pre).
Proof.
  intros Hlen [Hpre Hs]. destruct (timer_sys_run_ok pre _ 0 (timers_ok_new capacity) ltac:(lia) Hlen Hpre) as (s' & evs' & Hs' & Hok).
  rewrite Hs' in Hs. by injection Hs as <-.
Qed.

(** C22: the timer manager never fails one of its assertions and never touches an object that does not exist: in any
    interleaving of timer creations, handle operations (fewer than 2^32), ticks with executors that take or refuse
    tasks, and deferred tasks, every step succeeds; afterwards the count of running timers is exact, every bucket of
    the wheel holds exactly the running timers with that timeout, without repetition, and none is overdue. *)
Theorem timers_run_safe capacity ops :
  nof_epochs ops < 2 ^ 32 -> sys_run_ok (timer_manager_new capacity) ops ->
  exists s evs, timer_sys_run (timer_manager_new capacity) ops = Some (s, evs)
    /\ nof_timers_running s = Z.of_nat (length (filter th_running (timer_list s)))
    /\ (forall i, NoDup (wheel_at (time_wheel s) i))
    /\ (forall id i, id ∈ wheel_at (time_wheel s) i <-> 0 <= id /\ exists h, timer_list s !! Z.to_nat id = Some h /\ th_running h
          /\ tb_timeout (th_backend h) mod WHEEL_SIZE = i)
    /\ none_due s.
Proof.
  intros Hlen Hops. destruct (timer_sys_run_ok ops _ 0 (timers_ok_new capacity) ltac:(lia) Hlen Hops) as (s & evs & -> & [Hinv Hdue]).
  exists s, evs. destruct (ti_wheel _ _ _ _ Hinv). by split_and!.
Qed.

Lemma phase_expired s N id f r calls : timers_ok s N -> id ∈ tm_owned s -> phase s id f r calls -> r <= 0 ->
  (timer_has_expired s id = true /\ calls = front_calls f)
  \/ (timer_is_running s id = true /\ calls = [] /\ (id, tf_cmd_id f) ∈ tm_tasks s ++ failed_to_trigger_timers s).
Proof.
  intros Hok Hown Hph Hr. unfold timer_has_expired, timer_is_running, timer_is_valid. rewrite bool_decide_true by done.
  destruct Hph as [Hl|_ Hf]; [right|left; by rewrite Hf]. apply (live_tokens s N id f r Hok Hown Hl) in Hr as Htok. destruct Hl as [L1 L2 _].
  rewrite L1, L2. split_and!; [done|done|]. unfold toks_of in Htok. apply list_elem_of_In, in_map_iff in Htok as ([j e] & He & Hin).
  apply list_elem_of_In, list_elem_of_filter in Hin as [Hj Hin]. cbn in He, Hj. by subst.
Qed.
Lemma phase_early s id f r calls : id ∈ tm_owned s -> phase s id f r calls -> 0 < r -> timer_is_running s id = true /\ calls = [].
Proof.
  intros Hown [[L1 L2 _]|] Hr; [|lia]. unfold timer_is_running, timer_is_valid. by rewrite bool_decide_true, L1, L2.
Qed.

(** A tick with executors that take their tasks, then the tasks: nothing is left to dispatch. *)
Lemma phase_drain s N id f r calls s1 : timers_ok s N -> 0 <= N < 2 ^ 32 -> id ∈ tm_owned s -> phase s id f r calls -> r <= 0 ->
  timer_tick (fun _ => true) s = Some s1 ->
  exists s2 evs, timer_sys_run s1 (run_tasks (length (tm_tasks s1))) = Some (s2, evs)
    /\ timer_has_expired s2 id = true /\ calls ++ calls_of id evs = front_calls f.
Proof.
  intros Hok HN Hown Hph Hr Ht. assert (timer_sys_step s (sys_tick (fun _ => true)) = Some (s1, [])) as Hs by (cbn; by rewrite Ht).
  destruct (timer_sys_step_ok s N (sys_tick (fun _ => true)) Hok ltac:(lia) ltac:(cbn; lia) I) as (s1' & evs1 & Hs1 & Hok1).
  assert (s1' = s1) as -> by congruence. cbn in Hok1. rewrite Z.add_0_r in Hok1.
  destruct (phase_step s N id f r calls (sys_tick (fun _ => true)) s1 [] Hok ltac:(lia) ltac:(cbn; lia) I Hown I Hph Hs) as [Hown1 Hph1].
  change (calls_of id []) with ([] : list Z) in Hph1. rewrite app_nil_r in Hph1. cbn [left_after is_tick] in Hph1.
  set (n := length (tm_tasks s1)). assert (nof_epochs (run_tasks n) = 0) as Hn.
  { clear. induction n as [|n IH]; [done|]. change (run_tasks (S n)) with (sys_task 0 :: run_tasks n). by rewrite nof_epochs_cons, IH. }
  destruct (timer_sys_run_ok (run_tasks n) s1 N Hok1 ltac:(lia) ltac:(lia) (sys_run_ok_tasks _ _)) as (s2 & evs & Hrun & Hok2).
  exists s2, evs. split; [done|].
  destruct (phase_run (run_tasks n) s1 N id f (r - 1) calls s2 evs) as [Hown2 Hph2]; try done; [lia|lia|apply sys_run_ok_tasks| |].
  { apply Forall_replicate. done. }
  apply run_tasks_queue in Hrun as [Q1 Q2]; [|done]. apply timer_tick_accept in Ht. rewrite Ht in Q2.
  assert (0 <= nof_ticks (run_tasks n)) by (unfold nof_ticks; lia).
  destruct (phase_expired s2 _ id f _ _ Hok2 Hown2 Hph2 ltac:(lia)) as [[He1 He2]|(_ & _ & Hin)]; [done|].
  rewrite Q1, Q2 in Hin. by apply not_elem_of_nil in Hin.
Qed.

(** C23: a timer expires in time and only then.  After a valid handle is started, in every continuation that does not
    use that handle: while fewer ticks than the duration (at least one) have happened, the timer is running and its
    callback was not called; from then on its callback was called exactly once, or the timer is running and the task
    that calls it is waiting, and then one more tick with executors that take their tasks, followed by the queued
    tasks, has it called exactly once, whatever the executors refused before. *)
Theorem timer_expires_on_time capacity pre s id f ops :
  timers_reach capacity pre s -> id ∈ tm_owned s -> tm_frontends s !! id = Some f ->
  sys_run_ok s (sys_timer id op_run :: ops) -> Forall (sys_other id) ops -> nof_epochs pre + nof_epochs ops + 1 < 2 ^ 32 ->
  let d := Z.max (u32 (tf_duration f)) 1 in
  exists s' evs, timer_sys_run s (sys_timer id op_run :: ops) = Some (s', evs)
    /\ (nof_ticks ops < d -> timer_is_running s' id = true /\ calls_of id evs = [])
    /\ (d <= nof_ticks ops ->
          ((timer_has_expired s' id = true /\ calls_of id evs = option_list (tf_callback f))
           \/ (timer_is_running s' id = true /\ calls_of id evs = [] /\ exists c, (id, c) ∈ tm_tasks s' ++ failed_to_trigger_timers s'))
          /\ exists s1 s2 evs2, timer_tick (fun _ => true) s' = Some s1
               /\ timer_sys_run s1 (run_tasks (length (tm_tasks s1))) = Some (s2, evs2)
               /\ timer_has_expired s2 id = true /\ calls_of id (evs ++ evs2) = option_list (tf_callback f)).
Proof.
  intros Hreach Hown Hf Hops Hoth HN d. pose proof (nof_epochs_nonneg pre). pose proof (nof_epochs_nonneg ops).
  pose proof (timers_reach_ok capacity pre s ltac:(lia) Hreach) as Hok. set (N := nof_epochs pre) in *.
  destruct (timer_sys_run_ok (sys_timer id op_run :: ops) s N Hok ltac:(lia) ltac:(rewrite nof_epochs_cons; cbn; lia) Hops) as (s' & evs & Hrun & Hok').
  exists s', evs. split; [done|]. destruct (live_start s id f Hown Hf) as (s0 & Hs0 & Hown0 & Hl).
  destruct Hops as [Hop Hops]. cbn [timer_sys_run] in Hrun.
  destruct (timer_sys_step_ok s N (sys_timer id op_run) Hok ltac:(lia) ltac:(cbn; lia) Hop) as (s0' & ev0 & Hs0' & Hok0). rewrite Hs0' in Hops, Hrun.
  cbn [timer_sys_step] in Hs0'. rewrite Hs0 in Hs0'. injection Hs0' as <- <-.
  destruct (timer_sys_run s0 ops) as [[s2 evs2]|] eqn:Hrun0; [|done]. injection Hrun as <- <-. cbn [app].
  apply phase_live in Hl. cbn [epochs is_handle_op] in Hok0.
  destruct (phase_run ops s0 _ id _ _ _ s2 evs2 Hok0 ltac:(lia) ltac:(lia) Hops Hown0 Hoth Hl Hrun0) as [Hown2 Hph].
  fold d in Hph. cbn [app] in Hph. rewrite nof_epochs_cons in Hok'. cbn [epochs is_handle_op] in Hok'. split.
  - intros Hd. eapply phase_early; [done|exact Hph|lia].
  - intros Hd. split.
    + destruct (phase_expired _ _ _ _ _ _ Hok' Hown2 Hph ltac:(lia)) as [H1|(H1 & H2 & H3)]; [by left|right]. split_and!; [done|done|by eexists].
    + destruct (timer_tick_ok (fun _ => true) _ _ Hok') as (s3 & Hs3 & _).
      destruct (phase_drain _ _ _ _ _ _ _ Hok' ltac:(lia) Hown2 Hph ltac:(lia) Hs3) as (s4 & evs4 & H1 & H2 & H3).
      exists s3, s4, evs4. rewrite calls_of_app. done.
Qed.

(** A stopped or released timer is silent.  After [stop] or [reset] of a valid handle, whatever was dispatched
    before, no continuation that does not use that handle calls the callback of that timer, and it does not run. *)
Theorem timer_stop_is_final capacity pre s id op ops :
  timers_reach capacity pre s -> id ∈ tm_owned s -> op = op_stop \/ op = op_reset ->
  sys_run_ok s (sys_timer id op :: ops) -> Forall (sys_other id) ops -> nof_epochs pre + nof_epochs ops + 1 < 2 ^ 32 ->
  exists s' evs, timer_sys_run s (sys_timer id op :: ops) = Some (s', evs) /\ calls_of id evs = [] /\ timer_is_running s' id = false.
Proof.
  intros Hreach Hown Hsr Hops Hoth HN. pose proof (nof_epochs_nonneg pre). pose proof (nof_epochs_nonneg ops).
  pose proof (timers_reach_ok capacity pre s ltac:(lia) Hreach) as Hok. set (N := nof_epochs pre) in *.
  destruct (timer_sys_run_ok (sys_timer id op :: ops) s N Hok ltac:(lia) ltac:(rewrite nof_epochs_cons; cbn; lia) Hops) as (s' & evs & Hrun & _).
  exists s', evs. split; [done|]. destruct Hops as [Hop Hops]. cbn [timer_sys_run] in Hrun.
  destruct (timer_sys_step_ok s N (sys_timer id op) Hok ltac:(lia) ltac:(cbn; lia) Hop) as (s0 & ev0 & Hs0 & Hok0). rewrite Hs0 in Hops, Hrun.
  cbn [timer_sys_step] in Hs0. destruct (unique_timer_op s id op) as [s0'|] eqn:Hs; [|done]. injection Hs0 as -> <-.
  destruct (timer_sys_run s0 ops) as [[s2 evs2]|] eqn:Hrun0; [|done]. injection Hrun as <- <-. cbn [app]. cbn [epochs is_handle_op] in Hok0.
  destruct (quiet_run ops s0 _ id s2 evs2 Hok0 ltac:(lia) ltac:(lia) Hops Hoth) as [(g & Hg & Hgr) He]; [exact (quiet_stop s N id op s0 Hok Hown Hsr Hs)|done|].
  split; [done|]. unfold timer_is_running. rewrite Hg, bool_decide_false by done. apply andb_false_r.
Qed.

(** ** Concrete runs *)
Definition demo_pre : list timer_sys_op := [sys_create 0; sys_create 0; sys_timer 0 (op_set 3 (Some 7)); sys_timer 1 (op_set 2 (Some 8)); sys_timer 1 op_run].
Definition demo_state : timer_manager := default (timer_manager_new 0) (option_map fst (timer_sys_run (timer_manager_new 1) demo_pre)).
(** The executor refuses the expiry of timer 0 while timer 1 is stopped and started again. *)
Definition demo_ops : list timer_sys_op :=
  [sys_tick (fun _ => true); sys_timer 1 op_stop; sys_tick (fun _ => true); sys_timer 1 op_run; sys_tick (fun _ => false); sys_task 0].
Definition demo_front : timer_frontend := TimerFrontend (Some 0) 1 tm_stopped 3 (Some 7).

Lemma demo_reach : timers_reach 1 demo_pre demo_state.
Proof. split; [|by vm_compute]. by apply (bool_decide_unpack _); vm_compute. Qed.

Lemma timers_run_safe_witness :
  exists s evs, timer_sys_run (timer_manager_new 1) (demo_pre ++ demo_ops) = Some (s, evs)
    /\ nof_timers_running s = Z.of_nat (length (filter th_running (timer_list s))) /\ none_due s.
Proof.
  destruct (timers_run_safe 1 (demo_pre ++ demo_ops)) as (s & evs & H1 & H2 & _ & _ & H3).
  - vm_compute. reflexivity.
  - apply (bool_decide_unpack _). vm_compute. exact I.
  - exists s, evs. exact (conj H1 (conj H2 H3)).
Defined.

Lemma timer_expires_on_time_witness :
  exists s' evs s1 s2 evs2, timer_sys_run demo_state (sys_timer 0 op_run :: demo_ops) = Some (s', evs)
    /\ timer_tick (fun _ => true) s' = Some s1 /\ timer_sys_run s1 (run_tasks (length (tm_tasks s1))) = Some (s2, evs2)
    /\ timer_has_expired s2 0 = true /\ calls_of 0 (evs ++ evs2) = [7].
Proof.
  destruct (timer_expires_on_time 1 demo_pre demo_state 0 demo_front demo_ops) as (s' & evs & H1 & _ & H2).
  - exact demo_reach.
  - apply (bool_decide_unpack _). vm_compute. exact I.
  - vm_compute. reflexivity.
  - apply (bool_decide_unpack _). vm_compute. exact I.
  - repeat constructor; discriminate.
  - vm_compute. reflexivity.
  - destruct H2 as [_ (s1 & s2 & evs2 & H3 & H4 & H5 & H6)]; [vm_compute; discriminate|].
    exists s', evs, s1, s2, evs2. exact (conj H1 (conj H3 (conj H4 (conj H5 H6)))).
Defined.

(** The expiry of timer 1 is dispatched but its handle is stopped before the task runs. *)
Definition demo_late : list timer_sys_op := [sys_tick (fun _ => true); sys_tick (fun _ => true)].
Definition demo_late_state : timer_manager :=
  default (timer_manager_new 0) (option_map fst (timer_sys_run (timer_manager_new 1) (demo_pre ++ demo_late))).
Lemma timer_stop_is_final_witness :
  tm_tasks demo_late_state = [(1, 2)] /\
  exists s' evs, timer_sys_run demo_late_state [sys_timer 1 op_stop; sys_task 0; sys_tick (fun _ => true)] = Some (s', evs)
    /\ calls_of 1 evs = [] /\ timer_is_running s' 1 = false.
Proof.
  split; [vm_compute; reflexivity|].
  apply (timer_stop_is_final 1 (demo_pre ++ demo_late) demo_late_state 1 op_stop).
  - split; [|vm_compute; reflexivity]. apply (bool_decide_unpack _). vm_compute. exact I.
  - apply (bool_decide_unpack _). vm_compute. exact I.
  - by left.
  - apply (bool_decide_unpack _). vm_compute. exact I.
  - repeat constructor.
  - vm_compute. reflexivity.
Defined.
