(* ===== verification/Gtpu.v ===== *)
(** * GTP-U

    [lib/gtpu/gtpu_pdu.h], [lib/gtpu/gtpu_pdu.cpp]: the GTP-U header with its
    extension headers, written and read with the bit encoder and decoder;
    [lib/gtpu/gtpu_tunnel_tx_impl.h], [lib/gtpu/gtpu_tunnel_rx_impl.h]: the two
    ends of a tunnel; [lib/gtpu/gtpu_demux_impl.cpp]: the demultiplexer of the
    CU-UP, and the allocation of TEIDs of
    [lib/cu_up/pdu_session_manager_impl.cpp].

    [None] is a failed assertion; refused PDUs are values. *)
From S2P Require Import Prelude BitEncoding.

Definition GTPU_BASE_HEADER_LEN : Z := 8.
Definition GTPU_EXTENDED_HEADER_LEN : Z := 12.
Definition GTPU_FLAGS_VERSION_V1 : Z := 1.
Definition GTPU_FLAGS_GTP_PROTOCOL : Z := 1.

Definition GTPU_MSG_ECHO_REQUEST : Z := 1.
Definition GTPU_MSG_ECHO_RESPONSE : Z := 2.
Definition GTPU_MSG_ERROR_INDICATION : Z := 26.
Definition GTPU_MSG_END_MARKER : Z := 254.
Definition GTPU_MSG_DATA_PDU : Z := 255.

(** [gtpu_extension_header_type]: any byte, with these names. *)
Definition no_more_extension_headers : Z := 0x00.
Definition reserved_0 : Z := 0x01.
Definition reserved_1 : Z := 0x02.
Definition pdu_session_container : Z := 0x85.
Definition pdcp_pdu_number : Z := 0xc0.
Definition reserved_2 : Z := 0xc1.
Definition reserved_3 : Z := 0xc2.

Record gtpu_extension_header := GtpuExt { gx_type : Z; gx_length : Z; gx_container : bytes }.

Record gtpu_flags := GtpuFlags { gf_version : Z; gf_protocol_type : Z; gf_ext_hdr : bool; gf_seq_number : bool; gf_n_pdu : bool }.
Record gtpu_header := GtpuHeader {
  gh_flags : gtpu_flags;
  gh_message_type : Z;
  gh_length : Z;
  gh_teid : Z;
  gh_seq_number : Z;
  gh_n_pdu : Z;
  gh_next_ext_hdr_type : Z;
  gh_ext_list : list gtpu_extension_header;
}.
Definition gtpu_header_default : gtpu_header := GtpuHeader (GtpuFlags 1 0 false false false) 0 0 0 0 0 no_more_extension_headers [].

(** ** Checks *)
Definition gtpu_supported_flags_check (f : gtpu_flags) : bool :=
  if negb (gf_version f =? GTPU_FLAGS_VERSION_V1) then false
  else if negb (gf_protocol_type f =? GTPU_FLAGS_GTP_PROTOCOL) then false
  else negb (gf_n_pdu f).

Definition gtpu_supported_msg_type_check (h : gtpu_header) : bool :=
  let t := gh_message_type h in
  (t =? GTPU_MSG_DATA_PDU) || (t =? GTPU_MSG_ECHO_REQUEST) || (t =? GTPU_MSG_ECHO_RESPONSE)
  || (t =? GTPU_MSG_ERROR_INDICATION) || (t =? GTPU_MSG_END_MARKER).

Definition gtpu_extension_header_comprehension_check (t : Z) : bool :=
  if (t =? no_more_extension_headers) || (t =? pdu_session_container) || (t =? pdcp_pdu_number) then true
  else if (t =? reserved_0) || (t =? reserved_1) || (t =? reserved_2) || (t =? reserved_3) then false
  else
    let comp := Z.shiftr t 6 in
    negb ((comp =? 2) || (comp =? 3)).

(** ** Writing *)
Definition gtpu_write_ext_header (e : bit_encoder) (ext : gtpu_extension_header) (next : Z) : option bit_encoder :=
  let payload := u8 (1 + blen (gx_container ext) + 1) in
  if payload mod 4 =? 0 then
    pack_fields e ((payload / 4, 8) :: map (fun b => (b, 8)) (gx_container ext) ++ [(next, 8)])
  else None.

Fixpoint gtpu_write_ext_list (e : bit_encoder) (l : list gtpu_extension_header) : option bit_encoder :=
  match l with
  | [] => Some e
  | ext :: rest =>
      let next := match rest with [] => no_more_extension_headers | x :: _ => gx_type x end in
      let* e := gtpu_write_ext_header e ext next in gtpu_write_ext_list e rest
  end.

Definition flag_bit (b : bool) : Z := if b then 1 else 0.
Definition has_optional_fields (f : gtpu_flags) : bool := gf_ext_hdr f || gf_seq_number f || gf_n_pdu f.

(** The PDU with its header, or [None] for a header that is refused. *)
Definition gtpu_write_header (pdu : bytes) (h : gtpu_header) : option (option bytes) :=
  if negb (gtpu_supported_flags_check (gh_flags h)) then Some None
  else if negb (gtpu_supported_msg_type_check h) then Some None
  else
    let f := gh_flags h in
    let* e := pack_fields (bit_encoder_new [])
      [(gf_version f, 3); (gf_protocol_type f, 1); (0, 1); (flag_bit (gf_ext_hdr f), 1); (flag_bit (gf_seq_number f), 1);
       (flag_bit (gf_n_pdu f), 1); (gh_message_type h, 8); (gh_length h, 16); (gh_teid h, 32)] in
    let* e := if has_optional_fields f
              then pack_fields e [(gh_seq_number h, 16); (gh_n_pdu h, 8); (gh_next_ext_hdr_type h, 8)] else Some e in
    let* e := gtpu_write_ext_list e (gh_ext_list h) in
    Some (Some (enc_writer e ++ pdu)).

(** ** Reading *)

(** [decoder.unpack(val, n_bits)] with the result ignored. *)
Definition dec_field (d : bit_decoder) (n_bits : Z) : Z * bit_decoder :=
  match bit_unpack d n_bits with Some (_, v, d) => (v, d) | None => (0, d) end.

(** [teid |= *pdu_reader << (i * 8)] *)
Definition gtpu_read_teid (pdu : bytes) : option Z :=
  if blen pdu <? GTPU_BASE_HEADER_LEN then None
  else
    match bdrop 4 pdu with
    | b3 :: b2 :: b1 :: b0 :: _ =>
        Some (Z.lor (Z.lor (Z.lor (u32 (Z.shiftl b3 24)) (Z.shiftl b2 16)) (Z.shiftl b1 8)) b0)
    | _ => None
    end.

Fixpoint read_container (n : nat) (d : bit_decoder) : bytes * bit_decoder :=
  match n with
  | O => ([], d)
  | S n =>
      let (b, d) := dec_field d 8 in
      let (c, d) := read_container n d in (b :: c, d)
  end.

Definition gtpu_unpack_ext_header_type (d : bit_decoder) : Z * bit_decoder := dec_field d 8.

(** The extension header and the type of the next one. *)
Definition gtpu_read_ext_header (d : bit_decoder) (type : Z) : gtpu_extension_header * Z * bit_decoder :=
  let (len, d) := dec_field d 8 in
  let payload := u16 (len * 4 - 2) in
  let (c, d) := read_container (Z.to_nat payload) d in
  let (next, d) := gtpu_unpack_ext_header_type d in
  (GtpuExt type len c, next, d).

(** The [do] loop over the extension headers.  Every iteration but the last one
    reads at least one byte, so the number of bytes bounds the iterations. *)
Fixpoint read_ext_list (fuel : nat) (d : bit_decoder) (type : Z) (acc : list gtpu_extension_header)
    : option (list gtpu_extension_header * bit_decoder) :=
  match fuel with
  | O => None
  | S fuel =>
      if negb (gtpu_extension_header_comprehension_check type) then None
      else
        let '(ext, next, d) := gtpu_read_ext_header d type in
        let acc := acc ++ [ext] in
        if next =? no_more_extension_headers then Some (acc, d) else read_ext_list fuel d next acc
  end.

(** [decoder.nof_bytes()] for a decoder of [pdu]. *)
Definition dec_nof_bytes (pdu : bytes) (d : bit_decoder) : Z :=
  blen pdu - blen (dec_rest d) + (if dec_offset d =? 0 then 0 else 1).

(** The fields of the first byte. *)
Definition gtpu_read_flags (d : bit_decoder) : gtpu_flags * bit_decoder :=
  let (version, d) := dec_field d 3 in
  let (pt, d) := dec_field d 1 in
  let (_, d) := dec_field d 1 in
  let (ext, d) := dec_field d 1 in
  let (s, d) := dec_field d 1 in
  let (pn, d) := dec_field d 1 in
  (GtpuFlags version pt (negb (ext =? 0)) (negb (s =? 0)) (negb (pn =? 0)), d).

Definition gtpu_read_and_strip_header (pdu : bytes) : option (gtpu_header * bytes) :=
  if blen pdu <? GTPU_BASE_HEADER_LEN then None
  else
    let (f, d) := gtpu_read_flags (bit_decoder_new pdu) in
    if negb (gtpu_supported_flags_check f) then None
    else
      let (msg_type, d) := dec_field d 8 in
      let (len, d) := dec_field d 16 in
      let (teid, d) := dec_field d 32 in
      let* (seq, npdu, next, d) :=
        if has_optional_fields f then
          if blen pdu <? GTPU_EXTENDED_HEADER_LEN then None
          else
            let (seq, d) := dec_field d 16 in
            let (npdu, d) := dec_field d 8 in
            let (next, d) := gtpu_unpack_ext_header_type d in
            if negb (gtpu_extension_header_comprehension_check next) then None else Some (seq, npdu, next, d)
        else Some (0, 0, no_more_extension_headers, d) in
      let* (exts, d) :=
        if gf_ext_hdr f then
          if next =? no_more_extension_headers then None
          else read_ext_list (S (length pdu)) d next []
        else Some ([], d) in
      Some (GtpuHeader f msg_type len teid seq npdu next exts, bdrop (dec_nof_bytes pdu d) pdu).

(** ** Tunnels *)

(** [gtpu_tunnel_tx::handle_sdu]: the PDU sent to the peer, if any. *)
Definition gtpu_tx_handle_sdu (peer_teid : Z) (sdu : bytes) : option (option bytes) :=
  let h := GtpuHeader (GtpuFlags GTPU_FLAGS_VERSION_V1 GTPU_FLAGS_GTP_PROTOCOL false false false) GTPU_MSG_DATA_PDU
             (u16 (blen sdu)) peer_teid 0 0 no_more_extension_headers [] in
  gtpu_write_header sdu h.

(** [gtpu_tunnel_rx::handle_pdu]: the SDU delivered, if any. *)
Definition gtpu_rx_handle_pdu (local_teid : Z) (pdu : bytes) : option bytes :=
  let* (h, sdu) := gtpu_read_and_strip_header pdu in
  if gh_teid h =? local_teid then Some sdu else None.

(** ** The demultiplexer

    [teid_to_tunnel] is a map with keys of type [uint16_t]; a tunnel is known by
    its [local_teid]. *)
Definition add_tunnel (m : gmap Z Z) (teid tunnel : Z) : bool * gmap Z Z :=
  match m !! u16 teid with Some _ => (false, m) | None => (true, <[u16 teid := tunnel]> m) end.

Definition remove_tunnel (m : gmap Z Z) (teid : Z) : bool * gmap Z Z :=
  match m !! u16 teid with None => (false, m) | Some _ => (true, delete (u16 teid) m) end.

(** [handle_pdu] and [handle_pdu_impl]: the tunnel that delivers the SDU.
    [executed] tells whether the executor takes the task. *)
Definition demux_handle_pdu (executed : bool) (m : gmap Z Z) (pdu : bytes) : option (Z * bytes) :=
  let* teid := gtpu_read_teid pdu in
  if executed then
    let* tunnel := m !! u16 teid in
    let* sdu := gtpu_rx_handle_pdu tunnel pdu in
    Some (tunnel, sdu)
  else None.

(** [pdu_session_manager_impl::allocate_local_teid] *)
Definition allocate_local_teid (ue_index pdu_session_id : Z) : Z := u32 (Z.lor (u32 (Z.shiftl ue_index 8)) pdu_session_id).

Example gtpu_example :
  (let* pdu := gtpu_tx_handle_sdu 0x12345678 [1; 2; 3] in Some pdu) = Some (Some [0x30; 0xff; 0; 3; 0x12; 0x34; 0x56; 0x78; 1; 2; 3])
  /\ (let* (h, sdu) := gtpu_read_and_strip_header [0x34; 0xff; 0; 8; 0; 0; 0; 1; 0; 0; 0; 0x85; 1; 0; 9; 0; 7; 7] in Some (map gx_container (gh_ext_list h), sdu))
     = Some ([[0; 9]], [7; 7]).
Proof. split; vm_compute; reflexivity. Qed.
