(* ===== verification/GtpuThms.v ===== *)
(** * GTP-U: properties

    Round trip of the header with its extensions, transparency of a tunnel through
    the demultiplexer, and what happens with TEIDs that agree in their low 16 bits. *)
From S2P Require Import Prelude BitEncoding Gtpu.

(** ** Byte-aligned fields *)
Definition be16 (v : Z) : bytes := [u8 (v / 2 ^ 8); u8 v].
Definition be32 (v : Z) : bytes := [u8 (v / 2 ^ 24); u8 (v / 2 ^ 16); u8 (v / 2 ^ 8); u8 v].

(** A whole byte of a field that starts at a byte boundary. *)
Lemma pack_loop_byte fuel w v n : 8 <= n ->
  pack_loop (S fuel) (BitEnc w 0) v n = pack_loop fuel (BitEnc (w ++ [u8 (v / 2 ^ (n - 8))]) 0) (v mod 2 ^ n) (n - 8).
Proof.
  intros Hn. cbn [pack_loop enc_offset enc_writer]. rewrite (proj2 (Z.gtb_lt n 0)), Z.eqb_refl by lia.
  destruct (8 - 0 >? n) eqn:E; [lia|]. rewrite add_back_app, land_pow2_mask, Z.shiftr_div_pow2 by lia.
  replace (n - 8 + 0) with (n - 8) by lia. rewrite Z.sub_0_r. do 4 f_equal.
  unfold u8. rewrite Z.add_0_l, Z.mod_mod by lia. replace n with (n - 8 + 8) at 1 by lia.
  rewrite mod_pow2_div by lia. apply Z.mod_mod. lia.
Qed.
Lemma pack_loop_0 fuel e v : pack_loop fuel e v 0 = e.
Proof. by destruct fuel. Qed.
Lemma pack_aligned8 w v : bit_pack (BitEnc w 0) v 8 = Some (BitEnc (w ++ [u8 v]) 0).
Proof.
  unfold bit_pack. change (8 <? 64) with true. change (Z.to_nat 8) with 8%nat. rewrite pack_loop_byte by lia.
  change (8 - 8) with 0. by rewrite pack_loop_0, Z.pow_0_r, Z.div_1_r.
Qed.
Lemma pack_aligned16 w v : bit_pack (BitEnc w 0) v 16 = Some (BitEnc (w ++ be16 v) 0).
Proof.
  unfold bit_pack. change (16 <? 64) with true. change (Z.to_nat 16) with 16%nat. rewrite !pack_loop_byte by lia.
  change (16 - 8) with 8. change (8 - 8) with 0. rewrite pack_loop_0, Z.pow_0_r, Z.div_1_r, <- app_assoc.
  unfold be16, u8. cbn [app]. by rewrite mod_mod_pow2 by lia.
Qed.
Lemma pack_aligned32 w v : bit_pack (BitEnc w 0) v 32 = Some (BitEnc (w ++ be32 v) 0).
Proof.
  unfold bit_pack. change (32 <? 64) with true. change (Z.to_nat 32) with 32%nat. rewrite !pack_loop_byte by lia.
  change (32 - 8) with 24. change (24 - 8) with 16. change (16 - 8) with 8. change (8 - 8) with 0.
  rewrite pack_loop_0, Z.pow_0_r, Z.div_1_r, <- !app_assoc. unfold be32, u8. cbn [app].
  assert (v mod 2 ^ 32 / 2 ^ 16 mod 2 ^ 8 = v / 2 ^ 16 mod 2 ^ 8) as -> by mlia.
  rewrite (mod_mod_pow2 v 24 32), (mod_mod_pow2 v 16 24), (mod_mod_pow2 v 8 16) by lia.
  assert (v mod 2 ^ 24 / 2 ^ 8 mod 2 ^ 8 = v / 2 ^ 8 mod 2 ^ 8) as -> by mlia. done.
Qed.

Lemma unpack_loop_0 fuel d v : unpack_loop fuel d v 0 = (true, v, d).
Proof. by destruct fuel. Qed.
Lemma unpack_loop_byte fuel b r val n : is_u8 b -> 8 <= n ->
  unpack_loop (S fuel) (BitDec (b :: r) 0) val n = unpack_loop fuel (BitDec r 0) (u32 (val + b * 2 ^ (n - 8))) (n - 8).
Proof.
  intros Hb Hn. cbn [unpack_loop dec_offset dec_rest]. rewrite (proj2 (Z.gtb_lt n 0)) by lia.
  destruct (8 - 0 >? n) eqn:E; [lia|]. change (u8 (Z.shiftl 1 (8 - 0) - 1)) with (Z.ones 8).
  rewrite Z.land_ones, Z.shiftl_mul_pow2, u32_add_u32 by lia. rewrite Z.mod_small by (unfold is_u8 in Hb; lia).
  replace (n - 8 + 0) with (n - 8) by lia. by rewrite Z.sub_0_r.
Qed.
Lemma dec_field8 b r : is_u8 b -> dec_field (BitDec (b :: r) 0) 8 = (b, BitDec r 0).
Proof.
  intros Hb. unfold dec_field, bit_unpack. change (8 <=? 32) with true. change (Z.to_nat 8) with 8%nat.
  rewrite unpack_loop_byte by (done || lia). change (8 - 8) with 0.
  rewrite unpack_loop_0, Z.pow_0_r, Z.mul_1_r, Z.add_0_l, u32_id; [done|]. unfold is_u8, is_u32 in *. lia.
Qed.
Lemma dec_field16 v r : is_u16 v -> dec_field (BitDec (be16 v ++ r) 0) 16 = (v, BitDec r 0).
Proof.
  intros Hv. unfold dec_field, bit_unpack, be16. change (16 <=? 32) with true. change (Z.to_nat 16) with 16%nat. cbn [app].
  rewrite !unpack_loop_byte by (apply u8_is_u8 || lia). change (16 - 8) with 8. change (8 - 8) with 0. rewrite unpack_loop_0.
  f_equal. unfold u32, u8, is_u16 in *. mlia.
Qed.
Lemma dec_field32 v r : is_u32 v -> dec_field (BitDec (be32 v ++ r) 0) 32 = (v, BitDec r 0).
Proof.
  intros Hv. unfold dec_field, bit_unpack, be32. change (32 <=? 32) with true. change (Z.to_nat 32) with 32%nat. cbn [app].
  rewrite !unpack_loop_byte by (apply u8_is_u8 || lia).
  change (32 - 8) with 24. change (24 - 8) with 16. change (16 - 8) with 8. change (8 - 8) with 0. rewrite unpack_loop_0.
  f_equal. unfold u32, u8, is_u32 in *. mlia.
Qed.

(** ** Headers the writer accepts *)
Definition gtpu_flags_ok (f : gtpu_flags) : Prop := gf_version f = 1 /\ gf_protocol_type f = 1 /\ gf_n_pdu f = false.

(** An extension header: its length is in units of four bytes and counts the
    length and the type of the next extension. *)
Record gtpu_ext_ok (x : gtpu_extension_header) : Prop := {
  xo_type : is_u8 (gx_type x) /\ gx_type x <> no_more_extension_headers /\ gtpu_extension_header_comprehension_check (gx_type x) = true;
  xo_container : bytes_ok (gx_container x);
  xo_length : 1 <= gx_length x < 64 /\ blen (gx_container x) = 4 * gx_length x - 2;
}.

Record gtpu_header_ok (h : gtpu_header) : Prop := {
  ho_flags : gtpu_flags_ok (gh_flags h);
  ho_msg : gtpu_supported_msg_type_check h = true;
  ho_fields : is_u16 (gh_length h) /\ is_u32 (gh_teid h) /\ is_u16 (gh_seq_number h) /\ is_u8 (gh_n_pdu h) /\ is_u8 (gh_next_ext_hdr_type h)
    /\ gtpu_extension_header_comprehension_check (gh_next_ext_hdr_type h) = true;
  ho_optional : has_optional_fields (gh_flags h) = false -> gh_seq_number h = 0 /\ gh_n_pdu h = 0 /\ gh_next_ext_hdr_type h = no_more_extension_headers;
  ho_ext : if gf_ext_hdr (gh_flags h) then exists x l, gh_ext_list h = x :: l /\ gh_next_ext_hdr_type h = gx_type x else gh_ext_list h = [];
  ho_exts : Forall gtpu_ext_ok (gh_ext_list h);
}.

(** ** The bytes of a header *)
Definition flags_byte (f : gtpu_flags) : Z := 0x30 + 4 * flag_bit (gf_ext_hdr f) + 2 * flag_bit (gf_seq_number f).
Definition ext_next (l : list gtpu_extension_header) : Z := match l with [] => no_more_extension_headers | x :: _ => gx_type x end.
Fixpoint ext_bytes (l : list gtpu_extension_header) : bytes :=
  match l with [] => [] | x :: l => gx_length x :: gx_container x ++ ext_next l :: ext_bytes l end.
Definition optional_bytes (h : gtpu_header) : bytes :=
  if has_optional_fields (gh_flags h) then be16 (gh_seq_number h) ++ [gh_n_pdu h; gh_next_ext_hdr_type h] else [].
Definition header_bytes (h : gtpu_header) : bytes :=
  flags_byte (gh_flags h) :: gh_message_type h :: be16 (gh_length h) ++ be32 (gh_teid h) ++ optional_bytes h ++ ext_bytes (gh_ext_list h).

Lemma pack_bytes8 l : forall w, bytes_ok l -> pack_fields (BitEnc w 0) (map (fun b => (b, 8)) l) = Some (BitEnc (w ++ l) 0).
Proof.
  induction l as [|b l IH]; intros w Hl; cbn [map pack_fields]; [by rewrite app_nil_r|]. apply Forall_cons_1 in Hl as [Hb Hl].
  rewrite pack_aligned8, IH, u8_id, <- app_assoc by done. done.
Qed.
Lemma write_ext_list_bytes l : forall w, Forall gtpu_ext_ok l -> gtpu_write_ext_list (BitEnc w 0) l = Some (BitEnc (w ++ ext_bytes l) 0).
Proof.
  induction l as [|x l IH]; intros w Hl; cbn [gtpu_write_ext_list ext_bytes]; [by rewrite app_nil_r|].
  apply Forall_cons_1 in Hl as [[[Ht [Hn _]] Hc [Hlen Hb]] Hl]. unfold gtpu_write_ext_header.
  rewrite Hb. rewrite u8_id by (unfold is_u8; lia). replace (1 + (4 * gx_length x - 2) + 1) with (gx_length x * 4) by lia.
  rewrite Z.mod_mul, Z.div_mul by lia. cbn [pack_fields Z.eqb]. rewrite pack_aligned8, pack_fields_app, pack_bytes8 by done. cbn [pack_fields].
  rewrite pack_aligned8, IH by done. fold (ext_next l). assert (is_u8 (ext_next l)) as Hnext.
  { destruct l as [|y l]; [unfold ext_next, no_more_extension_headers, is_u8; lia|]. apply Forall_cons_1 in Hl as [[[Hy _] _ _] _]. exact Hy. }
  rewrite (u8_id (gx_length x)), (u8_id (ext_next l)) by (done || unfold is_u8; lia). by rewrite <- !app_assoc.
Qed.

Lemma write_header_bytes h pdu : gtpu_header_ok h -> gtpu_write_header pdu h = Some (Some (header_bytes h ++ pdu)).
Proof.
  intros [(F1 & F2 & F3) Hm (B1 & B2 & B3 & B4 & B5 & _) _ _ Hx]. unfold gtpu_write_header, gtpu_supported_flags_check.
  rewrite F1, F2, F3, Hm. cbn [negb GTPU_FLAGS_VERSION_V1 GTPU_FLAGS_GTP_PROTOCOL Z.eqb Pos.eqb].
  assert (is_u8 (gh_message_type h)) as Hmt.
  { unfold gtpu_supported_msg_type_check, GTPU_MSG_DATA_PDU, GTPU_MSG_ECHO_REQUEST, GTPU_MSG_ECHO_RESPONSE, GTPU_MSG_ERROR_INDICATION, GTPU_MSG_END_MARKER in Hm.
    unfold is_u8. lia. }
  change [(1, 3); (1, 1); (0, 1); (flag_bit (gf_ext_hdr (gh_flags h)), 1); (flag_bit (gf_seq_number (gh_flags h)), 1); (flag_bit false, 1);
          (gh_message_type h, 8); (gh_length h, 16); (gh_teid h, 32)]
    with ([(1, 3); (1, 1); (0, 1); (flag_bit (gf_ext_hdr (gh_flags h)), 1); (flag_bit (gf_seq_number (gh_flags h)), 1); (flag_bit false, 1)]
          ++ [(gh_message_type h, 8); (gh_length h, 16); (gh_teid h, 32)]). rewrite pack_fields_app.
  assert (pack_fields (bit_encoder_new []) [(1, 3); (1, 1); (0, 1); (flag_bit (gf_ext_hdr (gh_flags h)), 1); (flag_bit (gf_seq_number (gh_flags h)), 1); (flag_bit false, 1)]
          = Some (BitEnc [flags_byte (gh_flags h)] 0)) as ->.
  { unfold flags_byte. by destruct (gf_ext_hdr _), (gf_seq_number _). }
  cbn [pack_fields]. rewrite pack_aligned8, pack_aligned16, pack_aligned32, (u8_id (gh_message_type h)) by done.
  unfold header_bytes, optional_bytes. destruct (has_optional_fields _).
  - cbn [pack_fields]. rewrite pack_aligned16, !pack_aligned8, write_ext_list_bytes, !u8_id by done. cbn [enc_writer]. by rewrite <- !app_assoc.
  - rewrite write_ext_list_bytes by done. cbn [enc_writer]. by rewrite <- !app_assoc.
Qed.

(** ** Reading the bytes back *)
Lemma read_container_bytes c : forall r, bytes_ok c -> read_container (length c) (BitDec (c ++ r) 0) = (c, BitDec r 0).
Proof.
  induction c as [|b c IH]; intros r Hc; [done|]. apply Forall_cons_1 in Hc as [Hb Hc]. cbn [length read_container app].
  by rewrite dec_field8, IH.
Qed.

Lemma read_ext_header_bytes x next r : gtpu_ext_ok x -> is_u8 next ->
  gtpu_read_ext_header (BitDec (gx_length x :: gx_container x ++ next :: r) 0) (gx_type x) = (x, next, BitDec r 0).
Proof.
  intros [Ht Hc [Hl Hb]] Hn. unfold gtpu_read_ext_header, gtpu_unpack_ext_header_type.
  rewrite dec_field8 by (unfold is_u8; lia). rewrite u16_id by (unfold is_u16; lia).
  replace (Z.to_nat (gx_length x * 4 - 2)) with (length (gx_container x)) by (unfold blen in Hb; lia).
  rewrite read_container_bytes, dec_field8 by done. by destruct x.
Qed.

Lemma ext_bytes_cons x l r : ext_bytes (x :: l) ++ r = gx_length x :: gx_container x ++ ext_next l :: (ext_bytes l ++ r).
Proof. cbn [ext_bytes app]. by rewrite <- app_assoc. Qed.

Lemma read_ext_list_bytes l : forall fuel x r acc, Forall gtpu_ext_ok (x :: l) -> (length l < fuel)%nat ->
  read_ext_list fuel (BitDec (ext_bytes (x :: l) ++ r) 0) (gx_type x) acc = Some (acc ++ x :: l, BitDec r 0).
Proof.
  induction l as [|y l IH]; intros fuel x r acc Hl Hf; (destruct fuel as [|fuel]; [lia|]);
    apply Forall_cons_1 in Hl as [Hx Hl]; cbn [read_ext_list]; pose proof Hx as [(Ht & Hn & Hc) _ _]; rewrite Hc, ext_bytes_cons; cbn [negb ext_next].
  - rewrite read_ext_header_bytes by (done || unfold no_more_extension_headers, is_u8; lia). done.
  - pose proof Hl as [[(Hy & Hy' & _) _ _] _]%Forall_cons_1. rewrite read_ext_header_bytes by done.
    rewrite (proj2 (Z.eqb_neq _ _)) by done. cbn [length] in Hf. rewrite IH by (done || lia). by rewrite <- app_assoc.
Qed.

Lemma read_flags f r : gtpu_flags_ok f -> gtpu_read_flags (BitDec (flags_byte f :: r) 0) = (f, BitDec r 0).
Proof. destruct f as [v p e s n]. intros (F1 & F2 & F3). cbn in F1, F2, F3. subst. by destruct e, s. Qed.

Lemma be16_len v : length (be16 v) = 2%nat.
Proof. done. Qed.
Lemma be32_len v : length (be32 v) = 4%nat.
Proof. done. Qed.
Lemma ext_bytes_len l : (length l <= length (ext_bytes l))%nat.
Proof. induction l as [|x l IH]; [done|]. cbn [ext_bytes length]. rewrite length_app. cbn [length]. lia. Qed.

Lemma msg_type_byte h : gtpu_supported_msg_type_check h = true -> is_u8 (gh_message_type h).
Proof.
  unfold gtpu_supported_msg_type_check, GTPU_MSG_DATA_PDU, GTPU_MSG_ECHO_REQUEST, GTPU_MSG_ECHO_RESPONSE,
    GTPU_MSG_ERROR_INDICATION, GTPU_MSG_END_MARKER, is_u8. lia.
Qed.

Lemma header_bytes_len h : (8 <= length (header_bytes h))%nat
  /\ (has_optional_fields (gh_flags h) = true -> 12 <= length (header_bytes h))%nat
  /\ (length (gh_ext_list h) <= length (header_bytes h))%nat.
Proof.
  unfold header_bytes, optional_bytes. cbn [length]. rewrite !length_app, be16_len, be32_len.
  pose proof (ext_bytes_len (gh_ext_list h)). split_and!; [lia| |lia]. intros ->. rewrite length_app, be16_len. cbn [length]. lia.
Qed.

Lemma read_header_bytes h pdu : gtpu_header_ok h -> gtpu_read_and_strip_header (header_bytes h ++ pdu) = Some (h, pdu).
Proof.
  intros [Hf Hm (B1 & B2 & B3 & B4 & B5 & B6) Hopt Hext Hx]. destruct (header_bytes_len h) as (L1 & L2 & L3).
  assert (blen (header_bytes h ++ pdu) = Z.of_nat (length (header_bytes h)) + blen pdu) as Hlen by (unfold blen; rewrite length_app; lia).
  pose proof (blen_nonneg pdu) as Hp. assert (bdrop (blen (header_bytes h ++ pdu) - blen pdu + 0) (header_bytes h ++ pdu) = pdu) as Hdrop.
  { rewrite Hlen. unfold bdrop. replace (Z.to_nat _) with (length (header_bytes h)) by lia. apply drop_app_length. }
  assert (header_bytes h ++ pdu = flags_byte (gh_flags h) :: gh_message_type h :: be16 (gh_length h) ++ be32 (gh_teid h)
            ++ optional_bytes h ++ ext_bytes (gh_ext_list h) ++ pdu) as Hb.
  { unfold header_bytes. cbn [app]. by rewrite <- !app_assoc. }
  unfold gtpu_read_and_strip_header, GTPU_BASE_HEADER_LEN, GTPU_EXTENDED_HEADER_LEN, bit_decoder_new, gtpu_unpack_ext_header_type.
  rewrite (proj2 (Z.ltb_ge _ _)) by lia. rewrite Hb at 1. rewrite read_flags by done. destruct Hf as (F1 & F2 & F3).
  unfold gtpu_supported_flags_check. rewrite F1, F2, F3. cbn [negb Z.eqb Pos.eqb GTPU_FLAGS_VERSION_V1 GTPU_FLAGS_GTP_PROTOCOL].
  rewrite dec_field8 by (by apply msg_type_byte). rewrite dec_field16, dec_field32 by done. unfold optional_bytes.
  assert (forall d, d = BitDec pdu 0 -> bdrop (dec_nof_bytes (header_bytes h ++ pdu) d) (header_bytes h ++ pdu) = pdu) as Hd by (by intros d ->).
  destruct (has_optional_fields (gh_flags h)) eqn:Eo.
  - rewrite (proj2 (Z.ltb_ge _ _)) by (specialize (L2 eq_refl); lia). rewrite <- app_assoc. cbn [app].
    rewrite dec_field16, !dec_field8, B6 by done. cbn [negb]. destruct (gf_ext_hdr (gh_flags h)) eqn:Ee.
    + destruct Hext as (x & l & Hl & Hn). rewrite Hl in *. rewrite Hn.
      pose proof Hx as [[(_ & Hx0 & _) _ _] _]%Forall_cons_1. rewrite (proj2 (Z.eqb_neq _ _)) by done.
      rewrite read_ext_list_bytes by (done || (rewrite length_app; cbn [length] in *; lia)). rewrite Hd by done. cbn [app]. rewrite <- Hl, <- Hn. by destruct h.
    + rewrite Hext. cbn [ext_bytes app]. rewrite Hd by done. rewrite <- Hext. by destruct h.
  - destruct (gf_ext_hdr (gh_flags h)) eqn:Ee; [unfold has_optional_fields in Eo; by rewrite Ee in Eo|].
    destruct (Hopt eq_refl) as (O1 & O2 & O3). rewrite Hext. cbn [ext_bytes app]. rewrite Hd by done. rewrite <- Hext, <- O1 at 1.
    destruct h; cbn in *; subst; done.
Qed.

(** The GTP-U header round trip: a header of version 1 with any sequence number and any list of extension headers
    that the reader comprehends is written in front of the payload and read back with all its extensions, leaving
    exactly the payload. *)
Theorem gtpu_header_roundtrip h pdu : gtpu_header_ok h ->
  exists b, gtpu_write_header pdu h = Some (Some b) /\ gtpu_read_and_strip_header b = Some (h, pdu).
Proof. intros Hh. exists (header_bytes h ++ pdu). by rewrite write_header_bytes, read_header_bytes. Qed.

Definition gtpu_demo_header : gtpu_header :=
  GtpuHeader (GtpuFlags 1 1 true true false) GTPU_MSG_DATA_PDU 19 0xdeadbeef 7 0 pdu_session_container
    [GtpuExt pdu_session_container 1 [0; 9]; GtpuExt pdcp_pdu_number 2 [1; 2; 3; 4; 5; 6]].
Lemma gtpu_header_roundtrip_witness :
  exists b, gtpu_write_header [1; 2; 3] gtpu_demo_header = Some (Some b) /\ gtpu_read_and_strip_header b = Some (gtpu_demo_header, [1; 2; 3]).
Proof.
  apply (gtpu_header_roundtrip gtpu_demo_header [1; 2; 3]).
  split; cbn; [done|done|unfold is_u16, is_u32, is_u8; split_and!; try done; lia|done|by eexists _, _|].
  repeat constructor; unfold is_u8, gx_type; try done; cbn; lia.
Defined.

(** ** Tunnels *)
Definition data_header (teid len : Z) : gtpu_header :=
  GtpuHeader (GtpuFlags GTPU_FLAGS_VERSION_V1 GTPU_FLAGS_GTP_PROTOCOL false false false) GTPU_MSG_DATA_PDU len teid 0 0 no_more_extension_headers [].
Lemma data_header_ok teid len : is_u32 teid -> is_u16 len -> gtpu_header_ok (data_header teid len).
Proof.
  by intros Ht Hl.
Qed.

Lemma tx_handle_sdu_bytes teid sdu : is_u32 teid ->
  gtpu_tx_handle_sdu teid sdu = Some (Some (header_bytes (data_header teid (u16 (blen sdu))) ++ sdu)).
Proof. intros Ht. apply (write_header_bytes (data_header teid (u16 (blen sdu)))). apply data_header_ok; [done|apply u16_is_u16]. Qed.

Lemma lor_bytes a b c d : is_u8 a -> is_u8 b -> is_u8 c -> is_u8 d ->
  Z.lor (Z.lor (Z.lor (u32 (Z.shiftl a 24)) (Z.shiftl b 16)) (Z.shiftl c 8)) d = a * 2 ^ 24 + b * 2 ^ 16 + c * 2 ^ 8 + d.
Proof.
  unfold is_u8, u32. intros Ha Hb Hc Hd. rewrite !Z.shiftl_mul_pow2, Z.mod_small by lia.
  rewrite (lor_disjoint 24 (a * 2 ^ 24) (b * 2 ^ 16)) by mlia.
  rewrite (lor_disjoint 16 (a * 2 ^ 24 + b * 2 ^ 16) (c * 2 ^ 8)) by mlia. by rewrite (lor_disjoint 8) by mlia.
Qed.

Lemma read_teid_bytes h pdu : gtpu_header_ok h -> gtpu_read_teid (header_bytes h ++ pdu) = Some (gh_teid h).
Proof.
  intros Hh. destruct (header_bytes_len h) as (L1 & _ & _). destruct Hh as [_ _ (_ & Ht & _) _ _ _].
  unfold gtpu_read_teid, GTPU_BASE_HEADER_LEN. rewrite (proj2 (Z.ltb_ge _ _)) by (unfold blen; rewrite length_app; lia).
  unfold header_bytes, be16, be32, bdrop. change (Z.to_nat 4) with 4%nat. cbn [app drop]. f_equal.
  set (t := gh_teid h) in *. rewrite lor_bytes by apply u8_is_u8. unfold is_u32, u8 in *. mlia.
Qed.

(** The transmitting end of a tunnel, the demultiplexer and the receiving end with the same TEID. *)
Lemma demux_tunnel m teid sdu : is_u32 teid ->
  exists pdu, gtpu_tx_handle_sdu teid sdu = Some (Some pdu)
    /\ demux_handle_pdu true m pdu = match m !! u16 teid with Some tunnel => if teid =? tunnel then Some (tunnel, sdu) else None | None => None end.
Proof.
  intros Ht. eexists. split; [by apply tx_handle_sdu_bytes|]. set (h := data_header teid _).
  assert (gtpu_header_ok h) as Hh by (apply data_header_ok; [done|apply u16_is_u16]).
  unfold demux_handle_pdu, gtpu_rx_handle_pdu. rewrite read_teid_bytes, read_header_bytes by done. cbn [gh_teid h data_header].
  destruct (m !! u16 teid) as [x|]; [|done]. by destruct (teid =? x).
Qed.

(** ** Runs of the demultiplexer

    Sessions register and remove their tunnels, and SDUs are sent to TEIDs. *)
Inductive demux_op := dx_add (teid : Z) | dx_remove (teid : Z) | dx_send (teid : Z) (sdu : bytes).
Inductive demux_out := out_result (ok : bool) | out_sdu (d : option (Z * bytes)).
Definition dx_teid (op : demux_op) : Z := match op with dx_add t | dx_remove t | dx_send t _ => t end.

Definition demux_step (m : gmap Z Z) (op : demux_op) : demux_out * gmap Z Z :=
  match op with
  | dx_add t => let (ok, m) := add_tunnel m t t in (out_result ok, m)
  | dx_remove t => let (ok, m) := remove_tunnel m t in (out_result ok, m)
  | dx_send t sdu =>
      (out_sdu (match gtpu_tx_handle_sdu t sdu with Some (Some pdu) => demux_handle_pdu true m pdu | _ => None end), m)
  end.
Fixpoint demux_run (m : gmap Z Z) (ops : list demux_op) : list demux_out :=
  match ops with [] => [] | op :: ops => let (o, m) := demux_step m op in o :: demux_run m ops end.

(** What a demultiplexer promises: a set of registered 32-bit TEIDs. *)
Definition spec_step (s : gset Z) (op : demux_op) : demux_out * gset Z :=
  match op with
  | dx_add t => (out_result (negb (bool_decide (t ∈ s))), {[t]} ∪ s)
  | dx_remove t => (out_result (bool_decide (t ∈ s)), s ∖ {[t]})
  | dx_send t sdu => (out_sdu (if decide (t ∈ s) then Some (t, sdu) else None), s)
  end.
Fixpoint spec_run (s : gset Z) (ops : list demux_op) : list demux_out :=
  match ops with [] => [] | op :: ops => let (o, s) := spec_step s op in o :: spec_run s ops end.

(** [T] are the TEIDs in use: no two of them agree in their low 16 bits. *)
Section Demux.
Context (T : Z -> Prop) (HT : forall t t', T t -> T t' -> u16 t = u16 t' -> t = t').

Definition demux_rep (m : gmap Z Z) (s : gset Z) : Prop :=
  (forall t, t ∈ s -> T t) /\ forall k x, m !! k = Some x <-> x ∈ s /\ u16 x = k.

Lemma demux_lookup m s t : demux_rep m s -> T t -> m !! u16 t = if decide (t ∈ s) then Some t else None.
Proof.
  intros [Hs Hm] Ht. destruct (decide (t ∈ s)) as [Hin|Hin]; [by apply Hm|]. destruct (m !! u16 t) as [x|] eqn:E; [|done].
  apply Hm in E as [Hx Heq]. by rewrite (HT x t (Hs x Hx) Ht Heq) in Hx.
Qed.

Lemma demux_step_spec m s op : demux_rep m s -> T (dx_teid op) -> is_u32 (dx_teid op) ->
  (demux_step m op).1 = (spec_step s op).1 /\ demux_rep (demux_step m op).2 (spec_step s op).2.
Proof.
  intros Hr Ht Hu. pose proof (demux_lookup m s (dx_teid op) Hr Ht) as Hl. pose proof Hr as [Hs Hm].
  destruct op as [t|t|t sdu]; cbn [dx_teid demux_step spec_step fst snd] in *; unfold add_tunnel, remove_tunnel.
  - rewrite Hl. destruct (decide (t ∈ s)) as [Hin|Hin]; cbn [fst snd].
    + rewrite bool_decide_true by done. split; [done|]. by replace ({[t]} ∪ s) with s by (clear -Hin; set_solver).
    + rewrite bool_decide_false by done. split; [done|]. split; [intros x [->%elem_of_singleton|Hx]%elem_of_union; [done|by apply Hs]|].
      intros k x. rewrite lookup_insert_Some, Hm. split.
      * rewrite elem_of_union, elem_of_singleton. intros [[<- <-]|[Hk [Hx <-]]]; split; auto.
      * rewrite elem_of_union, elem_of_singleton. intros [[->|Hx] <-]; [by left|]. right. split; [|done]. intros Heq.
        apply Hin. by rewrite (HT t x Ht (Hs x Hx) Heq).
  - rewrite Hl. destruct (decide (t ∈ s)) as [Hin|Hin]; cbn [fst snd].
    + rewrite bool_decide_true by done. split; [done|]. split; [intros x [Hx _]%elem_of_difference; by apply Hs|].
      intros k x. rewrite lookup_delete_Some, Hm, elem_of_difference, elem_of_singleton.
      split; [intros [Hk [Hx <-]]; split_and!; [done|by intros ->|done]|]. intros [[Hx Hne] <-]. split; [|done]. intros Heq. apply Hne.
      symmetry. by apply (HT t x Ht (Hs x Hx)).
    + rewrite bool_decide_false by done. split; [done|]. by replace (s ∖ {[t]}) with s by (clear -Hin; set_solver).
  - destruct (demux_tunnel m t sdu Hu) as (pdu & -> & ->). rewrite Hl. split; [|done]. destruct (decide (t ∈ s)); [|done]. by rewrite Z.eqb_refl.
Qed.

Lemma demux_run_spec ops : forall m s, demux_rep m s -> Forall (fun op => T (dx_teid op) /\ is_u32 (dx_teid op)) ops -> demux_run m ops = spec_run s ops.
Proof.
  induction ops as [|op ops IH]; intros m s Hr Hops; [done|]. apply Forall_cons_1 in Hops as [[H1 H2] Hops]. cbn [demux_run spec_run].
  destruct (demux_step_spec m s op Hr H1 H2) as [Ho Hr']. destruct (demux_step m op), (spec_step s op). cbn in *. subst. f_equal. by apply IH.
Qed.
End Demux.

(** C24: the demultiplexer of the CU-UP together with both ends of the tunnels implements a set of TEIDs: as long as
    no two TEIDs in use agree in their low 16 bits, every registration and removal reports the right result and every
    SDU sent to a TEID, of any length and content, is delivered unchanged by exactly the tunnel of that TEID if it is
    registered and by none otherwise. *)
Theorem gtpu_demux_refines_teid_set ops :
  Forall (fun op => is_u32 (dx_teid op)) ops ->
  (forall op op', op ∈ ops -> op' ∈ ops -> u16 (dx_teid op) = u16 (dx_teid op') -> dx_teid op = dx_teid op') ->
  demux_run ∅ ops = spec_run ∅ ops.
Proof.
  intros Hu Hlow. apply (demux_run_spec (fun t => exists op, op ∈ ops /\ t = dx_teid op)).
  - intros t t' (op & Hop & ->) (op' & Hop' & ->). by apply Hlow.
  - split; [intros t Ht; by apply not_elem_of_empty in Ht|]. intros k x. rewrite lookup_empty. split; [done|].
    intros [Hx _]. by apply not_elem_of_empty in Hx.
  - apply list.Forall_forall. intros op Hop. rewrite list.Forall_forall in Hu. split; [by exists op|by apply Hu].
Qed.
Definition demux_demo : list demux_op := [dx_add 0x101; dx_add 0x102; dx_send 0x102 [1; 2; 3]; dx_remove 0x101; dx_send 0x101 [9]; dx_add 0x102].
Lemma gtpu_demux_refines_teid_set_witness :
  demux_run ∅ demux_demo = [out_result true; out_result true; out_sdu (Some (0x102, [1; 2; 3])); out_result true; out_sdu None; out_result false].
Proof.
  rewrite (gtpu_demux_refines_teid_set demux_demo).
  - vm_compute. reflexivity.
  - repeat constructor; unfold is_u32; cbn; lia.
  - intros op op' H1 H2. unfold demux_demo in *. rewrite !elem_of_cons, elem_of_nil in H1, H2.
    destruct_or! H1; destruct_or! H2; try contradiction; subst; cbn [dx_teid]; vm_compute; congruence.
Defined.

(** The map of the demultiplexer is keyed by 16 bits while TEIDs have 32: the TEIDs allocated for the same PDU
    session of UE [i] and of UE [i + 256] collide.  The second session cannot be registered, and when its context is
    released it removes the tunnel of the first UE, whose SDUs are lost from then on. *)
Theorem gtpu_teid_collision i psi sdu : 0 <= i < 1024 - 256 -> 0 <= psi < 256 ->
  let t := allocate_local_teid i psi in let t' := allocate_local_teid (i + 256) psi in
  t <> t'
  /\ demux_run ∅ [dx_add t; dx_send t sdu; dx_add t'; dx_remove t'; dx_send t sdu]
     = [out_result true; out_sdu (Some (t, sdu)); out_result false; out_result true; out_sdu None].
Proof.
  intros Hi Hp t t'. assert (forall j, 0 <= j < 1024 -> allocate_local_teid j psi = j * 2 ^ 8 + psi) as Hal.
  { intros j Hj. unfold allocate_local_teid. rewrite Z.shiftl_mul_pow2, (u32_id (j * 2 ^ 8)) by (unfold is_u32; lia).
    rewrite (lor_disjoint 8) by mlia. apply u32_id. unfold is_u32. lia. }
  assert (is_u32 t) as Ht by (unfold t, is_u32; rewrite Hal; lia).
  assert (u16 t' = u16 t) as Hlow by (unfold t, t', u16; rewrite !Hal by lia; mlia).
  split; [unfold t, t'; rewrite !Hal by lia; lia|]. cbn [demux_run demux_step]. unfold add_tunnel, remove_tunnel.
  rewrite lookup_empty, Hlow, lookup_insert_eq.
  destruct (demux_tunnel (<[u16 t := t]> ∅) t sdu Ht) as (pdu & E & E1). rewrite E, E1, lookup_insert_eq, Z.eqb_refl.
  destruct (demux_tunnel (delete (u16 t) (<[u16 t := t]> ∅)) t sdu Ht) as (pdu' & E' & E1').
  rewrite E in E'. injection E' as <-. rewrite E1', lookup_delete_eq. done.
Qed.
Lemma gtpu_teid_collision_witness :
  demux_run ∅ [dx_add 1; dx_send 1 [5]; dx_add 0x10001; dx_remove 0x10001; dx_send 1 [5]]
  = [out_result true; out_sdu (Some (1, [5])); out_result false; out_result true; out_sdu None].
Proof. apply (gtpu_teid_collision 0 1 [5]); lia. Defined.

(** ** Malformed PDUs that are accepted *)
Lemma dec_field_end n : 0 < n <= 32 -> dec_field (BitDec [] 0) n = (0, BitDec [] 0).
Proof.
  intros Hn. unfold dec_field, bit_unpack. destruct (n <=? 32) eqn:E; [|lia]. destruct (Z.to_nat n) eqn:En; [lia|].
  cbn [unpack_loop dec_rest]. by destruct (n >? 0).
Qed.
Lemma read_container_end n : forall l, bytes_ok l -> (length l <= n)%nat ->
  read_container n (BitDec l 0) = (l ++ replicate (n - length l) 0, BitDec [] 0).
Proof.
  induction n as [|n IH]; intros l Hl Hn; [by destruct l; [|cbn in Hn; lia]|]. cbn [read_container]. destruct l as [|b l].
  - rewrite dec_field_end by lia. rewrite (IH []) by (done || cbn; lia). cbn [length app]. by rewrite !Nat.sub_0_r.
  - apply Forall_cons_1 in Hl as [Hb Hl]. rewrite dec_field8, IH by (done || cbn in Hn; lia). done.
Qed.

(** A PDU that ends inside an extension header, for example one with length 0, is not refused: the rest of the
    container is filled with zeros and an empty SDU is delivered. *)
Theorem gtpu_truncated_extension_accepted teid len seq npdu type xlen rest :
  is_u32 teid -> is_u16 len -> is_u16 seq -> is_u8 npdu -> is_u8 type -> type <> no_more_extension_headers ->
  gtpu_extension_header_comprehension_check type = true -> is_u8 xlen -> bytes_ok rest -> blen rest <= u16 (xlen * 4 - 2) ->
  gtpu_rx_handle_pdu teid ([0x34; GTPU_MSG_DATA_PDU] ++ be16 len ++ be32 teid ++ be16 seq ++ [npdu; type; xlen] ++ rest) = Some [].
Proof.
  intros Ht Hl Hs Hn Hty Hne Hc Hx Hr Hlen. set (h := GtpuHeader (GtpuFlags 1 1 true false false) GTPU_MSG_DATA_PDU len teid seq npdu type []).
  unfold gtpu_rx_handle_pdu, gtpu_read_and_strip_header, bit_decoder_new, GTPU_BASE_HEADER_LEN, GTPU_EXTENDED_HEADER_LEN, gtpu_unpack_ext_header_type.
  set (pdu := [0x34; GTPU_MSG_DATA_PDU] ++ _). assert (blen pdu = 13 + blen rest) as Hb by (unfold pdu, blen; rewrite !length_app; cbn [length be16 be32]; lia).
  pose proof (blen_nonneg rest). rewrite !(proj2 (Z.ltb_ge _ _)) by lia. unfold pdu at 1. cbn [app].
  change 0x34 with (flags_byte (GtpuFlags 1 1 true false false)). rewrite read_flags by done.
  cbn [negb gtpu_supported_flags_check gf_version gf_protocol_type gf_n_pdu gf_ext_hdr has_optional_fields orb gf_seq_number].
  change (gtpu_supported_flags_check _) with true. cbn [negb]. rewrite dec_field8 by (unfold is_u8, GTPU_MSG_DATA_PDU; lia).
  rewrite dec_field16, dec_field32, dec_field16, !dec_field8 by done. rewrite Hc. cbn [negb]. rewrite (proj2 (Z.eqb_neq _ _)) by done.
  cbn [read_ext_list]. rewrite Hc. cbn [negb]. unfold gtpu_read_ext_header, gtpu_unpack_ext_header_type. rewrite dec_field8 by done.
  rewrite read_container_end by (done || unfold blen in Hlen; lia). rewrite dec_field_end by lia. cbn [Z.eqb no_more_extension_headers gh_teid].
  rewrite Z.eqb_refl. f_equal. unfold dec_nof_bytes, bdrop. cbn [dec_rest dec_offset Z.eqb]. apply drop_ge. unfold blen. cbn [length]. lia.
Qed.
