(* ===== verification/SlottedVector.v ===== *)
(** * slotted_vector

    [include/srsran/adt/slotted_array.h]: a vector of optional elements, stored
    contiguously and found through an indexing vector.  The operations are proved
    to implement a finite map with natural number keys.

    [absent_value] of the indexing vector is [None]; [None] as a result is a failed
    assertion. *)
From S2P Require Import Prelude.

Record slotted_vector (A : Type) := SlottedVector { sv_objects : list A; sv_index : list (option nat) }.
Arguments SlottedVector {A} _ _.
Arguments sv_objects {A} _.
Arguments sv_index {A} _.

Section Operations.
Context {A : Type}.
Implicit Types v : slotted_vector A.

Definition sv_empty : slotted_vector A := SlottedVector [] [].
Definition sv_size (v : slotted_vector A) : nat := length (sv_objects v).
Definition sv_contains (v : slotted_vector A) (idx : nat) : bool :=
  match sv_index v !! idx with Some (Some _) => true | _ => false end.

(** [operator[]] *)
Definition sv_at (v : slotted_vector A) (idx : nat) : option A :=
  match sv_index v !! idx with Some (Some p) => sv_objects v !! p | _ => None end.

(** [index_mapper.resize(idx + 1, absent_value)] when the index is out of range. *)
Definition sv_grow (m : list (option nat)) (idx : nat) : list (option nat) :=
  if decide (length m <= idx)%nat then m ++ replicate (idx + 1 - length m) None else m.

Definition sv_emplace (v : slotted_vector A) (idx : nat) (x : A) : slotted_vector A :=
  match sv_index v !! idx with
  | Some (Some p) => SlottedVector (<[p := x]> (sv_objects v)) (sv_index v)
  | _ =>
      let objects := sv_objects v ++ [x] in
      SlottedVector objects (<[idx := Some (length objects - 1)%nat]> (sv_grow (sv_index v) idx))
  end.

Definition sv_insert (v : slotted_vector A) (idx : nat) (x : A) : bool * slotted_vector A :=
  if sv_contains v idx then (false, v) else (true, sv_emplace v idx x).

(** [std::find(index_mapper.begin(), index_mapper.end(), p)] *)
Definition find_index (m : list (option nat)) (p : nat) : option nat := fst <$> list_find (eq (Some p)) m.

(** The loop that drops absent positions from the end. *)
Fixpoint drop_absent (m : list (option nat)) : list (option nat) :=
  match m with
  | [] => []
  | x :: m => match drop_absent m, x with [], None => [] | r, _ => x :: r end
  end.

Definition sv_erase (v : slotted_vector A) (idx : nat) : option (bool * slotted_vector A) :=
  match sv_index v !! idx with
  | Some (Some p) =>
      let last := (sv_size v - 1)%nat in
      let* (objects, m) :=
        if decide (p < last)%nat then
          let* x := sv_objects v !! p in
          let* y := sv_objects v !! last in
          let* k := find_index (sv_index v) last in
          Some (<[last := x]> (<[p := y]> (sv_objects v)), <[k := Some p]> (sv_index v))
        else Some (sv_objects v, sv_index v) in
      let m := <[idx := None]> m in
      let m := if decide (idx = length m - 1)%nat then drop_absent m else m in
      Some (true, SlottedVector (take (length objects - 1) objects) m)
  | _ => Some (false, v)
  end.

(** [find_first_empty]: the search from [start_guess] on. *)
Definition sv_find_first_empty (v : slotted_vector A) (start_guess : nat) : nat :=
  if decide (length (sv_objects v) = length (sv_index v)) then length (sv_index v)
  else
    match list_find (eq None) (drop start_guess (sv_index v)) with
    | Some (i, _) => (start_guess + i)%nat
    | None => length (sv_objects v)
    end.
End Operations.

(** ** Invariant

    The present positions of the indexing vector are a bijection with the
    elements, and its last position is present. *)
Section Invariant.
Context {A : Type}.
Implicit Types v : slotted_vector A.

Record sv_ok (v : slotted_vector A) : Prop := {
  so_range : forall i p, sv_index v !! i = Some (Some p) -> (p < sv_size v)%nat;
  so_inj : forall i j p, sv_index v !! i = Some (Some p) -> sv_index v !! j = Some (Some p) -> i = j;
  so_surj : forall p, (p < sv_size v)%nat -> exists i, sv_index v !! i = Some (Some p);
  so_last : sv_index v !! (length (sv_index v) - 1)%nat <> Some None;
}.

Lemma sv_ok_empty : sv_ok (sv_empty (A := A)).
Proof. split; cbn; try done. intros p Hp. unfold sv_size in Hp. cbn in Hp. lia. Qed.

Lemma grow_lookup m idx i : sv_grow m idx !! i = (if decide (length m <= i)%nat then (if decide (i <= idx)%nat then Some None else None) else m !! i).
Proof.
  unfold sv_grow. destruct (decide (length m <= idx)%nat) as [H|H].
  - destruct (decide (length m <= i)%nat) as [Hi|Hi]; [|by rewrite lookup_app_l by lia].
    rewrite lookup_app_r by lia. destruct (decide (i <= idx)%nat) as [Hj|Hj].
    + apply lookup_replicate. split; [done|lia].
    + apply lookup_ge_None. rewrite length_replicate. lia.
  - destruct (decide (length m <= i)%nat); [|done]. rewrite decide_False by lia. by apply lookup_ge_None.
Qed.
Lemma grow_length m idx : length (sv_grow m idx) = Nat.max (length m) (idx + 1).
Proof. unfold sv_grow. destruct (decide _); [rewrite length_app, length_replicate|]; lia. Qed.

(** The present positions after a growth. *)
Lemma grow_present m idx i p : sv_grow m idx !! i = Some (Some p) <-> m !! i = Some (Some p).
Proof.
  rewrite grow_lookup. destruct (decide (length m <= i)%nat) as [Hi|]; [|done].
  rewrite (lookup_ge_None_2 m i) by done. by destruct (decide (i <= idx)%nat).
Qed.

Definition absent (m : list (option nat)) (idx : nat) : Prop := forall p, m !! idx <> Some (Some p).

(** A new element at an absent position. *)
Definition sv_push (v : slotted_vector A) (idx : nat) (x : A) : slotted_vector A :=
  SlottedVector (sv_objects v ++ [x]) (<[idx := Some (sv_size v)]> (sv_grow (sv_index v) idx)).
Lemma sv_emplace_absent v idx x : absent (sv_index v) idx -> sv_emplace v idx x = sv_push v idx x.
Proof.
  intros Ha. unfold sv_emplace, sv_push, sv_size. rewrite length_app. cbn [length].
  replace (length (sv_objects v) + 1 - 1)%nat with (length (sv_objects v)) by lia.
  destruct (sv_index v !! idx) as [[p|]|] eqn:E; [by destruct (Ha p)|done|done].
Qed.

Lemma push_present v idx x i p : absent (sv_index v) idx ->
  sv_index (sv_push v idx x) !! i = Some (Some p) <-> (if decide (i = idx) then p = sv_size v else sv_index v !! i = Some (Some p)).
Proof.
  intros Ha. cbn. destruct (decide (i = idx)) as [->|Hne].
  - rewrite list_lookup_insert_eq by (rewrite grow_length; lia). split; [by intros [= <-]|by intros ->].
  - rewrite list_lookup_insert_ne by done. apply grow_present.
Qed.

Lemma sv_ok_push v idx x : sv_ok v -> absent (sv_index v) idx -> sv_ok (sv_push v idx x).
Proof.
  intros [R I S L] Ha. assert (sv_size (sv_push v idx x) = (sv_size v + 1)%nat) as Hs by (unfold sv_size; cbn; rewrite length_app; cbn; lia).
  split.
  - intros i p. rewrite push_present, Hs by done. destruct (decide _); [lia|]. intros H%R. lia.
  - intros i j p. rewrite !push_present by done. destruct (decide (i = idx)), (decide (j = idx)); try congruence; [| |by apply I].
    + intros -> H%R. lia.
    + intros H%R ->. lia.
  - intros p. rewrite Hs. intros Hp. destruct (decide (p = sv_size v)) as [->|Hne].
    + exists idx. rewrite push_present by done. by rewrite decide_True.
    + destruct (S p ltac:(lia)) as [i Hi]. exists i. rewrite push_present by done. rewrite decide_False; [done|]. intros ->. by destruct (Ha p).
  - cbn. rewrite length_insert. destruct (decide (idx = length (sv_grow (sv_index v) idx) - 1)%nat) as [<-|Hne].
    + rewrite list_lookup_insert_eq by (rewrite grow_length; lia). done.
    + rewrite list_lookup_insert_ne by done. rewrite grow_length in *. unfold sv_grow.
      destruct (decide (length (sv_index v) <= idx)%nat); [lia|]. by replace (Nat.max (length (sv_index v)) (idx + 1)) with (length (sv_index v)) by lia.
Qed.

Lemma sv_at_push v idx x i : sv_ok v -> absent (sv_index v) idx -> sv_at (sv_push v idx x) i = if decide (i = idx) then Some x else sv_at v i.
Proof.
  intros [R I S L] Ha. unfold sv_at. destruct (decide (i = idx)) as [->|Hne].
  - rewrite (proj2 (push_present v idx x idx (sv_size v) Ha)) by (by rewrite decide_True). cbn. unfold sv_size.
    rewrite lookup_app_r, Nat.sub_diag by lia. done.
  - destruct (sv_index v !! i) as [[p|]|] eqn:E.
    + rewrite (proj2 (push_present v idx x i p Ha)) by (by rewrite decide_False). cbn. apply lookup_app_l. by eapply R.
    + destruct (sv_index (sv_push v idx x) !! i) as [[p|]|] eqn:E'; [|done|done].
      apply push_present in E'; [|done]. rewrite decide_False in E' by done. congruence.
    + destruct (sv_index (sv_push v idx x) !! i) as [[p|]|] eqn:E'; [|done|done].
      apply push_present in E'; [|done]. rewrite decide_False in E' by done. congruence.
Qed.

Lemma contains_at v i : sv_ok v -> sv_contains v i = match sv_at v i with Some _ => true | None => false end.
Proof.
  intros [R _ _ _]. unfold sv_contains, sv_at. destruct (sv_index v !! i) as [[p|]|] eqn:E; [|done|done].
  apply R in E. unfold sv_size in E. by destruct (lookup_lt_is_Some_2 _ _ E) as [x ->].
Qed.
Lemma not_contains_absent v i : sv_contains v i = false -> absent (sv_index v) i.
Proof. unfold sv_contains. intros H p E. by rewrite E in H. Qed.

Lemma sv_emplace_spec v idx x : sv_ok v -> sv_ok (sv_emplace v idx x)
  /\ forall i, sv_at (sv_emplace v idx x) i = if decide (i = idx) then Some x else sv_at v i.
Proof.
  intros Hok. destruct (sv_contains v idx) eqn:Ec.
  - destruct Hok as [R I S L]. unfold sv_emplace, sv_contains, sv_at in *. destruct (sv_index v !! idx) as [[p|]|] eqn:E; [|done|done].
    split; [split; cbn; unfold sv_size; cbn; rewrite ?length_insert; done|].
    intros i. cbn. destruct (decide (i = idx)) as [->|Hne]; [rewrite E; apply list_lookup_insert_eq; by eapply R|].
    destruct (sv_index v !! i) as [[q|]|] eqn:Ei; [|done|done]. apply list_lookup_insert_ne. intros ->. by apply Hne, (I i idx q).
  - apply not_contains_absent in Ec. rewrite sv_emplace_absent by done. split; [by apply sv_ok_push|]. intros i. by apply sv_at_push.
Qed.

(** Dropping absent positions from the end. *)
Lemma drop_absent_present m i q : drop_absent m !! i = Some (Some q) <-> m !! i = Some (Some q).
Proof.
  revert i. induction m as [|x m IH]; intros i; [done|]. cbn [drop_absent].
  destruct (drop_absent m) as [|y r] eqn:E; [destruct x as [x|]|]; destruct i as [|i]; cbn [lookup list_lookup]; try done;
    try (rewrite <- IH; done).
Qed.
Lemma drop_absent_last m : drop_absent m !! (length (drop_absent m) - 1)%nat <> Some None.
Proof.
  induction m as [|x m IH]; [done|]. cbn [drop_absent]. destruct (drop_absent m) as [|y r] eqn:E; [by destruct x|].
  cbn [length]. replace (S (S (length r)) - 1)%nat with (S (length r)) by lia. cbn [length] in IH.
  replace (S (length r) - 1)%nat with (length r) in IH by lia. destruct x; exact IH.
Qed.
Lemma find_index_Some m p i : m !! i = Some (Some p) -> exists k, find_index m p = Some k /\ m !! k = Some (Some p).
Proof.
  intros Hi. unfold find_index. destruct (list_find (eq (Some p)) m) as [[k x]|] eqn:E.
  - apply list_find_Some in E as (Hk & <- & _). by exists k.
  - apply list_find_None in E. rewrite list.Forall_forall in E. destruct (E (Some p)); [|done]. by eapply list_elem_of_lookup_2.
Qed.

(** The vectors after the element at [p], found at [idx], was swapped with the
    last one and removed. *)
Definition moved (p lst q : nat) : nat := if decide (q = lst) then p else q.
Record sv_removed (v : slotted_vector A) (idx p : nat) (objects : list A) (m : list (option nat)) : Prop := {
  sr_length : length objects = sv_size v /\ length m = length (sv_index v);
  sr_objects : forall q, (q < sv_size v)%nat -> q <> p -> objects !! moved p (sv_size v - 1) q = sv_objects v !! q;
  sr_index : forall i q', i <> idx -> m !! i = Some (Some q') <-> exists q, sv_index v !! i = Some (Some q) /\ q' = moved p (sv_size v - 1) q;
}.

Lemma sv_swap v idx p : sv_ok v -> sv_index v !! idx = Some (Some p) ->
  exists objects m,
    (if decide (p < sv_size v - 1)%nat then
       let* x := sv_objects v !! p in
       let* y := sv_objects v !! (sv_size v - 1)%nat in
       let* k := find_index (sv_index v) (sv_size v - 1) in
       Some (<[(sv_size v - 1)%nat := x]> (<[p := y]> (sv_objects v)), <[k := Some p]> (sv_index v))
     else Some (sv_objects v, sv_index v)) = Some (objects, m) /\ sv_removed v idx p objects m.
Proof.
  intros [R I S L] Hp. pose proof (R _ _ Hp) as Hlt. set (n := sv_size v) in *.
  destruct (decide (p < n - 1)%nat) as [H|H].
  - destruct (lookup_lt_is_Some_2 (sv_objects v) p Hlt) as [x Hx]. destruct (lookup_lt_is_Some_2 (sv_objects v) (n - 1)%nat ltac:(subst n; unfold sv_size in *; lia)) as [y Hy].
    destruct (S (n - 1)%nat ltac:(lia)) as [i Hi]. destruct (find_index_Some _ _ _ Hi) as (k & Hk & Hk'). rewrite Hx, Hy, Hk.
    eexists _, _. split; [done|]. split.
    + by rewrite !length_insert.
    + intros q Hq Hne. fold n in Hq |- *. unfold moved. destruct (decide (q = n - 1)%nat) as [->|Hq'].
      * rewrite list_lookup_insert_ne, list_lookup_insert_eq by (done || lia). done.
      * by rewrite !list_lookup_insert_ne by lia.
    + intros j q' Hj. fold n. unfold moved. destruct (decide (j = k)) as [->|Hjk].
      * rewrite list_lookup_insert_eq by (by eapply lookup_lt_Some). split.
        -- intros [= <-]. exists (n - 1)%nat. by rewrite decide_True.
        -- intros (q & Hq & ->). assert (q = n - 1)%nat as -> by congruence. by rewrite decide_True.
      * rewrite list_lookup_insert_ne by done. split.
        -- intros Hq. exists q'. split; [done|]. rewrite decide_False; [done|]. intros ->. by destruct Hjk; apply (I j k (n - 1)%nat).
        -- intros (q & Hq & ->). rewrite decide_False; [done|]. intros ->. by destruct Hjk; apply (I j k (n - 1)%nat).
  - assert (p = n - 1)%nat as -> by lia. eexists _, _. split; [done|]. split.
    + done.
    + intros q Hq Hne. fold n. unfold moved. by rewrite decide_False.
    + intros j q' Hj. fold n. unfold moved. split.
      * intros Hq. exists q'. split; [done|]. by destruct (decide _).
      * intros (q & Hq & ->). destruct (decide (q = n - 1)%nat) as [->|]; done.
Qed.

Lemma removed_ok v idx p objects m m' : sv_ok v -> sv_index v !! idx = Some (Some p) -> sv_removed v idx p objects m ->
  (forall i q, m' !! i = Some (Some q) <-> i <> idx /\ m !! i = Some (Some q)) -> m' !! (length m' - 1)%nat <> Some None ->
  sv_ok (SlottedVector (take (length objects - 1) objects) m')
  /\ forall i, sv_at (SlottedVector (take (length objects - 1) objects) m') i = if decide (i = idx) then None else sv_at v i.
Proof.
  intros [R I S L] Hp [[L1 L2] Ho Hi] Hm' Hlast. pose proof (R _ _ Hp) as Hlt. set (n := sv_size v) in *.
  assert (forall i q, i <> idx -> sv_index v !! i = Some (Some q) -> q <> p /\ (moved p (n - 1) q < n - 1)%nat) as Hmv.
  { intros i q Hne Hq. assert (q <> p) as Hqp by (intros ->; by apply Hne, (I i idx p)). split; [done|].
    pose proof (R _ _ Hq). fold n in H. unfold moved. destruct (decide _); lia. }
  assert (sv_size (SlottedVector (take (length objects - 1) objects) m') = n - 1)%nat as Hn by (unfold sv_size; cbn; rewrite length_take; lia).
  split; [split|].
  - intros i q (Hne & Hq)%Hm'. rewrite Hn. apply Hi in Hq as (q0 & Hq0 & ->); [|done]. by apply (Hmv i q0).
  - intros i j q (Hni & Hqi)%Hm' (Hnj & Hqj)%Hm'. apply Hi in Hqi as (qi & Hqi & ->); [|done]. apply Hi in Hqj as (qj & Hqj & Heq); [|done].
    apply (I i j qi); [done|]. enough (qi = qj) as -> by done. destruct (Hmv i qi Hni Hqi), (Hmv j qj Hnj Hqj).
    unfold moved in Heq. destruct (decide (qi = _)), (decide (qj = _)); congruence.
  - intros q. rewrite Hn. intros Hq. destruct (decide (q = p)) as [->|Hqp].
    + destruct (S (n - 1)%nat ltac:(lia)) as [i Hii]. exists i. apply Hm'. assert (i <> idx) as Hne by (intros ->; assert (p = n - 1)%nat by congruence; lia).
      split; [done|]. apply Hi; [done|]. exists (n - 1)%nat. unfold moved. by rewrite decide_True.
    + destruct (S q ltac:(lia)) as [i Hii]. exists i. apply Hm'. assert (i <> idx) as Hne by congruence. split; [done|].
      apply Hi; [done|]. exists q. unfold moved. by rewrite decide_False by lia.
  - done.
  - intros i. unfold sv_at. cbn [sv_index sv_objects]. destruct (decide (i = idx)) as [->|Hne].
    + destruct (m' !! idx) as [[q|]|] eqn:E; [|done|done]. by apply Hm' in E as [? _].
    + destruct (sv_index v !! i) as [[q|]|] eqn:E.
      * destruct (Hmv i q Hne E) as [Hqp Hlt']. rewrite (proj2 (Hm' i (moved p (n - 1) q))).
        -- rewrite lookup_take_lt by lia. apply Ho; [by eapply R|done].
        -- split; [done|]. apply Hi; [done|]. by exists q.
      * destruct (m' !! i) as [[q|]|] eqn:E'; [|done|done]. apply Hm' in E' as [_ (q0 & Hq0 & _)%Hi]; [congruence|done].
      * destruct (m' !! i) as [[q|]|] eqn:E'; [|done|done]. apply Hm' in E' as [_ (q0 & Hq0 & _)%Hi]; [congruence|done].
Qed.

Lemma sv_erase_spec v idx : sv_ok v -> exists v', sv_erase v idx = Some (sv_contains v idx, v') /\ sv_ok v'
  /\ forall i, sv_at v' i = if decide (i = idx) then None else sv_at v i.
Proof.
  intros Hok. unfold sv_erase, sv_contains. destruct (sv_index v !! idx) as [[p|]|] eqn:E.
  - destruct (sv_swap v idx p Hok E) as (objects & m & -> & Hr). pose proof (sr_length _ _ _ _ _ Hr) as [_ Hlm].
    assert (forall i q, <[idx := None]> m !! i = Some (Some q) <-> i <> idx /\ m !! i = Some (Some q)) as Hm1.
    { intros i q. destruct (decide (i = idx)) as [->|Hne]; [|rewrite list_lookup_insert_ne by done; tauto].
      split; [|tauto]. rewrite list_lookup_insert_eq; [done|]. rewrite Hlm. by eapply lookup_lt_Some. }
    set (m1 := <[idx := None]> m) in *. eexists. split; [done|].
    destruct (decide (idx = length m1 - 1)%nat) as [Hlast|Hlast].
    + apply (removed_ok v idx p objects m); try done; [|apply drop_absent_last]. intros i q. rewrite drop_absent_present. apply Hm1.
    + apply (removed_ok v idx p objects m); try done. subst m1. rewrite length_insert in *.
      rewrite list_lookup_insert_ne by done. intros Hn.
      destruct (sv_index v !! (length m - 1)%nat) as [[q|]|] eqn:E'.
      * rewrite (proj2 (sr_index _ _ _ _ _ Hr (length m - 1)%nat (moved p (sv_size v - 1) q) ltac:(congruence))) in Hn; [done|by exists q].
      * destruct Hok as [_ _ _ L]. rewrite Hlm in E'. congruence.
      * apply lookup_ge_None in E'. apply lookup_lt_Some in E. lia.
  - eexists. split; [done|]. split; [done|]. intros i. destruct (decide (i = idx)) as [->|]; [|done]. unfold sv_at. by rewrite E.
  - eexists. split; [done|]. split; [done|]. intros i. destruct (decide (i = idx)) as [->|]; [|done]. unfold sv_at. by rewrite E.
Qed.

(** ** The finite map of a vector *)
Definition sv_map (v : slotted_vector A) : gmap nat A :=
  list_to_map (omap (fun i => (fun x => (i, x)) <$> sv_at v i) (seq 0 (length (sv_index v)))).

Lemma sv_map_lookup v i : sv_map v !! i = sv_at v i.
Proof.
  assert (forall n k, (list_to_map (omap (fun i => (fun x => (i, x)) <$> sv_at v i) (seq k n)) : gmap nat A) !! i
            = if decide (k <= i < k + n)%nat then sv_at v i else None) as H.
  { induction n as [|n IH]; intros k; cbn [seq omap list_omap].
    - rewrite decide_False by lia. apply lookup_empty.
    - specialize (IH (S k)). destruct (sv_at v k) as [x|] eqn:E; cbn [fmap option_fmap option_map].
      + cbn [list_to_map foldr uncurry fst snd]. destruct (decide (i = k)) as [->|Hne].
        * rewrite lookup_insert_eq, decide_True by lia. done.
        * rewrite lookup_insert_ne by done. etransitivity; [exact IH|]. destruct (decide (S k <= i < S k + n)%nat), (decide (k <= i < k + S n)%nat); (done || lia).
      + etransitivity; [exact IH|]. destruct (decide (S k <= i < S k + n)%nat), (decide (k <= i < k + S n)%nat); try (done || lia).
        assert (i = k) as -> by lia. done. }
  unfold sv_map. rewrite H. destruct (decide _) as [|Hn]; [done|]. unfold sv_at. by rewrite (lookup_ge_None_2 (sv_index v) i) by lia.
Qed.

Lemma sv_map_size v : sv_ok v -> size (sv_map v) = sv_size v.
Proof.
  intros Hok. pose proof Hok as [R I S L]. set (key := fun p => default O (find_index (sv_index v) p)).
  assert (forall p, (p < sv_size v)%nat -> sv_index v !! key p = Some (Some p)) as Hkey.
  { intros p Hp. destruct (S p Hp) as [i Hi]. destruct (find_index_Some _ _ _ Hi) as (k & Hk & Hk'). unfold key. by rewrite Hk. }
  rewrite <- size_dom. assert (dom (sv_map v) = list_to_set (key <$> seq 0 (sv_size v))) as ->.
  - apply set_eq. intros i. rewrite elem_of_dom, sv_map_lookup, elem_of_list_to_set, list_elem_of_fmap. split.
    + unfold sv_at. destruct (sv_index v !! i) as [[p|]|] eqn:E; [|by intros [? ?]|by intros [? ?]]. intros _. pose proof (R _ _ E) as Hp.
      exists p. split; [|apply elem_of_seq; lia]. apply (I i (key p) p); [done|by apply Hkey].
    + intros (p & -> & Hp%elem_of_seq). unfold sv_at. rewrite Hkey by lia. apply lookup_lt_is_Some_2. unfold sv_size in Hp. lia.
  - rewrite size_list_to_set; [by rewrite length_fmap, length_seq|]. apply NoDup_fmap_2_strong; [|apply NoDup_seq].
    intros p q Hp%elem_of_seq Hq%elem_of_seq Heq. pose proof (Hkey p ltac:(lia)) as H1. rewrite Heq, Hkey in H1 by lia. congruence.
Qed.

(** No position is absent exactly when the vectors have the same length. *)
Lemma sv_full v : sv_ok v -> length (sv_objects v) = length (sv_index v) <-> forall i, (i < length (sv_index v))%nat -> is_Some (sv_at v i).
Proof.
  intros Hok. pose proof (sv_map_size v Hok) as Hsz. rewrite <- size_dom in Hsz. unfold sv_size in Hsz.
  assert (dom (sv_map v) ⊆ list_to_set (seq 0 (length (sv_index v)))) as Hsub.
  { intros i. rewrite elem_of_dom, sv_map_lookup, elem_of_list_to_set, elem_of_seq. unfold sv_at.
    destruct (sv_index v !! i) as [o|] eqn:E; [|by intros [? ?]]. apply lookup_lt_Some in E. lia. }
  assert (size (list_to_set (seq 0 (length (sv_index v))) : gset nat) = length (sv_index v)) as Hn.
  { rewrite size_list_to_set by apply NoDup_seq. apply length_seq. }
  rewrite <- Hsz. split.
  - intros Heq i Hi. rewrite <- sv_map_lookup. apply elem_of_dom. rewrite (set_subseteq_size_eq _ _ Hsub) by lia.
    apply elem_of_list_to_set, elem_of_seq. lia.
  - intros Hall. rewrite <- Hn. f_equal. apply set_eq. intros i. split; [apply Hsub|].
    rewrite elem_of_list_to_set, elem_of_seq, elem_of_dom, sv_map_lookup. intros Hi. apply Hall. lia.
Qed.

Lemma sv_at_present v i : sv_ok v -> is_Some (sv_at v i) <-> exists p, sv_index v !! i = Some (Some p).
Proof.
  intros [R _ _ _]. unfold sv_at. split.
  - destruct (sv_index v !! i) as [[p|]|]; [by exists p|by intros [? ?]|by intros [? ?]].
  - intros [p E]. rewrite E. apply lookup_lt_is_Some_2. by eapply R.
Qed.

Lemma sv_find_first_empty_spec v : sv_ok v -> let n := sv_find_first_empty v 0 in sv_at v n = None /\ forall i, (i < n)%nat -> is_Some (sv_at v i).
Proof.
  intros Hok. pose proof (sv_full v Hok) as Hfull. unfold sv_find_first_empty. destruct (decide _) as [Heq|Hne].
  - split; [|by apply Hfull]. unfold sv_at. by rewrite (lookup_ge_None_2 (sv_index v)) by lia.
  - rewrite drop_0. destruct (list_find (eq None) (sv_index v)) as [[k x]|] eqn:E.
    + apply list_find_Some in E as (Hk & <- & Hbefore). cbn. split; [unfold sv_at; by rewrite Hk|]. intros i Hi. apply sv_at_present; [done|].
      destruct (sv_index v !! i) as [[p|]|] eqn:Ei; [by exists p|by destruct (Hbefore i None Ei Hi)|].
      apply lookup_ge_None in Ei. apply lookup_lt_Some in Hk. lia.
    + destruct Hne. apply Hfull. intros i [o Ho]%lookup_lt_is_Some_2. apply sv_at_present; [done|]. destruct o as [p|]; [by exists p|].
      apply list_find_None in E. rewrite list.Forall_forall in E. destruct (E None); [by eapply list_elem_of_lookup_2|done].
Qed.

(** The operations on the map of a vector. *)
Lemma sv_contains_map v idx : sv_ok v -> sv_contains v idx = bool_decide (is_Some (sv_map v !! idx)).
Proof. intros Hok. rewrite contains_at, sv_map_lookup by done. by destruct (sv_at v idx). Qed.
Lemma sv_emplace_map v idx x : sv_ok v -> sv_ok (sv_emplace v idx x) /\ sv_map (sv_emplace v idx x) = <[idx := x]> (sv_map v).
Proof.
  intros Hok. destruct (sv_emplace_spec v idx x Hok) as [Hok1 Hat1]. split; [done|].
  apply map_eq. intros i. rewrite sv_map_lookup, Hat1, lookup_insert, sv_map_lookup. destruct (decide (i = idx)), (decide (idx = i)); congruence.
Qed.
Lemma sv_insert_map v idx x : sv_ok v -> let '(b, v') := sv_insert v idx x in
  sv_ok v' /\ b = bool_decide (sv_map v !! idx = None) /\ sv_map v' = if b then <[idx := x]> (sv_map v) else sv_map v.
Proof.
  intros Hok. unfold sv_insert. rewrite sv_contains_map by done. destruct (sv_map v !! idx) as [y|] eqn:E; cbn; [done|].
  destruct (sv_emplace_map v idx x Hok). done.
Qed.
Lemma sv_erase_map v idx : sv_ok v ->
  exists v', sv_erase v idx = Some (bool_decide (is_Some (sv_map v !! idx)), v') /\ sv_ok v' /\ sv_map v' = delete idx (sv_map v).
Proof.
  intros Hok. destruct (sv_erase_spec v idx Hok) as (v2 & He2 & Hok2 & Hat2). exists v2. rewrite <- sv_contains_map by done.
  split_and!; [done|done|]. apply map_eq. intros i. rewrite sv_map_lookup, Hat2, lookup_delete, sv_map_lookup.
  destruct (decide (i = idx)), (decide (idx = i)); congruence.
Qed.
End Invariant.

(** Slotted_vector implements a finite map: on every vector that its invariant allows, insertion (with and
    without overwriting), removal (which moves the last element into the hole and never fails its assertion), lookup,
    membership and size are those of the map, the search for a free index from the start returns the first free one,
    and every operation preserves the invariant. *)
Theorem slotted_vector_refines_finite_map {A} (v : slotted_vector A) idx (x : A) : sv_ok v ->
  (forall i, sv_at v i = sv_map v !! i) /\ sv_contains v idx = bool_decide (is_Some (sv_map v !! idx)) /\ sv_size v = size (sv_map v)
  /\ (sv_ok (sv_emplace v idx x) /\ sv_map (sv_emplace v idx x) = <[idx := x]> (sv_map v))
  /\ (let '(b, v') := sv_insert v idx x in sv_ok v' /\ b = bool_decide (sv_map v !! idx = None)
      /\ sv_map v' = if b then <[idx := x]> (sv_map v) else sv_map v)
  /\ (exists v', sv_erase v idx = Some (bool_decide (is_Some (sv_map v !! idx)), v') /\ sv_ok v' /\ sv_map v' = delete idx (sv_map v))
  /\ (let n := sv_find_first_empty v 0 in sv_map v !! n = None /\ forall i, (i < n)%nat -> is_Some (sv_map v !! i)).
Proof.
  intros Hok. split_and!; [intros i; by rewrite sv_map_lookup|by apply sv_contains_map|by rewrite sv_map_size|by apply sv_emplace_map..|
    by apply sv_insert_map|by apply sv_erase_map|].
  destruct (sv_find_first_empty_spec v Hok) as [H1 H2]. cbv zeta. split; [by rewrite sv_map_lookup|]. intros i Hi. rewrite sv_map_lookup. by apply H2.
Qed.
Definition sv_demo : slotted_vector Z := sv_emplace (sv_emplace (sv_emplace sv_empty 4 40) 1 10) 7 70.
Lemma slotted_vector_refines_finite_map_witness :
  sv_map sv_demo = list_to_map [(4%nat, 40); (1%nat, 10); (7%nat, 70)] /\
  exists v', sv_erase sv_demo 4 = Some (true, v') /\ sv_ok v' /\ sv_map v' = delete 4%nat (sv_map sv_demo).
Proof.
  split; [vm_compute; reflexivity|].
  destruct (slotted_vector_refines_finite_map sv_demo 4 0) as (_ & _ & _ & _ & _ & H & _); [|exact H].
  apply sv_emplace_spec, sv_emplace_spec, sv_emplace_spec, sv_ok_empty.
Defined.

(** A search for a free index that starts behind the last free one may return an index that is in use. *)
Example sv_find_first_empty_occupied :
  let v := sv_emplace (sv_emplace sv_empty 1 10) 2 20 in
  sv_find_first_empty v 1 = 2%nat /\ sv_contains v 2 = true.
Proof. vm_compute. done. Qed.
