(* ===== verification/MacUl.v ===== *)
(** * MAC uplink

    [lib/mac/mac_ul/lcid_ul_sch.h], [mac_ul_sch_pdu.h/.cpp]: the decoding of
    UL-SCH PDUs into subPDUs; [ul_bsr.h/.cpp]: buffer status reports;
    [mac_ul_ue_manager.h/.cpp] and [pdu_rx_handler.h/.cpp]: the uplink bearers of
    the UEs and the handling of received PDUs.

    A [byte_buffer_reader] is the list of the bytes that are left.  [None] is a
    failed check or a read outside of a buffer.  What the handler sends to other
    components is a list of events, in order. *)
From S2P Require Import Prelude SlottedVector.

(** ** Logical channel identities *)
Definition LCID1 : Z := 1.
Definition LCID32 : Z := 32.
Definition MIN_RESERVED : Z := 33.
Definition MAX_RESERVED : Z := 51.
Definition CCCH_SIZE_64 : Z := 0.
Definition CCCH_SIZE_48 : Z := 52.
Definition BIT_RATE_QUERY : Z := 53.
Definition SE_PHR : Z := 57.
Definition CRNTI : Z := 58.
Definition SHORT_TRUNC_BSR : Z := 59.
Definition LONG_TRUNC_BSR : Z := 60.
Definition SHORT_BSR : Z := 61.
Definition LONG_BSR : Z := 62.
Definition PADDING : Z := 63.

Definition is_ccch (lcid : Z) : bool := (lcid =? CCCH_SIZE_48) || (lcid =? CCCH_SIZE_64).
Definition is_sdu (lcid : Z) : bool := (lcid <=? LCID32) && (LCID1 <=? lcid).
Definition is_valid_lcid (lcid : Z) : bool := (lcid <=? PADDING) && ((lcid <? MIN_RESERVED) || (MAX_RESERVED <? lcid)).
Definition is_var_len_ce (lcid : Z) : bool := (lcid =? LONG_TRUNC_BSR) || (lcid =? LONG_BSR).
Definition has_length_field (lcid : Z) : bool := if is_ccch lcid then false else is_sdu lcid || is_var_len_ce lcid.
Definition sizeof_ce (lcid : Z) : Z :=
  if lcid =? CCCH_SIZE_48 then 6
  else if lcid =? CCCH_SIZE_64 then 8
  else if lcid =? CRNTI then 2
  else if (lcid =? SHORT_BSR) || (lcid =? SHORT_TRUNC_BSR) then 1
  else if lcid =? SE_PHR then 2
  else if (lcid =? LONG_BSR) || (lcid =? LONG_TRUNC_BSR) then 1
  else 0.

(** ** PDUs *)
Record mac_ul_sch_subpdu := UlSubpdu { us_lcid : Z; us_header_length : Z; us_F_bit : bool; us_payload : bytes }.

(** The decoded subPDU and the bytes after it. *)
Definition subpdu_unpack (b : bytes) : option (mac_ul_sch_subpdu * bytes) :=
  let subpdu_len := blen b in
  match b with
  | [] => None
  | h :: r =>
      let F := 0 <? Z.land h 0x40 in
      let lcid := Z.land h 0x3f in
      if negb (is_valid_lcid lcid) then None
      else if has_length_field lcid then
        if subpdu_len <? (if F then 3 else 2) then None
        else
          match r with
          | l1 :: r =>
              let* (header_length, sdu_length, r) :=
                if F then match r with l2 :: r => Some (3, Z.lor (Z.shiftl l1 8) (Z.land l2 0xff), r) | [] => None end
                else Some (2, l1, r) in
              if subpdu_len <? header_length + sdu_length then None
              else Some (UlSubpdu lcid header_length F (take (Z.to_nat sdu_length) r), bdrop sdu_length r)
          | [] => None
          end
      else if lcid =? PADDING then Some (UlSubpdu lcid 1 F r, [])
      else
        let sdu_length := sizeof_ce lcid in
        if subpdu_len <? 1 + sdu_length then None
        else Some (UlSubpdu lcid 1 F (take (Z.to_nat sdu_length) r), bdrop sdu_length r)
  end.

Definition MAX_SUBPDUS_PER_PDU : nat := 512.

(** [mac_ul_sch_pdu::unpack]: the result and the list of subPDUs.  Every subPDU
    has at least one byte: the number of bytes bounds the iterations. *)
Fixpoint unpack_subpdus (fuel : nat) (b : bytes) (subpdus : list mac_ul_sch_subpdu) : bool * list mac_ul_sch_subpdu :=
  match fuel, b with
  | _, [] => (true, subpdus)
  | O, _ => (true, subpdus)
  | S fuel, _ =>
      if decide (length subpdus = MAX_SUBPDUS_PER_PDU) then (true, subpdus)
      else match subpdu_unpack b with
           | Some (s, r) => unpack_subpdus fuel r (subpdus ++ [s])
           | None => (false, [])
           end
  end.
Definition pdu_unpack (payload : bytes) : bool * list mac_ul_sch_subpdu := unpack_subpdus (length payload) payload [].

Definition INVALID_RNTI : Z := 0.
Definition MAX_CRNTI : Z := 0xffef.
Definition is_crnti (rnti : Z) : bool := (rnti <=? MAX_CRNTI) && (1 <=? rnti).
Definition decode_crnti_ce (payload : bytes) : Z :=
  match payload with
  | b0 :: b1 :: _ => Z.lor (Z.shiftl b0 8) b1
  | _ => INVALID_RNTI
  end.

(** ** Buffer status reports *)
Inductive bsr_format := fmt_short_bsr | fmt_long_bsr | fmt_short_trunc_bsr | fmt_long_trunc_bsr.
#[export] Instance bsr_format_eq_dec : EqDecision bsr_format.
Proof. solve_decision. Defined.

Record lcg_bsr_report := LcgBsr { lb_lcg_id : Z; lb_buffer_size : Z }.
Definition MAX_NOF_LCGS : nat := 8.

Definition decode_sbsr (payload : bytes) : option lcg_bsr_report :=
  match payload with
  | [] => None
  | b :: _ => Some (LcgBsr (Z.shiftr (Z.land b 0xe0) 5) (Z.land b 0x1f))
  end.

(** The loop over the logical channel groups from [i] on. *)
Fixpoint lbsr_loop (n : nat) (i : Z) (bitmap : Z) (format : bsr_format) (b : bytes) : list lcg_bsr_report :=
  match n with
  | O => []
  | S n =>
      if Z.land bitmap (Z.shiftl 1 i) =? 0 then lbsr_loop n (i + 1) bitmap format b
      else
        match b with
        | x :: b => LcgBsr i x :: lbsr_loop n (i + 1) bitmap format b
        | [] => LcgBsr i (if decide (format = fmt_long_trunc_bsr) then 64 else 0) :: lbsr_loop n (i + 1) bitmap format []
        end
  end.

(** The bitmap and the reports; the first byte must exist. *)
Definition decode_lbsr (format : bsr_format) (payload : bytes) : option (Z * list lcg_bsr_report) :=
  match payload with
  | [] => None
  | bitmap :: b => Some (bitmap, if bitmap =? 0 then [] else lbsr_loop MAX_NOF_LCGS 0 bitmap format b)
  end.

Definition buffer_size_levels_5bit : list Z :=
  [0; 10; 14; 20; 28; 38; 53; 74; 102; 142; 198; 276; 384; 535; 745; 1038; 1446; 2014; 2806; 3909; 5446; 7587;
   10570; 14726; 20516; 28581; 39818; 55474; 77284; 107669; 150000; 150000].
Definition buffer_size_levels_8bit : list Z :=
  [0; 10; 11; 12; 13; 14; 15; 16; 17; 18; 19; 20; 22; 23; 25; 26;
   28; 30; 32; 34; 36; 38; 40; 43; 46; 49; 52; 55; 59; 62; 66; 71;
   75; 80; 85; 91; 97; 103; 110; 117; 124; 132; 141; 150; 160; 170; 181; 193;
   205; 218; 233; 248; 264; 281; 299; 318; 339; 361; 384; 409; 436; 464; 494; 526;
   560; 597; 635; 677; 720; 767; 817; 870; 926; 987; 1051; 1119; 1191; 1269; 1351; 1439;
   1532; 1631; 1737; 1850; 1970; 2098; 2234; 2379; 2533; 2698; 2873; 3059; 3258; 3469; 3694; 3934;
   4189; 4461; 4751; 5059; 5387; 5737; 6109; 6506; 6928; 7378; 7857; 8367; 8910; 9488; 10104; 10760;
   11458; 12202; 12994; 13838; 14736; 15692; 16711; 17795; 18951; 20181; 21491; 22885; 24371; 25953; 27638; 29431;
   31342; 33376; 35543; 37850; 40307; 42923; 45709; 48676; 51836; 55200; 58784; 62599; 66663; 70990; 75598; 80505;
   85730; 91295; 97221; 103532; 110252; 117409; 125030; 133146; 141789; 150992; 160793; 171231; 182345; 194182; 206786; 220209;
   234503; 249725; 265935; 283197; 301579; 321155; 342002; 364202; 387842; 413018; 439827; 468377; 498780; 531156; 565634; 602350;
   641449; 683087; 727427; 774645; 824928; 878475; 935498; 996222; 1060888; 1129752; 1203085; 1281179; 1364342; 1452903; 1547213; 1647644;
   1754595; 1868488; 1989774; 2118933; 2256475; 2402946; 2558924; 2725027; 2901912; 3090279; 3290873; 3504487; 3731968; 3974215; 4232186; 4506902;
   4799451; 5110989; 5442750; 5796046; 6172275; 6572925; 6999582; 7453933; 7937777; 8453028; 9001725; 9586039; 10208280; 10870913; 11576557; 12328006;
   13128233; 13980403; 14887889; 15854280; 16883401; 17979324; 19146385; 20389201; 21712690; 23122088; 24622972; 26221280; 27923336; 29735875; 31666069; 33721553;
   35910462; 38241455; 40723756; 43367187; 46182206; 49179951; 52372284; 55771835; 59392055; 63247269; 67352729; 71724679; 76380419; 81338368; 81338368].

Definition bsr_max_offset : Z := 150000.
Definition level_to_bytes (levels : list Z) (index : Z) : option Z :=
  let last := Z.of_nat (length levels) - 1 in
  let* level := levels !! Z.to_nat (Z.min index last) in
  Some (u32 (level + if last <=? index then bsr_max_offset else 0)).

Definition buff_size_field_to_bytes (index : Z) (format : bsr_format) : option Z :=
  if index =? 0 then Some 0
  else
    match format with
    | fmt_short_bsr | fmt_short_trunc_bsr => level_to_bytes buffer_size_levels_5bit index
    | fmt_long_bsr | fmt_long_trunc_bsr => level_to_bytes buffer_size_levels_8bit index
    end.

(** The report to the scheduler: group and number of bytes. *)
Definition make_sched_lcg_report (r : lcg_bsr_report) (format : bsr_format) : option (Z * Z) :=
  let* n := buff_size_field_to_bytes (lb_buffer_size r) format in Some (lb_lcg_id r, n).

(** ** UEs and their uplink bearers

    [rnti_table] maps C-RNTIs to UE indexes, [ue_db] the UE indexes to the bearers
    by LCID; a bearer is known by a number. *)
Definition INVALID_DU_UE_INDEX : Z := 1024.
Definition is_du_ue_index_valid (ue : Z) : bool := ue <? 1024.
Record mac_ul_ues := MacUlUes { mu_rnti_table : gmap Z Z; mu_ue_db : gmap Z (slotted_vector Z) }.

(** [rnti_table[crnti]] *)
Definition rnti_lookup (u : mac_ul_ues) (crnti : Z) : option Z :=
  if is_crnti crnti then Some (default INVALID_DU_UE_INDEX (mu_rnti_table u !! crnti)) else None.

Definition insert_bearers (b : slotted_vector Z) (l : list (nat * Z)) : slotted_vector Z :=
  foldl (fun b c => (sv_insert b c.1 c.2).2) b l.
Definition addmod_bearers (u : mac_ul_ues) (ue : Z) (l : list (nat * Z)) : bool * mac_ul_ues :=
  match mu_ue_db u !! ue with
  | None => (false, u)
  | Some b => (true, MacUlUes (mu_rnti_table u) (<[ue := insert_bearers b l]> (mu_ue_db u)))
  end.
Definition add_ue (u : mac_ul_ues) (ue crnti : Z) (l : list (nat * Z)) : option (bool * mac_ul_ues) :=
  if negb (is_crnti crnti) then None
  else
    match mu_ue_db u !! ue with
    | Some _ => Some (false, u)
    | None => Some (addmod_bearers (MacUlUes (mu_rnti_table u) (<[ue := sv_empty]> (mu_ue_db u))) ue l)
    end.
Definition remove_ue (u : mac_ul_ues) (ue : Z) : mac_ul_ues := MacUlUes (mu_rnti_table u) (delete ue (mu_ue_db u)).
Fixpoint erase_bearers (b : slotted_vector Z) (lcids : list nat) : option (slotted_vector Z) :=
  match lcids with
  | [] => Some b
  | l :: lcids => let* (_, b) := sv_erase b l in erase_bearers b lcids
  end.
Definition remove_bearers (u : mac_ul_ues) (ue : Z) (lcids : list nat) : option (bool * mac_ul_ues) :=
  match mu_ue_db u !! ue with
  | None => Some (false, u)
  | Some b => let* b := erase_bearers b lcids in Some (true, MacUlUes (mu_rnti_table u) (<[ue := b]> (mu_ue_db u)))
  end.

(** ** Received PDUs *)
Inductive mac_ul_event :=
  | ev_sdu (bearer : Z) (sdu : bytes)
  | ev_ccch (crnti : Z) (msg : bytes)
  | ev_bsr (ue crnti : Z) (format : bsr_format) (lcgs : list (Z * Z))
  | ev_sr (ue crnti : Z).

(** The PDU being processed: the C-RNTI and the UE index may change. *)
Record rx_ctx := RxCtx { rc_rnti : Z; rc_ue : Z; rc_subpdus : list mac_ul_sch_subpdu }.

Definition mac_handle_sdu (u : mac_ul_ues) (c : rx_ctx) (s : mac_ul_sch_subpdu) : bool * list mac_ul_event :=
  match mu_ue_db u !! rc_ue c with
  | None => (false, [])
  | Some b => match sv_at b (Z.to_nat (us_lcid s)) with Some x => (true, [ev_sdu x (us_payload s)]) | None => (false, []) end
  end.

Definition handle_ccch_msg (c : rx_ctx) (s : mac_ul_sch_subpdu) : bool * list mac_ul_event :=
  if negb (rc_ue c =? INVALID_DU_UE_INDEX) then (true, []) else (true, [ev_ccch (rc_rnti c) (us_payload s)]).

Fixpoint sched_reports (l : list lcg_bsr_report) (format : bsr_format) : option (list (Z * Z)) :=
  match l with
  | [] => Some []
  | r :: l => let* x := make_sched_lcg_report r format in let* xs := sched_reports l format in Some (x :: xs)
  end.

Definition handle_mac_ce (c : rx_ctx) (s : mac_ul_sch_subpdu) : option (bool * list mac_ul_event) :=
  let lcid := us_lcid s in
  if is_ccch lcid then Some (handle_ccch_msg c s)
  else if (lcid =? SHORT_BSR) || (lcid =? SHORT_TRUNC_BSR) then
    if negb (is_du_ue_index_valid (rc_ue c)) then Some (false, [])
    else
      let f := if lcid =? SHORT_BSR then fmt_short_bsr else fmt_short_trunc_bsr in
      let* r := decode_sbsr (us_payload s) in
      let* (lcg, n) := make_sched_lcg_report r f in
      let lcgs := if n =? 0 then map (fun j => (j, 0)) (seqZ 0 8) else [(lcg, n)] in
      Some (true, [ev_bsr (rc_ue c) (rc_rnti c) f lcgs])
  else if (lcid =? LONG_BSR) || (lcid =? LONG_TRUNC_BSR) then
    if negb (is_du_ue_index_valid (rc_ue c)) then Some (false, [])
    else
      let f := if lcid =? LONG_BSR then fmt_long_bsr else fmt_long_trunc_bsr in
      let* (_, l) := decode_lbsr f (us_payload s) in
      let* lcgs := sched_reports l f in
      Some (true, [ev_bsr (rc_ue c) (rc_rnti c) f lcgs])
  else Some (true, []).

Definition handle_subpdu (u : mac_ul_ues) (c : rx_ctx) (s : mac_ul_sch_subpdu) : option (bool * list mac_ul_event) :=
  if is_sdu (us_lcid s) then Some (mac_handle_sdu u c s) else handle_mac_ce c s.

Fixpoint handle_rx_subpdus (u : mac_ul_ues) (c : rx_ctx) (l : list mac_ul_sch_subpdu) : option (bool * list mac_ul_event) :=
  match l with
  | [] => Some (true, [])
  | s :: l =>
      let* (ok, evs) := handle_subpdu u c s in
      if ok : bool then let* (ok, evs') := handle_rx_subpdus u c l in Some (ok, evs ++ evs')
      else Some (false, evs)
  end.

(** [executed] tells whether the executor of the UE takes the continuation. *)
Definition handle_crnti_ce (executed : bool) (u : mac_ul_ues) (c : rx_ctx) (s : mac_ul_sch_subpdu)
    : option (bool * list mac_ul_event) :=
  let rnti := decode_crnti_ce (us_payload s) in
  if rnti =? INVALID_RNTI then Some (false, [])
  else
    let* ue := rnti_lookup u rnti in
    let c := RxCtx rnti ue (rc_subpdus c) in
    if executed then
      let* (ok, evs) := handle_rx_subpdus u c (rc_subpdus c) in
      Some (true, if ok : bool then evs ++ [ev_sr ue rnti] else evs)
    else Some (true, []).

Definition handle_rx_pdu (executed : bool) (u : mac_ul_ues) (rnti : Z) (pdu : bytes) : option (bool * list mac_ul_event) :=
  let* ue := rnti_lookup u rnti in
  if decide (pdu = []) then None
  else
    let (ok, subpdus) := pdu_unpack pdu in
    if negb ok then Some (false, [])
    else
      let c := RxCtx rnti ue subpdus in
      match List.find (fun s => us_lcid s =? CRNTI) (rev subpdus) with
      | Some s => handle_crnti_ce executed u c s
      | None => handle_rx_subpdus u c subpdus
      end.

(** [push_ul_ccch_msg] *)
Definition push_ul_ccch_msg (u : mac_ul_ues) (ue : Z) (msg : bytes) : bool * list mac_ul_event :=
  match mu_ue_db u !! ue with
  | None => (false, [])
  | Some b => match sv_at b 0 with Some x => (true, [ev_sdu x msg]) | None => (false, []) end
  end.
