(* ===== verification/MacUlThms.v ===== *)
(** * MAC uplink: properties

    The decoder of UL-SCH PDUs accepts exactly the PDUs of the format of TS 38.321
    section 6.1.2, the handler routes their contents, and the buffer size levels
    cover what the UE reports. *)
From S2P Require Import Prelude SlottedVector MacUl.

(** ** The format of subPDUs and PDUs

    [R] is the reserved bit, which receivers ignore. *)
Definition subheader (R F : bool) (lcid : Z) : Z := (if R then 128 else 0) + (if F then 64 else 0) + lcid.

(** TS 38.321 table 6.2.1-2 with the sizes of section 6.1.3: logical channels and the variable size control elements have
    a length field, CCCH and the other control elements have a fixed number of octets (8 and 6 for the CCCH; 2 for the
    recommended bit rate query, the single entry PHR and the C-RNTI; 1 for the short buffer status reports; 0 for the
    configured grant confirmation), padding goes to the end of the PDU, LCIDs 33 to 51 are reserved. *)
Inductive ul_subpdu_kind := kind_variable | kind_fixed (octets : Z) | kind_padding.
#[export] Instance ul_subpdu_kind_eq_dec : EqDecision ul_subpdu_kind.
Proof. solve_decision. Defined.
Definition ts38321_ul_sch (lcid : Z) : option ul_subpdu_kind :=
  if (1 <=? lcid) && (lcid <=? 32) then Some kind_variable
  else match lcid with
       | 0 => Some (kind_fixed 8)
       | 52 => Some (kind_fixed 6)
       | 53 => Some (kind_fixed 2)
       | 54 => Some kind_variable
       | 55 => Some (kind_fixed 0)
       | 56 => Some kind_variable
       | 57 => Some (kind_fixed 2)
       | 58 => Some (kind_fixed 2)
       | 59 => Some (kind_fixed 1)
       | 60 => Some kind_variable
       | 61 => Some (kind_fixed 1)
       | 62 => Some kind_variable
       | 63 => Some kind_padding
       | _ => None
       end.

Inductive subpdu_enc : mac_ul_sch_subpdu -> bytes -> Prop :=
  | enc_length8 R lcid p : ts38321_ul_sch lcid = Some kind_variable -> blen p < 256 ->
      subpdu_enc (UlSubpdu lcid 2 false p) (subheader R false lcid :: blen p :: p)
  | enc_length16 R lcid p : ts38321_ul_sch lcid = Some kind_variable -> blen p < 65536 ->
      subpdu_enc (UlSubpdu lcid 3 true p) (subheader R true lcid :: blen p / 256 :: blen p mod 256 :: p)
  | enc_fixed R F lcid p : ts38321_ul_sch lcid = Some (kind_fixed (blen p)) ->
      subpdu_enc (UlSubpdu lcid 1 F p) (subheader R F lcid :: p)
  | enc_padding R F lcid p : ts38321_ul_sch lcid = Some kind_padding -> subpdu_enc (UlSubpdu lcid 1 F p) (subheader R F lcid :: p).

(** Padding is the last subPDU. *)
Inductive pdu_enc : list mac_ul_sch_subpdu -> bytes -> Prop :=
  | enc_nil : pdu_enc [] []
  | enc_cons s e l p : subpdu_enc s e -> (ts38321_ul_sch (us_lcid s) = Some kind_padding -> l = []) -> pdu_enc l p -> pdu_enc (s :: l) (e ++ p).

(** The LCIDs whose size the code does not know: recommended bit rate query and multiple entry PHR, which it takes for
    control elements without payload. *)
Definition supported (lcid : Z) : Prop := lcid <> 53 /\ lcid <> 54 /\ lcid <> 56.
#[export] Instance supported_dec lcid : Decision (supported lcid).
Proof. unfold supported. apply _. Defined.

Lemma ts38321_range lcid k : ts38321_ul_sch lcid = Some k -> 0 <= lcid < 64.
Proof. unfold ts38321_ul_sch. destruct (_ && _) eqn:E; [lia|]. clear E. repeat case_match; intros; (lia || done). Qed.

(** The tables of the code agree with the standard. *)
Lemma code_tables lcid : 0 <= lcid < 64 -> supported lcid ->
  match ts38321_ul_sch lcid with
  | Some kind_variable => is_valid_lcid lcid = true /\ has_length_field lcid = true /\ lcid <> PADDING
  | Some (kind_fixed n) => is_valid_lcid lcid = true /\ has_length_field lcid = false /\ lcid <> PADDING /\ sizeof_ce lcid = n
  | Some kind_padding => lcid = PADDING
  | None => is_valid_lcid lcid = false
  end.
Proof.
  intros Hl Hs. assert (exists k, lcid = Z.of_nat k /\ (k < 64)%nat) as (k & -> & Hk) by (exists (Z.to_nat lcid); lia).
  assert (Forall (fun k => supported (Z.of_nat k) ->
    ts38321_ul_sch (Z.of_nat k) = if negb (is_valid_lcid (Z.of_nat k)) then None else if has_length_field (Z.of_nat k) then Some kind_variable
      else if Z.of_nat k =? PADDING then Some kind_padding else Some (kind_fixed (sizeof_ce (Z.of_nat k)))) (seq 0 64)) as Hall
    by (apply (bool_decide_unpack _); vm_compute; exact I).
  rewrite list.Forall_forall in Hall. rewrite (Hall k) by (rewrite ?elem_of_seq; (done || lia)). clear Hall.
  destruct (is_valid_lcid (Z.of_nat k)) eqn:Ev; [|done]. cbn [negb]. destruct (has_length_field (Z.of_nat k)) eqn:Ef.
  - split_and!; try done. intros Hp. by rewrite Hp in Ef.
  - destruct (Z.eqb_spec (Z.of_nat k) PADDING); [done|]. by split_and!.
Qed.

Lemma subheader_fields R F lcid : 0 <= lcid < 64 -> is_u8 (subheader R F lcid)
  /\ (0 <? Z.land (subheader R F lcid) 0x40) = F /\ Z.land (subheader R F lcid) 0x3f = lcid.
Proof.
  intros H. assert (exists k, lcid = Z.of_nat k /\ (k < 64)%nat) as (k & -> & Hk) by (exists (Z.to_nat lcid); lia).
  assert (Forall (fun k => 0 <= subheader R F (Z.of_nat k) < 256 /\ (0 <? Z.land (subheader R F (Z.of_nat k)) 0x40) = F
    /\ Z.land (subheader R F (Z.of_nat k)) 0x3f = Z.of_nat k) (seq 0 64)) as Hall.
  { destruct R, F; apply (bool_decide_unpack _); vm_compute; exact I. }
  rewrite list.Forall_forall in Hall. apply Hall, elem_of_seq. lia.
Qed.
Lemma subheader_split h : is_u8 h -> exists R, h = subheader R (0 <? Z.land h 0x40) (Z.land h 0x3f) /\ 0 <= Z.land h 0x3f < 64.
Proof.
  intros H. assert (exists k, h = Z.of_nat k /\ (k < 256)%nat) as (k & -> & Hk) by (exists (Z.to_nat h); unfold is_u8 in H; lia).
  exists (128 <=? Z.of_nat k).
  assert (Forall (fun k => Z.of_nat k = subheader (128 <=? Z.of_nat k) (0 <? Z.land (Z.of_nat k) 0x40) (Z.land (Z.of_nat k) 0x3f)
     /\ 0 <= Z.land (Z.of_nat k) 0x3f < 64) (seq 0 256)) as Hall.
  { apply (bool_decide_unpack _). vm_compute. exact I. }
  rewrite list.Forall_forall in Hall. apply Hall, elem_of_seq. lia.
Qed.

Lemma take_drop_exact (p r : bytes) n : n = blen p -> take (Z.to_nat n) (p ++ r) = p /\ bdrop n (p ++ r) = r.
Proof. intros ->. unfold bdrop, blen. rewrite Nat2Z.id. split; [apply take_app_length|apply drop_app_length]. Qed.

(** Decoding what is encoded. *)
Lemma subpdu_unpack_enc s e r : subpdu_enc s e -> supported (us_lcid s) -> (ts38321_ul_sch (us_lcid s) = Some kind_padding -> r = []) ->
  subpdu_unpack (e ++ r) = Some (s, r).
Proof.
  intros H. destruct H as [R lcid p Hk Hp|R lcid p Hk Hp|R F lcid p Hk|R F lcid p Hk]; intros Hsup Hpad; unfold subpdu_unpack; cbn [app us_lcid] in *;
    pose proof (ts38321_range _ _ Hk) as Hl; pose proof (code_tables lcid Hl Hsup) as Ht; rewrite Hk in Ht.
  - destruct Ht as (Hv & Hh & _). destruct (subheader_fields R false lcid Hl) as (_ & -> & ->). rewrite Hv, Hh. cbn [negb].
    pose proof (blen_nonneg p). pose proof (blen_nonneg r). rewrite !blen_cons, blen_app. rewrite !(proj2 (Z.ltb_ge _ _)) by lia.
    destruct (take_drop_exact p r (blen p) eq_refl) as [-> ->]. done.
  - destruct Ht as (Hv & Hh & _). destruct (subheader_fields R true lcid Hl) as (_ & -> & ->). rewrite Hv, Hh. cbn [negb].
    pose proof (blen_nonneg p). pose proof (blen_nonneg r). rewrite !blen_cons, blen_app. rewrite (proj2 (Z.ltb_ge _ _)) by lia.
    assert (Z.lor (Z.shiftl (blen p / 256) 8) (Z.land (blen p mod 256) 0xff) = blen p) as ->.
    { change 0xff with (Z.ones 8). rewrite Z.land_ones, Z.shiftl_mul_pow2 by lia. rewrite (lor_disjoint 8) by mlia. mlia. }
    rewrite (proj2 (Z.ltb_ge _ _)) by lia. destruct (take_drop_exact p r (blen p) eq_refl) as [-> ->]. done.
  - destruct Ht as (Hv & Hh & Hne & Hp). destruct (subheader_fields R F lcid Hl) as (_ & -> & ->). rewrite Hv, Hh, Hp. cbn [negb].
    rewrite (proj2 (Z.eqb_neq lcid PADDING)) by done. pose proof (blen_nonneg r). rewrite !blen_cons, blen_app. rewrite (proj2 (Z.ltb_ge _ _)) by lia.
    destruct (take_drop_exact p r (blen p) eq_refl) as [-> ->]. done.
  - subst lcid. destruct (subheader_fields R F PADDING Hl) as (_ & -> & ->). rewrite (Hpad eq_refl), app_nil_r. done.
Qed.

Lemma slice_split n (r : bytes) : 0 <= n <= blen r -> r = take (Z.to_nat n) r ++ bdrop n r /\ blen (take (Z.to_nat n) r) = n.
Proof. intros H. unfold bdrop. split; [by rewrite take_drop|]. unfold blen in *. rewrite length_take. lia. Qed.

(** Whatever is decoded was encoded. *)
Lemma subpdu_unpack_sound b s r : bytes_ok b -> subpdu_unpack b = Some (s, r) ->
  (length r < length b)%nat /\ bytes_ok r
  /\ (supported (us_lcid s) -> exists e, b = e ++ r /\ subpdu_enc s e /\ (ts38321_ul_sch (us_lcid s) = Some kind_padding -> r = [])).
Proof.
  intros Hb. unfold subpdu_unpack. destruct b as [|h b]; [done|]. apply Forall_cons_1 in Hb as [Hh Hb].
  destruct (subheader_split h Hh) as (R & Eh & Hl). set (F := 0 <? Z.land h 0x40) in *. set (lcid := Z.land h 0x3f) in *.
  destruct (is_valid_lcid lcid) eqn:Ev; [|done]. cbn [negb]. pose proof (code_tables lcid Hl) as Ht. rewrite Ev in Ht. destruct (has_length_field lcid) eqn:Ef.
  - assert (supported lcid -> ts38321_ul_sch lcid = Some kind_variable) as Hk .
    { intros Hs. specialize (Ht Hs). destruct (ts38321_ul_sch lcid) as [[|n|]|]; [done|by destruct Ht as (_ & ? & _)|by rewrite Ht in Ef|done]. }
    destruct (blen _ <? (if F then 3 else 2)) eqn:El; [done|]. clear El. destruct b as [|l1 b]; [done|]. apply Forall_cons_1 in Hb as [Hl1 Hb]. destruct F eqn:EF.
    + destruct b as [|l2 b]; [done|]. apply Forall_cons_1 in Hb as [Hl2 Hb].
      assert (Z.lor (Z.shiftl l1 8) (Z.land l2 0xff) = l1 * 256 + l2) as ->.
      { unfold is_u8 in *. change 0xff with (Z.ones 8). rewrite Z.land_ones, Z.shiftl_mul_pow2, (Z.mod_small l2) by lia. rewrite (lor_disjoint 8) by mlia. lia. }
      destruct (blen _ <? _) eqn:Elen; [done|]. intros [= <- <-]. rewrite !blen_cons in Elen. unfold is_u8 in *.
      destruct (slice_split (l1 * 256 + l2) b ltac:(lia)) as [Hsp Hlen]. set (p := take _ b) in *. set (r0 := bdrop _ b) in *.
      split; [subst r0; unfold bdrop; cbn [length]; rewrite length_drop; lia|]. split; [by apply Forall_drop|]. cbn [us_lcid]. intros Hs. specialize (Hk Hs).
      exists (h :: l1 :: l2 :: p). split_and!; [by rewrite Hsp| |by rewrite Hk].
      rewrite Eh. replace l1 with (blen p / 256) at 1 by (rewrite Hlen; mlia). replace l2 with (blen p mod 256) by (rewrite Hlen; mlia).
      apply enc_length16; [done|]. lia.
    + destruct (blen _ <? _) eqn:Elen; [done|]. intros [= <- <-]. rewrite !blen_cons in Elen. unfold is_u8 in *.
      destruct (slice_split l1 b ltac:(lia)) as [Hsp Hlen]. set (p := take _ b) in *. set (r0 := bdrop _ b) in *.
      split; [subst r0; unfold bdrop; cbn [length]; rewrite length_drop; lia|]. split; [by apply Forall_drop|]. cbn [us_lcid]. intros Hs. specialize (Hk Hs).
      exists (h :: l1 :: p). split_and!; [by rewrite Hsp| |by rewrite Hk]. rewrite Eh, <- Hlen. apply enc_length8; [done|]. lia.
  - destruct (Z.eqb_spec lcid PADDING) as [Ep|Ep].
    + intros [= <- <-]. split; [cbn; lia|]. split; [by constructor|]. intros _. exists (h :: b). rewrite app_nil_r. split_and!; [done| |done].
      rewrite Eh. apply enc_padding. by rewrite Ep.
    + destruct (blen _ <? _) eqn:Elen; [done|]. intros [= <- <-]. rewrite !blen_cons in Elen.
      assert (0 <= sizeof_ce lcid) as Hs by (unfold sizeof_ce; repeat case_match; lia).
      destruct (slice_split (sizeof_ce lcid) b ltac:(lia)) as [Hsp Hlen]. set (p := take _ b) in *. set (r0 := bdrop _ b) in *.
      split; [subst r0; unfold bdrop; cbn [length]; rewrite length_drop; lia|]. split; [by apply Forall_drop|]. cbn [us_lcid]. intros Hsup. specialize (Ht Hsup).
      exists (h :: p). assert (ts38321_ul_sch lcid = Some (kind_fixed (blen p))) as Hk.
      { rewrite Hlen. destruct (ts38321_ul_sch lcid) as [[|n|]|]; [by destruct Ht as (_ & ? & _)|by destruct Ht as (_ & _ & _ & ->)|done|done]. }
      split_and!; [by rewrite Hsp| |by rewrite Hk]. rewrite Eh. by apply enc_fixed.
Qed.

Lemma subpdu_enc_pos s e : subpdu_enc s e -> (0 < length e)%nat.
Proof. destruct 1; cbn; lia. Qed.
Lemma pdu_enc_nonempty s l b : pdu_enc (s :: l) b -> b <> [].
Proof. inversion 1; subst. match goal with H : subpdu_enc _ _ |- _ => apply subpdu_enc_pos in H end. intros [-> _]%app_eq_nil. cbn in *; lia. Qed.

Lemma unpack_subpdus_enc l b : pdu_enc l b -> Forall (fun s => supported (us_lcid s)) l -> forall fuel acc, (length b <= fuel)%nat -> (length acc <= MAX_SUBPDUS_PER_PDU)%nat ->
  unpack_subpdus fuel b acc = (true, acc ++ take (MAX_SUBPDUS_PER_PDU - length acc) l).
Proof.
  induction 1 as [|s e l p Hs Hpad Hl IH]; intros Hsup fuel acc Hf Ha; [destruct fuel; by rewrite take_nil, app_nil_r|].
  apply Forall_cons_1 in Hsup as [Hsup1 Hsup]. pose proof (subpdu_enc_pos _ _ Hs) as Hpos. rewrite length_app in Hf. destruct fuel as [|fuel]; [lia|].
  assert (exists x y, e ++ p = x :: y) as (x & y & Exy) by (destruct e as [|x e]; [cbn in Hpos; lia|by eexists _, _]).
  cbn [unpack_subpdus]. rewrite Exy, <- Exy. destruct (decide (length acc = MAX_SUBPDUS_PER_PDU)) as [Hfull|Hfull].
  { rewrite Hfull, Nat.sub_diag. by rewrite app_nil_r. }
  rewrite (subpdu_unpack_enc s e p Hs Hsup1). 2:{ intros Hp. specialize (Hpad Hp). subst l. by inversion Hl. }
  rewrite IH; [|done|lia|rewrite length_app; cbn; lia]. rewrite length_app, <- app_assoc. cbn [length app].
  replace (MAX_SUBPDUS_PER_PDU - length acc)%nat with (S (MAX_SUBPDUS_PER_PDU - (length acc + 1))) by lia. done.
Qed.

Lemma unpack_subpdus_sound fuel : forall b acc l, (length b <= fuel)%nat -> bytes_ok b -> unpack_subpdus fuel b acc = (true, l) ->
  (length l < MAX_SUBPDUS_PER_PDU)%nat -> Forall (fun s => supported (us_lcid s)) l -> exists l', l = acc ++ l' /\ pdu_enc l' b.
Proof.
  induction fuel as [|fuel IH]; intros b acc l Hf Hb; (destruct b as [|x y]; [cbn; intros [= <-]; exists []; rewrite app_nil_r; split; [done|constructor]|]);
    [cbn in Hf; lia|]. cbn [unpack_subpdus]. destruct (decide _) as [Hd|Hd]; [intros [= <-]; lia|].
  destruct (subpdu_unpack (x :: y)) as [[s r]|] eqn:E; [|done]. apply subpdu_unpack_sound in E as (Hlen & Hr & Hs0); [|done].
  intros H Hl Hsup. destruct (IH r (acc ++ [s]) l ltac:(lia) Hr H Hl Hsup) as (l' & -> & Hl'). exists (s :: l'). rewrite <- app_assoc. split; [done|].
  destruct Hs0 as (e & He & Hs & Hpad); [apply Forall_app in Hsup as [[_ Hsup]%Forall_app _]; by apply Forall_cons_1 in Hsup as [? _]|].
  rewrite He. constructor; [done| |done]. intros Hp. rewrite (Hpad Hp) in Hl'. destruct l' as [|s' l']; [done|]. by destruct (pdu_enc_nonempty _ _ _ Hl').
Qed.

Lemma unpack_subpdus_false fuel : forall b acc l, unpack_subpdus fuel b acc = (false, l) -> l = [].
Proof.
  induction fuel as [|fuel IH]; intros b acc l; destruct b as [|x y]; try done. cbn [unpack_subpdus].
  destruct (decide _); [done|]. destruct (subpdu_unpack (x :: y)) as [[s r]|]; [apply IH|by intros [= <-]].
Qed.

Lemma pdu_unpack_enc l b : pdu_enc l b -> Forall (fun s => supported (us_lcid s)) l -> pdu_unpack b = (true, take MAX_SUBPDUS_PER_PDU l).
Proof. intros Hl Hs. unfold pdu_unpack. rewrite (unpack_subpdus_enc l b Hl Hs) by (unfold MAX_SUBPDUS_PER_PDU; cbn; lia). done. Qed.

(** C20: the decoder of UL-SCH PDUs against the format of TS 38.321, whose table of LCIDs and sizes is written down
    independently of the code ([ts38321_ul_sch]), for PDUs without the LCIDs 53, 54 and 56 (recommended bit rate query and
    multiple entry PHR).  The encoding of every list of subPDUs, with 8 and 16 bit lengths, fixed size control elements,
    padding at the end and any reserved bits, is decoded to that list (its first 512 elements); whatever is accepted with
    fewer than 512 subPDUs is the encoding of the decoded list, without a byte left over; and a PDU that is refused is no
    encoding. *)
Theorem mac_ul_unpack_correct b : bytes_ok b ->
  (forall l, pdu_enc l b -> Forall (fun s => supported (us_lcid s)) l -> pdu_unpack b = (true, take MAX_SUBPDUS_PER_PDU l))
  /\ (forall l, pdu_unpack b = (true, l) -> (length l < MAX_SUBPDUS_PER_PDU)%nat -> Forall (fun s => supported (us_lcid s)) l -> pdu_enc l b)
  /\ (forall l, pdu_unpack b = (false, l) -> l = [] /\ ~ exists l', pdu_enc l' b /\ Forall (fun s => supported (us_lcid s)) l').
Proof.
  intros Hb. split_and!; [intros l; apply pdu_unpack_enc| |].
  - intros l H Hl Hs. destruct (unpack_subpdus_sound (length b) b [] l ltac:(lia) Hb H Hl Hs) as (l' & -> & Hl'). done.
  - intros l H. split; [|intros (l' & Hl' & Hs); rewrite (pdu_unpack_enc l' b Hl' Hs) in H; done]. by apply unpack_subpdus_false in H.
Qed.
(** The LCIDs left out: a recommended bit rate query of two octets is decoded as an empty control element, and its octets
    as subPDUs of their own. *)
Example mac_ul_bit_rate_query :
  pdu_enc [UlSubpdu 53 1 false [0x3d; 0x45]; UlSubpdu 63 1 false []] [53; 0x3d; 0x45; 63]
  /\ pdu_unpack [53; 0x3d; 0x45; 63] = (true, [UlSubpdu 53 1 false []; UlSubpdu SHORT_BSR 1 false [0x45]; UlSubpdu PADDING 1 false []]).
Proof.
  split; [|vm_compute; reflexivity].
  apply (enc_cons _ [53; 0x3d; 0x45] _ [63]); [by apply (enc_fixed false false 53 [0x3d; 0x45])|done|].
  apply (enc_cons _ [63] _ []); [by apply (enc_padding false false 63)|done|constructor].
Qed.
Definition ul_demo_pdu : bytes := [0x01; 2; 9; 9; 0x3d; 0x45; 0x44; 0; 1; 7; 0x3f; 0; 0].
Definition ul_demo_subpdus : list mac_ul_sch_subpdu :=
  [UlSubpdu 1 2 false [9; 9]; UlSubpdu SHORT_BSR 1 false [0x45]; UlSubpdu 4 3 true [7]; UlSubpdu PADDING 1 false [0; 0]].
Lemma mac_ul_unpack_correct_witness : pdu_enc ul_demo_subpdus ul_demo_pdu.
Proof.
  apply (mac_ul_unpack_correct ul_demo_pdu).
  - apply (bool_decide_unpack _). vm_compute. exact I.
  - vm_compute. reflexivity.
  - vm_compute. lia.
  - apply (bool_decide_unpack _). vm_compute. exact I.
Defined.

(** ** Buffer sizes *)
Definition bsr_levels (f : bsr_format) : list Z :=
  match f with fmt_short_bsr | fmt_short_trunc_bsr => buffer_size_levels_5bit | _ => buffer_size_levels_8bit end.
Lemma bsr_levels_table f : (1 < length (bsr_levels f))%nat /\ Forall (fun x => 0 <= x <= 81338368) (bsr_levels f) /\ bsr_levels f !! O = Some 0
  /\ forall i x y, (0 < i)%nat -> bsr_levels f !! i = Some x -> bsr_levels f !! S i = Some y -> 0 < x <= y.
Proof.
  assert (forall l : list Z, forallb (fun p => (0 <? p.1) && (p.1 <=? p.2)) (zip (tail l) (tail (tail l))) = true ->
    forall i x y, (0 < i)%nat -> l !! i = Some x -> l !! S i = Some y -> 0 < x <= y) as Hmono.
  { intros l H i x y Hi Hx Hy. rewrite forallb_forall in H. destruct i as [|i]; [lia|]. destruct l as [|a [|b l]]; [done|by destruct i|].
    cbn [tail] in H. specialize (H (x, y)). cbn [fst snd] in H. assert (In (x, y) (zip (b :: l) l)) as Hin; [|apply H in Hin; lia].
    apply list_elem_of_In, (list_elem_of_lookup_2 _ i). apply lookup_zip_with_Some. by exists x, y. }
  destruct f; (split_and!; [cbn; lia|apply (bool_decide_unpack _); vm_compute; exact I|reflexivity|]); apply Hmono; vm_compute; reflexivity.
Qed.

Lemma buff_size_total f i : 0 <= i -> exists n, buff_size_field_to_bytes i f = Some n /\ is_u32 n
  /\ (i <> 0 -> forall x, bsr_levels f !! Z.to_nat i = Some x -> (Z.to_nat i < length (bsr_levels f) - 1)%nat -> n = x)
  /\ ((Z.to_nat i >= length (bsr_levels f) - 1)%nat -> 150000 <= n).
Proof.
  intros Hi. destruct (bsr_levels_table f) as (Hl & Hb & _ & _).
  unfold buff_size_field_to_bytes. destruct (Z.eqb_spec i 0) as [->|Hne]; [exists 0; split_and!; [done|unfold is_u32; lia|done|cbn; lia]|].
  assert (match f with
          | fmt_short_bsr | fmt_short_trunc_bsr => level_to_bytes buffer_size_levels_5bit i
          | fmt_long_bsr | fmt_long_trunc_bsr => level_to_bytes buffer_size_levels_8bit i
          end = level_to_bytes (bsr_levels f) i) as -> by (by destruct f).
  unfold level_to_bytes. set (n := length (bsr_levels f)) in *.
  destruct (lookup_lt_is_Some_2 (bsr_levels f) (Z.to_nat (Z.min i (Z.of_nat n - 1))) ltac:(fold n; lia)) as [x Hx]. rewrite Hx.
  pose proof (Forall_lookup_1 _ _ _ _ Hb Hx) as Hr. cbn in Hr. unfold bsr_max_offset.
  eexists. split; [done|]. split; [apply u32_is_u32|]. rewrite u32_id by (unfold is_u32; destruct (_ <=? _); lia). split.
  - intros _ y Hy Hlt. rewrite Z.min_l in Hx by lia. rewrite (proj2 (Z.leb_gt _ _)) by lia. rewrite Hx in Hy. injection Hy as <-. lia.
  - intros Hge. rewrite (proj2 (Z.leb_le _ _)) by lia. lia.
Qed.

Lemma sched_reports_total l f : Forall (fun r => 0 <= lb_buffer_size r) l -> exists lcgs, sched_reports l f = Some lcgs.
Proof.
  induction 1 as [|r l Hr _ [lcgs IH]]; [by eexists|]. cbn [sched_reports]. unfold make_sched_lcg_report.
  destruct (buff_size_total f _ Hr) as (n & -> & _). rewrite IH. by eexists.
Qed.
Lemma lbsr_loop_sizes n : forall i bm f b, bytes_ok b -> Forall (fun r => 0 <= lb_buffer_size r) (lbsr_loop n i bm f b).
Proof.
  induction n as [|n IH]; intros i bm f b Hb; [by constructor|]. cbn [lbsr_loop]. destruct (_ =? 0); [by apply IH|].
  destruct b as [|x b]; [constructor; [cbn; destruct (decide _); lia|by apply IH]|]. apply Forall_cons_1 in Hb as [Hx Hb].
  constructor; [cbn; unfold is_u8 in Hx; lia|by apply IH].
Qed.

(** ** Routing of the contents of a PDU *)
Definition sdus_of (evs : list mac_ul_event) : list (Z * bytes) := omap (fun ev => match ev with ev_sdu b p => Some (b, p) | _ => None end) evs.
Definition reports_of (ue rnti : Z) (ev : mac_ul_event) : Prop :=
  match ev with ev_sdu _ _ => True | ev_ccch _ _ => False | ev_bsr u r _ _ | ev_sr u r => u = ue /\ r = rnti end.

(** A subPDU that the UE with bearers [b] may send. *)
Definition subpdu_known (b : slotted_vector Z) (s : mac_ul_sch_subpdu) : Prop :=
  bytes_ok (us_payload s)
  /\ (is_sdu (us_lcid s) = true -> is_Some (sv_at b (Z.to_nat (us_lcid s))))
  /\ (us_lcid s = SHORT_BSR \/ us_lcid s = SHORT_TRUNC_BSR \/ us_lcid s = LONG_BSR \/ us_lcid s = LONG_TRUNC_BSR -> us_payload s <> []).
Definition sdu_delivery (b : slotted_vector Z) (s : mac_ul_sch_subpdu) : option (Z * bytes) :=
  if is_sdu (us_lcid s) then (fun x => (x, us_payload s)) <$> sv_at b (Z.to_nat (us_lcid s)) else None.

Lemma handle_subpdu_known u c b s : mu_ue_db u !! rc_ue c = Some b -> 0 <= rc_ue c < INVALID_DU_UE_INDEX -> subpdu_known b s ->
  exists evs, handle_subpdu u c s = Some (true, evs) /\ sdus_of evs = option_list (sdu_delivery b s) /\ Forall (reports_of (rc_ue c) (rc_rnti c)) evs.
Proof.
  intros Hb Hue (Hok & Hsdu & Hbsr). unfold handle_subpdu, sdu_delivery. destruct (is_sdu (us_lcid s)) eqn:Es.
  { unfold mac_handle_sdu. rewrite Hb. destruct (Hsdu eq_refl) as [x ->]. eexists. split; [done|]. split; [done|]. by repeat constructor. }
  assert (is_du_ue_index_valid (rc_ue c) = true) as Hval by (unfold is_du_ue_index_valid, INVALID_DU_UE_INDEX in *; lia).
  unfold handle_mac_ce. destruct (is_ccch (us_lcid s)) eqn:Ec.
  { unfold handle_ccch_msg. rewrite (proj2 (Z.eqb_neq _ _)) by (unfold INVALID_DU_UE_INDEX in *; lia). cbn [negb]. eexists. split; [done|]. split; [done|constructor]. }
  rewrite Hval. cbn [negb]. destruct (us_payload s) as [|p0 p] eqn:Ep.
  - assert (forall k, k = SHORT_BSR \/ k = SHORT_TRUNC_BSR \/ k = LONG_BSR \/ k = LONG_TRUNC_BSR -> (us_lcid s =? k) = false) as Hno.
    { intros k Hk. apply Z.eqb_neq. intros Hk'. rewrite Hk' in Hbsr. by destruct (Hbsr Hk). }
    rewrite !Hno by tauto. cbn [orb]. eexists. split; [done|]. split; [done|constructor].
  - apply Forall_cons_1 in Hok as [Hp0 Hp]. destruct ((us_lcid s =? SHORT_BSR) || (us_lcid s =? SHORT_TRUNC_BSR)).
    + cbn [decode_sbsr]. unfold make_sched_lcg_report. cbn [lb_buffer_size lb_lcg_id].
      destruct (buff_size_total (if us_lcid s =? SHORT_BSR then fmt_short_bsr else fmt_short_trunc_bsr) (Z.land p0 0x1f)) as (n & -> & _).
      { apply Z.land_nonneg. right. lia. }
      eexists. split; [done|]. split; [done|]. by repeat constructor.
    + destruct ((us_lcid s =? LONG_BSR) || (us_lcid s =? LONG_TRUNC_BSR)); [|eexists; split; [done|]; split; [done|constructor]].
      cbn [decode_lbsr]. set (f := if us_lcid s =? LONG_BSR then _ else _).
      destruct (sched_reports_total (if p0 =? 0 then [] else lbsr_loop MAX_NOF_LCGS 0 p0 f p) f) as [lcgs ->].
      { destruct (p0 =? 0); [constructor|by apply lbsr_loop_sizes]. }
      eexists. split; [done|]. split; [done|]. by repeat constructor.
Qed.

Lemma handle_rx_subpdus_known u c b l : mu_ue_db u !! rc_ue c = Some b -> 0 <= rc_ue c < INVALID_DU_UE_INDEX -> Forall (subpdu_known b) l ->
  exists evs, handle_rx_subpdus u c l = Some (true, evs) /\ sdus_of evs = omap (sdu_delivery b) l /\ Forall (reports_of (rc_ue c) (rc_rnti c)) evs.
Proof.
  intros Hb Hue. induction 1 as [|s l Hs _ (evs & IH1 & IH2 & IH3)]; [by eexists|]. cbn [handle_rx_subpdus].
  destruct (handle_subpdu_known u c b s Hb Hue Hs) as (evs0 & -> & H2 & H3). rewrite IH1. eexists. split; [done|]. split.
  - unfold sdus_of. rewrite omap_app. fold (sdus_of evs0) (sdus_of evs). rewrite H2, IH2. cbn. by destruct (sdu_delivery b s).
  - by apply Forall_app.
Qed.

(** The C-RNTI under which the contents are handled: that of the last C-RNTI control element. *)
Definition effective_rnti (rnti : Z) (l : list mac_ul_sch_subpdu) : Z :=
  match List.find (fun s => us_lcid s =? CRNTI) (rev l) with Some s => decode_crnti_ce (us_payload s) | None => rnti end.

(** The contents of a PDU reach the UE they belong to.  A well-formed PDU of at most 512 subPDUs is handled
    completely; its SDUs are delivered in order and unchanged to the bearers of the UE that owns the C-RNTI of the
    last C-RNTI control element, or the C-RNTI of the grant when there is none, and all reports to the scheduler name
    that UE and C-RNTI. *)
Theorem mac_ul_routing u rnti pdu l ue b :
  pdu_enc l pdu -> Forall (fun s => supported (us_lcid s)) l -> bytes_ok pdu -> (0 < length l <= MAX_SUBPDUS_PER_PDU)%nat -> is_crnti rnti = true ->
  is_crnti (effective_rnti rnti l) = true -> mu_rnti_table u !! effective_rnti rnti l = Some ue -> 0 <= ue < INVALID_DU_UE_INDEX ->
  mu_ue_db u !! ue = Some b -> Forall (subpdu_known b) l ->
  exists evs, handle_rx_pdu true u rnti pdu = Some (true, evs)
    /\ sdus_of evs = omap (sdu_delivery b) l /\ Forall (reports_of ue (effective_rnti rnti l)) evs.
Proof.
  intros Henc Hsup Hok Hlen Hr He Hue Hrange Hb Hl. unfold handle_rx_pdu, rnti_lookup. rewrite Hr.
  rewrite decide_False by (destruct l; [cbn in Hlen; lia|by eapply pdu_enc_nonempty]).
  rewrite (pdu_unpack_enc l pdu Henc Hsup), take_ge by lia. cbn [negb]. unfold effective_rnti in *.
  destruct (List.find _ (rev l)) as [s|] eqn:Ef.
  - unfold handle_crnti_ce, rnti_lookup. rewrite (proj2 (Z.eqb_neq _ INVALID_RNTI)) by (intros E; by rewrite E in He).
    rewrite He, Hue. change (default INVALID_DU_UE_INDEX (Some ue)) with ue. cbn [rc_subpdus]. set (r := decode_crnti_ce _) in *.
    destruct (handle_rx_subpdus_known u (RxCtx r ue l) b l Hb Hrange Hl) as (evs & -> & H2 & H3). eexists. split; [done|]. split.
    + unfold sdus_of. rewrite omap_app. cbn. by rewrite app_nil_r.
    + apply Forall_app. split; [exact H3|]. by repeat constructor.
  - rewrite Hue. change (default INVALID_DU_UE_INDEX (Some ue)) with ue. by apply (handle_rx_subpdus_known u (RxCtx rnti ue l) b l).
Qed.
Definition ul_demo_ues : mac_ul_ues :=
  MacUlUes {[0x4601 := 0; 0x4602 := 1]} {[0 := sv_emplace (sv_emplace sv_empty 1 101) 4 104; 1 := sv_empty]}.
Definition ul_demo_crnti_pdu : bytes := [0x3a; 0x46; 0x01; 0x01; 2; 9; 9; 0x3e; 2; 0x81; 20; 0x44; 0; 1; 7; 0x3f; 0; 0].
Definition ul_demo_crnti_subpdus : list mac_ul_sch_subpdu := (pdu_unpack ul_demo_crnti_pdu).2.
Lemma mac_ul_routing_witness :
  exists evs, handle_rx_pdu true ul_demo_ues 0x4602 ul_demo_crnti_pdu = Some (true, evs)
    /\ sdus_of evs = [(101, [9; 9]); (104, [7])] /\ Forall (reports_of 0 0x4601) evs.
Proof.
  apply (mac_ul_routing ul_demo_ues 0x4602 ul_demo_crnti_pdu ul_demo_crnti_subpdus 0 (sv_emplace (sv_emplace sv_empty 1 101) 4 104)).
  - destruct (unpack_subpdus_sound (length ul_demo_crnti_pdu) ul_demo_crnti_pdu [] ul_demo_crnti_subpdus) as (l & -> & H);
      [lia|apply (bool_decide_unpack _); vm_compute; exact I|vm_compute; reflexivity|vm_compute; lia|apply (bool_decide_unpack _); vm_compute; exact I|exact H].
  - apply (bool_decide_unpack _). vm_compute. exact I.
  - apply (bool_decide_unpack _). vm_compute. exact I.
  - vm_compute. lia.
  - reflexivity.
  - vm_compute. reflexivity.
  - vm_compute. reflexivity.
  - unfold INVALID_DU_UE_INDEX. lia.
  - vm_compute. reflexivity.
  - unfold ul_demo_crnti_subpdus. vm_compute (pdu_unpack _).2. repeat constructor; try (vm_compute; congruence);
      cbn; try (intros _; by eexists); try (intros H; vm_compute in H; destruct_or! H; discriminate).
Defined.

(** ** Malformed control elements *)

(** Two control elements that a UE can send reach accesses outside of their data: a Long BSR or Long Truncated BSR
    with length 0 is decoded although it has no bitmap byte, and a C-RNTI control element with a value above the
    C-RNTI range (0xfff0 to 0xffff) is looked up in the C-RNTI table, which is only guarded against the value 0. *)
Theorem mac_ul_malformed_ce u rnti ue trunc rnti' rest :
  is_crnti rnti = true -> mu_rnti_table u !! rnti = Some ue -> 0 <= ue < INVALID_DU_UE_INDEX -> MAX_CRNTI < rnti' < 65536 ->
  handle_rx_pdu true u rnti [if trunc : bool then LONG_TRUNC_BSR else LONG_BSR; 0] = None
  /\ handle_rx_pdu true u rnti (CRNTI :: rnti' / 256 :: rnti' mod 256 :: PADDING :: rest) = None.
Proof.
  intros Hr Hue Hrange Hr'. unfold handle_rx_pdu, rnti_lookup. rewrite Hr, Hue. change (default INVALID_DU_UE_INDEX (Some ue)) with ue. split.
  - assert (pdu_unpack [if trunc then LONG_TRUNC_BSR else LONG_BSR; 0] = (true, [UlSubpdu (if trunc then LONG_TRUNC_BSR else LONG_BSR) 2 false []])) as -> by (by destruct trunc).
    rewrite decide_False by done. unfold handle_rx_subpdus, handle_subpdu, handle_mac_ce, is_du_ue_index_valid.
    cbn [rc_ue]. rewrite (proj2 (Z.ltb_lt ue 1024)) by (unfold INVALID_DU_UE_INDEX in Hrange; lia). by destruct trunc.
  - rewrite decide_False by done.
    assert (pdu_unpack (CRNTI :: rnti' / 256 :: rnti' mod 256 :: PADDING :: rest)
      = (true, [UlSubpdu CRNTI 1 false [rnti' / 256; rnti' mod 256]; UlSubpdu PADDING 1 false rest])) as ->.
    { rewrite (pdu_unpack_enc [UlSubpdu CRNTI 1 false [rnti' / 256; rnti' mod 256]; UlSubpdu PADDING 1 false rest]); [done| |by repeat constructor].
      rewrite <- (app_nil_r (CRNTI :: _)). change ((CRNTI :: ?a :: ?b :: PADDING :: rest) ++ []) with ([CRNTI; a; b] ++ ((PADDING :: rest) ++ [])).
      constructor; [by apply (enc_fixed false)|done|]. constructor; [by apply (enc_padding false)|done|constructor]. }
    cbn [negb List.find rev app us_lcid]. change (PADDING =? CRNTI) with false. change (CRNTI =? CRNTI) with true. cbn iota.
    unfold handle_crnti_ce. cbn [us_payload decode_crnti_ce].
    assert (Z.lor (Z.shiftl (rnti' / 256) 8) (rnti' mod 256) = rnti') as ->.
    { rewrite Z.shiftl_mul_pow2 by lia. rewrite (lor_disjoint 8) by mlia. mlia. }
    unfold MAX_CRNTI, INVALID_RNTI in *. rewrite (proj2 (Z.eqb_neq rnti' 0)) by lia. unfold rnti_lookup, is_crnti, MAX_CRNTI.
    by rewrite (proj2 (Z.leb_gt rnti' 0xffef)) by lia.
Qed.
Lemma mac_ul_malformed_ce_witness :
  handle_rx_pdu true ul_demo_ues 0x4601 [LONG_BSR; 0] = None /\ handle_rx_pdu true ul_demo_ues 0x4601 [CRNTI; 0xff; 0xff; PADDING] = None.
Proof. apply (mac_ul_malformed_ce ul_demo_ues 0x4601 0 false 0xffff []); vm_compute; intuition discriminate. Defined.

(** ** The UE manager *)

(** Operations on the UE manager, and the map from UEs to their bearers that it implements. *)
Inductive ue_mgr_op :=
  | um_add_ue (ue crnti : Z) (l : list (nat * Z))
  | um_remove_ue (ue : Z)
  | um_addmod_bearers (ue : Z) (l : list (nat * Z))
  | um_remove_bearers (ue : Z) (lcids : list nat).
Definition ue_mgr_step (u : mac_ul_ues) (op : ue_mgr_op) : option (bool * mac_ul_ues) :=
  match op with
  | um_add_ue ue crnti l => add_ue u ue crnti l
  | um_remove_ue ue => Some (true, remove_ue u ue)
  | um_addmod_bearers ue l => Some (addmod_bearers u ue l)
  | um_remove_bearers ue lcids => remove_bearers u ue lcids
  end.
Fixpoint ue_mgr_run (u : mac_ul_ues) (ops : list ue_mgr_op) : option (list bool * mac_ul_ues) :=
  match ops with
  | [] => Some ([], u)
  | op :: ops => let* (r, u) := ue_mgr_step u op in let* (rs, u) := ue_mgr_run u ops in Some (r :: rs, u)
  end.

Abbreviation bearer_map := (gmap Z (gmap nat Z)).
Definition bearers_step (m : bearer_map) (op : ue_mgr_op) : bool * bearer_map :=
  match op with
  | um_add_ue ue _ l => if decide (m !! ue = None) then (true, <[ue := list_to_map l]> m) else (false, m)
  | um_remove_ue ue => (true, delete ue m)
  | um_addmod_bearers ue l => match m !! ue with Some b => (true, <[ue := b ∪ list_to_map l]> m) | None => (false, m) end
  | um_remove_bearers ue lcids =>
      match m !! ue with Some b => (true, <[ue := foldl (fun b k => delete k b) b lcids]> m) | None => (false, m) end
  end.
Fixpoint bearers_run (m : bearer_map) (ops : list ue_mgr_op) : list bool * bearer_map :=
  match ops with
  | [] => ([], m)
  | op :: ops => let (r, m) := bearers_step m op in let (rs, m) := bearers_run m ops in (r :: rs, m)
  end.
Definition ue_mgr_op_ok (op : ue_mgr_op) : Prop := match op with um_add_ue _ crnti _ => is_crnti crnti = true | _ => True end.

Definition ue_mgr_map (u : mac_ul_ues) : bearer_map := sv_map <$> mu_ue_db u.
Definition ue_mgr_inv (u : mac_ul_ues) : Prop := map_Forall (fun _ b => sv_ok b) (mu_ue_db u).

Lemma sv_map_empty {A} : sv_map (sv_empty (A := A)) = ∅.
Proof. done. Qed.
Lemma insert_bearers_map l b : sv_ok b -> sv_ok (insert_bearers b l) /\ sv_map (insert_bearers b l) = sv_map b ∪ list_to_map l.
Proof.
  unfold insert_bearers. revert b. induction l as [|[k x] l IH]; intros b Hb; cbn [foldl fst snd]; [split; [done|symmetry; apply map_union_empty]|].
  pose proof (sv_insert_map b k x Hb) as H. destruct (sv_insert b k x) as [r v]. cbn [snd]. destruct H as (Hv & -> & Hm).
  destruct (IH v Hv) as [H1 H2]. split; [done|]. rewrite H2, Hm. cbn [list_to_map foldr uncurry].
  change (foldr _ ∅ l) with (list_to_map l : gmap nat Z). apply map_eq. intros i. rewrite !lookup_union. destruct (sv_map b !! k) as [y|] eqn:E.
  - rewrite bool_decide_false by done. destruct (decide (i = k)) as [->|Hne]; [rewrite E, lookup_insert_eq; by destruct (list_to_map l !! k)|].
    by rewrite lookup_insert_ne.
  - rewrite bool_decide_true by done. destruct (decide (i = k)) as [->|Hne]; [rewrite !lookup_insert_eq, E; by destruct (list_to_map l !! k)|].
    by rewrite !lookup_insert_ne.
Qed.
Lemma erase_bearers_map lcids b : sv_ok b ->
  exists b', erase_bearers b lcids = Some b' /\ sv_ok b' /\ sv_map b' = foldl (fun b k => delete k b) (sv_map b) lcids.
Proof.
  revert b. induction lcids as [|k lcids IH]; intros b Hb; cbn [erase_bearers foldl]; [by exists b|].
  destruct (sv_erase_map b k Hb) as (v & Hv & Hok & Hm). rewrite Hv. cbn. destruct (IH v Hok) as (b' & H1 & H2 & H3).
  exists b'. by rewrite H1, H3, Hm.
Qed.

Lemma ue_mgr_step_spec u op : ue_mgr_inv u -> ue_mgr_op_ok op ->
  exists r u', ue_mgr_step u op = Some (r, u') /\ bearers_step (ue_mgr_map u) op = (r, ue_mgr_map u') /\ ue_mgr_inv u'.
Proof.
  intros Hi Hop. unfold ue_mgr_map. destruct op as [ue crnti l|ue|ue l|ue lcids]; cbn [ue_mgr_step bearers_step].
  - cbn in Hop. unfold add_ue. rewrite Hop, lookup_fmap. cbn [negb]. destruct (mu_ue_db u !! ue) as [b|] eqn:E; [by exists false, u|].
    unfold addmod_bearers. cbn [mu_ue_db mu_rnti_table]. rewrite lookup_insert_eq, decide_True by done.
    destruct (insert_bearers_map l sv_empty sv_ok_empty) as [Hb Hm]. eexists _, _. split; [done|]. cbn [mu_ue_db].
    rewrite insert_insert_eq, fmap_insert, Hm, sv_map_empty, map_empty_union. split; [done|]. by apply map_Forall_insert_2.
  - eexists _, _. split; [done|]. unfold remove_ue. cbn [mu_ue_db]. rewrite fmap_delete. split; [done|]. by apply map_Forall_delete.
  - unfold addmod_bearers. rewrite lookup_fmap. destruct (mu_ue_db u !! ue) as [b|] eqn:E; cbn; [|by exists false, u].
    destruct (insert_bearers_map l b (Hi _ _ E)) as [Hb Hm]. eexists _, _. split; [done|]. cbn [mu_ue_db].
    rewrite fmap_insert, Hm. split; [done|]. by apply map_Forall_insert_2.
  - unfold remove_bearers. rewrite lookup_fmap. destruct (mu_ue_db u !! ue) as [b|] eqn:E; cbn; [|by exists false, u].
    destruct (erase_bearers_map lcids b (Hi _ _ E)) as (b' & -> & Hb & Hm). eexists _, _. split; [done|]. cbn [mu_ue_db].
    rewrite fmap_insert, Hm. split; [done|]. by apply map_Forall_insert_2.
Qed.

Lemma ue_mgr_run_spec ops u : ue_mgr_inv u -> Forall ue_mgr_op_ok ops ->
  exists rs u', ue_mgr_run u ops = Some (rs, u') /\ bearers_run (ue_mgr_map u) ops = (rs, ue_mgr_map u') /\ ue_mgr_inv u'.
Proof.
  intros Hi Hops. revert u Hi. induction Hops as [|op ops Hop _ IH]; intros u Hi; cbn; [by eexists _, _|].
  destruct (ue_mgr_step_spec u op Hi Hop) as (r & u1 & -> & -> & Hi1). cbn. destruct (IH u1 Hi1) as (rs & u2 & -> & -> & Hi2).
  cbn. by eexists _, _.
Qed.

(** The UE manager of the MAC implements a map from UE indices to maps from LCIDs to bearers: from the empty
    manager, every sequence of operations succeeds, reports the results of the map, and leaves exactly the bearers of
    the map.  A bearer that exists already is kept when it is configured again. *)
Theorem mac_ul_ue_manager_refines_map rnti_table ops : Forall ue_mgr_op_ok ops ->
  exists rs u, ue_mgr_run (MacUlUes rnti_table ∅) ops = Some (rs, u) /\ bearers_run ∅ ops = (rs, ue_mgr_map u)
    /\ forall ue b lcid, mu_ue_db u !! ue = Some b -> sv_at b lcid = (ue_mgr_map u !! ue) ≫= (fun m => m !! lcid).
Proof.
  intros Hops. destruct (ue_mgr_run_spec ops (MacUlUes rnti_table ∅) (map_Forall_empty _) Hops) as (rs & u & H1 & H2 & _).
  exists rs, u. split; [done|]. split; [done|]. intros ue b lcid Hb. unfold ue_mgr_map. rewrite lookup_fmap, Hb. cbn. by rewrite sv_map_lookup.
Qed.
Definition ue_mgr_demo : list ue_mgr_op :=
  [um_add_ue 3 0x4601 [(1%nat, 11); (2%nat, 12); (4%nat, 14)]; um_addmod_bearers 3 [(2%nat, 99); (5%nat, 15)]; um_add_ue 3 0x4602 [];
   um_remove_bearers 3 [1%nat; 7%nat]; um_remove_bearers 9 [1%nat]].
Lemma mac_ul_ue_manager_refines_map_witness :
  exists rs u, ue_mgr_run (MacUlUes ∅ ∅) ue_mgr_demo = Some (rs, u) /\ bearers_run ∅ ue_mgr_demo = (rs, ue_mgr_map u)
    /\ rs = [true; true; false; true; false].
Proof.
  destruct (mac_ul_ue_manager_refines_map ∅ ue_mgr_demo) as (rs & u & H1 & H2 & _); [by repeat constructor|].
  exists rs, u. split; [exact H1|]. split; [exact H2|]. vm_compute in H2. congruence.
Defined.
