(* ===== verification/MacDl.v ===== *)
(** * MAC downlink

    [include/srsran/mac/mac_pdu_format.h], [include/srsran/mac/lcid_dl_sch.h],
    [lib/mac/mac_dl/dl_sch_pdu_assembler.h/.cpp]: the assembly of DL-SCH PDUs from
    the SDUs of the RLC bearers, and [lib/mac/mac_dl/rar_pdu_assembler.cpp]: random
    access responses.

    A [dl_sch_pdu] is the size of its buffer and the bytes written so far.  [None]
    is a failed assertion, a fatal error or a write outside of the buffer. *)
From S2P Require Import Prelude.

(** ** Sizes *)
Definition MAC_SDU_SUBHEADER_LENGTH_THRES : Z := 256.
Definition MIN_MAC_SDU_SUBHEADER_SIZE : Z := 2.
Definition MAX_MAC_SDU_SUBHEADER_SIZE : Z := 3.
Definition get_mac_sdu_subheader_size (payload : Z) : Z :=
  if payload =? 0 then 0
  else if MAC_SDU_SUBHEADER_LENGTH_THRES <=? payload then MAX_MAC_SDU_SUBHEADER_SIZE else MIN_MAC_SDU_SUBHEADER_SIZE.
Definition get_mac_sdu_required_bytes (payload : Z) : Z := u32 (payload + get_mac_sdu_subheader_size payload).
Definition get_mac_sdu_payload_size (mac_sdu_size : Z) : Z :=
  if mac_sdu_size <=? MAC_SDU_SUBHEADER_LENGTH_THRES - 1 + MIN_MAC_SDU_SUBHEADER_SIZE
  then u32 (mac_sdu_size - MIN_MAC_SDU_SUBHEADER_SIZE) else u32 (mac_sdu_size - MAX_MAC_SDU_SUBHEADER_SIZE).

(** ** Logical channels of the downlink *)
Definition LCID_SRB0 : Z := 0.
Definition UE_CON_RES_ID : Z := 62.
Definition DL_PADDING : Z := 63.
Definition dl_is_sdu (lcid : Z) : bool := (lcid <=? 32) && (0 <=? lcid).

(** ** The PDU under construction *)
Record dl_sch_pdu := DlSchPdu { dp_size : Z; dp_bytes : bytes }.
Definition dp_offset (p : dl_sch_pdu) : Z := blen (dp_bytes p).
Definition nof_empty_bytes (p : dl_sch_pdu) : Z := u32 (dp_size p - dp_offset p).

Definition dp_put (p : dl_sch_pdu) (b : bytes) : option dl_sch_pdu :=
  if dp_offset p + blen b <=? dp_size p then Some (DlSchPdu (dp_size p) (dp_bytes p ++ b)) else None.

Definition encode_subheader (p : dl_sch_pdu) (F_bit : bool) (lcid header_len payload_len : Z) : option dl_sch_pdu :=
  let h := u8 (Z.lor (Z.shiftl (if F_bit then 1 else 0) 6) (Z.land lcid 0x3f)) in
  if header_len =? 3 then dp_put p [h; Z.shiftr (Z.land payload_len 0xff00) 8; Z.land payload_len 0xff]
  else if header_len =? 2 then dp_put p [h; Z.land payload_len 0xff]
  else if header_len =? 1 then dp_put p [h]
  else None.

(** The number of bytes written, 0 if the SDU does not fit. *)
Definition add_sdu (p : dl_sch_pdu) (lcid : Z) (sdu : bytes) : option (Z * dl_sch_pdu) :=
  let sdu_len := blen sdu in
  let F_bit := MAC_SDU_SUBHEADER_LENGTH_THRES <=? sdu_len in
  let header_length := if F_bit then 3 else 2 in
  if dp_size p <? dp_offset p + sdu_len + header_length then Some (0, p)
  else
    let* p := encode_subheader p F_bit lcid header_length sdu_len in
    let* p := dp_put p sdu in
    Some (sdu_len + header_length, p).

Definition add_ue_con_res_id (p : dl_sch_pdu) (con_res : bytes) : option dl_sch_pdu :=
  let* p := encode_subheader p false UE_CON_RES_ID 1 6 in dp_put p con_res.

Definition add_padding (p : dl_sch_pdu) (len : Z) : option dl_sch_pdu :=
  let sdu_len := u32 (len - 1) in
  let* p := encode_subheader p false DL_PADDING 1 sdu_len in dp_put p (replicate (Z.to_nat sdu_len) 0).

(** ** Bearers

    [mac_sdu_tx_builder]: the bearers of a UE by LCID, with the state of all of them
    in [St]; [None] is a failure of the bearer, or a bearer that does not exist. *)
Class MacSduTxBuilder (St : Type) := on_new_tx_sdu : St -> Z -> Z -> option (bytes * St).

Section Assembler.
Context {St : Type} `{!MacSduTxBuilder St}.

(** The static local [MIN_MAC_SDU_SIZE] keeps the value of the first call. *)
Definition MIN_MAC_SDU_SIZE (stat : option Z) (lcid : Z) : Z :=
  match stat with Some n => n | None => MIN_MAC_SDU_SUBHEADER_SIZE + 1 + if lcid =? LCID_SRB0 then 0 else 2 end.

(** The loop of [assemble_sdus].  Every iteration that continues writes at least
    three bytes, so the remaining space bounds the iterations. *)
Fixpoint assemble_sdus_loop (fuel : nat) (s : St) (p : dl_sch_pdu) (lcid min_size rem_bytes : Z) : option (St * dl_sch_pdu) :=
  match fuel with
  | O => None
  | S fuel =>
      if rem_bytes <? min_size then Some (s, p)
      else
        let n := get_mac_sdu_payload_size rem_bytes in
        let* (sdu, s) := on_new_tx_sdu s lcid n in
        if decide (sdu = []) then Some (s, p)
        else if n <? blen sdu then None
        else
          let* (nwritten, p) := add_sdu p lcid sdu in
          if nwritten =? 0 then Some (s, p)
          else if rem_bytes <? nwritten then None
          else assemble_sdus_loop fuel s p lcid min_size (rem_bytes - nwritten)
  end.

Definition assemble_sdus (stat : option Z) (s : St) (p : dl_sch_pdu) (lcid sched_bytes : Z)
    : option (option Z * St * dl_sch_pdu) :=
  let min_size := MIN_MAC_SDU_SIZE stat lcid in
  let total_space := Z.min (get_mac_sdu_required_bytes sched_bytes) (nof_empty_bytes p) in
  let* (s, p) := assemble_sdus_loop (S (Z.to_nat total_space)) s p lcid min_size total_space in
  Some (Some min_size, s, p).

(** [assemble_ce] *)
Definition assemble_ce (p : dl_sch_pdu) (lcid : Z) (con_res : bytes) : option dl_sch_pdu :=
  if lcid =? UE_CON_RES_ID then add_ue_con_res_id p con_res else None.

Fixpoint assemble_subpdus (stat : option Z) (s : St) (p : dl_sch_pdu) (con_res : bytes) (l : list (Z * Z))
    : option (option Z * St * dl_sch_pdu) :=
  match l with
  | [] => Some (stat, s, p)
  | (lcid, sched_bytes) :: l =>
      if dl_is_sdu lcid then
        let* (stat, s, p) := assemble_sdus stat s p lcid sched_bytes in assemble_subpdus stat s p con_res l
      else
        let* p := assemble_ce p lcid con_res in assemble_subpdus stat s p con_res l
  end.

(** The logical channels to schedule with their bytes, in order; the PDU is sent
    from the HARQ buffer of [harq_size] bytes. *)
Definition assemble_newtx_pdu (stat : option Z) (s : St) (harq_size : Z) (con_res : bytes) (lc_chs : list (Z * Z)) (tb_size : Z)
    : option (option Z * St * bytes) :=
  if harq_size <? tb_size then Some (stat, s, replicate (Z.to_nat tb_size) 0)
  else
    let* (stat, s, p) := assemble_subpdus stat s (DlSchPdu tb_size []) con_res lc_chs in
    let current_size := dp_offset p in
    if current_size <? tb_size then
      let* p := add_padding p (tb_size - current_size) in Some (stat, s, dp_bytes p)
    else if tb_size <? current_size then Some (stat, s, [])
    else Some (stat, s, dp_bytes p).
End Assembler.

(** ** Random access responses *)
Record rar_ul_grant := RarGrant {
  rg_rapid : Z; rg_ta : Z; rg_temp_crnti : Z; rg_freq_hop_flag : bool; rg_freq_resource_assignment : Z;
  rg_time_resource_assignment : Z; rg_mcs : Z; rg_tpc : Z; rg_csi_req : bool;
}.
Definition encode_rapid_subheader (rapid : Z) (is_last_subpdu : bool) : Z :=
  u8 (Z.lor (Z.lor (u8 (Z.shiftl (if is_last_subpdu then 0 else 1) 7)) (Z.shiftl 1 6)) (Z.land (u8 rapid) 0x3f)).
Definition encode_rar_grant_payload (g : rar_ul_grant) : bytes :=
  let fra := rg_freq_resource_assignment g in
  [ Z.land (Z.shiftr (rg_ta g) 5) 0x7f;
    u8 (Z.lor (Z.lor (Z.shiftl (Z.land (rg_ta g) 0x1f) 3) (Z.shiftl (if rg_freq_hop_flag g then 1 else 0) 2)) (Z.land (Z.shiftr fra 12) 0x3));
    Z.land (Z.shiftr fra 4) 0xff;
    u8 (Z.lor (Z.shiftl (Z.land fra 0xf) 4) (Z.land (rg_time_resource_assignment g) 0xf));
    u8 (Z.lor (Z.lor (Z.shiftl (Z.land (rg_mcs g) 0xf) 4) (Z.shiftl (Z.land (rg_tpc g) 0x7) 1)) (if rg_csi_req g then 1 else 0));
    Z.land (Z.shiftr (rg_temp_crnti g) 8) 0xff;
    Z.land (rg_temp_crnti g) 0xff ].
Definition encode_rar_subpdu (g : rar_ul_grant) (is_last : bool) : bytes :=
  encode_rapid_subheader (rg_rapid g) is_last :: encode_rar_grant_payload g.
Fixpoint encode_rar_subpdus (l : list rar_ul_grant) : bytes :=
  match l with [] => [] | g :: l => encode_rar_subpdu g (bool_decide (l = [])) ++ encode_rar_subpdus l end.
Definition encode_rar_pdu (l : list rar_ul_grant) (tb_size : Z) : option bytes :=
  if bool_decide (l = []) then None
  else if tb_size <? 8 * Z.of_nat (length l) then None
  else let b := encode_rar_subpdus l in Some (b ++ replicate (Z.to_nat tb_size - length b) 0).
