(* ===== verification/MacDlThms.v ===== *)
(** * MAC downlink: properties

    An assembled PDU fills its transport block, has the format of TS 38.321 and
    carries exactly the SDUs that the bearers returned; RLC UM bearers keep their
    guarantees over it; random access responses carry their fields. *)
From S2P Require Import Prelude OrdMap RlcAmPdu RlcUmPdu RlcQueues RlcTxAm RlcTxAmThms RlcTxUm RlcTxUmThms RlcRxUm RlcRxUmThms RlcUm.
From S2P Require Import SlottedVector MacUl MacUlThms MacDl.

(** ** What the assembler relies on

    In its valid states a bearer returns an SDU that fits the opportunity, or
    nothing. *)
Class MacSduTxBuilderLaws (St : Type) `{!MacSduTxBuilder St} (tx_ok : St -> Prop) : Prop := {
  tx_sdu_fits s lcid n : tx_ok s -> 0 <= n < 2 ^ 32 ->
    exists sdu s', on_new_tx_sdu s lcid n = Some (sdu, s') /\ blen sdu <= n /\ tx_ok s';
}.

(** The SDUs fetched one after the other. *)
Inductive pulls {St : Type} `{!MacSduTxBuilder St} : St -> list (Z * bytes) -> St -> Prop :=
  | pulls_nil s : pulls s [] s
  | pulls_empty s lcid n s1 l s2 : 0 <= n < 2 ^ 32 -> on_new_tx_sdu s lcid n = Some ([], s1) -> pulls s1 l s2 -> pulls s l s2
  | pulls_sdu s lcid n sdu s1 l s2 : 0 <= n < 2 ^ 32 -> on_new_tx_sdu s lcid n = Some (sdu, s1) -> sdu <> [] -> pulls s1 l s2 ->
      pulls s ((lcid, sdu) :: l) s2.

Lemma pulls_app {St} `{!MacSduTxBuilder St} s l1 s1 l2 s2 : pulls s l1 s1 -> pulls s1 l2 s2 -> pulls s (l1 ++ l2) s2.
Proof. induction 1; [done|intros; by eapply pulls_empty; [..|eauto]|intros; by eapply pulls_sdu; [..|eauto]]. Qed.

(** The subPDU of an SDU and its bytes. *)
Definition sdu_subpdu (x : Z * bytes) : mac_ul_sch_subpdu :=
  if 256 <=? blen x.2 then UlSubpdu x.1 3 true x.2 else UlSubpdu x.1 2 false x.2.
Definition sdu_bytes (x : Z * bytes) : bytes :=
  if 256 <=? blen x.2 then subheader false true x.1 :: blen x.2 / 256 :: blen x.2 mod 256 :: x.2
  else subheader false false x.1 :: blen x.2 :: x.2.

Lemma sdu_subpdu_fields x : us_lcid (sdu_subpdu x) = x.1 /\ us_payload (sdu_subpdu x) = x.2.
Proof. unfold sdu_subpdu. by destruct (256 <=? blen x.2). Qed.
Lemma is_sdu_fields lcid : is_sdu lcid = true -> 1 <= lcid <= 32 /\ ts38321_ul_sch lcid = Some kind_variable /\ supported lcid /\ lcid <> PADDING.
Proof.
  intros H. assert (1 <= lcid <= 32) as Hl by (unfold is_sdu, LCID1, LCID32 in H; lia).
  split; [done|]. unfold ts38321_ul_sch, supported, PADDING. rewrite !(proj2 (Z.leb_le _ _)) by lia. split; [done|]. lia.
Qed.
Lemma sdu_bytes_enc x : is_sdu x.1 = true -> blen x.2 < 65536 -> subpdu_enc (sdu_subpdu x) (sdu_bytes x).
Proof.
  intros H Hl. destruct (is_sdu_fields _ H) as (_ & H2 & _). unfold sdu_subpdu, sdu_bytes.
  destruct (Z.leb_spec 256 (blen x.2)); [apply enc_length16|apply enc_length8]; try done; lia.
Qed.
Lemma sdu_bytes_len x : blen (sdu_bytes x) = blen x.2 + if 256 <=? blen x.2 then 3 else 2.
Proof. unfold sdu_bytes. destruct (256 <=? blen x.2); rewrite !blen_cons; lia. Qed.

Lemma subheader_byte F lcid : 0 <= lcid < 64 -> u8 (Z.lor (Z.shiftl (if F : bool then 1 else 0) 6) (Z.land lcid 0x3f)) = subheader false F lcid.
Proof.
  intros Hl. change 0x3f with (Z.ones 6). rewrite Z.land_ones, Z.mod_small, Z.shiftl_mul_pow2 by lia.
  unfold subheader. destruct F; (rewrite (lor_disjoint 6) by mlia); rewrite u8_id by (unfold is_u8; lia); lia.
Qed.

Lemma dp_put_ok p b : dp_offset p + blen b <= dp_size p -> dp_put p b = Some (DlSchPdu (dp_size p) (dp_bytes p ++ b)).
Proof. intros H. unfold dp_put. by rewrite (proj2 (Z.leb_le _ _)). Qed.

Lemma add_sdu_ok p lcid sdu : 0 <= lcid < 64 -> blen sdu < 65536 -> dp_offset p + blen (sdu_bytes (lcid, sdu)) <= dp_size p ->
  add_sdu p lcid sdu = Some (blen (sdu_bytes (lcid, sdu)), DlSchPdu (dp_size p) (dp_bytes p ++ sdu_bytes (lcid, sdu))).
Proof.
  intros Hl Hs Hfit. pose proof (sdu_bytes_len (lcid, sdu)) as Hlen. cbn [fst snd] in Hlen. pose proof (blen_nonneg sdu).
  unfold add_sdu, MAC_SDU_SUBHEADER_LENGTH_THRES, encode_subheader. unfold sdu_bytes in *. cbn [fst snd] in *.
  rewrite subheader_byte by done. change 0xff with (Z.ones 8). rewrite Z.land_ones by lia. destruct (256 <=? blen sdu) eqn:E.
  - assert (Z.shiftr (Z.land (blen sdu) 0xff00) 8 = blen sdu / 256) as ->.
    { change 0xff00 with (Z.shiftl (Z.ones 8) 8). rewrite Z.shiftr_land, Z.shiftr_shiftl_l by lia. change (8 - 8) with 0.
      rewrite Z.shiftl_0_r, Z.land_ones, Z.shiftr_div_pow2 by lia. mlia. }
    rewrite !blen_cons in Hfit |- *. rewrite (proj2 (Z.ltb_ge _ _)) by lia. cbn [Z.eqb Pos.eqb].
    rewrite dp_put_ok by (rewrite !blen_cons, blen_nil; lia). rewrite dp_put_ok by (unfold dp_offset in *; cbn; rewrite blen_app, !blen_cons, blen_nil; lia).
    cbn [dp_size dp_bytes]. rewrite <- app_assoc. replace (blen sdu + 3) with (1 + (1 + (1 + blen sdu))) by lia. done.
  - rewrite !blen_cons in Hfit |- *. rewrite (proj2 (Z.ltb_ge _ _)) by lia. cbn [Z.eqb Pos.eqb].
    rewrite dp_put_ok by (rewrite !blen_cons, blen_nil; lia). rewrite dp_put_ok by (unfold dp_offset in *; cbn; rewrite blen_app, !blen_cons, blen_nil; lia).
    cbn [dp_size dp_bytes]. rewrite <- app_assoc. replace (blen sdu + 2) with (1 + (1 + blen sdu)) by lia.
    cbn [app]. by rewrite (Z.mod_small (blen sdu)) by lia.
Qed.

(** ** Assembly of the SDUs of a bearer *)
Section Assembly.
Context {St : Type} `{!MacSduTxBuilder St} (tx_ok : St -> Prop) `{!MacSduTxBuilderLaws St tx_ok}.

Definition sdus_bytes (l : list (Z * bytes)) : bytes := concat (map sdu_bytes l).
Lemma sdus_bytes_app a b : sdus_bytes (a ++ b) = sdus_bytes a ++ sdus_bytes b.
Proof. unfold sdus_bytes. by rewrite map_app, concat_app. Qed.

(** The PDU [p'] is [p] with the SDUs [l] appended. *)
Record appended (p : dl_sch_pdu) (l : list (Z * bytes)) (p' : dl_sch_pdu) : Prop := {
  ap_size : dp_size p' = dp_size p;
  ap_bytes : dp_bytes p' = dp_bytes p ++ sdus_bytes l;
  ap_fits : dp_offset p' <= dp_size p';
  ap_sdus : Forall (fun x => x.2 <> [] /\ blen x.2 < 65536) l;
}.

Lemma appended_nil p : dp_offset p <= dp_size p -> appended p [] p.
Proof. intros H. split; try done. by rewrite app_nil_r. Qed.
Lemma appended_app p l p1 l' p2 : appended p l p1 -> appended p1 l' p2 -> appended p (l ++ l') p2.
Proof.
  intros [A1 A2 A3 A4] [B1 B2 B3 B4]. split; [congruence|by rewrite B2, A2, sdus_bytes_app, app_assoc|done|by apply Forall_app].
Qed.

(** How a bearer is served with [room] bytes for subPDUs: as long as there is room for [min] bytes it is asked for an SDU of
    the largest size that fits the room with its subheader, and every SDU takes its subPDU out of the room; the bearer is
    left when it has nothing to send. *)
Definition largest_sdu (room : Z) : Z := if room <=? 257 then room - 2 else room - 3.
Inductive drains (min lcid : Z) : St -> Z -> list bytes -> St -> Prop :=
  | drains_full s room : room < min -> drains min lcid s room [] s
  | drains_idle s room s1 : min <= room -> on_new_tx_sdu s lcid (largest_sdu room) = Some ([], s1) -> drains min lcid s room [] s1
  | drains_sdu s room sdu s1 l s2 : min <= room -> on_new_tx_sdu s lcid (largest_sdu room) = Some (sdu, s1) -> sdu <> [] ->
      drains min lcid s1 (room - blen (sdu_bytes (lcid, sdu))) l s2 -> drains min lcid s room (sdu :: l) s2.

(** The logical channels are served in order, each with the bytes scheduled for it and their subheader, as far as the
    block has them left. *)
Inductive serves (min : Z) : St -> Z -> list (Z * Z) -> list (Z * bytes) -> St -> Prop :=
  | serves_nil s space : serves min s space [] [] s
  | serves_cons s space lcid sched lcs sdus s1 l s2 :
      drains min lcid s (Z.min (if sched =? 0 then 0 else u32 (sched + if 256 <=? sched then 3 else 2)) space) sdus s1 ->
      serves min s1 (space - blen (sdus_bytes (map (pair lcid) sdus))) lcs l s2 ->
      serves min s space ((lcid, sched) :: lcs) (map (pair lcid) sdus ++ l) s2.

Lemma payload_size_fits rem sdu : 3 <= rem < 2 ^ 32 -> 0 <= blen sdu <= get_mac_sdu_payload_size rem ->
  forall lcid, blen (sdu_bytes (lcid, sdu)) <= rem.
Proof.
  intros Hr Hs lcid. rewrite sdu_bytes_len. cbn [snd]. unfold get_mac_sdu_payload_size, MAC_SDU_SUBHEADER_LENGTH_THRES, MIN_MAC_SDU_SUBHEADER_SIZE,
    MAX_MAC_SDU_SUBHEADER_SIZE in Hs.
  destruct (Z.leb_spec rem (256 - 1 + 2)); rewrite u32_id in Hs by (unfold is_u32; lia); destruct (Z.leb_spec 256 (blen sdu)); lia.
Qed.
Lemma payload_size_range rem : 3 <= rem < 2 ^ 32 -> 0 <= get_mac_sdu_payload_size rem < rem.
Proof.
  intros Hr. unfold get_mac_sdu_payload_size, MAC_SDU_SUBHEADER_LENGTH_THRES, MIN_MAC_SDU_SUBHEADER_SIZE, MAX_MAC_SDU_SUBHEADER_SIZE.
  destruct (Z.leb_spec rem (256 - 1 + 2)); rewrite u32_id by (unfold is_u32; lia); lia.
Qed.

Lemma assemble_loop_ok fuel : forall s p lcid min rem, tx_ok s -> is_sdu lcid = true -> 3 <= min -> 0 <= rem < Z.of_nat fuel ->
  dp_offset p + rem <= dp_size p -> dp_size p < 65536 ->
  exists s' p' l, assemble_sdus_loop fuel s p lcid min rem = Some (s', p') /\ tx_ok s'
    /\ pulls s (map (pair lcid) l) s' /\ appended p (map (pair lcid) l) p' /\ drains min lcid s rem l s'.
Proof.
  induction fuel as [|fuel IH]; intros s p lcid min rem Hs Hl Hmin Hrem Hfit Hsz; [lia|]. cbn [assemble_sdus_loop].
  pose proof (blen_nonneg (dp_bytes p)) as Hoff. fold (dp_offset p) in Hoff.
  destruct (Z.ltb_spec rem min) as [Hlt|Hge].
  { exists s, p, []. split_and!; [done|done|constructor|by apply appended_nil; lia|by constructor]. }
  assert (get_mac_sdu_payload_size rem = largest_sdu rem) as Hlarge.
  { unfold get_mac_sdu_payload_size, largest_sdu, MAC_SDU_SUBHEADER_LENGTH_THRES, MIN_MAC_SDU_SUBHEADER_SIZE, MAX_MAC_SDU_SUBHEADER_SIZE.
    change (256 - 1 + 2) with 257. destruct (Z.leb_spec rem 257); apply u32_id; unfold is_u32; lia. }
  pose proof (payload_size_range rem ltac:(lia)) as Hn. set (n := get_mac_sdu_payload_size rem) in *.
  destruct (tx_sdu_fits s lcid n Hs ltac:(lia)) as (sdu & s1 & Hs1 & Hle & Hs1').
  rewrite Hs1. destruct (decide (sdu = [])) as [->|Hne].
  { exists s1, p, []. split_and!; [done|done|by eapply pulls_empty; [|done|constructor]; lia|by apply appended_nil; lia|]. apply drains_idle; [done|by rewrite <- Hlarge]. }
  pose proof (blen_nonneg sdu). rewrite (proj2 (Z.ltb_ge n _)) by lia.
  pose proof (payload_size_fits rem sdu ltac:(lia) ltac:(fold n; lia) lcid) as Hb. destruct (is_sdu_fields _ Hl) as (Hl1 & _).
  rewrite add_sdu_ok by lia. set (b := sdu_bytes (lcid, sdu)) in *.
  assert (3 <= blen b) as Hb3.
  { unfold b. rewrite sdu_bytes_len. cbn [snd]. assert (0 < blen sdu) by (by apply nonempty_blen). destruct (256 <=? blen sdu); lia. }
  rewrite (proj2 (Z.eqb_neq (blen b) 0)), (proj2 (Z.ltb_ge rem (blen b))) by lia.
  set (p1 := DlSchPdu _ _). assert (dp_offset p1 = dp_offset p + blen b) as Hp1 by (unfold dp_offset; cbn; by rewrite blen_app).
  destruct (IH s1 p1 lcid min (rem - blen b) Hs1' Hl Hmin ltac:(lia) ltac:(cbn; lia) Hsz) as (s' & p' & l & -> & Hs' & Hpl & Hap & Hdr).
  exists s', p', (sdu :: l). split_and!; [done|done|cbn [map]; by eapply pulls_sdu; [|done..]; lia| |by eapply drains_sdu; [|rewrite <- Hlarge|..]].
  change (map (pair lcid) (sdu :: l)) with ([(lcid, sdu)] ++ map (pair lcid) l). eapply appended_app; [|exact Hap].
  split; cbn [dp_size dp_bytes p1]; [done|unfold sdus_bytes; cbn; by rewrite app_nil_r|rewrite Hp1; cbn; lia|]. constructor; [|constructor]. cbn. split; [done|lia].
Qed.

Definition stat_ok (stat : option Z) : Prop := match stat with Some n => 3 <= n | None => True end.
Definition lc_ok (x : Z * Z) : Prop := is_sdu x.1 = true /\ 0 <= x.2.

Lemma min_size_ok stat lcid : stat_ok stat -> 3 <= MIN_MAC_SDU_SIZE stat lcid.
Proof. unfold MIN_MAC_SDU_SIZE, MIN_MAC_SDU_SUBHEADER_SIZE. destruct stat; cbn; [done|]. destruct (lcid =? LCID_SRB0); lia. Qed.

Lemma assemble_subpdus_ok con_res l : forall stat s p, stat_ok stat -> tx_ok s -> Forall lc_ok l -> dp_offset p <= dp_size p -> dp_size p < 65536 ->
  exists stat' s' p' sdus, assemble_subpdus stat s p con_res l = Some (stat', s', p') /\ stat_ok stat' /\ tx_ok s'
    /\ pulls s sdus s' /\ appended p sdus p' /\ Forall (fun x => is_sdu x.1 = true /\ x.1 ∈ map fst l) sdus
    /\ serves (default 5 stat) s (dp_size p - dp_offset p) l sdus s'.
Proof.
  induction l as [|[lcid sched] l IH]; intros stat s p Hst Hs Hl Hfit Hsz; cbn [assemble_subpdus].
  { exists stat, s, p, []. split_and!; [done..|constructor|by apply appended_nil|constructor|constructor]. }
  apply Forall_cons_1 in Hl as [[Hl1 Hl2] Hl]. cbn in Hl1, Hl2. destruct (is_sdu_fields _ Hl1) as (Hr & _).
  pose proof (blen_nonneg (dp_bytes p)) as Hoff. fold (dp_offset p) in Hoff.
  assert (dl_is_sdu lcid = true) as -> by (unfold dl_is_sdu; lia). unfold assemble_sdus, nof_empty_bytes. rewrite (u32_id (dp_size p - dp_offset p)) by (unfold is_u32; lia).
  assert (0 <= get_mac_sdu_required_bytes sched) as Hreq by apply u32_is_u32. set (tot := Z.min _ _).
  destruct (assemble_loop_ok (S (Z.to_nat tot)) s p lcid (MIN_MAC_SDU_SIZE stat lcid) tot Hs Hl1) as (s1 & p1 & l1 & -> & Hs1 & Hp1 & Ha1 & Hdr);
    [by apply min_size_ok|lia|lia|done|]. pose proof Ha1 as [A1 A2 A3 _].
  destruct (IH (Some (MIN_MAC_SDU_SIZE stat lcid)) s1 p1) as (st2 & s2 & p2 & l2 & -> & Hst2 & Hs2 & Hp2 & Ha2 & Hf2 & Hsv); [by apply min_size_ok|done|done|done|lia|].
  assert (MIN_MAC_SDU_SIZE stat lcid = default 5 stat) as Hmin.
  { unfold MIN_MAC_SDU_SIZE, MIN_MAC_SDU_SUBHEADER_SIZE, LCID_SRB0. destruct stat; [done|]. by rewrite (proj2 (Z.eqb_neq lcid 0)) by lia. }
  exists st2, s2, p2, (map (pair lcid) l1 ++ l2). split_and!; [done|done|done|by eapply pulls_app|by eapply appended_app| |].
  2:{ rewrite Hmin in Hdr, Hsv. cbn [default] in Hsv. assert (get_mac_sdu_required_bytes sched = if sched =? 0 then 0 else u32 (sched + if 256 <=? sched then 3 else 2)) as Hrq.
      { unfold get_mac_sdu_required_bytes, get_mac_sdu_subheader_size, MAC_SDU_SUBHEADER_LENGTH_THRES. by destruct (Z.eqb_spec sched 0) as [->|]. }
      eapply serves_cons; [rewrite <- Hrq; exact Hdr|].
      replace (dp_size p - dp_offset p - blen (sdus_bytes (map (pair lcid) l1))) with (dp_size p1 - dp_offset p1); [exact Hsv|].
      unfold dp_offset. rewrite A1, A2, blen_app. lia. }
  apply Forall_app. split.
  - apply list.Forall_forall. intros x (y & -> & _)%list_elem_of_fmap. split; [done|]. apply list_elem_of_here.
  - apply (list.Forall_impl _ _ _ Hf2). intros x [H1 H2]. split; [done|]. by apply list_elem_of_further.
Qed.

Lemma blen_zeros n : 0 <= n -> blen (replicate (Z.to_nat n) 0) = n.
Proof. intros H. unfold blen. rewrite length_replicate. lia. Qed.
Lemma add_padding_ok p len : 0 < len < 2 ^ 32 -> dp_offset p + len <= dp_size p ->
  add_padding p len = Some (DlSchPdu (dp_size p) (dp_bytes p ++ PADDING :: replicate (Z.to_nat (len - 1)) 0)).
Proof.
  intros Hl Hf. unfold add_padding. rewrite u32_id by (unfold is_u32; lia). unfold encode_subheader. cbn [Z.eqb Pos.eqb].
  change (u8 (Z.lor (Z.shiftl 0 6) (Z.land DL_PADDING 0x3f))) with PADDING. rewrite dp_put_ok by (rewrite blen_cons, blen_nil; lia).
  rewrite dp_put_ok by (unfold dp_offset in *; cbn; rewrite blen_app, blen_cons, blen_nil, blen_zeros; lia).
  cbn [dp_size dp_bytes]. by rewrite <- app_assoc.
Qed.

Lemma sdus_enc (l : list (Z * bytes)) pad b : Forall (fun x => is_sdu x.1 = true) l -> Forall (fun x => x.2 <> [] /\ blen x.2 < 65536) l ->
  pdu_enc pad b -> pdu_enc (map sdu_subpdu l ++ pad) (sdus_bytes l ++ b).
Proof.
  intros H1 H2 Hp. induction l as [|x l IH]; [done|]. apply Forall_cons_1 in H1 as [Hx H1]. apply Forall_cons_1 in H2 as [(_ & Hlen) H2].
  unfold sdus_bytes. cbn [map app concat]. rewrite <- app_assoc. constructor; [by apply sdu_bytes_enc| |by apply IH].
  destruct (is_sdu_fields _ Hx) as (_ & Hk & _). intros Hp'. exfalso. unfold sdu_subpdu in Hp'. destruct (256 <=? blen x.2); cbn in Hp'; congruence.
Qed.

(** An assembled PDU: its bytes, the SDUs in it and the padding. *)
Record assembled (stat : option Z) (s : St) (lc_chs : list (Z * Z)) (tb_size : Z) (b : bytes) (sdus : list (Z * bytes)) (pad : list mac_ul_sch_subpdu) (s' : St) : Prop := {
  as_length : blen b = tb_size;
  as_served : serves (default 5 stat) s tb_size lc_chs sdus s';
  as_sdus : pulls s sdus s';
  as_format : pdu_enc (map sdu_subpdu sdus ++ pad) b;
  as_padding : (length pad <= 1)%nat /\ Forall (fun x => us_lcid x = PADDING) pad;
  as_lcids : Forall (fun x => x.1 ∈ map fst lc_chs) sdus;
  as_nonempty : Forall (fun x => is_sdu x.1 = true /\ x.2 <> []) sdus;
}.

Lemma assemble_ok stat s harq_size con_res lc_chs tb_size : stat_ok stat -> tx_ok s -> Forall lc_ok lc_chs -> 0 <= tb_size < 65536 -> tb_size <= harq_size ->
  exists stat' s' b sdus pad, assemble_newtx_pdu stat s harq_size con_res lc_chs tb_size = Some (stat', s', b)
    /\ stat_ok stat' /\ tx_ok s' /\ assembled stat s lc_chs tb_size b sdus pad s'.
Proof.
  intros Hst Hs Hl Htb Hh. unfold assemble_newtx_pdu. rewrite (proj2 (Z.ltb_ge harq_size tb_size)) by lia.
  destruct (assemble_subpdus_ok con_res lc_chs stat s (DlSchPdu tb_size []) Hst Hs Hl) as (st' & s' & p & sdus & -> & Hst' & Hs' & Hp & [A1 A2 A3 A4] & Hf & Hsv);
    [unfold dp_offset; cbn [dp_bytes dp_size]; rewrite blen_nil; lia|cbn [dp_size]; lia|].
  change (dp_size (DlSchPdu tb_size []) - dp_offset (DlSchPdu tb_size [])) with (tb_size - 0) in Hsv. rewrite Z.sub_0_r in Hsv.
  cbn [dp_size dp_bytes app] in A1, A2. assert (Forall (fun x => is_sdu x.1 = true /\ x.2 <> []) sdus) as Hlc.
  { rewrite list.Forall_forall in A4, Hf |- *. intros x Hx. split; [by apply Hf|by apply A4]. }
  assert (Forall (fun x => x.1 ∈ map fst lc_chs) sdus) as Hin by (apply (list.Forall_impl _ _ _ Hf); tauto).
  assert (Forall (fun x => is_sdu x.1 = true) sdus) as Hf' by (apply (list.Forall_impl _ _ _ Hf); tauto).
  rewrite A1 in A3. destruct (Z.ltb_spec (dp_offset p) tb_size) as [Hlt|Hge].
  - pose proof (blen_nonneg (dp_bytes p)) as Hnn. fold (dp_offset p) in Hnn. rewrite add_padding_ok by lia. eexists _, _, _, sdus, [UlSubpdu PADDING 1 false (replicate (Z.to_nat (tb_size - dp_offset p - 1)) 0)].
    split; [done|]. split; [done|]. split; [done|]. cbn [dp_bytes]. split; [|done|done| |by repeat constructor|done|done].
    + rewrite blen_app, blen_cons. fold (dp_offset p). rewrite blen_zeros; lia.
    + rewrite A2. rewrite <- (app_nil_r (PADDING :: _)). apply sdus_enc; [done|done|]. constructor; [by apply (enc_padding false)|done|constructor].
  - rewrite (proj2 (Z.ltb_ge tb_size _)) by lia. eexists _, _, _, sdus, []. split; [done|]. split; [done|]. split; [done|].
    split; [unfold dp_offset in *; lia|done|done| |by split; [cbn; lia|]|done|done]. rewrite A2. rewrite <- (app_nil_r (sdus_bytes sdus)). apply sdus_enc; [done|done|constructor].
Qed.

Lemma assembled_supported stat s lcs tb b sdus pad s' : assembled stat s lcs tb b sdus pad s' -> Forall (fun x => supported (us_lcid x)) (map sdu_subpdu sdus ++ pad).
Proof.
  intros [_ _ _ _ [_ Hpad] _ Hs]. apply Forall_app. split.
  - rewrite Forall_map. apply (list.Forall_impl _ _ _ Hs). intros x [Hx _]. destruct (is_sdu_fields _ Hx) as (_ & _ & H & _). cbn beta. rewrite (proj1 (sdu_subpdu_fields x)). exact H.
  - apply (list.Forall_impl _ _ _ Hpad). intros x ->. by unfold supported, PADDING.
Qed.
End Assembly.

(** C19: the DL-SCH PDU of a transport block of less than 65536 bytes with SDUs of logical channels 1 to 32 (no control
    element and no SRB0).  For bearers that return nothing or an SDU no longer than the opportunity, as [MacSduTxBuilderLaws]
    asks of them (the UM entity does), and however the scheduler splits the block, the assembler runs to its end without
    failing an assertion, serves the bearers in order with the bytes scheduled for each ([serves]), the PDU has exactly the size of the transport block and the format of TS 38.321, and the
    decoder of that format (which keeps the first 512 subPDUs) gives exactly the SDUs that the bearers returned, in
    order and with their logical channels, followed by at most one padding subPDU. *)
Theorem mac_dl_assembly_correct {St} `{!MacSduTxBuilder St} (tx_ok : St -> Prop) `{!MacSduTxBuilderLaws St tx_ok} stat s harq_size con_res lc_chs tb_size :
  stat_ok stat -> tx_ok s -> Forall lc_ok lc_chs -> 0 <= tb_size < 65536 -> tb_size <= harq_size ->
  exists stat' s' b sdus pad, assemble_newtx_pdu stat s harq_size con_res lc_chs tb_size = Some (stat', s', b)
    /\ assembled stat s lc_chs tb_size b sdus pad s' /\ pdu_unpack b = (true, take MAX_SUBPDUS_PER_PDU (map sdu_subpdu sdus ++ pad)).
Proof.
  intros Hst Hs Hl Htb Hh. destruct (assemble_ok tx_ok stat s harq_size con_res lc_chs tb_size Hst Hs Hl Htb Hh) as (st' & s' & b & sdus & pad & H1 & _ & _ & H2).
  exists st', s', b, sdus, pad. split; [done|]. split; [done|]. apply pdu_unpack_enc; [apply H2|by eapply assembled_supported].
Qed.

(** ** RLC UM over the MAC *)

(** The UM transmitting entity as the bearer of the assembler. *)
#[export] Instance um_tx_builder : MacSduTxBuilder rlc_tx_um_entity :=
  fun e _ n => match um_pull_pdu e n with Some (pdu, e, _) => Some (pdu, e) | None => None end.
#[export] Instance um_tx_builder_laws s : MacSduTxBuilderLaws rlc_tx_um_entity (um_tx_inv s).
Proof.
  split. intros e lcid n Hi Hn. unfold on_new_tx_sdu, um_tx_builder.
  destruct (um_pull_pdu_spec s e n Hi ltac:(lia)) as (e1 & evs & G1 & _ & _ & _ & [->|(k & B1 & B2 & B3 & -> & Hle)]).
  - eexists _, _. split; [done|]. split; [rewrite blen_nil; lia|done].
  - eexists _, _. split; [done|]. split; [done|by apply um_sent_inv].
Qed.

(** The PDUs of one transport block handed to the receiver in order. *)
Fixpoint um_feed (rx : rlc_rx_um_entity) (pdus : list bytes) : option (rlc_rx_um_entity * list bytes) :=
  match pdus with
  | [] => Some (rx, [])
  | pdu :: pdus =>
      let* (rx, sdus) := um_handle_pdu rx pdu in
      let* (rx, sdus') := um_feed rx pdus in Some (rx, sdus ++ sdus')
  end.

(** A bearer with logical channel [lcid]: SDUs from above, and transport blocks
    that are assembled, decoded and handed to the peer. *)
Inductive link_op := link_sdu (sdu : rlc_sdu) | link_discard (pdcp_sn : Z) | link_tb (tb_size sched_bytes : Z).
Definition link_exec (lcid : Z) (st : option Z * um_channel) (op : link_op) : option (option Z * um_channel) :=
  let (stat, c) := st in
  match op with
  | link_sdu x => let* c := ch_exec c (ch_handle_sdu x) in Some (stat, c)
  | link_discard n => let* c := ch_exec c (ch_discard_sdu n) in Some (stat, c)
  | link_tb tb_size sched_bytes =>
      let* (stat, tx, b) := assemble_newtx_pdu stat (ch_tx c) tb_size [] [(lcid, sched_bytes)] tb_size in
      let subpdus := (pdu_unpack b).2 in
      let* (rx, sdus) := um_feed (ch_rx c) (map us_payload (filter (fun s => us_lcid s = lcid) subpdus)) in
      Some (stat, UmChannel tx rx (ch_accepted c) (ch_delivered c ++ sdus))
  end.
Fixpoint link_run (lcid : Z) (st : option Z * um_channel) (ops : list link_op) : option (option Z * um_channel) :=
  match ops with [] => Some st | op :: ops => let* st := link_exec lcid st op in link_run lcid st ops end.

(** SDUs the transmitter takes; transport blocks too small for 512 subPDUs. *)
Definition link_op_ok (op : link_op) : Prop :=
  match op with
  | link_sdu x => sdu_buf x <> [] /\ blen (sdu_buf x) <= sdu_max
  | link_discard _ => True
  | link_tb tb_size sched_bytes => 0 <= tb_size <= 3 * Z.of_nat MAX_SUBPDUS_PER_PDU - 1 /\ 0 <= sched_bytes
  end.

Section Link.
Context (s : rlc_um_sn_size).

Lemma pulls_feed tx sdus tx' : pulls tx sdus tx' -> forall rx acc del, ch_inv s (UmChannel tx rx acc del) ->
  exists rx' ds, um_feed rx (map snd sdus) = Some (rx', ds) /\ ch_inv s (UmChannel tx' rx' acc (del ++ ds)).
Proof.
  induction 1 as [tx|tx lcid n tx1 l tx2 Hn Hp _ IH|tx lcid n sdu tx1 l tx2 Hn Hp Hne _ IH]; intros rx acc del Hi.
  - exists rx, []. by rewrite app_nil_r.
  - unfold on_new_tx_sdu, um_tx_builder in Hp. destruct (ch_exec_inv s _ (ch_pull_pdu n) Hi ltac:(cbn; lia)) as (c & Hc & Hi1).
    cbn [ch_exec ch_tx ch_rx] in Hc. destruct (um_pull_pdu tx n) as [[[pdu e] evs]|]; [|done]. injection Hp as -> ->.
    change (um_handle_pdu rx []) with (Some (rx, [] : list bytes)) in Hc. injection Hc as <-. cbn in Hi1. rewrite app_nil_r in Hi1. by apply IH.
  - unfold on_new_tx_sdu, um_tx_builder in Hp. destruct (ch_exec_inv s _ (ch_pull_pdu n) Hi ltac:(cbn; lia)) as (c & Hc & Hi1).
    cbn [ch_exec ch_tx ch_rx] in Hc. destruct (um_pull_pdu tx n) as [[[pdu e] evs]|]; [|done]. injection Hp as -> ->. cbn [map snd um_feed].
    destruct (um_handle_pdu rx sdu) as [[rx1 ds1]|]; [|done]. injection Hc as <-. cbn in Hi1.
    destruct (IH _ _ _ Hi1) as (rx' & ds & -> & Hi'). exists rx', (ds1 ++ ds). split; [done|]. by rewrite app_assoc.
Qed.

Lemma sdus_bytes_long l : Forall (fun x : Z * bytes => is_sdu x.1 = true /\ x.2 <> []) l -> 3 * Z.of_nat (length l) <= blen (sdus_bytes l).
Proof.
  induction 1 as [|x l [_ Hx] _ IH]; [done|]. unfold sdus_bytes. cbn [map concat length]. rewrite blen_app, sdu_bytes_len. fold (sdus_bytes l).
  assert (0 < blen x.2) by (by apply nonempty_blen). destruct (256 <=? blen x.2); lia.
Qed.

(** The number of subPDUs of a PDU is at most its number of bytes over three, padding aside. *)
Lemma assembled_count stat tx lcs tb b sdus pad tx' : assembled (St := rlc_tx_um_entity) stat tx lcs tb b sdus pad tx' -> tb <= 3 * Z.of_nat MAX_SUBPDUS_PER_PDU - 1 ->
  (length (map sdu_subpdu sdus ++ pad) <= MAX_SUBPDUS_PER_PDU)%nat.
Proof.
  intros [A1 _ _ A3 [A4 _] _ A5] Htb. rewrite length_app, length_map.
  assert (forall l (b : bytes), pdu_enc l b -> forall l1 l2, l = map sdu_subpdu l1 ++ l2 -> Forall (fun x : Z * bytes => is_sdu x.1 = true /\ x.2 <> []) l1 ->
    3 * Z.of_nat (length l1) <= blen b) as Hmin.
  { clear. induction 1 as [|s e l p Hs _ _ IH]; intros l1 l2 Hl Hf.
    - destruct l1; [done|discriminate].
    - rewrite blen_app. destruct l1 as [|x l1]; [cbn; pose proof (blen_nonneg e); pose proof (blen_nonneg p); lia|].
      apply Forall_cons_1 in Hf as [[Hx Hne] Hf]. cbn [map app] in Hl. injection Hl as -> ->. specialize (IH l1 l2 eq_refl Hf). cbn [length].
      assert (3 <= blen e); [|lia]. assert (0 < blen x.2) by (by apply nonempty_blen). destruct (is_sdu_fields _ Hx) as (_ & Hk & _).
      unfold sdu_subpdu in Hs. destruct (256 <=? blen x.2); inversion Hs; subst; rewrite !blen_cons; lia || congruence. }
  specialize (Hmin _ _ A3 sdus pad eq_refl A5). lia.
Qed.

Lemma filter_sdus lcid (sdus : list (Z * bytes)) pad : Forall (fun x => x.1 = lcid) sdus -> lcid <> PADDING -> Forall (fun x => us_lcid x = PADDING) pad ->
  map us_payload (filter (fun s => us_lcid s = lcid) (map sdu_subpdu sdus ++ pad)) = map snd sdus.
Proof.
  intros H1 Hne H2. rewrite list.filter_app, map_app. assert (filter (fun s => us_lcid s = lcid) pad = []) as ->.
  { clear -H2 Hne. induction H2 as [|x pad Hx _ IH]; [done|]. rewrite filter_cons_False; [done|congruence]. }
  rewrite app_nil_r. induction H1 as [|x sdus Hx _ IH]; [done|]. cbn [map]. destruct (sdu_subpdu_fields x) as [E1 E2].
  rewrite filter_cons_True by congruence. cbn [map]. by rewrite E2, IH.
Qed.

Lemma link_exec_inv lcid stat c op : is_sdu lcid = true -> stat_ok stat -> ch_inv s c -> link_op_ok op ->
  exists stat' c', link_exec lcid (stat, c) op = Some (stat', c') /\ stat_ok stat' /\ ch_inv s c'.
Proof.
  intros Hl Hst Hi Hop. destruct op as [x|n|tb sched]; cbn [link_exec].
  - destruct (ch_exec_inv s c (ch_handle_sdu x) Hi Hop) as (c' & -> & Hi'). by eexists _, _.
  - destruct (ch_exec_inv s c (ch_discard_sdu n) Hi I) as (c' & -> & Hi'). by eexists _, _.
  - destruct Hop as [Htb Hsc]. destruct (assemble_ok (um_tx_inv s) stat (ch_tx c) tb [] [(lcid, sched)] tb Hst (ci_tx _ _ Hi)) as (stat' & tx & b & sdus & pad & -> & Hst' & _ & Ha);
      [by repeat constructor|unfold MAX_SUBPDUS_PER_PDU in Htb; lia|lia|]. pose proof (assembled_count _ _ _ _ _ _ _ _ Ha ltac:(lia)) as Hn.
    pose proof (assembled_supported _ _ _ _ _ _ _ _ Ha) as Hsup. destruct Ha as [_ _ Hp He [_ Hpad] Hlc _]. rewrite (pdu_unpack_enc _ _ He Hsup), take_ge by done. cbn [snd].
    rewrite filter_sdus; [|apply (list.Forall_impl _ _ _ Hlc); intros x Hx; by apply list_elem_of_singleton in Hx|by apply is_sdu_fields|done].
    destruct c as [tx0 rx acc del]. cbn [ch_tx ch_rx ch_accepted ch_delivered] in *. destruct (pulls_feed tx0 sdus tx Hp rx acc del Hi) as (rx' & ds & -> & Hi').
    by eexists _, _.
Qed.

Lemma link_run_inv lcid ops : forall stat c, is_sdu lcid = true -> stat_ok stat -> ch_inv s c -> Forall link_op_ok ops ->
  exists stat' c', link_run lcid (stat, c) ops = Some (stat', c') /\ ch_inv s c'.
Proof.
  induction ops as [|op ops IH]; intros stat c Hl Hst Hi Hops; [by eexists _, _|]. apply Forall_cons_1 in Hops as [Hop Hops]. cbn [link_run].
  destruct (link_exec_inv lcid stat c op Hl Hst Hi Hop) as (stat1 & c1 & -> & Hst1 & Hi1). by apply IH.
Qed.
End Link.

(** C18: RLC UM over the MAC is transparent.  SDUs (non-empty, at most 65535 bytes) go through the UM transmitting entity,
    the assembler of DL-SCH PDUs, the decoder of MAC subPDUs (the one the sources have, of the UL-SCH, whose SDU subPDUs
    have the same format) and the UM receiving entity, whose t-Reassembly does not expire.  For every interleaving of
    SDUs, discards by PDCP SN and transport blocks of at most 1535 bytes (which hold at most the 512 subPDUs that the
    decoder keeps) nothing fails, and the SDUs accepted and not discarded are, in order and unchanged, those delivered
    followed by those the transmitter still holds. *)
Theorem rlc_um_over_mac_transparent (s : rlc_um_sn_size) (t_reassembly lcid : Z) (ops : list link_op) :
  is_sdu lcid = true -> Forall link_op_ok ops ->
  exists stat c, link_run lcid (None, ch_new s t_reassembly) ops = Some (stat, c)
    /\ sdu_buf <$> ch_accepted c = ch_delivered c ++ (sdu_buf <$> um_stream (ch_tx c)).
Proof.
  intros Hl Hops. destruct (link_run_inv s lcid ops None (ch_new s t_reassembly) Hl I (ch_new_inv s t_reassembly) Hops) as (stat & c & Hr & Hi).
  exists stat, c. split; [done|]. by apply (ch_inv_fifo s).
Qed.
Definition link_demo : list link_op :=
  [link_sdu (RlcSdu [1; 2; 3; 4; 5; 6; 7] (Some 1)); link_tb 8 100; link_sdu (RlcSdu [8; 9] (Some 2)); link_tb 30 100].
Lemma rlc_um_over_mac_transparent_witness :
  exists stat c, link_run 4 (None, ch_new um_size6bits 50) link_demo = Some (stat, c)
    /\ sdu_buf <$> ch_accepted c = ch_delivered c ++ (sdu_buf <$> um_stream (ch_tx c)) /\ ch_delivered c = [[1; 2; 3; 4; 5; 6; 7]; [8; 9]].
Proof.
  destruct (rlc_um_over_mac_transparent um_size6bits 50 4 link_demo) as (stat & c & H1 & H2).
  - reflexivity.
  - repeat constructor; unfold sdu_max; vm_compute; congruence.
  - exists stat, c. split; [exact H1|]. split; [exact H2|]. clear H2. vm_compute in H1. injection H1 as _ <-. reflexivity.
Defined.
Definition dl_demo_tx : rlc_tx_um_entity := (um_handle_sdu true (tx_um_new (TxUmConfig um_size6bits)) (RlcSdu [1; 2; 3] (Some 1))).1.
Lemma mac_dl_assembly_correct_witness :
  exists stat' s' b sdus pad, assemble_newtx_pdu None dl_demo_tx 20 [] [(4, 10)] 12 = Some (stat', s', b)
    /\ assembled None dl_demo_tx [(4, 10)] 12 b sdus pad s' /\ pdu_unpack b = (true, take MAX_SUBPDUS_PER_PDU (map sdu_subpdu sdus ++ pad)).
Proof.
  apply (mac_dl_assembly_correct (um_tx_inv um_size6bits) None dl_demo_tx 20 [] [(4, 10)] 12).
  - exact I.
  - apply um_handle_sdu_spec; [by apply um_tx_inv_init|vm_compute; congruence|done].
  - repeat constructor; vm_compute; congruence.
  - lia.
  - lia.
Defined.

(** ** Random access responses *)

(** The fields of a RAR subPDU as a UE reads them (TS 38.321 section 6.2.3, TS 38.213 table 8.2-1): whether more
    subPDUs follow, and the grant. *)
Definition rar_read (b : bytes) : option (bool * rar_ul_grant * bytes) :=
  match b with
  | h :: o1 :: o2 :: o3 :: o4 :: o5 :: o6 :: o7 :: r =>
      Some (128 <=? h,
            RarGrant (h mod 64) ((o1 mod 128) * 32 + o2 / 8) (o6 * 256 + o7) (o2 / 4 mod 2 =? 1)
              ((o2 mod 4) * 4096 + o3 * 16 + o4 / 16) (o4 mod 16) (o5 / 16) (o5 / 2 mod 8) (o5 mod 2 =? 1), r)
  | _ => None
  end.
Fixpoint rar_read_all (fuel : nat) (b : bytes) : list rar_ul_grant :=
  match fuel with
  | O => []
  | S fuel => match rar_read b with Some (more, g, r) => g :: if more : bool then rar_read_all fuel r else [] | None => [] end
  end.

Record rar_grant_ok (g : rar_ul_grant) : Prop := {
  ro_rapid : 0 <= rg_rapid g < 64; ro_ta : 0 <= rg_ta g < 4096; ro_crnti : is_u16 (rg_temp_crnti g);
  ro_freq : 0 <= rg_freq_resource_assignment g < 2 ^ 14; ro_time : 0 <= rg_time_resource_assignment g < 16;
  ro_mcs : 0 <= rg_mcs g < 16; ro_tpc : 0 <= rg_tpc g < 8;
}.

Lemma land_low x n : 0 <= n -> Z.land x (2 ^ n - 1) = x mod 2 ^ n.
Proof. intros Hn. by rewrite <- Z.land_ones, Z.ones_equiv by done. Qed.

Lemma rar_subpdu_bytes g last : rar_grant_ok g ->
  encode_rar_subpdu g last =
    [(if last : bool then 0 else 128) + 64 + rg_rapid g; rg_ta g / 32;
     rg_ta g mod 32 * 8 + (if rg_freq_hop_flag g then 4 else 0) + rg_freq_resource_assignment g / 4096;
     rg_freq_resource_assignment g / 16 mod 256; rg_freq_resource_assignment g mod 16 * 16 + rg_time_resource_assignment g;
     rg_mcs g * 16 + rg_tpc g * 2 + (if rg_csi_req g then 1 else 0); rg_temp_crnti g / 256; rg_temp_crnti g mod 256].
Proof.
  intros [H1 H2 H3 H4 H5 H6 H7]. unfold encode_rar_subpdu, encode_rapid_subheader, encode_rar_grant_payload. unfold is_u16 in H3.
  assert (forall x, Z.land x 0x3f = x mod 2 ^ 6 /\ Z.land x 0x7f = x mod 2 ^ 7 /\ Z.land x 0x1f = x mod 2 ^ 5 /\ Z.land x 0x3 = x mod 2 ^ 2
    /\ Z.land x 0xff = x mod 2 ^ 8 /\ Z.land x 0xf = x mod 2 ^ 4 /\ Z.land x 0x7 = x mod 2 ^ 3) as Hland.
  { intros x. split_and!; [exact (land_low x 6 ltac:(lia))|exact (land_low x 7 ltac:(lia))|exact (land_low x 5 ltac:(lia))|exact (land_low x 2 ltac:(lia))
      |exact (land_low x 8 ltac:(lia))|exact (land_low x 4 ltac:(lia))|exact (land_low x 3 ltac:(lia))]. }
  rewrite !(fun x => proj1 (Hland x)), !(fun x => proj1 (proj2 (Hland x))), !(fun x => proj1 (proj2 (proj2 (Hland x)))),
    !(fun x => proj1 (proj2 (proj2 (proj2 (Hland x))))), !(fun x => proj1 (proj2 (proj2 (proj2 (proj2 (Hland x)))))),
    !(fun x => proj1 (proj2 (proj2 (proj2 (proj2 (proj2 (Hland x))))))), !(fun x => proj2 (proj2 (proj2 (proj2 (proj2 (proj2 (Hland x))))))).
  rewrite !Z.shiftr_div_pow2, !Z.shiftl_mul_pow2 by lia.
  rewrite (u8_id (rg_rapid g)) by (unfold is_u8; lia).
  assert (forall x, 0 <= x < 256 -> u8 x = x) as Hu by (intros; by apply u8_id).
  assert (u8 ((if last then 0 else 1) * 2 ^ 7) = if last then 0 else 128) as -> by (by destruct last).
  assert (Z.lor (if last then 0 else 128) (1 * 2 ^ 6) = (if last then 0 else 128) + 64) as -> by (by destruct last).
  rewrite (lor_disjoint 6) by (destruct last; mlia). rewrite Hu by (destruct last; mlia).
  rewrite (lor_disjoint 3 (rg_ta g mod 2 ^ 5 * 2 ^ 3) ((if rg_freq_hop_flag g then 1 else 0) * 2 ^ 2)) by (destruct (rg_freq_hop_flag g); mlia).
  rewrite (lor_disjoint 2 _ (rg_freq_resource_assignment g / 2 ^ 12 mod 2 ^ 2)) by (destruct (rg_freq_hop_flag g); mlia).
  rewrite Hu by (destruct (rg_freq_hop_flag g); mlia). rewrite (lor_disjoint 4) by mlia. rewrite Hu by mlia.
  rewrite (lor_disjoint 4 (rg_mcs g mod 2 ^ 4 * 2 ^ 4) (rg_tpc g mod 2 ^ 3 * 2 ^ 1)) by mlia.
  rewrite (lor_disjoint 1 _ (if rg_csi_req g then 1 else 0)) by (destruct (rg_csi_req g); mlia). rewrite Hu by (destruct (rg_csi_req g); mlia).
  assert (forall a b c d e f h i a' b' c' d' e' f' h' i' : Z, a = a' -> b = b' -> c = c' -> d = d' -> e = e' -> f = f' -> h = h' -> i = i' ->
    [a; b; c; d; e; f; h; i] = [a'; b'; c'; d'; e'; f'; h'; i']) as Heq by (intros; by subst).
  apply Heq; destruct last, (rg_freq_hop_flag g), (rg_csi_req g); mlia.
Qed.

Lemma rar_read_subpdu g last r : rar_grant_ok g -> rar_read (encode_rar_subpdu g last ++ r) = Some (negb last, g, r).
Proof.
  intros Hg. rewrite rar_subpdu_bytes by done. destruct Hg as [H1 H2 H3 H4 H5 H6 H7]. unfold is_u16 in H3. cbn [app rar_read].
  destruct g as [rapid ta crnti hop freq time mcs tpc csi]. cbn [rg_rapid rg_ta rg_temp_crnti rg_freq_hop_flag rg_freq_resource_assignment
    rg_time_resource_assignment rg_mcs rg_tpc rg_csi_req] in *. set (fh := if hop then 4 else 0). set (cr := if csi then 1 else 0).
  assert ((128 <=? (if last then 0 else 128) + 64 + rapid) = negb last) as -> by (destruct last; cbn [negb]; lia).
  assert (((ta mod 32 * 8 + fh + freq / 4096) / 4 mod 2 =? 1) = hop) as ->.
  { destruct hop; subst fh; [apply Z.eqb_eq|apply Z.eqb_neq]; mlia. }
  assert (((mcs * 16 + tpc * 2 + cr) mod 2 =? 1) = csi) as -> by (destruct csi; subst cr; [apply Z.eqb_eq|apply Z.eqb_neq]; mlia).
  assert (0 <= fh <= 4 /\ fh mod 4 = 0) as Hfh by (by destruct hop). assert (0 <= cr <= 1) as Hcr by (destruct csi; subst cr; lia).
  assert (forall a b c d e f h (a' b' c' d' e' f' h' : Z), a = a' -> b = b' -> c = c' -> d = d' -> e = e' -> f = f' -> h = h' ->
    Some (negb last, RarGrant a b c hop d e f h csi, r) = Some (negb last, RarGrant a' b' c' hop d' e' f' h' csi, r)) as Heq by (intros; by subst).
  clearbody fh cr. apply Heq; try mlia. destruct last; mlia.
Qed.

(** Random access responses: the encoded PDU has the size of its transport block, and a UE that reads it subPDU by
    subPDU until the extension bit ends the list recovers every grant with all its fields, in order. *)
Theorem rar_pdu_roundtrip l tb_size : l <> [] -> Forall rar_grant_ok l -> 8 * Z.of_nat (length l) <= tb_size ->
  exists b, encode_rar_pdu l tb_size = Some b /\ blen b = tb_size /\ rar_read_all (length l) b = l.
Proof.
  intros Hne Hl Htb. unfold encode_rar_pdu. rewrite bool_decide_false by done. rewrite (proj2 (Z.ltb_ge _ _)) by lia.
  assert (length (encode_rar_subpdus l) = 8 * length l)%nat as Hlen.
  { clear. induction l as [|g l IH]; [done|]. cbn [encode_rar_subpdus]. rewrite length_app, IH. cbn [length encode_rar_subpdu encode_rar_grant_payload]. lia. }
  eexists. split; [done|]. split; [unfold blen; rewrite length_app, length_replicate; lia|].
  generalize (replicate (Z.to_nat tb_size - length (encode_rar_subpdus l)) 0) as pad. clear Htb Hlen. revert Hne.
  induction Hl as [|g l Hg _ IH]; intros Hne pad; [done|]. cbn [encode_rar_subpdus length rar_read_all]. rewrite <- app_assoc, rar_read_subpdu by done.
  destruct l as [|g' l]; [done|]. rewrite bool_decide_false by done. cbn [negb]. f_equal. by apply IH.
Qed.
Lemma rar_pdu_roundtrip_witness :
  let l := [RarGrant 5 31 0x4601 false 1234 2 3 1 false; RarGrant 63 4095 0x4602 true 0x3fff 15 15 7 true] in
  exists b, encode_rar_pdu l 20 = Some b /\ blen b = 20 /\ rar_read_all 2 b = l.
Proof.
  intros l. apply (rar_pdu_roundtrip l 20).
  - discriminate.
  - repeat constructor; vm_compute; congruence.
  - vm_compute. congruence.
Defined.
