(* ===== verification/SlotPoint.v ===== *)
(** * Slots

    The slot counter of a cell (include/srsran/ran/slot_point.h): the numerology, the
    system frame number and the slot index in one count that wraps around after 1024
    frames, with comparisons that account for the wrap-around. *)
From S2P Require Import Prelude.

Definition NOF_SUBFRAMES_PER_FRAME : Z := 10.
Definition NOF_SFNS : Z := 1024.
Definition NOF_NUMEROLOGIES : Z := 5.

(** [numerology_val] has 3 bits and [count_val] 29. *)
Record slot_point := SlotPoint { numerology_val : Z; count_val : Z }.
#[export] Instance slot_point_eq_dec : EqDecision slot_point.
Proof. solve_decision. Defined.

Definition slot_point_invalid : slot_point := SlotPoint NOF_NUMEROLOGIES 0.
Definition nof_slots_per_subframe (s : slot_point) : Z := u32 (Z.shiftl 1 (numerology_val s)).
Definition nof_slots_per_frame (s : slot_point) : Z := u32 (nof_slots_per_subframe s * NOF_SUBFRAMES_PER_FRAME).
Definition nof_slots_per_system_frame (s : slot_point) : Z := u32 (nof_slots_per_frame s * NOF_SFNS).
Definition slot_valid (s : slot_point) : bool := numerology_val s <? NOF_NUMEROLOGIES.
Definition slot_clear (s : slot_point) : slot_point := SlotPoint NOF_NUMEROLOGIES (count_val s).

(** The constructors: from a count, from a frame and a slot, from a frame, a subframe
    and a slot. *)
Definition slot_of_count (numerology count : Z) : option slot_point :=
  let s := SlotPoint numerology count in
  if (numerology <? NOF_NUMEROLOGIES) && (count <? nof_slots_per_system_frame s) then Some s else None.
Definition slot_of_sfn (numerology sfn_val slot_radio_frame_idx : Z) : option slot_point :=
  let s := SlotPoint numerology (u32 (slot_radio_frame_idx + sfn_val * nof_slots_per_frame (SlotPoint numerology 0))) in
  if (numerology <? NOF_NUMEROLOGIES) && (sfn_val <? NOF_SFNS) && (slot_radio_frame_idx <? nof_slots_per_frame s)
  then Some s else None.
Definition slot_of_subframe (numerology sfn_val subframe slot_subframe_idx : Z) : option slot_point :=
  let s0 := SlotPoint numerology 0 in
  let s := SlotPoint numerology (u32 (slot_subframe_idx + subframe * nof_slots_per_subframe s0 + sfn_val * nof_slots_per_frame s0)) in
  if (numerology <? NOF_NUMEROLOGIES) && (sfn_val <? NOF_SFNS) && (subframe <? NOF_SUBFRAMES_PER_FRAME)
     && (slot_subframe_idx <? nof_slots_per_subframe s)
  then Some s else None.

Definition slot_index (s : slot_point) : Z := count_val s mod nof_slots_per_frame s.
Definition sfn (s : slot_point) : Z := count_val s / nof_slots_per_frame s.
Definition subframe_index (s : slot_point) : Z := slot_index s / nof_slots_per_subframe s.
Definition nof_hrf_slots (s : slot_point) : Z := nof_slots_per_frame s / 2.
Definition is_odd_hrf (s : slot_point) : bool := NOF_SUBFRAMES_PER_FRAME / 2 <=? subframe_index s.
Definition hrf_slot_index (s : slot_point) : Z := count_val s mod nof_hrf_slots s.
Definition subframe_slot_index (s : slot_point) : Z := count_val s mod nof_slots_per_subframe s.

(** Comparisons; slots of different numerologies fail the assertion. *)
Definition slot_eqb (a b : slot_point) : bool := (count_val b =? count_val a) && (numerology_val b =? numerology_val a).
Definition slot_ltb (a b : slot_point) : option bool :=
  if negb (numerology_val a =? numerology_val b) then None
  else
    let v := count_val b - count_val a in
    let half := nof_slots_per_system_frame a / 2 in
    Some (if 0 <? v then v <? half else v <? - half).
Definition slot_leb (a b : slot_point) : option bool := if slot_eqb a b then Some true else slot_ltb a b.
Definition slot_geb (a b : slot_point) : option bool := let* r := slot_ltb a b in Some (negb r).
Definition slot_gtb (a b : slot_point) : option bool := if slot_eqb a b then Some false else slot_geb a b.

(** [a - b] *)
Definition slot_diff (a b : slot_point) : Z :=
  let v := count_val a - count_val b in
  let n := nof_slots_per_system_frame a in
  if n / 2 <=? v then v - n else if v <? - (n / 2) then v + n else v.

(** [++s], [s += jump] for an unsigned and for a signed jump, [s -= jump] *)
Definition slot_incr (s : slot_point) : slot_point :=
  let c := count_val s + 1 in SlotPoint (numerology_val s) (if c =? nof_slots_per_system_frame s then 0 else c).
Definition slot_add (s : slot_point) (jump : Z) : slot_point :=
  SlotPoint (numerology_val s) (u32 (count_val s + jump) mod nof_slots_per_system_frame s).
Definition slot_add_int (s : slot_point) (jump : Z) : slot_point :=
  let n := nof_slots_per_system_frame s in
  let tmp := Z.rem (count_val s + jump) n in
  SlotPoint (numerology_val s) (tmp + if tmp <? 0 then n else 0).
Definition slot_sub (s : slot_point) (jump : Z) : slot_point := slot_add_int s (- jump).

Definition is_in_interval (s b e : slot_point) : option bool :=
  let* r := slot_geb s b in if r : bool then slot_ltb s e else Some false.
Definition slot_max (a b : slot_point) : option slot_point := let* r := slot_gtb a b in Some (if r : bool then a else b).
Definition slot_min (a b : slot_point) : option slot_point := let* r := slot_ltb a b in Some (if r : bool then a else b).

Definition set_slot_numerology (s : slot_point) (new_numerology : Z) : option slot_point :=
  let old := numerology_val s in
  if new_numerology <? old then slot_of_count new_numerology (Z.shiftr (count_val s) (old - new_numerology))
  else if old <? new_numerology then slot_of_count new_numerology (u32 (Z.shiftl (count_val s) (new_numerology - old)))
  else Some s.

(** ** Laws *)
Definition slot_ok (s : slot_point) : Prop := 0 <= numerology_val s < NOF_NUMEROLOGIES /\ 0 <= count_val s < nof_slots_per_system_frame s.

Lemma nof_slots_cases s : 0 <= numerology_val s < NOF_NUMEROLOGIES ->
  exists n, numerology_val s = n /\ nof_slots_per_subframe s = 2 ^ n /\ nof_slots_per_frame s = 10 * 2 ^ n
    /\ nof_slots_per_system_frame s = 10240 * 2 ^ n /\ (n = 0 \/ n = 1 \/ n = 2 \/ n = 3 \/ n = 4).
Proof.
  unfold NOF_NUMEROLOGIES. intros H. exists (numerology_val s). split; [done|].
  unfold nof_slots_per_system_frame, nof_slots_per_frame, nof_slots_per_subframe.
  assert (numerology_val s = 0 \/ numerology_val s = 1 \/ numerology_val s = 2 \/ numerology_val s = 3 \/ numerology_val s = 4) as Hc by lia.
  destruct Hc as [->|[->|[->|[->| ->]]]]; split_and!; (reflexivity || lia).
Qed.

(** Case analysis on the numerology, which makes the arithmetic linear. *)
Ltac slot_cases s :=
  let n := fresh "n" in let Hn := fresh "Hn" in
  let Hf := fresh "Hf" in let Hfr := fresh "Hfr" in let Hsf := fresh "Hsf" in let Hc := fresh "Hc" in
  destruct (nof_slots_cases s) as (n & Hn & Hf & Hfr & Hsf & Hc); [first [done|lia]|];
  destruct Hc as [->|[->|[->|[->| ->]]]]; pow2s; cbn [Z.mul Pos.mul] in Hf, Hfr, Hsf.

Lemma system_frame_pos s : 0 <= numerology_val s < NOF_NUMEROLOGIES -> 10240 <= nof_slots_per_system_frame s <= 163840 /\ nof_slots_per_system_frame s mod 2 = 0.
Proof. intros H. slot_cases s; rewrite Hsf; split; (lia || reflexivity). Qed.
Lemma same_system_frame s c : nof_slots_per_system_frame (SlotPoint (numerology_val s) c) = nof_slots_per_system_frame s.
Proof. done. Qed.

Lemma slot_add_int_ok s k : slot_ok s ->
  slot_ok (slot_add_int s k) /\ numerology_val (slot_add_int s k) = numerology_val s
  /\ count_val (slot_add_int s k) = (count_val s + k) mod nof_slots_per_system_frame s.
Proof.
  intros [Hn Hc]. destruct (system_frame_pos s Hn) as [Hp _]. set (N := nof_slots_per_system_frame s) in *.
  assert (count_val (slot_add_int s k) = (count_val s + k) mod N) as Hv.
  { unfold slot_add_int. cbn [count_val]. fold N. pose proof (Z.quot_rem' (count_val s + k) N) as Hq.
    pose proof (Z.rem_bound_abs (count_val s + k) N ltac:(lia)) as Hb. destruct (_ <? 0) eqn:E; breflect.
    - apply (Z.mod_unique_pos _ _ (Z.quot (count_val s + k) N - 1)); lia.
    - apply (Z.mod_unique_pos _ _ (Z.quot (count_val s + k) N)); lia. }
  split; [|done]. split; [done|]. rewrite Hv. unfold slot_add_int. rewrite same_system_frame. fold N. apply Z.mod_pos_bound. lia.
Qed.
Lemma slot_add_eq s k : slot_ok s -> 0 <= k < 2 ^ 32 - 163840 -> slot_add s k = slot_add_int s k.
Proof.
  intros Hs Hk. destruct (slot_add_int_ok s k Hs) as (_ & Hn & Hc). destruct Hs as [Hn' Hc']. destruct (system_frame_pos s Hn') as [Hp _].
  unfold slot_add. rewrite u32_id by (unfold is_u32; lia). rewrite <- Hc. by destruct (slot_add_int s k); cbn in *; subst.
Qed.
Lemma slot_incr_eq s : slot_ok s -> slot_incr s = slot_add_int s 1.
Proof.
  intros Hs. destruct (slot_add_int_ok s 1 Hs) as (_ & Hn & Hc). destruct Hs as [Hn' Hc']. unfold slot_incr.
  assert ((if count_val s + 1 =? nof_slots_per_system_frame s then 0 else count_val s + 1) = count_val (slot_add_int s 1)) as ->.
  { rewrite Hc. destruct (_ =? _) eqn:E; breflect; [rewrite E, Z.mod_same by lia; done|]. rewrite Z.mod_small by lia. done. }
  by destruct (slot_add_int s 1); cbn in *; subst.
Qed.

Lemma slot_add_add s j k : slot_ok s -> slot_add_int (slot_add_int s j) k = slot_add_int s (j + k).
Proof.
  intros Hs. destruct (slot_add_int_ok s j Hs) as (Hok & Hn & Hc). destruct (slot_add_int_ok _ k Hok) as (_ & Hn2 & Hc2).
  destruct (slot_add_int_ok s (j + k) Hs) as (_ & Hn3 & Hc3).
  assert (nof_slots_per_system_frame (slot_add_int s j) = nof_slots_per_system_frame s) as Hf by done. rewrite Hf, Hc in Hc2.
  destruct (slot_add_int (slot_add_int s j) k), (slot_add_int s (j + k)). cbn in *. f_equal; [congruence|]. rewrite Hc2, Hc3.
  rewrite Z.add_mod_idemp_l; [f_equal; lia|]. destruct Hs as [Hs _]. pose proof (system_frame_pos s Hs). lia.
Qed.

(** The comparison and the difference of two slots that are less than half a period apart. *)
Lemma slot_compare s k1 k2 : slot_ok s -> - (nof_slots_per_system_frame s / 2) < k1 - k2 < nof_slots_per_system_frame s / 2 ->
  let a := slot_add_int s k1 in let b := slot_add_int s k2 in
  slot_eqb a b = (k1 =? k2) /\ slot_ltb a b = Some (k1 <? k2) /\ slot_diff a b = k1 - k2.
Proof.
  intros Hs Hk a b. destruct (slot_add_int_ok s k1 Hs) as ([Hna Hca] & Hn1 & Hc1). destruct (slot_add_int_ok s k2 Hs) as ([Hnb Hcb] & Hn2 & Hc2).
  fold a b in Hna, Hca, Hn1, Hc1, Hnb, Hcb, Hn2, Hc2. unfold slot_eqb, slot_ltb, slot_diff. rewrite Hn1, Hn2, Z.eqb_refl. cbn [negb].
  assert (nof_slots_per_system_frame a = nof_slots_per_system_frame s) as -> by done. destruct Hs as [Hs Hcs].
  assert (exists q1 q2, count_val a = count_val s + k1 - nof_slots_per_system_frame s * q1 /\ count_val b = count_val s + k2 - nof_slots_per_system_frame s * q2
    /\ 0 <= count_val a < nof_slots_per_system_frame s /\ 0 <= count_val b < nof_slots_per_system_frame s) as (q1 & q2 & Ha & Hb & Ra & Rb).
  { exists ((count_val s + k1) / nof_slots_per_system_frame s), ((count_val s + k2) / nof_slots_per_system_frame s).
    rewrite Hc1, Hc2. pose proof (system_frame_pos s Hs) as [? _]. split_and!; try (rewrite Z.mod_eq by lia; lia); apply Z.mod_pos_bound; lia. }
  clear Hc1 Hc2 Hca Hcb. assert (q1 - q2 = -1 \/ q1 - q2 = 0 \/ q1 - q2 = 1) as Hq by (slot_cases s; rewrite Hsf in *; mlia).
  rewrite andb_true_r.
  split_and!.
  - destruct (k1 =? k2) eqn:E; breflect; [apply Z.eqb_eq|apply Z.eqb_neq]; slot_cases s; rewrite Hsf in *; mlia.
  - f_equal. destruct (k1 <? k2) eqn:E; breflect; destruct (0 <? _) eqn:E2; breflect; [apply Z.ltb_lt|apply Z.ltb_lt|apply Z.ltb_ge|apply Z.ltb_ge];
      slot_cases s; rewrite Hsf in *; mlia.
  - destruct (_ <=? _) eqn:E; breflect; [|destruct (_ <? _) eqn:E2; breflect]; slot_cases s; rewrite Hsf in *; mlia.
Qed.

Lemma slot_gtb_compare s k1 k2 : slot_ok s -> - (nof_slots_per_system_frame s / 2) < k1 - k2 < nof_slots_per_system_frame s / 2 ->
  slot_gtb (slot_add_int s k1) (slot_add_int s k2) = Some (k2 <? k1).
Proof.
  intros Hs Hk. destruct (slot_compare s k1 k2 Hs Hk) as (He & Hl & _). unfold slot_gtb, slot_geb. rewrite He, Hl.
  destruct (k1 =? k2) eqn:E, (k1 <? k2) eqn:E2, (k2 <? k1) eqn:E3; breflect; (done || lia).
Qed.

(** Arithmetic of slots across the wrap-around of the system frame number: two slots reached from a common slot by
    jumps that differ by less than half of the 1024 frames compare as their jumps do, with all five operators, their
    difference is the difference of the jumps, and a jump back returns to the start. *)
Theorem slot_point_arithmetic s k1 k2 : slot_ok s ->
  - (nof_slots_per_system_frame s / 2) < k1 - k2 < nof_slots_per_system_frame s / 2 ->
  let a := slot_add_int s k1 in let b := slot_add_int s k2 in
  slot_ok a /\ slot_eqb a b = (k1 =? k2) /\ slot_ltb a b = Some (k1 <? k2) /\ slot_leb a b = Some (k1 <=? k2)
  /\ slot_geb a b = Some (k2 <=? k1) /\ slot_gtb a b = Some (k2 <? k1) /\ slot_diff a b = k1 - k2 /\ slot_sub a k1 = s.
Proof.
  intros Hs Hk a b. destruct (slot_compare s k1 k2 Hs Hk) as (He & Hl & Hd). fold a b in He, Hl, Hd. pose proof (slot_gtb_compare s k1 k2 Hs Hk) as Hg.
  fold a b in Hg. unfold slot_leb, slot_geb. rewrite He, Hl, Hd, Hg. split_and!; [by apply slot_add_int_ok|done|done| | |done|done|].
  - destruct (k1 =? k2) eqn:E, (k1 <? k2) eqn:E2, (k1 <=? k2) eqn:E3; breflect; (done || lia).
  - destruct (k1 <? k2) eqn:E2, (k2 <=? k1) eqn:E3; breflect; (done || lia).
  - unfold slot_sub, a. rewrite slot_add_add, Z.add_opp_diag_r by done. destruct (slot_add_int_ok s 0 Hs) as (_ & Hn & Hc).
    rewrite Z.add_0_r, Z.mod_small in Hc by apply Hs. destruct (slot_add_int s 0), s. cbn in *. congruence.
Qed.
Lemma slot_point_arithmetic_witness :
  let s := SlotPoint 1 20470 in slot_ltb s (slot_add_int s 30) = Some true /\ slot_diff (slot_add_int s 30) s = 30.
Proof.
  cbv zeta. assert (slot_ok (SlotPoint 1 20470)) as Hs by (split; vm_compute; split; congruence).
  destruct (slot_point_arithmetic (SlotPoint 1 20470) 30 0 Hs) as (_ & _ & _ & _ & _ & _ & H & _); [split; vm_compute; congruence|].
  split; [vm_compute; reflexivity|exact H].
Defined.

Lemma slot_of_count_ok m c : 0 <= m < NOF_NUMEROLOGIES -> 0 <= c < 10240 * 2 ^ m -> slot_of_count m c = Some (SlotPoint m c) /\ slot_ok (SlotPoint m c).
Proof.
  intros Hm Hc. assert (nof_slots_per_system_frame (SlotPoint m c) = 10240 * 2 ^ m) as Hn.
  { destruct (nof_slots_cases (SlotPoint m c) Hm) as (n & Hn & _ & _ & -> & _). cbn in Hn. by rewrite Hn. }
  unfold slot_of_count. rewrite Hn, (proj2 (Z.ltb_lt m _)), (proj2 (Z.ltb_lt c _)) by lia. split; [done|]. split; [done|]. cbn. lia.
Qed.

Lemma slot_ok_count s : slot_ok s -> 0 <= count_val s < 10240 * 2 ^ numerology_val s.
Proof. intros [Hn Hc]. destruct (nof_slots_cases s Hn) as (n & <- & _ & _ & Hf & _). by rewrite Hf in Hc. Qed.
Lemma sfn_div s : 0 <= numerology_val s < NOF_NUMEROLOGIES -> sfn s = count_val s / (10 * 2 ^ numerology_val s).
Proof. intros Hn. unfold sfn. destruct (nof_slots_cases s Hn) as (n & <- & _ & Hf & _). by rewrite Hf. Qed.

(** Conversion to a coarser and to a finer numerology. *)
Lemma slot_coarser n c d : 0 <= n - d -> n < NOF_NUMEROLOGIES -> 0 < d -> 0 <= c < 10240 * 2 ^ n ->
  set_slot_numerology (SlotPoint n c) (n - d) = Some (SlotPoint (n - d) (c / 2 ^ d)) /\ 0 <= c / 2 ^ d < 10240 * 2 ^ (n - d).
Proof.
  intros Hd Hn Hd0 Hc. assert (0 <= c / 2 ^ d < 10240 * 2 ^ (n - d)) as Hb.
  { split; [apply Z.div_pos; lia|]. apply Z.div_lt_upper_bound; [lia|]. replace (2 ^ d * (10240 * 2 ^ (n - d))) with (10240 * (2 ^ (n - d) * 2 ^ d)) by ring.
    rewrite <- Z.pow_add_r by lia. replace (n - d + d) with n by lia. lia. }
  split; [|done]. unfold set_slot_numerology. cbn [numerology_val count_val]. rewrite (proj2 (Z.ltb_lt _ _)) by lia.
  replace (n - (n - d)) with d by lia. rewrite Z.shiftr_div_pow2 by lia. apply slot_of_count_ok; [unfold NOF_NUMEROLOGIES in *; lia|done].
Qed.
Lemma slot_finer n c d : 0 <= n -> n + d < NOF_NUMEROLOGIES -> 0 < d -> 0 <= c < 10240 * 2 ^ n ->
  set_slot_numerology (SlotPoint n c) (n + d) = Some (SlotPoint (n + d) (c * 2 ^ d)) /\ 0 <= c * 2 ^ d < 10240 * 2 ^ (n + d).
Proof.
  intros Hn Hd Hd0 Hc. assert (0 <= c * 2 ^ d < 10240 * 2 ^ (n + d)) as Hb by (rewrite Z.pow_add_r by lia; nia).
  split; [|done]. unfold set_slot_numerology. cbn [numerology_val count_val].
  rewrite (proj2 (Z.ltb_ge _ _)), (proj2 (Z.ltb_lt _ _)) by lia. replace (n + d - n) with d by lia. rewrite Z.shiftl_mul_pow2 by lia.
  assert (2 ^ (n + d) <= 2 ^ 4) as Hp by (apply Z.pow_le_mono_r; unfold NOF_NUMEROLOGIES in *; lia).
  rewrite u32_id by (unfold is_u32; lia). apply slot_of_count_ok; [unfold NOF_NUMEROLOGIES in *; lia|done].
Qed.

(** The conversion between numerologies succeeds on every slot and keeps the system frame number; going to a finer
    numerology and back is the identity, and going to a coarser one and back rounds down to the start of its slot. *)
Theorem slot_numerology_conversion s m : slot_ok s -> 0 <= m < NOF_NUMEROLOGIES ->
  exists t, set_slot_numerology s m = Some t /\ slot_ok t /\ numerology_val t = m /\ sfn t = sfn s
    /\ exists s', set_slot_numerology t (numerology_val s) = Some s' /\ slot_ok s'
         /\ count_val s' <= count_val s < count_val s' + 2 ^ Z.max 0 (numerology_val s - m).
Proof.
  intros Hs Hm. pose proof (slot_ok_count s Hs) as Hc. pose proof Hs as [Hn _]. destruct s as [n c]. cbn [numerology_val count_val] in *.
  destruct (Z.lt_trichotomy m n) as [Hlt|[->|Hgt]].
  - destruct (slot_coarser n c (n - m)) as [H1 H2]; [lia|lia|lia|done|]. replace (n - (n - m)) with m in * by lia.
    destruct (slot_finer m (c / 2 ^ (n - m)) (n - m)) as [H3 H4]; [lia|lia|lia|done|]. replace (m + (n - m)) with n in * by lia.
    eexists. split; [exact H1|]. split; [by apply slot_of_count_ok|]. split; [done|]. split.
    { rewrite !sfn_div by done. cbn [numerology_val count_val]. rewrite Z.div_div by lia. f_equal.
      replace (2 ^ (n - m) * (10 * 2 ^ m)) with (10 * (2 ^ (n - m) * 2 ^ m)) by ring. rewrite <- Z.pow_add_r by lia. do 2 f_equal. lia. }
    eexists. split; [exact H3|]. split; [by apply slot_of_count_ok|]. cbn [count_val]. rewrite Z.max_r by lia.
    pose proof (Z.div_mod c (2 ^ (n - m)) ltac:(lia)). pose proof (Z.mod_pos_bound c (2 ^ (n - m)) ltac:(lia)). lia.
  - assert (set_slot_numerology (SlotPoint n c) n = Some (SlotPoint n c)) as He by (unfold set_slot_numerology; cbn; by rewrite Z.ltb_irrefl).
    exists (SlotPoint n c). split_and!; try done. exists (SlotPoint n c). split_and!; try done. cbn [count_val]. rewrite Z.max_l by lia. lia.
  - destruct (slot_finer n c (m - n)) as [H1 H2]; [lia|lia|lia|done|]. replace (n + (m - n)) with m in * by lia.
    destruct (slot_coarser m (c * 2 ^ (m - n)) (m - n)) as [H3 H4]; [lia|lia|lia|done|]. replace (m - (m - n)) with n in * by lia.
    rewrite Z.div_mul in H3 by lia. eexists. split; [exact H1|]. split; [by apply slot_of_count_ok|]. split; [done|]. split.
    { rewrite !sfn_div by done. cbn [numerology_val count_val]. replace (10 * 2 ^ m) with ((10 * 2 ^ n) * 2 ^ (m - n)).
      - apply Z.div_mul_cancel_r; lia.
      - rewrite <- Z.mul_assoc, <- Z.pow_add_r by lia. do 2 f_equal. lia. }
    eexists. split; [exact H3|]. split; [done|]. cbn [count_val]. rewrite Z.max_l by lia. lia.
Qed.
Lemma slot_numerology_conversion_witness :
  exists t, set_slot_numerology (SlotPoint 2 12345) 0 = Some t /\ sfn t = sfn (SlotPoint 2 12345).
Proof.
  destruct (slot_numerology_conversion (SlotPoint 2 12345) 0) as (t & H1 & _ & _ & H2 & _).
  - split; vm_compute; split; congruence.
  - split; vm_compute; congruence.
  - exists t. split; [exact H1|exact H2].
Defined.
