(* ===== verification/Harq.v ===== *)
(** * HARQ processes of the scheduler

    lib/scheduler/ue_scheduling/harq_process.h and .cpp: the transport blocks of a
    HARQ process, the downlink and uplink processes, and the HARQ entity of a UE on a
    cell.  The base class is a template on the direction; here the record is
    parametric in the allocation parameters that the derived classes add, and a
    downlink process has two transport blocks and an uplink process one.  Timeout
    notifications are returned as a list of directions ([true] is downlink). *)
From S2P Require Import Prelude SlotPoint.

(** ** Transport blocks *)
Inductive tb_state := tb_empty | tb_pending_retx | tb_waiting_ack.
#[export] Instance tb_state_eq_dec : EqDecision tb_state.
Proof. solve_decision. Defined.

Record transport_block := TransportBlock {
  tb_st : tb_state; tb_ndi : bool; tb_nof_retxs : Z; tb_max_nof_harq_retxs : Z; tb_dai : Z;
}.
Definition tb_default : transport_block := TransportBlock tb_empty false 0 0 0.
Definition tb_is_empty (tb : transport_block) : bool := bool_decide (tb_st tb = tb_empty).
Definition tb_set_state (tb : transport_block) (st : tb_state) : transport_block :=
  TransportBlock st (tb_ndi tb) (tb_nof_retxs tb) (tb_max_nof_harq_retxs tb) (tb_dai tb).

Definition DEFAULT_ACK_TIMEOUT_SLOTS : Z := 256.
Definition SHORT_ACK_TIMEOUT_DTX : Z := 10.

(** ** [detail::harq_process] *)
Record harq_process (P : Type) := HarqProcess {
  h_id : Z;
  h_max_ack_wait : Z;
  h_ack_wait : Z;
  h_slot_tx : slot_point;
  h_slot_ack : slot_point;
  h_tbs : list transport_block;
  h_params : P;
}.
Arguments HarqProcess {P}.
Arguments h_id {P}. Arguments h_max_ack_wait {P}. Arguments h_ack_wait {P}. Arguments h_slot_tx {P}.
Arguments h_slot_ack {P}. Arguments h_tbs {P}. Arguments h_params {P}.

Section HarqProcess.
Context {P : Type}.
Implicit Types h : harq_process P.

Definition with_tbs h (tbs : list transport_block) : harq_process P :=
  HarqProcess (h_id h) (h_max_ack_wait h) (h_ack_wait h) (h_slot_tx h) (h_slot_ack h) tbs (h_params h).
Definition with_ack_wait h (w : Z) : harq_process P :=
  HarqProcess (h_id h) (h_max_ack_wait h) w (h_slot_tx h) (h_slot_ack h) (h_tbs h) (h_params h).
Definition with_params h (p : P) : harq_process P :=
  HarqProcess (h_id h) (h_max_ack_wait h) (h_ack_wait h) (h_slot_tx h) (h_slot_ack h) (h_tbs h) p.

Definition harq_process_new (nof_tbs : nat) (params : P) (id max_ack_wait : Z) : harq_process P :=
  HarqProcess id max_ack_wait max_ack_wait slot_point_invalid slot_point_invalid (replicate nof_tbs tb_default) params.

(** [empty(tb_idx)], [has_pending_retx(tb_idx)] and [tb(tb_idx)] *)
Definition harq_tb_empty h (i : nat) : option bool := let* tb := h_tbs h !! i in Some (tb_is_empty tb).
Definition harq_tb_pending h (i : nat) : option bool := let* tb := h_tbs h !! i in Some (bool_decide (tb_st tb = tb_pending_retx)).
Definition harq_tb h (i : nat) : option transport_block := let* tb := h_tbs h !! i in if tb_is_empty tb then None else Some tb.

(** [slot_indication]: the loop over the transport blocks; it returns the ACK wait, the
    transport blocks and the number of notifications. *)
Fixpoint slot_indication_tbs (max_wait wait : Z) (slot_ack slot_tx : slot_point) (tbs : list transport_block)
    : option (Z * list transport_block * nat) :=
  match tbs with
  | [] => Some (wait, [], O)
  | tb :: rest =>
      if tb_is_empty tb then
        let* (w, l, n) := slot_indication_tbs max_wait wait slot_ack slot_tx rest in Some (w, tb :: l, n)
      else
        let* wait_more := slot_gtb (slot_add slot_ack wait) slot_tx in
        if wait_more : bool then Some (wait, tb :: rest, O)
        else
          let waiting := bool_decide (tb_st tb = tb_waiting_ack) in
          let tb := if waiting then tb_set_state tb tb_pending_retx else tb in
          let tb := if tb_max_nof_harq_retxs tb <? u32 (tb_nof_retxs tb + 1) then tb_set_state tb tb_empty else tb in
          let* (w, l, n) := slot_indication_tbs max_wait max_wait slot_ack slot_tx rest in
          Some (w, tb :: l, if waiting then S n else n)
  end.
Definition harq_slot_indication (is_dl : bool) h (slot_tx : slot_point) : option (harq_process P * list bool) :=
  let* (w, l, n) := slot_indication_tbs (h_max_ack_wait h) (h_ack_wait h) (h_slot_ack h) slot_tx (h_tbs h) in
  Some (with_tbs (with_ack_wait h w) l, replicate n is_dl).

Definition ack_info_common h (i : nat) (ack : bool) : option (bool * harq_process P) :=
  let* tb := h_tbs h !! i in
  if tb_is_empty tb then Some (false, h)
  else
    let st := if ack then tb_empty
              else if tb_nof_retxs tb <? tb_max_nof_harq_retxs tb then tb_pending_retx else tb_empty in
    Some (true, with_tbs h (<[i := tb_set_state tb st]> (h_tbs h))).

Definition reset_tb (tb : transport_block) : transport_block :=
  TransportBlock tb_empty (tb_ndi tb) 0 (tb_max_nof_harq_retxs tb) (tb_dai tb).
Definition harq_reset h : harq_process P := with_tbs h (map reset_tb (h_tbs h)).

Definition tx_common h (slot_tx slot_ack : slot_point) : harq_process P :=
  HarqProcess (h_id h) (h_max_ack_wait h) (h_max_ack_wait h) slot_tx slot_ack (h_tbs h) (h_params h).
Definition new_tx_tb_common h (i : nat) (max_nof_harq_retxs dai : Z) : option (harq_process P) :=
  let* tb := h_tbs h !! i in
  if negb (tb_is_empty tb) then None
  else Some (with_tbs h (<[i := TransportBlock tb_waiting_ack (negb (tb_ndi tb)) 0 max_nof_harq_retxs dai]> (h_tbs h))).
Definition new_retx_tb_common h (i : nat) (dai : Z) : option (harq_process P) :=
  let* tb := h_tbs h !! i in
  if negb (bool_decide (tb_st tb = tb_pending_retx)) then None
  else Some (with_tbs h (<[i := TransportBlock tb_waiting_ack (tb_ndi tb) (u32 (tb_nof_retxs tb + 1)) (tb_max_nof_harq_retxs tb) dai]> (h_tbs h))).
End HarqProcess.

(** ** Allocation parameters

    DCI formats, RNTI types and MCS tables are their enumeration values. *)
Inductive vrb_alloc := vrb_type1 (start stop : Z) | vrb_type0 (rbgs : list bool).
Record tb_params := TbParams { tp_mcs_table : Z; tp_mcs : Z; tp_tbs_bytes : Z }.
Definition tb_params_default : tb_params := TbParams 0 0 0.
Record dl_alloc_params := DlAlloc { da_dci_cfg_type : Z; da_rbs : vrb_alloc; da_nof_symbols : Z; da_tb : list (option tb_params) }.
Definition dl_alloc_default : dl_alloc_params := DlAlloc 0 (vrb_type1 0 0) 0 [None; None].
Record ul_alloc_params := UlAlloc { ua_dci_cfg_type : Z; ua_rbs : vrb_alloc; ua_mcs_table : Z; ua_mcs : Z; ua_tbs_bytes : Z; ua_nof_symbols : Z }.
Definition ul_alloc_default : ul_alloc_params := UlAlloc 0 (vrb_type1 0 0) 0 0 0 0.
(** The fields of [pdsch_information] and [pusch_information] that are stored. *)
Record pdsch_information := PdschInfo { pd_codewords : list tb_params; pd_rbs : vrb_alloc; pd_nof_symbols : Z }.
Record pusch_information := PuschInfo { pu_mcs_table : Z; pu_mcs_index : Z; pu_tb_size_bytes : Z; pu_rbs : vrb_alloc }.

(** ** Downlink processes *)
Definition dl_harq_process : Type := harq_process dl_alloc_params.
Inductive harq_ack_status := harq_nack | harq_ack | harq_dtx.
#[export] Instance harq_ack_status_eq_dec : EqDecision harq_ack_status.
Proof. solve_decision. Defined.
Inductive tb_tx_request := req_newtx | req_retx | req_disabled.

Definition dl_harq_empty (h : dl_harq_process) : option bool :=
  let* a := harq_tb_empty h 0 in if a : bool then harq_tb_empty h 1 else Some false.
Definition dl_harq_pending (h : dl_harq_process) : option bool :=
  let* a := harq_tb_pending h 0 in if a : bool then Some true else harq_tb_pending h 1.

Definition dl_set_tb_params (h : dl_harq_process) (i : nat) (p : option tb_params) : dl_harq_process :=
  let a := h_params h in with_params h (DlAlloc (da_dci_cfg_type a) (da_rbs a) (da_nof_symbols a) (<[i := p]> (da_tb a))).

Definition dl_new_tx (h : dl_harq_process) (pdsch_slot : slot_point) (k1 max_harq_nof_retxs dai : Z) : option dl_harq_process :=
  let h := tx_common h pdsch_slot (slot_add pdsch_slot k1) in
  let* h := new_tx_tb_common h 0 max_harq_nof_retxs dai in
  Some (with_params h (DlAlloc 0 (vrb_type1 0 0) 0 [Some tb_params_default; None])).
Definition dl_new_retx (h : dl_harq_process) (pdsch_slot : slot_point) (k1 dai : Z) : option dl_harq_process :=
  new_retx_tb_common (tx_common h pdsch_slot (slot_add pdsch_slot k1)) 0 dai.

Fixpoint tx_2_tb_loop (h : dl_harq_process) (i : nat) (reqs : list tb_tx_request) (max_harq_nof_retxs dai : Z) : option dl_harq_process :=
  match reqs with
  | [] => Some h
  | r :: reqs =>
      let* h := match r with
                | req_newtx => let* h := new_tx_tb_common h i max_harq_nof_retxs dai in Some (dl_set_tb_params h i (Some tb_params_default))
                | req_retx => new_retx_tb_common h i dai
                | req_disabled => Some (dl_set_tb_params h i None)
                end in
      tx_2_tb_loop h (S i) reqs max_harq_nof_retxs dai
  end.
Definition dl_tx_2_tb (h : dl_harq_process) (pdsch_slot : slot_point) (k1 : Z) (reqs : list tb_tx_request) (max_harq_nof_retxs dai : Z)
    : option dl_harq_process :=
  if negb (length reqs =? 2)%nat then None
  else if negb (existsb (fun r => match r with req_disabled => false | _ => true end) reqs) then None
  else tx_2_tb_loop (tx_common h pdsch_slot (slot_add pdsch_slot k1)) 0 reqs max_harq_nof_retxs dai.

(** [ack_info]; the message about a discarded transport block reads its size. *)
Definition dl_ack_info_tb (h : dl_harq_process) (i : nat) (ack : harq_ack_status) : option (bool * dl_harq_process) :=
  if decide (ack = harq_dtx) then
    if decide (i = 0)%nat then
      let* e := harq_tb_empty h i in
      if e : bool then Some (true, h)
      else
        let* tb := harq_tb h i in
        Some (true, if decide (tb_st tb = tb_waiting_ack) then with_ack_wait h SHORT_ACK_TIMEOUT_DTX else h)
    else Some (true, h)
  else
    let* e := harq_tb_empty h i in
    if e : bool then Some (false, h)
    else
      let h := with_ack_wait h (h_max_ack_wait h) in
      let* (_, h) := ack_info_common h i (bool_decide (ack = harq_ack)) in
      let* e := harq_tb_empty h i in
      if bool_decide (ack = harq_nack) && e then
        match da_tb (h_params h) !! i with Some (Some _) => Some (true, h) | _ => None end
      else Some (true, h).

(** [save_alloc_params]: the loop over the codewords. *)
Fixpoint save_codewords (h : dl_harq_process) (i : nat) (dci : Z) (cws : list tb_params) : option dl_harq_process :=
  match cws with
  | [] => Some h
  | cw :: cws =>
      let* tb := harq_tb h i in
      if negb (tb_nof_retxs tb =? 0) && negb (dci =? da_dci_cfg_type (h_params h)) then None
      else
        match da_tb (h_params h) !! i with
        | Some (Some p) =>
            if negb (tb_nof_retxs tb =? 0) && negb (tp_tbs_bytes p =? tp_tbs_bytes cw) then None
            else save_codewords (dl_set_tb_params h i (Some cw)) (S i) dci cws
        | _ => None
        end
  end.
Definition dl_save_alloc_params (h : dl_harq_process) (dci : Z) (pdsch : pdsch_information) : option dl_harq_process :=
  let* e := harq_tb_empty h 0 in
  let* h := save_codewords h (if e : bool then 1 else 0)%nat dci (pd_codewords pdsch) in
  Some (with_params h (DlAlloc dci (pd_rbs pdsch) (pd_nof_symbols pdsch) (da_tb (h_params h)))).

(** ** Uplink processes *)
Definition ul_harq_process : Type := harq_process ul_alloc_params.
Definition i32 (x : Z) : Z := let y := u32 x in if y <? 2 ^ 31 then y else y - 2 ^ 32.

Definition ul_new_tx (h : ul_harq_process) (pusch_slot : slot_point) (max_harq_retxs : Z) : option ul_harq_process :=
  new_tx_tb_common (tx_common h pusch_slot pusch_slot) 0 max_harq_retxs 0.
Definition ul_new_retx (h : ul_harq_process) (pusch_slot : slot_point) : option ul_harq_process :=
  new_retx_tb_common (tx_common h pusch_slot pusch_slot) 0 0.
Definition ul_crc_info_tb (h : ul_harq_process) (ack : bool) : option (Z * ul_harq_process) :=
  let* (ok, h) := ack_info_common h 0 ack in
  Some (if ok : bool then if ack then i32 (ua_tbs_bytes (h_params h)) else 0 else -1, h).
Definition ul_save_alloc_params (h : ul_harq_process) (dci : Z) (pusch : pusch_information) : option ul_harq_process :=
  let* tb := harq_tb h 0 in
  let a := h_params h in
  if negb (tb_nof_retxs tb =? 0) && negb (dci =? ua_dci_cfg_type a) then None
  else if negb (tb_nof_retxs tb =? 0) && negb (ua_tbs_bytes a =? pu_tb_size_bytes pusch) then None
  else Some (with_params h (UlAlloc dci (pu_rbs pusch) (pu_mcs_table pusch) (pu_mcs_index pusch) (pu_tb_size_bytes pusch) (ua_nof_symbols a))).

(** ** [harq_entity] *)
Record harq_entity := HarqEntity { he_slot_tx : slot_point; he_dl : list dl_harq_process; he_ul : list ul_harq_process }.

Definition harq_entity_new (nof_dl_harq_procs nof_ul_harq_procs : nat) (max_ack_wait : Z) : harq_entity :=
  HarqEntity slot_point_invalid
    (map (fun id => harq_process_new 2 dl_alloc_default (Z.of_nat id) max_ack_wait) (seq 0 nof_dl_harq_procs))
    (map (fun id => harq_process_new 1 ul_alloc_default (Z.of_nat id) max_ack_wait) (seq 0 nof_ul_harq_procs)).

Fixpoint slot_indication_all {P} (is_dl : bool) (slot_tx : slot_point) (hs : list (harq_process P)) : option (list (harq_process P) * list bool) :=
  match hs with
  | [] => Some ([], [])
  | h :: hs =>
      let* (h, evs) := harq_slot_indication is_dl h slot_tx in
      let* (hs, evs') := slot_indication_all is_dl slot_tx hs in
      Some (h :: hs, evs ++ evs')
  end.
Definition entity_slot_indication (e : harq_entity) (slot_tx : slot_point) : option (harq_entity * list bool) :=
  let* (dl, evs) := slot_indication_all true slot_tx (he_dl e) in
  let* (ul, evs') := slot_indication_all false slot_tx (he_ul e) in
  Some (HarqEntity slot_tx dl ul, evs ++ evs').

(** [dl_ack_info]: the loop returns the index of the process it found and the processes. *)
Fixpoint dl_ack_loop (uci_slot : slot_point) (ack : harq_ack_status) (dai : Z) (i : nat) (candidate : option nat) (hs : list dl_harq_process)
    : option (option nat * list dl_harq_process) :=
  match hs with
  | [] => Some (candidate, [])
  | h :: hs =>
      let next candidate := let* (c, hs) := dl_ack_loop uci_slot ack dai (S i) candidate hs in Some (c, h :: hs) in
      if slot_eqb (h_slot_ack h) uci_slot then
        let* e := dl_harq_empty h in
        if e : bool then next (Some i)
        else
          let* tb := harq_tb h 0 in
          if tb_dai tb =? dai then
            let* (_, h) := dl_ack_info_tb h 0 ack in Some (Some i, h :: hs)
          else next (Some i)
      else next candidate
  end.
Definition entity_dl_ack_info (e : harq_entity) (uci_slot : slot_point) (ack : harq_ack_status) (dai : Z) : option (option nat * harq_entity) :=
  if negb (dai <? 4) then None
  else
    let* (c, dl) := dl_ack_loop uci_slot ack dai 0 None (he_dl e) in
    Some (c, HarqEntity (he_slot_tx e) dl (he_ul e)).

Definition entity_ul_crc_info (e : harq_entity) (id : nat) (ack : bool) (pusch_slot : slot_point) : option (Z * harq_entity) :=
  let* h := he_ul e !! id in
  let* em := harq_tb_empty h 0 in
  if em || negb (slot_eqb (h_slot_ack h) pusch_slot) then Some (-1, e)
  else
    let* (r, h) := ul_crc_info_tb h ack in
    Some (r, HarqEntity (he_slot_tx e) (he_dl e) (<[id := h]> (he_ul e))).

(** [find_empty_dl_harq], [find_pending_dl_retx] and the same for the uplink. *)
Definition find_empty_dl_harq (e : harq_entity) : option nat := fst <$> list_find (fun h => dl_harq_empty h = Some true) (he_dl e).
Definition find_pending_dl_retx (e : harq_entity) : option nat := fst <$> list_find (fun h => dl_harq_pending h = Some true) (he_dl e).
Definition find_empty_ul_harq (e : harq_entity) : option nat := fst <$> list_find (fun h => harq_tb_empty h 0 = Some true) (he_ul e).
Definition find_pending_ul_retx (e : harq_entity) : option nat := fst <$> list_find (fun h => harq_tb_pending h 0 = Some true) (he_ul e).
