(* ===== verification/HarqThms.v ===== *)
(** * HARQ processes: properties

    Every run of the scheduler on a HARQ entity is safe and bounds the number of
    retransmissions, the new data indicator tells new transmissions from
    retransmissions, an ACK that goes missing is detected on time, and HARQ-ACKs reach
    the process they are for. *)
From S2P Require Import Prelude SlotPoint Harq.

(** ** Invariant of a process *)
Record tb_ok (tb : transport_block) : Prop := {
  to_nof : 0 <= tb_nof_retxs tb;
  to_max : 0 <= tb_max_nof_harq_retxs tb < 2 ^ 32 - 1;
  to_waiting : tb_st tb <> tb_empty -> tb_nof_retxs tb <= tb_max_nof_harq_retxs tb;
  to_pending : tb_st tb = tb_pending_retx -> tb_nof_retxs tb < tb_max_nof_harq_retxs tb;
}.
(** What only transmissions change. *)
Definition tb_sig (tb : transport_block) : bool * Z * Z := (tb_ndi tb, tb_nof_retxs tb, tb_max_nof_harq_retxs tb).
Definition ack_timeout_ok (w : Z) : Prop := 0 <= w < 4096.

Section Process.
Context {P : Type}.
Implicit Types h : harq_process P.

Record harq_inv (num : Z) (nof_tbs : nat) h : Prop := {
  hi_len : length (h_tbs h) = nof_tbs;
  hi_tbs : Forall tb_ok (h_tbs h);
  hi_max : ack_timeout_ok (h_max_ack_wait h);
  hi_wait : h_ack_wait h = h_max_ack_wait h \/ h_ack_wait h = SHORT_ACK_TIMEOUT_DTX;
  hi_slot : forall i tb, h_tbs h !! i = Some tb -> tb_st tb <> tb_empty -> slot_ok (h_slot_ack h) /\ numerology_val (h_slot_ack h) = num;
}.

Lemma tb_ok_default : tb_ok tb_default.
Proof. by split; cbn; try lia. Qed.
Lemma tb_is_empty_spec tb : tb_is_empty tb = true <-> tb_st tb = tb_empty.
Proof. unfold tb_is_empty. by rewrite bool_decide_eq_true. Qed.
Lemma tb_ok_empty tb : tb_ok tb -> tb_ok (tb_set_state tb tb_empty).
Proof. intros [? ? ? ?]. by split; cbn. Qed.

Lemma harq_inv_new num n (p : P) id w : ack_timeout_ok w -> harq_inv num n (harq_process_new n p id w).
Proof.
  intros Hw. split; cbn; [by rewrite length_replicate|by apply Forall_replicate, tb_ok_default|done|by left|].
  intros i tb Hi. apply lookup_replicate in Hi as [-> _]. done.
Qed.
Lemma wait_ok num n h : harq_inv num n h -> ack_timeout_ok (h_ack_wait h).
Proof. intros [_ _ Hm [Hw|Hw] _]; rewrite Hw; [done|]. unfold ack_timeout_ok, SHORT_ACK_TIMEOUT_DTX. lia. Qed.

(** What a slot does to one transport block. *)
Definition tb_expired (tb : transport_block) : transport_block :=
  match tb_st tb with
  | tb_waiting_ack => tb_set_state tb (if tb_nof_retxs tb <? tb_max_nof_harq_retxs tb then tb_pending_retx else tb_empty)
  | _ => tb
  end.
Definition tb_expires (tb : transport_block) : bool := bool_decide (tb_st tb = tb_waiting_ack).
Lemma tb_expired_ok tb : tb_ok tb -> tb_ok (tb_expired tb).
Proof.
  intros [? ? Hw Hp]. unfold tb_expired. destruct (tb_st tb) eqn:E; [by split; rewrite ?E|by split; rewrite ?E|].
  destruct (_ <? _) eqn:E2; breflect; split; cbn; try done; lia.
Qed.
Lemma slot_indication_tb tb : tb_ok tb -> tb_st tb <> tb_empty ->
  (let t := if bool_decide (tb_st tb = tb_waiting_ack) then tb_set_state tb tb_pending_retx else tb in
   if tb_max_nof_harq_retxs t <? u32 (tb_nof_retxs t + 1) then tb_set_state t tb_empty else t) = tb_expired tb.
Proof.
  intros [Hn Hm Hw Hp] Hne. unfold tb_expired. destruct (tb_st tb) eqn:E; [done| |].
  - rewrite bool_decide_false by done. cbv zeta. specialize (Hp eq_refl). rewrite u32_id by (unfold is_u32; lia).
    by rewrite (proj2 (Z.ltb_ge _ _)) by lia.
  - rewrite bool_decide_true by done. cbv zeta. cbn [tb_max_nof_harq_retxs tb_nof_retxs tb_set_state]. specialize (Hw ltac:(done)).
    rewrite u32_id by (unfold is_u32; lia). destruct (_ <? _) eqn:E1, (tb_nof_retxs tb <? _) eqn:E2; breflect; (done || lia).
Qed.

Lemma slot_gtb_total a b : numerology_val a = numerology_val b -> exists r, slot_gtb a b = Some r.
Proof.
  intros Hn. unfold slot_gtb, slot_geb, slot_ltb. rewrite Hn, Z.eqb_refl. cbn [negb]. destruct (slot_eqb a b); by eexists.
Qed.

Lemma slot_indication_tbs_ok max_wait wait sa st tbs : Forall tb_ok tbs ->
  (forall tb, tb ∈ tbs -> tb_st tb <> tb_empty -> numerology_val sa = numerology_val st) ->
  exists w l n, slot_indication_tbs max_wait wait sa st tbs = Some (w, l, n) /\ Forall tb_ok l
    /\ Forall2 (fun t t' => t' = t \/ t' = tb_expired t) tbs l /\ (w = wait \/ w = max_wait).
Proof.
  intros Hok. revert wait. induction Hok as [|tb tbs Htb Hok IH]; intros wait Hn; cbn [slot_indication_tbs].
  { exists wait, [], O. split_and!; [done..|by left]. }
  assert (forall wait, exists w l n, slot_indication_tbs max_wait wait sa st tbs = Some (w, l, n) /\ Forall tb_ok l
    /\ Forall2 (fun t t' => t' = t \/ t' = tb_expired t) tbs l /\ (w = wait \/ w = max_wait)) as IH'.
  { intros wait'. apply IH. intros tb' Hin. apply Hn. by apply list_elem_of_further. }
  destruct (tb_is_empty tb) eqn:E.
  - destruct (IH' wait) as (w & l & n & -> & H1 & H2 & H3). exists w, (tb :: l), n. split_and!; [done|by constructor| |done]. constructor; [by left|done].
  - assert (tb_st tb <> tb_empty) as Hne by (intros H; apply tb_is_empty_spec in H; congruence).
    destruct (slot_gtb_total (slot_add sa wait) st) as [r ->]; [by apply (Hn tb); [left|]|]. destruct r.
    + exists wait, (tb :: tbs), O. split_and!; [done|by constructor| |by left]. constructor; [by left|].
      clear. induction tbs; constructor; [by left|done].
    + pose proof (slot_indication_tb tb Htb Hne) as Hexp. cbv zeta in Hexp. rewrite Hexp.
      destruct (IH' max_wait) as (w & l & n & -> & H1 & H2 & H3). eexists w, (_ :: l), _. split; [done|]. split_and!.
      * constructor; [by apply tb_expired_ok|done].
      * constructor; [by right|done].
      * right. by destruct H3.
Qed.

Lemma expired_nonempty t t' : t' = t \/ t' = tb_expired t -> tb_st t' <> tb_empty -> tb_st t <> tb_empty.
Proof. intros [->| ->] H; [done|]. unfold tb_expired in H. by destruct (tb_st t) eqn:E. Qed.

Lemma harq_slot_indication_ok num nof is_dl h st : harq_inv num nof h -> numerology_val st = num ->
  exists h' evs, harq_slot_indication is_dl h st = Some (h', evs) /\ harq_inv num nof h' /\ h_slot_ack h' = h_slot_ack h /\ h_params h' = h_params h
    /\ Forall2 (fun t t' => t' = t \/ t' = tb_expired t) (h_tbs h) (h_tbs h').
Proof.
  intros Hi Hst. pose proof Hi as [Hl Ht Hm Hw Hs]. unfold harq_slot_indication.
  destruct (slot_indication_tbs_ok (h_max_ack_wait h) (h_ack_wait h) (h_slot_ack h) st (h_tbs h) Ht) as (w & l & n & -> & H1 & H2 & H3).
  { intros tb [i Hi']%list_elem_of_lookup Hne. destruct (Hs i tb Hi' Hne). congruence. }
  eexists _, _. split; [done|]. split; [|done]. split; cbn.
  - rewrite <- Hl. symmetry. by eapply Forall2_length.
  - done.
  - done.
  - destruct H3 as [->| ->]; [done|by left].
  - intros i t' Hi' Hne. destruct (Forall2_lookup_r _ _ _ _ _ H2 Hi') as (t & Hit & Ht'). apply (Hs i t Hit). by eapply expired_nonempty.
Qed.

(** The operations on single transport blocks. *)
Lemma set_tb_inv num nof h i tb (wait : Z) : harq_inv num nof h -> tb_ok tb -> (wait = h_max_ack_wait h \/ wait = h_ack_wait h) ->
  (tb_st tb <> tb_empty -> exists tb0, h_tbs h !! i = Some tb0 /\ tb_st tb0 <> tb_empty) ->
  harq_inv num nof (with_tbs (with_ack_wait h wait) (<[i := tb]> (h_tbs h))).
Proof.
  intros [Hl Ht Hm Hw Hs] Htb Hwait Hst. split; cbn; [by rewrite length_insert|by apply Forall_insert|done|by destruct Hwait as [->| ->]; [left|]|].
  intros j t Hj Hne. apply list_lookup_insert_Some in Hj as [(-> & <- & _)|[_ Hj]]; [|by eapply Hs].
  destruct (Hst Hne) as (tb0 & H0 & Hne0). by eapply Hs.
Qed.
Lemma nacked_ok tb ack : tb_ok tb -> tb_st tb <> tb_empty ->
  tb_ok (tb_set_state tb (if ack : bool then tb_empty else if tb_nof_retxs tb <? tb_max_nof_harq_retxs tb then tb_pending_retx else tb_empty)).
Proof. intros [? ? Hw Hp] Hne. specialize (Hw Hne). destruct ack; [by split; cbn|]. destruct (_ <? _) eqn:E; breflect; by split; cbn. Qed.

Lemma ack_info_common_ok num nof h i ack : harq_inv num nof h -> (i < nof)%nat ->
  exists r h', ack_info_common h i ack = Some (r, h') /\ harq_inv num nof h' /\ h_slot_ack h' = h_slot_ack h /\ h_params h' = h_params h
    /\ map tb_sig (h_tbs h') = map tb_sig (h_tbs h) /\ forall j, (j <> i)%nat -> h_tbs h' !! j = h_tbs h !! j.
Proof.
  intros Hi Hlt. pose proof Hi as [Hl Ht _ _ _]. unfold ack_info_common. destruct (lookup_lt_is_Some_2 (h_tbs h) i) as [tb Htb]; [lia|]. rewrite Htb.
  destruct (tb_is_empty tb) eqn:E; [by eexists _, _|]. eexists _, _. split; [done|].
  assert (tb_st tb <> tb_empty) as Hne by (intros H; apply tb_is_empty_spec in H; congruence).
  assert (tb_ok tb) as Hok by (by eapply Forall_lookup_1). split_and!; [|done|done| |]; cycle 1.
  { cbn. apply list_eq. intros j. rewrite !list_lookup_fmap, list_lookup_insert. destruct (decide _) as [[-> _]|]; [by rewrite Htb|done]. }
  { intros j Hj. cbn. by apply list_lookup_insert_ne. }
  replace (with_tbs h) with (with_tbs (with_ack_wait h (h_ack_wait h))) by (by destruct h).
  apply set_tb_inv; [done|by apply nacked_ok|by right|]. intros _. by exists tb.
Qed.

Lemma tx_common_tb_inv num nof h slot slot_ack i tb : harq_inv num nof h -> tb_ok tb -> slot_ok slot_ack -> numerology_val slot_ack = num ->
  harq_inv num nof (with_tbs (tx_common h slot slot_ack) (<[i := tb]> (h_tbs h))).
Proof. intros [Hl Ht Hm Hw Hs] Htb Hsa Hn. split; cbn; [by rewrite length_insert|by apply Forall_insert|done|by left|done]. Qed.
End Process.

Lemma expired_sig t t' : t' = t \/ t' = tb_expired t -> tb_sig t' = tb_sig t.
Proof. intros [->| ->]; [done|]. unfold tb_expired. by destruct (tb_st t). Qed.
Lemma expired_sigs l l' : Forall2 (fun t t' => t' = t \/ t' = tb_expired t) l l' -> map tb_sig l' = map tb_sig l.
Proof. induction 1 as [|t t' l l' Ht _ IH]; cbn; [done|]. by rewrite (expired_sig t t'), IH. Qed.

(** ** Downlink processes with one transport block *)
Record dl_inv (num : Z) (h : dl_harq_process) : Prop := {
  di_harq : harq_inv num 2 h;
  di_tb1 : forall t, h_tbs h !! 1%nat = Some t -> tb_st t = tb_empty;
  di_params : forall t, h_tbs h !! 0%nat = Some t -> tb_st t <> tb_empty -> exists p q, da_tb (h_params h) = [Some p; q];
}.
Lemma dl_inv_new num id w : ack_timeout_ok w -> dl_inv num (harq_process_new 2 dl_alloc_default id w).
Proof. intros Hw. split; [by apply harq_inv_new| |]; cbn; intros t [= <-]; done. Qed.
Lemma dl_tb0 num h : dl_inv num h -> exists t0 t1, h_tbs h = [t0; t1] /\ tb_ok t0 /\ tb_st t1 = tb_empty.
Proof.
  intros [[Hl Ht _ _ _] H1 _]. destruct (h_tbs h) as [|t0 [|t1 [|]]]; try discriminate Hl. exists t0, t1. split; [done|].
  split; [by inversion Ht|by apply H1].
Qed.
Lemma dl_empty_spec num h t0 t1 : dl_inv num h -> h_tbs h = [t0; t1] -> dl_harq_empty h = Some (tb_is_empty t0).
Proof.
  intros [_ H1 _] He. unfold dl_harq_empty, harq_tb_empty. rewrite He in *. cbn. destruct (tb_is_empty t0); [|done].
  rewrite (proj2 (tb_is_empty_spec t1)); [done|]. by apply H1.
Qed.

Lemma dl_slot_indication_ok num h st : dl_inv num h -> numerology_val st = num ->
  exists h' evs, harq_slot_indication true h st = Some (h', evs) /\ dl_inv num h' /\ map tb_sig (h_tbs h') = map tb_sig (h_tbs h).
Proof.
  intros [Hi H1 Hp] Hst. destruct (harq_slot_indication_ok num 2 true h st Hi Hst) as (h' & evs & He & Hi' & _ & Hpar & Hf).
  exists h', evs. split; [done|]. split; [|by apply expired_sigs]. split; [done| |].
  - intros t' Ht'. destruct (Forall2_lookup_r _ _ _ _ _ Hf Ht') as (t & Ht & Hor). destruct (decide (tb_st t' = tb_empty)) as [|Hne]; [done|].
    destruct (expired_nonempty t t' Hor Hne). by apply H1.
  - intros t' Ht' Hne. destruct (Forall2_lookup_r _ _ _ _ _ Hf Ht') as (t & Ht & Hor). rewrite Hpar. apply (Hp t Ht). by eapply expired_nonempty.
Qed.

Lemma dl_ack_info_ok num h ack : dl_inv num h ->
  exists r h', dl_ack_info_tb h 0 ack = Some (r, h') /\ dl_inv num h' /\ h_slot_ack h' = h_slot_ack h /\ map tb_sig (h_tbs h') = map tb_sig (h_tbs h).
Proof.
  intros Hi. destruct (dl_tb0 num h Hi) as (t0 & t1 & Ht & Hok & Hemp). pose proof Hi as [Hh H1 Hp].
  assert (h_tbs h !! 0%nat = Some t0) as Hlk by (by rewrite Ht).
  assert (forall w, (w = h_max_ack_wait h \/ w = SHORT_ACK_TIMEOUT_DTX) -> dl_inv num (with_ack_wait h w)) as Hwait.
  { intros w Hw. destruct Hh. split; [split; cbn; try done|done|done]. }
  unfold dl_ack_info_tb. destruct (decide (ack = harq_dtx)).
  - rewrite decide_True by done. unfold harq_tb_empty, harq_tb. rewrite Hlk. destruct (tb_is_empty t0); [by exists true, h|]. cbn.
    destruct (decide (tb_st t0 = tb_waiting_ack)); [|by exists true, h]. eexists _, _. split; [done|]. split; [|done]. apply Hwait. by right.
  - unfold harq_tb_empty. rewrite Hlk. destruct (tb_is_empty t0) eqn:E; [by exists false, h|].
    assert (tb_st t0 <> tb_empty) as Hne by (intros H; apply tb_is_empty_spec in H; congruence).
    destruct (Hp t0 Hlk Hne) as (p & q & Hpq).
    destruct (ack_info_common_ok num 2 (with_ack_wait h (h_max_ack_wait h)) 0 (bool_decide (ack = harq_ack))) as (r & h' & He & Hi' & Hsa & Hpar & Hsig & Hoth);
      [apply Hwait; by left|lia|].
    rewrite He. cbn. destruct (lookup_lt_is_Some_2 (h_tbs h') 0) as [t' Ht']; [destruct Hi'; lia|]. rewrite Ht'. rewrite Hpar. cbn [h_params with_ack_wait].
    assert (dl_inv num h') as Hd.
    { split; [done| |].
      - intros t. rewrite Hoth by done. cbn. apply H1.
      - intros t _ _. rewrite Hpar. cbn. by exists p, q. }
    rewrite Hpq. cbn. exists true, h'. split; [by destruct (_ && _)|]. split; [done|]. by rewrite Hsa, Hsig.
Qed.

(** ** Runs of the scheduler

    One slot of the cell; an allocation, which transmits a new transport block on an
    empty process or retransmits on a pending one and stores the parameters of the
    grant (ue_cell_grid_allocator.cpp); a HARQ-ACK and a CRC.  The output lists the
    transmissions with the direction, the process, whether it is new, the new data
    indicator sent to the UE, and the configured number of retransmissions. *)
Inductive harq_op :=
  | hop_slot
  | hop_dl_tx (pid : nat) (k0 k1 max_retxs dai dci : Z) (pdsch : pdsch_information)
  | hop_ul_tx (pid : nat) (k2 max_retxs dci : Z) (pusch : pusch_information)
  | hop_dl_ack (uci_slot : slot_point) (ack : harq_ack_status) (dai : Z)
  | hop_ul_crc (pid : nat) (ack : bool) (pusch_slot : slot_point).
Record harq_tx := HarqTx { ht_dl : bool; ht_pid : nat; ht_new : bool; ht_ndi : bool; ht_max : Z }.

Definition dl_allocate (h : dl_harq_process) (slot : slot_point) (k1 max_retxs dai dci : Z) (pdsch : pdsch_information)
    : option (bool * dl_harq_process) :=
  let* e := dl_harq_empty h in
  let* h := if e : bool then dl_new_tx h slot k1 max_retxs dai else dl_new_retx h slot k1 dai in
  let* h := dl_save_alloc_params h dci pdsch in Some (e, h).
Definition ul_allocate (h : ul_harq_process) (slot : slot_point) (max_retxs dci : Z) (pusch : pusch_information) : option (bool * ul_harq_process) :=
  let* e := harq_tb_empty h 0 in
  let* h := if e : bool then ul_new_tx h slot max_retxs else ul_new_retx h slot in
  let* h := ul_save_alloc_params h dci pusch in Some (e, h).

Definition harq_exec (e : harq_entity) (op : harq_op) : option (harq_entity * list harq_tx) :=
  match op with
  | hop_slot => let* (e, _) := entity_slot_indication e (slot_incr (he_slot_tx e)) in Some (e, [])
  | hop_dl_tx pid k0 k1 m dai dci pdsch =>
      let* h := he_dl e !! pid in
      let* (new, h) := dl_allocate h (slot_add (he_slot_tx e) k0) k1 m dai dci pdsch in
      let* tb := h_tbs h !! 0%nat in
      Some (HarqEntity (he_slot_tx e) (<[pid := h]> (he_dl e)) (he_ul e), [HarqTx true pid new (tb_ndi tb) (tb_max_nof_harq_retxs tb)])
  | hop_ul_tx pid k2 m dci pusch =>
      let* h := he_ul e !! pid in
      let* (new, h) := ul_allocate h (slot_add (he_slot_tx e) k2) m dci pusch in
      let* tb := h_tbs h !! 0%nat in
      Some (HarqEntity (he_slot_tx e) (he_dl e) (<[pid := h]> (he_ul e)), [HarqTx false pid new (tb_ndi tb) (tb_max_nof_harq_retxs tb)])
  | hop_dl_ack slot ack dai => let* (_, e) := entity_dl_ack_info e slot ack dai in Some (e, [])
  | hop_ul_crc pid ack slot => let* (_, e) := entity_ul_crc_info e pid ack slot in Some (e, [])
  end.

(** What the scheduler guarantees: it allocates processes that are empty or wait for a
    retransmission, and a retransmission has the size and DCI type of the first one. *)
Definition harq_op_ok (e : harq_entity) (op : harq_op) : Prop :=
  match op with
  | hop_slot => True
  | hop_dl_tx pid k0 k1 m dai dci pdsch =>
      exists h tb cw, he_dl e !! pid = Some h /\ h_tbs h !! 0%nat = Some tb /\ tb_st tb <> tb_waiting_ack /\ pd_codewords pdsch = [cw]
        /\ 0 <= k0 < 1024 /\ 0 <= k1 < 1024 /\ 0 <= m < 2 ^ 32 - 1
        /\ (tb_st tb = tb_pending_retx -> dci = da_dci_cfg_type (h_params h)
            /\ forall p, da_tb (h_params h) !! 0%nat = Some (Some p) -> tp_tbs_bytes p = tp_tbs_bytes cw)
  | hop_ul_tx pid k2 m dci pusch =>
      exists h tb, he_ul e !! pid = Some h /\ h_tbs h !! 0%nat = Some tb /\ tb_st tb <> tb_waiting_ack /\ 0 <= k2 < 1024 /\ 0 <= m < 2 ^ 32 - 1
        /\ (tb_st tb = tb_pending_retx -> dci = ua_dci_cfg_type (h_params h) /\ ua_tbs_bytes (h_params h) = pu_tb_size_bytes pusch)
  | hop_dl_ack _ _ dai => dai < 4
  | hop_ul_crc pid _ _ => (pid < length (he_ul e))%nat
  end.

Record entity_inv (num : Z) (e : harq_entity) : Prop := {
  ei_slot : slot_ok (he_slot_tx e);
  ei_num : numerology_val (he_slot_tx e) = num;
  ei_dl : Forall (dl_inv num) (he_dl e);
  ei_ul : Forall (harq_inv num 1) (he_ul e);
}.

(** *** Allocations *)
Lemma new_tx_tb num nof {P} (h : harq_process P) i tb slot slot_ack m dai : harq_inv num nof h -> h_tbs h !! i = Some tb ->
  slot_ok slot_ack -> numerology_val slot_ack = num -> 0 <= m < 2 ^ 32 - 1 -> tb_st tb = tb_empty ->
  exists h', new_tx_tb_common (tx_common h slot slot_ack) i m dai = Some h' /\ harq_inv num nof h' /\ h_params h' = h_params h
    /\ h_tbs h' = <[i := TransportBlock tb_waiting_ack (negb (tb_ndi tb)) 0 m dai]> (h_tbs h).
Proof.
  intros Hi Htb Hs Hn Hm He. unfold new_tx_tb_common. cbn [h_tbs tx_common]. rewrite Htb, (proj2 (tb_is_empty_spec tb)) by done. cbn [negb].
  eexists. split; [done|]. split; [|done]. apply tx_common_tb_inv; [done| |done|done]. split; cbn; (lia || done).
Qed.
Lemma new_retx_tb num nof {P} (h : harq_process P) i tb slot slot_ack dai : harq_inv num nof h -> h_tbs h !! i = Some tb ->
  slot_ok slot_ack -> numerology_val slot_ack = num -> tb_st tb = tb_pending_retx ->
  exists h', new_retx_tb_common (tx_common h slot slot_ack) i dai = Some h' /\ harq_inv num nof h' /\ h_params h' = h_params h
    /\ tb_nof_retxs tb < tb_max_nof_harq_retxs tb
    /\ h_tbs h' = <[i := TransportBlock tb_waiting_ack (tb_ndi tb) (tb_nof_retxs tb + 1) (tb_max_nof_harq_retxs tb) dai]> (h_tbs h).
Proof.
  intros Hi Htb Hs Hn He. pose proof Hi as [_ Ht _ _ _]. destruct (Forall_lookup_1 _ _ _ _ Ht Htb) as [H0 Hm Hw Hp]. specialize (Hp He).
  unfold new_retx_tb_common. cbn [h_tbs tx_common]. rewrite Htb, bool_decide_true by done. cbn [negb]. rewrite u32_id by (unfold is_u32; lia).
  eexists. split; [done|]. split; [|done]. apply tx_common_tb_inv; [done| |done|done]. split; cbn; try lia. done.
Qed.

(** The new data indicator, the retransmissions and their limit after a transmission. *)
Definition sig_after (new : bool) (m : Z) (s : bool * Z * Z) : bool * Z * Z :=
  let '(ndi, n, m0) := s in if new then (negb ndi, 0, m) else (ndi, n + 1, m0).

Lemma with_params_inv num nof {P} (h : harq_process P) p : harq_inv num nof h -> harq_inv num nof (with_params h p).
Proof. by intros [? ? ? ? ?]. Qed.

Lemma slot_add_ok s k : slot_ok s -> 0 <= k < 1024 -> slot_ok (slot_add s k) /\ numerology_val (slot_add s k) = numerology_val s.
Proof. intros Hs Hk. rewrite slot_add_eq by (done || lia). destruct (slot_add_int_ok s k Hs) as (? & ? & _). done. Qed.

(** A single codeword stored on the first transport block. *)
Lemma dl_save_ok num (h : dl_harq_process) t0 t1 p q dci pdsch cw : harq_inv num 2 h -> h_tbs h = [t0; t1] -> tb_st t0 <> tb_empty -> tb_st t1 = tb_empty ->
  da_tb (h_params h) = [Some p; q] -> pd_codewords pdsch = [cw] ->
  (tb_nof_retxs t0 <> 0 -> dci = da_dci_cfg_type (h_params h) /\ tp_tbs_bytes p = tp_tbs_bytes cw) ->
  exists h', dl_save_alloc_params h dci pdsch = Some h' /\ dl_inv num h' /\ h_tbs h' = h_tbs h.
Proof.
  intros Hi Ht Hne He Hp Hcw Hre. unfold dl_save_alloc_params, harq_tb_empty. rewrite Ht. cbn [lookup list_lookup].
  assert (tb_is_empty t0 = false) as E by (apply not_true_iff_false; by rewrite tb_is_empty_spec). rewrite E, Hcw. cbn [save_codewords].
  unfold harq_tb. rewrite Ht. cbn [lookup list_lookup]. rewrite E, Hp. cbn [lookup list_lookup].
  assert (negb (tb_nof_retxs t0 =? 0) && negb (dci =? da_dci_cfg_type (h_params h)) = false
    /\ negb (tb_nof_retxs t0 =? 0) && negb (tp_tbs_bytes p =? tp_tbs_bytes cw) = false) as [-> ->].
  { destruct (tb_nof_retxs t0 =? 0) eqn:E0; [done|]. breflect. destruct (Hre E0) as [-> ->]. by rewrite !Z.eqb_refl. }
  eexists. split; [done|]. split; [|done]. split; [by do 2 apply with_params_inv| |].
  - cbn. rewrite Ht. by intros t [= <-].
  - cbn. rewrite Hp. intros t _ _. by eexists _, _.
Qed.

Lemma dl_allocate_ok num h tb slot k1 m dai dci pdsch cw : dl_inv num h -> h_tbs h !! 0%nat = Some tb -> tb_st tb <> tb_waiting_ack ->
  slot_ok slot -> numerology_val slot = num -> 0 <= k1 < 1024 -> 0 <= m < 2 ^ 32 - 1 -> pd_codewords pdsch = [cw] ->
  (tb_st tb = tb_pending_retx -> dci = da_dci_cfg_type (h_params h) /\ forall p, da_tb (h_params h) !! 0%nat = Some (Some p) -> tp_tbs_bytes p = tp_tbs_bytes cw) ->
  exists h' t', dl_allocate h slot k1 m dai dci pdsch = Some (tb_is_empty tb, h') /\ dl_inv num h' /\ h_tbs h' !! 0%nat = Some t'
    /\ tb_sig t' = sig_after (tb_is_empty tb) m (tb_sig tb) /\ (tb_is_empty tb = false -> tb_nof_retxs tb < tb_max_nof_harq_retxs tb).
Proof.
  intros Hi Htb Hnw Hs Hn Hk Hm Hcw Hre. destruct (dl_tb0 num h Hi) as (t0 & t1 & Ht & Hok & He1). rewrite Ht in Htb. injection Htb as ->.
  destruct (slot_add_ok slot k1 Hs Hk) as [Hs' Hn']. unfold dl_allocate. rewrite (dl_empty_spec num h tb t1 Hi Ht). pose proof Hi as [Hh _ Hpar].
  assert (h_tbs h !! 0%nat = Some tb) as Hlk by (by rewrite Ht). destruct (tb_is_empty tb) eqn:E.
  - apply tb_is_empty_spec in E. unfold dl_new_tx.
    destruct (new_tx_tb num 2 h 0 tb slot (slot_add slot k1) m dai Hh Hlk Hs' ltac:(congruence) Hm E) as (h1 & -> & Hi1 & Hp1 & Ht1).
    rewrite Ht in Ht1. cbn in Ht1. destruct (dl_save_ok num (with_params h1 (DlAlloc 0 (vrb_type1 0 0) 0 [Some tb_params_default; None]))
      (TransportBlock tb_waiting_ack (negb (tb_ndi tb)) 0 m dai) t1 tb_params_default None dci pdsch cw) as (h2 & -> & Hi2 & Ht2); try done.
    { by apply with_params_inv. }
    eexists h2, _. split; [done|]. split; [done|]. rewrite Ht2. cbn [h_tbs with_params]. rewrite Ht1. done.
  - assert (tb_st tb = tb_pending_retx) as Hp.
    { destruct (tb_st tb) eqn:E2; [|done|done]. rewrite (proj2 (tb_is_empty_spec tb) E2) in E. done. }
    unfold dl_new_retx.
    destruct (new_retx_tb num 2 h 0 tb slot (slot_add slot k1) dai Hh Hlk Hs' ltac:(congruence) Hp) as (h1 & -> & Hi1 & Hp1 & Hlt & Ht1).
    rewrite Ht in Ht1. cbn in Ht1. destruct (Hpar tb Hlk) as (p & q & Hpq); [by rewrite Hp|]. destruct (Hre Hp) as [Hdci Htbs].
    destruct (dl_save_ok num h1 (TransportBlock tb_waiting_ack (tb_ndi tb) (tb_nof_retxs tb + 1) (tb_max_nof_harq_retxs tb) dai) t1 p q dci pdsch cw)
      as (h2 & -> & Hi2 & Ht2); try done.
    { by rewrite Hp1. }
    { intros _. rewrite Hp1. split; [done|]. apply Htbs. by rewrite Hpq. }
    eexists h2, _. split; [done|]. split; [done|]. rewrite Ht2, Ht1. done.
Qed.

Lemma ul_allocate_ok num h tb slot m dci pusch : harq_inv num 1 h -> h_tbs h !! 0%nat = Some tb -> tb_st tb <> tb_waiting_ack ->
  slot_ok slot -> numerology_val slot = num -> 0 <= m < 2 ^ 32 - 1 ->
  (tb_st tb = tb_pending_retx -> dci = ua_dci_cfg_type (h_params h) /\ ua_tbs_bytes (h_params h) = pu_tb_size_bytes pusch) ->
  exists h' t', ul_allocate h slot m dci pusch = Some (tb_is_empty tb, h') /\ harq_inv num 1 h' /\ h_tbs h' !! 0%nat = Some t'
    /\ tb_sig t' = sig_after (tb_is_empty tb) m (tb_sig tb) /\ (tb_is_empty tb = false -> tb_nof_retxs tb < tb_max_nof_harq_retxs tb).
Proof.
  intros Hh Hlk Hnw Hs Hn Hm Hre. unfold ul_allocate, harq_tb_empty. rewrite Hlk.
  assert (0 < length (h_tbs h))%nat as Hlen by (apply lookup_lt_Some in Hlk; lia).
  assert (forall h1 : ul_harq_process, harq_inv num 1 h1 -> forall t', h_tbs h1 = <[0%nat := t']> (h_tbs h) -> tb_st t' = tb_waiting_ack ->
    (tb_nof_retxs t' <> 0 -> dci = ua_dci_cfg_type (h_params h1) /\ ua_tbs_bytes (h_params h1) = pu_tb_size_bytes pusch) ->
    exists h2, ul_save_alloc_params h1 dci pusch = Some h2 /\ harq_inv num 1 h2 /\ h_tbs h2 !! 0%nat = Some t') as Hsave.
  { intros h1 Hi1 t' Ht1 Hst Hr. unfold ul_save_alloc_params, harq_tb. rewrite Ht1, list_lookup_insert_eq by done. unfold tb_is_empty. rewrite Hst.
    rewrite bool_decide_false by done.
    assert (negb (tb_nof_retxs t' =? 0) && negb (dci =? ua_dci_cfg_type (h_params h1)) = false
      /\ negb (tb_nof_retxs t' =? 0) && negb (ua_tbs_bytes (h_params h1) =? pu_tb_size_bytes pusch) = false) as [-> ->].
    { destruct (tb_nof_retxs t' =? 0) eqn:E0; [done|]. breflect. destruct (Hr E0) as [-> ->]. by rewrite !Z.eqb_refl. }
    eexists. split; [done|]. split; [by apply with_params_inv|]. cbn. rewrite Ht1. by apply list_lookup_insert_eq. }
  destruct (tb_is_empty tb) eqn:E.
  - apply tb_is_empty_spec in E. unfold ul_new_tx. destruct (new_tx_tb num 1 h 0 tb slot slot m 0 Hh Hlk Hs Hn Hm E) as (h1 & -> & Hi1 & Hp1 & Ht1).
    destruct (Hsave h1 Hi1 _ Ht1) as (h2 & -> & Hi2 & Ht2); [done|done|]. by eexists _, _.
  - assert (tb_st tb = tb_pending_retx) as Hp.
    { destruct (tb_st tb) eqn:E2; [|done|done]. rewrite (proj2 (tb_is_empty_spec tb) E2) in E. done. }
    unfold ul_new_retx. destruct (new_retx_tb num 1 h 0 tb slot slot 0 Hh Hlk Hs Hn Hp) as (h1 & -> & Hi1 & Hp1 & Hlt & Ht1).
    destruct (Hsave h1 Hi1 _ Ht1) as (h2 & -> & Hi2 & Ht2); [done|rewrite Hp1; by intros _; apply Hre|]. by eexists _, _.
Qed.

(** *** Slots, HARQ-ACKs and CRCs over all processes *)
Definition sigs_of {P} (hs : list (harq_process P)) : list (list (bool * Z * Z)) := map (fun h => map tb_sig (h_tbs h)) hs.
Definition entity_sigs (e : harq_entity) : list (list (bool * Z * Z)) * list (list (bool * Z * Z)) := (sigs_of (he_dl e), sigs_of (he_ul e)).

Lemma slot_all_ok {P} (I : harq_process P -> Prop) is_dl st hs :
  (forall h, I h -> exists h' evs, harq_slot_indication is_dl h st = Some (h', evs) /\ I h' /\ map tb_sig (h_tbs h') = map tb_sig (h_tbs h)) ->
  Forall I hs -> exists hs' evs, slot_indication_all is_dl st hs = Some (hs', evs) /\ Forall I hs' /\ sigs_of hs' = sigs_of hs.
Proof.
  intros Hstep Hhs. induction Hhs as [|h hs Hh _ IH]; cbn [slot_indication_all]; [by eexists [], []|].
  destruct (Hstep h Hh) as (h' & evs & -> & Hi & Hsig). destruct IH as (hs' & evs' & -> & His & Hsigs). eexists _, _. split; [done|].
  split; [by constructor|]. unfold sigs_of in *. cbn. by rewrite Hsig, Hsigs.
Qed.

Lemma dl_ack_loop_ok num slot ack dai hs : Forall (dl_inv num) hs -> forall i c,
  exists r hs', dl_ack_loop slot ack dai i c hs = Some (r, hs') /\ Forall (dl_inv num) hs' /\ sigs_of hs' = sigs_of hs.
Proof.
  intros Hhs. induction Hhs as [|h hs Hh Hhs IH]; intros i c; cbn [dl_ack_loop]; [by eexists _, []|].
  assert (forall c, exists r hs', (let* (c, hs) := dl_ack_loop slot ack dai (S i) c hs in Some (c, h :: hs)) = Some (r, hs')
    /\ Forall (dl_inv num) hs' /\ sigs_of hs' = sigs_of (h :: hs)) as Hnext.
  { intros c'. destruct (IH (S i) c') as (r & hs' & -> & H1 & H2). eexists _, _. split; [done|]. split; [by constructor|]. unfold sigs_of in *. cbn. by rewrite H2. }
  destruct (slot_eqb _ _); [|apply Hnext]. destruct (dl_tb0 num h Hh) as (t0 & t1 & Ht & _ & _). rewrite (dl_empty_spec num h t0 t1 Hh Ht).
  destruct (tb_is_empty t0) eqn:E; [apply Hnext|]. unfold harq_tb. rewrite Ht. cbn [lookup list_lookup]. rewrite E. destruct (_ =? _); [|apply Hnext].
  destruct (dl_ack_info_ok num h ack Hh) as (r & h' & -> & Hi' & _ & Hsig). eexists _, _. split; [done|]. split; [by constructor|].
  unfold sigs_of. cbn. by rewrite Hsig.
Qed.

(** *** Transmissions of a process

    [tx_seq l (ndi, n, m)]: [l] is a sequence of transmissions of one process in which
    the indicator is inverted exactly by the new ones, [n] retransmissions of at most
    [m] have followed the last new one, whose indicator is [ndi]. *)
Inductive tx_seq : list harq_tx -> bool * Z * Z -> Prop :=
  | tx_seq_nil : tx_seq [] (false, 0, 0)
  | tx_seq_new l ndi n m t : tx_seq l (ndi, n, m) -> ht_new t = true -> ht_ndi t = negb ndi -> tx_seq (l ++ [t]) (negb ndi, 0, ht_max t)
  | tx_seq_retx l ndi n m t : tx_seq l (ndi, n, m) -> n < m -> ht_new t = false -> ht_ndi t = ndi -> ht_max t = m -> tx_seq (l ++ [t]) (ndi, n + 1, m).
Definition txs_of (is_dl : bool) (pid : nat) (l : list harq_tx) : list harq_tx := filter (fun t => ht_dl t = is_dl /\ ht_pid t = pid) l.

Definition log_inv (is_dl : bool) (log : list harq_tx) (sigs : list (list (bool * Z * Z))) : Prop :=
  forall i l s, sigs !! i = Some l -> l !! 0%nat = Some s -> tx_seq (txs_of is_dl i log) s.

Lemma txs_of_snoc is_dl pid l t : txs_of is_dl pid (l ++ [t]) = txs_of is_dl pid l ++ if decide (ht_dl t = is_dl /\ ht_pid t = pid) then [t] else [].
Proof. unfold txs_of. rewrite list.filter_app. done. Qed.
Lemma log_inv_other is_dl log sigs t : ht_dl t <> is_dl -> log_inv is_dl log sigs -> log_inv is_dl (log ++ [t]) sigs.
Proof. intros Ht Hl i l s Hi Hs. rewrite txs_of_snoc, decide_False by tauto. rewrite app_nil_r. by eapply Hl. Qed.

Lemma tx_seq_step l s t : tx_seq l s -> (ht_new t = false -> s.1.2 < s.2) ->
  (ht_ndi t, ht_max t) = ((sig_after (ht_new t) (ht_max t) s).1.1, (sig_after (ht_new t) (ht_max t) s).2) ->
  tx_seq (l ++ [t]) (sig_after (ht_new t) (ht_max t) s).
Proof.
  intros Hl Hlt Heq. destruct s as [[ndi n] m], t as [d p [] nd mx]; cbn in *.
  - injection Heq as ->. by apply (tx_seq_new l ndi n m (HarqTx d p true (negb ndi) mx)).
  - injection Heq as -> ->. by apply tx_seq_retx; [|apply Hlt| | |].
Qed.

Lemma sigs_lookup {P} (hs : list (harq_process P)) i h : hs !! i = Some h -> sigs_of hs !! i = Some (map tb_sig (h_tbs h)).
Proof. intros Hh. unfold sigs_of. by rewrite list_lookup_fmap, Hh. Qed.

(** The log after a transmission on process [pid]. *)
Lemma log_inv_tx {P} is_dl log (hs : list (harq_process P)) pid h h' tb t' new m : log_inv is_dl log (sigs_of hs) -> hs !! pid = Some h ->
  h_tbs h !! 0%nat = Some tb -> h_tbs h' !! 0%nat = Some t' -> tb_sig t' = sig_after new m (tb_sig tb) ->
  (new = false -> tb_nof_retxs tb < tb_max_nof_harq_retxs tb) ->
  log_inv is_dl (log ++ [HarqTx is_dl pid new (tb_ndi t') (tb_max_nof_harq_retxs t')]) (sigs_of (<[pid := h']> hs)).
Proof.
  intros Hl Hh Htb Ht' Hsig Hlt i l s Hi Hs. rewrite txs_of_snoc. cbn [ht_dl ht_pid]. unfold sigs_of in Hi. rewrite list_lookup_fmap in Hi.
  destruct (decide (i = pid)) as [->|Hne].
  - rewrite decide_True by done. rewrite list_lookup_insert_eq in Hi by (by eapply lookup_lt_Some). injection Hi as <-.
    rewrite list_lookup_fmap, Ht' in Hs. injection Hs as <-. assert (tx_seq (txs_of is_dl pid log) (tb_sig tb)) as Hpre.
    { apply (Hl pid (map tb_sig (h_tbs h))); [by apply sigs_lookup|by rewrite list_lookup_fmap, Htb]. }
    assert (sig_after new (tb_max_nof_harq_retxs t') (tb_sig tb) = sig_after new m (tb_sig tb)) as Hm.
    { unfold tb_sig in Hsig. cbn in Hsig. destruct new; [|done]. cbn. injection Hsig as ? ? ->. done. }
    pose proof (tx_seq_step _ _ (HarqTx is_dl pid new (tb_ndi t') (tb_max_nof_harq_retxs t')) Hpre) as Hstep. cbn [ht_new ht_ndi ht_max] in Hstep.
    rewrite Hm, <- Hsig in Hstep. apply Hstep; [done|done].
  - rewrite decide_False by naive_solver. rewrite app_nil_r. rewrite list_lookup_insert_ne in Hi by done.
    apply (Hl i l s); [|done]. unfold sigs_of. by rewrite list_lookup_fmap.
Qed.

Lemma sigs_insert_same {P} (hs : list (harq_process P)) i h h' : hs !! i = Some h -> map tb_sig (h_tbs h') = map tb_sig (h_tbs h) ->
  sigs_of (<[i := h']> hs) = sigs_of hs.
Proof.
  intros Hi Hs. unfold sigs_of. apply list_eq. intros j. rewrite !list_lookup_fmap, list_lookup_insert.
  destruct (decide _) as [[-> _]|]; [by rewrite Hi; cbn; rewrite Hs|done].
Qed.

Definition logs_inv (e : harq_entity) (log : list harq_tx) : Prop :=
  log_inv true log (sigs_of (he_dl e)) /\ log_inv false log (sigs_of (he_ul e)).

Lemma harq_exec_ok num e log op : entity_inv num e -> logs_inv e log -> harq_op_ok e op ->
  exists e' out, harq_exec e op = Some (e', out) /\ entity_inv num e' /\ logs_inv e' (log ++ out).
Proof.
  intros [Hs Hn Hdl Hul] [Hlog1 Hlog2] Hop. destruct op as [|pid k0 k1 m dai dci pdsch|pid k2 m dci pusch|slot ack dai|pid ack slot]; cbn [harq_exec harq_op_ok] in *;
    unfold dl_harq_process, ul_harq_process in *.
  - assert (slot_ok (slot_incr (he_slot_tx e)) /\ numerology_val (slot_incr (he_slot_tx e)) = num) as [Hs' Hn'].
    { rewrite slot_incr_eq by done. destruct (slot_add_int_ok (he_slot_tx e) 1 Hs) as (? & ? & _). split; congruence. }
    unfold entity_slot_indication. destruct (slot_all_ok (dl_inv num) true (slot_incr (he_slot_tx e)) (he_dl e)) as (dl & ev1 & -> & Hdl' & Hs1); [|done|].
    { intros h Hh. destruct (dl_slot_indication_ok num h _ Hh Hn') as (h' & evs & H1 & H2 & H3). by exists h', evs. }
    destruct (slot_all_ok (harq_inv num 1) false (slot_incr (he_slot_tx e)) (he_ul e)) as (ul & ev2 & -> & Hul' & Hs2); [|done|].
    { intros h Hh. destruct (harq_slot_indication_ok num 1 false h _ Hh Hn') as (h' & evs & H1 & H2 & _ & _ & H3). exists h', evs. split; [done|].
      split; [done|by apply expired_sigs]. }
    eexists _, _. split; [done|]. split; [by split|]. rewrite app_nil_r. unfold logs_inv. cbn [he_dl he_ul]. by rewrite Hs1, Hs2.
  - destruct Hop as (h & tb & cw & Hh & Htb & Hnw & Hcw & Hk0 & Hk1 & Hm & Hre). rewrite Hh.
    pose proof (Forall_lookup_1 _ _ _ _ Hdl Hh) as Hi. destruct (slot_add_ok _ k0 Hs Hk0) as [Hs' Hn'].
    destruct (dl_allocate_ok num h tb (slot_add (he_slot_tx e) k0) k1 m dai dci pdsch cw) as (h' & t' & -> & Hi' & Ht' & Hsig & Hlt); try done.
    rewrite Ht'. eexists _, _. split; [done|]. split; [split; [done|done|by apply Forall_insert|done]|].
    split; cbn [he_dl he_ul]; [by eapply log_inv_tx|by apply log_inv_other].
  - destruct Hop as (h & tb & Hh & Htb & Hnw & Hk2 & Hm & Hre). rewrite Hh.
    pose proof (Forall_lookup_1 _ _ _ _ Hul Hh) as Hi. destruct (slot_add_ok _ k2 Hs Hk2) as [Hs' Hn'].
    destruct (ul_allocate_ok num h tb (slot_add (he_slot_tx e) k2) m dci pusch) as (h' & t' & -> & Hi' & Ht' & Hsig & Hlt); try done.
    rewrite Ht'. eexists _, _. split; [done|]. split; [split; [done|done|done|by apply Forall_insert]|].
    split; cbn [he_dl he_ul]; [by apply log_inv_other|by eapply log_inv_tx].
  - unfold entity_dl_ack_info. rewrite (proj2 (Z.ltb_lt dai 4)) by done. cbn [negb].
    destruct (dl_ack_loop_ok num slot ack dai (he_dl e) Hdl 0 None) as (r & dl & -> & Hdl' & Hs1). eexists _, _. split; [done|]. split; [by split|].
    rewrite app_nil_r. unfold logs_inv. cbn [he_dl he_ul]. by rewrite Hs1.
  - unfold entity_ul_crc_info. destruct (lookup_lt_is_Some_2 (he_ul e) pid Hop) as [h Hh]. unfold ul_harq_process in *. rewrite Hh. pose proof (Forall_lookup_1 _ _ _ _ Hul Hh) as Hi.
    destruct (lookup_lt_is_Some_2 (h_tbs h) 0) as [tb Htb]; [destruct Hi; lia|]. unfold harq_tb_empty. rewrite Htb.
    destruct (_ || _); [eexists _, _; split; [done|]; rewrite app_nil_r; by split|]. unfold ul_crc_info_tb.
    destruct (ack_info_common_ok num 1 h 0 ack Hi ltac:(lia)) as (r & h' & -> & Hi' & _ & _ & Hsig & _). eexists _, _. split; [done|].
    split; [split; [done|done|done|by apply Forall_insert]|]. rewrite app_nil_r. split; cbn [he_dl he_ul]; [done|]. by erewrite sigs_insert_same.
Qed.

(** ** Reachable states *)
Inductive harq_reach (nof_dl nof_ul : nat) (max_wait num : Z) : harq_entity -> list harq_tx -> Prop :=
  | hr_init s0 e : slot_ok s0 -> numerology_val s0 = num ->
      entity_slot_indication (harq_entity_new nof_dl nof_ul max_wait) s0 = Some (e, []) -> harq_reach nof_dl nof_ul max_wait num e []
  | hr_step e log op e' out : harq_reach nof_dl nof_ul max_wait num e log -> harq_op_ok e op -> harq_exec e op = Some (e', out) ->
      harq_reach nof_dl nof_ul max_wait num e' (log ++ out).

Lemma slot_all_new {P} n is_dl (p : P) w st ids :
  slot_indication_all is_dl st (map (fun id => harq_process_new n p (Z.of_nat id) w) ids) = Some (map (fun id => harq_process_new n p (Z.of_nat id) w) ids, []).
Proof.
  induction ids as [|id ids IH]; [done|]. cbn [map slot_indication_all]. rewrite IH. unfold harq_slot_indication.
  assert (forall k, slot_indication_tbs w w slot_point_invalid st (replicate k tb_default) = Some (w, replicate k tb_default, O)) as Hk.
  { induction k as [|k IHk]; [done|]. cbn [replicate slot_indication_tbs]. unfold tb_is_empty at 1. cbn [tb_st tb_default].
    rewrite bool_decide_true by done. by rewrite IHk. }
  cbn [h_max_ack_wait h_ack_wait h_slot_ack h_tbs harq_process_new]. by rewrite Hk.
Qed.
Lemma log_inv_new {P} is_dl n (p : P) w ids : log_inv is_dl [] (sigs_of (map (fun id => harq_process_new (S n) p (Z.of_nat id) w) ids)).
Proof.
  intros i l s Hi Hs. unfold sigs_of in Hi. rewrite map_map in Hi. apply list_lookup_fmap_Some in Hi as (id & -> & _). cbn in Hs. injection Hs as <-. constructor.
Qed.

Lemma harq_reach_inv nd nu w num e log : ack_timeout_ok w -> harq_reach nd nu w num e log -> entity_inv num e /\ logs_inv e log.
Proof.
  intros Hw. induction 1 as [s0 e Hs Hn He|e log op e' out _ [Hi Hl] Hop He].
  - unfold entity_slot_indication, harq_entity_new in He. cbn [he_dl he_ul] in He. rewrite !slot_all_new in He. injection He as <-. split.
    + split; [done|done| |]; cbn [he_dl he_ul]; apply Forall_forall; intros h (id & <- & _)%in_map_iff; [by apply dl_inv_new|by apply harq_inv_new].
    + split; cbn [he_dl he_ul]; apply log_inv_new.
  - destruct (harq_exec_ok num e log op Hi Hl Hop) as (e1 & out1 & He1 & Hi1 & Hl1). rewrite He in He1. injection He1 as <- <-. done.
Qed.

(** C26: safety of the HARQ entity: in every state that the scheduler can reach, every further slot, allocation, HARQ-ACK
    and CRC succeeds without failing an assertion, and the transport blocks that are not empty have been retransmitted
    at most as often as configured, strictly less often when a retransmission is pending. *)
Theorem harq_run_safe nof_dl nof_ul max_wait num e log : ack_timeout_ok max_wait -> harq_reach nof_dl nof_ul max_wait num e log ->
  (forall op, harq_op_ok e op -> exists e' out, harq_exec e op = Some (e', out))
  /\ (forall i h, he_dl e !! i = Some h -> Forall tb_ok (h_tbs h)) /\ (forall i h, he_ul e !! i = Some h -> Forall tb_ok (h_tbs h)).
Proof.
  intros Hw Hr. destruct (harq_reach_inv _ _ _ _ _ _ Hw Hr) as [Hi Hl]. split_and!.
  - intros op Hop. destruct (harq_exec_ok num e log op Hi Hl Hop) as (e' & out & He & _). by exists e', out.
  - intros i h Hh. destruct Hi as [_ _ Hdl _]. by destruct (Forall_lookup_1 _ _ _ _ Hdl Hh) as [[]].
  - intros i h Hh. destruct Hi as [_ _ _ Hul]. by destruct (Forall_lookup_1 _ _ _ _ Hul Hh).
Qed.

(** *** Reading a sequence of transmissions *)
Lemma tx_seq_snoc l t s : tx_seq (l ++ [t]) s -> exists ndi n m, tx_seq l (ndi, n, m)
  /\ (ht_new t = true /\ ht_ndi t = negb ndi /\ s = (negb ndi, 0, ht_max t) \/ ht_new t = false /\ ht_ndi t = ndi /\ n < m /\ s = (ndi, n + 1, m)).
Proof.
  intros H. inversion H as [Hl Hs|l' ndi n m t' H0 Hn Hd Hl Hs|l' ndi n m t' H0 Hlt Hn Hd Hm Hl Hs].
  - by destruct l.
  - apply app_inj_tail in Hl as [-> ->]. exists ndi, n, m. split; [done|]. by left.
  - apply app_inj_tail in Hl as [-> ->]. exists ndi, n, m. split; [done|]. by right.
Qed.
Lemma tx_seq_prefix l2 : forall l1 s, tx_seq (l1 ++ l2) s -> exists s', tx_seq l1 s'.
Proof.
  induction l2 as [|t l2 IH]; intros l1 s H; [rewrite app_nil_r in H; by exists s|]. replace (l1 ++ t :: l2) with ((l1 ++ [t]) ++ l2) in H by (by rewrite <- app_assoc).
  apply IH in H as [s' H]. apply tx_seq_snoc in H as (ndi & n & m & H & _). by eexists.
Qed.
Lemma tx_seq_last l t s : tx_seq (l ++ [t]) s -> s.1.1 = ht_ndi t.
Proof. intros (ndi & n & m & _ & [(_ & -> & ->)|(_ & -> & _ & ->)])%tx_seq_snoc; done. Qed.
Lemma tx_seq_retxs l t rs s : ht_new t = true -> Forall (fun r => ht_new r = false) rs -> tx_seq (l ++ t :: rs) s ->
  s.1.2 = Z.of_nat (length rs) /\ s.2 = ht_max t /\ Z.of_nat (length rs) <= Z.max 0 (ht_max t).
Proof.
  intros Ht. revert s. induction rs as [|r rs IH] using rev_ind; intros s Hrs H.
  - apply tx_seq_snoc in H as (ndi & n & m & _ & [(_ & _ & ->)|(Hn & _)]); [|congruence]. cbn. lia.
  - apply Forall_app in Hrs as [Hrs Hr]. apply Forall_cons_1 in Hr as [Hr _]. replace (l ++ t :: rs ++ [r]) with ((l ++ t :: rs) ++ [r]) in H by (by rewrite <- app_assoc).
    apply tx_seq_snoc in H as (ndi & n & m & H & [(Hn & _)|(_ & _ & Hlt & ->)]); [congruence|]. destruct (IH _ Hrs H) as (H1 & H2 & H3). cbn in *.
    rewrite length_app. cbn. lia.
Qed.

(** C27: what the UE sees of a HARQ process: in the sequence of its transmissions a new transport block is announced exactly
    by an inverted new data indicator, starting from the value true, and no transport block is retransmitted more often
    than configured. *)
Theorem harq_ndi_tells_new_data nof_dl nof_ul max_wait num e log is_dl pid : ack_timeout_ok max_wait -> harq_reach nof_dl nof_ul max_wait num e log ->
  (pid < if is_dl : bool then length (he_dl e) else length (he_ul e))%nat ->
  let l := txs_of is_dl pid log in
  (forall t l', l = t :: l' -> ht_new t = ht_ndi t)
  /\ (forall l1 t1 t2 l2, l = l1 ++ t1 :: t2 :: l2 -> ht_new t2 = xorb (ht_ndi t1) (ht_ndi t2))
  /\ (forall l1 t rs l2, l = l1 ++ t :: rs ++ l2 -> ht_new t = true -> Forall (fun r => ht_new r = false) rs -> Z.of_nat (length rs) <= Z.max 0 (ht_max t)).
Proof.
  intros Hw Hr Hpid l. assert (exists s, tx_seq l s) as [s Hs].
  { destruct (harq_reach_inv _ _ _ _ _ _ Hw Hr) as [[_ _ Hdl Hul] [L1 L2]]. destruct is_dl.
    - destruct (lookup_lt_is_Some_2 _ _ Hpid) as [h Hh]. destruct (dl_tb0 num h) as (t0 & t1 & Ht & _); [by eapply Forall_lookup_1|].
      exists (tb_sig t0). apply (L1 pid (map tb_sig (h_tbs h))); [by apply sigs_lookup|by rewrite Ht].
    - destruct (lookup_lt_is_Some_2 _ _ Hpid) as [h Hh]. destruct (Forall_lookup_1 _ _ _ _ Hul Hh) as [Hlen _ _ _ _].
      destruct (lookup_lt_is_Some_2 (h_tbs h) 0) as [t0 Ht]; [lia|].
      exists (tb_sig t0). apply (L2 pid (map tb_sig (h_tbs h))); [by apply sigs_lookup|by rewrite list_lookup_fmap, Ht]. }
  split_and!.
  - intros t l' ->. destruct (tx_seq_prefix l' [t] s Hs) as [s' H]. apply (tx_seq_snoc [] t) in H as (ndi & n & m & H & Hor).
    inversion H; [|by destruct l|by destruct l]. subst. by destruct Hor as [(-> & -> & _)|(-> & -> & _)].
  - intros l1 t1 t2 l2 ->. replace (l1 ++ t1 :: t2 :: l2) with (((l1 ++ [t1]) ++ [t2]) ++ l2) in Hs by (by rewrite <- !app_assoc).
    apply tx_seq_prefix in Hs as [s' H]. apply tx_seq_snoc in H as (ndi & n & m & H & Hor). apply tx_seq_last in H. cbn in H. subst ndi.
    destruct Hor as [(-> & -> & _)|(-> & -> & _)]; by destruct (ht_ndi t1).
  - intros l1 t rs l2 -> Ht Hrs. replace (l1 ++ t :: rs ++ l2) with ((l1 ++ t :: rs) ++ l2) in Hs by (by rewrite <- app_assoc).
    apply tx_seq_prefix in Hs as [s' H]. by apply (tx_seq_retxs l1 t rs s').
Qed.

(** ** Missing HARQ-ACKs

    [harq_slots n h s]: the next [n] slots after [s]. *)
Fixpoint harq_slots {P} (is_dl : bool) (n : nat) (h : harq_process P) (s : slot_point) : option (harq_process P * list bool) :=
  match n with
  | O => Some (h, [])
  | S n =>
      let* (h, evs) := harq_slot_indication is_dl h (slot_incr s) in
      let* (h, evs') := harq_slots is_dl n h (slot_incr s) in Some (h, evs ++ evs')
  end.

Section Timeout.
Context {P : Type} (is_dl : bool).
Implicit Types h : harq_process P.

Lemma slots_rest_empty mw w sa st rest : Forall (fun t => tb_st t = tb_empty) rest -> slot_indication_tbs mw w sa st rest = Some (w, rest, O).
Proof.
  induction 1 as [|t rest Ht _ IH]; [done|]. cbn [slot_indication_tbs]. by rewrite (proj2 (tb_is_empty_spec t)), IH.
Qed.

(** One slot of a process with one active transport block. *)
Lemma slot_indication_single h st t0 rest : h_tbs h = t0 :: rest -> Forall (fun t => tb_st t = tb_empty) rest -> tb_ok t0 -> tb_st t0 <> tb_empty ->
  forall r, slot_gtb (slot_add (h_slot_ack h) (h_ack_wait h)) st = Some r ->
  harq_slot_indication is_dl h st = Some (if r then (h, [])
    else (with_tbs (with_ack_wait h (h_max_ack_wait h)) (tb_expired t0 :: rest), if tb_expires t0 then [is_dl] else [])).
Proof.
  intros Ht Hrest Hok Hne r Hr. unfold harq_slot_indication. rewrite Ht. cbn [slot_indication_tbs].
  assert (tb_is_empty t0 = false) as -> by (apply not_true_iff_false; by rewrite tb_is_empty_spec). rewrite Hr. destruct r.
  - cbn. f_equal. f_equal. rewrite <- Ht. by destruct h.
  - pose proof (slot_indication_tb t0 Hok Hne) as Hexp. cbv zeta in Hexp. rewrite Hexp, slots_rest_empty by done.
    unfold tb_expires. by destruct (bool_decide (tb_st t0 = tb_waiting_ack)).
Qed.

(** A process that waits for nothing is left alone. *)
Lemma slots_settled num nof n : forall h s t0 rest, harq_inv num nof h -> slot_ok s -> numerology_val s = num -> h_tbs h = t0 :: rest ->
  Forall (fun t => tb_st t = tb_empty) rest -> tb_st t0 <> tb_waiting_ack -> h_ack_wait h = h_max_ack_wait h -> harq_slots is_dl n h s = Some (h, []).
Proof.
  induction n as [|n IH]; intros h s t0 rest Hi Hs Hn Ht Hrest Hnw Hw; [done|]. cbn [harq_slots].
  assert (slot_ok (slot_incr s) /\ numerology_val (slot_incr s) = num) as [Hs' Hn'] by (rewrite slot_incr_eq by done; destruct (slot_add_int_ok s 1 Hs) as (? & ? & _); by split; [|congruence]).
  assert (harq_slot_indication is_dl h (slot_incr s) = Some (h, [])) as ->; [|by rewrite (IH h _ t0 rest)].
  destruct (decide (tb_st t0 = tb_empty)) as [He|Hne].
  - unfold harq_slot_indication. rewrite slots_rest_empty by (rewrite Ht; by constructor). cbn. by destruct h.
  - pose proof Hi as [_ Hall _ _ Hsl]. destruct (Hsl 0%nat t0) as [_ Hnum]; [by rewrite Ht|done|].
    destruct (slot_gtb_total (slot_add (h_slot_ack h) (h_ack_wait h)) (slot_incr s)) as [r Hr]; [cbn [slot_add numerology_val]; congruence|].
    assert (tb_ok t0) as Hok by (rewrite Ht in Hall; by inversion Hall).
    rewrite (slot_indication_single h _ t0 rest Ht Hrest Hok Hne r Hr). destruct r; [done|].
    f_equal. unfold tb_expired, tb_expires. destruct (tb_st t0) eqn:E; [done| |done]. rewrite bool_decide_false by done. f_equal.
    rewrite <- Ht. destruct h. cbn in *. by rewrite Hw.
Qed.

Lemma slots_timeout num nof n : forall h s t0 rest d, harq_inv num nof h -> slot_ok s -> numerology_val s = num -> h_tbs h = t0 :: rest ->
  Forall (fun t => tb_st t = tb_empty) rest -> tb_st t0 = tb_waiting_ack -> h_slot_ack h = slot_add_int s d -> -4096 < d < 1024 ->
  harq_slots is_dl n h s = Some (if Z.of_nat n <? Z.max 1 (d + h_ack_wait h) then (h, [])
    else (with_tbs (with_ack_wait h (h_max_ack_wait h)) (tb_expired t0 :: rest), [is_dl])).
Proof.
  induction n as [|n IH]; intros h s t0 rest d Hi Hs Hn Ht Hrest Hwait Hsa Hd; [rewrite (proj2 (Z.ltb_lt _ _)) by lia; done|]. cbn [harq_slots].
  pose proof (wait_ok _ _ _ Hi) as Hw. unfold ack_timeout_ok in Hw. pose proof Hi as [Hlen Hall Hmax _ Hsl].
  assert (slot_ok (slot_incr s) /\ numerology_val (slot_incr s) = num) as [Hs' Hn'] by (rewrite slot_incr_eq by done; destruct (slot_add_int_ok s 1 Hs) as (? & ? & _); by split; [|congruence]).
  assert (slot_gtb (slot_add (h_slot_ack h) (h_ack_wait h)) (slot_incr s) = Some (1 <? d + h_ack_wait h)) as Hr.
  { rewrite Hsa, slot_add_eq by (by apply slot_add_int_ok || lia). rewrite slot_add_add, slot_incr_eq by done. apply slot_gtb_compare; [done|].
    destruct Hs as [Hs _]. pose proof (system_frame_pos s Hs) as [Hp _]. split; mlia. }
  assert (tb_ok t0) as Hok by (rewrite Ht in Hall; by inversion Hall).
  rewrite (slot_indication_single h _ t0 rest Ht Hrest Hok ltac:(congruence) _ Hr). destruct (1 <? d + h_ack_wait h) eqn:E; breflect.
  - rewrite (IH h (slot_incr s) t0 rest (d - 1)); try done; [|rewrite Hsa, slot_incr_eq, slot_add_add by done; f_equal; lia|lia].
    destruct (Z.of_nat n <? _) eqn:E1, (Z.of_nat (S n) <? _) eqn:E2; breflect; (done || lia).
  - rewrite (proj2 (Z.ltb_ge _ _)) by lia. unfold tb_expires. rewrite bool_decide_true by done.
    erewrite (slots_settled num nof n); [done| |exact Hs'|exact Hn'|done|exact Hrest| |done].
    + replace (tb_expired t0 :: rest) with (<[0%nat := tb_expired t0]> (h_tbs h)) by (by rewrite Ht). apply set_tb_inv; [done|by apply tb_expired_ok|by left|].
      intros _. exists t0. rewrite Ht. split; [done|congruence].
    + unfold tb_expired. rewrite Hwait. cbn. by destruct (_ <? _).
Qed.
End Timeout.

(** Missing HARQ-ACKs: a downlink transport block that waits for its HARQ-ACK keeps waiting until exactly the
    configured number of slots after the slot of the HARQ-ACK (ten slots when only a DTX was reported), then the
    timeout is notified once and the block becomes pending for retransmission, or is discarded when no retransmission is
    left; nothing happens in later slots, across the wrap-around of the slot counter. *)
Theorem harq_timeout_on_time num h s t0 t1 d n : dl_inv num h -> slot_ok s -> numerology_val s = num -> h_tbs h = [t0; t1] ->
  tb_st t0 = tb_waiting_ack -> h_slot_ack h = slot_add_int s d -> -4096 < d < 1024 ->
  let t0' := tb_set_state t0 (if tb_nof_retxs t0 <? tb_max_nof_harq_retxs t0 then tb_pending_retx else tb_empty) in
  harq_slots true n h s = Some (if Z.of_nat n <? Z.max 1 (d + h_ack_wait h) then (h, [])
                                else (with_tbs (with_ack_wait h (h_max_ack_wait h)) [t0'; t1], [true]))
  /\ exists h', dl_ack_info_tb h 0 harq_dtx = Some (true, h') /\ h_tbs h' = h_tbs h
     /\ harq_slots true n h' s = Some (if Z.of_nat n <? Z.max 1 (d + SHORT_ACK_TIMEOUT_DTX) then (h', [])
                                       else (with_tbs (with_ack_wait h' (h_max_ack_wait h')) [t0'; t1], [true])).
Proof.
  intros Hi Hs Hn Ht Hw Hsa Hd t0'. pose proof Hi as [Hh Hemp _]. assert (tb_st t1 = tb_empty) as He1 by (apply Hemp; by rewrite Ht).
  assert (t0' = tb_expired t0) as -> by (unfold tb_expired; by rewrite Hw). split.
  - by apply (slots_timeout true num 2 n h s t0 [t1] d); try done; constructor.
  - destruct (dl_ack_info_ok num h harq_dtx Hi) as (r & h' & Hack & Hi' & _). pose proof Hack as Hack0. unfold dl_ack_info_tb in Hack. rewrite !decide_True in Hack by done.
    unfold harq_tb_empty, harq_tb in Hack. rewrite Ht in Hack. cbn [lookup list_lookup] in Hack.
    assert (tb_is_empty t0 = false) as E by (apply not_true_iff_false; rewrite tb_is_empty_spec; congruence). rewrite E, decide_True in Hack by done.
    injection Hack as <- <-. eexists. split; [exact Hack0|]. split; [reflexivity|].
    apply (slots_timeout true num 2 n (with_ack_wait h SHORT_ACK_TIMEOUT_DTX) s t0 [t1] d); try done; [apply Hi'|by constructor].
Qed.

(** ** HARQ-ACKs *)
Definition expects_ack (slot : slot_point) (dai : Z) (h : dl_harq_process) : Prop :=
  slot_eqb (h_slot_ack h) slot = true /\ exists tb, h_tbs h !! 0%nat = Some tb /\ tb_st tb <> tb_empty /\ tb_dai tb = dai.

Lemma dl_ack_loop_cons num slot ack dai i c h hs : dl_inv num h ->
  (expects_ack slot dai h -> exists h', dl_ack_info_tb h 0 ack = Some (true, h') /\ dl_ack_loop slot ack dai i c (h :: hs) = Some (Some i, h' :: hs))
  /\ (~ expects_ack slot dai h -> exists c', dl_ack_loop slot ack dai i c (h :: hs) = (let* (r, hs) := dl_ack_loop slot ack dai (S i) c' hs in Some (r, h :: hs))).
Proof.
  intros Hi. cbn [dl_ack_loop]. destruct (dl_tb0 num h Hi) as (t0 & t1 & Ht & _ & _). rewrite (dl_empty_spec num h t0 t1 Hi Ht).
  unfold expects_ack, harq_tb. rewrite Ht. cbn [lookup list_lookup]. split.
  - intros (-> & tb & [= ->] & Hne & <-). assert (tb_is_empty tb = false) as E by (apply not_true_iff_false; by rewrite tb_is_empty_spec).
    rewrite E, Z.eqb_refl. destruct (dl_ack_info_ok num h ack Hi) as (r & h' & Hack & _). rewrite Hack. exists h'. split; [|done].
    destruct r; [done|]. exfalso. revert Hack. unfold dl_ack_info_tb, harq_tb_empty, harq_tb. rewrite Ht. cbn [lookup list_lookup]. rewrite E.
    destruct (decide (ack = harq_dtx)); [rewrite decide_True by done; by destruct (decide _)|]. destruct (ack_info_common _ _ _) as [[? ?]|]; [|done].
    destruct (h_tbs _ !! 0%nat); [|done]. destruct (_ && _); [|done]. by destruct (da_tb _ !! 0%nat) as [[]|].
  - intros Hno. destruct (slot_eqb _ _) eqn:Es; [|by exists c]. destruct (tb_is_empty t0) eqn:E; [by exists (Some i)|].
    destruct (tb_dai t0 =? dai) eqn:Ed; [|by exists (Some i)]. breflect. destruct Hno. split; [done|]. exists t0. split_and!; [done| |done].
    intros H. apply tb_is_empty_spec in H. congruence.
Qed.

Lemma dl_ack_loop_hit num slot ack dai hs1 h hs2 : forall i c, Forall (dl_inv num) (hs1 ++ h :: hs2) -> Forall (fun h => ~ expects_ack slot dai h) hs1 ->
  expects_ack slot dai h -> exists h', dl_ack_info_tb h 0 ack = Some (true, h')
    /\ dl_ack_loop slot ack dai i c (hs1 ++ h :: hs2) = Some (Some (i + length hs1)%nat, hs1 ++ h' :: hs2).
Proof.
  induction hs1 as [|h1 hs1 IH]; intros i c Hall Hno Hex; apply Forall_cons_1 in Hall as [H1 Hall].
  - destruct (dl_ack_loop_cons num slot ack dai i c h hs2 H1) as [Hhit _]. destruct (Hhit Hex) as (h' & Hack & He). exists h'. split; [done|].
    cbn [app length]. by rewrite Nat.add_0_r.
  - apply Forall_cons_1 in Hno as [Hn1 Hno]. destruct (dl_ack_loop_cons num slot ack dai i c h1 (hs1 ++ h :: hs2) H1) as [_ Hmiss]. destruct (Hmiss Hn1) as [c' He].
    destruct (IH (S i) c' Hall Hno Hex) as (h' & Hack & He'). exists h'. split; [done|]. cbn [app length]. rewrite He, He'. do 3 f_equal. lia.
Qed.
Lemma dl_ack_loop_miss num slot ack dai hs : forall i c, Forall (dl_inv num) hs -> Forall (fun h => ~ expects_ack slot dai h) hs ->
  exists r, dl_ack_loop slot ack dai i c hs = Some (r, hs).
Proof.
  induction hs as [|h hs IH]; intros i c Hall Hno; [by eexists|]. apply Forall_cons_1 in Hall as [H1 Hall]. apply Forall_cons_1 in Hno as [Hn1 Hno].
  destruct (dl_ack_loop_cons num slot ack dai i c h hs H1) as [_ Hmiss]. destruct (Hmiss Hn1) as [c' ->]. destruct (IH (S i) c' Hall Hno) as [r ->]. by eexists.
Qed.

(** The state of a transport block after a HARQ-ACK. *)
Definition tb_after_ack (tb : transport_block) (ack : harq_ack_status) : tb_state :=
  match ack with
  | harq_ack => tb_empty
  | harq_nack => if tb_nof_retxs tb <? tb_max_nof_harq_retxs tb then tb_pending_retx else tb_empty
  | harq_dtx => tb_st tb
  end.
Lemma dl_ack_info_state h t0 t1 ack h' : h_tbs h = [t0; t1] -> tb_st t0 <> tb_empty -> dl_ack_info_tb h 0 ack = Some (true, h') ->
  h_tbs h' = [tb_set_state t0 (tb_after_ack t0 ack); t1].
Proof.
  intros Ht Hne. unfold dl_ack_info_tb, ack_info_common, harq_tb_empty, harq_tb.
  assert (tb_is_empty t0 = false) as E by (apply not_true_iff_false; by rewrite tb_is_empty_spec).
  cbn [with_ack_wait h_tbs]. rewrite Ht. cbn [lookup list_lookup]. rewrite E. destruct ack.
  - rewrite decide_False by done. cbn. destruct (tb_nof_retxs t0 <? _); cbn; [by intros [= <-]|]. destruct (da_tb _) as [|[] ?]; [done| |done]. by intros [= <-].
  - rewrite decide_False by done. cbn. by intros [= <-].
  - rewrite !decide_True by done. intros [= <-]. replace (tb_set_state t0 _) with t0 by (by destruct t0). by destruct (decide _).
Qed.

(** HARQ-ACKs reach the process they are for.  In every reachable state, when at most one active downlink process
    expects a HARQ-ACK in that slot with that assignment index, exactly that process is updated: an ACK empties it, a
    NACK makes it pending for retransmission or discards it after the last one, a DTX leaves the block; all other
    processes keep their state, and without such a process nothing changes. *)
Theorem harq_ack_reaches_its_process nof_dl nof_ul max_wait num e log slot ack dai :
  ack_timeout_ok max_wait -> harq_reach nof_dl nof_ul max_wait num e log -> dai < 4 ->
  (forall i j hi hj, he_dl e !! i = Some hi -> he_dl e !! j = Some hj -> expects_ack slot dai hi -> expects_ack slot dai hj -> i = j) ->
  (forall i h, he_dl e !! i = Some h -> expects_ack slot dai h ->
     exists h' t0 t1, h_tbs h = [t0; t1] /\ h_tbs h' = [tb_set_state t0 (tb_after_ack t0 ack); t1]
       /\ entity_dl_ack_info e slot ack dai = Some (Some i, HarqEntity (he_slot_tx e) (<[i := h']> (he_dl e)) (he_ul e)))
  /\ ((forall i h, he_dl e !! i = Some h -> ~ expects_ack slot dai h) -> exists c, entity_dl_ack_info e slot ack dai = Some (c, e)).
Proof.
  intros Hw Hr Hdai Huniq. destruct (harq_reach_inv _ _ _ _ _ _ Hw Hr) as [[_ _ Hdl _] _]. unfold entity_dl_ack_info.
  rewrite (proj2 (Z.ltb_lt dai 4)) by done. cbn [negb]. split.
  - intros i h Hh Hex. pose proof (Forall_lookup_1 _ _ _ _ Hdl Hh) as Hi. destruct (dl_tb0 num h Hi) as (t0 & t1 & Ht & _ & _).
    assert (tb_st t0 <> tb_empty) as Hne by (destruct Hex as (_ & tb & Htb & Hne & _); rewrite Ht in Htb; by injection Htb as ->).
    apply list_elem_of_split_length in Hh as (hs1 & hs2 & Hsplit & Hlen). rewrite Hsplit in Hdl, Huniq |- *.
    destruct (dl_ack_loop_hit num slot ack dai hs1 h hs2 0 None Hdl) as (h' & Hack & ->); [|done|].
    { apply Forall_lookup_2. intros j hj Hj Hexj. assert (j < length hs1)%nat as Hjl by (by eapply lookup_lt_Some).
      assert (j = i) as ->; [|lia]. apply (Huniq j i hj h); [by rewrite lookup_app_l| |done|done]. rewrite Hlen. by rewrite list_lookup_middle. }
    exists h', t0, t1. split; [done|]. split; [by eapply dl_ack_info_state|]. do 3 f_equal; [lia|]. rewrite Hlen. f_equal.
    unfold dl_harq_process in *. by rewrite insert_app_r_alt, Nat.sub_diag by lia.
  - intros Hno. destruct (dl_ack_loop_miss num slot ack dai (he_dl e) 0 None Hdl) as [r ->].
    + apply Forall_lookup_2. intros i h Hh. by apply (Hno i).
    + exists r. by destruct e.
Qed.

(** *** Two transport blocks *)
Lemma single_ack s (h : dl_harq_process) t0 t1 ack dai : dai < 4 -> h_tbs h = [t0; t1] ->
  entity_dl_ack_info (HarqEntity s [h] []) (h_slot_ack h) ack dai =
    if tb_is_empty t0 then if tb_is_empty t1 then Some (Some 0%nat, HarqEntity s [h] []) else None
    else if tb_dai t0 =? dai then let* (_, h) := dl_ack_info_tb h 0 ack in Some (Some 0%nat, HarqEntity s [h] [])
    else Some (Some 0%nat, HarqEntity s [h] []).
Proof.
  intros Hd Ht. unfold entity_dl_ack_info. rewrite (proj2 (Z.ltb_lt dai 4)) by done. cbn [negb he_dl he_ul he_slot_tx dl_ack_loop].
  unfold slot_eqb. rewrite !Z.eqb_refl. unfold dl_harq_empty, harq_tb_empty, harq_tb. rewrite Ht. cbn.
  destruct (tb_is_empty t0), (tb_is_empty t1); try done; destruct (_ =? _); try done; by destruct (dl_ack_info_tb h 0 ack) as [[]|].
Qed.

(** A HARQ-ACK of a process with two transport blocks: after both blocks were sent and the first one was acknowledged,
    a second HARQ-ACK for the same slot fails the assertion of [tb(0)], because [empty()] only holds when both blocks are
    empty. *)
Theorem harq_second_block_fails_assertion s k1 m dai id w : dai < 4 ->
  exists h, dl_tx_2_tb (harq_process_new 2 dl_alloc_default id w) s k1 [req_newtx; req_newtx] m dai = Some h
  /\ exists h', entity_dl_ack_info (HarqEntity s [h] []) (slot_add s k1) harq_ack dai = Some (Some 0%nat, HarqEntity s [h'] [])
       /\ entity_dl_ack_info (HarqEntity s [h'] []) (slot_add s k1) harq_ack dai = None.
Proof.
  intros Hd. set (t := TransportBlock tb_waiting_ack true 0 m dai). set (a := DlAlloc 0 (vrb_type1 0 0) 0 [Some tb_params_default; Some tb_params_default]).
  set (h1 := HarqProcess id w w s (slot_add s k1) [t; t] a). set (h2 := HarqProcess id w w s (slot_add s k1) [tb_set_state t tb_empty; t] a).
  exists h1. split; [reflexivity|]. exists h2. split.
  - change (slot_add s k1) with (h_slot_ack h1). rewrite (single_ack s h1 t t harq_ack dai Hd eq_refl). cbn [t tb_is_empty tb_st tb_dai].
    by rewrite Z.eqb_refl.
  - change (slot_add s k1) with (h_slot_ack h2). by rewrite (single_ack s h2 (tb_set_state t tb_empty) t harq_ack dai Hd eq_refl).
Qed.
Lemma harq_second_block_fails_assertion_witness :
  exists h, dl_tx_2_tb (harq_process_new 2 dl_alloc_default 0 256) (SlotPoint 0 5) 4 [req_newtx; req_newtx] 4 1 = Some h
  /\ exists h', entity_dl_ack_info (HarqEntity (SlotPoint 0 5) [h] []) (slot_add (SlotPoint 0 5) 4) harq_ack 1 = Some (Some 0%nat, HarqEntity (SlotPoint 0 5) [h'] [])
       /\ entity_dl_ack_info (HarqEntity (SlotPoint 0 5) [h'] []) (slot_add (SlotPoint 0 5) 4) harq_ack 1 = None.
Proof. apply (harq_second_block_fails_assertion (SlotPoint 0 5) 4 4 1 0 256). lia. Defined.

(** ** Examples *)
Definition harq_demo_pdsch : pdsch_information := PdschInfo [TbParams 0 5 100] (vrb_type1 0 10) 12.
Definition harq_demo_pusch : pusch_information := PuschInfo 0 5 80 (vrb_type1 0 10).
Fixpoint harq_run (e : harq_entity) (log : list harq_tx) (ops : list harq_op) : option (harq_entity * list harq_tx) :=
  match ops with
  | [] => Some (e, log)
  | op :: ops => let* (e, out) := harq_exec e op in harq_run e (log ++ out) ops
  end.
Definition harq_demo_start : harq_entity := default (harq_entity_new 0 0 0) (fst <$> entity_slot_indication (harq_entity_new 2 1 256) (SlotPoint 1 20470)).
Definition harq_demo_ops : list harq_op :=
  [hop_dl_tx 0 0 4 1 2 5 harq_demo_pdsch; hop_ul_tx 0 4 2 1 harq_demo_pusch; hop_slot; hop_dl_ack (SlotPoint 1 20474) harq_nack 2;
   hop_dl_tx 0 0 4 1 1 5 harq_demo_pdsch].
Definition harq_demo : harq_entity := default harq_demo_start (fst <$> harq_run harq_demo_start [] harq_demo_ops).
Definition harq_demo_log : list harq_tx := default [] (snd <$> harq_run harq_demo_start [] harq_demo_ops).

Lemma harq_run_reach nd nu w num ops : forall e log e' log', harq_reach nd nu w num e log ->
  (fix ok e ops := match ops with [] => True | op :: ops => harq_op_ok e op /\ match harq_exec e op with Some (e, _) => ok e ops | None => False end end) e ops ->
  harq_run e log ops = Some (e', log') -> harq_reach nd nu w num e' log'.
Proof.
  induction ops as [|op ops IH]; intros e log e' log' Hr Hok Hrun; cbn in Hrun; [by injection Hrun as <- <-|]. destruct Hok as [Hop Hok].
  destruct (harq_exec e op) as [[e1 out]|] eqn:E; [|done]. by apply (IH e1 (log ++ out)); [eapply hr_step| |].
Qed.
Lemma harq_demo_reach : harq_reach 2 1 256 1 harq_demo harq_demo_log.
Proof.
  apply (harq_run_reach 2 1 256 1 harq_demo_ops harq_demo_start []).
  - apply (hr_init _ _ _ _ (SlotPoint 1 20470)); [split; vm_compute; split; congruence|reflexivity|vm_compute; reflexivity].
  - vm_compute. split_and!; try done.
    + eexists _, _, _. split; [reflexivity|]. split; [reflexivity|]. split; [done|]. split; [reflexivity|]. split_and!; done.
    + eexists _, _. split; [reflexivity|]. split; [reflexivity|]. split_and!; done.
    + eexists _, _, _. split; [reflexivity|]. split; [reflexivity|]. split; [done|]. split; [reflexivity|]. split_and!; try done.
      intros _. split; [done|]. intros p Hp. by injection Hp as <-.
  - vm_compute. reflexivity.
Qed.

Lemma harq_run_safe_witness :
  exists e' out, harq_exec harq_demo (hop_dl_ack (SlotPoint 1 20475) harq_ack 1) = Some (e', out).
Proof.
  destruct (harq_run_safe 2 1 256 1 harq_demo harq_demo_log) as (H & _); [split; vm_compute; congruence|exact harq_demo_reach|].
  apply H. vm_compute. reflexivity.
Defined.
Lemma harq_ndi_tells_new_data_witness :
  map ht_new (txs_of true 0 harq_demo_log) = [true; false]
  /\ forall t l', txs_of true 0 harq_demo_log = t :: l' -> ht_new t = ht_ndi t.
Proof.
  destruct (harq_ndi_tells_new_data 2 1 256 1 harq_demo harq_demo_log true 0) as (H & _);
    [split; vm_compute; congruence|exact harq_demo_reach|vm_compute; lia|].
  split; [vm_compute; reflexivity|exact H].
Defined.
Lemma harq_timeout_on_time_witness :
  let h := HarqProcess 0 256 256 (SlotPoint 1 20471) (SlotPoint 1 20475) [TransportBlock tb_waiting_ack true 1 1 1; tb_default]
             (DlAlloc 5 (vrb_type1 0 10) 12 [Some (TbParams 0 5 100); None]) in
  harq_slots true 259 h (SlotPoint 1 20471) = Some (h, [])
  /\ harq_slots true 260 h (SlotPoint 1 20471) = Some (with_tbs h [TransportBlock tb_empty true 1 1 1; tb_default], [true]).
Proof.
  intros h. assert (dl_inv 1 h) as Hi.
  { split.
    - split; cbn; [done|repeat constructor; cbn; try lia; done|split; vm_compute; congruence|by left|].
      intros i tb _ _. split; [split; vm_compute; split; congruence|done].
    - cbn. by intros t [= <-].
    - cbn. intros t _ _. by eexists _, _. }
  assert (slot_ok (SlotPoint 1 20471)) as Hs by (split; vm_compute; split; congruence).
  split.
  - destruct (harq_timeout_on_time 1 h (SlotPoint 1 20471) (TransportBlock tb_waiting_ack true 1 1 1) tb_default 4 259 Hi Hs) as [H _];
      [reflexivity|reflexivity|reflexivity|reflexivity|lia|exact H].
  - destruct (harq_timeout_on_time 1 h (SlotPoint 1 20471) (TransportBlock tb_waiting_ack true 1 1 1) tb_default 4 260 Hi Hs) as [H _];
      [reflexivity|reflexivity|reflexivity|reflexivity|lia|exact H].
Defined.
Lemma harq_ack_reaches_its_process_witness :
  exists h' t0 t1, h_tbs h' = [tb_set_state t0 tb_empty; t1] /\ entity_dl_ack_info harq_demo (SlotPoint 1 20475) harq_ack 1
    = Some (Some 0%nat, HarqEntity (he_slot_tx harq_demo) (<[0%nat := h']> (he_dl harq_demo)) (he_ul harq_demo)).
Proof.
  destruct (harq_ack_reaches_its_process 2 1 256 1 harq_demo harq_demo_log (SlotPoint 1 20475) harq_ack 1) as [H _];
    [split; vm_compute; congruence|exact harq_demo_reach|lia| |].
  - intros i j hi hj Hi Hj Ei Ej. destruct Ei as [Ei _], Ej as [Ej _]. vm_compute in Hi, Hj.
    destruct i as [|[|i]]; [|injection Hi as <-; by vm_compute in Ei|done]. destruct j as [|[|j]]; [done|injection Hj as <-; by vm_compute in Ej|done].
  - destruct (lookup_lt_is_Some_2 (he_dl harq_demo) 0) as [h Hh]; [vm_compute; lia|]. destruct (H 0%nat h Hh) as (h' & t0 & t1 & _ & H1 & H2).
    + vm_compute in Hh. injection Hh as <-. split; [reflexivity|]. eexists. split; [reflexivity|]. by split.
    + exists h', t0, t1. split; [exact H1|exact H2].
Defined.
