(* ===== verification/LcMgr.v ===== *)
(** * Logical channels in the scheduler

    The buffer states of the logical channels of a UE, and how the scheduler divides
    a transport block among them: dl_logical_channel_manager and
    ul_logical_channel_manager (lib/scheduler/ue_scheduling), and the methods of the
    scheduler's UE that use them (ue.cpp). *)
From S2P Require Import Prelude SlotPoint Harq MacDl.

(** ** Downlink logical channels *)
Definition MAX_NOF_RB_LCIDS : nat := 33.
Definition MAX_LC_PER_TB : nat := 4.
Definition FIXED_SIZED_MAC_CE_SUBHEADER_SIZE : Z := 1.
Definition DL_MIN_RESERVED : Z := 33.

(** [lcid_dl_sch_t::sizeof_ce] *)
Definition dl_sizeof_ce (lcid : Z) : Z :=
  if lcid =? 57 then 4 else if lcid =? 58 then 1 else if (lcid =? 59) || (lcid =? 60) then 0
  else if lcid =? 61 then 1 else if lcid =? 62 then 6 else 0.
Definition dl_is_var_len_ce (lcid : Z) : bool := false.

Record channel_context := Channel { ch_active : bool; ch_buf_st : Z }.
Record dl_logical_channel_manager := DlLcMgr { dm_channels : list channel_context; dm_con_res_id : bool; dm_ces : list Z }.

Definition dm_with_channels (m : dl_logical_channel_manager) (l : list channel_context) : dl_logical_channel_manager := DlLcMgr l (dm_con_res_id m) (dm_ces m).

Definition dl_set_status (m : dl_logical_channel_manager) (lcid : nat) (active : bool) : option dl_logical_channel_manager :=
  let* c := dm_channels m !! lcid in Some (dm_with_channels m (<[lcid := Channel active (ch_buf_st c)]> (dm_channels m))).
Definition dl_lc_mgr_new : option dl_logical_channel_manager :=
  dl_set_status (DlLcMgr (replicate MAX_NOF_RB_LCIDS (Channel false 0)) false []) 0 true.
Fixpoint dl_set_statuses (m : dl_logical_channel_manager) (lcids : list nat) (active : bool) : option dl_logical_channel_manager :=
  match lcids with [] => Some m | lcid :: lcids => let* m := dl_set_status m lcid active in dl_set_statuses m lcids active end.
Definition dl_configure (m : dl_logical_channel_manager) (lcids : list nat) : option dl_logical_channel_manager :=
  let l := dm_channels m in
  dl_set_statuses (dm_with_channels m (take 1 l ++ map (fun c => Channel false (ch_buf_st c)) (drop 1 l))) lcids true.

Definition channel_pending (c : channel_context) : Z := if ch_active c then get_mac_sdu_required_bytes (ch_buf_st c) else 0.
(** [pending_bytes(lcid)], [pending_ce_bytes], [pending_bytes], [pending_ue_con_res_id_ce_bytes] and [has_pending_bytes] *)
Definition dl_pending_lcid (m : dl_logical_channel_manager) (lcid : nat) : option Z := let* c := dm_channels m !! lcid in Some (channel_pending c).
Definition ce_bytes (ce : Z) : Z :=
  if dl_is_var_len_ce ce then get_mac_sdu_required_bytes (dl_sizeof_ce ce) else FIXED_SIZED_MAC_CE_SUBHEADER_SIZE + dl_sizeof_ce ce.
Definition dl_pending_ce_bytes (m : dl_logical_channel_manager) : Z := foldl (fun b ce => u32 (b + ce_bytes ce)) 0 (dm_ces m).
Definition dl_pending_bytes (m : dl_logical_channel_manager) : Z := foldl (fun b c => u32 (b + channel_pending c)) (dl_pending_ce_bytes m) (drop 1 (dm_channels m)).
Definition dl_pending_con_res_bytes (m : dl_logical_channel_manager) : Z :=
  if dm_con_res_id m then FIXED_SIZED_MAC_CE_SUBHEADER_SIZE + dl_sizeof_ce UE_CON_RES_ID else 0.
Definition dl_has_pending_bytes (m : dl_logical_channel_manager) : bool :=
  negb (bool_decide (dm_ces m = [])) || existsb (fun c => ch_active c && (0 <? ch_buf_st c)) (drop 1 (dm_channels m)).

Definition handle_dl_buffer_status_indication (m : dl_logical_channel_manager) (lcid : nat) (buffer_status : Z) : option dl_logical_channel_manager :=
  let* c := dm_channels m !! lcid in Some (dm_with_channels m (<[lcid := Channel (ch_active c) buffer_status]> (dm_channels m))).
Definition handle_mac_ce_indication (m : dl_logical_channel_manager) (ce : Z) : dl_logical_channel_manager :=
  if ce =? UE_CON_RES_ID then DlLcMgr (dm_channels m) true (dm_ces m) else DlLcMgr (dm_channels m) (dm_con_res_id m) (dm_ces m ++ [ce]).

(** ** Allocation of a transport block

    A subPDU is its LCID with the scheduled bytes. *)
Definition get_mac_sdu_size (sdu_and_subheader_bytes : Z) : Z :=
  if sdu_and_subheader_bytes =? 0 then 0
  else
    let sdu_size := u32 (sdu_and_subheader_bytes - MIN_MAC_SDU_SUBHEADER_SIZE) in
    if sdu_size <? MAC_SDU_SUBHEADER_LENGTH_THRES then sdu_size else sdu_size - 1.

Definition get_max_prio_lcid (m : dl_logical_channel_manager) : option nat :=
  fst <$> list_find (fun c => ch_active c = true /\ 0 < ch_buf_st c) (dm_channels m).

(** [allocate_mac_sdu(subpdu, lcid, rem_bytes)]; the subPDU is unchanged when nothing is allocated. *)
Definition allocate_mac_sdu_lcid (m : dl_logical_channel_manager) (subpdu : Z * Z) (lcid : nat) (rem_bytes : Z) : option (Z * (Z * Z) * dl_logical_channel_manager) :=
  let* c := dm_channels m !! lcid in
  let lch_bytes := channel_pending c in
  if (lch_bytes =? 0) || (rem_bytes <=? MIN_MAC_SDU_SUBHEADER_SIZE) then Some (0, subpdu, m)
  else
    let alloc_bytes := Z.min rem_bytes lch_bytes in
    let leftover_bytes := rem_bytes - alloc_bytes in
    let alloc_bytes := if (0 <? leftover_bytes) && ((leftover_bytes <=? MAX_MAC_SDU_SUBHEADER_SIZE) || (dl_pending_bytes m =? 0))
                       then alloc_bytes + leftover_bytes else alloc_bytes in
    let alloc_bytes := if alloc_bytes =? MAC_SDU_SUBHEADER_LENGTH_THRES + MIN_MAC_SDU_SUBHEADER_SIZE then alloc_bytes - 1 else alloc_bytes in
    let sdu_size := get_mac_sdu_size alloc_bytes in
    let c' := Channel (ch_active c) (ch_buf_st c - Z.min sdu_size (ch_buf_st c)) in
    Some (alloc_bytes, (Z.of_nat lcid, sdu_size), dm_with_channels m (<[lcid := c']> (dm_channels m))).
Definition allocate_mac_sdu (m : dl_logical_channel_manager) (rem_bytes : Z) : option (Z * (Z * Z) * dl_logical_channel_manager) :=
  match get_max_prio_lcid m with
  | None => Some (0, (DL_MIN_RESERVED, 0), m)
  | Some lcid => allocate_mac_sdu_lcid m (DL_MIN_RESERVED, 0) lcid rem_bytes
  end.
Definition allocate_mac_ce (m : dl_logical_channel_manager) (rem_bytes : Z) : Z * (Z * Z) * dl_logical_channel_manager :=
  match dm_ces m with
  | [] => (0, (DL_MIN_RESERVED, 0), m)
  | lcid :: ces =>
      let alloc_bytes := if dl_is_var_len_ce lcid then get_mac_sdu_required_bytes (dl_sizeof_ce lcid) else dl_sizeof_ce lcid + FIXED_SIZED_MAC_CE_SUBHEADER_SIZE in
      let alloc_bytes := if rem_bytes <? alloc_bytes then 0 else alloc_bytes in
      if 0 <? alloc_bytes then (alloc_bytes, (lcid, dl_sizeof_ce lcid), DlLcMgr (dm_channels m) (dm_con_res_id m) ces)
      else (alloc_bytes, (DL_MIN_RESERVED, 0), m)
  end.
Definition allocate_con_res_id_ce (m : dl_logical_channel_manager) (rem_bytes : Z) : Z * (Z * Z) * dl_logical_channel_manager :=
  if negb (dm_con_res_id m) then (0, (DL_MIN_RESERVED, 0), m)
  else
    let alloc_bytes := dl_sizeof_ce UE_CON_RES_ID + FIXED_SIZED_MAC_CE_SUBHEADER_SIZE in
    let alloc_bytes := if rem_bytes <? alloc_bytes then 0 else alloc_bytes in
    if 0 <? alloc_bytes then (alloc_bytes, (UE_CON_RES_ID, dl_sizeof_ce UE_CON_RES_ID), DlLcMgr (dm_channels m) false (dm_ces m))
    else (alloc_bytes, (DL_MIN_RESERVED, 0), m).

(** The loops; the list of subPDUs of a transport block holds at most [MAX_LC_PER_TB], which bounds them. *)
Fixpoint allocate_mac_sdus_loop (fuel : nat) (tb_info : list (Z * Z)) (m : dl_logical_channel_manager) (rem_tbs : Z) : option (Z * list (Z * Z) * dl_logical_channel_manager) :=
  match fuel with
  | O => None
  | S fuel =>
      if (rem_tbs <=? MAX_MAC_SDU_SUBHEADER_SIZE) || bool_decide (MAX_LC_PER_TB <= length tb_info)%nat then Some (rem_tbs, tb_info, m)
      else
        let* (alloc_bytes, subpdu, m) := allocate_mac_sdu m rem_tbs in
        if alloc_bytes =? 0 then Some (rem_tbs, tb_info, m)
        else allocate_mac_sdus_loop fuel (tb_info ++ [subpdu]) m (u32 (rem_tbs - alloc_bytes))
  end.
Definition allocate_mac_sdus (tb_info : list (Z * Z)) (m : dl_logical_channel_manager) (total_tbs : Z) : option (Z * list (Z * Z) * dl_logical_channel_manager) :=
  let* (rem_tbs, tb_info, m) := allocate_mac_sdus_loop (S MAX_LC_PER_TB) tb_info m total_tbs in
  Some (u32 (total_tbs - rem_tbs), tb_info, m).
Fixpoint allocate_mac_ces_loop (fuel : nat) (tb_info : list (Z * Z)) (m : dl_logical_channel_manager) (rem_tbs : Z) : option (Z * list (Z * Z) * dl_logical_channel_manager) :=
  match fuel with
  | O => None
  | S fuel =>
      if bool_decide (dm_ces m = []) || bool_decide (MAX_LC_PER_TB <= length tb_info)%nat then Some (rem_tbs, tb_info, m)
      else
        let '(alloc_bytes, subpdu, m) := allocate_mac_ce m rem_tbs in
        if alloc_bytes =? 0 then Some (rem_tbs, tb_info, m)
        else allocate_mac_ces_loop fuel (tb_info ++ [subpdu]) m (u32 (rem_tbs - alloc_bytes))
  end.
Definition allocate_mac_ces (tb_info : list (Z * Z)) (m : dl_logical_channel_manager) (total_tbs : Z) : option (Z * list (Z * Z) * dl_logical_channel_manager) :=
  let* (rem_tbs, tb_info, m) := allocate_mac_ces_loop (S MAX_LC_PER_TB) tb_info m total_tbs in
  Some (u32 (total_tbs - rem_tbs), tb_info, m).
Definition allocate_con_res_id (tb_info : list (Z * Z)) (m : dl_logical_channel_manager) (total_tbs : Z) : Z * list (Z * Z) * dl_logical_channel_manager :=
  if bool_decide (MAX_LC_PER_TB <= length tb_info)%nat then (0, tb_info, m)
  else
    let '(alloc_bytes, subpdu, m) := allocate_con_res_id_ce m total_tbs in
    if negb (alloc_bytes =? 0) then (u32 (total_tbs - u32 (total_tbs - alloc_bytes)), tb_info ++ [subpdu], m) else (0, tb_info, m).

(** [build_dl_transport_block_info] and [build_dl_srb0_transport_block_info] *)
Definition build_dl_transport_block_info (tb_info : list (Z * Z)) (m : dl_logical_channel_manager) (tb_size_bytes : Z) : option (Z * list (Z * Z) * dl_logical_channel_manager) :=
  let* (n, tb_info, m) := allocate_mac_ces tb_info m tb_size_bytes in
  let* (n', tb_info, m) := allocate_mac_sdus tb_info m (u32 (tb_size_bytes - n)) in
  Some (u32 (n + n'), tb_info, m).
Definition build_dl_srb0_transport_block_info (tb_info : list (Z * Z)) (m : dl_logical_channel_manager) (tb_size_bytes : Z) : option (Z * list (Z * Z) * dl_logical_channel_manager) :=
  let '(n, tb_info, m) := allocate_con_res_id tb_info m tb_size_bytes in
  let* (n', tb_info, m) := allocate_mac_sdus tb_info m (u32 (tb_size_bytes - n)) in
  Some (u32 (n + n'), tb_info, m).
Definition pending_dl_srb0_newtx_bytes (m : dl_logical_channel_manager) : option Z :=
  let* b := dl_pending_lcid m 0 in Some (if 0 <? b then u32 (b + dl_pending_con_res_bytes m) else b).

(** ** Uplink logical channel groups *)
Record ul_logical_channel_manager := UlLcMgr { um_groups : list channel_context; um_sr_pending : bool }.

(** [set_status] does not use its argument [active]. *)
Definition ul_set_status (u : ul_logical_channel_manager) (lcg : nat) (active : bool) : option ul_logical_channel_manager :=
  let* c := um_groups u !! lcg in Some (UlLcMgr (<[lcg := Channel true (ch_buf_st c)]> (um_groups u)) (um_sr_pending u)).
Definition ul_lc_mgr_new : option ul_logical_channel_manager := ul_set_status (UlLcMgr (replicate 8 (Channel false 0)) false) 0 true.
Fixpoint ul_set_statuses (u : ul_logical_channel_manager) (lcgs : list nat) (active : bool) : option ul_logical_channel_manager :=
  match lcgs with [] => Some u | lcg :: lcgs => let* u := ul_set_status u lcg active in ul_set_statuses u lcgs active end.
Definition ul_configure (u : ul_logical_channel_manager) (lcgs : list nat) : option ul_logical_channel_manager :=
  let l := um_groups u in
  ul_set_statuses (UlLcMgr (take 1 l ++ map (fun c => Channel false (ch_buf_st c)) (drop 1 l)) (um_sr_pending u)) lcgs true.
Definition ul_has_pending_bytes (u : ul_logical_channel_manager) : bool := existsb (fun c => ch_active c && (0 <? ch_buf_st c)) (um_groups u).

Definition add_upper_layer_header_bytes (lcg : nat) (payload_bytes : Z) : Z :=
  if (payload_bytes =? 0) || (lcg =? 0)%nat then payload_bytes else u32 (payload_bytes + 3).
Definition ul_group_pending (lcg : nat) (c : channel_context) : Z :=
  if ch_active c then get_mac_sdu_required_bytes (add_upper_layer_header_bytes lcg (ch_buf_st c)) else 0.
Fixpoint ul_pending_loop (lcg : nat) (groups : list channel_context) (bytes : Z) : Z :=
  match groups with [] => bytes | c :: groups => ul_pending_loop (S lcg) groups (u32 (bytes + ul_group_pending lcg c)) end.
Definition ul_pending_bytes (u : ul_logical_channel_manager) : Z := ul_pending_loop 0 (um_groups u) 0.

Fixpoint handle_bsr_indication (u : ul_logical_channel_manager) (reported_lcgs : list (Z * Z)) : option ul_logical_channel_manager :=
  match reported_lcgs with
  | [] => Some u
  | (lcg, nof_bytes) :: l =>
      let* c := um_groups u !! Z.to_nat lcg in
      handle_bsr_indication (UlLcMgr (<[Z.to_nat lcg := Channel (ch_active c) nof_bytes]> (um_groups u)) (um_sr_pending u)) l
  end.
Definition handle_sr_indication (u : ul_logical_channel_manager) : ul_logical_channel_manager := UlLcMgr (um_groups u) true.
Definition reset_sr_indication (u : ul_logical_channel_manager) : ul_logical_channel_manager := UlLcMgr (um_groups u) false.

(** [ue::pending_ul_newtx_bytes]: one list of uplink HARQ processes per cell of the UE. *)
Definition SR_GRANT_BYTES : Z := 512.
Fixpoint ul_harq_bytes (hs : list ul_harq_process) (bytes : Z) : option Z :=
  match hs with
  | [] => Some bytes
  | h :: hs =>
      let* e := harq_tb_empty h 0 in
      ul_harq_bytes hs (if e : bool then bytes else u32 (bytes + ua_tbs_bytes (h_params h)))
  end.
Fixpoint subtract_harq_bytes (cells : list (list ul_harq_process)) (pending_bytes : Z) : option Z :=
  match cells with
  | [] => Some pending_bytes
  | hs :: cells =>
      if pending_bytes =? 0 then Some pending_bytes
      else let* b := ul_harq_bytes hs 0 in subtract_harq_bytes cells (pending_bytes - Z.min pending_bytes b)
  end.
Definition pending_ul_newtx_bytes (u : ul_logical_channel_manager) (cells : list (list ul_harq_process)) : option Z :=
  let* b := subtract_harq_bytes cells (ul_pending_bytes u) in
  Some (if 0 <? b then b else if um_sr_pending u then SR_GRANT_BYTES else 0).

(** [ue::deactivate]: the downlink DRBs (LCIDs 4 to 32) and all uplink groups. *)
Definition ue_deactivate (m : dl_logical_channel_manager) (u : ul_logical_channel_manager) : option (dl_logical_channel_manager * ul_logical_channel_manager) :=
  let* m := dl_set_statuses m (seq 4 29) false in
  let* u := ul_set_statuses u (seq 0 8) false in Some (m, u).
