(* ===== verification/LcMgrThms.v ===== *)
(** * Logical channels in the scheduler: properties

    The division of a transport block among the logical channels fits the block,
    follows the priorities and serves everything when there is room; the assembler of
    the MAC can use every grant in full. *)
From Stdlib Require Import Sorting.Sorted.
From S2P Require Import Prelude RlcUmPdu RlcQueues RlcTxUm RlcTxUmThms SlotPoint Harq MacUl MacUlThms MacDl MacDlThms LcMgr.

Definition chan_ok (c : channel_context) : Prop := 0 <= ch_buf_st c < 2 ^ 26.
Definition chan_pending (c : channel_context) : Prop := ch_active c = true /\ 0 < ch_buf_st c.
#[export] Instance chan_pending_dec c : Decision (chan_pending c).
Proof. apply _. Defined.
Record dl_mgr_ok (m : dl_logical_channel_manager) : Prop := {
  dmo_len : length (dm_channels m) = MAX_NOF_RB_LCIDS;
  dmo_chans : Forall chan_ok (dm_channels m);
  dmo_ces : Forall (fun ce => 33 <= ce) (dm_ces m);
}.

(** Bytes of a subPDU with its subheader. *)
Definition subpdu_bytes (x : Z * Z) : Z := if dl_is_sdu x.1 then get_mac_sdu_required_bytes x.2 else x.2 + FIXED_SIZED_MAC_CE_SUBHEADER_SIZE.
Definition subpdus_bytes (l : list (Z * Z)) : Z := foldr (fun x n => subpdu_bytes x + n) 0 l.
Lemma subpdus_bytes_app l1 l2 : subpdus_bytes (l1 ++ l2) = subpdus_bytes l1 + subpdus_bytes l2.
Proof. induction l1 as [|x l1 IH]; cbn; [done|]. unfold subpdus_bytes in *. rewrite IH. lia. Qed.

Lemma required_bytes n : 0 <= n < 2 ^ 31 -> get_mac_sdu_required_bytes n = n + if n =? 0 then 0 else if n <? 256 then 2 else 3.
Proof.
  intros Hn. unfold get_mac_sdu_required_bytes, get_mac_sdu_subheader_size, MAC_SDU_SUBHEADER_LENGTH_THRES, MIN_MAC_SDU_SUBHEADER_SIZE, MAX_MAC_SDU_SUBHEADER_SIZE.
  destruct (n =? 0) eqn:E0; breflect; [subst; done|]. destruct (256 <=? n) eqn:E1, (n <? 256) eqn:E2; breflect; try lia; rewrite u32_id; unfold is_u32; lia.
Qed.
Lemma mac_sdu_size a : 3 <= a < 2 ^ 31 -> get_mac_sdu_size a = if a - 2 <? 256 then a - 2 else a - 3.
Proof.
  intros Ha. unfold get_mac_sdu_size, MIN_MAC_SDU_SUBHEADER_SIZE, MAC_SDU_SUBHEADER_LENGTH_THRES. destruct (a =? 0) eqn:E0; breflect; [lia|].
  rewrite u32_id by (unfold is_u32; lia). destruct (a - 2 <? 256); lia.
Qed.
(** Removing the subheader from an allocation of any size but 258 is exact. *)
Lemma sdu_size_exact a : 3 <= a < 2 ^ 31 -> a <> 258 -> 1 <= get_mac_sdu_size a < a /\ get_mac_sdu_required_bytes (get_mac_sdu_size a) = a.
Proof.
  intros Ha Hne. rewrite mac_sdu_size by done. destruct (a - 2 <? 256) eqn:E1; breflect; (split; [lia|]); rewrite required_bytes by lia; bool_cases; breflect; lia.
Qed.

Definition chan_served (c : channel_context) (n : Z) : channel_context := Channel (ch_active c) (ch_buf_st c - Z.min n (ch_buf_st c)).
Definition chan_update (m : dl_logical_channel_manager) (lcid : nat) (c : channel_context) : dl_logical_channel_manager :=
  dm_with_channels m (<[lcid := c]> (dm_channels m)).

(** The SDUs allocated one after the other: always to the pending channel with the
    lowest LCID, and completely unless at most one byte of the block is left. *)
Inductive sdu_alloc : dl_logical_channel_manager -> Z -> list (Z * Z) -> dl_logical_channel_manager -> Z -> Prop :=
  | sa_nil m rem : sdu_alloc m rem [] m rem
  | sa_cons m rem lcid c n sdus m' rem' : dm_channels m !! lcid = Some c -> chan_pending c ->
      (forall i ci, (i < lcid)%nat -> dm_channels m !! i = Some ci -> ~ chan_pending ci) -> 1 <= n < 2 ^ 31 -> get_mac_sdu_required_bytes n <= rem ->
      (ch_buf_st c <= n \/ rem - get_mac_sdu_required_bytes n <= 1) ->
      sdu_alloc (chan_update m lcid (chan_served c n)) (rem - get_mac_sdu_required_bytes n) sdus m' rem' ->
      sdu_alloc m rem ((Z.of_nat lcid, n) :: sdus) m' rem'.

Lemma max_prio_spec m : match get_max_prio_lcid m with
  | Some lcid => exists c, dm_channels m !! lcid = Some c /\ chan_pending c /\ forall i ci, (i < lcid)%nat -> dm_channels m !! i = Some ci -> ~ chan_pending ci
  | None => forall i ci, dm_channels m !! i = Some ci -> ~ chan_pending ci
  end.
Proof.
  unfold get_max_prio_lcid. destruct (list_find _ (dm_channels m)) as [[i c]|] eqn:E; cbn.
  - apply list_find_Some in E as (Hi & Hp & Hlt). exists c. split_and!; [done|apply Hp..|]. intros j cj Hj Hcj Hpj. by eapply Hlt.
  - apply list_find_None in E. intros i ci Hi Hp. rewrite list.Forall_forall in E. eapply E; [by eapply list_elem_of_lookup_2|done].
Qed.

Lemma allocate_sdu_spec m rem : dl_mgr_ok m -> 3 <= rem < 2 ^ 31 ->
  (exists lcid c n, dm_channels m !! lcid = Some c /\ chan_pending c /\ (forall i ci, (i < lcid)%nat -> dm_channels m !! i = Some ci -> ~ chan_pending ci)
     /\ 1 <= n < 2 ^ 31 /\ get_mac_sdu_required_bytes n <= rem /\ 3 <= get_mac_sdu_required_bytes n
     /\ (ch_buf_st c <= n \/ rem - get_mac_sdu_required_bytes n <= 1)
     /\ (channel_pending c <= rem -> ch_buf_st c <= n)
     /\ (rem - channel_pending c > 3 -> n = ch_buf_st c \/ dl_pending_bytes m = 0)
     /\ allocate_mac_sdu m rem = Some (get_mac_sdu_required_bytes n, (Z.of_nat lcid, n), chan_update m lcid (chan_served c n)))
  \/ (forall i ci, dm_channels m !! i = Some ci -> ~ chan_pending ci) /\ allocate_mac_sdu m rem = Some (0, (DL_MIN_RESERVED, 0), m).
Proof.
  intros [Hlen Hch _] Hrem. unfold allocate_mac_sdu. pose proof (max_prio_spec m) as Hp. destruct (get_max_prio_lcid m) as [lcid|]; [left|right; done].
  destruct Hp as (c & Hc & Hpc & Hlow). pose proof (Forall_lookup_1 _ _ _ _ Hch Hc) as Hb. unfold chan_ok in Hb. destruct Hpc as [Hact Hbuf].
  assert (channel_pending c = ch_buf_st c + if ch_buf_st c <? 256 then 2 else 3) as Hpend.
  { unfold channel_pending. rewrite Hact, required_bytes by lia. destruct (_ =? 0) eqn:E; breflect; lia. }
  unfold allocate_mac_sdu_lcid. rewrite Hc, Hpend. unfold MIN_MAC_SDU_SUBHEADER_SIZE, MAX_MAC_SDU_SUBHEADER_SIZE, MAC_SDU_SUBHEADER_LENGTH_THRES.
  set (lch := ch_buf_st c + _). assert (lch = ch_buf_st c + 2 /\ ch_buf_st c < 256 \/ lch = ch_buf_st c + 3 /\ 256 <= ch_buf_st c) as Hlch
    by (unfold lch; destruct (_ <? 256) eqn:E; breflect; lia).
  destruct ((lch =? 0) || (rem <=? 2)) eqn:E0; [apply orb_true_iff in E0 as [?|?]; breflect; lia|]. cbv zeta.
  set (a1 := if (0 <? rem - Z.min rem lch) && _ then _ else _). set (a := if a1 =? 256 + 2 then a1 - 1 else a1).
  assert (3 <= a1 <= rem /\ Z.min rem lch <= a1) as Ha1 by (unfold a1; destruct (_ && _); lia).
  assert (a1 = rem \/ a1 = lch) as Hor by (unfold a1; destruct (_ && _); lia).
  assert (3 <= a <= rem /\ a <> 258 /\ (a = a1 \/ a1 = 258 /\ a = 257)) as (Ha & Hne & Haa) by (unfold a; clearbody a1; destruct (a1 =? 256 + 2) eqn:E; breflect; lia).
  destruct (sdu_size_exact a ltac:(lia) Hne) as [Hn Hreq]. exists lcid, c, (get_mac_sdu_size a). rewrite Hreq. split_and!; try (done || lia).
  - rewrite mac_sdu_size by lia. clear Hreq Hn. clearbody a lch. destruct (a - 2 <? 256) eqn:Eb; breflect; lia.
  - rewrite Hpend. fold lch. intros Hle. rewrite mac_sdu_size by lia. clear Hreq Hn. clearbody a lch. destruct (a - 2 <? 256) eqn:Eb; breflect; lia.
  - intros Hgt. rewrite Hpend in Hgt. fold lch in Hgt. destruct (decide (dl_pending_bytes m = 0)) as [|Hpb]; [by right|left]. assert (a1 = lch) as Ha1l.
    { unfold a1. clear -Hgt Hpb Hrem Hlch. clearbody lch. rewrite Z.min_r by lia. destruct (_ && _) eqn:E; [|reflexivity]. apply andb_true_iff in E as [_ E]. apply orb_true_iff in E as [E|E]; breflect; lia. }
    assert (a = lch) as -> by (clearbody a; clear Hreq Hn; destruct Haa as [->|[? ->]]; lia).
    rewrite mac_sdu_size by lia. clearbody lch. destruct (lch - 2 <? 256) eqn:Eb; breflect; lia.
Qed.

(** *** The loop over the channels *)
Lemma chan_served_ok c n : chan_ok c -> 0 <= n -> chan_ok (chan_served c n).
Proof. unfold chan_ok, chan_served. cbn. lia. Qed.
Lemma chan_update_ok m lcid c : dl_mgr_ok m -> chan_ok c -> dl_mgr_ok (chan_update m lcid c).
Proof. intros [Hl Hc Hx] Hok. split; cbn; [by rewrite length_insert|by apply Forall_insert|done]. Qed.

Definition nothing_pending (m : dl_logical_channel_manager) : Prop := forall i ci, dm_channels m !! i = Some ci -> ~ chan_pending ci.

Lemma allocate_sdus_loop_spec fuel : forall tb m rem, dl_mgr_ok m -> 0 <= rem < 2 ^ 31 -> (length tb <= MAX_LC_PER_TB)%nat ->
  (MAX_LC_PER_TB - length tb < fuel)%nat ->
  exists sdus m' rem', allocate_mac_sdus_loop fuel tb m rem = Some (rem', tb ++ sdus, m') /\ sdu_alloc m rem sdus m' rem'
    /\ (length (tb ++ sdus) <= MAX_LC_PER_TB)%nat /\ (rem' <= 3 \/ length (tb ++ sdus) = MAX_LC_PER_TB \/ nothing_pending m').
Proof.
  induction fuel as [|fuel IH]; intros tb m rem Hm Hrem Hlen Hfuel; [lia|]. cbn [allocate_mac_sdus_loop].
  destruct ((rem <=? MAX_MAC_SDU_SUBHEADER_SIZE) || bool_decide (MAX_LC_PER_TB <= length tb)%nat) eqn:E0.
  { exists [], m, rem. rewrite app_nil_r. split_and!; [done|constructor|done|]. unfold MAX_MAC_SDU_SUBHEADER_SIZE in E0. apply orb_true_iff in E0 as [E|E]; breflect; lia. }
  unfold MAX_MAC_SDU_SUBHEADER_SIZE in E0. breflect.
  destruct (allocate_sdu_spec m rem Hm ltac:(lia)) as [(lcid & c & n & Hc & Hp & Hlow & Hn & Hle & H3 & Hdis & _ & _ & ->)|[Hno ->]]; cbn.
  2:{ exists [], m, rem. rewrite app_nil_r. split_and!; [done|constructor|done|]. by right; right. }
  destruct (get_mac_sdu_required_bytes n =? 0) eqn:E1; breflect; [lia|]. rewrite u32_id by (unfold is_u32; lia).
  destruct (IH (tb ++ [(Z.of_nat lcid, n)]) (chan_update m lcid (chan_served c n)) (rem - get_mac_sdu_required_bytes n)) as (sdus & m' & rem' & -> & Hsa & Hl & Hstop).
  - apply chan_update_ok; [done|]. apply chan_served_ok; [|lia]. by apply (Forall_lookup_1 _ _ _ _ (dmo_chans _ Hm) Hc).
  - lia.
  - rewrite length_app. cbn [length]. lia.
  - rewrite length_app. cbn [length]. lia.
  - rewrite <-app_assoc in *. cbn [app] in *. exists ((Z.of_nat lcid, n) :: sdus), m', rem'. split_and!; [done| |done|done]. by econstructor.
Qed.

(** *** What an allocation means for the buffer states *)
Definition granted (lcid : nat) (sdus : list (Z * Z)) : Z := foldr (fun x n => (if decide (x.1 = Z.of_nat lcid) then x.2 else 0) + n) 0 sdus.

Lemma sdu_alloc_ok m rem sdus m' rem' : sdu_alloc m rem sdus m' rem' -> dl_mgr_ok m -> 0 <= rem ->
  dl_mgr_ok m' /\ 0 <= rem' /\ rem' = rem - subpdus_bytes sdus /\ Forall (fun x => 0 <= x.1 < 33 /\ 1 <= x.2 < 2 ^ 31) sdus
  /\ dm_ces m' = dm_ces m /\ dm_con_res_id m' = dm_con_res_id m.
Proof.
  induction 1 as [m rem|m rem lcid c n sdus m' rem' Hc Hp Hlow Hn Hle Hdis Hsa IH]; intros Hm Hrem; [split_and!; try done; cbn; lia|].
  assert ((lcid < 33)%nat) as Hlt by (change 33%nat with MAX_NOF_RB_LCIDS; rewrite <-(dmo_len _ Hm); by eapply lookup_lt_Some).
  destruct IH as (Hm' & H0 & Hrem' & HF & Hce & Hcr); [|lia|].
  { apply chan_update_ok; [done|]. apply chan_served_ok; [|lia]. by apply (Forall_lookup_1 _ _ _ _ (dmo_chans _ Hm) Hc). }
  split_and!; [done|done| |constructor; cbn; [lia|done]|done|done]. rewrite Hrem'. change (subpdus_bytes ((Z.of_nat lcid, n) :: sdus)) with (subpdu_bytes (Z.of_nat lcid, n) + subpdus_bytes sdus).
  unfold subpdu_bytes, dl_is_sdu. cbn [fst snd]. destruct ((Z.of_nat lcid <=? 32) && (0 <=? Z.of_nat lcid)) eqn:E; [lia|].
  apply andb_false_iff in E as [E|E]; breflect; lia.
Qed.

Lemma sdu_alloc_buffers m rem sdus m' rem' : sdu_alloc m rem sdus m' rem' -> forall i c, dm_channels m !! i = Some c -> 0 <= ch_buf_st c ->
  dm_channels m' !! i = Some (Channel (ch_active c) (Z.max 0 (ch_buf_st c - granted i sdus))) /\ 0 <= granted i sdus.
Proof.
  induction 1 as [m rem|m rem lcid c n sdus m' rem' Hc Hp Hlow Hn Hle Hdis Hsa IH]; intros i ci Hi H0.
  { cbn. rewrite Hi. destruct ci as [a b]; cbn in *. split; [|lia]. do 2 f_equal. lia. }
  change (granted i ((Z.of_nat lcid, n) :: sdus)) with ((if decide (Z.of_nat lcid = Z.of_nat i) then n else 0) + granted i sdus).
  destruct (decide (Z.of_nat lcid = Z.of_nat i)) as [Heq|Hne].
  - assert (lcid = i) as -> by lia. simplify_eq. destruct (IH i (chan_served c n)) as [-> Hg].
    + cbn. rewrite list_lookup_insert_eq; [done|by eapply lookup_lt_Some].
    + cbn. lia.
    + cbn. split; [|lia]. do 2 f_equal. lia.
  - destruct (IH i ci) as [-> Hg]; [|done|split; [do 2 f_equal|]; lia]. cbn. rewrite list_lookup_insert_ne; [done|]. intros ->. lia.
Qed.

Lemma chan_served_pending c n : 0 <= n -> chan_pending (chan_served c n) -> chan_pending c.
Proof. unfold chan_pending, chan_served. cbn. intros ? [? ?]. split; [done|lia]. Qed.
Lemma chan_update_pending m lcid c n i c' : dm_channels m !! lcid = Some c -> 0 <= n -> dm_channels (chan_update m lcid (chan_served c n)) !! i = Some c' -> chan_pending c' ->
  exists c0, dm_channels m !! i = Some c0 /\ chan_pending c0.
Proof.
  intros Hc Hn Hi Hp. destruct (decide (lcid = i)) as [->|Hne].
  - cbn in Hi. rewrite list_lookup_insert_eq in Hi by (by eapply lookup_lt_Some). simplify_eq. eauto using chan_served_pending.
  - cbn in Hi. rewrite list_lookup_insert_ne in Hi by done. eauto.
Qed.
Lemma sdu_alloc_pending m rem sdus m' rem' : sdu_alloc m rem sdus m' rem' ->
  Forall (fun x => exists c, dm_channels m !! Z.to_nat x.1 = Some c /\ chan_pending c) sdus
  /\ forall i c, dm_channels m' !! i = Some c -> chan_pending c -> exists c0, dm_channels m !! i = Some c0 /\ chan_pending c0.
Proof.
  induction 1 as [m rem|m rem lcid c n sdus m' rem' Hc Hp Hlow Hn Hle Hdis Hsa [IH1 IH2]]; [split; [done|eauto]|]. split.
  - constructor; [exists c; cbn; by rewrite Nat2Z.id|]. eapply list.Forall_impl; [exact IH1|]. intros x (cx & Hx & Hpx). eapply chan_update_pending; [done| |done|done]. lia.
  - intros i ci Hi Hpi. destruct (IH2 i ci Hi Hpi) as (c1 & H1 & Hp1). eapply chan_update_pending; [done| |done|done]. lia.
Qed.
Lemma sdu_alloc_nil m rem sdus m' rem' : sdu_alloc m rem sdus m' rem' -> rem <= 1 -> sdus = [].
Proof. inversion 1 as [|? ? lcid c n]; simplify_eq; [done|]. rewrite required_bytes in * by lia. bool_cases; breflect; lia. Qed.

(** Strict priority: the SDUs come in the order of the LCIDs, and a channel gets bytes only when all channels before it are served completely. *)
Lemma sdu_alloc_priority m rem sdus m' rem' : sdu_alloc m rem sdus m' rem' ->
  StronglySorted Z.lt (map fst sdus) /\ Forall (fun x => forall i c, Z.of_nat i < x.1 -> dm_channels m' !! i = Some c -> ~ chan_pending c) sdus.
Proof.
  induction 1 as [m rem|m rem lcid c n sdus m' rem' Hc Hp Hlow Hn Hle Hdis Hsa [IH1 IH2]]; [split; constructor|].
  pose proof (sdu_alloc_pending _ _ _ _ _ Hsa) as [Hpend Hmono]. split.
  - cbn. constructor; [done|]. destruct Hdis as [Hall|Hrem]; [|by rewrite (sdu_alloc_nil _ _ _ _ _ Hsa)]. apply List.Forall_map.
    eapply list.Forall_impl; [exact Hpend|]. intros x (cx & Hx & Hpx). cbn. destruct (decide (Z.of_nat lcid < x.1)) as [|Hge]; [done|exfalso].
    destruct (decide (Z.to_nat x.1 = lcid)) as [Heq|Hne].
    + rewrite Heq in Hx. cbn in Hx. rewrite list_lookup_insert_eq in Hx by (by eapply lookup_lt_Some). simplify_eq. destruct Hpx as [_ Hb]. cbn in Hb. lia.
    + cbn in Hx. rewrite list_lookup_insert_ne in Hx by done. eapply Hlow; [|done|done]. lia.
  - constructor; [|done]. intros i ci Hi Hci Hpi. cbn in Hi. destruct (Hmono i ci Hci Hpi) as (c1 & H1 & Hp1).
    destruct (chan_update_pending m lcid c n i c1 Hc ltac:(lia) H1 Hp1) as (c0 & H0 & Hp0). eapply Hlow; [|done|done]. lia.
Qed.

(** *** Control elements *)
Definition ce_subpdu (ce : Z) : Z * Z := (ce, dl_sizeof_ce ce).
Lemma ce_bytes_range ce : 1 <= ce_bytes ce <= 7.
Proof. unfold ce_bytes, dl_sizeof_ce, FIXED_SIZED_MAC_CE_SUBHEADER_SIZE. cbn [dl_is_var_len_ce]. bool_cases; lia. Qed.
Lemma ce_subpdu_bytes ce : 33 <= ce -> subpdu_bytes (ce_subpdu ce) = ce_bytes ce.
Proof.
  intros H. unfold subpdu_bytes, ce_subpdu, ce_bytes, dl_is_sdu, dl_is_var_len_ce. cbn [fst snd]. destruct ((ce <=? 32) && (0 <=? ce)) eqn:E; breflect; lia.
Qed.

Lemma allocate_ces_loop_spec fuel : forall tb m rem, dl_mgr_ok m -> 0 <= rem < 2 ^ 31 -> (length tb <= MAX_LC_PER_TB)%nat ->
  (MAX_LC_PER_TB - length tb < fuel)%nat ->
  exists k, let sub := map ce_subpdu (take k (dm_ces m)) in
    allocate_mac_ces_loop fuel tb m rem = Some (rem - subpdus_bytes sub, tb ++ sub, DlLcMgr (dm_channels m) (dm_con_res_id m) (drop k (dm_ces m)))
    /\ 0 <= rem - subpdus_bytes sub /\ 0 <= subpdus_bytes sub /\ (length (tb ++ sub) <= MAX_LC_PER_TB)%nat
    /\ match drop k (dm_ces m) with [] => True | ce :: _ => length (tb ++ sub) = MAX_LC_PER_TB \/ rem - subpdus_bytes sub < ce_bytes ce end.
Proof.
  induction fuel as [|fuel IH]; intros tb m rem Hm Hrem Hlen Hfuel; [lia|]. cbn [allocate_mac_ces_loop].
  destruct (dm_ces m) as [|ce ces] eqn:Hces.
  { exists 0%nat. rewrite bool_decide_true by done. cbn. rewrite app_nil_r, Z.sub_0_r. destruct m; cbn in *; simplify_eq. split_and!; done || lia. }
  rewrite (bool_decide_false (ce :: ces = [])) by done. cbn [orb].
  destruct (bool_decide (MAX_LC_PER_TB <= length tb)%nat) eqn:E0; breflect.
  { exists 0%nat. cbn [take drop map]. unfold subpdus_bytes. cbn [foldr]. rewrite app_nil_r, Z.sub_0_r. destruct m; cbn in *; simplify_eq. split_and!; try done; lia. }
  unfold allocate_mac_ce. rewrite Hces. cbn [dl_is_var_len_ce]. pose proof (ce_bytes_range ce) as Hr.
  assert (33 <= ce) as H33 by (pose proof (dmo_ces _ Hm) as HF; rewrite Hces in HF; by inversion HF).
  replace (dl_sizeof_ce ce + FIXED_SIZED_MAC_CE_SUBHEADER_SIZE) with (ce_bytes ce) by (unfold ce_bytes; cbn [dl_is_var_len_ce]; lia).
  destruct (rem <? ce_bytes ce) eqn:E1; breflect.
  { exists 0%nat. cbn [take drop map]. unfold subpdus_bytes. cbn [foldr]. rewrite app_nil_r, Z.sub_0_r. destruct m; cbn in *; simplify_eq. split_and!; try done; lia. }
  destruct (0 <? ce_bytes ce) eqn:E2; breflect; [|lia]. destruct (ce_bytes ce =? 0) eqn:E3; breflect; [lia|]. rewrite u32_id by (unfold is_u32; lia). change (ce, dl_sizeof_ce ce) with (ce_subpdu ce).
  destruct (IH (tb ++ [ce_subpdu ce]) (DlLcMgr (dm_channels m) (dm_con_res_id m) ces) (rem - ce_bytes ce)) as (k & -> & H1 & H2 & H3 & H4).
  - destruct Hm as [Hl Hc Hx]. split; [done|done|]. rewrite Hces in Hx. by inversion Hx.
  - lia.
  - rewrite length_app. cbn [length]. lia.
  - rewrite length_app. cbn [length]. lia.
  - exists (S k). cbn [take drop map dm_channels dm_con_res_id dm_ces] in *. rewrite <-app_assoc in *. cbn [app] in *.
    change (subpdus_bytes (ce_subpdu ce :: map ce_subpdu (take k ces))) with (subpdu_bytes (ce_subpdu ce) + subpdus_bytes (map ce_subpdu (take k ces))).
    rewrite ce_subpdu_bytes by done. rewrite Z.sub_add_distr in *. split_and!; try done; lia.
Qed.

(** *** The transport block *)
Lemma subpdus_bytes_sdus sdus : Forall (fun x : Z * Z => 0 <= x.1 < 33 /\ 1 <= x.2 < 2 ^ 31) sdus -> 0 <= subpdus_bytes sdus.
Proof.
  induction 1 as [|[lcid n] l [H1 H2] _ IH]; [done|]. change (subpdus_bytes ((lcid, n) :: l)) with (subpdu_bytes (lcid, n) + subpdus_bytes l).
  cbn [fst snd] in *. unfold subpdu_bytes. cbn [fst snd]. rewrite required_bytes by lia. unfold FIXED_SIZED_MAC_CE_SUBHEADER_SIZE. bool_cases; lia.
Qed.
Lemma build_tb_spec m tbs : dl_mgr_ok m -> 0 <= tbs < 2 ^ 31 ->
  exists k sdus m' rem', let ces := map ce_subpdu (take k (dm_ces m)) in let m1 := DlLcMgr (dm_channels m) (dm_con_res_id m) (drop k (dm_ces m)) in
    build_dl_transport_block_info [] m tbs = Some (subpdus_bytes (ces ++ sdus), ces ++ sdus, m') /\ subpdus_bytes (ces ++ sdus) = tbs - rem' /\ 0 <= rem'
    /\ 0 <= subpdus_bytes ces <= tbs
    /\ dl_mgr_ok m1 /\ allocate_mac_sdus_loop (S MAX_LC_PER_TB) ces m1 (tbs - subpdus_bytes ces) = Some (rem', ces ++ sdus, m')
    /\ sdu_alloc m1 (tbs - subpdus_bytes ces) sdus m' rem' /\ (length (ces ++ sdus) <= MAX_LC_PER_TB)%nat
    /\ match drop k (dm_ces m) with [] => True | ce :: _ => length ces = MAX_LC_PER_TB \/ tbs - subpdus_bytes ces < ce_bytes ce end
    /\ (rem' <= 3 \/ length (ces ++ sdus) = MAX_LC_PER_TB \/ nothing_pending m').
Proof.
  intros Hm Ht. destruct (allocate_ces_loop_spec (S MAX_LC_PER_TB) [] m tbs Hm Ht) as (k & Hces & Hrem & Hpos & Hlen & Hstop); [unfold MAX_LC_PER_TB; cbn [length]; lia..|]. cbv zeta in *. cbn [app] in *.
  set (ces := map ce_subpdu (take k (dm_ces m))) in *. set (m1 := DlLcMgr _ _ _) in *.
  assert (dl_mgr_ok m1) as Hm1 by (destruct Hm; split; [done|done|by apply Forall_drop]).
  destruct (allocate_sdus_loop_spec (S MAX_LC_PER_TB) ces m1 (tbs - subpdus_bytes ces)) as (sdus & m' & rem' & Hs & Hsa & Hl & Hst); [done|lia|done|unfold MAX_LC_PER_TB; lia|].
  destruct (sdu_alloc_ok _ _ _ _ _ Hsa Hm1 ltac:(lia)) as (Hm' & H0 & Hr & HF & Hce & Hcr).
  pose proof (subpdus_bytes_sdus _ HF) as Hsp.
  exists k, sdus, m', rem'. fold ces m1. cbv zeta. rewrite subpdus_bytes_app. split_and!; try done; try lia.
  unfold build_dl_transport_block_info, allocate_mac_ces, allocate_mac_sdus. rewrite Hces. cbn [mbind option_bind].
  replace (tbs - (tbs - subpdus_bytes ces)) with (subpdus_bytes ces) by lia. rewrite (u32_id (subpdus_bytes ces)) by (unfold is_u32; lia).
  rewrite (u32_id (tbs - subpdus_bytes ces)) by (unfold is_u32; lia). rewrite Hs. cbn [mbind option_bind].
  replace (tbs - subpdus_bytes ces - rem') with (subpdus_bytes sdus) by lia. rewrite (u32_id (subpdus_bytes sdus)), u32_id by (unfold is_u32; lia). done.
Qed.

(** C29: the division of a transport block among control elements and logical channels.  For every state of the buffers (each below 2^26 bytes) and every
    block of less than 2^31 bytes, the loops end and the bytes reported as used are those of the subPDUs with their subheaders, at most the block and at most
    four subPDUs; control elements go first, in the order in which they were queued, until none is left, four are placed or the next one does not fit; the
    buffer state of every channel is reduced by what it was granted; the channels are served in the order of their LCIDs, a channel only after all before it
    have nothing left; and data stays behind only when the block (all but three bytes) or the list of subPDUs is full. *)
Theorem dl_tb_allocation_correct m tbs : dl_mgr_ok m -> 0 <= tbs < 2 ^ 31 ->
  exists n k sdus m', build_dl_transport_block_info [] m tbs = Some (n, map ce_subpdu (take k (dm_ces m)) ++ sdus, m')
    /\ n = subpdus_bytes (map ce_subpdu (take k (dm_ces m)) ++ sdus) /\ 0 <= n <= tbs
    /\ (length (map ce_subpdu (take k (dm_ces m)) ++ sdus) <= MAX_LC_PER_TB)%nat
    /\ dm_ces m' = drop k (dm_ces m) /\ dl_mgr_ok m'
    /\ (forall ce, dm_ces m !! k = Some ce -> k = MAX_LC_PER_TB \/ tbs - subpdus_bytes (map ce_subpdu (take k (dm_ces m))) < ce_bytes ce)
    /\ (forall i c, dm_channels m !! i = Some c -> dm_channels m' !! i = Some (Channel (ch_active c) (Z.max 0 (ch_buf_st c - granted i sdus))))
    /\ Forall (fun x => 1 <= x.2 /\ exists c, dm_channels m !! Z.to_nat x.1 = Some c /\ chan_pending c) sdus
    /\ StronglySorted Z.lt (map fst sdus)
    /\ Forall (fun x => forall i c, Z.of_nat i < x.1 -> dm_channels m' !! i = Some c -> ~ chan_pending c) sdus
    /\ (tbs - n <= 3 \/ length (map ce_subpdu (take k (dm_ces m)) ++ sdus) = MAX_LC_PER_TB \/ nothing_pending m').
Proof.
  intros Hm Ht. destruct (build_tb_spec m tbs Hm Ht) as (k & sdus & m' & rem' & Hb & Hn & H0 & Hrem & Hm1 & Hloop & Hsa & Hl & Hce & Hst).
  set (ces := map ce_subpdu (take k (dm_ces m))) in *. exists (subpdus_bytes (ces ++ sdus)), k, sdus, m'.
  destruct (sdu_alloc_ok _ _ _ _ _ Hsa Hm1 ltac:(lia)) as (Hm' & _ & _ & HF & Hces & _).
  destruct (sdu_alloc_pending _ _ _ _ _ Hsa) as [Hpend _]. destruct (sdu_alloc_priority _ _ _ _ _ Hsa) as [Hsort Hprio].
  split_and!; try done; try (rewrite ?Hn; lia).
  - rewrite subpdus_bytes_app. pose proof (subpdus_bytes_sdus _ HF). lia.
  - intros ce Hk. rewrite (drop_S _ _ _ Hk) in Hce. destruct Hce as [Hce|?]; [left|by right].
    unfold ces in Hce. rewrite length_map, length_take in Hce. apply lookup_lt_Some in Hk. lia.
  - intros i c Hi. apply (sdu_alloc_buffers _ _ _ _ _ Hsa i c Hi). apply (Forall_lookup_1 _ _ _ _ (dmo_chans _ Hm) Hi).
  - apply list.Forall_and; split; [|exact Hpend]. eapply list.Forall_impl; [exact HF|]. cbn. intros; lia.
  - rewrite Hn. destruct Hst as [?|[?|?]]; [left; lia|by right; left|by right; right].
Qed.

Definition tb_demo : dl_logical_channel_manager :=
  DlLcMgr (<[1%nat := Channel true 20]> (<[4%nat := Channel true 600]> (<[5%nat := Channel false 70]> (replicate MAX_NOF_RB_LCIDS (Channel true 0))))) false [60; 59].
Lemma tb_demo_ok : dl_mgr_ok tb_demo.
Proof. split; [done| |]; repeat constructor; done. Qed.
Lemma dl_tb_allocation_correct_witness :
  build_dl_transport_block_info [] tb_demo 500 = Some (500, [(60, 0); (59, 0); (1, 20); (4, 473)], DlLcMgr (<[1%nat := Channel true 0]> (<[4%nat := Channel true 127]> (dm_channels tb_demo))) false [])
  /\ exists n k sdus m', build_dl_transport_block_info [] tb_demo 500 = Some (n, map ce_subpdu (take k (dm_ces tb_demo)) ++ sdus, m') /\ n <= 500.
Proof.
  split; [vm_compute; reflexivity|]. destruct (dl_tb_allocation_correct tb_demo 500 tb_demo_ok ltac:(lia)) as (n & k & sdus & m' & H & _ & Hn & _).
  exists n, k, sdus, m'. split; [exact H|lia].
Defined.

(** *** Everything is served when there is room *)
Definition demand (m : dl_logical_channel_manager) : Z := foldr (fun c n => channel_pending c + n) 0 (dm_channels m).
Definition ces_demand (ces : list Z) : Z := foldr (fun ce n => ce_bytes ce + n) 0 ces.
Definition pending_channels (m : dl_logical_channel_manager) : nat := length (filter chan_pending (dm_channels m)).

Section sums.
  Context {A : Type} (f : A -> Z).
Lemma foldr_sum_insert l i x y : l !! i = Some x -> foldr (fun c n => f c + n) 0 (<[i := y]> l) = foldr (fun c n => f c + n) 0 l - f x + f y.
  Proof. revert i; induction l as [|z l IH]; intros [|i] Hi; simplify_eq/=; [lia|]. rewrite (IH i) by done. lia. Qed.
Lemma foldr_sum_nonneg l : Forall (fun x => 0 <= f x) l -> 0 <= foldr (fun c n => f c + n) 0 l.
  Proof. induction 1; cbn; lia. Qed.
Lemma foldr_sum_lookup l i x : Forall (fun x => 0 <= f x) l -> l !! i = Some x -> f x <= foldr (fun c n => f c + n) 0 l.
  Proof. intros Hl. revert i; induction Hl as [|y l Hy Hl IH]; intros [|i] Hi; simplify_eq/=; [pose proof (foldr_sum_nonneg _ Hl); lia|]. specialize (IH i Hi). lia. Qed.
Lemma foldl_u32_sum l a B : Forall (fun x => 0 <= f x <= B) l -> 0 <= a -> a + Z.of_nat (length l) * B < 2 ^ 32 ->
    foldl (fun b c => u32 (b + f c)) a l = a + foldr (fun c n => f c + n) 0 l.
  Proof.
    intros Hl. revert a; induction Hl as [|x l Hx Hl IH]; intros a Ha Hb; cbn [foldl foldr length] in *; [lia|]. rewrite u32_id by (unfold is_u32; nia). rewrite IH; [lia|lia|lia].
  Qed.
Lemma filter_insert_drop (P : A -> Prop) `{!forall x, Decision (P x)} l i x y : l !! i = Some x -> P x -> ~ P y -> length (filter P l) = S (length (filter P (<[i := y]> l))).
  Proof.
    revert i; induction l as [|z l IH]; intros [|i] Hi HP HnP; simplify_eq/=.
    - rewrite !filter_cons, decide_True, decide_False by done. done.
    - rewrite !filter_cons. destruct (decide (P z)); cbn; by rewrite (IH i).
  Qed.
End sums.

Lemma channel_pending_range c : chan_ok c -> 0 <= channel_pending c <= 2 ^ 26 + 2 /\ (chan_pending c -> 3 <= channel_pending c) /\ (~ chan_pending c -> channel_pending c = 0).
Proof.
  unfold chan_ok, chan_pending, channel_pending. intros Hb. destruct (ch_active c); [rewrite required_bytes by lia|split_and!; [lia|lia|by intros [? _]|done]].
  destruct (ch_buf_st c =? 0) eqn:E; [|destruct (ch_buf_st c <? 256) eqn:E1]; breflect; split_and!; try lia; intros Hp; try (destruct Hp; lia); exfalso; apply Hp; split; done || lia.
Qed.
Lemma demand_pendings m : dl_mgr_ok m -> Forall (fun c => 0 <= channel_pending c) (dm_channels m).
Proof. intros Hm. eapply list.Forall_impl; [apply (dmo_chans _ Hm)|]. intros c Hc. apply channel_pending_range in Hc. lia. Qed.
Lemma small_demand m : dl_mgr_ok m -> demand m < 3 -> nothing_pending m.
Proof.
  intros Hm Hd i c Hi Hp. destruct (channel_pending_range c) as (_ & H3 & _); [by apply (Forall_lookup_1 _ _ _ _ (dmo_chans _ Hm) Hi)|].
  pose proof (foldr_sum_lookup channel_pending _ _ _ (demand_pendings m Hm) Hi). specialize (H3 Hp). unfold demand in Hd. lia.
Qed.

(** [pending_bytes] leaves out SRB0. *)
Lemma pending_bytes_zero m : dl_mgr_ok m -> dm_ces m = [] -> dl_pending_bytes m = 0 -> forall i c, dm_channels m !! S i = Some c -> ~ chan_pending c.
Proof.
  intros Hm Hce Hz i c Hi Hp. unfold dl_pending_bytes, dl_pending_ce_bytes in Hz. rewrite Hce in Hz. cbn [foldl] in Hz.
  assert (Forall (fun c => 0 <= channel_pending c <= 2 ^ 26 + 2) (drop 1 (dm_channels m))) as HF.
  { apply Forall_drop. eapply list.Forall_impl; [apply (dmo_chans _ Hm)|]. intros x Hx. by apply channel_pending_range in Hx as [? _]. }
  rewrite (foldl_u32_sum _ _ _ (2 ^ 26 + 2) HF) in Hz; [|lia|rewrite length_drop, (dmo_len _ Hm); unfold MAX_NOF_RB_LCIDS; lia].
  assert (drop 1 (dm_channels m) !! i = Some c) as Hi' by (by rewrite lookup_drop).
  destruct (channel_pending_range c) as (_ & H3 & _); [by apply (Forall_lookup_1 _ _ _ _ (dmo_chans _ Hm) Hi)|]. specialize (H3 Hp).
  pose proof (foldr_sum_lookup channel_pending _ i c ltac:(eapply list.Forall_impl; [exact HF|cbn; lia]) Hi'). lia.
Qed.

Lemma nothing_pending_count m : pending_channels m = 0%nat -> nothing_pending m.
Proof.
  unfold pending_channels. intros H i c Hi Hp. apply nil_length_inv in H.
  assert (c ∈ filter chan_pending (dm_channels m)) as Hc by (apply list_elem_of_filter; split; [done|by eapply list_elem_of_lookup_2]). rewrite H in Hc. by apply not_elem_of_nil in Hc.
Qed.
Lemma loop_keeps_nothing_pending fuel tb m rem : dl_mgr_ok m -> 0 <= rem < 2 ^ 31 -> (length tb <= MAX_LC_PER_TB)%nat -> (MAX_LC_PER_TB - length tb < fuel)%nat ->
  nothing_pending m -> exists rem' tb' m', allocate_mac_sdus_loop fuel tb m rem = Some (rem', tb', m') /\ nothing_pending m'.
Proof.
  intros Hm Hr Hl Hf Hno. destruct (allocate_sdus_loop_spec fuel tb m rem Hm Hr Hl Hf) as (sdus & m' & rem' & -> & Hsa & _ & _).
  exists rem', (tb ++ sdus), m'. split; [done|]. intros i c Hi Hp. destruct (sdu_alloc_pending _ _ _ _ _ Hsa) as [_ Hmono]. destruct (Hmono i c Hi Hp) as (c0 & H0 & Hp0). by eapply Hno.
Qed.

(** Serving a channel completely takes it off the demand and off the pending channels. *)
Lemma served_demand m lcid c n : dl_mgr_ok m -> dm_channels m !! lcid = Some c -> chan_pending c -> ch_buf_st c <= n ->
  let m1 := chan_update m lcid (chan_served c n) in demand m1 = demand m - channel_pending c /\ pending_channels m = S (pending_channels m1).
Proof.
  intros Hm Hc Hp Hn m1. assert (~ chan_pending (chan_served c n)) as Hnp by (intros [_ H]; cbn in H; lia). split.
  - unfold demand, m1. cbn. rewrite (foldr_sum_insert channel_pending _ _ _ _ Hc). destruct (channel_pending_range (chan_served c n)) as (_ & _ & H0).
    { apply chan_served_ok; [by apply (Forall_lookup_1 _ _ _ _ (dmo_chans _ Hm) Hc)|destruct Hp; lia]. }
    rewrite H0 by done. lia.
  - unfold pending_channels, m1. cbn. by apply (filter_insert_drop chan_pending _ _ c).
Qed.

Lemma sdus_loop_complete fuel : forall tb m rem, dl_mgr_ok m -> dm_ces m = [] -> demand m < rem < 2 ^ 31 -> (length tb + pending_channels m <= MAX_LC_PER_TB)%nat ->
  (MAX_LC_PER_TB - length tb < fuel)%nat -> exists rem' tb' m', allocate_mac_sdus_loop fuel tb m rem = Some (rem', tb', m') /\ nothing_pending m'.
Proof.
  induction fuel as [|fuel IH]; intros tb m rem Hm Hce Hrem Hcnt Hfuel; [lia|]. cbn [allocate_mac_sdus_loop].
  pose proof (foldr_sum_nonneg channel_pending _ (demand_pendings m Hm)) as Hd0. fold (demand m) in Hd0.
  destruct ((rem <=? MAX_MAC_SDU_SUBHEADER_SIZE) || bool_decide (MAX_LC_PER_TB <= length tb)%nat) eqn:E0.
  { exists rem, tb, m. split; [done|]. unfold MAX_MAC_SDU_SUBHEADER_SIZE in E0. apply orb_true_iff in E0 as [E|E]; breflect;
      [apply small_demand; [done|lia]|apply nothing_pending_count; lia]. }
  unfold MAX_MAC_SDU_SUBHEADER_SIZE in E0. breflect.
  destruct (allocate_sdu_spec m rem Hm ltac:(lia)) as [(lcid & c & n & Hc & Hp & Hlow & Hn & Hle & H3 & _ & Hfull & Hexact & ->)|[Hno ->]]; cbn; [|eauto].
  destruct (get_mac_sdu_required_bytes n =? 0) eqn:E1; breflect; [lia|]. rewrite u32_id by (unfold is_u32; lia).
  pose proof (foldr_sum_lookup channel_pending _ _ _ (demand_pendings m Hm) Hc) as Hpd. fold (demand m) in Hpd. specialize (Hfull ltac:(lia)).
  destruct (served_demand m lcid c n Hm Hc Hp Hfull) as [Hdem Hpc]. set (m1 := chan_update m lcid (chan_served c n)) in *.
  assert (dl_mgr_ok m1) as Hm1 by (apply chan_update_ok; [done|]; apply chan_served_ok; [by apply (Forall_lookup_1 _ _ _ _ (dmo_chans _ Hm) Hc)|lia]).
  assert (n = ch_buf_st c /\ rem - channel_pending c > 3 \/ nothing_pending m1) as [[-> Hgt]|Hno].
  { destruct (decide (rem - channel_pending c > 3)) as [Hgt|Hle3]; [|right; apply small_demand; [done|lia]].
    destruct (Hexact Hgt) as [->|Hz]; [by left|right]. intros i ci Hi Hpi. destruct (decide (lcid = i)) as [->|Hne].
    - cbn in Hi. rewrite list_lookup_insert_eq in Hi by (by eapply lookup_lt_Some). simplify_eq. destruct Hpi as [_ Hb]. cbn in Hb. lia.
    - cbn in Hi. rewrite list_lookup_insert_ne in Hi by done. destruct i as [|i]; [eapply (Hlow 0%nat); [|done|done]; lia|by eapply (pending_bytes_zero m Hm Hce Hz i)]. }
  - assert (get_mac_sdu_required_bytes (ch_buf_st c) = channel_pending c) as Heq by (unfold channel_pending; by rewrite (proj1 Hp)).
    rewrite Heq. apply IH; [done|done|lia| |]; rewrite length_app; cbn [length]; lia.
  - apply loop_keeps_nothing_pending; [done|lia| | |done]; rewrite length_app; cbn [length]; lia.
Qed.

Lemma ces_demand_take k ces : Forall (fun ce => 33 <= ce) ces -> subpdus_bytes (map ce_subpdu (take k ces)) + ces_demand (drop k ces) = ces_demand ces.
Proof.
  intros H. revert k; induction H as [|ce ces Hc _ IH]; intros [|k]; cbn [take drop map]; try done.
  change (subpdus_bytes _) with (subpdu_bytes (ce_subpdu ce) + subpdus_bytes (map ce_subpdu (take k ces))). rewrite ce_subpdu_bytes by done.
  change (ces_demand (ce :: ces)) with (ce_bytes ce + ces_demand ces). rewrite <-(IH k). lia.
Qed.
(** A transport block that is large enough is enough.  When the block is larger than what the queued control elements and the pending channels need
    with their subheaders, and these are at most four, the allocation serves all of them: no control element is left and no channel has bytes pending. *)
Theorem dl_tb_allocation_complete m tbs : dl_mgr_ok m -> ces_demand (dm_ces m) + demand m < tbs < 2 ^ 31 ->
  (length (dm_ces m) + pending_channels m <= MAX_LC_PER_TB)%nat ->
  exists n tb_info m', build_dl_transport_block_info [] m tbs = Some (n, tb_info, m') /\ dm_ces m' = [] /\ nothing_pending m'.
Proof.
  intros Hm Ht Hcnt. pose proof (foldr_sum_nonneg channel_pending _ (demand_pendings m Hm)) as Hd0. fold (demand m) in Hd0.
  assert (forall l, 0 <= ces_demand l) as Hc0 by (intros l; apply (foldr_sum_nonneg ce_bytes); apply list.Forall_true; intros ce; pose proof (ce_bytes_range ce); lia).
  pose proof (Hc0 (dm_ces m)) as Hcm. destruct (build_tb_spec m tbs Hm ltac:(lia)) as (k & sdus & m' & rem' & Hb & Hn & H0 & Hrem & Hm1 & Hloop & Hsa & Hl & Hce & Hst).
  destruct (sdu_alloc_ok _ _ _ _ _ Hsa Hm1 ltac:(lia)) as (Hm' & _ & _ & _ & Hces & _). pose proof (ces_demand_take k _ (dmo_ces _ Hm)) as Htk.
  assert (drop k (dm_ces m) = []) as Hnil.
  { destruct (drop k (dm_ces m)) as [|ce l] eqn:Ed; [done|exfalso]. destruct Hce as [Hce|Hce].
    - rewrite length_map, length_take in Hce. pose proof (f_equal length Ed) as Hlen. rewrite length_drop in Hlen. cbn [length] in Hlen. lia.
    - change (ces_demand (ce :: l)) with (ce_bytes ce + ces_demand l) in Htk. specialize (Hc0 l). lia. }
  exists (subpdus_bytes (map ce_subpdu (take k (dm_ces m)) ++ sdus)), (map ce_subpdu (take k (dm_ces m)) ++ sdus), m'. split_and!; [done|by rewrite Hces|].
  destruct (sdus_loop_complete (S MAX_LC_PER_TB) (map ce_subpdu (take k (dm_ces m))) (DlLcMgr (dm_channels m) (dm_con_res_id m) []) (tbs - subpdus_bytes (map ce_subpdu (take k (dm_ces m))))) as (r & t & m2 & Hloop2 & Hno).
  - rewrite Hnil in Hm1. done.
  - done.
  - rewrite Hnil in Htk. change (ces_demand []) with 0 in Htk. change (demand _) with (demand m). lia.
  - rewrite length_map, length_take. change (pending_channels _) with (pending_channels m). lia.
  - rewrite length_map, length_take. unfold MAX_LC_PER_TB. lia.
  - rewrite Hnil in Hloop. rewrite Hloop in Hloop2. by injection Hloop2 as _ _ ->.
Qed.
Lemma dl_tb_allocation_complete_witness :
  exists n tb_info m', build_dl_transport_block_info [] tb_demo 628 = Some (n, tb_info, m') /\ dm_ces m' = [] /\ nothing_pending m'.
Proof. apply (dl_tb_allocation_complete tb_demo 628); [apply tb_demo_ok|vm_compute; split; reflexivity|vm_compute; repeat constructor]. Defined.

(** *** Well-formedness

    What reaches the manager of a UE: configurations, buffer states, control elements, and transport blocks (of the UE, or of SRB0). *)
Inductive lc_op := lc_configure (lcids : list nat) | lc_status (lcid : nat) (active : bool) | lc_buffer (lcid : nat) (n : Z) | lc_ce (ce : Z) | lc_tb (tbs : Z) | lc_srb0_tb (tbs : Z).
Definition lc_op_ok (op : lc_op) : Prop :=
  match op with
  | lc_configure lcids => Forall (fun i => (i < MAX_NOF_RB_LCIDS)%nat) lcids | lc_status i _ => (i < MAX_NOF_RB_LCIDS)%nat
  | lc_buffer i n => (i < MAX_NOF_RB_LCIDS)%nat /\ 0 <= n < 2 ^ 26 | lc_ce ce => 33 <= ce | lc_tb n | lc_srb0_tb n => 0 <= n < 2 ^ 31
  end.
Definition lc_exec (m : dl_logical_channel_manager) (op : lc_op) : option dl_logical_channel_manager :=
  match op with
  | lc_configure lcids => dl_configure m lcids
  | lc_status i a => dl_set_status m i a
  | lc_buffer i n => handle_dl_buffer_status_indication m i n
  | lc_ce ce => Some (handle_mac_ce_indication m ce)
  | lc_tb n => let* (_, _, m) := build_dl_transport_block_info [] m n in Some m
  | lc_srb0_tb n => let* (_, _, m) := build_dl_srb0_transport_block_info [] m n in Some m
  end.
Fixpoint lc_run (m : dl_logical_channel_manager) (ops : list lc_op) : option dl_logical_channel_manager :=
  match ops with [] => Some m | op :: ops => let* m := lc_exec m op in lc_run m ops end.

Lemma dl_set_status_ok m i a : dl_mgr_ok m -> (i < MAX_NOF_RB_LCIDS)%nat -> exists m', dl_set_status m i a = Some m' /\ dl_mgr_ok m'.
Proof.
  intros Hm Hi. unfold dl_set_status. destruct (lookup_lt_is_Some_2 (dm_channels m) i ltac:(rewrite (dmo_len _ Hm); done)) as [c Hc]. rewrite Hc. cbn [mbind option_bind].
  eexists. split; [done|]. apply (chan_update_ok m i (Channel a (ch_buf_st c))); [done|]. apply (Forall_lookup_1 _ _ _ _ (dmo_chans _ Hm) Hc).
Qed.
Lemma dl_set_statuses_ok a l : forall m, dl_mgr_ok m -> Forall (fun i => (i < MAX_NOF_RB_LCIDS)%nat) l -> exists m', dl_set_statuses m l a = Some m' /\ dl_mgr_ok m'.
Proof.
  induction l as [|i l IH]; intros m Hm HF; cbn [dl_set_statuses]; [eauto|]. apply Forall_cons_1 in HF as [Hi HF].
  destruct (dl_set_status_ok m i a Hm Hi) as (m1 & -> & Hm1). by apply IH.
Qed.
Lemma allocate_mac_sdus_ok tb m n : dl_mgr_ok m -> 0 <= n < 2 ^ 31 -> (length tb <= MAX_LC_PER_TB)%nat -> exists k tb' m', allocate_mac_sdus tb m n = Some (k, tb', m') /\ dl_mgr_ok m'.
Proof.
  intros Hm Hn Hl. unfold allocate_mac_sdus. destruct (allocate_sdus_loop_spec (S MAX_LC_PER_TB) tb m n Hm Hn Hl ltac:(unfold MAX_LC_PER_TB; lia)) as (sdus & m' & rem' & -> & Hsa & _).
  cbn [mbind option_bind]. eexists _, _, _. split; [done|]. eapply sdu_alloc_ok; [done|done|lia].
Qed.
Lemma srb0_tb_ok m n : dl_mgr_ok m -> 0 <= n < 2 ^ 31 -> exists k tb' m', build_dl_srb0_transport_block_info [] m n = Some (k, tb', m') /\ dl_mgr_ok m'.
Proof.
  intros Hm Hn. unfold build_dl_srb0_transport_block_info, allocate_con_res_id, allocate_con_res_id_ce. cbn [length app bool_decide].
  rewrite bool_decide_false by (unfold MAX_LC_PER_TB; lia). change (dl_sizeof_ce UE_CON_RES_ID + FIXED_SIZED_MAC_CE_SUBHEADER_SIZE) with 7.
  assert (forall tb m1 x, dl_mgr_ok m1 -> (length tb <= MAX_LC_PER_TB)%nat -> 0 <= x < 2 ^ 31 -> forall y, exists k tb' m',
    (let* (n', tb_info, m0) := allocate_mac_sdus tb m1 x in Some (u32 (y + n'), tb_info, m0)) = Some (k, tb', m') /\ dl_mgr_ok m') as Haux.
  { intros tb m1 x Hm1 Hl Hx y. destruct (allocate_mac_sdus_ok tb m1 x Hm1 Hx Hl) as (k & tb' & m' & -> & Hm'). cbn [mbind option_bind]. eauto. }
  destruct (dm_con_res_id m); cbn [negb]; [|apply Haux; [done|cbn; unfold MAX_LC_PER_TB; lia|rewrite u32_id; unfold is_u32; lia]].
  destruct (n <? 7) eqn:E; breflect; cbn [Z.ltb Z.eqb Z.compare negb Pos.compare].
  - apply Haux; [done|cbn; unfold MAX_LC_PER_TB; lia|rewrite u32_id; unfold is_u32; lia].
  - apply Haux; [by destruct Hm|cbn; unfold MAX_LC_PER_TB; lia|].
    rewrite (u32_id (n - 7)) by (unfold is_u32; lia). replace (n - (n - 7)) with 7 by lia. rewrite (u32_id 7), u32_id by (unfold is_u32; lia). lia.
Qed.
Lemma lc_exec_ok m op : dl_mgr_ok m -> lc_op_ok op -> exists m', lc_exec m op = Some m' /\ dl_mgr_ok m'.
Proof.
  intros Hm Hop. destruct op as [l|i a|i n|ce|n|n]; cbn [lc_exec lc_op_ok] in *.
  - unfold dl_configure. apply dl_set_statuses_ok; [|done]. destruct Hm as [Hl Hc Hx]. split; cbn; [|apply Forall_app; split; [by apply Forall_take|]|done].
    + rewrite length_app, length_map, length_take, length_drop, Hl. done.
    + apply List.Forall_map. cbn. by apply (Forall_drop chan_ok).
  - by apply dl_set_status_ok.
  - destruct Hop as [Hi Hn]. unfold handle_dl_buffer_status_indication. destruct (lookup_lt_is_Some_2 (dm_channels m) i ltac:(rewrite (dmo_len _ Hm); done)) as [c Hc]. rewrite Hc.
    cbn [mbind option_bind]. eexists. split; [done|]. by apply (chan_update_ok m i (Channel (ch_active c) n)).
  - eexists. split; [done|]. unfold handle_mac_ce_indication. destruct Hm as [Hl Hc Hx]. destruct (ce =? UE_CON_RES_ID); split; try done. cbn. by apply Forall_app_2; [|constructor].
  - destruct (build_tb_spec m n Hm Hop) as (k & sdus & m' & rem' & Hb & _ & _ & Hrem & Hm1 & _ & Hsa & _). rewrite Hb. cbn [mbind option_bind]. eexists. split; [done|].
    eapply sdu_alloc_ok; [done|done|lia].
  - destruct (srb0_tb_ok m n Hm Hop) as (k & tb' & m' & -> & Hm'). cbn [mbind option_bind]. eauto.
Qed.
Lemma lc_run_ok ops : forall m, dl_mgr_ok m -> Forall lc_op_ok ops -> exists m', lc_run m ops = Some m' /\ dl_mgr_ok m'.
Proof.
  induction ops as [|op ops IH]; intros m Hm HF; cbn [lc_run]; [eauto|]. apply Forall_cons_1 in HF as [Ho HF]. destruct (lc_exec_ok m op Hm Ho) as (m1 & -> & Hm1). by apply IH.
Qed.

(** C30: the logical channel manager is well formed at all times.  From its construction on, any sequence of configurations, status changes, buffer states (LCIDs below 33, less
    than 2^26 bytes), control elements and transport blocks of less than 2^31 bytes is executed without an index out of range or an assertion failure, and leaves 33 channels whose buffer states
    are within the range of what was reported, never negative. *)
Theorem dl_lc_mgr_well_formed ops : Forall lc_op_ok ops -> exists m0 m, dl_lc_mgr_new = Some m0 /\ lc_run m0 ops = Some m /\ dl_mgr_ok m.
Proof.
  intros Hops. destruct (dl_set_status_ok (DlLcMgr (replicate MAX_NOF_RB_LCIDS (Channel false 0)) false []) 0 true) as (m0 & H0 & Hm0).
  - split; [done| |constructor]. apply Forall_replicate. done.
  - unfold MAX_NOF_RB_LCIDS. lia.
  - destruct (lc_run_ok ops m0 Hm0 Hops) as (m & Hr & Hm). eauto.
Qed.
Lemma dl_lc_mgr_well_formed_witness : exists m0 m, dl_lc_mgr_new = Some m0
  /\ lc_run m0 [lc_configure [1; 4]%nat; lc_buffer 0 6; lc_ce 62; lc_srb0_tb 30; lc_buffer 4 100; lc_tb 60; lc_status 4 false] = Some m /\ dl_mgr_ok m.
Proof. apply (dl_lc_mgr_well_formed [lc_configure [1; 4]%nat; lc_buffer 0 6; lc_ce 62; lc_srb0_tb 30; lc_buffer 4 100; lc_tb 60; lc_status 4 false]). repeat constructor; vm_compute; first [done | lia | repeat constructor]. Defined.

(** ** The scheduler and the assembler of the MAC *)
Section Grants.
Context {St : Type} `{!MacSduTxBuilder St}.

(** Every logical channel gets the space of its grant, whatever is left of the block. *)
Fixpoint assemble_granted (stat : option Z) (s : St) (p : dl_sch_pdu) (con_res : bytes) (l : list (Z * Z)) : option (option Z * St * dl_sch_pdu) :=
  match l with
  | [] => Some (stat, s, p)
  | (lcid, sched_bytes) :: l =>
      let min_size := MIN_MAC_SDU_SIZE stat lcid in
      let space := get_mac_sdu_required_bytes sched_bytes in
      let* (s, p) := assemble_sdus_loop (S (Z.to_nat space)) s p lcid min_size space in
      assemble_granted (Some min_size) s p con_res l
  end.

Lemma dp_put_offset p b p' : dp_put p b = Some p' -> dp_offset p' = dp_offset p + blen b /\ dp_size p' = dp_size p.
Proof. unfold dp_put, dp_offset. destruct (_ <=? _); [|done]. intros [= <-]. cbn. by rewrite blen_app. Qed.
Lemma add_sdu_offset p lcid sdu n p' : add_sdu p lcid sdu = Some (n, p') -> dp_offset p' = dp_offset p + n /\ dp_size p' = dp_size p.
Proof.
  unfold add_sdu, encode_subheader. destruct (dp_size p <? _); [intros [= <- <-]; split; [lia|done]|]. intros H.
  destruct (MAC_SDU_SUBHEADER_LENGTH_THRES <=? blen sdu); cbn [Z.eqb Pos.eqb] in H;
    (destruct (dp_put p _) as [p1|] eqn:E1; [|done]); cbn [mbind option_bind] in H; (destruct (dp_put p1 _) as [p2|] eqn:E2; [|done]); cbn [mbind option_bind] in H;
    injection H as <- <-; apply dp_put_offset in E1 as [E1 E1s], E2 as [E2 E2s]; rewrite E2, E1, E2s, E1s; (split; [|done]); cbn; unfold blen; cbn [length]; lia.
Qed.
Lemma assemble_loop_offset fuel : forall s p lcid min rem s' p', assemble_sdus_loop fuel s p lcid min rem = Some (s', p') -> 0 <= rem ->
  dp_offset p' <= dp_offset p + rem /\ dp_size p' = dp_size p.
Proof.
  induction fuel as [|fuel IH]; intros s p lcid min rem s' p' H Hrem; [done|]. cbn [assemble_sdus_loop] in H.
  destruct (rem <? min); [injection H as <- <-; split; [lia|done]|]. destruct (on_new_tx_sdu s lcid _) as [[sdu s1]|]; [|done]. cbn [mbind option_bind] in H.
  destruct (decide (sdu = [])); [injection H as <- <-; split; [lia|done]|]. destruct (_ <? blen sdu); [done|].
  destruct (add_sdu p lcid sdu) as [[nw p1]|] eqn:E; [|done]. cbn [mbind option_bind] in H. apply add_sdu_offset in E as [E1 E2].
  destruct (nw =? 0) eqn:E0; breflect; [injection H as <- <-; split; [lia|done]|]. destruct (rem <? nw) eqn:E3; breflect; [done|].
  apply IH in H as [H1 H2]; [|lia]. split; [lia|congruence].
Qed.

Lemma assemble_subpdus_granted con_res l : forall stat s p, Forall (fun x : Z * Z => 0 <= x.1 < 33 /\ 1 <= x.2 < 2 ^ 31) l ->
  dp_offset p + subpdus_bytes l <= dp_size p < 2 ^ 31 -> assemble_subpdus stat s p con_res l = assemble_granted stat s p con_res l.
Proof.
  induction l as [|[lcid n] l IH]; intros stat s p HF Hp; [done|]. apply Forall_cons_1 in HF as [[H1 H2] HF]. cbn [fst snd] in *.
  change (subpdus_bytes ((lcid, n) :: l)) with (subpdu_bytes (lcid, n) + subpdus_bytes l) in Hp. unfold subpdu_bytes in Hp. cbn [fst snd] in Hp.
  cbn [assemble_subpdus assemble_granted]. assert (dl_is_sdu lcid = true) as Hs by (unfold dl_is_sdu; lia). rewrite Hs in *.
  pose proof (subpdus_bytes_sdus _ HF) as Hnn. pose proof (blen_nonneg (dp_bytes p)) as Hoff. fold (dp_offset p) in Hoff.
  assert (0 <= get_mac_sdu_required_bytes n) as Hreq by apply u32_is_u32. unfold assemble_sdus, nof_empty_bytes. rewrite u32_id by (unfold is_u32; lia). rewrite Z.min_l by lia.
  destruct (assemble_sdus_loop _ s p lcid _ _) as [[s1 p1]|] eqn:E; [|done]. cbn [mbind option_bind].
  apply assemble_loop_offset in E as [E1 E2]; [|done]. apply IH; [done|lia].
Qed.
End Grants.

(** The MAC can use what the scheduler grants.  When the scheduler divides a block among the logical channels (no control element queued, nothing pending
    on SRB0), the assembler of the MAC, for any bearers, gives each channel the whole space of its grant: it never runs short because of the channels
    before it; and the PDU it builds has the size of the block and the format of TS 38.321, with SDUs of the granted channels only. *)
Theorem scheduled_grants_assembled {St} `{!MacSduTxBuilder St} (tx_ok : St -> Prop) `{!MacSduTxBuilderLaws St tx_ok} stat s harq_size con_res m tbs :
  stat_ok stat -> tx_ok s -> dl_mgr_ok m -> dm_ces m = [] -> (forall c, dm_channels m !! 0%nat = Some c -> ~ chan_pending c) -> 0 <= tbs < 65536 -> tbs <= harq_size ->
  exists n grants m' stat' s' b sdus pad, build_dl_transport_block_info [] m tbs = Some (n, grants, m')
    /\ assemble_subpdus stat s (DlSchPdu tbs []) con_res grants = assemble_granted stat s (DlSchPdu tbs []) con_res grants
    /\ assemble_newtx_pdu stat s harq_size con_res grants tbs = Some (stat', s', b) /\ assembled stat s grants tbs b sdus pad s'.
Proof.
  intros Hst Hs Hm Hce H0 Htb Hh. destruct (build_tb_spec m tbs Hm ltac:(lia)) as (k & sdus & m' & rem' & Hb & Hn & Hr & Hrem & Hm1 & _ & Hsa & _).
  rewrite Hce, take_nil in *. cbn [map app] in *. destruct (sdu_alloc_ok _ _ _ _ _ Hsa Hm1 ltac:(lia)) as (_ & _ & _ & HF & _).
  destruct (sdu_alloc_pending _ _ _ _ _ Hsa) as [Hpend _]. assert (Forall lc_ok sdus) as Hlc.
  { rewrite list.Forall_forall in HF, Hpend |- *. intros x Hx. destruct (HF x Hx) as [H1 H2], (Hpend x Hx) as (c & Hc & Hp). split; [|lia].
    assert (x.1 <> 0) by (intros Hz; rewrite Hz in Hc; by eapply H0). unfold is_sdu, LCID1, LCID32. lia. }
  destruct (assemble_ok tx_ok stat s harq_size con_res sdus tbs Hst Hs Hlc Htb Hh) as (stat' & s' & b & l & pad & Ha & _ & _ & Has).
  exists (subpdus_bytes sdus), sdus, m', stat', s', b, l, pad. split_and!; [done| |done|done]. apply assemble_subpdus_granted; [done|].
  change (dp_offset _) with 0. cbn [dp_size]. lia.
Qed.
Lemma scheduled_grants_assembled_witness :
  let m := DlLcMgr (<[4%nat := Channel true 10]> (replicate MAX_NOF_RB_LCIDS (Channel true 0))) false [] in
  exists n grants m' stat' s' b sdus pad, build_dl_transport_block_info [] m 12 = Some (n, grants, m')
    /\ assemble_subpdus None dl_demo_tx (DlSchPdu 12 []) [] grants = assemble_granted None dl_demo_tx (DlSchPdu 12 []) [] grants
    /\ assemble_newtx_pdu None dl_demo_tx 20 [] grants 12 = Some (stat', s', b) /\ assembled None dl_demo_tx grants 12 b sdus pad s'.
Proof.
  intros m. apply (scheduled_grants_assembled (um_tx_inv um_size6bits) None dl_demo_tx 20 [] m 12).
  - exact I.
  - apply um_handle_sdu_spec; [by apply um_tx_inv_init|vm_compute; congruence|done].
  - split; [done| |constructor]. repeat constructor; done.
  - done.
  - intros c [= <-] [_ H]. done.
  - lia.
  - lia.
Defined.

(** ** Uplink *)
Definition group_ok (c : channel_context) : Prop := 0 <= ch_buf_st c <= 2 ^ 28.
Record ul_mgr_ok (u : ul_logical_channel_manager) : Prop := { umo_len : length (um_groups u) = 8%nat; umo_groups : Forall group_ok (um_groups u) }.
Definition ul_harq_ok (h : ul_harq_process) : Prop := (exists tb, h_tbs h !! 0%nat = Some tb) /\ 0 <= ua_tbs_bytes (h_params h) < 2 ^ 20.
Definition cell_ok (hs : list ul_harq_process) : Prop := Forall ul_harq_ok hs /\ (length hs <= 16)%nat.

(** Bytes under way: those of the transport blocks of the processes that are not empty. *)
Definition harq_in_flight (h : ul_harq_process) : Z := match h_tbs h !! 0%nat with Some tb => if tb_is_empty tb then 0 else ua_tbs_bytes (h_params h) | None => 0 end.
Definition cells_in_flight (cells : list (list ul_harq_process)) : Z := foldr (fun hs n => foldr (fun h n => harq_in_flight h + n) 0 hs + n) 0 cells.

Lemma harq_in_flight_range h : ul_harq_ok h -> 0 <= harq_in_flight h < 2 ^ 20.
Proof. intros [(tb & Htb) Hp]. unfold harq_in_flight. rewrite Htb. destruct (tb_is_empty tb); lia. Qed.
Lemma ul_harq_bytes_sum hs : Forall ul_harq_ok hs -> forall b, 0 <= b -> b + Z.of_nat (length hs) * 2 ^ 20 < 2 ^ 32 ->
  ul_harq_bytes hs b = Some (b + foldr (fun h n => harq_in_flight h + n) 0 hs).
Proof.
  induction 1 as [|h hs Hh _ IH]; intros b Hb Hsum; cbn [ul_harq_bytes foldr length] in *; [f_equal; lia|]. pose proof (harq_in_flight_range h Hh) as Hr.
  destruct Hh as [(tb & Htb) Hp]. unfold harq_tb_empty. unfold harq_in_flight in *. rewrite Htb in *. cbn [mbind option_bind].
  destruct (tb_is_empty tb); [rewrite IH by lia; f_equal; lia|]. rewrite u32_id by (unfold is_u32; lia). rewrite IH by lia. f_equal; lia.
Qed.
Lemma subtract_harq_bytes_max cells : Forall cell_ok cells -> forall b, 0 <= b -> subtract_harq_bytes cells b = Some (Z.max 0 (b - cells_in_flight cells)) /\ 0 <= cells_in_flight cells.
Proof.
  induction 1 as [|hs cells [Hh Hl] _ IH]; intros b Hb; cbn [subtract_harq_bytes].
  { cbn. split; [f_equal|]; lia. }
  assert (0 <= foldr (fun h n => harq_in_flight h + n) 0 hs) as Hnn by (apply foldr_sum_nonneg; eapply list.Forall_impl; [exact Hh|intros h Hok; apply harq_in_flight_range in Hok; lia]).
  change (cells_in_flight (hs :: cells)) with (foldr (fun h n => harq_in_flight h + n) 0 hs + cells_in_flight cells). destruct (b =? 0) eqn:E; breflect.
  - destruct (IH 0 ltac:(lia)) as [_ H0]. split; [f_equal|]; lia.
  - rewrite ul_harq_bytes_sum by (done || lia). cbn [mbind option_bind]. destruct (IH (b - Z.min b (0 + foldr (fun h n => harq_in_flight h + n) 0 hs)) ltac:(lia)) as [-> H0]. split; [f_equal|]; lia.
Qed.

(** What the reported bytes of a group need in the uplink: with the estimate of the RLC header, and the MAC subheader. *)
Definition group_demand (lcg : nat) (c : channel_context) : Z :=
  if ch_active c && negb (ch_buf_st c =? 0) then let n := ch_buf_st c + (if (lcg =? 0)%nat then 0 else 3) in n + (if n <? 256 then 2 else 3) else 0.
Fixpoint groups_demand (lcg : nat) (l : list channel_context) : Z := match l with [] => 0 | c :: l => group_demand lcg c + groups_demand (S lcg) l end.
Lemma ul_group_pending_demand lcg c : group_ok c -> ul_group_pending lcg c = group_demand lcg c /\ 0 <= group_demand lcg c <= 2 ^ 28 + 6.
Proof.
  unfold group_ok, ul_group_pending, group_demand, add_upper_layer_header_bytes. intros Hb. destruct (ch_active c); cbn [andb]; [|lia].
  destruct (ch_buf_st c =? 0) eqn:E0; breflect; cbn [orb negb]; [rewrite E0; split; [done|lia]|].
  destruct (lcg =? 0)%nat; rewrite ?u32_id by (unfold is_u32; lia); rewrite required_bytes by lia; bool_cases; breflect; lia.
Qed.
Lemma ul_pending_loop_sum l : Forall group_ok l -> forall lcg b, 0 <= b -> b + Z.of_nat (length l) * (2 ^ 28 + 6) < 2 ^ 32 ->
  ul_pending_loop lcg l b = b + groups_demand lcg l /\ 0 <= groups_demand lcg l.
Proof.
  induction 1 as [|c l Hc _ IH]; intros lcg b Hb Hs; cbn [ul_pending_loop groups_demand length] in *; [lia|]. destruct (ul_group_pending_demand lcg c Hc) as [-> Hr].
  rewrite u32_id by (unfold is_u32; lia). destruct (IH (S lcg) (b + group_demand lcg c) ltac:(lia) ltac:(lia)) as [-> ?]. lia.
Qed.

(** The bytes for which a UE needs an uplink grant: what the last buffer status reports need with all headers, less the transport blocks of all cells that
    are still under way, never below zero; when nothing is left, the size of an SR grant if a scheduling request is pending and zero otherwise. *)
Theorem pending_ul_newtx_bytes_correct u cells : ul_mgr_ok u -> Forall cell_ok cells ->
  pending_ul_newtx_bytes u cells = Some (let b := Z.max 0 (groups_demand 0 (um_groups u) - cells_in_flight cells) in
                                         if 0 <? b then b else if um_sr_pending u then SR_GRANT_BYTES else 0).
Proof.
  intros [Hl Hg] Hc. unfold pending_ul_newtx_bytes, ul_pending_bytes. destruct (ul_pending_loop_sum _ Hg 0%nat 0 ltac:(lia)) as [-> H0]; [rewrite Hl; lia|].
  destruct (subtract_harq_bytes_max cells Hc (0 + groups_demand 0 (um_groups u)) ltac:(lia)) as [-> _]. done.
Qed.
Definition ul_demo : ul_logical_channel_manager := UlLcMgr (<[1%nat := Channel true 400]> (replicate 8 (Channel true 0))) true.
Lemma pending_ul_newtx_bytes_correct_witness : pending_ul_newtx_bytes ul_demo [] = Some 406
  /\ pending_ul_newtx_bytes ul_demo [] = Some (let b := Z.max 0 (groups_demand 0 (um_groups ul_demo) - 0) in if 0 <? b then b else if um_sr_pending ul_demo then SR_GRANT_BYTES else 0).
Proof.
  split; [reflexivity|]. apply (pending_ul_newtx_bytes_correct ul_demo []); [|constructor]. split; [done|]. repeat constructor; done.
Defined.

Lemma dl_set_statuses_spec active lcids : forall m, Forall (fun i => (i < length (dm_channels m))%nat) lcids ->
  exists m', dl_set_statuses m lcids active = Some m' /\ dm_con_res_id m' = dm_con_res_id m /\ dm_ces m' = dm_ces m
    /\ forall i c, dm_channels m !! i = Some c -> dm_channels m' !! i = Some (Channel (if decide (i ∈ lcids) then active else ch_active c) (ch_buf_st c)).
Proof.
  induction lcids as [|j l IH]; intros m HF; cbn [dl_set_statuses].
  { exists m. split_and!; [done..|]. intros i c Hi. rewrite decide_False by apply not_elem_of_nil. by destruct c. }
  apply Forall_cons_1 in HF as [Hj HF]. unfold dl_set_status. destruct (lookup_lt_is_Some_2 _ _ Hj) as [cj Hcj]. rewrite Hcj. cbn [mbind option_bind].
  destruct (IH (dm_with_channels m (<[j := Channel active (ch_buf_st cj)]> (dm_channels m)))) as (m' & -> & H1 & H2 & H3).
  { cbn. by rewrite length_insert. }
  exists m'. split_and!; [done..|]. intros i c Hi. destruct (decide (i = j)) as [->|Hne].
  - simplify_eq. rewrite (H3 j (Channel active (ch_buf_st cj))) by (cbn; by rewrite list_lookup_insert_eq). cbn. rewrite (decide_True (P := j ∈ j :: l)) by left. by destruct (decide (j ∈ l)).
  - rewrite (H3 i c) by (cbn; by rewrite list_lookup_insert_ne). do 2 f_equal. apply decide_ext. rewrite elem_of_cons. tauto.
Qed.
Lemma ul_set_statuses_spec active lcgs : forall u, Forall (fun i => (i < length (um_groups u))%nat) lcgs ->
  exists u', ul_set_statuses u lcgs active = Some u' /\ um_sr_pending u' = um_sr_pending u
    /\ forall i c, um_groups u !! i = Some c -> um_groups u' !! i = Some (Channel (if decide (i ∈ lcgs) then true else ch_active c) (ch_buf_st c)).
Proof.
  induction lcgs as [|j l IH]; intros u HF; cbn [ul_set_statuses].
  { exists u. split_and!; [done..|]. intros i c Hi. rewrite decide_False by apply not_elem_of_nil. by destruct c. }
  apply Forall_cons_1 in HF as [Hj HF]. unfold ul_set_status. destruct (lookup_lt_is_Some_2 _ _ Hj) as [cj Hcj]. rewrite Hcj. cbn [mbind option_bind].
  destruct (IH (UlLcMgr (<[j := Channel true (ch_buf_st cj)]> (um_groups u)) (um_sr_pending u))) as (u' & -> & H1 & H3).
  { cbn. by rewrite length_insert. }
  exists u'. split_and!; [done..|]. intros i c Hi. destruct (decide (i = j)) as [->|Hne].
  - simplify_eq. rewrite (H3 j (Channel true (ch_buf_st cj))) by (cbn; by rewrite list_lookup_insert_eq). cbn. rewrite (decide_True (P := j ∈ j :: l)) by left. by destruct (decide (j ∈ l)).
  - rewrite (H3 i c) by (cbn; by rewrite list_lookup_insert_ne). do 2 f_equal. apply decide_ext. rewrite elem_of_cons. tauto.
Qed.

(** Deactivating a UE does not stop its uplink.  [ue::deactivate] takes every downlink data bearer (LCIDs 4 to 32) out of scheduling and leaves the signalling
    bearers alone, but [ul_logical_channel_manager::set_status] ignores the status it is given: all eight uplink groups are active afterwards, also
    those that were not configured, with the bytes last reported, so that the UE is still given uplink grants. *)
Theorem deactivated_ue_keeps_uplink m u : length (dm_channels m) = MAX_NOF_RB_LCIDS -> length (um_groups u) = 8%nat ->
  exists m' u', ue_deactivate m u = Some (m', u')
    /\ (forall i c, dm_channels m !! i = Some c -> dm_channels m' !! i = Some (Channel (if decide (i < 4)%nat then ch_active c else false) (ch_buf_st c)))
    /\ (forall i c, um_groups u !! i = Some c -> um_groups u' !! i = Some (Channel true (ch_buf_st c))).
Proof.
  intros Hm Hu. unfold ue_deactivate. destruct (dl_set_statuses_spec false (seq 4 29) m) as (m' & -> & _ & _ & Hm').
  { rewrite Hm. apply list.Forall_forall. intros i Hi%elem_of_seq. unfold MAX_NOF_RB_LCIDS. lia. }
  cbn [mbind option_bind]. destruct (ul_set_statuses_spec false (seq 0 8) u) as (u' & -> & _ & Hu').
  { rewrite Hu. apply list.Forall_forall. intros i Hi%elem_of_seq. lia. }
  exists m', u'. split_and!; [done| |]; intros i c Hi; pose proof (lookup_lt_Some _ _ _ Hi) as Hlt.
  - rewrite (Hm' i c Hi). rewrite Hm in Hlt. unfold MAX_NOF_RB_LCIDS in Hlt. do 2 f_equal. case_decide as E; rewrite elem_of_seq in E; case_decide; try done; lia.
  - rewrite (Hu' i c Hi). rewrite Hu in Hlt. by rewrite decide_True by (apply elem_of_seq; lia).
Qed.
Lemma deactivated_ue_keeps_uplink_witness :
  exists m' u', ue_deactivate tb_demo (UlLcMgr (<[1%nat := Channel false 400]> (replicate 8 (Channel false 0))) false) = Some (m', u')
    /\ dm_channels m' !! 4%nat = Some (Channel false 600) /\ um_groups u' !! 1%nat = Some (Channel true 400) /\ pending_ul_newtx_bytes u' [] = Some 406.
Proof.
  destruct (deactivated_ue_keeps_uplink tb_demo (UlLcMgr (<[1%nat := Channel false 400]> (replicate 8 (Channel false 0))) false)) as (m' & u' & H & Hd & Hu); [done|done|].
  exists m', u'. split; [exact H|]. split; [by apply (Hd 4%nat (Channel true 600))|]. split; [by apply (Hu 1%nat (Channel false 400))|].
  vm_compute in H. by injection H as <- <-.
Defined.
