(* ===== verification/Bits.v ===== *)
(** * Bits of numbers and byte buffers

    Numbers and byte buffers as lists of bits, most significant bit first: the common
    language of the ASN.1 codec and of the bit buffers of the physical layer. *)
From S2P Require Import Prelude.

(** ** Bits of numbers and bytes, most significant first *)
Fixpoint bits_be (n : nat) (v : Z) : list bool := match n with O => [] | S n => Z.testbit v (Z.of_nat n) :: bits_be n v end.
Definition bytes_bits (l : bytes) : list bool := concat (map (bits_be 8) l).

Lemma bits_be_length n v : length (bits_be n v) = n.
Proof. induction n; cbn; auto. Qed.
Lemma bits_be_ext n v w : (forall i, 0 <= i < Z.of_nat n -> Z.testbit v i = Z.testbit w i) -> bits_be n v = bits_be n w.
Proof. induction n as [|n IH]; intros H; [done|]. cbn [bits_be]. f_equal; [apply H; lia|]. apply IH. intros i Hi. apply H. lia. Qed.
Lemma bits_be_inj n v w : bits_be n v = bits_be n w -> v mod 2 ^ Z.of_nat n = w mod 2 ^ Z.of_nat n.
Proof.
  intros H. apply Z.bits_inj'. intros i Hi. destruct (decide (i < Z.of_nat n)) as [Hlt|Hge].
  - rewrite !Z.mod_pow2_bits_low by lia. revert i Hi Hlt. induction n as [|n IH]; intros i Hi Hlt; [lia|]. cbn [bits_be] in H. injection H as H0 H.
    destruct (decide (i = Z.of_nat n)) as [->|]; [done|]. apply IH; [done|lia|lia].
  - by rewrite !Z.mod_pow2_bits_high by lia.
Qed.
Lemma bits_be_mod n v : bits_be n (v mod 2 ^ Z.of_nat n) = bits_be n v.
Proof. apply bits_be_ext. intros i Hi. by rewrite Z.mod_pow2_bits_low by lia. Qed.
Lemma bits_be_mod_Z n v : 0 <= n -> bits_be (Z.to_nat n) (v mod 2 ^ n) = bits_be (Z.to_nat n) v.
Proof. intros Hn. rewrite <-(bits_be_mod (Z.to_nat n) v). by rewrite Z2Nat.id by lia. Qed.
Lemma bits_be_split a b v : bits_be (a + b) v = bits_be a (v / 2 ^ Z.of_nat b) ++ bits_be b v.
Proof.
  induction a as [|a IH]; [done|]. cbn [bits_be Nat.add app]. rewrite IH. f_equal. rewrite Z.div_pow2_bits by lia. f_equal. lia.
Qed.
Lemma bits_be_app a b x v : 0 <= v < 2 ^ Z.of_nat b -> bits_be (a + b) (x * 2 ^ Z.of_nat b + v) = bits_be a x ++ bits_be b v.
Proof.
  intros Hv. rewrite bits_be_split, Z.div_add_l, Z.div_small, Z.add_0_r by lia. f_equal. apply bits_be_ext. intros i Hi.
  rewrite <-(Z.mod_pow2_bits_low _ (Z.of_nat b)) by lia. f_equal. rewrite Z.add_comm, Z.mod_add by lia. by rewrite Z.mod_small.
Qed.
Lemma bits_be_zero n : bits_be n 0 = replicate n false.
Proof. induction n as [|n IH]; [done|]. cbn. by rewrite IH, Z.testbit_0_l. Qed.
Lemma bytes_bits_app a b : bytes_bits (a ++ b) = bytes_bits a ++ bytes_bits b.
Proof. unfold bytes_bits. by rewrite map_app, concat_app. Qed.
Lemma bytes_bits_length l : length (bytes_bits l) = (8 * length l)%nat.
Proof. induction l as [|x l IH]; [done|]. change (bytes_bits (x :: l)) with (bits_be 8 x ++ bytes_bits l). rewrite length_app, IH, bits_be_length. cbn. lia. Qed.
(** A field of [n] bits in the middle of a number. *)
Lemma bits_be_mid a n c v : bits_be (a + (n + c)) v = bits_be a (v / 2 ^ Z.of_nat (n + c)) ++ bits_be n (v / 2 ^ Z.of_nat c) ++ bits_be c v.
Proof. by rewrite !bits_be_split. Qed.
(** A number that agrees with [v] in a field and with [x] elsewhere. *)
Lemma bits_be_patch a n c new x v :
  (forall i, 0 <= i < Z.of_nat c -> Z.testbit new i = Z.testbit x i) ->
  (forall i, 0 <= i < Z.of_nat n -> Z.testbit new (i + Z.of_nat c) = Z.testbit v i) ->
  (forall i, Z.of_nat (n + c) <= i < Z.of_nat (a + (n + c)) -> Z.testbit new i = Z.testbit x i) ->
  bits_be (a + (n + c)) new = bits_be a (x / 2 ^ Z.of_nat (n + c)) ++ bits_be n v ++ bits_be c x.
Proof.
  intros Hc Hn Ha. rewrite bits_be_mid. f_equal; [|f_equal].
  - apply bits_be_ext. intros i Hi. rewrite !Z.div_pow2_bits by lia. apply Ha. lia.
  - apply bits_be_ext. intros i Hi. rewrite Z.div_pow2_bits by lia. apply Hn. lia.
  - by apply bits_be_ext.
Qed.
Lemma bytes_bits_lookup (w : bytes) k x : w !! k = Some x -> bytes_bits w = bytes_bits (take k w) ++ bits_be 8 x ++ bytes_bits (drop (S k) w).
Proof. intros Hx. rewrite <-(take_drop_middle w k x Hx) at 1. rewrite bytes_bits_app. f_equal. Qed.
Lemma bytes_bits_cons x l : bytes_bits (x :: l) = bits_be 8 x ++ bytes_bits l.
Proof. done. Qed.
(** Fields of a list that is given in pieces. *)
Lemma field_middle {A} (a b c : list A) s n : s = length a -> n = length b -> take n (drop s (a ++ b ++ c)) = b.
Proof. intros -> ->. by rewrite drop_app_length, take_app_length. Qed.
Lemma field_take {A} (l : list A) m s n : (s + n <= m)%nat -> take n (drop s (take m l)) = take n (drop s l).
Proof. intros H. rewrite !take_drop_commute, take_take. do 2 f_equal. lia. Qed.
Lemma bits_be_byte_two x y : 0 <= y < 256 -> bits_be 16 (x * 256 + y) = bits_be 8 x ++ bits_be 8 y.
Proof. intros Hy. change 256 with (2 ^ Z.of_nat 8). change 16%nat with (8 + 8)%nat. apply bits_be_app. exact Hy. Qed.
(** A number has no bits above its width. *)
Lemma testbit_high v n i : 0 <= v < 2 ^ n -> 0 <= n <= i -> Z.testbit v i = false.
Proof. intros Hv Hi. rewrite <-(Z.mod_small v (2 ^ n)) by lia. apply Z.mod_pow2_bits_high. lia. Qed.
