(* ===== verification/Asn1.v ===== *)
(** * ASN.1 packed encoding rules

    lib/asn1/asn1_utils.cpp and include/srsran/asn1/asn1_utils.h: the bit-wise writer
    and reader and the encoders and decoders (X.691, aligned and unaligned) on which
    all generated RRC, NGAP, F1AP and E1AP messages are built. *)
From S2P Require Import Prelude.

(** ** Results

    A packer returns its code with the writer.  [None] is a failed assertion or an
    undefined operation (an iterator dereferenced at the end of its buffer, a
    floating-point value without an integer). *)
Inductive SRSASN_CODE := SRSASN_SUCCESS | SRSASN_ERROR_DECODE_FAIL | SRSASN_ERROR_ENCODE_FAIL | SRSASN_ERROR.
#[export] Instance SRSASN_CODE_eq_dec : EqDecision SRSASN_CODE.
Proof. solve_decision. Defined.

(** The position of a [bit_ref] is the end of its buffer; [br_offset] counts the bits used of the last byte, 0 when it is full. *)
Record bit_ref := BitRef { br_writer : bytes; br_offset : Z }.
Record cbit_ref := CBitRef { cb_buffer : bytes; cb_it : nat; cb_offset : Z }.
Definition bit_ref_new : bit_ref := BitRef [] 0.
Definition cbit_ref_of (b : bytes) : cbit_ref := CBitRef b 0 0.

Abbreviation pack_result := (option (SRSASN_CODE * bit_ref)).
(** A failed decoder may have written its result before. *)
Inductive unpack_res (A : Type) := UOk (x : A) (c : cbit_ref) | UErr (code : SRSASN_CODE) (x : option A) (c : cbit_ref).
Arguments UOk {A}.
Arguments UErr {A}.
Abbreviation unpack_result A := (option (unpack_res A)).

(** [HANDLE_CODE] *)
Definition handle_pack (r : pack_result) (k : bit_ref -> pack_result) : pack_result :=
  match r with Some (SRSASN_SUCCESS, b) => k b | r => r end.
Definition handle_unpack {A B} (r : unpack_result A) (k : A -> cbit_ref -> unpack_result B) : unpack_result B :=
  match r with Some (UOk x c) => k x c | Some (UErr e _ c) => Some (UErr e None c) | None => None end.
Notation "'let!' b ':=' e 'in' k" := (handle_pack e (fun b => k)) (at level 10, b name, e at level 200, k at level 200) : fail_scope.
Notation "'let!' ( x , c ) ':=' e 'in' k" := (handle_unpack e (fun x c => k)) (at level 10, x name, c name, e at level 200, k at level 200) : fail_scope.
Definition pack_ok (b : bit_ref) : pack_result := Some (SRSASN_SUCCESS, b).
Definition encode_fail (b : bit_ref) : pack_result := Some (SRSASN_ERROR_ENCODE_FAIL, b).
Definition decode_fail {A} (c : cbit_ref) : unpack_result A := Some (UErr SRSASN_ERROR_DECODE_FAIL None c).

(** ** Integer types *)
Record int_type := IntType { it_signed : bool; it_width : Z }.
Definition uint8 : int_type := IntType false 8.
Definition uint32 : int_type := IntType false 32.
Definition uint64 : int_type := IntType false 64.
Definition it_min (t : int_type) : Z := if it_signed t then - 2 ^ (it_width t - 1) else 0.
Definition it_max (t : int_type) : Z := it_min t + 2 ^ it_width t - 1.
Definition it_conv (t : int_type) (x : Z) : Z := (x - it_min t) mod 2 ^ it_width t + it_min t.
(** Operands narrower than [int] are promoted to it. *)
Definition it_promote (t : int_type) : int_type := if it_width t <? 32 then IntType true 32 else t.
Definition ceil_frac (n d : Z) : Z := (n + (d - 1)) / d.

(** ** Bit-wise writer *)
Definition last_add (w : bytes) (x : Z) : bytes :=
  match rev w with [] => [] | l :: r => rev (u8 (l + x) :: r) end.
Fixpoint pack_loop (fuel : nat) (w : bytes) (offset val n_bits : Z) : pack_result :=
  match fuel with
  | O => None
  | S fuel =>
      if n_bits <=? 0 then pack_ok (BitRef w offset)
      else
        let w := if offset =? 0 then w ++ [0] else w in
        let val := Z.land val (Z.shiftl 1 n_bits - 1) in
        if n_bits <? 8 - offset then
          pack_loop fuel (last_add w (u8 (Z.shiftl val (8 - offset - n_bits)))) (offset + n_bits) val 0
        else
          pack_loop fuel (last_add w (u8 (Z.shiftr val (n_bits - 8 + offset)))) 0 val (n_bits - (8 - offset))
  end.
(** Every iteration packs at least one bit. *)
Definition bref_pack (b : bit_ref) (val n_bits : Z) : pack_result :=
  if n_bits <? 64 then pack_loop (S (Z.to_nat n_bits)) (br_writer b) (br_offset b) (u64 val) n_bits else None.
Fixpoint pack_each (b : bit_ref) (l : bytes) : pack_result :=
  match l with [] => pack_ok b | x :: l => let! b := bref_pack b x 8 in pack_each b l end.
Definition bref_pack_bytes (b : bit_ref) (l : bytes) : pack_result :=
  if br_offset b =? 0 then pack_ok (BitRef (br_writer b ++ l) (br_offset b)) else pack_each b l.
Definition align_bytes_zero (b : bit_ref) : pack_result := pack_ok (BitRef (br_writer b) 0).
Definition bref_distance_bytes (b : bit_ref) : Z := blen (br_writer b).
Definition bref_distance (b : bit_ref) : Z := 8 * (blen (br_writer b) - (if br_offset b =? 0 then 0 else 1)) + br_offset b.

(** ** Bit-wise reader

    [norm] converts to the type of the variable that is read into. *)
Fixpoint unpack_loop (fuel : nat) (norm : Z -> Z) (val : Z) (c : cbit_ref) (n_bits : Z) : unpack_result Z :=
  match fuel with
  | O => None
  | S fuel =>
      if n_bits <=? 0 then Some (UOk val c)
      else
        let off := cb_offset c in
        let* byte := cb_buffer c !! cb_it c in
        if n_bits <? 8 - off then
          let mask := u8 (u8 (Z.shiftl 1 (8 - off)) - u8 (Z.shiftl 1 (8 - off - n_bits))) in
          unpack_loop fuel norm (norm (val + Z.shiftr (Z.land byte mask) (8 - off - n_bits))) (CBitRef (cb_buffer c) (cb_it c) (off + n_bits)) 0
        else
          let mask := u8 (Z.shiftl 1 (8 - off) - 1) in
          let val := norm (val + u64 (Z.shiftl (Z.land byte mask) (n_bits - 8 + off))) in
          if decide (cb_it c = length (cb_buffer c)) then Some (UErr SRSASN_ERROR_DECODE_FAIL (Some val) (CBitRef (cb_buffer c) (cb_it c) 0))
          else unpack_loop fuel norm val (CBitRef (cb_buffer c) (S (cb_it c)) 0) (n_bits - (8 - off))
  end.
Definition cbref_unpack (t : int_type) (c : cbit_ref) (n_bits : Z) : unpack_result Z :=
  if n_bits <=? it_width t then unpack_loop (S (Z.to_nat n_bits)) (it_conv t) 0 c n_bits else None.
Definition bool_conv (x : Z) : Z := if x =? 0 then 0 else 1.
Definition cbref_unpack_bool (c : cbit_ref) (n_bits : Z) : unpack_result bool :=
  if n_bits <=? 8 then
    match unpack_loop (S (Z.to_nat n_bits)) bool_conv 0 c n_bits with
    | Some (UOk x c) => Some (UOk (negb (x =? 0)) c)
    | Some (UErr e _ c) => Some (UErr e None c)
    | None => None
    end
  else None.
Definition align_bytes (c : cbit_ref) : unpack_result unit :=
  if negb (cb_offset c =? 0) then
    if decide (cb_it c = length (cb_buffer c)) then decode_fail c
    else Some (UOk () (CBitRef (cb_buffer c) (S (cb_it c)) 0))
  else Some (UOk () c).
Definition cbref_distance (c : cbit_ref) : Z := cb_offset c + 8 * Z.of_nat (cb_it c).
Definition cbref_distance_bytes (c : cbit_ref) : Z := Z.of_nat (cb_it c) + if cb_offset c =? 0 then 0 else 1.
Definition advance_bits (c : cbit_ref) (n_bits : Z) : unpack_result unit :=
  let extra_bits := u32 (cb_offset c + n_bits) mod 8 in
  let bytes_required := ceil_frac (u32 (cb_offset c + n_bits)) 8 in
  let bytes_offset := u32 (cb_offset c + n_bits) / 8 in
  if blen (cb_buffer c) - Z.of_nat (cb_it c) <? bytes_required then decode_fail c
  else Some (UOk () (CBitRef (cb_buffer c) (cb_it c + Z.to_nat bytes_offset) extra_bits)).

(** [unpack_bytes] into a span of [n] bytes.  The aligned case copies the whole buffer from its begin into the span: a longer buffer is written beyond the span. *)
Fixpoint unpack_each (c : cbit_ref) (n : nat) : unpack_result bytes :=
  match n with
  | O => Some (UOk [] c)
  | S n => let! (x, c) := cbref_unpack uint8 c 8 in let! (l, c) := unpack_each c n in Some (UOk (x :: l) c)
  end.
Definition cbref_unpack_bytes (c : cbit_ref) (span : bytes) : unpack_result bytes :=
  if decide (span = []) then Some (UOk [] c)
  else if blen (cb_buffer c) - Z.of_nat (cb_it c) <? blen span then decode_fail c
  else if cb_offset c =? 0 then
    if blen span <? blen (cb_buffer c) then None
    else Some (UOk (cb_buffer c ++ drop (length (cb_buffer c)) span) (CBitRef (cb_buffer c) (cb_it c + length span) 0))
  else unpack_each c (length span).

(** ** Floating point

    The sizes of fields are computed in single precision.  [float_of] is the conversion
    of an integer to [float] (round to nearest, ties to even, 24 bits); the functions of
    libm are a parameter, with what the conversions of their results to integers give:
    [ceilf(log2f(x))], [floorf(log2f(x) + 1)], [ceilf((log2f(x) + 1) / 8)] and
    [ceilf(log2(x))] (in double precision). *)
Definition float_of (x : Z) : Z :=
  if x <=? 0 then x
  else
    let e := Z.log2 x - 23 in
    if e <=? 0 then x
    else
      let q := x / 2 ^ e in let r := x mod 2 ^ e in
      let up := (2 ^ (e - 1) <? r) || ((r =? 2 ^ (e - 1)) && Z.odd q) in
      (if up then q + 1 else q) * 2 ^ e.
Class Log2f := {
  ceilf_log2f : Z -> Z;
  floorf_log2f_1 : Z -> Z;
  ceilf_log2f_8 : Z -> Z;
  ceilf_log2 : Z -> Z;
}.
(** Exact at powers of two; the right integer when the argument is clear of the powers of
    two by one part in 2^17, far more than the precision of the result (24 bits, below
    64); at worst the next integer otherwise. *)
Class Log2fLaws `{Log2f} : Prop := {
  ceilf_log2f_pow2 k : 0 <= k <= 64 -> ceilf_log2f (2 ^ k) = k;
  ceilf_log2f_clear k x : 0 <= k < 64 -> 2 ^ k < x <= 2 ^ (k + 1) -> 2 ^ k + 2 ^ (k - 17) <= x -> ceilf_log2f x = k + 1;
  floorf_log2f_clear k x : 0 <= k < 64 -> 2 ^ k <= x -> x + 2 ^ (k - 16) <= 2 ^ (k + 1) -> x < 2 ^ (k + 1) -> floorf_log2f_1 x = k + 1;
  floorf_log2f_range k x : 0 <= k < 64 -> 2 ^ k <= x <= 2 ^ (k + 1) -> k + 1 <= floorf_log2f_1 x <= k + 2;
  floorf_log2f_pow2 k : 0 <= k <= 64 -> floorf_log2f_1 (2 ^ k) = k + 1;
  ceilf_log2f_8_small x : 1 <= x <= 2 ^ 16 -> ceilf_log2f_8 x = ceil_frac (Z.log2_up x + 1) 8;
  ceilf_log2_small x : 1 <= x <= 2 ^ 16 -> ceilf_log2 x = Z.log2_up x;
}.

Section Per.
Context `{Log2f}.
Definition ASN_16K : Z := 16384.
Definition ASN_64K : Z := 65536.

(** ** Extension marker and enumerations *)
Definition pack_unsupported_ext_flag (b : bit_ref) (ext : bool) : pack_result :=
  let! b := bref_pack b (Z.b2z ext) 1 in if ext then encode_fail b else pack_ok b.
Definition unpack_unsupported_ext_flag (c : cbit_ref) : unpack_result bool :=
  match cbref_unpack_bool c 1 with
  | Some (UOk ext c) => if ext then Some (UErr SRSASN_ERROR_DECODE_FAIL (Some ext) c) else Some (UOk ext c)
  | r => r
  end.

(** X.691, 10.6: normally small non-negative whole numbers *)
Definition pack_norm_small_non_neg_whole_number (b : bit_ref) (n : Z) : pack_result :=
  if n <=? 63 then let! b := bref_pack b n 7 in pack_ok b
  else let! b := bref_pack b 1 1 in encode_fail b.
Definition unpack_norm_small_non_neg_whole_number (t : int_type) (c : cbit_ref) : unpack_result Z :=
  let! (ext, c) := cbref_unpack_bool c 1 in
  if negb ext then cbref_unpack t c 6 else decode_fail c.

Definition pack_enum_bits (b : bit_ref) (enum_val nbits : Z) : pack_result := bref_pack b enum_val nbits.
Definition pack_enum_ext (b : bit_ref) (enum_val nbits nof_noext : Z) : pack_result :=
  let ext := nof_noext <=? enum_val in
  let! b := bref_pack b (Z.b2z ext) 1 in
  if negb ext then bref_pack b enum_val nbits else pack_norm_small_non_neg_whole_number b (u32 (enum_val - nof_noext)).
Definition pack_enum (b : bit_ref) (e nof_types nof_exts : Z) (has_ext : bool) : pack_result :=
  if nof_types <=? e then encode_fail b
  else if has_ext then pack_enum_ext b e (ceilf_log2f (float_of (u32 (nof_types - nof_exts)))) (u32 (nof_types - nof_exts))
  else pack_enum_bits b e (ceilf_log2f (float_of nof_types)).
(** [unpack_enum]: the value is checked also when its decoding failed. *)
Definition check_enum (nof_types : Z) (r : unpack_result Z) : unpack_result Z :=
  match r with
  | Some (UOk v c) => if nof_types <=? v then Some (UErr SRSASN_ERROR_DECODE_FAIL (Some v) c) else Some (UOk v c)
  | r => r
  end.
Definition unpack_enum (nof_types nof_exts : Z) (has_ext : bool) (c : cbit_ref) : unpack_result Z :=
  if has_ext then
    match cbref_unpack_bool c 1 with
    | Some (UOk ext c) =>
        check_enum nof_types
          (if negb ext then cbref_unpack uint32 c (ceilf_log2f (float_of (u32 (nof_types - nof_exts))))
           else match unpack_norm_small_non_neg_whole_number uint32 c with
                | Some (UOk v c) => Some (UOk (u32 (v + u32 (nof_types - nof_exts))) c)
                | Some (UErr e v c) => Some (UErr e (Some (u32 (default 0 v + u32 (nof_types - nof_exts)))) c)
                | None => None
                end)
    | Some (UErr e _ c) => Some (UErr e (Some 0) c)
    | None => None
    end
  else check_enum nof_types (cbref_unpack uint32 c (ceilf_log2f (float_of nof_types))).

(** ** X.691, 10.5: constrained whole numbers *)
Definition int_range (t : int_type) (lb ub : Z) : Z := u64 (u64 (it_conv (it_promote t) (ub - lb)) + 1).
Definition pack_constrained_whole_number (t : int_type) (b : bit_ref) (n lb ub : Z) (aligned : bool) : pack_result :=
  if (ub <? lb) || (n <? lb) || (ub <? n) then encode_fail b
  else
    let ra := int_range t lb ub in
    if ra =? 1 then pack_ok b
    else
      let n_bits := ceilf_log2f (float_of ra) in
      let toencode := it_conv t (n - lb) in
      if negb aligned then let* (_, b) := bref_pack b toencode n_bits in pack_ok b
      else if ra <? 256 then bref_pack b toencode n_bits
      else if ra <=? ASN_64K then
        let n_octets := ceil_frac n_bits 8 in
        let! b := align_bytes_zero b in
        let! b := bref_pack b 0 (n_octets * 8 - n_bits) in
        let! b := bref_pack b toencode n_bits in
        align_bytes_zero b
      else
        let n_bits_len := ceilf_log2f (float_of (ceil_frac n_bits 8)) in
        let n_bits := floorf_log2f_1 (float_of (Z.max toencode 1)) in
        let n_octets := ceil_frac n_bits 8 in
        let! b := bref_pack b (u32 (n_octets - 1)) n_bits_len in
        let! b := align_bytes_zero b in
        bref_pack b toencode (n_octets * 8).
Definition unpack_constrained_whole_number (t : int_type) (c : cbit_ref) (lb ub : Z) (aligned : bool) : unpack_result Z :=
  if ub <? lb then decode_fail c
  else
    let ra := int_range t lb ub in
    if ra =? 1 then Some (UOk lb c)
    else
      let n_bits := ceilf_log2f (float_of ra) in
      if negb aligned then
        let! (n, c) := cbref_unpack t c n_bits in
        let n := it_conv t (n + lb) in
        if ub <? n then Some (UErr SRSASN_ERROR_DECODE_FAIL (Some n) c) else Some (UOk n c)
      else if ra <? 256 then
        let! (n, c) := cbref_unpack t c n_bits in Some (UOk (it_conv t (n + lb)) c)
      else if ra <=? ASN_64K then
        let! (_u, c) := align_bytes c in
        let! (n, c) := cbref_unpack t c (ceil_frac n_bits 8 * 8) in
        let! (_u, c) := align_bytes c in Some (UOk (it_conv t (n + lb)) c)
      else
        let! (n_octets, c) := cbref_unpack uint32 c (ceilf_log2f (float_of (ceil_frac n_bits 8))) in
        let! (_u, c) := align_bytes c in
        let! (n, c) := cbref_unpack t c (u32 (u32 (n_octets + 1) * 8)) in Some (UOk (it_conv t (n + lb)) c).

(** ** X.691, 10.8 and 10.9: unconstrained whole numbers and length determinants *)
Definition unconstrained_whole_number_length (t : int_type) (n : Z) : option Z :=
  if n <=? 0 then None else Some (it_conv t (ceilf_log2f_8 (float_of n))).
Definition pack_unconstrained_whole_number (t : int_type) (b : bit_ref) (n : Z) (aligned : bool) : pack_result :=
  let* len := unconstrained_whole_number_length t n in
  let! b := if aligned then align_bytes_zero b else pack_ok b in
  let! b := bref_pack b n (u32 (u32 len * 8)) in pack_ok b.
Definition unpack_unconstrained_whole_number (t : int_type) (c : cbit_ref) (len : Z) (aligned : bool) : unpack_result Z :=
  let! (_u, c) := if aligned then align_bytes c else Some (UOk () c) in cbref_unpack t c (u32 (len * 8)).

Definition pack_length_det (b : bit_ref) (val : Z) (aligned : bool) : pack_result :=
  if negb aligned then
    if val <? 128 then let! b := bref_pack b val 8 in pack_ok b
    else if val <? ASN_16K then
      let! b := bref_pack b 2 2 in let! b := bref_pack b val 14 in pack_ok b
    else encode_fail b
  else if ASN_64K <? val then encode_fail b
  else
    let! b := align_bytes_zero b in
    if val <? 128 then bref_pack b val 8
    else if val <? ASN_16K then let! b := bref_pack b 2 2 in bref_pack b val 14
    else
      let! b := bref_pack b 3 2 in
      let m := val / ASN_16K in
      let! b := bref_pack b m 6 in bref_pack b (val - m * ASN_16K) 16.
Definition unpack_length_det (c : cbit_ref) (aligned : bool) : unpack_result Z :=
  if negb aligned then
    let! (ext, c) := cbref_unpack_bool c 1 in
    if negb ext then cbref_unpack uint32 c 7
    else
      let! (ext, c) := cbref_unpack_bool c 1 in
      if negb ext then cbref_unpack uint32 c 14 else Some (UErr SRSASN_ERROR_DECODE_FAIL (Some 0) c)
  else
    let! (_u, c) := align_bytes c in
    let! (val, c) := cbref_unpack uint32 c 8 in
    if val <? 128 then Some (UOk val c)
    else
      let val := val - 128 in
      if val <? 64 then
        let! (val_octet_2, c) := cbref_unpack uint32 c 8 in Some (UOk (Z.shiftl val 8 + val_octet_2) c)
      else Some (UErr SRSASN_ERROR_DECODE_FAIL (Some val) c).
(** [pack_length] and [unpack_length] with bounds *)
Definition pack_length (t : int_type) (b : bit_ref) (n lb ub : Z) (aligned : bool) : pack_result :=
  if ASN_64K <=? ub then pack_length_det b (u32 n) aligned else pack_constrained_whole_number t b n lb ub aligned.
Definition unpack_length (t : int_type) (c : cbit_ref) (lb ub : Z) (aligned : bool) : unpack_result Z :=
  if ASN_64K <=? ub then
    match unpack_length_det c aligned with
    | Some (UOk len c) => Some (UOk (it_conv t len) c)
    | r => r
    end
  else unpack_constrained_whole_number t c lb ub aligned.

(** ** Integers *)
Definition lower_bounded (t : int_type) (lb : Z) : bool := negb (lb =? it_min t) || negb (it_signed t).
Definition upper_bounded (t : int_type) (ub : Z) : bool := negb (ub =? it_max t).
Definition pack_integer (t : int_type) (b : bit_ref) (n lb ub : Z) (has_ext aligned : bool) : pack_result :=
  let within_bounds := (lb <=? n) && (n <=? ub) in
  let! b := if has_ext then bref_pack b (Z.b2z (negb within_bounds)) 1 else if negb within_bounds then encode_fail b else pack_ok b in
  if within_bounds && lower_bounded t lb && upper_bounded t ub then
    if lb =? ub then pack_ok b else let! b := pack_constrained_whole_number t b n lb ub aligned in pack_ok b
  else if negb within_bounds || (negb (lower_bounded t lb) && negb (upper_bounded t ub)) then
    let* len := unconstrained_whole_number_length t n in
    let! b := pack_length_det b (u32 len) aligned in
    let! b := pack_unconstrained_whole_number t b n aligned in pack_ok b
  else pack_ok b.
(** [n] is the value of the variable before the call. *)
Definition unpack_integer (t : int_type) (n : Z) (c : cbit_ref) (lb ub : Z) (has_ext aligned : bool) : unpack_result Z :=
  let! (out, c) := if has_ext then cbref_unpack_bool c 1 else Some (UOk false c) in
  let within_bounds := negb out in
  if within_bounds && lower_bounded t lb && upper_bounded t ub then
    if lb =? ub then Some (UOk n c) else unpack_constrained_whole_number t c lb ub aligned
  else if negb within_bounds || (negb (lower_bounded t lb) && negb (upper_bounded t ub)) then
    let! (len, c) := unpack_length_det c aligned in unpack_unconstrained_whole_number t c len aligned
  else Some (UOk n c).

(** ** Octet strings

    [octet_string_helper::to_uint] and [to_octet_string] *)
Definition to_uint (buf : bytes) : Z :=
  let nbytes := length buf in
  if (8 <? nbytes)%nat then 0
  else foldl (fun val i => u64 (val + u64 (Z.shiftl (nth (nbytes - 1 - i) buf 0) (Z.of_nat i * 8)))) 0 (seq 0 nbytes).
(** A shift by 64 bits or more is undefined. *)
Definition to_octet_string (buf : bytes) (number : Z) : option bytes :=
  let nbytes := length buf in
  if (8 <=? nbytes)%nat then None
  else if Z.shiftl 1 (8 * Z.of_nat nbytes) <=? number then Some buf
  else Some (rev (map (fun i => Z.land (Z.shiftr number (Z.of_nat i * 8)) 0xff) (seq 0 nbytes))).

(** [fixed_octstring<N, aligned>]: the codes of the single bytes and of the alignment are not looked at. *)
Fixpoint pack_each_unchecked (b : bit_ref) (l : bytes) : pack_result :=
  match l with [] => pack_ok b | x :: l => let* (_, b) := bref_pack b x 8 in pack_each_unchecked b l end.
Definition align_unchecked (c : cbit_ref) : option cbit_ref :=
  match align_bytes c with Some (UOk _ c) | Some (UErr _ _ c) => Some c | None => None end.
Definition fixed_octstring_pack (aligned : bool) (b : bit_ref) (octets : bytes) : pack_result :=
  let* (_, b) := if aligned && (2 <? blen octets) then align_bytes_zero b else pack_ok b in pack_each_unchecked b octets.
Definition fixed_octstring_unpack (n : nat) (aligned : bool) (c : cbit_ref) : unpack_result bytes :=
  let* c := if aligned && (2 <? Z.of_nat n) then align_unchecked c else Some c in unpack_each c n.
(** [bounded_octstring<LB, UB, aligned>] *)
Definition bounded_octstring_pack (lb ub : Z) (aligned : bool) (b : bit_ref) (octets : bytes) : pack_result :=
  let! b := pack_length uint32 b (blen octets) lb ub aligned in
  let* (_, b) := if aligned then align_bytes_zero b else pack_ok b in pack_each b octets.
Definition bounded_octstring_unpack (lb ub : Z) (aligned : bool) (c : cbit_ref) : unpack_result bytes :=
  let! (len, c) := unpack_length uint32 c lb ub aligned in
  let* c := if aligned then align_unchecked c else Some c in unpack_each c (Z.to_nat len).
(** [unbounded_octstring<aligned>] *)
Definition unbounded_octstring_pack (aligned : bool) (b : bit_ref) (octets : bytes) : pack_result :=
  let! b := pack_length_det b (u32 (blen octets)) aligned in pack_each_unchecked b octets.
Definition unbounded_octstring_unpack (aligned : bool) (c : cbit_ref) : unpack_result bytes :=
  let! (len, c) := unpack_length_det c aligned in unpack_each c (Z.to_nat len).

(** ** Bit strings

    The bits of a bit string, from the last one on, are the bits of its octets from the
    least significant bit of the first octet on. *)
Definition NO_UB : Z := 2 ^ 32 - 1.
Definition pack_length_prefix (b : bit_ref) (len lb ub : Z) (has_ext is_aligned : bool) : pack_result :=
  if has_ext && (ub =? NO_UB) then encode_fail b
  else
    let within_bounds := (lb <=? len) && (len <=? ub) in
    if negb within_bounds && negb has_ext then encode_fail b
    else
      let! b := if has_ext then bref_pack b (Z.b2z (negb within_bounds)) 1 else pack_ok b in
      if (lb =? ub) && within_bounds then pack_ok b
      else if (ub =? NO_UB) || negb within_bounds then pack_length_det b len false
      else
        let! b := bref_pack b (u32 (len - lb)) (ceilf_log2 (ub - lb)) in
        let! b := if is_aligned then align_bytes_zero b else pack_ok b in pack_ok b.
Definition bitfield_aligned (lb ub : Z) (is_aligned : bool) : bool := is_aligned && (negb (lb =? ub) || (16 <? ub)).
Definition pack_bitfield (b : bit_ref) (buf : bytes) (nbits lb ub : Z) (is_aligned : bool) : pack_result :=
  if nbits =? 0 then encode_fail b
  else
    let* (_, b) := if bitfield_aligned lb ub is_aligned then align_bytes_zero b else pack_ok b in
    match rev (take (Z.to_nat (ceil_frac nbits 8)) buf) with
    | [] => None
    | top :: l => let! b := bref_pack b top ((nbits - 1) mod 8 + 1) in pack_each b l
    end.
Definition bitstring_pack (lb ub : Z) (has_ext is_aligned : bool) (b : bit_ref) (x : Z * bytes) : pack_result :=
  let! b := pack_length_prefix b x.1 lb ub has_ext is_aligned in pack_bitfield b x.2 x.1 lb ub is_aligned.
Definition unpack_length_prefix (c : cbit_ref) (lb ub : Z) (has_ext is_aligned : bool) : unpack_result Z :=
  let! (ext, c) := if has_ext then cbref_unpack_bool c 1 else Some (UOk false c) in
  if (ub =? NO_UB) || ext then unpack_length_det c is_aligned
  else if lb =? ub then Some (UOk lb c)
  else unpack_length uint32 c lb ub is_aligned.
Definition unpack_bitfield (c : cbit_ref) (n lb ub : Z) (is_aligned : bool) : unpack_result bytes :=
  if ASN_64K <? n then decode_fail c
  else if n =? 0 then Some (UOk [] c)
  else
    let* c := if bitfield_aligned lb ub is_aligned then align_unchecked c else Some c in
    let! (top, c) := cbref_unpack uint8 c ((n - 1) mod 8 + 1) in
    let! (l, c) := unpack_each c (Z.to_nat (ceil_frac n 8 - 1)) in Some (UOk (rev (top :: l)) c).
Definition bitstring_unpack (lb ub : Z) (has_ext is_aligned : bool) (c : cbit_ref) : unpack_result (Z * bytes) :=
  let! (nbits, c) := unpack_length_prefix c lb ub has_ext is_aligned in
  let! (buf, c) := unpack_bitfield c nbits lb ub is_aligned in Some (UOk (nbits, buf) c).
(** [bitstring_utils::from_number] and [to_number] *)
Definition bitstring_from_number (number nbits : Z) : bytes :=
  map (fun i => let x := Z.land (Z.shiftr number (Z.of_nat i * 8)) 0xff in
                if (Z.of_nat (S i) =? ceil_frac nbits 8) && (0 <? nbits mod 8) then Z.land x (Z.shiftl 1 (nbits mod 8) - 1) else x)
      (seq 0 (Z.to_nat (ceil_frac nbits 8))).
Definition bitstring_to_number (buf : bytes) (nbits : Z) : Z :=
  if 64 <? nbits then 0
  else foldl (fun val i => u64 (val + u64 (Z.shiftl (nth i buf 0) (Z.of_nat i * 8)))) 0 (seq 0 (Z.to_nat (ceil_frac nbits 8))).
End Per.

(** ** Composite types

    What the templates for SEQUENCE OF require of their items. *)
Class Asn1Codec (A : Type) := { asn_pack : bit_ref -> A -> pack_result; asn_unpack : cbit_ref -> unpack_result A }.
Section Composite.
Context `{Log2f}.

Section SeqOf.
Context {A : Type} `{!Asn1Codec A}.
Fixpoint pack_fixed_seq_of (b : bit_ref) (l : list A) : pack_result :=
  match l with [] => pack_ok b | x :: l => let! b := asn_pack b x in pack_fixed_seq_of b l end.
Fixpoint unpack_fixed_seq_of (c : cbit_ref) (nof_items : nat) : unpack_result (list A) :=
  match nof_items with
  | O => Some (UOk [] c)
  | S n => let! (x, c) := asn_unpack c in let! (l, c) := unpack_fixed_seq_of c n in Some (UOk (x :: l) c)
  end.
Definition pack_dyn_seq_of (lb ub : Z) (aligned : bool) (b : bit_ref) (seqof : list A) : pack_result :=
  let! b := pack_length uint32 b (Z.of_nat (length seqof)) lb ub aligned in pack_fixed_seq_of b seqof.
Definition unpack_dyn_seq_of (lb ub : Z) (aligned : bool) (c : cbit_ref) : unpack_result (list A) :=
  let! (nof_items, c) := unpack_length uint32 c lb ub aligned in unpack_fixed_seq_of c (Z.to_nat nof_items).

(** Open types: [varlength_field_pack_guard] packs what is written in its scope into a buffer of its own, then its length and the
    buffer, whatever [pack_length] returns; [varlength_field_unpack_guard] skips what its scope has not read. *)
Definition open_type_pack (align : bool) (b : bit_ref) (x : A) : pack_result :=
  let* (code, inner) := asn_pack bit_ref_new x in
  let leftover := 7 - u32 (bref_distance inner - 1) mod 8 in
  let* (_, inner) := bref_pack inner 0 leftover in
  let nof_bytes := bref_distance inner / 8 in
  let* (_, b) := pack_length_det b nof_bytes align in
  let* (_, b) := bref_pack_bytes b (br_writer inner) in Some (code, b).
Definition unpack_guard_end (len : Z) (start c : cbit_ref) : option cbit_ref :=
  match cbref_unpack uint32 c (u32 (u32 (len * 8) - (cbref_distance c - cbref_distance start))) with
  | Some (UOk _ c) | Some (UErr _ _ c) => Some c
  | None => None
  end.
Definition open_type_unpack (align : bool) (c : cbit_ref) : unpack_result A :=
  let* r := unpack_length_det c align in
  match r with
  | UOk len start | UErr _ (Some len) start =>
      let* r := asn_unpack start in
      match r with
      | UOk x c => let* c := unpack_guard_end len start c in Some (UOk x c)
      | UErr e x c => let* c := unpack_guard_end len start c in Some (UErr e x c)
      end
  | UErr _ None _ => None
  end.
(** [setup_release_c]; [None] is release. *)
Definition setup_release_pack (b : bit_ref) (x : option A) : pack_result :=
  let* (_, b) := pack_enum b (match x with Some _ => 1 | None => 0 end) 2 0 false in
  match x with Some x => let! b := asn_pack b x in pack_ok b | None => pack_ok b end.
Definition setup_release_unpack (c : cbit_ref) : unpack_result (option A) :=
  let* r := unpack_enum 2 0 false c in
  match r with
  | UOk e c | UErr _ (Some e) c =>
      if e =? 0 then Some (UOk None c)
      else if e =? 1 then let! (x, c) := asn_unpack c in Some (UOk (Some x) c)
      else decode_fail c
  | UErr _ None c => None
  end.
End SeqOf.

(** ** Extension groups *)
Fixpoint pack_flags (b : bit_ref) (l : list bool) : pack_result :=
  match l with [] => pack_ok b | g :: l => let! b := bref_pack b (Z.b2z g) 1 in pack_flags b l end.
Definition ext_groups_pack (b : bit_ref) (groups : list bool) : pack_result :=
  let nof_groups := match list_find (fun g => g = true) (rev groups) with Some (i, _) => Z.of_nat (length groups) - Z.of_nat i | None => 0 end in
  let! b := pack_norm_small_non_neg_whole_number b (u32 (nof_groups - 1)) in
  pack_flags b (take (Z.to_nat nof_groups) groups).
Fixpoint unpack_flags (c : cbit_ref) (n : nat) : unpack_result (list bool) :=
  match n with
  | O => Some (UOk [] c)
  | S n => let! (g, c) := cbref_unpack_bool c 1 in let! (l, c) := unpack_flags c n in Some (UOk (g :: l) c)
  end.
(** The number of groups that were sent and the flags, at least as many as are supported. *)
Definition ext_groups_unpack (nof_supported : nat) (c : cbit_ref) : unpack_result (Z * list bool) :=
  let! (n, c) := unpack_norm_small_non_neg_whole_number uint32 c in
  let nof_unpacked := u32 (n + 1) in
  let! (l, c) := unpack_flags c (Z.to_nat nof_unpacked) in
  Some (UOk (nof_unpacked, l ++ replicate (nof_supported - length l) false) c).
(** The destructor of the unpacker: every group beyond the supported ones that is present is skipped as an open field. *)
Fixpoint skip_groups (c : cbit_ref) (unknown : list bool) : option cbit_ref :=
  match unknown with
  | [] => Some c
  | g :: l =>
      if g : bool then
        let* r := unpack_length_det c false in
        match r with
        | UOk len start | UErr _ (Some len) start => let* c := unpack_guard_end len start start in skip_groups c l
        | UErr _ None _ => None
        end
      else skip_groups c l
  end.
Definition skip_unknown_groups (nof_supported : nat) (nof_unpacked : Z) (groups : list bool) (c : cbit_ref) : option cbit_ref :=
  skip_groups c (drop nof_supported (take (Z.to_nat nof_unpacked) groups)).

(** ** Protocol information elements

    [base_ie_field] over an object set: the id of a value, the criticality of an id, and the value itself (generated code). *)
Class ObjectSet (V : Type) := {
  idx_to_id : V -> Z;
  get_crit : Z -> Z;
  value_pack : bit_ref -> V -> pack_result;
  value_unpack : Z -> cbit_ref -> unpack_result V;
}.
Definition NOF_CRIT : Z := 3.
Definition ie_field_pack {V} `{!ObjectSet V} (b : bit_ref) (v : V) : pack_result :=
  let! b := pack_integer uint32 b (idx_to_id v) 0 65535 false true in
  let! b := pack_enum b (get_crit (idx_to_id v)) NOF_CRIT 0 false in
  let! b := value_pack b v in pack_ok b.
Definition ie_field_unpack {V} `{!ObjectSet V} (c : cbit_ref) : unpack_result V :=
  let! (id, c) := unpack_integer uint32 0 c 0 65535 false true in
  let! (_u, c) := unpack_enum NOF_CRIT 0 false c in
  value_unpack id c.
(** [base_ie_container_item]: the value is an open type. *)
Record ie_item (A : Type) := IeItem { ie_id : Z; ie_crit : Z; ie_value : A }.
Arguments IeItem {A}.
Arguments ie_id {A}.
Arguments ie_crit {A}.
Arguments ie_value {A}.
Definition ie_item_pack {A} `{!Asn1Codec A} (b : bit_ref) (x : ie_item A) : pack_result :=
  let! b := pack_integer uint32 b (ie_id x) 0 65535 false true in
  let! b := pack_enum b (ie_crit x) NOF_CRIT 0 false in
  let! b := open_type_pack true b (ie_value x) in pack_ok b.
Definition ie_item_unpack {A} `{!Asn1Codec A} (c : cbit_ref) : unpack_result (ie_item A) :=
  let! (id, c) := unpack_integer uint32 0 c 0 65535 false true in
  let! (crit, c) := unpack_enum NOF_CRIT 0 false c in
  let! (v, c) := open_type_unpack true c in Some (UOk (IeItem id crit v) c).
End Composite.
Arguments IeItem {A}.
Arguments ie_id {A}.
Arguments ie_crit {A}.
Arguments ie_value {A}.
