(* ===== verification/Asn1Bits.v ===== *)
(** * ASN.1: the writer and the reader as lists of bits

    [repr b L]: the writer [b] holds the bits [L]; [rrepr c R]: the bits [R] are still to
    be read from [c].  Packing appends the bits of a number, reading takes them off, and a
    reader with too few bits runs over the end of its buffer. *)
From S2P Require Import Prelude Bits Asn1.

(** ** The writer *)
Inductive repr : bit_ref -> list bool -> Prop :=
  | repr_full w : bytes_ok w -> repr (BitRef w 0) (bytes_bits w)
  | repr_part w off x : bytes_ok w -> 0 < off < 8 -> 0 <= x < 2 ^ off ->
      repr (BitRef (w ++ [x * 2 ^ (8 - off)]) off) (bytes_bits w ++ bits_be (Z.to_nat off) x).

Lemma repr_offset b L : repr b L -> br_offset b = Z.of_nat (length L) mod 8 /\ 0 <= br_offset b < 8.
Proof.
  destruct 1; cbn; rewrite ?length_app, ?bits_be_length, bytes_bits_length.
  - split; [|lia]. rewrite Nat2Z.inj_mul, Z.mul_comm. by rewrite Z.mod_mul by lia.
  - split; [|lia]. rewrite Nat2Z.inj_add, Nat2Z.inj_mul, Z2Nat.id by lia. rewrite Z.add_comm, Z.mul_comm, Z.mod_add by lia. rewrite Z.mod_small; lia.
Qed.
Lemma repr_distance b L : repr b L -> bref_distance b = Z.of_nat (length L).
Proof.
  destruct 1 as [w|w off x ? Hoff ?]; unfold bref_distance; cbn [br_writer br_offset]; rewrite ?length_app, ?bits_be_length, bytes_bits_length; unfold blen; rewrite ?length_app; cbn [length].
  - cbn. lia.
  - rewrite (proj2 (Z.eqb_neq off 0)) by lia. lia.
Qed.
Lemma last_add_app w x y : last_add (w ++ [x]) y = w ++ [u8 (x + y)].
Proof. unfold last_add. rewrite rev_app_distr. cbn. by rewrite rev_involutive. Qed.

Lemma pow2_add a b : 0 <= a -> 0 <= b -> 2 ^ (a + b) = 2 ^ a * 2 ^ b.
Proof. intros. by apply Z.pow_add_r. Qed.

(** The state in the loop, after a byte was appended if necessary: [off] bits [x] of the last byte are used. *)
Lemma pack_loop_spec fuel : forall w off x val n, bytes_ok w -> 0 <= off < 8 -> 0 <= x < 2 ^ off -> 0 <= n < 64 -> (Z.to_nat n < fuel)%nat ->
  exists b', pack_loop fuel (if off =? 0 then w else w ++ [x * 2 ^ (8 - off)]) off val n = pack_ok b'
    /\ repr b' (bytes_bits w ++ bits_be (Z.to_nat off) x ++ bits_be (Z.to_nat n) val).
Proof.
  induction fuel as [|fuel IH]; intros w off x val n Hw Hoff Hx Hn Hf; [lia|]. cbn [pack_loop]. destruct (n <=? 0) eqn:E0; breflect.
  { assert (n = 0) as -> by lia. cbn [Z.to_nat bits_be]. rewrite app_nil_r. eexists. split; [done|]. destruct (off =? 0) eqn:Eo; breflect.
    - subst. cbn. rewrite app_nil_r. by constructor.
    - apply repr_part; [done|lia|done]. }
  cbv zeta. match goal with |- context [last_add ?W _] => assert (W = w ++ [x * 2 ^ (8 - off)]) as -> end.
  { destruct (off =? 0) eqn:Eo; [|done]. breflect. subst. do 2 f_equal. change (2 ^ 0) with 1 in Hx. lia. }
  rewrite Z.shiftl_1_l, Z.sub_1_r, <-Z.ones_equiv, Z.land_ones by lia. set (v := val mod 2 ^ n). assert (0 <= v < 2 ^ n) as Hv by (apply Z.mod_pos_bound; lia).
  assert (bits_be (Z.to_nat n) val = bits_be (Z.to_nat n) v) as -> by (unfold v; rewrite <-(bits_be_mod (Z.to_nat n) val), Z2Nat.id by lia; done).
  rewrite !last_add_app. destruct (n <? 8 - off) eqn:E1; breflect.
  - rewrite Z.shiftl_mul_pow2 by lia. assert (2 ^ (8 - off) = 2 ^ n * 2 ^ (8 - off - n)) as Hp by (rewrite <-pow2_add by lia; f_equal; lia).
    assert (x * 2 ^ (8 - off) + v * 2 ^ (8 - off - n) = (x * 2 ^ n + v) * 2 ^ (8 - (off + n))) as Heq by (rewrite Hp; replace (8 - (off + n)) with (8 - off - n) by lia; ring).
    assert (0 <= x * 2 ^ n + v < 2 ^ (off + n)) as Hxv by (rewrite pow2_add by lia; nia).
    assert (2 ^ (off + n) * 2 ^ (8 - (off + n)) = 256) as H256 by (rewrite <-pow2_add by lia; replace (off + n + (8 - (off + n))) with 8 by lia; done).
    assert (0 < 2 ^ (8 - (off + n))) as Hpos by lia. assert (0 <= x * 2 ^ (8 - off)) as Hx0 by (apply Z.mul_nonneg_nonneg; lia).
    assert (0 <= v * 2 ^ (8 - off - n) < 256) as Hv2 by nia.
    rewrite (u8_id (v * _)) by done. rewrite Heq, u8_id by (unfold is_u8; nia).
    destruct (IH w (off + n) (x * 2 ^ n + v) v 0 Hw ltac:(lia) Hxv ltac:(lia) ltac:(lia)) as (b' & Hb' & Hr).
    rewrite (proj2 (Z.eqb_neq (off + n) 0)) in Hb' by lia. exists b'. split; [done|]. cbn [Z.to_nat bits_be] in Hr. rewrite app_nil_r in Hr.
    rewrite Z2Nat.inj_add in Hr by lia. replace (2 ^ n) with (2 ^ Z.of_nat (Z.to_nat n)) in Hr by (f_equal; lia). rewrite bits_be_app in Hr; [done|]. by rewrite Z2Nat.id by lia.
  - set (m := 8 - off) in *. rewrite Z.shiftr_div_pow2 by lia. replace (n - 8 + off) with (n - m) by lia.
    assert (0 <= v / 2 ^ (n - m) < 2 ^ m) as Ht.
    { split; [apply Z.div_pos; lia|]. apply Z.div_lt_upper_bound; [lia|]. rewrite <-pow2_add by lia. replace (n - m + m) with n by lia. lia. }
    assert (2 ^ off * 2 ^ m = 256) as H256 by (rewrite <-pow2_add by lia; replace (off + m) with 8 by lia; done).
    assert (2 ^ m <= 256) as Hm256 by (assert (0 < 2 ^ off) by lia; nia).
    rewrite (u8_id (v / _)) by (unfold is_u8; lia). rewrite u8_id by (unfold is_u8; nia).
    destruct (IH (w ++ [x * 2 ^ m + v / 2 ^ (n - m)]) 0 0 v (n - m)) as (b' & Hb' & Hr); [|lia|lia|lia|lia|].
    { apply Forall_app; split; [done|]. constructor; [unfold is_u8; nia|constructor]. }
    cbn [Z.eqb] in Hb'. exists b'. split; [done|]. cbn [Z.to_nat bits_be app] in Hr. rewrite bytes_bits_app, <-app_assoc in Hr.
    replace (bytes_bits [x * 2 ^ m + v / 2 ^ (n - m)]) with (bits_be (Z.to_nat off) x ++ bits_be (Z.to_nat m) (v / 2 ^ (n - m))) in Hr.
    + rewrite <-app_assoc in Hr. replace (Z.to_nat n) with (Z.to_nat m + Z.to_nat (n - m))%nat by lia. rewrite bits_be_split, Z2Nat.id by lia. done.
    + unfold bytes_bits. cbn [map concat]. rewrite app_nil_r. replace 8%nat with (Z.to_nat off + Z.to_nat m)%nat at 1 by lia.
      replace (2 ^ m) with (2 ^ Z.of_nat (Z.to_nat m)) by (f_equal; lia). rewrite bits_be_app; [done|]. by rewrite Z2Nat.id by lia.
Qed.

Lemma bref_pack_spec b L val n : repr b L -> 0 <= n < 64 -> exists b', bref_pack b val n = pack_ok b' /\ repr b' (L ++ bits_be (Z.to_nat n) val).
Proof.
  intros Hb Hn. unfold bref_pack. rewrite (proj2 (Z.ltb_lt n 64)) by lia.
  assert (bits_be (Z.to_nat n) val = bits_be (Z.to_nat n) (u64 val)) as ->.
  { apply bits_be_ext. intros i Hi. unfold u64. by rewrite Z.mod_pow2_bits_low by lia. }
  destruct Hb as [w Hw|w off x Hw Hoff Hx]; cbn [br_writer br_offset].
  - destruct (pack_loop_spec (S (Z.to_nat n)) w 0 0 (u64 val) n Hw ltac:(lia) ltac:(lia) Hn ltac:(lia)) as (b' & Hb' & Hr). exists b'. split; [exact Hb'|exact Hr].
  - destruct (pack_loop_spec (S (Z.to_nat n)) w off x (u64 val) n Hw ltac:(lia) Hx Hn ltac:(lia)) as (b' & Hb' & Hr).
    rewrite (proj2 (Z.eqb_neq off 0)) in Hb' by lia. exists b'. split; [exact Hb'|]. by rewrite <-app_assoc.
Qed.

(** The writer never fails with a code. *)
Lemma pack_loop_code fuel : forall w off val n, pack_loop fuel w off val n = None \/ exists b, pack_loop fuel w off val n = pack_ok b.
Proof. induction fuel as [|fuel IH]; intros w off val n; cbn [pack_loop]; [by left|]. destruct (n <=? 0); [right; eauto|]. cbv zeta. destruct (n <? 8 - off); apply IH. Qed.
Lemma bref_pack_code b val n : bref_pack b val n = None \/ exists b', bref_pack b val n = pack_ok b'.
Proof. unfold bref_pack. destruct (n <? 64); [apply pack_loop_code|by left]. Qed.
Lemma pack_each_spec l : forall b L, repr b L -> exists b', pack_each b l = pack_ok b' /\ repr b' (L ++ bytes_bits l).
Proof.
  induction l as [|x l IH]; intros b L Hb; cbn [pack_each]; [exists b; by rewrite app_nil_r|].
  destruct (bref_pack_spec b L x 8 Hb ltac:(lia)) as (b1 & -> & Hb1). destruct (IH b1 _ Hb1) as (b2 & H2 & Hb2). exists b2. split; [exact H2|].
  change (bytes_bits (x :: l)) with (bits_be 8 x ++ bytes_bits l). rewrite app_assoc. exact Hb2.
Qed.
Lemma pack_bytes_spec b L l : repr b L -> bytes_ok l -> exists b', bref_pack_bytes b l = pack_ok b' /\ repr b' (L ++ bytes_bits l).
Proof.
  intros Hb Hl. unfold bref_pack_bytes. destruct (br_offset b =? 0) eqn:E; breflect; [|by apply pack_each_spec].
  destruct Hb as [w Hw|w off x Hw Hoff Hx]; cbn in E; [|lia]. eexists. split; [done|]. cbn. rewrite <-bytes_bits_app. constructor. by apply Forall_app.
Qed.

(** Alignment fills the last byte with zeros. *)
Definition pad_len (off : Z) : nat := Z.to_nat ((8 - off) mod 8).
Lemma align_bytes_zero_spec b L : repr b L -> exists b', align_bytes_zero b = pack_ok b' /\ repr b' (L ++ replicate (pad_len (br_offset b)) false) /\ br_offset b' = 0.
Proof.
  intros Hb. unfold align_bytes_zero. eexists. split_and!; [done| |done]. destruct Hb as [w Hw|w off x Hw Hoff Hx]; cbn [br_writer br_offset].
  - cbn. rewrite app_nil_r. by constructor.
  - unfold pad_len. rewrite Z.mod_small by lia. rewrite <-app_assoc, <-bits_be_zero.
    assert (bits_be (Z.to_nat off) x ++ bits_be (Z.to_nat (8 - off)) 0 = bytes_bits [x * 2 ^ (8 - off)]) as ->.
    { unfold bytes_bits. cbn [map concat]. rewrite app_nil_r. assert (8%nat = (Z.to_nat off + Z.to_nat (8 - off))%nat) as -> by lia.
      rewrite <-bits_be_app, Z2Nat.id, Z.add_0_r by lia. done. }
    rewrite <-bytes_bits_app. constructor. apply Forall_app. split; [done|]. constructor; [|constructor].
    assert (2 ^ off * 2 ^ (8 - off) = 256) as H256 by (rewrite <-pow2_add by lia; replace (off + (8 - off)) with 8 by lia; done). unfold is_u8. nia.
Qed.

(** ** The reader *)
Inductive rrepr : cbit_ref -> list bool -> Prop :=
  | rrepr_full pre rest : rrepr (CBitRef (pre ++ rest) (length pre) 0) (bytes_bits rest)
  | rrepr_part pre x rest off : 0 < off < 8 -> rrepr (CBitRef (pre ++ x :: rest) (length pre) off) (bits_be (Z.to_nat (8 - off)) x ++ bytes_bits rest).

Lemma rrepr_offset c R : rrepr c R -> 0 <= cb_offset c < 8.
Proof. destruct 1; cbn; lia. Qed.
Lemma rrepr_start w : rrepr (cbit_ref_of w) (bytes_bits w).
Proof. apply (rrepr_full [] w). Qed.
(** Where the next bits come from. *)
Lemma rrepr_byte c R : rrepr c R -> R <> [] -> exists pre x rest, c = CBitRef (pre ++ x :: rest) (length pre) (cb_offset c)
  /\ 0 <= cb_offset c < 8 /\ R = bits_be (Z.to_nat (8 - cb_offset c)) x ++ bytes_bits rest.
Proof.
  intros Hc Hne. destruct Hc as [pre [|x rest]|pre x rest off Hoff]; [done| |].
  - exists pre, x, rest. split; [done|]. cbn. split; [lia|done].
  - exists pre, x, rest. split; [done|]. cbn. split; [lia|done].
Qed.
Lemma rrepr_next pre x rest : rrepr (CBitRef (pre ++ x :: rest) (S (length pre)) 0) (bytes_bits rest).
Proof.
  replace (pre ++ x :: rest) with ((pre ++ [x]) ++ rest) by (by rewrite <-app_assoc). replace (S (length pre)) with (length (pre ++ [x])) by (rewrite length_app; cbn; lia). constructor.
Qed.

Lemma byte_at (pre : bytes) x (rest : bytes) : (pre ++ x :: rest : bytes) !! length pre = Some x.
Proof. by apply list_lookup_middle. Qed.
Lemma low_mask m : 0 <= m <= 8 -> u8 (Z.shiftl 1 m - 1) = Z.ones m.
Proof. intros Hm. rewrite Z.shiftl_1_l, Z.ones_equiv, <-Z.sub_1_r. apply u8_id. unfold is_u8. assert (2 ^ m <= 2 ^ 8) by (apply Z.pow_le_mono_r; lia). lia. Qed.
(** The mask of [n] bits that start [m] bits above the end of a byte. *)
Lemma mid_mask x m n : 0 < n < m -> m <= 8 ->
  Z.shiftr (Z.land x (u8 (u8 (Z.shiftl 1 m) - u8 (Z.shiftl 1 (m - n))))) (m - n) = (x / 2 ^ (m - n)) mod 2 ^ n.
Proof.
  intros Hn Hm. assert (u8 (u8 (Z.shiftl 1 m) - u8 (Z.shiftl 1 (m - n))) = Z.shiftl (Z.ones n) (m - n)) as ->.
  { rewrite !Z.shiftl_1_l, (Z.shiftl_mul_pow2 (Z.ones n)), Z.ones_equiv, <-Z.sub_1_r by lia. unfold u8. rewrite <-Zminus_mod. replace m with (n + (m - n)) at 1 by lia. rewrite pow2_add by lia.
    replace (2 ^ n * 2 ^ (m - n) - 2 ^ (m - n)) with ((2 ^ n - 1) * 2 ^ (m - n)) by ring. apply Z.mod_small.
    assert (2 ^ n * 2 ^ (m - n) <= 2 ^ 8) by (rewrite <-pow2_add by lia; apply Z.pow_le_mono_r; lia). assert (0 < 2 ^ (m - n)) by lia. assert (0 < 2 ^ n) by lia. nia. }
  rewrite Z.shiftr_land, Z.shiftr_shiftl_l, Z.sub_diag, Z.shiftl_0_r, Z.land_ones, Z.shiftr_div_pow2 by lia. done.
Qed.

Section Loop.
Context (norm : Z -> Z) (Hnorm : forall a b, 0 <= a -> 0 <= b -> norm (norm a + b) = norm (a + b)).

(** Reading the bits of a number gives the number, added to what was read before. *)
Lemma unpack_loop_spec fuel : forall acc c n v R, rrepr c (bits_be (Z.to_nat n) v ++ R) -> 0 <= n <= 64 -> (Z.to_nat n < fuel)%nat -> 0 <= acc ->
  exists c', unpack_loop fuel norm (norm acc) c n = Some (UOk (norm (acc + v mod 2 ^ n)) c') /\ rrepr c' R
    /\ cb_buffer c' = cb_buffer c /\ cbref_distance c' = cbref_distance c + n.
Proof.
  induction fuel as [|fuel IH]; intros acc c n v R Hc Hn Hf Hacc; [lia|]. cbn [unpack_loop]. destruct (n <=? 0) eqn:E0; breflect.
  { assert (n = 0) as -> by lia. exists c. cbn [Z.to_nat bits_be app] in Hc. rewrite Z.mod_1_r, Z.add_0_r. split_and!; [done..|lia]. }
  destruct (rrepr_byte _ _ Hc) as (pre & x & rest & Hceq & Hoff & HR); [destruct (Z.to_nat n) eqn:En; [lia|done]|].
  remember (cb_offset c) as off eqn:Eoff. clear Eoff. subst c. cbn [cb_buffer cb_it cb_offset]. rewrite byte_at. cbv zeta.
  assert (0 <= v mod 2 ^ n) as Hv by (apply Z.mod_pos_bound; lia).
  destruct (n <? 8 - off) eqn:E1; breflect.
  - rewrite mid_mask by lia. rewrite Hnorm by (done || apply Z.mod_pos_bound; lia).
    replace (Z.to_nat (8 - off)) with (Z.to_nat n + Z.to_nat (8 - off - n))%nat in HR by lia. rewrite bits_be_split, <-app_assoc in HR.
    apply app_inj_1 in HR as [Hb ->]; [|by rewrite !bits_be_length]. apply bits_be_inj in Hb. rewrite !Z2Nat.id in Hb by lia. rewrite <-Hb.
    destruct fuel as [|fuel]; [lia|]. cbn [unpack_loop Z.leb Z.compare]. eexists. split_and!; [done| |done|unfold cbref_distance; cbn; lia].
    replace (8 - off - n) with (8 - (off + n)) by lia. apply rrepr_part. lia.
  - set (m := 8 - off) in *. rewrite low_mask by lia. rewrite Z.land_ones, Z.shiftl_mul_pow2 by lia. replace (n - 8 + off) with (n - m) by lia.
    assert (0 <= x mod 2 ^ m < 2 ^ m) as Hx by (apply Z.mod_pos_bound; lia). assert (2 ^ n = 2 ^ m * 2 ^ (n - m)) as Hp by (rewrite <-pow2_add by lia; f_equal; lia).
    assert (0 < 2 ^ (n - m)) as Hpos by lia. assert (2 ^ n <= 2 ^ 64) as H64 by (apply Z.pow_le_mono_r; lia).
    unfold u64. rewrite (Z.mod_small (_ * _)) by nia. rewrite Hnorm by nia.
    rewrite decide_False by (rewrite length_app; cbn; lia).
    replace (Z.to_nat n) with (Z.to_nat m + Z.to_nat (n - m))%nat in HR by lia. rewrite bits_be_split, <-app_assoc in HR.
    apply app_inj_1 in HR as [Hb Hrest]; [|by rewrite !bits_be_length]. apply bits_be_inj in Hb. rewrite !Z2Nat.id in Hb by lia.
    destruct (IH (acc + x mod 2 ^ m * 2 ^ (n - m)) (CBitRef (pre ++ x :: rest) (S (length pre)) 0) (n - m) v R) as (c' & Hc' & Hr' & Hbuf & Hd); [rewrite Hrest; apply rrepr_next|lia|lia|nia|].
    exists c'. rewrite Hc'. split_and!; [|done|done|rewrite Hd; unfold cbref_distance; cbn; lia]. do 3 f_equal. rewrite <-Hb, <-Z.add_assoc. f_equal.
    rewrite Hp, (Z.mul_comm (2 ^ m)), Z.rem_mul_r by lia. lia.
Qed.

(** With fewer bits than are asked for the reader dereferences the end of its buffer. *)
Lemma unpack_loop_truncated fuel : forall val c n R, rrepr c R -> Z.of_nat (length R) < n -> (Z.to_nat n < fuel)%nat -> unpack_loop fuel norm val c n = None.
Proof.
  induction fuel as [|fuel IH]; intros val c n R Hc Hn Hf; [lia|]. cbn [unpack_loop]. rewrite (proj2 (Z.leb_gt n 0)) by lia.
  destruct (decide (R = [])) as [->|Hne].
  { inversion Hc as [pre rest Heq HR|pre x rest off Hoff Heq HR].
    - destruct rest; [|done]. cbn [cb_buffer cb_it]. destruct (_ !! _) eqn:El; [|done]. apply (lookup_lt_Some (pre ++ [])) in El. rewrite length_app in El. cbn in El. lia.
    - apply (f_equal length) in HR. rewrite length_app, bits_be_length in HR. cbn in HR. lia. }
  destruct (rrepr_byte _ _ Hc Hne) as (pre & x & rest & Hceq & Hoff & HR). remember (cb_offset c) as off eqn:Eoff. clear Eoff. subst c R. cbn [cb_buffer cb_it cb_offset].
  rewrite byte_at. cbv zeta. rewrite length_app, bits_be_length in Hn. rewrite (proj2 (Z.ltb_ge n (8 - off))) by lia.
  rewrite decide_False by (rewrite length_app; cbn; lia). apply (IH _ _ _ (bytes_bits rest)); [apply rrepr_next|lia|lia].
Qed.
End Loop.

Lemma it_conv_add t a b : 0 <= it_width t -> it_conv t (it_conv t a + b) = it_conv t (a + b).
Proof.
  intros Hw. unfold it_conv. f_equal. replace ((a - it_min t) mod 2 ^ it_width t + it_min t + b - it_min t) with ((a - it_min t) mod 2 ^ it_width t + b) by ring.
  rewrite Zplus_mod_idemp_l. f_equal. ring.
Qed.
Lemma it_conv_id t x : 0 <= it_width t -> it_min t <= x <= it_max t -> it_conv t x = x.
Proof. intros Hw Hx. unfold it_conv, it_max in *. rewrite Z.mod_small by lia. lia. Qed.
Lemma it_conv_cong t a b : 0 <= it_width t -> a mod 2 ^ it_width t = b mod 2 ^ it_width t -> it_conv t a = it_conv t b.
Proof. intros Hw H. unfold it_conv. f_equal. rewrite (Zminus_mod a), (Zminus_mod b), H. done. Qed.
Record int_type_ok (t : int_type) : Prop := { ito_width : 8 <= it_width t <= 64; ito_bytes : it_width t mod 8 = 0 }.
Lemma it_min_nonpos t : int_type_ok t -> it_min t <= 0 <= it_max t.
Proof.
  intros [Hw _]. unfold it_max, it_min. destruct (it_signed t); [|assert (0 < 2 ^ it_width t) by lia; lia].
  replace (it_width t) with ((it_width t - 1) + 1) at 3 by lia. rewrite pow2_add by lia. assert (0 < 2 ^ (it_width t - 1)) by lia. lia.
Qed.
Lemma unpack_spec t c n v R : int_type_ok t -> rrepr c (bits_be (Z.to_nat n) v ++ R) -> 0 <= n <= it_width t ->
  exists c', cbref_unpack t c n = Some (UOk (it_conv t (v mod 2 ^ n)) c') /\ rrepr c' R /\ cb_buffer c' = cb_buffer c /\ cbref_distance c' = cbref_distance c + n.
Proof.
  intros Ht Hc Hn. pose proof (ito_width _ Ht) as Hw. unfold cbref_unpack. rewrite (proj2 (Z.leb_le n (it_width t))) by lia.
  destruct (unpack_loop_spec (it_conv t) ltac:(intros; apply it_conv_add; lia) (S (Z.to_nat n)) 0 c n v R Hc ltac:(lia) ltac:(lia) ltac:(lia)) as (c' & H & Hr & Hb & Hd).
  exists c'. rewrite (it_conv_id t 0) in H by (pose proof (it_min_nonpos t Ht); lia). split_and!; done.
Qed.
Lemma unpack_bool_spec c (v : bool) R : rrepr c (v :: R) ->
  exists c', cbref_unpack_bool c 1 = Some (UOk v c') /\ rrepr c' R /\ cb_buffer c' = cb_buffer c /\ cbref_distance c' = cbref_distance c + 1.
Proof.
  intros Hc. unfold cbref_unpack_bool. cbn [Z.leb Z.compare Pos.compare Pos.compare_cont].
  assert (v :: R = bits_be (Z.to_nat 1) (Z.b2z v) ++ R) as Heq by (cbn; by destruct v). rewrite Heq in Hc.
  assert (forall a b, 0 <= a -> 0 <= b -> bool_conv (bool_conv a + b) = bool_conv (a + b)) as Hn.
  { intros a b Ha Hb. unfold bool_conv. destruct (a =? 0) eqn:E; breflect; [by subst|]. rewrite (proj2 (Z.eqb_neq (1 + b) 0)), (proj2 (Z.eqb_neq (a + b) 0)) by lia. done. }
  destruct (unpack_loop_spec bool_conv Hn (S (Z.to_nat 1)) 0 c 1 (Z.b2z v) R Hc ltac:(lia) ltac:(lia) ltac:(lia)) as (c' & H & Hr & Hb & Hd).
  change (bool_conv 0) with 0 in H. exists c'. rewrite H. split_and!; [by destruct v|done..].
Qed.
Lemma align_bytes_spec c Zs R : rrepr c (Zs ++ R) -> length Zs = pad_len (cb_offset c) ->
  exists c', align_bytes c = Some (UOk () c') /\ rrepr c' R /\ cb_buffer c' = cb_buffer c /\ cbref_distance c' = cbref_distance c + Z.of_nat (length Zs) /\ cb_offset c' = 0.
Proof.
  intros Hc Hl. unfold align_bytes. pose proof (rrepr_offset _ _ Hc) as Ho. destruct (cb_offset c =? 0) eqn:E; cbn [negb]; breflect.
  - rewrite E in Hl. destruct Zs; [|done]. exists c. split_and!; [done..|cbn; lia|done].
  - unfold pad_len in Hl. rewrite Z.mod_small in Hl by lia. destruct (rrepr_byte _ _ Hc) as (pre & x & rest & Hceq & _ & HR).
    { intros H. apply (f_equal length) in H. rewrite length_app in H. cbn in H. lia. }
    apply app_inj_1 in HR as [-> ->]; [|by rewrite bits_be_length]. rewrite Hceq in *. cbn [cb_it cb_buffer cb_offset] in *.
    rewrite decide_False by (rewrite length_app; cbn; lia). eexists. split_and!; [done|apply rrepr_next|done| |done]. unfold cbref_distance. cbn. rewrite bits_be_length. lia.
Qed.

(** ** Codecs

    [encodes al pk upk v]: the packer [pk] succeeds on every writer, and the reader [upk]
    gives back [v] from the bits that were packed and leaves the rest; when [al] holds,
    from a reader with the alignment of the writer. *)
Definition encodes {A} (al : bool) (pk : bit_ref -> pack_result) (upk : cbit_ref -> unpack_result A) (v : A) : Prop :=
  forall b L, repr b L -> exists b' E, pk b = pack_ok b' /\ repr b' (L ++ E)
    /\ forall c R, rrepr c (E ++ R) -> (al = true -> cb_offset c = br_offset b) ->
         exists c', upk c = Some (UOk v c') /\ rrepr c' R /\ cb_buffer c' = cb_buffer c /\ cbref_distance c' = cbref_distance c + Z.of_nat (length E).

Lemma cb_offset_distance c R : rrepr c R -> cb_offset c = cbref_distance c mod 8.
Proof. intros Hc. pose proof (rrepr_offset _ _ Hc). unfold cbref_distance. rewrite Z.mul_comm, Z.mod_add, Z.mod_small; lia. Qed.
(** The two sides stay aligned. *)
Lemma same_offset b L b' E c c' R R' : repr b L -> repr b' (L ++ E) -> rrepr c R -> rrepr c' R' -> cbref_distance c' = cbref_distance c + Z.of_nat (length E) ->
  cb_offset c = br_offset b -> cb_offset c' = br_offset b'.
Proof.
  intros Hb Hb' Hc Hc' Hd Heq. destruct (repr_offset _ _ Hb) as [E1 _]. destruct (repr_offset _ _ Hb') as [E2 _].
  rewrite (cb_offset_distance _ _ Hc'), Hd, E2, length_app, Nat2Z.inj_add, Zplus_mod, (Zplus_mod (Z.of_nat (length L))). f_equal. f_equal.
  rewrite <-(cb_offset_distance _ _ Hc), Heq. exact E1.
Qed.

Lemma handle_pack_ret r : handle_pack r pack_ok = r.
Proof. by destruct r as [[[] ?]|]. Qed.
Lemma handle_pack_assoc r k1 k2 : handle_pack (handle_pack r k1) k2 = handle_pack r (fun b => handle_pack (k1 b) k2).
Proof. by destruct r as [[[] ?]|]. Qed.
Lemma encodes_weaken {A} pk upk (v : A) : encodes false pk upk v -> forall al, encodes al pk upk v.
Proof.
  intros H al b L Hb. destruct (H b L Hb) as (b' & E & H1 & H2 & H3). exists b', E. split_and!; [done..|]. intros c R Hc _. by apply H3.
Qed.
Lemma encodes_ret {A} al (v : A) : encodes al pack_ok (fun c => Some (UOk v c)) v.
Proof. intros b L Hb. exists b, []. rewrite app_nil_r. split_and!; [done..|]. intros c R Hc _. exists c. split_and!; [done..|cbn; lia]. Qed.
Lemma encodes_ext {A} al pk pk' upk upk' (v : A) : encodes al pk upk v -> (forall b b', pk b = pack_ok b' -> pk' b = pack_ok b') ->
  (forall c c', upk c = Some (UOk v c') -> upk' c = Some (UOk v c')) -> encodes al pk' upk' v.
Proof.
  intros H Hp Hu b L Hb. destruct (H b L Hb) as (b' & E & H1 & H2 & H3). exists b', E. split_and!; [by apply Hp|done|]. intros c R Hc Ho.
  destruct (H3 c R Hc Ho) as (c' & V & W). exists c'. split; [by apply Hu|done].
Qed.
(** Sequential composition *)
Lemma encodes_bind {A B} al pk1 upk1 (x : A) pk2 (upk2 : A -> cbit_ref -> unpack_result B) y :
  encodes al pk1 upk1 x -> encodes al pk2 (upk2 x) y -> encodes al (fun b => let! b := pk1 b in pk2 b) (fun c => let! (x, c) := upk1 c in upk2 x c) y.
Proof.
  intros H1 H2 b L Hb. destruct (H1 b L Hb) as (b1 & E1 & P1 & R1 & U1). destruct (H2 b1 _ R1) as (b2 & E2 & P2 & R2 & U2).
  exists b2, (E1 ++ E2). rewrite P1. rewrite app_assoc. split_and!; [exact P2|exact R2|]. intros c R Hc Ho. rewrite <-app_assoc in Hc.
  destruct (U1 c _ Hc Ho) as (c1 & V1 & S1 & B1 & D1). destruct (U2 c1 R S1) as (c2 & V2 & S2 & B2 & D2).
  { intros Hal. by eapply (same_offset b L b1 E1 c c1); [..|apply Ho]. }
  exists c2. rewrite V1. split_and!; [exact V2|done|congruence|]. rewrite D2, D1, length_app. lia.
Qed.
Lemma encodes_then {A B} al pk1 upk1 (x : A) (f : A -> B) :
  encodes al pk1 upk1 x -> encodes al (fun b => let! b := pk1 b in pack_ok b) (fun c => let! (x, c) := upk1 c in Some (UOk (f x) c)) (f x).
Proof. intros H. apply (encodes_bind al pk1 upk1 x pack_ok (fun x c => Some (UOk (f x) c)) (f x)); [done|]. apply encodes_ret. Qed.

(** Fields of bits, flags, and the alignment to bytes *)
Lemma encodes_bits al t val n : int_type_ok t -> 0 <= n < 64 -> n <= it_width t ->
  encodes al (fun b => bref_pack b val n) (fun c => cbref_unpack t c n) (it_conv t (val mod 2 ^ n)).
Proof.
  intros Ht Hn Hw b L Hb. destruct (bref_pack_spec b L val n Hb Hn) as (b' & Hp & Hr). exists b', (bits_be (Z.to_nat n) val). split_and!; [done..|].
  intros c R Hc _. destruct (unpack_spec t c n val R Ht Hc ltac:(lia)) as (c' & H1 & H2 & H3 & H4). exists c'. split_and!; [done..|]. rewrite bits_be_length. lia.
Qed.
Lemma encodes_flag al (v : bool) : encodes al (fun b => bref_pack b (Z.b2z v) 1) (fun c => cbref_unpack_bool c 1) v.
Proof.
  intros b L Hb. destruct (bref_pack_spec b L (Z.b2z v) 1 Hb ltac:(lia)) as (b' & Hp & Hr). exists b', [v].
  assert (bits_be (Z.to_nat 1) (Z.b2z v) = [v]) as Heq by (cbn; by destruct v). rewrite Heq in Hr. split_and!; [done..|].
  intros c R Hc _. destruct (unpack_bool_spec c v R Hc) as (c' & H1 & H2 & H3 & H4). exists c'. split_and!; [done..|]. cbn. lia.
Qed.
Lemma encodes_align : encodes true align_bytes_zero align_bytes ().
Proof.
  intros b L Hb. destruct (align_bytes_zero_spec b L Hb) as (b' & Hp & Hr & _). eexists b', _. split_and!; [done|exact Hr|].
  intros c R Hc Ho. destruct (align_bytes_spec c _ R Hc) as (c' & H1 & H2 & H3 & H4 & _); [by rewrite length_replicate, Ho|]. exists c'. split_and!; done.
Qed.

Lemma encodes_align_bind {A} pk upk (v : A) : encodes true pk upk v ->
  encodes true (fun b => let! b := align_bytes_zero b in pk b) (fun c => let! (_u, c) := align_bytes c in upk c) v.
Proof. intros H. apply (encodes_bind true align_bytes_zero align_bytes () pk (fun _ c => upk c) v encodes_align H). Qed.

(** Codecs that do not depend on the alignment, by the bits they use *)
Definition packs (pk : bit_ref -> pack_result) (E : list bool) : Prop := forall b L, repr b L -> exists b', pk b = pack_ok b' /\ repr b' (L ++ E).
Definition reads {A} (upk : cbit_ref -> unpack_result A) (E : list bool) (v : A) : Prop :=
  forall c R, rrepr c (E ++ R) -> exists c', upk c = Some (UOk v c') /\ rrepr c' R /\ cb_buffer c' = cb_buffer c /\ cbref_distance c' = cbref_distance c + Z.of_nat (length E).
Lemma encodes_packs {A} pk upk E (v : A) : packs pk E -> reads upk E v -> forall al, encodes al pk upk v.
Proof. intros Hp Hu al b L Hb. destruct (Hp b L Hb) as (b' & H1 & H2). exists b', E. split_and!; [done..|]. intros c R Hc _. by apply Hu. Qed.
Lemma packs_bits val n : 0 <= n < 64 -> packs (fun b => bref_pack b val n) (bits_be (Z.to_nat n) val).
Proof. intros Hn b L Hb. by apply bref_pack_spec. Qed.
Lemma packs_bind pk1 E1 pk2 E2 : packs pk1 E1 -> packs pk2 E2 -> packs (fun b => let! b := pk1 b in pk2 b) (E1 ++ E2).
Proof. intros H1 H2 b L Hb. destruct (H1 b L Hb) as (b1 & P1 & R1). destruct (H2 b1 _ R1) as (b2 & P2 & R2). exists b2. rewrite P1, app_assoc. done. Qed.
Lemma packs_ret : packs pack_ok [].
Proof. intros b L Hb. exists b. by rewrite app_nil_r. Qed.
Lemma packs_each l : packs (fun b => pack_each b l) (bytes_bits l).
Proof. intros b L Hb. by apply pack_each_spec. Qed.
Lemma reads_bits t v n : int_type_ok t -> 0 <= n <= it_width t -> reads (fun c => cbref_unpack t c n) (bits_be (Z.to_nat n) v) (it_conv t (v mod 2 ^ n)).
Proof. intros Ht Hn c R Hc. destruct (unpack_spec t c n v R Ht Hc Hn) as (c' & H1 & H2 & H3 & H4). exists c'. split_and!; [done..|]. rewrite bits_be_length. lia. Qed.
Lemma reads_flag v : reads (fun c => cbref_unpack_bool c 1) [v] v.
Proof. intros c R Hc. destruct (unpack_bool_spec c v R Hc) as (c' & H1 & H2 & H3 & H4). exists c'. split_and!; [done..|]. cbn. lia. Qed.
Lemma reads_bind {A B} upk1 E1 (x : A) (upk2 : A -> cbit_ref -> unpack_result B) E2 y :
  reads upk1 E1 x -> reads (upk2 x) E2 y -> reads (fun c => let! (x, c) := upk1 c in upk2 x c) (E1 ++ E2) y.
Proof.
  intros H1 H2 c R Hc. rewrite <-app_assoc in Hc. destruct (H1 c _ Hc) as (c1 & V1 & S1 & B1 & D1). destruct (H2 c1 R S1) as (c2 & V2 & S2 & B2 & D2).
  exists c2. rewrite V1. split_and!; [exact V2|done|congruence|]. rewrite D2, D1, length_app. lia.
Qed.
Lemma reads_ret {A} (v : A) : reads (fun c => Some (UOk v c)) [] v.
Proof. intros c R Hc. exists c. split_and!; [done..|cbn; lia]. Qed.
Lemma uint8_conv x : is_u8 x -> it_conv uint8 x = x.
Proof. intros Hx. apply it_conv_id; [cbn; lia|]. change (it_min uint8) with 0. change (it_max uint8) with 255. unfold is_u8 in Hx. lia. Qed.
Lemma uint32_conv x : is_u32 x -> it_conv uint32 x = x.
Proof. intros Hx. apply it_conv_id; [cbn; lia|]. change (it_min uint32) with 0. change (it_max uint32) with (2 ^ 32 - 1). unfold is_u32 in Hx. lia. Qed.
Lemma uint8_ok : int_type_ok uint8.
Proof. split; [cbn; lia|done]. Qed.
Lemma uint32_ok : int_type_ok uint32.
Proof. split; [cbn; lia|done]. Qed.
Lemma reads_each l : bytes_ok l -> reads (fun c => unpack_each c (length l)) (bytes_bits l) l.
Proof.
  pose proof uint8_ok as Hu. induction 1 as [|x l Hx _ IH]; [apply reads_ret|]. change (bytes_bits (x :: l)) with (bits_be (Z.to_nat 8) x ++ bytes_bits l).
  pose proof (reads_bits uint8 x 8 Hu ltac:(cbn; lia)) as H8. rewrite Z.mod_small in H8 by (unfold is_u8 in Hx; lia).
  rewrite uint8_conv in H8 by done. apply (reads_bind _ _ x (fun x c => let! (l, c) := unpack_each c (length l) in Some (UOk (x :: l) c)) _ _ H8).
  rewrite <-(app_nil_r (bytes_bits l)). apply (reads_bind _ _ l (fun l c => Some (UOk (x :: l) c)) _ _ IH). apply reads_ret.
Qed.

(** C31: the bit-wise writer and reader implement a queue of bits.  A writer that holds the
    bits [L] holds them and the [n] low bits of the value, most significant first, after
    [bref_pack], for every alignment of the writer and every [n] below 64; a reader with
    these bits ahead returns the value, converted to its integer type, and has the
    remaining bits ahead; and a reader with fewer bits than asked for does not return an
    error: it dereferences the end of its buffer. *)
Theorem per_bits_refine_queue t b L val n : repr b L -> int_type_ok t -> 0 <= n < 64 -> n <= it_width t ->
  (exists b', bref_pack b val n = pack_ok b' /\ repr b' (L ++ bits_be (Z.to_nat n) val) /\ bref_distance b' = bref_distance b + n)
  /\ (forall c R, rrepr c (bits_be (Z.to_nat n) val ++ R) -> exists c', cbref_unpack t c n = Some (UOk (it_conv t (val mod 2 ^ n)) c') /\ rrepr c' R)
  /\ (forall c R, rrepr c R -> Z.of_nat (length R) < n -> cbref_unpack t c n = None).
Proof.
  intros Hb Ht Hn Hw. split_and!.
  - destruct (bref_pack_spec b L val n Hb Hn) as (b' & Hp & Hr). exists b'. split_and!; [done..|]. rewrite (repr_distance _ _ Hb), (repr_distance _ _ Hr), length_app, bits_be_length. lia.
  - intros c R Hc. destruct (unpack_spec t c n val R Ht Hc ltac:(lia)) as (c' & H1 & H2 & _). by exists c'.
  - intros c R Hc Hlt. unfold cbref_unpack. rewrite (proj2 (Z.leb_le n (it_width t))) by lia. apply (unpack_loop_truncated (it_conv t) _ _ _ _ R Hc Hlt). lia.
Qed.
Lemma per_bits_refine_queue_witness : exists b, repr b [] /\ int_type_ok uint8 /\
  exists b', bref_pack b 5 3 = pack_ok b' /\ repr b' ([] ++ bits_be (Z.to_nat 3) 5) /\ bref_distance b' = bref_distance b + 3.
Proof.
  exists bit_ref_new. assert (repr bit_ref_new []) as Hb by (apply (repr_full []); constructor). split_and!; [done|apply uint8_ok|].
  exact (proj1 (per_bits_refine_queue uint8 bit_ref_new [] 5 3 Hb uint8_ok ltac:(lia) ltac:(cbn; lia))).
Defined.
