(* ===== verification/Asn1Thms.v ===== *)
(** * ASN.1: round trips

    Every encoder has the decoder that gives its value back: numbers, lengths,
    enumerations, octet and bit strings, sequences, open types and protocol information
    elements, aligned and unaligned; and where the code does not do so. *)
From S2P Require Import Prelude Bits Asn1 Asn1Bits.

(** ** Single precision *)
Lemma log2_range x : 0 < x -> 2 ^ Z.log2 x <= x < 2 ^ (Z.log2 x + 1) /\ 0 <= Z.log2 x.
Proof. intros Hx. pose proof (Z.log2_spec x Hx) as H. rewrite <-Z.add_1_r in H. split; [exact H|apply Z.log2_nonneg]. Qed.
Lemma log2_lt x n : 0 < x < 2 ^ n -> 0 <= n -> Z.log2 x < n.
Proof. intros Hx Hn. apply Z.log2_lt_pow2; lia. Qed.
Lemma float_of_small x : x < 2 ^ 24 -> float_of x = x.
Proof.
  intros Hx. unfold float_of. destruct (x <=? 0) eqn:E; [done|]. breflect. rewrite (proj2 (Z.leb_le (Z.log2 x - 23) 0)); [done|].
  pose proof (log2_lt x 24 ltac:(lia) ltac:(lia)). lia.
Qed.
Lemma float_of_bounds x : 0 < x -> let k := Z.log2 x in 2 ^ k <= float_of x <= 2 ^ (k + 1) /\ (24 <= k -> x - 2 ^ (k - 24) <= float_of x <= x + 2 ^ (k - 24)) /\ (k < 24 -> float_of x = x).
Proof.
  intros Hx k. destruct (log2_range x Hx) as [Hr Hk]. fold k in Hr, Hk. unfold float_of. rewrite (proj2 (Z.leb_gt x 0)) by lia. fold k. cbv zeta.
  destruct (k - 23 <=? 0) eqn:E; breflect; [split_and!; [lia|lia|lia|done]|]. set (e := k - 23) in *. assert (0 < 2 ^ e) as He by lia. pose proof (Z.div_mod x (2 ^ e) ltac:(lia)) as Hdm.
  pose proof (Z.mod_pos_bound x (2 ^ e) He) as Hm. set (q := x / 2 ^ e) in *. set (r := x mod 2 ^ e) in *.
  assert (2 ^ e = 2 * 2 ^ (e - 1)) as H2 by (replace e with (1 + (e - 1)) at 1 by lia; rewrite Z.pow_add_r by lia; lia).
  assert (2 ^ k = 2 ^ 23 * 2 ^ e) as Hke by (rewrite <-Z.pow_add_r by lia; f_equal; lia). assert (2 ^ (k + 1) = 2 * (2 ^ 23 * 2 ^ e)) as Hke1 by (rewrite Z.pow_add_r by lia; lia).
  replace (k - 24) with (e - 1) by lia. assert (2 ^ 23 <= q < 2 ^ 24) as Hq by (change (2 ^ 24) with (2 * 2 ^ 23); nia).
  assert (forall u : bool, (u = true -> 2 ^ (e - 1) <= r) -> (u = false -> r <= 2 ^ (e - 1)) ->
    (2 ^ k <= (if u then q + 1 else q) * 2 ^ e <= 2 ^ (k + 1)) /\ x - 2 ^ (e - 1) <= (if u then q + 1 else q) * 2 ^ e <= x + 2 ^ (e - 1)) as Haux.
  { intros [] H1 H0; [specialize (H1 eq_refl)|specialize (H0 eq_refl)]; change (2 ^ 24) with (2 * 2 ^ 23) in Hq; split; nia. }
  destruct (Haux ((2 ^ (e - 1) <? r) || ((r =? 2 ^ (e - 1)) && Z.odd q))) as [Ha Hb].
  - intros Hu. apply orb_true_iff in Hu as [Hu|Hu]; breflect; lia.
  - intros Hu. breflect. lia.
  - split_and!; [lia|lia|done|lia].
Qed.

(** Ranges whose size is a power of two or clear of it by one part in 2^16; all sizes up to 2^16 are. *)
Definition clear_range (x : Z) : Prop := x = 2 ^ Z.log2 x \/ 2 ^ Z.log2 x + 2 ^ (Z.log2 x - 16) <= x.
Lemma clear_small x : 1 <= x <= 2 ^ 16 -> clear_range x.
Proof.
  intros Hx. destruct (log2_range x ltac:(lia)) as [Hr Hk]. destruct (decide (x = 2 ^ Z.log2 x)) as [|Hne]; [by left|right].
  assert (2 ^ (Z.log2 x - 16) <= 1) as H1; [|lia]. assert (Z.log2 x < 17) as Hl by (apply log2_lt; [change (2 ^ 17) with (2 * 2 ^ 16); lia|lia]). change 1 with (2 ^ 0). destruct (decide (Z.log2 x - 16 < 0)) as [Hneg|]; [rewrite Z.pow_neg_r by lia; lia|].
  apply Z.pow_le_mono_r; lia.
Qed.

Section Numbers.
Context `{Hlog : Log2f} {Hlaws : Log2fLaws}.

Lemma float_of_pow2 k : 0 <= k -> float_of (2 ^ k) = 2 ^ k.
Proof.
  intros Hk. assert (0 < 2 ^ k) as Hp by lia. destruct (float_of_bounds (2 ^ k) Hp) as (Hb & Hc & Hd). rewrite Z.log2_pow2 in * by lia.
  destruct (decide (k < 24)) as [Hlt|Hge]; [by apply Hd|]. unfold float_of. rewrite (proj2 (Z.leb_gt (2 ^ k) 0)), Z.log2_pow2, (proj2 (Z.leb_gt (k - 23) 0)) by lia. cbv zeta.
  assert (2 ^ k = 2 ^ 23 * 2 ^ (k - 23)) as Hke by (rewrite <-Z.pow_add_r by lia; f_equal; lia). rewrite Hke, Z.mod_mul, Z.div_mul by lia.
  assert (0 < 2 ^ (k - 23 - 1)) by lia. rewrite (proj2 (Z.ltb_ge (2 ^ (k - 23 - 1)) 0)), (proj2 (Z.eqb_neq 0 _)) by lia. done.
Qed.
(** The number of bits of a range. *)
Lemma nbits_log2_up x : 1 <= x < 2 ^ 63 -> clear_range x -> ceilf_log2f (float_of x) = Z.log2_up x.
Proof.
  intros Hx Hcl. destruct (log2_range x ltac:(lia)) as [Hr Hk]. set (k := Z.log2 x) in *. assert (k < 63) as Hk63 by (apply log2_lt; lia).
  destruct (decide (x = 2 ^ k)) as [Heq|Hne].
  { rewrite Heq, float_of_pow2, ceilf_log2f_pow2, Z.log2_up_pow2 by lia. done. }
  destruct Hcl as [Hcl|Hcl]; [done|]. fold k in Hcl. destruct (float_of_bounds x ltac:(lia)) as (Hb & Hc & Hd). fold k in Hb, Hc, Hd.
  assert (Z.log2_up x = k + 1) as ->.
  { rewrite Z.log2_up_eqn by lia. rewrite <-Z.add_1_r. f_equal. assert (2 ^ (k + 1) = 2 ^ k + 2 ^ k) as H2 by (rewrite Z.pow_add_r by lia; lia).
    apply (Z.log2_unique' _ k (Z.pred x - 2 ^ k)); lia. }
  apply ceilf_log2f_clear; [lia| |].
  - destruct (decide (k < 24)) as [Hlt|Hge]; [rewrite Hd by done; lia|]. split; [|lia]. specialize (Hc ltac:(lia)).
    assert (2 ^ (k - 24) < 2 ^ (k - 16)) by (apply Z.pow_lt_mono_r; lia). lia.
  - destruct (decide (k < 24)) as [Hlt|Hge].
    + rewrite Hd by done. destruct (decide (k < 17)) as [H17|H17]; [rewrite (Z.pow_neg_r 2 (k - 17)) by lia; lia|]. assert (2 ^ (k - 17) <= 2 ^ (k - 16)) by (apply Z.pow_le_mono_r; lia). lia.
    + specialize (Hc ltac:(lia)). assert (2 ^ (k - 16) = 2 ^ (k - 17) + 2 ^ (k - 17)) as H16 by (replace (k - 16) with (k - 17 + 1) by lia; rewrite Z.pow_add_r by lia; lia).
      assert (2 ^ (k - 24) <= 2 ^ (k - 17)) by (apply Z.pow_le_mono_r; lia). lia.
Qed.
Lemma log2_up_bounds x : 1 <= x -> x <= 2 ^ Z.log2_up x /\ 0 <= Z.log2_up x.
Proof. intros Hx. split; [|apply Z.log2_up_nonneg]. destruct (decide (x = 1)) as [->|]; [done|]. apply Z.log2_up_spec. lia. Qed.
Lemma log2_up_le x n : 1 <= x <= 2 ^ n -> 0 <= n -> Z.log2_up x <= n.
Proof. intros Hx Hn. rewrite <-(Z.log2_up_pow2 n) by lia. apply Z.log2_up_le_mono. lia. Qed.

(** *** Normally small numbers and enumerations *)
Lemma encodes_norm_small n : 0 <= n <= 63 -> forall al, encodes al (fun b => pack_norm_small_non_neg_whole_number b n) (unpack_norm_small_non_neg_whole_number uint32) n.
Proof.
  intros Hn al. apply (encodes_packs _ _ (bits_be 7 n)).
  - intros b L Hb. unfold pack_norm_small_non_neg_whole_number. rewrite (proj2 (Z.leb_le n 63)) by lia. destruct (bref_pack_spec b L n 7 Hb ltac:(lia)) as (b' & -> & Hr). by exists b'.
  - change (bits_be 7 n) with ([Z.testbit n 6] ++ bits_be (Z.to_nat 6) n). assert (Z.testbit n 6 = false) as ->.
    { rewrite <-(Z.mod_small n (2 ^ 6)) by lia. by apply Z.mod_pow2_bits_high. }
    eapply (reads_bind _ _ false (fun ext c => if negb ext then cbref_unpack uint32 c 6 else decode_fail c)); [apply reads_flag|]. cbn [negb].
    pose proof (reads_bits uint32 n 6 uint32_ok ltac:(cbn; lia)) as H6. rewrite Z.mod_small, uint32_conv in H6 by (unfold is_u32; lia). exact H6.
Qed.
Lemma uint32_bits v n : 0 <= n <= 32 -> 0 <= v < 2 ^ n -> forall al, encodes al (fun b => bref_pack b v n) (fun c => cbref_unpack uint32 c n) v.
Proof.
  intros Hn Hv al. pose proof (encodes_bits al uint32 v n uint32_ok ltac:(lia) ltac:(cbn; lia)) as Hbits. rewrite Z.mod_small, uint32_conv in Hbits; [done| |lia].
  assert (2 ^ n <= 2 ^ 32) by (apply Z.pow_le_mono_r; lia). unfold is_u32. lia.
Qed.
(** Enumerations of up to 2^16 values; of the extension at most 64. *)
Lemma encodes_enum e nof_types nof_exts has_ext al : 0 <= e < nof_types -> nof_types <= 2 ^ 16 -> 0 <= nof_exts < nof_types -> nof_exts <= 64 -> (has_ext = false -> nof_exts = 0) ->
  encodes al (fun b => pack_enum b e nof_types nof_exts has_ext) (unpack_enum nof_types nof_exts has_ext) e.
Proof.
  intros He Hn Hx Hx64 Hne. assert (forall n, 1 <= n <= 2 ^ 16 -> ceilf_log2f (float_of n) = Z.log2_up n /\ n <= 2 ^ Z.log2_up n /\ 0 <= Z.log2_up n <= 16) as Hbits.
  { intros n Hn'. rewrite nbits_log2_up by (lia || by apply clear_small). destruct (log2_up_bounds n ltac:(lia)). pose proof (log2_up_le n 16 ltac:(lia) ltac:(lia)). split_and!; lia. }
  set (m := nof_types - nof_exts). assert (u32 (nof_types - nof_exts) = m) as Hm by (apply u32_id; unfold is_u32; lia).
  assert (forall pk upk, encodes al pk upk e -> encodes al pk (fun c => check_enum nof_types (upk c)) e) as Hcheck.
  { intros pk upk Henc b L Hb. destruct (Henc b L Hb) as (b' & E & P1 & P2 & P3). exists b', E. split_and!; [done..|]. intros c R Hc Ho. destruct (P3 c R Hc Ho) as (c' & -> & V).
    exists c'. split; [|done]. cbn. by rewrite (proj2 (Z.leb_gt nof_types e)) by lia. }
  destruct has_ext.
  - assert (encodes al (fun b => pack_enum_ext b e (Z.log2_up m) m)
              (fun c => let! (ext, c) := cbref_unpack_bool c 1 in check_enum nof_types (if negb ext then cbref_unpack uint32 c (Z.log2_up m) else
                 match unpack_norm_small_non_neg_whole_number uint32 c with Some (UOk v c) => Some (UOk (u32 (v + m)) c) | Some (UErr e v c) => Some (UErr e (Some (u32 (default 0 v + m))) c) | None => None end)) e) as Hext.
    { destruct (Hbits m ltac:(lia)) as (_ & Hle & Hr). unfold pack_enum_ext. eapply (encodes_bind al _ _ (m <=? e)); [apply encodes_flag|]. cbv beta. destruct (m <=? e) eqn:E; breflect; cbn [negb]; apply Hcheck.
      - rewrite u32_id by (unfold is_u32; lia). pose proof (encodes_norm_small (e - m) ltac:(lia) al) as Hs. intros b L Hb. destruct (Hs b L Hb) as (b' & E' & P1 & P2 & P3).
        exists b', E'. split_and!; [done..|]. intros c R Hc Ho. destruct (P3 c R Hc Ho) as (c' & -> & V). exists c'. split; [|done]. do 2 f_equal. rewrite u32_id by (unfold is_u32; lia). f_equal; lia.
      - apply uint32_bits; lia. }
    eapply encodes_ext; [exact Hext| |].
    + intros b b'. unfold pack_enum. rewrite (proj2 (Z.leb_gt nof_types e)), Hm by lia. destruct (Hbits m ltac:(lia)) as (-> & _). done.
    + intros c c'. unfold unpack_enum. rewrite Hm. destruct (Hbits m ltac:(lia)) as (-> & _). by destruct (cbref_unpack_bool c 1) as [[]|].
  - unfold pack_enum, unpack_enum. rewrite (proj2 (Z.leb_gt nof_types e)) by lia. destruct (Hbits nof_types ltac:(lia)) as (-> & Hle & Hr). apply Hcheck, uint32_bits; lia.
Qed.

(** *** Constrained whole numbers *)

(** The conditions under which a number in its bounds is encoded correctly; [pi_octets] is about aligned numbers in ranges above 64K, whose
    length in octets is computed from the number. *)
Record per_int (t : int_type) (n lb ub : Z) (aligned : bool) : Prop := {
  pi_type : int_type_ok t;
  pi_bounds : it_min t <= lb <= n /\ n <= ub <= it_max t;
  pi_range : ub - lb <= it_max (it_promote t) /\ ub - lb < 2 ^ 62;
  pi_clear : clear_range (ub - lb + 1);
  pi_octets : aligned = true -> 65536 < ub - lb + 1 -> ub - lb <= it_max t /\
    let o := ceil_frac (Z.log2 (Z.max (n - lb) 1) + 2) 8 in o <= 2 ^ Z.log2_up (ceil_frac (Z.log2_up (ub - lb + 1)) 8) /\ o <= 7 /\ o * 8 <= it_width t;
}.

Lemma it_conv_mod t a n : 0 <= n <= it_width t -> it_conv t a mod 2 ^ n = a mod 2 ^ n.
Proof.
  intros Hn. unfold it_conv. replace (it_width t) with (n + (it_width t - n)) at 1 by lia. rewrite Z.pow_add_r by lia. rewrite Zplus_mod, Z.rem_mul_r by lia.
  rewrite (Z.mul_comm (2 ^ n)), Z.mod_add, Zmod_mod by lia. rewrite <-Zplus_mod. f_equal. lia.
Qed.
(** Reading a difference of [nb] bits back and adding the lower bound. *)
Lemma per_decode t n lb ub nb : int_type_ok t -> it_min t <= lb <= n -> n <= ub <= it_max t -> 0 <= nb <= it_width t -> ub - lb < 2 ^ nb ->
  it_conv t (it_conv t (it_conv t (n - lb) mod 2 ^ nb) + lb) = n.
Proof.
  intros Ht Hlb Hub Hnb Hr. pose proof (ito_width _ Ht). rewrite it_conv_mod by lia. rewrite it_conv_add by lia. rewrite (Z.mod_small (n - lb)) by lia.
  replace (n - lb + lb) with n by lia. apply it_conv_id; lia.
Qed.
Lemma per_int_range t n lb ub al : per_int t n lb ub al -> int_range t lb ub = ub - lb + 1 /\ ceilf_log2f (float_of (ub - lb + 1)) = Z.log2_up (ub - lb + 1)
  /\ ub - lb + 1 <= 2 ^ Z.log2_up (ub - lb + 1) /\ 0 <= Z.log2_up (ub - lb + 1) <= it_width t /\ Z.log2_up (ub - lb + 1) < 64.
Proof.
  intros [Ht [Hb1 Hb2] [Hr Hr62] Hc _]. pose proof (ito_width _ Ht) as Hw. assert (it_min (it_promote t) <= 0 /\ 0 <= it_width (it_promote t)) as [Hp0 Hpw].
  { unfold it_promote. destruct (it_width t <? 32); [cbn; lia|]. pose proof (it_min_nonpos t Ht). lia. }
  unfold int_range. rewrite it_conv_id by lia. unfold u64. rewrite (Z.mod_small (ub - lb)), Z.mod_small by lia. split; [done|].
  rewrite nbits_log2_up by (done || lia). destruct (log2_up_bounds (ub - lb + 1) ltac:(lia)). split_and!; [done|done|lia| |].
  - apply log2_up_le; [|lia]. unfold it_max in *. lia.
  - pose proof (log2_up_le (ub - lb + 1) 62 ltac:(lia) ltac:(lia)). lia.
Qed.
(** A field with leading zeros, read as one field. *)
Lemma encodes_padded al t v a n : int_type_ok t -> 0 <= a -> 0 <= n -> a + n < 64 -> a + n <= it_width t -> 
  encodes al (fun b => let! b := bref_pack b 0 a in bref_pack b v n) (fun c => cbref_unpack t c (a + n)) (it_conv t (v mod 2 ^ n)).
Proof.
  intros Ht Ha Hn Han Hw. apply (encodes_packs _ _ (bits_be (Z.to_nat (a + n)) (v mod 2 ^ n))).
  - assert (bits_be (Z.to_nat (a + n)) (v mod 2 ^ n) = bits_be (Z.to_nat a) 0 ++ bits_be (Z.to_nat n) v) as ->.
    { rewrite Z2Nat.inj_add by lia. assert (0 <= v mod 2 ^ n < 2 ^ Z.of_nat (Z.to_nat n)) as Hv by (rewrite Z2Nat.id by lia; apply Z.mod_pos_bound; lia).
      pose proof (bits_be_app (Z.to_nat a) (Z.to_nat n) 0 (v mod 2 ^ n) Hv) as Happ. rewrite Z.mul_0_l, Z.add_0_l in Happ. rewrite Happ. f_equal.
      rewrite <-(bits_be_mod (Z.to_nat n) v), Z2Nat.id by lia. done. }
    apply packs_bind; apply packs_bits; lia.
  - pose proof (reads_bits t (v mod 2 ^ n) (a + n) Ht ltac:(lia)) as Hrd. rewrite (Z.mod_small (v mod 2 ^ n)) in Hrd; [done|].
    assert (0 <= v mod 2 ^ n < 2 ^ n) by (apply Z.mod_pos_bound; lia). assert (2 ^ n <= 2 ^ (a + n)) by (apply Z.pow_le_mono_r; lia). lia.
Qed.
Lemma ceil_frac_8 n : 0 <= n -> n <= ceil_frac n 8 * 8 < n + 8.
Proof. intros Hn. unfold ceil_frac. pose proof (Z.div_mod (n + (8 - 1)) 8 ltac:(lia)). pose proof (Z.mod_pos_bound (n + (8 - 1)) 8 ltac:(lia)). lia. Qed.
Lemma ceil_frac_mono a b : a <= b -> ceil_frac a 8 <= ceil_frac b 8.
Proof. intros. unfold ceil_frac. apply Z.div_le_mono; lia. Qed.

(** The number of octets of a large number. *)
Lemma octets_bounds v : 0 <= v < 2 ^ 62 -> let o := ceil_frac (floorf_log2f_1 (float_of (Z.max v 1))) 8 in
  1 <= o <= ceil_frac (Z.log2 (Z.max v 1) + 2) 8 /\ v < 2 ^ (o * 8).
Proof.
  intros Hv o. destruct (log2_range (Z.max v 1) ltac:(lia)) as [Hr Hk]. set (k := Z.log2 (Z.max v 1)) in *. assert (k < 62) as Hk62 by (apply log2_lt; lia).
  destruct (float_of_bounds (Z.max v 1) ltac:(lia)) as (Hb & _). fold k in Hb. pose proof (floorf_log2f_range k (float_of (Z.max v 1)) ltac:(lia) Hb) as Hf.
  pose proof (ceil_frac_mono (k + 1) (floorf_log2f_1 (float_of (Z.max v 1))) (proj1 Hf)) as H1. pose proof (ceil_frac_8 (k + 1) ltac:(lia)) as H8. fold o in H1. split; [split|].
  - lia.
  - apply ceil_frac_mono. lia.
  - assert (2 ^ (k + 1) <= 2 ^ (o * 8)) by (apply Z.pow_le_mono_r; lia). lia.
Qed.

Lemma encodes_constrained t n lb ub aligned al : per_int t n lb ub aligned -> (aligned = true -> al = true) ->
  encodes al (fun b => pack_constrained_whole_number t b n lb ub aligned) (fun c => unpack_constrained_whole_number t c lb ub aligned) n.
Proof.
  intros Hp Hal. pose proof Hp as [Ht [Hb1 Hb2] [_ Hr62] _ Hoct]. destruct (per_int_range _ _ _ _ _ Hp) as (Hra & Hnb & Hle & Hw & H64). pose proof (ito_width _ Ht) as Hwt.
  unfold pack_constrained_whole_number, unpack_constrained_whole_number. rewrite (proj2 (Z.ltb_ge ub lb)), (proj2 (Z.ltb_ge n lb)), (proj2 (Z.ltb_ge ub n)) by lia. cbn [orb].
  rewrite Hra, Hnb. cbv zeta. set (ra := ub - lb + 1) in *. set (nb := Z.log2_up ra) in *. destruct (ra =? 1) eqn:E1; breflect.
  { assert (n = lb) as -> by lia. apply encodes_ret. }
  assert (forall pk upk, encodes al pk upk (it_conv t (it_conv t (n - lb) mod 2 ^ nb)) ->
    encodes al pk (fun c => let! (x, c) := upk c in Some (UOk (it_conv t (x + lb)) c)) n) as Hdec.
  { intros pk upk Henc. eapply encodes_ext; [eapply (encodes_bind al pk upk _ pack_ok (fun x c => Some (UOk (it_conv t (x + lb)) c)) n Henc)| |].
    - rewrite (per_decode t n lb ub nb) by (done || lia). apply encodes_ret.
    - intros b b' Hb. cbv beta in Hb. by rewrite handle_pack_ret in Hb.
    - done. }
  destruct aligned; cbn [negb].
  2:{ eapply encodes_ext; [apply (Hdec (fun b => bref_pack b (it_conv t (n - lb)) nb) (fun c => cbref_unpack t c nb)); apply encodes_bits; done || lia| |].
      - intros b b' Hb. by rewrite Hb.
      - intros c c'. cbv beta. destruct (cbref_unpack t c nb) as [[x c1|]|]; cbn; try done. intros [= Hx <-]. rewrite Hx. by rewrite (proj2 (Z.ltb_ge ub n)) by lia. }
  specialize (Hal eq_refl). subst al. destruct (ra <? 256) eqn:E256; [apply (Hdec _ (fun c => cbref_unpack t c nb)); apply encodes_bits; done || lia|].
  breflect. destruct (ra <=? ASN_64K) eqn:E64; breflect; unfold ASN_64K in *.
  - set (no := ceil_frac nb 8). destruct (ceil_frac_8 nb ltac:(lia)) as [Hno1 Hno2]. fold no in Hno1, Hno2. assert (no * 8 <= it_width t) as Hnow.
    { pose proof (ito_bytes _ Ht). pose proof (Z.div_mod (it_width t) 8 ltac:(lia)). lia. }
    assert (nb <= 16) as Hnb16 by (apply log2_up_le; lia).
    eapply encodes_ext; [apply (Hdec (fun b => let! b := align_bytes_zero b in let! b := (let! b := bref_pack b 0 (no * 8 - nb) in bref_pack b (it_conv t (n - lb)) nb) in align_bytes_zero b)
      (fun c => let! (_u, c) := align_bytes c in let! (n, c) := cbref_unpack t c (no * 8 - nb + nb) in let! (_u, c) := align_bytes c in Some (UOk n c)))| |].
    + apply encodes_align_bind. eapply encodes_bind; [apply encodes_padded; done || lia|]. cbv beta.
      eapply encodes_ext; [apply (encodes_then true align_bytes_zero align_bytes () (fun _ => it_conv t (it_conv t (n - lb) mod 2 ^ nb)) encodes_align)|done|done].
    + intros b b' Hb. cbn [align_bytes_zero pack_ok handle_pack] in Hb |- *. by rewrite handle_pack_assoc in Hb.
    + intros c c'. replace (no * 8 - nb + nb) with (no * 8) by lia. destruct (align_bytes c) as [[u1 c1|]|]; cbn; try done. destruct (cbref_unpack t c1 (no * 8)) as [[x c2|]|]; cbn; try done.
      by destruct (align_bytes c2) as [[]|].
  - destruct (Hoct eq_refl ltac:(lia)) as [Hmax (Ho1 & Ho2 & Ho3)]. assert (it_conv t (n - lb) = n - lb) as Hid by (apply it_conv_id; [lia|]; pose proof (it_min_nonpos t Ht); lia).
    rewrite Hid. destruct (octets_bounds (n - lb) ltac:(lia)) as [Hno Hlt]. set (no := ceil_frac (floorf_log2f_1 (float_of (Z.max (n - lb) 1))) 8) in *.
    assert (ceilf_log2f (float_of (ceil_frac nb 8)) = Z.log2_up (ceil_frac nb 8)) as Hlen.
    { destruct (ceil_frac_8 nb ltac:(lia)). assert (0 < nb) as Hnb0 by (apply Z.log2_up_pos; lia). apply nbits_log2_up; [lia|]. apply clear_small. lia. }
    rewrite Hlen. set (nl := Z.log2_up (ceil_frac nb 8)) in *. assert (0 <= nl <= 4) as Hnl.
    { split; [apply Z.log2_up_nonneg|]. destruct (ceil_frac_8 nb ltac:(lia)). assert (0 < nb) by (apply Z.log2_up_pos; lia). apply log2_up_le; [|lia]. change (2 ^ 4) with 16. lia. }
    rewrite u32_id by (unfold is_u32; lia).
    apply (encodes_bind true _ _ (no - 1)); [apply uint32_bits; lia|]. cbv beta. apply encodes_align_bind.
    rewrite (u32_id (no - 1 + 1)), u32_id by (unfold is_u32; rewrite ?u32_id; unfold is_u32; lia). replace (no - 1 + 1) with no by lia.
    pose proof (encodes_then true (fun b => bref_pack b (n - lb) (no * 8)) (fun c => cbref_unpack t c (no * 8)) _ (fun x => it_conv t (x + lb)) (encodes_bits true t (n - lb) (no * 8) Ht ltac:(lia) ltac:(lia))) as Hlast.
    rewrite (Z.mod_small (n - lb)), Hid in Hlast by lia. replace (n - lb + lb) with n in Hlast by lia. rewrite it_conv_id in Hlast by lia.
    eapply encodes_ext; [exact Hlast| |done]. intros b b' Hb. cbv beta in Hb. by rewrite handle_pack_ret in Hb.
Qed.

(** *** Length determinants *)
Lemma length_bits v : 128 <= v < ASN_16K -> bits_be (Z.to_nat 2) 2 ++ bits_be (Z.to_nat 14) v = bits_be (Z.to_nat 8) (128 + v / 256) ++ bits_be (Z.to_nat 8) v.
Proof.
  unfold ASN_16K. intros Hv. change (Z.to_nat 14) with (Z.to_nat 6 + Z.to_nat 8)%nat. rewrite bits_be_split, app_assoc. f_equal. change (Z.to_nat 8) with (Z.to_nat 2 + Z.to_nat 6)%nat at 2.
  change (2 ^ Z.of_nat (Z.to_nat 8)) with 256. replace (128 + v / 256) with (2 * 2 ^ Z.of_nat (Z.to_nat 6) + v / 256) by (change (2 ^ Z.of_nat (Z.to_nat 6)) with 64; lia). rewrite bits_be_app; [done|].
  change (2 ^ Z.of_nat (Z.to_nat 6)) with 64. split; [apply Z.div_pos; lia|]. apply Z.div_lt_upper_bound; lia.
Qed.
Definition length_code (v : Z) : list bool := if v <? 128 then bits_be (Z.to_nat 8) v else bits_be (Z.to_nat 2) 2 ++ bits_be (Z.to_nat 14) v.
Lemma length_code_bytes v : exists k, length (length_code v) = (8 * k)%nat.
Proof. unfold length_code. destruct (v <? 128); [by exists 1%nat|by exists 2%nat]. Qed.
Lemma packs_length v : 0 <= v < ASN_16K -> packs (fun b => if v <? 128 then bref_pack b v 8 else let! b := bref_pack b 2 2 in bref_pack b v 14) (length_code v).
Proof.
  intros Hv. unfold length_code. destruct (v <? 128); [apply packs_bits; lia|]. apply (packs_bind (fun b => bref_pack b 2 2)); apply packs_bits; lia.
Qed.
Lemma reads_uint32 v n : 0 <= n <= 32 -> 0 <= v < 2 ^ n -> reads (fun c => cbref_unpack uint32 c n) (bits_be (Z.to_nat n) v) v.
Proof.
  intros Hn Hv. pose proof (reads_bits uint32 v n uint32_ok ltac:(cbn; lia)) as Hr. rewrite Z.mod_small, uint32_conv in Hr; [done| |lia].
  assert (2 ^ n <= 2 ^ 32) by (apply Z.pow_le_mono_r; lia). unfold is_u32. lia.
Qed.
Lemma reads_length_unaligned v : 0 <= v < ASN_16K -> reads (fun c => unpack_length_det c false) (length_code v) v.
Proof.
  unfold ASN_16K. intros Hv. unfold length_code, unpack_length_det. cbn [negb]. destruct (v <? 128) eqn:E; breflect.
  - change (bits_be (Z.to_nat 8) v) with ([Z.testbit v 7] ++ bits_be (Z.to_nat 7) v). assert (Z.testbit v 7 = false) as ->.
    { rewrite <-(Z.mod_small v (2 ^ 7)) by lia. by apply Z.mod_pow2_bits_high. }
    eapply (reads_bind _ _ false (fun ext c => if negb ext then _ else _)); [apply reads_flag|]. cbn [negb]. apply reads_uint32; lia.
  - change (bits_be (Z.to_nat 2) 2) with ([true] ++ [false]). rewrite <-app_assoc.
    eapply (reads_bind _ _ true (fun ext c => if negb ext then _ else _)); [apply reads_flag|]. cbn [negb].
    eapply (reads_bind _ _ false (fun ext c => if negb ext then _ else _)); [apply reads_flag|]. cbn [negb]. apply reads_uint32; lia.
Qed.
Definition length_octets (c : cbit_ref) : unpack_result Z :=
  let! (val, c) := cbref_unpack uint32 c 8 in
  if val <? 128 then Some (UOk val c)
  else
    let val := val - 128 in
    if val <? 64 then let! (val_octet_2, c) := cbref_unpack uint32 c 8 in Some (UOk (Z.shiftl val 8 + val_octet_2) c)
    else Some (UErr SRSASN_ERROR_DECODE_FAIL (Some val) c).
Lemma reads_length_octets v : 0 <= v < ASN_16K -> reads length_octets (length_code v) v.
Proof.
  unfold ASN_16K. intros Hv. unfold length_code, length_octets. destruct (v <? 128) eqn:E; breflect.
  - rewrite <-(app_nil_r (bits_be _ _)). eapply (reads_bind _ _ v (fun val c => if val <? 128 then _ else _)); [apply reads_uint32; lia|]. cbv beta. rewrite (proj2 (Z.ltb_lt v 128)) by lia. apply reads_ret.
  - rewrite length_bits by (unfold ASN_16K; lia). assert (0 <= v / 256 < 64) as Hq by (split; [apply Z.div_pos; lia|apply Z.div_lt_upper_bound; lia]).
    eapply (reads_bind _ _ (128 + v / 256) (fun val c => if val <? 128 then _ else _)); [apply reads_uint32; lia|]. cbv beta zeta.
    rewrite (proj2 (Z.ltb_ge (128 + v / 256) 128)), (proj2 (Z.ltb_lt (128 + v / 256 - 128) 64)) by lia. replace (128 + v / 256 - 128) with (v / 256) by lia.
    assert (v = Z.shiftl (v / 256) 8 + v mod 256) as Hsum by (rewrite Z.shiftl_mul_pow2 by lia; change (2 ^ 8) with 256; pose proof (Z.div_mod v 256 ltac:(lia)); lia).
    pose proof (Z.mod_pos_bound v 256 ltac:(lia)). pose proof (reads_bind (fun c => cbref_unpack uint32 c 8) _ (v mod 256) (fun x c => Some (UOk (Z.shiftl (v / 256) 8 + x) c)) _ _
      (reads_uint32 (v mod 256) 8 ltac:(lia) ltac:(lia)) (reads_ret _)) as Hr. rewrite <-Hsum, app_nil_r in Hr.
    change 256 with (2 ^ Z.of_nat (Z.to_nat 8)) in Hr at 1. rewrite bits_be_mod in Hr. exact Hr.
Qed.
Lemma encodes_length_det v aligned al : 0 <= v < ASN_16K -> (aligned = true -> al = true) ->
  encodes al (fun b => pack_length_det b v aligned) (fun c => unpack_length_det c aligned) v.
Proof.
  intros Hv Hal. pose proof (encodes_packs _ _ _ _ (packs_length v Hv) (reads_length_unaligned v Hv) al) as Hu. pose proof (encodes_packs _ _ _ _ (packs_length v Hv) (reads_length_octets v Hv) true) as Ho.
  unfold ASN_16K in *. destruct aligned.
  - rewrite (Hal eq_refl). eapply encodes_ext; [apply encodes_align_bind; exact Ho| |done]. intros b b'. unfold pack_length_det, ASN_64K, ASN_16K. cbn [negb].
    rewrite (proj2 (Z.ltb_ge 65536 v)) by lia. by rewrite (proj2 (Z.ltb_lt v 16384)) by lia.
  - eapply encodes_ext; [exact Hu| |done]. intros b b'. unfold pack_length_det, ASN_16K. cbn [negb]. rewrite (proj2 (Z.ltb_lt v 16384)) by lia.
    destruct (v <? 128); [by rewrite handle_pack_ret|]. destruct (bref_pack b 2 2) as [[[] ?]|]; cbn; try done. by rewrite handle_pack_ret.
Qed.
(** An aligned length leaves the writer at the begin of a byte. *)
Lemma length_det_aligned b L v b' : 0 <= v < ASN_16K -> repr b L -> pack_length_det b v true = pack_ok b' -> br_offset b' = 0.
Proof.
  intros Hv Hb Hp. unfold pack_length_det in Hp. cbn [negb] in Hp. pose proof Hv as Hv'. unfold ASN_64K, ASN_16K in *. rewrite (proj2 (Z.ltb_ge 65536 v)), (proj2 (Z.ltb_lt v 16384)) in Hp by lia.
  destruct (align_bytes_zero_spec b L Hb) as (b1 & H1 & R1 & O1). rewrite H1 in Hp. cbn [handle_pack pack_ok] in Hp.
  destruct (packs_length v ltac:(unfold ASN_16K; lia) b1 _ R1) as (b2 & H2 & R2). rewrite H2 in Hp. injection Hp as <-. destruct (length_code_bytes v) as [k Hk].
  destruct (repr_offset _ _ R1) as [E1 _]. destruct (repr_offset _ _ R2) as [-> _]. rewrite length_app, Hk, Nat2Z.inj_add, Nat2Z.inj_mul, Z.mul_comm, Z.mod_add by lia. lia.
Qed.

Lemma per_int_uint32 n lb ub aligned : 0 <= lb <= n -> n <= ub < ASN_64K -> per_int uint32 n lb ub aligned.
Proof.
  unfold ASN_64K. intros Hlb Hub. split; [apply uint32_ok|change (it_min uint32) with 0; change (it_max uint32) with (2 ^ 32 - 1); lia|change (it_max (it_promote uint32)) with (2 ^ 32 - 1); lia| |lia].
  apply clear_small. change (2 ^ 16) with 65536. lia.
Qed.
(** Lengths with bounds, as they are used for strings and sequences; from 64K on they are encoded as unbounded. *)
Definition length_ok (n lb ub : Z) : Prop := 0 <= lb <= n /\ n <= ub < 2 ^ 32 /\ n < ASN_16K.
Lemma encodes_length n lb ub aligned al : length_ok n lb ub -> (aligned = true -> al = true) ->
  encodes al (fun b => pack_length uint32 b n lb ub aligned) (fun c => unpack_length uint32 c lb ub aligned) n.
Proof.
  intros (Hlb & Hub & Hn) Hal. unfold pack_length, unpack_length. destruct (ASN_64K <=? ub) eqn:E; breflect.
  - eapply encodes_ext; [apply (encodes_length_det n aligned al); [lia|done]| |].
    + intros b b'. rewrite u32_id by (unfold is_u32; lia). done.
    + intros c c' ->. by rewrite uint32_conv by (unfold is_u32; lia).
  - apply encodes_constrained; [|done]. apply per_int_uint32; lia.
Qed.

(** *** Integers *)
Lemma encodes_integer t n0 n lb ub has_ext aligned al : per_int t n lb ub aligned -> lb < ub -> lower_bounded t lb = true -> upper_bounded t ub = true -> (aligned = true -> al = true) ->
  encodes al (fun b => pack_integer t b n lb ub has_ext aligned) (fun c => unpack_integer t n0 c lb ub has_ext aligned) n.
Proof.
  intros Hp Hlt Hl Hu Hal. pose proof (pi_bounds _ _ _ _ _ Hp) as [Hb1 Hb2]. unfold pack_integer, unpack_integer. rewrite (proj2 (Z.leb_le lb n)), (proj2 (Z.leb_le n ub)), Hl, Hu by lia. cbn [andb negb].
  rewrite (proj2 (Z.eqb_neq lb ub)) by lia.
  apply (encodes_bind al (fun b => if has_ext then bref_pack b (Z.b2z false) 1 else pack_ok b) (fun c => if has_ext then cbref_unpack_bool c 1 else Some (UOk false c)) false
     (fun b => let! b := pack_constrained_whole_number t b n lb ub aligned in pack_ok b)).
  - destruct has_ext; [apply encodes_flag|apply encodes_ret].
  - cbn [negb andb]. eapply encodes_ext; [apply (encodes_constrained t n lb ub aligned al Hp Hal)| |done]. intros b b'. by rewrite handle_pack_ret.
Qed.

(** ** Octet strings *)
Lemma pack_each_unchecked_eq l : forall b b', pack_each b l = pack_ok b' -> pack_each_unchecked b l = pack_ok b'.
Proof. induction l as [|x l IH]; intros b b'; cbn [pack_each pack_each_unchecked]; [done|]. destruct (bref_pack b x 8) as [[[] ?]|]; cbn [handle_pack]; try done. apply IH. Qed.
Lemma encodes_each al l : bytes_ok l -> encodes al (fun b => pack_each b l) (fun c => unpack_each c (length l)) l.
Proof. intros Hl. apply (encodes_packs _ _ (bytes_bits l)); [apply packs_each|by apply reads_each]. Qed.
(** Alignment without a look at its code. *)
Lemma encodes_align_unchecked {A} (g : bool) pk upk (v : A) al : encodes al pk upk v -> (g = true -> al = true) ->
  encodes al (fun b => let* (_, b) := if g then align_bytes_zero b else pack_ok b in pk b) (fun c => let* c := if g then align_unchecked c else Some c in upk c) v.
Proof.
  intros He Hg. destruct g; [|exact He]. rewrite (Hg eq_refl) in *. eapply encodes_ext; [apply encodes_align_bind; exact He|done|].
  intros c c'. unfold align_unchecked. by destruct (align_bytes c) as [[]|].
Qed.
Lemma encodes_fixed_octstring aligned al l : bytes_ok l -> (aligned = true -> al = true) -> encodes al (fun b => fixed_octstring_pack aligned b l) (fixed_octstring_unpack (length l) aligned) l.
Proof.
  intros Hl Hal. unfold fixed_octstring_pack, fixed_octstring_unpack. change (blen l) with (Z.of_nat (length l)).
  apply (encodes_align_unchecked (aligned && (2 <? Z.of_nat (length l))) (fun b => pack_each_unchecked b l)); [|intros [? _]%andb_true_iff; auto].
  eapply encodes_ext; [by apply encodes_each| |done]. intros b b'. apply pack_each_unchecked_eq.
Qed.
Lemma encodes_bounded_octstring lb ub aligned al l : bytes_ok l -> length_ok (blen l) lb ub -> (aligned = true -> al = true) ->
  encodes al (fun b => bounded_octstring_pack lb ub aligned b l) (bounded_octstring_unpack lb ub aligned) l.
Proof.
  intros Hl Hlen Hal. unfold bounded_octstring_pack, bounded_octstring_unpack. eapply encodes_bind; [by apply encodes_length|]. cbv beta. unfold blen at 1. rewrite Nat2Z.id.
  apply encodes_align_unchecked; [by apply encodes_each|done].
Qed.
Lemma encodes_unbounded_octstring aligned al l : bytes_ok l -> blen l < ASN_16K -> (aligned = true -> al = true) ->
  encodes al (fun b => unbounded_octstring_pack aligned b l) (unbounded_octstring_unpack aligned) l.
Proof.
  intros Hl Hlen Hal. unfold unbounded_octstring_pack, unbounded_octstring_unpack. pose proof (blen_nonneg l). rewrite u32_id by (unfold is_u32, ASN_16K in *; lia).
  eapply encodes_bind; [apply encodes_length_det; [lia|done]|]. cbv beta. unfold blen at 1. rewrite Nat2Z.id. eapply encodes_ext; [by apply encodes_each| |done]. intros b b'. apply pack_each_unchecked_eq.
Qed.

(** ** Bit strings *)
Record bitstring_ok (x : Z * bytes) : Prop := {
  bs_len : 1 <= x.1 < ASN_16K;
  bs_octets : length x.2 = Z.to_nat (ceil_frac x.1 8);
  bs_bytes : bytes_ok x.2;
  bs_top : forall top l, rev x.2 = top :: l -> top < 2 ^ ((x.1 - 1) mod 8 + 1);
}.
Lemma encodes_bitfield x lb ub aligned al : bitstring_ok x -> (aligned = true -> al = true) ->
  encodes al (fun b => pack_bitfield b x.2 x.1 lb ub aligned) (fun c => unpack_bitfield c x.1 lb ub aligned) x.2.
Proof.
  intros [Hn Ho Hb Ht] Hal. unfold pack_bitfield, unpack_bitfield. unfold ASN_16K, ASN_64K in *. rewrite (proj2 (Z.eqb_neq x.1 0)), (proj2 (Z.ltb_ge 65536 x.1)) by lia.
  apply encodes_align_unchecked; [|unfold bitfield_aligned; intros [? _]%andb_true_iff; auto]. rewrite <-Ho, firstn_all. destruct (rev x.2) as [|top l] eqn:Er.
  { apply (f_equal length) in Er. rewrite length_rev in Er. cbn in Er. pose proof (ceil_frac_8 x.1 ltac:(lia)). lia. }
  specialize (Ht top l eq_refl). assert (bytes_ok (top :: l)) as Hbl by (rewrite <-Er; by apply Forall_rev). apply Forall_cons_1 in Hbl as [Htop Hl].
  pose proof (Z.mod_pos_bound (x.1 - 1) 8 ltac:(lia)) as Hm. set (off := (x.1 - 1) mod 8 + 1) in *.
  assert (length l = Z.to_nat (ceil_frac x.1 8 - 1)) as Hll by (apply (f_equal length) in Er; rewrite length_rev in Er; cbn in Er; lia). rewrite <-Hll.
  assert (x.2 = rev (top :: l)) as Hx by (rewrite <-Er; by rewrite rev_involutive). rewrite Hx.
  apply (encodes_bind al (fun b => bref_pack b top off) (fun c => cbref_unpack uint8 c off) top (fun b => pack_each b l)).
  - pose proof (encodes_bits al uint8 top off uint8_ok ltac:(lia) ltac:(cbn; lia)) as He. rewrite Z.mod_small, uint8_conv in He by (done || unfold is_u8 in *; lia). exact He.
  - eapply encodes_ext; [apply (encodes_then al (fun b => pack_each b l) (fun c => unpack_each c (length l)) l (fun l => rev (top :: l)) (encodes_each al l Hl))| |done].
    intros b b'. cbv beta. by rewrite handle_pack_ret.
Qed.
(** The length of a bit string with bounds is packed in [ceil(log2(ub - lb))] bits and without alignment of its octets, but read as a constrained number. *)
Definition bitstring_bounds_ok (lb ub : Z) (aligned : bool) : Prop :=
  lb = ub \/ lb < ub < ASN_64K /\ Z.log2_up (ub - lb) = Z.log2_up (ub - lb + 1) /\ (aligned = true -> ub - lb + 1 < 256).
(** The prefix without the alignment at its end, which the bit field repeats. *)
Definition bit_prefix (n lb ub : Z) (has_ext : bool) (b : bit_ref) : pack_result :=
  let! b := if has_ext then bref_pack b (Z.b2z false) 1 else pack_ok b in
  if lb =? ub then pack_ok b else bref_pack b (u32 (n - lb)) (ceilf_log2 (ub - lb)).
Lemma encodes_bit_prefix n lb ub has_ext aligned al : 0 <= lb <= n -> n <= ub -> ub < NO_UB -> bitstring_bounds_ok lb ub aligned -> (aligned = true -> al = true) ->
  encodes al (bit_prefix n lb ub has_ext) (fun c => unpack_length_prefix c lb ub has_ext aligned) n.
Proof.
  intros Hlb Hub Hno Hbd Hal. unfold unpack_length_prefix. rewrite (proj2 (Z.eqb_neq ub NO_UB)) by lia. cbn [orb].
  apply (encodes_bind al (fun b => if has_ext then bref_pack b (Z.b2z false) 1 else pack_ok b) (fun c => if has_ext then cbref_unpack_bool c 1 else Some (UOk false c)) false
    (fun b => if lb =? ub then pack_ok b else bref_pack b (u32 (n - lb)) (ceilf_log2 (ub - lb)))).
  { destruct has_ext; [apply encodes_flag|apply encodes_ret]. }
  cbv beta iota. destruct (lb =? ub) eqn:Eb; breflect; [assert (n = lb) as -> by lia; apply encodes_ret|]. destruct Hbd as [?|(Hlt & Hlog2 & H256)]; [lia|]. unfold ASN_64K in Hlt.
  unfold unpack_length. rewrite (proj2 (Z.leb_gt ASN_64K ub)) by (unfold ASN_64K; lia).
  pose proof (per_int_uint32 n lb ub aligned ltac:(lia) ltac:(unfold ASN_64K; lia)) as Hp. destruct (per_int_range _ _ _ _ _ Hp) as (Hra & Hnb & _).
  eapply encodes_ext; [apply (encodes_constrained uint32 n lb ub aligned al Hp Hal)| |done]. intros b b'. unfold pack_constrained_whole_number.
  rewrite (proj2 (Z.ltb_ge ub lb)), (proj2 (Z.ltb_ge n lb)), (proj2 (Z.ltb_ge ub n)), Hra, Hnb by lia. cbn [orb]. rewrite (proj2 (Z.eqb_neq (ub - lb + 1) 1)) by lia.
  rewrite uint32_conv, (u32_id (n - lb)) by (unfold is_u32; lia). rewrite ceilf_log2_small, Hlog2 by (change (2 ^ 16) with 65536; lia). cbv zeta.
  destruct aligned; cbn [negb]; [rewrite (proj2 (Z.ltb_lt (ub - lb + 1) 256)) by (apply H256; done); done|].
  destruct (bref_pack_code b (n - lb) (Z.log2_up (ub - lb + 1))) as [->|[b1 ->]]; done.
Qed.
Lemma encodes_bitstring x lb ub has_ext aligned al : bitstring_ok x -> 0 <= lb <= x.1 -> x.1 <= ub < NO_UB -> bitstring_bounds_ok lb ub aligned -> (aligned = true -> al = true) ->
  encodes al (fun b => bitstring_pack lb ub has_ext aligned b x) (bitstring_unpack lb ub has_ext aligned) x.
Proof.
  intros Hx Hlb Hub Hbd Hal. pose proof (encodes_bit_prefix x.1 lb ub has_ext aligned al Hlb ltac:(lia) ltac:(lia) Hbd Hal) as Hpre. destruct x as [n buf]. cbn [fst snd] in *.
  eapply encodes_ext; [apply (encodes_bind al _ _ n (fun b => pack_bitfield b buf n lb ub aligned) (fun nbits c => let! (buf, c) := unpack_bitfield c nbits lb ub aligned in Some (UOk (nbits, buf) c)) (n, buf) Hpre)| |done].
  { eapply encodes_ext; [apply (encodes_then al _ _ _ (fun buf => (n, buf)) (encodes_bitfield (n, buf) lb ub aligned al Hx Hal))| |done]. intros b b'. cbv beta. by rewrite handle_pack_ret. }
  intros b b'. cbv beta. unfold bitstring_pack, pack_length_prefix, bit_prefix. cbn [fst snd]. rewrite (proj2 (Z.eqb_neq ub NO_UB)), andb_false_r by lia. cbv zeta.
  rewrite (proj2 (Z.leb_le lb n)), (proj2 (Z.leb_le n ub)) by lia. cbn [andb negb orb]. rewrite andb_true_r. intros <-. rewrite !handle_pack_assoc.
  destruct (if has_ext then _ else _) as [[[] b1]|]; cbn [handle_pack]; try done. destruct (lb =? ub) eqn:Eb; [done|]. rewrite handle_pack_assoc.
  destruct (bref_pack b1 _ _) as [[[] b2]|]; cbn [handle_pack]; try done. destruct aligned; cbn [align_bytes_zero pack_ok handle_pack]; [|done].
  unfold pack_bitfield, bitfield_aligned. rewrite Eb. pose proof (bs_len _ Hx) as Hn. cbn [fst] in Hn. by rewrite (proj2 (Z.eqb_neq n 0)) by lia.
Qed.

(** C32: values of these classes are read back as they were written, from any position
    of writer and reader (the same alignment where the encoding is aligned), and what
    follows them is left: integers with lb < ub whose range is a power of two or clear of one
    by 2^-16 and, where an aligned range exceeds 64K, whose octets fit their length field
    (see [per_int]); enumerations of up to 2^16 values, with and without extension; octet
    strings of fixed length, and of bounded and unbounded length below 16384; bit strings of 1 to 16383 bits with
    bounds, either equal or below 64K with a range that has the number of bits the code
    computes, and less than 256 lengths if aligned ([bitstring_bounds_ok]).  Integers with
    lb = ub, longer strings and the other ranges are excluded: the code does not
    read all of them back. *)
Theorem per_values_roundtrip al aligned (Hal : aligned = true -> al = true) :
  (forall t n0 n lb ub has_ext, per_int t n lb ub aligned -> lb < ub -> lower_bounded t lb = true -> upper_bounded t ub = true ->
     encodes al (fun b => pack_integer t b n lb ub has_ext aligned) (fun c => unpack_integer t n0 c lb ub has_ext aligned) n)
  /\ (forall e nof_types nof_exts (has_ext : bool), 0 <= e < nof_types -> nof_types <= 2 ^ 16 -> 0 <= nof_exts < nof_types -> nof_exts <= 64 -> (has_ext = false -> nof_exts = 0) ->
     encodes al (fun b => pack_enum b e nof_types nof_exts has_ext) (unpack_enum nof_types nof_exts has_ext) e)
  /\ (forall l, bytes_ok l -> encodes al (fun b => fixed_octstring_pack aligned b l) (fixed_octstring_unpack (length l) aligned) l)
  /\ (forall l lb ub, bytes_ok l -> length_ok (blen l) lb ub -> encodes al (fun b => bounded_octstring_pack lb ub aligned b l) (bounded_octstring_unpack lb ub aligned) l)
  /\ (forall l, bytes_ok l -> blen l < ASN_16K -> encodes al (fun b => unbounded_octstring_pack aligned b l) (unbounded_octstring_unpack aligned) l)
  /\ (forall x lb ub has_ext, bitstring_ok x -> 0 <= lb <= x.1 -> x.1 <= ub < NO_UB -> bitstring_bounds_ok lb ub aligned ->
     encodes al (fun b => bitstring_pack lb ub has_ext aligned b x) (bitstring_unpack lb ub has_ext aligned) x).
Proof.
  split_and!; intros.
  - by apply encodes_integer.
  - by apply encodes_enum.
  - by apply encodes_fixed_octstring.
  - by apply encodes_bounded_octstring.
  - by apply encodes_unbounded_octstring.
  - by apply encodes_bitstring.
Qed.
End Numbers.

(** Exact logarithms satisfy what is assumed of libm. *)
Definition exact_log2f : Log2f := {|
  ceilf_log2f := Z.log2_up;
  floorf_log2f_1 x := Z.log2 x + 1;
  ceilf_log2f_8 x := ceil_frac (Z.log2_up x + 1) 8;
  ceilf_log2 := Z.log2_up;
|}.
Lemma exact_log2f_laws : Log2fLaws (H := exact_log2f).
Proof.
  split; cbn [ceilf_log2f floorf_log2f_1 ceilf_log2f_8 ceilf_log2 exact_log2f]; try done.
  - intros k Hk. apply Z.log2_up_pow2; lia.
  - intros k x Hk Hx _. apply (Z.log2_up_unique x (k + 1)); [lia|]. by replace (Z.pred (k + 1)) with k by lia.
  - intros k x Hk Hx _ Hlt. f_equal. apply Z.log2_unique; [lia|]. by rewrite <-Z.add_1_r.
  - intros k x Hk Hx. pose proof (Z.log2_le_mono (2 ^ k) x ltac:(lia)) as H1. pose proof (Z.log2_le_mono x (2 ^ (k + 1)) ltac:(lia)) as H2. rewrite Z.log2_pow2 in H1, H2 by lia. lia.
  - intros k Hk. by rewrite Z.log2_pow2 by lia.
Qed.
Lemma per_values_roundtrip_witness : bytes_ok [1; 2; 3] /\
  encodes (A := bytes) true (fun b => bounded_octstring_pack (H := exact_log2f) 0 255 true b [1; 2; 3]) (bounded_octstring_unpack (H := exact_log2f) 0 255 true) [1; 2; 3].
Proof.
  assert (bytes_ok [1; 2; 3]) as Hl by (repeat constructor; unfold is_u8; lia). split; [done|].
  pose proof (per_values_roundtrip (Hlog := exact_log2f) (Hlaws := exact_log2f_laws) true true (fun _ => eq_refl)) as (_ & _ & _ & Hb & _).
  apply Hb; [done|]. unfold length_ok, blen, ASN_16K. cbn [length]. lia.
Defined.
