(* ===== verification/Asn1Msg.v ===== *)
(** * ASN.1: sequences, open types, extensions and information elements

    The composite encodings on top of [Asn1Thms]: what they need of their items is that
    those are read back as they were written, and then the same holds of the whole; a
    message packed into an empty buffer is read back from its bytes. *)
From S2P Require Import Prelude Bits Asn1 Asn1Bits Asn1Thms.

(** An item that is read back *)
Definition item_encodes {A} `{!Asn1Codec A} (al : bool) (x : A) : Prop := encodes al (fun b => asn_pack b x) asn_unpack x.

(** ** Bytes of a writer *)
Lemma repr_new : repr bit_ref_new [].
Proof. apply (repr_full []). constructor. Qed.
Lemma repr_bytes b L : repr b L -> bytes_bits (br_writer b) = L ++ replicate (pad_len (br_offset b)) false.
Proof.
  intros Hb. destruct (align_bytes_zero_spec b L Hb) as (b' & Hp & Hr & Ho). injection Hp as <-. inversion Hr as [w Hw Hbb HL|? ? ? ? ? ? Heq HL]; [done|]. cbn in Ho. lia.
Qed.
Lemma repr_bytes_ok b L : repr b L -> bytes_ok (br_writer b).
Proof.
  intros Hb. destruct (align_bytes_zero_spec b L Hb) as (b' & Hp & Hr & Ho). injection Hp as <-. inversion Hr as [w Hw Hbb HL|? ? ? ? ? ? Heq HL]; [done|]. cbn in Ho. lia.
Qed.
(** A whole message, from its bytes *)
Lemma encodes_message {A} pk upk (v : A) : encodes true pk upk v ->
  exists b c, pk bit_ref_new = pack_ok b /\ upk (cbit_ref_of (br_writer b)) = Some (UOk v c) /\ cbref_distance c = bref_distance b.
Proof.
  intros He. destruct (He bit_ref_new [] repr_new) as (b & E & Hp & Hr & Hu). cbn [app] in Hr.
  destruct (Hu (cbit_ref_of (br_writer b)) (replicate (pad_len (br_offset b)) false)) as (c & Hc & _ & _ & Hd); [|done|].
  - rewrite <-(repr_bytes _ _ Hr). apply rrepr_start.
  - exists b, c. split_and!; [done..|]. rewrite Hd, (repr_distance _ _ Hr). done.
Qed.

Section Composite.
Context `{Hlog : Log2f} {Hlaws : Log2fLaws}.

Section Items.
Context {A : Type} `{!Asn1Codec A}.

(** ** SEQUENCE OF *)
Lemma encodes_fixed_seq_of al (l : list A) : Forall (item_encodes al) l -> encodes al (fun b => pack_fixed_seq_of b l) (fun c => unpack_fixed_seq_of c (length l)) l.
Proof.
  induction 1 as [|x l Hx _ IH]; [apply encodes_ret|]. cbn [pack_fixed_seq_of unpack_fixed_seq_of length].
  apply (encodes_bind al _ _ x _ (fun x c => let! (l, c) := unpack_fixed_seq_of c (length l) in Some (UOk (x :: l) c)) (x :: l) Hx).
  eapply encodes_ext; [apply (encodes_then al _ _ l (cons x) IH)| |done]. intros b b'. cbv beta. by rewrite handle_pack_ret.
Qed.
Lemma encodes_dyn_seq_of lb ub aligned al (l : list A) : Forall (item_encodes al) l -> length_ok (Z.of_nat (length l)) lb ub -> (aligned = true -> al = true) ->
  encodes al (fun b => pack_dyn_seq_of lb ub aligned b l) (unpack_dyn_seq_of lb ub aligned) l.
Proof.
  intros Hl Hlen Hal. unfold pack_dyn_seq_of, unpack_dyn_seq_of. eapply encodes_bind; [by apply encodes_length|]. cbv beta. rewrite Nat2Z.id. by apply encodes_fixed_seq_of.
Qed.

(** ** Open types

    The content is packed into a buffer of its own, so that it starts at a byte. *)
Definition open_type_fits (x : A) : Prop := forall inner, asn_pack bit_ref_new x = pack_ok inner -> bref_distance inner <= 8 * (ASN_16K - 1).
Lemma open_type_content (align : bool) (x : A) : item_encodes align x -> open_type_fits x ->
  exists inner E w k, asn_pack bit_ref_new x = pack_ok inner /\ bref_pack inner 0 (7 - u32 (bref_distance inner - 1) mod 8) = pack_ok (BitRef w 0)
    /\ bytes_ok w /\ bytes_bits w = E ++ replicate k false /\ (k < 8)%nat /\ blen w < ASN_16K /\ bref_distance inner = Z.of_nat (length E)
    /\ forall c R, rrepr c (E ++ R) -> (align = true -> cb_offset c = 0) ->
         exists c', asn_unpack c = Some (UOk x c') /\ rrepr c' R /\ cb_buffer c' = cb_buffer c /\ cbref_distance c' = cbref_distance c + Z.of_nat (length E).
Proof.
  intros He Hfit. destruct (He bit_ref_new [] repr_new) as (inner & E & Hp & Hr & Hu). cbn [app] in Hr. specialize (Hfit inner Hp).
  rewrite (repr_distance _ _ Hr) in *. unfold ASN_16K in Hfit. set (n := Z.of_nat (length E)) in *.
  set (lo := 7 - u32 (n - 1) mod 8). assert (0 <= lo < 8 /\ (n + lo) mod 8 = 0) as [Hlo Hmod].
  { unfold lo, u32. rewrite Z.mod_mod_divide by (by exists (2 ^ 29)). pose proof (Z.mod_pos_bound (n - 1) 8 ltac:(lia)) as Hm. split; [lia|].
    pose proof (Z.div_mod (n - 1) 8 ltac:(lia)). replace (n + (7 - (n - 1) mod 8)) with (((n - 1) / 8 + 1) * 8) by lia. by apply Z.mod_mul. }
  assert (7 - u32 (n - 1) mod 8 = lo) as Elo by done. clearbody lo. destruct (bref_pack_spec inner E 0 lo Hr ltac:(lia)) as (b & Hb & Rb). rewrite bits_be_zero in Rb. destruct (repr_offset _ _ Rb) as [Hob _].
  rewrite length_app, length_replicate, Nat2Z.inj_add, Z2Nat.id in Hob by lia. fold n in Hob. rewrite Hmod in Hob.
  exists inner, E, (br_writer b), (Z.to_nat lo). split_and!; [done|rewrite (repr_distance _ _ Hr); fold n; rewrite Elo, Hb; destruct b as [w off]; cbn in Hob |- *; by rewrite Hob|by eapply repr_bytes_ok| |lia| | |].
  - rewrite (repr_bytes _ _ Rb), Hob. cbn. by rewrite app_nil_r.
  - pose proof (repr_bytes _ _ Rb) as Hbb. rewrite Hob in Hbb. cbn in Hbb. rewrite app_nil_r in Hbb. apply (f_equal length) in Hbb. rewrite bytes_bits_length, length_app, length_replicate in Hbb.
    unfold blen, ASN_16K. lia.
  - by rewrite (repr_distance _ _ Hr).
  - intros c R Hc Ho. by apply Hu.
Qed.
Lemma guard_end_spec c start len k R : rrepr c (replicate k false ++ R) -> (k < 8)%nat -> 0 <= len < ASN_16K -> cbref_distance c + Z.of_nat k = cbref_distance start + len * 8 ->
  exists c', unpack_guard_end len start c = Some c' /\ rrepr c' R /\ cb_buffer c' = cb_buffer c /\ cbref_distance c' = cbref_distance start + len * 8.
Proof.
  intros Hc Hk Hlen Hd. unfold unpack_guard_end, ASN_16K in *. rewrite (u32_id (len * 8)) by (unfold is_u32; lia).
  replace (len * 8 - (cbref_distance c - cbref_distance start)) with (Z.of_nat k) by lia. rewrite u32_id by (unfold is_u32; lia).
  rewrite <-bits_be_zero, <-(Nat2Z.id k) in Hc. destruct (unpack_spec uint32 c (Z.of_nat k) 0 R uint32_ok Hc ltac:(cbn; lia)) as (c' & -> & Hr & Hb & Hd'). exists c'. split_and!; [done..|lia].
Qed.
Lemma full_bytes w : bref_distance (BitRef w 0) / 8 = blen w.
Proof. unfold bref_distance. cbn [br_writer br_offset Z.eqb]. rewrite Z.sub_0_r, Z.add_0_r, Z.mul_comm. by rewrite Z.div_mul by lia. Qed.
Lemma encodes_open_type align al (x : A) : item_encodes align x -> open_type_fits x -> (align = true -> al = true) ->
  encodes al (fun b => open_type_pack align b x) (open_type_unpack align) x.
Proof.
  intros He Hfit Hal b L Hb. destruct (open_type_content align x He Hfit) as (inner & E & w & k & Hp & Hpad & Hw & Hbits & Hk & Hlen & _ & Hu). pose proof (blen_nonneg w) as Hw0.
  destruct (encodes_length_det (blen w) align al ltac:(lia) Hal b L Hb) as (b1 & El & P1 & R1 & U1). destruct (pack_bytes_spec b1 _ w R1 Hw) as (b2 & P2 & R2).
  exists b2, (El ++ bytes_bits w). rewrite app_assoc. split_and!; [|done|].
  - unfold open_type_pack. rewrite Hp. cbn [pack_ok]. rewrite Hpad. cbn [pack_ok]. rewrite full_bytes, P1. cbn [pack_ok br_writer]. by rewrite P2.
  - intros c R Hc Ho. rewrite Hbits, <-!app_assoc in Hc. destruct (U1 c _ Hc Ho) as (c1 & V1 & S1 & B1 & D1). unfold open_type_unpack. rewrite V1.
    destruct (Hu c1 _ S1) as (c2 & -> & S2 & B2 & D2).
    { intros ->. rewrite (same_offset b L b1 El c c1 _ _ Hb R1 Hc S1 D1 (Ho (Hal eq_refl))). eapply length_det_aligned; [|exact Hb|exact P1]. lia. }
    apply (f_equal length) in Hbits. rewrite bytes_bits_length, length_app, length_replicate in Hbits. unfold blen in *.
    destruct (guard_end_spec c2 c1 (blen w) k R S2 Hk ltac:(unfold blen; lia) ltac:(unfold blen; lia)) as (c3 & Hg & S3 & B3 & D3). unfold blen in Hg, D3. rewrite Hg.
    exists c3. split_and!; [done|done|congruence|]. rewrite D3, D1, length_app, bytes_bits_length. lia.
Qed.

(** ** SetupRelease *)
Lemma encodes_setup_release al (x : option A) : (forall y, x = Some y -> item_encodes al y) -> encodes al (fun b => setup_release_pack b x) setup_release_unpack x.
Proof.
  intros Hx. set (e := match x with Some _ => 1 | None => 0 end).
  eapply encodes_ext; [apply (encodes_bind al (fun b => pack_enum b e 2 0 false) (unpack_enum 2 0 false) e (fun b => match x with Some x => asn_pack b x | None => pack_ok b end)
    (fun e c => if e =? 0 then Some (UOk None c) else if e =? 1 then let! (x, c) := asn_unpack c in Some (UOk (Some x) c) else decode_fail c) x)| |].
  - apply encodes_enum; unfold e; destruct x; lia || done.
  - unfold e. destruct x as [y|]; cbn [Z.eqb]; [|apply encodes_ret]. eapply encodes_ext; [apply (encodes_then al _ _ y Some (Hx y eq_refl))| |done]. intros b b'. cbv beta. by rewrite handle_pack_ret.
  - intros b b'. unfold setup_release_pack. fold e. destruct (pack_enum b e 2 0 false) as [[[] b1]|]; cbn [handle_pack]; try done. destruct x; [by rewrite handle_pack_ret|done].
  - intros c c'. unfold setup_release_unpack. destruct (unpack_enum 2 0 false c) as [[]|]; cbn [handle_unpack]; try done.
Qed.
End Items.

(** ** Extension groups *)
Lemma encodes_flags al l : encodes al (fun b => pack_flags b l) (fun c => unpack_flags c (length l)) l.
Proof.
  induction l as [|g l IH]; [apply encodes_ret|]. cbn [pack_flags unpack_flags length].
  apply (encodes_bind al _ _ g _ (fun g c => let! (l, c) := unpack_flags c (length l) in Some (UOk (g :: l) c)) (g :: l) (encodes_flag al g)).
  eapply encodes_ext; [apply (encodes_then al _ _ l (cons g) IH)| |done]. intros b b'. cbv beta. by rewrite handle_pack_ret.
Qed.
(** Up to the last group that is present. *)
Definition last_group (groups : list bool) : nat := match list_find (fun g => g = true) (rev groups) with Some (i, _) => length groups - i | None => 0 end.
Lemma last_group_spec groups : true ∈ groups -> (1 <= last_group groups <= length groups)%nat /\ groups = take (last_group groups) groups ++ replicate (length groups - last_group groups) false.
Proof.
  intros Hin. unfold last_group. assert (rev groups = reverse groups) as Hrev by (unfold reverse; by rewrite rev_append_rev, app_nil_r). rewrite Hrev. destruct (list_find_elem_of (fun g => g = true) (reverse groups) true) as [[i g] Hf]; [by apply elem_of_reverse|done|].
  rewrite Hf. apply list_find_Some in Hf as (Hi & _ & Hbefore). pose proof (lookup_lt_Some _ _ _ Hi) as Hlt. rewrite length_reverse in Hlt. split; [lia|].
  rewrite <-(take_drop (length groups - i) groups) at 1. f_equal. replace (length groups - (length groups - i))%nat with i by lia.
  apply list_eq_same_length with i; [by rewrite length_replicate|rewrite length_drop; lia|]. intros j x y Hj Hx Hy. apply lookup_replicate in Hy as [-> _].
  rewrite lookup_drop in Hx. destruct x; [|done]. exfalso. apply (Hbefore (i - 1 - j)%nat true); [|lia|done].
  rewrite reverse_lookup by lia. rewrite <-Hx. f_equal. lia.
Qed.
Lemma encodes_ext_groups al groups : true ∈ groups -> (length groups <= 64)%nat ->
  encodes al (fun b => ext_groups_pack b groups) (ext_groups_unpack (length groups)) (Z.of_nat (last_group groups), groups).
Proof.
  intros Hin Hlen. destruct (last_group_spec groups Hin) as [Hk Hg]. set (k := last_group groups) in *.
  eapply encodes_ext; [apply (encodes_bind al (fun b => pack_norm_small_non_neg_whole_number b (Z.of_nat k - 1)) (unpack_norm_small_non_neg_whole_number uint32) (Z.of_nat k - 1)
    (fun b => let! b := pack_flags b (take k groups) in pack_ok b)
    (fun n c => let! (l, c) := unpack_flags c (Z.to_nat (u32 (n + 1))) in Some (UOk (u32 (n + 1), l ++ replicate (length groups - length l) false) c)))| |done].
  - apply encodes_norm_small. lia.
  - rewrite u32_id by (unfold is_u32; lia). replace (Z.of_nat k - 1 + 1) with (Z.of_nat k) by lia. rewrite Nat2Z.id.
    pose proof (encodes_then al _ _ _ (fun l => (Z.of_nat k, l ++ replicate (length groups - length l) false)) (encodes_flags al (take k groups))) as Hf.
    cbv beta in Hf. rewrite length_take, Nat.min_l, <-Hg in Hf by lia. exact Hf.
  - intros b b' Hb. unfold ext_groups_pack. assert (match list_find (fun g => g = true) (rev groups) with Some (i, _) => Z.of_nat (length groups) - Z.of_nat i | None => 0 end = Z.of_nat k) as ->.
    { unfold k, last_group in *. destruct (list_find _ _) as [[i g]|] eqn:Ef; [|done]. apply list_find_Some in Ef as (Hi & _). apply lookup_lt_Some in Hi. rewrite length_rev in Hi. lia. }
    rewrite u32_id, Nat2Z.id by (unfold is_u32; lia). rewrite <-Hb. destruct (pack_norm_small_non_neg_whole_number b _) as [[[] b1]|]; cbn [handle_pack]; try done. by rewrite handle_pack_ret.
Qed.

(** A present extension group that the receiver does not know and that is longer than four octets fails the assertion on the width of the
    variable into which it is skipped. *)
Lemma unknown_group_fails_assertion c len start l : unpack_length_det c false = Some (UOk len start) -> 4 < len < ASN_16K -> skip_groups c (true :: l) = None.
Proof.
  unfold ASN_16K. intros Hl Hlen. cbn [skip_groups]. rewrite Hl. unfold unpack_guard_end, cbref_unpack. rewrite Z.sub_diag, Z.sub_0_r, (u32_id (len * 8)) by (unfold is_u32; lia).
  rewrite u32_id by (unfold is_u32; lia). cbn [it_width uint32]. by rewrite (proj2 (Z.leb_gt (len * 8) 32)) by lia.
Qed.

(** ** Protocol information elements *)
Lemma encodes_id id : 0 <= id <= 65535 -> encodes true (fun b => pack_integer uint32 b id 0 65535 false true) (fun c => unpack_integer uint32 0 c 0 65535 false true) id.
Proof. intros Hid. apply encodes_integer; [apply per_int_uint32; unfold ASN_64K; lia|lia|done|done|done]. Qed.
Lemma encodes_crit e : 0 <= e < NOF_CRIT -> encodes true (fun b => pack_enum b e NOF_CRIT 0 false) (unpack_enum NOF_CRIT 0 false) e.
Proof. unfold NOF_CRIT. intros He. apply encodes_enum; lia || done. Qed.
Lemma encodes_ie_field {V} `{!ObjectSet V} (v : V) : 0 <= idx_to_id v <= 65535 -> 0 <= get_crit (idx_to_id v) < NOF_CRIT ->
  encodes true (fun b => value_pack b v) (value_unpack (idx_to_id v)) v -> encodes true (fun b => ie_field_pack b v) ie_field_unpack v.
Proof.
  intros Hid Hcrit Hv. unfold ie_field_pack, ie_field_unpack. eapply encodes_bind; [by apply encodes_id|]. cbv beta.
  eapply (encodes_bind true _ _ _ _ (fun _ c => value_unpack (idx_to_id v) c)); [by apply encodes_crit|]. cbv beta.
  eapply encodes_ext; [exact Hv| |done]. intros b b'. cbv beta. by rewrite handle_pack_ret.
Qed.
Record ie_item_ok {A} `{!Asn1Codec A} (x : ie_item A) : Prop := {
  ii_id : 0 <= ie_id x <= 65535;
  ii_crit : 0 <= ie_crit x < NOF_CRIT;
  ii_value : item_encodes true (ie_value x);
  ii_fits : open_type_fits (ie_value x);
}.
Lemma encodes_ie_item {A} `{!Asn1Codec A} (x : ie_item A) : ie_item_ok x -> encodes true (fun b => ie_item_pack b x) ie_item_unpack x.
Proof.
  intros [Hid Hcrit Hv Hfit]. destruct x as [id crit v]. cbn [ie_id ie_crit ie_value] in *. unfold ie_item_pack, ie_item_unpack. cbn [ie_id ie_crit ie_value].
  eapply encodes_bind; [by apply encodes_id|]. cbv beta. eapply encodes_bind; [by apply encodes_crit|]. cbv beta. apply (encodes_then true _ _ v (IeItem id crit)). by apply encodes_open_type.
Qed.

(** ** Sizes

    [grows N pk]: the packer adds at most [N] bits; it bounds the contents of open types. *)
Definition grows (N : Z) (pk : bit_ref -> pack_result) : Prop :=
  forall b L b', repr b L -> pk b = pack_ok b' -> exists L', repr b' L' /\ Z.of_nat (length L') <= Z.of_nat (length L) + N.
Lemma grows_ret : grows 0 pack_ok.
Proof. intros b L b' Hb [= <-]. exists L. split; [done|lia]. Qed.
Lemma grows_fail N : grows N encode_fail.
Proof. by intros b L b' Hb Hp. Qed.
Lemma grows_weaken N M pk : grows N pk -> N <= M -> grows M pk.
Proof. intros H Hle b L b' Hb Hp. destruct (H b L b' Hb Hp) as (L' & Hr & Hl). exists L'. split; [done|lia]. Qed.
Lemma grows_bind N M pk1 pk2 : grows N pk1 -> grows M pk2 -> grows (N + M) (fun b => let! b := pk1 b in pk2 b).
Proof.
  intros H1 H2 b L b' Hb Hp. cbv beta in Hp. destruct (pk1 b) as [[[] b1]|] eqn:E; try done. cbn [handle_pack] in Hp. destruct (H1 b L b1 Hb E) as (L1 & R1 & S1). destruct (H2 b1 L1 b' R1 Hp) as (L2 & R2 & S2).
  exists L2. split; [done|lia].
Qed.
Lemma grows_bits v n : 0 <= n -> grows n (fun b => bref_pack b v n).
Proof.
  intros Hn b L b' Hb Hp. cbv beta in Hp. destruct (decide (n < 64)) as [Hlt|Hge]; [|unfold bref_pack in Hp; by rewrite (proj2 (Z.ltb_ge n 64)) in Hp by lia].
  destruct (bref_pack_spec b L v n Hb ltac:(lia)) as (b1 & H1 & R1). rewrite H1 in Hp. injection Hp as <-. eexists. split; [exact R1|]. rewrite length_app, bits_be_length. lia.
Qed.
Lemma grows_align : grows 7 align_bytes_zero.
Proof.
  intros b L b' Hb Hp. destruct (align_bytes_zero_spec b L Hb) as (b1 & H1 & R1 & _). rewrite H1 in Hp. injection Hp as <-. eexists. split; [exact R1|].
  rewrite length_app, length_replicate. unfold pad_len. pose proof (Z.mod_pos_bound (8 - br_offset b) 8 ltac:(lia)). lia.
Qed.
Lemma grows_each l : grows (8 * blen l) (fun b => pack_each b l).
Proof. intros b L b' Hb Hp. cbv beta in Hp. destruct (pack_each_spec l b L Hb) as (b1 & H1 & R1). rewrite H1 in Hp. injection Hp as <-. eexists. split; [exact R1|]. rewrite length_app, bytes_bits_length. unfold blen. lia. Qed.
Lemma grows_if N M (g : bool) pk1 pk2 : grows N pk1 -> grows M pk2 -> grows (Z.max N M) (fun b => if g then pk1 b else pk2 b).
Proof. intros H1 H2. destruct g; eapply grows_weaken; try done; lia. Qed.
Ltac grows_step :=
  match goal with
  | |- grows _ (fun b => handle_pack _ _) => eapply grows_bind
  | |- grows _ (fun b => if _ then _ else _) => eapply grows_if
  | |- grows _ (fun b => bref_pack b _ _) => apply grows_bits; try lia
  | |- grows _ (fun b => align_bytes_zero b) => apply grows_align
  | |- grows _ align_bytes_zero => apply grows_align
  | |- grows _ (fun b => pack_ok b) => apply grows_ret
  | |- grows _ pack_ok => apply grows_ret
  | |- grows _ (fun b => encode_fail b) => apply (grows_fail 0)
  | |- grows _ encode_fail => apply (grows_fail 0)
  end.
Ltac solve_grows := eapply grows_weaken; [repeat grows_step|lia].
Lemma grows_length_det v aligned : grows 31 (fun b => pack_length_det b v aligned).
Proof. unfold pack_length_det. solve_grows. Qed.
Lemma nbits_16 n : 1 <= n <= 2 ^ 16 -> 0 <= ceilf_log2f (float_of n) <= 16.
Proof.
  intros Hn. rewrite nbits_log2_up by (lia || by apply clear_small). destruct (log2_up_bounds n ltac:(lia)). pose proof (log2_up_le n 16 ltac:(lia) ltac:(lia)). lia.
Qed.
Lemma grows_enum e nof_types nof_exts has_ext : nof_types <= 2 ^ 16 -> 0 <= nof_exts < nof_types -> grows 17 (fun b => pack_enum b e nof_types nof_exts has_ext).
Proof.
  intros Hn Hx. unfold pack_enum, pack_enum_ext, pack_enum_bits, pack_norm_small_non_neg_whole_number. rewrite (u32_id (nof_types - nof_exts)) by (unfold is_u32; lia).
  pose proof (nbits_16 nof_types ltac:(lia)). pose proof (nbits_16 (nof_types - nof_exts) ltac:(lia)). solve_grows.
Qed.
Lemma grows_constrained t n lb ub : per_int t n lb ub true -> grows 80 (fun b => pack_constrained_whole_number t b n lb ub true).
Proof.
  intros Hp. destruct (per_int_range _ _ _ _ _ Hp) as (Hra & Hnb & _ & Hnb0 & Hnb64). destruct Hp as [Ht [Hb1 Hb2] [Hr Hr62] _ Hoct]. unfold pack_constrained_whole_number.
  rewrite (proj2 (Z.ltb_ge ub lb)), (proj2 (Z.ltb_ge n lb)), (proj2 (Z.ltb_ge ub n)), Hra, Hnb by lia. cbn [orb negb]. cbv zeta. set (ra := ub - lb + 1) in *. set (nb := Z.log2_up ra) in *.
  destruct (ceil_frac_8 nb ltac:(lia)) as [Hno1 Hno2]. destruct (ra =? 1); [eapply grows_weaken; [apply grows_ret|lia]|]. destruct (ra <? 256) eqn:E256; [eapply grows_weaken; [apply grows_bits; lia|lia]|].
  destruct (ra <=? ASN_64K) eqn:E64; [solve_grows|]. unfold ASN_64K in *. breflect. destruct (Hoct eq_refl ltac:(lia)) as [Hmax (Ho1 & Ho2 & Ho3)].
  assert (it_conv t (n - lb) = n - lb) as Hid by (pose proof (ito_width _ Ht); apply it_conv_id; [lia|]; pose proof (it_min_nonpos t Ht); lia). rewrite Hid.
  destruct (octets_bounds (n - lb) ltac:(lia)) as [Hno _]. set (no := ceil_frac (floorf_log2f_1 _) 8) in *. assert (0 < nb) as Hpos by (apply Z.log2_up_pos; lia).
  pose proof (nbits_16 (ceil_frac nb 8) ltac:(lia)) as Hl16. set (nl := ceilf_log2f _) in *. clearbody nl no. solve_grows.
Qed.
Lemma grows_integer t n lb ub : per_int t n lb ub true -> lower_bounded t lb = true -> upper_bounded t ub = true -> grows 80 (fun b => pack_integer t b n lb ub false true).
Proof.
  intros Hp Hl Hu. pose proof (pi_bounds _ _ _ _ _ Hp) as [Hb1 Hb2]. unfold pack_integer. rewrite (proj2 (Z.leb_le lb n)), (proj2 (Z.leb_le n ub)), Hl, Hu by lia. cbn [andb negb handle_pack pack_ok].
  pose proof (grows_constrained _ _ _ _ Hp) as Hc. eapply grows_weaken; [repeat grows_step; exact Hc|lia].
Qed.
Lemma pack_each_unchecked_is l : forall b, pack_each_unchecked b l = pack_each b l.
Proof. induction l as [|x l IH]; intros b; cbn [pack_each pack_each_unchecked]; [done|]. destruct (bref_pack_code b x 8) as [->|[b' ->]]; [done|apply IH]. Qed.
Lemma grows_unbounded_octstring aligned l : grows (31 + 8 * blen l) (fun b => unbounded_octstring_pack aligned b l).
Proof.
  unfold unbounded_octstring_pack. apply grows_bind; [apply grows_length_det|]. intros b L b' Hb. rewrite pack_each_unchecked_is. by apply grows_each.
Qed.
Lemma open_type_fits_grows {A} `{!Asn1Codec A} N (x : A) : grows N (fun b => asn_pack b x) -> N <= 8 * (ASN_16K - 1) -> open_type_fits x.
Proof. intros Hg HN inner Hp. destruct (Hg bit_ref_new [] inner repr_new Hp) as (L' & Hr & Hl). rewrite (repr_distance _ _ Hr). cbn in Hl. lia. Qed.
Lemma grows_open_type {A} `{!Asn1Codec A} N align (x : A) : item_encodes align x -> grows N (fun b => asn_pack b x) -> N <= 8 * (ASN_16K - 1) -> grows (N + 38) (fun b => open_type_pack align b x).
Proof.
  intros He Hg HN b L b' Hb Hp. destruct (open_type_content align x He (open_type_fits_grows N x Hg HN)) as (inner & E & w & k & Hpk & Hpad & Hw & Hbits & Hk & Hlen & Hd & _).
  destruct (Hg bit_ref_new [] inner repr_new Hpk) as (Li & Ri & Si). cbn [length] in Si. rewrite (repr_distance _ _ Ri) in Hd. pose proof (blen_nonneg w) as Hw0.
  unfold open_type_pack in Hp. rewrite Hpk in Hp. cbn [pack_ok] in Hp. rewrite Hpad in Hp. cbn [pack_ok] in Hp. rewrite full_bytes in Hp.
  destruct (encodes_length_det (blen w) align true ltac:(lia) ltac:(done) b L Hb) as (b1 & El & P1 & R1 & _). rewrite P1 in Hp. cbn [pack_ok br_writer] in Hp.
  destruct (grows_length_det (blen w) align b L b1 Hb P1) as (L1 & R1' & S1). destruct (pack_bytes_spec b1 _ w R1' Hw) as (b2 & P2 & R2). rewrite P2 in Hp. injection Hp as <-.
  eexists. split; [exact R2|]. apply (f_equal length) in Hbits. rewrite length_app, length_replicate in Hbits. rewrite length_app, Hbits. lia.
Qed.
End Composite.
