(* ===== verification/NgapPdu.v ===== *)
(** * NGAP PDUs

    The outermost type of the NGAP codec (lib/asn1/ngap/ngap.cpp) with the three kinds of
    messages, and one initiating message with all its information elements
    (NASNonDeliveryIndication, lib/asn1/ngap/ngap_pdu_contents.cpp).  The generated
    messages and their containers of information elements all have this form; the
    contents of the others are a parameter. *)
From S2P Require Import Prelude Bits Asn1 Asn1Bits Asn1Thms Asn1Msg.

Section Ngap.
Context `{Hlog : Log2f}.

(** ** Cause *)
Definition asn1_null_t : Asn1Codec () := {| asn_pack b _ := pack_ok b; asn_unpack c := Some (UOk () c) |}.
(** The empty object set: its item is an open type without content, its criticality is [nulltype]. *)
Definition protocol_ies_empty_o : ObjectSet () := {|
  idx_to_id _ := 0;
  get_crit _ := NOF_CRIT;
  value_pack b x := open_type_pack (Asn1Codec0 := asn1_null_t) true b x;
  value_unpack _ c := open_type_unpack (Asn1Codec0 := asn1_null_t) true c;
|}.
Inductive cause_c := CauseRadioNetwork (e : Z) | CauseTransport (e : Z) | CauseNas (e : Z) | CauseProtocol (e : Z) | CauseMisc (e : Z) | CauseExts | CauseNull.
Definition cause_type (x : cause_c) : Z :=
  match x with CauseRadioNetwork _ => 0 | CauseTransport _ => 1 | CauseNas _ => 2 | CauseProtocol _ => 3 | CauseMisc _ => 4 | CauseExts => 5 | CauseNull => 6 end.
Definition cause_pack (b : bit_ref) (x : cause_c) : pack_result :=
  let* (_, b) := pack_enum b (cause_type x) 6 0 false in
  match x with
  | CauseRadioNetwork e => let! b := pack_enum b e 57 12 true in pack_ok b
  | CauseTransport e => let! b := pack_enum b e 2 0 true in pack_ok b
  | CauseNas e => let! b := pack_enum b e 5 1 true in pack_ok b
  | CauseProtocol e => let! b := pack_enum b e 7 0 true in pack_ok b
  | CauseMisc e => let! b := pack_enum b e 6 0 true in pack_ok b
  | CauseExts => let! b := ie_field_pack (ObjectSet0 := protocol_ies_empty_o) b () in pack_ok b
  | CauseNull => encode_fail b
  end.
Definition cause_unpack (c : cbit_ref) : unpack_result cause_c :=
  let* r := unpack_enum 6 0 false c in
  match r with
  | UOk e c | UErr _ (Some e) c =>
      if e =? 0 then let! (x, c) := unpack_enum 57 12 true c in Some (UOk (CauseRadioNetwork x) c)
      else if e =? 1 then let! (x, c) := unpack_enum 2 0 true c in Some (UOk (CauseTransport x) c)
      else if e =? 2 then let! (x, c) := unpack_enum 5 1 true c in Some (UOk (CauseNas x) c)
      else if e =? 3 then let! (x, c) := unpack_enum 7 0 true c in Some (UOk (CauseProtocol x) c)
      else if e =? 4 then let! (x, c) := unpack_enum 6 0 true c in Some (UOk (CauseMisc x) c)
      else if e =? 5 then let! (_x, c) := ie_field_unpack (ObjectSet0 := protocol_ies_empty_o) c in Some (UOk CauseExts c)
      else decode_fail c
  | UErr _ None _ => None
  end.

(** ** The information elements of NASNonDeliveryIndication *)
Definition amf_ue_ngap_id_t : Asn1Codec Z := {|
  asn_pack b n := pack_integer uint64 b n 0 1099511627775 false true;
  asn_unpack c := unpack_integer uint64 0 c 0 1099511627775 false true;
|}.
Definition ran_ue_ngap_id_t : Asn1Codec Z := {|
  asn_pack b n := pack_integer uint64 b n 0 4294967295 false true;
  asn_unpack c := unpack_integer uint64 0 c 0 4294967295 false true;
|}.
Definition nas_pdu_t : Asn1Codec bytes := {| asn_pack := unbounded_octstring_pack true; asn_unpack := unbounded_octstring_unpack true |}.
Definition cause_t : Asn1Codec cause_c := {| asn_pack := cause_pack; asn_unpack := cause_unpack |}.
Record nas_non_delivery_ind := NasNonDeliveryInd {
  nnd_amf_ue_ngap_id : ie_item Z;
  nnd_ran_ue_ngap_id : ie_item Z;
  nnd_nas_pdu : ie_item bytes;
  nnd_cause : ie_item cause_c;
}.
Definition nnd_pack (b : bit_ref) (x : nas_non_delivery_ind) : pack_result :=
  let* (_, b) := pack_length uint32 b 4 0 65535 true in
  let! b := ie_item_pack (Asn1Codec0 := amf_ue_ngap_id_t) b (nnd_amf_ue_ngap_id x) in
  let! b := ie_item_pack (Asn1Codec0 := ran_ue_ngap_id_t) b (nnd_ran_ue_ngap_id x) in
  let! b := ie_item_pack (Asn1Codec0 := nas_pdu_t) b (nnd_nas_pdu x) in
  let! b := ie_item_pack (Asn1Codec0 := cause_t) b (nnd_cause x) in pack_ok b.
(** A case of the switch over the id. *)
Definition ie_value_unpack {A} `{!Asn1Codec A} (id : Z) (c : cbit_ref) : unpack_result (ie_item A) :=
  let! (crit, c) := unpack_enum NOF_CRIT 0 false c in
  let! (v, c) := open_type_unpack true c in Some (UOk (IeItem id crit v) c).
Fixpoint nnd_unpack_ies (nof_ies : nat) (nof_mandatory_ies : Z) (x : nas_non_delivery_ind) (c : cbit_ref) : unpack_result (Z * nas_non_delivery_ind) :=
  match nof_ies with
  | O => Some (UOk (nof_mandatory_ies, x) c)
  | S nof_ies =>
      let '(NasNonDeliveryInd amf ran nas cause) := x in
      let! (id, c) := unpack_integer uint32 0 c 0 65535 false true in
      if id =? 10 then
        let! (ie, c) := ie_value_unpack (Asn1Codec0 := amf_ue_ngap_id_t) id c in nnd_unpack_ies nof_ies (u32 (nof_mandatory_ies - 1)) (NasNonDeliveryInd ie ran nas cause) c
      else if id =? 85 then
        let! (ie, c) := ie_value_unpack (Asn1Codec0 := ran_ue_ngap_id_t) id c in nnd_unpack_ies nof_ies (u32 (nof_mandatory_ies - 1)) (NasNonDeliveryInd amf ie nas cause) c
      else if id =? 38 then
        let! (ie, c) := ie_value_unpack (Asn1Codec0 := nas_pdu_t) id c in nnd_unpack_ies nof_ies (u32 (nof_mandatory_ies - 1)) (NasNonDeliveryInd amf ran ie cause) c
      else if id =? 15 then
        let! (ie, c) := ie_value_unpack (Asn1Codec0 := cause_t) id c in nnd_unpack_ies nof_ies (u32 (nof_mandatory_ies - 1)) (NasNonDeliveryInd amf ran nas ie) c
      else decode_fail c
  end.
(** [x] is the object before the call; the code of [unpack_length] is not looked at. *)
Definition nnd_unpack (x : nas_non_delivery_ind) (c : cbit_ref) : unpack_result nas_non_delivery_ind :=
  let* r := unpack_length uint32 c 0 65535 true in
  let '(nof_ies, c) := match r with UOk n c | UErr _ (Some n) c => (n, c) | UErr _ None c => (0, c) end in
  let! (r, c) := nnd_unpack_ies (Z.to_nat nof_ies) 4 x c in
  if 0 <? r.1 then decode_fail c else Some (UOk r.2 c).

(** [elementary_procedure_option]; the codes for the extension flag are not looked at. *)
Definition elementary_pack {P} (ies_pack : bit_ref -> P -> pack_result) (b : bit_ref) (x : bool * P) : pack_result :=
  let* (_, b) := bref_pack b (Z.b2z x.1) 1 in let! b := ies_pack b x.2 in pack_ok b.
Definition elementary_unpack {P} (ies_unpack : P -> cbit_ref -> unpack_result P) (x : bool * P) (c : cbit_ref) : unpack_result (bool * P) :=
  let* r := cbref_unpack_bool c 1 in
  let '(ext, c) := match r with UOk ext c => (ext, c) | UErr _ _ c => (x.1, c) end in
  let! (ies, c) := ies_unpack x.2 c in Some (UOk (ext, ies) c).

(** ** Messages

    Contents whose type is chosen by the procedure code; [content_unpack] starts from the object that [get_init_msg] and the like create. *)
Class ProcContents (V : Type) := { content_pack : bit_ref -> V -> pack_result; content_unpack : Z -> cbit_ref -> unpack_result V }.
Definition content_codec {V} `{!ProcContents V} (proc_code : Z) : Asn1Codec V := {| asn_pack := content_pack; asn_unpack := content_unpack proc_code |}.
Definition uint16 : int_type := IntType false 16.
Record elem_msg (V : Type) := ElemMsg { proc_code : Z; msg_crit : Z; msg_value : V }.
Arguments ElemMsg {V}.
Arguments proc_code {V}.
Arguments msg_crit {V}.
Arguments msg_value {V}.
(** The generated code of the three kinds of messages is the same. *)
Definition elem_msg_pack {V} `{!ProcContents V} (b : bit_ref) (m : elem_msg V) : pack_result :=
  let! b := pack_integer uint16 b (proc_code m) 0 255 false true in
  let! b := pack_enum b (msg_crit m) NOF_CRIT 0 false in
  let! b := open_type_pack (Asn1Codec0 := content_codec (proc_code m)) true b (msg_value m) in pack_ok b.
Definition elem_msg_unpack {V} `{!ProcContents V} (c : cbit_ref) : unpack_result (elem_msg V) :=
  let! (code, c) := unpack_integer uint16 0 c 0 255 false true in
  let! (crit, c) := unpack_enum NOF_CRIT 0 false c in
  let! (v, c) := open_type_unpack (Asn1Codec0 := content_codec code) true c in Some (UOk (ElemMsg code crit v) c).

(** Initiating messages: NASNonDeliveryIndication has procedure code 19. *)
Definition ID_NAS_NON_DELIVERY_IND : Z := 19.
Section Contents.
Context {I : Type} `{!ProcContents I}.
Inductive init_msg_c := InitNasNonDeliveryInd (x : bool * nas_non_delivery_ind) | InitOther (x : I).
Context (nnd_new : bool * nas_non_delivery_ind).
Definition init_msg_contents : ProcContents init_msg_c := {|
  content_pack b v := match v with InitNasNonDeliveryInd x => elementary_pack nnd_pack b x | InitOther x => content_pack b x end;
  content_unpack code c :=
    if code =? ID_NAS_NON_DELIVERY_IND then let! (x, c) := elementary_unpack nnd_unpack nnd_new c in Some (UOk (InitNasNonDeliveryInd x) c)
    else let! (x, c) := content_unpack code c in Some (UOk (InitOther x) c);
|}.
End Contents.

(** ** The PDU *)
Section Pdu.
Context {I S U : Type} `{!ProcContents I, !ProcContents S, !ProcContents U}.
Inductive ngap_pdu_c := NgapInitMsg (m : elem_msg I) | NgapSuccessfulOutcome (m : elem_msg S) | NgapUnsuccessfulOutcome (m : elem_msg U) | NgapNull.
Definition ngap_pdu_type (p : ngap_pdu_c) : Z := match p with NgapInitMsg _ => 0 | NgapSuccessfulOutcome _ => 1 | NgapUnsuccessfulOutcome _ => 2 | NgapNull => 3 end.
Definition ngap_pdu_pack (b : bit_ref) (p : ngap_pdu_c) : pack_result :=
  let* (_, b) := pack_enum b (ngap_pdu_type p) 3 0 true in
  match p with
  | NgapInitMsg m => let! b := elem_msg_pack b m in pack_ok b
  | NgapSuccessfulOutcome m => let! b := elem_msg_pack b m in pack_ok b
  | NgapUnsuccessfulOutcome m => let! b := elem_msg_pack b m in pack_ok b
  | NgapNull => encode_fail b
  end.
Definition ngap_pdu_unpack (c : cbit_ref) : unpack_result ngap_pdu_c :=
  let* r := unpack_enum 3 0 true c in
  match r with
  | UOk e c | UErr _ (Some e) c =>
      if e =? 0 then let! (m, c) := elem_msg_unpack c in Some (UOk (NgapInitMsg m) c)
      else if e =? 1 then let! (m, c) := elem_msg_unpack c in Some (UOk (NgapSuccessfulOutcome m) c)
      else if e =? 2 then let! (m, c) := elem_msg_unpack c in Some (UOk (NgapUnsuccessfulOutcome m) c)
      else decode_fail c
  | UErr _ None _ => None
  end.
End Pdu.
End Ngap.
Arguments ElemMsg {V}.
Arguments proc_code {V}.
Arguments msg_crit {V}.
Arguments msg_value {V}.
Arguments init_msg_c : clear implicits.
Arguments ngap_pdu_c : clear implicits.
