(* ===== verification/NgapThms.v ===== *)
(** * NGAP PDUs: round trips and errors *)
From S2P Require Import Prelude Bits Asn1 Asn1Bits Asn1Thms Asn1Msg NgapPdu.

Section Ngap.
Context `{Hlog : Log2f} {Hlaws : Log2fLaws}.

(** A choice: the code of the index is not looked at on either side. *)
Lemma encodes_unchecked {A B} al pk1 upk1 (x : A) pk2 (upk2 : A -> cbit_ref -> unpack_result B) upk3 y :
  encodes al pk1 upk1 x -> encodes al pk2 (upk2 x) y ->
  encodes al (fun b => let* (_, b) := pk1 b in pk2 b)
    (fun c => let* r := upk1 c in match r with UOk e c | UErr _ (Some e) c => upk2 e c | UErr _ None c => upk3 c end) y.
Proof.
  intros H1 H2. eapply encodes_ext; [apply (encodes_bind al pk1 upk1 x pk2 upk2 y H1 H2)| |].
  - intros b b'. cbv beta. destruct (pk1 b) as [[[] ?]|]; cbn [handle_pack]; done || (unfold pack_ok; congruence).
  - intros c c'. cbv beta. by destruct (upk1 c) as [[]|].
Qed.
(** The value of a choice, wrapped. *)
Lemma encodes_alt {A B} al pk upk (x : A) (f : A -> B) : encodes al pk upk x -> encodes al (fun b => let! b := pk b in pack_ok b) (fun c => let! (x, c) := upk c in Some (UOk (f x) c)) (f x).
Proof. apply encodes_then. Qed.

(** ** Information elements *)
Record cause_ok (x : cause_c) : Prop := {
  cause_value : match x with
    | CauseRadioNetwork e => 0 <= e < 57 | CauseTransport e => 0 <= e < 2 | CauseNas e => 0 <= e < 5
    | CauseProtocol e => 0 <= e < 7 | CauseMisc e => 0 <= e < 6 | CauseExts | CauseNull => False end;
}.
Lemma encodes_cause al x : cause_ok x -> item_encodes (Asn1Codec0 := cause_t) al x.
Proof.
  intros [Hx]. unfold item_encodes. cbn [asn_pack asn_unpack cause_t]. unfold cause_pack, cause_unpack. eapply encodes_unchecked.
  - apply encodes_enum; destruct x; cbn; lia || done.
  - destruct x as [e|e|e|e|e| |]; cbn [cause_type Z.eqb Pos.eqb]; [..|done|done].
    all: apply encodes_alt, encodes_enum; lia || done.
Qed.
Lemma grows_cause x : cause_ok x -> grows 34 (fun b => cause_pack b x).
Proof.
  intros [Hx] b L b' Hb Hp. unfold cause_pack in Hp.
  assert (grows (17 + 17) (fun b => let! b := pack_enum b (cause_type x) 6 0 false in
    let! b := match x with CauseRadioNetwork e => pack_enum b e 57 12 true | CauseTransport e => pack_enum b e 2 0 true | CauseNas e => pack_enum b e 5 1 true
      | CauseProtocol e => pack_enum b e 7 0 true | CauseMisc e => pack_enum b e 6 0 true | _ => encode_fail b end in pack_ok b)) as Hg.
  { apply grows_bind; [apply grows_enum; lia|]. replace 17 with (17 + 0) at 1 by lia. apply grows_bind; [|apply grows_ret]. destruct x; try (apply grows_enum; lia); apply grows_fail. }
  apply (Hg b L b' Hb). cbv beta. destruct (encodes_enum (cause_type x) 6 0 false true) with (b := b) (L := L) as (b1 & E & H1 & _); try done; try (destruct x; cbn; lia).
  rewrite H1 in Hp |- *. cbn [pack_ok handle_pack] in *. by destruct x.
Qed.
Lemma uint64_ok : int_type_ok uint64.
Proof. split; [cbn; lia|done]. Qed.
Lemma per_int_uint64 n k m : 0 <= n < 2 ^ m -> 16 < k -> k <= 48 -> m <= k -> 0 <= m -> ceil_frac (m + 1) 8 <= 2 ^ Z.log2_up (ceil_frac k 8) -> per_int uint64 n 0 (2 ^ k - 1) true.
Proof.
  intros Hn Hk Hk48 Hm Hm0 Ho. assert (2 ^ m <= 2 ^ k) as Hmk by (apply Z.pow_le_mono_r; lia). assert (2 ^ k <= 2 ^ 48) as H48 by (apply Z.pow_le_mono_r; lia).
  replace (2 ^ k - 1) with (2 ^ k - 1 - 0) by lia.
  split; [apply uint64_ok|change (it_min uint64) with 0; change (it_max uint64) with (2 ^ 64 - 1); lia|change (it_max (it_promote uint64)) with (2 ^ 64 - 1); lia| |].
  - left. replace (2 ^ k - 1 - 0 - 0 + 1) with (2 ^ k) by lia. by rewrite Z.log2_pow2 by lia.
  - intros _ _. change (it_max uint64) with (2 ^ 64 - 1). split; [lia|]. cbv zeta. replace (2 ^ k - 1 - 0 - 0 + 1) with (2 ^ k) by lia. rewrite Z.log2_up_pow2 by lia.
    assert (Z.log2 (Z.max (n - 0) 1) + 2 <= Z.max (m + 1) 2) as Hl.
    { destruct (decide (n = 0)) as [->|]; [change (Z.log2 _) with 0; lia|]. rewrite Z.max_l, Z.sub_0_r by lia. pose proof (log2_lt n m ltac:(lia) ltac:(lia)). lia. }
    pose proof (ceil_frac_mono _ _ Hl) as Hc. assert (ceil_frac (Z.max (m + 1) 2) 8 <= ceil_frac (m + 1) 8) as Hc2.
    { destruct (decide (2 <= m + 1)); [rewrite Z.max_l by lia; lia|]. assert (m = 0) as -> by lia. done. }
    pose proof (ceil_frac_mono (m + 1) 49 ltac:(lia)) as Hc3. change (ceil_frac 49 8) with 7 in Hc3. cbn [it_width uint64]. lia.
Qed.
Lemma amf_id_ok n : 0 <= n < 2 ^ 40 -> item_encodes (Asn1Codec0 := amf_ue_ngap_id_t) true n /\ grows 80 (fun b => asn_pack (Asn1Codec := amf_ue_ngap_id_t) b n).
Proof.
  intros Hn. pose proof (per_int_uint64 n 40 40 Hn ltac:(lia) ltac:(lia) ltac:(lia) ltac:(lia) ltac:(vm_compute; done)) as Hp. split; [|by apply grows_integer].
  unfold item_encodes. cbn [asn_pack asn_unpack amf_ue_ngap_id_t]. by apply encodes_integer.
Qed.
(** From 2^31 on the length of the number would not fit its field if single precision rounds it up. *)
Lemma ran_id_ok n : 0 <= n < 2 ^ 31 -> item_encodes (Asn1Codec0 := ran_ue_ngap_id_t) true n /\ grows 80 (fun b => asn_pack (Asn1Codec := ran_ue_ngap_id_t) b n).
Proof.
  intros Hn. pose proof (per_int_uint64 n 32 31 Hn ltac:(lia) ltac:(lia) ltac:(lia) ltac:(lia) ltac:(vm_compute; done)) as Hp. split; [|by apply grows_integer].
  unfold item_encodes. cbn [asn_pack asn_unpack ran_ue_ngap_id_t]. by apply encodes_integer.
Qed.
Lemma nas_pdu_ok l : bytes_ok l -> blen l < ASN_16K -> item_encodes (Asn1Codec0 := nas_pdu_t) true l /\ grows (31 + 8 * blen l) (fun b => asn_pack (Asn1Codec := nas_pdu_t) b l).
Proof. intros Hl Hn. split; [|apply grows_unbounded_octstring]. by apply encodes_unbounded_octstring. Qed.

(** ** Containers of information elements *)
Lemma encodes_ie_value {A} `{!Asn1Codec A} (it : ie_item A) : ie_item_ok it ->
  encodes true (fun b => let! b := pack_enum b (ie_crit it) NOF_CRIT 0 false in let! b := open_type_pack true b (ie_value it) in pack_ok b) (ie_value_unpack (ie_id it)) it.
Proof.
  intros [_ Hcrit Hv Hfit]. destruct it as [id crit v]. cbn [ie_id ie_crit ie_value] in *. unfold ie_value_unpack. eapply encodes_bind; [by apply encodes_crit|]. cbv beta.
  apply (encodes_then true _ _ v (IeItem id crit)). by apply encodes_open_type.
Qed.
(** One element of the container and the rest. *)
Lemma encodes_ie_step {A B} `{!Asn1Codec A} (it : ie_item A) k F (G : ie_item A -> cbit_ref -> unpack_result B) y : ie_item_ok it ->
  (forall c, F (ie_id it) c = let! (ie, c) := ie_value_unpack (ie_id it) c in G ie c) -> encodes true k (G it) y ->
  encodes true (fun b => let! b := ie_item_pack b it in k b) (fun c => let! (id, c) := unpack_integer uint32 0 c 0 65535 false true in F id c) y.
Proof.
  intros Hit HF Hk. eapply encodes_ext; [eapply (encodes_bind true (fun b => pack_integer uint32 b (ie_id it) 0 65535 false true) (fun c => unpack_integer uint32 0 c 0 65535 false true) (ie_id it) (fun b => let! b := (let! b := pack_enum b (ie_crit it) NOF_CRIT 0 false in let! b := open_type_pack true b (ie_value it) in pack_ok b) in k b) F y)| |done].
  - apply encodes_id, Hit.
  - eapply encodes_ext; [eapply (encodes_bind true _ _ it k G y (encodes_ie_value it Hit) Hk)|done|]. intros c c'. cbv beta. by rewrite HF.
  - intros b b'. cbv beta. unfold ie_item_pack. by rewrite handle_pack_assoc.
Qed.
Lemma grows_ie_item {A} `{!Asn1Codec A} N (it : ie_item A) : ie_item_ok it -> grows N (fun b => asn_pack b (ie_value it)) -> N <= 8 * (ASN_16K - 1) -> grows (N + 135) (fun b => ie_item_pack b it).
Proof.
  intros [Hid _ Hv _] Hg HN. unfold ie_item_pack. replace (N + 135) with (80 + (17 + (N + 38 + 0))) by lia.
  apply grows_bind; [apply grows_integer; [apply per_int_uint32; unfold ASN_64K; lia|done|done]|]. apply grows_bind; [apply grows_enum; unfold NOF_CRIT; lia|].
  apply grows_bind; [by apply (grows_open_type N)|apply grows_ret].
Qed.

(** NASNonDeliveryIndication with the ids of its elements and a NAS PDU that leaves room for the others. *)
Record nnd_ok (x : nas_non_delivery_ind) : Prop := {
  nnd_ids : ie_id (nnd_amf_ue_ngap_id x) = 10 /\ ie_id (nnd_ran_ue_ngap_id x) = 85 /\ ie_id (nnd_nas_pdu x) = 38 /\ ie_id (nnd_cause x) = 15;
  nnd_crits : 0 <= ie_crit (nnd_amf_ue_ngap_id x) < NOF_CRIT /\ 0 <= ie_crit (nnd_ran_ue_ngap_id x) < NOF_CRIT /\ 0 <= ie_crit (nnd_nas_pdu x) < NOF_CRIT /\ 0 <= ie_crit (nnd_cause x) < NOF_CRIT;
  nnd_amf_ok : 0 <= ie_value (nnd_amf_ue_ngap_id x) < 2 ^ 40;
  nnd_ran_ok : 0 <= ie_value (nnd_ran_ue_ngap_id x) < 2 ^ 31;
  nnd_nas_ok : bytes_ok (ie_value (nnd_nas_pdu x)) /\ blen (ie_value (nnd_nas_pdu x)) <= 16000;
  nnd_cause_ok : cause_ok (ie_value (nnd_cause x));
}.
Lemma nnd_items x : nnd_ok x -> ie_item_ok (Asn1Codec0 := amf_ue_ngap_id_t) (nnd_amf_ue_ngap_id x) /\ ie_item_ok (Asn1Codec0 := ran_ue_ngap_id_t) (nnd_ran_ue_ngap_id x)
  /\ ie_item_ok (Asn1Codec0 := nas_pdu_t) (nnd_nas_pdu x) /\ ie_item_ok (Asn1Codec0 := cause_t) (nnd_cause x).
Proof.
  intros [(I1 & I2 & I3 & I4) (C1 & C2 & C3 & C4) Ha Hr [Hn Hl] Hc]. destruct (amf_id_ok _ Ha) as [A1 A2]. destruct (ran_id_ok _ Hr) as [R1 R2].
  destruct (nas_pdu_ok _ Hn ltac:(unfold ASN_16K; lia)) as [N1 N2]. pose proof (encodes_cause true _ Hc) as K1. pose proof (grows_cause _ Hc) as K2.
  split_and!; split; try done; try lia; (eapply open_type_fits_grows; [eassumption|unfold ASN_16K; lia]).
Qed.
(** The number of elements around a sequence of four. *)
Lemma encodes_nnd_container x0 x pk : encodes true pk (nnd_unpack_ies 4 4 x0) (0, x) ->
  encodes true (fun b => let! b := pack_length uint32 b 4 0 65535 true in pk b) (nnd_unpack x0) x.
Proof.
  intros Hies. unfold nnd_unpack. eapply encodes_ext; [eapply (encodes_bind true (fun b => pack_length uint32 b 4 0 65535 true) (fun c => unpack_length uint32 c 0 65535 true) 4 pk
    (fun n c => let! (r, c) := nnd_unpack_ies (Z.to_nat n) 4 x0 c in if 0 <? r.1 then decode_fail c else Some (UOk r.2 c)) x)|done|].
  - apply encodes_length; [unfold length_ok, ASN_16K; lia|done].
  - eapply encodes_ext; [eapply (encodes_bind true _ _ (0, x) pack_ok (fun r c => if 0 <? r.1 then decode_fail c else Some (UOk r.2 c)) x Hies)| |done].
    + apply encodes_ret.
    + intros b b'. cbv beta. rewrite handle_pack_ret. exact id.
  - intros c c'. cbv beta. by destruct (unpack_length uint32 c 0 65535 true) as [[|? []]|].
Qed.
Lemma encodes_nnd x0 x : nnd_ok x -> encodes true (fun b => nnd_pack b x) (nnd_unpack x0) x.
Proof.
  intros Hx. destruct (nnd_items x Hx) as (H1 & H2 & H3 & H4). destruct (nnd_ids x Hx) as (I1 & I2 & I3 & I4).
  assert (encodes true (fun b => let! b := ie_item_pack (Asn1Codec0 := amf_ue_ngap_id_t) b (nnd_amf_ue_ngap_id x) in
    let! b := ie_item_pack (Asn1Codec0 := ran_ue_ngap_id_t) b (nnd_ran_ue_ngap_id x) in let! b := ie_item_pack (Asn1Codec0 := nas_pdu_t) b (nnd_nas_pdu x) in
    let! b := ie_item_pack (Asn1Codec0 := cause_t) b (nnd_cause x) in pack_ok b) (nnd_unpack_ies 4 4 x0) (0, x)) as Hies.
  { destruct x0 as [a0 r0 n0 c0]. cbn [nnd_unpack_ies].
    eapply encodes_ie_step; [exact H1|intros c; rewrite I1; cbn [Z.eqb Pos.eqb]; reflexivity|]. cbv beta.
    eapply encodes_ie_step; [exact H2|intros c; rewrite I2; cbn [Z.eqb Pos.eqb]; reflexivity|]. cbv beta.
    eapply encodes_ie_step; [exact H3|intros c; rewrite I3; cbn [Z.eqb Pos.eqb]; reflexivity|]. cbv beta.
    eapply encodes_ie_step; [exact H4|intros c; rewrite I4; cbn [Z.eqb Pos.eqb]; reflexivity|]. cbv beta. destruct x as [a r n c]. apply encodes_ret. }
  eapply encodes_ext; [by apply (encodes_nnd_container x0 x _ Hies)| |done]. intros b b'. unfold nnd_pack. cbv beta. destruct (pack_length uint32 b 4 0 65535 true) as [[[] ?]|]; cbn [handle_pack]; done || (unfold pack_ok; congruence).
Qed.
Lemma grows_nnd x : nnd_ok x -> grows (846 + 8 * blen (ie_value (nnd_nas_pdu x))) (fun b => nnd_pack b x).
Proof.
  intros Hx. destruct (nnd_items x Hx) as (H1 & H2 & H3 & H4). destruct Hx as [_ _ Ha Hr [Hn Hl] Hc]. pose proof (blen_nonneg (ie_value (nnd_nas_pdu x))) as Hl0.
  destruct (amf_id_ok _ Ha) as [_ A2]. destruct (ran_id_ok _ Hr) as [_ R2]. destruct (nas_pdu_ok _ Hn ltac:(unfold ASN_16K; lia)) as [_ N2]. pose proof (grows_cause _ Hc) as K2.
  set (n := blen _) in *. assert (grows (80 + ((80 + 135) + ((80 + 135) + ((31 + 8 * n + 135) + ((34 + 135) + 0))))) (fun b => let! b := pack_length uint32 b 4 0 65535 true in
    let! b := ie_item_pack (Asn1Codec0 := amf_ue_ngap_id_t) b (nnd_amf_ue_ngap_id x) in let! b := ie_item_pack (Asn1Codec0 := ran_ue_ngap_id_t) b (nnd_ran_ue_ngap_id x) in
    let! b := ie_item_pack (Asn1Codec0 := nas_pdu_t) b (nnd_nas_pdu x) in let! b := ie_item_pack (Asn1Codec0 := cause_t) b (nnd_cause x) in pack_ok b)) as Hg.
  { unfold ASN_16K in *. apply grows_bind; [apply grows_constrained, per_int_uint32; unfold ASN_64K; lia|]. do 3 (apply grows_bind; [apply grows_ie_item; done || (unfold ASN_16K; lia)|]).
    apply grows_bind; [apply grows_ie_item; done || (unfold ASN_16K; lia)|apply grows_ret]. }
  intros b L b' Hb Hp. unfold nnd_pack in Hp. destruct (Hg b L b' Hb) as (L' & Hr' & Hs); [|exists L'; split; [done|lia]].
  destruct (encodes_length 4 0 65535 true true ltac:(unfold length_ok, ASN_16K; lia) ltac:(done) b L Hb) as (b1 & E & P1 & _). by rewrite P1 in Hp |- *.
Qed.
Lemma encodes_elementary {P} (pk : bit_ref -> P -> pack_result) upk x0 (x : bool * P) : encodes true (fun b => pk b x.2) (upk x0.2) x.2 ->
  encodes true (fun b => elementary_pack pk b x) (elementary_unpack upk x0) x.
Proof.
  intros Hx. destruct x as [ext ies]. unfold elementary_pack, elementary_unpack. cbn [fst snd] in *.
  eapply encodes_ext; [eapply (encodes_bind true (fun b => bref_pack b (Z.b2z ext) 1) (fun c => cbref_unpack_bool c 1) ext (fun b => let! b := pk b ies in pack_ok b)
    (fun ext c => let! (ies, c) := upk x0.2 c in Some (UOk (ext, ies) c)) (ext, ies) (encodes_flag true ext))| |].
  - apply (encodes_then true _ _ ies (pair ext) Hx).
  - intros b b'. cbv beta. destruct (bref_pack_code b (Z.b2z ext) 1) as [->|[b1 ->]]; done.
  - intros c c'. cbv beta. by destruct (cbref_unpack_bool c 1) as [[]|].
Qed.
Lemma grows_elementary {P} N (pk : bit_ref -> P -> pack_result) (x : bool * P) : grows N (fun b => pk b x.2) -> grows (1 + N) (fun b => elementary_pack pk b x).
Proof.
  intros Hg b L b' Hb Hp. unfold elementary_pack in Hp.
  assert (grows (1 + (N + 0)) (fun b => let! b := bref_pack b (Z.b2z x.1) 1 in let! b := pk b x.2 in pack_ok b)) as H.
  { apply grows_bind; [apply grows_bits; lia|]. apply grows_bind; [done|apply grows_ret]. }
  rewrite Z.add_0_r in H. apply (H b L b' Hb). destruct (bref_pack_code b (Z.b2z x.1) 1) as [Hn|[b1 Hb1]]; [by rewrite Hn in Hp|]. by rewrite Hb1 in Hp |- *.
Qed.

(** ** Messages and PDUs *)
Record msg_ok {V} `{!ProcContents V} (m : elem_msg V) : Prop := {
  msg_code_ok : 0 <= proc_code m <= 255;
  msg_crit_ok : 0 <= msg_crit m < NOF_CRIT;
  msg_value_ok : item_encodes (Asn1Codec0 := content_codec (proc_code m)) true (msg_value m);
  msg_fits : open_type_fits (Asn1Codec0 := content_codec (proc_code m)) (msg_value m);
}.
Lemma per_int_proc_code n : 0 <= n <= 255 -> per_int uint16 n 0 255 true.
Proof.
  intros Hn. split; [split; [cbn; lia|done]|change (it_min uint16) with 0; change (it_max uint16) with 65535; lia|change (it_max (it_promote uint16)) with (2 ^ 31 - 1); lia| |lia].
  apply clear_small. lia.
Qed.
Lemma encodes_elem_msg {V} `{!ProcContents V} (m : elem_msg V) : msg_ok m -> encodes true (fun b => elem_msg_pack b m) elem_msg_unpack m.
Proof.
  intros [Hcode Hcrit Hv Hfit]. destruct m as [code crit v]. cbn [proc_code msg_crit msg_value] in *. unfold elem_msg_pack, elem_msg_unpack. cbn [proc_code msg_crit msg_value].
  eapply encodes_bind; [apply encodes_integer; [by apply per_int_proc_code|lia|done|done|done]|]. cbv beta. eapply encodes_bind; [by apply encodes_crit|]. cbv beta.
  apply (encodes_then true _ _ v (ElemMsg code crit)). by apply encodes_open_type.
Qed.
Lemma encodes_ngap_pdu {I S U} `{!ProcContents I, !ProcContents S, !ProcContents U} (p : ngap_pdu_c I S U) :
  match p with NgapInitMsg m => msg_ok m | NgapSuccessfulOutcome m => msg_ok m | NgapUnsuccessfulOutcome m => msg_ok m | NgapNull => False end ->
  encodes true (fun b => ngap_pdu_pack b p) ngap_pdu_unpack p.
Proof.
  intros Hp. unfold ngap_pdu_pack, ngap_pdu_unpack. eapply encodes_unchecked; [apply encodes_enum; destruct p; cbn; lia || done|].
  destruct p as [m|m|m|]; cbn [ngap_pdu_type Z.eqb Pos.eqb]; [..|done]; by apply encodes_alt, encodes_elem_msg.
Qed.
Lemma init_nnd_ok {I} `{!ProcContents I} nnd_new crit (x : bool * nas_non_delivery_ind) : nnd_ok x.2 -> 0 <= crit < NOF_CRIT ->
  msg_ok (ProcContents0 := init_msg_contents nnd_new) (ElemMsg ID_NAS_NON_DELIVERY_IND crit (InitNasNonDeliveryInd x : init_msg_c I)).
Proof.
  intros Hx Hcrit. split; [cbn [proc_code]; unfold ID_NAS_NON_DELIVERY_IND; lia|done| |].
  - cbn [msg_value proc_code]. unfold item_encodes. cbn [asn_pack asn_unpack content_codec content_pack content_unpack init_msg_contents]. rewrite Z.eqb_refl.
    eapply encodes_ext; [apply (encodes_then true _ _ x (InitNasNonDeliveryInd (I := I)) (encodes_elementary nnd_pack nnd_unpack nnd_new x (encodes_nnd nnd_new.2 x.2 Hx)))| |done].
    intros b b'. cbv beta. by rewrite handle_pack_ret.
  - destruct (nnd_nas_ok _ Hx) as [_ Hl]. eapply open_type_fits_grows; [apply (grows_elementary _ nnd_pack x (grows_nnd _ Hx))|]. unfold ASN_16K. lia.
Qed.

(** ** The frame around the contents

    The guard at the end of an open type, around what the decoder of the contents returns. *)
Definition guarded {A} (len : Z) (start : cbit_ref) (r : unpack_result A) : unpack_result A :=
  let* r := r in
  match r with
  | UOk x c => let* c := unpack_guard_end len start c in Some (UOk x c)
  | UErr e x c => let* c := unpack_guard_end len start c in Some (UErr e x c)
  end.
(** Whatever the codec of the contents is: its decoder is started at a byte, on the bits that its encoder wrote and less than a byte of zeros. *)
Lemma open_type_framed {A} `{!Asn1Codec A} (x : A) inner E : asn_pack bit_ref_new x = pack_ok inner -> repr inner E -> Z.of_nat (length E) <= 8 * (ASN_16K - 1) ->
  forall b L, repr b L -> exists b' F, open_type_pack true b x = pack_ok b' /\ repr b' (L ++ F) /\ br_offset b' = 0
    /\ forall c R, rrepr c (F ++ R) -> cb_offset c = br_offset b ->
         exists start len k, open_type_unpack true c = guarded len start (asn_unpack start) /\ (k < 8)%nat /\ 8 * len = Z.of_nat (length E + k)
           /\ rrepr start (E ++ replicate k false ++ R) /\ cb_offset start = 0.
Proof.
  intros Hp Hi Hl b L Hb.
  set (n := Z.of_nat (length E)) in *. unfold ASN_16K in Hl. set (lo := 7 - u32 (n - 1) mod 8). assert (0 <= lo < 8 /\ (n + lo) mod 8 = 0) as [Hlo Hmod].
  { unfold lo, u32. rewrite Z.mod_mod_divide by (by exists (2 ^ 29)). pose proof (Z.mod_pos_bound (n - 1) 8 ltac:(lia)) as Hm. split; [lia|].
    pose proof (Z.div_mod (n - 1) 8 ltac:(lia)). replace (n + (7 - (n - 1) mod 8)) with (((n - 1) / 8 + 1) * 8) by lia. by apply Z.mod_mul. }
  pose proof (eq_refl : 7 - u32 (n - 1) mod 8 = lo) as Elo. clearbody lo.
  destruct (bref_pack_spec inner E 0 lo Hi ltac:(lia)) as (i' & Hi' & Ri). rewrite bits_be_zero in Ri. destruct (repr_offset _ _ Ri) as [Hoi _].
  rewrite length_app, length_replicate, Nat2Z.inj_add, Z2Nat.id in Hoi by lia. fold n in Hoi. rewrite Hmod in Hoi. destruct i' as [w off]. cbn in Hoi. subst off.
  pose proof (repr_bytes _ _ Ri) as Hbits. cbn [br_writer br_offset] in Hbits. rewrite app_nil_r in Hbits. pose proof (repr_bytes_ok _ _ Ri) as Hw. cbn in Hw.
  assert (8 * blen w = n + lo) as Hlen by (apply (f_equal length) in Hbits; rewrite bytes_bits_length, length_app, length_replicate in Hbits; unfold blen; lia).
  destruct (encodes_length_det (blen w) true true ltac:(unfold ASN_16K; lia) ltac:(done) b L Hb) as (b1 & El & P1 & R1 & U1).
  assert (br_offset b1 = 0) as O1 by (eapply (length_det_aligned b L (blen w)); [unfold ASN_16K; lia|done|done]).
  destruct (pack_bytes_spec b1 _ w R1 Hw) as (b2 & P2 & R2). exists b2, (El ++ bytes_bits w). rewrite app_assoc. split_and!; [|done| |].
  - unfold open_type_pack. rewrite Hp. cbn [pack_ok]. rewrite (repr_distance _ _ Hi). fold n. rewrite Elo, Hi'. cbn [pack_ok]. rewrite full_bytes, P1. cbn [pack_ok br_writer]. by rewrite P2.
  - destruct (repr_offset _ _ R2) as [-> _]. destruct (repr_offset _ _ R1) as [H1 _]. rewrite length_app, bytes_bits_length, Nat2Z.inj_add, Nat2Z.inj_mul, Z.mul_comm, Z.mod_add by lia. lia.
  - intros c R Hc Ho. rewrite <-app_assoc in Hc. destruct (U1 c _ Hc (fun _ => Ho)) as (c1 & V1 & S1 & B1 & D1). exists c1, (blen w), (Z.to_nat lo).
    rewrite Hbits, <-app_assoc in S1. split_and!; [|lia|lia|done|by rewrite (same_offset b L b1 El c c1 _ _ Hb R1 Hc S1 D1 Ho)].
    unfold open_type_unpack. by rewrite V1.
Qed.

(** A PDU carries a message: its bytes are decoded to the same kind of message with the same procedure code and criticality; the decoder of the contents for
    this procedure code is started at a byte, on the bits that the encoder of the contents wrote for the value, and what it returns is the value of the message. *)
Definition carried {V W} (pc : ProcContents V) (wrap : elem_msg V -> W) (pk : bit_ref -> W -> pack_result) (upk : cbit_ref -> unpack_result W) : Prop :=
  forall code crit v inner E, 0 <= code <= 255 -> 0 <= crit < NOF_CRIT ->
    content_pack bit_ref_new v = pack_ok inner -> repr inner E -> Z.of_nat (length E) <= 8 * (ASN_16K - 1) ->
    exists b start len k, pk bit_ref_new (wrap (ElemMsg code crit v)) = pack_ok b
      /\ rrepr start (E ++ replicate k false) /\ cb_offset start = 0 /\ (k < 8)%nat /\ 8 * len = Z.of_nat (length E + k)
      /\ upk (cbit_ref_of (br_writer b)) = let! (v, c) := guarded len start (content_unpack code start) in Some (UOk (wrap (ElemMsg code crit v)) c).

Lemma elem_msg_framed {V} `{!ProcContents V} code crit (v : V) inner E : 0 <= code <= 255 -> 0 <= crit < NOF_CRIT ->
  content_pack bit_ref_new v = pack_ok inner -> repr inner E -> Z.of_nat (length E) <= 8 * (ASN_16K - 1) ->
  forall b L, repr b L -> exists b' F, elem_msg_pack b (ElemMsg code crit v) = pack_ok b' /\ repr b' (L ++ F) /\ br_offset b' = 0
    /\ forall c R, rrepr c (F ++ R) -> cb_offset c = br_offset b ->
         exists start len k, elem_msg_unpack c = (let! (v, c) := guarded len start (content_unpack code start) in Some (UOk (ElemMsg code crit v) c))
           /\ (k < 8)%nat /\ 8 * len = Z.of_nat (length E + k) /\ rrepr start (E ++ replicate k false ++ R) /\ cb_offset start = 0.
Proof.
  intros Hcode Hcrit Hp Hi Hl b L Hb.
  assert (encodes true (fun b => pack_integer uint16 b code 0 255 false true) (fun c => unpack_integer uint16 0 c 0 255 false true) code) as E1
    by (apply encodes_integer; [by apply per_int_proc_code|lia|done|done|done]).
  destruct (E1 b L Hb) as (b1 & F1 & P1 & R1 & U1). destruct (encodes_crit crit Hcrit b1 _ R1) as (b2 & F2 & P2 & R2 & U2).
  destruct (open_type_framed (Asn1Codec0 := content_codec code) v inner E Hp Hi Hl b2 _ R2) as (b3 & F3 & P3 & R3 & O3 & U3).
  exists b3, (F1 ++ F2 ++ F3). rewrite <-!app_assoc in R3. split_and!; [|done|done|].
  - unfold elem_msg_pack. cbn [proc_code msg_crit msg_value]. rewrite P1. cbn [handle_pack pack_ok]. rewrite P2. cbn [handle_pack pack_ok]. by rewrite P3.
  - intros c R Hc Ho. rewrite <-!app_assoc in Hc. destruct (U1 c _ Hc (fun _ => Ho)) as (c1 & V1 & S1 & B1 & D1). pose proof (same_offset b L b1 F1 c c1 _ _ Hb R1 Hc S1 D1 Ho) as Ho1.
    destruct (U2 c1 _ S1 (fun _ => Ho1)) as (c2 & V2 & S2 & B2 & D2). pose proof (same_offset b1 _ b2 F2 c1 c2 _ _ R1 R2 S1 S2 D2 Ho1) as Ho2.
    destruct (U3 c2 _ S2 Ho2) as (start & len & k & V3 & Hk & Hlen & S3 & O). exists start, len, k. split_and!; try done.
    unfold elem_msg_unpack. rewrite V1. cbn [handle_unpack]. rewrite V2. cbn [handle_unpack]. by rewrite V3.
Qed.

Lemma ngap_pdu_carries {I S U} (pI : ProcContents I) (pS : ProcContents S) (pU : ProcContents U) :
  carried pI (NgapInitMsg (S := S) (U := U)) ngap_pdu_pack ngap_pdu_unpack /\ carried pS (NgapSuccessfulOutcome (I := I) (U := U)) ngap_pdu_pack ngap_pdu_unpack
  /\ carried pU (NgapUnsuccessfulOutcome (I := I) (S := S)) ngap_pdu_pack ngap_pdu_unpack.
Proof.
  split_and!; intros code crit v inner E Hcode Hcrit Hp Hi Hl.
  all: match goal with |- context [ngap_pdu_pack bit_ref_new ?m] =>
    destruct (encodes_enum (ngap_pdu_type m) 3 0 true true ltac:(cbn; lia) ltac:(lia) ltac:(lia) ltac:(lia) ltac:(done) bit_ref_new [] repr_new) as (b1 & F1 & P1 & R1 & U1) end.
  all: cbn [app] in R1; destruct (elem_msg_framed code crit v inner E Hcode Hcrit Hp Hi Hl b1 F1 R1) as (b2 & F2 & P2 & R2 & O2 & U2).
  all: pose proof (rrepr_start (br_writer b2)) as Hc; rewrite (repr_bytes _ _ R2), O2 in Hc; change (pad_len 0) with 0%nat in Hc; cbn [replicate] in Hc; rewrite <-app_assoc in Hc;
    destruct (U1 _ _ Hc (fun _ => eq_refl)) as (c1 & V1 & S1 & B1 & D1);
    destruct (U2 c1 _ S1 (same_offset bit_ref_new [] b1 F1 _ c1 _ _ repr_new R1 Hc S1 D1 eq_refl)) as (start & len & k & V2 & Hk & Hlen & S2 & O).
  all: exists b2, start, len, k; split_and!; try done; [unfold ngap_pdu_pack; rewrite P1; cbn [pack_ok]; by rewrite P2|by rewrite app_nil_r in S2|].
  all: unfold ngap_pdu_unpack; cbn [ngap_pdu_type] in V1; rewrite V1; cbn [Z.eqb Pos.eqb]; rewrite V2; by destruct (guarded _ _ _) as [[]|].
Qed.

(** ** Main theorems *)

(** C33: the bytes of an NGAP PDU with a NASNonDeliveryIndication (ids of the elements as specified, AMF-UE-NGAP-ID below 2^40, RAN-UE-NGAP-ID below 2^31, NAS PDU
    up to 16000 bytes, a cause of the root or its extensions) are decoded to the same PDU, whatever the object held before: the choice of the message,
    procedure code, criticality, and every information element; the reader ends where the writer ended.  For the other messages, whose contents are not
    modelled and of which nothing is assumed, the frame is proved: an initiating message, a successful or an unsuccessful outcome is decoded as such with its
    procedure code and criticality, and the decoder of the contents runs at a byte boundary on exactly the bits that the encoder of the contents wrote (at
    most 16383 bytes), padded with zeros to a byte. *)
Theorem ngap_pdu_roundtrip {I S U} (pI : ProcContents I) (pS : ProcContents S) (pU : ProcContents U) nnd_new crit x : nnd_ok x.2 -> 0 <= crit < NOF_CRIT ->
  let pc : ProcContents (init_msg_c I) := init_msg_contents (ProcContents0 := pI) nnd_new in
  let p : ngap_pdu_c (init_msg_c I) S U := NgapInitMsg (ElemMsg ID_NAS_NON_DELIVERY_IND crit (InitNasNonDeliveryInd x)) in
  (exists b c, ngap_pdu_pack bit_ref_new p = pack_ok b /\ ngap_pdu_unpack (cbit_ref_of (br_writer b)) = Some (UOk p c) /\ cbref_distance c = bref_distance b)
  /\ carried pc (NgapInitMsg (S := S) (U := U)) ngap_pdu_pack ngap_pdu_unpack /\ carried pS (NgapSuccessfulOutcome (I := init_msg_c I) (U := U)) ngap_pdu_pack ngap_pdu_unpack
  /\ carried pU (NgapUnsuccessfulOutcome (I := init_msg_c I) (S := S)) ngap_pdu_pack ngap_pdu_unpack.
Proof.
  intros Hx Hcrit pc p. split; [|apply ngap_pdu_carries]. apply (encodes_message (fun b => ngap_pdu_pack b p)), encodes_ngap_pdu. by apply init_nnd_ok.
Qed.

(** The decoder of a container counts the mandatory information elements it has seen,
    not which ones: a NASNonDeliveryIndication that carries the cause four times and
    nothing else is accepted, and the UE ids and the NAS PDU are what the object held
    before.  (Every generated container with mandatory elements counts in this way.) *)
Theorem ngap_repeated_ie_accepted x0 (it : ie_item cause_c) : ie_id it = 15 -> 0 <= ie_crit it < NOF_CRIT -> cause_ok (ie_value it) ->
  exists b c, (let! b := pack_length uint32 bit_ref_new 4 0 65535 true in pack_fixed_seq_of (Asn1Codec0 := {| asn_pack := ie_item_pack (Asn1Codec0 := cause_t); asn_unpack := ie_item_unpack (Asn1Codec0 := cause_t) |}) b [it; it; it; it]) = pack_ok b
    /\ nnd_unpack x0 (cbit_ref_of (br_writer b)) = Some (UOk (NasNonDeliveryInd (nnd_amf_ue_ngap_id x0) (nnd_ran_ue_ngap_id x0) (nnd_nas_pdu x0) it) c).
Proof.
  intros Hid Hcrit Hc. assert (ie_item_ok (Asn1Codec0 := cause_t) it) as Hit.
  { split; [lia|done|by apply encodes_cause|]. eapply open_type_fits_grows; [by apply grows_cause|unfold ASN_16K; lia]. }
  destruct x0 as [a0 r0 n0 c0]. cbn [nnd_amf_ue_ngap_id nnd_ran_ue_ngap_id nnd_nas_pdu]. set (y := NasNonDeliveryInd a0 r0 n0 it).
  assert (encodes true (fun b => let! b := ie_item_pack (Asn1Codec0 := cause_t) b it in let! b := ie_item_pack (Asn1Codec0 := cause_t) b it in let! b := ie_item_pack (Asn1Codec0 := cause_t) b it in
    let! b := ie_item_pack (Asn1Codec0 := cause_t) b it in pack_ok b) (nnd_unpack_ies 4 4 (NasNonDeliveryInd a0 r0 n0 c0)) (0, y)) as Hies.
  { cbn [nnd_unpack_ies]. do 4 (eapply encodes_ie_step; [exact Hit|intros c; rewrite Hid; cbn [Z.eqb Pos.eqb]; reflexivity|]; cbv beta). apply encodes_ret. }
  destruct (encodes_message (fun b => let! b := pack_length uint32 b 4 0 65535 true in let! b := ie_item_pack (Asn1Codec0 := cause_t) b it in let! b := ie_item_pack (Asn1Codec0 := cause_t) b it in
    let! b := ie_item_pack (Asn1Codec0 := cause_t) b it in let! b := ie_item_pack (Asn1Codec0 := cause_t) b it in pack_ok b) (nnd_unpack (NasNonDeliveryInd a0 r0 n0 c0)) y) as (b & c & Hp & Hu & _);
    [|by exists b, c]. by apply encodes_nnd_container.
Qed.

(** Numbers just below 2^32 are rounded up to it in single precision. *)
Lemma float_of_below_pow32 n : 2 ^ 32 - 128 <= n < 2 ^ 32 -> float_of n = 2 ^ 32.
Proof.
  intros Hn. unfold float_of. rewrite (proj2 (Z.leb_gt n 0)) by lia. assert (Z.log2 n = 31) as -> by (apply Z.log2_unique; [lia|]; change (Z.succ 31) with 32; lia).
  change (31 - 23 <=? 0) with false. cbv iota zeta. change (2 ^ (31 - 23)) with 256. change (2 ^ (31 - 23 - 1)) with 128.
  assert (n / 256 = 16777215) as -> by mlia. assert (128 <= n mod 256) as Hm by mlia. change (Z.odd 16777215) with true.
  destruct (128 <? n mod 256) eqn:E; [done|]. breflect. rewrite (proj2 (Z.eqb_eq (n mod 256) 128)) by lia. done.
Qed.
Lemma ran_id_packed n : 2 ^ 32 - 128 <= n < 2 ^ 32 -> forall b,
  asn_pack (Asn1Codec := ran_ue_ngap_id_t) b n = let! b := bref_pack b 4 2 in let! b := align_bytes_zero b in bref_pack b n 40.
Proof.
  intros Hn b. cbn [asn_pack ran_ue_ngap_id_t]. unfold pack_integer. rewrite (proj2 (Z.leb_le 0 n)), (proj2 (Z.leb_le n 4294967295)) by lia. cbn [andb negb handle_pack pack_ok].
  change (lower_bounded uint64 0) with true. change (upper_bounded uint64 4294967295) with true. change (0 =? 4294967295) with false. cbv iota. cbn [andb]. rewrite handle_pack_ret.
  unfold pack_constrained_whole_number. rewrite (proj2 (Z.ltb_ge n 0)), (proj2 (Z.ltb_ge 4294967295 n)) by lia. change (4294967295 <? 0) with false. cbn [orb negb].
  change (int_range uint64 0 4294967295) with (2 ^ 32). change (2 ^ 32 =? 1) with false. change (2 ^ 32 <? 256) with false. change (2 ^ 32 <=? ASN_64K) with false. cbv iota zeta.
  rewrite Z.sub_0_r, (it_conv_id uint64 n) by (change (it_width uint64) with 64; change (it_min uint64) with 0; change (it_max uint64) with (2 ^ 64 - 1); lia). rewrite Z.max_l, (float_of_below_pow32 n), float_of_pow2, ceilf_log2f_pow2, floorf_log2f_pow2 by lia.
  change (ceil_frac 32 8) with (2 ^ 2). rewrite float_of_pow2, ceilf_log2f_pow2 by lia. done.
Qed.
(** A RAN-UE-NGAP-ID from 4294967168 on is a valid value of its type, its encoding
    reports success, and it is decoded as 0: the number of octets is computed from the
    number in single precision, which gives five octets, one more than the two bits of the
    length field can express. *)
Theorem ngap_ran_ue_id_lost n : 2 ^ 32 - 128 <= n < 2 ^ 32 ->
  exists b c, asn_pack (Asn1Codec := ran_ue_ngap_id_t) bit_ref_new n = pack_ok b /\ asn_unpack (Asn1Codec := ran_ue_ngap_id_t) (cbit_ref_of (br_writer b)) = Some (UOk 0 c).
Proof.
  intros Hn. rewrite (ran_id_packed n Hn). change (bref_pack bit_ref_new 4 2) with (pack_ok (BitRef [0] 2)). cbn [handle_pack pack_ok align_bytes_zero br_writer].
  assert (repr (BitRef [0] 0) (bytes_bits [0])) as H0 by (constructor; repeat constructor; unfold is_u8; lia). destruct (bref_pack_spec _ _ n 40 H0 ltac:(lia)) as (b & Hb & Hr).
  assert (bytes_bits (br_writer b) = bits_be (Z.to_nat 2) 0 ++ replicate 6 false ++ bits_be (Z.to_nat 8) 0 ++ bits_be (Z.to_nat 32) n ++ []) as Hbits.
  { rewrite (repr_bytes _ _ Hr). destruct (repr_offset _ _ Hr) as [-> _]. change (Z.of_nat _ mod 8) with 0. change (Z.to_nat 40) with (Z.to_nat 8 + Z.to_nat 32)%nat.
    rewrite bits_be_split. replace (n / 2 ^ Z.of_nat (Z.to_nat 32)) with 0 by (change (2 ^ Z.of_nat (Z.to_nat 32)) with (2 ^ 32); by rewrite Z.div_small by lia). by rewrite <-!app_assoc. }
  pose proof (rrepr_start (br_writer b)) as Hc. rewrite Hbits in Hc. destruct (unpack_spec uint32 _ 2 0 _ uint32_ok Hc ltac:(cbn; lia)) as (c1 & U1 & R1 & _ & D1).
  destruct (align_bytes_spec c1 _ _ R1) as (c2 & U2 & R2 & _); [by rewrite (cb_offset_distance _ _ R1), D1|]. destruct (unpack_spec uint64 c2 8 0 _ uint64_ok R2 ltac:(cbn; lia)) as (c3 & U3 & _).
  exists b, c3. split; [done|]. cbn [asn_unpack ran_ue_ngap_id_t]. unfold unpack_integer. cbn [handle_unpack negb andb]. change (lower_bounded uint64 0) with true. change (upper_bounded uint64 4294967295) with true.
  change (0 =? 4294967295) with false. cbn [andb]. unfold unpack_constrained_whole_number. change (4294967295 <? 0) with false. change (int_range uint64 0 4294967295) with (2 ^ 32).
  change (2 ^ 32 =? 1) with false. change (2 ^ 32 <? 256) with false. change (2 ^ 32 <=? ASN_64K) with false. cbn [negb]. cbv iota zeta. rewrite float_of_pow2, ceilf_log2f_pow2 by lia.
  change (ceil_frac 32 8) with (2 ^ 2). rewrite float_of_pow2, ceilf_log2f_pow2, U1 by lia. cbn [handle_unpack]. rewrite U2. cbn [handle_unpack]. change (u32 (u32 (it_conv uint32 (0 mod 2 ^ 2) + 1) * 8)) with 8. rewrite U3. done.
Qed.
End Ngap.

(** ** Examples *)
Section Examples.
Local Instance unit_contents : ProcContents () := {| content_pack b _ := pack_ok b; content_unpack _ c := Some (UOk () c) |}.
Definition example_nnd : nas_non_delivery_ind :=
  NasNonDeliveryInd (IeItem 10 0 1099511627775) (IeItem 85 0 70000) (IeItem 38 1 [126; 0; 92]) (IeItem 15 1 (CauseRadioNetwork 45)).
Lemma example_nnd_ok : nnd_ok example_nnd.
Proof.
  split; cbn [example_nnd nnd_amf_ue_ngap_id nnd_ran_ue_ngap_id nnd_nas_pdu nnd_cause ie_id ie_crit ie_value]; unfold NOF_CRIT; [lia..| |].
  - split; [repeat constructor; unfold is_u8; lia|]. unfold blen. cbn [length]. lia.
  - split. lia.
Qed.
Definition example_pdu {S} : ngap_pdu_c (init_msg_c ()) S () := NgapInitMsg (ElemMsg ID_NAS_NON_DELIVERY_IND 1 (InitNasNonDeliveryInd (false, example_nnd))).
(** The message, and a successful outcome (procedure code 21) with contents of one byte. *)
Local Instance byte_contents : ProcContents Z := {| content_pack b v := bref_pack b v 8; content_unpack _ c := cbref_unpack uint32 c 8 |}.
Lemma ngap_pdu_roundtrip_witness : let pc := init_msg_contents (Hlog := exact_log2f) (ProcContents0 := unit_contents) (false, example_nnd) in
  (exists b c, ngap_pdu_pack (Hlog := exact_log2f) bit_ref_new (example_pdu : ngap_pdu_c (init_msg_c ()) Z ()) = pack_ok b
    /\ ngap_pdu_unpack (Hlog := exact_log2f) (cbit_ref_of (br_writer b)) = Some (UOk (example_pdu : ngap_pdu_c (init_msg_c ()) Z ()) c) /\ cbref_distance c = bref_distance b)
  /\ exists b start len k, ngap_pdu_pack (Hlog := exact_log2f) bit_ref_new (NgapSuccessfulOutcome (ElemMsg 21 0 77) : ngap_pdu_c (init_msg_c ()) Z ()) = pack_ok b
    /\ rrepr start (bytes_bits [77] ++ replicate k false) /\ 8 * len = Z.of_nat (8 + k).
Proof.
  intros pc. destruct (ngap_pdu_roundtrip (Hlog := exact_log2f) (Hlaws := exact_log2f_laws) unit_contents byte_contents unit_contents (false, example_nnd) 1 (false, example_nnd) example_nnd_ok) as (H1 & _ & H2 & _); [unfold NOF_CRIT; lia|].
  split; [exact H1|]. destruct (H2 21 0 77 (BitRef [77] 0) (bytes_bits [77])) as (b & start & len & k & G1 & G2 & _ & _ & G3 & _);
    [lia|unfold NOF_CRIT; lia|reflexivity|constructor; repeat constructor; unfold is_u8; lia|by vm_compute|].
  exists b, start, len, k. split; [exact G1|]. split; [exact G2|exact G3].
Defined.
(** The bytes of the example. *)
Lemma example_pdu_bytes : exists b, ngap_pdu_pack (Hlog := exact_log2f) (ProcContents0 := init_msg_contents (Hlog := exact_log2f) (false, example_nnd)) bit_ref_new (example_pdu (S := ())) = pack_ok b
  /\ take 4 (br_writer b) = [0; 19; 64; 36].
Proof. eexists. split; [vm_compute; reflexivity|]. vm_compute. reflexivity. Qed.
Lemma ngap_repeated_ie_accepted_witness : exists b c, nnd_unpack (Hlog := exact_log2f) example_nnd (cbit_ref_of (br_writer b))
  = Some (UOk (NasNonDeliveryInd (IeItem 10 0 1099511627775) (IeItem 85 0 70000) (IeItem 38 1 [126; 0; 92]) (IeItem 15 1 (CauseNas 2))) c).
Proof.
  destruct (ngap_repeated_ie_accepted (Hlog := exact_log2f) (Hlaws := exact_log2f_laws) example_nnd (IeItem 15 1 (CauseNas 2)) eq_refl) as (b & c & _ & Hu);
    [unfold NOF_CRIT; cbn; lia|split; cbn [ie_value]; lia|]. exists b, c. exact Hu.
Defined.
Lemma ngap_ran_ue_id_lost_witness : exists b c, asn_pack (Asn1Codec := ran_ue_ngap_id_t (Hlog := exact_log2f)) bit_ref_new 4294967295 = pack_ok b
  /\ asn_unpack (Asn1Codec := ran_ue_ngap_id_t (Hlog := exact_log2f)) (cbit_ref_of (br_writer b)) = Some (UOk 0 c).
Proof. apply (ngap_ran_ue_id_lost (Hlog := exact_log2f) (Hlaws := exact_log2f_laws)). lia. Defined.
End Examples.
