(* ===== verification/BitBuffer.v ===== *)
(** * bit_buffer

    include/srsran/adt/bit_buffer.h: packed bits in a span of bytes, the most significant
    bit of a byte first.  A buffer implements a list of bits. *)
From S2P Require Import Prelude Bits.

(** ** Masks of bytes (include/srsran/adt/bounded_bitset.h) *)
Definition mask_msb_zeros (n : Z) : Z := if n =? 0 then 255 else if n =? 8 then 0 else Z.shiftr 255 n.
Definition mask_lsb_ones (n : Z) : Z := mask_msb_zeros (8 - n).
Definition mask_msb_ones (n : Z) : Z := u8 (Z.lnot (mask_msb_zeros n)).

(** ** The buffer *)
Definition bits_per_word : Z := 8.
Definition calculate_nof_words (nof_bits : Z) : Z := (nof_bits + (bits_per_word - 1)) / bits_per_word.
Record bit_buffer := BitBuffer { bb_buffer : list Z; bb_size : Z }.
Definition bit_buffer_new (buffer : bytes) (size : Z) : option bit_buffer :=
  if calculate_nof_words size <=? blen buffer then Some (BitBuffer buffer size) else None.
Definition bb_nof_full_words (b : bit_buffer) : Z := bb_size b / bits_per_word.
Definition bb_zero (b : bit_buffer) : bit_buffer :=
  let n := Z.to_nat (calculate_nof_words (bb_size b)) in BitBuffer (replicate n 0 ++ drop n (bb_buffer b)) (bb_size b).
Definition bb_one (b : bit_buffer) : bit_buffer :=
  let nof_full := Z.to_nat (bb_nof_full_words b) in
  let buffer := replicate nof_full 255 ++ drop nof_full (bb_buffer b) in
  let tail_bits := bb_size b - bb_nof_full_words b * bits_per_word in
  if tail_bits =? 0 then BitBuffer buffer (bb_size b)
  else BitBuffer (<[nof_full := u8 (Z.shiftl (Z.shiftl 1 tail_bits - 1) (bits_per_word - tail_bits))]> buffer) (bb_size b).
(** An index beyond the span is an error. *)
Definition bb_insert (b : bit_buffer) (value startpos count : Z) : option bit_buffer :=
  if negb ((count <=? bits_per_word) && (value <? Z.shiftl 1 count) && (startpos + count <=? bb_size b)) then None
  else
    let start_word := Z.to_nat (startpos / bits_per_word) in
    let start_mod := startpos mod bits_per_word in
    let* x := bb_buffer b !! start_word in
    if start_mod =? 0 then
      Some (BitBuffer (<[start_word := u8 (Z.lor (Z.land x (mask_msb_zeros count)) (Z.shiftl value (bits_per_word - count)))]> (bb_buffer b)) (bb_size b))
    else if start_mod + count <=? bits_per_word then
      let word := Z.land x (Z.lor (mask_msb_ones start_mod) (mask_lsb_ones (bits_per_word - start_mod - count))) in
      Some (BitBuffer (<[start_word := u8 (Z.lor word (Z.shiftl value (bits_per_word - start_mod - count)))]> (bb_buffer b)) (bb_size b))
    else
      let* y := bb_buffer b !! S start_word in
      let x := u8 (Z.lor (Z.land x (mask_msb_ones start_mod)) (Z.shiftr value (start_mod + count - bits_per_word))) in
      let y := u8 (Z.lor (Z.land y (mask_msb_zeros (start_mod + count - bits_per_word))) (Z.shiftl value (2 * bits_per_word - start_mod - count))) in
      Some (BitBuffer (<[S start_word := y]> (<[start_word := x]> (bb_buffer b))) (bb_size b)).
Definition bb_extract (b : bit_buffer) (startpos count : Z) : option Z :=
  if negb ((count <=? bits_per_word) && (startpos + count <=? bb_size b)) then None
  else
    let start_word := Z.to_nat (startpos / bits_per_word) in
    let start_mod := startpos mod bits_per_word in
    let* x := bb_buffer b !! start_word in
    if start_mod =? 0 then Some (Z.shiftr x (bits_per_word - count))
    else if start_mod + count <=? bits_per_word then Some (Z.land (Z.shiftr x (bits_per_word - start_mod - count)) (mask_lsb_ones count))
    else
      let* y := bb_buffer b !! S start_word in
      let word := Z.lor (Z.shiftl x bits_per_word) y in
      Some (u8 (Z.land (Z.shiftr word (2 * bits_per_word - start_mod - count)) (Z.ones count))).
Definition bb_get_byte (b : bit_buffer) (i_byte : Z) : option Z :=
  if i_byte <? bb_nof_full_words b then bb_buffer b !! Z.to_nat i_byte else None.
Definition bb_set_byte (b : bit_buffer) (byte i_byte : Z) : option bit_buffer :=
  if i_byte <? bb_nof_full_words b then Some (BitBuffer (<[Z.to_nat i_byte := byte]> (bb_buffer b)) (bb_size b)) else None.
(** [first] and [last] are views of the same storage. *)
Definition bb_first (b : bit_buffer) (count : Z) : option bit_buffer :=
  if count <=? bb_size b then bit_buffer_new (bb_buffer b) count else None.
Definition bb_last (b : bit_buffer) (count : Z) : option bit_buffer :=
  if (bb_size b - count) mod bits_per_word =? 0 then
    bit_buffer_new (slice ((bb_size b - count) / bits_per_word) (calculate_nof_words count) (bb_buffer b)) count
  else None.

(** ** The list of bits *)
Definition bb_bits (b : bit_buffer) : list bool := take (Z.to_nat (bb_size b)) (bytes_bits (bb_buffer b)).
Record bb_ok (b : bit_buffer) : Prop := {
  bbo_bytes : bytes_ok (bb_buffer b);
  bbo_size : 0 <= bb_size b <= 8 * blen (bb_buffer b);
}.

Lemma byte_cases n : 0 <= n <= 8 -> n = 0 \/ n = 1 \/ n = 2 \/ n = 3 \/ n = 4 \/ n = 5 \/ n = 6 \/ n = 7 \/ n = 8.
Proof. lia. Qed.
Lemma mask_msb_zeros_ones n : 0 <= n <= 8 -> mask_msb_zeros n = Z.ones (8 - n).
Proof. intros Hn. destruct (byte_cases n Hn) as [->|[->|[->|[->|[->|[->|[->|[->| ->]]]]]]]]; done. Qed.
Lemma mask_lsb_ones_ones n : 0 <= n <= 8 -> mask_lsb_ones n = Z.ones n.
Proof. intros Hn. unfold mask_lsb_ones. rewrite mask_msb_zeros_ones by lia. f_equal. lia. Qed.
Lemma mask_msb_ones_bit n i : 0 <= n <= 8 -> 0 <= i < 8 -> Z.testbit (mask_msb_ones n) i = (8 - n <=? i).
Proof.
  intros Hn Hi. unfold mask_msb_ones, u8. rewrite Z.mod_pow2_bits_low, Z.lnot_spec, mask_msb_zeros_ones by lia. destruct (8 - n <=? i) eqn:E; breflect.
  - by rewrite Z.ones_spec_high by lia.
  - by rewrite Z.ones_spec_low by lia.
Qed.
Lemma bb_field b s n : 0 <= s -> 0 <= n -> s + n <= bb_size b ->
  take (Z.to_nat n) (drop (Z.to_nat s) (bb_bits b)) = take (Z.to_nat n) (drop (Z.to_nat s) (bytes_bits (bb_buffer b))).
Proof. intros Hs Hn Hsz. apply field_take. lia. Qed.
(** The byte that holds the bit [s]. *)
Lemma bb_word b s : bb_ok b -> 0 <= s < bb_size b -> exists x, bb_buffer b !! Z.to_nat (s / 8) = Some x /\ is_u8 x /\ length (take (Z.to_nat (s / 8)) (bb_buffer b)) = Z.to_nat (s / 8).
Proof.
  intros [Hb Hsz] Hs. unfold blen in Hsz. destruct (lookup_lt_is_Some_2 (bb_buffer b) (Z.to_nat (s / 8))) as [x Hx]; [mlia|]. exists x. split_and!; [done| |rewrite length_take; mlia].
  apply (proj1 (list.Forall_lookup _ _) Hb _ _ Hx).
Qed.
Lemma bb_extract_spec b s n : bb_ok b -> 0 <= s -> 0 < n <= 8 -> s + n <= bb_size b ->
  exists v, bb_extract b s n = Some v /\ 0 <= v < 2 ^ n /\ bits_be (Z.to_nat n) v = take (Z.to_nat n) (drop (Z.to_nat s) (bb_bits b)).
Proof.
  intros Hb Hs Hn Hsz. rewrite bb_field by lia. unfold bb_extract, bits_per_word. rewrite (proj2 (Z.leb_le n 8)), (proj2 (Z.leb_le (s + n) (bb_size b))) by lia. cbn [andb negb].
  destruct (bb_word b s Hb ltac:(lia)) as (x & Hx & Hx8 & Hl). rewrite Hx. pose proof (Z.div_mod s 8 ltac:(lia)) as Hdm. pose proof (Z.mod_pos_bound s 8 ltac:(lia)) as Hm.
  set (k := Z.to_nat (s / 8)) in *. set (a := s mod 8) in *. assert (0 <= s / 8) as Hk0 by (apply Z.div_pos; lia). rewrite (bytes_bits_lookup _ _ _ Hx). unfold is_u8 in Hx8.
  destruct (a =? 0) eqn:E0; breflect; [|destruct (a + n <=? 8) eqn:E1; breflect].
  - exists (Z.shiftr x (8 - n)). rewrite Z.shiftr_div_pow2 by lia. split_and!; [done|apply Z.div_pos; lia| |].
    + apply Z.div_lt_upper_bound; [lia|]. rewrite <-Z.pow_add_r by lia. replace (8 - n + n) with 8 by lia. lia.
    + assert (8%nat = (Z.to_nat n + Z.to_nat (8 - n))%nat) as H8 by lia. rewrite H8 at 1. rewrite bits_be_split, Z2Nat.id, <-app_assoc by lia. symmetry. apply field_middle; [rewrite bytes_bits_length; lia|by rewrite bits_be_length].
  - eexists. split; [done|]. rewrite mask_lsb_ones_ones, Z.land_ones, Z.shiftr_div_pow2 by lia. split; [apply Z.mod_pos_bound; lia|].
    rewrite bits_be_mod_Z by lia. assert (8%nat = (Z.to_nat a + (Z.to_nat n + Z.to_nat (8 - a - n)))%nat) as H8 by lia. rewrite H8 at 1. rewrite bits_be_mid, <-!app_assoc, (app_assoc (bytes_bits _)).
    rewrite Z2Nat.id by lia. symmetry. apply field_middle; [rewrite length_app, bytes_bits_length, bits_be_length; lia|by rewrite bits_be_length].
  - destruct (bb_word b (s + n - 1) Hb ltac:(lia)) as (y & Hy & Hy8 & _). unfold is_u8 in Hy8. replace (Z.to_nat ((s + n - 1) / 8)) with (S k) in Hy by (unfold k; mlia). rewrite Hy.
    eexists. split; [done|]. replace (2 * 8 - a - n) with (16 - a - n) by lia. rewrite Z.land_ones, Z.shiftr_div_pow2 by lia.
    assert (Z.lor (Z.shiftl x 8) y = x * 256 + y) as ->.
    { rewrite Z.shiftl_mul_pow2 by lia. apply (lor_disjoint 8); [lia|by rewrite Z.mod_mul|lia]. }
    assert (0 <= ((x * 256 + y) / 2 ^ (16 - a - n)) mod 2 ^ n < 2 ^ n) as Hv by (apply Z.mod_pos_bound; lia). assert (2 ^ n <= 2 ^ 8) by (apply Z.pow_le_mono_r; lia). rewrite u8_id by (unfold is_u8; lia).
    split; [exact Hv|]. rewrite bits_be_mod_Z by lia. rewrite (drop_S _ _ _ Hy), bytes_bits_cons, (app_assoc (bits_be 8 x)), <-bits_be_byte_two by lia.
    assert (16%nat = (Z.to_nat a + (Z.to_nat n + Z.to_nat (16 - a - n)))%nat) as H16 by lia. rewrite H16 at 1. rewrite bits_be_mid, <-!app_assoc, (app_assoc (bytes_bits _)).
    rewrite Z2Nat.id by lia. symmetry. apply field_middle; [rewrite length_app, bytes_bits_length, bits_be_length; lia|by rewrite bits_be_length].
Qed.

(** A byte in which a field is replaced. *)
Lemma word_patch a n c x m v : 0 <= a -> 0 <= n -> 0 <= c -> a + n + c = 8 -> 0 <= v < 2 ^ n ->
  (forall i, 0 <= i < 8 -> Z.testbit m i = (i <? c) || (c + n <=? i)) ->
  bits_be 8 (u8 (Z.lor (Z.land x m) (Z.shiftl v c))) = bits_be (Z.to_nat a) (x / 2 ^ (n + c)) ++ bits_be (Z.to_nat n) v ++ bits_be (Z.to_nat c) x.
Proof.
  intros Ha Hn Hc H8 Hv Hm. assert (8%nat = (Z.to_nat a + (Z.to_nat n + Z.to_nat c))%nat) as -> by lia. replace (n + c) with (Z.of_nat (Z.to_nat n + Z.to_nat c)) by lia.
  assert (forall i, 0 <= i < 8 -> Z.testbit (u8 (Z.lor (Z.land x m) (Z.shiftl v c))) i = (Z.testbit x i && ((i <? c) || (c + n <=? i))) || Z.testbit v (i - c)) as Hbit.
  { intros i Hi. unfold u8. by rewrite Z.mod_pow2_bits_low, Z.lor_spec, Z.land_spec, Hm, Z.shiftl_spec by lia. }
  apply bits_be_patch; intros i Hi; rewrite Hbit by lia.
  - rewrite (proj2 (Z.ltb_lt i c)), (Z.testbit_neg_r v) by lia. by rewrite andb_true_r, orb_false_r.
  - rewrite (proj2 (Z.ltb_ge _ c)), (proj2 (Z.leb_gt (c + n) _)) by lia. rewrite andb_false_r. cbn. f_equal. lia.
  - rewrite (proj2 (Z.leb_le (c + n) i)), (testbit_high v n) by lia. by rewrite orb_true_r, andb_true_r, orb_false_r.
Qed.
Lemma bytes_bits_insert (w : list Z) k x : (k < length w)%nat -> bytes_bits (<[k := x]> w) = bytes_bits (take k w) ++ bits_be 8 x ++ bytes_bits (drop (S k) w).
Proof.
  intros Hk. rewrite insert_take_drop by done. by rewrite bytes_bits_app.
Qed.
Lemma bytes_bits_insert_two (w : list Z) k x y : (S k < length w)%nat ->
  bytes_bits (<[S k := y]> (<[k := x]> w)) = bytes_bits (take k w) ++ bits_be 8 x ++ bits_be 8 y ++ bytes_bits (drop (S (S k)) w).
Proof.
  intros Hk. rewrite bytes_bits_insert by (rewrite length_insert; lia). rewrite take_insert_lt, drop_insert_lt by lia. rewrite bytes_bits_insert by (rewrite length_take; lia).
  rewrite take_take, Nat.min_l, (drop_ge (take _ _)) by (rewrite ?length_take; lia). by rewrite <-!app_assoc.
Qed.
(** Bits of the value above the byte are cut off. *)
Lemma u8_lor_shift z v n : 0 <= n <= 8 -> u8 (Z.lor z (Z.shiftl v (8 - n))) = u8 (Z.lor z (Z.shiftl (v mod 2 ^ n) (8 - n))).
Proof.
  intros Hn. apply Z.bits_inj'. intros i Hi. unfold u8. destruct (decide (i < 8)) as [Hlt|]; [|by rewrite !Z.mod_pow2_bits_high by lia].
  rewrite !Z.mod_pow2_bits_low, !Z.lor_spec, !Z.shiftl_spec by lia. f_equal. destruct (decide (i < 8 - n)); [by rewrite (Z.testbit_neg_r v), (Z.testbit_neg_r (v mod _)) by lia|]. by rewrite Z.mod_pow2_bits_low by lia.
Qed.
(** A field of the buffer is replaced. *)
Definition patched (b : bit_buffer) (s : Z) (F : list bool) (b' : bit_buffer) : Prop :=
  bb_ok b' /\ bb_size b' = bb_size b /\ bb_bits b' = take (Z.to_nat s) (bb_bits b) ++ F ++ drop (Z.to_nat s + length F) (bb_bits b).
Lemma bb_patch b (w' : list Z) s (P M S' : list bool) F : bb_ok b -> bytes_ok w' -> length w' = length (bb_buffer b) ->
  bytes_bits (bb_buffer b) = P ++ M ++ S' -> bytes_bits w' = P ++ F ++ S' -> length P = Z.to_nat s -> length M = length F -> (Z.to_nat s + length F <= Z.to_nat (bb_size b))%nat ->
  patched b s F (BitBuffer w' (bb_size b)).
Proof.
  intros [Hb Hsz] Hw Hl HB HB' HP HM Hle. split_and!; [split; [done|]; unfold blen in *; cbn; rewrite Hl; lia|done|]. unfold bb_bits. cbn [bb_buffer bb_size]. rewrite HB, HB', <-HP in *.
  set (m := Z.to_nat (bb_size b)) in *. assert (m = length P + (length F + (m - length P - length F)))%nat as Hm by lia. set (r := (m - length P - length F)%nat) in *. clearbody r m. subst m.
  rewrite !take_app_add. rewrite (take_app_add' M S' (length F) r) by done. rewrite take_app_length, drop_app_add, <-HM, drop_app_length. done.
Qed.

Lemma u8_ok x : is_u8 (u8 x).
Proof. apply Z.mod_pos_bound. lia. Qed.
Lemma bb_insert_spec b v s n : bb_ok b -> 0 <= s -> 0 < n <= 8 -> s + n <= bb_size b -> 0 <= v < 2 ^ n ->
  exists b', bb_insert b v s n = Some b' /\ patched b s (bits_be (Z.to_nat n) v) b'.
Proof.
  intros Hb Hs Hn Hsz Hv. unfold bb_insert, bits_per_word. rewrite (proj2 (Z.leb_le n 8)), (proj2 (Z.leb_le (s + n) (bb_size b))), Z.shiftl_1_l, (proj2 (Z.ltb_lt v (2 ^ n))) by lia. cbn [andb negb].
  destruct (bb_word b s Hb ltac:(lia)) as (x & Hx & Hx8 & Hl). rewrite Hx. pose proof (Z.div_mod s 8 ltac:(lia)) as Hdm. pose proof (Z.mod_pos_bound s 8 ltac:(lia)) as Hm.
  set (k := Z.to_nat (s / 8)) in *. set (a := s mod 8) in *. assert (0 <= s / 8) as Hk0 by (apply Z.div_pos; lia). pose proof (bbo_bytes _ Hb) as Hw. pose proof (lookup_lt_Some _ _ _ Hx) as Hlt.
  destruct (a =? 0) eqn:E0; breflect; [|destruct (a + n <=? 8) eqn:E1; breflect].
  - eexists. split; [done|]. eapply (bb_patch _ _ _ (bytes_bits (take k (bb_buffer b))) (bits_be (Z.to_nat n) (x / 2 ^ (8 - n))) (bits_be (Z.to_nat (8 - n)) x ++ bytes_bits (drop (S k) (bb_buffer b)))); [done| | | | | | |].
    + by apply list.Forall_insert; [|apply u8_ok].
    + by rewrite length_insert.
    + rewrite (bytes_bits_lookup _ _ _ Hx). f_equal. assert (8%nat = (Z.to_nat n + Z.to_nat (8 - n))%nat) as H8 by lia. rewrite H8 at 1. rewrite bits_be_split, Z2Nat.id, <-app_assoc by lia. done.
    + rewrite bytes_bits_insert by done. f_equal. rewrite (word_patch 0 n (8 - n)); [by rewrite <-!app_assoc|lia|lia|lia|lia|done|].
      intros i Hi. rewrite mask_msb_zeros_ones by lia. destruct (i <? 8 - n) eqn:E; breflect; cbn [orb]; [by rewrite Z.ones_spec_low by lia|]. rewrite Z.ones_spec_high by lia. symmetry. apply Z.leb_gt. lia.
    + rewrite bytes_bits_length. lia.
    + by rewrite !bits_be_length.
    + rewrite bits_be_length. lia.
  - eexists. split; [done|]. set (c := 8 - a - n). eapply (bb_patch _ _ _ (bytes_bits (take k (bb_buffer b)) ++ bits_be (Z.to_nat a) (x / 2 ^ (n + c))) (bits_be (Z.to_nat n) (x / 2 ^ c)) (bits_be (Z.to_nat c) x ++ bytes_bits (drop (S k) (bb_buffer b)))); [done| | | | | | |].
    + by apply list.Forall_insert; [|apply u8_ok].
    + by rewrite length_insert.
    + rewrite (bytes_bits_lookup _ _ _ Hx), <-app_assoc. f_equal. assert (8%nat = (Z.to_nat a + (Z.to_nat n + Z.to_nat c))%nat) as H8 by lia. rewrite H8 at 1. rewrite bits_be_mid, <-!app_assoc.
      replace (Z.of_nat (Z.to_nat n + Z.to_nat c)) with (n + c) by lia. by rewrite Z2Nat.id by lia.
    + rewrite bytes_bits_insert, <-app_assoc by done. f_equal. rewrite (word_patch a n c); [by rewrite <-!app_assoc|lia|lia|lia|lia|done|].
      intros i Hi. rewrite Z.lor_spec, mask_msb_ones_bit, mask_lsb_ones_ones by lia. rewrite orb_comm. f_equal; [|f_equal; lia]. destruct (i <? c) eqn:E; breflect; [by rewrite Z.ones_spec_low by lia|by rewrite Z.ones_spec_high by lia].
    + rewrite length_app, bytes_bits_length, bits_be_length. lia.
    + by rewrite !bits_be_length.
    + rewrite bits_be_length. lia.
  - destruct (bb_word b (s + n - 1) Hb ltac:(lia)) as (y & Hy & Hy8 & _). replace (Z.to_nat ((s + n - 1) / 8)) with (S k) in Hy by (unfold k; mlia). rewrite Hy.
    eexists. split; [done|]. set (n1 := 8 - a). set (n2 := a + n - 8). replace (2 * 8 - a - n) with (8 - n2) by lia. pose proof (lookup_lt_Some _ _ _ Hy) as Hlt'.
    assert (bits_be (Z.to_nat n) v = bits_be (Z.to_nat n1) (v / 2 ^ n2) ++ bits_be (Z.to_nat n2) v) as Hvb.
    { assert (Z.to_nat n = (Z.to_nat n1 + Z.to_nat n2)%nat) as -> by lia. rewrite bits_be_split. by rewrite Z2Nat.id by lia. }
    assert (2 ^ n = 2 ^ n1 * 2 ^ n2) as Hpow by (rewrite <-Z.pow_add_r by lia; f_equal; lia).
    assert (0 <= v / 2 ^ n2 < 2 ^ n1) as Hv1 by (split; [apply Z.div_pos; lia|apply Z.div_lt_upper_bound; lia]).
    eapply (bb_patch _ _ _ (bytes_bits (take k (bb_buffer b)) ++ bits_be (Z.to_nat a) (x / 2 ^ n1)) (bits_be (Z.to_nat n1) x ++ bits_be (Z.to_nat n2) (y / 2 ^ (8 - n2)))
      (bits_be (Z.to_nat (8 - n2)) y ++ bytes_bits (drop (S (S k)) (bb_buffer b)))); [done| | | | | | |].
    + apply list.Forall_insert; [apply list.Forall_insert; [done|apply u8_ok]|apply u8_ok].
    + by rewrite !length_insert.
    + rewrite (bytes_bits_lookup _ _ _ Hx), (drop_S _ _ _ Hy), bytes_bits_cons, <-!app_assoc. f_equal.
      assert (8%nat = (Z.to_nat a + Z.to_nat n1)%nat) as H8 by lia. rewrite H8 at 1. assert (8%nat = (Z.to_nat n2 + Z.to_nat (8 - n2))%nat) as H8' by lia. rewrite H8' at 1. rewrite !bits_be_split, <-!app_assoc. by rewrite !Z2Nat.id by lia.
    + rewrite bytes_bits_insert_two, Hvb, <-!app_assoc by done. f_equal. fold n2. rewrite <-(Z.shiftl_0_r (Z.shiftr v n2)), (word_patch a n1 0); [|lia|lia|lia|lia|by rewrite Z.shiftr_div_pow2 by lia|].
      2:{ intros i Hi. rewrite mask_msb_ones_bit by lia. rewrite (proj2 (Z.ltb_ge i 0)) by lia. cbn [orb]. by replace (0 + n1) with (8 - a) by lia. }
      rewrite Z.add_0_r, Z.shiftr_div_pow2, <-!app_assoc by lia. do 2 f_equal. rewrite u8_lor_shift, (word_patch 0 n2 (8 - n2)); [|lia|lia|lia|lia|apply Z.mod_pos_bound; lia| |lia].
      2:{ intros i Hi. rewrite mask_msb_zeros_ones by lia. destruct (i <? 8 - n2) eqn:E; breflect; cbn [orb]; [by rewrite Z.ones_spec_low by lia|]. rewrite Z.ones_spec_high by lia. symmetry. apply Z.leb_gt. lia. }
      rewrite bits_be_mod_Z, <-!app_assoc by lia. done.
    + rewrite length_app, bytes_bits_length, bits_be_length. lia.
    + rewrite length_app, !bits_be_length. lia.
    + rewrite bits_be_length. lia.
Qed.
Lemma bb_bits_length b : bb_ok b -> length (bb_bits b) = Z.to_nat (bb_size b).
Proof. intros [_ Hsz]. unfold bb_bits, blen in *. rewrite length_take, bytes_bits_length. lia. Qed.
Lemma bb_get_byte_spec b i : bb_ok b -> 0 <= i < bb_nof_full_words b -> exists x, bb_get_byte b i = Some x /\ is_u8 x /\ bits_be 8 x = take 8 (drop (Z.to_nat (8 * i)) (bb_bits b)).
Proof.
  intros Hb Hi. unfold bb_get_byte, bb_nof_full_words, bits_per_word in *. rewrite (proj2 (Z.ltb_lt i (bb_size b / 8))) by lia.
  destruct (bb_word b (8 * i) Hb ltac:(mlia)) as (x & Hx & Hx8 & Hl). rewrite (Z.mul_comm 8 i), Z.div_mul in * by lia. exists x. split_and!; [done..|].
  change 8%nat with (Z.to_nat 8) at 2. rewrite bb_field by mlia. rewrite (bytes_bits_lookup _ _ _ Hx). symmetry. apply field_middle; [rewrite bytes_bits_length; lia|by rewrite bits_be_length].
Qed.
Lemma bb_set_byte_spec b x i : bb_ok b -> is_u8 x -> 0 <= i < bb_nof_full_words b -> exists b', bb_set_byte b x i = Some b' /\ patched b (8 * i) (bits_be 8 x) b'.
Proof.
  intros Hb Hx Hi. unfold bb_set_byte, bb_nof_full_words, bits_per_word in *. rewrite (proj2 (Z.ltb_lt i (bb_size b / 8))) by lia. eexists. split; [done|].
  destruct (bb_word b (8 * i) Hb ltac:(mlia)) as (y & Hy & Hy8 & Hl). rewrite (Z.mul_comm 8 i), Z.div_mul in * by lia. pose proof (lookup_lt_Some _ _ _ Hy) as Hlt.
  apply (bb_patch _ _ _ (bytes_bits (take (Z.to_nat i) (bb_buffer b))) (bits_be 8 y) (bytes_bits (drop (S (Z.to_nat i)) (bb_buffer b)))); [done| | | | | |done|].
  - apply list.Forall_insert; [apply Hb|done].
  - by rewrite length_insert.
  - by apply bytes_bits_lookup.
  - by apply bytes_bits_insert.
  - rewrite bytes_bits_length. lia.
  - rewrite bits_be_length. mlia.
Qed.
Lemma bit_buffer_new_ok buf n : bytes_ok buf -> 0 <= n <= 8 * blen buf -> bit_buffer_new buf n = Some (BitBuffer buf n) /\ bb_ok (BitBuffer buf n).
Proof.
  intros Hb Hn. unfold bit_buffer_new, calculate_nof_words, bits_per_word. rewrite (proj2 (Z.leb_le _ (blen buf))) by mlia. split; [done|]. by split.
Qed.
Lemma bb_first_spec b n : bb_ok b -> 0 <= n <= bb_size b -> exists b', bb_first b n = Some b' /\ bb_ok b' /\ bb_bits b' = take (Z.to_nat n) (bb_bits b).
Proof.
  intros Hb Hn. unfold bb_first. rewrite (proj2 (Z.leb_le n (bb_size b))) by lia. destruct (bit_buffer_new_ok (bb_buffer b) n) as [H1 H2]; [apply Hb|destruct Hb; lia|].
  eexists. split_and!; [exact H1|exact H2|]. unfold bb_bits. cbn [bb_buffer bb_size]. rewrite take_take. f_equal. lia.
Qed.
Lemma bytes_bits_drop k (w : bytes) : bytes_bits (drop k w) = drop (8 * k) (bytes_bits w).
Proof.
  destruct (decide (k <= length w)%nat) as [Hk|Hk].
  - rewrite <-(take_drop k w) at 2. rewrite bytes_bits_app. rewrite drop_app_length' by (rewrite bytes_bits_length, length_take; lia). done.
  - rewrite !drop_ge by (rewrite ?bytes_bits_length; lia). done.
Qed.
Lemma bytes_bits_take k (w : bytes) : bytes_bits (take k w) = take (8 * k) (bytes_bits w).
Proof.
  destruct (decide (k <= length w)%nat) as [Hk|Hk].
  - rewrite <-(take_drop k w) at 2. rewrite bytes_bits_app. rewrite take_app_length' by (rewrite bytes_bits_length, length_take; lia). done.
  - rewrite !take_ge by (rewrite ?bytes_bits_length; lia). done.
Qed.
Lemma bb_last_spec b n : bb_ok b -> 0 <= n <= bb_size b -> (bb_size b - n) mod 8 = 0 ->
  exists b', bb_last b n = Some b' /\ bb_ok b' /\ bb_bits b' = drop (Z.to_nat (bb_size b - n)) (bb_bits b).
Proof.
  intros [Hb Hsz] Hn Hm. unfold bb_last, bits_per_word. rewrite Hm. cbn [Z.eqb]. unfold blen in Hsz. set (k := (bb_size b - n) / 8). assert (bb_size b - n = 8 * k) as Hk by (unfold k; mlia).
  assert (n <= 8 * calculate_nof_words n < n + 8) as Hw by (unfold calculate_nof_words, bits_per_word; mlia). assert (0 <= k) as Hk0 by (unfold k; mlia).
  destruct (bit_buffer_new_ok (slice k (calculate_nof_words n) (bb_buffer b)) n) as [H1 H2].
  - unfold slice. apply list.Forall_take, list.Forall_drop. exact Hb.
  - unfold slice, blen. rewrite length_take, length_drop. lia.
  - eexists. split_and!; [exact H1|exact H2|]. unfold bb_bits, slice. cbn [bb_buffer bb_size]. rewrite bytes_bits_take, bytes_bits_drop, take_take, Nat.min_l by lia.
    rewrite skipn_firstn_comm. rewrite Hk. f_equal; [lia|]. f_equal. lia.
Qed.
Lemma bytes_bits_replicate k v x : bits_be 8 x = replicate 8 v -> bytes_bits (replicate k x) = replicate (8 * k) v.
Proof.
  intros Hx. induction k as [|k IH]; [done|]. change (replicate (S k) x) with (x :: replicate k x). rewrite bytes_bits_cons, Hx, IH, <-replicate_add. f_equal. lia.
Qed.
Lemma bb_zero_spec b : bb_ok b -> bb_ok (bb_zero b) /\ bb_size (bb_zero b) = bb_size b /\ bb_bits (bb_zero b) = replicate (Z.to_nat (bb_size b)) false.
Proof.
  intros [Hb Hsz]. unfold bb_zero. set (k := Z.to_nat _). unfold blen in Hsz. assert (bb_size b <= 8 * Z.of_nat k /\ (k <= length (bb_buffer b))%nat) as [Hk1 Hk2] by (unfold k, calculate_nof_words, bits_per_word; mlia).
  split_and!; [split; cbn [bb_buffer bb_size]| |].
  - apply Forall_app. split; [apply Forall_replicate; unfold is_u8; lia|by apply list.Forall_drop].
  - unfold blen. rewrite length_app, length_replicate, length_drop. lia.
  - done.
  - unfold bb_bits. cbn [bb_buffer bb_size]. rewrite bytes_bits_app, (bytes_bits_replicate k false 0) by done. rewrite take_app_le, take_replicate by (rewrite length_replicate; lia). f_equal. lia.
Qed.
Lemma bb_one_spec b : bb_ok b -> bb_ok (bb_one b) /\ bb_size (bb_one b) = bb_size b /\ bb_bits (bb_one b) = replicate (Z.to_nat (bb_size b)) true.
Proof.
  intros [Hb Hsz]. unfold bb_one, bb_nof_full_words, bits_per_word. set (q := bb_size b / 8). set (k := Z.to_nat q). unfold blen in Hsz. set (t := bb_size b - q * 8).
  assert (0 <= t < 8 /\ Z.of_nat k = q /\ (8 * k <= 8 * length (bb_buffer b))%nat) as (Ht & Hk & Hkl) by (unfold t, k, q; mlia).
  assert (bytes_ok (replicate k 255 ++ drop k (bb_buffer b))) as Hok by (apply Forall_app; split; [apply Forall_replicate; unfold is_u8; lia|by apply list.Forall_drop]).
  assert (length (replicate k 255 ++ drop k (bb_buffer b)) = length (bb_buffer b)) as Hlen by (rewrite length_app, length_replicate, length_drop; lia).
  destruct (t =? 0) eqn:E; breflect.
  - split_and!; [split; [exact Hok|]; unfold blen; cbn [bb_buffer bb_size]; lia|done|]. unfold bb_bits. cbn [bb_buffer bb_size].
    rewrite bytes_bits_app, (bytes_bits_replicate k true 255) by done. rewrite take_app_le, take_replicate by (rewrite length_replicate; lia). f_equal. lia.
  - split_and!; [split; cbn [bb_buffer bb_size]; [apply list.Forall_insert; [exact Hok|apply u8_ok]|unfold blen; rewrite length_insert; lia]|done|]. unfold bb_bits. cbn [bb_buffer bb_size].
    rewrite bytes_bits_insert by lia. rewrite (take_app_length' (replicate k 255)) by (by rewrite length_replicate). rewrite (bytes_bits_replicate k true 255) by done.
    assert (bits_be 8 (u8 (Z.shiftl (Z.shiftl 1 t - 1) (8 - t))) = replicate (Z.to_nat t) true ++ replicate (Z.to_nat (8 - t)) false) as ->.
    { destruct (byte_cases t ltac:(lia)) as [->|[->|[->|[->|[->|[->|[->|[->| ->]]]]]]]]; done || lia. }
    rewrite <-app_assoc, app_assoc, <-replicate_add. rewrite take_app_length' by (rewrite length_replicate; lia). f_equal. lia.
Qed.

(** A bit buffer implements a list of bits: filling, inserting and reading fields of up to
    eight bits at any position, whole bytes, and views of its begin and end. *)
Theorem bit_buffer_refines_bits b : bb_ok b ->
  (bb_ok (bb_zero b) /\ bb_bits (bb_zero b) = replicate (Z.to_nat (bb_size b)) false)
  /\ (bb_ok (bb_one b) /\ bb_bits (bb_one b) = replicate (Z.to_nat (bb_size b)) true)
  /\ (forall v s n, 0 <= s -> 0 < n <= 8 -> s + n <= bb_size b -> 0 <= v < 2 ^ n -> exists b', bb_insert b v s n = Some b' /\ patched b s (bits_be (Z.to_nat n) v) b')
  /\ (forall s n, 0 <= s -> 0 < n <= 8 -> s + n <= bb_size b -> exists v, bb_extract b s n = Some v /\ 0 <= v < 2 ^ n /\ bits_be (Z.to_nat n) v = take (Z.to_nat n) (drop (Z.to_nat s) (bb_bits b)))
  /\ (forall x i, is_u8 x -> 0 <= i < bb_nof_full_words b -> exists b', bb_set_byte b x i = Some b' /\ patched b (8 * i) (bits_be 8 x) b')
  /\ (forall n, 0 <= n <= bb_size b -> exists b', bb_first b n = Some b' /\ bb_ok b' /\ bb_bits b' = take (Z.to_nat n) (bb_bits b))
  /\ (forall n, 0 <= n <= bb_size b -> (bb_size b - n) mod 8 = 0 -> exists b', bb_last b n = Some b' /\ bb_ok b' /\ bb_bits b' = drop (Z.to_nat (bb_size b - n)) (bb_bits b)).
Proof.
  intros Hb. split_and!; [apply bb_zero_spec; done..|apply bb_one_spec; done|apply bb_one_spec; done|intros; by apply bb_insert_spec|intros; by apply bb_extract_spec|intros; by apply bb_set_byte_spec|intros; by apply bb_first_spec|intros; by apply bb_last_spec].
Qed.
