(* ===== verification/PhyPrg.v ===== *)
(** * Pseudo-random sequence generator

    lib/phy/upper/sequence_generators/pseudo_random_generator_impl.cpp and its header: the
    Gold sequence of TS 38.211 section 5.2.1, generated in steps of up to 24 bits.  The
    variants for vector instructions are left out; the generic code is modelled. *)
From S2P Require Import Prelude Bits BitBuffer.

(** ** Steps of the shift registers *)
Definition SEQUENCE_SEED_LEN : Z := 31.
Definition SEQUENCE_NC : nat := 1600.
Definition SEQUENCE_PAR_BITS : Z := 24.
Definition feedback_x1 (state : Z) : Z := Z.lxor state (Z.shiftr state 3).
Definition feedback_x2 (state : Z) : Z := Z.lxor (Z.lxor (Z.lxor state (Z.shiftr state 1)) (Z.shiftr state 2)) (Z.shiftr state 3).
Definition step_par_x1 (state par : Z) : Z :=
  let f := u32 (Z.shiftl (Z.land (feedback_x1 state) (Z.shiftl 1 par - 1)) (SEQUENCE_SEED_LEN - par)) in Z.lxor (Z.shiftr state par) f.
Definition step_x1 (state : Z) : Z :=
  let f := u32 (Z.shiftl (Z.land (feedback_x1 state) 1) (SEQUENCE_SEED_LEN - 1)) in Z.lxor (Z.shiftr state 1) f.
Definition step_par_x2 (state par : Z) : Z :=
  let f := u32 (Z.shiftl (Z.land (feedback_x2 state) (Z.shiftl 1 par - 1)) (SEQUENCE_SEED_LEN - par)) in Z.lxor (Z.shiftr state par) f.
Definition step_x2 (state : Z) : Z :=
  let f := u32 (Z.shiftl (Z.land (feedback_x2 state) 1) (SEQUENCE_SEED_LEN - 1)) in Z.lxor (Z.shiftr state 1) f.

(** ** State and initialisation *)
Record prg := Prg { prg_x1 : Z; prg_x2 : Z }.
Definition x1_init : Z := Nat.iter SEQUENCE_NC step_x1 1.
Definition x2_init : list Z := map (fun i => Nat.iter SEQUENCE_NC step_x2 (Z.shiftl 1 (Z.of_nat i))) (seq 0 31).
Definition x2_init_get (c_init : Z) : Z :=
  foldl (fun ret i => if Z.land (Z.shiftr c_init (Z.of_nat i)) 1 =? 0 then ret else Z.lxor ret (nth i x2_init 0)) 0 (seq 0 31).
Definition prg_init (c_init : Z) : prg := Prg x1_init (x2_init_get c_init).
Definition prg_init_state (st : prg) : prg := Prg (prg_x1 st) (prg_x2 st).
Definition prg_get_state (g : prg) : prg := Prg (prg_x1 g) (prg_x2 g).
Definition step (g : prg) : prg := Prg (step_x1 (prg_x1 g)) (step_x2 (prg_x2 g)).
Definition step_par (g : prg) (par : Z) : prg := Prg (step_par_x1 (prg_x1 g) par) (step_par_x2 (prg_x2 g) par).
Definition prg_word (g : prg) : Z := Z.lxor (prg_x1 g) (prg_x2 g).

(** ** Advance *)
Fixpoint advance_par (fuel : nat) (i count : Z) (g : prg) : option (Z * prg) :=
  match fuel with
  | O => None
  | S fuel => if i <? count - (SEQUENCE_PAR_BITS - 1) then advance_par fuel (i + SEQUENCE_PAR_BITS) count (step_par g SEQUENCE_PAR_BITS) else Some (i, g)
  end.
Definition prg_advance (count : Z) (g : prg) : option prg :=
  let* (i, g) := if SEQUENCE_PAR_BITS <=? count then advance_par (S (Z.to_nat count)) 0 count g else Some (0, g) in
  Some (Nat.iter (Z.to_nat (count - i)) step g).

(** ** Scrambling of unpacked bits, soft bits and floats

    [batch par f c l]: the values of a batch with the bits of [c] from the least significant one on. *)
Fixpoint xor_bits {A} (f : A -> bool -> A) (c : Z) (l : list A) : list A :=
  match l with [] => [] | x :: l => f x (negb (Z.land c 1 =? 0)) :: xor_bits f (Z.shiftr c 1) l end.
Fixpoint xor_batches {A} (f : A -> bool -> A) (par : Z) (batches : nat) (l : list A) (g : prg) : list A * list A * prg :=
  match batches with
  | O => ([], l, g)
  | S n =>
      let out := xor_bits f (prg_word g) (take (Z.to_nat par) l) in
      let '(rest, l, g) := xor_batches f par n (drop (Z.to_nat par) l) (step_par g par) in (out ++ rest, l, g)
  end.
(** [apply_xor(span<uint8_t>)]: batches of 16 bits, the remainder in one step. *)
Definition xor_byte (x : Z) (c : bool) : Z := Z.lxor x (Z.b2z c).
Definition prg_apply_xor_bytes (input : list Z) (g : prg) : list Z * prg :=
  let '(out, rest, g) := xor_batches xor_byte 16 (length input / 16) input g in
  (out ++ xor_bits xor_byte (prg_word g) rest, step_par g (Z.of_nat (length rest))).
(** [apply_xor(span<log_likelihood_ratio>)] and [generate]: batches of 24 bits, the remainder in single steps.  A float is given by its 32 bits. *)
Fixpoint xor_single {A} (f : A -> bool -> A) (l : list A) (g : prg) : list A * prg :=
  match l with
  | [] => ([], g)
  | x :: l => let '(out, g') := xor_single f l (step g) in (f x (negb (Z.land (prg_word g) 1 =? 0)) :: out, g')
  end.
Definition xor_24 {A} (f : A -> bool -> A) (input : list A) (g : prg) : list A * prg :=
  let '(out, rest, g) := xor_batches f SEQUENCE_PAR_BITS (length input / 24) input g in
  let '(out', g) := xor_single f rest g in (out ++ out', g).
Definition llr_sign (x : Z) (c : bool) : Z := x * (if c then -1 else 1).
Definition prg_apply_xor_llr (input : list Z) (g : prg) : list Z * prg := xor_24 llr_sign input g.
Definition float_sign (x : Z) (c : bool) : Z := Z.lxor x (if c then 0x80000000 else 0).
Definition prg_generate (length : nat) (value : Z) (g : prg) : list Z * prg := xor_24 float_sign (replicate length value) g.

(** ** Scrambling of packed bits *)
Definition reverse_lut : list Z := [
   0x00; 0x80; 0x40; 0xc0; 0x20; 0xa0; 0x60; 0xe0; 0x10; 0x90; 0x50; 0xd0; 0x30; 0xb0; 0x70; 0xf0; 0x08; 0x88; 0x48; 0xc8; 0x28; 0xa8; 0x68; 0xe8; 0x18; 0x98; 0x58; 0xd8; 0x38; 0xb8; 0x78; 0xf8;
   0x04; 0x84; 0x44; 0xc4; 0x24; 0xa4; 0x64; 0xe4; 0x14; 0x94; 0x54; 0xd4; 0x34; 0xb4; 0x74; 0xf4; 0x0c; 0x8c; 0x4c; 0xcc; 0x2c; 0xac; 0x6c; 0xec; 0x1c; 0x9c; 0x5c; 0xdc; 0x3c; 0xbc; 0x7c; 0xfc;
   0x02; 0x82; 0x42; 0xc2; 0x22; 0xa2; 0x62; 0xe2; 0x12; 0x92; 0x52; 0xd2; 0x32; 0xb2; 0x72; 0xf2; 0x0a; 0x8a; 0x4a; 0xca; 0x2a; 0xaa; 0x6a; 0xea; 0x1a; 0x9a; 0x5a; 0xda; 0x3a; 0xba; 0x7a; 0xfa;
   0x06; 0x86; 0x46; 0xc6; 0x26; 0xa6; 0x66; 0xe6; 0x16; 0x96; 0x56; 0xd6; 0x36; 0xb6; 0x76; 0xf6; 0x0e; 0x8e; 0x4e; 0xce; 0x2e; 0xae; 0x6e; 0xee; 0x1e; 0x9e; 0x5e; 0xde; 0x3e; 0xbe; 0x7e; 0xfe;
   0x01; 0x81; 0x41; 0xc1; 0x21; 0xa1; 0x61; 0xe1; 0x11; 0x91; 0x51; 0xd1; 0x31; 0xb1; 0x71; 0xf1; 0x09; 0x89; 0x49; 0xc9; 0x29; 0xa9; 0x69; 0xe9; 0x19; 0x99; 0x59; 0xd9; 0x39; 0xb9; 0x79; 0xf9;
   0x05; 0x85; 0x45; 0xc5; 0x25; 0xa5; 0x65; 0xe5; 0x15; 0x95; 0x55; 0xd5; 0x35; 0xb5; 0x75; 0xf5; 0x0d; 0x8d; 0x4d; 0xcd; 0x2d; 0xad; 0x6d; 0xed; 0x1d; 0x9d; 0x5d; 0xdd; 0x3d; 0xbd; 0x7d; 0xfd;
   0x03; 0x83; 0x43; 0xc3; 0x23; 0xa3; 0x63; 0xe3; 0x13; 0x93; 0x53; 0xd3; 0x33; 0xb3; 0x73; 0xf3; 0x0b; 0x8b; 0x4b; 0xcb; 0x2b; 0xab; 0x6b; 0xeb; 0x1b; 0x9b; 0x5b; 0xdb; 0x3b; 0xbb; 0x7b; 0xfb;
   0x07; 0x87; 0x47; 0xc7; 0x27; 0xa7; 0x67; 0xe7; 0x17; 0x97; 0x57; 0xd7; 0x37; 0xb7; 0x77; 0xf7; 0x0f; 0x8f; 0x4f; 0xcf; 0x2f; 0xaf; 0x6f; 0xef; 0x1f; 0x9f; 0x5f; 0xdf; 0x3f; 0xbf; 0x7f; 0xff].
Definition reverse_byte (x : Z) : Z := nth (Z.to_nat x) reverse_lut 0.
Fixpoint packed_batch (n : nat) (i_byte c : Z) (input out : bit_buffer) : option bit_buffer :=
  match n with
  | O => Some out
  | S n =>
      let* x := bb_get_byte input i_byte in
      let* out := bb_set_byte out (Z.lxor x (reverse_byte (Z.land c (Z.ones 8)))) i_byte in
      packed_batch n (i_byte + 1) (Z.shiftr c 8) input out
  end.
Fixpoint packed_batches (n : nat) (i_byte : Z) (input out : bit_buffer) (g : prg) : option (bit_buffer * prg) :=
  match n with
  | O => Some (out, g)
  | S n => let* out := packed_batch 3 i_byte (prg_word g) input out in packed_batches n (i_byte + 3) input out (step_par g 24)
  end.
Fixpoint packed_remainder (fuel : nat) (remainder i_bit c : Z) (input out : bit_buffer) : option (Z * bit_buffer) :=
  match fuel with
  | O => None
  | S fuel =>
      if remainder =? 0 then Some (remainder, out)
      else
        let word_size := Z.min remainder 8 in
        let* x := bb_extract input i_bit word_size in
        let* out := bb_insert out (Z.lxor x (Z.shiftr (reverse_byte (Z.land c (Z.ones 8))) (8 - word_size))) i_bit word_size in
        packed_remainder fuel (remainder - word_size) (i_bit + word_size) (Z.shiftr c word_size) input out
  end.
Definition prg_apply_xor_packed (input out : bit_buffer) (g : prg) : option (bit_buffer * prg) :=
  if negb (bb_size input =? bb_size out) then None
  else
    let* (out, g) := packed_batches (Z.to_nat (bb_size input / 24)) 0 input out g in
    let remainder := bb_size input - (bb_size input / SEQUENCE_PAR_BITS) * SEQUENCE_PAR_BITS in
    let* (remainder, out) := packed_remainder 4 remainder ((bb_size input / 24) * 24) (prg_word g) input out in
    Some (out, step_par g remainder).

(** ** The sequences of TS 38.211 *)
Definition gold_x1 (x : nat -> bool) : Prop :=
  (forall i, (i < 31)%nat -> x i = bool_decide (i = 0)%nat) /\ forall n, x (n + 31)%nat = xorb (x (n + 3)%nat) (x n).
Definition gold_x2 (c_init : Z) (x : nat -> bool) : Prop :=
  (forall i, (i < 31)%nat -> x i = Z.testbit c_init (Z.of_nat i)) /\ forall n, x (n + 31)%nat = xorb (xorb (xorb (x (n + 3)%nat) (x (n + 2)%nat)) (x (n + 1)%nat)) (x n).
Definition gold (x1 x2 : nat -> bool) (n : nat) : bool := xorb (x1 (n + 1600)%nat) (x2 (n + 1600)%nat).

(** A register holds 31 elements of a sequence. *)
Definition reg (x : nat -> bool) (n : nat) (s : Z) : Prop := 0 <= s < 2 ^ 31 /\ forall i, (i < 31)%nat -> Z.testbit s (Z.of_nat i) = x (n + i)%nat.

Lemma bits_lt s n : 0 <= n -> 0 <= s -> (forall i, n <= i -> Z.testbit s i = false) -> s < 2 ^ n.
Proof.
  intros Hn Hs Hb. assert (s mod 2 ^ n = s) as <-; [|apply Z.mod_pos_bound; lia]. apply Z.bits_inj'. intros i Hi.
  destruct (decide (i < n)); [by rewrite Z.mod_pow2_bits_low by lia|]. rewrite Z.mod_pow2_bits_high by lia. symmetry. apply Hb. lia.
Qed.
Lemma bits_above s n i : 0 <= s < 2 ^ n -> 0 <= n <= i -> Z.testbit s i = false.
Proof. apply testbit_high. Qed.
(** The feedback of [par] bits at once. *)
Lemma feedback_bit f par i : 0 <= par <= 31 -> 0 <= i ->
  Z.testbit (u32 (Z.shiftl (Z.land f (Z.shiftl 1 par - 1)) (31 - par))) i = (31 - par <=? i) && (i <? 31) && Z.testbit f (i + par - 31).
Proof.
  intros Hp Hi. rewrite Z.shiftl_1_l, Z.sub_1_r, <-Z.ones_equiv. unfold u32. destruct (decide (i < 32)) as [Hlt|].
  - rewrite Z.mod_pow2_bits_low, Z.shiftl_spec, Z.land_spec by lia. replace (i - (31 - par)) with (i + par - 31) by lia. destruct (31 - par <=? i) eqn:E1; breflect; cbn [andb].
    + destruct (i <? 31) eqn:E2; breflect; [by rewrite Z.ones_spec_low, andb_true_r by lia|]. rewrite Z.ones_spec_high by lia. by rewrite andb_false_r.
    + by rewrite (Z.testbit_neg_r f) by lia.
  - rewrite Z.mod_pow2_bits_high by lia. rewrite (proj2 (Z.ltb_ge i 31)) by lia. by rewrite andb_false_r.
Qed.
Lemma step_par_reg x n s par f : reg x n s -> 0 <= par <= 28 ->
  (forall i, (i < 28)%nat -> Z.testbit f (Z.of_nat i) = x (n + i + 31)%nat) ->
  reg x (n + Z.to_nat par) (Z.lxor (Z.shiftr s par) (u32 (Z.shiftl (Z.land f (Z.shiftl 1 par - 1)) (31 - par)))).
Proof.
  intros [Hs Hb] Hp Hf. set (F := u32 _). assert (0 <= F) as HF by (apply Z.mod_pos_bound; lia). assert (0 <= Z.lxor (Z.shiftr s par) F) as H0 by (apply Z.lxor_nonneg; split; intros _; [done|apply Z.shiftr_nonneg; lia]).
  split; [split; [done|]|].
  - apply bits_lt; [lia|done|]. intros i Hi. unfold F. rewrite Z.lxor_spec, Z.shiftr_spec, feedback_bit, (bits_above s 31), (proj2 (Z.ltb_ge i 31)) by lia. by rewrite andb_false_r.
  - intros i Hi. unfold F. rewrite Z.lxor_spec, Z.shiftr_spec, feedback_bit, (proj2 (Z.ltb_lt (Z.of_nat i) 31)) by lia. destruct (31 - par <=? Z.of_nat i) eqn:E; breflect; cbn [andb].
    + rewrite (bits_above s 31), xorb_false_l by lia. replace (Z.of_nat i + par - 31) with (Z.of_nat (i + Z.to_nat par - 31)) by lia. rewrite Hf by lia. f_equal. lia.
    + rewrite xorb_false_r. replace (Z.of_nat i + par) with (Z.of_nat (i + Z.to_nat par)) by lia. rewrite Hb by lia. f_equal. lia.
Qed.
Lemma step_par_x1_reg x n s par : (forall n, x (n + 31)%nat = xorb (x (n + 3)%nat) (x n)) -> reg x n s -> 0 <= par <= 28 -> reg x (n + Z.to_nat par) (step_par_x1 s par).
Proof.
  intros Hx Hs Hp. apply step_par_reg; [done|done|]. intros i Hi. unfold feedback_x1. destruct Hs as [_ Hb]. rewrite Z.lxor_spec, Z.shiftr_spec by lia.
  replace (Z.of_nat i + 3) with (Z.of_nat (i + 3)) by lia. rewrite !Hb, Hx, Nat.add_assoc, xorb_comm by lia. done.
Qed.
Lemma step_par_x2_reg x n s par : (forall n, x (n + 31)%nat = xorb (xorb (xorb (x (n + 3)%nat) (x (n + 2)%nat)) (x (n + 1)%nat)) (x n)) ->
  reg x n s -> 0 <= par <= 28 -> reg x (n + Z.to_nat par) (step_par_x2 s par).
Proof.
  intros Hx Hs Hp. apply step_par_reg; [done|done|]. intros i Hi. unfold feedback_x2. destruct Hs as [_ Hb]. rewrite !Z.lxor_spec, !Z.shiftr_spec by lia.
  replace (Z.of_nat i + 3) with (Z.of_nat (i + 3)) by lia. replace (Z.of_nat i + 2) with (Z.of_nat (i + 2)) by lia. replace (Z.of_nat i + 1) with (Z.of_nat (i + 1)) by lia.
  rewrite !Hb, Hx, !Nat.add_assoc by lia. destruct (x (n + i)%nat), (x (n + i + 1)%nat), (x (n + i + 2)%nat), (x (n + i + 3)%nat); done.
Qed.
Lemma step_x1_par s : step_x1 s = step_par_x1 s 1.
Proof. done. Qed.
Lemma step_x2_par s : step_x2 s = step_par_x2 s 1.
Proof. done. Qed.

(** ** Initialisation *)
Lemma iter_x1_reg x s k : gold_x1 x -> reg x 0 s -> reg x k (Nat.iter k step_x1 s).
Proof.
  intros Hx Hs. induction k as [|k IH]; [done|]. change (Nat.iter (S k) step_x1 s) with (step_x1 (Nat.iter k step_x1 s)). rewrite step_x1_par. replace (S k) with (k + Z.to_nat 1)%nat by lia.
  apply step_par_x1_reg; [apply Hx|done|lia].
Qed.
Lemma iter_x2_reg c x s k : gold_x2 c x -> reg x 0 s -> reg x k (Nat.iter k step_x2 s).
Proof.
  intros Hx Hs. induction k as [|k IH]; [done|]. change (Nat.iter (S k) step_x2 s) with (step_x2 (Nat.iter k step_x2 s)). rewrite step_x2_par. replace (S k) with (k + Z.to_nat 1)%nat by lia.
  apply step_par_x2_reg; [apply Hx|done|lia].
Qed.
(** The step is linear, so the state of a seed is the sum of the states of its bits. *)
Lemma step_x2_linear a b : step_x2 (Z.lxor a b) = Z.lxor (step_x2 a) (step_x2 b).
Proof.
  apply Z.bits_inj'. intros i Hi. rewrite !step_x2_par. unfold step_par_x2, feedback_x2, SEQUENCE_SEED_LEN. rewrite !Z.lxor_spec, !feedback_bit, !Z.shiftr_spec, !Z.lxor_spec by lia.
  destruct ((31 - 1 <=? i) && (i <? 31)) eqn:E; cbn [andb].
  - assert (i = 30) as -> by (breflect; lia). rewrite !Z.shiftr_spec by lia. rewrite !Z.lxor_spec. cbn [Z.add Z.sub Z.opp Z.pos_sub Pos.add Pos.succ Pos.add_carry].
    repeat match goal with |- context [Z.testbit ?x ?y] => destruct (Z.testbit x y) end; done.
  - rewrite !xorb_false_r. done.
Qed.
Lemma iter_x2_linear k a b : Nat.iter k step_x2 (Z.lxor a b) = Z.lxor (Nat.iter k step_x2 a) (Nat.iter k step_x2 b).
Proof. induction k as [|k IH]; [done|]. change (step_x2 (Nat.iter k step_x2 (Z.lxor a b)) = Z.lxor (step_x2 (Nat.iter k step_x2 a)) (step_x2 (Nat.iter k step_x2 b))). by rewrite IH, step_x2_linear. Qed.
Lemma iter_x2_zero k : Nat.iter k step_x2 0 = 0.
Proof. induction k as [|k IH]; [done|]. change (step_x2 (Nat.iter k step_x2 0) = 0). by rewrite IH. Qed.
Lemma x2_init_nth i : (i < 31)%nat -> nth i x2_init 0 = Nat.iter SEQUENCE_NC step_x2 (Z.shiftl 1 (Z.of_nat i)).
Proof.
  intros Hi. unfold x2_init. set (f := fun i : nat => Nat.iter SEQUENCE_NC step_x2 (Z.shiftl 1 (Z.of_nat i))). rewrite (nth_indep _ 0 (f 0%nat)) by (by rewrite length_map, length_seq).
  by rewrite map_nth, seq_nth by done.
Qed.
Lemma mod_pow2_succ c k : c mod 2 ^ Z.of_nat (S k) = Z.lxor (c mod 2 ^ Z.of_nat k) (if Z.testbit c (Z.of_nat k) then Z.shiftl 1 (Z.of_nat k) else 0).
Proof.
  apply Z.bits_inj'. intros i Hi. rewrite Z.lxor_spec. assert (Z.testbit (if Z.testbit c (Z.of_nat k) then Z.shiftl 1 (Z.of_nat k) else 0) i = (i =? Z.of_nat k) && Z.testbit c (Z.of_nat k)) as ->.
  { destruct (Z.testbit c (Z.of_nat k)); [|by rewrite Z.testbit_0_l, andb_false_r]. rewrite Z.shiftl_1_l, Z.pow2_bits_eqb, andb_true_r by lia. apply Z.eqb_sym. }
  destruct (decide (i < Z.of_nat k)); [rewrite !Z.mod_pow2_bits_low, (proj2 (Z.eqb_neq i _)) by lia; by rewrite xorb_false_r|].
  rewrite (Z.mod_pow2_bits_high c (Z.of_nat k)) by lia. destruct (decide (i = Z.of_nat k)) as [->|]; [rewrite Z.mod_pow2_bits_low, Z.eqb_refl by lia; done|].
  rewrite Z.mod_pow2_bits_high, (proj2 (Z.eqb_neq i _)) by lia. done.
Qed.
Lemma x2_init_get_iter c : x2_init_get c = Nat.iter SEQUENCE_NC step_x2 (c mod 2 ^ 31).
Proof.
  unfold x2_init_get. change 31 with (Z.of_nat 31). assert (31 <= 31)%nat as Hk by lia. revert Hk. generalize 31%nat at 1 3 4 as k. induction k as [|k IH]; intros Hk.
  - cbn [seq foldl]. change (2 ^ Z.of_nat 0) with 1. by rewrite Z.mod_1_r, iter_x2_zero.
  - rewrite seq_S, foldl_app, IH by lia. cbn [foldl Nat.add]. rewrite mod_pow2_succ, iter_x2_linear, x2_init_nth by lia.
    assert ((Z.land (Z.shiftr c (Z.of_nat k)) 1 =? 0) = negb (Z.testbit c (Z.of_nat k))) as ->.
    { change 1 with (Z.ones 1). rewrite Z.land_ones, Z.shiftr_div_pow2 by lia. change (2 ^ 1) with 2. rewrite Zmod_even, <-Z.negb_odd, <-Z.bit0_odd, Z.div_pow2_bits by lia. by destruct (Z.testbit c (0 + Z.of_nat k)) eqn:E; rewrite Z.add_0_l in E; rewrite E. }
    destruct (Z.testbit c (Z.of_nat k)); cbn [negb]; [done|]. by rewrite iter_x2_zero, Z.lxor_0_r.
Qed.

(** ** Bits of bytes *)
Lemma bits_be_lxor n a b : bits_be n (Z.lxor a b) = zip_with xorb (bits_be n a) (bits_be n b).
Proof. induction n as [|n IH]; [done|]. cbn [bits_be zip_with]. by rewrite Z.lxor_spec, IH. Qed.
Lemma reverse_byte_bits y : 0 <= y < 256 -> bits_be 8 (reverse_byte y) = map (fun i => Z.testbit y (Z.of_nat i)) (seq 0 8) /\ is_u8 (reverse_byte y).
Proof.
  intros Hy. assert (forallb (fun k => bool_decide (bits_be 8 (reverse_byte (Z.of_nat k)) = map (fun i => Z.testbit (Z.of_nat k) (Z.of_nat i)) (seq 0 8)) && (0 <=? reverse_byte (Z.of_nat k)) && (reverse_byte (Z.of_nat k) <? 256)) (seq 0 256) = true) as Hall by (vm_compute; done).
  rewrite forallb_forall in Hall. specialize (Hall (Z.to_nat y)). rewrite Z2Nat.id in Hall by lia. rewrite in_seq in Hall. specialize (Hall ltac:(lia)). apply andb_true_iff in Hall as [Hall H3]. apply andb_true_iff in Hall as [H1 H2].
  apply bool_decide_eq_true in H1. split; [done|]. unfold is_u8. breflect. lia.
Qed.
Lemma lxor_lt a b n : 0 <= n -> 0 <= a < 2 ^ n -> 0 <= b < 2 ^ n -> 0 <= Z.lxor a b < 2 ^ n.
Proof.
  intros Hn Ha Hb. assert (0 <= Z.lxor a b) by (apply Z.lxor_nonneg; lia). split; [done|]. apply bits_lt; [done..|]. intros i Hi. by rewrite Z.lxor_spec, (bits_above a n), (bits_above b n) by lia.
Qed.
(** The first [n] bits of the reversed low byte of a word are its [n] lowest bits. *)
Lemma reversed_field w n : 0 < n <= 8 ->
  let r := Z.shiftr (reverse_byte (Z.land w (Z.ones 8))) (8 - n) in 0 <= r < 2 ^ n /\ bits_be (Z.to_nat n) r = map (fun i => Z.testbit w (Z.of_nat i)) (seq 0 (Z.to_nat n)).
Proof.
  intros Hn r. assert (0 <= Z.land w (Z.ones 8) < 256) as Hw by (rewrite Z.land_ones by lia; apply Z.mod_pos_bound; lia). destruct (reverse_byte_bits _ Hw) as [Hb Hr]. unfold is_u8 in Hr.
  unfold r. rewrite Z.shiftr_div_pow2 by lia. split; [split; [apply Z.div_pos; lia|apply Z.div_lt_upper_bound; [lia|]; rewrite <-Z.pow_add_r by lia; replace (8 - n + n) with 8 by lia; lia]|].
  assert (8%nat = (Z.to_nat n + Z.to_nat (8 - n))%nat) as H8 by lia. rewrite H8, bits_be_split, seq_app, map_app, Z2Nat.id in Hb by lia. apply app_inj_1 in Hb as [-> _]; [|by rewrite bits_be_length, length_map, length_seq].
  apply map_ext_in. intros i Hi. rewrite in_seq in Hi. rewrite Z.land_spec, Z.ones_spec_low, andb_true_r by lia. done.
Qed.

Section Gold.
Context (c_init : Z) (x1 x2 : nat -> bool) (Hx1 : gold_x1 x1) (Hx2 : gold_x2 c_init x2).
Let c : nat -> bool := gold x1 x2.

(** The generator is at position [n] of the sequence. *)
Definition at_pos (n : nat) (g : prg) : Prop := reg x1 (n + 1600) (prg_x1 g) /\ reg x2 (n + 1600) (prg_x2 g).
Lemma init_pos : at_pos 0 (prg_init c_init).
Proof.
  split; cbn [prg_init prg_x1 prg_x2 Nat.add].
  - apply (iter_x1_reg x1 1 SEQUENCE_NC Hx1). split; [lia|]. intros i Hi. rewrite (proj1 Hx1) by done. cbn [Nat.add]. destruct i as [|i]; [done|]. rewrite bool_decide_false by lia. by rewrite (bits_above 1 1) by lia.
  - rewrite x2_init_get_iter. apply (iter_x2_reg c_init x2 _ SEQUENCE_NC Hx2). split; [apply Z.mod_pos_bound; lia|]. intros i Hi. rewrite (proj1 Hx2) by done. by rewrite Z.mod_pow2_bits_low by lia.
Qed.
Lemma step_par_pos n g par : at_pos n g -> 0 <= par <= 28 -> at_pos (n + Z.to_nat par) (step_par g par).
Proof.
  intros [H1 H2] Hp. split; cbn [step_par prg_x1 prg_x2]; replace (n + Z.to_nat par + 1600)%nat with (n + 1600 + Z.to_nat par)%nat by lia.
  - by apply step_par_x1_reg; [apply Hx1|..].
  - by apply step_par_x2_reg; [apply Hx2|..].
Qed.
Lemma step_pos n g : at_pos n g -> at_pos (S n) (step g).
Proof. intros H. replace (S n) with (n + Z.to_nat 1)%nat by lia. apply (step_par_pos n g 1 H). lia. Qed.
Lemma steps_pos n g k : at_pos n g -> at_pos (n + k) (Nat.iter k step g).
Proof. intros H. induction k as [|k IH]; [by rewrite Nat.add_0_r|]. rewrite Nat.add_succ_r. by apply step_pos. Qed.
Lemma word_bit n g i : at_pos n g -> (i < 31)%nat -> Z.testbit (prg_word g) (Z.of_nat i) = c (n + i)%nat.
Proof.
  intros [[_ H1] [_ H2]] Hi. unfold prg_word, c, gold. rewrite Z.lxor_spec, H1, H2 by done. replace (n + i + 1600)%nat with (n + 1600 + i)%nat by lia. done.
Qed.

Lemma advance_par_pos fuel : forall i count n g, at_pos (n + Z.to_nat i) g -> 0 <= i <= count -> (Z.to_nat (count - i) < fuel)%nat ->
  exists i' g', advance_par fuel i count g = Some (i', g') /\ at_pos (n + Z.to_nat i') g' /\ i' <= count /\ 0 <= i'.
Proof.
  induction fuel as [|fuel IH]; intros i count n g Hg Hi Hf; [lia|]. cbn [advance_par]. unfold SEQUENCE_PAR_BITS in *. destruct (i <? count - (24 - 1)) eqn:E; breflect.
  - apply IH; [|lia|lia]. replace (n + Z.to_nat (i + 24))%nat with (n + Z.to_nat i + Z.to_nat 24)%nat by lia. apply step_par_pos; [done|lia].
  - exists i, g. split_and!; [done..|lia|lia].
Qed.
Lemma advance_pos n g k : at_pos n g -> 0 <= k -> exists g', prg_advance k g = Some g' /\ at_pos (n + Z.to_nat k) g'.
Proof.
  intros Hg Hk. unfold prg_advance.
  assert (exists i g', (if SEQUENCE_PAR_BITS <=? k then advance_par (S (Z.to_nat k)) 0 k g else Some (0, g)) = Some (i, g') /\ at_pos (n + Z.to_nat i) g' /\ i <= k /\ 0 <= i) as (i & g' & -> & Hg' & Hi & Hi0).
  { destruct (SEQUENCE_PAR_BITS <=? k); [apply advance_par_pos; [by rewrite Nat.add_0_r|lia|lia]|]. exists 0, g. split_and!; [done|by rewrite Nat.add_0_r|lia|lia]. }
  eexists. split; [done|]. replace (n + Z.to_nat k)%nat with (n + Z.to_nat i + Z.to_nat (k - i))%nat by lia. by apply steps_pos.
Qed.

(** The values from position [n] on, each with its bit of the sequence. *)
Definition scrambled {A} (f : A -> bool -> A) (n : nat) (l : list A) : list A := imap (fun i x => f x (c (n + i)%nat)) l.
Lemma scrambled_cons {A} (f : A -> bool -> A) n x l : scrambled f n (x :: l) = f x (c n) :: scrambled f (S n) l.
Proof. unfold scrambled. rewrite imap_cons, Nat.add_0_r. f_equal. apply imap_ext. intros i y _. cbn. do 2 f_equal. lia. Qed.
Lemma scrambled_app {A} (f : A -> bool -> A) n l1 l2 : scrambled f n (l1 ++ l2) = scrambled f n l1 ++ scrambled f (n + length l1) l2.
Proof. unfold scrambled. rewrite imap_app. f_equal. apply imap_ext. intros i y _. cbn. do 2 f_equal. lia. Qed.
Lemma low_bit w : negb (Z.land w 1 =? 0) = Z.testbit w 0.
Proof. change 1 with (Z.ones 1). rewrite Z.land_ones by lia. change (2 ^ 1) with 2. rewrite Zmod_odd, <-Z.bit0_odd. by destruct (Z.testbit w 0). Qed.
Lemma xor_bits_scrambled {A} (f : A -> bool -> A) l : forall w n, (forall i, (i < length l)%nat -> Z.testbit w (Z.of_nat i) = c (n + i)%nat) -> xor_bits f w l = scrambled f n l.
Proof.
  induction l as [|x l IH]; intros w n Hw; [done|]. cbn [xor_bits]. rewrite scrambled_cons, low_bit. pose proof (Hw 0%nat ltac:(cbn; lia)) as H0. rewrite Nat.add_0_r in H0. change (Z.of_nat 0) with 0 in H0. rewrite H0. f_equal.
  apply IH. intros i Hi. rewrite Z.shiftr_spec by lia. replace (Z.of_nat i + 1) with (Z.of_nat (S i)) by lia. rewrite Hw by (cbn; lia). f_equal. lia.
Qed.
Lemma xor_batches_scrambled {A} (f : A -> bool -> A) par k : forall l n g, at_pos n g -> 0 < par <= 28 -> (k * Z.to_nat par <= length l)%nat ->
  exists g', xor_batches f par k l g = (scrambled f n (take (k * Z.to_nat par) l), drop (k * Z.to_nat par) l, g') /\ at_pos (n + k * Z.to_nat par) g'.
Proof.
  induction k as [|k IH]; intros l n g Hg Hp Hl.
  { cbn [xor_batches Nat.mul]. exists g. rewrite Nat.add_0_r. split; [by rewrite drop_0|done]. }
  cbn [xor_batches]. destruct (IH (drop (Z.to_nat par) l) (n + Z.to_nat par)%nat (step_par g par)) as (g' & -> & Hg'); [apply step_par_pos; [done|lia]|done|rewrite length_drop; cbn in Hl; lia|].
  exists g'. split; [|by replace (n + S k * Z.to_nat par)%nat with (n + Z.to_nat par + k * Z.to_nat par)%nat by (cbn; lia)].
  rewrite (xor_bits_scrambled f _ _ n).
  - rewrite drop_drop. cbn [Nat.mul]. f_equal. f_equal. rewrite <-take_take_drop, scrambled_app, length_take. do 2 f_equal. cbn in Hl. lia.
  - intros i Hi. rewrite length_take in Hi. apply word_bit; [done|lia].
Qed.
Lemma xor_single_scrambled {A} (f : A -> bool -> A) l : forall n g, at_pos n g -> exists g', xor_single f l g = (scrambled f n l, g') /\ at_pos (n + length l) g'.
Proof.
  induction l as [|x l IH]; intros n g Hg; [exists g; rewrite Nat.add_0_r; done|]. cbn [xor_single]. destruct (IH (S n) (step g) (step_pos n g Hg)) as (g' & -> & Hg'). exists g'. split.
  - rewrite scrambled_cons, low_bit. pose proof (word_bit n g 0 Hg ltac:(lia)) as H0. rewrite Nat.add_0_r in H0. change (Z.of_nat 0) with 0 in H0. by rewrite H0.
  - cbn [length]. by rewrite Nat.add_succ_r.
Qed.
Lemma xor_24_scrambled {A} (f : A -> bool -> A) l n g : at_pos n g -> exists g', xor_24 f l g = (scrambled f n l, g') /\ at_pos (n + length l) g'.
Proof.
  intros Hg. unfold xor_24. pose proof (Nat.div_mod_eq (length l) 24) as Hd. set (k := (length l / 24)%nat) in *. assert (k * 24 <= length l)%nat as Hk by lia.
  destruct (xor_batches_scrambled f SEQUENCE_PAR_BITS k l n g Hg) as (g1 & -> & Hg1); [unfold SEQUENCE_PAR_BITS; lia|exact Hk|]. change (Z.to_nat SEQUENCE_PAR_BITS) with 24%nat in *.
  destruct (xor_single_scrambled f (drop (k * 24) l) _ g1 Hg1) as (g2 & -> & Hg2). exists g2. rewrite length_drop in Hg2. replace (n + k * 24 + (length l - k * 24))%nat with (n + length l)%nat in Hg2 by lia.
  split; [|done]. rewrite <-(take_drop (k * 24) l) at 3. rewrite scrambled_app, length_take, Nat.min_l by lia. done.
Qed.
Lemma apply_xor_bytes_scrambled l n g : at_pos n g -> exists g', prg_apply_xor_bytes l g = (scrambled xor_byte n l, g') /\ at_pos (n + length l) g'.
Proof.
  intros Hg. unfold prg_apply_xor_bytes. pose proof (Nat.div_mod_eq (length l) 16) as Hd. pose proof (Nat.mod_upper_bound (length l) 16 ltac:(lia)) as Hm. set (k := (length l / 16)%nat) in *. assert (k * 16 <= length l)%nat as Hk by lia.
  destruct (xor_batches_scrambled xor_byte 16 k l n g Hg ltac:(lia) Hk) as (g1 & -> & Hg1). change (Z.to_nat 16) with 16%nat in *. eexists. split.
  - f_equal. rewrite (xor_bits_scrambled xor_byte (drop (k * 16) l) (prg_word g1) (n + k * 16)).
    + rewrite <-(take_drop (k * 16) l) at 3. rewrite scrambled_app, length_take, Nat.min_l by lia. done.
    + intros i Hi. rewrite length_drop in Hi. apply word_bit; [done|lia].
  - rewrite length_drop. replace (n + length l)%nat with (n + k * 16 + Z.to_nat (Z.of_nat (length l - k * 16)))%nat by lia. apply step_par_pos; [done|lia].
Qed.

(** Packed bits *)
Lemma scrambled_length {A} (f : A -> bool -> A) n l : length (scrambled f n l) = length l.
Proof. apply length_imap. Qed.
Lemma scrambled_zip n (l : list bool) : scrambled xorb n l = zip_with xorb l (map (fun i => c (n + i)%nat) (seq 0 (length l))).
Proof.
  revert n. induction l as [|b l IH]; intros n; [done|]. rewrite scrambled_cons, IH. cbn [length seq map zip_with]. rewrite Nat.add_0_r. f_equal. f_equal. rewrite <-seq_shift, map_map. apply map_ext. intros i. f_equal. lia.
Qed.
Lemma scrambled_field n (l : list bool) s m : (s + m <= length l)%nat ->
  take m (drop s (scrambled xorb n l)) = zip_with xorb (take m (drop s l)) (map (fun i => c (n + s + i)%nat) (seq 0 m)).
Proof.
  intros Hl. rewrite <-(take_drop s l) at 1. rewrite scrambled_app. rewrite drop_app_length' by (rewrite scrambled_length, length_take; lia). rewrite length_take, Nat.min_l by lia.
  rewrite <-(take_drop m (drop s l)) at 1. rewrite scrambled_app. rewrite take_app_length' by (rewrite scrambled_length, length_take, length_drop; lia).
  rewrite scrambled_zip. do 3 f_equal. rewrite length_take, length_drop. lia.
Qed.
Section Packed.
Context (input out0 : bit_buffer) (Hin : bb_ok input) (Hsize : bb_size out0 = bb_size input) (Hout0 : bb_ok out0) (n : nat).
Let S : list bool := scrambled xorb n (bb_bits input).
(** The first [p] bits are written. *)
Definition written (p : nat) (out : bit_buffer) : Prop := bb_ok out /\ bb_size out = bb_size input /\ bb_bits out = take p S ++ drop p (bb_bits out0).
Lemma S_length : length S = Z.to_nat (bb_size input).
Proof. unfold S. by rewrite scrambled_length, bb_bits_length. Qed.
Lemma written_patch p out s F out' : written p out -> s = Z.of_nat p -> F = take (length F) (drop p S) -> (p + length F <= Z.to_nat (bb_size input))%nat -> patched out s F out' -> written (p + length F) out'.
Proof.
  intros (Hok & Hsz & Hbits) -> HF Hle (Hok' & Hsz' & Hbits'). pose proof S_length as HS. assert (length (bb_bits out0) = Z.to_nat (bb_size input)) as HO by (rewrite bb_bits_length by done; by rewrite Hsize).
  split_and!; [done|congruence|]. rewrite Hbits', Hbits, Nat2Z.id. rewrite take_app_length' by (rewrite length_take; lia). rewrite drop_app_add' by (rewrite length_take; lia). rewrite drop_drop.
  rewrite app_assoc. f_equal. rewrite HF at 1. apply take_take_drop.
Qed.
Lemma packed_batch_written k : forall w i out, written (Z.to_nat (8 * i)) out -> 0 <= i -> (k <= 3)%nat -> 8 * (i + Z.of_nat k) <= bb_size input ->
  (forall j, (j < 8 * k)%nat -> Z.testbit w (Z.of_nat j) = c (n + Z.to_nat (8 * i) + j)%nat) ->
  exists out', packed_batch k i w input out = Some out' /\ written (Z.to_nat (8 * (i + Z.of_nat k))) out'.
Proof.
  induction k as [|k IH]; intros w i out Hw Hi Hk Hle Hbits.
  { exists out. split; [done|]. by rewrite Z.add_0_r. }
  cbn [packed_batch]. destruct (bb_get_byte_spec input i Hin) as (x & -> & Hx & Hxb); [unfold bb_nof_full_words, bits_per_word; mlia|]. pose proof Hw as (Hok & Hsz & _).
  destruct (reversed_field w 8 ltac:(lia)) as [Hr Hrb]. rewrite Z.sub_diag, Z.shiftr_0_r in Hr, Hrb. set (r := reverse_byte _) in *.
  assert (is_u8 (Z.lxor x r)) as Hxr by (apply (lxor_lt x r 8); [lia|exact Hx|exact Hr]).
  destruct (bb_set_byte_spec out (Z.lxor x r) i Hok Hxr) as (out1 & -> & Hp); [unfold bb_nof_full_words, bits_per_word; rewrite Hsz; mlia|].
  assert (written (Z.to_nat (8 * i) + length (bits_be 8 (Z.lxor x r))) out1) as Hw1.
  { eapply (written_patch _ out _ _ _ Hw); [|..|exact Hp]; rewrite ?bits_be_length; [lia| |lia]. unfold S. rewrite scrambled_field by (rewrite bb_bits_length by done; lia). rewrite bits_be_lxor, Hxb. f_equal.
    change 8%nat with (Z.to_nat 8) at 1. rewrite Hrb. apply map_ext_in. intros j Hj. rewrite in_seq in Hj. change (Z.to_nat 8) with 8%nat in Hj. rewrite Hbits by lia. done. }
  rewrite bits_be_length in Hw1. replace (Z.to_nat (8 * i) + 8)%nat with (Z.to_nat (8 * (i + 1))) in Hw1 by lia.
  destruct (IH (Z.shiftr w 8) (i + 1) out1 Hw1 ltac:(lia) ltac:(lia) ltac:(lia)) as (out' & -> & Hw').
  - intros j Hj. rewrite Z.shiftr_spec by lia. replace (Z.of_nat j + 8) with (Z.of_nat (j + 8)) by lia. rewrite Hbits by lia. f_equal. lia.
  - exists out'. split; [done|]. by replace (i + Z.of_nat (Datatypes.S k)) with (i + 1 + Z.of_nat k) by lia.
Qed.
Lemma packed_batches_written k : forall i out g, written (Z.to_nat (8 * i)) out -> 0 <= i -> 8 * (i + 3 * Z.of_nat k) <= bb_size input -> at_pos (n + Z.to_nat (8 * i)) g ->
  exists out' g', packed_batches k i input out g = Some (out', g') /\ written (Z.to_nat (8 * (i + 3 * Z.of_nat k))) out' /\ at_pos (n + Z.to_nat (8 * (i + 3 * Z.of_nat k))) g'.
Proof.
  induction k as [|k IH]; intros i out g Hw Hi Hle Hg.
  { exists out, g. split; [done|]. by rewrite Z.mul_0_r, Z.add_0_r. }
  cbn [packed_batches]. destruct (packed_batch_written 3 (prg_word g) i out Hw Hi ltac:(lia) ltac:(lia)) as (out1 & -> & Hw1); [intros j Hj; apply word_bit; [done|lia]|].
  change (Z.of_nat 3) with 3 in Hw1. destruct (IH (i + 3) out1 (step_par g 24) Hw1 ltac:(lia) ltac:(lia)) as (out' & g' & -> & Hw' & Hg').
  - replace (n + Z.to_nat (8 * (i + 3)))%nat with (n + Z.to_nat (8 * i) + Z.to_nat 24)%nat by lia. apply step_par_pos; [done|lia].
  - exists out', g'. replace (i + 3 * Z.of_nat (Datatypes.S k)) with (i + 3 + 3 * Z.of_nat k) by lia. done.
Qed.
Lemma packed_remainder_written fuel : forall rem p w out, written (Z.to_nat p) out -> 0 <= p -> 0 <= rem -> p + rem = bb_size input -> rem <= 8 * (Z.of_nat fuel - 1) ->
  (forall j, Z.of_nat j < rem -> Z.testbit w (Z.of_nat j) = c (n + Z.to_nat p + j)%nat) ->
  exists out', packed_remainder fuel rem p w input out = Some (0, out') /\ written (Z.to_nat (bb_size input)) out'.
Proof.
  induction fuel as [|fuel IH]; intros rem p w out Hw Hp Hrem Hsum Hf Hbits; [lia|]. cbn [packed_remainder]. destruct (rem =? 0) eqn:E; breflect.
  { subst rem. exists out. split; [done|]. by rewrite Z.add_0_r in Hsum; subst p. }
  pose proof Hw as (Hok & Hsz & _). set (m := Z.min rem 8). assert (0 < m <= 8 /\ m <= rem) as [Hm Hmr] by lia. destruct (bb_extract_spec input p m Hin Hp Hm ltac:(lia)) as (x & -> & Hx & Hxb).
  destruct (reversed_field w m Hm) as [Hr Hrb]. set (r := Z.shiftr _ _) in *. destruct (bb_insert_spec out (Z.lxor x r) p m Hok Hp Hm ltac:(lia) (lxor_lt x r m ltac:(lia) Hx Hr)) as (out1 & -> & Hpt).
  assert (written (Z.to_nat p + length (bits_be (Z.to_nat m) (Z.lxor x r))) out1) as Hw1.
  { eapply (written_patch _ out _ _ _ Hw); [|..|exact Hpt]; rewrite ?bits_be_length; [lia| |lia]. unfold S. rewrite scrambled_field by (rewrite bb_bits_length by done; lia). rewrite bits_be_lxor, Hxb, Hrb. f_equal.
    apply map_ext_in. intros j Hj. rewrite in_seq in Hj. rewrite Hbits by lia. done. }
  rewrite bits_be_length in Hw1. replace (Z.to_nat p + Z.to_nat m)%nat with (Z.to_nat (p + m)) in Hw1 by lia.
  apply (IH (rem - m) (p + m) (Z.shiftr w m) out1 Hw1); [lia..|]. intros j Hj. rewrite Z.shiftr_spec by lia. replace (Z.of_nat j + m) with (Z.of_nat (j + Z.to_nat m)) by lia. rewrite Hbits by lia. f_equal. lia.
Qed.
Lemma apply_xor_packed_scrambled g : at_pos n g ->
  exists out g', prg_apply_xor_packed input out0 g = Some (out, g') /\ bb_ok out /\ bb_bits out = S /\ at_pos (n + 24 * Z.to_nat (bb_size input / 24)) g'.
Proof.
  intros Hg. unfold prg_apply_xor_packed. rewrite Hsize, Z.eqb_refl. cbn [negb]. pose proof (bbo_size _ Hin) as Hsz. unfold SEQUENCE_PAR_BITS.
  assert (written (Z.to_nat (8 * 0)) out0) as Hw0 by (split_and!; done). set (q := bb_size input / 24). assert (0 <= q /\ 0 <= bb_size input - q * 24 < 24) as [Hq Hr] by (unfold q; mlia).
  destruct (packed_batches_written (Z.to_nat q) 0 out0 g Hw0 ltac:(lia) ltac:(lia)) as (out1 & g1 & -> & Hw1 & Hg1); [by rewrite Nat.add_0_r|]. replace (8 * (0 + 3 * Z.of_nat (Z.to_nat q))) with (q * 24) in Hw1, Hg1 by lia.
  destruct (packed_remainder_written 4 (bb_size input - q * 24) (q * 24) (prg_word g1) out1 Hw1 ltac:(lia) ltac:(lia) ltac:(lia) ltac:(lia)) as (out2 & -> & Hok2 & Hsz2 & Hb2); [intros j Hj; apply word_bit; [done|lia]|].
  exists out2, (step_par g1 0). split_and!; [done|done| |].
  - rewrite Hb2, take_ge by (rewrite S_length; lia). rewrite drop_ge by (rewrite bb_bits_length by done; rewrite Hsize; lia). apply app_nil_r.
  - replace (n + 24 * Z.to_nat q)%nat with (n + Z.to_nat (q * 24) + Z.to_nat 0)%nat by lia. apply step_par_pos; [done|lia].
Qed.
End Packed.
End Gold.

(** ** The sequences exist *)
Section Exist.
Context (fb : Z -> Z) (stp : Z -> Z) (Hstp : forall s, stp s = Z.lxor (Z.shiftr s 1) (u32 (Z.shiftl (Z.land (fb s) (Z.shiftl 1 1 - 1)) (31 - 1)))) (s0 : Z).
Definition sequence_of (n : nat) : bool := Z.testbit (Nat.iter n stp s0) 0.
Lemma stp_bit s i : 0 <= i < 30 -> Z.testbit (stp s) i = Z.testbit s (i + 1).
Proof. intros Hi. rewrite Hstp, Z.lxor_spec, Z.shiftr_spec, feedback_bit, (proj2 (Z.leb_gt (31 - 1) i)) by lia. cbn [andb]. by rewrite xorb_false_r. Qed.
Lemma sequence_bit i : forall n, (i < 31)%nat -> Z.testbit (Nat.iter n stp s0) (Z.of_nat i) = sequence_of (n + i).
Proof.
  induction i as [|i IH]; intros n Hi; [by rewrite Nat.add_0_r|]. rewrite Nat.add_succ_r, <-Nat.add_succ_l, <-IH by lia. change (Nat.iter (S n) stp s0) with (stp (Nat.iter n stp s0)). rewrite stp_bit by lia. f_equal. lia.
Qed.
Lemma sequence_next n : 0 <= s0 < 2 ^ 31 -> sequence_of (n + 31) = Z.testbit (fb (Nat.iter n stp s0)) 0.
Proof.
  intros Hs. assert (forall k, 0 <= Nat.iter k stp s0 < 2 ^ 31) as Hr.
  { induction k as [|k IH]; [done|]. change (Nat.iter (S k) stp s0) with (stp (Nat.iter k stp s0)). rewrite Hstp. set (s := Nat.iter k stp s0) in *. apply lxor_lt; [lia| |].
    - rewrite Z.shiftr_div_pow2 by lia. change (2 ^ 1) with 2. mlia.
    - split; [apply Z.mod_pos_bound; lia|]. apply bits_lt; [lia|apply Z.mod_pos_bound; lia|]. intros i Hi. rewrite feedback_bit, (proj2 (Z.ltb_ge i 31)) by lia. by rewrite andb_false_r. }
  replace (n + 31)%nat with (S n + 30)%nat by lia. rewrite <-sequence_bit by lia. change (Nat.iter (S n) stp s0) with (stp (Nat.iter n stp s0)).
  rewrite Hstp, Z.lxor_spec, Z.shiftr_spec, feedback_bit by lia. rewrite (bits_above _ 31) by (apply Hr || lia). change (Z.of_nat 30 + 1 - 31) with 0. by rewrite xorb_false_l.
Qed.
End Exist.
Lemma gold_x1_exists : gold_x1 (sequence_of step_x1 1).
Proof.
  split.
  - intros i Hi. change (i = 0)%nat with (0 + i = 0)%nat. rewrite <-(Nat.add_0_l i) at 1. rewrite <-(sequence_bit feedback_x1 step_x1 step_x1_par 1 i 0) by done. cbn [Nat.iter Nat.add]. destruct i; [done|]. rewrite bool_decide_false by lia. by rewrite (bits_above 1 1) by lia.
  - intros n. rewrite (sequence_next feedback_x1 step_x1 step_x1_par 1) by lia. unfold feedback_x1 at 1. rewrite Z.lxor_spec, Z.shiftr_spec by lia.
    change (0 + 3) with (Z.of_nat 3). rewrite (sequence_bit feedback_x1 step_x1 step_x1_par) by lia. by rewrite xorb_comm.
Qed.
Lemma gold_x2_exists c : 0 <= c < 2 ^ 31 -> gold_x2 c (sequence_of step_x2 c).
Proof.
  intros Hc. split.
  - intros i Hi. symmetry. apply (sequence_bit feedback_x2 step_x2 step_x2_par c i 0 Hi).
  - intros n. rewrite (sequence_next feedback_x2 step_x2 step_x2_par c) by lia. unfold feedback_x2 at 1. rewrite !Z.lxor_spec, !Z.shiftr_spec by lia.
    change (0 + 3) with (Z.of_nat 3). change (0 + 2) with (Z.of_nat 2). change (0 + 1) with (Z.of_nat 1). rewrite !(sequence_bit feedback_x2 step_x2 step_x2_par) by lia.
    change (Z.testbit (Nat.iter n step_x2 c) 0) with (sequence_of step_x2 c n). destruct (sequence_of step_x2 c n), (sequence_of step_x2 c (n + 1)), (sequence_of step_x2 c (n + 2)), (sequence_of step_x2 c (n + 3)); done.
Qed.

(** C34: the generator produces the Gold sequence of TS 38.211 section 5.2.1.  For the seed
    [c_init], with [x1] and [x2] the two sequences given by their recurrences, the
    initialised generator is at position 0; from a generator at position [n], advancing by
    [k] in steps of 24 bits leads to position [n + k], and scrambling unpacked bits, soft
    bits and signs applies the elements from [n] on to the values and leads to the position
    behind them.  Scrambling packed bits writes the scrambled bits too, but leads only to
    the last multiple of 24 bits: the remainder is counted down to 0 before the state is
    advanced by it. *)
Theorem prg_generates_gold_sequence c_init x1 x2 : gold_x1 x1 -> gold_x2 c_init x2 ->
  at_pos x1 x2 0 (prg_init c_init)
  /\ forall n g, at_pos x1 x2 n g ->
    (forall k, 0 <= k -> exists g', prg_advance k g = Some g' /\ at_pos x1 x2 (n + Z.to_nat k) g')
    /\ (forall l, exists g', prg_apply_xor_bytes l g = (scrambled x1 x2 xor_byte n l, g') /\ at_pos x1 x2 (n + length l) g')
    /\ (forall l, exists g', prg_apply_xor_llr l g = (scrambled x1 x2 llr_sign n l, g') /\ at_pos x1 x2 (n + length l) g')
    /\ (forall len v, exists g', prg_generate len v g = (scrambled x1 x2 float_sign n (replicate len v), g') /\ at_pos x1 x2 (n + len) g')
    /\ (forall input out0, bb_ok input -> bb_ok out0 -> bb_size out0 = bb_size input ->
        exists out g', prg_apply_xor_packed input out0 g = Some (out, g') /\ bb_ok out /\ bb_bits out = scrambled x1 x2 xorb n (bb_bits input)
          /\ at_pos x1 x2 (n + 24 * Z.to_nat (bb_size input / 24)) g').
Proof.
  intros Hx1 Hx2. split; [by apply init_pos|]. intros n g Hg. split_and!.
  - intros k Hk. by apply (advance_pos c_init).
  - intros l. by apply (apply_xor_bytes_scrambled c_init).
  - intros l. by apply (xor_24_scrambled c_init).
  - intros len v. destruct (xor_24_scrambled c_init x1 x2 Hx1 Hx2 float_sign (replicate len v) n g Hg) as (g' & H1 & H2). rewrite length_replicate in H2. by exists g'.
  - intros input out0 Hin Hout Hs. by apply (apply_xor_packed_scrambled c_init).
Qed.
Lemma prg_generates_gold_sequence_witness : exists x1 x2, gold_x1 x1 /\ gold_x2 12345 x2 /\ at_pos x1 x2 0 (prg_init 12345).
Proof.
  exists (sequence_of step_x1 1), (sequence_of step_x2 12345). pose proof gold_x1_exists as H1. assert (gold_x2 12345 (sequence_of step_x2 12345)) as H2 by (apply gold_x2_exists; lia).
  split_and!; [exact H1|exact H2|]. exact (proj1 (prg_generates_gold_sequence 12345 _ _ H1 H2)).
Defined.
