(* ===== verification/PhyCrc.v ===== *)
(** * CRC calculator

    lib/phy/upper/channel_coding/crc_calculator_lut_impl.cpp and its header: checksums of
    bytes, unpacked bits and bit buffers with look-up tables of 256 entries.  The packing of
    eight bits with vector instructions is left out; the generic code is modelled. *)
From S2P Require Import Prelude Bits BitBuffer.

Inductive crc_generator_poly := CRC24A | CRC24B | CRC24C | CRC16 | CRC11 | CRC6.
(** The parameters of the tables *)
Definition crc_polynom (p : crc_generator_poly) : Z :=
  match p with CRC24A => 0x1864cfb | CRC24B => 0x1800063 | CRC24C => 0x1b2b117 | CRC16 => 0x11021 | CRC11 => 0xe21 | CRC6 => 0x61 end.
Definition crc_order (p : crc_generator_poly) : Z :=
  match p with CRC24A | CRC24B | CRC24C => 24 | CRC16 => 16 | CRC11 => 11 | CRC6 => 6 end.
Definition crc_mask (p : crc_generator_poly) : Z := u32 (Z.lor (Z.shiftl (Z.shiftl 1 (crc_order p - 1) - 1) 1) 1).

(** ** Tables *)
Definition table_step (polynom crchighbit remainder : Z) : Z :=
  let bit := negb (Z.land remainder crchighbit =? 0) in
  let remainder := u64 (Z.shiftl remainder 1) in
  if bit then Z.lxor remainder polynom else remainder.
Definition crc_table (p : crc_generator_poly) (i : Z) : Z :=
  let order := crc_order p in
  let pad := if order <? 8 then 8 - order else 0 in
  let ord := order + pad - 8 in
  let crchighbit := Z.shiftl 1 (order - 1) in
  u32 (Z.land (Z.shiftr (Nat.iter 8 (table_step (crc_polynom p) crchighbit) (u64 (Z.shiftl i ord))) pad) (crc_mask p)).

(** ** Calculator *)
Definition put_byte (p : crc_generator_poly) (crc byte : Z) : Z :=
  let order := crc_order p in
  let idx :=
    if 8 <? order then Z.lxor (Z.land (Z.shiftr crc (order - 8)) 0xff) byte
    else Z.lxor (Z.land (u32 (Z.shiftl crc (8 - order))) 0xff) byte in
  Z.lxor (u32 (Z.shiftl crc 8)) (crc_table p idx).
Definition reverse_step (p : crc_generator_poly) (crc : Z) : Z :=
  if Z.land 1 crc =? 1 then Z.shiftr (Z.lxor crc (crc_polynom p)) 1 else Z.shiftr crc 1.
Definition reversecrcbit (p : crc_generator_poly) (nbits : nat) (crc : Z) : Z := Z.land (Nat.iter nbits (reverse_step p) crc) (crc_mask p).
Definition get_checksum (p : crc_generator_poly) (crc : Z) : Z := Z.land crc (crc_mask p).

Definition calculate_byte (p : crc_generator_poly) (input : bytes) : Z := get_checksum p (foldl (put_byte p) 0 input).
(** [srsvec::bit_pack] of eight bits, and of the bits that are left at the end *)
Definition srsvec_bit_pack (bits : list Z) : Z := foldl Z.lor 0 (imap (fun i b => Z.shiftl b (Z.of_nat (length bits) - Z.of_nat i - 1)) bits).
Definition tail_byte (bits : list Z) : Z := foldl Z.lor 0 (imap (fun k b => u8 (Z.shiftl b (7 - Z.of_nat k))) bits).
Fixpoint put_bits (p : crc_generator_poly) (nbytes : nat) (input : list Z) (crc : Z) : Z :=
  match nbytes with
  | O => crc
  | S n => put_bits p n (drop 8 input) (put_byte p crc (Z.land (srsvec_bit_pack (take 8 input)) 0xff))
  end.
(** The end of [calculate_bit] and [calculate]: the zero bits that filled the last byte are taken back. *)
Definition finish_bits (p : crc_generator_poly) (res8 : nat) (crc : Z) : Z :=
  let crc := get_checksum p crc in get_checksum p (if (0 <? res8)%nat then reversecrcbit p (8 - res8) crc else crc).
Definition calculate_bit (p : crc_generator_poly) (input : list Z) : Z :=
  let nbytes := (length input / 8)%nat in
  let res8 := (length input mod 8)%nat in
  let crc := put_bits p nbytes input 0 in
  let crc := if (0 <? res8)%nat then put_byte p crc (tail_byte (drop (8 * nbytes) input)) else crc in
  finish_bits p res8 crc.
Fixpoint put_bytes_of (p : crc_generator_poly) (n : nat) (i_byte : Z) (input : bit_buffer) (crc : Z) : option Z :=
  match n with
  | O => Some crc
  | S n => let* byte := bb_get_byte input i_byte in put_bytes_of p n (i_byte + 1) input (put_byte p crc byte)
  end.
Definition calculate (p : crc_generator_poly) (input : bit_buffer) : option Z :=
  let nbytes := bb_size input / 8 in
  let res8 := bb_size input mod 8 in
  let* crc := put_bytes_of p (Z.to_nat nbytes) 0 input 0 in
  let* crc := if 0 <? res8 then let* x := bb_extract input (nbytes * 8) res8 in Some (put_byte p crc (u8 (Z.shiftl x (8 - res8)))) else Some crc in
  Some (finish_bits p (Z.to_nat res8) crc).

(** ** Polynomials over GF(2)

    A polynomial is a number; [mulp G q] is the product of [G] and the polynomial with the coefficients [q], lowest first. *)
Fixpoint mulp (G : Z) (q : list bool) : Z := match q with [] => 0 | b :: q => Z.lxor (if b : bool then G else 0) (Z.shiftl (mulp G q) 1) end.
Definition multiple (G x : Z) : Prop := exists q, x = mulp G q.
(** The value of a list of bits, most significant first. *)
Definition bits_val (l : list bool) : Z := foldl (fun v b => 2 * v + Z.b2z b) 0 l.
(** TS 38.212 section 5.1: the message followed by the checksum is divisible by the generator polynomial. *)
Definition is_crc (p : crc_generator_poly) (bits : list bool) (crc : Z) : Prop :=
  0 <= crc < 2 ^ crc_order p /\ multiple (crc_polynom p) (Z.lxor (Z.shiftl (bits_val bits) (crc_order p)) crc).

Lemma mulp_xor G q : forall r, exists s, Z.lxor (mulp G q) (mulp G r) = mulp G s.
Proof.
  induction q as [|b q IH]; intros [|b' r]; [by exists []|by exists (b' :: r)|exists (b :: q); apply Z.lxor_0_r|]. destruct (IH r) as [s Hs]. exists (xorb b b' :: s). cbn [mulp]. rewrite <-Hs, Z.shiftl_lxor.
  set (A := Z.shiftl (mulp G q) 1). set (B := Z.shiftl (mulp G r) 1). apply Z.bits_inj'. intros i _. rewrite !Z.lxor_spec. destruct b, b'; cbn; rewrite ?Z.testbit_0_l; by destruct (Z.testbit G i), (Z.testbit A i), (Z.testbit B i).
Qed.
Lemma multiple_xor G x y : multiple G x -> multiple G y -> multiple G (Z.lxor x y).
Proof. intros [q ->] [r ->]. destruct (mulp_xor G q r) as [s Hs]. by exists s. Qed.
Lemma multiple_shift1 G x : multiple G x -> multiple G (Z.shiftl x 1).
Proof. intros [q ->]. exists (false :: q). cbn [mulp]. by rewrite Z.lxor_0_l. Qed.
Lemma multiple_shift G x n : 0 <= n -> multiple G x -> multiple G (Z.shiftl x n).
Proof.
  intros Hn Hx. rewrite <-(Z2Nat.id n) by done. induction (Z.to_nat n) as [|k IH]; [by rewrite Z.shiftl_0_r|]. rewrite Nat2Z.inj_succ, <-Z.add_1_r, <-Z.shiftl_shiftl by lia. by apply multiple_shift1.
Qed.
Lemma multiple_0 G : multiple G 0.
Proof. by exists []. Qed.
Lemma multiple_self G : multiple G G.
Proof. exists [true]. cbn. by rewrite Z.lxor_0_r. Qed.
(** An odd polynomial is prime to D. *)
Lemma multiple_half G x : Z.odd G = true -> multiple G (Z.shiftl x 1) -> multiple G x.
Proof.
  intros Hodd [q Hq]. destruct q as [|b q]; cbn [mulp] in Hq.
  - exists []. cbn. apply (f_equal (fun z => Z.shiftr z 1)) in Hq. rewrite Z.shiftr_shiftl_l, Z.shiftl_0_r in Hq by lia. done.
  - assert (b = false) as ->.
    { apply (f_equal (fun z => Z.testbit z 0)) in Hq. rewrite Z.lxor_spec, !Z.shiftl_spec, !(Z.testbit_neg_r _ (0 - 1)) in Hq by lia. destruct b; [|done]. by rewrite Z.bit0_odd, Hodd in Hq. }
    rewrite Z.lxor_0_l in Hq. exists q. apply (f_equal (fun z => Z.shiftr z 1)) in Hq. by rewrite !Z.shiftr_shiftl_l, !Z.shiftl_0_r in Hq by lia.
Qed.
(** A multiple of lower degree than the polynomial is zero. *)
Lemma mulp_degree G o q : 0 <= o -> Z.testbit G o = true -> 0 <= G < 2 ^ (o + 1) ->
  mulp G q = 0 \/ exists k, 0 <= k /\ Z.testbit (mulp G q) (o + k) = true /\ forall j, k < j -> Z.testbit (mulp G q) (o + j) = false.
Proof.
  intros Ho Hbit HG. induction q as [|b q [IH|(k & Hk & H1 & H2)]]; [by left| |].
  - cbn [mulp]. rewrite IH, Z.shiftl_0_l, Z.lxor_0_r. destruct b; [|by left]. right. exists 0. rewrite Z.add_0_r. split_and!; [lia|done|]. intros j Hj. apply (testbit_high G (o + 1)); lia.
  - right. exists (k + 1). cbn [mulp]. assert (forall j, k < j -> Z.testbit (if b then G else 0) (o + j) = false) as Hb by (intros j Hj; destruct b; [apply (testbit_high G (o + 1)); lia|apply Z.testbit_0_l]).
    split_and!; [lia| |].
    + rewrite Z.lxor_spec, Z.shiftl_spec, Hb by lia. replace (o + (k + 1) - 1) with (o + k) by lia. by rewrite H1.
    + intros j Hj. rewrite Z.lxor_spec, Z.shiftl_spec, Hb by lia. replace (o + j - 1) with (o + (j - 1)) by lia. by rewrite H2 by lia.
Qed.
Lemma crc_polynom_facts p : let G := crc_polynom p in let o := crc_order p in Z.odd G = true /\ Z.testbit G o = true /\ 0 <= G < 2 ^ (o + 1) /\ 6 <= o <= 24 /\ crc_mask p = Z.ones o.
Proof. destruct p; cbn; split_and!; done || lia. Qed.
(** The checksum is unique. *)
Lemma is_crc_unique p bits c c' : is_crc p bits c -> is_crc p bits c' -> c = c'.
Proof.
  intros [Hc Hm] [Hc' Hm']. destruct (crc_polynom_facts p) as (_ & Hbit & HG & Ho & _). set (o := crc_order p) in *. set (G := crc_polynom p) in *. set (M := Z.shiftl (bits_val bits) o) in *.
  pose proof (multiple_xor _ _ _ Hm Hm') as [q Hq]. assert (Z.lxor (Z.lxor M c) (Z.lxor M c') = Z.lxor c c') as Heq.
  { apply Z.bits_inj'. intros i _. rewrite !Z.lxor_spec. by destruct (Z.testbit M i), (Z.testbit c i), (Z.testbit c' i). }
  rewrite Heq in Hq. apply Z.lxor_eq. destruct (mulp_degree G o q ltac:(lia) Hbit HG) as [H0|(k & Hk & H1 & _)]; [congruence|]. exfalso. rewrite <-Hq, Z.lxor_spec in H1.
  rewrite (testbit_high c o), (testbit_high c' o) in H1 by lia. done.
Qed.

(** ** The tables *)
Lemma land_bit r k : 0 <= k -> negb (Z.land r (Z.shiftl 1 k) =? 0) = Z.testbit r k.
Proof.
  intros Hk. rewrite Z.shiftl_1_l. assert (Z.land r (2 ^ k) = if Z.testbit r k then 2 ^ k else 0) as ->.
  { apply Z.bits_inj'. intros i Hi. rewrite Z.land_spec, Z.pow2_bits_eqb by lia. destruct (k =? i) eqn:E; breflect.
    - subst. rewrite andb_true_r. destruct (Z.testbit r i) eqn:Eb; [by rewrite Z.pow2_bits_true by lia|by rewrite Z.testbit_0_l].
    - rewrite andb_false_r. destruct (Z.testbit r k); [by rewrite Z.pow2_bits_false by lia|by rewrite Z.testbit_0_l]. }
  destruct (Z.testbit r k); [|done]. by rewrite (proj2 (Z.eqb_neq (2 ^ k) 0)) by lia.
Qed.
Lemma lxor_small a b n : 0 <= n -> 0 <= a < 2 ^ n -> 0 <= b < 2 ^ n -> 0 <= Z.lxor a b < 2 ^ n.
Proof.
  intros Hn Ha Hb. assert (0 <= Z.lxor a b) as H0 by (apply Z.lxor_nonneg; lia). split; [done|]. assert (Z.lxor a b mod 2 ^ n = Z.lxor a b) as <-; [|apply Z.mod_pos_bound; lia].
  apply Z.bits_inj'. intros i Hi. destruct (decide (i < n)); [by rewrite Z.mod_pow2_bits_low by lia|]. by rewrite Z.mod_pow2_bits_high, Z.lxor_spec, (testbit_high a n), (testbit_high b n) by lia.
Qed.
Section Lut.
Context (p : crc_generator_poly) (Hp : p <> CRC6).
Let G := crc_polynom p.
Let o := crc_order p.
Lemma lut_facts : Z.odd G = true /\ Z.testbit G o = true /\ 0 <= G < 2 ^ (o + 1) /\ 8 < o <= 24 /\ crc_mask p = Z.ones o.
Proof. unfold G, o. destruct (crc_polynom_facts p) as (H1 & H2 & H3 & H4 & H5). split_and!; try done; try lia. destruct p; cbn; done || lia. Qed.
Lemma table_step_spec r : 0 <= r < 2 ^ o -> let r' := table_step G (Z.shiftl 1 (o - 1)) r in 0 <= r' < 2 ^ o /\ multiple G (Z.lxor (Z.shiftl r 1) r').
Proof.
  destruct lut_facts as (_ & Hbit & HG & Ho & _). intros Hr r'. unfold r', table_step. rewrite land_bit by lia. assert (2 ^ o <= 2 ^ 24) as H24 by (apply Z.pow_le_mono_r; lia).
  assert (u64 (Z.shiftl r 1) = Z.shiftl r 1) as -> by (unfold u64; rewrite Z.shiftl_mul_pow2 by lia; apply Z.mod_small; lia). assert (2 ^ (o + 1) = 2 * 2 ^ o) as H2o by (rewrite Z.pow_add_r by lia; lia).
  assert (0 <= Z.shiftl r 1 < 2 ^ (o + 1)) as Hs by (rewrite Z.shiftl_mul_pow2 by lia; lia). destruct (Z.testbit r (o - 1)) eqn:Eb.
  - destruct (lxor_small (Z.shiftl r 1) G (o + 1) ltac:(lia) Hs HG) as [Hx0 Hx]. split; [split; [done|]|].
    + assert (Z.lxor (Z.shiftl r 1) G mod 2 ^ o = Z.lxor (Z.shiftl r 1) G) as <-; [|apply Z.mod_pos_bound; lia]. apply Z.bits_inj'. intros i Hi. destruct (decide (i < o)); [by rewrite Z.mod_pow2_bits_low by lia|].
      rewrite Z.mod_pow2_bits_high by lia. destruct (decide (i = o)) as [->|]; [by rewrite Z.lxor_spec, Z.shiftl_spec, Eb, Hbit by lia|]. symmetry. apply (testbit_high _ (o + 1)); lia.
    + rewrite <-Z.lxor_assoc, Z.lxor_nilpotent, Z.lxor_0_l. apply multiple_self.
  - split; [|rewrite Z.lxor_nilpotent; apply multiple_0]. split; [lia|]. assert (r < 2 ^ (o - 1)) as Hlt.
    { assert (r mod 2 ^ (o - 1) = r) as <-; [|apply Z.mod_pos_bound; lia]. apply Z.bits_inj'. intros i Hi. destruct (decide (i < o - 1)); [by rewrite Z.mod_pow2_bits_low by lia|].
      rewrite Z.mod_pow2_bits_high by lia. destruct (decide (i = o - 1)) as [->|]; [done|]. symmetry. apply (testbit_high r o); lia. }
    rewrite Z.shiftl_mul_pow2 by lia. replace (2 ^ o) with (2 ^ (o - 1) * 2 ^ 1) by (rewrite <-Z.pow_add_r by lia; f_equal; lia). lia.
Qed.
Lemma table_iter_spec r k : 0 <= r < 2 ^ o -> let r' := Nat.iter k (table_step G (Z.shiftl 1 (o - 1))) r in 0 <= r' < 2 ^ o /\ multiple G (Z.lxor (Z.shiftl r (Z.of_nat k)) r').
Proof.
  intros Hr. induction k as [|k IH]; cbv zeta.
  - split; [done|]. cbn [Nat.iter nat_rect]. rewrite Z.shiftl_0_r, Z.lxor_nilpotent. apply multiple_0.
  - change (Nat.iter (S k) (table_step G (Z.shiftl 1 (o - 1))) r) with (table_step G (Z.shiftl 1 (o - 1)) (Nat.iter k (table_step G (Z.shiftl 1 (o - 1))) r)). destruct IH as [Hk Hm]. set (s := Nat.iter k _ r) in *.
    destruct (table_step_spec s Hk) as [Hs Hms]. split; [done|]. set (s' := table_step _ _ s) in *.
    replace (Z.lxor (Z.shiftl r (Z.of_nat (S k))) s') with (Z.lxor (Z.shiftl (Z.lxor (Z.shiftl r (Z.of_nat k)) s) 1) (Z.lxor (Z.shiftl s 1) s')); [apply multiple_xor; [by apply multiple_shift1|done]|].
    rewrite Z.shiftl_lxor, Z.shiftl_shiftl by lia. replace (Z.of_nat k + 1) with (Z.of_nat (S k)) by lia. by rewrite Z.lxor_assoc, <-(Z.lxor_assoc (Z.shiftl s 1)), Z.lxor_nilpotent, Z.lxor_0_l.
Qed.
Lemma crc_table_spec i : 0 <= i < 256 -> 0 <= crc_table p i < 2 ^ o /\ multiple G (Z.lxor (Z.shiftl i o) (crc_table p i)).
Proof.
  destruct lut_facts as (_ & _ & _ & Ho & Hmask). intros Hi. unfold crc_table. fold o G. rewrite Hmask. rewrite (proj2 (Z.ltb_ge o 8)) by lia. rewrite Z.add_0_r, Z.shiftr_0_r, Z.land_ones by lia.
  assert (2 ^ o <= 2 ^ 24) as H24 by (apply Z.pow_le_mono_r; lia). assert (2 ^ o = 256 * 2 ^ (o - 8)) as Hpow by (change 256 with (2 ^ 8); rewrite <-Z.pow_add_r by lia; f_equal; lia).
  assert (0 <= Z.shiftl i (o - 8) < 2 ^ o) as Hs by (rewrite Z.shiftl_mul_pow2 by lia; assert (0 < 2 ^ (o - 8)) by lia; nia).
  assert (u64 (Z.shiftl i (o - 8)) = Z.shiftl i (o - 8)) as -> by (apply Z.mod_small; lia). destruct (table_iter_spec (Z.shiftl i (o - 8)) 8 Hs) as [Hr Hm]. set (r := Nat.iter 8 _ _) in *. clearbody r.
  rewrite Z.mod_small, u32_id by (unfold is_u32; rewrite ?Z.mod_small; lia). split; [done|]. rewrite Z.shiftl_shiftl in Hm by lia. by replace (o - 8 + Z.of_nat 8) with o in Hm by lia.
Qed.

(** ** Bytes

    [holds m crc]: the register [crc] is the checksum of the message [m], apart from bits above the order. *)
Definition holds (m crc : Z) : Prop := 0 <= crc < 2 ^ 32 /\ multiple G (Z.lxor (Z.shiftl m o) (crc mod 2 ^ o)).
Lemma append_byte m byte : is_u8 byte -> m * 256 + byte = Z.lxor (Z.shiftl m 8) byte.
Proof.
  unfold is_u8. intros Hb. rewrite <-(lor_disjoint 8 (m * 256) byte) by (lia || by apply Z.mod_mul). rewrite Z.shiftl_mul_pow2 by lia. change (2 ^ 8) with 256. symmetry. rewrite <-Z.add_nocarry_lxor, <-(lor_disjoint 8 (m * 256) byte); [done|lia|by apply Z.mod_mul|done|].
  apply Z.bits_inj'. intros i Hi. rewrite Z.land_spec, Z.testbit_0_l. change 256 with (2 ^ 8). destruct (decide (i < 8)); [by rewrite Z.mul_pow2_bits_low by lia|]. by rewrite (testbit_high byte 8), andb_false_r by lia.
Qed.
Lemma put_byte_spec m crc byte : is_u8 byte -> holds m crc -> holds (m * 256 + byte) (put_byte p crc byte).
Proof.
  destruct lut_facts as (_ & _ & _ & Ho & _). intros Hb [Hc Hm]. unfold put_byte. fold o. rewrite (proj2 (Z.ltb_lt 8 o)) by lia. change 0xff with (Z.ones 8). rewrite Z.land_ones by lia. rewrite append_byte by done.
  set (h := Z.shiftr crc (o - 8) mod 2 ^ 8). assert (0 <= h < 2 ^ 8) as Hh by (apply Z.mod_pos_bound; lia). pose proof (lxor_small h byte 8 ltac:(lia) Hh Hb) as Hidx. destruct (crc_table_spec (Z.lxor h byte) Hidx) as [HT HmT].
  set (T := crc_table p (Z.lxor h byte)) in *. assert (2 ^ o <= 2 ^ 32) as H32 by (apply Z.pow_le_mono_r; lia). split; [apply lxor_small; [lia|apply Z.mod_pos_bound; lia|lia]|].
  assert (Z.lxor (Z.shiftl (Z.lxor (Z.shiftl m 8) byte) o) (Z.lxor (u32 (Z.shiftl crc 8)) T mod 2 ^ o)
    = Z.lxor (Z.shiftl (Z.lxor (Z.shiftl m o) (crc mod 2 ^ o)) 8) (Z.lxor (Z.shiftl (Z.lxor h byte) o) T)) as ->; [|apply multiple_xor; [apply multiple_shift; [lia|done]|done]].
  apply Z.bits_inj'. intros i Hi. unfold is_u8 in Hb. rewrite !Z.lxor_spec, !Z.shiftl_spec, !Z.lxor_spec by lia. unfold h, u32.
  destruct (decide (i < o)) as [H1|H1].
  - rewrite !(Z.testbit_neg_r _ (i - o)) by lia. rewrite Z.mod_pow2_bits_low, Z.lxor_spec, Z.mod_pow2_bits_low, Z.shiftl_spec by lia. rewrite xorb_false_l.
    destruct (decide (i < 8)); [rewrite !(Z.testbit_neg_r _ (i - 8)) by lia; done|]. rewrite Z.mod_pow2_bits_low, Z.shiftl_spec, (Z.testbit_neg_r m) by lia. by rewrite !xorb_false_l.
  - rewrite (Z.mod_pow2_bits_high (Z.lxor _ _)) by lia. rewrite (testbit_high T o), !Z.shiftl_spec, xorb_false_r by lia. destruct (decide (i < o + 8)) as [H2|H2].
    + rewrite (Z.testbit_neg_r m (i - o - 8)), (Z.testbit_neg_r m (i - 8 - o)), !Z.mod_pow2_bits_low, Z.shiftr_spec by lia. replace (i - o + (o - 8)) with (i - 8) by lia. by destruct (Z.testbit crc (i - 8)), (Z.testbit byte (i - o)).
    + rewrite !Z.mod_pow2_bits_high, (testbit_high byte 8) by lia. replace (i - 8 - o) with (i - o - 8) by lia. by destruct (Z.testbit m (i - o - 8)).
Qed.
Lemma get_checksum_mod crc : get_checksum p crc = crc mod 2 ^ o.
Proof. destruct lut_facts as (_ & _ & _ & Ho & Hmask). unfold get_checksum. rewrite Hmask. apply Z.land_ones. lia. Qed.
Lemma checksum_holds m crc : holds m crc -> holds m (get_checksum p crc) /\ 0 <= get_checksum p crc < 2 ^ o.
Proof.
  destruct lut_facts as (_ & _ & _ & Ho & _). intros [Hc Hm]. rewrite get_checksum_mod. assert (0 <= crc mod 2 ^ o < 2 ^ o) as Hr by (apply Z.mod_pos_bound; lia). assert (2 ^ o <= 2 ^ 32) by (apply Z.pow_le_mono_r; lia).
  split; [|done]. split; [lia|]. by rewrite Z.mod_small.
Qed.
(** The zeros at the end of a message are taken back. *)
Lemma reverse_step_spec m crc : 0 <= crc < 2 ^ o -> multiple G (Z.lxor (Z.shiftl (Z.shiftl m 1) o) crc) -> let crc' := reverse_step p crc in 0 <= crc' < 2 ^ o /\ multiple G (Z.lxor (Z.shiftl m o) crc').
Proof.
  destruct lut_facts as (Hodd & _ & HG & Ho & _). intros Hc Hm crc'. unfold crc', reverse_step. fold G. assert (2 ^ (o + 1) = 2 * 2 ^ o) as H2o by (rewrite Z.pow_add_r by lia; lia).
  assert ((Z.land 1 crc =? 1) = Z.odd crc) as -> by (rewrite Z.land_comm; change 1 with (Z.ones 1) at 1; rewrite Z.land_ones by lia; change (2 ^ 1) with 2; rewrite Zmod_odd; by destruct (Z.odd crc)).
  set (x := if Z.odd crc then Z.lxor crc G else crc). assert ((if Z.odd crc then Z.shiftr (Z.lxor crc G) 1 else Z.shiftr crc 1) = Z.shiftr x 1) as -> by (unfold x; by destruct (Z.odd crc)).
  assert (0 <= x < 2 ^ (o + 1)) as Hx by (unfold x; destruct (Z.odd crc); [apply lxor_small; lia|lia]). assert (Z.testbit x 0 = false) as Heven.
  { unfold x. destruct (Z.odd crc) eqn:E; [rewrite Z.lxor_spec|]; rewrite !Z.bit0_odd, E; [|done]. by rewrite Hodd. }
  assert (Z.shiftl (Z.shiftr x 1) 1 = x) as Hsh.
  { apply Z.bits_inj'. intros i Hi. rewrite Z.shiftl_spec by lia. destruct (decide (i = 0)) as [->|]; [rewrite Z.testbit_neg_r by lia; done|]. rewrite Z.shiftr_spec by lia. f_equal. lia. }
  split; [rewrite Z.shiftr_div_pow2 by lia; change (2 ^ 1) with 2; mlia|]. apply multiple_half; [done|]. rewrite Z.shiftl_lxor, Hsh. rewrite Z.shiftl_shiftl, Z.add_comm, <-Z.shiftl_shiftl by lia.
  unfold x. destruct (Z.odd crc); [|done]. rewrite <-Z.lxor_assoc. apply multiple_xor; [done|apply multiple_self].
Qed.
Lemma reversecrcbit_spec m k crc : 0 <= crc < 2 ^ o -> multiple G (Z.lxor (Z.shiftl (Z.shiftl m (Z.of_nat k)) o) crc) ->
  let crc' := reversecrcbit p k crc in 0 <= crc' < 2 ^ o /\ multiple G (Z.lxor (Z.shiftl m o) crc').
Proof.
  destruct lut_facts as (_ & _ & _ & Ho & Hmask). intros Hc Hm. unfold reversecrcbit. rewrite Hmask, Z.land_ones by lia. cbv zeta.
  assert (0 <= Nat.iter k (reverse_step p) crc < 2 ^ o /\ multiple G (Z.lxor (Z.shiftl m o) (Nat.iter k (reverse_step p) crc))) as [Hr Hmr]; [|by rewrite Z.mod_small].
  revert crc Hc Hm. induction k as [|k IH]; intros crc Hc Hm; [cbn [Nat.iter nat_rect]; by rewrite Z.shiftl_0_r in Hm|].
  rewrite Nat.iter_succ_r. rewrite Nat2Z.inj_succ, <-Z.add_1_r, <-Z.shiftl_shiftl in Hm by lia. destruct (reverse_step_spec _ crc Hc Hm) as [H1 H2]. by apply IH.
Qed.
Lemma finish_bits_spec m r crc : (r < 8)%nat -> holds (if (0 <? r)%nat then Z.shiftl m (Z.of_nat (8 - r)) else m) crc ->
  0 <= finish_bits p r crc < 2 ^ o /\ multiple G (Z.lxor (Z.shiftl m o) (finish_bits p r crc)).
Proof.
  intros Hr Hh. destruct lut_facts as (_ & _ & _ & Ho & _). destruct (checksum_holds _ _ Hh) as [[_ Hm] Hc]. rewrite (Z.mod_small (get_checksum p crc)) in Hm by done. unfold finish_bits. cbv zeta. set (c := get_checksum p crc) in *. clearbody c.
  rewrite get_checksum_mod. destruct (0 <? r)%nat; [|by rewrite Z.mod_small]. destruct (reversecrcbit_spec m (8 - r) c Hc Hm) as [H1 H2]. by rewrite Z.mod_small.
Qed.
End Lut.

(** ** Messages *)
Lemma bits_val_acc l : forall a, foldl (fun v b => 2 * v + Z.b2z b) a l = a * 2 ^ Z.of_nat (length l) + bits_val l.
Proof.
  unfold bits_val. induction l as [|b l IH]; intros a; [cbn; lia|]. cbn [foldl length]. rewrite IH, (IH (2 * 0 + Z.b2z b)), Nat2Z.inj_succ, Z.pow_succ_r by lia. ring.
Qed.
Lemma bits_val_app l1 l2 : bits_val (l1 ++ l2) = bits_val l1 * 2 ^ Z.of_nat (length l2) + bits_val l2.
Proof. unfold bits_val at 1. rewrite foldl_app. apply bits_val_acc. Qed.
Lemma bits_val_range l : 0 <= bits_val l < 2 ^ Z.of_nat (length l).
Proof.
  induction l as [|b l IH] using rev_ind; [cbn; lia|]. rewrite bits_val_app, length_app, Nat2Z.inj_add, Z.pow_add_r by lia. cbn [length]. change (2 ^ Z.of_nat 1) with 2. assert (0 <= bits_val [b] < 2) by (destruct b; cbn; lia). nia.
Qed.
Lemma bits_val_be n v : 0 <= v < 2 ^ Z.of_nat n -> bits_val (bits_be n v) = v.
Proof.
  revert v. induction n as [|n IH]; intros v Hv; [cbn in *; lia|]. change (S n) with (1 + n)%nat. rewrite bits_be_split, bits_val_app, bits_be_length. rewrite <-(bits_be_mod n v), IH by (apply Z.mod_pos_bound; lia).
  assert (0 <= v / 2 ^ Z.of_nat n < 2) as Hq by (rewrite Nat2Z.inj_succ, Z.pow_succ_r in Hv by lia; split; [apply Z.div_pos; lia|apply Z.div_lt_upper_bound; lia]).
  assert (bits_val (bits_be 1 (v / 2 ^ Z.of_nat n)) = v / 2 ^ Z.of_nat n) as -> by (destruct (decide (v / 2 ^ Z.of_nat n = 0)) as [->|]; [done|]; replace (v / 2 ^ Z.of_nat n) with 1 by lia; done).
  pose proof (Z.div_mod v (2 ^ Z.of_nat n) ltac:(lia)). lia.
Qed.
Lemma byte_val x : is_u8 x -> bits_val (bits_be 8 x) = x.
Proof. intros Hx. apply bits_val_be. exact Hx. Qed.
(** Eight bits packed into a byte, and the bits of the last byte. *)
Lemma srsvec_bit_pack_val l : length l = 8%nat -> Z.land (srsvec_bit_pack (map Z.b2z l)) 0xff = bits_val l.
Proof. intros Hl. do 8 (destruct l as [|? l]; [done|]). destruct l; [|done]. clear Hl. repeat match goal with b : bool |- _ => destruct b end; reflexivity. Qed.
Lemma tail_byte_val l : (length l < 8)%nat -> tail_byte (map Z.b2z l) = bits_val l * 2 ^ Z.of_nat (8 - length l).
Proof.
  intros Hl. do 8 (destruct l as [|? l]; [clear Hl; repeat match goal with b : bool |- _ => destruct b end; reflexivity|]). cbn in Hl. lia.
Qed.
Section Messages.
Context (p : crc_generator_poly) (Hp : p <> CRC6).
Lemma holds_start : holds p 0 0.
Proof. split; [lia|]. rewrite Z.shiftl_0_l, Zmod_0_l. apply multiple_0. Qed.
Lemma put_bytes_spec l : forall m crc, bytes_ok l -> holds p m crc -> holds p (m * 2 ^ Z.of_nat (8 * length l) + bits_val (bytes_bits l)) (foldl (put_byte p) crc l).
Proof.
  induction l as [|x l IH]; intros m crc Hl Hh; [cbn [foldl length]; by rewrite Z.mul_1_r, Z.add_0_r|]. apply Forall_cons_1 in Hl as [Hx Hl]. cbn [foldl].
  pose proof (IH _ _ Hl (put_byte_spec p Hp m crc x Hx Hh)) as H. rewrite bytes_bits_cons, bits_val_app, byte_val, bytes_bits_length by done.
  replace (8 * length (x :: l))%nat with (8 + 8 * length l)%nat by (cbn [length]; lia). rewrite (Nat2Z.inj_add 8), Z.pow_add_r by lia. change (2 ^ Z.of_nat 8) with 256.
  replace (m * (256 * 2 ^ Z.of_nat (8 * length l)) + (x * 2 ^ Z.of_nat (8 * length l) + bits_val (bytes_bits l))) with ((m * 256 + x) * 2 ^ Z.of_nat (8 * length l) + bits_val (bytes_bits l)) by ring. done.
Qed.
Lemma calculate_byte_crc l : bytes_ok l -> is_crc p (bytes_bits l) (calculate_byte p l).
Proof.
  intros Hl. pose proof (put_bytes_spec l 0 0 Hl holds_start) as H. rewrite Z.mul_0_l, Z.add_0_l in H. destruct (checksum_holds p Hp _ _ H) as [[_ Hm] Hc]. split; [done|]. by rewrite Z.mod_small in Hm.
Qed.
Lemma put_bits_spec n : forall l m crc, (8 * n <= length l)%nat -> holds p m crc -> holds p (m * 2 ^ Z.of_nat (8 * n) + bits_val (take (8 * n) l)) (put_bits p n (map Z.b2z l) crc).
Proof.
  induction n as [|n IH]; intros l m crc Hl Hh; [cbn [put_bits Nat.mul take]; by rewrite Z.mul_1_r, Z.add_0_r|]. cbn [put_bits]. rewrite firstn_map, skipn_map.
  rewrite srsvec_bit_pack_val by (rewrite length_take; lia). assert (is_u8 (bits_val (take 8 l))) as Hb by (pose proof (bits_val_range (take 8 l)) as Hr; rewrite length_take, Nat.min_l in Hr by lia; exact Hr).
  pose proof (IH (drop 8 l) _ _ ltac:(rewrite length_drop; lia) (put_byte_spec p Hp m crc _ Hb Hh)) as H. replace (8 * S n)%nat with (8 + 8 * n)%nat by lia. rewrite <-take_take_drop, bits_val_app, length_take, length_drop, Nat.min_l by lia.
  rewrite Nat2Z.inj_add, Z.pow_add_r by lia. change (2 ^ Z.of_nat 8) with 256. set (w := 2 ^ Z.of_nat (8 * n)) in *.
  replace (m * (256 * w) + (bits_val (take 8 l) * w + bits_val (take (8 * n) (drop 8 l)))) with ((m * 256 + bits_val (take 8 l)) * w + bits_val (take (8 * n) (drop 8 l))) by ring. done.
Qed.
(** A last byte of [r] bits, filled with zeros. *)
Lemma last_byte l l' r crc m : (r < 8)%nat -> length l' = r -> m = bits_val (l ++ l') -> holds p (bits_val l) crc ->
  let crc' := if (0 <? r)%nat then put_byte p crc (bits_val l' * 2 ^ Z.of_nat (8 - r)) else crc in holds p (if (0 <? r)%nat then Z.shiftl m (Z.of_nat (8 - r)) else m) crc'.
Proof.
  intros Hr Hl -> Hh. cbv zeta. destruct (Nat.ltb_spec 0 r) as [H0|H0].
  - pose proof (bits_val_range l') as Hv. rewrite Hl in Hv. assert (2 ^ Z.of_nat r * 2 ^ Z.of_nat (8 - r) = 256) as H8 by (rewrite <-Z.pow_add_r by lia; replace (Z.of_nat r + Z.of_nat (8 - r)) with 8 by lia; done).
    assert (is_u8 (bits_val l' * 2 ^ Z.of_nat (8 - r))) as Hu by (unfold is_u8; assert (0 < 2 ^ Z.of_nat (8 - r)) by lia; nia). pose proof (put_byte_spec p Hp _ _ _ Hu Hh) as H.
    rewrite Z.shiftl_mul_pow2, bits_val_app, Hl by lia. replace ((bits_val l * 2 ^ Z.of_nat r + bits_val l') * 2 ^ Z.of_nat (8 - r)) with (bits_val l * 256 + bits_val l' * 2 ^ Z.of_nat (8 - r)) by (rewrite <-H8; ring). done.
  - destruct l'; [|cbn in Hl; lia]. by rewrite app_nil_r.
Qed.
Lemma calculate_bit_crc l : is_crc p l (calculate_bit p (map Z.b2z l)).
Proof.
  unfold calculate_bit. rewrite length_map. pose proof (Nat.div_mod_eq (length l) 8) as Hd. pose proof (Nat.mod_upper_bound (length l) 8 ltac:(lia)) as Hr. set (n := (length l / 8)%nat) in *. set (r := (length l mod 8)%nat) in *.
  pose proof (put_bits_spec n l 0 0 ltac:(lia) holds_start) as H. rewrite Z.mul_0_l, Z.add_0_l in H. rewrite skipn_map.
  assert (length (drop (8 * n) l) = r) as Hlr by (rewrite length_drop; lia). rewrite tail_byte_val, Hlr by lia.
  pose proof (last_byte (take (8 * n) l) (drop (8 * n) l) r _ (bits_val l) Hr Hlr ltac:(by rewrite take_drop) H) as Hlast. cbv zeta in Hlast. apply (finish_bits_spec p Hp (bits_val l) r _ Hr Hlast).
Qed.
Lemma put_bytes_of_spec k : forall i b m crc, bb_ok b -> 0 <= i -> 8 * (i + Z.of_nat k) <= bb_size b -> holds p m crc ->
  exists crc', put_bytes_of p k i b crc = Some crc' /\ holds p (m * 2 ^ Z.of_nat (8 * k) + bits_val (take (8 * k) (drop (Z.to_nat (8 * i)) (bb_bits b)))) crc'.
Proof.
  induction k as [|k IH]; intros i b m crc Hb Hi Hle Hh; [exists crc; split; [done|]; cbn [Nat.mul take]; by rewrite Z.mul_1_r, Z.add_0_r|]. cbn [put_bytes_of].
  destruct (bb_get_byte_spec b i Hb) as (x & -> & Hx & Hxb); [unfold bb_nof_full_words, bits_per_word; mlia|]. destruct (IH (i + 1) b _ _ Hb ltac:(lia) ltac:(lia) (put_byte_spec p Hp m crc x Hx Hh)) as (crc' & Hc' & H). exists crc'. split; [done|].
  replace (8 * S k)%nat with (8 + 8 * k)%nat by lia. rewrite <-take_take_drop, drop_drop, <-Hxb, bits_val_app, byte_val by done. replace (Z.to_nat (8 * i) + 8)%nat with (Z.to_nat (8 * (i + 1))) by lia.
  rewrite length_take, length_drop, bb_bits_length, Nat.min_l by (done || lia). rewrite Nat2Z.inj_add, Z.pow_add_r by lia. change (2 ^ Z.of_nat 8) with 256. set (w := 2 ^ Z.of_nat (8 * k)) in *. set (v := bits_val _) in *.
  replace (m * (256 * w) + (x * w + v)) with ((m * 256 + x) * w + v) by ring. done.
Qed.
Lemma calculate_crc b : bb_ok b -> exists crc, calculate p b = Some crc /\ is_crc p (bb_bits b) crc.
Proof.
  intros Hb. pose proof (bbo_size _ Hb) as Hsz. unfold calculate. set (q := bb_size b / 8). set (r := bb_size b mod 8). assert (bb_size b = 8 * q + r /\ 0 <= r < 8 /\ 0 <= q) as (Hqr & Hr & Hq) by (unfold q, r; mlia).
  destruct (put_bytes_of_spec (Z.to_nat q) 0 b 0 0 Hb ltac:(lia) ltac:(lia) holds_start) as (crc & -> & H). rewrite Z.mul_0_l, Z.add_0_l in H. change (Z.to_nat (8 * 0)) with 0%nat in H. rewrite drop_0 in H.
  pose proof (bb_bits_length b Hb) as Hlen. set (n := (8 * Z.to_nat q)%nat) in *. assert (length (drop n (bb_bits b)) = Z.to_nat r) as Hlr by (rewrite length_drop; lia).
  assert (exists crc', (if 0 <? r then let* x := bb_extract b (q * 8) r in Some (put_byte p crc (u8 (Z.shiftl x (8 - r)))) else Some crc) = Some crc'
    /\ crc' = if (0 <? Z.to_nat r)%nat then put_byte p crc (bits_val (drop n (bb_bits b)) * 2 ^ Z.of_nat (8 - Z.to_nat r)) else crc) as (crc' & -> & ->).
  { destruct (0 <? r) eqn:E; breflect; [|exists crc; split; [done|]; by replace (Z.to_nat r) with 0%nat by lia]. destruct (bb_extract_spec b (q * 8) r Hb ltac:(lia) ltac:(lia) ltac:(lia)) as (x & -> & Hx & Hxb). eexists. split; [done|].
    destruct (Nat.ltb_spec 0 (Z.to_nat r)) as [_|]; [|lia]. replace (Z.to_nat (q * 8)) with n in Hxb by lia. rewrite (take_ge (drop n _)) in Hxb by lia. rewrite <-Hxb, bits_val_be by (rewrite Z2Nat.id by lia; lia).
    rewrite Z.shiftl_mul_pow2 by lia. replace (Z.of_nat (8 - Z.to_nat r)) with (8 - r) by lia. f_equal. apply u8_id. unfold is_u8.
    assert (2 ^ r * 2 ^ (8 - r) = 256) by (rewrite <-Z.pow_add_r by lia; replace (r + (8 - r)) with 8 by lia; done). assert (0 < 2 ^ (8 - r)) by lia. nia. }
  eexists. split; [done|]. pose proof (last_byte (take n (bb_bits b)) (drop n (bb_bits b)) (Z.to_nat r) crc (bits_val (bb_bits b)) ltac:(lia) Hlr ltac:(by rewrite take_drop) H) as Hlast.
  cbv zeta in Hlast. apply (finish_bits_spec p Hp (bits_val (bb_bits b)) (Z.to_nat r) _ ltac:(lia) Hlast).
Qed.
End Messages.

(** ** Results *)
(** A checksum after its message makes the checksum zero. *)
Lemma crc_of_checked p bits crc : is_crc p bits crc -> is_crc p (bits ++ bits_be (Z.to_nat (crc_order p)) crc) 0.
Proof.
  intros [Hc Hm]. destruct (crc_polynom_facts p) as (_ & _ & _ & Ho & _). split; [lia|]. rewrite Z.lxor_0_r. apply multiple_shift; [lia|].
  rewrite bits_val_app, bits_be_length, bits_val_be by (rewrite Z2Nat.id by lia; lia). rewrite Z2Nat.id by lia. rewrite <-Z.shiftl_mul_pow2 by lia.
  rewrite Z.add_nocarry_lxor; [done|]. apply Z.bits_inj'. intros i Hi. rewrite Z.land_spec, Z.testbit_0_l, Z.shiftl_spec by lia.
  destruct (decide (i < crc_order p)); [by rewrite Z.testbit_neg_r by lia|]. by rewrite (testbit_high crc (crc_order p)), andb_false_r by lia.
Qed.
(** C35: For the generator polynomials of more than eight bits the table driven calculators return the checksum of TS 38.212 section 5.1,
    the only number of the polynomial's order that makes the message followed by it divisible by the polynomial: for messages of bytes,
    of unpacked bits of any number, and of bit buffers of any size, where no access leaves the buffer. A message followed by its
    checksum has the checksum zero, which is how receivers use the calculator. *)
Theorem crc_lut_correct p : p <> CRC6 ->
  (forall l, bytes_ok l -> is_crc p (bytes_bits l) (calculate_byte p l)) /\
  (forall l, is_crc p l (calculate_bit p (map Z.b2z l))) /\
  (forall b, bb_ok b -> exists crc, calculate p b = Some crc /\ is_crc p (bb_bits b) crc) /\
  (forall l c c', is_crc p l c -> is_crc p l c' -> c = c') /\
  (forall l, calculate_bit p (map Z.b2z (l ++ bits_be (Z.to_nat (crc_order p)) (calculate_bit p (map Z.b2z l)))) = 0).
Proof.
  intros Hp. split; [intros l; by apply calculate_byte_crc|]. split; [intros l; by apply calculate_bit_crc|]. split; [intros b; by apply calculate_crc|]. split; [apply is_crc_unique|].
  intros l. eapply is_crc_unique; [by apply calculate_bit_crc|]. by apply crc_of_checked, calculate_bit_crc.
Qed.
Lemma crc_lut_correct_witness : bytes_ok [1; 2; 3] /\ is_crc CRC24A (bytes_bits [1; 2; 3]) (calculate_byte CRC24A [1; 2; 3]).
Proof. assert (bytes_ok [1; 2; 3]) as H by (repeat constructor; lia). split; [exact H|]. assert (CRC24A <> CRC6) as Hp by discriminate. exact (proj1 (crc_lut_correct CRC24A Hp) _ H). Defined.
(** The polynomial of six bits is not calculated: its table is built as if the polynomial were aligned to eight bits, without the
    alignment. The byte 1 has the checksum 33, and the calculator returns another number. *)
Theorem crc6_table_wrong : is_crc CRC6 (bytes_bits [1]) 33 /\ calculate_byte CRC6 [1] <> 33 /\ ~ is_crc CRC6 (bytes_bits [1]) (calculate_byte CRC6 [1]).
Proof.
  assert (is_crc CRC6 (bytes_bits [1]) 33) as H by (split; [cbn; lia|]; exists [true]; reflexivity). assert (calculate_byte CRC6 [1] <> 33) as Hne by (vm_compute; discriminate).
  split_and!; [done|done|]. intros H'. apply Hne. by eapply is_crc_unique.
Qed.
