(* ===== verification/F1u.v ===== *)
(** * F1-U bearers

    [lib/f1u/cu_up/f1u_bearer_impl.cpp] and [lib/f1u/du/f1u_bearer_impl.cpp] with their headers, and the
    NR-U messages between them ([f1u/common/nru_message.h]): downlink SDUs and discards from the PDCP of
    the CU-UP, uplink SDUs and delivery status from the RLC of the DU.

    Every handler maps the bearer to its new state and its calls on the notifiers; [None] is a failed
    assertion.  A timer is the flag whether it runs; its expiry is an operation. *)
From S2P Require Import Prelude PdcpTx.

(** ** NR-U messages *)
Definition nru_max_nof_pdcp_sn_discard_blocks : nat := 16.
Record nru_pdcp_sn_discard_block := DiscardBlock { pdcp_sn_start : Z; block_size : Z }.
Record nru_lost_nru_sn_range := LostNruSnRange { nru_sn_start : Z; nru_sn_end : Z }.
Record nru_dl_user_data := NruDlUserData {
  report_polling : bool;
  assist_info_report_polling_flag : bool;
  retransmission_flag : bool;
  nru_sn : Z;
  dl_discard_pdcp_sn : option Z;
  dud_discard_blocks : option (list nru_pdcp_sn_discard_block);
}.
Record nru_dl_data_delivery_status := NruDlDataDeliveryStatus {
  final_frame_ind : bool;
  desired_buffer_size_for_drb : Z;
  desired_data_rate : option Z;
  lost_nru_sn_ranges : option (list nru_lost_nru_sn_range);
  dds_highest_delivered_pdcp_sn : option Z;
  dds_highest_transmitted_pdcp_sn : option Z;
  cause_value : option Z;
  highest_delivered_retransmitted_pdcp_sn : option Z;
  highest_retransmitted_pdcp_sn : option Z;
}.
Record nru_dl_message := NruDlMessage { dl_t_pdu : bytes; dl_pdcp_sn : option Z; dl_user_data : nru_dl_user_data }.
Record nru_ul_message := NruUlMessage {
  ul_t_pdu : bytes;
  data_delivery_status : option nru_dl_data_delivery_status;
  assistance_information : option unit;
}.
(** The messages as they are declared ([= {}]). *)
Definition nru_dl_user_data_init : nru_dl_user_data := NruDlUserData false false false 0 None None.
Definition nru_dl_message_init : nru_dl_message := NruDlMessage [] None nru_dl_user_data_init.
Definition nru_ul_message_init : nru_ul_message := NruUlMessage [] None None.
Definition nru_dl_data_delivery_status_init : nru_dl_data_delivery_status :=
  NruDlDataDeliveryStatus false 0 None None None None None None None.
Definition with_discard_blocks (msg : nru_dl_message) (bl : list nru_pdcp_sn_discard_block) : nru_dl_message :=
  let d := dl_user_data msg in
  NruDlMessage (dl_t_pdu msg) (dl_pdcp_sn msg)
    (NruDlUserData (report_polling d) (assist_info_report_polling_flag d) (retransmission_flag d) (nru_sn d) (dl_discard_pdcp_sn d) (Some bl)).

(** ** Bearer of the CU-UP *)
Record f1u_cu := F1uCu { cu_ul_teid : Z; dl_notif_timer : bool; discard_blocks : list nru_pdcp_sn_discard_block }.
Inductive f1u_cu_event :=
  | cu_new_pdu (msg : nru_dl_message)
  | cu_new_sdu (sdu : bytes)
  | cu_delivery_notification (sn : Z)
  | cu_transmit_notification (sn : Z).
Definition f1u_cu_new (ul_teid : Z) : f1u_cu := F1uCu ul_teid false [].

Definition cu_handle_pdu (msg : nru_ul_message) : list f1u_cu_event :=
  (match ul_t_pdu msg with [] => [] | sdu => [cu_new_sdu sdu] end) ++
  match data_delivery_status msg with
  | None => []
  | Some status =>
      (match dds_highest_delivered_pdcp_sn status with Some sn => [cu_delivery_notification sn] | None => [] end) ++
      (match dds_highest_transmitted_pdcp_sn status with Some sn => [cu_transmit_notification sn] | None => [] end)
  end.
Definition fill_discard_blocks (b : f1u_cu) (msg : nru_dl_message) : f1u_cu * nru_dl_message :=
  match discard_blocks b with
  | [] => (b, msg)
  | bl => (F1uCu (cu_ul_teid b) (dl_notif_timer b) [], with_discard_blocks msg bl)
  end.
Definition stop_dl_notif_timer (b : f1u_cu) : f1u_cu := F1uCu (cu_ul_teid b) false (discard_blocks b).
Definition cu_handle_sdu (b : f1u_cu) (sdu : pdcp_tx_pdu) : f1u_cu * list f1u_cu_event :=
  let msg := NruDlMessage (pdu_buf sdu) (pdu_pdcp_sn sdu) nru_dl_user_data_init in
  let '(b, msg) := fill_discard_blocks b msg in
  (stop_dl_notif_timer b, [cu_new_pdu msg]).
Definition flush_discard_blocks (b : f1u_cu) : f1u_cu * list f1u_cu_event :=
  let '(b, msg) := fill_discard_blocks b nru_dl_message_init in
  (stop_dl_notif_timer b, match dud_discard_blocks (dl_user_data msg) with Some _ => [cu_new_pdu msg] | None => [] end).
Definition on_expired_dl_notif_timer (b : f1u_cu) : f1u_cu * list f1u_cu_event :=
  flush_discard_blocks (F1uCu (cu_ul_teid b) false (discard_blocks b)).
(** [push_back] of the [static_vector], which asserts that there is room. *)
Definition push_discard_block (bl : list nru_pdcp_sn_discard_block) (sn : Z) : option (list nru_pdcp_sn_discard_block) :=
  if (length bl <? nru_max_nof_pdcp_sn_discard_blocks)%nat then Some (bl ++ [DiscardBlock sn 1]) else None.
Definition cu_discard_sdu (b : f1u_cu) (pdcp_sn : Z) : option (f1u_cu * list f1u_cu_event) :=
  let teid := cu_ul_teid b in
  match list.last (discard_blocks b) with
  | None => let* bl := push_discard_block (discard_blocks b) pdcp_sn in Some (F1uCu teid true bl, [])
  | Some last_block =>
      if u32 (pdcp_sn_start last_block + block_size last_block) =? pdcp_sn then
        Some (F1uCu teid true (removelast (discard_blocks b) ++
                               [DiscardBlock (pdcp_sn_start last_block) (u8 (block_size last_block + 1))]), [])
      else
        let* bl := push_discard_block (discard_blocks b) pdcp_sn in
        let b := F1uCu teid true bl in
        if (length bl =? nru_max_nof_pdcp_sn_discard_blocks)%nat then Some (flush_discard_blocks b) else Some (b, [])
  end.

(** ** Bearer of the DU *)
Definition unset_pdcp_sn : Z := 2 ^ 32 - 1.
Record f1u_du := F1uDu {
  ul_notif_timer : bool;
  highest_transmitted_pdcp_sn : Z;
  highest_delivered_pdcp_sn : Z;
  notif_highest_transmitted_pdcp_sn : Z;
  notif_highest_delivered_pdcp_sn : Z;
}.
Inductive f1u_du_event :=
  | du_new_pdu (msg : nru_ul_message)
  | du_new_sdu (sdu : pdcp_tx_pdu)
  | du_discard_sdu (sn : Z).
Definition f1u_du_new : f1u_du := F1uDu true unset_pdcp_sn unset_pdcp_sn unset_pdcp_sn unset_pdcp_sn.

(** The numbers the loop over a block notifies. *)
Definition block_sns (block : nru_pdcp_sn_discard_block) : list Z :=
  let pdcp_sn_end := u32 (pdcp_sn_start block + block_size block) in
  map (fun i => pdcp_sn_start block + Z.of_nat i) (seq 0 (Z.to_nat (pdcp_sn_end - pdcp_sn_start block))).
Definition du_handle_pdu (msg : nru_dl_message) : list f1u_du_event :=
  (match dl_t_pdu msg with [] => [] | buf => [du_new_sdu (PdcpTxPdu buf (dl_pdcp_sn msg))] end) ++
  match dud_discard_blocks (dl_user_data msg) with
  | None => []
  | Some blocks => concat (map (fun block => map du_discard_sdu (block_sns block)) blocks)
  end.
Definition du_handle_transmit_notification (b : f1u_du) (sn : Z) : f1u_du :=
  F1uDu (ul_notif_timer b) sn (highest_delivered_pdcp_sn b) (notif_highest_transmitted_pdcp_sn b) (notif_highest_delivered_pdcp_sn b).
Definition du_handle_delivery_notification (b : f1u_du) (sn : Z) : f1u_du :=
  F1uDu (ul_notif_timer b) (highest_transmitted_pdcp_sn b) sn (notif_highest_transmitted_pdcp_sn b) (notif_highest_delivered_pdcp_sn b).
Definition fill_highest_transmitted_pdcp_sn (b : f1u_du) (s : nru_dl_data_delivery_status) : f1u_du * nru_dl_data_delivery_status * bool :=
  let cur := highest_transmitted_pdcp_sn b in
  if negb (cur =? notif_highest_transmitted_pdcp_sn b) then
    (F1uDu (ul_notif_timer b) cur (highest_delivered_pdcp_sn b) cur (notif_highest_delivered_pdcp_sn b),
     NruDlDataDeliveryStatus (final_frame_ind s) (desired_buffer_size_for_drb s) (desired_data_rate s) (lost_nru_sn_ranges s)
       (dds_highest_delivered_pdcp_sn s) (Some cur) (cause_value s) (highest_delivered_retransmitted_pdcp_sn s) (highest_retransmitted_pdcp_sn s), true)
  else (b, s, false).
Definition fill_highest_delivered_pdcp_sn (b : f1u_du) (s : nru_dl_data_delivery_status) : f1u_du * nru_dl_data_delivery_status * bool :=
  let cur := highest_delivered_pdcp_sn b in
  if negb (cur =? notif_highest_delivered_pdcp_sn b) then
    (F1uDu (ul_notif_timer b) (highest_transmitted_pdcp_sn b) cur (notif_highest_transmitted_pdcp_sn b) cur,
     NruDlDataDeliveryStatus (final_frame_ind s) (desired_buffer_size_for_drb s) (desired_data_rate s) (lost_nru_sn_ranges s)
       (Some cur) (dds_highest_transmitted_pdcp_sn s) (cause_value s) (highest_delivered_retransmitted_pdcp_sn s) (highest_retransmitted_pdcp_sn s), true)
  else (b, s, false).
Definition fill_data_delivery_status (b : f1u_du) (msg : nru_ul_message) : f1u_du * nru_ul_message :=
  let '(b, status, changed1) := fill_highest_transmitted_pdcp_sn b nru_dl_data_delivery_status_init in
  let '(b, status, changed2) := fill_highest_delivered_pdcp_sn b status in
  let msg := if changed1 || changed2 then NruUlMessage (ul_t_pdu msg) (Some status) (assistance_information msg) else msg in
  (F1uDu true (highest_transmitted_pdcp_sn b) (highest_delivered_pdcp_sn b) (notif_highest_transmitted_pdcp_sn b) (notif_highest_delivered_pdcp_sn b), msg).
Definition du_handle_sdu (b : f1u_du) (sdu : bytes) : f1u_du * list f1u_du_event :=
  let '(b, msg) := fill_data_delivery_status b (NruUlMessage sdu None None) in (b, [du_new_pdu msg]).
Definition on_expired_ul_notif_timer (b : f1u_du) : f1u_du * list f1u_du_event :=
  let b := F1uDu false (highest_transmitted_pdcp_sn b) (highest_delivered_pdcp_sn b) (notif_highest_transmitted_pdcp_sn b) (notif_highest_delivered_pdcp_sn b) in
  let '(b, msg) := fill_data_delivery_status b nru_ul_message_init in
  (b, match data_delivery_status msg with Some _ => [du_new_pdu msg] | None => [] end).
