(* ===== verification/F1uThms.v ===== *)
(** * F1-U bearers: results

    The two bearers of a radio bearer over a connection that loses nothing, as the local connector provides it:
    what the PDCP of the CU-UP hands over reaches the RLC of the DU, and the status of the RLC reaches the PDCP. *)
From S2P Require Import Prelude PdcpTx F1u.

(** ** Downlink *)
Inductive cu_op := cu_op_sdu (sdu : pdcp_tx_pdu) | cu_op_discard (sn : Z) | cu_op_expire.
(** A timer that does not run does not expire. *)
Definition cu_step (b : f1u_cu) (op : cu_op) : option (f1u_cu * list f1u_cu_event) :=
  match op with
  | cu_op_sdu sdu => Some (cu_handle_sdu b sdu)
  | cu_op_discard sn => cu_discard_sdu b sn
  | cu_op_expire => Some (if dl_notif_timer b then on_expired_dl_notif_timer b else (b, []))
  end.
(** The calls of the DU's bearer for the messages of the CU-UP's bearer. *)
Definition dl_deliver (evs : list f1u_cu_event) : list f1u_du_event :=
  concat (map (fun e => match e with cu_new_pdu msg => du_handle_pdu msg | _ => [] end) evs).
Fixpoint dl_run (b : f1u_cu) (ops : list cu_op) : option (f1u_cu * list f1u_du_event) :=
  match ops with
  | [] => Some (b, [])
  | op :: ops =>
      let* (b, evs) := cu_step b op in
      let* (b, evs') := dl_run b ops in Some (b, dl_deliver evs ++ evs')
  end.
Definition sdus_in (ops : list cu_op) : list pdcp_tx_pdu := omap (fun op => match op with cu_op_sdu s => Some s | _ => None end) ops.
Definition discards_in (ops : list cu_op) : list Z := omap (fun op => match op with cu_op_discard n => Some n | _ => None end) ops.
Definition sdus_out (evs : list f1u_du_event) : list pdcp_tx_pdu := omap (fun e => match e with du_new_sdu s => Some s | _ => None end) evs.
Definition discards_out (evs : list f1u_du_event) : list Z := omap (fun e => match e with du_discard_sdu n => Some n | _ => None end) evs.
(** The numbers from [s] on. *)
Definition sn_range (s : Z) (n : nat) : list Z := map (fun i => s + Z.of_nat i) (seq 0 n).
Definition pending (b : f1u_cu) : list Z := concat (map block_sns (discard_blocks b)).
(** No 256 discards in a row have consecutive numbers. *)
Definition short_runs (l : list Z) : Prop := forall s l1 l2, l <> l1 ++ sn_range s 256 ++ l2.
Definition cu_op_ok (op : cu_op) : Prop :=
  match op with cu_op_sdu sdu => pdu_buf sdu <> [] | cu_op_discard sn => 0 <= sn < 2 ^ 18 | cu_op_expire => True end.

(** The invariant: the timer runs while discards are pending, there is room for a block, and blocks are not empty. *)
Definition block_ok (bl : nru_pdcp_sn_discard_block) : Prop := 0 <= pdcp_sn_start bl < 2 ^ 18 /\ 1 <= block_size bl <= 255.
Record cu_ok (b : f1u_cu) : Prop := {
  cuo_timer : dl_notif_timer b = negb (bool_decide (discard_blocks b = []));
  cuo_room : (length (discard_blocks b) < nru_max_nof_pdcp_sn_discard_blocks)%nat;
  cuo_blocks : Forall block_ok (discard_blocks b);
}.
Lemma sn_range_S s n : sn_range s (S n) = sn_range s n ++ [s + Z.of_nat n].
Proof. unfold sn_range. by rewrite seq_S, map_app. Qed.
Lemma block_sns_range bl : block_ok bl -> block_sns bl = sn_range (pdcp_sn_start bl) (Z.to_nat (block_size bl)).
Proof.
  intros [Hs Hb]. unfold block_sns, sn_range. rewrite u32_id by (unfold is_u32; lia). do 2 f_equal. lia.
Qed.
Lemma discards_out_map l : discards_out (map du_discard_sdu l) = l.
Proof. induction l as [|x l IH]; [done|]. cbn. by f_equal. Qed.
Lemma sdus_out_map l : sdus_out (map du_discard_sdu l) = [].
Proof. by induction l. Qed.
Lemma sdus_out_app l1 l2 : sdus_out (l1 ++ l2) = sdus_out l1 ++ sdus_out l2.
Proof. apply omap_app. Qed.
Lemma discards_out_app l1 l2 : discards_out (l1 ++ l2) = discards_out l1 ++ discards_out l2.
Proof. apply omap_app. Qed.
(** What a message with the pending blocks tells the RLC. *)
Lemma handle_blocks bls : concat (map (fun block => map du_discard_sdu (block_sns block)) bls) = map du_discard_sdu (concat (map block_sns bls)).
Proof. induction bls as [|bl bls IH]; [done|]. cbn [map concat]. by rewrite IH, map_app. Qed.
Lemma deliver_sdu b sdu : pdu_buf sdu <> [] -> dl_deliver (cu_handle_sdu b sdu).2 = du_new_sdu sdu :: map du_discard_sdu (pending b).
Proof.
  intros Hne. unfold cu_handle_sdu, fill_discard_blocks, pending. destruct sdu as [[|x buf] sn]; [done|]. destruct (discard_blocks b) as [|bl bls] eqn:E; [done|].
  cbn -[map concat]. unfold dl_deliver. cbn [map concat]. rewrite app_nil_r. unfold du_handle_pdu. cbn [dl_t_pdu with_discard_blocks dl_user_data dud_discard_blocks dl_pdcp_sn]. by rewrite handle_blocks.
Qed.
Lemma deliver_flush b : dl_deliver (flush_discard_blocks b).2 = map du_discard_sdu (pending b).
Proof.
  unfold flush_discard_blocks, fill_discard_blocks, pending. destruct (discard_blocks b) as [|bl bls] eqn:E; [done|]. cbn -[map concat]. unfold dl_deliver. cbn [map concat]. rewrite app_nil_r.
  unfold du_handle_pdu. cbn [dl_t_pdu with_discard_blocks dl_user_data dud_discard_blocks nru_dl_message_init app]. apply handle_blocks.
Qed.
Lemma flush_state b : (flush_discard_blocks b).1 = F1uCu (cu_ul_teid b) false [].
Proof. unfold flush_discard_blocks, fill_discard_blocks, stop_dl_notif_timer. by destruct (discard_blocks b) eqn:E; cbn; rewrite ?E. Qed.
Lemma sdu_state b sdu : (cu_handle_sdu b sdu).1 = F1uCu (cu_ul_teid b) false [].
Proof. unfold cu_handle_sdu, fill_discard_blocks, stop_dl_notif_timer. by destruct (discard_blocks b) eqn:E; cbn; rewrite ?E. Qed.
Lemma cu_ok_empty t : cu_ok (F1uCu t false []).
Proof. split; [done|cbn; unfold nru_max_nof_pdcp_sn_discard_blocks; lia|constructor]. Qed.
(** A discard is appended to what is pending; [D] are the discards before. *)
Lemma discard_step b sn D Del : cu_ok b -> 0 <= sn < 2 ^ 18 -> D = Del ++ pending b -> short_runs (D ++ [sn]) ->
  exists b' evs, cu_discard_sdu b sn = Some (b', evs) /\ cu_ok b' /\ cu_ul_teid b' = cu_ul_teid b /\
    exists dis, dl_deliver evs = map du_discard_sdu dis /\ D ++ [sn] = (Del ++ dis) ++ pending b'.
Proof.
  intros [Ht Hr Hb] Hsn HD Hrun. unfold cu_discard_sdu. assert (block_ok (DiscardBlock sn 1)) as Hnew by (split; cbn; lia).
  assert (pending (F1uCu (cu_ul_teid b) true (discard_blocks b ++ [DiscardBlock sn 1])) = pending b ++ [sn]) as Hpush.
  { unfold pending. cbn [discard_blocks]. rewrite map_app, concat_app. cbn [map concat]. rewrite app_nil_r, block_sns_range by done. f_equal. unfold sn_range. change (Z.to_nat (block_size (DiscardBlock sn 1))) with 1%nat. cbn [seq map pdcp_sn_start]. f_equal. lia. }
  unfold push_discard_block. rewrite (proj2 (Nat.ltb_lt _ _) Hr). destruct (discard_blocks b) as [|bl bls _] eqn:E using rev_ind.
  - exists (F1uCu (cu_ul_teid b) true [DiscardBlock sn 1]), []. split; [done|]. split; [split; [done|cbn; unfold nru_max_nof_pdcp_sn_discard_blocks; lia|by apply Forall_singleton]|]. split; [done|].
    exists []. split; [done|]. cbn [app] in Hpush. by rewrite Hpush, app_nil_r, HD, app_assoc.
  - rewrite last_snoc. apply Forall_app in Hb as [Hbls Hbl]. apply Forall_cons_1 in Hbl as [Hbl _]. pose proof Hbl as [Hst Hsz]. rewrite u32_id by (unfold is_u32; lia).
    destruct (pdcp_sn_start bl + block_size bl =? sn) eqn:Eq; breflect.
    + assert (block_size bl <> 255) as Hne.
      { intros Hfull. apply (Hrun (pdcp_sn_start bl) (Del ++ concat (map block_sns bls)) []). rewrite HD. unfold pending. rewrite E, map_app, concat_app. cbn [map concat]. rewrite !app_nil_r, block_sns_range by done.
        rewrite Hfull. change (Z.to_nat 255) with 255%nat. rewrite <-!app_assoc. do 2 f_equal. rewrite (sn_range_S _ 255). do 2 f_equal. lia. }
      set (bl' := DiscardBlock (pdcp_sn_start bl) (u8 (block_size bl + 1))). assert (u8 (block_size bl + 1) = block_size bl + 1) as Hu by (apply u8_id; unfold is_u8; lia).
      assert (block_ok bl') as Hbl' by (unfold bl'; rewrite Hu; split; cbn; lia). rewrite removelast_last. eexists _, []. split; [done|]. split; [split; cbn [dl_notif_timer discard_blocks]|].
      * symmetry. apply negb_true_iff, bool_decide_eq_false. by destruct bls.
      * rewrite !length_app in *. cbn [length] in *. lia.
      * apply Forall_app. split; [done|]. by apply Forall_singleton.
      * split; [done|]. exists []. split; [done|]. rewrite app_nil_r, HD. unfold pending. cbn [discard_blocks]. rewrite E, !map_app, !concat_app. cbn [map concat]. rewrite !app_nil_r, !block_sns_range by done. unfold bl'. rewrite Hu. cbn [pdcp_sn_start block_size].
        replace (Z.to_nat (block_size bl + 1)) with (S (Z.to_nat (block_size bl))) by lia. rewrite sn_range_S, <-!app_assoc. do 4 f_equal. lia.
    + destruct (length ((bls ++ [bl]) ++ [DiscardBlock sn 1]) =? nru_max_nof_pdcp_sn_discard_blocks)%nat eqn:Ef.
      * set (b1 := F1uCu _ true _). pose proof (flush_state b1) as Hfs. pose proof (deliver_flush b1) as Hfd. destruct (flush_discard_blocks b1) as [b2 evs]. cbn [fst snd] in Hfs, Hfd. exists b2, evs. split; [done|]. rewrite Hfs. split; [apply cu_ok_empty|]. split; [done|].
        exists (pending b1). split; [done|]. unfold b1. rewrite Hpush, HD. unfold pending at 3. cbn. by rewrite app_nil_r, app_assoc.
      * eexists _, []. split; [done|]. apply Nat.eqb_neq in Ef. split; [split; cbn [dl_notif_timer discard_blocks]|].
        -- symmetry. apply negb_true_iff, bool_decide_eq_false. by destruct bls.
        -- rewrite !length_app in *. cbn [length] in *. lia.
        -- apply Forall_app. split; [apply Forall_app; split; [done|]|]; by apply Forall_singleton.
        -- split; [done|]. exists []. split; [done|]. by rewrite app_nil_r, Hpush, HD, app_assoc.
Qed.
Lemma short_runs_prefix l l' : short_runs (l ++ l') -> short_runs l.
Proof. intros H s l1 l2 ->. apply (H s l1 (l2 ++ l')). by rewrite <-!app_assoc. Qed.
Lemma dl_run_correct ops : forall b D Del, cu_ok b -> D = Del ++ pending b -> Forall cu_op_ok ops -> short_runs (D ++ discards_in ops) ->
  exists b' evs, dl_run b ops = Some (b', evs) /\ cu_ok b' /\ sdus_out evs = sdus_in ops /\ D ++ discards_in ops = (Del ++ discards_out evs) ++ pending b'.
Proof.
  induction ops as [|op ops IH]; intros b D Del Hok HD Hops Hrun; [exists b, []; split_and!; [done|done|done|]; cbn; by rewrite !app_nil_r|].
  apply Forall_cons_1 in Hops as [Hop Hops]. cbn [dl_run]. destruct op as [sdu|sn|]; cbn [cu_step].
  - pose proof (sdu_state b sdu) as Hs. pose proof (deliver_sdu b sdu Hop) as Hd. destruct (cu_handle_sdu b sdu) as [b1 evs1]. cbn [fst snd] in Hs, Hd. subst b1. rewrite Hd.
    destruct (IH _ D D (cu_ok_empty (cu_ul_teid b)) ltac:(unfold pending; cbn; by rewrite app_nil_r) Hops Hrun) as (b' & evs & -> & Hok' & Hsdu & Hdis). eexists b', _. split; [done|]. split; [done|]. split.
    + cbn. rewrite sdus_out_app, sdus_out_map, Hsdu. done.
    + cbn. rewrite discards_out_app, discards_out_map. cbn in Hdis. by rewrite (app_assoc Del), <-HD.
  - change (discards_in (cu_op_discard sn :: ops)) with (sn :: discards_in ops) in *. change (sn :: discards_in ops) with ([sn] ++ discards_in ops) in *. rewrite app_assoc in *.
    destruct (discard_step b sn D Del Hok Hop HD (short_runs_prefix _ _ Hrun)) as (b1 & evs1 & -> & Hok1 & _ & dis & Hdel & HD1). destruct (IH b1 _ _ Hok1 HD1 Hops Hrun) as (b' & evs & -> & Hok' & Hsdu & Hdis). eexists b', _. split; [done|]. split; [done|]. rewrite Hdel. split.
    + by rewrite sdus_out_app, sdus_out_map, Hsdu.
    + by rewrite discards_out_app, discards_out_map, app_assoc.
  - destruct (dl_notif_timer b).
    + unfold on_expired_dl_notif_timer. set (b0 := F1uCu (cu_ul_teid b) false (discard_blocks b)). pose proof (flush_state b0) as Hs. pose proof (deliver_flush b0) as Hd. destruct (flush_discard_blocks b0) as [b1 evs1]. cbn [fst snd] in Hs, Hd. subst b1. rewrite Hd. change (cu_ul_teid b0) with (cu_ul_teid b).
      destruct (IH _ D D (cu_ok_empty (cu_ul_teid b)) ltac:(unfold pending; cbn; by rewrite app_nil_r) Hops Hrun) as (b' & evs & -> & Hok' & Hsdu & Hdis). eexists b', _. split; [done|]. split; [done|]. split.
      * by rewrite sdus_out_app, sdus_out_map, Hsdu.
      * rewrite discards_out_app, discards_out_map, (app_assoc Del). change (pending b0) with (pending b). by rewrite <-HD.
    + destruct (IH b D Del Hok HD Hops Hrun) as (b' & evs & -> & Hok' & Hsdu & Hdis). by eexists b', _.
Qed.
(** C15: Downlink over F1-U: for every sequence of SDUs, discards and timer expiries at the CU-UP's bearer in which no 256 discards in a
    row have consecutive SNs, no assertion fails, the RLC of the DU is given every SDU with its SN at once and in order, and is told
    exactly the discards, in order; those not yet told are held in the bearer, in less than 16 blocks, with the timer running
    that sends them. *)
Theorem f1u_downlink_transparent teid ops : Forall cu_op_ok ops -> short_runs (discards_in ops) ->
  exists b evs, dl_run (f1u_cu_new teid) ops = Some (b, evs) /\ sdus_out evs = sdus_in ops /\ discards_out evs ++ pending b = discards_in ops /\
    (length (discard_blocks b) < nru_max_nof_pdcp_sn_discard_blocks)%nat /\ (dl_notif_timer b = false -> pending b = []) /\
    (forall evs', cu_step b cu_op_expire = Some evs' -> pending evs'.1 = [] /\ dl_deliver evs'.2 = map du_discard_sdu (pending b)).
Proof.
  intros Hops Hrun. destruct (dl_run_correct ops (f1u_cu_new teid) [] [] (cu_ok_empty teid) eq_refl Hops Hrun) as (b & evs & Heq & [Ht Hr _] & Hsdu & Hdis). exists b, evs. split_and!; [done|done|by symmetry|done| |].
  - intros Hf. rewrite Hf in Ht. symmetry in Ht. apply negb_false_iff, bool_decide_eq_true in Ht. unfold pending. by rewrite Ht.
  - intros evs'. cbn [cu_step]. destruct (dl_notif_timer b) eqn:Etm; intros [= <-].
    + unfold on_expired_dl_notif_timer. rewrite flush_state, deliver_flush. done.
    + symmetry in Ht. apply negb_false_iff, bool_decide_eq_true in Ht. cbn [fst snd]. unfold pending. rewrite Ht. done.
Qed.
Lemma f1u_downlink_transparent_witness : exists b evs, dl_run (f1u_cu_new 1) [cu_op_sdu (PdcpTxPdu [1; 2] (Some 0)); cu_op_discard 0; cu_op_discard 1] = Some (b, evs) /\ discards_out evs ++ pending b = [0; 1].
Proof.
  assert (Forall cu_op_ok [cu_op_sdu (PdcpTxPdu [1; 2] (Some 0)); cu_op_discard 0; cu_op_discard 1]) as H1 by (constructor; [discriminate|constructor; [cbn; lia|constructor; [cbn; lia|constructor]]]).
  assert (short_runs (discards_in [cu_op_sdu (PdcpTxPdu [1; 2] (Some 0)); cu_op_discard 0; cu_op_discard 1])) as H2 by (intros s l1 l2 H; apply (f_equal length) in H; rewrite !length_app in H; unfold sn_range in H; rewrite length_map, length_seq in H; cbn [length discards_in omap list_omap] in H; lia).
  destruct (f1u_downlink_transparent 1 _ H1 H2) as (b & evs & Heq & _ & Hd & _). exists b, evs. split; [exact Heq|exact Hd].
Defined.
(** The size of a block is a byte: 256 discards with consecutive SNs before the bearer sends leave a block of size zero, and the RLC
    is told none of them. *)
Theorem f1u_long_run_lost : exists b evs, dl_run (f1u_cu_new 1) (map cu_op_discard (sn_range 0 256) ++ [cu_op_expire]) = Some (b, evs) /\ evs = [] /\ pending b = [] /\ discard_blocks b = [].
Proof. eexists _, _. split; [vm_compute; reflexivity|]. done. Qed.

(** ** Uplink *)
Inductive du_op := du_op_sdu (sdu : bytes) | du_op_transmitted (sn : Z) | du_op_delivered (sn : Z) | du_op_expire.
Definition du_step (b : f1u_du) (op : du_op) : f1u_du * list f1u_du_event :=
  match op with
  | du_op_sdu sdu => du_handle_sdu b sdu
  | du_op_transmitted sn => (du_handle_transmit_notification b sn, [])
  | du_op_delivered sn => (du_handle_delivery_notification b sn, [])
  | du_op_expire => if ul_notif_timer b then on_expired_ul_notif_timer b else (b, [])
  end.
Definition ul_deliver (evs : list f1u_du_event) : list f1u_cu_event :=
  concat (map (fun e => match e with du_new_pdu msg => cu_handle_pdu msg | _ => [] end) evs).
Fixpoint ul_run (b : f1u_du) (ops : list du_op) : f1u_du * list f1u_cu_event :=
  match ops with
  | [] => (b, [])
  | op :: ops => let '(b, evs) := du_step b op in let '(b, evs') := ul_run b ops in (b, ul_deliver evs ++ evs')
  end.
Definition ul_sdus_in (ops : list du_op) : list bytes := omap (fun op => match op with du_op_sdu s => Some s | _ => None end) ops.
Definition ul_sdus_out (evs : list f1u_cu_event) : list bytes := omap (fun e => match e with cu_new_sdu s => Some s | _ => None end) evs.
Definition transmits_out (evs : list f1u_cu_event) : list Z := omap (fun e => match e with cu_transmit_notification n => Some n | _ => None end) evs.
Definition deliveries_out (evs : list f1u_cu_event) : list Z := omap (fun e => match e with cu_delivery_notification n => Some n | _ => None end) evs.
(** The value [f] stores at every opportunity to report: an SDU or the expiry of the timer. *)
Fixpoint samples (f : du_op -> option Z) (cur : Z) (ops : list du_op) : list Z :=
  match ops with
  | [] => []
  | op :: ops =>
      let cur := default cur (f op) in
      match op with du_op_sdu _ | du_op_expire => cur :: samples f cur ops | _ => samples f cur ops end
  end.
Definition transmitted (op : du_op) : option Z := match op with du_op_transmitted n => Some n | _ => None end.
Definition delivered (op : du_op) : option Z := match op with du_op_delivered n => Some n | _ => None end.
(** The changes in a sequence of values. *)
Fixpoint changes (prev : Z) (l : list Z) : list Z :=
  match l with [] => [] | x :: l => if x =? prev then changes prev l else x :: changes x l end.

Lemma ul_app_out l1 l2 : ul_sdus_out (l1 ++ l2) = ul_sdus_out l1 ++ ul_sdus_out l2 /\ transmits_out (l1 ++ l2) = transmits_out l1 ++ transmits_out l2 /\ deliveries_out (l1 ++ l2) = deliveries_out l1 ++ deliveries_out l2.
Proof. split_and!; apply omap_app. Qed.
(** What a message tells the CU-UP. *)
Lemma status_spec b sdu : let '(b', msg) := fill_data_delivery_status b (NruUlMessage sdu None None) in
  ul_notif_timer b' = true /\ highest_transmitted_pdcp_sn b' = highest_transmitted_pdcp_sn b /\ highest_delivered_pdcp_sn b' = highest_delivered_pdcp_sn b /\
  notif_highest_transmitted_pdcp_sn b' = highest_transmitted_pdcp_sn b /\ notif_highest_delivered_pdcp_sn b' = highest_delivered_pdcp_sn b /\
  ul_sdus_out (cu_handle_pdu msg) = (if decide (sdu = []) then [] else [sdu]) /\
  transmits_out (cu_handle_pdu msg) = changes (notif_highest_transmitted_pdcp_sn b) [highest_transmitted_pdcp_sn b] /\
  deliveries_out (cu_handle_pdu msg) = changes (notif_highest_delivered_pdcp_sn b) [highest_delivered_pdcp_sn b] /\
  (data_delivery_status msg = None -> transmits_out (cu_handle_pdu msg) = [] /\ deliveries_out (cu_handle_pdu msg) = []).
Proof.
  unfold fill_data_delivery_status, fill_highest_transmitted_pdcp_sn, fill_highest_delivered_pdcp_sn, cu_handle_pdu, changes. destruct b as [t ht hd nt nd]. cbn.
  destruct (ht =? nt) eqn:E1; cbn; destruct (hd =? nd) eqn:E2; cbn; rewrite ?E1, ?E2; breflect; destruct sdu; cbn; split_and!; try done; intros H; discriminate H.
Qed.

Lemma expire_spec b : let '(b', evs) := on_expired_ul_notif_timer b in
  ul_notif_timer b' = true /\ highest_transmitted_pdcp_sn b' = highest_transmitted_pdcp_sn b /\ highest_delivered_pdcp_sn b' = highest_delivered_pdcp_sn b /\
  notif_highest_transmitted_pdcp_sn b' = highest_transmitted_pdcp_sn b /\ notif_highest_delivered_pdcp_sn b' = highest_delivered_pdcp_sn b /\ ul_sdus_out (ul_deliver evs) = [] /\
  transmits_out (ul_deliver evs) = changes (notif_highest_transmitted_pdcp_sn b) [highest_transmitted_pdcp_sn b] /\ deliveries_out (ul_deliver evs) = changes (notif_highest_delivered_pdcp_sn b) [highest_delivered_pdcp_sn b].
Proof.
  unfold on_expired_ul_notif_timer. set (b0 := F1uDu false _ _ _ _). pose proof (status_spec b0 []) as H. change nru_ul_message_init with (NruUlMessage [] None None). destruct (fill_data_delivery_status b0 (NruUlMessage [] None None)) as [b' msg].
  destruct H as (H1 & H2 & H3 & H4 & H5 & H6 & H7 & H8 & H9). cbn in H2, H3, H4, H5, H7, H8. destruct (data_delivery_status msg) eqn:E.
  - unfold ul_deliver. cbn [map concat]. rewrite app_nil_r. done.
  - destruct (H9 eq_refl) as [Ha Hb]. rewrite Ha in H7. rewrite Hb in H8. done.
Qed.
Lemma changes_cons prev x l : changes prev (x :: l) = changes prev [x] ++ changes x l.
Proof. cbn. destruct (x =? prev) eqn:E; breflect; [by subst|done]. Qed.
Lemma ul_run_correct ops : forall b, ul_notif_timer b = true -> Forall (fun op => op <> du_op_sdu []) ops ->
  let '(b', evs) := ul_run b ops in ul_notif_timer b' = true /\ ul_sdus_out evs = ul_sdus_in ops /\
    transmits_out evs = changes (notif_highest_transmitted_pdcp_sn b) (samples transmitted (highest_transmitted_pdcp_sn b) ops) /\
    deliveries_out evs = changes (notif_highest_delivered_pdcp_sn b) (samples delivered (highest_delivered_pdcp_sn b) ops).
Proof.
  induction ops as [|op ops IH]; intros b Ht Hops; [done|]. apply Forall_cons_1 in Hops as [Hop Hops]. cbn [ul_run]. destruct op as [sdu|sn|sn|]; cbn [du_step samples transmitted delivered default].
  - unfold du_handle_sdu. pose proof (status_spec b sdu) as H. destruct (fill_data_delivery_status b _) as [b1 msg]. destruct H as (H1 & H2 & H3 & H4 & H5 & H6 & H7 & H8 & _).
    specialize (IH b1 H1 Hops). destruct (ul_run b1 ops) as [b' evs]. destruct IH as (I1 & I2 & I3 & I4). unfold ul_deliver. cbn [map concat]. rewrite app_nil_r. destruct (ul_app_out (cu_handle_pdu msg) evs) as (-> & -> & ->).
    rewrite H6, H7, H8, I2, I3, I4, H2, H3, H4, H5, !(changes_cons _ _ (samples _ _ _)). destruct (decide (sdu = [])) as [->|]; done.
  - specialize (IH (du_handle_transmit_notification b sn) Ht Hops). destruct (ul_run _ ops) as [b' evs]. done.
  - specialize (IH (du_handle_delivery_notification b sn) Ht Hops). destruct (ul_run _ ops) as [b' evs]. done.
  - rewrite Ht. pose proof (expire_spec b) as H. destruct (on_expired_ul_notif_timer b) as [b1 evs1]. destruct H as (H1 & H2 & H3 & H4 & H5 & H6 & H7 & H8).
    specialize (IH b1 H1 Hops). destruct (ul_run b1 ops) as [b' evs]. destruct IH as (I1 & I2 & I3 & I4). destruct (ul_app_out (ul_deliver evs1) evs) as (-> & -> & ->).
    rewrite H6, H7, H8, I2, I3, I4, H2, H3, H4, H5, !(changes_cons _ _ (samples _ _ _)). done.
Qed.
(** Uplink over F1-U: the PDCP of the CU-UP is given every SDU of the RLC in order, and is notified of the highest transmitted and the
    highest delivered SN exactly when their values at an SDU or an expiry of the timer have changed since the last report: values
    overwritten in between are not reported, no value is reported twice in a row, and the timer always runs. *)
Theorem f1u_uplink_transparent ops : Forall (fun op => op <> du_op_sdu []) ops ->
  let '(b, evs) := ul_run f1u_du_new ops in ul_notif_timer b = true /\ ul_sdus_out evs = ul_sdus_in ops /\
    transmits_out evs = changes unset_pdcp_sn (samples transmitted unset_pdcp_sn ops) /\ deliveries_out evs = changes unset_pdcp_sn (samples delivered unset_pdcp_sn ops).
Proof. intros Hops. exact (ul_run_correct ops f1u_du_new eq_refl Hops). Qed.
Lemma f1u_uplink_transparent_witness : transmits_out (ul_run f1u_du_new [du_op_transmitted 1; du_op_transmitted 2; du_op_expire; du_op_sdu [7]; du_op_transmitted 3; du_op_expire]).2 = [2; 3].
Proof.
  assert (Forall (fun op => op <> du_op_sdu []) [du_op_transmitted 1; du_op_transmitted 2; du_op_expire; du_op_sdu [7]; du_op_transmitted 3; du_op_expire]) as H by (repeat (constructor; [discriminate|]); constructor).
  exact (proj1 (proj2 (proj2 (f1u_uplink_transparent _ H)))).
Defined.
