(* ===== verification/F1uConn.v ===== *)
(** * F1-U local connector

    [lib/f1u/local_connector/f1u_local_connector.cpp] with its header and the adapters of
    [f1u_local_bearer_adapter.h]: the gateway that joins the bearers of a CU-UP and a DU in one process.

    Bearers are objects with an identity; adapters hold pointers to the bearers they call.  A call of a bearer
    or an adapter that has been destroyed is [None], as is a failed assertion. *)
From S2P Require Import Prelude PdcpTx F1u F1uThms.

Record f1u_cu_bearer := F1uCuBearer { cu_tx_handler : option nat; cb_bearer : nat; cb_dl_teid : option Z }.
Record f1u_du_bearer := F1uDuBearer { du_tx_handler : option nat; db_bearer : nat }.
(** [cu_objs]: the bearers of the CU-UP that live, owned by its sessions; [du_objs]: those of the DU with their DL-TEIDs, owned by [du_map]. *)
Record f1u_local_connector := F1uConn {
  cu_map : gmap Z f1u_cu_bearer;
  du_map : gmap Z f1u_du_bearer;
  cu_objs : gmap nat f1u_cu;
  du_objs : gmap nat (Z * f1u_du);
  next_obj : nat;
}.
Definition f1u_conn_new : f1u_local_connector := F1uConn ∅ ∅ ∅ ∅ 0.

Definition create_cu_bearer (c : f1u_local_connector) (ul_teid : Z) : option (f1u_local_connector * nat) :=
  match cu_map c !! ul_teid with
  | Some _ => None
  | None =>
      let id := next_obj c in
      Some (F1uConn (<[ul_teid := F1uCuBearer None id None]> (cu_map c)) (du_map c) (<[id := f1u_cu_new ul_teid]> (cu_objs c)) (du_objs c) (S id), id)
  end.
Definition attach_dl_teid (c : f1u_local_connector) (ul_teid dl_teid : Z) : f1u_local_connector :=
  match cu_map c !! ul_teid, du_map c !! dl_teid with
  | Some cu, Some du =>
      F1uConn (<[ul_teid := F1uCuBearer (cu_tx_handler cu) (cb_bearer cu) (Some dl_teid)]> (cu_map c))
        (<[dl_teid := F1uDuBearer (Some (cb_bearer cu)) (db_bearer du)]> (du_map c)) (cu_objs c) (du_objs c) (next_obj c)
  | _, _ => c
  end.
Definition disconnect_cu_bearer (c : f1u_local_connector) (ul_teid : Z) : f1u_local_connector :=
  match cu_map c !! ul_teid with
  | None => c
  | Some cu =>
      let du_map' :=
        match cb_dl_teid cu with
        | Some dl => match du_map c !! dl with Some du => <[dl := F1uDuBearer None (db_bearer du)]> (du_map c) | None => du_map c end
        | None => du_map c
        end in
      F1uConn (delete ul_teid (cu_map c)) du_map' (cu_objs c) (du_objs c) (next_obj c)
  end.
(** The destructor of a bearer of the CU-UP. *)
Definition destroy_cu_bearer (c : f1u_local_connector) (id : nat) : option f1u_local_connector :=
  let* b := cu_objs c !! id in
  let c := disconnect_cu_bearer c (cu_ul_teid b) in
  Some (F1uConn (cu_map c) (du_map c) (delete id (cu_objs c)) (du_objs c) (next_obj c)).
(** The pointer returned is null ([None]) when there is no bearer of the CU-UP; when the DL-TEID is in use, [insert] fails and the new bearer is destroyed. *)
Definition create_du_bearer (c : f1u_local_connector) (dl_teid ul_teid : Z) : f1u_local_connector * option nat :=
  match cu_map c !! ul_teid with
  | None => (c, None)
  | Some cu =>
      let id := next_obj c in
      let cu_map' := <[ul_teid := F1uCuBearer (Some id) (cb_bearer cu) (cb_dl_teid cu)]> (cu_map c) in
      match du_map c !! dl_teid with
      | Some _ => (F1uConn cu_map' (du_map c) (cu_objs c) (du_objs c) (S id), Some id)
      | None => (F1uConn cu_map' (<[dl_teid := F1uDuBearer (Some (cb_bearer cu)) id]> (du_map c)) (cu_objs c) (<[id := (dl_teid, f1u_du_new)]> (du_objs c)) (S id), Some id)
      end
  end.
Definition remove_du_bearer (c : f1u_local_connector) (dl_teid : Z) : f1u_local_connector :=
  match du_map c !! dl_teid with
  | None => c
  | Some du => F1uConn (cu_map c) (delete dl_teid (du_map c)) (cu_objs c) (delete (db_bearer du) (du_objs c)) (next_obj c)
  end.

(** ** Traffic *)
(** [f1u_dl_local_adapter::on_new_pdu] of the adapter of the bearer [id]. *)
Definition dl_on_new_pdu (c : f1u_local_connector) (id : nat) (b : f1u_cu) (msg : nru_dl_message) : option (list (nat * f1u_du_event)) :=
  let* cu := cu_map c !! cu_ul_teid b in
  if negb (cb_bearer cu =? id)%nat then None
  else match cu_tx_handler cu with
       | None => Some []
       | Some d => match du_objs c !! d with Some _ => Some (map (pair d) (du_handle_pdu msg)) | None => None end
       end.
(** [f1u_ul_local_adapter::on_new_pdu] of the adapter of the bearer at a DL-TEID. *)
Definition ul_on_new_pdu (c : f1u_local_connector) (dl_teid : Z) (msg : nru_ul_message) : option (list (nat * f1u_cu_event)) :=
  let* du := du_map c !! dl_teid in
  match du_tx_handler du with
  | None => Some []
  | Some b => match cu_objs c !! b with Some _ => Some (map (pair b) (cu_handle_pdu msg)) | None => None end
  end.
Fixpoint send_all {M E} (send : M -> option (list E)) (msgs : list M) : option (list E) :=
  match msgs with [] => Some [] | m :: ms => let* l := send m in let* l' := send_all send ms in Some (l ++ l') end.
Definition dl_msgs (evs : list f1u_cu_event) : list nru_dl_message := omap (fun e => match e with cu_new_pdu m => Some m | _ => None end) evs.
Definition ul_msgs (evs : list f1u_du_event) : list nru_ul_message := omap (fun e => match e with du_new_pdu m => Some m | _ => None end) evs.
(** A call of a bearer, and the calls of the bearer at the other end. *)
Definition cu_call (c : f1u_local_connector) (id : nat) (op : cu_op) : option (f1u_local_connector * list (nat * f1u_du_event)) :=
  let* b := cu_objs c !! id in
  let* (b', evs) := cu_step b op in
  let* out := send_all (dl_on_new_pdu c id b) (dl_msgs evs) in
  Some (F1uConn (cu_map c) (du_map c) (<[id := b']> (cu_objs c)) (du_objs c) (next_obj c), out).
Definition du_call (c : f1u_local_connector) (id : nat) (op : du_op) : option (f1u_local_connector * list (nat * f1u_cu_event)) :=
  let* (dl, b) := du_objs c !! id in
  let '(b', evs) := du_step b op in
  let* out := send_all (ul_on_new_pdu c dl) (ul_msgs evs) in
  Some (F1uConn (cu_map c) (du_map c) (cu_objs c) (<[id := (dl, b')]> (du_objs c)) (next_obj c), out).

(** ** Runs *)
Inductive conn_op :=
  | op_create_cu (ul_teid : Z)
  | op_disconnect_cu (ul_teid : Z)
  | op_destroy_cu (id : nat)
  | op_create_du (dl_teid ul_teid : Z)
  | op_remove_du (dl_teid : Z)
  | op_attach (ul_teid dl_teid : Z)
  | op_cu (id : nat) (op : cu_op)
  | op_du (id : nat) (op : du_op).
Definition conn_step (c : f1u_local_connector) (op : conn_op) : option f1u_local_connector :=
  match op with
  | op_create_cu ul => fst <$> create_cu_bearer c ul
  | op_disconnect_cu ul => Some (disconnect_cu_bearer c ul)
  | op_destroy_cu id => destroy_cu_bearer c id
  | op_create_du dl ul => Some (create_du_bearer c dl ul).1
  | op_remove_du dl => Some (remove_du_bearer c dl)
  | op_attach ul dl => Some (attach_dl_teid c ul dl)
  | op_cu id op => fst <$> cu_call c id op
  | op_du id op => fst <$> du_call c id op
  end.
(** What the callers have done: [joined] gives for every bearer of the DU that was ever created the bearer of the CU-UP it was created for and its
    DL-TEID; [attached] holds the bearers of the DU whose DL-TEID was attached while both bearers were there. *)
Record conn_sys := ConnSys { conn : f1u_local_connector; joined : gmap nat (nat * Z); attached : gset nat }.
Definition conn_sys_new : conn_sys := ConnSys f1u_conn_new ∅ ∅.
Definition sys_step (s : conn_sys) (op : conn_op) : option conn_sys :=
  let c := conn s in
  let* c' := conn_step c op in
  Some (ConnSys c'
    (match op with
     | op_create_du dl ul => match cu_map c !! ul with Some cu => <[next_obj c := (cb_bearer cu, dl)]> (joined s) | None => joined s end
     | _ => joined s
     end)
    (match op with
     | op_attach ul dl => match cu_map c !! ul, du_map c !! dl with Some _, Some du => {[db_bearer du]} ∪ attached s | _, _ => attached s end
     | _ => attached s
     end)).
(** A bearer of the CU-UP is connected from its creation until [disconnect_cu_bearer] or its destruction. *)
Definition connected (c : f1u_local_connector) (id : nat) : Prop := exists ul cu, cu_map c !! ul = Some cu /\ cb_bearer cu = id.
(** How the callers use the connector.  Bearers are disconnected, destroyed and removed in any order, by either side first.  The UL-TEID of a new bearer of the
    CU-UP is that of no living one; a bearer of the CU-UP gets one bearer of the DU, with a DL-TEID that is not in use and that no connected bearer of the CU-UP
    was joined with before; the DL-TEID that is attached is that of the bearer that was created for the UL-TEID.  A bearer of the CU-UP is used while
    it is connected and its bearer of the DU has not been removed; a bearer of the DU is used while it and its bearer of the CU-UP live, and, once its DL-TEID was
    attached, also after the latter was destroyed. *)
Definition allowed (s : conn_sys) (op : conn_op) : Prop :=
  match op with
  | op_create_cu ul => forall id b, cu_objs (conn s) !! id = Some b -> cu_ul_teid b <> ul
  | op_disconnect_cu ul => True
  | op_destroy_cu id => is_Some (cu_objs (conn s) !! id)
  | op_create_du dl ul => du_map (conn s) !! dl = None /\ (forall d id, joined s !! d = Some (id, dl) -> ~ connected (conn s) id)
      /\ forall cu d dl', cu_map (conn s) !! ul = Some cu -> joined s !! d <> Some (cb_bearer cu, dl')
  | op_remove_du dl => True
  | op_attach ul dl => forall cu du, cu_map (conn s) !! ul = Some cu -> du_map (conn s) !! dl = Some du -> joined s !! db_bearer du = Some (cb_bearer cu, dl)
  | op_cu id op => connected (conn s) id /\ forall d dl, joined s !! d = Some (id, dl) -> is_Some (du_objs (conn s) !! d)
  | op_du d op => is_Some (du_objs (conn s) !! d) /\ forall id dl, joined s !! d = Some (id, dl) -> is_Some (cu_objs (conn s) !! id) \/ d ∈ attached s
  end.
Inductive conn_reachable : conn_sys -> Prop :=
  | conn_init : conn_reachable conn_sys_new
  | conn_next s op s' : conn_reachable s -> allowed s op -> sys_step s op = Some s' -> conn_reachable s'.

(** The invariant: maps and objects agree, the handlers are where the bearers were joined, and the recorded DL-TEID is the one that was attached. *)
Record conn_ok (s : conn_sys) : Prop := {
  co_cu : forall ul cu, cu_map (conn s) !! ul = Some cu -> exists b, cu_objs (conn s) !! cb_bearer cu = Some b /\ cu_ul_teid b = ul;
  co_room : forall id b, cu_objs (conn s) !! id = Some b -> (length (discard_blocks b) < nru_max_nof_pdcp_sn_discard_blocks)%nat;
  co_teids : forall id id' b b', cu_objs (conn s) !! id = Some b -> cu_objs (conn s) !! id' = Some b' -> cu_ul_teid b = cu_ul_teid b' -> id = id';
  co_du : forall dl du, du_map (conn s) !! dl = Some du -> (exists x, du_objs (conn s) !! db_bearer du = Some (dl, x)) /\ exists id, joined s !! db_bearer du = Some (id, dl);
  co_du_obj : forall d dl x, du_objs (conn s) !! d = Some (dl, x) -> exists du, du_map (conn s) !! dl = Some du /\ db_bearer du = d;
  co_dl : forall ul cu d, cu_map (conn s) !! ul = Some cu -> cu_tx_handler cu = Some d <-> exists dl, joined s !! d = Some (cb_bearer cu, dl);
  co_ul : forall dl du id, du_map (conn s) !! dl = Some du -> joined s !! db_bearer du = Some (id, dl) ->
    (connected (conn s) id \/ db_bearer du ∉ attached s -> du_tx_handler du = Some id) /\ (~ connected (conn s) id -> db_bearer du ∈ attached s -> du_tx_handler du = None);
  co_attached : forall ul cu dl, cu_map (conn s) !! ul = Some cu -> cb_dl_teid cu = Some dl <-> exists d, d ∈ attached s /\ joined s !! d = Some (cb_bearer cu, dl);
  co_stale : forall d id dl du, joined s !! d = Some (id, dl) -> connected (conn s) id -> du_map (conn s) !! dl = Some du -> db_bearer du = d;
  co_fresh : (forall id, is_Some (cu_objs (conn s) !! id) -> (id < next_obj (conn s))%nat) /\ (forall d, is_Some (du_objs (conn s) !! d) -> (d < next_obj (conn s))%nat)
    /\ (forall d id dl, joined s !! d = Some (id, dl) -> (d < next_obj (conn s))%nat /\ (id < next_obj (conn s))%nat) /\ forall d, d ∈ attached s -> (d < next_obj (conn s))%nat;
}.

(** Look-ups in updated maps. *)
Ltac map_cases :=
  repeat match goal with
  | H : <[_ := _]> _ !! _ = Some _ |- _ => let Hne := fresh "Hne" in apply lookup_insert_Some in H as [[??]|[Hne H]]
  | H : delete _ _ !! _ = Some _ |- _ => let Hne := fresh "Hne" in apply lookup_delete_Some in H as [Hne H]
  end; simplify_eq/=.
#[export] Instance connected_dec c id : Decision (connected c id).
Proof. change (Decision (map_Exists (fun _ cu => cb_bearer cu = id) (cu_map c))). apply _. Defined.
Section Ok.
Context (s : conn_sys) (Hok : conn_ok s).
Lemma du_bearer_inj dl dl' du du' : du_map (conn s) !! dl = Some du -> du_map (conn s) !! dl' = Some du' -> db_bearer du = db_bearer du' -> dl = dl' /\ du = du'.
Proof.
  intros H H' E. destruct (co_du _ Hok _ _ H) as [[x Hx] _]. destruct (co_du _ Hok _ _ H') as [[x' Hx'] _]. rewrite E in Hx. simplify_eq. done.
Qed.
Lemma cu_bearer_inj ul ul' cu cu' : cu_map (conn s) !! ul = Some cu -> cu_map (conn s) !! ul' = Some cu' -> cb_bearer cu = cb_bearer cu' -> ul = ul' /\ cu = cu'.
Proof.
  intros H H' E. destruct (co_cu _ Hok _ _ H) as (b & Hb & <-). destruct (co_cu _ Hok _ _ H') as (b' & Hb' & <-). rewrite E in Hb. simplify_eq. done.
Qed.
Lemma cu_bearer_at id b cu : cu_objs (conn s) !! id = Some b -> cu_map (conn s) !! cu_ul_teid b = Some cu -> cb_bearer cu = id.
Proof. intros Hb Hcu. destruct (co_cu _ Hok _ _ Hcu) as (b' & Hb' & Ht). by apply (co_teids _ Hok _ _ _ _ Hb' Hb). Qed.
Lemma connected_live id : connected (conn s) id -> is_Some (cu_objs (conn s) !! id).
Proof. intros (ul & cu & Hcu & <-). destruct (co_cu _ Hok _ _ Hcu) as (b & Hb & _). eauto. Qed.
Lemma fresh_cu : cu_objs (conn s) !! next_obj (conn s) = None.
Proof. destruct (cu_objs (conn s) !! next_obj (conn s)) eqn:E; [|done]. pose proof (proj1 (co_fresh _ Hok) _ (mk_is_Some _ _ E)). lia. Qed.
Lemma fresh_du : du_objs (conn s) !! next_obj (conn s) = None.
Proof. destruct (du_objs (conn s) !! next_obj (conn s)) eqn:E; [|done]. pose proof (proj1 (proj2 (co_fresh _ Hok)) _ (mk_is_Some _ _ E)). lia. Qed.
(** A bearer of the CU-UP has at most one bearer of the DU. *)
Lemma joined_inj d d' id dl dl' : connected (conn s) id -> joined s !! d = Some (id, dl) -> joined s !! d' = Some (id, dl') -> d = d'.
Proof.
  intros (ul & cu & Hcu & <-) H H'. assert (cu_tx_handler cu = Some d) as E by (apply (co_dl _ Hok _ _ _ Hcu); eauto). assert (cu_tx_handler cu = Some d') as E' by (apply (co_dl _ Hok _ _ _ Hcu); eauto). congruence.
Qed.

Lemma create_cu_ok ul : allowed s (op_create_cu ul) -> exists c' id, create_cu_bearer (conn s) ul = Some (c', id) /\ conn_ok (ConnSys c' (joined s) (attached s)).
Proof.
  intros Hn. assert (cu_map (conn s) !! ul = None) as Hm by (destruct (cu_map (conn s) !! ul) eqn:E; [|done]; destruct (co_cu _ Hok _ _ E) as (b & Hb & Ht); by destruct (Hn _ _ Hb)).
  unfold create_cu_bearer. rewrite Hm. eexists _, _. split; [done|]. pose proof fresh_cu as Hf. destruct (co_fresh _ Hok) as (Hf1 & Hf2 & Hf3 & Hf4).
  assert (forall i, connected (F1uConn (<[ul := F1uCuBearer None (next_obj (conn s)) None]> (cu_map (conn s))) (du_map (conn s)) (<[next_obj (conn s) := f1u_cu_new ul]> (cu_objs (conn s))) (du_objs (conn s)) (S (next_obj (conn s)))) i
    <-> connected (conn s) i \/ i = next_obj (conn s)) as Hcon.
  { intros i. unfold connected. cbn [cu_map]. split.
    - intros (ul' & cu & H & <-). map_cases; [by right|left; eauto].
    - intros [(ul' & cu & H & <-)| ->]; [exists ul', cu; rewrite lookup_insert_ne; [done|congruence]|exists ul; eexists; by rewrite lookup_insert_eq]. }
  split; cbn [conn joined attached cu_map du_map cu_objs du_objs next_obj].
  - intros ul' cu H. map_cases; [exists (f1u_cu_new ul'); by rewrite lookup_insert_eq|]. destruct (co_cu _ Hok _ _ H) as (b & Hb & Ht). exists b. rewrite lookup_insert_ne; [done|]. congruence.
  - intros id b H. map_cases; [unfold nru_max_nof_pdcp_sn_discard_blocks; lia|by apply (co_room _ Hok _ _ H)].
  - intros id id' b b' [[<- <-]|[_ H]]%lookup_insert_Some [[<- <-]|[_ H']]%lookup_insert_Some E; [done|by destruct (Hn _ _ H')|by destruct (Hn _ _ H)|by apply (co_teids _ Hok _ _ _ _ H H')].
  - apply (co_du _ Hok).
  - apply (co_du_obj _ Hok).
  - intros ul' cu d H. map_cases; [|by apply (co_dl _ Hok _ _ _ H)]. split; [done|]. intros [dl Hj]. destruct (Hf3 _ _ _ Hj). lia.
  - intros dl du id H Hj. destruct (co_ul _ Hok _ _ _ H Hj) as [H1 H2]. setoid_rewrite Hcon. destruct (Hf3 _ _ _ Hj) as [_ Hlt]. split; [intros [[?| ->]|?]; auto; lia|auto].
  - intros ul' cu dl H. map_cases; [|by apply (co_attached _ Hok _ _ _ H)]. split; [done|]. intros (d & _ & Hj). destruct (Hf3 _ _ _ Hj). lia.
  - intros d id dl du Hj [Hc| ->]%Hcon H; [by apply (co_stale _ Hok _ _ _ _ Hj Hc H)|]. destruct (Hf3 _ _ _ Hj). lia.
  - split_and!.
    + intros id [x H]. map_cases; [lia|]. pose proof (Hf1 id (mk_is_Some _ _ H)). lia.
    + intros d Hd. specialize (Hf2 d Hd). lia.
    + intros d id dl H. destruct (Hf3 _ _ _ H). lia.
    + intros d H. specialize (Hf4 _ H). lia.
Qed.
Lemma create_du_ok dl ul : allowed s (op_create_du dl ul) -> exists s', sys_step s (op_create_du dl ul) = Some s' /\ conn_ok s'.
Proof.
  intros (Hn & Hst & Hone). unfold sys_step. cbn [conn_step mbind option_bind]. eexists. split; [done|]. unfold create_du_bearer. destruct (cu_map (conn s) !! ul) as [cu0|] eqn:Hcu; [|by destruct s].
  rewrite Hn. cbn [fst]. pose proof fresh_du as Hf. destruct (co_fresh _ Hok) as (Hf1 & Hf2 & Hf3 & Hf4). set (d0 := next_obj (conn s)) in *.
  assert (joined s !! d0 = None) as Hj0 by (destruct (joined s !! d0) as [[]|] eqn:E; [|done]; destruct (Hf3 _ _ _ E); lia).
  assert (forall d, cu_tx_handler cu0 <> Some d) as Hh by (intros d Hd; apply (co_dl _ Hok _ _ _ Hcu) in Hd as [dl' Hj]; by destruct (Hone _ _ _ eq_refl Hj)).
  set (c' := F1uConn _ _ _ _ _). assert (forall i, connected c' i <-> connected (conn s) i) as Hcon.
  { intros i. unfold connected, c'. cbn [cu_map]. split.
    - intros (ul' & cu & H & <-). map_cases; eauto.
    - intros (ul' & cu & H & <-). exists ul'. destruct (decide (ul = ul')) as [->|]; [rewrite lookup_insert_eq; simplify_eq; by eexists|rewrite lookup_insert_ne by done; eauto]. }
  assert (forall dl' du, du_map (conn s) !! dl' = Some du -> db_bearer du <> d0) as Hdd by (intros dl' du H E; destruct (co_du _ Hok _ _ H) as [[x Hx] _]; congruence).
  split; cbn [conn joined attached]; unfold c' at 1; cbn [cu_map du_map cu_objs du_objs next_obj].
  - intros ul' cu H. map_cases; [apply (co_cu _ Hok _ _ Hcu)|by apply (co_cu _ Hok)].
  - apply (co_room _ Hok).
  - apply (co_teids _ Hok).
  - intros dl' du H. map_cases; [rewrite !lookup_insert_eq; eauto|]. destruct (co_du _ Hok _ _ H) as [[x Hx] [id Hj]]. rewrite !lookup_insert_ne by (intros E; by apply (Hdd _ _ H)). eauto.
  - intros d dl' x H. unfold c' in H. cbn [du_objs] in H. map_cases; [eexists; by rewrite lookup_insert_eq|]. destruct (co_du_obj _ Hok _ _ _ H) as (du & Hd & Hid). exists du. rewrite lookup_insert_ne; [done|]. congruence.
  - intros ul' cu d H. map_cases.
    + split; [intros [= <-]; exists dl; by rewrite lookup_insert_eq|]. intros [dl' Hj]. map_cases; [done|]. by destruct (Hone _ _ _ eq_refl Hj).
    + rewrite (co_dl _ Hok _ _ _ H). split; intros [dl' Hj].
      * exists dl'. rewrite lookup_insert_ne; [done|]. congruence.
      * map_cases; [|eauto]. by destruct (cu_bearer_inj _ _ _ _ Hcu H).
  - intros dl' du id [[<- <-]|[_ H]]%lookup_insert_Some Hj; cbn [db_bearer du_tx_handler] in *; setoid_rewrite Hcon.
    + rewrite lookup_insert_eq in Hj. simplify_eq. split; [done|]. intros _ Ha. specialize (Hf4 _ Ha). lia.
    + rewrite lookup_insert_ne in Hj by (intros E; by apply (Hdd _ _ H)). by apply (co_ul _ Hok _ _ _ H Hj).
  - intros ul' cu dl' H. assert (forall cu d, d ∈ attached s -> <[d0 := (cb_bearer cu0, dl)]> (joined s) !! d = Some (cb_bearer cu, dl') <-> joined s !! d = Some (cb_bearer cu, dl')) as Hins.
    { intros cu' d Hd. rewrite lookup_insert_ne; [done|]. specialize (Hf4 _ Hd). lia. }
    map_cases; [rewrite (co_attached _ Hok _ _ _ Hcu)|rewrite (co_attached _ Hok _ _ _ H)].
    + split; intros (d & Hd & Hj); exists d; (split; [done|]); [by apply Hins|by apply (Hins cu0)].
    + split; intros (d & Hd & Hj); exists d; (split; [done|]); by apply Hins.
  - intros d id dl' du [[<- [= <- <-]]|[_ Hj]]%lookup_insert_Some Hc%Hcon H; unfold c' in H; cbn [du_map] in H; apply lookup_insert_Some in H as [[? <-]|[Hne H]]; [done|done|subst dl'; by destruct (Hst _ _ Hj)|by apply (co_stale _ Hok _ _ _ _ Hj Hc H)].
  - unfold c'. cbn [cu_map du_map cu_objs du_objs next_obj]. split_and!.
    + intros id Hi. specialize (Hf1 _ Hi). lia.
    + intros d [x H]. map_cases; [lia|]. pose proof (Hf2 d (mk_is_Some _ _ H)). lia.
    + intros d id dl' H. map_cases; [|destruct (Hf3 _ _ _ H); lia]. destruct (co_cu _ Hok _ _ Hcu) as (b & Hb & _). pose proof (Hf1 _ (mk_is_Some _ _ Hb)). lia.
    + intros d H. specialize (Hf4 _ H). lia.
Qed.
(** A bearer of the CU-UP is disconnected: the bearer of the DU is detached if its DL-TEID was attached. *)
Lemma disconnect_ok ul : conn_ok (ConnSys (disconnect_cu_bearer (conn s) ul) (joined s) (attached s)) /\ forall cu, cu_map (conn s) !! ul = Some cu -> ~ connected (disconnect_cu_bearer (conn s) ul) (cb_bearer cu).
Proof.
  unfold disconnect_cu_bearer. destruct (cu_map (conn s) !! ul) as [cu|] eqn:Hcu; [|split; [by destruct s|done]]. set (m := match cb_dl_teid cu with Some dl => _ | None => _ end). set (c' := F1uConn _ _ _ _ _).
  assert (forall i, connected c' i <-> connected (conn s) i /\ i <> cb_bearer cu) as Hcon.
  { intros i. unfold connected, c'. cbn [cu_map]. split.
    - intros (ul' & cu' & H & <-). map_cases. split; [eauto|]. intros E. by destruct (cu_bearer_inj _ _ _ _ H Hcu E).
    - intros [(ul' & cu' & H & <-) Hne]. exists ul', cu'. rewrite lookup_delete_ne; [done|]. congruence. }
  assert (connected (conn s) (cb_bearer cu)) as Hc by (by exists ul, cu).
  (** the bearer that is detached *)
  assert (forall dl du, m !! dl = Some du <-> exists du0, du_map (conn s) !! dl = Some du0 /\ du = if decide (cb_dl_teid cu = Some dl) then F1uDuBearer None (db_bearer du0) else du0) as Hm.
  { clear -s. intros dl du. unfold m. destruct (decide (cb_dl_teid cu = Some dl)) as [E|E].
    - rewrite E. destruct (du_map (conn s) !! dl) as [du1|] eqn:Hd1; [rewrite lookup_insert_eq|rewrite Hd1]; naive_solver.
    - destruct (cb_dl_teid cu) as [dl0|]; [|naive_solver]. destruct (du_map (conn s) !! dl0); [rewrite lookup_insert_ne by congruence|]; naive_solver. }
  split; [|by intros cu' [= <-] [_ []]%Hcon]. destruct (co_fresh _ Hok) as (Hf1 & Hf2 & Hf3 & Hf4). split; cbn [conn joined attached]; unfold c' at 1; cbn [cu_map du_map cu_objs du_objs next_obj].
  - intros ul' cu' H. map_cases. by apply (co_cu _ Hok).
  - apply (co_room _ Hok).
  - apply (co_teids _ Hok).
  - intros dl du (du0 & H & ->)%Hm. destruct (co_du _ Hok _ _ H). by destruct (decide _).
  - intros d dl x H. destruct (co_du_obj _ Hok _ _ _ H) as (du & Hd & Hid). eexists. split; [apply Hm; eauto|]. by destruct (decide _).
  - intros ul' cu' d H. map_cases. by apply (co_dl _ Hok _ _ _ H).
  - intros dl du id (du0 & H & ->)%Hm Hj. setoid_rewrite Hcon. assert (joined s !! db_bearer du0 = Some (id, dl)) as Hj' by (by destruct (decide _)). destruct (co_ul _ Hok _ _ _ H Hj') as [H1 H2].
    assert (cb_dl_teid cu = Some dl -> id = cb_bearer cu /\ db_bearer du0 ∈ attached s) as Hatt.
    { intros (d & Hd & Hjd)%(co_attached _ Hok _ _ _ Hcu). pose proof (co_stale _ Hok _ _ _ _ Hjd Hc H) as <-. split; [congruence|done]. }
    destruct (decide (cb_dl_teid cu = Some dl)) as [E|E]; cbn [db_bearer du_tx_handler] in *.
    + destruct (Hatt E) as [-> Ha]. split; [|done]. intros [[_ ?]|?]; done.
    + split; [intros [[? _]|?]; auto|]. intros Hnc Ha. destruct (decide (id = cb_bearer cu)) as [->|Hne]; [|apply H2; [tauto|done]].
      destruct E. apply (co_attached _ Hok _ _ _ Hcu). eauto.
  - intros ul' cu' dl H. map_cases. by apply (co_attached _ Hok _ _ _ H).
  - intros d id dl du Hj [Hc' _]%Hcon (du0 & H & ->)%Hm. pose proof (co_stale _ Hok _ _ _ _ Hj Hc' H). by destruct (decide _).
  - done.
Qed.
(** A disconnected bearer is deleted. *)
Lemma delete_cu_ok id : ~ connected (conn s) id ->
  conn_ok (ConnSys (F1uConn (cu_map (conn s)) (du_map (conn s)) (delete id (cu_objs (conn s))) (du_objs (conn s)) (next_obj (conn s))) (joined s) (attached s)).
Proof.
  intros Hnc. destruct (co_fresh _ Hok) as (Hf1 & Hf2 & Hf3 & Hf4). split; cbn [conn joined attached cu_map du_map cu_objs du_objs next_obj]; try apply Hok.
  - intros ul cu H. destruct (co_cu _ Hok _ _ H) as (b & Hb & Ht). exists b. rewrite lookup_delete_ne; [done|]. intros ->. apply Hnc. by exists ul, cu.
  - intros i b H. map_cases. by apply (co_room _ Hok _ _ H).
  - intros i i' b b' H H' E. map_cases. by apply (co_teids _ Hok _ _ _ _ H H').
  - split_and!; try done. intros i [x H]. map_cases. apply Hf1. eauto.
Qed.
Lemma remove_du_ok dl : conn_ok (ConnSys (remove_du_bearer (conn s) dl) (joined s) (attached s)).
Proof.
  unfold remove_du_bearer. destruct (du_map (conn s) !! dl) as [du0|] eqn:Hdu; [|by destruct s]. destruct (co_fresh _ Hok) as (Hf1 & Hf2 & Hf3 & Hf4). split; cbn [conn joined attached cu_map du_map cu_objs du_objs next_obj]; try apply Hok.
  - intros dl' du H. map_cases. destruct (co_du _ Hok _ _ H) as [[x Hx] Hj]. split; [|done]. exists x. rewrite lookup_delete_ne; [done|]. intros E. by destruct (du_bearer_inj _ _ _ _ Hdu H E).
  - intros d dl' x H. map_cases. destruct (co_du_obj _ Hok _ _ _ H) as (du & Hd & Hi). exists du. rewrite lookup_delete_ne; [done|]. intros ->. by simplify_eq.
  - intros dl' du id H Hj. map_cases. by apply (co_ul _ Hok _ _ _ H Hj).
  - intros d id dl' du Hj Hc H. map_cases. by apply (co_stale _ Hok _ _ _ _ Hj Hc H).
  - split_and!; try done. intros i [x H]. map_cases. apply Hf2. eauto.
Qed.
Lemma attach_ok ul dl : allowed s (op_attach ul dl) -> exists s', sys_step s (op_attach ul dl) = Some s' /\ conn_ok s'.
Proof.
  intros Hpair. unfold sys_step. cbn [conn_step mbind option_bind]. eexists. split; [done|]. unfold attach_dl_teid. destruct (cu_map (conn s) !! ul) as [cu0|] eqn:Hcu; [|by destruct s]. destruct (du_map (conn s) !! dl) as [du0|] eqn:Hdu; [|by destruct s].
  specialize (Hpair _ _ Hcu Hdu). destruct (co_fresh _ Hok) as (Hf1 & Hf2 & Hf3 & Hf4). assert (connected (conn s) (cb_bearer cu0)) as Hc0 by (by exists ul, cu0).
  assert (du_tx_handler du0 = Some (cb_bearer cu0)) as Hh by (apply (co_ul _ Hok _ _ _ Hdu Hpair); by left).
  assert (<[dl := F1uDuBearer (Some (cb_bearer cu0)) (db_bearer du0)]> (du_map (conn s)) = du_map (conn s)) as -> by (apply insert_id; destruct du0; cbn in *; congruence).
  set (c' := F1uConn _ _ _ _ _). assert (forall i, connected c' i <-> connected (conn s) i) as Hcon.
  { intros i. unfold connected, c'. cbn [cu_map]. split.
    - intros (ul' & cu & H & <-). map_cases; eauto.
    - intros (ul' & cu & H & <-). exists ul'. destruct (decide (ul = ul')) as [->|]; [rewrite lookup_insert_eq; simplify_eq; by eexists|rewrite lookup_insert_ne by done; eauto]. }
  split; cbn [conn joined attached]; unfold c' at 1; cbn [cu_map du_map cu_objs du_objs next_obj]; try apply Hok.
  - intros ul' cu H. map_cases; [apply (co_cu _ Hok _ _ Hcu)|by apply (co_cu _ Hok)].
  - intros ul' cu d H. map_cases; [by apply (co_dl _ Hok _ _ _ Hcu)|by apply (co_dl _ Hok _ _ _ H)].
  - intros dl' du id H Hj. setoid_rewrite Hcon. destruct (co_ul _ Hok _ _ _ H Hj) as [H1 H2]. split; [intros [?|?]; [auto|apply H1; set_solver]|]. intros Hnc [E%elem_of_singleton|?]%elem_of_union; [|auto].
    destruct (du_bearer_inj _ _ _ _ H Hdu E) as [-> ->]. rewrite Hpair in Hj. by simplify_eq.
  - intros ul' cu dl' H. map_cases.
    + split; [intros [= <-]; exists (db_bearer du0); split; [set_solver|done]|]. intros (d & _ & Hj). assert (d = db_bearer du0) as -> by (by eapply joined_inj). congruence.
    + rewrite (co_attached _ Hok _ _ _ H). split; intros (d & Hd & Hj); exists d; (split; [|done]); [set_solver|]. apply elem_of_union in Hd as [->%elem_of_singleton|]; [|done].
      rewrite Hpair in Hj. simplify_eq. by destruct (cu_bearer_inj _ _ _ _ Hcu H).
  - intros d id dl' du Hj Hc%Hcon H. by apply (co_stale _ Hok _ _ _ _ Hj Hc H).
  - unfold c'. cbn [cu_objs du_objs next_obj]. split_and!; try done. intros d [->%elem_of_singleton|?]%elem_of_union; [by apply (Hf3 _ _ _ Hpair)|auto].
Qed.
End Ok.
(** A call of a bearer keeps its TEID and leaves room for a block. *)
Lemma cu_step_room b op : (length (discard_blocks b) < nru_max_nof_pdcp_sn_discard_blocks)%nat ->
  exists b' evs, cu_step b op = Some (b', evs) /\ cu_ul_teid b' = cu_ul_teid b /\ (length (discard_blocks b') < nru_max_nof_pdcp_sn_discard_blocks)%nat.
Proof.
  assert (forall t, length (discard_blocks (F1uCu t false [])) < nru_max_nof_pdcp_sn_discard_blocks)%nat as H0 by (intros t; cbn; unfold nru_max_nof_pdcp_sn_discard_blocks; lia).
  intros Hr. destruct op as [sdu|sn|]; cbn [cu_step].
  - pose proof (sdu_state b sdu) as Hs. destruct (cu_handle_sdu b sdu) as [b' evs]. cbn [fst] in Hs. subst b'. by eexists _, _.
  - unfold cu_discard_sdu, push_discard_block. rewrite (proj2 (Nat.ltb_lt _ _) Hr). destruct (list.last (discard_blocks b)) as [bl|] eqn:E; [case_match|].
    + eexists _, _. split; [done|]. split; [done|]. cbn [discard_blocks]. apply last_Some in E as [l E]. rewrite E, removelast_last, length_app in *. cbn [length] in *. rewrite ?length_app in *. cbn [length] in *. lia.
    + destruct (length _ =? _)%nat eqn:Ef.
      * match goal with |- context [flush_discard_blocks ?x] => pose proof (flush_state x) as Hs; destruct (flush_discard_blocks x) as [b' evs] end. cbn [fst] in Hs. subst b'. by eexists _, _.
      * eexists _, _. split; [done|]. split; [done|]. apply Nat.eqb_neq in Ef. cbn [discard_blocks]. rewrite length_app in *. cbn [length] in *. lia.
    + eexists _, _. split; [done|]. split; [done|]. apply last_None in E. rewrite E. cbn. unfold nru_max_nof_pdcp_sn_discard_blocks. lia.
  - destruct (dl_notif_timer b); [|by eexists _, _]. unfold on_expired_dl_notif_timer. match goal with |- context [flush_discard_blocks ?x] => pose proof (flush_state x) as Hs; destruct (flush_discard_blocks x) as [b' evs] end. cbn [fst] in Hs. subst b'. by eexists _, _.
Qed.
(** Everything is sent to one place. *)
Lemma send_all_to {M E} (send : M -> option (list E)) (f : M -> list E) msgs : (forall m, send m = Some (f m)) -> send_all send msgs = Some (concat (map f msgs)).
Proof. intros H. induction msgs as [|m ms IH]; [done|]. cbn [send_all map concat]. by rewrite H, IH. Qed.
Lemma send_none {M E} (msgs : list M) : concat (map (fun _ => @nil E) msgs) = [].
Proof. by induction msgs. Qed.
Section Calls.
Context (s : conn_sys) (Hok : conn_ok s).
Lemma cu_update_ok id b b' : cu_objs (conn s) !! id = Some b -> cu_ul_teid b' = cu_ul_teid b -> (length (discard_blocks b') < nru_max_nof_pdcp_sn_discard_blocks)%nat ->
  conn_ok (ConnSys (F1uConn (cu_map (conn s)) (du_map (conn s)) (<[id := b']> (cu_objs (conn s))) (du_objs (conn s)) (next_obj (conn s))) (joined s) (attached s)).
Proof.
  intros Hb Ht Hl. destruct (co_fresh _ Hok) as (Hf1 & Hf2 & Hf3 & Hf4). split; cbn [conn joined attached cu_map du_map cu_objs du_objs next_obj]; try apply Hok.
  - intros ul cu' H. destruct (co_cu _ Hok _ _ H) as (b0 & Hb0 & Ht0). destruct (decide (id = cb_bearer cu')) as [->|]; [rewrite lookup_insert_eq; exists b'; split; [done|congruence]|rewrite lookup_insert_ne by done; eauto].
  - intros i b0 H. map_cases; [done|by apply (co_room _ Hok _ _ H)].
  - intros i i' b1 b2 [[<- <-]|[_ H]]%lookup_insert_Some [[<- <-]|[_ H']]%lookup_insert_Some E; [done| | |by apply (co_teids _ Hok _ _ _ _ H H')].
    + apply (co_teids _ Hok _ _ _ _ Hb H'). congruence.
    + apply (co_teids _ Hok _ _ _ _ H Hb). congruence.
  - split_and!; try done. intros i [x H]. apply Hf1. map_cases; eauto.
Qed.
Lemma du_update_ok d dl x x' : du_objs (conn s) !! d = Some (dl, x) ->
  conn_ok (ConnSys (F1uConn (cu_map (conn s)) (du_map (conn s)) (cu_objs (conn s)) (<[d := (dl, x')]> (du_objs (conn s))) (next_obj (conn s))) (joined s) (attached s)).
Proof.
  intros Hx. destruct (co_fresh _ Hok) as (Hf1 & Hf2 & Hf3 & Hf4). split; cbn [conn joined attached cu_map du_map cu_objs du_objs next_obj]; try apply Hok.
  - intros dl' du' H. destruct (co_du _ Hok _ _ H) as [[y Hy] Hj]. split; [|done]. destruct (decide (d = db_bearer du')) as [->|]; [rewrite lookup_insert_eq; exists x'; simplify_eq; done|rewrite lookup_insert_ne by done; eauto].
  - intros i dl' y H. map_cases; [by apply (co_du_obj _ Hok _ _ _ Hx)|by apply (co_du_obj _ Hok _ _ _ H)].
  - split_and!; try done. intros i [y H]. apply Hf2. map_cases; eauto.
Qed.

(** Downlink: a call of a connected bearer of the CU-UP reaches the bearer of the DU it was joined with, if there is one. *)
Lemma cu_call_routed id b op b' evs : connected (conn s) id -> cu_objs (conn s) !! id = Some b -> cu_step b op = Some (b', evs) ->
  (forall d dl, joined s !! d = Some (id, dl) -> is_Some (du_objs (conn s) !! d)) ->
  exists out, cu_call (conn s) id op = Some (F1uConn (cu_map (conn s)) (du_map (conn s)) (<[id := b']> (cu_objs (conn s))) (du_objs (conn s)) (next_obj (conn s)), out)
    /\ (forall d dl, joined s !! d = Some (id, dl) -> out = concat (map (fun m => map (pair d) (du_handle_pdu m)) (dl_msgs evs)))
    /\ ((forall d dl, joined s !! d <> Some (id, dl)) -> out = []).
Proof.
  intros (ul & cu & Hcu & Hid) Hb Hstep Hlive. destruct (co_cu _ Hok _ _ Hcu) as (b0 & Hb0 & Ht). rewrite Hid, Hb in Hb0. injection Hb0 as <-. unfold cu_call. rewrite Hb. cbn [mbind option_bind]. rewrite Hstep. cbn [mbind option_bind].
  pose proof (fun d => co_dl _ Hok _ _ d Hcu) as Hh. rewrite Hid in Hh. unfold dl_on_new_pdu. rewrite Ht, Hcu. cbn [mbind option_bind]. rewrite (proj2 (Nat.eqb_eq _ _) Hid). cbn [negb]. destruct (cu_tx_handler cu) as [d0|].
  - destruct (proj1 (Hh d0) eq_refl) as [dl0 Hj0]. destruct (Hlive _ _ Hj0) as [x ->]. erewrite send_all_to by done. cbn [mbind option_bind]. eexists. split; [done|]. split; [|intros Hno; by destruct (Hno _ _ Hj0)].
    intros d dl Hj. assert (Some d0 = Some d) as [= ->] by (apply Hh; eauto). done.
  - erewrite (send_all_to _ (fun _ => [])) by done. cbn [mbind option_bind]. eexists. split; [done|]. rewrite send_none. split; [|done]. intros d dl Hj. exfalso. assert (None = Some d) by (apply Hh; eauto). done.
Qed.
(** Uplink: a call of a bearer of the DU reaches the bearer of the CU-UP until that is disconnected, and then nothing, if the DL-TEID was attached. *)
Lemma du_call_routed d dl x op id : du_objs (conn s) !! d = Some (dl, x) -> joined s !! d = Some (id, dl) -> is_Some (cu_objs (conn s) !! id) \/ d ∈ attached s ->
  exists out, du_call (conn s) d op = Some (F1uConn (cu_map (conn s)) (du_map (conn s)) (cu_objs (conn s)) (<[d := (dl, (du_step x op).1)]> (du_objs (conn s))) (next_obj (conn s)), out)
    /\ (connected (conn s) id \/ d ∉ attached s -> out = concat (map (fun m => map (pair id) (cu_handle_pdu m)) (ul_msgs (du_step x op).2)))
    /\ (~ connected (conn s) id -> d ∈ attached s -> out = []).
Proof.
  intros Hx Hj Hlive. destruct (co_du_obj _ Hok _ _ _ Hx) as (du & Hdu & <-). destruct (co_ul _ Hok _ _ _ Hdu Hj) as [H1 H2]. unfold du_call. rewrite Hx. cbn [mbind option_bind]. destruct (du_step x op) as [x' evs]. cbn [fst snd]. unfold ul_on_new_pdu. rewrite Hdu. cbn [mbind option_bind].
  destruct (decide (db_bearer du ∈ attached s /\ ~ connected (conn s) id)) as [[Ha Hnc]|Hn].
  - rewrite H2 by done. erewrite (send_all_to _ (fun _ => [])) by done. cbn [mbind option_bind]. eexists. split; [done|]. rewrite send_none. split; [tauto|done].
  - assert (connected (conn s) id \/ db_bearer du ∉ attached s) as Hc by (destruct (decide (connected (conn s) id)); tauto).
    assert (is_Some (cu_objs (conn s) !! id)) as [b Hb] by (destruct Hc; [by apply (connected_live s Hok)|tauto]).
    rewrite H1, Hb by done. erewrite send_all_to by done. cbn [mbind option_bind]. eexists. split; [done|]. split; [done|tauto].
Qed.

Lemma sys_step_ok op : allowed s op -> exists s', sys_step s op = Some s' /\ conn_ok s'.
Proof.
  intros Hal. destruct op as [ul|ul|id|dl ul|dl|ul dl|id op|d op].
  - destruct (create_cu_ok s Hok ul Hal) as (c' & id & E & H). eexists. split; [|exact H]. unfold sys_step. cbn [conn_step]. by rewrite E.
  - eexists. split; [done|]. apply (disconnect_ok s Hok).
  - destruct Hal as [b Hb]. destruct (disconnect_ok s Hok (cu_ul_teid b)) as [Hd Hnc]. unfold sys_step. cbn [conn_step]. unfold destroy_cu_bearer. rewrite Hb. cbn [mbind option_bind]. eexists. split; [done|].
    assert (cu_objs (disconnect_cu_bearer (conn s) (cu_ul_teid b)) = cu_objs (conn s)) as Eo by (unfold disconnect_cu_bearer; by destruct (cu_map _ !! _)).
    apply (delete_cu_ok _ Hd id). cbn [conn]. intros Hc. destruct (cu_map (conn s) !! cu_ul_teid b) as [cu|] eqn:Hcu; [apply (Hnc _ eq_refl); by rewrite (cu_bearer_at s Hok _ _ _ Hb Hcu)|].
    destruct Hc as (ul & cu & Hcu' & <-). destruct (co_cu _ Hd _ _ Hcu') as (b' & Hb' & Ht). cbn [conn] in Hb'. rewrite Eo, Hb in Hb'. injection Hb' as <-. unfold disconnect_cu_bearer in Hcu'. rewrite Hcu in Hcu'. congruence.
  - by apply create_du_ok.
  - eexists. split; [done|]. by apply remove_du_ok.
  - by apply attach_ok.
  - destruct Hal as [Hc Hl]. destruct (connected_live s Hok _ Hc) as [b Hb]. destruct (cu_step_room b op (co_room _ Hok _ _ Hb)) as (b' & evs & Hstep & Ht & Hr). destruct (cu_call_routed id b op b' evs Hc Hb Hstep Hl) as (out & E & _).
    eexists. unfold sys_step. cbn [conn_step]. rewrite E. split; [done|]. by eapply cu_update_ok.
  - destruct Hal as [[[dl x] Hx] Hl]. destruct (co_du_obj _ Hok _ _ _ Hx) as (du & Hdu & Hd). destruct (co_du _ Hok _ _ Hdu) as [_ [id Hj]]. rewrite Hd in Hj. destruct (du_call_routed d dl x op id Hx Hj (Hl _ _ Hj)) as (out & E & _).
    eexists. unfold sys_step. cbn [conn_step]. rewrite E. split; [done|]. by eapply du_update_ok.
Qed.
End Calls.
Lemma conn_new_ok : conn_ok conn_sys_new.
Proof. split; cbn; try (intros ???; done). split_and!; [by intros ? []|by intros ? []|done|]. intros d Hd. by apply not_elem_of_empty in Hd. Qed.
Lemma conn_reachable_ok s : conn_reachable s -> conn_ok s.
Proof. induction 1 as [|s op s' _ IH Hal Hs]; [apply conn_new_ok|]. destruct (sys_step_ok s IH op Hal) as (s'' & Hs' & H). by simplify_eq. Qed.

(** Runs, for examples: a pair of bearers is joined and attached, then the bearer of the CU-UP is destroyed. *)
Definition conn_run (ops : list conn_op) : option f1u_local_connector := foldl (fun c op => let* c := c in conn_step c op) (Some f1u_conn_new) ops.
Definition sys_run (ops : list conn_op) : conn_sys := foldl (fun s op => default s (sys_step s op)) conn_sys_new ops.
Lemma sys_run_next ops op : conn_reachable (sys_run ops) -> allowed (sys_run ops) op -> conn_reachable (sys_run (ops ++ [op])).
Proof. intros Hr Hal. unfold sys_run in *. rewrite foldl_app. cbn. destruct (sys_step _ op) eqn:E; [by eapply conn_next|done]. Qed.
Definition conn_joined_ops : list conn_op := [op_create_cu 7; op_create_du 9 7; op_attach 7 9].
Lemma conn_joined_reachable : conn_reachable (sys_run conn_joined_ops).
Proof.
  apply (sys_run_next [op_create_cu 7; op_create_du 9 7]); [|intros cu du; vm_compute; intros; by simplify_eq]. apply (sys_run_next [op_create_cu 7]); [|split_and!; [done|by intros ? ?|by intros ? ? ?]].
  apply (sys_run_next []); [constructor|by intros ? ?].
Qed.
(** The order of traffic and removal matters: when the DU has removed its bearer, the adapter of the CU-UP keeps the pointer to it, and the next downlink SDU
    calls a destroyed object; when the bearer of the CU-UP is destroyed before its DL-TEID is attached, the next uplink SDU does. *)
Theorem f1u_removal_leaves_pointer :
  is_Some (conn_run [op_create_cu 7; op_create_du 9 7; op_attach 7 9; op_remove_du 9]) /\
  conn_run [op_create_cu 7; op_create_du 9 7; op_attach 7 9; op_remove_du 9; op_cu 0 (cu_op_sdu (PdcpTxPdu [1] (Some 0)))] = None /\
  is_Some (conn_run [op_create_cu 7; op_create_du 9 7; op_destroy_cu 0]) /\
  conn_run [op_create_cu 7; op_create_du 9 7; op_destroy_cu 0; op_du 1 (du_op_sdu [1])] = None.
Proof. split_and!; [eexists|..|eexists|]; vm_compute; reflexivity. Qed.
(** A DL-TEID that the DU uses again (it is made of the UE index and the DRB) while the bearer of the CU-UP of its former use is still connected: the
    destruction of the latter detaches the new bearer of the DU, whose uplink SDUs are lost. *)
Theorem f1u_stale_teid_detaches :
  exists c c', conn_run [op_create_cu 7; op_create_du 9 7; op_attach 7 9; op_remove_du 9; op_create_cu 8; op_create_du 9 8; op_attach 8 9] = Some c
    /\ (snd <$> du_call c 3 (du_op_sdu [1])) <> Some [] /\ destroy_cu_bearer c 0 = Some c' /\ (snd <$> du_call c' 3 (du_op_sdu [1])) = Some [].
Proof. eexists _, _. split; [vm_compute; reflexivity|]. split; [vm_compute; discriminate|]. split; vm_compute; reflexivity. Qed.
