(* ===== verification/SecContext.v ===== *)
(** * Security context and key derivation

    [lib/security/security.cpp] and the types of [include/srsran/security/security.h]: selection of the algorithms of a UE,
    derivation of the keys of the access stratum and of the key for a handover, and the configurations given to the PDCP.

    HMAC-SHA-256 belongs to a library outside the repository: it is the parameter [hmac_engine].  [None] is a failed
    check or [report_error]. *)
From S2P Require Import Prelude SecS3g Security.

Class hmac_engine := { sha256 : bytes -> bytes -> bytes }.

(** ** Types *)
Definition sec_key_len : nat := 32.
Definition sec_128_key_len : nat := 16.
Definition ciph_to_number (a : ciphering_algorithm) : Z := match a with nea0 => 0 | nea1 => 1 | nea2 => 2 | nea3 => 3 end.
Definition inte_to_number (a : integrity_algorithm) : Z := match a with nia0 => 0 | nia1 => 1 | nia2 => 2 | nia3 => 3 end.
Definition ciphering_algorithm_from_number (n : Z) : option ciphering_algorithm :=
  if n =? 0 then Some nea0 else if n =? 1 then Some nea1 else if n =? 2 then Some nea2 else if n =? 3 then Some nea3 else None.
Definition integrity_algorithm_from_number (n : Z) : option integrity_algorithm :=
  if n =? 0 then Some nia0 else if n =? 1 then Some nia1 else if n =? 2 then Some nia2 else if n =? 3 then Some nia3 else None.
Inductive fc_value := algorithm_key_derivation | k_ng_ran_star_derivation.
Definition fc_to_number (fc : fc_value) : Z := match fc with algorithm_key_derivation => 0x69 | k_ng_ran_star_derivation => 0x70 end.
Inductive security_algo_distinguisher := rrc_enc_alg | rrc_int_alg | up_enc_alg | up_int_alg.
Definition distinguisher_to_number (d : security_algo_distinguisher) : Z :=
  match d with rrc_enc_alg => 3 | rrc_int_alg => 4 | up_enc_alg => 5 | up_int_alg => 6 end.
Record sec_as_config := SecAs { as_domain : sec_domain; as_k_int : bytes; as_k_enc : bytes; as_integ_algo : integrity_algorithm; as_cipher_algo : ciphering_algorithm }.
Record sec_selected_algos := SelAlgos { algos_selected : bool; sel_integ_algo : integrity_algorithm; sel_cipher_algo : ciphering_algorithm }.
Record sec_as_keys := AsKeys { k_rrc_int : bytes; k_rrc_enc : bytes; k_up_int : bytes; k_up_enc : bytes }.
Record security_context := SecContext {
  sc_k : bytes;
  supported_int_algos : list bool;
  supported_enc_algos : list bool;
  sel_algos : sec_selected_algos;
  as_keys : sec_as_keys;
}.
Definition with_sel_algos (c : security_context) (s : sec_selected_algos) : security_context :=
  SecContext (sc_k c) (supported_int_algos c) (supported_enc_algos c) s (as_keys c).

(** ** Selection of algorithms

    The loops over the preferences; an index past the array of supported algorithms is [None]. *)
Fixpoint select_integrity (supported : list bool) (pref : list integrity_algorithm) : option (option integrity_algorithm) :=
  match pref with
  | [] => Some None
  | a :: pref =>
      let algo_id := inte_to_number a in
      if algo_id =? 0 then Some None
      else let* s := supported !! Z.to_nat (algo_id - 1) in
           if s : bool then let* r := integrity_algorithm_from_number algo_id in Some (Some r) else select_integrity supported pref
  end.
Fixpoint select_ciphering (supported : list bool) (pref : list ciphering_algorithm) : option (option ciphering_algorithm) :=
  match pref with
  | [] => Some None
  | a :: pref =>
      let algo_id := ciph_to_number a in
      if algo_id =? 0 then Some (Some nea0)
      else let* s := supported !! Z.to_nat (algo_id - 1) in
           if s : bool then let* r := ciphering_algorithm_from_number algo_id in Some (Some r) else select_ciphering supported pref
  end.
Definition select_algorithms (c : security_context) (pref_inte : list integrity_algorithm) (pref_ciph : list ciphering_algorithm) : option (security_context * bool) :=
  let* inte := select_integrity (supported_int_algos c) pref_inte in
  match inte with
  | None => Some (c, false)
  | Some i =>
      let c := with_sel_algos c (SelAlgos (algos_selected (sel_algos c)) i (sel_cipher_algo (sel_algos c))) in
      let* ciph := select_ciphering (supported_enc_algos c) pref_ciph in
      match ciph with
      | None => Some (c, false)
      | Some e => Some (with_sel_algos c (SelAlgos true i e), true)
      end
  end.

(** ** Key derivation *)
(** The two bytes of [htons]. *)
Definition p_len (n : Z) : bytes := [u8 (Z.shiftr (u16 n) 8); u8 (u16 n)].
Definition kdf_input (fc : fc_value) (p0 p1 : bytes) : bytes := fc_to_number fc :: p0 ++ p_len (blen p0) ++ p1 ++ p_len (blen p1).
Definition truncate_key (key : bytes) : bytes := drop (sec_key_len - sec_128_key_len) key.
Definition truncate_config (cfg : sec_as_config) : sec_128_as_config :=
  Sec128 (as_domain cfg) (truncate_key (as_k_int cfg)) (truncate_key (as_k_enc cfg)) (as_integ_algo cfg) (as_cipher_algo cfg).
(** The parameters of the key for a handover. *)
Definition pci_bytes (pci : Z) : bytes := [Z.land (Z.shiftr pci 8) 0xff; Z.land pci 0xff].
Definition arfcn_bytes (arfcn : Z) : option bytes :=
  if arfcn <? 2 ^ 16 then Some [Z.land (Z.shiftr arfcn 8) 0xff; Z.land arfcn 0xff]
  else if arfcn <? 2 ^ 24 then Some [Z.land (Z.shiftr arfcn 16) 0xff; Z.land (Z.shiftr arfcn 8) 0xff; Z.land arfcn 0xff]
  else None.
Section Kdf.
Context {H : hmac_engine}.
Definition generic_kdf (key_in : bytes) (fc : fc_value) (p0 p1 : bytes) : bytes := sha256 key_in (kdf_input fc p0 p1).
Definition generate_k_rrc (k_gnb : bytes) (enc : ciphering_algorithm) (inte : integrity_algorithm) : bytes * bytes :=
  (generic_kdf k_gnb algorithm_key_derivation [distinguisher_to_number rrc_enc_alg] [ciph_to_number enc],
   generic_kdf k_gnb algorithm_key_derivation [distinguisher_to_number rrc_int_alg] [inte_to_number inte]).
Definition generate_k_up (k_gnb : bytes) (enc : ciphering_algorithm) (inte : integrity_algorithm) : bytes * bytes :=
  (generic_kdf k_gnb algorithm_key_derivation [distinguisher_to_number up_enc_alg] [ciph_to_number enc],
   generic_kdf k_gnb algorithm_key_derivation [distinguisher_to_number up_int_alg] [inte_to_number inte]).
Definition generate_k_ng_ran_star (k : bytes) (pci arfcn : Z) : option bytes :=
  let* a := arfcn_bytes arfcn in Some (generic_kdf k k_ng_ran_star_derivation (pci_bytes pci) a).

(** ** The context *)
Definition generate_as_keys (c : security_context) : option security_context :=
  if negb (algos_selected (sel_algos c)) then None
  else
    let '(rrc_enc, rrc_int) := generate_k_rrc (sc_k c) (sel_cipher_algo (sel_algos c)) (sel_integ_algo (sel_algos c)) in
    let '(up_enc, up_int) := generate_k_up (sc_k c) (sel_cipher_algo (sel_algos c)) (sel_integ_algo (sel_algos c)) in
    Some (SecContext (sc_k c) (supported_int_algos c) (supported_enc_algos c) (sel_algos c) (AsKeys rrc_int rrc_enc up_int up_enc)).
Definition horizontal_key_derivation (c : security_context) (target_pci target_ssb_arfcn : Z) : option security_context :=
  let* k := generate_k_ng_ran_star (sc_k c) target_pci target_ssb_arfcn in
  generate_as_keys (SecContext k (supported_int_algos c) (supported_enc_algos c) (sel_algos c) (as_keys c)).
Definition get_as_config (c : security_context) (domain : sec_domain) : option sec_as_config :=
  if negb (algos_selected (sel_algos c)) then None
  else
    let '(k_int, k_enc) := match domain with sec_rrc => (k_rrc_int (as_keys c), k_rrc_enc (as_keys c)) | sec_up => (k_up_int (as_keys c), k_up_enc (as_keys c)) end in
    Some (SecAs domain k_int k_enc (sel_integ_algo (sel_algos c)) (sel_cipher_algo (sel_algos c))).
Definition get_128_as_config (c : security_context) (domain : sec_domain) : option sec_128_as_config :=
  let* cfg := get_as_config c domain in Some (truncate_config cfg).
End Kdf.

(** ** Selection *)
Definition int_supported (c : security_context) (a : integrity_algorithm) : Prop := a <> nia0 /\ supported_int_algos c !! Z.to_nat (inte_to_number a - 1) = Some true.
Definition enc_supported (c : security_context) (a : ciphering_algorithm) : Prop := a = nea0 \/ supported_enc_algos c !! Z.to_nat (ciph_to_number a - 1) = Some true.
(** [x] is the first of the preferences [l] with [P]; those before it are none of [stop]. *)
Definition first_of {A} (P : A -> Prop) (stop : A -> Prop) (l : list A) (x : A) : Prop := exists l1 l2, l = l1 ++ x :: l2 /\ P x /\ Forall (fun y => ~ P y /\ ~ stop y) l1.
(** The support of three algorithms is known. *)
Record sc_ok (c : security_context) : Prop := { sc_int : length (supported_int_algos c) = 3%nat; sc_enc : length (supported_enc_algos c) = 3%nat }.
Lemma first_of_here {A} (P stop : A -> Prop) x l : P x -> first_of P stop (x :: l) x.
Proof. intros Hx. exists [], l. done. Qed.
Lemma first_of_next {A} (P stop : A -> Prop) y l x : ~ P y -> ~ stop y -> first_of P stop (y :: l) x <-> first_of P stop l x.
Proof.
  intros Hy Hs. split.
  - intros ([|z l1] & l2 & [= -> ->] & Hx & Hl); [done|]. exists l1, l2. split; [done|]. split; [done|]. by apply Forall_cons_1 in Hl as [_ ?].
  - intros (l1 & l2 & -> & Hx & Hl). exists (y :: l1), l2. split; [done|]. split; [done|]. by constructor.
Qed.
Lemma first_of_stop {A} (P stop : A -> Prop) y l x : ~ P y -> stop y -> ~ first_of P stop (y :: l) x.
Proof. intros Hy Hs ([|z l1] & l2 & [= -> ->] & Hx & Hl); [done|]. apply Forall_cons_1 in Hl as [[_ ?] _]. done. Qed.
Lemma select_integrity_spec c pref : sc_ok c -> exists r, select_integrity (supported_int_algos c) pref = Some r /\
  match r with Some a => first_of (int_supported c) (fun a => a = nia0) pref a | None => forall a, ~ first_of (int_supported c) (fun a => a = nia0) pref a end.
Proof.
  intros [Hl _]. induction pref as [|a pref IH]; [exists None; split; [done|]; intros x (l1 & l2 & E & _); by destruct l1|]. cbn [select_integrity].
  destruct (decide (a = nia0)) as [->|Hne]; [exists None; split; [done|]; intros x; apply first_of_stop; [intros [? _]; done|done]|].
  assert (exists s, supported_int_algos c !! Z.to_nat (inte_to_number a - 1) = Some s) as [s Hs] by (apply lookup_lt_is_Some; rewrite Hl; destruct a; cbn; lia).
  rewrite (proj2 (Z.eqb_neq (inte_to_number a) 0)) by (destruct a; done). rewrite Hs. destruct s.
  - exists (Some a). split; [by destruct a|]. by apply first_of_here.
  - destruct IH as (r & -> & Hr). exists r. split; [done|]. assert (~ int_supported c a) as Hn by (intros [_ H]; rewrite Hs in H; done). destruct r; [by apply first_of_next|]. intros x. rewrite first_of_next by done. apply Hr.
Qed.
Lemma select_ciphering_spec c pref : sc_ok c -> exists r, select_ciphering (supported_enc_algos c) pref = Some r /\
  match r with Some a => first_of (enc_supported c) (fun _ => False) pref a | None => forall a, ~ first_of (enc_supported c) (fun _ => False) pref a end.
Proof.
  intros [_ Hl]. induction pref as [|a pref IH]; [exists None; split; [done|]; intros x (l1 & l2 & E & _); by destruct l1|]. cbn [select_ciphering].
  destruct (Z.eqb_spec (ciph_to_number a) 0) as [E|Hne]; [destruct a; try done; exists (Some nea0); split; [done|]; apply first_of_here; by left|].
  assert (exists s, supported_enc_algos c !! Z.to_nat (ciph_to_number a - 1) = Some s) as [s Hs] by (apply lookup_lt_is_Some; rewrite Hl; destruct a; cbn; lia).
  rewrite Hs. destruct s.
  - exists (Some a). split; [by destruct a|]. apply first_of_here. by right.
  - destruct IH as (r & -> & Hr). exists r. split; [done|]. assert (~ enc_supported c a) as Hn by (intros [->|H]; [done|]; rewrite Hs in H; done). destruct r; [apply first_of_next; auto|]. intros x. rewrite first_of_next by auto. apply Hr.
Qed.

(** ** Inputs of the hash

    The keys the code derives, and the string each is derived from. *)
Inductive derivation := derive_enc (d : sec_domain) (a : ciphering_algorithm) | derive_int (d : sec_domain) (a : integrity_algorithm) | derive_star (pci arfcn : Z).
Definition derivation_input (d : derivation) : option bytes :=
  match d with
  | derive_enc d a => Some (kdf_input algorithm_key_derivation [distinguisher_to_number match d with sec_rrc => rrc_enc_alg | sec_up => up_enc_alg end] [ciph_to_number a])
  | derive_int d a => Some (kdf_input algorithm_key_derivation [distinguisher_to_number match d with sec_rrc => rrc_int_alg | sec_up => up_int_alg end] [inte_to_number a])
  | derive_star pci arfcn => let* a := arfcn_bytes arfcn in Some (kdf_input k_ng_ran_star_derivation (pci_bytes pci) a)
  end.
Definition derivation_ok (d : derivation) : Prop := match d with derive_star pci arfcn => 0 <= pci < 2 ^ 16 /\ 0 <= arfcn | _ => True end.
(** A field of bytes gives back the number. *)
Lemma be16_inj x y : 0 <= x < 2 ^ 16 -> 0 <= y < 2 ^ 16 -> pci_bytes x = pci_bytes y -> x = y.
Proof.
  unfold pci_bytes. change 0xff with (Z.ones 8). rewrite !Z.land_ones, !Z.shiftr_div_pow2 by lia. intros Hx Hy [= H1 H2]. change (2 ^ 8) with 256 in *. mlia.
Qed.
Lemma arfcn_bytes_inj x y a : 0 <= x -> 0 <= y -> arfcn_bytes x = Some a -> arfcn_bytes y = Some a -> x = y.
Proof.
  unfold arfcn_bytes. change 0xff with (Z.ones 8). rewrite !Z.land_ones, !Z.shiftr_div_pow2 by lia. intros Hx Hy.
  destruct (x <? 2 ^ 16) eqn:E1; [|destruct (x <? 2 ^ 24) eqn:E2; [|done]]; intros [= <-]; (destruct (y <? 2 ^ 16) eqn:E3; [|destruct (y <? 2 ^ 24) eqn:E4; [|done]]); intros [=]; breflect; change (2 ^ 8) with 256 in *; change (2 ^ 16) with 65536 in *; change (2 ^ 24) with 16777216 in *; mlia.
Qed.
Lemma star_input_inj pci arfcn pci' arfcn' a a' : 0 <= pci < 2 ^ 16 -> 0 <= arfcn -> 0 <= pci' < 2 ^ 16 -> 0 <= arfcn' -> arfcn_bytes arfcn = Some a -> arfcn_bytes arfcn' = Some a' ->
  kdf_input k_ng_ran_star_derivation (pci_bytes pci) a = kdf_input k_ng_ran_star_derivation (pci_bytes pci') a' -> pci = pci' /\ arfcn = arfcn'.
Proof.
  intros Hp Ha Hp' Ha' E1 E2 Hk. unfold kdf_input, pci_bytes in Hk. cbn [app] in Hk. injection Hk as H1 H2 Hk.
  split; [apply be16_inj; [lia|lia|]; unfold pci_bytes; congruence|]. apply (f_equal length) in Hk as HL. rewrite !length_app in HL. cbn in HL. apply app_inj_1 in Hk as [-> _]; [|lia]. by eapply arfcn_bytes_inj.
Qed.
(** Key separation: two keys the code derives from the same key use the same input of the hash only when they are the same key: same domain,
    purpose and algorithm, or the same target cell and carrier, whose frequency takes two or three bytes. *)
Theorem key_inputs_distinct d d' s : derivation_ok d -> derivation_ok d' -> derivation_input d = Some s -> derivation_input d' = Some s -> d = d'.
Proof.
  intros Hd Hd' Hs Hs'. destruct d as [dm a|dm a|pci arfcn], d' as [dm' a'|dm' a'|pci' arfcn']; cbn [derivation_input] in Hs, Hs'.
  1, 2, 4, 5: injection Hs as <-; injection Hs' as E; revert E; destruct dm, dm', a, a'; done.
  1, 2: injection Hs as <-; destruct (arfcn_bytes arfcn'); [|done]; injection Hs' as E; discriminate E.
  1, 2: injection Hs' as <-; destruct (arfcn_bytes arfcn); [|done]; injection Hs as E; discriminate E.
  destruct (arfcn_bytes arfcn) as [a|] eqn:E1; [|done]. destruct (arfcn_bytes arfcn') as [a'|] eqn:E2; [|done]. 
  destruct Hd as [Hp Ha], Hd' as [Hp' Ha']. destruct (star_input_inj pci arfcn pci' arfcn' a a' Hp Ha Hp' Ha' E1 E2) as [-> ->]; congruence.
Qed.
Lemma key_inputs_distinct_witness : derive_star 5 100 = derive_star 5 100.
Proof. apply (key_inputs_distinct _ _ [0x70; 0; 5; 0; 2; 0; 100; 0; 2]); first [reflexivity | split; lia]. Defined.

(** ** The context *)
Section Context.
Context {H : hmac_engine}.
(** The key derived for [d] from [k]; [[]] when [d] has no input. *)
Definition derived_key (k : bytes) (d : derivation) : bytes := default [] (sha256 k <$> derivation_input d).
(** The configuration of a domain that the standard prescribes. *)
Definition config_of (k : bytes) (d : sec_domain) (i : integrity_algorithm) (e : ciphering_algorithm) : sec_128_as_config :=
  Sec128 d (truncate_key (derived_key k (derive_int d i))) (truncate_key (derived_key k (derive_enc d e))) i e.
Lemma generate_as_keys_spec c : algos_selected (sel_algos c) = true -> exists c', generate_as_keys c = Some c' /\ sc_k c' = sc_k c /\ sel_algos c' = sel_algos c /\
  forall d, get_128_as_config c' d = Some (config_of (sc_k c) d (sel_integ_algo (sel_algos c)) (sel_cipher_algo (sel_algos c))).
Proof.
  intros Hs. unfold generate_as_keys. rewrite Hs. eexists. split; [done|]. split; [done|]. split; [done|]. intros d. unfold get_128_as_config, get_as_config. cbn -[kdf_input]. rewrite Hs. by destruct d.
Qed.
(** C21: Security of the access stratum for every UE: algorithms are selected exactly when a preference allows it, and then integrity is the first preferred
    algorithm the UE supports, never NIA0, and ciphering the first that is NEA0 or supported; the configuration of each domain that the PDCP gets
    then holds these algorithms and the last 128 bits of the keys derived from K_gNB for them; a handover with a valid carrier frequency replaces
    K_gNB by the key derived for the target cell and keeps the algorithms, and one without fails. *)
Theorem security_context_correct c pref_int pref_enc : sc_ok c -> exists c1 ok, select_algorithms c pref_int pref_enc = Some (c1, ok) /\ sc_k c1 = sc_k c /\
  (ok = true <-> (exists i, first_of (int_supported c) (fun a => a = nia0) pref_int i) /\ exists e, first_of (enc_supported c) (fun _ => False) pref_enc e) /\
  (ok = true -> exists i e, first_of (int_supported c) (fun a => a = nia0) pref_int i /\ first_of (enc_supported c) (fun _ => False) pref_enc e /\ i <> nia0 /\
    exists c2, generate_as_keys c1 = Some c2 /\ (forall d, get_128_as_config c2 d = Some (config_of (sc_k c) d i e)) /\
      forall pci arfcn, match horizontal_key_derivation c2 pci arfcn with
        | Some c3 => arfcn < 2 ^ 24 /\ sc_k c3 = derived_key (sc_k c) (derive_star pci arfcn) /\ forall d, get_128_as_config c3 d = Some (config_of (sc_k c3) d i e)
        | None => 2 ^ 24 <= arfcn
        end).
Proof.
  intros Hok. unfold select_algorithms. destruct (select_integrity_spec c pref_int Hok) as ([i|] & -> & Hi).
  2: { exists c, false. split; [done|]. split; [done|]. split; [|done]. split; [done|]. intros [[i Hf] _]. by destruct (Hi i). }
  cbn [with_sel_algos supported_enc_algos]. destruct (select_ciphering_spec c pref_enc Hok) as ([e|] & -> & He).
  2: { eexists _, false. split; [done|]. split; [done|]. split; [|done]. split; [done|]. intros [_ [e Hf]]. by destruct (He e). }
  eexists _, true. split; [done|]. split; [done|]. split; [split; [intros _; split; [by exists i|by exists e]|done]|]. intros _. exists i, e. split; [done|]. split; [done|]. split; [by destruct Hi as (l1 & l2 & _ & [? _] & _)|].
  edestruct generate_as_keys_spec as (c2 & -> & Hk2 & Hs2 & Hc2); [done|]. exists c2. split; [done|]. split; [exact Hc2|]. intros pci arfcn. unfold horizontal_key_derivation, generate_k_ng_ran_star. rewrite Hk2.
  destruct (arfcn_bytes arfcn) as [a|] eqn:Ea.
  - edestruct generate_as_keys_spec as (c3 & -> & Hk3 & Hs3 & Hc3); [cbn [sel_algos]; by rewrite Hs2|]. cbn [sc_k] in Hk3. split; [|split].
    + unfold arfcn_bytes in Ea. destruct (arfcn <? 2 ^ 16) eqn:E1; [breflect; lia|]. destruct (arfcn <? 2 ^ 24) eqn:E2; [by breflect|done].
    + rewrite Hk3. unfold derived_key. cbn [derivation_input]. by rewrite Ea.
    + intros d. rewrite Hc3. cbn [sc_k sel_algos]. by rewrite Hs2, Hk3.
  - unfold arfcn_bytes in Ea. destruct (arfcn <? 2 ^ 16) eqn:E1; [done|]. destruct (arfcn <? 2 ^ 24) eqn:E2; [done|]. by breflect.
Qed.
End Context.
(** A hash for examples: it pads or cuts the input to 32 bytes. *)
Definition toy_hmac : hmac_engine := {| sha256 k m := take 32 (m ++ k ++ replicate 32 0) |}.
Lemma security_context_correct_witness : exists c1, @select_algorithms (SecContext (replicate 32 7) [false; true; true] [true; true; true] (SelAlgos false nia0 nea0) (AsKeys [] [] [] [])) [nia1; nia2; nia3; nia0] [nea0; nea2; nea1; nea3] = Some (c1, true).
Proof.
  assert (sc_ok (SecContext (replicate 32 7) [false; true; true] [true; true; true] (SelAlgos false nia0 nea0) (AsKeys [] [] [] []))) as Hok by (split; reflexivity).
  destruct (@security_context_correct toy_hmac _ [nia1; nia2; nia3; nia0] [nea0; nea2; nea1; nea3] Hok) as (c1 & ok & Heq & _ & Hiff & _). exists c1. rewrite Heq. do 2 f_equal. apply Hiff. split.
  - exists nia2, [nia1], [nia3; nia0]. split; [reflexivity|]. split; [split; [discriminate|reflexivity]|]. constructor; [|constructor]. split; [intros [_ Hx]; discriminate Hx|discriminate].
  - exists nea0, [], [nea2; nea1; nea3]. split; [reflexivity|]. split; [left; reflexivity|constructor].
Defined.
