(* ===== verification/BoundedBitset.v ===== *)
(** * bounded_bitset

    [include/srsran/adt/bounded_bitset.h]: a bit set of bounded size in words of 64 bits, whose bit 0 is the least
    significant bit of the first word or, with [LowestInfoBitIsMSB], the most significant bit of the set.

    The template parameters are arguments: [N], the bound, and [msb], the order.  [None] is a failed assertion, an
    access outside the array, or a shift by the width of its type. *)
From S2P Require Import Prelude Bits.

(** ** Words *)
Definition wbits : Z := 64.
Definition lnot64 (w : Z) : Z := u64 (Z.lnot w).
Definition mask64_msb_zeros (n : Z) : Z := if n =? 0 then u64 (-1) else if n =? wbits then 0 else Z.shiftr (u64 (-1)) n.
Definition mask64_lsb_ones (n : Z) : Z := mask64_msb_zeros (wbits - n).
Definition mask64_msb_ones (n : Z) : Z := lnot64 (mask64_msb_zeros n).
Definition mask64_lsb_zeros (n : Z) : Z := lnot64 (mask64_lsb_ones n).
(** [__builtin_clzl] and [__builtin_ctzl] with the case of zero, and [__builtin_popcountl]. *)
Definition zero_msb_count (w : Z) : Z := if w =? 0 then wbits else 63 - Z.log2 w.
Definition zero_lsb_count (w : Z) : Z := match list_find (fun i => Z.testbit w (Z.of_nat i) = true) (seq 0 64) with Some (i, _) => Z.of_nat i | None => wbits end.
Definition count_ones (w : Z) : Z := foldr (fun i c => Z.b2z (Z.testbit w (Z.of_nat i)) + c) 0 (seq 0 64).
Definition find_first_msb_one (w : Z) : Z := if w =? 0 then wbits else wbits - 1 - zero_msb_count w.
Definition find_first_lsb_one (w : Z) : Z := zero_lsb_count w.

(** ** State *)
Record bitset := Bitset { bs_buffer : list Z; bs_size : Z }.
Definition max_nof_words (N : Z) : Z := (N - 1) / wbits + 1.
Definition nof_words (b : bitset) : Z := if 0 <? bs_size b then (bs_size b - 1) / wbits + 1 else 0.
Definition bitset_new (N size : Z) : bitset := Bitset (replicate (Z.to_nat (max_nof_words N)) 0) size.
Definition word (b : bitset) (i : Z) : option Z := bs_buffer b !! Z.to_nat i.
Definition set_word (b : bitset) (i w : Z) : bitset := Bitset (<[Z.to_nat i := w]> (bs_buffer b)) (bs_size b).
Definition maskbit (pos : Z) : Z := Z.shiftl 1 (pos mod wbits).
Definition get_bitidx (msb : bool) (b : bitset) (bitpos : Z) : Z := if msb then u64 (bs_size b - 1 - bitpos) else bitpos.
Definition sanitize (b : bitset) : option bitset :=
  let n := bs_size b mod wbits in
  if negb (n =? 0) && (0 <? nof_words b)
  then let* w := word b (nof_words b - 1) in Some (set_word b (nof_words b - 1) (Z.land w (lnot64 (u64 (Z.shiftl (lnot64 0) n)))))
  else Some b.
Definition within_bounds (b : bitset) (pos : Z) : bool := pos <? bs_size b.
Definition range_bounds (b : bitset) (startpos endpos : Z) : bool := (startpos <=? endpos) && (endpos <=? bs_size b).

(** ** Single bits and size *)
Definition set_ (msb : bool) (b : bitset) (bitpos : Z) : option bitset :=
  let i := get_bitidx msb b bitpos in let* w := word b (i / wbits) in Some (set_word b (i / wbits) (Z.lor w (maskbit i))).
Definition reset_ (msb : bool) (b : bitset) (bitpos : Z) : option bitset :=
  let i := get_bitidx msb b bitpos in let* w := word b (i / wbits) in Some (set_word b (i / wbits) (Z.land w (lnot64 (maskbit i)))).
Definition test_ (msb : bool) (b : bitset) (bitpos : Z) : option bool :=
  let i := get_bitidx msb b bitpos in let* w := word b (i / wbits) in Some (negb (Z.land w (maskbit i) =? 0)).
Definition bs_resize (N : Z) (b : bitset) (new_size : Z) : option bitset :=
  if negb (new_size <=? N) then None
  else if new_size =? bs_size b then Some b
  else let* b := sanitize (Bitset (bs_buffer b) new_size) in
       Some (Bitset (imap (fun i w => if Z.of_nat i <? nof_words b then w else 0) (bs_buffer b)) new_size).
Definition bs_set_val (msb : bool) (b : bitset) (pos : Z) (val : bool) : option bitset :=
  if within_bounds b pos then if val then set_ msb b pos else reset_ msb b pos else None.
Definition bs_set (msb : bool) (b : bitset) (pos : Z) : option bitset := if within_bounds b pos then set_ msb b pos else None.
Definition bs_reset (msb : bool) (b : bitset) (pos : Z) : option bitset := if within_bounds b pos then reset_ msb b pos else None.
Definition bs_test (msb : bool) (b : bitset) (pos : Z) : option bool := if within_bounds b pos then test_ msb b pos else None.
(** A function of the words in use. *)
Definition map_words (f : Z -> Z) (b : bitset) : bitset := Bitset (imap (fun i w => if Z.of_nat i <? nof_words b then f w else w) (bs_buffer b)) (bs_size b).
Definition bs_reset_all (b : bitset) : bitset := map_words (fun _ => 0) b.
Definition bs_flip (b : bitset) : option bitset := sanitize (map_words lnot64 b).
(** The constructors from ranges of values. *)
Fixpoint assign_from (msb : bool) (n : Z) (values : list bool) (b : bitset) : option bitset :=
  match values with
  | [] => Some b
  | v :: values => let* b := if v : bool then set_ msb b n else reset_ msb b n in assign_from msb (n + 1) values b
  end.
Definition bs_of_list (N : Z) (msb : bool) (values : list bool) : option bitset :=
  let* b := bs_resize N (bitset_new N 0) (Z.of_nat (length values)) in assign_from msb 0 values b.
Definition bs_push_back (N : Z) (msb : bool) (b : bitset) (val : bool) : option bitset :=
  let bitpos := bs_size b in let* b := bs_resize N b (bs_size b + 1) in bs_set_val msb b bitpos val.
Fixpoint push_bits (msb : bool) (n : nat) (bit_index bitpos val nof_bits : Z) (b : bitset) : option bitset :=
  match n with
  | O => Some b
  | S n => let* b := bs_set_val msb b (bitpos + bit_index) (negb (Z.land (Z.shiftr val (nof_bits - 1 - bit_index)) 1 =? 0)) in push_bits msb n (bit_index + 1) bitpos val nof_bits b
  end.
Definition bs_push_back_bits (N : Z) (msb : bool) (b : bitset) (val nof_bits : Z) : option bitset :=
  let bitpos := bs_size b in let* b := bs_resize N b (bs_size b + nof_bits) in push_bits msb (Z.to_nat nof_bits) 0 bitpos val nof_bits b.

(** ** Ranges of words

    [find_first_word_]: the callback gets the word index and the mask of the selected bits, and may change the set. *)
Definition range_mask (start stop i start_word end_word : Z) : Z :=
  let mask := lnot64 0 in
  let mask := if i =? start_word then Z.land mask (mask64_lsb_zeros (start mod wbits)) else mask in
  if i =? end_word - 1 then Z.land mask (mask64_msb_zeros (end_word * wbits - stop)) else mask.
Fixpoint find_word_loop {A} (n : nat) (i start_word end_word start stop : Z) (c : Z -> Z -> A -> option (A * bool)) (a : A) : option (A * bool) :=
  match n with
  | O => Some (a, false)
  | S n =>
      let* (a, found) := c i (range_mask start stop i start_word end_word) a in
      if found : bool then Some (a, true) else find_word_loop n (i + 1) start_word end_word start stop c a
  end.
Definition find_first_word {A} (msb : bool) (b : bitset) (start stop : Z) (c : Z -> Z -> A -> option (A * bool)) (a : A) : option (A * bool) :=
  if negb (range_bounds b start stop) then None
  else
    let '(start, stop) := if msb then (u64 (get_bitidx msb b stop + 1), u64 (get_bitidx msb b start + 1)) else (start, stop) in
    let start_word := start / wbits in
    let end_word := stop / wbits + (if 0 <? stop mod wbits then 1 else 0) in
    find_word_loop (Z.to_nat (end_word - start_word)) start_word start_word end_word start stop c a.
Definition bs_fill (msb : bool) (b : bitset) (startpos endpos : Z) (value : bool) : option bitset :=
  let* (b, _) := find_first_word msb b startpos endpos
    (fun i mask b => let* w := word b i in Some (set_word b i (if value then Z.lor w mask else Z.land w (lnot64 mask)), false)) b in Some b.
Definition bs_all_range (msb : bool) (b : bitset) (start stop : Z) : option bool :=
  let* (_, not_all_found) := find_first_word msb b start stop (fun i mask (_ : unit) => let* w := word b i in Some (tt, negb (Z.lor w (lnot64 mask) =? lnot64 0))) tt in Some (negb not_all_found).
Definition bs_any_range (msb : bool) (b : bitset) (start stop : Z) : option bool :=
  let* (_, any_found) := find_first_word msb b start stop (fun i mask (_ : unit) => let* w := word b i in Some (tt, negb (Z.land w mask =? 0))) tt in Some any_found.
Definition bs_none_range (msb : bool) (b : bitset) (start stop : Z) : option bool := negb <$> bs_any_range msb b start stop.

(** ** The whole set *)
Definition used (b : bitset) : list Z := take (Z.to_nat (nof_words b)) (bs_buffer b).
Definition bs_any (b : bitset) : bool := existsb (fun w => negb (w =? 0)) (used b).
Definition bs_none (b : bitset) : bool := negb (bs_any b).
Definition bs_all (b : bitset) : option bool :=
  let nw := nof_words b in
  if nw =? 0 then Some true
  else if existsb (fun w => negb (w =? lnot64 0)) (take (Z.to_nat (nw - 1)) (bs_buffer b)) then Some false
  else let* w := word b (nw - 1) in Some (w =? Z.shiftr (lnot64 0) (nw * wbits - bs_size b)).
Definition bs_count (b : bitset) : Z := foldl (fun c w => c + count_ones w) 0 (used b).
Fixpoint words_eqb (l1 l2 : list Z) : bool :=
  match l1, l2 with x :: l1, y :: l2 => (x =? y) && words_eqb l1 l2 | _, _ => true end.
Definition bs_eqb (a b : bitset) : bool := (bs_size a =? bs_size b) && words_eqb (used a) (used b).
(** [operator|=] and [operator&=] *)
Definition zip_words (f : Z -> Z -> Z) (a b : bitset) : bitset :=
  Bitset (imap (fun i w => if Z.of_nat i <? nof_words a then f w (nth i (bs_buffer b) 0) else w) (bs_buffer a)) (bs_size a).
Definition bs_or (a b : bitset) : option bitset := if bs_size b =? bs_size a then Some (zip_words Z.lor a b) else None.
Definition bs_and (a b : bitset) : option bitset := if bs_size b =? bs_size a then Some (zip_words Z.land a b) else None.
Definition to_uint64 (b : bitset) : option Z := if nof_words b =? 1 then word b 0 else None.
(** [1U << size()] is a shift of 32 bits. *)
Definition from_uint64 (b : bitset) (v : Z) : option bitset :=
  if negb (nof_words b =? 1) then None
  else if negb (bs_size b <? 32) then None
  else if v <? u32 (Z.shiftl 1 (bs_size b)) then Some (set_word b 0 v) else None.

(** ** Slices *)
Definition slice_word (b : bitset) (start_word start_mod i : Z) : option Z :=
  let* w := word b (i + start_word) in
  if negb (start_mod =? 0) then
    let lo := Z.land (Z.shiftr w start_mod) (mask64_lsb_ones (wbits - start_mod)) in
    if i + start_word + 1 <? nof_words b
    then let* w' := word b (i + start_word + 1) in Some (Z.lor lo (u64 (Z.shiftl (Z.land w' (mask64_lsb_ones start_mod)) (wbits - start_mod))))
    else Some lo
  else Some w.
Fixpoint slice_words (n : nat) (i start_word start_mod : Z) (b sliced : bitset) : option bitset :=
  match n with
  | O => Some sliced
  | S n => let* w := slice_word b start_word start_mod i in let* _ := word sliced i in slice_words n (i + 1) start_word start_mod b (set_word sliced i w)
  end.
Definition bs_slice (N2 : Z) (msb : bool) (b : bitset) (startpos endpos : Z) : option bitset :=
  let sliced := bitset_new N2 (u64 (endpos - startpos)) in
  let startpos := if msb then u64 (get_bitidx msb b endpos + 1) else startpos in
  let* sliced := slice_words (Z.to_nat (nof_words sliced)) 0 (startpos / wbits) (startpos mod wbits) b sliced in
  sanitize sliced.

(** ** Searches *)
Definition value_word (value : bool) (w : Z) : Z := if value then w else lnot64 w.
Fixpoint find_first_loop (fuel : nat) (i startword lastword startpos endpos : Z) (value : bool) (b : bitset) : option Z :=
  match fuel with
  | O => None
  | S fuel =>
      if negb (i <=? lastword) then Some (-1)
      else
        let* w := word b i in
        let w := value_word value w in
        let w := if i =? startword then Z.land w (mask64_lsb_zeros (startpos mod wbits)) else w in
        let w := if i =? lastword then Z.land w (mask64_lsb_ones ((u64 (endpos - 1)) mod wbits + 1)) else w in
        if negb (w =? 0) then Some (i * wbits + find_first_lsb_one w) else find_first_loop fuel (i + 1) startword lastword startpos endpos value b
  end.
Definition find_first_ (b : bitset) (startpos endpos : Z) (value : bool) : option Z :=
  let startword := startpos / wbits in
  find_first_loop (S (S (length (bs_buffer b)))) startword startword (u64 (endpos - 1) / wbits) startpos endpos value b.
Fixpoint find_last_loop (msb : bool) (fuel : nat) (i startword lastword startpos endpos : Z) (value : bool) (b : bitset) : option Z :=
  match fuel with
  | O => None
  | S fuel =>
      if i =? u64 (startword - 1) then Some (-1)
      else
        let* w := word b i in
        let w := value_word value w in
        let w := if i =? startword then Z.land w ((if msb then mask64_msb_zeros else mask64_lsb_zeros) (startpos mod wbits)) else w in
        let w := if i =? lastword then Z.land w ((if msb then mask64_msb_ones else mask64_lsb_ones) (u64 (endpos - 1) mod wbits + 1)) else w in
        if negb (w =? 0) then Some (i * wbits + find_first_msb_one w) else find_last_loop msb fuel (u64 (i - 1)) startword lastword startpos endpos value b
  end.
Definition find_last_ (msb : bool) (b : bitset) (startpos endpos : Z) (value : bool) : option Z :=
  let startword := startpos / wbits in
  let lastword := u64 (endpos - 1) / wbits in
  find_last_loop msb (S (S (length (bs_buffer b)))) lastword startword lastword startpos endpos value b.
Fixpoint find_first_reversed_loop (fuel : nat) (i startword lastword startbitpos lastbitpos : Z) (value : bool) (b : bitset) : option Z :=
  match fuel with
  | O => None
  | S fuel =>
      if i =? u64 (lastword - 1) then Some (-1)
      else
        let* w := word b i in
        let w := value_word value w in
        let w := if i =? startword then Z.land w (mask64_lsb_ones (startbitpos mod wbits + 1)) else w in
        let w := if i =? lastword then Z.land w (mask64_lsb_zeros (lastbitpos mod wbits)) else w in
        if negb (w =? 0) then Some (bs_size b - 1 - (find_first_msb_one w + i * wbits)) else find_first_reversed_loop fuel (u64 (i - 1)) startword lastword startbitpos lastbitpos value b
  end.
Definition find_first_reversed_ (b : bitset) (startpos endpos : Z) (value : bool) : option Z :=
  let startbitpos := get_bitidx true b startpos in
  let lastbitpos := get_bitidx true b (endpos - 1) in
  find_first_reversed_loop (S (S (length (bs_buffer b)))) (startbitpos / wbits) (startbitpos / wbits) (lastbitpos / wbits) startbitpos lastbitpos value b.
Definition find_lowest (msb : bool) (b : bitset) (startpos endpos : Z) (value : bool) : option Z :=
  if negb (range_bounds b startpos endpos) then None
  else if startpos =? endpos then Some (-1)
  else if negb msb then find_first_ b startpos endpos value else find_first_reversed_ b startpos endpos value.
Definition find_highest (msb : bool) (b : bitset) (startpos endpos : Z) (value : bool) : option Z :=
  if negb (range_bounds b startpos endpos) then None
  else if msb then let* ret := find_first_ b startpos endpos value in Some (if ret =? -1 then ret else bs_size b - 1 - ret)
  else find_last_ msb b startpos endpos value.
Definition is_contiguous (msb : bool) (b : bitset) (value : bool) : option bool :=
  let* startpos := find_lowest msb b 0 (bs_size b) value in
  if startpos =? -1 then Some true
  else
    let* endpos := find_highest msb b (startpos + 1) (bs_size b) value in
    if endpos =? -1 then Some true
    else let value_count := if value then bs_count b else bs_size b - bs_count b in Some (value_count =? endpos + 1 - startpos).

(** ** Enumeration

    [for_each] for the order that supports it: the positions the function is called with. *)
Fixpoint nibbles (n : nat) (w bitpos : Z) : list Z :=
  match n with
  | O => []
  | S n => if w =? 0 then [] else map (fun k => bitpos + Z.of_nat k) (filter (fun k => Z.testbit (Z.land w 0xf) (Z.of_nat k) = true) (seq 0 4)) ++ nibbles n (Z.shiftr w 4) (bitpos + 4)
  end.
Fixpoint for_each_loop (n : nat) (i startword lastword startpos endpos : Z) (value : bool) (b : bitset) : option (list Z) :=
  match n with
  | O => Some []
  | S n =>
      let* w := word b i in
      let w := value_word value w in
      let w := if i =? startword then Z.land w (mask64_lsb_zeros (startpos mod wbits)) else w in
      let w := if (i =? lastword - 1) && negb (endpos mod wbits =? 0) then Z.land w (mask64_lsb_ones (endpos mod wbits)) else w in
      let* l := for_each_loop n (i + 1) startword lastword startpos endpos value b in Some (nibbles 16 w (i * wbits) ++ l)
  end.
Definition bs_for_each (b : bitset) (startpos endpos : Z) (value : bool) : option (list Z) :=
  if negb (range_bounds b startpos endpos) then None
  else if startpos =? endpos then Some []
  else
    let* a := if value then bs_all_range false b startpos endpos else bs_none_range false b startpos endpos in
    if a : bool then Some (map (fun i => startpos + Z.of_nat i) (seq 0 (Z.to_nat (endpos - startpos))))
    else
      let startword := startpos / wbits in
      let lastword := (endpos + wbits - 1) / wbits in
      for_each_loop (Z.to_nat (lastword - startword)) startword startword lastword startpos endpos value b.

(** ** Operations built from the others *)
Fixpoint fliplr_loop (msb : bool) (n : nat) (i : Z) (other ret : bitset) : option bitset :=
  match n with
  | O => Some ret
  | S n => let* t := bs_test msb other i in let* ret := if t : bool then bs_set msb ret (bs_size ret - 1 - i) else Some ret in fliplr_loop msb n (i + 1) other ret
  end.
Definition fliplr (N : Z) (msb : bool) (other : bitset) : option bitset := fliplr_loop msb (Z.to_nat (bs_size other)) 0 other (bitset_new N (bs_size other)).
Fixpoint fold_loop (N2 : Z) (msb : bool) (fuel : nat) (i fold_length slice_offset slice_length : Z) (other ret : bitset) : option bitset :=
  match fuel with
  | O => None
  | S fuel =>
      if i =? bs_size other then Some ret
      else
        let* s := bs_slice N2 msb other (i + slice_offset) (i + slice_offset + slice_length) in
        let* ret := bs_or ret s in
        fold_loop N2 msb fuel (i + fold_length) fold_length slice_offset slice_length other ret
  end.
Definition fold_and_accumulate (N2 : Z) (msb : bool) (other : bitset) (fold_length slice_offset slice_length : Z) : option bitset :=
  if negb (bs_size other mod fold_length =? 0) then None
  else fold_loop N2 msb (S (Z.to_nat (bs_size other))) 0 fold_length slice_offset slice_length other (bitset_new N2 slice_length).
Fixpoint to_unpacked_bits (msb : bool) (n : nat) (i : Z) (b : bitset) : option (list bool) :=
  match n with O => Some [] | S n => let* t := bs_test msb b i in let* l := to_unpacked_bits msb n (i + 1) b in Some (t :: l) end.
(** [to_packed_bits] with integers of [k] bits *)
Definition packed_steps (b : bitset) (k : Z) : Z := ((bs_size b mod wbits) + k - 1) / k.
Fixpoint packed_word (n : nat) (j shift k : Z) (msb : bool) (w : Z) : list Z :=
  match n with
  | O => []
  | S n => Z.land (Z.shiftr w (if msb then wbits - (j + 1) * k else j * shift)) (mask64_lsb_ones k) :: packed_word n (j + 1) shift k msb w
  end.
Fixpoint packed_words (n : nat) (i k : Z) (msb : bool) (b : bitset) : option (list Z) :=
  match n with
  | O => Some []
  | S n =>
      let is_last := i =? nof_words b - 1 in
      let* w := word b (if msb then nof_words b - i - 1 else i) in
      let* w := if msb && is_last then if bs_size b mod wbits =? 0 then None else Some (u64 (Z.shiftl w (wbits - bs_size b mod wbits))) else Some w in
      let steps := if is_last then packed_steps b k else wbits / k in
      let* l := packed_words n (i + 1) k msb b in Some (packed_word (Z.to_nat steps) 0 (wbits / k) k msb w ++ l)
  end.
Definition to_packed_bits (k : Z) (msb : bool) (b : bitset) : option (list Z) :=
  if nof_words b =? 0 then None else packed_words (Z.to_nat (nof_words b)) 0 k msb b.
(** [kronecker_product] of sets of the order that supports it *)
Fixpoint kronecker_loop (factor : Z) (l : list Z) (other result : bitset) : option bitset :=
  match l with
  | [] => Some result
  | bit_index :: l =>
      let bitpos := bit_index * factor in
      let* w := word other 0 in
      let bit_offset := bitpos mod wbits in
      let word_index := bitpos / wbits in
      let* r := word result word_index in
      let result := set_word result word_index (Z.lor r (u64 (Z.shiftl w bit_offset))) in
      let* result :=
        if negb (bit_offset =? 0) && (wbits <? bit_offset + bs_size other)
        then let* r := word result (word_index + 1) in Some (set_word result (word_index + 1) (Z.lor r (Z.shiftr w (wbits - bit_offset))))
        else Some result in
      kronecker_loop factor l other result
  end.
Definition kronecker_product (N factor : Z) (b other : bitset) : option bitset :=
  let result := bitset_new (factor * N) (bs_size b * bs_size other) in
  let* l := bs_for_each b 0 (bs_size b) true in
  let* result := kronecker_loop factor l other result in
  if bs_count b * bs_count other =? bs_count result then Some result else None.
