(* ===== verification/BitsetThms.v ===== *)
(** * bounded_bitset: bits of the words

    Every operation as a function of single bits: [bit b i] is bit [i] of the array, whatever the order of the set. *)
From S2P Require Import Prelude Bits BoundedBitset.

Definition is_u64 (w : Z) : Prop := 0 <= w < 2 ^ 64.
Definition bit (b : bitset) (i : Z) : bool := Z.testbit (nth (Z.to_nat (i / wbits)) (bs_buffer b) 0) (i mod wbits).
Record bs_ok (N : Z) (b : bitset) : Prop := {
  bso_N : 0 < N < 2 ^ 32;
  bso_len : Z.of_nat (length (bs_buffer b)) = max_nof_words N;
  bso_words : Forall is_u64 (bs_buffer b);
  bso_size : 0 <= bs_size b <= N;
  bso_clean : forall i, bs_size b <= i -> bit b i = false;
}.

(** ** Words *)
Lemma lnot64_bit w i : 0 <= i < 64 -> Z.testbit (lnot64 w) i = negb (Z.testbit w i).
Proof. intros Hi. unfold lnot64, u64. rewrite Z.mod_pow2_bits_low, Z.lnot_spec by lia. done. Qed.
Lemma u64_range w : is_u64 (u64 w).
Proof. apply Z.mod_pos_bound. lia. Qed.
Lemma lnot64_u64 w : is_u64 (lnot64 w).
Proof. apply u64_range. Qed.
Lemma u64_id w : is_u64 w -> u64 w = w.
Proof. apply Z.mod_small. Qed.
Lemma word_bits_eq w w' : is_u64 w -> is_u64 w' -> (forall i, 0 <= i < 64 -> Z.testbit w i = Z.testbit w' i) -> w = w'.
Proof. intros Hw Hw' H. apply Z.bits_inj'. intros i Hi. destruct (decide (i < 64)); [apply H; lia|]. by rewrite !(testbit_high _ 64) by (unfold is_u64 in *; lia). Qed.
Lemma land_u64_l w w' : is_u64 w -> is_u64 (Z.land w w').
Proof.
  intros Hw. assert (Z.land w w' = u64 (Z.land w w')) as ->; [|apply u64_range]. apply Z.bits_inj'. intros i Hi. unfold u64. destruct (decide (i < 64)); [by rewrite Z.mod_pow2_bits_low by lia|].
  rewrite Z.mod_pow2_bits_high, Z.land_spec, (testbit_high w 64) by (unfold is_u64 in *; lia). done.
Qed.
Lemma lor_u64 w w' : is_u64 w -> is_u64 w' -> is_u64 (Z.lor w w').
Proof.
  intros Hw Hw'. assert (Z.lor w w' = u64 (Z.lor w w')) as ->; [|apply u64_range]. apply Z.bits_inj'. intros i Hi. unfold u64. destruct (decide (i < 64)); [by rewrite Z.mod_pow2_bits_low by lia|].
  rewrite Z.mod_pow2_bits_high, Z.lor_spec, (testbit_high w 64), (testbit_high w' 64) by (unfold is_u64 in *; lia). done.
Qed.
Lemma ones64 : u64 (-1) = Z.ones 64.
Proof. reflexivity. Qed.
Lemma msb_zeros_bit n i : 0 <= n <= 64 -> 0 <= i < 64 -> Z.testbit (mask64_msb_zeros n) i = (i <? 64 - n).
Proof.
  intros Hn Hi. unfold mask64_msb_zeros, wbits. rewrite ones64. destruct (n =? 0) eqn:E0; breflect; [rewrite Z.ones_spec_low by lia; symmetry; apply Z.ltb_lt; lia|].
  destruct (n =? 64) eqn:E1; breflect; [rewrite Z.testbit_0_l; symmetry; apply Z.ltb_ge; lia|]. rewrite Z.shiftr_spec by lia. destruct (i <? 64 - n) eqn:E; breflect; [by rewrite Z.ones_spec_low by lia|by rewrite Z.ones_spec_high by lia].
Qed.
Lemma lsb_ones_bit n i : 0 <= n <= 64 -> 0 <= i < 64 -> Z.testbit (mask64_lsb_ones n) i = (i <? n).
Proof. intros Hn Hi. unfold mask64_lsb_ones, wbits. rewrite msb_zeros_bit by lia. f_equal. lia. Qed.
Lemma lsb_zeros_bit n i : 0 <= n <= 64 -> 0 <= i < 64 -> Z.testbit (mask64_lsb_zeros n) i = (n <=? i).
Proof. intros Hn Hi. unfold mask64_lsb_zeros. rewrite lnot64_bit, lsb_ones_bit by lia. destruct (i <? n) eqn:E, (n <=? i) eqn:E'; breflect; done || lia. Qed.
Lemma maskbit_bit p i : 0 <= i < 64 -> Z.testbit (maskbit p) i = bool_decide (i = p mod wbits).
Proof.
  intros Hi. unfold maskbit. assert (0 <= p mod wbits < 64) by (apply Z.mod_pos_bound; unfold wbits; lia). rewrite Z.shiftl_1_l. case_bool_decide; [subst; by rewrite Z.pow2_bits_true by lia|by rewrite Z.pow2_bits_false by lia].
Qed.
Lemma maskbit_u64 p : is_u64 (maskbit p).
Proof.
  unfold maskbit, is_u64. assert (0 <= p mod wbits < 64) by (apply Z.mod_pos_bound; unfold wbits; lia). rewrite Z.shiftl_1_l. split; [lia|]. apply Z.pow_lt_mono_r; lia.
Qed.
(** A word is zero when its bits are. *)
Lemma word_zero w : is_u64 w -> (w =? 0) = true <-> forall i, 0 <= i < 64 -> Z.testbit w i = false.
Proof.
  intros Hw. rewrite Z.eqb_eq. split; [intros -> i _; apply Z.testbit_0_l|]. intros H. apply word_bits_eq; [done|unfold is_u64; lia|]. intros i Hi. rewrite Z.testbit_0_l. by apply H.
Qed.
(** The lowest and the highest bit of a word. *)
Lemma lsb_one_spec w : is_u64 w -> w <> 0 -> let i := find_first_lsb_one w in 0 <= i < 64 /\ Z.testbit w i = true /\ forall j, 0 <= j < i -> Z.testbit w j = false.
Proof.
  intros Hw Hne. unfold find_first_lsb_one, zero_lsb_count. destruct (list_find _ _) as [[i x]|] eqn:E.
  - apply list_find_Some in E as (Hx & Hb & Hlow). apply lookup_seq in Hx as [-> Hi]. cbn. split; [lia|]. split; [done|]. intros j Hj. apply not_true_is_false. intros Ht. apply (Hlow (Z.to_nat j) (Z.to_nat j)); [apply lookup_seq; lia|lia|]. by rewrite Z2Nat.id by lia.
  - apply list_find_None in E. destruct Hne. apply word_bits_eq; [done|unfold is_u64; lia|]. intros i Hi. rewrite Z.testbit_0_l. apply not_true_is_false. intros Ht. rewrite Forall_forall in E. apply (E (Z.to_nat i)); [apply in_seq; lia|]. by rewrite Z2Nat.id by lia.
Qed.
Lemma msb_one_spec w : is_u64 w -> w <> 0 -> let i := find_first_msb_one w in 0 <= i < 64 /\ Z.testbit w i = true /\ forall j, i < j < 64 -> Z.testbit w j = false.
Proof.
  intros [H0 Hw] Hne. unfold find_first_msb_one, zero_msb_count, wbits. rewrite (proj2 (Z.eqb_neq w 0)) by done. cbv zeta. replace (64 - 1 - (63 - Z.log2 w)) with (Z.log2 w) by lia.
  assert (Z.log2 w < 64) by (apply Z.log2_lt_pow2; lia). split; [pose proof (Z.log2_nonneg w); lia|]. split; [apply Z.bit_log2; lia|]. intros j Hj. apply Z.bits_above_log2; lia.
Qed.

(** ** The array *)
Section Array.
Context (N : Z) (b : bitset) (Hok : bs_ok N b).
Lemma bs_word i : 0 <= i < max_nof_words N -> exists w, word b i = Some w /\ is_u64 w /\ forall j, 0 <= j < 64 -> Z.testbit w j = bit b (i * 64 + j).
Proof.
  intros Hi. pose proof (bso_len _ _ Hok) as Hl. destruct (lookup_lt_is_Some_2 (bs_buffer b) (Z.to_nat i)) as [w Hw]; [lia|]. exists w. split; [done|]. split; [eapply Forall_lookup_1; [apply Hok|done]|].
  intros j Hj. unfold bit, wbits. replace ((i * 64 + j) / 64) with i by mlia. replace ((i * 64 + j) mod 64) with j by mlia. by rewrite (nth_lookup_Some _ _ 0 _ Hw).
Qed.
Lemma nof_words_le : 0 <= nof_words b <= max_nof_words N.
Proof.
  pose proof (bso_size _ _ Hok). pose proof (bso_N _ _ Hok). unfold nof_words, max_nof_words, wbits. destruct (0 <? bs_size b) eqn:E; breflect; mlia.
Qed.
Lemma word_in_use i : 0 <= i < bs_size b -> 0 <= i / wbits < nof_words b.
Proof. intros Hi. unfold nof_words, wbits. rewrite (proj2 (Z.ltb_lt _ _)) by lia. mlia. Qed.
Lemma bit_ge i : max_nof_words N * 64 <= i -> bit b i = false.
Proof. intros Hi. apply (bso_clean _ _ Hok). pose proof (bso_size _ _ Hok). unfold max_nof_words, wbits in Hi. mlia. Qed.
End Array.
Lemma bit_set_word b i w j : 0 <= i < Z.of_nat (length (bs_buffer b)) -> 0 <= j -> bit (set_word b i w) j = if j / wbits =? i then Z.testbit w (j mod wbits) else bit b j.
Proof.
  intros Hi Hj. unfold bit, set_word. cbn [bs_buffer]. assert (0 <= j / wbits) as Hq by (unfold wbits; mlia). destruct (j / wbits =? i) eqn:E; breflect.
  - rewrite E. f_equal. apply nth_lookup_Some. apply list_lookup_insert_eq. lia.
  - f_equal. rewrite !nth_lookup. rewrite list_lookup_insert_ne by lia. done.
Qed.

(** An operation that keeps the size, given by its effect on the bits. *)
Definition updates (N : Z) (b b' : bitset) (f : Z -> bool) : Prop := bs_ok N b' /\ bs_size b' = bs_size b /\ forall i, 0 <= i -> bit b' i = f i.
Lemma set_word_ok N b i w : bs_ok N b -> 0 <= i < max_nof_words N -> is_u64 w -> (forall j, 0 <= j < 64 -> bs_size b <= i * 64 + j -> Z.testbit w j = false) -> bs_ok N (set_word b i w).
Proof.
  intros [H1 H2 H3 H4 H5] Hi Hw Hc. split; [done|cbn; by rewrite length_insert|cbn; by apply Forall_insert|done|]. intros j Hj. cbn [set_word bs_size] in Hj. rewrite bit_set_word by lia. destruct (j / wbits =? i) eqn:E; breflect; [|by apply H5].
  subst i. unfold wbits in *. apply Hc; mlia.
Qed.
(** A word is changed in the bits a mask selects. *)
Lemma set_word_updates N b i w (f : Z -> bool) : bs_ok N b -> 0 <= i < max_nof_words N -> is_u64 w ->
  (forall j, 0 <= j < 64 -> Z.testbit w j = f (i * 64 + j)) -> (forall j, bs_size b <= j -> f j = false) -> updates N b (set_word b i w) (fun j => if j / wbits =? i then f j else bit b j).
Proof.
  intros Hok Hi Hw Hb Hc. assert (forall j, 0 <= j < 64 -> bs_size b <= i * 64 + j -> Z.testbit w j = false) as Hc' by (intros j Hj Hs; rewrite Hb by done; by apply Hc).
  split; [by apply set_word_ok|]. split; [done|]. intros j Hj. rewrite bit_set_word by (pose proof (bso_len _ _ Hok); lia). destruct (j / wbits =? i) eqn:E; breflect; [|done]. subst i. unfold wbits in *. rewrite Hb by mlia. f_equal. mlia.
Qed.
Lemma updates_ext N b b' f g : updates N b b' f -> (forall i, 0 <= i -> f i = g i) -> updates N b b' g.
Proof. intros (H1 & H2 & H3) H. split; [done|]. split; [done|]. intros i Hi. by rewrite H3, H. Qed.
Lemma single_bit i j : 0 <= i -> 0 <= j -> (j / wbits =? i / wbits) && bool_decide (j mod wbits = i mod wbits) = bool_decide (j = i).
Proof. intros Hi Hj. unfold wbits. repeat case_bool_decide; destruct (j / 64 =? i / 64) eqn:E; breflect; try done; exfalso; mlia. Qed.
(** The bit at [i] is set or cleared. *)
Lemma set_bit_spec N b i : bs_ok N b -> 0 <= i < bs_size b -> exists w, word b (i / wbits) = Some w /\
  updates N b (set_word b (i / wbits) (Z.lor w (maskbit i))) (fun j => if bool_decide (j = i) then true else bit b j) /\
  updates N b (set_word b (i / wbits) (Z.land w (lnot64 (maskbit i)))) (fun j => if bool_decide (j = i) then false else bit b j) /\
  negb (Z.land w (maskbit i) =? 0) = bit b i.
Proof.
  intros Hok Hi. pose proof (word_in_use b i Hi) as Hw. pose proof (nof_words_le N b Hok). destruct (bs_word N b Hok (i / wbits) ltac:(lia)) as (w & E & Hu & Hb). exists w. split; [done|].
  assert (forall v, (forall j, bs_size b <= j -> (if bool_decide (j = i) then v else bit b j) = false)) as Hc by (intros v j Hj; case_bool_decide; [lia|by apply (bso_clean _ _ Hok)]).
  assert (forall j, 0 <= j < 64 -> bool_decide (j = i mod wbits) = bool_decide (i / wbits * 64 + j = i)) as Hm by (intros j Hj; apply bool_decide_ext; unfold wbits; mlia). split_and!.
  - eapply updates_ext; [apply (set_word_updates N b _ _ (fun j => if bool_decide (j = i) then true else bit b j) Hok); [lia|apply lor_u64; [done|apply maskbit_u64]| |apply Hc]|].
    + intros j Hj. rewrite Z.lor_spec, maskbit_bit, Hb, Hm by lia. case_bool_decide; [by rewrite orb_true_r|by rewrite orb_false_r].
    + intros j Hj. cbv beta. destruct (j / wbits =? i / wbits) eqn:Eq; [done|]. case_bool_decide; [|done]. subst. by rewrite Z.eqb_refl in Eq.
  - eapply updates_ext; [apply (set_word_updates N b _ _ (fun j => if bool_decide (j = i) then false else bit b j) Hok); [lia|by apply land_u64_l| |apply Hc]|].
    + intros j Hj. rewrite Z.land_spec, lnot64_bit, maskbit_bit, Hb, Hm by lia. case_bool_decide; [by rewrite andb_false_r|by rewrite andb_true_r].
    + intros j Hj. cbv beta. destruct (j / wbits =? i / wbits) eqn:Eq; [done|]. case_bool_decide; [|done]. subst. by rewrite Z.eqb_refl in Eq.
  - assert (0 <= i mod wbits < 64) as Hmi by (apply Z.mod_pos_bound; unfold wbits; lia). assert (bit b i = Z.testbit w (i mod wbits)) as -> by (rewrite Hb by done; f_equal; unfold wbits; mlia).
    assert ((Z.land w (maskbit i) =? 0) = negb (Z.testbit w (i mod wbits))) as ->; [|by rewrite negb_involutive]. apply eq_true_iff_eq. rewrite word_zero by (by apply land_u64_l). rewrite negb_true_iff. split.
    + intros H0. specialize (H0 _ Hmi). rewrite Z.land_spec, maskbit_bit, bool_decide_true, andb_true_r in H0 by done. done.
    + intros H0 j Hj. rewrite Z.land_spec, maskbit_bit by done. case_bool_decide; [subst; by rewrite H0|by rewrite andb_false_r].
Qed.
Lemma bitset_new_bit N s i : bit (bitset_new N s) i = false.
Proof. unfold bit, bitset_new. cbn [bs_buffer]. rewrite nth_lookup. destruct (replicate _ _ !! _) eqn:E; cbn; [apply lookup_replicate in E as [-> _]|]; apply Z.testbit_0_l. Qed.
Lemma bitset_new_ok N s : 0 < N < 2 ^ 32 -> 0 <= s <= N -> bs_ok N (bitset_new N s).
Proof.
  intros HN Hs. split; [done| |cbn; apply Forall_replicate; unfold is_u64; lia|done|intros i _; apply bitset_new_bit]. cbn. rewrite length_replicate. unfold max_nof_words, wbits. mlia.
Qed.

(** ** Operations on all words *)
Lemma bit_imap f l s i : 0 <= i -> bit (Bitset (imap f l) s) i = if decide (i / wbits < Z.of_nat (length l)) then Z.testbit (f (Z.to_nat (i / wbits)) (nth (Z.to_nat (i / wbits)) l 0)) (i mod wbits) else false.
Proof.
  intros Hi. unfold bit. cbn [bs_buffer]. rewrite nth_lookup, list_lookup_imap. assert (0 <= i / wbits) by (unfold wbits; mlia). destruct (decide _) as [Hlt|Hge].
  - destruct (lookup_lt_is_Some_2 l (Z.to_nat (i / wbits)) ltac:(lia)) as [w Hw]. rewrite Hw, (nth_lookup_Some _ _ 0 _ Hw). done.
  - rewrite lookup_ge_None_2 by lia. cbn. apply Z.testbit_0_l.
Qed.
Lemma bit_array N b i : bs_ok N b -> 0 <= i -> bit b i = if decide (i / wbits < Z.of_nat (length (bs_buffer b))) then bit b i else false.
Proof. intros Hok Hi. destruct (decide _) as [|Hge]; [done|]. apply (bit_ge N b Hok). rewrite (bso_len _ _ Hok) in Hge. unfold wbits in Hge. mlia. Qed.
Lemma imap_ok N b f s : bs_ok N b -> 0 <= s <= N -> (forall i w, is_u64 w -> is_u64 (f i w)) -> (forall i, s <= i -> bit (Bitset (imap f (bs_buffer b)) s) i = false) -> bs_ok N (Bitset (imap f (bs_buffer b)) s).
Proof.
  intros [H1 H2 H3 H4 H5] Hs Hf Hc. split; [done|cbn; by rewrite length_imap| |done|exact Hc]. apply Forall_lookup_2. intros i w. cbn [bs_buffer]. rewrite list_lookup_imap. destruct (bs_buffer b !! i) eqn:E; cbn; [|done]. intros [= <-]. apply Hf. by apply (Forall_lookup_1 _ _ _ _ H3 E).
Qed.
(** The words in use hold the bits below the size. *)
Lemma in_use_bit b i : 0 <= i -> i < bs_size b -> i / wbits < nof_words b.
Proof. intros Hi Hs. by apply word_in_use. Qed.
Lemma sanitize_spec N b s : 0 < N < 2 ^ 32 -> Z.of_nat (length (bs_buffer b)) = max_nof_words N -> Forall is_u64 (bs_buffer b) -> bs_size b = s -> 0 <= s <= N ->
  exists b', sanitize b = Some b' /\ bs_size b' = s /\ Z.of_nat (length (bs_buffer b')) = max_nof_words N /\ Forall is_u64 (bs_buffer b') /\
    forall i, 0 <= i -> bit b' i = if (s <=? i) && (i <? nof_words b * 64) then false else bit b i.
Proof.
  intros HN Hl Hw Hs Hsz. unfold sanitize. rewrite Hs. assert (0 < s -> 0 < nof_words b <= max_nof_words N) as Hnw by (intros H0; unfold nof_words, max_nof_words, wbits; rewrite Hs; rewrite (proj2 (Z.ltb_lt 0 s)) by lia; mlia).
  destruct (negb (s mod wbits =? 0) && (0 <? nof_words b)) eqn:E.
  - apply andb_true_iff in E as [E1 E2]. apply negb_true_iff in E1. breflect. assert (0 < s) as H0 by (destruct (decide (s = 0)) as [->|]; [done|lia]). specialize (Hnw H0). set (k := nof_words b - 1). destruct (lookup_lt_is_Some_2 (bs_buffer b) (Z.to_nat k)) as [w Hwd]; [lia|]. unfold word. rewrite Hwd.
    eexists. split; [done|]. split; [done|]. split; [cbn; by rewrite length_insert|]. split; [cbn; apply Forall_insert; [done|]; apply land_u64_l, (Forall_lookup_1 _ _ _ _ Hw Hwd)|]. intros i Hi. rewrite bit_set_word by lia.
    assert (nof_words b = (s - 1) / 64 + 1) as Hn by (unfold nof_words, wbits; rewrite Hs; by rewrite (proj2 (Z.ltb_lt 0 s)) by lia). unfold wbits in E1. destruct (i / wbits =? k) eqn:Ek; breflect.
    + unfold wbits in *. assert (0 <= i mod 64 < 64) as Hm by (apply Z.mod_pos_bound; lia). rewrite Z.land_spec, lnot64_bit by done. unfold u64 at 1. rewrite Z.mod_pow2_bits_low, Z.shiftl_spec by lia.
      assert (bit b i = Z.testbit w (i mod 64)) as -> by (unfold bit, wbits; rewrite Ek; by rewrite (nth_lookup_Some _ _ 0 _ Hwd)). destruct (s <=? i) eqn:Es; breflect.
      * rewrite (proj2 (Z.ltb_lt i _)) by mlia. cbn [andb]. rewrite lnot64_bit by mlia. by rewrite Z.testbit_0_l, andb_false_r.
      * cbn [andb]. rewrite (Z.testbit_neg_r _ (i mod 64 - s mod 64)) by mlia. by rewrite andb_true_r.
    + unfold wbits in *. destruct ((s <=? i) && (i <? nof_words b * 64)) eqn:Ec; [|done]. apply andb_true_iff in Ec as [Ea Eb]. breflect. exfalso. apply Ek. unfold k. mlia.
  - exists b. split; [done|]. split; [done|]. split; [done|]. split; [done|]. intros i Hi. destruct ((s <=? i) && (i <? nof_words b * 64)) eqn:Ec; [|done]. exfalso. apply andb_true_iff in Ec as [Ea Eb]. apply andb_false_iff in E as [E|E]; [apply negb_false_iff in E|]; breflect.
    + unfold nof_words, wbits in *. rewrite Hs in Eb. destruct (0 <? s) eqn:E0; breflect; mlia.
    + lia.
Qed.
Lemma nof_words_size b s : bs_size b = s -> nof_words b = if 0 <? s then (s - 1) / wbits + 1 else 0.
Proof. intros <-. done. Qed.
Lemma resize_spec N b n : bs_ok N b -> 0 <= n ->
  if n <=? N then exists b', bs_resize N b n = Some b' /\ bs_ok N b' /\ bs_size b' = n /\ forall i, 0 <= i -> bit b' i = (i <? n) && bit b i else bs_resize N b n = None.
Proof.
  intros Hok Hn. unfold bs_resize. destruct (n <=? N) eqn:EN; breflect; [|done]. cbn [negb]. destruct (n =? bs_size b) eqn:Es; breflect.
  - exists b. split; [done|]. split; [done|]. split; [done|]. intros i Hi. destruct (i <? n) eqn:E; breflect; [done|]. apply (bso_clean _ _ Hok). lia.
  - set (b0 := Bitset (bs_buffer b) n). destruct (sanitize_spec N b0 n (bso_N _ _ Hok) (bso_len _ _ Hok) (bso_words _ _ Hok) eq_refl ltac:(lia)) as (b1 & -> & Hs1 & Hl1 & Hw1 & Hb1).
    assert (forall i, 0 <= i -> bit (Bitset (imap (fun i w => if Z.of_nat i <? nof_words b1 then w else 0) (bs_buffer b1)) n) i = (i <? n) && bit b i) as Hbits.
    { intros i Hi. rewrite bit_imap by done. assert (0 <= i / wbits) by (unfold wbits; mlia). rewrite Z2Nat.id by done. assert (nof_words b1 = nof_words b0) as -> by (by rewrite (nof_words_size b1 n), (nof_words_size b0 n)). specialize (Hb1 i Hi). unfold bit at 1 in Hb1.
      assert (n <= i -> nof_words b0 * 64 <= i \/ ((n <=? i) && (i <? nof_words b0 * 64)) = true) as Hc by (intros Hge; destruct (decide (nof_words b0 * 64 <= i)); [by left|right; apply andb_true_iff; split; [by apply Z.leb_le|apply Z.ltb_lt; lia]]).
      destruct (decide (i / wbits < Z.of_nat (length (bs_buffer b1)))) as [Hin|Hout].
      - destruct (i <? n) eqn:Ei; breflect.
        + rewrite (proj2 (Z.ltb_lt (i / wbits) _)) by (apply (in_use_bit b0); done). rewrite Hb1. by rewrite (proj2 (Z.leb_gt n i)) by lia.
        + destruct (i / wbits <? nof_words b0) eqn:Ew; breflect; [|apply Z.testbit_0_l]. rewrite Hb1. destruct (Hc Ei) as [Hx| ->]; [unfold wbits in Ew; exfalso; mlia|done].
      - rewrite Hl1 in Hout. rewrite (bit_ge N b Hok i); [by rewrite andb_false_r|]. unfold wbits in Hout. mlia. }
    eexists. split; [done|]. split; [|split; [done|exact Hbits]]. pose proof (bso_N _ _ Hok). split; [done|cbn; by rewrite length_imap| |cbn; lia|].
    + apply Forall_lookup_2. intros i w. cbn [bs_buffer]. rewrite list_lookup_imap. destruct (bs_buffer b1 !! i) eqn:E; cbn; [|done]. intros [= <-]. destruct (_ <? _); [by apply (Forall_lookup_1 _ _ _ _ Hw1 E)|unfold is_u64; lia].
    + intros i Hi. cbn [bs_size] in Hi. rewrite Hbits by lia. by rewrite (proj2 (Z.ltb_ge i n)) by lia.
Qed.
(** Words in use are changed bit by bit. *)
Lemma map_words_bit N b f g i : bs_ok N b -> (forall w j, is_u64 w -> 0 <= j < 64 -> Z.testbit (f w) j = g (Z.testbit w j)) -> 0 <= i -> bit (map_words f b) i = if i <? nof_words b * 64 then g (bit b i) else bit b i.
Proof.
  intros Hok Hf Hi. unfold map_words. rewrite bit_imap by done. assert (0 <= i / wbits) by (unfold wbits; mlia). rewrite Z2Nat.id by done. pose proof (nof_words_le N b Hok) as Hle. pose proof (bso_len _ _ Hok) as Hl.
  assert ((i / wbits <? nof_words b) = (i <? nof_words b * 64)) as -> by (apply eq_true_iff_eq; rewrite !Z.ltb_lt; unfold wbits; split; intros; mlia). destruct (i <? nof_words b * 64) eqn:E; breflect.
  - rewrite decide_True by (rewrite Hl; unfold wbits; mlia). rewrite Hf; [done| |apply Z.mod_pos_bound; unfold wbits; lia]. destruct (lookup_lt_is_Some_2 (bs_buffer b) (Z.to_nat (i / wbits))) as [w Hw]; [unfold wbits in *; mlia|]. rewrite (nth_lookup_Some _ _ 0 _ Hw). by apply (Forall_lookup_1 _ _ _ _ (bso_words _ _ Hok) Hw).
  - symmetry. rewrite (bit_array N b i Hok Hi) at 1. by destruct (decide _).
Qed.
Lemma size_le_words N b : bs_ok N b -> bs_size b <= nof_words b * 64.
Proof. intros Hok. pose proof (bso_size _ _ Hok). unfold nof_words, wbits. destruct (0 <? bs_size b) eqn:E; breflect; mlia. Qed.
Lemma reset_all_spec N b : bs_ok N b -> updates N b (bs_reset_all b) (fun _ => false).
Proof.
  intros Hok. assert (forall i, 0 <= i -> bit (bs_reset_all b) i = false) as Hb.
  { intros i Hi. unfold bs_reset_all. rewrite (map_words_bit N b _ (fun _ => false)) by (done || intros; apply Z.testbit_0_l). destruct (i <? _) eqn:E; breflect; [done|]. apply (bso_clean _ _ Hok). pose proof (size_le_words N b Hok). lia. }
  split; [|split; [done|exact Hb]]. apply imap_ok; [done|apply (bso_size _ _ Hok)| |].
  - intros i w Hw. destruct (_ <? _); [unfold is_u64; lia|done].
  - intros i Hi. apply Hb. pose proof (bso_size _ _ Hok). lia.
Qed.
Lemma flip_spec N b : bs_ok N b -> exists b', bs_flip b = Some b' /\ updates N b b' (fun i => (i <? bs_size b) && negb (bit b i)).
Proof.
  intros Hok. unfold bs_flip. assert (Forall is_u64 (bs_buffer (map_words lnot64 b))) as Hw.
  { apply Forall_lookup_2. intros i w. cbn [map_words bs_buffer]. rewrite list_lookup_imap. destruct (bs_buffer b !! i) eqn:E; cbn; [|done]. intros [= <-]. destruct (_ <? _); [apply lnot64_u64|by apply (Forall_lookup_1 _ _ _ _ (bso_words _ _ Hok) E)]. }
  destruct (sanitize_spec N (map_words lnot64 b) (bs_size b)) as (b' & -> & Hs & Hl & Hw' & Hb); [apply Hok|cbn; rewrite length_imap; apply Hok|done|done|apply Hok|]. exists b'. split; [done|].
  assert (forall i, 0 <= i -> bit b' i = (i <? bs_size b) && negb (bit b i)) as Hb'.
  { intros i Hi. rewrite Hb by done. rewrite (map_words_bit N b _ negb) by (done || intros; by apply lnot64_bit). rewrite (nof_words_size (map_words lnot64 b) (bs_size b) eq_refl), <-(nof_words_size b (bs_size b) eq_refl). pose proof (size_le_words N b Hok) as Hle.
    destruct (i <? bs_size b) eqn:Ei; breflect; cbn [andb].
    - rewrite (proj2 (Z.leb_gt _ i)) by lia. cbn [andb]. by rewrite (proj2 (Z.ltb_lt i _)) by lia.
    - rewrite (proj2 (Z.leb_le _ i)) by lia. cbn [andb]. destruct (i <? nof_words b * 64); [done|]. by apply (bso_clean _ _ Hok). }
  split; [|done]. split; [apply Hok|done|done|rewrite Hs; apply Hok|]. intros i Hi. pose proof (bso_size _ _ Hok). rewrite Hb' by lia. by rewrite (proj2 (Z.ltb_ge i _)) by lia.
Qed.
(** [|=] and [&=]. *)
Lemma zip_words_spec N f g a b : bs_ok N a -> bs_ok N b -> bs_size b = bs_size a -> (forall w w', is_u64 w -> is_u64 w' -> is_u64 (f w w')) ->
  (forall w w' i, 0 <= i -> Z.testbit (f w w') i = g (Z.testbit w i) (Z.testbit w' i)) -> g false false = false -> updates N a (zip_words f a b) (fun i => g (bit a i) (bit b i)).
Proof.
  intros Ha Hb Hs Hu Hf Hg. assert (forall i, 0 <= i -> bit (zip_words f a b) i = g (bit a i) (bit b i)) as Hbit.
  { intros i Hi. unfold zip_words. rewrite bit_imap by done. assert (0 <= i / wbits) by (unfold wbits; mlia). rewrite Z2Nat.id by done. destruct (decide (i < bs_size a)) as [Hlt|Hge].
    - pose proof (in_use_bit a i Hi Hlt). pose proof (nof_words_le N a Ha). rewrite decide_True by (rewrite (bso_len _ _ Ha); lia). rewrite (proj2 (Z.ltb_lt _ _)) by done. apply Hf. apply Z.mod_pos_bound. unfold wbits. lia.
    - rewrite (bso_clean _ _ Ha i), (bso_clean _ _ Hb i), Hg by lia. destruct (decide _) as [Hin|]; [|done]. destruct (_ <? _); [rewrite Hf by (apply Z.mod_pos_bound; unfold wbits; lia)|apply (bso_clean _ _ Ha i); lia].
      change (g (bit a i) (bit b i) = false). by rewrite (bso_clean _ _ Ha i), (bso_clean _ _ Hb i), Hg by lia. }
  split; [|split; [done|exact Hbit]]. pose proof (bso_size _ _ Ha). split; [apply Ha|cbn; rewrite length_imap; apply Ha| |apply Ha|].
  - apply Forall_lookup_2. intros i w. cbn [zip_words bs_buffer]. rewrite list_lookup_imap. destruct (bs_buffer a !! i) as [x|] eqn:E; cbn; [|done]. intros [= <-]. pose proof (Forall_lookup_1 _ _ _ _ (bso_words _ _ Ha) E) as Hx. destruct (_ <? _); [|done]. apply Hu; [done|].
    rewrite nth_lookup. destruct (bs_buffer b !! i) eqn:E'; cbn; [by apply (Forall_lookup_1 _ _ _ _ (bso_words _ _ Hb) E')|unfold is_u64; lia].
  - intros i Hi. cbn [zip_words bs_size] in Hi. rewrite Hbit by lia. by rewrite (bso_clean _ _ Ha i), (bso_clean _ _ Hb i) by lia.
Qed.

(** ** Ranges *)
Lemma range_mask_spec start stop i sw ew : 0 <= start <= stop -> sw = start / 64 -> ew = stop / 64 + (if 0 <? stop mod 64 then 1 else 0) -> sw <= i < ew ->
  is_u64 (range_mask start stop i sw ew) /\ forall j, 0 <= j < 64 -> Z.testbit (range_mask start stop i sw ew) j = (start <=? i * 64 + j) && (i * 64 + j <? stop).
Proof.
  intros Hs Hsw Hew Hi. unfold range_mask, wbits. assert (0 <= start mod 64 < 64) as Hsm by (apply Z.mod_pos_bound; lia). assert (stop <= ew * 64 < stop + 64) as Hst by (subst ew; destruct (0 <? stop mod 64) eqn:E; breflect; mlia).
  assert (start = sw * 64 + start mod 64) as Hstart by (subst sw; mlia). split.
  - destruct (i =? sw), (i =? ew - 1); repeat apply land_u64_l; apply lnot64_u64.
  - intros j Hj. assert (Z.testbit (if i =? sw then Z.land (lnot64 0) (mask64_lsb_zeros (start mod 64)) else lnot64 0) j = (start <=? i * 64 + j)) as H1.
    { destruct (i =? sw) eqn:E; breflect.
      - rewrite Z.land_spec, lnot64_bit, Z.testbit_0_l, lsb_zeros_bit by lia. cbn [negb andb]. apply eq_true_iff_eq. rewrite !Z.leb_le. lia.
      - rewrite lnot64_bit, Z.testbit_0_l by lia. symmetry. apply Z.leb_le. lia. }
    destruct (i =? ew - 1) eqn:E; breflect.
    + rewrite Z.land_spec, H1, msb_zeros_bit by lia. f_equal. apply eq_true_iff_eq. rewrite !Z.ltb_lt. lia.
    + rewrite H1. rewrite (proj2 (Z.ltb_lt (i * 64 + j) stop)) by lia. by rewrite andb_true_r.
Qed.
(** The range of array bits a range of positions selects. *)
Definition lo_of (msb : bool) (b : bitset) (start stop : Z) : Z := if msb then bs_size b - stop else start.
Definition hi_of (msb : bool) (b : bitset) (start stop : Z) : Z := if msb then bs_size b - start else stop.
Lemma range_positions N (msb : bool) b start stop : bs_ok N b -> 0 <= start <= stop -> stop <= bs_size b ->
  (if msb then (u64 (get_bitidx msb b stop + 1), u64 (get_bitidx msb b start + 1)) else (start, stop)) = (lo_of msb b start stop, hi_of msb b start stop) /\
  0 <= lo_of msb b start stop <= hi_of msb b start stop /\ hi_of msb b start stop <= bs_size b.
Proof.
  intros Hok Hs Hst. pose proof (bso_size _ _ Hok). pose proof (bso_N _ _ Hok). unfold lo_of, hi_of, get_bitidx. destruct msb; [|split; [done|lia]]. split; [|lia].
  assert (forall x, 0 <= x <= bs_size b -> u64 (u64 (bs_size b - 1 - x) + 1) = bs_size b - x) as Hx.
  { intros x Hx. unfold u64. rewrite Zplus_mod_idemp_l. replace (bs_size b - 1 - x + 1) with (bs_size b - x) by lia. apply Z.mod_small. lia. }
  by rewrite !Hx by lia.
Qed.
Lemma end_word_le N b stop : bs_ok N b -> 0 <= stop <= bs_size b -> stop / 64 + (if 0 <? stop mod 64 then 1 else 0) <= max_nof_words N.
Proof. intros Hok Hs. pose proof (bso_size _ _ Hok). unfold max_nof_words, wbits. destruct (0 <? stop mod 64) eqn:E; breflect; mlia. Qed.
Lemma find_loop_pure (c : Z -> Z -> unit -> option (unit * bool)) (P : Z -> Prop) sw ew start stop n : forall i,
  (forall k, i <= k < i + Z.of_nat n -> exists r, c k (range_mask start stop k sw ew) tt = Some (tt, r) /\ (r = true <-> P k)) ->
  exists r, find_word_loop n i sw ew start stop c tt = Some (tt, r) /\ (r = true <-> exists k, i <= k < i + Z.of_nat n /\ P k).
Proof.
  induction n as [|n IH]; intros i Hc; [exists false; split; [done|]; split; [done|]; intros (k & Hk & _); lia|]. cbn [find_word_loop]. destruct (Hc i ltac:(lia)) as ([|] & -> & Hr).
  - exists true. split; [done|]. split; [|done]. intros _. exists i. split; [lia|]. by apply Hr.
  - destruct (IH (i + 1)) as (r & -> & Hr'); [intros k Hk; apply Hc; lia|]. exists r. split; [done|]. rewrite Hr'. split; intros (k & Hk & HP); exists k; (split; [|done]); [lia|]. destruct (decide (k = i)) as [->|]; [apply Hr in HP; done|lia].
Qed.
Lemma range_word_ex N b (Q : Z -> Prop) lo hi sw ew : bs_ok N b -> 0 <= lo <= hi -> hi <= bs_size b -> sw = lo / 64 -> ew = hi / 64 + (if 0 <? hi mod 64 then 1 else 0) ->
  (exists k, sw <= k < sw + Z.of_nat (Z.to_nat (ew - sw)) /\ exists j, 0 <= j < 64 /\ lo <= k * 64 + j < hi /\ Q (k * 64 + j)) <-> exists i, lo <= i < hi /\ Q i.
Proof.
  intros Hok Hlo Hhi -> ->. split.
  - intros (k & Hk & j & Hj & Hr & HQ). eauto.
  - intros (i & Hi & HQ). exists (i / 64). split; [destruct (0 <? hi mod 64) eqn:E; breflect; mlia|]. exists (i mod 64). split; [apply Z.mod_pos_bound; lia|]. replace (i / 64 * 64 + i mod 64) with i by mlia. done.
Qed.
Lemma word_nonzero w : is_u64 w -> (w =? 0) = false <-> exists j, 0 <= j < 64 /\ Z.testbit w j = true.
Proof.
  intros Hw. rewrite Z.eqb_neq. split.
  - intros Hne. destruct (lsb_one_spec w Hw Hne) as (H1 & H2 & _). eauto.
  - intros (j & Hj & Hb) ->. by rewrite Z.testbit_0_l in Hb.
Qed.
(** A search for a bit of value [v] in a range, given the test of a word. *)
Lemma range_search N (msb : bool) b start stop (t : Z -> Z -> bool) v : bs_ok N b -> 0 <= start <= stop -> stop <= bs_size b ->
  (forall w mask, is_u64 w -> is_u64 mask -> t w mask = true <-> exists j, 0 <= j < 64 /\ Z.testbit mask j = true /\ Z.testbit w j = v) ->
  exists r, find_first_word msb b start stop (fun i mask (_ : unit) => let* w := word b i in Some (tt, t w mask)) tt = Some (tt, r) /\
    (r = true <-> exists i, lo_of msb b start stop <= i < hi_of msb b start stop /\ bit b i = v).
Proof.
  intros Hok Hs Hst Ht. destruct (range_positions N msb b start stop Hok Hs Hst) as (Hpos & Hr & Hhi). unfold find_first_word, range_bounds. rewrite (proj2 (Z.leb_le start stop)), (proj2 (Z.leb_le stop _)) by lia. cbn [andb negb]. rewrite Hpos.
  set (lo := lo_of msb b start stop) in *. set (hi := hi_of msb b start stop) in *. unfold wbits. pose proof (end_word_le N b hi Hok ltac:(lia)) as Hew. set (ew := hi / 64 + _) in *. set (sw := lo / 64) in *. assert (0 <= sw) by (unfold sw; mlia).
  edestruct (find_loop_pure (fun i mask _ => let* w := word b i in Some (tt, t w mask)) (fun k => exists j, 0 <= j < 64 /\ lo <= k * 64 + j < hi /\ bit b (k * 64 + j) = v) sw ew lo hi (Z.to_nat (ew - sw)) sw) as (r & -> & Hr').
  - intros k Hk. destruct (bs_word N b Hok k ltac:(lia)) as (w & -> & Hw & Hwb). destruct (range_mask_spec lo hi k sw ew Hr eq_refl eq_refl ltac:(lia)) as [Hm Hmb]. eexists. split; [done|]. rewrite Ht by done.
    split; intros (j & Hj & H1 & H2); exists j; (split; [done|]); rewrite ?Hmb, ?Hwb in * by done; (split; [|done]).
    + apply andb_true_iff in H1 as [Ha Hc]. breflect. lia.
    + apply andb_true_iff. split; [apply Z.leb_le|apply Z.ltb_lt]; lia.
  - exists r. split; [done|]. rewrite Hr'. apply (range_word_ex N b (fun i => bit b i = v) lo hi sw ew Hok Hr Hhi eq_refl eq_refl).
Qed.
Lemma any_range_spec N (msb : bool) b start stop : bs_ok N b -> 0 <= start <= stop -> stop <= bs_size b ->
  exists r, bs_any_range msb b start stop = Some r /\ (r = true <-> exists i, lo_of msb b start stop <= i < hi_of msb b start stop /\ bit b i = true).
Proof.
  intros Hok Hs Hst. unfold bs_any_range. destruct (range_search N msb b start stop (fun w mask => negb (Z.land w mask =? 0)) true Hok Hs Hst) as (r & -> & Hr); [|by exists r].
  intros w mask Hw Hm. rewrite negb_true_iff, word_nonzero by (by apply land_u64_l). split; intros (j & Hj & H); exists j; (split; [done|]).
  - rewrite Z.land_spec in H. by apply andb_true_iff in H as [-> ->].
  - rewrite Z.land_spec. by destruct H as [-> ->].
Qed.
Lemma all_range_spec N (msb : bool) b start stop : bs_ok N b -> 0 <= start <= stop -> stop <= bs_size b ->
  exists r, bs_all_range msb b start stop = Some r /\ (r = true <-> forall i, lo_of msb b start stop <= i < hi_of msb b start stop -> bit b i = true).
Proof.
  intros Hok Hs Hst. unfold bs_all_range. destruct (range_search N msb b start stop (fun w mask => negb (Z.lor w (lnot64 mask) =? lnot64 0)) false Hok Hs Hst) as (r & -> & Hr).
  - intros w mask Hw Hm. assert (is_u64 (Z.lor w (lnot64 mask))) as Hu by (apply lor_u64; [done|apply lnot64_u64]). assert ((Z.lor w (lnot64 mask) =? lnot64 0) = (lnot64 (Z.lor w (lnot64 mask)) =? 0)) as ->.
    { apply eq_true_iff_eq. rewrite word_zero by apply lnot64_u64. rewrite Z.eqb_eq. split.
      - intros -> i Hi. by rewrite !lnot64_bit, Z.testbit_0_l by done.
      - intros H. apply word_bits_eq; [done|apply lnot64_u64|]. intros i Hi. specialize (H i Hi). rewrite lnot64_bit in * by done. rewrite Z.testbit_0_l. by apply negb_false_iff in H. }
    rewrite negb_true_iff, word_nonzero by apply lnot64_u64. split; intros (j & Hj & H); exists j; (split; [done|]); rewrite lnot64_bit, Z.lor_spec, lnot64_bit in * by done.
    + apply negb_true_iff, orb_false_iff in H as [-> H]. apply negb_false_iff in H. done.
    + destruct H as [-> ->]. done.
  - exists (negb r). split; [done|]. rewrite negb_true_iff, <-not_true_iff_false, Hr. split.
    + intros Hn i Hi. destruct (bit b i) eqn:E; [done|]. destruct Hn. eauto.
    + intros Ha (i & Hi & Hb). by rewrite Ha in Hb.
Qed.
(** [fill]: a loop that changes the set. *)
Lemma fill_loop_spec N value lo hi sw ew n : forall i b b0, bs_ok N b -> bs_ok N b0 -> bs_size b = bs_size b0 -> 0 <= lo <= hi -> hi <= bs_size b0 -> sw = lo / 64 -> ew = hi / 64 + (if 0 <? hi mod 64 then 1 else 0) -> sw <= i -> i + Z.of_nat n = ew -> ew <= max_nof_words N ->
  (forall j, 0 <= j -> bit b j = if (lo <=? j) && (j <? hi) && (j <? i * 64) then value else bit b0 j) ->
  exists b', find_word_loop n i sw ew lo hi (fun i mask b => let* w := word b i in Some (set_word b i (if value : bool then Z.lor w mask else Z.land w (lnot64 mask)), false)) b = Some (b', false) /\
    updates N b0 b' (fun j => if (lo <=? j) && (j <? hi) then value else bit b0 j).
Proof.
  induction n as [|n IH]; intros i b b0 Hok Hok0 Hsz Hlh Hhi Hsw Hew Hi Hn Hmax Hb; cbn [find_word_loop].
  - exists b. split; [done|]. split; [done|]. split; [done|]. intros j Hj. rewrite Hb by done. destruct ((lo <=? j) && (j <? hi)) eqn:E; [|done]. apply andb_true_iff in E as [E1 E2]. breflect. rewrite (proj2 (Z.ltb_lt j _)); [done|]. destruct (0 <? hi mod 64) eqn:E; breflect; mlia.
  - assert (0 <= sw) by (subst sw; mlia). destruct (bs_word N b Hok i ltac:(lia)) as (w & -> & Hw & Hwb). destruct (range_mask_spec lo hi i sw ew Hlh Hsw Hew ltac:(lia)) as [Hm Hmb]. set (mask := range_mask lo hi i sw ew) in *.
    set (w' := if value then Z.lor w mask else Z.land w (lnot64 mask)). assert (is_u64 w') as Hw' by (unfold w'; destruct value; [by apply lor_u64|by apply land_u64_l]).
    assert (forall j, 0 <= j < 64 -> Z.testbit w' j = if (lo <=? i * 64 + j) && (i * 64 + j <? hi) then value else bit b (i * 64 + j)) as Hwb'.
    { intros j Hj. unfold w'. destruct value; [rewrite Z.lor_spec|rewrite Z.land_spec, lnot64_bit by done]; rewrite Hmb, Hwb by done; destruct ((lo <=? i * 64 + j) && (i * 64 + j <? hi)); by rewrite ?orb_true_r, ?orb_false_r, ?andb_false_r, ?andb_true_r. }
    destruct (set_word_updates N b i w' (fun j => if (lo <=? j) && (j <? hi) then value else bit b j) Hok ltac:(lia) Hw' Hwb') as (Hok1 & Hs1 & Hb1).
    { intros j Hj. rewrite (proj2 (Z.ltb_ge j hi)) by lia. rewrite andb_false_r. by apply (bso_clean _ _ Hok). }
    apply (IH (i + 1) (set_word b i w') b0); [done|done|cbn; done|done|done|done|done|lia|lia|done|]. intros j Hj. rewrite Hb1, Hb by done. unfold wbits. destruct ((lo <=? j) && (j <? hi)) eqn:E; cbn [andb].
    + destruct (j / 64 =? i) eqn:Ej; breflect; [by rewrite (proj2 (Z.ltb_lt j _)) by mlia|]. destruct (j <? i * 64) eqn:E1, (j <? (i + 1) * 64) eqn:E2; breflect; done || (exfalso; mlia).
    + by destruct (j / 64 =? i).
Qed.
Lemma fill_spec N (msb : bool) b start stop value : bs_ok N b -> 0 <= start <= stop -> stop <= bs_size b ->
  exists b', bs_fill msb b start stop value = Some b' /\ updates N b b' (fun j => if (lo_of msb b start stop <=? j) && (j <? hi_of msb b start stop) then value else bit b j).
Proof.
  intros Hok Hs Hst. destruct (range_positions N msb b start stop Hok Hs Hst) as (Hpos & Hr & Hhi). unfold bs_fill, find_first_word, range_bounds. rewrite (proj2 (Z.leb_le start stop)), (proj2 (Z.leb_le stop _)) by lia. cbn [andb negb]. rewrite Hpos.
  set (lo := lo_of msb b start stop) in *. set (hi := hi_of msb b start stop) in *. unfold wbits. pose proof (end_word_le N b hi Hok ltac:(lia)) as Hew. destruct (fill_loop_spec N value lo hi (lo / 64) _ (Z.to_nat (hi / 64 + (if 0 <? hi mod 64 then 1 else 0) - lo / 64)) (lo / 64) b b Hok Hok eq_refl Hr Hhi eq_refl eq_refl ltac:(lia)) as (b' & -> & Hb').
  - destruct (0 <? hi mod 64) eqn:E; breflect; mlia.
  - done.
  - intros j Hj. destruct ((lo <=? j) && (j <? hi)) eqn:E; [|done]. apply andb_true_iff in E as [E1 E2]. breflect. by rewrite (proj2 (Z.ltb_ge j _)) by mlia.
  - by exists b'.
Qed.
