(* ===== verification/BitsetSearch.v ===== *)
(** * bounded_bitset: counts, comparisons and searches *)
From S2P Require Import Prelude Bits BoundedBitset BitsetThms.

(** ** Words in use *)
Lemma used_lookup N b k w : bs_ok N b -> used b !! k = Some w <-> Z.of_nat k < nof_words b /\ word b (Z.of_nat k) = Some w.
Proof.
  intros Hok. unfold used, word. rewrite Nat2Z.id, lookup_take_Some. split; intros [H1 H2]; split; [lia|done|done|lia].
Qed.
(** A bit below the size is one of a word in use, and the others are zero. *)
Lemma used_bits N b v : bs_ok N b -> (v = true \/ bs_size b mod 64 = 0) -> (exists k w j, used b !! k = Some w /\ 0 <= j < 64 /\ Z.testbit w j = v) <-> exists i, 0 <= i < bs_size b /\ bit b i = v.
Proof.
  intros Hok Hv. pose proof (nof_words_le N b Hok) as Hle. split.
  - intros (k & w & j & Hk & Hj & Hb). apply (used_lookup N) in Hk as [Hk Hw]; [|done]. destruct (bs_word N b Hok (Z.of_nat k) ltac:(lia)) as (w' & Hw' & _ & Hwb). rewrite Hw in Hw'. injection Hw' as <-. rewrite Hwb in Hb by done. exists (Z.of_nat k * 64 + j). split; [|done].
    destruct (decide (Z.of_nat k * 64 + j < bs_size b)); [lia|]. exfalso. destruct Hv as [->|Hm]; [rewrite (bso_clean _ _ Hok) in Hb by lia; done|]. unfold nof_words, wbits in Hk. destruct (0 <? bs_size b) eqn:E; breflect; mlia.
  - intros (i & Hi & Hb). pose proof (word_in_use b i Hi) as Hu. destruct (bs_word N b Hok (i / wbits) ltac:(lia)) as (w & Hw & _ & Hwb). exists (Z.to_nat (i / wbits)), w, (i mod 64). split; [apply (used_lookup N); [done|]; rewrite Z2Nat.id by lia; split; [lia|done]|]. split; [apply Z.mod_pos_bound; lia|].
    rewrite Hwb by (apply Z.mod_pos_bound; lia). unfold wbits. replace (i / 64 * 64 + i mod 64) with i by mlia. done.
Qed.
Lemma any_spec N b : bs_ok N b -> bs_any b = true <-> exists i, 0 <= i < bs_size b /\ bit b i = true.
Proof.
  intros Hok. rewrite <-(used_bits N b true Hok) by (by left). unfold bs_any. rewrite existsb_exists. split.
  - intros (w & Hin & Hne). apply list_elem_of_In, list_elem_of_lookup in Hin as [k Hk]. apply negb_true_iff in Hne. assert (is_u64 w) as Hw by (apply (Forall_lookup_1 _ _ _ _ (Forall_take _ (Z.to_nat (nof_words b)) _ (bso_words _ _ Hok)) Hk)). apply word_nonzero in Hne as (j & Hj & Hb); [|done]. eauto 6.
  - intros (k & w & j & Hk & Hj & Hb). exists w. split; [apply list_elem_of_In, list_elem_of_lookup; eauto|]. apply negb_true_iff. assert (is_u64 w) as Hw by (apply (Forall_lookup_1 _ _ _ _ (Forall_take _ (Z.to_nat (nof_words b)) _ (bso_words _ _ Hok)) Hk)). apply word_nonzero; eauto.
Qed.
Lemma all_spec N b : bs_ok N b -> exists r, bs_all b = Some r /\ (r = true <-> forall i, 0 <= i < bs_size b -> bit b i = true).
Proof.
  intros Hok. pose proof (nof_words_le N b Hok) as Hle. pose proof (bso_size _ _ Hok) as Hsz. unfold bs_all. destruct (nof_words b =? 0) eqn:E0; breflect.
  { exists true. split; [done|]. split; [|done]. intros _ i Hi. pose proof (word_in_use b i Hi). lia. }
  assert (0 < bs_size b) as Hpos by (unfold nof_words in E0; destruct (0 <? bs_size b) eqn:E; breflect; lia). assert (nof_words b = (bs_size b - 1) / 64 + 1) as Hnw by (unfold nof_words, wbits; by rewrite (proj2 (Z.ltb_lt 0 _)) by lia).
  destruct (existsb _ _) eqn:Ex.
  - exists false. split; [done|]. split; [done|]. intros Hall. apply existsb_exists in Ex as (w & Hin & Hne). apply list_elem_of_In, list_elem_of_lookup in Hin as [k Hk]. apply lookup_take_Some in Hk as [Hk Hlt]. destruct (bs_word N b Hok (Z.of_nat k) ltac:(lia)) as (w' & Hw' & Hu & Hwb). unfold word in Hw'. rewrite Nat2Z.id, Hk in Hw'. injection Hw' as <-.
    apply negb_true_iff, Z.eqb_neq in Hne. destruct Hne. apply word_bits_eq; [done|apply lnot64_u64|]. intros j Hj. rewrite Hwb, lnot64_bit, Z.testbit_0_l by done. apply Hall. mlia.
  - destruct (bs_word N b Hok (nof_words b - 1) ltac:(lia)) as (w & -> & Hu & Hwb). eexists. split; [done|]. rewrite Z.eqb_eq. unfold wbits. assert (0 <= nof_words b * 64 - bs_size b < 64) as Hsh by mlia.
    assert (forall j, 0 <= j < 64 -> Z.testbit (Z.shiftr (lnot64 0) (nof_words b * 64 - bs_size b)) j = ((nof_words b - 1) * 64 + j <? bs_size b)) as Hmask.
    { intros j Hj. rewrite Z.shiftr_spec by lia. destruct (_ <? bs_size b) eqn:E; breflect; [rewrite lnot64_bit, Z.testbit_0_l by lia; done|]. apply (testbit_high _ 64); [apply lnot64_u64|lia]. }
    split.
    + intros -> i Hi. destruct (decide (i / 64 = nof_words b - 1)) as [Hlast|Hn].
      * specialize (Hwb (i mod 64) ltac:(apply Z.mod_pos_bound; lia)). rewrite Hmask in Hwb by (apply Z.mod_pos_bound; lia). replace ((nof_words b - 1) * 64 + i mod 64) with i in Hwb by mlia. rewrite <-Hwb. apply Z.ltb_lt. lia.
      * destruct (bs_word N b Hok (i / 64) ltac:(mlia)) as (w' & Hw' & Hu' & Hwb'). specialize (Hwb' (i mod 64) ltac:(apply Z.mod_pos_bound; lia)). replace (i / 64 * 64 + i mod 64) with i in Hwb' by mlia. rewrite <-Hwb'.
        assert (w' = lnot64 0) as ->; [|rewrite lnot64_bit, Z.testbit_0_l by (apply Z.mod_pos_bound; lia); done]. apply not_true_iff_false in Ex. destruct (decide (w' = lnot64 0)) as [|Hne]; [done|]. destruct Ex. apply existsb_exists. exists w'. split; [|by apply negb_true_iff, Z.eqb_neq].
        apply list_elem_of_In, list_elem_of_lookup. exists (Z.to_nat (i / 64)). apply lookup_take_Some. split; [exact Hw'|]. mlia.
    + intros Hall. apply word_bits_eq; [done| |].
      * unfold is_u64. rewrite Z.shiftr_div_pow2 by lia. pose proof (lnot64_u64 0) as [H1 H2]. split; [apply Z.div_pos; lia|]. apply Z.div_lt_upper_bound; [lia|]. assert (1 <= 2 ^ (nof_words b * 64 - bs_size b)) by lia. nia.
      * intros j Hj. rewrite Hwb, Hmask by done. destruct (_ <? bs_size b) eqn:E; breflect; [apply Hall; lia|apply (bso_clean _ _ Hok); lia].
Qed.
(** ** Counts *)
Definition total (f : nat -> bool) (n : nat) : Z := foldr (fun i c => Z.b2z (f i) + c) 0 (seq 0 n).
Lemma total_seq f n k : foldr (fun i c => Z.b2z (f i) + c) 0 (seq k n) = total (fun i => f (k + i)%nat) n.
Proof.
  unfold total. assert (seq k n = map (Nat.add k) (seq 0 n)) as ->.
  { revert k. induction n as [|n IH]; intros k; [done|]. cbn [seq map]. rewrite Nat.add_0_r. f_equal. rewrite (IH (S k)), (IH 1%nat), map_map. apply map_ext. intros x. lia. }
  induction (seq 0 n) as [|x l IH]; [done|]. cbn. by rewrite IH.
Qed.
Lemma total_add f n m : total f (n + m) = total f n + total (fun i => f (n + i)%nat) m.
Proof.
  unfold total at 1. rewrite seq_app, foldr_app, total_seq. cbn [Nat.add]. unfold total at 2. generalize (total (fun i => f (n + i)%nat) m) as c. intros c. induction (seq 0 n) as [|x l IH]; [cbn; lia|]. cbn. rewrite IH. lia.
Qed.
Lemma total_ext f g n : (forall i, (i < n)%nat -> f i = g i) -> total f n = total g n.
Proof.
  intros H. unfold total. assert (forall i, In i (seq 0 n) -> f i = g i) as H' by (intros i Hi; apply in_seq in Hi; apply H; lia). induction (seq 0 n) as [|x l IH]; [done|]. cbn. rewrite IH, H'; [done|by left|]. intros i Hi. apply H'. by right.
Qed.
Lemma total_false n : total (fun _ => false) n = 0.
Proof. unfold total. by induction (seq 0 n). Qed.
Lemma count_ones_total w : count_ones w = total (fun i => Z.testbit w (Z.of_nat i)) 64.
Proof. done. Qed.
Lemma count_spec N b : bs_ok N b -> bs_count b = total (fun i => bit b (Z.of_nat i)) (Z.to_nat (bs_size b)).
Proof.
  intros Hok. pose proof (nof_words_le N b Hok) as Hle. pose proof (bso_len _ _ Hok) as Hl. assert (forall n, Z.of_nat n <= max_nof_words N -> foldl (fun c w => c + count_ones w) 0 (take n (bs_buffer b)) = total (fun i => bit b (Z.of_nat i)) (n * 64)) as H.
  { induction n as [|n IH]; intros Hn; [done|]. destruct (bs_word N b Hok (Z.of_nat n) ltac:(lia)) as (w & Hw & _ & Hwb). unfold word in Hw. rewrite Nat2Z.id in Hw. rewrite (take_S_r _ _ _ Hw), foldl_app, IH by lia. cbn [foldl]. replace (S n * 64)%nat with (n * 64 + 64)%nat by lia. rewrite total_add, count_ones_total. f_equal. apply total_ext. intros i Hi. rewrite Hwb by lia. f_equal. lia. }
  unfold bs_count, used. rewrite H by lia. pose proof (size_le_words N b Hok). pose proof (bso_size _ _ Hok). replace (Z.to_nat (nof_words b) * 64)%nat with (Z.to_nat (bs_size b) + (Z.to_nat (nof_words b) * 64 - Z.to_nat (bs_size b)))%nat by lia. rewrite total_add. rewrite (total_ext (fun i => bit b (Z.of_nat (Z.to_nat (bs_size b) + i))) (fun _ => false)), total_false; [lia|]. intros i Hi. apply (bso_clean _ _ Hok). lia.
Qed.
(** ** Comparison *)
Lemma words_eqb_spec l1 : forall l2, length l1 = length l2 -> words_eqb l1 l2 = true <-> l1 = l2.
Proof.
  induction l1 as [|x l1 IH]; intros [|y l2] Hl; try done. cbn. rewrite andb_true_iff, Z.eqb_eq, IH by (by injection Hl). split; [by intros [-> ->]|intros [= -> ->]; done].
Qed.
Lemma eqb_spec N a b : bs_ok N a -> bs_ok N b -> bs_eqb a b = true <-> bs_size a = bs_size b /\ forall i, 0 <= i < bs_size a -> bit a i = bit b i.
Proof.
  intros Ha Hb. unfold bs_eqb. rewrite andb_true_iff, Z.eqb_eq. pose proof (nof_words_le N a Ha) as Hle. assert (bs_size a = bs_size b -> nof_words a = nof_words b) as Hnw by (intros E; unfold nof_words; by rewrite E). split; intros [Hs H]; (split; [done|]); specialize (Hnw Hs).
  - apply words_eqb_spec in H; [|unfold used; rewrite !length_take; pose proof (bso_len _ _ Ha); pose proof (bso_len _ _ Hb); lia]. intros i Hi. pose proof (word_in_use a i Hi) as Hu. destruct (bs_word N a Ha (i / wbits) ltac:(lia)) as (w & Hw & _ & Hwb). destruct (bs_word N b Hb (i / wbits) ltac:(lia)) as (w' & Hw' & _ & Hwb').
    assert (w = w') as <-. { assert (used a !! Z.to_nat (i / wbits) = Some w) as E by (apply (used_lookup N); [done|]; rewrite Z2Nat.id by lia; split; [lia|done]). rewrite H in E. apply (used_lookup N) in E as [_ E]; [|done]. rewrite Z2Nat.id in E by lia. congruence. }
    specialize (Hwb (i mod 64) ltac:(apply Z.mod_pos_bound; lia)). specialize (Hwb' (i mod 64) ltac:(apply Z.mod_pos_bound; lia)). unfold wbits in *. replace (i / 64 * 64 + i mod 64) with i in * by mlia. congruence.
  - apply words_eqb_spec; [unfold used; rewrite !length_take; pose proof (bso_len _ _ Ha); pose proof (bso_len _ _ Hb); lia|]. apply list_eq. intros k. apply option_eq. intros w. rewrite !(used_lookup N) by done. rewrite <-Hnw.
    assert (Z.of_nat k < nof_words a -> word a (Z.of_nat k) = word b (Z.of_nat k)) as Heq; [|split; intros [H1 H2]; (split; [done|]); [by rewrite <-Heq|by rewrite Heq]]. intros Hk. destruct (bs_word N a Ha (Z.of_nat k) ltac:(lia)) as (x & -> & Hx & Hxb). destruct (bs_word N b Hb (Z.of_nat k) ltac:(lia)) as (y & -> & Hy & Hyb). f_equal. apply word_bits_eq; [done|done|].
    intros j Hj. rewrite Hxb, Hyb by done. destruct (decide (Z.of_nat k * 64 + j < bs_size a)); [apply H; lia|]. by rewrite (bso_clean _ _ Ha), (bso_clean _ _ Hb) by lia.
Qed.

(** ** Searches *)
Definition lowest (b : bitset) (lo hi : Z) (v : bool) (r : Z) : Prop :=
  (r = -1 /\ forall i, lo <= i < hi -> bit b i <> v) \/ (lo <= r < hi /\ bit b r = v /\ forall i, lo <= i < r -> bit b i <> v).
Definition highest (b : bitset) (lo hi : Z) (v : bool) (r : Z) : Prop :=
  (r = -1 /\ forall i, lo <= i < hi -> bit b i <> v) \/ (lo <= r < hi /\ bit b r = v /\ forall i, r < i < hi -> bit b i <> v).
(** The bits of a word that are searched. *)
Definition masked (b : bitset) (lo hi : Z) (v : bool) (i m : Z) : Prop :=
  is_u64 m /\ forall j, 0 <= j < 64 -> Z.testbit m j = (lo <=? i * 64 + j) && (i * 64 + j <? hi) && eqb (bit b (i * 64 + j)) v.
Lemma value_word_bit v w j : 0 <= j < 64 -> Z.testbit (value_word v w) j = eqb (Z.testbit w j) v.
Proof. intros Hj. unfold value_word. destruct v; [by destruct (Z.testbit w j)|]. rewrite lnot64_bit by done. by destruct (Z.testbit w j). Qed.
Lemma value_word_u64 v w : is_u64 w -> is_u64 (value_word v w).
Proof. intros Hw. destruct v; [done|apply lnot64_u64]. Qed.
Lemma low_word_mask lo i x : 0 <= lo -> lo / 64 <= i -> is_u64 x -> let m := if i =? lo / 64 then Z.land x (mask64_lsb_zeros (lo mod 64)) else x in
  is_u64 m /\ forall j, 0 <= j < 64 -> Z.testbit m j = (lo <=? i * 64 + j) && Z.testbit x j.
Proof.
  intros Hlo Hi Hx. assert (0 <= lo mod 64 < 64) by (apply Z.mod_pos_bound; lia). destruct (i =? lo / 64) eqn:E; breflect; cbv zeta.
  - split; [by apply land_u64_l|]. intros j Hj. rewrite Z.land_spec, lsb_zeros_bit, andb_comm by lia. f_equal. apply eq_true_iff_eq. rewrite !Z.leb_le. split; intros; mlia.
  - split; [done|]. intros j Hj. rewrite (proj2 (Z.leb_le lo _)) by mlia. done.
Qed.
Lemma high_mask hi i x : 0 < hi -> i <= (hi - 1) / 64 -> is_u64 x -> let m := if i =? (hi - 1) / 64 then Z.land x (mask64_lsb_ones ((hi - 1) mod 64 + 1)) else x in
  is_u64 m /\ forall j, 0 <= j < 64 -> Z.testbit m j = (i * 64 + j <? hi) && Z.testbit x j.
Proof.
  intros Hhi Hi Hx. assert (0 <= (hi - 1) mod 64 < 64) by (apply Z.mod_pos_bound; lia). destruct (i =? (hi - 1) / 64) eqn:E; breflect; cbv zeta.
  - split; [by apply land_u64_l|]. intros j Hj. rewrite Z.land_spec, lsb_ones_bit, andb_comm by lia. f_equal. apply eq_true_iff_eq. rewrite !Z.ltb_lt. split; intros; mlia.
  - split; [done|]. intros j Hj. rewrite (proj2 (Z.ltb_lt _ hi)) by mlia. done.
Qed.
Section Search.
Context (N : Z) (b : bitset) (Hok : bs_ok N b) (lo hi : Z) (Hlo : 0 <= lo < hi) (Hhi : hi <= bs_size b) (v : bool).
Let sw := lo / 64.
Let lw := (hi - 1) / 64.
Lemma search_words : 0 <= sw <= lw /\ lw < max_nof_words N.
Proof. pose proof (bso_size _ _ Hok). unfold sw, lw, max_nof_words, wbits. split; mlia. Qed.
Lemma search_word i : sw <= i <= lw -> exists w, word b i = Some w /\
  masked b lo hi v i (let w := if i =? sw then Z.land (value_word v w) (mask64_lsb_zeros (lo mod 64)) else value_word v w in if i =? lw then Z.land w (mask64_lsb_ones ((hi - 1) mod 64 + 1)) else w) /\
  masked b lo hi v i (let w := if i =? lw then Z.land (value_word v w) (mask64_lsb_ones ((hi - 1) mod 64 + 1)) else value_word v w in if i =? sw then Z.land w (mask64_lsb_zeros (lo mod 64)) else w).
Proof.
  intros Hi. pose proof search_words. destruct (bs_word N b Hok i ltac:(lia)) as (w & Hw & Hu & Hb). exists w. split; [done|]. pose proof (value_word_u64 v w Hu) as Hvu. split.
  - destruct (low_word_mask lo i _ ltac:(lia) ltac:(unfold sw in Hi; lia) Hvu) as [H1 H2]. destruct (high_mask hi i _ ltac:(lia) ltac:(unfold lw in Hi; lia) H1) as [H3 H4]. split; [exact H3|]. intros j Hj. etransitivity; [exact (H4 j Hj)|]. rewrite (H2 j Hj), value_word_bit, Hb by done.
    by rewrite !andb_assoc, (andb_comm (i * 64 + j <? hi)).
  - destruct (high_mask hi i _ ltac:(lia) ltac:(unfold lw in Hi; lia) Hvu) as [H1 H2]. destruct (low_word_mask lo i _ ltac:(lia) ltac:(unfold sw in Hi; lia) H1) as [H3 H4]. split; [exact H3|]. intros j Hj. etransitivity; [exact (H4 j Hj)|]. rewrite (H2 j Hj), value_word_bit, Hb by done. by rewrite !andb_assoc.
Qed.
(** A word without a bit of the value, and one with. *)
Lemma masked_zero i m k : masked b lo hi v i m -> m = 0 -> lo <= k < hi -> k / 64 = i -> bit b k <> v.
Proof.
  intros [_ Hm] -> Hk <- Hb. specialize (Hm (k mod 64) ltac:(apply Z.mod_pos_bound; lia)). rewrite Z.testbit_0_l in Hm. replace (k / 64 * 64 + k mod 64) with k in Hm by mlia. rewrite Hb, eqb_reflx, (proj2 (Z.leb_le lo k)), (proj2 (Z.ltb_lt k hi)) in Hm by lia. done.
Qed.
Lemma masked_hit i m j : masked b lo hi v i m -> 0 <= j < 64 -> Z.testbit m j = true -> lo <= i * 64 + j < hi /\ bit b (i * 64 + j) = v.
Proof. intros [_ Hm] Hj Hb. rewrite Hm in Hb by done. apply andb_true_iff in Hb as [H1 H2]. apply andb_true_iff in H1 as [Ha Hc]. apply eqb_prop in H2. breflect. done. Qed.
Lemma masked_miss i m j : masked b lo hi v i m -> 0 <= j < 64 -> Z.testbit m j = false -> lo <= i * 64 + j < hi -> bit b (i * 64 + j) <> v.
Proof. intros [_ Hm] Hj Hb Hr E. rewrite Hm, E, eqb_reflx, (proj2 (Z.leb_le lo _)), (proj2 (Z.ltb_lt _ hi)) in Hb by lia. done. Qed.
Lemma find_first_loop_spec fuel : forall i, sw <= i -> i <= lw + 1 -> lw + 1 - i < Z.of_nat fuel -> (forall k, lo <= k < hi -> k < i * 64 -> bit b k <> v) ->
  exists r, find_first_loop fuel i sw lw lo hi v b = Some r /\ lowest b lo hi v r.
Proof.
  induction fuel as [|fuel IH]; intros i Hi1 Hi2 Hf Hmiss; [lia|]. cbn [find_first_loop]. destruct (i <=? lw) eqn:El; breflect; cbn [negb].
  2: { exists (-1). split; [done|]. left. split; [done|]. intros k Hk. apply Hmiss; [done|]. unfold lw in *. mlia. }
  assert (u64 (hi - 1) = hi - 1) as -> by (apply u64_id; pose proof (bso_size _ _ Hok); pose proof (bso_N _ _ Hok); unfold is_u64; lia). destruct (search_word i ltac:(lia)) as (w & -> & Hm & _). unfold wbits. cbv zeta in Hm. set (m := if i =? lw then _ else _) in *. destruct (m =? 0) eqn:E; breflect; cbn [negb].
  - apply IH; [lia|lia|lia|]. intros k Hk Hki. destruct (decide (k < i * 64)); [by apply Hmiss|]. apply (masked_zero i m k Hm E Hk). mlia.
  - destruct (lsb_one_spec m (proj1 Hm) E) as (Hj & Hb & Hlow). set (j := find_first_lsb_one m) in *. destruct (masked_hit i m j Hm Hj Hb) as [Hr Hv]. exists (i * 64 + j). split; [done|]. right. split; [done|]. split; [done|].
    intros k Hk. destruct (decide (k < i * 64)); [apply Hmiss; lia|]. replace k with (i * 64 + (k - i * 64)) by lia. apply (masked_miss i m); [done|lia|apply Hlow; lia|lia].
Qed.
Lemma find_first_spec : exists r, find_first_ b lo hi v = Some r /\ lowest b lo hi v r.
Proof.
  unfold find_first_, wbits. assert (u64 (hi - 1) = hi - 1) as -> by (apply u64_id; pose proof (bso_size _ _ Hok); pose proof (bso_N _ _ Hok); unfold is_u64; lia). pose proof search_words. pose proof (bso_len _ _ Hok). apply find_first_loop_spec; [unfold sw; lia|unfold sw, lw in *; lia|unfold sw, lw in *; lia|].
  intros k Hk Hks. exfalso. unfold sw in *. mlia.
Qed.
(** Downwards, for both orders. *)
Lemma find_last_loop_spec fuel : forall i, sw - 1 <= i <= lw -> i - (sw - 1) < Z.of_nat fuel -> (forall k, lo <= k < hi -> (i + 1) * 64 <= k -> bit b k <> v) ->
  exists r, find_last_loop false fuel (u64 i) sw lw lo hi v b = Some r /\ highest b lo hi v r.
Proof.
  pose proof search_words as Hsw. pose proof (bso_N _ _ Hok) as HN. assert (max_nof_words N < 2 ^ 32) as Hmax by (unfold max_nof_words, wbits; mlia).
  induction fuel as [|fuel IH]; intros i Hi Hf Hmiss; [lia|]. cbn [find_last_loop]. destruct (decide (i = sw - 1)) as [->|Hne].
  { rewrite Z.eqb_refl. exists (-1). split; [done|]. left. split; [done|]. intros k Hk. apply Hmiss; [done|]. unfold sw in *. mlia. }
  assert (u64 i = i) as -> by (apply u64_id; unfold is_u64; lia). assert ((i =? u64 (sw - 1)) = false) as ->.
  { apply Z.eqb_neq. destruct (decide (sw = 0)) as [Hz|]; [rewrite Hz; change (u64 (0 - 1)) with (2 ^ 64 - 1); lia|]. rewrite u64_id by (unfold is_u64; lia). lia. }
  assert (u64 (hi - 1) = hi - 1) as -> by (apply u64_id; pose proof (bso_size _ _ Hok); unfold is_u64; lia). destruct (search_word i ltac:(lia)) as (w & -> & Hm & _). unfold wbits. cbv zeta in Hm. set (m := if i =? lw then _ else _) in *. destruct (m =? 0) eqn:E; breflect; cbn [negb].
  - apply IH; [lia|lia|]. intros k Hk Hki. destruct (decide ((i + 1) * 64 <= k)); [by apply Hmiss|]. apply (masked_zero i m k Hm E Hk). mlia.
  - destruct (msb_one_spec m (proj1 Hm) E) as (Hj & Hb & Hhigh). set (j := find_first_msb_one m) in *. destruct (masked_hit i m j Hm Hj Hb) as [Hr Hv]. exists (i * 64 + j). split; [done|]. right. split; [done|]. split; [done|].
    intros k Hk. destruct (decide ((i + 1) * 64 <= k)); [apply Hmiss; lia|]. replace k with (i * 64 + (k - i * 64)) by lia. apply (masked_miss i m); [done|lia|apply Hhigh; lia|lia].
Qed.
Lemma find_last_spec : exists r, find_last_ false b lo hi v = Some r /\ highest b lo hi v r.
Proof.
  unfold find_last_, wbits. assert (u64 (hi - 1) = hi - 1) as -> by (apply u64_id; pose proof (bso_size _ _ Hok); pose proof (bso_N _ _ Hok); unfold is_u64; lia). pose proof search_words as Hsw. pose proof (bso_len _ _ Hok) as Hl. pose proof (bso_N _ _ Hok). assert (max_nof_words N < 2 ^ 32) as Hmax by (unfold max_nof_words, wbits; mlia). fold lw sw.
  assert (u64 lw = lw) as Hlw by (apply u64_id; unfold is_u64; lia). pose proof (find_last_loop_spec (S (S (length (bs_buffer b)))) lw) as Hlast. rewrite Hlw in Hlast. apply Hlast; [lia|lia|]. intros k Hk Hks. exfalso. unfold lw in *. mlia.
Qed.
Lemma find_reversed_loop_spec fuel : forall i, sw - 1 <= i <= lw -> i - (sw - 1) < Z.of_nat fuel -> (forall k, lo <= k < hi -> (i + 1) * 64 <= k -> bit b k <> v) ->
  exists r, find_first_reversed_loop fuel (u64 i) lw sw (hi - 1) lo v b = Some (if r =? -1 then -1 else bs_size b - 1 - r) /\ highest b lo hi v r.
Proof.
  pose proof search_words as Hsw. pose proof (bso_N _ _ Hok) as HN. assert (max_nof_words N < 2 ^ 32) as Hmax by (unfold max_nof_words, wbits; mlia).
  induction fuel as [|fuel IH]; intros i Hi Hf Hmiss; [lia|]. cbn [find_first_reversed_loop]. destruct (decide (i = sw - 1)) as [->|Hne].
  { rewrite Z.eqb_refl. exists (-1). split; [done|]. left. split; [done|]. intros k Hk. apply Hmiss; [done|]. unfold sw in *. mlia. }
  assert (u64 i = i) as -> by (apply u64_id; unfold is_u64; lia). assert ((i =? u64 (sw - 1)) = false) as ->.
  { apply Z.eqb_neq. destruct (decide (sw = 0)) as [Hz|]; [rewrite Hz; change (u64 (0 - 1)) with (2 ^ 64 - 1); lia|]. rewrite u64_id by (unfold is_u64; lia). lia. }
  destruct (search_word i ltac:(lia)) as (w & -> & _ & Hm). unfold wbits. cbv zeta in Hm. set (m := if i =? sw then _ else _) in *. destruct (m =? 0) eqn:E; breflect; cbn [negb].
  - apply IH; [lia|lia|]. intros k Hk Hki. destruct (decide ((i + 1) * 64 <= k)); [by apply Hmiss|]. apply (masked_zero i m k Hm E Hk). mlia.
  - destruct (msb_one_spec m (proj1 Hm) E) as (Hj & Hb & Hhigh). set (j := find_first_msb_one m) in *. destruct (masked_hit i m j Hm Hj Hb) as [Hr Hv]. exists (i * 64 + j). rewrite (proj2 (Z.eqb_neq (i * 64 + j) (-1))) by lia. rewrite (Z.add_comm (i * 64)). split; [done|]. rewrite (Z.add_comm j). right. split; [done|]. split; [done|].
    intros k Hk. destruct (decide ((i + 1) * 64 <= k)); [apply Hmiss; lia|]. replace k with (i * 64 + (k - i * 64)) by lia. apply (masked_miss i m); [done|lia|apply Hhigh; lia|lia].
Qed.
End Search.
(** The lowest position of the order with the most significant bit first is the highest bit of the array. *)
Lemma find_first_reversed_spec N b start stop v : bs_ok N b -> 0 <= start < stop -> stop <= bs_size b ->
  exists r, find_first_reversed_ b start stop v = Some (if r =? -1 then -1 else bs_size b - 1 - r) /\ highest b (bs_size b - stop) (bs_size b - start) v r.
Proof.
  intros Hok Hs Hst. unfold find_first_reversed_, get_bitidx. pose proof (bso_size _ _ Hok). pose proof (bso_N _ _ Hok). rewrite !u64_id by (unfold is_u64; lia). replace (bs_size b - 1 - start) with (bs_size b - start - 1) by lia. replace (bs_size b - 1 - (stop - 1)) with (bs_size b - stop) by lia.
  set (lo := bs_size b - stop). set (hi := bs_size b - start). assert (0 <= lo < hi /\ hi <= bs_size b) as [Hlo Hhi] by (unfold lo, hi; lia). pose proof (search_words N b Hok lo hi Hlo Hhi) as Hsw. pose proof (bso_len _ _ Hok) as Hl. assert (max_nof_words N < 2 ^ 32) as Hmax by (unfold max_nof_words, wbits; mlia).
  pose proof (find_reversed_loop_spec N b Hok lo hi Hlo Hhi v (S (S (length (bs_buffer b)))) ((hi - 1) / 64)) as Hlast. rewrite u64_id in Hlast by (unfold is_u64; lia). unfold wbits. apply Hlast; [lia|lia|]. intros k Hk Hks. exfalso. mlia.
Qed.
