(* ===== verification/BitsetSpec.v ===== *)
(** * bounded_bitset: slices, enumeration, and the set as a list of bits *)
From S2P Require Import Prelude Bits BoundedBitset BitsetThms BitsetSearch.

(** ** Slices *)
Lemma slice_word_spec N b lo i : bs_ok N b -> 0 <= lo -> 0 <= i -> i + lo / 64 < nof_words b -> exists w, slice_word b (lo / 64) (lo mod 64) i = Some w /\ is_u64 w /\ forall j, 0 <= j < 64 -> Z.testbit w j = bit b (lo + i * 64 + j).
Proof.
  intros Hok Hlo Hi Hin. pose proof (nof_words_le N b Hok) as Hle. unfold slice_word. assert (0 <= lo / 64) by mlia. assert (0 <= lo mod 64 < 64) as Hm by (apply Z.mod_pos_bound; lia). destruct (bs_word N b Hok (i + lo / 64) ltac:(lia)) as (w & -> & Hw & Hwb). destruct (lo mod 64 =? 0) eqn:E0; breflect; cbn [negb].
  { exists w. split; [done|]. split; [done|]. intros j Hj. rewrite Hwb by done. f_equal. mlia. }
  unfold wbits. set (m := lo mod 64) in *. assert (forall j, 0 <= j < 64 -> Z.testbit (Z.land (Z.shiftr w m) (mask64_lsb_ones (64 - m))) j = (j <? 64 - m) && bit b (lo + i * 64 + j)) as Hlow.
  { intros j Hj. rewrite Z.land_spec, Z.shiftr_spec, lsb_ones_bit, andb_comm by lia. destruct (j <? 64 - m) eqn:E; breflect; cbn [andb]; [|done]. rewrite Hwb by lia. f_equal. unfold m. mlia. }
  assert (is_u64 (Z.land (Z.shiftr w m) (mask64_lsb_ones (64 - m)))) as Hlu by (rewrite Z.land_comm; apply land_u64_l; unfold mask64_lsb_ones, mask64_msb_zeros, wbits; repeat case_match; try (apply u64_range || (unfold is_u64; lia)); unfold is_u64; rewrite Z.shiftr_div_pow2 by lia; change (u64 (-1)) with (2 ^ 64 - 1); split; [apply Z.div_pos; lia|apply Z.div_lt_upper_bound; [lia|]; assert (1 <= 2 ^ (64 - (64 - m))) by lia; nia]).
  destruct (i + lo / 64 + 1 <? nof_words b) eqn:En; breflect.
  - destruct (bs_word N b Hok (i + lo / 64 + 1) ltac:(lia)) as (w' & -> & Hw' & Hwb'). eexists. split; [done|]. split; [apply lor_u64; [done|apply u64_range]|]. intros j Hj. rewrite Z.lor_spec, Hlow by done. unfold u64 at 1. rewrite Z.mod_pow2_bits_low, Z.shiftl_spec by lia. destruct (j <? 64 - m) eqn:E; breflect; cbn [andb orb].
    + rewrite Z.testbit_neg_r by lia. by rewrite orb_false_r.
    + rewrite Z.land_spec, lsb_ones_bit by lia. rewrite (proj2 (Z.ltb_lt _ m)), andb_true_r by lia. rewrite Hwb' by lia. f_equal. unfold m. mlia.
  - eexists. split; [done|]. split; [done|]. intros j Hj. rewrite Hlow by done. destruct (j <? 64 - m) eqn:E; breflect; cbn [andb]; [done|]. symmetry. apply (bso_clean _ _ Hok). pose proof (size_le_words N b Hok). unfold m in *. mlia.
Qed.
Lemma slice_words_spec N N2 b lo len n : forall i s, bs_ok N b -> 0 <= lo -> 0 < len -> lo + len <= bs_size b -> 0 <= i -> i + Z.of_nat n = (len - 1) / 64 + 1 -> (len - 1) / 64 + 1 <= max_nof_words N2 ->
  bs_size s = len -> Z.of_nat (length (bs_buffer s)) = max_nof_words N2 -> Forall is_u64 (bs_buffer s) -> (forall j, 0 <= j -> bit s j = (j <? i * 64) && bit b (lo + j)) ->
  exists s', slice_words n i (lo / 64) (lo mod 64) b s = Some s' /\ bs_size s' = len /\ Z.of_nat (length (bs_buffer s')) = max_nof_words N2 /\ Forall is_u64 (bs_buffer s') /\ forall j, 0 <= j -> bit s' j = (j <? ((len - 1) / 64 + 1) * 64) && bit b (lo + j).
Proof.
  induction n as [|n IH]; intros i s Hok Hlo Hlen Hfit Hi Hn Hmax Hs Hl Hw Hb; cbn [slice_words].
  - exists s. split_and!; [done|done|done|done|]. intros j Hj. rewrite Hb by done. do 2 f_equal. lia.
  - assert (i + lo / 64 < nof_words b) as Hin by (unfold nof_words, wbits; rewrite (proj2 (Z.ltb_lt 0 _)) by lia; mlia). destruct (slice_word_spec N b lo i Hok Hlo Hi Hin) as (w & -> & Hwu & Hwb). destruct (lookup_lt_is_Some_2 (bs_buffer s) (Z.to_nat i)) as [x Hx]; [lia|]. unfold word at 1. rewrite Hx.
    apply IH; [done|done|done|done|lia|lia|done|done|cbn; by rewrite length_insert|cbn; by apply Forall_insert|]. intros j Hj. rewrite bit_set_word by lia. unfold wbits. destruct (j / 64 =? i) eqn:E; breflect.
    + rewrite Hwb by (apply Z.mod_pos_bound; lia). rewrite (proj2 (Z.ltb_lt j _)) by mlia. cbn [andb]. f_equal. mlia.
    + rewrite Hb by done. f_equal. apply eq_true_iff_eq. rewrite !Z.ltb_lt. split; intros; mlia.
Qed.
Lemma slice_spec N N2 (msb : bool) b start stop : bs_ok N b -> 0 < N2 < 2 ^ 32 -> 0 <= start <= stop -> stop <= bs_size b -> stop - start <= N2 ->
  exists s, bs_slice N2 msb b start stop = Some s /\ bs_ok N2 s /\ bs_size s = stop - start /\ forall i, 0 <= i -> bit s i = (i <? stop - start) && bit b (lo_of msb b start stop + i).
Proof.
  intros Hok HN2 Hs Hst Hfit. pose proof (bso_size _ _ Hok). pose proof (bso_N _ _ Hok). unfold bs_slice. rewrite u64_id by (unfold is_u64; lia). set (len := stop - start). destruct (range_positions N msb b start stop Hok Hs Hst) as (Hpos & Hr & Hhi).
  assert ((if msb then u64 (get_bitidx msb b stop + 1) else start) = lo_of msb b start stop) as -> by (unfold lo_of in *; destruct msb; [by injection Hpos|done]). set (lo := lo_of msb b start stop) in *. assert (hi_of msb b start stop = lo + len) as Hhl by (unfold lo, len, lo_of, hi_of; destruct msb; lia). rewrite Hhl in Hr, Hhi. unfold wbits.
  assert (exists s, slice_words (Z.to_nat (nof_words (bitset_new N2 len))) 0 (lo / 64) (lo mod 64) b (bitset_new N2 len) = Some s /\ bs_size s = len /\ Z.of_nat (length (bs_buffer s)) = max_nof_words N2 /\ Forall is_u64 (bs_buffer s) /\ forall j, 0 <= j -> bit s j = (j <? nof_words (bitset_new N2 len) * 64) && bit b (lo + j)) as (s & -> & Hss & Hsl & Hsw & Hsb).
  { pose proof (bitset_new_ok N2 len HN2 ltac:(lia)) as Hnew. destruct (decide (len = 0)) as [->|Hne].
    - exists (bitset_new N2 0). split_and!; [done|done|apply Hnew|apply Hnew|]. intros j Hj. rewrite bitset_new_bit. unfold nof_words. cbn [bitset_new bs_size Z.ltb Z.compare]. rewrite (proj2 (Z.ltb_ge j _)) by lia. done.
    - assert (nof_words (bitset_new N2 len) = (len - 1) / 64 + 1) as -> by (unfold nof_words, wbits; cbn [bitset_new bs_size]; by rewrite (proj2 (Z.ltb_lt 0 _)) by lia).
      apply (slice_words_spec N N2 b lo len _ 0 (bitset_new N2 len)); [done|lia|lia|lia|lia|mlia|unfold max_nof_words, wbits; mlia|done|apply Hnew|apply Hnew|]. intros j Hj. rewrite bitset_new_bit, (proj2 (Z.ltb_ge j _)) by lia. done. }
  destruct (sanitize_spec N2 s len HN2 Hsl Hsw Hss ltac:(lia)) as (s' & -> & Hs1 & Hs2 & Hs3 & Hs4). exists s'. split; [done|]. assert (forall i, 0 <= i -> bit s' i = (i <? len) && bit b (lo + i)) as Hbits.
  { intros i Hi. rewrite Hs4, Hsb by done. rewrite (nof_words_size s len Hss), (nof_words_size (bitset_new N2 len) len eq_refl). set (nw := if 0 <? len then _ else _). assert (len <= nw * 64) by (unfold nw, wbits; destruct (0 <? len) eqn:E; breflect; mlia).
    destruct (i <? len) eqn:Ei; breflect; cbn [andb].
    - rewrite (proj2 (Z.leb_gt len i)) by lia. cbn [andb]. by rewrite (proj2 (Z.ltb_lt i _)) by lia.
    - rewrite (proj2 (Z.leb_le len i)) by lia. cbn [andb]. by destruct (i <? nw * 64). }
  split; [|done]. split; [done|done|done|lia|]. intros i Hi. rewrite Hs1 in Hi. rewrite Hbits by lia. by rewrite (proj2 (Z.ltb_ge i _)) by lia.
Qed.

(** ** Enumeration *)
Lemma nibble_filter w p n : filter (fun k => Z.testbit w (k - p) = true) (seqZ p (Z.of_nat n)) = map (fun k => p + Z.of_nat k) (filter (fun k => Z.testbit w (Z.of_nat k) = true) (seq 0 n)).
Proof.
  unfold seqZ. rewrite Nat2Z.id. induction (seq 0 n) as [|k l IH]; [done|]. rewrite fmap_cons, !filter_cons, IH. replace (Z.of_nat k + p - p) with (Z.of_nat k) by lia. destruct (decide _); [|done]. cbn [map]. f_equal. lia.
Qed.
Lemma filter_ext_in {A} (P Q : A -> Prop) `{!forall x, Decision (P x), !forall x, Decision (Q x)} (l : list A) : (forall x, x ∈ l -> P x <-> Q x) -> filter P l = filter Q l.
Proof.
  induction l as [|x l IH]; intros Hiff; [done|]. rewrite !filter_cons, IH by (intros y Hy; apply Hiff; by right). pose proof (Hiff x ltac:(by left)). destruct (decide (P x)), (decide (Q x)); tauto.
Qed.
Lemma filter_no_elem {A} (P : A -> Prop) `{!forall x, Decision (P x)} (l : list A) : (forall x, x ∈ l -> ~ P x) -> filter P l = [].
Proof. induction l as [|x l IH]; intros Hno; [done|]. rewrite filter_cons, decide_False by (apply Hno; by left). apply IH. intros y Hy. apply Hno. by right. Qed.
(** The positions of a word, four at a time. *)
Lemma nibbles_spec n : forall w p, 0 <= w < 2 ^ Z.of_nat (4 * n) -> nibbles n w p = filter (fun k => Z.testbit w (k - p) = true) (seqZ p (Z.of_nat (4 * n))).
Proof.
  induction n as [|n IH]; intros w p Hw; [done|]. cbn [nibbles]. destruct (w =? 0) eqn:E; breflect.
  - symmetry. apply filter_no_elem. intros k _. by rewrite E, Z.testbit_0_l.
  - replace (4 * S n)%nat with (4 + 4 * n)%nat in * by lia. rewrite Nat2Z.inj_add, seqZ_app, list.filter_app by lia. rewrite (nibble_filter w p 4). f_equal.
    + f_equal. apply filter_ext_in. intros k Hk. apply elem_of_seq in Hk. rewrite Z.land_spec. change 0xf with (Z.ones 4). rewrite Z.ones_spec_low by lia. by rewrite andb_true_r.
    + rewrite IH by (rewrite Z.shiftr_div_pow2 by lia; split; [apply Z.div_pos; lia|]; apply Z.div_lt_upper_bound; [lia|]; rewrite <-Z.pow_add_r by lia; lia). change (Z.of_nat 4) with 4. apply filter_ext_in. intros k Hk. apply elem_of_seqZ in Hk. rewrite Z.shiftr_spec by lia. by replace (k - (p + 4) + 4) with (k - p) by lia.
Qed.
Lemma for_each_mask_last N b hi i x : bs_ok N b -> 0 < hi -> i < (hi + 63) / 64 -> is_u64 x -> let m := if (i =? (hi + 63) / 64 - 1) && negb (hi mod 64 =? 0) then Z.land x (mask64_lsb_ones (hi mod 64)) else x in
  is_u64 m /\ forall j, 0 <= j < 64 -> Z.testbit m j = (i * 64 + j <? hi) && Z.testbit x j.
Proof.
  intros Hok Hhi Hi Hx. assert (0 <= hi mod 64 < 64) by (apply Z.mod_pos_bound; lia). destruct ((i =? (hi + 63) / 64 - 1) && negb (hi mod 64 =? 0)) eqn:E; cbv zeta.
  - apply andb_true_iff in E as [E1 E2]. apply negb_true_iff in E2. breflect. split; [by apply land_u64_l|]. intros j Hj. rewrite Z.land_spec, lsb_ones_bit, andb_comm by lia. f_equal. apply eq_true_iff_eq. rewrite !Z.ltb_lt. split; intros; mlia.
  - split; [done|]. intros j Hj. rewrite (proj2 (Z.ltb_lt _ hi)); [done|]. apply andb_false_iff in E as [E|E]; [|apply negb_false_iff in E]; breflect; mlia.
Qed.
Lemma for_each_loop_spec N b lo hi v n : forall i, bs_ok N b -> 0 <= lo < hi -> hi <= bs_size b -> lo / 64 <= i -> i + Z.of_nat n = (hi + 63) / 64 ->
  for_each_loop n i (lo / 64) ((hi + 63) / 64) lo hi v b = Some (filter (fun k => (lo <=? k) && (k <? hi) && eqb (bit b k) v = true) (seqZ (i * 64) (Z.of_nat n * 64))).
Proof.
  induction n as [|n IH]; intros i Hok Hlo Hhi Hi Hn; cbn [for_each_loop]; [done|]. pose proof (bso_size _ _ Hok). assert ((hi + 63) / 64 <= max_nof_words N) by (unfold max_nof_words, wbits; mlia). destruct (bs_word N b Hok i ltac:(mlia)) as (w & -> & Hw & Hwb). rewrite IH by (done || lia). unfold wbits.
  destruct (low_word_mask lo i _ ltac:(lia) Hi (value_word_u64 v w Hw)) as [H1 H2]. destruct (for_each_mask_last N b hi i _ Hok ltac:(lia) ltac:(lia) H1) as [H3 H4]. cbv zeta in *. set (m := if (i =? (hi + 63) / 64 - 1) && _ then _ else _) in *. f_equal.
  replace (Z.of_nat (S n) * 64) with (64 + Z.of_nat n * 64) by lia. rewrite seqZ_app, list.filter_app by lia. replace (i * 64 + 64) with ((i + 1) * 64) by lia. f_equal. rewrite nibbles_spec by exact H3. change (Z.of_nat (4 * 16)) with 64. apply filter_ext_in. intros k Hk. apply elem_of_seqZ in Hk. rewrite H4, H2, value_word_bit, Hwb by lia. replace (i * 64 + (k - i * 64)) with k by lia.
  by rewrite andb_assoc, (andb_comm (k <? hi)).
Qed.
Lemma seqZ_map a n : 0 <= n -> map (fun i => a + Z.of_nat i) (seq 0 (Z.to_nat n)) = seqZ a n.
Proof. intros Hn. unfold seqZ. apply map_ext. intros i. lia. Qed.
Lemma for_each_spec N b start stop v : bs_ok N b -> 0 <= start <= stop -> stop <= bs_size b -> bs_for_each b start stop v = Some (filter (fun k => bit b k = v) (seqZ start (stop - start))).
Proof.
  intros Hok Hs Hst. unfold bs_for_each, range_bounds. rewrite (proj2 (Z.leb_le start stop)), (proj2 (Z.leb_le stop _)) by lia. cbn [andb negb]. destruct (start =? stop) eqn:E; breflect; [subst; by rewrite Z.sub_diag|].
  assert (exists r, (if v then bs_all_range false b start stop else bs_none_range false b start stop) = Some r /\ (r = true -> forall i, start <= i < stop -> bit b i = v)) as (r & -> & Hr).
  { destruct v; [destruct (all_range_spec N false b start stop Hok Hs Hst) as (r & -> & Hr); exists r; split; [done|]; by apply Hr|]. unfold bs_none_range. destruct (any_range_spec N false b start stop Hok Hs Hst) as (r & -> & Hr). exists (negb r). split; [done|]. intros Hn i Hi. apply negb_true_iff in Hn. destruct (bit b i) eqn:Eb; [|done]. exfalso. assert (r = true) by (apply Hr; exists i; done). congruence. }
  destruct r.
  - rewrite seqZ_map by lia. f_equal. symmetry. specialize (Hr eq_refl). assert (forall l : list Z, (forall k, k ∈ l -> bit b k = v) -> filter (fun k => bit b k = v) l = l) as Hall; [|apply Hall; intros k Hk; apply elem_of_seqZ in Hk; apply Hr; lia].
    induction l as [|k l IH]; intros Hl; [done|]. rewrite filter_cons, decide_True, IH; [done|intros k' Hk'; apply Hl; by right|apply Hl; by left].
  - unfold wbits. replace (stop + 64 - 1) with (stop + 63) by lia. assert (0 <= start / 64 <= (stop + 63) / 64) as Hw by (split; mlia). rewrite (for_each_loop_spec N) by (done || lia). f_equal. rewrite Z2Nat.id by lia.
    set (a := start / 64 * 64). set (e := (stop + 63) / 64 * 64). assert (a <= start /\ stop <= e) as [Ha He] by (unfold a, e; split; mlia). replace (((stop + 63) / 64 - start / 64) * 64) with ((start - a) + ((stop - start) + (e - stop))) by (unfold a, e; lia).
    rewrite (seqZ_app a), (seqZ_app (a + (start - a))), !list.filter_app by lia. replace (a + (start - a)) with start by lia. rewrite (filter_no_elem _ (seqZ a _)), (filter_no_elem _ (seqZ (start + _) _)), app_nil_r; [cbn [app]| |].
    + apply filter_ext_in. intros k Hk. apply elem_of_seqZ in Hk. rewrite (proj2 (Z.leb_le _ _)), (proj2 (Z.ltb_lt _ _)) by lia. cbn [andb]. split; [apply eqb_prop|intros ->; apply eqb_reflx].
    + intros k Hk. apply elem_of_seqZ in Hk. rewrite (proj2 (Z.ltb_ge k stop)), andb_false_r by lia. done.
    + intros k Hk. apply elem_of_seqZ in Hk. rewrite (proj2 (Z.leb_gt start k)) by lia. done.
Qed.

(** ** The set as a list of bits *)
Definition idx (msb : bool) (b : bitset) (p : Z) : Z := if msb then bs_size b - 1 - p else p.
Definition bits (msb : bool) (b : bitset) : list bool := map (fun p => bit b (idx msb b (Z.of_nat p))) (seq 0 (Z.to_nat (bs_size b))).
Lemma bits_length msb b : length (bits msb b) = Z.to_nat (bs_size b).
Proof. unfold bits. by rewrite length_map, length_seq. Qed.
Lemma bits_lookup msb b p : bits msb b !! p = if decide (Z.of_nat p < bs_size b) then Some (bit b (idx msb b (Z.of_nat p))) else None.
Proof.
  unfold bits. rewrite list_lookup_fmap. destruct (decide _).
  - rewrite lookup_seq_lt by lia. done.
  - rewrite lookup_seq_ge by lia. done.
Qed.
Lemma bits_eq msb b (l : list bool) : Z.of_nat (length l) = bs_size b -> (forall p, Z.of_nat p < bs_size b -> l !! p = Some (bit b (idx msb b (Z.of_nat p)))) -> bits msb b = l.
Proof.
  intros Hl H. apply list_eq. intros p. rewrite bits_lookup. destruct (decide _) as [Hp|Hp]; [by rewrite H|]. symmetry. apply lookup_ge_None_2. lia.
Qed.
Lemma bits_eq_iff msb a b : bs_size a = bs_size b -> 0 <= bs_size a -> bits msb a = bits msb b <-> forall i, 0 <= i < bs_size a -> bit a i = bit b i.
Proof.
  intros Hs H0. split.
  - intros E i Hi. set (p := Z.to_nat (if msb then bs_size a - 1 - i else i)). assert (bits msb a !! p = bits msb b !! p) as Hp by (by rewrite E). rewrite !bits_lookup, !decide_True in Hp by (unfold p; destruct msb; lia). injection Hp as Hp. unfold idx, p in Hp. rewrite <-Hs in Hp. destruct msb; rewrite Z2Nat.id in Hp by lia; [replace (bs_size a - 1 - (bs_size a - 1 - i)) with i in Hp by lia|]; done.
  - intros H. unfold bits, idx. rewrite Hs. apply map_ext_in. intros p Hp. apply in_seq in Hp. apply H. destruct msb; lia.
Qed.
Lemma idx_range msb b p : 0 <= p < bs_size b -> 0 <= idx msb b p < bs_size b.
Proof. unfold idx. destruct msb; lia. Qed.
Lemma get_bitidx_idx N msb b p : bs_ok N b -> 0 <= p < bs_size b -> get_bitidx msb b p = idx msb b p.
Proof. intros Hok Hp. pose proof (bso_size _ _ Hok). pose proof (bso_N _ _ Hok). unfold get_bitidx, idx. destruct msb; [|done]. apply u64_id. unfold is_u64. lia. Qed.
(** An update of the array as an update of the list. *)
Lemma updates_bits N msb b b' f (l : list bool) : updates N b b' f -> Z.of_nat (length l) = bs_size b -> (forall p, Z.of_nat p < bs_size b -> l !! p = Some (f (idx msb b (Z.of_nat p)))) -> bits msb b' = l.
Proof.
  intros (_ & Hs & Hb) Hl H. apply bits_eq; [lia|]. intros p Hp. rewrite Hs in Hp. rewrite H by done. assert (idx msb b' (Z.of_nat p) = idx msb b (Z.of_nat p)) as -> by (unfold idx; by rewrite Hs). rewrite Hb; [done|]. destruct (idx_range msb b (Z.of_nat p) ltac:(lia)). done.
Qed.
Section Spec.
Context (N : Z) (msb : bool) (b : bitset) (Hok : bs_ok N b).
Let l := bits msb b.
Lemma spec_length : Z.of_nat (length l) = bs_size b.
Proof. pose proof (bso_size _ _ Hok). unfold l. rewrite bits_length. lia. Qed.
Lemma spec_test p : 0 <= p -> bs_test msb b p = l !! Z.to_nat p.
Proof.
  intros Hp. unfold bs_test, within_bounds, l. rewrite bits_lookup, Z2Nat.id by done. destruct (p <? bs_size b) eqn:E; breflect; [rewrite decide_True by done|by rewrite decide_False by lia].
  unfold test_. rewrite (get_bitidx_idx N) by (done || lia). destruct (set_bit_spec N b (idx msb b p) Hok (idx_range msb b p ltac:(lia))) as (w & -> & _ & _ & Ht). by rewrite Ht.
Qed.
Lemma spec_set p v : 0 <= p -> match bs_set_val msb b p v with Some b' => bs_ok N b' /\ p < bs_size b /\ bits msb b' = <[Z.to_nat p := v]> l | None => bs_size b <= p end.
Proof.
  intros Hp. unfold bs_set_val, within_bounds. destruct (p <? bs_size b) eqn:E; breflect; [|done]. destruct (set_bit_spec N b (idx msb b p) Hok (idx_range msb b p ltac:(lia))) as (w & Hw & Hset & Hreset & _).
  assert (forall b', updates N b b' (fun j => if bool_decide (j = idx msb b p) then v else bit b j) -> bs_ok N b' /\ p < bs_size b /\ bits msb b' = <[Z.to_nat p := v]> l) as H.
  { intros b' Hu. split; [apply Hu|]. split; [done|]. apply (updates_bits N msb b b' _ _ Hu); [rewrite length_insert; apply spec_length|]. intros q Hq. case_bool_decide as Hc.
    - assert (q = Z.to_nat p) as -> by (unfold idx in Hc; destruct msb; lia). apply list_lookup_insert_eq. pose proof spec_length. lia.
    - rewrite list_lookup_insert_ne by (intros <-; rewrite Z2Nat.id in Hc by lia; done). unfold l. by rewrite bits_lookup, decide_True. }
  unfold set_, reset_. rewrite (get_bitidx_idx N), Hw by (done || lia). destruct v; by apply H.
Qed.
Lemma spec_flip : exists b', bs_flip b = Some b' /\ bs_ok N b' /\ bits msb b' = map negb l.
Proof.
  destruct (flip_spec N b Hok) as (b' & -> & Hu). exists b'. split; [done|]. split; [apply Hu|]. apply (updates_bits N msb b b' _ _ Hu); [rewrite length_map; apply spec_length|]. intros p Hp. unfold l. rewrite list_lookup_fmap, bits_lookup, decide_True by done. cbn. rewrite (proj2 (Z.ltb_lt _ _)) by (destruct (idx_range msb b (Z.of_nat p) ltac:(lia)); done). done.
Qed.
Lemma spec_reset_all : bs_ok N (bs_reset_all b) /\ bits msb (bs_reset_all b) = replicate (length l) false.
Proof.
  pose proof (reset_all_spec N b Hok) as Hu. split; [apply Hu|]. apply (updates_bits N msb b _ _ _ Hu); [rewrite length_replicate; apply spec_length|]. intros p Hp. apply lookup_replicate_2. pose proof spec_length. lia.
Qed.
(** Positions of a range and bits of the array. *)
Lemma range_idx start stop p : 0 <= start <= stop -> stop <= bs_size b -> (lo_of msb b start stop <= idx msb b p < hi_of msb b start stop) <-> start <= p < stop.
Proof. intros Hs Hst. unfold lo_of, hi_of, idx. destruct msb; lia. Qed.
Lemma range_forall start stop (P : bool -> Prop) : 0 <= start <= stop -> stop <= bs_size b ->
  (forall i, lo_of msb b start stop <= i < hi_of msb b start stop -> P (bit b i)) <-> forall p x, start <= Z.of_nat p < stop -> l !! p = Some x -> P x.
Proof.
  intros Hs Hst. split.
  - intros H p x Hp Hx. unfold l in Hx. rewrite bits_lookup, decide_True in Hx by lia. injection Hx as <-. apply H. by apply range_idx.
  - intros H i Hi. set (p := idx msb b i). assert (idx msb b p = i) as Hpi by (unfold p, idx; destruct msb; lia). assert (start <= p < stop) as Hp by (apply (range_idx start stop p Hs Hst); by rewrite Hpi). apply (H (Z.to_nat p)); [lia|]. unfold l. rewrite bits_lookup, Z2Nat.id, decide_True by lia. by rewrite Hpi.
Qed.
Lemma spec_any start stop : 0 <= start <= stop -> stop <= bs_size b -> exists r, bs_any_range msb b start stop = Some r /\ (r = true <-> exists p, start <= Z.of_nat p < stop /\ l !! p = Some true).
Proof.
  intros Hs Hst. destruct (any_range_spec N msb b start stop Hok Hs Hst) as (r & -> & Hr). exists r. split; [done|]. rewrite Hr. split.
  - intros (i & Hi & Hb). set (p := idx msb b i). assert (idx msb b p = i) as Hpi by (unfold p, idx; destruct msb; lia). assert (start <= p < stop) as Hp by (apply (range_idx start stop p Hs Hst); by rewrite Hpi). exists (Z.to_nat p). split; [lia|]. unfold l. rewrite bits_lookup, Z2Nat.id, decide_True, Hpi by lia. by rewrite Hb.
  - intros (p & Hp & Hx). unfold l in Hx. rewrite bits_lookup, decide_True in Hx by lia. injection Hx as Hx. exists (idx msb b (Z.of_nat p)). split; [by apply range_idx|done].
Qed.
Lemma spec_all start stop : 0 <= start <= stop -> stop <= bs_size b -> exists r, bs_all_range msb b start stop = Some r /\ (r = true <-> forall p x, start <= Z.of_nat p < stop -> l !! p = Some x -> x = true).
Proof.
  intros Hs Hst. destruct (all_range_spec N msb b start stop Hok Hs Hst) as (r & -> & Hr). exists r. split; [done|]. rewrite Hr. apply (range_forall start stop (fun x => x = true) Hs Hst).
Qed.
Lemma spec_fill start stop v : 0 <= start <= stop -> stop <= bs_size b -> exists b', bs_fill msb b start stop v = Some b' /\ bs_ok N b' /\ bits msb b' = imap (fun p x => if (start <=? Z.of_nat p) && (Z.of_nat p <? stop) then v else x) l.
Proof.
  intros Hs Hst. destruct (fill_spec N msb b start stop v Hok Hs Hst) as (b' & -> & Hu). exists b'. split; [done|]. split; [apply Hu|]. apply (updates_bits N msb b b' _ _ Hu); [rewrite length_imap; apply spec_length|]. intros p Hp. unfold l. rewrite list_lookup_imap, bits_lookup, decide_True by done. cbn.
  assert ((lo_of msb b start stop <=? idx msb b (Z.of_nat p)) && (idx msb b (Z.of_nat p) <? hi_of msb b start stop) = ((start <=? Z.of_nat p) && (Z.of_nat p <? stop))) as ->; [|done]. apply eq_true_iff_eq. rewrite !andb_true_iff, !Z.leb_le, !Z.ltb_lt. by apply range_idx.
Qed.
Lemma spec_slice N2 start stop : 0 < N2 < 2 ^ 32 -> 0 <= start <= stop -> stop <= bs_size b -> stop - start <= N2 -> exists s, bs_slice N2 msb b start stop = Some s /\ bs_ok N2 s /\ bits msb s = take (Z.to_nat (stop - start)) (drop (Z.to_nat start) l).
Proof.
  intros HN Hs Hst Hfit. destruct (slice_spec N N2 msb b start stop Hok HN Hs Hst Hfit) as (s & -> & Hoks & Hsz & Hb). exists s. split; [done|]. split; [done|]. pose proof spec_length as Hl. apply bits_eq; [rewrite length_take, length_drop; lia|]. intros p Hp. rewrite Hsz in Hp. rewrite lookup_take, decide_True, lookup_drop by lia. unfold l. rewrite bits_lookup, decide_True by lia. f_equal.
  assert (0 <= idx msb s (Z.of_nat p) < stop - start) as Hi by (rewrite <-Hsz; apply idx_range; lia). rewrite Hb by lia. rewrite (proj2 (Z.ltb_lt _ _)) by lia. cbn [andb]. f_equal. unfold lo_of, idx. rewrite Hsz. destruct msb; lia.
Qed.
End Spec.
