(* ===== verification/BitsetRefine.v ===== *)
(** * bounded_bitset: results

    The set refines a list of bits in both orders; where an operation does not, theorems exhibit what it does. *)
From S2P Require Import Prelude Bits BoundedBitset BitsetThms BitsetSearch BitsetSpec.

(** ** Counts *)
Definition ones (l : list bool) : Z := Z.of_nat (length (filter (fun x => x = true) l)).
Lemma total_ones f n : total f n = ones (map f (seq 0 n)).
Proof. unfold total, ones. induction (seq 0 n) as [|x l IH]; [done|]. cbn [foldr map]. rewrite IH, filter_cons. destruct (f x); cbn [Z.b2z]; [rewrite decide_True by done; cbn [length]; lia|by rewrite decide_False]. Qed.
Lemma bits_reverse N b : bs_ok N b -> bits true b = reverse (bits false b).
Proof.
  intros Hok. pose proof (bso_size _ _ Hok) as Hs. apply bits_eq; [rewrite length_reverse, bits_length; lia|]. intros p Hp. rewrite reverse_lookup by (rewrite bits_length; lia). rewrite bits_length, bits_lookup, decide_True by lia. unfold idx. do 2 f_equal. lia.
Qed.
Lemma spec_count N msb b : bs_ok N b -> bs_count b = ones (bits msb b).
Proof.
  intros Hok. rewrite (count_spec N b Hok), total_ones. change (map _ _) with (bits false b). destruct msb; [|done]. rewrite (bits_reverse N b Hok). unfold ones. by rewrite filter_reverse, length_reverse.
Qed.
Lemma total_S f n : total f (S n) = total f n + Z.b2z (f n).
Proof. replace (S n) with (n + 1)%nat by lia. rewrite total_add. unfold total at 2. cbn [seq foldr]. rewrite Nat.add_0_r. lia. Qed.
Lemma total_le f n : 0 <= total f n <= Z.of_nat n.
Proof. induction n as [|n IH]; [done|]. rewrite total_S. destruct (f n); cbn [Z.b2z]; lia. Qed.
Lemma total_full f n : total f n = Z.of_nat n <-> forall i, (i < n)%nat -> f i = true.
Proof.
  induction n as [|n IH]; [split; [intros _ i Hi; lia|done]|]. rewrite total_S. pose proof (total_le f n) as Hle. split.
  - intros H i Hi. destruct (f n) eqn:E; cbn [Z.b2z] in H; [|lia]. destruct (decide (i = n)) as [->|]; [done|]. apply IH; lia.
  - intros H. rewrite (H n) by lia. cbn [Z.b2z]. rewrite (proj2 IH); [lia|]. intros i Hi. apply H. lia.
Qed.
Lemma total_negb f n : total (fun i => negb (f i)) n = Z.of_nat n - total f n.
Proof. induction n as [|n IH]; [done|]. rewrite !total_S, IH. destruct (f n); cbn [Z.b2z negb]; lia. Qed.

(** ** Searches *)
Definition lowest_pos (l : list bool) (start stop : Z) (v : bool) (r : Z) : Prop :=
  (r = -1 /\ forall p, start <= Z.of_nat p < stop -> l !! p <> Some v) \/ (start <= r < stop /\ l !! Z.to_nat r = Some v /\ forall p, start <= Z.of_nat p < r -> l !! p <> Some v).
Definition highest_pos (l : list bool) (start stop : Z) (v : bool) (r : Z) : Prop :=
  (r = -1 /\ forall p, start <= Z.of_nat p < stop -> l !! p <> Some v) \/ (start <= r < stop /\ l !! Z.to_nat r = Some v /\ forall p, r < Z.of_nat p < stop -> l !! p <> Some v).
Lemma bits_at N msb b p : bs_ok N b -> 0 <= p < bs_size b -> bits msb b !! Z.to_nat p = Some (bit b (idx msb b p)).
Proof. intros Hok Hp. by rewrite bits_lookup, Z2Nat.id, decide_True by lia. Qed.
Lemma bits_not N msb b p v : bs_ok N b -> Z.of_nat p < bs_size b -> bit b (idx msb b (Z.of_nat p)) <> v -> bits msb b !! p <> Some v.
Proof. intros Hok Hp Hn. rewrite bits_lookup, decide_True by done. congruence. Qed.
(** The order of the array, and the reversed order. *)
Lemma lowest_lsb N b start stop v r : bs_ok N b -> 0 <= start -> stop <= bs_size b -> lowest b start stop v r -> lowest_pos (bits false b) start stop v r.
Proof.
  intros Hok Hs Hst [[-> H]|(Hr & Hb & H)]; [left|right; split; [done|]; split; [rewrite (bits_at N) by (done || lia); by f_equal|]]; [split; [done|]|]; intros p Hp; (apply (bits_not N); [done|lia|]); apply H; cbn; lia.
Qed.
Lemma highest_lsb N b start stop v r : bs_ok N b -> 0 <= start -> stop <= bs_size b -> highest b start stop v r -> highest_pos (bits false b) start stop v r.
Proof.
  intros Hok Hs Hst [[-> H]|(Hr & Hb & H)]; [left|right; split; [done|]; split; [rewrite (bits_at N) by (done || lia); by f_equal|]]; [split; [done|]|]; intros p Hp; (apply (bits_not N); [done|lia|]); apply H; cbn; lia.
Qed.
Lemma highest_msb N b start stop v r : bs_ok N b -> 0 <= start -> stop <= bs_size b -> highest b (bs_size b - stop) (bs_size b - start) v r -> lowest_pos (bits true b) start stop v (if r =? -1 then -1 else bs_size b - 1 - r).
Proof.
  intros Hok Hs Hst [[-> H]|(Hr & Hb & H)]; [rewrite Z.eqb_refl; left; split; [done|]|rewrite (proj2 (Z.eqb_neq r (-1))) by lia; right; split; [lia|]; split; [rewrite (bits_at N) by (done || lia); f_equal; unfold idx; rewrite <-Hb; f_equal; lia|]];
    intros p Hp; (apply (bits_not N); [done|lia|]); apply H; unfold idx; lia.
Qed.
Lemma lowest_msb N b v r : bs_ok N b -> lowest b 0 (bs_size b) v r -> highest_pos (bits true b) 0 (bs_size b) v (if r =? -1 then -1 else bs_size b - 1 - r).
Proof.
  intros Hok [[-> H]|(Hr & Hb & H)]; [rewrite Z.eqb_refl; left; split; [done|]|rewrite (proj2 (Z.eqb_neq r (-1))) by lia; right; split; [lia|]; split; [rewrite (bits_at N) by (done || lia); f_equal; unfold idx; rewrite <-Hb; f_equal; lia|]];
    intros p Hp; (apply (bits_not N); [done|lia|]); apply H; unfold idx; lia.
Qed.
Lemma in_range_bounds b start stop : start <= stop -> stop <= bs_size b -> range_bounds b start stop = true.
Proof. intros H1 H2. unfold range_bounds. by rewrite (proj2 (Z.leb_le start stop)), (proj2 (Z.leb_le stop _)). Qed.
Lemma spec_find_lowest N msb b start stop v : bs_ok N b -> 0 <= start <= stop -> stop <= bs_size b -> exists r, find_lowest msb b start stop v = Some r /\ lowest_pos (bits msb b) start stop v r.
Proof.
  intros Hok Hs Hst. unfold find_lowest. rewrite in_range_bounds by lia. cbn [negb]. destruct (start =? stop) eqn:E; breflect; [exists (-1); split; [done|]; left; split; [done|]; lia|]. destruct msb; cbn [negb].
  - destruct (find_first_reversed_spec N b start stop v Hok ltac:(lia) Hst) as (r & -> & Hr). eexists. split; [done|]. apply (highest_msb N); [done|lia|done|done].
  - destruct (find_first_spec N b Hok start stop ltac:(lia) Hst v) as (r & -> & Hr). exists r. split; [done|]. apply (lowest_lsb N); [done|lia|done|done].
Qed.
Lemma spec_find_highest N b start stop v : bs_ok N b -> 0 <= start < stop -> stop <= bs_size b -> exists r, find_highest false b start stop v = Some r /\ highest_pos (bits false b) start stop v r.
Proof.
  intros Hok Hs Hst. unfold find_highest. rewrite in_range_bounds by lia. cbn [negb]. destruct (find_last_spec N b Hok start stop ltac:(lia) Hst v) as (r & -> & Hr). exists r. split; [done|]. apply (highest_lsb N); [done|lia|done|done].
Qed.
Lemma spec_find_highest_msb N b v : bs_ok N b -> 0 < bs_size b -> exists r, find_highest true b 0 (bs_size b) v = Some r /\ highest_pos (bits true b) 0 (bs_size b) v r.
Proof.
  intros Hok Hs. unfold find_highest. rewrite in_range_bounds by lia. cbn [negb]. destruct (find_first_spec N b Hok 0 (bs_size b) ltac:(lia) ltac:(lia) v) as (r & -> & Hr). eexists. split; [done|]. pose proof (lowest_msb N b v r Hok Hr) as H. destruct (r =? -1) eqn:E; breflect; [subst; done|done].
Qed.
(** The search of an empty range at the end of the set. *)
Lemma find_last_empty N b v : bs_ok N b -> 0 < bs_size b -> find_last_ false b (bs_size b) (bs_size b) v = Some (-1).
Proof.
  intros Hok Hs. pose proof (bso_size _ _ Hok) as Hsz. pose proof (bso_N _ _ Hok) as HN. unfold find_last_, wbits. rewrite (u64_id (bs_size b - 1)) by (unfold is_u64; lia). cbn [find_last_loop]. rewrite (u64_id (bs_size b - 1)) by (unfold is_u64; lia). set (s := bs_size b) in *.
  assert ((s - 1) / 64 < max_nof_words N) as Hw by (unfold max_nof_words, wbits; mlia). assert (max_nof_words N < 2 ^ 32) by (unfold max_nof_words, wbits; mlia). destruct (decide (s mod 64 = 0)) as [Hm|Hm].
  - rewrite u64_id by (unfold is_u64; mlia). rewrite (proj2 (Z.eqb_eq ((s - 1) / 64) _)) by mlia. done.
  - assert (s / 64 = (s - 1) / 64) as -> by mlia. assert (((s - 1) / 64 =? u64 ((s - 1) / 64 - 1)) = false) as ->.
    { apply Z.eqb_neq. destruct (decide ((s - 1) / 64 = 0)) as [->|]; [done|]. rewrite u64_id by (unfold is_u64; mlia). lia. }
    destruct (bs_word N b Hok ((s - 1) / 64) ltac:(mlia)) as (w & -> & Hwu & _). rewrite Z.eqb_refl. unfold wbits. replace ((s - 1) mod 64 + 1) with (s mod 64) by mlia. assert (0 < s mod 64 < 64) by mlia.
    assert ((Z.land (Z.land (value_word v w) (mask64_lsb_zeros (s mod 64))) (mask64_lsb_ones (s mod 64)) =? 0) = true) as ->.
    { apply word_zero; [apply land_u64_l, land_u64_l, value_word_u64, Hwu|]. intros i Hi. rewrite !Z.land_spec, lsb_zeros_bit, lsb_ones_bit by lia. destruct (s mod 64 <=? i) eqn:E1, (i <? s mod 64) eqn:E2; breflect; rewrite ?andb_false_r; done || lia. }
    cbn [negb find_last_loop]. by rewrite Z.eqb_refl.
Qed.
(** The ones, or the zeros, have no gap. *)
Definition contiguous (l : list bool) (v : bool) : Prop := forall i j k, (i < j < k)%nat -> l !! i = Some v -> l !! k = Some v -> l !! j = Some v.
Lemma at_iff N b i v : bs_ok N b -> (Z.of_nat i < bs_size b) -> bits false b !! i = Some v <-> eqb (bit b (Z.of_nat i)) v = true.
Proof. intros Hok Hi. rewrite bits_lookup, decide_True by done. unfold idx. rewrite eqb_true_iff. split; [by intros [= ->]|by intros ->]. Qed.
Lemma value_count N b (v : bool) : bs_ok N b -> (if v then bs_count b else bs_size b - bs_count b) = total (fun i => eqb (bit b (Z.of_nat i)) v) (Z.to_nat (bs_size b)).
Proof.
  intros Hok. pose proof (bso_size _ _ Hok). rewrite (count_spec N b Hok). destruct v; [apply total_ext; intros i _; by destruct (bit b (Z.of_nat i))|]. symmetry. rewrite (total_ext _ (fun i => negb (bit b (Z.of_nat i)))) by (intros i _; by destruct (bit b (Z.of_nat i))). rewrite total_negb. lia.
Qed.
(** The count is that of a range outside which there is no value. *)
Lemma total_range f n s m : (s + m <= n)%nat -> (forall i, (i < n)%nat -> (i < s \/ s + m <= i)%nat -> f i = false) -> total f n = total (fun i => f (s + i)%nat) m.
Proof.
  intros Hn Hf. replace n with (s + (m + (n - s - m)))%nat by lia. rewrite !total_add. rewrite (total_ext f (fun _ => false) s), (total_ext (fun i => f (s + (m + i))%nat) (fun _ => false)), !total_false by (intros i Hi; apply Hf; lia). lia.
Qed.
Lemma spec_contiguous N b v : bs_ok N b -> exists r, is_contiguous false b v = Some r /\ (r = true <-> contiguous (bits false b) v).
Proof.
  intros Hok. pose proof (bso_size _ _ Hok) as Hsz. unfold is_contiguous. destruct (spec_find_lowest N false b 0 (bs_size b) v Hok ltac:(lia) ltac:(lia)) as (s & -> & Hs).
  assert (forall i, bits false b !! i = Some v -> Z.of_nat i < bs_size b) as Hin by (intros i Hi; apply lookup_lt_Some in Hi; rewrite bits_length in Hi; lia). destruct Hs as [[-> Hno]|(Hr & Hv & Hlow)].
  { exists true. split; [done|]. split; [|done]. intros _ i j k _ Hi. destruct (Hno i); [specialize (Hin i Hi); lia|done]. }
  rewrite (proj2 (Z.eqb_neq s (-1))) by lia. assert (forall i, bits false b !! i = Some v -> s <= Z.of_nat i) as Hge by (intros i Hi; destruct (decide (s <= Z.of_nat i)); [done|]; destruct (Hlow i); [lia|done]).
  assert (exists e, find_highest false b (s + 1) (bs_size b) v = Some e /\ highest_pos (bits false b) (s + 1) (bs_size b) v e) as (e & -> & He).
  { destruct (decide (s + 1 < bs_size b)); [by apply (spec_find_highest N); [|lia|]|]. exists (-1). assert (s + 1 = bs_size b) as -> by lia. unfold find_highest. rewrite in_range_bounds by lia. cbn [negb]. rewrite (find_last_empty N) by (done || lia). split; [done|]. left. split; [done|]. lia. }
  destruct He as [[-> Hno]|(Hre & Hve & Hhigh)].
  { exists true. split; [done|]. split; [|done]. intros _ i j k Hijk Hi Hk. destruct (Hno k); [|done]. specialize (Hge i Hi). specialize (Hin k Hk). lia. }
  rewrite (proj2 (Z.eqb_neq e (-1))) by lia. eexists. split; [done|]. assert (forall i, bits false b !! i = Some v -> Z.of_nat i <= e) as Hle by (intros i Hi; destruct (decide (Z.of_nat i <= e)); [done|]; destruct (Hhigh i); [specialize (Hin i Hi); lia|done]).
  rewrite (value_count N b v Hok), Z.eqb_eq, (total_range _ _ (Z.to_nat s) (Z.to_nat (e + 1 - s))); [|lia|].
  2: { intros i Hi Hout. destruct (eqb _ _) eqn:E; [|done]. apply (at_iff N) in E; [|done|lia]. specialize (Hge i E). specialize (Hle i E). lia. }
  replace (e + 1 - s) with (Z.of_nat (Z.to_nat (e + 1 - s))) at 2 by lia. rewrite total_full. split.
  - intros Hall i j k Hijk Hi Hk. specialize (Hge i Hi). specialize (Hle k Hk). apply (at_iff N); [done|lia|]. specialize (Hall (j - Z.to_nat s)%nat ltac:(lia)). by replace (Z.to_nat s + (j - Z.to_nat s))%nat with j in Hall by lia.
  - intros Hc i Hi. apply (at_iff N); [done|lia|]. destruct (decide (i = 0)%nat) as [->|]; [by rewrite Nat.add_0_r|]. destruct (decide (Z.to_nat s + i = Z.to_nat e)%nat) as [->|]; [done|]. apply (Hc (Z.to_nat s) _ (Z.to_nat e)); [lia|done|done].
Qed.

(** ** Growth *)
Lemma spec_resize N b n : bs_ok N b -> 0 <= n -> match bs_resize N b n with Some b' => n <= N /\ bs_ok N b' /\ bits false b' = resize (Z.to_nat n) false (bits false b) | None => N < n end.
Proof.
  intros Hok Hn. pose proof (bso_size _ _ Hok). pose proof (resize_spec N b n Hok Hn) as H'. destruct (n <=? N) eqn:E; breflect; [|by rewrite H']. destruct H' as (b' & -> & Hok' & Hs & Hb). split; [done|]. split; [done|]. apply bits_eq; [rewrite length_resize; lia|]. intros p Hp. rewrite Hs in Hp. unfold idx. rewrite Hb, (proj2 (Z.ltb_lt _ n)) by lia. cbn [andb].
  destruct (decide (Z.of_nat p < bs_size b)).
  - rewrite lookup_resize by (rewrite ?bits_length; lia). rewrite bits_lookup, decide_True by done. done.
  - rewrite lookup_resize_new by (rewrite ?bits_length; lia). f_equal. symmetry. apply (bso_clean _ _ Hok). lia.
Qed.
Lemma spec_push_back N b v : bs_ok N b -> match bs_push_back N false b v with Some b' => bs_ok N b' /\ bits false b' = bits false b ++ [v] | None => bs_size b = N end.
Proof.
  intros Hok. pose proof (bso_size _ _ Hok) as Hs. unfold bs_push_back. pose proof (spec_resize N b (bs_size b + 1) Hok ltac:(lia)) as H'. destruct (bs_resize N b (bs_size b + 1)) as [b1|] eqn:E; [|lia]. destruct H' as (_ & Hok1 & Hb1). assert (bs_size b1 = bs_size b + 1) as Hs1.
  { apply (f_equal length) in Hb1. rewrite length_resize, bits_length in Hb1. pose proof (bso_size _ _ Hok1). lia. }
  pose proof (spec_set N false b1 Hok1 (bs_size b) v ltac:(lia)) as H2. destruct (bs_set_val false b1 (bs_size b) v) as [b2|]; [|lia]. destruct H2 as (Hok2 & _ & Hb2). split; [done|]. rewrite Hb2, Hb1. replace (Z.to_nat (bs_size b + 1)) with (length (bits false b) + 1)%nat by (rewrite bits_length; lia).
  rewrite resize_add, resize_all, (drop_ge (bits false b)) by lia. rewrite (insert_app_r_alt (bits false b)) by (rewrite bits_length; lia). rewrite bits_length, Nat.sub_diag. done.
Qed.
(** The constructor from a list, in both orders. *)
Lemma assign_spec N msb values : forall n b, bs_ok N b -> 0 <= n -> n + Z.of_nat (length values) = bs_size b -> exists b', assign_from msb n values b = Some b' /\ bs_ok N b' /\ bits msb b' = take (Z.to_nat n) (bits msb b) ++ values.
Proof.
  induction values as [|v values IH]; intros n b Hok Hn Hl; cbn [assign_from length] in *; [exists b; split; [done|]; split; [done|]; rewrite take_ge by (rewrite bits_length; lia); by rewrite app_nil_r|].
  pose proof (spec_set N msb b Hok n v Hn) as H'. unfold bs_set_val, within_bounds in H'. rewrite (proj2 (Z.ltb_lt n _)) in H' by lia. destruct (if v then set_ msb b n else reset_ msb b n) as [b1|] eqn:E; [|lia]. destruct H' as (Hok1 & _ & Hb1).
  assert (bs_size b1 = bs_size b) as Hs1 by (apply (f_equal length) in Hb1; rewrite length_insert, !bits_length in Hb1; pose proof (bso_size _ _ Hok1); pose proof (bso_size _ _ Hok); lia). destruct (IH (n + 1) b1 Hok1 ltac:(lia) ltac:(lia)) as (b' & Hb' & Hok' & Hbits). exists b'. split; [done|]. split; [done|]. rewrite Hbits, Hb1.
  replace (Z.to_nat (n + 1)) with (S (Z.to_nat n)) by lia. rewrite (take_S_r _ _ v) by (apply list_lookup_insert_eq; rewrite bits_length; lia). rewrite take_insert_ge by lia. by rewrite <-app_assoc.
Qed.
Lemma spec_of_list N msb values : 0 < N < 2 ^ 32 -> match bs_of_list N msb values with Some b => bs_ok N b /\ bits msb b = values | None => N < Z.of_nat (length values) end.
Proof.
  intros HN. unfold bs_of_list. pose proof (bitset_new_ok N 0 HN ltac:(lia)) as Hnew. pose proof (resize_spec N _ (Z.of_nat (length values)) Hnew ltac:(lia)) as H'. destruct (Z.of_nat (length values) <=? N) eqn:E; breflect; [|by rewrite H'].
  destruct H' as (b & -> & Hok & Hs & _). destruct (assign_spec N msb values 0 b Hok ltac:(lia) ltac:(lia)) as (b' & -> & Hok' & Hb). done.
Qed.

(** ** Operations of two sets *)
Lemma zip_bits N msb a b f g : bs_ok N a -> bs_ok N b -> bs_size b = bs_size a -> updates N a (zip_words f a b) (fun i => g (bit a i) (bit b i)) -> bits msb (zip_words f a b) = zip_with g (bits msb a) (bits msb b).
Proof.
  intros Ha Hb Hs Hu. pose proof (bso_size _ _ Ha). apply (updates_bits N msb a _ _ _ Hu); [rewrite length_zip_with, !bits_length; lia|]. intros p Hp. rewrite lookup_zip_with, !bits_lookup, !decide_True by lia. cbn. unfold idx. by rewrite Hs.
Qed.
Lemma spec_or N msb a b : bs_ok N a -> bs_ok N b -> match bs_or a b with Some c => bs_ok N c /\ bits msb c = zip_with orb (bits msb a) (bits msb b) | None => bs_size b <> bs_size a end.
Proof.
  intros Ha Hb. unfold bs_or. destruct (bs_size b =? bs_size a) eqn:E; breflect; [|done]. pose proof (zip_words_spec N Z.lor orb a b Ha Hb E lor_u64 ltac:(intros; apply Z.lor_spec) eq_refl) as Hu. split; [apply Hu|]. by apply (zip_bits N).
Qed.
Lemma spec_and N msb a b : bs_ok N a -> bs_ok N b -> match bs_and a b with Some c => bs_ok N c /\ bits msb c = zip_with andb (bits msb a) (bits msb b) | None => bs_size b <> bs_size a end.
Proof.
  intros Ha Hb. unfold bs_and. destruct (bs_size b =? bs_size a) eqn:E; breflect; [|done]. pose proof (zip_words_spec N Z.land andb a b Ha Hb E ltac:(intros; by apply land_u64_l) ltac:(intros; apply Z.land_spec) eq_refl) as Hu. split; [apply Hu|]. by apply (zip_bits N).
Qed.
Lemma spec_eqb N msb a b : bs_ok N a -> bs_ok N b -> bs_eqb a b = true <-> bits msb a = bits msb b.
Proof.
  intros Ha Hb. pose proof (bso_size _ _ Ha). pose proof (bso_size _ _ Hb). rewrite (eqb_spec N a b Ha Hb). split; [intros [Hs Hi]; apply bits_eq_iff; [done|lia|done]|]. intros E. assert (bs_size a = bs_size b) as Hs by (apply (f_equal length) in E; rewrite !bits_length in E; lia). split; [done|]. by apply (bits_eq_iff msb); [|lia|].
Qed.
Lemma spec_any_all N msb b : bs_ok N b -> (bs_any b = true <-> true ∈ bits msb b) /\ exists r, bs_all b = Some r /\ (r = true <-> Forall (fun x => x = true) (bits msb b)).
Proof.
  intros Hok. pose proof (bso_size _ _ Hok) as Hs. assert (forall i, 0 <= i < bs_size b -> exists p, bits msb b !! p = Some (bit b i)) as Hin.
  { intros i Hi. exists (Z.to_nat (idx msb b i)). pose proof (idx_range msb b i Hi). rewrite (bits_at N) by (done || lia). f_equal. f_equal. unfold idx. destruct msb; lia. }
  assert (forall p x, bits msb b !! p = Some x -> exists i, 0 <= i < bs_size b /\ x = bit b i) as Hout.
  { intros p x. rewrite bits_lookup. destruct (decide _); [|done]. intros [= <-]. exists (idx msb b (Z.of_nat p)). split; [apply idx_range; lia|done]. }
  split.
  - rewrite (any_spec N b Hok), list_elem_of_lookup. split; [intros (i & Hi & <-); apply Hin; done|]. intros (p & Hp). apply Hout in Hp as (i & Hi & E). eauto.
  - destruct (all_spec N b Hok) as (r & -> & Hr). exists r. split; [done|]. rewrite Hr, Forall_lookup. split; [intros Hall p x Hp; apply Hout in Hp as (i & Hi & ->); by apply Hall|]. intros Hall i Hi. destruct (Hin i Hi) as [p Hp]. by apply (Hall p).
Qed.

(** ** Refinement *)
(** What the set promises as a list of bits, for positions of a range in the set. *)
Record refines_bits (N : Z) (msb : bool) (b : bitset) (l : list bool) : Prop := {
  rb_size : bs_size b = Z.of_nat (length l);
  rb_test : forall p, 0 <= p -> bs_test msb b p = l !! Z.to_nat p;
  rb_set : forall p v, 0 <= p -> match bs_set_val msb b p v with Some b' => bs_ok N b' /\ p < bs_size b /\ bits msb b' = <[Z.to_nat p := v]> l | None => bs_size b <= p end;
  rb_flip : exists b', bs_flip b = Some b' /\ bs_ok N b' /\ bits msb b' = map negb l;
  rb_reset : bs_ok N (bs_reset_all b) /\ bits msb (bs_reset_all b) = replicate (length l) false;
  rb_fill : forall start stop v, 0 <= start <= stop -> stop <= bs_size b -> exists b', bs_fill msb b start stop v = Some b' /\ bs_ok N b' /\ bits msb b' = imap (fun p x => if (start <=? Z.of_nat p) && (Z.of_nat p <? stop) then v else x) l;
  rb_any_range : forall start stop, 0 <= start <= stop -> stop <= bs_size b -> exists r, bs_any_range msb b start stop = Some r /\ (r = true <-> exists p, start <= Z.of_nat p < stop /\ l !! p = Some true);
  rb_all_range : forall start stop, 0 <= start <= stop -> stop <= bs_size b -> exists r, bs_all_range msb b start stop = Some r /\ (r = true <-> forall p x, start <= Z.of_nat p < stop -> l !! p = Some x -> x = true);
  rb_any_all : (bs_any b = true <-> true ∈ l) /\ exists r, bs_all b = Some r /\ (r = true <-> Forall (fun x => x = true) l);
  rb_count : bs_count b = ones l;
  rb_or : forall c, bs_ok N c -> match bs_or b c with Some d => bs_ok N d /\ bits msb d = zip_with orb l (bits msb c) | None => bs_size c <> bs_size b end;
  rb_and : forall c, bs_ok N c -> match bs_and b c with Some d => bs_ok N d /\ bits msb d = zip_with andb l (bits msb c) | None => bs_size c <> bs_size b end;
  rb_eq : forall c, bs_ok N c -> bs_eqb b c = true <-> l = bits msb c;
  rb_slice : forall N2 start stop, 0 < N2 < 2 ^ 32 -> 0 <= start <= stop -> stop <= bs_size b -> stop - start <= N2 -> exists s, bs_slice N2 msb b start stop = Some s /\ bs_ok N2 s /\ bits msb s = take (Z.to_nat (stop - start)) (drop (Z.to_nat start) l);
  rb_lowest : forall start stop v, 0 <= start <= stop -> stop <= bs_size b -> exists r, find_lowest msb b start stop v = Some r /\ lowest_pos l start stop v r;
  rb_highest : forall start stop v, msb = false \/ start = 0 /\ stop = bs_size b -> 0 <= start < stop -> stop <= bs_size b -> exists r, find_highest msb b start stop v = Some r /\ highest_pos l start stop v r;
  rb_contiguous : msb = false -> forall v, exists r, is_contiguous msb b v = Some r /\ (r = true <-> contiguous l v);
  rb_for_each : msb = false -> forall start stop v, 0 <= start <= stop -> stop <= bs_size b -> bs_for_each b start stop v = Some (filter (fun k => l !! Z.to_nat k = Some v) (seqZ start (stop - start)));
  rb_resize : msb = false -> forall n, 0 <= n -> match bs_resize N b n with Some b' => n <= N /\ bs_ok N b' /\ bits msb b' = resize (Z.to_nat n) false l | None => N < n end;
  rb_push_back : msb = false -> forall v, match bs_push_back N msb b v with Some b' => bs_ok N b' /\ bits msb b' = l ++ [v] | None => bs_size b = N end;
}.
(** The last word of an empty range at 0 is the word of the position 2^64 - 1. *)
Lemma find_highest_empty : find_highest false (bitset_new 64 0) 0 0 true = None.
Proof.
  unfold find_highest, range_bounds. cbn [bitset_new bs_size Z.leb Z.compare andb negb]. unfold find_last_. set (last := u64 (0 - 1) / wbits). assert (last = 2 ^ 58 - 1) as Hl by (vm_compute; reflexivity). cbn [find_last_loop]. assert ((last =? u64 (0 / wbits - 1)) = false) as -> by (apply Z.eqb_neq; rewrite Hl; vm_compute; done).
  unfold word. rewrite lookup_ge_None_2; [done|]. cbn [bitset_new bs_buffer]. rewrite length_replicate. change (Z.to_nat (max_nof_words 64)) with 1%nat. lia.
Qed.
(** Where the set is not a list of bits: with the most significant bit first, [push_back] overwrites the last bit and shifts the others, a search for the highest
    position in a part of the set searches another part, and contiguous ones are reported as not contiguous; a set of 64 bits is packed to nothing; the
    Kronecker product with a set smaller than its bound places the copies apart; a mask of 32 bits or more cannot be stored; and the highest bit of
    an empty set is read outside the array. *)
Theorem bitset_divergences :
  (exists b b', bs_of_list 8 true [true] = Some b /\ bs_push_back 8 true b false = Some b' /\ bits true b' = [false; false]) /\
  (exists b, bs_of_list 8 true [false; true; true; false] = Some b /\ find_highest true b 2 4 true = Some 1 /\ is_contiguous true b true = Some false /\ contiguous (bits true b) true) /\
  (exists b, bs_of_list 64 false (replicate 64 true) = Some b /\ to_packed_bits 8 false b = Some []) /\
  (exists b other r, bs_of_list 2 false [true; true] = Some b /\ bs_of_list 4 false [true; true] = Some other /\ kronecker_product 2 4 b other = Some r /\ bits false r = [true; true; false; false]) /\
  (exists b, bs_of_list 64 false (replicate 32 false) = Some b /\ from_uint64 b 1 = None) /\
  (exists b, bs_of_list 64 false [] = Some b /\ find_highest false b 0 0 true = None).
Proof.
  split; [exists (Bitset [1] 1), (Bitset [0] 2); split; [|split]; vm_compute; reflexivity|]. split.
  { eexists. split; [vm_compute; reflexivity|]. split; [vm_compute; reflexivity|]. split; [vm_compute; reflexivity|]. intros i j k Hijk Hi Hk. destruct i as [|[|[|[|i]]]]; try (vm_compute in Hi; done); destruct k as [|[|[|[|k]]]]; try (vm_compute in Hk; done); destruct j as [|[|[|j]]]; try lia; vm_compute; done. }
  split; [exists (Bitset [2 ^ 64 - 1] 64); split; vm_compute; reflexivity|]. split; [exists (Bitset [3] 2), (Bitset [3] 2), (Bitset [51] 4); split; [|split; [|split]]; vm_compute; reflexivity|]. split; [exists (Bitset [0] 32); split; vm_compute; reflexivity|]. exists (bitset_new 64 0). split; [reflexivity|apply find_highest_empty].
Qed.

(** * Operations built from the others

    Unpacking, reversal, appending an integer and folding, as functions of the list of bits. *)
Lemma test_at N msb b p x : bs_ok N b -> bits msb b !! p = Some x -> bs_test msb b (Z.of_nat p) = Some x.
Proof. intros Hok Hp. rewrite (spec_test N msb b Hok) by lia. by rewrite Nat2Z.id. Qed.
Lemma new_bits N msb s : 0 < N < 2 ^ 32 -> 0 <= s <= N -> bits msb (bitset_new N s) = replicate (Z.to_nat s) false.
Proof.
  intros HN Hs. apply bits_eq; [rewrite length_replicate; cbn; lia|]. intros p Hp. cbn [bitset_new bs_size] in Hp. rewrite lookup_replicate_2 by lia. f_equal. symmetry. apply bitset_new_bit.
Qed.
(** A position of the list is set. *)
Lemma set_at N msb b p v : bs_ok N b -> (p < length (bits msb b))%nat -> exists b', bs_set_val msb b (Z.of_nat p) v = Some b' /\ bs_ok N b' /\ bs_size b' = bs_size b /\ bits msb b' = <[p := v]> (bits msb b).
Proof.
  intros Hok Hp. pose proof (spec_length N msb b Hok) as Hlen. pose proof (spec_set N msb b Hok (Z.of_nat p) v ltac:(lia)) as H. destruct (bs_set_val _ _ _ _) as [b'|]; [|lia]. destruct H as (Hok' & _ & Hb). rewrite Nat2Z.id in Hb. exists b'. split; [done|]. split; [done|]. split; [|done].
  pose proof (spec_length N msb b' Hok') as Hlen'. rewrite Hb, length_insert in Hlen'. lia.
Qed.

(** ** Unpacking *)
Lemma unpacked_loop N msb b n : forall i, bs_ok N b -> (i + n)%nat = length (bits msb b) -> to_unpacked_bits msb n (Z.of_nat i) b = Some (drop i (bits msb b)).
Proof.
  induction n as [|n IH]; intros i Hok Hi; cbn [to_unpacked_bits]; [rewrite drop_ge by lia; done|]. destruct (lookup_lt_is_Some_2 (bits msb b) i) as [x Hx]; [lia|]. rewrite (test_at N msb b i x Hok Hx). replace (Z.of_nat i + 1) with (Z.of_nat (S i)) by lia. rewrite IH by (done || lia). by rewrite (drop_S _ _ _ Hx).
Qed.

(** ** Reversal *)
Lemma fliplr_step (l : list bool) (i n : nat) (x : bool) : l !! i = Some x -> (i + S n)%nat = length l ->
  (if x then <[n := true]> (replicate (S n) false ++ reverse (take i l)) else replicate (S n) false ++ reverse (take i l)) = replicate n false ++ reverse (take (S i) l).
Proof.
  intros Hx Hn. rewrite (take_S_r _ _ _ Hx), reverse_snoc, replicate_S_end, <-app_assoc. cbn [app]. destruct x; [|done]. rewrite insert_app_r_alt by (rewrite length_replicate; lia). by rewrite length_replicate, Nat.sub_diag.
Qed.
Lemma fliplr_loop_spec N msb other n : forall i ret, bs_ok N other -> bs_ok N ret -> bs_size ret = bs_size other -> (i + n)%nat = length (bits msb other) -> bits msb ret = replicate n false ++ reverse (take i (bits msb other)) ->
  exists r, fliplr_loop msb n (Z.of_nat i) other ret = Some r /\ bs_ok N r /\ bits msb r = reverse (bits msb other).
Proof.
  induction n as [|n IH]; intros i ret Ho Hr Hs Hi Hb; cbn [fliplr_loop].
  - exists ret. split; [done|]. split; [done|]. rewrite Hb, take_ge by lia. done.
  - destruct (lookup_lt_is_Some_2 (bits msb other) i) as [x Hx]; [lia|]. rewrite (test_at N msb other i x Ho Hx). pose proof (spec_length N msb other Ho) as Hlen. pose proof (spec_length N msb ret Hr) as Hlr. replace (Z.of_nat i + 1) with (Z.of_nat (S i)) by lia. pose proof (fliplr_step _ i n x Hx Hi) as Hstep. destruct x.
    + replace (bs_size ret - 1 - Z.of_nat i) with (Z.of_nat n) by lia. change (bs_set msb ret (Z.of_nat n)) with (bs_set_val msb ret (Z.of_nat n) true). destruct (set_at N msb ret n true Hr ltac:(lia)) as (r & -> & Hr' & Hs' & Hb'). apply IH; [done|done|congruence|lia|]. by rewrite Hb', Hb.
    + apply IH; [done|done|done|lia|]. by rewrite Hb.
Qed.

(** ** Appending an integer *)
Definition msb_first (val : Z) (n : nat) : list bool := map (fun k => Z.testbit val (Z.of_nat (n - 1 - k))) (seq 0 n).
Lemma msb_first_S val n : msb_first val (S n) = Z.testbit val (Z.of_nat n) :: msb_first val n.
Proof. unfold msb_first. cbn [seq map]. f_equal; [f_equal; lia|]. rewrite <-seq_shift, map_map. apply map_ext_in. intros k Hk. apply in_seq in Hk. do 2 f_equal. lia. Qed.
Lemma one_bit val s : 0 <= s -> negb (Z.land (Z.shiftr val s) 1 =? 0) = Z.testbit val s.
Proof. intros Hs. change 1 with (Z.ones 1). rewrite Z.land_ones, Z.pow_1_r, <-(Z.bit0_mod (Z.shiftr val s)), Z.shiftr_spec by lia. rewrite Z.add_0_l. by destruct (Z.testbit val s). Qed.
Lemma push_bits_spec N b0 val bitpos total n : forall k b pre, bs_ok N b -> bits false b = pre ++ replicate n false -> Z.of_nat (length pre) = bitpos + k -> bs_size b = b0 -> k + Z.of_nat n = total ->
  exists b', push_bits false n k bitpos val total b = Some b' /\ bs_ok N b' /\ bits false b' = pre ++ msb_first val n.
Proof.
  induction n as [|n IH]; intros k b pre Hok Hb Hp Hs Ht; cbn [push_bits]; [by exists b|]. rewrite one_bit by lia. replace (total - 1 - k) with (Z.of_nat n) by lia. rewrite <-Hp. destruct (set_at N false b (length pre) (Z.testbit val (Z.of_nat n)) Hok) as (b' & -> & Hok' & Hs' & Hb'); [rewrite Hb, length_app, length_replicate; lia|].
  destruct (IH (k + 1) b' (pre ++ [Z.testbit val (Z.of_nat n)])) as (r & Hr & Hrok & Hrb); [done| |rewrite length_app; cbn; lia|congruence|lia|].
  - rewrite Hb', Hb, insert_app_r_alt, Nat.sub_diag, <-app_assoc by lia. done.
  - rewrite Hr. exists r. split; [done|]. split; [done|]. rewrite Hrb, msb_first_S, <-app_assoc. done.
Qed.

(** ** Folding *)
Definition folds (l : list bool) (len off k : nat) (idxs : list nat) (acc : list bool) : list bool := foldl (fun acc i => zip_with orb acc (take k (drop (i * len + off) l))) acc idxs.
Lemma fold_loop_spec N N2 msb other len off k m : forall fuel i ret, bs_ok N other -> bs_ok N2 ret -> (0 < len)%nat -> (off + k <= len)%nat -> bs_size ret = Z.of_nat k -> ((i + m) * len)%nat = length (bits msb other) -> (m < fuel)%nat ->
  exists r, fold_loop N2 msb fuel (Z.of_nat (i * len)) (Z.of_nat len) (Z.of_nat off) (Z.of_nat k) other ret = Some r /\ bs_ok N2 r /\ bits msb r = folds (bits msb other) len off k (seq i m) (bits msb ret).
Proof.
  induction m as [|m IH]; intros fuel i ret Ho Hr Hl Hk Hs Hi Hf; (destruct fuel as [|fuel]; [lia|]); cbn [fold_loop]; pose proof (spec_length N msb other Ho) as Hlen.
  - rewrite (proj2 (Z.eqb_eq _ _)) by (rewrite <-Hlen, <-Hi; f_equal; lia). by exists ret.
  - rewrite (proj2 (Z.eqb_neq _ _)) by nia. destruct (spec_slice N msb other Ho N2 (Z.of_nat (i * len) + Z.of_nat off) (Z.of_nat (i * len) + Z.of_nat off + Z.of_nat k)) as (s & -> & Hsok & Hsb); [apply Hr|lia|nia|pose proof (bso_size _ _ Hr); lia|].
    replace (Z.to_nat (Z.of_nat (i * len) + Z.of_nat off)) with (i * len + off)%nat in Hsb by lia. replace (Z.to_nat _) with k in Hsb by lia. pose proof (spec_or N2 msb ret s Hr Hsok) as Hor. assert (bs_size s = Z.of_nat k) as Hss by (pose proof (spec_length N2 msb s Hsok) as E; rewrite Hsb, length_take, length_drop in E; nia).
    destruct (bs_or ret s) as [c|]; [|congruence]. destruct Hor as [Hc Hcb]. assert (bs_size c = Z.of_nat k) as Hcs by (pose proof (spec_length N2 msb c Hc) as E; rewrite Hcb, length_zip_with, !bits_length in E; lia).
    replace (Z.of_nat (i * len) + Z.of_nat len) with (Z.of_nat (S i * len)) by lia. destruct (IH fuel (S i) c Ho Hc Hl Hk Hcs ltac:(lia) ltac:(lia)) as (r & -> & Hrok & Hrb). exists r. split; [done|]. split; [done|]. rewrite Hrb, Hcb, Hsb. done.
Qed.

Lemma spec_fold N N2 msb b len off k : bs_ok N b -> 0 < N2 < 2 ^ 32 -> (0 < len)%nat -> (off + k <= len)%nat -> Z.of_nat k <= N2 ->
  match fold_and_accumulate N2 msb b (Z.of_nat len) (Z.of_nat off) (Z.of_nat k) with
  | Some r => bs_ok N2 r /\ exists m, (m * len)%nat = length (bits msb b) /\ bits msb r = folds (bits msb b) len off k (seq 0 m) (replicate k false)
  | None => bs_size b mod Z.of_nat len <> 0
  end.
Proof.
  intros Hok HN2 Hl Hk Hfit. pose proof (bso_size _ _ Hok) as Hs. pose proof (spec_length N msb b Hok) as Hlen. unfold fold_and_accumulate. destruct (bs_size b mod Z.of_nat len =? 0) eqn:E; breflect; cbn [negb]; [|done]. set (m := Z.to_nat (bs_size b / Z.of_nat len)). assert ((m * len)%nat = length (bits msb b)) as Hm by (unfold m; mlia).
  destruct (fold_loop_spec N N2 msb b len off k m (S (Z.to_nat (bs_size b))) 0 (bitset_new N2 (Z.of_nat k))) as (r & Hr & Hrok & Hrb); [done|by apply bitset_new_ok; [|lia]|done|done|done|done|nia|]. cbn [Nat.mul] in Hr. change (Z.of_nat 0) with 0 in Hr. rewrite Hr. split; [done|]. exists m. split; [done|]. rewrite Hrb, new_bits by (done || lia). by rewrite Nat2Z.id.
Qed.
(** A position of the folded list is one when it is one in a part. *)
Lemma folds_spec (l : list bool) len off k idxs : forall acc, length acc = k -> (forall i, i ∈ idxs -> (i * len + off + k <= length l)%nat) ->
  length (folds l len off k idxs acc) = k /\ forall j, (j < k)%nat -> folds l len off k idxs acc !! j = Some true <-> acc !! j = Some true \/ exists i, i ∈ idxs /\ l !! (i * len + off + j)%nat = Some true.
Proof.
  induction idxs as [|i idxs IH]; intros acc Ha Hi; [split; [done|]; intros j Hj; split; [by left|]; intros [H|(i & H & _)]; [done|by apply elem_of_nil in H]|].
  pose proof (Hi i ltac:(by left)) as Hfit. set (acc' := zip_with orb acc (take k (drop (i * len + off) l))). assert (length acc' = k) as Ha' by (unfold acc'; rewrite length_zip_with, length_take, length_drop; lia). destruct (IH acc' Ha' ltac:(intros; apply Hi; by right)) as [Hlen Hlk]. change (folds l len off k (i :: idxs) acc) with (folds l len off k idxs acc'). split; [done|]. intros j Hj. rewrite (Hlk j Hj).
  assert (acc' !! j = Some true <-> acc !! j = Some true \/ l !! (i * len + off + j)%nat = Some true) as ->.
  { unfold acc'. destruct (lookup_lt_is_Some_2 acc j) as [x Hx]; [lia|]. destruct (lookup_lt_is_Some_2 l (i * len + off + j)) as [y Hy]; [lia|]. rewrite lookup_zip_with, Hx, lookup_take_lt, lookup_drop, Hy by lia. cbn. destruct x, y; cbn; intuition congruence. }
  setoid_rewrite elem_of_cons. split.
  - intros [[H|H]|(i' & H1 & H2)]; [by left|right; exists i; tauto|right; exists i'; tauto].
  - intros [H|(i' & [->|H1] & H2)]; [tauto|tauto|right; exists i'; tauto].
Qed.

(** The operations built from the others: unpacking gives the list of the bits; the reversal of a set has the reversed list; an appended integer of n bits is
    its n low bits with the most significant one first, unless the capacity is exceeded; and folding ors the slices of the parts of the list. *)
Theorem bitset_derived_operations N msb b : bs_ok N b ->
  to_unpacked_bits msb (Z.to_nat (bs_size b)) 0 b = Some (bits msb b) /\
  (exists r, fliplr N msb b = Some r /\ bs_ok N r /\ bits msb r = reverse (bits msb b)) /\
  (forall val n, bs_size b + Z.of_nat n <= N -> exists r, bs_push_back_bits N false b val (Z.of_nat n) = Some r /\ bs_ok N r /\ bits false r = bits false b ++ msb_first val n) /\
  (forall val n, N < bs_size b + Z.of_nat n -> bs_push_back_bits N false b val (Z.of_nat n) = None) /\
  (forall N2 len off k, 0 < N2 < 2 ^ 32 -> (0 < len)%nat -> (off + k <= len)%nat -> Z.of_nat k <= N2 ->
    match fold_and_accumulate N2 msb b (Z.of_nat len) (Z.of_nat off) (Z.of_nat k) with
    | Some r => bs_ok N2 r /\ exists m, (m * len)%nat = length (bits msb b) /\ bits msb r = folds (bits msb b) len off k (seq 0 m) (replicate k false)
    | None => bs_size b mod Z.of_nat len <> 0
    end).
Proof.
  intros Hok. pose proof (bso_N _ _ Hok) as HN. pose proof (bso_size _ _ Hok) as Hs. pose proof (spec_length N false b Hok) as Hlf. pose proof (spec_length N msb b Hok) as Hlen. split_and!.
  - apply (unpacked_loop N msb b _ 0); [done|]. rewrite bits_length. lia.
  - unfold fliplr. apply (fliplr_loop_spec N msb b _ 0); [done|by apply bitset_new_ok|done|rewrite bits_length; lia|]. rewrite new_bits by (done || lia). cbn [take]. by rewrite app_nil_r.
  - intros val n Hn. unfold bs_push_back_bits. pose proof (spec_resize N b (bs_size b + Z.of_nat n) Hok ltac:(lia)) as Hr. destruct (bs_resize _ _ _) as [b'|]; [|lia]. destruct Hr as (_ & Hok' & Hb'). rewrite Nat2Z.id. apply (push_bits_spec N (bs_size b')); [done| |lia|done|lia]. rewrite Hb', resize_ge by lia. do 2 f_equal. lia.
  - intros val n Hn. unfold bs_push_back_bits. pose proof (spec_resize N b (bs_size b + Z.of_nat n) Hok ltac:(lia)) as Hr. destruct (bs_resize _ _ _) as [b'|]; [lia|done].
  - intros N2 len off k. by apply (spec_fold N).
Qed.
Lemma bitset_derived_operations_witness : exists r, fliplr 70 true (Bitset [5; 0] 4) = Some r /\ bits true r = [true; false; true; false].
Proof.
  assert (bs_ok 70 (Bitset [5; 0] 4)) as Hok.
  { split; [lia|done|cbn [bs_buffer]; repeat (constructor; [unfold is_u64; lia|]); constructor|cbn; lia|]. intros i Hi. cbn [bs_size] in Hi. unfold bit, wbits. cbn [bs_buffer]. destruct (decide (i / 64 = 0)) as [E|E].
    - rewrite E. cbn [Z.to_nat nth]. apply (testbit_high 5 3); [lia|mlia].
    - destruct (Z.to_nat (i / 64)) as [|[|q]] eqn:Eq; [mlia|apply Z.bits_0|]. destruct q; apply Z.bits_0. }
  destruct (bitset_derived_operations 70 true _ Hok) as (_ & (r & Hr & _ & Hb) & _). exists r. split; [exact Hr|rewrite Hb; vm_compute; reflexivity].
Defined.
