(* ===== verification/RbInterval.v ===== *)
(** * Intervals of symbols and resource blocks

    The half-open intervals of include/srsran/adt/interval.h over 32-bit unsigned integers, used for OFDM symbols and for resource blocks numbered from
    point A (CRB), from the start of a bandwidth part (PRB) and in the order of the transmission (VRB), and the conversions between them
    (include/srsran/ran/resource_allocation/rb_interval.h, lib/scheduler/support/bwp_helpers.h and rb_helper.h); and the search for
    free blocks (lib/scheduler/support/rb_helper.cpp).  [None] is a failed assertion. *)
From S2P Require Import Prelude Bits BoundedBitset BitsetThms BitsetSearch BitsetSpec BitsetRefine.

Record interval := Interval { iv_start : Z; iv_stop : Z }.
#[export] Instance interval_eq_dec : EqDecision interval.
Proof. solve_decision. Defined.

Definition iv_default : interval := Interval 0 0.
Definition iv_make (start stop : Z) : option interval := if start <=? stop then Some (Interval start stop) else None.
Definition iv_empty (i : interval) : bool := iv_stop i =? iv_start i.
Definition iv_length (i : interval) : Z := u32 (iv_stop i - iv_start i).
Definition iv_set (start stop : Z) : option interval := if start <=? stop then Some (Interval start stop) else None.
Definition iv_extend (i : interval) (increment : Z) : interval := Interval (iv_start i) (u32 (iv_stop i + increment)).
Definition iv_resize (i : interval) (length : Z) : interval := Interval (iv_start i) (u32 (iv_start i + length)).
Definition iv_displace_by (i : interval) (offset : Z) : option interval :=
  if - offset <=? iv_start i then Some (Interval (u32 (iv_start i + offset)) (u32 (iv_stop i + offset))) else None.
Definition iv_displace_to (i : interval) (start : Z) : interval := Interval start (u32 (start + iv_length i)).
Definition iv_overlaps (a b : interval) : bool := (iv_start a <? iv_stop b) && (iv_start b <? iv_stop a).
Definition iv_contains_point (i : interval) (p : Z) : bool := (iv_start i <=? p) && (p <? iv_stop i).
Definition iv_contains (a b : interval) : bool := (iv_start a <=? iv_start b) && (iv_stop b <=? iv_stop a).
Definition iv_intersect (a b : interval) : interval :=
  if negb (iv_overlaps a b) then iv_default else Interval (Z.max (iv_start a) (iv_start b)) (Z.min (iv_stop a) (iv_stop b)).
Definition iv_union (a b : interval) : option interval :=
  if negb (iv_overlaps a b) then Some iv_default else iv_make (Z.min (iv_start a) (iv_start b)) (Z.max (iv_stop a) (iv_stop b)).
Definition iv_ltb (a b : interval) : bool := (iv_start a <? iv_start b) || ((iv_start a =? iv_start b) && (iv_stop a <? iv_stop b)).

(** ** Conversions *)
Definition crb_to_prb_point (bwp : interval) (crb : Z) : option Z :=
  if iv_contains_point bwp crb || (crb =? iv_stop bwp) then Some (u32 (crb - iv_start bwp)) else None.
Definition crb_to_prb (bwp crbs : interval) : option interval :=
  let* s := crb_to_prb_point bwp (iv_start crbs) in let* e := crb_to_prb_point bwp (iv_stop crbs) in iv_make s e.
Definition prb_to_crb_point (bwp : interval) (prb : Z) : option Z := if prb <=? iv_length bwp then Some (u32 (prb + iv_start bwp)) else None.
Definition prb_to_crb (bwp prbs : interval) : option interval :=
  let* s := prb_to_crb_point bwp (iv_start prbs) in let* e := prb_to_crb_point bwp (iv_stop prbs) in iv_make s e.
Definition crb_to_vrb_f1_0_common_ss (crbs : interval) (coreset_crb_start : Z) : option interval :=
  if coreset_crb_start <=? iv_start crbs then iv_make (u32 (iv_start crbs - coreset_crb_start)) (u32 (iv_stop crbs - coreset_crb_start)) else None.
Definition crb_to_vrb_dl (crbs : interval) (bwp_crb_start coreset_crb_start : Z) (f1_0 common_ss : bool) : option interval :=
  if f1_0 && common_ss then crb_to_vrb_f1_0_common_ss crbs coreset_crb_start
  else iv_make (u32 (iv_start crbs - bwp_crb_start)) (u32 (iv_stop crbs - bwp_crb_start)).
Definition crb_to_vrb_ul (crbs : interval) (bwp_crb_start : Z) : option interval :=
  if bwp_crb_start <=? iv_start crbs then iv_make (u32 (iv_start crbs - bwp_crb_start)) (u32 (iv_stop crbs - bwp_crb_start)) else None.
Definition vrb_to_crb_ul (vrbs : interval) (bwp_crb_start : Z) : option interval :=
  iv_make (u32 (iv_start vrbs + bwp_crb_start)) (u32 (iv_stop vrbs + bwp_crb_start)).

(** ** Laws *)
Definition iv_ok (i : interval) : Prop := 0 <= iv_start i <= iv_stop i /\ iv_stop i < 2 ^ 31.
(** The points of an interval. *)
Definition iv_in (p : Z) (i : interval) : Prop := iv_start i <= p < iv_stop i.
Lemma iv_length_ok i : iv_ok i -> iv_length i = iv_stop i - iv_start i.
Proof. intros [Hs He]. apply u32_id. unfold is_u32. lia. Qed.
Lemma iv_displace_ok i k : iv_ok i -> 0 <= k <= iv_start i -> iv_displace_by i (- k) = Some (Interval (iv_start i - k) (iv_stop i - k)).
Proof. intros [Hs He] Hk. unfold iv_displace_by. rewrite (proj2 (Z.leb_le _ _)) by lia. rewrite !u32_id by (unfold is_u32; lia). do 2 f_equal; lia. Qed.
Lemma iv_make_ok s e : s <= e -> iv_make s e = Some (Interval s e).
Proof. intros H. unfold iv_make. by rewrite (proj2 (Z.leb_le s e)). Qed.

(** Intervals are sets of points: the intersection and, of overlapping intervals, the union have the points they should, and the conversions of the resource blocks
    of a bandwidth part from its own numbering to that of the carrier, and of the uplink to the order of transmission, are inverse. *)
Theorem interval_laws a b : iv_ok a -> iv_ok b ->
  (forall p, iv_in p (iv_intersect a b) <-> iv_in p a /\ iv_in p b) /\
  (iv_overlaps a b = true -> exists u, iv_union a b = Some u /\ forall p, iv_in p u <-> iv_in p a \/ iv_in p b) /\
  (iv_contains a b = true -> exists prbs, crb_to_prb a b = Some prbs /\ iv_length prbs = iv_length b /\ prb_to_crb a prbs = Some b /\ crb_to_vrb_ul b (iv_start a) = Some prbs /\ vrb_to_crb_ul prbs (iv_start a) = Some b).
Proof.
  intros [Ha1 Ha2] [Hb1 Hb2]. split_and!.
  - intros p. unfold iv_intersect, iv_overlaps, iv_in. destruct (_ <? _) eqn:E1; destruct (iv_start b <? iv_stop a) eqn:E2; breflect; cbn [andb negb iv_default iv_start iv_stop]; lia.
  - unfold iv_overlaps, iv_union. intros Ho. unfold iv_overlaps. rewrite Ho. cbn [negb]. apply andb_true_iff in Ho as [H1 H2]. breflect. rewrite iv_make_ok by lia. eexists. split; [done|]. intros p. unfold iv_in. cbn [iv_start iv_stop]. lia.
  - unfold iv_contains. intros Hc. apply andb_true_iff in Hc as [H1 H2]. breflect. set (s := iv_start b - iv_start a). set (e := iv_stop b - iv_start a).
    assert (forall c, iv_start a <= c <= iv_stop a -> crb_to_prb_point a c = Some (c - iv_start a)) as Hp.
    { intros c Hcr. unfold crb_to_prb_point, iv_contains_point. rewrite (proj2 (Z.leb_le _ _)) by lia. rewrite u32_id by (unfold is_u32; lia). destruct (c <? iv_stop a) eqn:E; breflect; cbn [andb orb]; [done|]. by rewrite (proj2 (Z.eqb_eq c _)) by lia. }
    assert (forall p, 0 <= p <= iv_stop a - iv_start a -> prb_to_crb_point a p = Some (p + iv_start a)) as Hq.
    { intros p Hpr. unfold prb_to_crb_point. rewrite iv_length_ok by done. rewrite (proj2 (Z.leb_le _ _)) by lia. by rewrite u32_id by (unfold is_u32; lia). }
    exists (Interval s e). unfold crb_to_prb, prb_to_crb, crb_to_vrb_ul, vrb_to_crb_ul. cbn [iv_start iv_stop]. rewrite !Hp, !Hq by lia. rewrite (proj2 (Z.leb_le (iv_start a) _)) by lia. rewrite !u32_id by (unfold is_u32; lia). fold s e. rewrite !iv_make_ok by lia. split; [done|].
    split; [rewrite !iv_length_ok by (done || (split; cbn; lia)); cbn; lia|]. assert (Interval (s + iv_start a) (e + iv_start a) = b) as -> by (destruct b; unfold s, e; cbn; f_equal; lia). done.
Qed.
Lemma interval_laws_witness : exists prbs, crb_to_prb (Interval 10 60) (Interval 20 30) = Some prbs /\ prb_to_crb (Interval 10 60) prbs = Some (Interval 20 30).
Proof.
  destruct (interval_laws (Interval 10 60) (Interval 20 30) ltac:(split; cbn; lia) ltac:(split; cbn; lia)) as (_ & _ & H). destruct (H eq_refl) as (prbs & H1 & _ & H2 & _). exists prbs. split; [exact H1|exact H2].
Defined.

(** * Search for free resource blocks

    The searches of lib/scheduler/support/rb_helper.cpp in a bitmap whose ones are the resource blocks in use. *)
Definition find_next_empty_interval (used : bitset) (start_crb_idx last_crb_idx : Z) : option interval :=
  let stop := Z.min (bs_size used) last_crb_idx in
  let* rb_start := find_lowest true used start_crb_idx stop false in
  if negb (rb_start =? -1)
  then let* rb_end := find_lowest true used (rb_start + 1) stop true in iv_make rb_start (if rb_end <? 0 then bs_size used else rb_end)
  else Some iv_default.
Fixpoint find_empty_loop (fuel : nat) (used : bitset) (nof_rbs start_crb_idx : Z) (max_interv : interval) : option interval :=
  match fuel with
  | O => None
  | S fuel =>
      let* interv := find_next_empty_interval used start_crb_idx (bs_size used) in
      if iv_empty interv then Some max_interv
      else if nof_rbs <=? iv_length interv then iv_set (iv_start interv) (u32 (iv_start interv + nof_rbs))
      else
        let max_interv := if iv_length max_interv <? iv_length interv then interv else max_interv in
        let start_crb_idx := u32 (iv_stop interv + 1) in
        if start_crb_idx <? bs_size used then find_empty_loop fuel used nof_rbs start_crb_idx max_interv else Some max_interv
  end.
Definition find_empty_interval_of_length (used : bitset) (nof_rbs start_crb_idx : Z) : option interval :=
  find_empty_loop (S (Z.to_nat (bs_size used))) used nof_rbs start_crb_idx iv_default.

(** ** Results *)
(** The positions from [s] to [e] are free. *)
Definition free (l : list bool) (s e : Z) : Prop := forall p, s <= p < e -> l !! Z.to_nat p = Some false.
Lemma free_sub l s e s' e' : free l s e -> s <= s' -> e' <= e -> free l s' e'.
Proof. intros H Hs He p Hp. apply H. lia. Qed.
Lemma not_free_at l p : l !! Z.to_nat p = Some true -> forall s e, free l s e -> s <= p -> e <= p.
Proof. intros Hp s e H Hs. destruct (decide (e <= p)); [done|]. rewrite H in Hp by lia. done. Qed.

Section Search.
Context (N : Z) (b : bitset) (Hok : bs_ok N b) (HN : N < 2 ^ 31).
Local Notation l := (bits true b).
Local Notation size := (bs_size b).
Lemma size_bound : 0 <= size < 2 ^ 31.
Proof using Hok HN. pose proof (bso_size _ _ Hok). lia. Qed.
Lemma bit_some p : 0 <= p < size -> exists x, l !! Z.to_nat p = Some x.
Proof using Hok. intros Hp. apply lookup_lt_is_Some_2. rewrite bits_length. lia. Qed.
Lemma in_l p x : 0 <= p -> l !! Z.to_nat p = Some x -> p < size.
Proof using Hok. intros Hp H. apply lookup_lt_Some in H. rewrite bits_length in H. pose proof (bso_size _ _ Hok). lia. Qed.
(** The next maximal free run at or after a position, or no free position. *)
Lemma next_empty start : 0 <= start <= size ->
  (find_next_empty_interval b start size = Some iv_default /\ forall p, start <= p < size -> l !! Z.to_nat p = Some true) \/
  (exists s e, find_next_empty_interval b start size = Some (Interval s e) /\ start <= s < e /\ e <= size /\ free l s e /\ (forall p, start <= p < s -> l !! Z.to_nat p = Some true) /\ (e = size \/ l !! Z.to_nat e = Some true)).
Proof using Hok.
  intros Hs. unfold find_next_empty_interval. rewrite Z.min_id. destruct (spec_find_lowest N true b start size false Hok Hs ltac:(lia)) as (r & -> & Hr).
  assert (forall p (v : bool), start <= p < size -> l !! Z.to_nat p <> Some v -> l !! Z.to_nat p = Some (negb v)) as Hneg by (intros p v Hp Hn; destruct (bit_some p ltac:(lia)) as [x Hx]; rewrite Hx in Hn |- *; destruct x, v; cbn; congruence).
  destruct Hr as [[-> Hno]|(Hr & Hrf & Hno)]; [left; split; [done|]; intros p Hp; apply (Hneg p false Hp), (Hno (Z.to_nat p)); lia|]. right. rewrite (proj2 (Z.eqb_neq r (-1))) by lia. cbn [negb].
  destruct (spec_find_lowest N true b (r + 1) size true Hok ltac:(lia) ltac:(lia)) as (e & -> & He). assert (forall p, start <= p < r -> l !! Z.to_nat p = Some true) as Hbefore by (intros p Hp; apply (Hneg p false ltac:(lia)), (Hno (Z.to_nat p)); lia).
  assert (forall e', r + 1 <= e' <= size -> (forall p, r + 1 <= Z.of_nat p < e' -> l !! p <> Some true) -> free l r e') as Hfree.
  { intros e' He' Hn p Hp. destruct (decide (p = r)) as [->|]; [done|]. apply (Hneg p true ltac:(lia)), (Hn (Z.to_nat p)). lia. }
  destruct He as [[-> Hne]|(He & Het & Hne)].
  - cbn [Z.ltb Z.compare]. exists r, size. rewrite iv_make_ok by lia. split_and!; [done|lia|lia|lia|by apply Hfree; [lia|]|done|by left].
  - rewrite (proj2 (Z.ltb_ge e 0)) by lia. exists r, e. rewrite iv_make_ok by lia. split_and!; [done|lia|lia|lia|by apply Hfree; [lia|]|done|by right].
Qed.
(** What a search from [start0] promises. *)
Definition best (start0 n : Z) (r : interval) : Prop :=
  0 <= iv_start r <= iv_stop r /\ iv_stop r <= size /\ iv_length r = iv_stop r - iv_start r /\ iv_length r <= n /\ (0 < iv_length r -> start0 <= iv_start r) /\ free l (iv_start r) (iv_stop r) /\
  (forall s e, start0 <= s <= e -> free l s e -> Z.min n (e - s) <= iv_length r) /\ (forall s, iv_length r = n -> start0 <= s -> free l s (s + n) -> iv_start r <= s).
Lemma find_empty_loop_spec start0 n fuel : forall cur max, 0 < n < 2 ^ 31 -> 0 <= start0 <= cur -> cur <= size -> size - cur < Z.of_nat fuel ->
  0 <= iv_start max <= iv_stop max -> iv_stop max <= size -> iv_length max < n -> (0 < iv_length max -> start0 <= iv_start max) -> free l (iv_start max) (iv_stop max) ->
  (forall s e, start0 <= s < cur -> s <= e -> free l s e -> e - s <= iv_length max) ->
  exists r, find_empty_loop fuel b n cur max = Some r /\ best start0 n r.
Proof using Hok HN.
  pose proof size_bound as Hsz. induction fuel as [|fuel IH]; intros cur max Hn H0 Hc Hf Hm1 Hm2 Hm3 Hm4 Hm5 Hinv; [lia|]. cbn [find_empty_loop]. assert (iv_length max = iv_stop max - iv_start max) as Hlm by (apply iv_length_ok; split; lia).
  assert ((forall s e, start0 <= s <= e -> free l s e -> e - s <= iv_length max) -> best start0 n max) as Hend by (intros H; split_and!; try done; try lia; intros s e Hs Hfr; pose proof (H s e Hs Hfr); lia).
  destruct (next_empty cur ltac:(lia)) as [[-> Hnone]|(s & e & -> & Hse & He & Hfr & Hbefore & Hedge)].
  - cbn [iv_empty iv_default iv_stop iv_start Z.eqb]. exists max. split; [done|]. apply Hend. intros s e Hs Hfr. destruct (decide (s < cur)); [apply Hinv; (done || lia)|]. destruct (decide (e <= s)); [lia|]. pose proof (in_l s false ltac:(lia) (Hfr s ltac:(lia))). pose proof (Hnone s ltac:(lia)) as E. rewrite Hfr in E by lia. done.
  - assert (iv_length (Interval s e) = e - s) as Hl by (apply iv_length_ok; split; cbn; lia). unfold iv_empty. cbn [iv_start iv_stop]. rewrite Hl, (proj2 (Z.eqb_neq e s)) by lia.
    assert (forall s' e', start0 <= s' <= e' -> free l s' e' -> s' < s -> e' - s' <= iv_length max) as Hearly.
    { intros s' e' Hs' Hfr' Hlt. destruct (decide (s' < cur)); [apply Hinv; (done || lia)|]. pose proof (not_free_at l s' (Hbefore s' ltac:(lia)) s' e' Hfr' ltac:(lia)). lia. }
    destruct (n <=? e - s) eqn:En; breflect.
    + rewrite u32_id by (unfold is_u32; lia). unfold iv_set. rewrite (proj2 (Z.leb_le _ _)) by lia. eexists. split; [done|]. assert (iv_length (Interval s (s + n)) = n) as Hl' by (rewrite iv_length_ok by (split; cbn; lia); cbn; lia). unfold best. rewrite Hl'. cbn [iv_start iv_stop]. split_and!; try lia.
      * apply (free_sub _ _ _ _ _ Hfr); lia.
      * intros s' _ Hs' Hfr'. destruct (decide (s <= s')); [done|]. pose proof (Hearly s' (s' + n) ltac:(lia) Hfr' ltac:(lia)). lia.
    + cbv zeta. set (max' := if iv_length max <? e - s then _ else _).
      assert (iv_length max <= iv_length max' /\ e - s <= iv_length max' /\ 0 <= iv_start max' <= iv_stop max' /\ iv_stop max' <= size /\ iv_length max' < n /\ (0 < iv_length max' -> start0 <= iv_start max') /\ free l (iv_start max') (iv_stop max')) as (G1 & G2 & G3 & G4 & G5 & G6 & G7).
      { unfold max'. destruct (iv_length max <? e - s) eqn:E; breflect; [rewrite Hl; cbn [iv_start iv_stop]|]; split_and!; (lia || done). }
      rewrite u32_id by (unfold is_u32; lia). assert (forall s' e', start0 <= s' < e + 1 -> s' <= e' -> free l s' e' -> e' - s' <= iv_length max') as Hinv'.
      { intros s' e' Hs' Hle Hfr'. destruct (decide (s' < s)); [pose proof (Hearly s' e' ltac:(lia) Hfr' ltac:(lia)); lia|]. assert (e' <= e \/ e' <= s') as [|] by (destruct Hedge as [->|Hedge]; [destruct (decide (e' <= s')); [by right|left]; pose proof (in_l (e' - 1) false ltac:(lia) (Hfr' (e' - 1) ltac:(lia))); lia|left; apply (not_free_at l e Hedge s' e' Hfr'); lia]); lia. }
      destruct (e + 1 <? size) eqn:Ee; breflect; [apply IH; (done || lia)|]. exists max'. split; [done|]. assert (iv_length max' = iv_stop max' - iv_start max') as Hlm' by (apply iv_length_ok; split; lia). split_and!; try done; try lia. intros s' e' Hs' Hfr'. destruct (decide (s' < e + 1)); [pose proof (Hinv' s' e' ltac:(lia) ltac:(lia) Hfr'); lia|].
      destruct (decide (e' <= s')); [lia|]. pose proof (in_l s' false ltac:(lia) (Hfr' s' ltac:(lia))). lia.
Qed.
End Search.
(** The search for free resource blocks returns for every bitmap: the blocks it returns are free, at or after the start of the search, and at most as many as asked for; if
    there is a free run that long the result is the first one, and otherwise no free run is longer than the result. *)
Theorem find_empty_best N b n start : bs_ok N b -> N < 2 ^ 31 -> 0 < n < 2 ^ 31 -> 0 <= start <= bs_size b -> exists r, find_empty_interval_of_length b n start = Some r /\ best b start n r.
Proof.
  intros Hok HN Hn Hs. unfold find_empty_interval_of_length. apply (find_empty_loop_spec N b Hok HN); cbn [iv_default iv_start iv_stop]; change (iv_length iv_default) with 0; try lia. intros p Hp. lia.
Qed.
(** The last index that is documented to limit the search does not limit the interval that is found. *)
Theorem find_next_exceeds_limit : exists b, bs_of_list 275 true [true; false; false; false] = Some b /\ find_next_empty_interval b 0 3 = Some (Interval 1 4).
Proof. eexists. split; [vm_compute; reflexivity|]. vm_compute. reflexivity. Qed.
