(* ===== verification/Tdd.v ===== *)
(** * TDD pattern

    The downlink and uplink symbols of a slot (lib/ran/tdd_ul_dl_config.cpp) and the lists that the configuration of a cell caches of them
    (lib/scheduler/cell/cell_configuration.cpp and .h).  [None] is a failed assertion, an access to an absent pattern or a division by zero. *)
From S2P Require Import Prelude SlotPoint RbInterval.

Definition NOF_OFDM_SYM_PER_SLOT_NORMAL_CP : Z := 14.
Definition NOF_OFDM_SYM_PER_SLOT_EXTENDED_CP : Z := 12.
Record tdd_ul_dl_pattern := TddPattern { dl_ul_tx_period_nof_slots : Z; nof_dl_slots : Z; nof_dl_symbols : Z; nof_ul_slots : Z; nof_ul_symbols : Z }.
Record tdd_ul_dl_config_common := TddConfig { ref_scs : Z; pattern1 : tdd_ul_dl_pattern; pattern2 : option tdd_ul_dl_pattern }.
Definition nof_slots_per_tdd_period (cfg : tdd_ul_dl_config_common) : Z :=
  u32 (dl_ul_tx_period_nof_slots (pattern1 cfg) + match pattern2 cfg with Some p => dl_ul_tx_period_nof_slots p | None => 0 end).
Definition symbols_per_slot (cp_extended : bool) : Z := if cp_extended then NOF_OFDM_SYM_PER_SLOT_EXTENDED_CP else NOF_OFDM_SYM_PER_SLOT_NORMAL_CP.
Definition nof_active_symbols (cfg : tdd_ul_dl_config_common) (slot_index : Z) (cp_extended is_dl : bool) : option Z :=
  let period_slots := nof_slots_per_tdd_period cfg in
  if period_slots =? 0 then None
  else
    let idx := slot_index mod period_slots in
    let* (pattern, idx) :=
      if dl_ul_tx_period_nof_slots (pattern1 cfg) <=? idx
      then let* p := pattern2 cfg in Some (p, idx - dl_ul_tx_period_nof_slots (pattern1 cfg))
      else Some (pattern1 cfg, idx) in
    if is_dl
    then Some (if idx <? nof_dl_slots pattern then symbols_per_slot cp_extended else if idx =? nof_dl_slots pattern then nof_dl_symbols pattern else 0)
    else
      let ul_pattern_start := u32 (period_slots - nof_ul_slots pattern) in
      Some (if ul_pattern_start <=? idx then symbols_per_slot cp_extended else if idx =? u32 (ul_pattern_start - 1) then nof_ul_symbols pattern else 0).
Definition has_active_tdd_dl_symbols (cfg : tdd_ul_dl_config_common) (slot_index : Z) : option bool :=
  let* n := nof_active_symbols cfg slot_index false true in Some (0 <? n).
Definition has_active_tdd_ul_symbols (cfg : tdd_ul_dl_config_common) (slot_index : Z) : option bool :=
  let* n := nof_active_symbols cfg slot_index false false in Some (0 <? n).
Definition get_active_tdd_dl_symbols (cfg : tdd_ul_dl_config_common) (slot_index : Z) (cp_extended : bool) : option interval :=
  let* n := nof_active_symbols cfg slot_index cp_extended true in iv_make 0 n.
Definition get_active_tdd_ul_symbols (cfg : tdd_ul_dl_config_common) (slot_index : Z) (cp_extended : bool) : option interval :=
  let* n := nof_active_symbols cfg slot_index cp_extended false in
  if 0 <? n then iv_make (u32 (symbols_per_slot cp_extended - n)) (symbols_per_slot cp_extended) else Some iv_default.

(** ** The lists of the cell configuration

    [cell_symbols] is what the configuration of a cell keeps of the pattern; the lists are empty for FDD. *)
Record cell_symbols := CellSymbols { tdd_cfg_common : option tdd_ul_dl_config_common; dl_cp_extended : bool; ul_cp_extended : bool; dl_symbols_per_slot_lst : list Z; ul_symbols_per_slot_lst : list Z }.
Definition cache_symbols (get : Z -> option interval) (n : nat) : option (list Z) := mapM (fun i => let* r := get (Z.of_nat i) in Some (iv_length r)) (seq 0 n).
Definition cell_symbols_new (tdd : option tdd_ul_dl_config_common) (dl_cp ul_cp : bool) : option cell_symbols :=
  match tdd with
  | None => Some (CellSymbols None dl_cp ul_cp [] [])
  | Some cfg =>
      let n := Z.to_nat (nof_slots_per_tdd_period cfg) in
      let* dl := cache_symbols (fun i => get_active_tdd_dl_symbols cfg i dl_cp) n in
      let* ul := cache_symbols (fun i => get_active_tdd_ul_symbols cfg i ul_cp) n in
      Some (CellSymbols tdd dl_cp ul_cp dl ul)
  end.
(** The entry of a slot in a list, after the conversion to the reference numerology. *)
Definition slot_entry (c : cell_symbols) (lst : list Z) (sl : slot_point) : option Z :=
  let* cfg := tdd_cfg_common c in
  let* sl := if negb (numerology_val sl =? ref_scs cfg) then set_slot_numerology sl (ref_scs cfg) else Some sl in
  lst !! Z.to_nat (count_val sl mod Z.of_nat (length lst)).
Definition is_fully_dl_enabled (c : cell_symbols) (sl : slot_point) : option bool :=
  if (length (dl_symbols_per_slot_lst c) =? 0)%nat then Some true
  else let* n := slot_entry c (dl_symbols_per_slot_lst c) sl in Some (n =? symbols_per_slot (dl_cp_extended c)).
Definition is_fully_ul_enabled (c : cell_symbols) (sl : slot_point) : option bool :=
  if (length (ul_symbols_per_slot_lst c) =? 0)%nat then Some true
  else let* n := slot_entry c (ul_symbols_per_slot_lst c) sl in Some (n =? symbols_per_slot (ul_cp_extended c)).
Definition is_dl_enabled (c : cell_symbols) (sl : slot_point) : option bool :=
  if (length (dl_symbols_per_slot_lst c) =? 0)%nat then Some true else let* n := slot_entry c (dl_symbols_per_slot_lst c) sl in Some (0 <? n).
Definition is_ul_enabled (c : cell_symbols) (sl : slot_point) : option bool :=
  if (length (ul_symbols_per_slot_lst c) =? 0)%nat then Some true else let* n := slot_entry c (ul_symbols_per_slot_lst c) sl in Some (0 <? n).
Definition get_nof_dl_symbol_per_slot (c : cell_symbols) (sl : slot_point) : option Z :=
  if (length (dl_symbols_per_slot_lst c) =? 0)%nat then Some (symbols_per_slot (dl_cp_extended c)) else slot_entry c (dl_symbols_per_slot_lst c) sl.
Definition get_nof_ul_symbol_per_slot (c : cell_symbols) (sl : slot_point) : option Z :=
  if (length (ul_symbols_per_slot_lst c) =? 0)%nat then Some (symbols_per_slot (ul_cp_extended c)) else slot_entry c (ul_symbols_per_slot_lst c) sl.

(** ** Results *)
(** A pattern within the values of TS 38.331, for slots of [m] symbols: the downlink part, the flexible part and the uplink part follow one another. *)
Record pattern_ok (m : Z) (p : tdd_ul_dl_pattern) : Prop := {
  po_period : 0 < dl_ul_tx_period_nof_slots p <= 320; po_dl : 0 <= nof_dl_slots p <= 320; po_ul : 0 <= nof_ul_slots p <= 320;
  po_dls : 0 <= nof_dl_symbols p < m; po_uls : 0 <= nof_ul_symbols p < m;
  po_fit : nof_dl_slots p * m + nof_dl_symbols p + nof_ul_slots p * m + nof_ul_symbols p <= dl_ul_tx_period_nof_slots p * m; }.
(** The pattern of one period: a symbol of the period, counted from its start, belongs to the downlink or to the uplink (TS 38.213, 11.1). *)
Definition dl_symbol (p : tdd_ul_dl_pattern) (m i k : Z) : Prop := i * m + k < nof_dl_slots p * m + nof_dl_symbols p.
Definition ul_symbol (p : tdd_ul_dl_pattern) (m i k : Z) : Prop := dl_ul_tx_period_nof_slots p * m - (nof_ul_slots p * m + nof_ul_symbols p) <= i * m + k.
Lemma symbols_cases cp : symbols_per_slot cp = 12 \/ symbols_per_slot cp = 14.
Proof. destruct cp; [by left|by right]. Qed.
Section OnePattern.
Context (cfg : tdd_ul_dl_config_common) (Hone : pattern2 cfg = None) (cp : bool) (Hok : pattern_ok (symbols_per_slot cp) (pattern1 cfg)).
Local Notation p := (pattern1 cfg).
Local Notation P := (dl_ul_tx_period_nof_slots (pattern1 cfg)).
Lemma one_period : nof_slots_per_tdd_period cfg = P.
Proof. destruct Hok. unfold nof_slots_per_tdd_period. rewrite Hone. rewrite u32_id by (unfold is_u32; lia). lia. Qed.
(** The parts fit in the period in whole slots. *)
Lemma slots_fit : nof_dl_slots p + nof_ul_slots p <= P.
Proof. destruct Hok as [H1 H2 H3 H4 H5 H6]. destruct (symbols_cases cp) as [E|E]; rewrite E in *; lia. Qed.
Lemma one_active i is_dl : 0 <= i -> nof_active_symbols cfg i cp is_dl = Some (let idx := i mod P in
  if is_dl then (if idx <? nof_dl_slots p then symbols_per_slot cp else if idx =? nof_dl_slots p then nof_dl_symbols p else 0)
  else if P - nof_ul_slots p <=? idx then symbols_per_slot cp else if idx =? P - nof_ul_slots p - 1 then nof_ul_symbols p else 0).
Proof.
  intros Hi. pose proof slots_fit. destruct Hok as [H1 H2 H3 H4 H5 H6]. unfold nof_active_symbols. rewrite one_period, (proj2 (Z.eqb_neq P 0)) by lia. pose proof (Z.mod_pos_bound i P ltac:(lia)) as Hm. cbv zeta. rewrite (proj2 (Z.leb_gt P _)) by lia. destruct is_dl; [done|]. f_equal. rewrite (u32_id (P - nof_ul_slots p)) by (unfold is_u32; lia).
  destruct (P - nof_ul_slots p <=? i mod P) eqn:E; breflect; [done|]. rewrite u32_id by (unfold is_u32; lia). done.
Qed.
Lemma one_dl i : 0 <= i -> exists n, get_active_tdd_dl_symbols cfg i cp = Some (Interval 0 n) /\ 0 <= n <= symbols_per_slot cp /\ forall k, 0 <= k < symbols_per_slot cp -> k < n <-> dl_symbol p (symbols_per_slot cp) (i mod P) k.
Proof.
  intros Hi. unfold get_active_tdd_dl_symbols. rewrite one_active by done. destruct Hok as [H1 H2 H3 H4 H5 H6]. pose proof (Z.mod_pos_bound i P ltac:(lia)) as Hm. set (idx := i mod P) in *. cbv zeta. set (n := if idx <? _ then _ else _). exists n.
  assert (0 <= n <= symbols_per_slot cp) as Hn by (unfold n; destruct (symbols_cases cp) as [E|E]; rewrite E in *; repeat case_match; lia). rewrite iv_make_ok by lia. split; [done|]. split; [done|]. intros k Hk. unfold dl_symbol, n. destruct (idx <? nof_dl_slots p) eqn:E1; [|destruct (idx =? nof_dl_slots p) eqn:E2]; breflect; destruct (symbols_cases cp) as [E| E]; rewrite E in *; lia.
Qed.
Lemma one_ul i : 0 <= i -> exists n, get_active_tdd_ul_symbols cfg i cp = Some (if 0 <? n then Interval (symbols_per_slot cp - n) (symbols_per_slot cp) else iv_default) /\ 0 <= n <= symbols_per_slot cp /\ forall k, 0 <= k < symbols_per_slot cp -> symbols_per_slot cp - n <= k <-> ul_symbol p (symbols_per_slot cp) (i mod P) k.
Proof.
  intros Hi. unfold get_active_tdd_ul_symbols. rewrite one_active by done. destruct Hok as [H1 H2 H3 H4 H5 H6]. pose proof (Z.mod_pos_bound i P ltac:(lia)) as Hm. set (idx := i mod P) in *. cbv zeta. set (n := if P - _ <=? _ then _ else _). exists n.
  assert (0 <= n <= symbols_per_slot cp) as Hn by (unfold n; destruct (symbols_cases cp) as [E|E]; rewrite E in *; repeat case_match; lia). assert (symbols_per_slot cp <= 14) as Hc by (destruct (symbols_cases cp); lia). split; [|split; [done|]].
  - destruct (0 <? n) eqn:En; breflect; [|done]. rewrite u32_id by (unfold is_u32; lia). by rewrite iv_make_ok by lia.
  - intros k Hk. unfold ul_symbol, n. destruct (P - nof_ul_slots p <=? idx) eqn:E1; [|destruct (idx =? P - nof_ul_slots p - 1) eqn:E2]; breflect; destruct (symbols_cases cp) as [E| E]; rewrite E in *; lia.
Qed.
End OnePattern.
Lemma cache_spec get n : (forall i, (i < n)%nat -> is_Some (get (Z.of_nat i))) -> exists l, cache_symbols get n = Some l /\ length l = n /\ forall i r, (i < n)%nat -> get (Z.of_nat i) = Some r -> l !! i = Some (iv_length r).
Proof.
  intros H. unfold cache_symbols. set (g := fun i => let* r := get (Z.of_nat i) in Some (iv_length r)). assert (is_Some (mapM g (seq 0 n))) as [l Hl].
  { apply mapM_is_Some_2, Forall_forall. intros i Hi. apply in_seq in Hi. destruct (H i ltac:(lia)) as [r Hr]. change (is_Some (g i)); unfold g; rewrite Hr; by eexists. }
  rewrite Hl. exists l. split; [done|]. apply mapM_Some_1 in Hl. pose proof (Forall2_length Hl) as Hlen. rewrite length_seq in Hlen. split; [done|]. intros i r Hi Hr. destruct (lookup_lt_is_Some_2 l i) as [x Hx]; [lia|]. rewrite Hx. pose proof (Forall2_lookup_lr _ _ _ i i x Hl) as E. rewrite lookup_seq_lt in E by lia. specialize (E eq_refl Hx). unfold g in E; cbv beta in E; rewrite Hr in E. congruence.
Qed.
(** The slot in the reference numerology. *)
Definition ref_slot (ref : Z) (sl : slot_point) : Z := count_val sl / 2 ^ (numerology_val sl - ref).
Lemma ref_slot_spec ref sl : slot_ok sl -> 0 <= ref <= numerology_val sl -> (if negb (numerology_val sl =? ref) then set_slot_numerology sl ref else Some sl) = Some (SlotPoint ref (ref_slot ref sl)) /\ 0 <= ref_slot ref sl.
Proof.
  intros Hok Hr. pose proof (slot_ok_count sl Hok) as Hc. destruct Hok as [Hn _]. destruct sl as [n c]. unfold ref_slot. cbn [numerology_val count_val] in *. destruct (n =? ref) eqn:E; breflect; cbn [negb].
  - subst. rewrite Z.sub_diag, Z.div_1_r. split; [done|lia].
  - destruct (slot_coarser n c (n - ref)) as [H1 H2]; [lia|lia|lia|done|]. replace (n - (n - ref)) with ref in * by lia. split; [done|lia].
Qed.
(** An entry of a cached list is the value for the slot of the period. *)
Lemma slot_entry_spec c cfg sl l r : tdd_cfg_common c = Some cfg -> slot_ok sl -> 0 <= ref_scs cfg <= numerology_val sl -> (0 < length l)%nat -> l !! Z.to_nat (ref_slot (ref_scs cfg) sl mod Z.of_nat (length l)) = Some r -> slot_entry c l sl = Some r.
Proof. intros Hc Hok Hr Hl Hlk. unfold slot_entry. rewrite Hc. destruct (ref_slot_spec _ sl Hok Hr) as [-> _]. done. Qed.
Lemma mod_twice i P : 0 < P -> 0 <= i -> Z.of_nat (Z.to_nat (i mod P)) mod P = i mod P.
Proof. intros HP Hi. pose proof (Z.mod_pos_bound i P HP). rewrite Z2Nat.id by lia. apply Z.mod_small. lia. Qed.

(** With one TDD pattern within its limits the configuration of a cell gives, for every slot of the reference numerology or a finer one, exactly the symbols of the
    pattern: the downlink has the first and the uplink the last symbols of the slot that belong to it by the pattern of TS 38.213, the two are disjoint, and a slot
    is enabled when it has such a symbol. Without a pattern every slot is fully downlink and uplink. *)
Theorem tdd_symbols_correct cfg dl_cp ul_cp : pattern2 cfg = None -> pattern_ok (symbols_per_slot dl_cp) (pattern1 cfg) -> pattern_ok (symbols_per_slot ul_cp) (pattern1 cfg) ->
  (exists c, cell_symbols_new (Some cfg) dl_cp ul_cp = Some c /\ forall sl, slot_ok sl -> 0 <= ref_scs cfg <= numerology_val sl ->
    let i := ref_slot (ref_scs cfg) sl mod dl_ul_tx_period_nof_slots (pattern1 cfg) in
    exists nd nu, get_nof_dl_symbol_per_slot c sl = Some nd /\ get_nof_ul_symbol_per_slot c sl = Some nu
      /\ (forall k, 0 <= k < symbols_per_slot dl_cp -> k < nd <-> dl_symbol (pattern1 cfg) (symbols_per_slot dl_cp) i k)
      /\ (forall k, 0 <= k < symbols_per_slot ul_cp -> symbols_per_slot ul_cp - nu <= k <-> ul_symbol (pattern1 cfg) (symbols_per_slot ul_cp) i k)
      /\ (dl_cp = ul_cp -> nd + nu <= symbols_per_slot dl_cp)
      /\ is_dl_enabled c sl = Some (0 <? nd) /\ is_ul_enabled c sl = Some (0 <? nu)
      /\ is_fully_dl_enabled c sl = Some (nd =? symbols_per_slot dl_cp) /\ is_fully_ul_enabled c sl = Some (nu =? symbols_per_slot ul_cp)) /\
  (exists c, cell_symbols_new None dl_cp ul_cp = Some c /\ forall sl, is_fully_dl_enabled c sl = Some true /\ is_fully_ul_enabled c sl = Some true /\ get_nof_dl_symbol_per_slot c sl = Some (symbols_per_slot dl_cp)).
Proof.
  intros Hone Hd Hu. split; [|eexists; split; [reflexivity|done]]. pose proof (po_period _ _ Hd) as HP. set (P := dl_ul_tx_period_nof_slots (pattern1 cfg)) in *. unfold cell_symbols_new. rewrite (one_period cfg Hone _ Hd). fold P.
  destruct (cache_spec (fun i => get_active_tdd_dl_symbols cfg i dl_cp) (Z.to_nat P)) as (dl & -> & Hdl & Hdlk); [intros i Hi; destruct (one_dl cfg Hone _ Hd (Z.of_nat i) ltac:(lia)) as (n & -> & _); by eexists|].
  destruct (cache_spec (fun i => get_active_tdd_ul_symbols cfg i ul_cp) (Z.to_nat P)) as (ul & -> & Hul & Hulk); [intros i Hi; destruct (one_ul cfg Hone _ Hu (Z.of_nat i) ltac:(lia)) as (n & -> & _); by eexists|].
  set (c := CellSymbols _ _ _ _ _). exists c. split; [done|]. intros sl Hok Hr. set (i := ref_slot (ref_scs cfg) sl mod P). destruct (ref_slot_spec _ sl Hok Hr) as [_ H0]. pose proof (Z.mod_pos_bound (ref_slot (ref_scs cfg) sl) P ltac:(lia)) as Hm. fold i in Hm.
  destruct (one_dl cfg Hone _ Hd (Z.of_nat (Z.to_nat i)) ltac:(lia)) as (nd & Hgd & Hnd & Hkd). destruct (one_ul cfg Hone _ Hu (Z.of_nat (Z.to_nat i)) ltac:(lia)) as (nu & Hgu & Hnu & Hku).
  fold P in Hkd, Hku. assert (Z.of_nat (Z.to_nat i) mod P = i) as Hi by exact (mod_twice (ref_slot (ref_scs cfg) sl) P (proj1 HP) H0). rewrite Hi in Hkd, Hku. specialize (Hdlk (Z.to_nat i) _ ltac:(lia) Hgd). specialize (Hulk (Z.to_nat i) _ ltac:(lia) Hgu).
  assert (slot_entry c dl sl = Some nd) as Ed by (apply (slot_entry_spec c cfg); [done|done|done|lia|]; rewrite Hdl, Z2Nat.id by lia; fold i; rewrite Hdlk, iv_length_ok by (split; cbn; destruct (symbols_cases dl_cp); lia); cbn; f_equal; lia).
  assert (slot_entry c ul sl = Some nu) as Eu by (apply (slot_entry_spec c cfg); [done|done|done|lia|]; rewrite Hul, Z2Nat.id by lia; fold i; rewrite Hulk; destruct (0 <? nu) eqn:E; breflect; [rewrite iv_length_ok by (split; cbn; destruct (symbols_cases ul_cp); lia); cbn; f_equal; lia|change (iv_length iv_default) with 0; f_equal; lia]).
  exists nd, nu. unfold get_nof_dl_symbol_per_slot, get_nof_ul_symbol_per_slot, is_dl_enabled, is_ul_enabled, is_fully_dl_enabled, is_fully_ul_enabled. cbn [c dl_symbols_per_slot_lst ul_symbols_per_slot_lst dl_cp_extended ul_cp_extended].
  rewrite Hdl, Hul, (proj2 (Nat.eqb_neq _ 0)), Ed, Eu by lia. split_and!; try done.
  intros <-. destruct (decide (nd = 0)) as [->|]; [lia|]. destruct (decide (nu = 0)) as [->|]; [lia|]. pose proof (proj1 (Hkd (nd - 1) ltac:(lia)) ltac:(lia)) as H1. destruct (decide (symbols_per_slot dl_cp - nu <= nd - 1)) as [Hle|]; [|lia]. pose proof (proj1 (Hku (nd - 1) ltac:(lia)) Hle) as H2. unfold dl_symbol, ul_symbol in *. pose proof (po_fit _ _ Hd). lia.
Qed.
Lemma tdd_symbols_correct_witness : exists c, cell_symbols_new (Some (TddConfig 0 (TddPattern 10 6 5 3 4) None)) false false = Some c /\ exists nd, get_nof_dl_symbol_per_slot c (SlotPoint 1 12) = Some nd.
Proof.
  assert (pattern_ok (symbols_per_slot false) (TddPattern 10 6 5 3 4)) as H by (split; vm_compute; try split; congruence).
  destruct (tdd_symbols_correct (TddConfig 0 (TddPattern 10 6 5 3 4) None) false false eq_refl H H) as [(c & Hc & Hs) _]. exists c. split; [exact Hc|]. destruct (Hs (SlotPoint 1 12) ltac:(split; vm_compute; split; congruence) ltac:(vm_compute; split; congruence)) as (nd & nu & Hn & _). exists nd. exact Hn.
Defined.
(** With two patterns the uplink slots are searched at the end of the whole period instead of the end of the pattern: a configuration of two equal patterns with one
    uplink slot each has no uplink slot in the first pattern and none in the second. *)
Theorem tdd_two_patterns_no_uplink : let p := TddPattern 5 3 0 1 0 in let cfg := TddConfig 0 p (Some p) in
  pattern_ok 14 p /\ forall i, 0 <= i -> has_active_tdd_ul_symbols cfg i = Some false.
Proof.
  split; [split; vm_compute; try split; congruence|]. intros i Hi. unfold has_active_tdd_ul_symbols, nof_active_symbols. change (nof_slots_per_tdd_period _) with 10. cbn [Z.eqb]. pose proof (Z.mod_pos_bound i 10 ltac:(lia)) as Hm. set (k := i mod 10) in *. cbn [pattern1 pattern2 dl_ul_tx_period_nof_slots nof_ul_slots nof_ul_symbols].
  change (u32 (10 - 1)) with 9. change (u32 (9 - 1)) with 8. destruct (5 <=? k) eqn:E; breflect.
  - rewrite (proj2 (Z.leb_gt 9 _)) by lia. destruct (_ =? _); reflexivity.
  - rewrite (proj2 (Z.leb_gt 9 _)) by lia. destruct (_ =? _); reflexivity.
Qed.
