(* ===== verification/ResourceGrid.v ===== *)
(** * Resource grid of a cell

    The grid of OFDM symbols and resource blocks of the carriers of a cell in one slot, and the ring of the grids of the coming slots
    (lib/scheduler/cell/resource_grid.cpp and .h).  A grid is a bit set with one bit per symbol and resource block of the carrier.  [None] is a failed assertion. *)
From S2P Require Import Prelude BoundedBitset RbInterval SlotPoint Tdd.

Definition MAX_NOF_PRBS : Z := 275.
(** The capacity of the bit set of a carrier. *)
Definition SLOT_RBS_CAPACITY : Z := NOF_OFDM_SYM_PER_SLOT_NORMAL_CP * MAX_NOF_PRBS.

(** ** One carrier *)
Record scs_specific_carrier := Carrier { offset_to_carrier : Z; carrier_scs : Z; carrier_bandwidth : Z }.
Record carrier_grid := CarrierGrid { carrier_cfg : scs_specific_carrier; slot_rbs : bitset }.
Definition get_carrier_rb_dims (c : scs_specific_carrier) : interval := Interval (offset_to_carrier c) (offset_to_carrier c + carrier_bandwidth c).
Definition carrier_grid_new (c : scs_specific_carrier) : carrier_grid := CarrierGrid c (bitset_new SLOT_RBS_CAPACITY (NOF_OFDM_SYM_PER_SLOT_NORMAL_CP * carrier_bandwidth c)).
Definition nof_rbs (g : carrier_grid) : Z := carrier_bandwidth (carrier_cfg g).
Definition rb_dims (g : carrier_grid) : interval := get_carrier_rb_dims (carrier_cfg g).
Definition carrier_clear (g : carrier_grid) : carrier_grid := CarrierGrid (carrier_cfg g) (bs_reset_all (slot_rbs g)).
(** The checks of the arguments and the shift of the interval to the bits of the carrier. *)
Definition carrier_rbs (g : carrier_grid) (symbols crbs : interval) : option interval :=
  if negb (iv_contains (rb_dims g) crbs) then None
  else if negb (iv_stop symbols <=? NOF_OFDM_SYM_PER_SLOT_NORMAL_CP) then None
  else iv_displace_by crbs (- offset_to_carrier (carrier_cfg g)).
Fixpoint fill_symbols (n : nat) (i rbs : Z) (crbs : interval) (b : bitset) : option bitset :=
  match n with
  | O => Some b
  | S n => let* b := bs_fill true b (iv_start crbs + i * rbs) (iv_stop crbs + i * rbs) true in fill_symbols n (i + 1) rbs crbs b
  end.
Fixpoint any_symbol (n : nat) (i rbs : Z) (crbs : interval) (b : bitset) : option bool :=
  match n with
  | O => Some false
  | S n => let* a := bs_any_range true b (iv_start crbs + i * rbs) (iv_stop crbs + i * rbs) in if a : bool then Some true else any_symbol n (i + 1) rbs crbs b
  end.
Fixpoint all_symbols (n : nat) (i rbs : Z) (crbs : interval) (b : bitset) : option bool :=
  match n with
  | O => Some true
  | S n => let* a := bs_all_range true b (iv_start crbs + i * rbs) (iv_stop crbs + i * rbs) in if negb a then Some false else all_symbols n (i + 1) rbs crbs b
  end.
Definition nof_symbols (symbols : interval) : nat := Z.to_nat (iv_stop symbols - iv_start symbols).
Definition carrier_fill (g : carrier_grid) (symbols crbs : interval) : option carrier_grid :=
  let* crbs := carrier_rbs g symbols crbs in
  let* b := fill_symbols (nof_symbols symbols) (iv_start symbols) (nof_rbs g) crbs (slot_rbs g) in Some (CarrierGrid (carrier_cfg g) b).
Definition carrier_collides (g : carrier_grid) (symbols crbs : interval) : option bool :=
  let* crbs := carrier_rbs g symbols crbs in any_symbol (nof_symbols symbols) (iv_start symbols) (nof_rbs g) crbs (slot_rbs g).
Definition carrier_all_set (g : carrier_grid) (symbols crbs : interval) : option bool :=
  let* crbs := carrier_rbs g symbols crbs in all_symbols (nof_symbols symbols) (iv_start symbols) (nof_rbs g) crbs (slot_rbs g).
Definition carrier_used_crbs (g : carrier_grid) (bwp_crb_lims symbols : interval) : option bitset :=
  if negb (iv_stop symbols <=? NOF_OFDM_SYM_PER_SLOT_NORMAL_CP) then None
  else
    let* selected := bs_slice SLOT_RBS_CAPACITY true (slot_rbs g) (iv_start symbols * nof_rbs g) (iv_stop symbols * nof_rbs g) in
    let* crb_bits := fold_and_accumulate MAX_NOF_PRBS true selected (nof_rbs g) 0 (nof_rbs g) in
    let* crb_bits := bs_fill true crb_bits 0 (iv_start bwp_crb_lims) true in
    bs_fill true crb_bits (iv_stop bwp_crb_lims) (bs_size crb_bits) true.

(** ** The carriers of a cell in one slot *)
Record grant_info := Grant { grant_scs : Z; grant_symbols : interval; grant_crbs : interval }.
Record slot_grid := SlotGrid { carrier_grids : list carrier_grid; numerology_to_grid_idx : list Z }.
Definition NO_GRID : Z := 2 ^ 32 - 1.
Fixpoint add_carriers (carriers : list scs_specific_carrier) (g : slot_grid) : slot_grid :=
  match carriers with
  | [] => g
  | c :: carriers =>
      let grids := carrier_grids g ++ [carrier_grid_new c] in
      add_carriers carriers (SlotGrid grids (<[Z.to_nat (carrier_scs c) := Z.of_nat (length grids) - 1]> (numerology_to_grid_idx g)))
  end.
Definition slot_grid_new (carriers : list scs_specific_carrier) : slot_grid := add_carriers carriers (SlotGrid [] (replicate (Z.to_nat NOF_NUMEROLOGIES) NO_GRID)).
Definition active_scs (g : slot_grid) : list Z :=
  filter (fun u => (nth (Z.to_nat u) (numerology_to_grid_idx g) NO_GRID <? NO_GRID) = true) (seqZ 0 (Z.of_nat (length (numerology_to_grid_idx g)))).
Definition slot_grid_clear (g : slot_grid) : slot_grid := SlotGrid (map carrier_clear (carrier_grids g)) (numerology_to_grid_idx g).
Definition get_carrier_idx (g : slot_grid) (scs : Z) : option Z :=
  let* idx := numerology_to_grid_idx g !! Z.to_nat scs in if idx <? Z.of_nat (length (carrier_grids g)) then Some idx else None.
Definition get_carrier (g : slot_grid) (scs : Z) : option carrier_grid := let* idx := get_carrier_idx g scs in carrier_grids g !! Z.to_nat idx.
Definition slot_grid_fill (g : slot_grid) (grant : grant_info) : option slot_grid :=
  let* idx := get_carrier_idx g (grant_scs grant) in
  let* carrier := carrier_grids g !! Z.to_nat idx in
  let* carrier := carrier_fill carrier (grant_symbols grant) (grant_crbs grant) in
  Some (SlotGrid (<[Z.to_nat idx := carrier]> (carrier_grids g)) (numerology_to_grid_idx g)).
Definition slot_grid_collides (g : slot_grid) (grant : grant_info) : option bool :=
  let* carrier := get_carrier g (grant_scs grant) in carrier_collides carrier (grant_symbols grant) (grant_crbs grant).
Definition slot_grid_all_set (g : slot_grid) (grant : grant_info) : option bool :=
  let* carrier := get_carrier g (grant_scs grant) in carrier_all_set carrier (grant_symbols grant) (grant_crbs grant).
Definition slot_grid_used_crbs (g : slot_grid) (scs : Z) (crb_lims symbols : interval) : option bitset :=
  let* carrier := get_carrier g scs in carrier_used_crbs carrier crb_lims symbols.

(** ** The slots of the ring

    [R] is the type of the lists of grants of a scheduling result and [r0] the empty ones. *)
Section Ring.
Context {R : Type} (r0 : R).
Record sched_result := SchedResult { result_success : bool; result_nof_dl_symbols : Z; result_nof_ul_symbols : Z; result_grants : R }.
Record slot_allocator := SlotAllocator { alloc_slot : slot_point; alloc_result : sched_result; dl_res_grid : slot_grid; ul_res_grid : slot_grid }.
Record cell_cfg := CellCfg { cfg_symbols : cell_symbols; dl_scs_carrier_list : list scs_specific_carrier; ul_scs_carrier_list : list scs_specific_carrier }.
Definition slot_allocator_new (dl_carriers ul_carriers : list scs_specific_carrier) : slot_allocator :=
  SlotAllocator slot_point_invalid (SchedResult false 0 0 r0) (slot_grid_new dl_carriers) (slot_grid_new ul_carriers).
Definition allocator_slot_indication (cfg : cell_cfg) (a : slot_allocator) (new_slot : slot_point) : option slot_allocator :=
  let* dl := get_nof_dl_symbol_per_slot (cfg_symbols cfg) new_slot in
  let* ul := get_nof_ul_symbol_per_slot (cfg_symbols cfg) new_slot in
  Some (SlotAllocator new_slot (SchedResult true dl ul r0) (slot_grid_clear (dl_res_grid a)) (slot_grid_clear (ul_res_grid a))).

Definition get_allocator_ring_size_gt_min (minimum_value : Z) : Z := if minimum_value <? 20 then 20 else if minimum_value <? 40 then 40 else 80.
Definition SCHEDULER_MAX_K0 : Z := 15.
Definition SCHEDULER_MAX_K1 : Z := 15.
Definition SCHEDULER_MAX_K2 : Z := 15.
Definition MAX_MSG3_DELTA : Z := 6.
Definition RING_ALLOCATOR_SIZE : Z := get_allocator_ring_size_gt_min (Z.max (SCHEDULER_MAX_K0 + SCHEDULER_MAX_K1) (SCHEDULER_MAX_K2 + MAX_MSG3_DELTA)).
Record cell_allocator := CellAllocator { last_slot_ind : slot_point; slots : list slot_allocator }.
Definition back {A} (l : list A) : option A := head (reverse l).
(** The carriers whose slots start with the slot [i] of the finest numerology. *)
Definition carriers_at (max_scs i : Z) (carriers : list scs_specific_carrier) : list scs_specific_carrier :=
  filter (fun c => i mod (2 ^ max_scs / 2 ^ carrier_scs c) = 0) carriers.
(** A carrier with a finer numerology than the last ones is a division by zero. *)
Definition cell_allocator_new (cfg : cell_cfg) : option cell_allocator :=
  let* dl := back (dl_scs_carrier_list cfg) in
  let* ul := back (ul_scs_carrier_list cfg) in
  let max_scs := Z.max (carrier_scs dl) (carrier_scs ul) in
  if existsb (fun c => max_scs <? carrier_scs c) (dl_scs_carrier_list cfg ++ ul_scs_carrier_list cfg) then None
  else Some (CellAllocator slot_point_invalid (map (fun i => slot_allocator_new (carriers_at max_scs (Z.of_nat i) (dl_scs_carrier_list cfg)) (carriers_at max_scs (Z.of_nat i) (ul_scs_carrier_list cfg))) (seq 0 (Z.to_nat RING_ALLOCATOR_SIZE)))).
Definition ring_index (a : cell_allocator) (sl : slot_point) : nat := Z.to_nat (count_val sl mod Z.of_nat (length (slots a))).
(** The indication of a slot to one entry of the ring. *)
Definition indicate_at (cfg : cell_cfg) (a : cell_allocator) (idx : nat) (sl : slot_point) : option cell_allocator :=
  let* s := slots a !! idx in let* s := allocator_slot_indication cfg s sl in Some (CellAllocator (last_slot_ind a) (<[idx := s]> (slots a))).
Fixpoint indicate_all (cfg : cell_cfg) (n : nat) (i : Z) (sl_tx : slot_point) (a : cell_allocator) : option cell_allocator :=
  match n with
  | O => Some a
  | S n => let sl := slot_add sl_tx i in let* a := indicate_at cfg a (ring_index a sl) sl in indicate_all cfg n (i + 1) sl_tx a
  end.
Definition cell_slot_indication (cfg : cell_cfg) (a : cell_allocator) (sl_tx : slot_point) : option cell_allocator :=
  let* dl := back (dl_scs_carrier_list cfg) in
  if negb (negb (slot_valid (last_slot_ind a)) || slot_eqb (slot_add_int (last_slot_ind a) 1) sl_tx) then None
  else if negb (numerology_val sl_tx =? carrier_scs dl) then None
  else
    let* a :=
      if negb (slot_valid (last_slot_ind a)) then indicate_all cfg (length (slots a)) 0 sl_tx a
      else
        let idx := ring_index a (slot_sub sl_tx 1) in
        let* old := slots a !! idx in indicate_at cfg a idx (slot_add (alloc_slot old) (Z.of_nat (length (slots a)))) in
    Some (CellAllocator sl_tx (slots a)).
(** [operator[]] for a delay and for a slot: the index of the entry of the ring. *)
Definition access_delay (a : cell_allocator) (slot_delay : Z) : option nat :=
  if negb (slot_delay <? RING_ALLOCATOR_SIZE) then None
  else
    let sl_tx := slot_add (last_slot_ind a) slot_delay in
    let* r := slots a !! ring_index a sl_tx in if slot_eqb (alloc_slot r) sl_tx then Some (ring_index a sl_tx) else None.
Definition access_slot (a : cell_allocator) (sl : slot_point) : option nat := access_delay a (u32 (slot_diff sl (last_slot_ind a))).
End Ring.
