(* ===== verification/ResourceGridThms.v ===== *)
(** * Resource grid: one carrier as a set of cells *)
From S2P Require Import Prelude Bits BoundedBitset BitsetThms BitsetSearch BitsetSpec BitsetRefine RbInterval SlotPoint Tdd ResourceGrid.

Record carrier_ok (c : scs_specific_carrier) : Prop := { co_off : 0 <= offset_to_carrier c <= 2199; co_bw : 0 < carrier_bandwidth c <= MAX_NOF_PRBS; co_scs : 0 <= carrier_scs c < NOF_NUMEROLOGIES }.
Record grid_ok (g : carrier_grid) : Prop := { go_carrier : carrier_ok (carrier_cfg g); go_bits : bs_ok SLOT_RBS_CAPACITY (slot_rbs g); go_size : bs_size (slot_rbs g) = 14 * nof_rbs g }.
(** The cell of a symbol and a resource block of the carrier. *)
Definition cell (g : carrier_grid) (s k : Z) : option bool := bits true (slot_rbs g) !! Z.to_nat (s * nof_rbs g + k).
(** The cell of a symbol and a common resource block is in use. *)
Definition taken (g : carrier_grid) (s crb : Z) : Prop := cell g s (crb - offset_to_carrier (carrier_cfg g)) = Some true.

Lemma cell_in_row bw s k i cs ce : 0 <= k < bw -> 0 <= cs <= ce -> ce <= bw -> cs + i * bw <= s * bw + k < ce + i * bw <-> s = i /\ cs <= k < ce.
Proof. intros Hk Hc He. split; [|intros [-> H]; lia]. intros H. assert (s = i) as ->; [|lia]. destruct (Z.lt_trichotomy s i) as [|[|]]; [nia|done|nia]. Qed.
Lemma capacity : 0 < SLOT_RBS_CAPACITY < 2 ^ 32.
Proof. unfold SLOT_RBS_CAPACITY, NOF_OFDM_SYM_PER_SLOT_NORMAL_CP, MAX_NOF_PRBS. lia. Qed.

(** ** Loops over symbols *)
Section Rows.
Context (bw : Z) (Hbw : 0 < bw).
Definition sized (b : bitset) : Prop := bs_ok SLOT_RBS_CAPACITY b /\ bs_size b = 14 * bw.
Lemma row_range b i cs ce : sized b -> 0 <= i < 14 -> 0 <= cs <= ce -> ce <= bw -> 0 <= cs + i * bw <= ce + i * bw /\ ce + i * bw <= bs_size b.
Proof using Hbw. intros [_ Hs] Hi Hc He. rewrite Hs. nia. Qed.
Lemma fill_symbols_spec cs ce n : forall i b, sized b -> 0 <= i -> i + Z.of_nat n <= 14 -> 0 <= cs <= ce -> ce <= bw ->
  exists b', fill_symbols n i bw (Interval cs ce) b = Some b' /\ sized b' /\
    forall s k, 0 <= s < 14 -> 0 <= k < bw -> bits true b' !! Z.to_nat (s * bw + k) = if bool_decide (i <= s < i + Z.of_nat n /\ cs <= k < ce) then Some true else bits true b !! Z.to_nat (s * bw + k).
Proof using Hbw.
  induction n as [|n IH]; intros i b Hb Hi Hn Hc He; cbn [fill_symbols].
  - exists b. split; [done|]. split; [done|]. intros s k Hs Hk. by rewrite bool_decide_false by lia.
  - cbn [iv_start iv_stop]. destruct (row_range b i cs ce Hb ltac:(lia) Hc He) as [Hr1 Hr2]. destruct (spec_fill SLOT_RBS_CAPACITY true b (proj1 Hb) (cs + i * bw) (ce + i * bw) true Hr1 Hr2) as (b1 & -> & Hok1 & Hb1).
    assert (sized b1) as Hs1 by (split; [done|]; pose proof (spec_length _ true b1 Hok1) as E; rewrite Hb1, length_imap, bits_length in E; destruct Hb as [Hbo Hbs]; pose proof (bso_size _ _ Hbo); lia).
    destruct (IH (i + 1) b1 Hs1 ltac:(lia) ltac:(lia) Hc He) as (b' & -> & Hs' & Hb'). exists b'. split; [done|]. split; [done|]. intros s k Hs Hk. rewrite Hb' by done. rewrite Hb1, list_lookup_imap.
    assert (exists x, bits true b !! Z.to_nat (s * bw + k) = Some x) as [x Hx] by (apply lookup_lt_is_Some_2; rewrite bits_length; destruct Hb as [_ Hbs]; rewrite Hbs; nia). rewrite Hx. cbn [fmap option_fmap option_map]. rewrite Z2Nat.id by nia.
    assert ((cs + i * bw <=? s * bw + k) && (s * bw + k <? ce + i * bw) = bool_decide (s = i /\ cs <= k < ce)) as -> by (apply eq_true_iff_eq; rewrite andb_true_iff, Z.leb_le, Z.ltb_lt, bool_decide_eq_true; by apply cell_in_row).
    repeat case_bool_decide; (done || lia).
Qed.
Lemma any_symbol_spec cs ce n : forall i b, sized b -> 0 <= i -> i + Z.of_nat n <= 14 -> 0 <= cs <= ce -> ce <= bw ->
  exists r, any_symbol n i bw (Interval cs ce) b = Some r /\ (r = true <-> exists s k, i <= s < i + Z.of_nat n /\ cs <= k < ce /\ bits true b !! Z.to_nat (s * bw + k) = Some true).
Proof using Hbw.
  induction n as [|n IH]; intros i b Hb Hi Hn Hc He; cbn [any_symbol]; [exists false; split; [done|]; split; [done|]; intros (s & k & Hs & _); lia|].
  cbn [iv_start iv_stop]. destruct (row_range b i cs ce Hb ltac:(lia) Hc He) as [Hr1 Hr2]. destruct (spec_any SLOT_RBS_CAPACITY true b (proj1 Hb) (cs + i * bw) (ce + i * bw) Hr1 Hr2) as (r & -> & Hr). destruct (IH (i + 1) b Hb ltac:(lia) ltac:(lia) Hc He) as (r' & -> & Hr').
  assert (r = true <-> exists k, cs <= k < ce /\ bits true b !! Z.to_nat (i * bw + k) = Some true) as Hrow.
  { rewrite Hr. split; [intros (p & Hp & Hl); exists (Z.of_nat p - i * bw); split; [lia|]; replace (Z.to_nat _) with p by lia; done|]. intros (k & Hk & Hl). exists (Z.to_nat (i * bw + k)). split; [nia|done]. }
  destruct r.
  - exists true. split; [done|]. split; [|done]. intros _. destruct (proj1 Hrow eq_refl) as (k & Hk & Hl). exists i, k. split; [lia|done].
  - exists r'. split; [done|]. rewrite Hr'. split; intros (s & k & Hs & Hk & Hl); [exists s, k; split; [lia|done]|]. exists s, k. split; [|done]. destruct (decide (s = i)) as [->|]; [|lia]. discriminate (proj2 Hrow ltac:(by exists k)).
Qed.
Lemma all_symbols_spec cs ce n : forall i b, sized b -> 0 <= i -> i + Z.of_nat n <= 14 -> 0 <= cs <= ce -> ce <= bw ->
  exists r, all_symbols n i bw (Interval cs ce) b = Some r /\ (r = true <-> forall s k, i <= s < i + Z.of_nat n -> cs <= k < ce -> bits true b !! Z.to_nat (s * bw + k) = Some true).
Proof using Hbw.
  induction n as [|n IH]; intros i b Hb Hi Hn Hc He; cbn [all_symbols]; [exists true; split; [done|]; split; [intros _ s k Hs; lia|done]|].
  cbn [iv_start iv_stop]. destruct (row_range b i cs ce Hb ltac:(lia) Hc He) as [Hr1 Hr2]. destruct (spec_all SLOT_RBS_CAPACITY true b (proj1 Hb) (cs + i * bw) (ce + i * bw) Hr1 Hr2) as (r & -> & Hr). destruct (IH (i + 1) b Hb ltac:(lia) ltac:(lia) Hc He) as (r' & -> & Hr').
  assert (r = true <-> forall k, cs <= k < ce -> bits true b !! Z.to_nat (i * bw + k) = Some true) as Hrow.
  { rewrite Hr. split.
    - intros Hall k Hk. destruct (lookup_lt_is_Some_2 (bits true b) (Z.to_nat (i * bw + k))) as [x Hx]; [rewrite bits_length; destruct Hb as [_ Hbs]; rewrite Hbs; nia|]. rewrite Hx. f_equal. apply (Hall (Z.to_nat (i * bw + k)) x ltac:(nia) Hx).
    - intros Hall p x Hp Hl. specialize (Hall (Z.of_nat p - i * bw) ltac:(lia)). replace (Z.to_nat _) with p in Hall by lia. congruence. }
  destruct r; cbn [negb].
  - exists r'. split; [done|]. rewrite Hr'. split; intros Hall s k Hs Hk; [|apply Hall; (lia || done)]. destruct (decide (s = i)) as [->|]; [by apply Hrow|apply Hall; [lia|done]].
  - exists false. split; [done|]. split; [done|]. intros Hall. apply Hrow. intros k Hk. apply Hall; [lia|done].
Qed.
End Rows.

(** ** Operations of a carrier *)
Definition symbols_ok (symbols : interval) : Prop := 0 <= iv_start symbols <= iv_stop symbols /\ iv_stop symbols <= NOF_OFDM_SYM_PER_SLOT_NORMAL_CP.
Definition crbs_ok (g : carrier_grid) (crbs : interval) : Prop := iv_start crbs <= iv_stop crbs /\ iv_start (rb_dims g) <= iv_start crbs /\ iv_stop crbs <= iv_stop (rb_dims g).
Definition in_grant (symbols crbs : interval) (s crb : Z) : Prop := iv_in s symbols /\ iv_in crb crbs.
Section Carrier.
Context (g : carrier_grid) (Hg : grid_ok g).
Local Notation off := (offset_to_carrier (carrier_cfg g)).
Lemma grid_sized : sized (nof_rbs g) (slot_rbs g).
Proof using Hg. split; apply Hg. Qed.
Lemma grid_bw : 0 < nof_rbs g <= 275 /\ 0 <= off <= 2199.
Proof using Hg. destruct Hg as [[H1 H2 _] _ _]. unfold MAX_NOF_PRBS in *. by split. Qed.
Lemma carrier_rbs_spec symbols crbs : symbols_ok symbols -> crbs_ok g crbs -> carrier_rbs g symbols crbs = Some (Interval (iv_start crbs - off) (iv_stop crbs - off)) /\ 0 <= iv_start crbs - off <= iv_stop crbs - off /\ iv_stop crbs - off <= nof_rbs g.
Proof using Hg.
  intros [Hs1 Hs2] (Hc1 & Hc2 & Hc3). pose proof grid_bw. unfold rb_dims, get_carrier_rb_dims in *. cbn [iv_start iv_stop] in *. fold (nof_rbs g) in *. unfold carrier_rbs, iv_contains, rb_dims, get_carrier_rb_dims. cbn [iv_start iv_stop]. fold (nof_rbs g).
  rewrite (proj2 (Z.leb_le off _)), (proj2 (Z.leb_le (iv_stop crbs) _)), (proj2 (Z.leb_le (iv_stop symbols) _)) by lia. cbn [andb negb]. rewrite iv_displace_ok by (first [split; lia|lia]). split; [done|lia].
Qed.
Lemma carrier_rbs_fails symbols crbs : NOF_OFDM_SYM_PER_SLOT_NORMAL_CP < iv_stop symbols \/ iv_start crbs < off \/ off + nof_rbs g < iv_stop crbs -> carrier_rbs g symbols crbs = None.
Proof using Type.
  intros H. unfold carrier_rbs, iv_contains, rb_dims, get_carrier_rb_dims. cbn [iv_start iv_stop]. fold (nof_rbs g). repeat case_match; breflect; try done. exfalso. repeat match goal with E : negb _ = false |- _ => apply negb_false_iff in E end. repeat match goal with E : _ && _ = true |- _ => apply andb_true_iff in E as [? ?] end. breflect. lia.
Qed.
Lemma taken_cell s k : taken g s (k + off) <-> bits true (slot_rbs g) !! Z.to_nat (s * nof_rbs g + k) = Some true.
Proof using Type. unfold taken, cell. by replace (k + off - off) with k by lia. Qed.
Lemma carrier_fill_spec symbols crbs : symbols_ok symbols -> crbs_ok g crbs -> exists g', carrier_fill g symbols crbs = Some g' /\ grid_ok g' /\ carrier_cfg g' = carrier_cfg g /\
  forall s crb, 0 <= s < 14 -> iv_in crb (rb_dims g) -> taken g' s crb <-> taken g s crb \/ in_grant symbols crbs s crb.
Proof using Hg.
  intros Hs Hc. destruct (carrier_rbs_spec symbols crbs Hs Hc) as (E & Hr1 & Hr2). pose proof grid_bw as [Hbw _]. destruct Hs as [Hs1 Hs2]. unfold NOF_OFDM_SYM_PER_SLOT_NORMAL_CP in *. unfold carrier_fill. rewrite E.
  destruct (fill_symbols_spec (nof_rbs g) (proj1 Hbw) (iv_start crbs - off) (iv_stop crbs - off) (nof_symbols symbols) (iv_start symbols) (slot_rbs g) grid_sized) as (b & -> & [Hb1 Hb2] & Hbits); [lia|unfold nof_symbols; lia|done|done|]. eexists. split; [done|]. split; [by split; [apply Hg|done|]|]. split; [done|].
  intros s crb Hs' Hcrb. unfold iv_in, rb_dims, get_carrier_rb_dims in Hcrb. cbn [iv_start iv_stop] in Hcrb. fold (nof_rbs g) in Hcrb. unfold taken, cell. cbn [carrier_cfg slot_rbs nof_rbs]. change (carrier_bandwidth (carrier_cfg g)) with (nof_rbs g). rewrite Hbits by lia.
  unfold in_grant, iv_in, nof_symbols. case_bool_decide as E'; [|intuition lia]. split; [|done]. intros _. right. lia.
Qed.
Lemma collides_spec symbols crbs : symbols_ok symbols -> crbs_ok g crbs -> exists r, carrier_collides g symbols crbs = Some r /\ (r = true <-> exists s crb, in_grant symbols crbs s crb /\ taken g s crb).
Proof using Hg.
  intros Hs Hc. destruct (carrier_rbs_spec symbols crbs Hs Hc) as (E & Hr1 & Hr2). pose proof grid_bw as [Hbw _]. destruct Hs as [Hs1 Hs2]. unfold NOF_OFDM_SYM_PER_SLOT_NORMAL_CP in *. unfold carrier_collides. rewrite E.
  destruct (any_symbol_spec (nof_rbs g) (proj1 Hbw) (iv_start crbs - off) (iv_stop crbs - off) (nof_symbols symbols) (iv_start symbols) (slot_rbs g) grid_sized) as (r & -> & Hr); [lia|unfold nof_symbols; lia|done|done|]. exists r. split; [done|]. rewrite Hr. unfold in_grant, iv_in, nof_symbols. split.
  - intros (s & k & H1 & H2 & H3). exists s, (k + off). rewrite taken_cell. split; [lia|done].
  - intros (s & crb & H1 & H2). exists s, (crb - off). rewrite <-taken_cell. replace (crb - off + off) with crb by lia. split; [lia|]. split; [lia|done].
Qed.
Lemma all_set_spec symbols crbs : symbols_ok symbols -> crbs_ok g crbs -> exists r, carrier_all_set g symbols crbs = Some r /\ (r = true <-> forall s crb, in_grant symbols crbs s crb -> taken g s crb).
Proof using Hg.
  intros Hs Hc. destruct (carrier_rbs_spec symbols crbs Hs Hc) as (E & Hr1 & Hr2). pose proof grid_bw as [Hbw _]. destruct Hs as [Hs1 Hs2]. unfold NOF_OFDM_SYM_PER_SLOT_NORMAL_CP in *. unfold carrier_all_set. rewrite E.
  destruct (all_symbols_spec (nof_rbs g) (proj1 Hbw) (iv_start crbs - off) (iv_stop crbs - off) (nof_symbols symbols) (iv_start symbols) (slot_rbs g) grid_sized) as (r & -> & Hr); [lia|unfold nof_symbols; lia|done|done|]. exists r. split; [done|]. rewrite Hr. unfold in_grant, iv_in, nof_symbols. split.
  - intros Hall s crb [H1 H2]. replace crb with (crb - off + off) by lia. apply taken_cell, Hall; lia.
  - intros Hall s k H1 H2. apply taken_cell, Hall. lia.
Qed.
Lemma clear_spec : grid_ok (carrier_clear g) /\ carrier_cfg (carrier_clear g) = carrier_cfg g /\ forall s crb, ~ taken (carrier_clear g) s crb.
Proof using Hg.
  destruct (spec_reset_all SLOT_RBS_CAPACITY true (slot_rbs g) (go_bits _ Hg)) as [H1 H2]. split; [|split; [done|]].
  - split; [apply Hg|done|]. cbn. apply Hg.
  - intros s crb. unfold taken, cell. cbn [carrier_clear slot_rbs]. rewrite H2. intros H. apply lookup_replicate in H as [H _]. done.
Qed.
(** The blocks in use in some symbol of a range. *)
Lemma folded_spec symbols : symbols_ok symbols -> exists sel f, bs_slice SLOT_RBS_CAPACITY true (slot_rbs g) (iv_start symbols * nof_rbs g) (iv_stop symbols * nof_rbs g) = Some sel /\
  fold_and_accumulate MAX_NOF_PRBS true sel (nof_rbs g) 0 (nof_rbs g) = Some f /\ bs_ok MAX_NOF_PRBS f /\ bs_size f = nof_rbs g /\
  forall k, 0 <= k < nof_rbs g -> bits true f !! Z.to_nat k = Some true <-> exists s, iv_in s symbols /\ taken g s (k + off).
Proof using Hg.
  intros [Hs1 Hs2]. pose proof grid_bw as [Hbw _]. pose proof (go_size _ Hg) as Hsz. pose proof (go_bits _ Hg) as Hok. unfold NOF_OFDM_SYM_PER_SLOT_NORMAL_CP in *. set (bw := nof_rbs g) in *. set (l := bits true (slot_rbs g)).
  destruct (spec_slice SLOT_RBS_CAPACITY true (slot_rbs g) Hok SLOT_RBS_CAPACITY (iv_start symbols * bw) (iv_stop symbols * bw)) as (sel & Esel & Hselok & Hsel); [apply capacity|nia|nia|unfold SLOT_RBS_CAPACITY, NOF_OFDM_SYM_PER_SLOT_NORMAL_CP, MAX_NOF_PRBS; nia|]. fold l in Hsel.
  assert (length l = Z.to_nat (14 * bw)) as Hl by (unfold l; rewrite bits_length, Hsz; done). assert (length (bits true sel) = Z.to_nat ((iv_stop symbols - iv_start symbols) * bw)) as Hlsel by (rewrite Hsel, length_take, length_drop, Hl; nia).
  pose proof (spec_fold SLOT_RBS_CAPACITY MAX_NOF_PRBS true sel (Z.to_nat bw) 0 (Z.to_nat bw) Hselok) as Hfold. rewrite Z2Nat.id in Hfold by lia. specialize (Hfold ltac:(unfold MAX_NOF_PRBS; lia) ltac:(lia) ltac:(lia) ltac:(unfold MAX_NOF_PRBS; lia)). change (Z.of_nat 0) with 0 in Hfold.
  destruct (fold_and_accumulate _ _ sel bw 0 bw) as [f|] eqn:Ef; [|exfalso; apply Hfold; pose proof (spec_length _ true sel Hselok) as E; rewrite Hlsel in E; rewrite <-E, Z2Nat.id by nia; apply Z.mod_mul; lia]. destruct Hfold as (Hfok & m & Hm & Hf).
  destruct (folds_spec (bits true sel) (Z.to_nat bw) 0 (Z.to_nat bw) (seq 0 m) (replicate (Z.to_nat bw) false)) as [Hflen Hflk]; [apply length_replicate|intros i Hi; apply elem_of_seq in Hi; nia|]. rewrite <-Hf in Hflen, Hflk. assert (bs_size f = bw) as Hfs by (pose proof (spec_length _ true f Hfok); lia).
  assert (Z.of_nat m = iv_stop symbols - iv_start symbols) as Hmz by nia. exists sel, f. split; [done|]. split; [done|]. split; [done|]. split; [done|]. intros k Hk. rewrite Hflk by lia. split.
  - intros [H|(i & Hi & H)]; [by apply lookup_replicate in H as [H _]|]. apply elem_of_seq in Hi. exists (iv_start symbols + Z.of_nat i). split; [unfold iv_in; lia|]. apply taken_cell. fold bw. fold l. rewrite Hsel, lookup_take_lt, lookup_drop in H by nia. rewrite <-H. f_equal. nia.
  - intros (s & Hs & H). right. unfold iv_in in Hs. assert (exists j, s = iv_start symbols + Z.of_nat j) as [j ->] by (exists (Z.to_nat (s - iv_start symbols)); lia). exists j. split; [apply elem_of_seq; lia|]. rewrite taken_cell in H. fold bw in H. fold l in H. rewrite Hsel, lookup_take_lt, lookup_drop by nia. rewrite <-H. f_equal. apply Nat2Z.inj. rewrite !Nat2Z.inj_add, !Nat2Z.inj_mul, !Z2Nat.id by nia. ring.
Qed.
(** The bitmap of the blocks in use: bit [k] stands for the common resource block [off + k], but is compared with the limits as if it were [k]. *)
Lemma used_crbs_spec bwp symbols : symbols_ok symbols -> 0 <= iv_start bwp <= iv_stop bwp -> iv_stop bwp <= nof_rbs g -> exists u, carrier_used_crbs g bwp symbols = Some u /\ bs_ok MAX_NOF_PRBS u /\ bs_size u = nof_rbs g /\
  forall k, 0 <= k < nof_rbs g -> bits true u !! Z.to_nat k = Some true <-> ~ iv_in k bwp \/ exists s, iv_in s symbols /\ taken g s (k + off).
Proof using Hg.
  intros Hs Hb1 Hb2. pose proof grid_bw as [Hbw _]. destruct (folded_spec symbols Hs) as (sel & f & E1 & E2 & Hfok & Hfs & Hflk). unfold carrier_used_crbs. rewrite (proj2 (Z.leb_le _ _)) by apply Hs. cbn [negb]. rewrite E1, E2. set (bw := nof_rbs g) in *.
  destruct (spec_fill MAX_NOF_PRBS true f Hfok 0 (iv_start bwp) true ltac:(lia) ltac:(lia)) as (f1 & -> & Hf1ok & Hf1). pose proof (spec_length _ true f Hfok) as Hflen. assert (bs_size f1 = bw) as Hf1s by (pose proof (spec_length _ true f1 Hf1ok) as E; rewrite Hf1, length_imap in E; lia). rewrite Hf1s.
  destruct (spec_fill MAX_NOF_PRBS true f1 Hf1ok (iv_stop bwp) bw true ltac:(lia) ltac:(lia)) as (u & Eu & Huok & Hu). exists u. split; [done|]. split; [done|]. split; [pose proof (spec_length _ true u Huok) as E; rewrite Hu, length_imap, Hf1, length_imap in E; lia|].
  intros k Hk. rewrite <-Hflk by done. rewrite Hu, list_lookup_imap, Hf1, list_lookup_imap. destruct (lookup_lt_is_Some_2 (bits true f) (Z.to_nat k)) as [x Hx]; [lia|]. rewrite Hx. cbn [fmap option_fmap option_map]. rewrite Z2Nat.id by lia.
  unfold iv_in. destruct ((iv_stop bwp <=? k) && (k <? bw)) eqn:E3; [apply andb_true_iff in E3 as [E3 _]; breflect; split; [|done]; intros _; left; lia|]. apply andb_false_iff in E3. rewrite (proj2 (Z.leb_le 0 k)) by lia. cbn [andb]. destruct (k <? iv_start bwp) eqn:E4; breflect.
  - split; [|done]. intros _. left. lia.
  - assert (iv_start bwp <= k < iv_stop bwp) by (destruct E3; breflect; lia). split; [by right|]. intros [|]; [lia|done].
Qed.
End Carrier.
Lemma carrier_new_ok c : carrier_ok c -> grid_ok (carrier_grid_new c) /\ forall s crb, ~ taken (carrier_grid_new c) s crb.
Proof.
  intros Hc. pose proof (co_bw _ Hc) as Hbw. unfold MAX_NOF_PRBS in Hbw. assert (0 <= NOF_OFDM_SYM_PER_SLOT_NORMAL_CP * carrier_bandwidth c <= SLOT_RBS_CAPACITY) as Hfit by (unfold SLOT_RBS_CAPACITY, MAX_NOF_PRBS, NOF_OFDM_SYM_PER_SLOT_NORMAL_CP; lia). split.
  - split; [done|cbn; apply bitset_new_ok; [apply capacity|done]|done].
  - intros s crb. unfold taken, cell. cbn [carrier_grid_new slot_rbs]. rewrite new_bits by (apply capacity || done). intros H. by apply lookup_replicate in H as [H _].
Qed.
(** The grid of a carrier is a set of cells (symbol, common resource block). A new or cleared grid is empty; filling adds exactly the cells of the grant; [collides] and [all_set]
    tell whether a cell, or all cells, of a grant are in use; symbols outside the slot and resource blocks outside the carrier fail the checks; and the bitmap of the
    blocks in use has a one for every block that is used in one of the symbols or lies outside the limits. *)
Theorem carrier_grid_refines_cells g symbols crbs : grid_ok g ->
  (symbols_ok symbols -> crbs_ok g crbs ->
    (exists g', carrier_fill g symbols crbs = Some g' /\ grid_ok g' /\ carrier_cfg g' = carrier_cfg g /\ forall s crb, 0 <= s < 14 -> iv_in crb (rb_dims g) -> taken g' s crb <-> taken g s crb \/ in_grant symbols crbs s crb) /\
    (exists r, carrier_collides g symbols crbs = Some r /\ (r = true <-> exists s crb, in_grant symbols crbs s crb /\ taken g s crb)) /\
    (exists r, carrier_all_set g symbols crbs = Some r /\ (r = true <-> forall s crb, in_grant symbols crbs s crb -> taken g s crb))) /\
  (NOF_OFDM_SYM_PER_SLOT_NORMAL_CP < iv_stop symbols \/ iv_start crbs < iv_start (rb_dims g) \/ iv_stop (rb_dims g) < iv_stop crbs ->
    carrier_fill g symbols crbs = None /\ carrier_collides g symbols crbs = None /\ carrier_all_set g symbols crbs = None) /\
  (forall bwp, symbols_ok symbols -> 0 <= iv_start bwp <= iv_stop bwp -> iv_stop bwp <= nof_rbs g -> exists u, carrier_used_crbs g bwp symbols = Some u /\ bs_size u = nof_rbs g /\
    forall k, 0 <= k < nof_rbs g -> bits true u !! Z.to_nat k = Some true <-> ~ iv_in k bwp \/ exists s, iv_in s symbols /\ taken g s (k + iv_start (rb_dims g))) /\
  (grid_ok (carrier_clear g) /\ forall s crb, ~ taken (carrier_clear g) s crb) /\
  (forall c, carrier_ok c -> grid_ok (carrier_grid_new c) /\ forall s crb, ~ taken (carrier_grid_new c) s crb).
Proof.
  intros Hg. split_and!.
  - intros Hs Hc. split; [by apply carrier_fill_spec|]. split; [by apply collides_spec|by apply all_set_spec].
  - intros Hbad. unfold carrier_fill, carrier_collides, carrier_all_set. by rewrite carrier_rbs_fails.
  - intros bwp Hs H1 H2. destruct (used_crbs_spec g Hg bwp symbols Hs H1 H2) as (u & E & _ & Hsz & Hu). exists u. split; [done|]. by split.
  - by apply clear_spec.
  - by apply clear_spec.
  - apply carrier_new_ok.
Qed.
Lemma carrier_grid_refines_cells_witness : exists g', carrier_fill (carrier_grid_new (Carrier 0 1 52)) (Interval 2 5) (Interval 10 20) = Some g' /\ grid_ok g'.
Proof.
  assert (carrier_ok (Carrier 0 1 52)) as Hc by (split; vm_compute; split; congruence). pose proof (proj1 (carrier_new_ok _ Hc)) as Hg.
  destruct (carrier_grid_refines_cells (carrier_grid_new (Carrier 0 1 52)) (Interval 2 5) (Interval 10 20) Hg) as [H _]. destruct (H ltac:(split; vm_compute; try split; congruence) ltac:(split; vm_compute; try split; congruence)) as [(g' & H1 & H2 & _) _]. exists g'. split; [exact H1|exact H2].
Defined.

(** ** Allocations

    The schedulers of a cell find the resource blocks of a grant with the bitmap of the blocks in use, a search for a free run, and fill the run. *)
Definition request := (interval * interval * Z)%type.
Definition allocate (g : carrier_grid) (q : request) : option (carrier_grid * option interval) :=
  let '(bwp, symbols, n) := q in
  let* used := carrier_used_crbs g bwp symbols in
  let* r := find_empty_interval_of_length used n 0 in
  if iv_empty r then Some (g, None) else let* g' := carrier_fill g symbols r in Some (g', Some r).
Fixpoint allocate_all (g : carrier_grid) (qs : list request) : option (carrier_grid * list (interval * interval)) :=
  match qs with
  | [] => Some (g, [])
  | q :: qs =>
      let* (g, r) := allocate g q in
      let* (g, grants) := allocate_all g qs in
      Some (g, match r with Some r => [(q.1.2, r)] | None => [] end ++ grants)
  end.
Definition request_ok (bw : Z) (q : request) : Prop := symbols_ok q.1.2 /\ 0 <= iv_start q.1.1 <= iv_stop q.1.1 /\ iv_stop q.1.1 <= bw /\ 0 < q.2 <= 275.
Section Allocate.
Context (g : carrier_grid) (Hg : grid_ok g) (H0 : offset_to_carrier (carrier_cfg g) = 0).
(** Blocks are free in all symbols of a request. *)
Definition free_rbs (symbols : interval) (s e : Z) : Prop := forall crb sym, s <= crb < e -> iv_in sym symbols -> ~ taken g sym crb.
Lemma allocate_spec q : request_ok (nof_rbs g) q -> let '(bwp, symbols, n) := q in
  exists g' r, allocate g q = Some (g', r) /\ grid_ok g' /\ carrier_cfg g' = carrier_cfg g /\
    match r with
    | None => g' = g /\ forall s e, iv_start bwp <= s < e -> e <= iv_stop bwp -> ~ free_rbs symbols s e
    | Some r => crbs_ok g r /\ iv_contains bwp r = true /\ 0 < iv_length r <= n /\ free_rbs symbols (iv_start r) (iv_stop r) /\
        (forall s e, iv_start bwp <= s <= e -> e <= iv_stop bwp -> free_rbs symbols s e -> Z.min n (e - s) <= iv_length r) /\
        (forall s crb, 0 <= s < 14 -> iv_in crb (rb_dims g) -> taken g' s crb <-> taken g s crb \/ in_grant symbols r s crb)
    end.
Proof using Hg H0.
  destruct q as [[bwp symbols] n]. intros (Hs & Hb1 & Hb2 & Hn). cbn [fst snd] in *. pose proof (grid_bw g Hg) as [Hbw _]. unfold allocate. destruct (used_crbs_spec g Hg bwp symbols Hs Hb1 Hb2) as (u & -> & Huok & Husz & Hu). rewrite H0 in Hu.
  destruct (find_empty_best MAX_NOF_PRBS u n 0 Huok ltac:(unfold MAX_NOF_PRBS; lia) ltac:(lia) ltac:(lia)) as (r & -> & (Hr1 & Hr2 & Hr3 & Hr4 & _ & Hr5 & Hr6 & _)).
  assert (forall s e, 0 <= s -> s < e -> e <= nof_rbs g -> free (bits true u) s e <-> iv_start bwp <= s /\ e <= iv_stop bwp /\ free_rbs symbols s e) as Hfree.
  { intros s e Hs0 Hse He. assert (forall k, 0 <= k < nof_rbs g -> bits true u !! Z.to_nat k = Some false <-> iv_in k bwp /\ forall sym, iv_in sym symbols -> ~ taken g sym k) as Hk.
    { intros k Hk. specialize (Hu k Hk). replace (k + 0) with k in Hu by lia. destruct (lookup_lt_is_Some_2 (bits true u) (Z.to_nat k)) as [x Hx]; [rewrite bits_length; lia|]. rewrite Hx in Hu |- *. destruct x.
      - split; [done|]. intros [Hin Hno]. destruct (proj1 Hu eq_refl) as [Hout|(sym & Hsym & Ht)]; [done|by destruct (Hno sym Hsym)].
      - split; [|done]. intros _. split; [|intros sym Hsym Ht; discriminate (proj2 Hu ltac:(right; by exists sym))]. destruct (decide (iv_start bwp <= k /\ k < iv_stop bwp)) as [[]|Hn']; [by split|]. discriminate (proj2 Hu ltac:(left; exact Hn')). }
    unfold free, free_rbs. split.
    - intros Hf. pose proof (proj1 (Hk s ltac:(lia)) (Hf s ltac:(lia))) as [[? ?] _]. pose proof (proj1 (Hk (e - 1) ltac:(lia)) (Hf (e - 1) ltac:(lia))) as [[? ?] _]. split; [done|]. split; [lia|]. intros crb sym Hc Hsym. apply (proj1 (Hk crb ltac:(lia)) (Hf crb Hc)). done.
    - intros (H1 & H2 & Hf) p Hp. apply Hk; [lia|]. split; [split; lia|]. intros sym Hsym. by apply Hf. }
  destruct (iv_empty r) eqn:Ee; unfold iv_empty in Ee; breflect.
  - exists g, None. split; [done|]. split; [done|]. split; [done|]. split; [done|]. intros s e Hse He Hf. pose proof (Hr6 s e ltac:(lia) (proj2 (Hfree s e ltac:(lia) ltac:(lia) ltac:(lia)) ltac:(split; [lia|]; split; [lia|done]))). lia.
  - destruct (proj1 (Hfree (iv_start r) (iv_stop r) ltac:(lia) ltac:(lia) ltac:(lia)) Hr5) as (Hin1 & Hin2 & Hrf). assert (crbs_ok g r) as Hcr by (unfold crbs_ok, rb_dims, get_carrier_rb_dims; cbn [iv_start iv_stop]; rewrite H0; change (carrier_bandwidth (carrier_cfg g)) with (nof_rbs g); lia).
    destruct (carrier_fill_spec g Hg symbols r Hs Hcr) as (g' & -> & Hg' & Hc' & Ht). exists g', (Some r). split; [done|]. split; [done|]. split; [done|]. split; [done|]. split; [unfold iv_contains; by rewrite (proj2 (Z.leb_le _ _)), (proj2 (Z.leb_le _ _))|]. split; [lia|]. split; [done|]. split; [|done].
    intros s e Hse He Hf. destruct (decide (s = e)) as [->|]; [lia|]. apply Hr6; [lia|]. apply Hfree; [lia|lia|lia|]. split; [lia|]. by split.
Qed.
End Allocate.
Lemma grant_cells g symbols r s crb : symbols_ok symbols -> crbs_ok g r -> in_grant symbols r s crb -> 0 <= s < 14 /\ iv_in crb (rb_dims g).
Proof. intros [H1 H2] (H3 & H4 & H5) [[] []]. unfold NOF_OFDM_SYM_PER_SLOT_NORMAL_CP in *. split; [lia|]. split; lia. Qed.
Lemma allocate_all_spec qs : forall g, grid_ok g -> offset_to_carrier (carrier_cfg g) = 0 -> Forall (request_ok (nof_rbs g)) qs ->
  exists g' grants, allocate_all g qs = Some (g', grants) /\ grid_ok g' /\ carrier_cfg g' = carrier_cfg g /\
    (forall s crb, 0 <= s < 14 -> iv_in crb (rb_dims g) -> taken g' s crb <-> taken g s crb \/ exists gr, gr ∈ grants /\ in_grant gr.1 gr.2 s crb) /\
    (forall gr, gr ∈ grants -> symbols_ok gr.1 /\ crbs_ok g gr.2 /\ forall s crb, in_grant gr.1 gr.2 s crb -> ~ taken g s crb) /\
    (forall i j gi gj s crb, grants !! i = Some gi -> grants !! j = Some gj -> in_grant gi.1 gi.2 s crb -> in_grant gj.1 gj.2 s crb -> i = j).
Proof.
  induction qs as [|q qs IH]; intros g Hg H0 Hqs; cbn [allocate_all].
  - exists g, []. split_and!; try done; [|intros gr H; by apply elem_of_nil in H]. intros s crb _ _. split; [by left|]. intros [H|(gr & H & _)]; [done|by apply elem_of_nil in H].
  - apply Forall_cons_1 in Hqs as [Hq Hqs]. pose proof (allocate_spec g Hg H0 q Hq) as Hstep. pose proof Hq as (Hsym & _). destruct q as [[bwp symbols] n]. cbn [fst snd] in *. destruct Hstep as (g1 & r & -> & Hg1 & Hc1 & Hr). assert (nof_rbs g1 = nof_rbs g) as Hbw by (unfold nof_rbs; by rewrite Hc1). assert (rb_dims g1 = rb_dims g) as Hd by (unfold rb_dims; by rewrite Hc1).
    destruct (IH g1 Hg1 ltac:(by rewrite Hc1) ltac:(by rewrite Hbw)) as (g' & grants & -> & Hg' & Hc' & Ht' & Hgr' & Hdj'). rewrite Hd in Ht'. assert (forall x, crbs_ok g1 x -> crbs_ok g x) as Hcr by (intros x; unfold crbs_ok; by rewrite Hd).
    exists g', (match r with Some r => [(symbols, r)] | None => [] end ++ grants). split; [done|]. split; [done|]. split; [congruence|]. destruct r as [r|].
    + destruct Hr as (Hrc & _ & _ & Hfree & _ & Ht1). cbn [app]. assert (forall gr, gr ∈ grants -> forall s crb, in_grant gr.1 gr.2 s crb -> ~ in_grant symbols r s crb) as Hnew.
      { intros gr Hin s crb Hi Hi'. destruct (Hgr' gr Hin) as (Ha & Hb & Hno). destruct (grant_cells g _ _ _ _ Hsym Hrc Hi'). apply (Hno s crb Hi). apply Ht1; [done|done|by right]. }
      split_and!.
      * intros s crb Hs Hcrb. rewrite Ht', Ht1 by done. setoid_rewrite elem_of_cons. split.
        -- intros [[H|H]|(gr & H1 & H2)]; [by left|right; exists (symbols, r); tauto|right; exists gr; tauto].
        -- intros [H|(gr & [->|H1] & H2)]; [tauto|tauto|right; exists gr; tauto].
      * intros gr [->|Hin]%elem_of_cons; [cbn; split; [done|]; split; [done|]; intros s crb [H1 H2]; apply (Hfree crb s H2 H1)|]. destruct (Hgr' gr Hin) as (Ha & Hb & Hno). split; [done|]. split; [by apply Hcr|]. intros s crb Hi Ht. destruct (grant_cells g _ _ _ _ Ha (Hcr _ Hb) Hi). apply (Hno s crb Hi). apply Ht1; [done|done|by left].
      * intros [|i] [|j] gi gj s crb Hi Hj H1 H2; cbn in Hi, Hj; [done|injection Hi as <-; destruct (Hnew gj (list_elem_of_lookup_2 _ _ _ Hj) s crb H2 H1)|injection Hj as <-; destruct (Hnew gi (list_elem_of_lookup_2 _ _ _ Hi) s crb H1 H2)|f_equal; by eapply Hdj'].
    + destruct Hr as [-> _]. cbn [app]. split; [done|]. split; [done|done].
Qed.
(** C28: Resource blocks are never granted twice: for a carrier that starts at point A and requests of 1 to 275 blocks in a range of symbols of the slot, for
    bandwidth parts inside the carrier, every sequence of allocations (bitmap of the blocks in use within a bandwidth part, search for a free run, fill) succeeds;
    the grants lie in the carrier, are pairwise disjoint and avoid what was in use, and the grid is what was in use plus the grants; and each allocation grants a
    free run of blocks of the bandwidth part with exactly as many blocks as asked if there is such a run, and otherwise with as many as the longest free run has;
    it grants nothing, and leaves the grid, only when no block is free. *)
Theorem grid_allocations_disjoint g qs : grid_ok g -> offset_to_carrier (carrier_cfg g) = 0 -> Forall (request_ok (nof_rbs g)) qs ->
  (exists g' grants, allocate_all g qs = Some (g', grants) /\ grid_ok g' /\
    (forall s crb, 0 <= s < 14 -> iv_in crb (rb_dims g) -> taken g' s crb <-> taken g s crb \/ exists gr, gr ∈ grants /\ in_grant gr.1 gr.2 s crb) /\
    (forall gr, gr ∈ grants -> crbs_ok g gr.2 /\ forall s crb, in_grant gr.1 gr.2 s crb -> ~ taken g s crb) /\
    (forall i j gi gj s crb, grants !! i = Some gi -> grants !! j = Some gj -> in_grant gi.1 gi.2 s crb -> in_grant gj.1 gj.2 s crb -> i = j)) /\
  (forall bwp symbols n, request_ok (nof_rbs g) (bwp, symbols, n) -> exists g' r, allocate g (bwp, symbols, n) = Some (g', r) /\
    (forall s e, iv_start bwp <= s <= e -> e <= iv_stop bwp -> free_rbs g symbols s e -> Z.min n (e - s) <= match r with Some r => iv_length r | None => 0 end) /\
    match r with Some r => iv_contains bwp r = true /\ free_rbs g symbols (iv_start r) (iv_stop r) /\ 0 < iv_length r <= n | None => g' = g end).
Proof.
  intros Hg H0 Hqs. split.
  - destruct (allocate_all_spec qs g Hg H0 Hqs) as (g' & grants & H1 & H2 & _ & H3 & H4 & H5). exists g', grants. split; [done|]. split; [done|]. split; [done|]. split; [|done]. intros gr Hin. by destruct (H4 gr Hin) as (_ & ? & ?).
  - intros bwp symbols n Hq. destruct (allocate_spec g Hg H0 _ Hq) as (g' & r & E & _ & _ & Hr). exists g', r. split; [done|]. split; [|by destruct r; destruct Hr; intuition]. intros s e Hse He Hf. destruct r as [r|]; [by apply Hr|]. destruct (decide (s = e)) as [->|]; [lia|]. exfalso. by apply (proj2 Hr s e ltac:(lia) ltac:(lia)).
Qed.
Lemma grid_allocations_disjoint_witness : exists g' grants, allocate_all (carrier_grid_new (Carrier 0 1 52)) [(Interval 0 52, Interval 0 14, 5); (Interval 4 24, Interval 3 8, 100)] = Some (g', grants) /\ grid_ok g'.
Proof.
  assert (carrier_ok (Carrier 0 1 52)) as Hc by (split; vm_compute; split; congruence). pose proof (proj1 (carrier_new_ok _ Hc)) as Hg.
  destruct (grid_allocations_disjoint (carrier_grid_new (Carrier 0 1 52)) [(Interval 0 52, Interval 0 14, 5); (Interval 4 24, Interval 3 8, 100)] Hg eq_refl) as [(g' & grants & H1 & H2 & _) _].
  - repeat constructor; vm_compute; congruence.
  - exists g', grants. split; [exact H1|exact H2].
Defined.
(** For a carrier that does not start at point A the bitmap of the blocks in use is not numbered as its callers read it: it cannot be computed for a bandwidth part that
    reaches the end of the carrier, because the limits are not shifted to the carrier, and for one that fits by accident the search returns blocks that are in use. *)
Theorem used_crbs_ignores_carrier_offset :
  (forall g symbols, grid_ok g -> 0 < offset_to_carrier (carrier_cfg g) -> symbols_ok symbols -> carrier_used_crbs g (rb_dims g) symbols = None) /\
  (exists g u, carrier_fill (carrier_grid_new (Carrier 10 0 30)) (Interval 0 1) (Interval 12 14) = Some g /\ carrier_used_crbs g (Interval 12 20) (Interval 0 1) = Some u /\
    find_empty_interval_of_length u 2 0 = Some (Interval 12 14) /\ carrier_collides g (Interval 0 1) (Interval 12 14) = Some true).
Proof.
  split.
  - intros g symbols Hg Hoff Hs. pose proof (grid_bw g Hg) as [Hbw _]. destruct (folded_spec g Hg symbols Hs) as (sel & f & E1 & E2 & Hfok & Hfs & _). unfold carrier_used_crbs. rewrite (proj2 (Z.leb_le _ _)) by apply Hs. cbn [negb]. rewrite E1, E2.
    destruct (bs_fill true f 0 _ true) as [f1|] eqn:E3; [|done]. cbn [rb_dims get_carrier_rb_dims iv_start iv_stop] in *. assert (bs_size f1 = nof_rbs g) as Hf1s.
    { destruct (decide (offset_to_carrier (carrier_cfg g) <= nof_rbs g)) as [Hle|]; [|unfold bs_fill, find_first_word, range_bounds in E3; rewrite Hfs, (proj2 (Z.leb_gt _ (nof_rbs g))), andb_false_r in E3 by lia; done]. destruct (spec_fill _ true f Hfok 0 (offset_to_carrier (carrier_cfg g)) true ltac:(lia) ltac:(lia)) as (f2 & E & Hok2 & Hb2). rewrite E in E3. injection E3 as ->.
      pose proof (spec_length _ true f1 Hok2) as El. rewrite Hb2, length_imap in El. pose proof (spec_length _ true f Hfok). lia. }
    unfold bs_fill, find_first_word, range_bounds. rewrite Hf1s. rewrite (proj2 (Z.leb_gt _ (nof_rbs g))) by (unfold nof_rbs; unfold nof_rbs in *; lia). done.
  - eexists _, _. split; [vm_compute; reflexivity|]. split; [vm_compute; reflexivity|]. split; vm_compute; reflexivity.
Qed.
