(* ===== verification/ResourceGridRing.v ===== *)
(** * Resource grid: the carriers of a slot and the ring of slots *)
From S2P Require Import Prelude Bits BoundedBitset BitsetThms BitsetSpec RbInterval SlotPoint Tdd ResourceGrid ResourceGridThms.

(** ** Carriers *)
Record slot_grid_ok (carriers : list scs_specific_carrier) (g : slot_grid) : Prop := {
  sg_len : length (carrier_grids g) = length carriers; sg_tab : length (numerology_to_grid_idx g) = 5%nat; sg_small : (length carriers <= 5)%nat;
  sg_at : forall i c, carriers !! i = Some c -> numerology_to_grid_idx g !! Z.to_nat (carrier_scs c) = Some (Z.of_nat i) /\ exists cg, carrier_grids g !! i = Some cg /\ carrier_cfg cg = c /\ grid_ok cg;
  sg_none : forall u, 0 <= u < 5 -> (forall c, c ∈ carriers -> carrier_scs c <> u) -> numerology_to_grid_idx g !! Z.to_nat u = Some NO_GRID; }.
Lemma distinct_small carriers : NoDup (map carrier_scs carriers) -> Forall carrier_ok carriers -> (length carriers <= 5)%nat.
Proof.
  intros Hnd Hok. rewrite <-(length_map carrier_scs). change 5%nat with (length (seqZ 0 5)). apply submseteq_length, NoDup_submseteq; [done|]. intros u (c & -> & Hc)%list_elem_of_fmap. rewrite Forall_forall in Hok. destruct (co_scs _ (Hok c (proj1 (list_elem_of_In _ _) Hc))) as [H1 H2]. apply elem_of_seqZ. unfold NOF_NUMEROLOGIES in H2. lia.
Qed.
Lemma add_carriers_ok rest : forall pre g, slot_grid_ok pre g -> NoDup (map carrier_scs (pre ++ rest)) -> Forall carrier_ok (pre ++ rest) ->
  slot_grid_ok (pre ++ rest) (add_carriers rest g) /\ ((forall cg, cg ∈ carrier_grids g -> forall s crb, ~ taken cg s crb) -> forall cg, cg ∈ carrier_grids (add_carriers rest g) -> forall s crb, ~ taken cg s crb).
Proof.
  induction rest as [|c rest IH]; intros pre g Hg Hnd Hok; cbn [add_carriers]; [by rewrite app_nil_r|]. pose proof (distinct_small _ Hnd Hok) as Hsm. rewrite length_app in Hsm. cbn [length] in Hsm.
  assert (carrier_ok c) as Hc by (rewrite Forall_forall in Hok; apply Hok, in_or_app; right; by left). pose proof (co_scs _ Hc) as Hscs. unfold NOF_NUMEROLOGIES in Hscs. destruct (carrier_new_ok c Hc) as [Hnew Hempty].
  assert (forall c', c' ∈ pre -> carrier_scs c' <> carrier_scs c) as Hdist. { intros c' Hc' E. rewrite map_app in Hnd. apply list.NoDup_app in Hnd as (_ & Hd & _). apply (Hd (carrier_scs c')); [by apply list_elem_of_fmap; exists c'|]. cbn [map]. rewrite E. by left. }
  set (g1 := SlotGrid _ _). replace (pre ++ c :: rest) with ((pre ++ [c]) ++ rest) in * by (by rewrite <-app_assoc). assert (slot_grid_ok (pre ++ [c]) g1) as Hg1.
  { destruct Hg as [G1 G2 G3 G4 G5]. split; cbn [g1 carrier_grids numerology_to_grid_idx].
    - rewrite !length_app. cbn [length]. lia.
    - by rewrite length_insert.
    - rewrite length_app. cbn [length]. lia.
    - intros i c' Hi. apply lookup_snoc_Some in Hi as [[Hlt Hi]|[-> <-]].
      + destruct (G4 i c' Hi) as (H1 & cg & H2 & H3). assert (c' ∈ pre) as Hin by (by eapply list_elem_of_lookup_2). assert (carrier_ok c') as Hc' by (rewrite Forall_forall in Hok; apply Hok; rewrite <-app_assoc; apply in_or_app; left; by apply list_elem_of_In). pose proof (co_scs _ Hc'). pose proof (Hdist c' Hin). rewrite list_lookup_insert_ne by lia. split; [done|]. exists cg. split; [by rewrite lookup_app_l by lia|done].
      + rewrite list_lookup_insert_eq by lia. split; [f_equal; rewrite length_app; cbn [length]; lia|]. exists (carrier_grid_new c). split; [rewrite lookup_app_r by lia; by rewrite G1, Nat.sub_diag|done].
    - intros u Hu Hno. rewrite list_lookup_insert_ne. 2:{ assert (carrier_scs c <> u) by (apply Hno, elem_of_app; right; by left). lia. } apply G5; [done|]. intros c' Hc'. apply Hno, elem_of_app. by left. }
  destruct (IH (pre ++ [c]) g1 Hg1 Hnd Hok) as [H1 H2]. split; [done|]. intros He. apply H2. cbn [g1 carrier_grids]. intros cg [Hin|Hin]%elem_of_app; [by apply He|]. apply list_elem_of_singleton in Hin as ->. done.
Qed.
Lemma slot_grid_new_ok carriers : NoDup (map carrier_scs carriers) -> Forall carrier_ok carriers -> slot_grid_ok carriers (slot_grid_new carriers) /\ forall cg, cg ∈ carrier_grids (slot_grid_new carriers) -> forall s crb, ~ taken cg s crb.
Proof.
  intros Hnd Hok. destruct (add_carriers_ok carriers [] (SlotGrid [] (replicate (Z.to_nat NOF_NUMEROLOGIES) NO_GRID))) as [H1 H2]; [|done|done|split; [exact H1|apply H2; intros cg H; by apply elem_of_nil in H]]. split; [done|done|cbn; lia|done|]. intros u Hu _. cbn [numerology_to_grid_idx]. apply lookup_replicate_2. unfold NOF_NUMEROLOGIES. lia.
Qed.
Section Slot.
Context (carriers : list scs_specific_carrier) (g : slot_grid) (Hg : slot_grid_ok carriers g).
Lemma carrier_at i c : carriers !! i = Some c -> get_carrier_idx g (carrier_scs c) = Some (Z.of_nat i) /\ exists cg, get_carrier g (carrier_scs c) = Some cg /\ carrier_grids g !! i = Some cg /\ carrier_cfg cg = c /\ grid_ok cg.
Proof using Hg.
  intros Hi. destruct (sg_at _ _ Hg i c Hi) as (H1 & cg & H2 & H3). assert (get_carrier_idx g (carrier_scs c) = Some (Z.of_nat i)) as E.
  { unfold get_carrier_idx. rewrite H1. apply lookup_lt_Some in H2. by rewrite (proj2 (Z.ltb_lt _ _)) by lia. }
  split; [done|]. exists cg. unfold get_carrier. rewrite E, Nat2Z.id. done.
Qed.
Lemma carrier_absent u : 0 <= u < 5 -> (forall c, c ∈ carriers -> carrier_scs c <> u) -> get_carrier_idx g u = None.
Proof using Hg.
  intros Hu Hno. unfold get_carrier_idx. rewrite (sg_none _ _ Hg u Hu Hno). pose proof (sg_len _ _ Hg). pose proof (sg_small _ _ Hg). rewrite (proj2 (Z.ltb_ge NO_GRID _)); [done|]. unfold NO_GRID. lia.
Qed.
(** A carrier is replaced. *)
Lemma replace_ok i c cg : carriers !! i = Some c -> grid_ok cg -> carrier_cfg cg = c -> slot_grid_ok carriers (SlotGrid (<[i := cg]> (carrier_grids g)) (numerology_to_grid_idx g)).
Proof using Hg.
  intros Hi Hcg Hc. destruct Hg as [G1 G2 G3 G4 G5]. split; cbn [carrier_grids numerology_to_grid_idx]; [by rewrite length_insert|done|done| |done]. intros j c' Hj. destruct (G4 j c' Hj) as (H1 & cg' & H2 & H3). split; [done|]. destruct (decide (j = i)) as [->|].
  - exists cg. rewrite list_lookup_insert_eq by (apply lookup_lt_Some in H2; lia). assert (c' = c) as -> by congruence. done.
  - exists cg'. by rewrite list_lookup_insert_ne.
Qed.
Lemma slot_clear_ok : slot_grid_ok carriers (slot_grid_clear g) /\ forall cg, cg ∈ carrier_grids (slot_grid_clear g) -> forall s crb, ~ taken cg s crb.
Proof using Hg.
  destruct Hg as [G1 G2 G3 G4 G5]. split.
  - split; cbn [slot_grid_clear carrier_grids numerology_to_grid_idx]; [by rewrite length_map|done|done| |done]. intros i c Hi. destruct (G4 i c Hi) as (H1 & cg & H2 & <- & H4). split; [done|]. exists (carrier_clear cg). rewrite list_lookup_fmap, H2. split; [done|]. split; [done|]. by apply clear_spec.
  - cbn [slot_grid_clear carrier_grids]. intros cg (cg' & -> & Hin)%list_elem_of_fmap. apply list_elem_of_lookup in Hin as [i Hi]. destruct (lookup_lt_is_Some_2 carriers i) as [c Hc]; [apply lookup_lt_Some in Hi; lia|]. destruct (G4 i c Hc) as (_ & cg2 & H2 & _ & H4). assert (cg2 = cg') as -> by congruence. by apply clear_spec.
Qed.
End Slot.
(** The grid of a slot keeps the carriers of its numerologies apart: a grant for the numerology of one carrier is checked against and stored in that carrier only, other numerologies fail,
    and a new or cleared grid has no cell in use. *)
Theorem slot_grid_per_numerology carriers g grant : NoDup (map carrier_scs carriers) -> Forall carrier_ok carriers -> slot_grid_ok carriers g -> symbols_ok (grant_symbols grant) ->
  (forall i c cg, carriers !! i = Some c -> carrier_scs c = grant_scs grant -> carrier_grids g !! i = Some cg -> crbs_ok cg (grant_crbs grant) ->
    slot_grid_collides g grant = carrier_collides cg (grant_symbols grant) (grant_crbs grant) /\ slot_grid_all_set g grant = carrier_all_set cg (grant_symbols grant) (grant_crbs grant) /\
    exists g' cg', slot_grid_fill g grant = Some g' /\ slot_grid_ok carriers g' /\ carrier_fill cg (grant_symbols grant) (grant_crbs grant) = Some cg' /\ carrier_grids g' !! i = Some cg' /\ forall j, j <> i -> carrier_grids g' !! j = carrier_grids g !! j) /\
  (0 <= grant_scs grant < 5 -> (forall c, c ∈ carriers -> carrier_scs c <> grant_scs grant) -> slot_grid_fill g grant = None /\ slot_grid_collides g grant = None) /\
  (slot_grid_ok carriers (slot_grid_new carriers) /\ slot_grid_ok carriers (slot_grid_clear g) /\ forall cg, cg ∈ carrier_grids (slot_grid_new carriers) \/ cg ∈ carrier_grids (slot_grid_clear g) -> forall s crb, ~ taken cg s crb).
Proof.
  intros Hnd Hcs Hg Hsym. split_and!.
  - intros i c cg Hi Hscs Hcg Hcr. destruct (carrier_at carriers g Hg i c Hi) as (Eidx & cg0 & Ec & Ec' & Hcfg & Hok). assert (cg0 = cg) as -> by congruence. rewrite Hscs in *. unfold slot_grid_collides, slot_grid_all_set. rewrite Ec. split; [done|]. split; [done|].
    destruct (carrier_fill_spec cg Hok _ _ Hsym Hcr) as (cg' & Ef & Hok' & Hcfg' & _). unfold slot_grid_fill. rewrite Eidx, Nat2Z.id, Hcg, Ef. eexists _, cg'. split; [done|]. split; [apply (replace_ok carriers g Hg i c); [done|done|congruence]|]. split; [done|]. cbn [carrier_grids]. split; [apply list_lookup_insert_eq; by eapply lookup_lt_Some|]. intros j Hj. by apply list_lookup_insert_ne.
  - intros Hu Hno. unfold slot_grid_fill, slot_grid_collides, get_carrier. by rewrite (carrier_absent carriers g Hg).
  - by apply slot_grid_new_ok.
  - by apply slot_clear_ok.
  - intros cg [H|H]; [by apply (slot_grid_new_ok carriers Hnd Hcs)|by apply (slot_clear_ok carriers g Hg)].
Qed.

(** ** The ring *)
Lemma slot_add_0 s : slot_ok s -> slot_add_int s 0 = s.
Proof. intros Hs. destruct (slot_add_int_ok s 0 Hs) as (_ & Hn & Hc). rewrite Z.add_0_r, Z.mod_small in Hc by apply Hs. destruct (slot_add_int s 0), s. cbn in *. congruence. Qed.
(** The size of the ring divides the number of slots of the system frame. *)
Lemma ring_mod s k : slot_ok s -> count_val (slot_add_int s k) mod 40 = (count_val s + k) mod 40.
Proof. intros Hs. destruct (slot_add_int_ok s k Hs) as (_ & _ & ->). destruct Hs as [Hn _]. apply Z.mod_mod_divide. slot_cases s; rewrite Hsf; [by exists 256|by exists 512|by exists 1024|by exists 2048|by exists 4096]. Qed.
Lemma ring_distinct c d1 d2 : 0 <= d1 < 40 -> 0 <= d2 < 40 -> (c + d1) mod 40 = (c + d2) mod 40 -> d1 = d2.
Proof. intros H1 H2 H. mlia. Qed.
Section RingThms.
Context {R : Type} (r0 : R).
Local Notation slot_allocator := (@slot_allocator R).
Local Notation cell_allocator := (@cell_allocator R).
Context (cfg : cell_cfg) (dl_last ul_last : scs_specific_carrier).
Record cfg_ok : Prop := {
  cf_dl : back (dl_scs_carrier_list cfg) = Some dl_last; cf_ul : back (ul_scs_carrier_list cfg) = Some ul_last;
  cf_dls : NoDup (map carrier_scs (dl_scs_carrier_list cfg)) /\ Forall carrier_ok (dl_scs_carrier_list cfg); cf_uls : NoDup (map carrier_scs (ul_scs_carrier_list cfg)) /\ Forall carrier_ok (ul_scs_carrier_list cfg);
  cf_sorted : Forall (fun c => carrier_scs c <= Z.max (carrier_scs dl_last) (carrier_scs ul_last)) (dl_scs_carrier_list cfg ++ ul_scs_carrier_list cfg);
  cf_symbols : forall sl, slot_ok sl -> numerology_val sl = carrier_scs dl_last -> is_Some (get_nof_dl_symbol_per_slot (cfg_symbols cfg) sl) /\ is_Some (get_nof_ul_symbol_per_slot (cfg_symbols cfg) sl); }.
Context (Hcfg : cfg_ok).
Let max_scs := Z.max (carrier_scs dl_last) (carrier_scs ul_last).
Definition grids_ok (idx : nat) (s : slot_allocator) : Prop :=
  slot_grid_ok (carriers_at max_scs (Z.of_nat idx) (dl_scs_carrier_list cfg)) (dl_res_grid s) /\ slot_grid_ok (carriers_at max_scs (Z.of_nat idx) (ul_scs_carrier_list cfg)) (ul_res_grid s).
(** Nothing is allocated in the slot. *)
Definition fresh (s : slot_allocator) : Prop :=
  result_success (alloc_result s) = true /\ result_grants (alloc_result s) = r0 /\ Some (result_nof_dl_symbols (alloc_result s)) = get_nof_dl_symbol_per_slot (cfg_symbols cfg) (alloc_slot s) /\
  forall cg, cg ∈ carrier_grids (dl_res_grid s) \/ cg ∈ carrier_grids (ul_res_grid s) -> forall sym crb, ~ taken cg sym crb.
Lemma carriers_at_ok i carriers : NoDup (map carrier_scs carriers) /\ Forall carrier_ok carriers -> NoDup (map carrier_scs (carriers_at max_scs i carriers)) /\ Forall carrier_ok (carriers_at max_scs i carriers).
Proof.
  intros [H1 H2]. unfold carriers_at. split.
  - apply (sublist_NoDup _ _ H1), fmap_sublist, sublist_filter.
  - apply Forall_forall. intros c Hc. apply list_elem_of_In, list_elem_of_filter in Hc as [_ Hc]. rewrite Forall_forall in H2. by apply H2, list_elem_of_In.
Qed.
Lemma indication_spec idx s sl : grids_ok idx s -> slot_ok sl -> numerology_val sl = carrier_scs dl_last -> exists s', allocator_slot_indication r0 cfg s sl = Some s' /\ alloc_slot s' = sl /\ grids_ok idx s' /\ fresh s'.
Proof using Hcfg.
  intros [Hd Hu] Hsl Hn. destruct (cf_symbols Hcfg sl Hsl Hn) as [[nd End] [nu Enu]]. unfold allocator_slot_indication. rewrite End, Enu. eexists. split; [done|]. split; [done|]. destruct (slot_clear_ok _ _ Hd) as [H1 H2]. destruct (slot_clear_ok _ _ Hu) as [H3 H4]. split; [by split|]. split; [done|]. split; [done|]. split; [done|]. intros cg [H|H]; [by apply H2|by apply H4].
Qed.
(** The entry of a slot relative to a start. *)
Definition entry (a : cell_allocator) (sl : slot_point) (d : Z) : option slot_allocator := slots a !! Z.to_nat ((count_val sl + d) mod 40).
Record ring_ok (a : cell_allocator) : Prop := {
  ro_len : length (slots a) = 40%nat; ro_last : slot_ok (last_slot_ind a); ro_num : numerology_val (last_slot_ind a) = carrier_scs dl_last;
  ro_grids : forall idx s, slots a !! idx = Some s -> grids_ok idx s;
  ro_entry : forall d, 0 <= d < 40 -> exists s, entry a (last_slot_ind a) d = Some s /\ alloc_slot s = slot_add_int (last_slot_ind a) d; }.
Lemma ring_index_mod (a : cell_allocator) sl k : length (slots a) = 40%nat -> slot_ok sl -> ring_index a (slot_add_int sl k) = Z.to_nat ((count_val sl + k) mod 40).
Proof. intros Hl Hs. unfold ring_index. rewrite Hl. change (Z.of_nat 40) with 40. by rewrite ring_mod. Qed.
Lemma indicate_at_spec (a : cell_allocator) idx s sl : (forall i x, slots a !! i = Some x -> grids_ok i x) -> slots a !! idx = Some s -> slot_ok sl -> numerology_val sl = carrier_scs dl_last ->
  exists s', indicate_at r0 cfg a idx sl = Some (CellAllocator (last_slot_ind a) (<[idx := s']> (slots a))) /\ alloc_slot s' = sl /\ fresh s' /\ forall i x, <[idx := s']> (slots a) !! i = Some x -> grids_ok i x.
Proof using Hcfg.
  intros Hgr Hs Hsl Hn. destruct (indication_spec idx s sl (Hgr _ _ Hs) Hsl Hn) as (s' & E & H1 & H2 & H3). exists s'. unfold indicate_at. rewrite Hs, E. split; [done|]. split; [done|]. split; [done|]. intros i x Hx. destruct (decide (i = idx)) as [->|]; [|rewrite list_lookup_insert_ne in Hx by done; by apply Hgr].
  rewrite list_lookup_insert_eq in Hx by (by eapply lookup_lt_Some). by injection Hx as <-.
Qed.
Lemma indicate_all_spec sl n : forall i a, slot_ok sl -> numerology_val sl = carrier_scs dl_last -> length (slots a) = 40%nat -> (forall idx s, slots a !! idx = Some s -> grids_ok idx s) -> 0 <= i -> i + Z.of_nat n = 40 ->
  (forall d, 0 <= d < i -> exists s, entry a sl d = Some s /\ alloc_slot s = slot_add_int sl d /\ fresh s) ->
  exists a', indicate_all r0 cfg n i sl a = Some a' /\ length (slots a') = 40%nat /\ (forall idx s, slots a' !! idx = Some s -> grids_ok idx s) /\ forall d, 0 <= d < 40 -> exists s, entry a' sl d = Some s /\ alloc_slot s = slot_add_int sl d /\ fresh s.
Proof using Hcfg.
  induction n as [|n IH]; intros i a Hsl Hn Hl Hgr Hi Hni Hdone; cbn [indicate_all]; [exists a; split; [done|]; split; [done|]; split; [done|]; intros d Hd; apply Hdone; lia|].
  rewrite slot_add_eq by (done || lia). rewrite ring_index_mod by done. set (idx := Z.to_nat ((count_val sl + i) mod 40)). pose proof (Z.mod_pos_bound (count_val sl + i) 40 ltac:(lia)) as Hm. destruct (lookup_lt_is_Some_2 (slots a) idx) as [s Hs]; [unfold idx; lia|]. destruct (slot_add_int_ok sl i Hsl) as (Hok' & Hn' & _).
  destruct (indicate_at_spec a idx s (slot_add_int sl i) Hgr Hs Hok' ltac:(congruence)) as (s' & -> & H1 & H2 & H3). apply IH; [done|done|cbn; by rewrite length_insert|done|lia|lia|]. intros d Hd. unfold entry. cbn [slots]. destruct (decide (d = i)) as [->|Hne].
  - exists s'. fold idx. split; [apply list_lookup_insert_eq; by eapply lookup_lt_Some|done].
  - rewrite list_lookup_insert_ne; [apply Hdone; lia|]. intros E. apply Hne. symmetry. apply (ring_distinct (count_val sl)); [lia|lia|]. pose proof (Z.mod_pos_bound (count_val sl + d) 40 ltac:(lia)). unfold idx in E. lia.
Qed.
(** The first indication. *)
Lemma new_ring_spec sl : slot_ok sl -> numerology_val sl = carrier_scs dl_last -> exists a a', cell_allocator_new r0 cfg = Some a /\ cell_slot_indication r0 cfg a sl = Some a' /\ ring_ok a' /\ last_slot_ind a' = sl /\ forall d, 0 <= d < 40 -> exists s, entry a' sl d = Some s /\ alloc_slot s = slot_add_int sl d /\ fresh s.
Proof using Hcfg.
  intros Hsl Hn. unfold cell_allocator_new. rewrite (cf_dl Hcfg), (cf_ul Hcfg). fold max_scs. assert (existsb (fun c => max_scs <? carrier_scs c) (dl_scs_carrier_list cfg ++ ul_scs_carrier_list cfg) = false) as ->.
  { destruct (existsb _ _) eqn:E; [|done]. apply existsb_exists in E as (c & Hin & Hc). breflect. pose proof (cf_sorted Hcfg) as Hsrt. rewrite Forall_forall in Hsrt. pose proof (Hsrt c Hin). unfold max_scs in Hc. lia. }
  set (a := CellAllocator _ _). exists a. assert (length (slots a) = 40%nat) as Hl by (unfold a; cbn [slots]; rewrite length_map, length_seq; reflexivity).
  assert (forall idx s, slots a !! idx = Some s -> grids_ok idx s) as Hgr.
  { intros idx s Hs. unfold a in Hs. cbn [slots] in Hs. rewrite list_lookup_fmap in Hs. apply fmap_Some in Hs as (i & Hi & ->). apply lookup_seq in Hi as [-> _]. cbn [Nat.add]. split; apply slot_grid_new_ok; apply carriers_at_ok, Hcfg. }
  destruct (indicate_all_spec sl 40 0 a Hsl Hn Hl Hgr ltac:(lia) ltac:(lia) ltac:(intros; lia)) as (a' & E & Hl' & Hgr' & Hent). exists (CellAllocator sl (slots a')). split; [done|]. split.
  - unfold cell_slot_indication. rewrite (cf_dl Hcfg). change (slot_valid (last_slot_ind a)) with false. cbn [negb orb]. rewrite (proj2 (Z.eqb_eq _ _)) by done. cbn [negb]. rewrite Hl, E. done.
  - split; [|done]. split; [done|done|done|done|]. intros d Hd. destruct (Hent d Hd) as (s & H1 & H2 & _). by exists s.
Qed.
(** A further indication. *)
Lemma next_slot_spec a : ring_ok a -> exists a', cell_slot_indication r0 cfg a (slot_add_int (last_slot_ind a) 1) = Some a' /\ ring_ok a' /\ last_slot_ind a' = slot_add_int (last_slot_ind a) 1 /\
  (forall d, 0 <= d < 39 -> entry a' (last_slot_ind a') d = entry a (last_slot_ind a) (d + 1)) /\ exists s, entry a' (last_slot_ind a') 39 = Some s /\ fresh s.
Proof using Hcfg.
  intros Ha. pose proof Ha as [Hl Hsl Hn Hgr Hent]. set (last := last_slot_ind a) in *. destruct (slot_add_int_ok last 1 Hsl) as (Hok1 & Hn1 & Hc1). unfold cell_slot_indication. rewrite (cf_dl Hcfg). fold last. assert (slot_valid last = true) as -> by (apply Z.ltb_lt; apply Hsl). assert (slot_eqb (slot_add_int last 1) (slot_add_int last 1) = true) as -> by (unfold slot_eqb; by rewrite !Z.eqb_refl). cbn [negb orb]. rewrite (proj2 (Z.eqb_eq _ _)) by congruence. cbn [negb].
  assert (slot_sub (slot_add_int last 1) 1 = slot_add_int last 0) as -> by (unfold slot_sub; by rewrite slot_add_add). rewrite ring_index_mod by done. destruct (Hent 0 ltac:(lia)) as (old & Hold & Hslot). unfold entry in Hold. rewrite Hold, Hslot, slot_add_0, Hl by done. change (Z.of_nat 40) with 40. rewrite slot_add_eq by (done || lia). destruct (slot_add_int_ok last 40 Hsl) as (Hok40 & Hn40 & _).
  destruct (indicate_at_spec a _ old (slot_add_int last 40) Hgr Hold Hok40 ltac:(congruence)) as (s' & -> & H1 & H2 & H3). set (idx := Z.to_nat ((count_val last + 0) mod 40)) in *. eexists. split; [done|].
  assert (forall d, Z.to_nat ((count_val (slot_add_int last 1) + d) mod 40) = Z.to_nat ((count_val last + (d + 1)) mod 40)) as Hshift by (intros d; rewrite <-Z.add_mod_idemp_l, ring_mod, Z.add_mod_idemp_l by (done || lia); do 2 f_equal; lia).
  assert (forall d, 0 <= d < 39 -> <[idx := s']> (slots a) !! Z.to_nat ((count_val (slot_add_int last 1) + d) mod 40) = slots a !! Z.to_nat ((count_val last + (d + 1)) mod 40)) as Hkeep.
  { intros d Hd. rewrite Hshift. apply list_lookup_insert_ne. intros E. assert (0 = d + 1); [|lia]. apply (ring_distinct (count_val last)); [lia|lia|]. pose proof (Z.mod_pos_bound (count_val last + 0) 40 ltac:(lia)). pose proof (Z.mod_pos_bound (count_val last + (d + 1)) 40 ltac:(lia)). unfold idx in E. lia. }
  assert (<[idx := s']> (slots a) !! Z.to_nat ((count_val (slot_add_int last 1) + 39) mod 40) = Some s') as Hlast.
  { rewrite Hshift. replace ((count_val last + (39 + 1)) mod 40) with ((count_val last + 0) mod 40) by mlia. fold idx. apply list_lookup_insert_eq. by eapply lookup_lt_Some. }
  split_and!; [|done|unfold entry; cbn [slots last_slot_ind]; done|exists s'; by split].
  split; cbn [slots last_slot_ind]; [by rewrite length_insert|done|congruence|done|]. intros d Hd. unfold entry. cbn [slots]. rewrite slot_add_add by done. destruct (decide (d = 39)) as [->|].
  - exists s'. by split.
  - rewrite Hkeep by lia. destruct (Hent (d + 1) ltac:(lia)) as (s & E1 & E2). exists s. split; [done|]. rewrite E2. f_equal. lia.
Qed.
Lemma access_spec (a : cell_allocator) d : ring_ok a -> 0 <= d -> access_delay a d = (if d <? 40 then Some (Z.to_nat ((count_val (last_slot_ind a) + d) mod 40)) else None).
Proof using Type.
  intros [Hl Hsl Hn Hgr Hent] Hd. unfold access_delay. change RING_ALLOCATOR_SIZE with 40. destruct (d <? 40) eqn:E; breflect; cbn [negb]; [|done]. rewrite slot_add_eq by (done || lia). rewrite ring_index_mod by done. destruct (Hent d ltac:(lia)) as (s & E1 & E2). unfold entry in E1. rewrite E1, E2. assert (slot_eqb (slot_add_int (last_slot_ind a) d) (slot_add_int (last_slot_ind a) d) = true) as -> by (unfold slot_eqb; by rewrite !Z.eqb_refl). done.
Qed.
End RingThms.
(** C39: The ring of slots is a window on the coming slots. From its construction, the first indication of any slot makes the next 40 slots accessible and empty. Every further indication of the next slot
    succeeds, keeps the allocations of all slots that are still ahead, and gives the entry of the slot that passed to the slot 40 later, empty and with its number of
    symbols; any other slot fails. An access by delay or by slot returns the entry of exactly that slot, for 40 slots from the last indication on, across the
    wrap-around of the system frame number; accesses to the past or further ahead fail. *)
Theorem cell_ring_correct {R} (r0 : R) cfg dl_last ul_last : cfg_ok cfg dl_last ul_last ->
  (forall sl, slot_ok sl -> numerology_val sl = carrier_scs dl_last -> exists a a', cell_allocator_new r0 cfg = Some a /\ cell_slot_indication r0 cfg a sl = Some a' /\ ring_ok cfg dl_last ul_last a' /\ last_slot_ind a' = sl /\
    forall d, 0 <= d < 40 -> exists s, entry a' sl d = Some s /\ alloc_slot s = slot_add_int sl d /\ fresh r0 cfg s) /\
  (forall a, ring_ok cfg dl_last ul_last a ->
    (exists a', cell_slot_indication r0 cfg a (slot_add_int (last_slot_ind a) 1) = Some a' /\ ring_ok cfg dl_last ul_last a' /\ last_slot_ind a' = slot_add_int (last_slot_ind a) 1 /\
      (forall d, 0 <= d < 39 -> entry a' (last_slot_ind a') d = entry a (last_slot_ind a) (d + 1)) /\ exists s, entry a' (last_slot_ind a') 39 = Some s /\ fresh r0 cfg s) /\
    (forall sl, sl <> slot_add_int (last_slot_ind a) 1 -> cell_slot_indication r0 cfg a sl = None) /\
    (forall k, - (nof_slots_per_system_frame (last_slot_ind a) / 2) < k < nof_slots_per_system_frame (last_slot_ind a) / 2 ->
      match access_slot a (slot_add_int (last_slot_ind a) k) with
      | Some i => 0 <= k < 40 /\ access_delay a k = Some i /\ exists s, slots a !! i = Some s /\ alloc_slot s = slot_add_int (last_slot_ind a) k
      | None => k < 0 \/ 40 <= k
      end)).
Proof.
  intros Hcfg. split; [intros sl Hsl Hn; by apply (new_ring_spec r0 cfg dl_last ul_last)|]. intros a Ha. pose proof (ro_last _ _ _ _ Ha) as Hlast. split; [by apply next_slot_spec|]. split.
  - intros sl Hne. unfold cell_slot_indication. rewrite (cf_dl _ _ _ Hcfg). assert (slot_valid (last_slot_ind a) = true) as -> by (apply Z.ltb_lt; apply Hlast). assert (slot_eqb (slot_add_int (last_slot_ind a) 1) sl = false) as ->; [|done]. destruct (slot_eqb _ sl) eqn:E; [|done]. exfalso. apply Hne. unfold slot_eqb in E. apply andb_true_iff in E as [E1 E2]. breflect. destruct sl, (slot_add_int _ 1). cbn in *. congruence.
  - intros k Hk. destruct (slot_compare (last_slot_ind a) k 0 Hlast ltac:(lia)) as (_ & _ & Hd). rewrite slot_add_0 in Hd by done. unfold access_slot. rewrite Hd, Z.sub_0_r. pose proof (system_frame_pos (last_slot_ind a) (proj1 Hlast)) as [Hp _]. destruct (decide (0 <= k)) as [H0|H0].
    + rewrite u32_id by (unfold is_u32; mlia). rewrite (access_spec cfg dl_last ul_last a k Ha H0). destruct (k <? 40) eqn:E; breflect; cbv iota; [|right; lia]. split; [lia|]. split; [done|]. destruct (ro_entry _ _ _ _ Ha k ltac:(lia)) as (s & E1 & E2). exists s. by split.
    + assert (u32 k = 2 ^ 32 + k) as -> by (unfold u32; rewrite <-(Z_mod_plus_full k 1 (2 ^ 32)), Z.mod_small by mlia; lia). rewrite (access_spec cfg dl_last ul_last a (2 ^ 32 + k) Ha) by mlia. rewrite (proj2 (Z.ltb_ge (2 ^ 32 + k) 40)) by mlia. left. lia.
Qed.
Lemma cell_ring_correct_witness : let c := Carrier 0 1 52 in exists a a', cell_allocator_new tt (CellCfg (CellSymbols None false false [] []) [c] [c]) = Some a /\ cell_slot_indication tt (CellCfg (CellSymbols None false false [] []) [c] [c]) a (SlotPoint 1 20475) = Some a'.
Proof.
  intros c. assert (carrier_ok c) as Hc by (split; vm_compute; split; congruence). assert (cfg_ok (CellCfg (CellSymbols None false false [] []) [c] [c]) c c) as Hcfg.
  { split; [reflexivity|reflexivity| | | |]; cbn [dl_scs_carrier_list ul_scs_carrier_list cfg_symbols].
    - split; [apply NoDup_singleton|by repeat constructor].
    - split; [apply NoDup_singleton|by repeat constructor].
    - repeat constructor; cbn; lia.
    - intros sl _ _. split; eexists; reflexivity. }
  destruct (cell_ring_correct tt _ c c Hcfg) as [H _]. destruct (H (SlotPoint 1 20475)) as (a & a' & H1 & H2 & _); [split; vm_compute; split; congruence|reflexivity|]. exists a, a'. split; [exact H1|exact H2].
Defined.
