(* ===== verification/RbGroups.v ===== *)
(** * Resource block groups

    The groups of resource blocks of a bandwidth part (lib/scheduler/cell/resource_block_group.cpp), allocations by groups or by an interval
    (include/srsran/scheduler/vrb_alloc.h, lib/scheduler/cell/vrb_alloc.cpp), and the bitmap that tracks both views
    (lib/scheduler/cell/scheduler_prb.cpp and .h).  A nominal group size is its value, 2, 4, 8 or 16.  [None] is a failed assertion. *)
From S2P Require Import Prelude Bits BoundedBitset BitsetThms BitsetSearch BitsetSpec BitsetRefine RbInterval SlotPoint Tdd ResourceGrid.

Definition MAX_NOF_RBGS : Z := 18.
Definition get_nominal_rbg_size (bwp_nof_prb : Z) (is_config_1 : bool) : option Z :=
  if negb ((0 <? bwp_nof_prb) && (bwp_nof_prb <=? 275)) then None
  else Some (if bwp_nof_prb <=? 36 then if is_config_1 then 2 else 4 else if bwp_nof_prb <=? 72 then if is_config_1 then 4 else 8 else if bwp_nof_prb <=? 144 then if is_config_1 then 8 else 16 else 16).
Definition divide_ceil (num den : Z) : Z := (num + (den - 1)) / den.
Definition get_nof_rbgs (bwp : interval) (P : Z) : Z := divide_ceil (iv_length bwp + iv_start bwp mod P) P.
Definition get_rbg_size (bwp : interval) (P rbg_idx : Z) : option Z :=
  let nof_rbgs := get_nof_rbgs bwp P in
  if negb (rbg_idx <? nof_rbgs) then None
  else if rbg_idx =? 0 then Some (P - iv_start bwp mod P)
  else if rbg_idx =? nof_rbgs - 1 then Some (let ret := iv_stop bwp mod P in if 0 <? ret then ret else P)
  else Some P.

(** ** Allocations *)
Inductive vrb_allocation := Type0 (rbgs : bitset) | Type1 (vrbs : interval).
Definition is_type0 (a : vrb_allocation) : bool := match a with Type0 _ => true | Type1 _ => false end.
Definition type0 (a : vrb_allocation) : option bitset := match a with Type0 b => Some b | Type1 _ => None end.
Definition type1 (a : vrb_allocation) : option interval := match a with Type0 _ => None | Type1 i => Some i end.
Definition vrb_any (a : vrb_allocation) : bool := match a with Type0 b => negb (bs_count b =? 0) | Type1 i => iv_empty i end.

(** The loop over the ones of a bitmap, which also ends when the next index is [limit]. *)
Fixpoint ones_loop {A} (fuel : nat) (grant : bitset) (limit idx : Z) (f : Z -> A -> option A) (a : A) : option A :=
  match fuel with
  | O => None
  | S fuel =>
      let* i := find_lowest true grant idx (bs_size grant) true in
      if i <? 0 then Some a
      else let* a := f i a in if negb (i + 1 =? limit) then ones_loop fuel grant limit (i + 1) f a else Some a
  end.
Definition ones_fuel (grant : bitset) : nat := S (Z.to_nat (bs_size grant)).
(** The resource blocks of a group are filled. *)
Definition fill_rbg (P first_rbg_size idx : Z) (prbs : bitset) : option bitset :=
  let prb_idx := u32 ((idx - 1) * P + first_rbg_size) in
  let prb_end := Z.min (u32 (prb_idx + if idx =? 0 then first_rbg_size else P)) (bs_size prbs) in
  bs_fill true prbs prb_idx prb_end true.
Definition convert_rbgs_to_prbs (rbgs : bitset) (bwp : interval) (P : Z) : option bitset :=
  let* first_rbg_size := get_rbg_size bwp P 0 in
  let prbs := bitset_new MAX_NOF_PRBS (iv_length bwp) in
  ones_loop (ones_fuel rbgs) rbgs (bs_size prbs) 0 (fill_rbg P first_rbg_size) prbs.

(** ** The bitmap of a bandwidth part *)
Record bwp_rb_bitmap := RbBitmap { prbs_ : bitset; rbgs_ : bitset; P_ : Z; Pnofbits : Z; first_rbg_size : Z }.
Definition bwp_rb_bitmap_new (bwp_nof_prbs bwp_prb_start : Z) (config1_or_2 : bool) : option bwp_rb_bitmap :=
  let* bwp := iv_make bwp_prb_start (u32 (bwp_prb_start + bwp_nof_prbs)) in
  let* P := get_nominal_rbg_size (iv_length bwp) config1_or_2 in
  let* P' := get_nominal_rbg_size bwp_nof_prbs config1_or_2 in
  let* first := get_rbg_size bwp P' 0 in
  Some (RbBitmap (bitset_new MAX_NOF_PRBS bwp_nof_prbs) (bitset_new MAX_NOF_RBGS (get_nof_rbgs bwp P)) P' (Z.log2 P') first).
Definition prb_to_rbg_idx (w : bwp_rb_bitmap) (prb_idx : Z) : Z := Z.shiftr (u32 (prb_idx + P_ w - first_rbg_size w)) (Pnofbits w).
Definition with_rbgs (w : bwp_rb_bitmap) (rbgs : bitset) : bwp_rb_bitmap := RbBitmap (prbs_ w) rbgs (P_ w) (Pnofbits w) (first_rbg_size w).
Definition with_prbs (w : bwp_rb_bitmap) (prbs : bitset) : bwp_rb_bitmap := RbBitmap prbs (rbgs_ w) (P_ w) (Pnofbits w) (first_rbg_size w).
Definition rb_reset (w : bwp_rb_bitmap) : bwp_rb_bitmap := with_rbgs (with_prbs w (bs_reset_all (prbs_ w))) (bs_reset_all (rbgs_ w)).
Definition add_prbs_to_rbgs (w : bwp_rb_bitmap) (grant : bitset) : option bwp_rb_bitmap :=
  let* rbgs := ones_loop (ones_fuel grant) grant (bs_size (prbs_ w)) 0 (fun i rbgs => bs_set_val true rbgs (prb_to_rbg_idx w i) true) (rbgs_ w) in Some (with_rbgs w rbgs).
Definition add_interval_to_rbgs (w : bwp_rb_bitmap) (grant : interval) : option bwp_rb_bitmap :=
  let rbg_start := prb_to_rbg_idx w (iv_start grant) in
  let rbg_stop := Z.min (u32 (prb_to_rbg_idx w (u32 (iv_stop grant - 1)) + 1)) (bs_size (rbgs_ w)) in
  let* rbgs := bs_fill true (rbgs_ w) rbg_start rbg_stop true in Some (with_rbgs w rbgs).
Definition add_rbgs_to_prbs (w : bwp_rb_bitmap) (grant : bitset) : option bwp_rb_bitmap :=
  let* prbs := ones_loop (ones_fuel grant) grant (bs_size (prbs_ w)) 0 (fill_rbg (P_ w) (first_rbg_size w)) (prbs_ w) in Some (with_prbs w prbs).
Definition add_interval (w : bwp_rb_bitmap) (prbs : interval) : option bwp_rb_bitmap :=
  let* b := bs_fill true (prbs_ w) (iv_start prbs) (iv_stop prbs) true in add_interval_to_rbgs (with_prbs w b) prbs.
Definition add_prbs (w : bwp_rb_bitmap) (grant : bitset) : option bwp_rb_bitmap :=
  let* b := bs_or (prbs_ w) grant in add_prbs_to_rbgs (with_prbs w b) grant.
Definition add_rbgs (w : bwp_rb_bitmap) (grant : bitset) : option bwp_rb_bitmap :=
  let* b := bs_or (rbgs_ w) grant in add_rbgs_to_prbs (with_rbgs w b) grant.
(** [add] of an allocation: an interval of VRBs does not convert to one of PRBs but to an allocation again, so the call for it is the function itself. *)
Fixpoint add_alloc (fuel : nat) (w : bwp_rb_bitmap) (grant : vrb_allocation) : option bwp_rb_bitmap :=
  match fuel with O => None | S fuel => match grant with Type0 b => add_rbgs w b | Type1 i => add_alloc fuel w (Type1 i) end end.
Definition rb_collides (w : bwp_rb_bitmap) (grant : vrb_allocation) : option bool :=
  match grant with
  | Type0 b => let* x := bs_and (rbgs_ w) b in Some (bs_any x)
  | Type1 i => bs_any_range true (prbs_ w) (iv_start i) (iv_stop i)
  end.
Definition rb_set (w : bwp_rb_bitmap) (prb_idx : Z) : option bwp_rb_bitmap :=
  let* prbs := bs_set true (prbs_ w) prb_idx in let* rbgs := bs_set true (rbgs_ w) (prb_to_rbg_idx w prb_idx) in Some (with_rbgs (with_prbs w prbs) rbgs).
Definition rb_test (w : bwp_rb_bitmap) (prb_idx : Z) : option bool := bs_test true (prbs_ w) prb_idx.
Definition rb_merge (w other : bwp_rb_bitmap) : option bwp_rb_bitmap :=
  let* prbs := bs_or (prbs_ w) (prbs_ other) in let* rbgs := bs_or (rbgs_ w) (rbgs_ other) in Some (with_rbgs (with_prbs w prbs) rbgs).

(** ** Groups as a partition *)
Definition is_nominal (P : Z) : Prop := P = 2 \/ P = 4 \/ P = 8 \/ P = 16.
Lemma nominal_size n c : 0 < n <= 275 -> exists P, get_nominal_rbg_size n c = Some P /\ is_nominal P /\ n <= 18 * P.
Proof.
  intros Hn. unfold get_nominal_rbg_size. rewrite (proj2 (Z.ltb_lt 0 n)), (proj2 (Z.leb_le n 275)) by lia. cbn [andb negb]. eexists. split; [done|]. unfold is_nominal. destruct c; repeat case_match; breflect; split; lia.
Qed.
Definition bwp_ok (bwp : interval) : Prop := 0 <= iv_start bwp < iv_stop bwp /\ iv_stop bwp < 2 ^ 31.
(** The group of a resource block of the bandwidth part, counted from the first group. *)
Definition group (bwp : interval) (P crb : Z) : Z := crb / P - iv_start bwp / P.
Lemma nof_rbgs_spec bwp P : bwp_ok bwp -> is_nominal P -> get_nof_rbgs bwp P = group bwp P (iv_stop bwp - 1) + 1.
Proof.
  intros [H1 H2] HP. unfold get_nof_rbgs, divide_ceil, group. rewrite iv_length_ok by (split; lia). destruct HP as [->|[->|[->| ->]]]; mlia.
Qed.
Lemma rbg_size_spec bwp P r : bwp_ok bwp -> is_nominal P -> 0 <= r -> 1 < get_nof_rbgs bwp P ->
  match get_rbg_size bwp P r with
  | Some n => 0 < n <= P /\ n = Z.min (iv_stop bwp) ((iv_start bwp / P + r + 1) * P) - Z.max (iv_start bwp) ((iv_start bwp / P + r) * P)
  | None => group bwp P (iv_stop bwp - 1) < r
  end.
Proof.
  intros Hb HP Hr Hn. pose proof (nof_rbgs_spec bwp P Hb HP) as Hnof. destruct Hb as [H1 H2]. unfold get_rbg_size. rewrite Hnof in *. unfold group in *. destruct (r <? _) eqn:E1; breflect; cbn [negb]; [|lia]. destruct (r =? 0) eqn:E2; breflect; [|destruct (r =? _) eqn:E3; breflect; cbv zeta; [destruct (0 <? _) eqn:E4; breflect|]]; destruct HP as [->|[->|[->| ->]]]; mlia.
Qed.
(** The groups partition the bandwidth part as TS 38.214 says: every resource block lies in one of the groups, of the index that the bitmap computes, and the size of a group is the number of its
    blocks, whenever there are at least two groups; there are at most 18 groups when the bandwidth part starts at a group or ends within 275 blocks with the largest group size. *)
Theorem rbg_partition bwp P : bwp_ok bwp -> is_nominal P ->
  (forall crb, iv_in crb bwp -> 0 <= group bwp P crb < get_nof_rbgs bwp P) /\
  (1 < get_nof_rbgs bwp P -> forall r, 0 <= r -> match get_rbg_size bwp P r with
    | Some n => 0 < n <= P /\ exists s, iv_start bwp <= s /\ s + n <= iv_stop bwp /\ forall crb, iv_in crb bwp -> group bwp P crb = r <-> s <= crb < s + n
    | None => get_nof_rbgs bwp P <= r
    end) /\
  (forall c, iv_length bwp <= 275 -> get_nominal_rbg_size (iv_length bwp) c = Some P -> iv_start bwp mod P = 0 \/ P = 16 /\ iv_stop bwp <= 275 -> get_nof_rbgs bwp P <= MAX_NOF_RBGS).
Proof.
  intros Hb HP. pose proof (nof_rbgs_spec bwp P Hb HP) as Hnof. split_and!.
  - intros crb [Hc1 Hc2]. rewrite Hnof. unfold group. destruct Hb. destruct HP as [->|[->|[->| ->]]]; mlia.
  - intros Hn r Hr. pose proof (rbg_size_spec bwp P r Hb HP Hr Hn) as H. destruct (get_rbg_size bwp P r) as [n|]; [|lia]. destruct H as [H1 H2]. split; [done|]. exists (Z.max (iv_start bwp) ((iv_start bwp / P + r) * P)). destruct Hb as [Hb1 Hb2]. split; [lia|]. split; [lia|]. intros crb [Hc1 Hc2]. unfold group. destruct HP as [->|[->|[->| ->]]]; mlia.
  - intros c Hl Hc Hal. destruct (nominal_size (iv_length bwp) c) as (P' & E & _ & Hle); [rewrite iv_length_ok in * by (destruct Hb; split; lia); destruct Hb; lia|]. assert (P' = P) as -> by congruence. rewrite iv_length_ok in Hle by (destruct Hb; split; lia). unfold get_nof_rbgs, divide_ceil, MAX_NOF_RBGS. rewrite iv_length_ok by (destruct Hb; split; lia). destruct Hb as [Hb1 Hb2]. destruct Hal as [->|[-> Hs]]; [destruct HP as [->|[->|[->| ->]]]; mlia|mlia].
Qed.
Lemma rbg_partition_witness : 0 <= group (Interval 10 60) 8 33 < get_nof_rbgs (Interval 10 60) 8.
Proof.
  apply (rbg_partition (Interval 10 60) 8); [split; cbn; lia|unfold is_nominal; lia|split; cbn; lia].
Defined.
