(* ===== verification/RbGroupsThms.v ===== *)
(** * Resource block groups: the bitmap of a bandwidth part *)
From S2P Require Import Prelude Bits BoundedBitset BitsetThms BitsetSearch BitsetSpec BitsetRefine RbInterval SlotPoint Tdd ResourceGrid RbGroups.

(** The loop over the ones visits them all in order. *)
Lemma ones_loop_spec {A} N grant limit (f : Z -> A -> option A) (I : Z -> A -> Prop) : bs_ok N grant -> bs_size grant <= limit ->
  (forall i a, 0 <= i < bs_size grant -> bits true grant !! Z.to_nat i = Some true -> I i a -> exists a', f i a = Some a' /\ I (i + 1) a') ->
  (forall i a, 0 <= i < bs_size grant -> bits true grant !! Z.to_nat i <> Some true -> I i a -> I (i + 1) a) ->
  forall fuel idx a, 0 <= idx <= bs_size grant -> bs_size grant - idx < Z.of_nat fuel -> I idx a -> exists a', ones_loop fuel grant limit idx f a = Some a' /\ I (bs_size grant) a'.
Proof.
  intros Hok Hlim Hone Hzero. assert (forall n i a, 0 <= i -> i + Z.of_nat n <= bs_size grant -> (forall p, i <= p < i + Z.of_nat n -> bits true grant !! Z.to_nat p <> Some true) -> I i a -> I (i + Z.of_nat n) a) as Hskip.
  { induction n as [|n IH]; intros i a Hi Hn Hno HI; [by rewrite Z.add_0_r|]. replace (i + Z.of_nat (S n)) with (i + 1 + Z.of_nat n) by lia. apply IH; [lia|lia|intros p Hp; apply Hno; lia|]. apply Hzero; [lia|apply Hno; lia|done]. }
  induction fuel as [|fuel IH]; intros idx a Hidx Hf HI; [lia|]. cbn [ones_loop]. destruct (spec_find_lowest N true grant idx (bs_size grant) true Hok Hidx ltac:(lia)) as (r & -> & [[-> Hno]|(Hr & Hb & Hno)]).
  - cbn [Z.ltb Z.compare]. exists a. split; [done|]. replace (bs_size grant) with (idx + Z.of_nat (Z.to_nat (bs_size grant - idx))) by lia. apply Hskip; [lia|lia|intros p Hp; apply Hno; lia|done].
  - rewrite (proj2 (Z.ltb_ge r 0)) by lia. assert (I r a) as HIr by (replace r with (idx + Z.of_nat (Z.to_nat (r - idx))) by lia; apply Hskip; [lia|lia|intros p Hp; apply Hno; lia|done]). destruct (Hone r a ltac:(lia) Hb HIr) as (a' & -> & HI'). destruct (r + 1 =? limit) eqn:E; breflect; cbn [negb].
    + exists a'. split; [done|]. by replace (bs_size grant) with (r + 1) by lia.
    + apply IH; [lia|lia|done].
Qed.

(** ** A bandwidth part that starts with a whole group *)
Record rb_ok (w : bwp_rb_bitmap) : Prop := {
  rw_P : is_nominal (P_ w); rw_log : Pnofbits w = Z.log2 (P_ w); rw_first : first_rbg_size w = P_ w;
  rw_prbs : bs_ok MAX_NOF_PRBS (prbs_ w); rw_rbgs : bs_ok MAX_NOF_RBGS (rbgs_ w); rw_size : 0 < bs_size (prbs_ w); rw_groups : bs_size (rbgs_ w) = divide_ceil (bs_size (prbs_ w)) (P_ w); }.
Definition prb_used (w : bwp_rb_bitmap) (p : Z) : Prop := 0 <= p /\ bits true (prbs_ w) !! Z.to_nat p = Some true.
Definition rbg_used (w : bwp_rb_bitmap) (r : Z) : Prop := 0 <= r /\ bits true (rbgs_ w) !! Z.to_nat r = Some true.
(** A group is marked exactly when one of its blocks is in use. *)
Definition consistent (w : bwp_rb_bitmap) : Prop := forall r, rbg_used w r <-> exists p, prb_used w p /\ p / P_ w = r.
Lemma bit_range N b p x : bs_ok N b -> 0 <= p -> bits true b !! Z.to_nat p = Some x -> p < bs_size b.
Proof. intros Hok Hp H. apply lookup_lt_Some in H. rewrite bits_length in H. pose proof (bso_size _ _ Hok). lia. Qed.
Lemma group_in w p : rb_ok w -> 0 <= p < bs_size (prbs_ w) -> 0 <= p / P_ w < bs_size (rbgs_ w).
Proof. intros [HP _ _ _ _ _ Hg] Hp. rewrite Hg. unfold divide_ceil. destruct HP as [->|[->|[->| ->]]]; mlia. Qed.
Lemma rbg_idx_spec w p : rb_ok w -> 0 <= p < 2 ^ 31 -> prb_to_rbg_idx w p = p / P_ w.
Proof.
  intros [HP Hl Hf _ _ _ _] Hp. unfold prb_to_rbg_idx. rewrite Hl, Hf. replace (p + P_ w - P_ w) with p by lia. rewrite u32_id by (unfold is_u32; lia). rewrite Z.shiftr_div_pow2 by (apply Z.log2_nonneg). f_equal. destruct HP as [->|[->|[->| ->]]]; reflexivity.
Qed.
(** A filled range of a bitmap. *)
Lemma fill_used N b s e : bs_ok N b -> 0 <= s <= e -> e <= bs_size b -> exists b', bs_fill true b s e true = Some b' /\ bs_ok N b' /\ bs_size b' = bs_size b /\ forall p, 0 <= p -> bits true b' !! Z.to_nat p = Some true <-> bits true b !! Z.to_nat p = Some true \/ s <= p < e.
Proof.
  intros Hok Hs He. destruct (spec_fill N true b Hok s e true Hs He) as (b' & -> & Hok' & Hb'). exists b'. split; [done|]. split; [done|]. pose proof (spec_length N true b Hok) as Hl. pose proof (spec_length N true b' Hok') as Hl'. rewrite Hb', length_imap in Hl'. split; [lia|]. intros p Hp. rewrite Hb', list_lookup_imap. destruct (bits true b !! Z.to_nat p) as [x|] eqn:Ex; cbn [fmap option_fmap option_map].
  - rewrite Z2Nat.id by lia. destruct ((s <=? p) && (p <? e)) eqn:E; [apply andb_true_iff in E as [E1 E2]; breflect; split; [intros _; right; lia|done]|]. split; [by left|]. intros [|H]; [done|]. apply andb_false_iff in E as [E|E]; breflect; lia.
  - split; [done|]. intros [|H]; [done|]. apply lookup_ge_None_1 in Ex. lia.
Qed.
Lemma set_used N b p : bs_ok N b -> 0 <= p < bs_size b -> exists b', bs_set_val true b p true = Some b' /\ bs_ok N b' /\ bs_size b' = bs_size b /\ forall q, 0 <= q -> bits true b' !! Z.to_nat q = Some true <-> bits true b !! Z.to_nat q = Some true \/ q = p.
Proof.
  intros Hok Hp. pose proof (spec_length N true b Hok) as Hl. destruct (set_at N true b (Z.to_nat p) true Hok ltac:(lia)) as (b' & E & Hok' & Hs' & Hb'). rewrite Z2Nat.id in E by lia. exists b'. split; [done|]. split; [done|]. split; [done|]. intros q Hq. rewrite Hb'. destruct (decide (q = p)) as [->|].
  - rewrite list_lookup_insert_eq by lia. split; [by right|done].
  - rewrite list_lookup_insert_ne by lia. split; [by left|]. intros [|]; done.
Qed.
Lemma or_used N a b : bs_ok N a -> bs_ok N b -> bs_size b = bs_size a -> exists c, bs_or a b = Some c /\ bs_ok N c /\ bs_size c = bs_size a /\ forall p, 0 <= p -> bits true c !! Z.to_nat p = Some true <-> bits true a !! Z.to_nat p = Some true \/ bits true b !! Z.to_nat p = Some true.
Proof.
  intros Ha Hb Hs. pose proof (spec_or N true a b Ha Hb) as H. destruct (bs_or a b) as [c|]; [|done]. destruct H as [Hc Hbits]. exists c. split; [done|]. split; [done|]. pose proof (spec_length N true a Ha) as La. pose proof (spec_length N true b Hb) as Lb. pose proof (spec_length N true c Hc) as Lc. rewrite Hbits, length_zip_with in Lc. split; [lia|]. intros p Hp. rewrite Hbits, lookup_zip_with.
  destruct (bits true a !! Z.to_nat p) as [x|] eqn:Ex; destruct (bits true b !! Z.to_nat p) as [y|] eqn:Ey; cbn; try (apply lookup_lt_Some in Ex); try (apply lookup_lt_Some in Ey); try (apply lookup_ge_None_1 in Ex); try (apply lookup_ge_None_1 in Ey); try lia; [destruct x, y; cbn; intuition congruence|]. split; [done|]. by intros [|].
Qed.
(** The blocks of a group are filled. *)
Lemma fill_rbg_spec w prbs i : rb_ok w -> bs_ok MAX_NOF_PRBS prbs -> bs_size prbs = bs_size (prbs_ w) -> 0 <= i < bs_size (rbgs_ w) -> exists b, fill_rbg (P_ w) (first_rbg_size w) i prbs = Some b /\ bs_ok MAX_NOF_PRBS b /\ bs_size b = bs_size (prbs_ w) /\
  forall p, 0 <= p -> bits true b !! Z.to_nat p = Some true <-> bits true prbs !! Z.to_nat p = Some true \/ p < bs_size (prbs_ w) /\ p / P_ w = i.
Proof.
  intros Hw Hok Hs Hi. pose proof Hw as [HP _ Hf Hpok _ Hsz Hg]. pose proof (bso_size _ _ Hpok) as Hn. unfold MAX_NOF_PRBS in Hn. unfold fill_rbg. rewrite Hf. assert (u32 ((i - 1) * P_ w + P_ w) = i * P_ w) as -> by (rewrite u32_id; [lia|unfold is_u32; rewrite Hg in Hi; unfold divide_ceil in Hi; destruct HP as [E|[E|[E|E]]]; rewrite E in *; mlia]).
  assert (u32 (i * P_ w + (if i =? 0 then P_ w else P_ w)) = (i + 1) * P_ w) as -> by (rewrite u32_id; [destruct (i =? 0); lia|unfold is_u32; rewrite Hg in Hi; unfold divide_ceil in Hi; destruct (i =? 0); destruct HP as [E|[E|[E|E]]]; rewrite E in *; mlia]).
  destruct (fill_used MAX_NOF_PRBS prbs (i * P_ w) (Z.min ((i + 1) * P_ w) (bs_size prbs)) Hok) as (b & Eb & Hb1 & Hb2 & Hb3); [rewrite Hg in Hi; unfold divide_ceil in Hi; destruct HP as [E|[E|[E|E]]]; rewrite E in *; mlia|lia|]. exists b. split; [done|]. split; [done|]. split; [congruence|]. intros p Hp. rewrite Hb3 by done. rewrite Hs. destruct HP as [E|[E|[E|E]]]; rewrite E in *; split; (intros [H|H]; [by left|right; mlia]).
Qed.
(** ** Operations *)
Lemma with_prbs_ok w b : rb_ok w -> bs_ok MAX_NOF_PRBS b -> bs_size b = bs_size (prbs_ w) -> rb_ok (with_prbs w b).
Proof. intros [H1 H2 H3 H4 H5 H6 H7] Hb Hs. split; cbn; (done || congruence || lia). Qed.
Lemma with_rbgs_ok w b : rb_ok w -> bs_ok MAX_NOF_RBGS b -> bs_size b = bs_size (rbgs_ w) -> rb_ok (with_rbgs w b).
Proof. intros [H1 H2 H3 H4 H5 H6 H7] Hb Hs. split; cbn; (done || congruence). Qed.
(** The result of an operation that adds the blocks [Q]. *)
Definition adds (w w' : bwp_rb_bitmap) (Q : Z -> Prop) : Prop :=
  rb_ok w' /\ P_ w' = P_ w /\ bs_size (prbs_ w') = bs_size (prbs_ w) /\ (forall p, prb_used w' p <-> prb_used w p \/ Q p) /\ (forall r, rbg_used w' r <-> rbg_used w r \/ exists p, Q p /\ p / P_ w = r).
Lemma adds_consistent w w' Q : adds w w' Q -> consistent w -> consistent w'.
Proof.
  intros (_ & HP & _ & Hp & Hr) Hc r. rewrite Hr, HP, (Hc r). setoid_rewrite Hp. split.
  - intros [(p & H1 & H2)|(p & H1 & H2)]; exists p; tauto.
  - intros (p & [H1|H1] & H2); [left|right]; exists p; tauto.
Qed.
Lemma add_interval_spec w s e : rb_ok w -> 0 <= s < e -> e <= bs_size (prbs_ w) -> exists w', add_interval w (Interval s e) = Some w' /\ adds w w' (fun p => s <= p < e).
Proof.
  intros Hw Hs He. pose proof (bso_size _ _ (rw_prbs _ Hw)) as Hn. unfold MAX_NOF_PRBS in Hn. unfold add_interval. cbn [iv_start iv_stop]. destruct (fill_used MAX_NOF_PRBS (prbs_ w) s e (rw_prbs _ Hw) ltac:(lia) He) as (b & -> & Hb1 & Hb2 & Hb3). pose proof (with_prbs_ok w b Hw Hb1 Hb2) as Hw1. set (w1 := with_prbs w b) in *. unfold add_interval_to_rbgs. cbn [iv_start iv_stop].
  assert (bs_size (prbs_ w1) = bs_size (prbs_ w)) as Hs1 by done. pose proof (group_in w1 s Hw1 ltac:(lia)) as Hg1. pose proof (group_in w1 (e - 1) Hw1 ltac:(lia)) as Hg2. pose proof (bso_size _ _ (rw_rbgs _ Hw)) as Hr. unfold MAX_NOF_RBGS in Hr. assert (rbgs_ w1 = rbgs_ w) as Er by done. rewrite Er in *. rewrite (u32_id (e - 1)) by (unfold is_u32; lia). rewrite !rbg_idx_spec by (done || lia). rewrite u32_id by (unfold is_u32; lia). change (P_ w1) with (P_ w) in *.
  assert (s / P_ w <= (e - 1) / P_ w) as Hle by (apply Z.div_le_mono; [|lia]; destruct (rw_P _ Hw) as [->|[->|[->| ->]]]; lia).
  destruct (fill_used MAX_NOF_RBGS (rbgs_ w) (s / P_ w) (Z.min ((e - 1) / P_ w + 1) (bs_size (rbgs_ w))) (rw_rbgs _ Hw) ltac:(lia) ltac:(lia)) as (rb & -> & Hrb1 & Hrb2 & Hrb3). eexists. split; [done|]. split; [by apply (with_rbgs_ok w1)|]. split; [done|]. split; [done|]. split.
  - intros p. unfold prb_used. cbn [with_rbgs w1 with_prbs prbs_]. split; [intros [Hp H]; rewrite Hb3 in H by done; tauto|]. intros [[Hp H]|H]; (split; [lia|]; rewrite Hb3 by lia; tauto).
  - intros r. unfold rbg_used. cbn [with_rbgs rbgs_]. assert (forall r, s / P_ w <= r < Z.min ((e - 1) / P_ w + 1) (bs_size (rbgs_ w)) <-> exists p, s <= p < e /\ p / P_ w = r) as Hex.
    { intros r'. split; [intros H; exists (Z.max s (r' * P_ w)); destruct (rw_P _ Hw) as [E|[E|[E|E]]]; rewrite E in *; mlia|]. intros (p & Hp & <-). destruct (rw_P _ Hw) as [E|[E|[E|E]]]; rewrite E in *; mlia. }
    split; [intros [Hp H]; rewrite Hrb3 in H by done; destruct H as [H|H]; [by left|right; by apply Hex]|]. intros [[Hp H]|H]; [split; [done|]; rewrite Hrb3 by done; by left|]. apply Hex in H. split; [lia|]. rewrite Hrb3 by lia. by right.
Qed.
Lemma add_prbs_spec w grant : rb_ok w -> bs_ok MAX_NOF_PRBS grant -> bs_size grant = bs_size (prbs_ w) -> exists w', add_prbs w grant = Some w' /\ adds w w' (fun p => 0 <= p /\ bits true grant !! Z.to_nat p = Some true).
Proof.
  intros Hw Hg Hs. pose proof (bso_size _ _ (rw_prbs _ Hw)) as Hn. unfold MAX_NOF_PRBS in Hn. unfold add_prbs. destruct (or_used MAX_NOF_PRBS (prbs_ w) grant (rw_prbs _ Hw) Hg Hs) as (b & -> & Hb1 & Hb2 & Hb3). pose proof (with_prbs_ok w b Hw Hb1 Hb2) as Hw1. set (w1 := with_prbs w b) in *. unfold add_prbs_to_rbgs. assert (bs_size (prbs_ w1) = bs_size (prbs_ w)) as Hs1 by done. change (rbgs_ w1) with (rbgs_ w).
  destruct (ones_loop_spec MAX_NOF_PRBS grant (bs_size (prbs_ w1)) (fun i rbgs => bs_set_val true rbgs (prb_to_rbg_idx w1 i) true)
    (fun i rb => bs_ok MAX_NOF_RBGS rb /\ bs_size rb = bs_size (rbgs_ w) /\ forall r, 0 <= r -> bits true rb !! Z.to_nat r = Some true <-> bits true (rbgs_ w) !! Z.to_nat r = Some true \/ exists p, 0 <= p < i /\ bits true grant !! Z.to_nat p = Some true /\ p / P_ w = r)
    Hg ltac:(lia)) with (fuel := ones_fuel grant) (idx := 0) (a := rbgs_ w) as (rb & -> & Hrb1 & Hrb2 & Hrb3).
  - intros i rb Hi Hbit (Ho & Hsz & Hr). rewrite (rbg_idx_spec w1 i Hw1) by lia. pose proof (group_in w1 i Hw1 ltac:(lia)) as Hgi. change (rbgs_ w1) with (rbgs_ w) in Hgi. change (P_ w1) with (P_ w) in *. destruct (set_used MAX_NOF_RBGS rb (i / P_ w) Ho ltac:(lia)) as (rb' & -> & H1 & H2 & H3). exists rb'. split; [done|]. split; [done|]. split; [congruence|]. intros r Hr0. rewrite H3, Hr by done. split.
    + intros [[H|(p & Hp & H)]| ->]; [by left|right; exists p; split; [lia|done]|right; exists i; split; [lia|done]].
    + intros [H|(p & Hp & Hq & H)]; [tauto|]. destruct (decide (p = i)) as [->|]; [right; done|left; right; exists p; split; [lia|done]].
  - intros i rb Hi Hbit (Ho & Hsz & Hr). split; [done|]. split; [done|]. intros r Hr0. rewrite Hr by done. split; (intros [H|(p & Hp & Hq & H)]; [by left|right; exists p; split; [|done]]); [lia|]. destruct (decide (p = i)) as [->|]; [done|lia].
  - lia.
  - unfold ones_fuel. lia.
  - split; [apply Hw|]. split; [done|]. intros r _. split; [by left|]. intros [|(p & Hp & _)]; [done|lia].
  - eexists. split; [done|]. split; [by apply (with_rbgs_ok w1)|]. split; [done|]. split; [done|]. split.
    + intros p. unfold prb_used. cbn [with_rbgs w1 with_prbs prbs_]. split; [intros [Hp H]; rewrite Hb3 in H by done; tauto|]. intros [[Hp H]|[Hp H]]; (split; [lia|]; rewrite Hb3 by lia; tauto).
    + intros r. unfold rbg_used. cbn [with_rbgs rbgs_]. split.
      * intros [Hr H]. rewrite Hrb3 in H by done. destruct H as [H|(p & Hp & H1 & H2)]; [by left|right; exists p; split; [split; [lia|done]|done]].
      * intros [[Hr H]|(p & [Hp H1] & H2)]; [split; [done|]; rewrite Hrb3 by done; by left|]. pose proof (bit_range _ _ _ _ Hg Hp H1). pose proof (group_in w p Hw ltac:(lia)). split; [lia|]. rewrite Hrb3 by lia. right. exists p. split; [lia|done].
Qed.
Lemma add_rbgs_spec w grant : rb_ok w -> bs_ok MAX_NOF_RBGS grant -> bs_size grant = bs_size (rbgs_ w) -> exists w', add_rbgs w grant = Some w' /\ adds w w' (fun p => 0 <= p < bs_size (prbs_ w) /\ bits true grant !! Z.to_nat (p / P_ w) = Some true).
Proof.
  intros Hw Hg Hs. unfold add_rbgs. destruct (or_used MAX_NOF_RBGS (rbgs_ w) grant (rw_rbgs _ Hw) Hg Hs) as (b & -> & Hb1 & Hb2 & Hb3). pose proof (with_rbgs_ok w b Hw Hb1 Hb2) as Hw1. set (w1 := with_rbgs w b) in *. unfold add_rbgs_to_prbs. change (prbs_ w1) with (prbs_ w). change (P_ w1) with (P_ w). change (first_rbg_size w1) with (first_rbg_size w).
  assert (bs_size grant <= bs_size (prbs_ w)) as Hle by (rewrite Hs, (rw_groups _ Hw); pose proof (rw_size _ Hw); unfold divide_ceil; destruct (rw_P _ Hw) as [->|[->|[->| ->]]]; mlia).
  destruct (ones_loop_spec MAX_NOF_RBGS grant (bs_size (prbs_ w)) (fill_rbg (P_ w) (first_rbg_size w))
    (fun i pb => bs_ok MAX_NOF_PRBS pb /\ bs_size pb = bs_size (prbs_ w) /\ forall p, 0 <= p -> bits true pb !! Z.to_nat p = Some true <-> bits true (prbs_ w) !! Z.to_nat p = Some true \/ p < bs_size (prbs_ w) /\ p / P_ w < i /\ bits true grant !! Z.to_nat (p / P_ w) = Some true)
    Hg Hle) with (fuel := ones_fuel grant) (idx := 0) (a := prbs_ w) as (pb & -> & Hpb1 & Hpb2 & Hpb3).
  - intros i pb Hi Hbit (Ho & Hsz & Hp). destruct (fill_rbg_spec w pb i Hw Ho Hsz ltac:(lia)) as (pb' & -> & H1 & H2 & H3). exists pb'. split; [done|]. split; [done|]. split; [done|]. intros p Hp0. rewrite H3, Hp by done. split.
    + intros [[H|(Ha & Hb & Hc)]|[Ha Hb]]; [by left|right; split; [done|]; split; [lia|done]|right]. rewrite Hb. split; [done|]. split; [lia|done].
    + intros [H|(Ha & Hb & Hc)]; [tauto|]. destruct (decide (p / P_ w = i)); [right; done|left; right; split; [done|]; split; [lia|done]].
  - intros i pb Hi Hbit (Ho & Hsz & Hp). split; [done|]. split; [done|]. intros p Hp0. rewrite Hp by done. split; (intros [H|(Ha & Hb & Hc)]; [by left|right; split; [done|]; split; [|done]]); [lia|]. destruct (decide (p / P_ w = i)) as [E|]; [rewrite E in Hc; done|lia].
  - pose proof (bso_size _ _ Hg). lia.
  - unfold ones_fuel. lia.
  - split; [apply Hw|]. split; [done|]. intros p Hp. split; [by left|]. intros [|(_ & H & _)]; [done|]. assert (0 <= p / P_ w) by (destruct (rw_P _ Hw) as [->|[->|[->| ->]]]; mlia). lia.
  - eexists. split; [done|]. split; [by apply (with_prbs_ok w1)|]. split; [done|]. split; [done|]. assert (forall p, 0 <= p -> 0 <= p / P_ w) as Hdiv by (intros p Hp; destruct (rw_P _ Hw) as [->|[->|[->| ->]]]; mlia). split.
    + intros p. unfold prb_used. cbn [with_prbs prbs_]. split.
      * intros [Hp H]. rewrite Hpb3 in H by done. destruct H as [H|(H1 & _ & H2)]; [by left|right; done].
      * intros [[Hp H]|[Hp H]]; (split; [lia|]; rewrite Hpb3 by lia); [by left|right]. pose proof (bit_range _ _ _ _ Hg (Hdiv p (proj1 Hp)) H). split; [lia|done].
    + intros r. unfold rbg_used. cbn [with_prbs w1 with_rbgs rbgs_]. split.
      * intros [Hr H]. rewrite Hb3 in H by done. destruct H as [H|H]; [by left|right]. pose proof (bit_range _ _ _ _ Hg Hr H) as Hr2. exists (r * P_ w). assert ((r * P_ w) / P_ w = r) as E by (apply Z.div_mul; destruct (rw_P _ Hw) as [->|[->|[->| ->]]]; lia). rewrite E. split; [|done]. split; [|done]. rewrite Hs, (rw_groups _ Hw) in Hr2. unfold divide_ceil in Hr2. destruct (rw_P _ Hw) as [E'|[E'|[E'|E']]]; rewrite E' in *; mlia.
      * intros [[Hr H]|(p & [Hp H1] & <-)]; [split; [done|]; rewrite Hb3 by done; by left|]. split; [apply Hdiv; lia|]. rewrite Hb3 by (apply Hdiv; lia). by right.
Qed.
Lemma rb_new_spec n start c : 0 < n <= 275 -> 0 <= start < 2 ^ 30 -> (forall P, get_nominal_rbg_size n c = Some P -> start mod P = 0) ->
  exists w, bwp_rb_bitmap_new n start c = Some w /\ rb_ok w /\ bs_size (prbs_ w) = n /\ (forall p, ~ prb_used w p) /\ forall r, ~ rbg_used w r.
Proof.
  intros Hn Hs Hal. destruct (nominal_size n c Hn) as (P & EP & HP & Hle). specialize (Hal P EP). unfold bwp_rb_bitmap_new. rewrite u32_id by (unfold is_u32; lia). rewrite iv_make_ok by lia. assert (iv_length (Interval start (start + n)) = n) as El by (rewrite iv_length_ok by (split; cbn; lia); cbn; lia). rewrite El, EP.
  assert (get_nof_rbgs (Interval start (start + n)) P = divide_ceil n P) as Eg by (unfold get_nof_rbgs; rewrite El; cbn [iv_start]; by rewrite Hal, Z.add_0_r). assert (0 < divide_ceil n P <= 18) as Hg by (unfold divide_ceil; destruct HP as [->|[->|[->| ->]]]; mlia).
  unfold get_rbg_size. rewrite Eg, (proj2 (Z.ltb_lt 0 _)) by lia. cbn [negb Z.eqb]. cbn [iv_start]. rewrite Hal, Z.sub_0_r. eexists. split; [done|]. assert (bs_ok MAX_NOF_PRBS (bitset_new MAX_NOF_PRBS n)) as H1 by (apply bitset_new_ok; unfold MAX_NOF_PRBS; lia). assert (bs_ok MAX_NOF_RBGS (bitset_new MAX_NOF_RBGS (divide_ceil n P))) as H2 by (apply bitset_new_ok; unfold MAX_NOF_RBGS; lia).
  split; [split; cbn; (done || lia)|]. split; [done|]. split.
  - intros p [_ H]. cbn [prbs_] in H. rewrite new_bits in H by (unfold MAX_NOF_PRBS; lia). by apply lookup_replicate in H as [H _].
  - intros r [_ H]. cbn [rbgs_] in H. rewrite new_bits in H by (unfold MAX_NOF_RBGS; lia). by apply lookup_replicate in H as [H _].
Qed.
Lemma rb_set_spec w p : rb_ok w -> 0 <= p < bs_size (prbs_ w) -> exists w', rb_set w p = Some w' /\ adds w w' (fun q => q = p).
Proof.
  intros Hw Hp. pose proof (bso_size _ _ (rw_prbs _ Hw)) as Hn. unfold MAX_NOF_PRBS in Hn. unfold rb_set. change (bs_set true (prbs_ w) p) with (bs_set_val true (prbs_ w) p true). destruct (set_used MAX_NOF_PRBS (prbs_ w) p (rw_prbs _ Hw) Hp) as (b & -> & Hb1 & Hb2 & Hb3). rewrite (rbg_idx_spec w p Hw) by lia. pose proof (group_in w p Hw Hp) as Hg.
  change (bs_set true (rbgs_ w) (p / P_ w)) with (bs_set_val true (rbgs_ w) (p / P_ w) true). destruct (set_used MAX_NOF_RBGS (rbgs_ w) (p / P_ w) (rw_rbgs _ Hw) Hg) as (rb & -> & Hr1 & Hr2 & Hr3). eexists. split; [done|]. split; [apply with_rbgs_ok; [by apply with_prbs_ok|done|done]|]. split; [done|]. split; [done|]. split.
  - intros q. unfold prb_used. cbn [with_rbgs with_prbs prbs_]. split; [intros [Hq H]; rewrite Hb3 in H by done; tauto|]. intros [[Hq H]| ->]; (split; [lia|]; rewrite Hb3 by lia; tauto).
  - intros r. unfold rbg_used. cbn [with_rbgs rbgs_]. split; [intros [Hr H]; rewrite Hr3 in H by done; destruct H as [H| ->]; [by left|right; by exists p]|]. intros [[Hr H]|(q & -> & <-)]; (split; [lia|]; rewrite Hr3 by lia; tauto).
Qed.
Lemma rb_collides_spec w grant : rb_ok w -> consistent w ->
  match grant with Type0 b => bs_ok MAX_NOF_RBGS b /\ bs_size b = bs_size (rbgs_ w) | Type1 i => 0 <= iv_start i <= iv_stop i /\ iv_stop i <= bs_size (prbs_ w) end ->
  exists r, rb_collides w grant = Some r /\ (r = true <-> exists p, prb_used w p /\ match grant with Type0 b => bits true b !! Z.to_nat (p / P_ w) = Some true | Type1 i => iv_in p i end).
Proof.
  intros Hw Hc Hg. destruct grant as [b|i]; cbn [rb_collides].
  - destruct Hg as [Hb Hs]. pose proof (spec_and MAX_NOF_RBGS true (rbgs_ w) b (rw_rbgs _ Hw) Hb) as H. destruct (bs_and (rbgs_ w) b) as [x|]; [|done]. destruct H as [Hx Hbits]. exists (bs_any x). split; [done|]. rewrite (proj1 (spec_any_all MAX_NOF_RBGS true x Hx)), Hbits, list_elem_of_lookup. setoid_rewrite lookup_zip_with. split.
    + intros (r & H). destruct (bits true (rbgs_ w) !! r) as [y|] eqn:Ey; [|done]. destruct (bits true b !! r) as [z|] eqn:Ez; [|done]. cbn in H. destruct y, z; try done. destruct (proj1 (Hc (Z.of_nat r)) ltac:(split; [lia|by rewrite Nat2Z.id])) as (p & Hp & E). exists p. split; [done|]. by rewrite E, Nat2Z.id.
    + intros (p & Hp & H). destruct (proj2 (Hc (p / P_ w)) ltac:(by exists p)) as [_ H']. exists (Z.to_nat (p / P_ w)). by rewrite H', H.
  - destruct Hg as [Hi1 Hi2]. destruct (spec_any MAX_NOF_PRBS true (prbs_ w) (rw_prbs _ Hw) (iv_start i) (iv_stop i) Hi1 Hi2) as (r & -> & Hr). exists r. split; [done|]. rewrite Hr. unfold prb_used, iv_in. split.
    + intros (p & Hp & H). exists (Z.of_nat p). rewrite Nat2Z.id. split; [split; [lia|done]|lia].
    + intros (p & [Hp H] & Hin). exists (Z.to_nat p). split; [lia|done].
Qed.
(** For a bandwidth part that starts with a whole group the bitmap keeps its two views consistent: from its construction, adding an interval, a bitmap of blocks, a bitmap of groups or a single block succeeds, adds
    exactly those blocks and marks a group exactly when one of its blocks is in use, and a collision is reported exactly when a block of the allocation is in use. *)
Theorem rb_bitmap_consistent n start c : 0 < n <= 275 -> 0 <= start < 2 ^ 30 -> (forall P, get_nominal_rbg_size n c = Some P -> start mod P = 0) ->
  (exists w, bwp_rb_bitmap_new n start c = Some w /\ rb_ok w /\ bs_size (prbs_ w) = n /\ consistent w /\ forall p, ~ prb_used w p) /\
  (forall w, rb_ok w -> consistent w ->
    (forall s e, 0 <= s < e -> e <= bs_size (prbs_ w) -> exists w', add_interval w (Interval s e) = Some w' /\ rb_ok w' /\ consistent w' /\ forall p, prb_used w' p <-> prb_used w p \/ s <= p < e) /\
    (forall g, bs_ok MAX_NOF_PRBS g -> bs_size g = bs_size (prbs_ w) -> exists w', add_prbs w g = Some w' /\ rb_ok w' /\ consistent w' /\ forall p, prb_used w' p <-> prb_used w p \/ 0 <= p /\ bits true g !! Z.to_nat p = Some true) /\
    (forall g, bs_ok MAX_NOF_RBGS g -> bs_size g = bs_size (rbgs_ w) -> exists w', add_rbgs w g = Some w' /\ rb_ok w' /\ consistent w' /\ forall p, prb_used w' p <-> prb_used w p \/ 0 <= p < bs_size (prbs_ w) /\ bits true g !! Z.to_nat (p / P_ w) = Some true) /\
    (forall q, 0 <= q < bs_size (prbs_ w) -> exists w', rb_set w q = Some w' /\ rb_ok w' /\ consistent w' /\ forall p, prb_used w' p <-> prb_used w p \/ p = q) /\
    (forall i, 0 <= iv_start i <= iv_stop i -> iv_stop i <= bs_size (prbs_ w) -> exists r, rb_collides w (Type1 i) = Some r /\ (r = true <-> exists p, prb_used w p /\ iv_in p i)) /\
    (forall g, bs_ok MAX_NOF_RBGS g -> bs_size g = bs_size (rbgs_ w) -> exists r, rb_collides w (Type0 g) = Some r /\ (r = true <-> exists p, prb_used w p /\ bits true g !! Z.to_nat (p / P_ w) = Some true))).
Proof.
  intros Hn Hs Hal. split.
  - destruct (rb_new_spec n start c Hn Hs Hal) as (w & E & Hw & Hsz & Hp & Hr). exists w. split_and!; [done|done|done| |done]. intros r. split; [intros H; by destruct (Hr r)|]. intros (p & H & _). by destruct (Hp p).
  - intros w Hw Hc. assert (forall w' Q, adds w w' Q -> rb_ok w' /\ consistent w' /\ forall p, prb_used w' p <-> prb_used w p \/ Q p) as Hadd by (intros w' Q H; split; [apply H|]; split; [by apply (adds_consistent w w' Q)|apply H]). split_and!.
    + intros s e H1 H2. destruct (add_interval_spec w s e Hw H1 H2) as (w' & E & H). exists w'. split; [done|]. by apply (Hadd w' _ H).
    + intros g H1 H2. destruct (add_prbs_spec w g Hw H1 H2) as (w' & E & H). exists w'. split; [done|]. by apply (Hadd w' _ H).
    + intros g H1 H2. destruct (add_rbgs_spec w g Hw H1 H2) as (w' & E & H). exists w'. split; [done|]. by apply (Hadd w' _ H).
    + intros q H1. destruct (rb_set_spec w q Hw H1) as (w' & E & H). exists w'. split; [done|]. by apply (Hadd w' _ H).
    + intros i H1 H2. by apply (rb_collides_spec w (Type1 i)).
    + intros g H1 H2. by apply (rb_collides_spec w (Type0 g)).
Qed.
Lemma rb_bitmap_consistent_witness : exists w, bwp_rb_bitmap_new 52 16 true = Some w /\ consistent w.
Proof.
  destruct (rb_bitmap_consistent 52 16 true) as [(w & H1 & _ & _ & H2 & _) _]; [lia|lia|intros P H; vm_compute in H; injection H as <-; reflexivity|]. exists w. split; [exact H1|exact H2].
Defined.
(** Where the groups go wrong: a bandwidth part of 36 blocks that starts at an odd block has 19 groups, one more than the bitmaps of groups are made for; a bandwidth part within one group reports a group larger
    than itself; the blocks of the first group cannot be filled when that group is not whole; an empty interval at the start marks every group; an allocation by an interval is never added, because
    the call resolves to itself; and [any] of an interval tells whether it is empty. *)
Theorem rb_groups_divergences :
  (get_nominal_rbg_size 36 true = Some 2 /\ get_nof_rbgs (Interval 1 37) 2 = 19) /\ get_rbg_size (Interval 1 3) 8 0 = Some 7 /\
  (exists w g, bwp_rb_bitmap_new 52 1 true = Some w /\ bs_of_list 18 true (true :: replicate 13 false) = Some g /\ add_rbgs w g = None /\ convert_rbgs_to_prbs g (Interval 1 53) 4 = None) /\
  (exists w w', bwp_rb_bitmap_new 52 0 true = Some w /\ add_interval w (Interval 0 0) = Some w' /\ bs_count (prbs_ w') = 0 /\ bs_count (rbgs_ w') = 13) /\
  (forall fuel w i, add_alloc fuel w (Type1 i) = None) /\ vrb_any (Type1 (Interval 2 5)) = false.
Proof.
  split; [split; reflexivity|]. split; [reflexivity|]. split; [|split; [|split; [|reflexivity]]].
  - eexists _, _. split; [vm_compute; reflexivity|]. split; [vm_compute; reflexivity|]. split; vm_compute; reflexivity.
  - eexists _, _. split; [vm_compute; reflexivity|]. split; [vm_compute; reflexivity|]. split; vm_compute; reflexivity.
  - induction fuel as [|fuel IH]; intros w i; [done|]. apply IH.
Qed.
