(* ===== verification/Sliv.v ===== *)
(** * Start and length indicators

    The joint encoding of the start and the length of an interval (include/srsran/ran/sliv.h), used for the symbols of an allocation
    (include/srsran/ran/ofdm_symbol_range.h) and for its resource blocks, as resource indication value (lib/ran/resource_allocation/resource_allocation_frequency.cpp).
    [None] is a failed assertion or a division by zero. *)
From S2P Require Import Prelude RbInterval SlotPoint Tdd.

Definition sliv_to_s_and_l (N sliv : Z) : option (Z * Z) :=
  if N =? 0 then None
  else
    let low := sliv mod N in
    let high := sliv / N in
    Some (if u32 (high + 1 + low) <=? N then (low, u32 (high + 1)) else (u32 (N - 1 - low), u32 (N - high + 1))).
Definition sliv_from_s_and_l (N S L : Z) : Z :=
  if u32 (L - 1) <=? N / 2 then u32 (N * u32 (L - 1) + S) else u32 (N * u32 (N - L + 1) + u32 (N - 1 - S)).
(** The symbols of a slot; the interval has 8-bit bounds. *)
Definition sliv_to_ofdm_symbols (sliv : Z) : option interval :=
  let* (s, l) := sliv_to_s_and_l NOF_OFDM_SYM_PER_SLOT_NORMAL_CP sliv in iv_make (u8 s) (u8 (u8 s + u8 l)).
Definition ofdm_symbol_range_to_sliv (symbols : interval) : Z := sliv_from_s_and_l NOF_OFDM_SYM_PER_SLOT_NORMAL_CP (iv_start symbols) (iv_length symbols).

Record ra_frequency_type1_configuration := RaType1 { N_bwp_size : Z; start_vrb : Z; length_vrb : Z }.
Definition ra_frequency_type1_get_riv (c : ra_frequency_type1_configuration) : option Z :=
  if negb (1 <=? length_vrb c) then None
  else if negb (length_vrb c <=? u32 (N_bwp_size c - start_vrb c)) then None
  else Some (sliv_from_s_and_l (N_bwp_size c) (start_vrb c) (length_vrb c)).
Definition ra_frequency_type1_from_riv (N riv : Z) : option ra_frequency_type1_configuration := let* (s, l) := sliv_to_s_and_l N riv in Some (RaType1 N s l).
Record ra_frequency_type1_special_configuration := RaSpecial { N_bwp_initial : Z; N_bwp_active : Z; special_start_vrb : Z; special_length_vrb : Z }.
Fixpoint determine_K (fuel : nat) (ratio K : Z) : Z := match fuel with O => K | S fuel => if 1 <? K then if K <=? ratio then K else determine_K fuel ratio (K / 2) else K end.
Definition ra_frequency_type1_special_get_riv (c : ra_frequency_type1_special_configuration) : option Z :=
  if N_bwp_initial c =? 0 then None
  else
    let K := determine_K 4 (N_bwp_active c / N_bwp_initial c) 8 in
    let start_vrb := special_start_vrb c / K in
    let length_vrb := special_length_vrb c / K in
    if negb (1 <=? length_vrb) then None
    else if negb (length_vrb <=? u32 (N_bwp_initial c - start_vrb)) then None
    else Some (sliv_from_s_and_l (N_bwp_initial c) start_vrb length_vrb).

(** ** Results *)
(** The encoding without wrap-around, for sizes whose square fits the word. *)
Definition sliv_fits (N S L : Z) : Prop := 0 < N < 2 ^ 15 /\ 0 <= S /\ 1 <= L /\ S + L <= N.
Lemma sliv_from_exact N S L : sliv_fits N S L -> sliv_from_s_and_l N S L = if L - 1 <=? N / 2 then N * (L - 1) + S else N * (N - L + 1) + (N - 1 - S).
Proof.
  intros (HN & HS & HL & Hf). unfold sliv_from_s_and_l. rewrite (u32_id (L - 1)), (u32_id (N - L + 1)), (u32_id (N - 1 - S)) by (unfold is_u32; lia). assert (0 <= N * (L - 1) <= N * N) by nia. assert (0 <= N * (N - L + 1) <= N * N) by nia. assert (N * N < 2 ^ 30) by nia. by rewrite !u32_id by (unfold is_u32; lia).
Qed.
Lemma sliv_parts N h l : 0 < N -> 0 <= l < N -> (N * h + l) / N = h /\ (N * h + l) mod N = l.
Proof. intros HN Hl. rewrite Z.mul_comm. split; [rewrite Z.div_add_l by lia; rewrite Z.div_small by lia; lia|]. rewrite Z.add_comm, Z_mod_plus_full. apply Z.mod_small. lia. Qed.
Lemma sliv_decode N S L : sliv_fits N S L -> sliv_to_s_and_l N (sliv_from_s_and_l N S L) = Some (S, L).
Proof.
  intros Hf. rewrite (sliv_from_exact N S L Hf). destruct Hf as (HN & HS & HL & Hf). unfold sliv_to_s_and_l. rewrite (proj2 (Z.eqb_neq N 0)) by lia. destruct (L - 1 <=? N / 2) eqn:E; breflect.
  - destruct (sliv_parts N (L - 1) S ltac:(lia) ltac:(lia)) as [-> ->]. rewrite !u32_id by (unfold is_u32; lia). rewrite (proj2 (Z.leb_le _ N)) by lia. do 2 f_equal. lia.
  - destruct (sliv_parts N (N - L + 1) (N - 1 - S) ltac:(lia) ltac:(lia)) as [-> ->]. rewrite !u32_id by (unfold is_u32; lia). rewrite (proj2 (Z.leb_gt _ N)) by lia. do 2 f_equal; lia.
Qed.
(** The high part of an indicator that is in use. *)
Lemma sliv_high N sliv : 0 < N -> 0 <= sliv < N * (N + 1) / 2 -> 0 <= sliv / N /\ 2 * (sliv / N) <= N /\ (2 * (sliv / N) = N -> sliv / N + 1 + sliv mod N <= N).
Proof.
  intros HN Hs. pose proof (Z.div_mod sliv N ltac:(lia)) as Hd. pose proof (Z.mod_pos_bound sliv N HN) as Hm. set (h := sliv / N) in *. set (l := sliv mod N) in *. assert (2 * sliv < N * (N + 1)) as H2 by (pose proof (Z.mul_div_le (N * (N + 1)) 2 ltac:(lia)); lia). split; [unfold h; apply Z.div_pos; lia|]. split; [nia|]. intros E. nia.
Qed.
Lemma sliv_encode N sliv : 0 < N < 2 ^ 15 -> 0 <= sliv < N * (N + 1) / 2 -> exists S L, sliv_to_s_and_l N sliv = Some (S, L) /\ sliv_fits N S L /\ sliv_from_s_and_l N S L = sliv.
Proof.
  intros HN Hs. destruct (sliv_high N sliv ltac:(lia) Hs) as (Hh0 & Hh & Heq). pose proof (Z.div_mod sliv N ltac:(lia)) as Hd. pose proof (Z.mod_pos_bound sliv N ltac:(lia)) as Hm. unfold sliv_to_s_and_l. rewrite (proj2 (Z.eqb_neq N 0)) by lia. set (h := sliv / N) in *. set (l := sliv mod N) in *. rewrite !u32_id by (unfold is_u32; lia). destruct (h + 1 + l <=? N) eqn:E; breflect.
  - exists l, (h + 1). assert (sliv_fits N l (h + 1)) as Hf by (unfold sliv_fits; lia). split; [done|]. split; [done|]. rewrite sliv_from_exact by done. rewrite (proj2 (Z.leb_le _ _)) by mlia. lia.
  - exists (N - 1 - l), (N - h + 1). assert (sliv_fits N (N - 1 - l) (N - h + 1)) as Hf by (unfold sliv_fits; lia). split; [done|]. split; [done|]. rewrite sliv_from_exact by done. rewrite (proj2 (Z.leb_gt _ _)) by mlia. rewrite Hd. ring.
Qed.
Lemma sliv_bound N S L : sliv_fits N S L -> 0 <= sliv_from_s_and_l N S L < N * (N + 1) / 2.
Proof.
  intros Hf. rewrite sliv_from_exact by done. destruct Hf as (HN & HS & HL & Hf). assert (forall x, 2 * x + 2 <= N * (N + 1) -> x < N * (N + 1) / 2) as Hlt by (intros x Hx; pose proof (Z.div_mod (N * (N + 1)) 2 ltac:(lia)); pose proof (Z.mod_pos_bound (N * (N + 1)) 2 ltac:(lia)); lia). destruct (L - 1 <=? N / 2) eqn:E; breflect; (split; [nia|]); apply Hlt; pose proof (Z.div_mod N 2 ltac:(lia)); pose proof (Z.mod_pos_bound N 2 ltac:(lia)).
  - assert (2 * (L - 1) <= N) by lia. destruct (decide (2 * (L - 1) = N)); [nia|]. nia.
  - nia.
Qed.
(** The indicator of start and length is a bijection: every interval that fits in [N] is encoded to a value below N (N + 1) / 2, which fits the field of the DCI, and decoded to the same interval, and every such
    value is decoded to an interval that fits and encodes to it; the assertions of the resource indication value hold exactly for these intervals; and the symbols of a slot are read back from their indicator. *)
Theorem sliv_bijection N : 0 < N < 2 ^ 15 ->
  (forall S L, 0 <= S -> 1 <= L -> S + L <= N -> exists riv, ra_frequency_type1_get_riv (RaType1 N S L) = Some riv /\ 0 <= riv < N * (N + 1) / 2 /\ ra_frequency_type1_from_riv N riv = Some (RaType1 N S L)) /\
  (forall riv, 0 <= riv < N * (N + 1) / 2 -> exists c, ra_frequency_type1_from_riv N riv = Some c /\ ra_frequency_type1_get_riv c = Some riv) /\
  (forall S L, 0 <= S <= N -> 0 <= L -> (L = 0 \/ N < S + L) -> ra_frequency_type1_get_riv (RaType1 N S L) = None) /\
  (forall s e, 0 <= s < e -> e <= 14 -> sliv_to_ofdm_symbols (ofdm_symbol_range_to_sliv (Interval s e)) = Some (Interval s e)).
Proof.
  intros HN. assert (forall S L, sliv_fits N S L -> ra_frequency_type1_get_riv (RaType1 N S L) = Some (sliv_from_s_and_l N S L)) as Hget.
  { intros S L (_ & HS & HL & Hf). unfold ra_frequency_type1_get_riv. cbn [length_vrb N_bwp_size start_vrb]. rewrite u32_id by (unfold is_u32; lia). by rewrite (proj2 (Z.leb_le 1 L)), (proj2 (Z.leb_le L _)) by lia. }
  split_and!.
  - intros S L HS HL Hf. assert (sliv_fits N S L) as Hfit by (unfold sliv_fits; lia). eexists. split; [by apply Hget|]. split; [by apply sliv_bound|]. unfold ra_frequency_type1_from_riv. by rewrite sliv_decode.
  - intros riv Hr. destruct (sliv_encode N riv HN Hr) as (S & L & E & Hf & Hback). exists (RaType1 N S L). unfold ra_frequency_type1_from_riv. rewrite E. split; [done|]. by rewrite Hget, Hback.
  - intros S L HS HL [->|Hbad]; unfold ra_frequency_type1_get_riv; cbn [length_vrb N_bwp_size start_vrb]; [done|]. rewrite u32_id by (unfold is_u32; lia). rewrite (proj2 (Z.leb_gt L (N - S))) by lia. by destruct (1 <=? L).
  - intros s e Hs He. unfold sliv_to_ofdm_symbols, ofdm_symbol_range_to_sliv, NOF_OFDM_SYM_PER_SLOT_NORMAL_CP. rewrite iv_length_ok by (split; cbn; lia). cbn [iv_start iv_stop]. rewrite sliv_decode by (unfold sliv_fits; lia). rewrite (u8_id s), (u8_id (e - s)), u8_id by (unfold is_u8; lia). rewrite iv_make_ok by lia. do 2 f_equal. lia.
Qed.
Lemma sliv_bijection_witness : exists riv, ra_frequency_type1_get_riv (RaType1 52 10 30) = Some riv /\ ra_frequency_type1_from_riv 52 riv = Some (RaType1 52 10 30).
Proof. destruct (proj1 (sliv_bijection 52 ltac:(lia)) 10 30 ltac:(lia) ltac:(lia) ltac:(lia)) as (riv & H1 & _ & H2). exists riv. split; [exact H1|exact H2]. Defined.
(** In the special case the value stands for the start and the length in units of K blocks, where K is the largest of 1, 2, 4 and 8 that the ratio of the bandwidth parts allows. *)
Theorem special_riv_units c riv : 0 < N_bwp_initial c < 2 ^ 15 -> 0 <= N_bwp_active c -> 0 <= special_start_vrb c -> 0 <= special_length_vrb c -> special_start_vrb c <= N_bwp_initial c -> ra_frequency_type1_special_get_riv c = Some riv ->
  exists K, In K [1; 2; 4; 8] /\ (K = 1 \/ K <= N_bwp_active c / N_bwp_initial c) /\ (forall K', In K' [1; 2; 4; 8] -> K' <= N_bwp_active c / N_bwp_initial c -> K' <= K) /\
    sliv_to_s_and_l (N_bwp_initial c) riv = Some (special_start_vrb c / K, special_length_vrb c / K).
Proof.
  intros HN Ha Hs Hl Hsn. unfold ra_frequency_type1_special_get_riv. rewrite (proj2 (Z.eqb_neq _ 0)) by lia. set (ratio := N_bwp_active c / N_bwp_initial c). cbv zeta. set (K := determine_K 4 ratio 8).
  assert (In K [1; 2; 4; 8] /\ (K = 1 \/ K <= ratio) /\ forall K', In K' [1; 2; 4; 8] -> K' <= ratio -> K' <= K) as (HK1 & HK2 & HK3).
  { unfold K, determine_K. change (8 / 2) with 4. change (4 / 2) with 2. change (2 / 2) with 1. cbn [Z.ltb Z.compare]. change (1 <? 8) with true. change (1 <? 4) with true. change (1 <? 2) with true. change (1 <? 1) with false. destruct (8 <=? ratio) eqn:E8; [|destruct (4 <=? ratio) eqn:E4; [|destruct (2 <=? ratio) eqn:E2]]; breflect; cbn [In]; (split; [tauto|]; split; [lia|]; lia). }
  assert (0 < K) as HK by (cbn [In] in HK1; lia). assert (0 <= special_start_vrb c / K <= special_start_vrb c) as Hq by (split; [apply Z.div_pos; lia|apply Z.div_le_upper_bound; nia]). destruct (1 <=? _) eqn:E1; breflect; cbn [negb]; [|done]. rewrite u32_id by (unfold is_u32; lia). destruct (_ <=? N_bwp_initial c - _) eqn:E2; breflect; cbn [negb]; [|done]. intros [= <-].
  exists K. split; [done|]. split; [done|]. split; [done|]. apply sliv_decode. unfold sliv_fits. lia.
Qed.
